(* ===== verification/_CoqProject ===== *)
-Q . S2P
Prelude.v
Sched.v
Clist.v
Mint.v
MintMul.v
MintDiv.v
Alloc.v
Timeout.v
Bytes.v
Bcache.v
Bio.v
BioLaws.v
BioSync.v
Super.v
Fs.v
Free.v
Fmap.v
Ftree.v
Fwrite.v
Umem.v
Inode.v
Names.v
Dirs.v
Path.v
Itable.v
Walk.v
Entry.v
Calls.v
CallLaws.v
Crypt.v
MintPow.v
Clear.v
Sort.v
Dlist.v
Proc.v
Runq.v
Sleepq.v
Procsched.v
Pids.v
Kheap.v
Seg.v
Segq.v
Segram.v
Segmap.v
Segpack.v
Segops.v
Seggrow.v
Fd.v
FdLaws.v
Pipe.v
PipeLaws.v
Tty.v
Al.v
TtyLaws.v
AlLaws.v
TtyOut.v
TtyEdit.v
TtyRead.v
