(* ===== verification/Prelude.v ===== *)
(** * Coherent for the Commodore 900: a verification library

    The repository holds the Coherent 3 operating system for the Commodore
    900, a machine with a segmented Z8001 processor: kernel, boot ROM, C
    compiler, libraries, commands and a graphical environment, nearly all of
    it in K&R C under src/src/.  This library models the core of the kernel
    (src/src/kernel/coh) and two self-contained libraries of userland, and
    proves what they are for.

    ** Parts and files

    Foundations.
    - Prelude: fixed-width integers ([u16], [s16], [u32], [s32] ...; an [int]
      has 16 bits and a [long] 32), generic lemmas, automation.
    - Sched: the monad [M] of kernel procedures: they return, sleep on a
      channel, stop the system, or run out of the fuel of a loop.  [wp] is the
      rule system for runs that neither sleep nor stop, [safe] the one for
      runs in which other processes change the state during a sleep, [within]
      the same for a bounded number of sleeps and with enough fuel.
    - Bytes: memory and disk images as lists of bytes, big endian, and the
      canonical disk order (canon.s, l3tol.c, ltol3.c).

    Kernel data structures.
    - Clist: coh/clist.c, the pool of linked character blocks.
    - Alloc: coh/alloc.c, the storage allocator with its header chain.
    - Timeout: coh/timeout.c and the timer part of coh/clock.c, the delta
      queue whose nodes live behind the maps of loadable drivers.

    Processes.
    - Dlist: circular doubly linked lists, the shape of every queue below.
    - Proc: the definitions: coh/proc.c, the scheduling half of coh/clock.c,
      [sendsig] and [nondsig] of coh/sig.c.
    - Runq: the run queue, which stores differences of claims, and [setrun].
    - Sleepq: the sleep queues beside it, [dispatch] and [wakeup].
    - Procsched: signals, [sleep], the clock, [redispatch] and every history
      of them.
    - Pids: process numbers, [process] and [relproc].

    Core.
    - Kheap: the class of what the users of [kalloc] and [kfree] rely on, and
      the arena of Alloc as its instance.
    - Seg: coh/seg.c and what it needs of z8001/src/commodore.c and md.s: the
      queues of segments, core as bytes, loading the MMU.
    - Segq, Segram, Segmap: the queues when they are well formed and the search
      for room; what copying and clearing clicks does, overlaps included; what the
      MMU should hold for the segments of a process, and that [segload] puts it there.
    - Segpack, Segops, Seggrow: compaction; allocation; duplication, growth
      and release.

    - Fd, FdLaws: coh/fd.c, the tables of descriptors of all processes, and
      what other processes may do while one sleeps in a driver.
    - Pipe, PipeLaws: coh/pipe.c, the ring of ten blocks behind a pipe, over
      any file that keeps to the class [PipeFileLaws].

    Terminals.
    - Umem: memory by space and address, as bytes are moved in and out.
    - Tty: drv/tty.c, the terminal service: line editing, echo, flow control,
      output processing, [ttread], [ttwrite], [ttioctl], over the queues of
      Clist and the class [TtyDriver] of a driver's start function.
    - Al: z8001/drv/al.c, the driver of the serial lines, one channel.
    - TtyLaws: the state when it is whole, [expand], which says what a queue is on
      the line, and the class [TtyDriverLaws]; AL keeps it.
    - TtyOut, TtyEdit, TtyRead: writing; what [ttin] makes of a character, as
      an abstract line editor; reading.  AlLaws: the line status, the last close.

    The buffer cache.
    - Bcache: the interface.  The class [BufCache] lists the operations that
      the file system calls, the class [BufCacheLaws] what they promise in
      terms of a view of all blocks and of the buffers held; [acache] is the
      view itself as a cache.
    - Bio: coh/bio.c itself, with the queue of the driver and interrupts that
      complete requests at any time and in any order.
    - BioLaws, BioSync: its invariant, the instance [bio_laws] that discharges
      the interface, and [bsync] and [bflush].

    The file system, over any instance of the interface.
    - Super: super blocks and free-list blocks on disk (h/filsys.h, h/fblk.h).
    - Fs: the state: cache, mount table, in-core inodes, user area.
    - Free: coh/fs2.c, free blocks, free inodes, the dirty mark on disk.
    - Fmap: coh/fs3.c, logical to physical blocks, [fread], [fwrite], [aread].
    - Ftree, Fwrite: the block tree of a file, and what [aread] and [fwrite]
      do to it and to the contents.
    - Inode: coh/fs1.c without path names, [ialloc] and [bad] of coh/fs2.c.
    - Names: the path names of coh/fs1.c: [ftoi], [ftoim], [imake], [idirent].
    - Dirs, Path, Itable: what a search of a directory finds; the names in the
      text of a path; the table of inodes, when it is whole and what attaching,
      locking and detaching do to it.
    - Walk, Entry: the walk of [ftoi]; the entries [idirent] makes and clears.
    - Calls, CallLaws: the system calls on files by name of coh/sys2.c and
      coh/sys3.c, and what [uaccess] and [setcdir] do.
    - Clear: [iclear] gives the blocks of a file back.

    Userland libraries.
    - Mint, MintMul, MintDiv, MintPow: libmp, numbers of any size in base 128.
    - Crypt: libc/gen/crypt.c and rand.c, password encryption.
    - Sort: libc/gen/qsort.c and shellsort.c.

    A C function is a definition of the same name.  Its static variables and
    the structures it reaches by pointer are a state record; a C struct is a
    record with the fields of the struct and [set_] functions; an early return
    or [goto] is a branch.  The kernel runs one process at a time and gives the
    processor away only in [sleep], so a procedure is atomic between its
    sleeps; interrupts matter to Bio, where they are modelled, to Tty, where a
    sleep on [ChIntr] marks each place at which they are let in, and to Clist
    and Timeout, whose procedures run with interrupts masked.

    ** What is proved

    - Clist: the pool invariant; any sequence of [putq] and [getq] refines a
      first-in first-out list; [waitq] under any interference.
    - Alloc: the arena stays well formed, blocks do not overlap, neighbours
      are joined, and each call does exactly what it should or reports why not.
    - Timeout: structures are called exactly when due, within the number of
      ticks asked for, and in order.
    - Runq, Sleepq, Procsched: from [pcsinit] on every sequence of events keeps
      the queues well formed; who runs next has the highest claim of those
      in core; [wakeup] wakes the sleepers on its event and nobody else;
      [sleep] and signals.  Pids: numbers are fresh and the list is in order.
    - Kheap: the arena keeps the laws of the heap: both calls return, and
      [kalloc] fails exactly when no run of free blocks is large enough.
      Segpack, Segops, Seggrow, over any heap with these laws: segments never
      overlap; allocation, growth and compaction keep every other segment byte
      for byte; a segment that grows has its old bytes at the end it does not
      grow at and zeros elsewhere; compaction makes room whenever the holes
      together suffice and nothing is wired, marks the processes of every
      segment it moves, and loads the MMU again when one is the running one's;
      allocation fails only when the heap is full or core has no hole.
    - FdLaws: the count of every descriptor is the number of slots that hold
      it, at every sleep and after every call, and [fdopen] can be abandoned
      at any sleep.
    - PipeLaws: bytes come out of a pipe in the order they went in, with readers
      and writers interleaved at every sleep; nobody waits for what is there,
      each sleep is marked for the other side to wake, and no wake-up is lost.
    - TtyEdit: [ttin] refines the editor [edit] on the line, character by
      character.  TtyRead, TtyOut: a reader gets the next line of exactly what was
      typed, a writer's bytes go out in order between what is echoed, whatever
      interrupts do meanwhile; [alstart] sends what [expand] says.  AlLaws: a
      break and a lost carrier; every block goes back to the pool.
    - Bio: the cache keeps every law of the interface for every schedule of
      completions ([bio_implements_cache]), the search for a buffer always
      ends, and [bsync] and [bflush] bring the blocks to the disk.
    - Free, Super: images on disk read back; [balloc] and [bfree] refine a
      stack of distinct blocks across the chain on disk; the disk says dirty
      before anything changes and clean after a sync.
    - Fmap, Ftree, Fwrite: [lmap] is a bijection onto index lists; [fread]
      moves exactly the bytes of the file; [aread] and [fwrite] keep the tree
      free of shared blocks, allocate what they link, and change exactly the
      bytes written; out of space is accounted for exactly.
    - Inode, Clear: an inode survives the trip to disk and back for every type
      of file; clearing a file frees each of its blocks once.
    - Walk, Entry, CallLaws: [ftoi] finds what the abstract walk [resolve] finds,
      with its errors, and leaves every other inode as it was; a directory has
      the names it had and the one entered, or but the one removed; access is
      decided for the real ids, which are put back on every path; a process
      moves only to a directory it may search, and counts stay right.
    - Mint...: arithmetic is exact on normal forms, division with the sign
      rules of the code, powers, gcd with a logarithmic bound on its turns, square root
      with a bound, conversion from and to strings.
    - Crypt: decryption undoes encryption for every key schedule and E table;
      [crypt] returns text that depends on the password and the salt alone, and
      leaves the memory its key schedule turns beyond an array as it was; what the
      two faults of the key schedule mean for passwords.
    - Sort: both sorts end with a permutation of the records in order and
      touch nothing outside the array.

    ** Bounds and fuel

    Loops that are not structural take fuel, and a theorem gives an amount
    that always suffices: the number of digits for the libmp loops (7 for each
    digit of a square root, the bits of both numbers for a gcd), the size of the arena
    or pool for Alloc and Clist, the number of blocks of a transfer for
    [fread] and [fwrite], the number of buffers for [bclaim] (each turn writes
    one dirty buffer, and one wait is enough after that), the number of
    requests in the queue for a wait, the number of processes for a walk along
    the run queue or the list of processes and its square for [wakeup], which
    starts again after everybody it wakes.  [retry] of the file system bounds how
    often a process that was woken may find a gate taken again; the theorems
    need one try, because the gates are free when they start.  A pipe takes
    three turns of the loop for each time it is woken.  [PATHFUEL] is two more
    than the characters [ftoic] gives, [PATHMAX].  A process holds
    fewer than [NHOLD] = 8 buffers at a time; the cache has 40.  Walks along
    the queue of segments take as many turns as there are descriptors and one
    more; core ends at click 16384, where hardware addresses end.

    ** What is not modelled

    - The file system theorems are about one process at a time: what another
      process does to the same file during a sleep is not followed there.
    - The walk is proved within one file system: crossing a mount point ([ftoim],
      [iattach]) is modelled and not proved, and so are [imake] and the calls of
      Calls besides [uaccess] and [setcdir].  [fsmount] and [fsremount], [iopen],
      [iclose] and [pmake], raw I/O ([ioreq]) and the thin entries of the device
      switch are not modelled; writing to a device or a pipe is an argument.
    - Of processes: fork and exit, gates, the switch of the machine state;
      of signals: delivery to a handler, core dumps, ptrace.
    - Of segments: the swapper (the paths into it are defined, but the theorems
      are about a system where [sexflag] is 0), [ssalloc], which reads a file,
      and [segsize], which sends a signal.
    - Program loading, the calls on descriptors, mount and accounting, the
      dispatch of a trap to a call, the disk and console drivers, interrupt vectors, the machine-dependent kernel in assembly, boot ROM.
    - The compiler, the commands, the graphical environment and the rest of
      the C library.  The manifest lists each with the reason.
    - Storage of [mint] numbers: procedures return values; the effect of the
      wrong free in pow.c is reported as a finding only.
    - Of the terminals: a signal that leaves a sleep by a jump; what a flush in the
      middle of a read or write does to it (the theorems about both assume none);
      raw and break mode are defined and the theorems are about lines. *)
From Stdlib Require Export ZArith Lia.
From stdpp Require Export prelude gmap strings.

#[global] Set Default Goal Selector "!".
Open Scope Z_scope.

(** ** Fixed-width C integers

    The Z8001 compiler has 8-bit [char] (signed), 16-bit [int] and 32-bit
    [long].  Values are kept as [Z]; an operation that the machine performs
    modulo a power of two is followed by one of these conversions. *)

Definition wrapu (w : Z) (z : Z) : Z := z mod 2 ^ w.
Definition wraps (w : Z) (z : Z) : Z := (z + 2 ^ (w - 1)) mod 2 ^ w - 2 ^ (w - 1).

Definition u8 : Z -> Z := wrapu 8.
Definition s8 : Z -> Z := wraps 8.
Definition u16 : Z -> Z := wrapu 16.
Definition s16 : Z -> Z := wraps 16.
Definition u32 : Z -> Z := wrapu 32.
Definition s32 : Z -> Z := wraps 32.

Lemma wrapu_small w z : 0 <= z < 2 ^ w -> wrapu w z = z.
Proof. intros. unfold wrapu. by rewrite Z.mod_small. Qed.

Lemma wrapu_range w z : 0 < w -> 0 <= wrapu w z < 2 ^ w.
Proof. intros. unfold wrapu. apply Z.mod_pos_bound. by apply Z.pow_pos_nonneg; lia. Qed.

Lemma wraps_small w z : 0 < w -> - 2 ^ (w - 1) <= z < 2 ^ (w - 1) -> wraps w z = z.
Proof.
  intros Hw Hz. unfold wraps.
  assert (2 ^ w = 2 * 2 ^ (w - 1)) as E.
  { rewrite <- Z.pow_succ_r by lia. f_equal. lia. }
  rewrite Z.mod_small by lia. lia.
Qed.

Lemma wraps_range w z : 0 < w -> - 2 ^ (w - 1) <= wraps w z < 2 ^ (w - 1).
Proof.
  intros Hw. unfold wraps.
  assert (2 ^ w = 2 * 2 ^ (w - 1)) as E.
  { rewrite <- Z.pow_succ_r by lia. f_equal. lia. }
  pose proof (Z.mod_pos_bound (z + 2 ^ (w - 1)) (2 ^ w)
                ltac:(by apply Z.pow_pos_nonneg; lia)). lia.
Qed.

Lemma wrapu_wraps w z : 0 < w -> wrapu w (wraps w z) = wrapu w z.
Proof.
  intros Hw. unfold wrapu, wraps.
  rewrite Zminus_mod_idemp_l. f_equal. lia.
Qed.

Lemma u8_small z : 0 <= z < 256 -> u8 z = z.
Proof. apply (wrapu_small 8). Qed.
Lemma u16_small z : 0 <= z < 65536 -> u16 z = z.
Proof. apply (wrapu_small 16). Qed.
Lemma u32_small z : 0 <= z < 4294967296 -> u32 z = z.
Proof. apply (wrapu_small 32). Qed.
Lemma s8_small z : -128 <= z < 128 -> s8 z = z.
Proof. intros. by apply (wraps_small 8). Qed.
Lemma s16_small z : -32768 <= z < 32768 -> s16 z = z.
Proof. intros. by apply (wraps_small 16). Qed.
Lemma s32_small z : -2147483648 <= z < 2147483648 -> s32 z = z.
Proof. intros. by apply (wraps_small 32). Qed.
Lemma u8_range z : 0 <= u8 z < 256.
Proof. by apply (wrapu_range 8). Qed.
Lemma u16_range z : 0 <= u16 z < 65536.
Proof. by apply (wrapu_range 16). Qed.
Lemma u32_range z : 0 <= u32 z < 4294967296.
Proof. by apply (wrapu_range 32). Qed.
Lemma s8_range z : -128 <= s8 z < 128.
Proof. by apply (wraps_range 8). Qed.
Lemma s16_range z : -32768 <= s16 z < 32768.
Proof. by apply (wraps_range 16). Qed.
Lemma s32_range z : -2147483648 <= s32 z < 2147483648.
Proof. by apply (wraps_range 32). Qed.

Lemma wraps_eqm w a b k : 0 < w -> a = b + k * 2 ^ w -> wraps w a = wraps w b.
Proof.
  intros Hw ->. unfold wraps. f_equal.
  replace (b + k * 2 ^ w + 2 ^ (w - 1)) with (b + 2 ^ (w - 1) + k * 2 ^ w) by lia.
  apply Z.mod_add. apply Z.pow_nonzero; lia.
Qed.

Lemma wraps_decomp w a : 0 < w -> exists k, wraps w a = a + k * 2 ^ w.
Proof.
  intros Hw. exists (- ((a + 2 ^ (w - 1)) / 2 ^ w)). unfold wraps.
  pose proof (Z.div_mod (a + 2 ^ (w - 1)) (2 ^ w) ltac:(apply Z.pow_nonzero; lia)). lia.
Qed.

Lemma s16_opp_s16 z : s16 (- s16 z) = s16 (- z).
Proof.
  destruct (wraps_decomp 16 z ltac:(done)) as [k Hk].
  apply (wraps_eqm 16 _ _ (- k)); [done|]. unfold s16. rewrite Hk. lia.
Qed.

(** Reading a [char] and masking it with [0377] gives the byte back. *)
Lemma s8_land_255 b : Z.land (s8 b) 255 = u8 b.
Proof.
  change 255 with (Z.ones 8). rewrite Z.land_ones by lia.
  change (2 ^ 8) with 256. apply (wrapu_wraps 8). lia.
Qed.

Create Rewrite HintDb cint_rw.
Create HintDb cint.
#[export] Hint Rewrite u8_small u16_small u32_small s8_small s16_small s32_small
  using lia : cint_rw.
#[export] Hint Resolve u8_range u16_range u32_range s8_range s16_range s32_range : cint.

(** [cint] removes every wrap-around whose argument [lia] can bound. *)
Ltac cint := autorewrite with cint_rw in *.

(** ** Arrays

    A C array is a list; reading or writing outside it has no meaning in the
    program, so both are partial. *)

Definition aget {A} (l : list A) (i : Z) : option A :=
  if i <? 0 then None else l !! Z.to_nat i.

Definition aset {A} (l : list A) (i : Z) (x : A) : option (list A) :=
  if (0 <=? i) && (i <? Z.of_nat (length l)) then Some (<[Z.to_nat i := x]> l) else None.

Lemma aget_is_Some {A} (l : list A) i :
  0 <= i < Z.of_nat (length l) -> exists x, aget l i = Some x.
Proof.
  intros Hi. unfold aget. rewrite (proj2 (Z.ltb_ge i 0)) by lia.
  destruct (lookup_lt_is_Some_2 l (Z.to_nat i)) as [x Hx]; [lia | eauto].
Qed.

Lemma aget_range {A} (l : list A) i x :
  aget l i = Some x -> 0 <= i < Z.of_nat (length l).
Proof.
  unfold aget. destruct (Z.ltb_spec i 0); [done|].
  intros E%lookup_lt_Some. lia.
Qed.

Lemma aset_is_Some {A} (l : list A) i x :
  0 <= i < Z.of_nat (length l) -> aset l i x = Some (<[Z.to_nat i := x]> l).
Proof.
  intros Hi. unfold aset.
  rewrite (proj2 (Z.leb_le 0 i)), (proj2 (Z.ltb_lt i _)) by lia. done.
Qed.

Lemma aset_Some {A} (l l' : list A) i x :
  aset l i x = Some l' -> 0 <= i < Z.of_nat (length l) /\ l' = <[Z.to_nat i := x]> l.
Proof.
  unfold aset. destruct (Z.leb_spec 0 i), (Z.ltb_spec i (Z.of_nat (length l))); simpl;
    intros; simplify_eq; split; auto; lia.
Qed.

(** ** Generic tactics *)

(** Split the boolean tests of a translated condition. *)
Ltac bool_cases :=
  repeat match goal with
  | |- context [Z.eqb ?a ?b] => destruct (Z.eqb_spec a b)
  | |- context [Z.ltb ?a ?b] => destruct (Z.ltb_spec a b)
  | |- context [Z.leb ?a ?b] => destruct (Z.leb_spec a b)
  end.

(** ** Lists *)

Lemma list_filter_all {A} (P : A -> Prop) `{forall x, Decision (P x)} (l : list A) :
  Forall P l -> filter P l = l.
Proof. induction 1; [done|]. rewrite filter_cons_True by done. by f_equal. Qed.

(** Signed and unsigned views of the same word. *)
Lemma u16_s16 z : u16 (s16 z) = u16 z.
Proof. by apply (wrapu_wraps 16). Qed.
Lemma u32_s32 z : u32 (s32 z) = u32 z.
Proof. by apply (wrapu_wraps 32). Qed.
Lemma s16_u16 z : s16 (u16 z) = s16 z.
Proof.
  apply (wraps_eqm 16 _ _ (- (z / 2 ^ 16))); [done|]. unfold u16, wrapu.
  pose proof (Z.div_mod z (2 ^ 16) ltac:(done)). lia.
Qed.
Lemma s32_u32 z : s32 (u32 z) = s32 z.
Proof.
  apply (wraps_eqm 32 _ _ (- (z / 2 ^ 32))); [done|]. unfold u32, wrapu.
  pose proof (Z.div_mod z (2 ^ 32) ltac:(done)). lia.
Qed.
Lemma u16_u16 z : u16 (u16 z) = u16 z.
Proof. apply u16_small, u16_range. Qed.
Lemma u32_u32 z : u32 (u32 z) = u32 z.
Proof. apply u32_small, u32_range. Qed.

(** Disjoint bit fields add. *)
(** Testing a flag: [(x & 1<<k) != 0]. *)
Lemma land_pow2 (x k : Z) : 0 <= k -> negb (Z.land x (2 ^ k) =? 0) = Z.testbit x k.
Proof.
  intros Hk. destruct (Z.testbit x k) eqn:E.
  - apply (proj2 (negb_true_iff _)), Z.eqb_neq. intros H0.
    assert (Z.testbit (Z.land x (2 ^ k)) k = false) as H1 by (by rewrite H0, Z.bits_0).
    rewrite Z.land_spec, E, Z.pow2_bits_true in H1 by done. done.
  - apply (proj2 (negb_false_iff _)), Z.eqb_eq, Z.bits_inj'. intros j Hj.
    rewrite Z.bits_0, Z.land_spec, Z.pow2_bits_eqb by done.
    destruct (Z.eqb_spec k j) as [->|]; [by rewrite E|apply andb_false_r].
Qed.
Lemma testbit_set (x f k : Z) : Z.testbit (Z.lor x f) k = Z.testbit x k || Z.testbit f k.
Proof. apply Z.lor_spec. Qed.
Lemma testbit_clear (x f k : Z) : 0 <= k -> Z.testbit (Z.land x (Z.lnot f)) k = Z.testbit x k && negb (Z.testbit f k).
Proof. intros Hk. by rewrite Z.land_spec, Z.lnot_spec. Qed.

Lemma lor_high_low a b n : 0 <= n -> 0 <= b < 2 ^ n -> Z.lor (a * 2 ^ n) b = a * 2 ^ n + b.
Proof.
  intros Hn Hb.
  assert (Z.land (a * 2 ^ n) b = 0) as H0.
  { apply Z.bits_inj'. intros i Hi. rewrite Z.land_spec, Z.bits_0.
    destruct (Z.ltb_spec i n) as [Hlt|Hge].
    - rewrite Z.mul_pow2_bits_low by lia. done.
    - rewrite <- (Z.mod_small b (2 ^ n)) by lia. rewrite Z.mod_pow2_bits_high by lia. apply andb_false_r. }
  rewrite Z.add_nocarry_lxor by done. symmetry. by apply Z.lxor_lor.
Qed.
