(* ===== verification/Sched.v ===== *)
(** Kernel computations: the state and sleep monad in which the kernel
    procedures are written.

    A kernel procedure either returns, or calls [sleep] on a channel, in
    which case the rest of the procedure runs from whatever state the other
    processes leave behind, or ends the system ([panic], or an access the
    program gives no meaning to).  Loops that have no structural measure carry
    fuel, and running out of it is an outcome of its own. *)
From S2P Require Import Prelude.
From stdpp Require Export strings.

(** The addresses the kernel sleeps on and wakes up. *)
Inductive chan :=
| ChCltwant                    (* &cltwant, clist.c *)
| ChBuf (i : nat)              (* a buffer header, bio.c *)
| ChBufneed                    (* &bufneed, bio.c *)
| ChGate (g : Z)               (* a gate *)
| ChInode (i : nat)            (* the gate of an in-core inode *)
| ChMount (dev : Z) (il : bool) (* the m_ilock or m_flock gate of a mount entry *)
| ChPrx (i : nat)              (* &ip->i_a.i_prx, pipe.c *)
| ChPwx (i : nat)              (* &ip->i_a.i_pwx, pipe.c *)
| ChSwapbuf                    (* &swapbuf, seg.c *)
| ChTtyIn                      (* &tp->t_iq, tty.c *)
| ChTtyOut                     (* &tp->t_oq, tty.c *)
| ChTtyOpen                    (* &tp->t_open, al.c *)
| ChIntr                       (* no sleep: interrupts are let in, by spl *)
| ChRun.                       (* the run queue, until the swapper has brought the process in *)

#[global] Instance chan_eq_dec : EqDecision chan.
Proof. solve_decision. Defined.

Inductive why :=
| Panicked (msg : string)      (* panic(msg) *)
| BadAccess.                   (* a dereference outside every object *)

Inductive out (S A : Type) : Type :=
| Ret (a : A) (s : S)
| Sleep (ch : chan) (s : S) (k : S -> out S A)
| Stop (w : why)
| NoFuel.
Arguments Ret {S A} _ _.
Arguments Sleep {S A} _ _ _.
Arguments Stop {S A} _.
Arguments NoFuel {S A}.

Definition M (S A : Type) : Type := S -> out S A.

Fixpoint obind {S A B} (o : out S A) (f : A -> M S B) : out S B :=
  match o with
  | Ret a s => f a s
  | Sleep ch s k => Sleep ch s (fun s' => obind (k s') f)
  | Stop w => Stop w
  | NoFuel => NoFuel
  end.

Definition kret {S A} (a : A) : M S A := fun s => Ret a s.
Definition kbind {S A B} (m : M S A) (f : A -> M S B) : M S B := fun s => obind (m s) f.
Definition get {S} : M S S := fun s => Ret s s.
Definition gets {S A} (f : S -> A) : M S A := fun s => Ret (f s) s.
Definition modify {S} (f : S -> S) : M S unit := fun s => Ret tt (f s).
Definition panic {S A} (msg : string) : M S A := fun _ => Stop (Panicked msg).
Definition bad {S A} : M S A := fun _ => Stop BadAccess.
Definition sleep {S} (ch : chan) : M S unit := fun s => Sleep ch s (fun s' => Ret tt s').
Definition nofuel {S A} : M S A := fun _ => NoFuel.
(** An access that must be inside an object. *)
Definition deref {S A} (o : option A) : M S A :=
  match o with Some a => kret a | None => bad end.

(** A procedure on a part of the state. *)
Fixpoint zoomed {S T A} (g : S -> T) (put : T -> S -> S) (o : out T A) (s : S) : out S A :=
  match o with
  | Ret a t => Ret a (put t s)
  | Sleep ch t k => Sleep ch (put t s) (fun s' => zoomed g put (k (g s')) s')
  | Stop w => Stop w
  | NoFuel => NoFuel
  end.
Definition zoom {S T A} (g : S -> T) (put : T -> S -> S) (m : M T A) : M S A := fun s => zoomed g put (m (g s)) s.

Declare Scope kernel_scope.
Delimit Scope kernel_scope with K.
Notation "x <- m ;; k" := (kbind m (fun x => k))
  (at level 100, m at next level, right associativity) : kernel_scope.
Notation "m ;;; k" := (kbind m (fun _ => k))
  (at level 100, right associativity) : kernel_scope.

(** ** Two ways of running a procedure

    [safe R I o Q]: whatever the other processes do during a sleep, as long as
    they keep to [R], the procedure does not stop the system, leaves [I] true
    whenever it sleeps, and establishes [Q] when it returns. *)
Fixpoint safe {S A} (R : S -> S -> Prop) (I : S -> Prop) (o : out S A) (Q : A -> S -> Prop) : Prop :=
  match o with
  | Ret a s => Q a s
  | Sleep _ s k => I s /\ forall s', R s s' -> safe R I (k s') Q
  | Stop _ => False
  | NoFuel => True
  end.

Lemma safe_bind {S A B} R I (o : out S A) (f : A -> M S B) Q :
  safe R I o (fun a s => safe R I (f a s) Q) -> safe R I (obind o f) Q.
Proof.
  induction o as [| ch s k IH | |]; simpl; auto.
  intros [HI Hk]. split; [done|]. intros s' HR. by apply IH, Hk.
Qed.

Lemma safe_mono {S A} R I (o : out S A) (Q Q' : A -> S -> Prop) :
  (forall a s, Q a s -> Q' a s) -> safe R I o Q -> safe R I o Q'.
Proof.
  intros HQ. induction o as [| ch s k IH | |]; simpl; auto.
  intros [HI Hk]. split; [done|]. intros s' HR. by apply IH, Hk.
Qed.

(** A procedure that neither sleeps nor stops is a function of its state. *)
Definition returns {S A} (m : M S A) (s : S) : Prop := exists a s', m s = Ret a s'.

Lemma obind_ret {S A B} (m : M S A) (f : A -> M S B) s a s' :
  m s = Ret a s' -> kbind m f s = f a s'.
Proof. intros E. unfold kbind. by rewrite E. Qed.

(** ** Running to the end

    [wp m Q s]: run from [s], the procedure returns without sleeping, and
    [Q] holds of the result and the state it leaves. *)
Definition wp {S A} (m : M S A) (Q : A -> S -> Prop) (s : S) : Prop :=
  match m s with Ret a s' => Q a s' | _ => False end.

Section wp.
Context {S : Type}.

Lemma wp_bind {A B} (m : M S A) (f : A -> M S B) Q s :
  wp m (fun a s' => wp (f a) Q s') s -> wp (kbind m f) Q s.
Proof. unfold wp, kbind. by destruct (m s). Qed.

Lemma wp_unbind {A B} (m : M S A) (f : A -> M S B) Q s :
  wp (kbind m f) Q s -> wp m (fun a s' => wp (f a) Q s') s.
Proof. unfold wp, kbind. by destruct (m s). Qed.

Lemma wp_ret {A} (a : A) (Q : A -> S -> Prop) s : Q a s -> wp (kret a) Q s.
Proof. done. Qed.

Lemma wp_gets {A} (f : S -> A) (Q : A -> S -> Prop) s : Q (f s) s -> wp (gets f) Q s.
Proof. done. Qed.

Lemma wp_modify (f : S -> S) (Q : unit -> S -> Prop) s : Q tt (f s) -> wp (modify f) Q s.
Proof. done. Qed.

Lemma wp_deref {A} (o : option A) a (Q : A -> S -> Prop) s : o = Some a -> Q a s -> wp (deref o) Q s.
Proof. by intros ->. Qed.

Lemma wp_mono {A} (m : M S A) (Q Q' : A -> S -> Prop) s :
  wp m Q s -> (forall a s', Q a s' -> Q' a s') -> wp m Q' s.
Proof. unfold wp. destruct (m s); auto. Qed.

Lemma wp_and {A} (m : M S A) (Q Q' : A -> S -> Prop) s : wp m Q s -> wp m Q' s -> wp m (fun a s' => Q a s' /\ Q' a s') s.
Proof. unfold wp. by destruct (m s). Qed.

Lemma wp_zoom {T A} (g : S -> T) (put : T -> S -> S) (m : M T A) (Q : A -> S -> Prop) s :
  wp m (fun a t => Q a (put t s)) (g s) -> wp (zoom g put m) Q s.
Proof. unfold wp, zoom. by destruct (m (g s)). Qed.

(** What holds of the result under a condition on the start. *)
Lemma wp_forall {A B} (m : M S A) (P : B -> Prop) (Q : B -> A -> S -> Prop) s :
  wp m (fun _ _ => True) s -> (forall b, P b -> wp m (Q b) s) -> wp m (fun a s' => forall b, P b -> Q b a s') s.
Proof. unfold wp. destruct (m s); auto. Qed.

Lemma wp_returns {A} (m : M S A) Q s : wp m Q s <-> exists a s', m s = Ret a s' /\ Q a s'.
Proof.
  unfold wp. split.
  - destruct (m s) as [a s'| | |]; try done. intros HQ. by exists a, s'.
  - by intros (a & s' & -> & HQ).
Qed.
End wp.

Lemma safe_kbind {S A B} R I (m : M S A) (f : A -> M S B) Q s :
  safe R I (m s) (fun a s' => safe R I (f a s') Q) -> safe R I (kbind m f s) Q.
Proof. apply safe_bind. Qed.

Lemma safe_wp {S A} R I (m : M S A) Q s : wp m Q s -> safe R I (m s) Q.
Proof. unfold wp. by destruct (m s). Qed.

(** A step that does not sleep, within a procedure that may. *)
Lemma safe_step {S A B} R I (m : M S A) (f : A -> M S B) Q s :
  wp m (fun a s' => safe R I (f a s') Q) s -> safe R I (kbind m f s) Q.
Proof. intros Hm. by apply safe_kbind, safe_wp. Qed.

Lemma safe_inv {S A} R (I I' : S -> Prop) (o : out S A) Q : (forall s, I s -> I' s) -> safe R I o Q -> safe R I' o Q.
Proof.
  intros HI. induction o as [| ch s k IH | |]; simpl; auto.
  intros [Hs Hk]. split; [by apply HI|]. intros s' HR. by apply IH, Hk.
Qed.

(** ** Total runs

    [within R I n o Q]: as [safe], and the procedure does not run out of fuel
    either as long as it has slept at most [n] times; [I] may depend on the
    channel, and [Q] gets the number of sleeps that were left. *)
Fixpoint within {S A} (R : S -> S -> Prop) (I : chan -> S -> Prop) (n : nat) (o : out S A)
    (Q : nat -> A -> S -> Prop) {struct o} : Prop :=
  match o with
  | Ret a s => Q n a s
  | Sleep ch s k => I ch s /\ match n with O => True | S n' => forall s', R s s' -> within R I n' (k s') Q end
  | Stop _ => False
  | NoFuel => False
  end.

Section within.
Context {S : Type} (R : S -> S -> Prop) (I : chan -> S -> Prop).

Lemma within_mono {A} n (o : out S A) Q Q' : (forall m a s, (m <= n)%nat -> Q m a s -> Q' m a s) -> within R I n o Q -> within R I n o Q'.
Proof.
  revert n. induction o as [a s| ch s k IH | |]; simpl; intros n HQ; [by apply HQ| |done|done].
  destruct n as [|n]; intros [HI Hk]; (split; [done|]); [done|].
  intros s' HR. apply IH; [|by apply Hk]. intros m a t Hm. apply HQ. lia.
Qed.

Lemma within_kbind {A B} n (m : M S A) (f : A -> M S B) Q s :
  within R I n (m s) (fun n' a s' => within R I n' (f a s') Q) -> within R I n (kbind m f s) Q.
Proof.
  unfold kbind. generalize (m s) as o. intros o. revert n.
  induction o as [| ch t k IH | |]; simpl; intros n; [done| |done|done].
  destruct n as [|n]; intros [HI Hk]; (split; [done|]); [done|]. intros s' HR. by apply IH, Hk.
Qed.

Lemma within_wp {A} n (m : M S A) Q s : wp m (Q n) s -> within R I n (m s) Q.
Proof. unfold wp. by destruct (m s). Qed.

Lemma within_step {A B} n (m : M S A) (f : A -> M S B) Q s :
  wp m (fun a s' => within R I n (f a s') Q) s -> within R I n (kbind m f s) Q.
Proof. intros Hm. by apply within_kbind, within_wp. Qed.

Lemma within_sleep {B} n ch (f : unit -> M S B) Q s : I ch s ->
  (forall n', n = Datatypes.S n' -> forall s', R s s' -> within R I n' (f tt s') Q) -> within R I n (kbind (sleep ch) f s) Q.
Proof. intros HI Hk. split; [done|]. destruct n as [|n']; [done|]. intros s' HR. by apply (Hk n'). Qed.

End within.
