(* ===== verification/Clist.v ===== *)
(** Character lists (kernel/coh/clist.c): the queues of the terminal drivers,
    kept in a pool of linked blocks of [NCPCL] characters.

    [sphi]/[spl] bracket every operation, so each one is atomic, and the clist
    mapping macros ([csave], [cmapv], [crest]) are empty on this machine
    (z8001/h/machine.h): the blocks are permanently mapped. *)
From S2P Require Import Prelude Sched.
Local Open Scope kernel_scope.
Local Open Scope Z_scope.

Definition NCPCL : Z := 252.       (* 256 - sizeof(cmap_t) *)
Definition NCLIST : Z := 32.
Definition CLSIZE : Z := 256.      (* sizeof(CLIST) *)

(** A block; pointers are addresses and 0 is the null pointer. *)
Record clist := { cl_fp : Z; cl_ch : list Z }.

Record cqueue := {
  cq_cc : Z;                       (* character count *)
  cq_ip : Z;                       (* input pointer *)
  cq_ix : Z;                       (* input index *)
  cq_op : Z;                       (* output pointer *)
  cq_ox : Z                        (* output index *)
}.

Record clstate := {
  cl_mem : gmap Z clist;           (* the blocks, by address *)
  cltfree : Z;                     (* character free list *)
  cltwant : Z;                     (* a wanted flag *)
  cl_woken : list chan             (* wakeup() calls, latest first *)
}.

Definition set_cltfree (p : Z) (st : clstate) : clstate :=
  {| cl_mem := cl_mem st; cltfree := p; cltwant := cltwant st; cl_woken := cl_woken st |}.
Definition set_cltwant (w : Z) (st : clstate) : clstate :=
  {| cl_mem := cl_mem st; cltfree := cltfree st; cltwant := w; cl_woken := cl_woken st |}.
Definition cl_wakeup (ch : chan) (st : clstate) : clstate :=
  {| cl_mem := cl_mem st; cltfree := cltfree st; cltwant := cltwant st;
     cl_woken := ch :: cl_woken st |}.
Definition set_mem (p : Z) (c : clist) (st : clstate) : clstate :=
  {| cl_mem := <[p := c]> (cl_mem st); cltfree := cltfree st; cltwant := cltwant st;
     cl_woken := cl_woken st |}.

(** [cvirt(p)]: the block a pointer designates. *)
Definition cvirt (p : Z) : M clstate clist :=
  st <- get ;; deref (cl_mem st !! p).

(** [cvirt(p)->cl_fp = v] and [cvirt(p)->cl_ch[i] = c]. *)
Definition put_fp (p v : Z) : M clstate unit :=
  b <- cvirt p ;; modify (set_mem p {| cl_fp := v; cl_ch := cl_ch b |}).
Definition put_ch (p i c : Z) : M clstate unit :=
  b <- cvirt p ;;
  l <- deref (aset (cl_ch b) i (u8 c)) ;;
  modify (set_mem p {| cl_fp := cl_fp b; cl_ch := l |}).

(** Initialise character list queues. *)
Fixpoint cltinit_loop (fuel : nat) (clistp p lm : Z) : M clstate Z :=
  match fuel with
  | O => nofuel
  | S fuel =>
    let p := s32 (p - CLSIZE) in
    if clistp <=? p then
      put_fp p lm ;;;
      cltinit_loop fuel clistp p p
    else kret lm
  end.

Definition cltinit (clistp : Z) : M clstate unit :=
  lm <- cltinit_loop (S (Z.to_nat NCLIST)) clistp (s32 (clistp + NCLIST * CLSIZE)) 0 ;;
  modify (set_cltfree lm).

(** Get a character from the given queue: the character, or -1, and the
    queue header as the call leaves it. *)
Definition getq (cqp : cqueue) : M clstate (Z * cqueue) :=
  if cq_cc cqp =? 0 then kret (-1, cqp) else
  let op := cq_op cqp in
  let ox := cq_ox cqp in
  b <- cvirt op ;;
  ch <- deref (aget (cl_ch b) ox) ;;
  let c := Z.land (s8 ch) 255 in
  let cc := s16 (cq_cc cqp - 1) in
  let ox1 := if cc =? 0 then ox else s16 (ox + 1) in
  if (cc =? 0) || (ox1 =? NCPCL) then
    b <- cvirt op ;;
    let np := cl_fp b in
    free <- gets cltfree ;;
    put_fp op free ;;;
    modify (set_cltfree op) ;;;
    let q := if np =? 0
             then {| cq_cc := cc; cq_ip := 0; cq_ix := 0; cq_op := np; cq_ox := 0 |}
             else {| cq_cc := cc; cq_ip := cq_ip cqp; cq_ix := cq_ix cqp;
                     cq_op := np; cq_ox := 0 |} in
    want <- gets cltwant ;;
    (if want =? 0 then kret tt
     else modify (set_cltwant 0) ;;; modify (cl_wakeup ChCltwant)) ;;;
    kret (c, q)
  else
    kret (c, {| cq_cc := cc; cq_ip := cq_ip cqp; cq_ix := cq_ix cqp;
                cq_op := op; cq_ox := ox1 |}).

(** The tail of [putq]: store [c] at the input index of block [ip]. *)
Definition putq_store (cqp : cqueue) (c ip op : Z) : M clstate (Z * cqueue) :=
  let ix := cq_ix cqp in
  put_ch ip ix c ;;;
  let ix1 := s16 (ix + 1) in
  kret (c, {| cq_cc := s16 (cq_cc cqp + 1); cq_ip := ip;
              cq_ix := if ix1 =? NCPCL then 0 else ix1;
              cq_op := op; cq_ox := cq_ox cqp |}).

(** Put a character on the given queue: [c], or -1 when no block is free. *)
Definition putq (cqp : cqueue) (c : Z) : M clstate (Z * cqueue) :=
  if cq_ix cqp =? 0 then
    ip <- gets cltfree ;;
    if ip =? 0 then kret (-1, cqp) else
    b <- cvirt ip ;;
    modify (set_cltfree (cl_fp b)) ;;;
    put_fp ip 0 ;;;
    let np := cq_ip cqp in
    if np =? 0 then putq_store cqp c ip ip
    else put_fp np ip ;;; putq_store cqp c ip (cq_op cqp)
  else putq_store cqp c (cq_ip cqp) (cq_op cqp).

(** Clear a character queue. *)
Fixpoint clrq (fuel : nat) (cqp : cqueue) : M clstate cqueue :=
  match fuel with
  | O => nofuel
  | S fuel =>
    r <- getq cqp ;;
    if 0 <=? fst r then clrq fuel (snd r) else kret (snd r)
  end.

(** Wait for more character queues to become available. *)
Fixpoint waitq (fuel : nat) : M clstate unit :=
  match fuel with
  | O => nofuel
  | S fuel =>
    free <- gets cltfree ;;
    if free =? 0 then
      modify (set_cltwant 1) ;;;
      sleep ChCltwant ;;;
      waitq fuel
    else kret tt
  end.

(** ** Representation

    [chain m p bs]: the blocks [bs] are linked in that order from [p]. *)
Fixpoint chain (m : gmap Z clist) (p : Z) (bs : list Z) : Prop :=
  match bs with
  | [] => p = 0
  | b :: bs => p = b /\ b <> 0 /\
      exists c, m !! b = Some c /\ Z.of_nat (length (cl_ch c)) = NCPCL /\ chain m (cl_fp c) bs
  end.

Definition chars (m : gmap Z clist) (b : Z) : list Z :=
  match m !! b with Some c => cl_ch c | None => [] end.
Definition data (m : gmap Z clist) (bs : list Z) : list Z := concat (map (chars m) bs).

(** The number of characters the input block holds. *)
Definition ixe (q : cqueue) : nat := Z.to_nat (if cq_ix q =? 0 then NCPCL else cq_ix q).

(** [qrep m q bs l]: the header [q] owns the blocks [bs] and holds the
    characters [l], oldest first. *)
Definition qrep (m : gmap Z clist) (q : cqueue) (bs l : list Z) : Prop :=
  chain m (cq_op q) bs /\
  cq_cc q = Z.of_nat (length l) /\
  0 <= cq_ox q < NCPCL /\ 0 <= cq_ix q < NCPCL /\
  match rev bs with
  | [] => q = {| cq_cc := 0; cq_ip := 0; cq_ix := 0; cq_op := 0; cq_ox := 0 |} /\ l = []
  | b :: rbs =>
      cq_ip q = b /\ l <> [] /\
      drop (Z.to_nat (cq_ox q)) (data m (rev rbs) ++ take (ixe q) (chars m b)) = l
  end.

(** The whole pool: the free list and every queue, no block in two places. *)
Record pool (st : clstate) (free : list Z) (qs : list (cqueue * list Z * list Z)) : Prop := {
  pool_free : chain (cl_mem st) (cltfree st) free;
  pool_qs : Forall (fun x => qrep (cl_mem st) (fst (fst x)) (snd (fst x)) (snd x)) qs;
  pool_nodup : NoDup (free ++ concat (map (fun x => snd (fst x)) qs));
  pool_size : Z.of_nat (length (free ++ concat (map (fun x => snd (fst x)) qs))) <= NCLIST
}.

(** ** Lemmas *)

Lemma chain_ext m m' bs p :
  (forall b, b ∈ bs -> m !! b = m' !! b) -> chain m p bs -> chain m' p bs.
Proof.
  revert p. induction bs as [|b bs IH]; simpl; intros p Hm; [done|].
  intros (-> & Hb & c & Hc & Hl & Hch).
  split_and!; [done..|]. exists c. split_and!; [|done|].
  - rewrite <- Hm; [done | set_solver].
  - apply IH; [set_solver | done].
Qed.

Lemma data_ext m m' bs :
  (forall b, b ∈ bs -> m !! b = m' !! b) -> data m bs = data m' bs.
Proof.
  intros Hm. unfold data. f_equal. apply map_ext_in. intros b Hb.
  unfold chars. by rewrite Hm by (by apply list_elem_of_In).
Qed.

Lemma rev_cons_inv {A} (l : list A) x r : rev l = x :: r -> l = rev r ++ [x].
Proof. intros E. rewrite <- (rev_involutive l), E. done. Qed.

Lemma qrep_ext m m' q bs l :
  (forall b, b ∈ bs -> m !! b = m' !! b) -> qrep m q bs l -> qrep m' q bs l.
Proof.
  intros Hm (Hc & Hcc & Hox & Hix & H). split; [by eapply chain_ext|].
  do 3 (split; [done|]).
  destruct (rev bs) as [|b r] eqn:E; [done|]. apply rev_cons_inv in E as ->.
  rewrite <- (data_ext m m') by (intros; apply Hm; set_solver).
  assert (chars m' b = chars m b) as ->; [|done].
  unfold chars. rewrite Hm; [done | set_solver].
Qed.

Lemma chain_lookup m p bs b :
  chain m p bs -> b ∈ bs -> b <> 0 /\ exists c, m !! b = Some c /\ Z.of_nat (length (cl_ch c)) = NCPCL.
Proof.
  revert p. induction bs as [|a bs IH]; simpl; intros p Hc Hb; [set_solver|].
  destruct Hc as (-> & Ha & c & Hc & Hl & Hch).
  apply elem_of_cons in Hb as [->|Hb]; [eauto|]. eauto.
Qed.

Lemma length_data m p bs :
  chain m p bs -> Z.of_nat (length (data m bs)) = NCPCL * Z.of_nat (length bs).
Proof.
  revert p. induction bs as [|a bs IH]; simpl; intros p Hc; [lia|].
  destruct Hc as (-> & Ha & c & Hc & Hl & Hch).
  unfold data in *. simpl. rewrite length_app. unfold chars at 1. rewrite Hc.
  specialize (IH _ Hch). lia.
Qed.

Lemma chain_app_inv m p bs1 bs2 :
  chain m p (bs1 ++ bs2) -> exists p', chain m p' bs2 /\ (bs1 = [] -> p' = p).
Proof.
  revert p. induction bs1 as [|a bs IH]; simpl; intros p Hc; [eauto|].
  destruct Hc as (-> & Ha & c & Hc & Hl & Hch).
  destruct (IH _ Hch) as (p' & ? & ?). exists p'. split; [done|discriminate].
Qed.

(** Linking a fresh block behind the last one. *)
Lemma chain_snoc m p bs b ip c ci :
  chain m p (bs ++ [b]) -> NoDup (bs ++ [b]) -> ip ∉ bs ++ [b] -> ip <> 0 ->
  m !! b = Some c -> m !! ip = Some ci -> Z.of_nat (length (cl_ch ci)) = NCPCL ->
  chain (<[b := {| cl_fp := ip; cl_ch := cl_ch c |}]> (<[ip := {| cl_fp := 0; cl_ch := cl_ch ci |}]> m))
    p (bs ++ [b; ip]).
Proof.
  revert p. induction bs as [|a bs IH]; simpl; intros p Hc Hnd Hip Hip0 Hb Hci Hl.
  - destruct Hc as (-> & Hb0 & c' & Hc' & Hl' & _). simplify_eq.
    assert (b <> ip) by set_solver.
    split_and!; [done..|]. eexists. rewrite lookup_insert_eq.
    split_and!; [done|done|done|done|].
    eexists. rewrite lookup_insert_ne, lookup_insert_eq by done. done.
  - destruct Hc as (-> & Ha & c' & Hc' & Hl' & Hch).
    apply NoDup_cons in Hnd as [Hna Hnd].
    split_and!; [done..|]. exists c'.
    rewrite !lookup_insert_ne by set_solver. split_and!; [done..|].
    apply IH; [done..|set_solver|done|done|done|done].
Qed.

Section steps.
Implicit Types st : clstate.

Lemma cvirt_eq st p c : cl_mem st !! p = Some c -> cvirt p st = Ret c st.
Proof. intros E. unfold cvirt, kbind, get; simpl. by rewrite E. Qed.

Lemma put_fp_eq st p v c :
  cl_mem st !! p = Some c -> put_fp p v st = Ret tt (set_mem p {| cl_fp := v; cl_ch := cl_ch c |} st).
Proof. intros E. unfold put_fp, kbind. by rewrite (cvirt_eq _ _ _ E). Qed.

Lemma put_ch_eq st p i ch c :
  cl_mem st !! p = Some c -> 0 <= i < Z.of_nat (length (cl_ch c)) ->
  put_ch p i ch st
    = Ret tt (set_mem p {| cl_fp := cl_fp c; cl_ch := <[Z.to_nat i := u8 ch]> (cl_ch c) |} st).
Proof.
  intros E Hi. unfold put_ch, kbind. rewrite (cvirt_eq _ _ _ E). simpl.
  by rewrite aset_is_Some.
Qed.
End steps.

(** The first character held by a queue and where it is. *)
Lemma qrep_head m q bs c l :
  qrep m q bs (c :: l) ->
  exists b bs' blk, bs = b :: bs' /\ cq_op q = b /\ b <> 0 /\ m !! b = Some blk /\
    Z.of_nat (length (cl_ch blk)) = NCPCL /\ chain m (cl_fp blk) bs' /\
    aget (cl_ch blk) (cq_ox q) = Some c.
Proof.
  intros (Hch & Hcc & Hox & Hix & H).
  destruct (rev bs) as [|b r] eqn:E; [by destruct H|].
  apply rev_cons_inv in E. destruct H as (Hip & _ & Hd).
  destruct bs as [|b0 bs']; [by destruct (rev r)|].
  simpl in Hch. destruct Hch as (Hop & Hb0 & blk & Hblk & Hl & Hch).
  exists b0, bs', blk. split_and!; try done.
  unfold aget. rewrite (proj2 (Z.ltb_ge _ 0)) by lia.
  assert (Hat : (data m (rev r) ++ take (ixe q) (chars m b)) !! Z.to_nat (cq_ox q) = Some c).
  { rewrite <- (Nat.add_0_r (Z.to_nat (cq_ox q))), <- lookup_drop, Hd. done. }
  destruct (rev r) as [|b1 r'] eqn:Er; simpl in E; injection E as <- ->.
  - unfold data in Hat; simpl in Hat.
    rewrite lookup_take in Hat. unfold chars in Hat. rewrite Hblk in Hat.
    by case_decide.
  - unfold data in Hat; simpl in Hat. rewrite <- app_assoc in Hat.
    unfold chars at 1 in Hat. rewrite Hblk in Hat.
    rewrite lookup_app_l in Hat; [done|]. unfold NCPCL in *. lia.
Qed.

Lemma qrep_size m q bs l :
  qrep m q bs l -> l <> [] ->
  cq_ox q + Z.of_nat (length l) = NCPCL * (Z.of_nat (length bs) - 1) + Z.of_nat (ixe q) /\
  (0 < length bs)%nat /\ 0 < Z.of_nat (ixe q) <= NCPCL.
Proof.
  intros (Hch & Hcc & Hox & Hix & H) Hl.
  destruct (rev bs) as [|b r] eqn:E; [by destruct H|].
  apply rev_cons_inv in E as ->. destruct H as (Hip & _ & Hd).
  assert (0 < Z.of_nat (ixe q) <= NCPCL).
  { unfold ixe, NCPCL in *. destruct (Z.eqb_spec (cq_ix q) 0); lia. }
  apply (f_equal length) in Hd as Hlen.
  rewrite length_drop, length_app, length_take in Hlen.
  pose proof (length_data _ _ _ Hch) as Hld.
  unfold data in Hld, Hlen. rewrite map_app, concat_app, length_app, length_app in Hld.
  simpl in Hld. rewrite app_nil_r in Hld. rewrite length_app; simpl.
  destruct (chain_lookup _ _ _ b Hch ltac:(set_solver)) as (_ & cb & Hcb & Hlb).
  assert (length (chars m b) = length (cl_ch cb)) as Hx by (unfold chars; by rewrite Hcb).
  assert (0 < length l)%nat by (destruct l; simpl; [done|lia]).
  unfold NCPCL in *. lia.
Qed.

(** Taking the first character out of a representation. *)
Lemma qrep_get_last m q b bs c blk :
  qrep m q (b :: bs) [c] -> m !! b = Some blk -> bs = [] /\ cl_fp blk = 0.
Proof.
  intros Hq Hb. pose proof (qrep_size _ _ _ _ Hq ltac:(done)) as (Hsz & _ & Hix).
  destruct Hq as ((_ & _ & blk' & ? & _ & Hch) & _ & Hox & _). simplify_eq.
  destruct bs as [|b1 bs]; [done|]. simpl in Hsz. unfold NCPCL in *. lia.
Qed.

Lemma qrep_get_next m q b bs c l blk :
  qrep m q (b :: bs) (c :: l) -> m !! b = Some blk -> l <> [] -> cq_ox q + 1 = NCPCL ->
  cl_fp blk <> 0 /\
  qrep m {| cq_cc := cq_cc q - 1; cq_ip := cq_ip q; cq_ix := cq_ix q;
            cq_op := cl_fp blk; cq_ox := 0 |} bs l.
Proof.
  intros Hq Hb Hl Ho. pose proof (qrep_size _ _ _ _ Hq ltac:(done)) as (Hsz & _ & Hix).
  destruct Hq as ((_ & _ & blk' & Hb' & Hlb & Hch) & Hcc & Hox & Hx & H).
  assert (blk' = blk) as -> by congruence.
  destruct bs as [|b1 bs].
  { destruct l; [done|]. simpl in Hsz. unfold NCPCL in *. lia. }
  split; [by destruct Hch as (-> & ? & _)|].
  split; [done|]. split; [simpl in *; lia|]. split; [simpl; unfold NCPCL; lia|].
  split; [done|]. cbn [rev] in H |- *.
  destruct (rev bs ++ [b1]) as [|bl r] eqn:E; [by destruct (rev bs)|].
  simpl in H. destruct H as (Hip & _ & Hd). split; [done|]. split; [done|].
  cbn [cq_ox] in *. rewrite rev_app_distr in Hd. simpl in Hd.
  unfold data in Hd at 1. cbn [map concat] in Hd.
  change (concat (map (chars m) (rev r))) with (data m (rev r)) in Hd.
  unfold chars at 1 in Hd. rewrite Hb, <- app_assoc in Hd.
  apply (f_equal (drop 1)) in Hd. rewrite drop_drop in Hd.
  rewrite drop_app_ge in Hd by (unfold NCPCL in *; lia).
  replace (Z.to_nat (cq_ox q) + 1 - length (cl_ch blk))%nat with O in Hd
    by (unfold NCPCL in *; lia). done.
Qed.

Lemma qrep_get_same m q b bs c l :
  qrep m q (b :: bs) (c :: l) -> l <> [] -> cq_ox q + 1 <> NCPCL ->
  qrep m {| cq_cc := cq_cc q - 1; cq_ip := cq_ip q; cq_ix := cq_ix q;
            cq_op := cq_op q; cq_ox := cq_ox q + 1 |} (b :: bs) l.
Proof.
  intros (Hch & Hcc & Hox & Hx & H) Hl Ho.
  split; [done|]. split; [simpl in *; lia|]. split; [simpl; lia|]. split; [done|].
  destruct (rev (b :: bs)) as [|bl r] eqn:E; [by destruct H|].
  destruct H as (Hip & _ & Hd). split; [done|]. split; [done|].
  cbn [cq_ox] in *. replace (Z.to_nat (cq_ox q + 1)) with (Z.to_nat (cq_ox q) + 1)%nat by lia.
  rewrite <- drop_drop. unfold ixe in *. cbn [cq_ix] in *. by rewrite Hd.
Qed.

Lemma qrep_lt m q bs l : qrep m q bs l -> Z.of_nat (length l) <= NCPCL * Z.of_nat (length bs).
Proof.
  intros Hq. destruct l as [|c l]; [unfold NCPCL; simpl; lia|].
  pose proof (qrep_size _ _ _ _ Hq ltac:(done)) as (Hsz & _ & Hix).
  destruct Hq as (_ & _ & Hox & _). unfold NCPCL in *. lia.
Qed.

(** Every queue but the first is untouched when its blocks are. *)
Lemma qs_frame m m' (qs : list (cqueue * list Z * list Z)) :
  (forall b, b ∈ concat (map (fun x => snd (fst x)) qs) -> m !! b = m' !! b) ->
  Forall (fun x => qrep m (fst (fst x)) (snd (fst x)) (snd x)) qs ->
  Forall (fun x => qrep m' (fst (fst x)) (snd (fst x)) (snd x)) qs.
Proof.
  intros Hm HF. induction HF as [|x qs Hx HF IH]; constructor.
  - eapply qrep_ext; [|done]. intros b Hb. apply Hm. simpl. set_solver.
  - apply IH. intros b Hb. apply Hm. simpl. set_solver.
Qed.

(** What a returned character does to the waiters of [waitq]. *)
Definition wake_waiters (st : clstate) : clstate :=
  if cltwant st =? 0 then st else cl_wakeup ChCltwant (set_cltwant 0 st).

Lemma getq_eq st q b bs c l :
  qrep (cl_mem st) q (b :: bs) (c :: l) ->
  Z.of_nat (length (b :: bs)) <= NCLIST ->
  exists blk, cl_mem st !! b = Some blk /\ cq_op q = b /\
  getq q st =
    if (cq_cc q - 1 =? 0) || (cq_ox q + 1 =? NCPCL)
    then Ret (u8 c, if cl_fp blk =? 0
               then {| cq_cc := cq_cc q - 1; cq_ip := 0; cq_ix := 0; cq_op := cl_fp blk; cq_ox := 0 |}
               else {| cq_cc := cq_cc q - 1; cq_ip := cq_ip q; cq_ix := cq_ix q;
                       cq_op := cl_fp blk; cq_ox := 0 |})
          (wake_waiters (set_cltfree b (set_mem b {| cl_fp := cltfree st; cl_ch := cl_ch blk |} st)))
    else Ret (u8 c, {| cq_cc := cq_cc q - 1; cq_ip := cq_ip q; cq_ix := cq_ix q;
                       cq_op := cq_op q; cq_ox := cq_ox q + 1 |}) st.
Proof.
  intros Hq Hlen.
  pose proof (qrep_lt _ _ _ _ Hq) as Hlt.
  destruct (qrep_head _ _ _ _ _ Hq) as (b' & bs' & blk & Hbs & Hop & Hb0 & Hblk & Hl & _ & Hget).
  injection Hbs as <- <-.
  destruct Hq as (_ & Hcc & Hox & _).
  exists blk. split; [done|]. split; [done|].
  unfold NCPCL, NCLIST in *. simpl length in *.
  unfold getq, NCPCL. rewrite (proj2 (Z.eqb_neq _ _)) by lia.
  unfold kbind. rewrite Hop, (cvirt_eq _ _ _ Hblk). simpl. rewrite Hget. simpl.
  rewrite (s16_small (cq_cc q - 1)), (s16_small (cq_ox q + 1)), s8_land_255 by lia.
  destruct (Z.eqb_spec (cq_cc q - 1) 0) as [Ec|Ec]; simpl.
  2: destruct (Z.eqb_spec (cq_ox q + 1) 252) as [Eo|Eo]; simpl; [|done].
  all: rewrite (cvirt_eq _ _ _ Hblk); simpl; rewrite (put_fp_eq _ _ _ _ Hblk); simpl;
       unfold wake_waiters; simpl; by destruct (cltwant st =? 0).
Qed.

Lemma pool_head st free q bs l qs :
  pool st free ((q, bs, l) :: qs) ->
  chain (cl_mem st) (cltfree st) free /\ qrep (cl_mem st) q bs l /\
  NoDup (free ++ bs ++ concat (map (fun x => snd (fst x)) qs)) /\
  Z.of_nat (length bs) <= NCLIST.
Proof.
  intros [Hf Hqs Hnd Hsz]. apply Forall_cons in Hqs as [Hq Hqs]. simpl in *.
  split; [done|]. split; [done|]. split; [done|].
  rewrite !length_app in Hsz. lia.
Qed.

Lemma wake_waiters_mem st : cl_mem (wake_waiters st) = cl_mem st.
Proof. unfold wake_waiters. by destruct (_ =? _). Qed.
Lemma wake_waiters_free st : cltfree (wake_waiters st) = cltfree st.
Proof. unfold wake_waiters. by destruct (_ =? _). Qed.

(** Returning the head block of a queue to the free list. *)
Lemma pool_release st free q b bs l qs blk q' l' :
  pool st free ((q, b :: bs, l) :: qs) -> cl_mem st !! b = Some blk ->
  (Z.of_nat (length (cl_ch blk)) = NCPCL) -> b <> 0 ->
  qrep (cl_mem st) q' bs l' ->
  pool (wake_waiters (set_cltfree b (set_mem b {| cl_fp := cltfree st; cl_ch := cl_ch blk |} st)))
    (b :: free) ((q', bs, l') :: qs).
Proof.
  intros [Hf Hqs Hnd Hsz] Hb Hl Hb0 Hq. simpl in *.
  apply Forall_cons in Hqs as [_ Hqs]. simpl in Hqs.
  assert (Hp : free ++ b :: bs ++ concat (map (fun x => snd (fst x)) qs)
            ≡ₚ b :: free ++ bs ++ concat (map (fun x => snd (fst x)) qs))
    by (symmetry; apply Permutation_middle).
  rewrite Hp in Hnd, Hsz. apply NoDup_cons in Hnd as [Hnb Hnd].
  assert (Hext : forall x, x ∈ free ++ bs ++ concat (map (fun x => snd (fst x)) qs) ->
     cl_mem st !! x = <[b := {| cl_fp := cltfree st; cl_ch := cl_ch blk |}]> (cl_mem st) !! x).
  { intros x Hx. rewrite lookup_insert_ne; [done|]. intros ->. done. }
  split.
  - rewrite wake_waiters_mem, wake_waiters_free. simpl. split; [done|]. split; [done|].
    eexists. rewrite lookup_insert_eq. split; [done|]. split; [done|]. simpl.
    eapply chain_ext; [|done]. intros x Hx. apply Hext. rewrite elem_of_app. by left.
  - rewrite wake_waiters_mem. constructor; simpl.
    + eapply qrep_ext; [|done]. intros x Hx. apply Hext. rewrite !elem_of_app. right; by left.
    + eapply qs_frame; [|done]. intros x Hx. apply Hext. rewrite !elem_of_app. right; by right.
  - simpl. apply NoDup_cons. done.
  - done.
Qed.

(** Taking a character. *)
Lemma getq_pops st free q bs c l qs :
  pool st free ((q, bs, c :: l) :: qs) ->
  exists q' st' free' bs',
    getq q st = Ret (u8 c, q') st' /\
    pool st' free' ((q', bs', l) :: qs) /\
    free' ++ bs' ≡ₚ free ++ bs /\
    ((free' = free /\ st' = st) \/
     (free' = cq_op q :: free /\ cltwant st' = 0 /\
      cl_woken st' = (if cltwant st =? 0 then [] else [ChCltwant]) ++ cl_woken st)).
Proof.
  intros Hpool. pose proof (pool_head _ _ _ _ _ _ Hpool) as (Hf & Hq & Hnd & Hsz).
  destruct (qrep_head _ _ _ _ _ Hq) as (b & bs' & blk & -> & Hop & Hb0 & Hblk & Hl & Hch & _).
  destruct (getq_eq st q b bs' c l Hq Hsz) as (blk' & Hblk' & _ & E).
  assert (blk' = blk) as -> by congruence.
  pose proof (qrep_lt _ _ _ _ Hq) as Hlt. pose proof Hq as (_ & Hcc & Hox & _).
  assert (Hrel : forall q', qrep (cl_mem st) q' bs' l ->
    exists q1 st' free' bs1,
      Ret (u8 c, q') (wake_waiters (set_cltfree b (set_mem b {| cl_fp := cltfree st; cl_ch := cl_ch blk |} st)))
        = Ret (u8 c, q1) st' /\ pool st' free' ((q1, bs1, l) :: qs) /\
      free' ++ bs1 ≡ₚ free ++ b :: bs' /\
      ((free' = free /\ st' = st) \/
       (free' = cq_op q :: free /\ cltwant st' = 0 /\
        cl_woken st' = (if cltwant st =? 0 then [] else [ChCltwant]) ++ cl_woken st))).
  { intros q' Hq'. do 4 eexists. split; [done|]. split; [by eapply pool_release|].
    split; [apply Permutation_middle|]. right. rewrite Hop. split; [done|].
    unfold wake_waiters. simpl. by destruct (Z.eqb_spec (cltwant st) 0). }
  rewrite E. destruct (Z.eqb_spec (cq_cc q - 1) 0) as [Ec|Ec]; simpl.
  - destruct l as [|c1 l]; [|simpl in Hcc; lia].
    destruct (qrep_get_last _ _ _ _ _ _ Hq Hblk) as [-> Hfp].
    rewrite Hfp, Ec. simpl. apply Hrel. by repeat split.
  - assert (l <> []) by (intros ->; simpl in Hcc; lia).
    destruct (Z.eqb_spec (cq_ox q + 1) NCPCL) as [Eo|Eo].
    + destruct (qrep_get_next _ _ _ _ _ _ _ Hq Hblk ltac:(done) Eo) as [Hfp Hq'].
      rewrite (proj2 (Z.eqb_neq _ _) Hfp). by apply Hrel.
    + do 4 eexists. split; [done|]. split; [|split; [done|by left]].
      destruct Hpool as [? Hqs ? ?]. split; [done| |done|done].
      apply Forall_cons in Hqs as [_ Hqs]. constructor; [|done]. simpl.
      by apply (qrep_get_same _ _ _ _ c).
Qed.

(** Rewriting the characters of a block does not move it. *)
Lemma chain_set_ch m p bs b blk l :
  chain m p bs -> m !! b = Some blk -> length l = length (cl_ch blk) ->
  chain (<[b := {| cl_fp := cl_fp blk; cl_ch := l |}]> m) p bs.
Proof.
  intros Hc Hb Hl. revert p Hc. induction bs as [|a bs IH]; simpl; intros p Hc; [done|].
  destruct Hc as (-> & Ha & c & Hc & Hlc & Hch). split; [done|]. split; [done|].
  destruct (decide (a = b)) as [->|Hne].
  - assert (c = blk) as -> by congruence. eexists. rewrite lookup_insert_eq.
    split; [done|]. simpl. rewrite Hl. split; [done|]. by apply IH.
  - exists c. rewrite lookup_insert_ne by done. split; [done|]. split; [done|]. by apply IH.
Qed.

(** [n] characters are stored in the last block [b], and [l] is what the
    queue holds: the situation in which [putq] stores its character. *)
Record qfill (m : gmap Z clist) (ox op : Z) (bs0 : list Z) (b : Z) (n : nat) (l : list Z) : Prop := {
  qf_chain : chain m op (bs0 ++ [b]);
  qf_ox : 0 <= ox < NCPCL;
  qf_n : Z.of_nat n < NCPCL;
  qf_le : (Z.to_nat ox <= length (data m bs0 ++ take n (chars m b)))%nat;
  qf_l : drop (Z.to_nat ox) (data m bs0 ++ take n (chars m b)) = l
}.

Lemma take_insert_snoc {A} (l : list A) n x :
  (n < length l)%nat -> take (S n) (<[n := x]> l) = take n l ++ [x].
Proof.
  intros Hn. rewrite (take_S_r _ _ x) by (by rewrite list_lookup_insert_eq).
  by rewrite take_insert_ge.
Qed.

Lemma qfill_store m ox op bs0 b n l blk c :
  qfill m ox op bs0 b n l -> NoDup (bs0 ++ [b]) -> m !! b = Some blk ->
  qrep (<[b := {| cl_fp := cl_fp blk; cl_ch := <[n := u8 c]> (cl_ch blk) |}]> m)
    {| cq_cc := Z.of_nat (length l) + 1; cq_ip := b;
       cq_ix := if Z.of_nat n + 1 =? NCPCL then 0 else Z.of_nat n + 1;
       cq_op := op; cq_ox := ox |} (bs0 ++ [b]) (l ++ [u8 c]).
Proof.
  intros [Hch Hox Hn Hle Hl] Hnd Hb.
  destruct (chain_lookup _ _ _ b Hch ltac:(set_solver)) as (_ & blk' & Hb' & Hlb).
  assert (blk' = blk) as -> by congruence.
  assert (Hbb : b ∉ bs0) by (apply NoDup_app in Hnd as (_ & H & _); set_solver).
  split; [apply chain_set_ch; [done..|by rewrite length_insert]|].
  split; [simpl; rewrite length_app; simpl; lia|]. split; [done|].
  split; [simpl; unfold NCPCL in *; bool_cases; lia|].
  rewrite rev_app_distr. simpl. rewrite rev_involutive.
  split; [done|]. split; [by destruct l|].
  assert (Hix : ixe {| cq_cc := Z.of_nat (length l) + 1; cq_ip := b;
       cq_ix := if Z.of_nat n + 1 =? NCPCL then 0 else Z.of_nat n + 1;
       cq_op := op; cq_ox := ox |} = S n).
  { unfold ixe; simpl. unfold NCPCL in *.
    destruct (Z.eqb_spec (Z.of_nat n + 1) 252); simpl; bool_cases; lia. }
  rewrite Hix. rewrite (data_ext _ m) by
    (intros a Ha; rewrite lookup_insert_ne; [done|]; intros ->; done).
  unfold chars. rewrite lookup_insert_eq. simpl.
  rewrite take_insert_snoc by (unfold NCPCL in *; lia).
  unfold chars in Hl, Hle. rewrite Hb in Hl, Hle.
  by rewrite app_assoc, drop_app_le, Hl by done.
Qed.

Lemma data_snoc m bs b : data m (bs ++ [b]) = data m bs ++ chars m b.
Proof. unfold data. rewrite map_app, concat_app. simpl. by rewrite app_nil_r. Qed.

(** A queue with room in its last block. *)
Lemma qrep_fill_same m q bs l :
  qrep m q bs l -> cq_ix q <> 0 ->
  exists bs0, bs = bs0 ++ [cq_ip q] /\
    qfill m (cq_ox q) (cq_op q) bs0 (cq_ip q) (Z.to_nat (cq_ix q)) l.
Proof.
  intros Hq Hix.
  pose proof Hq as (Hch & Hcc & Hox & Hx & H).
  destruct (rev bs) as [|b r] eqn:E.
  { destruct H as [-> _]. done. }
  apply rev_cons_inv in E as ->. destruct H as (Hip & Hl & Hd).
  exists (rev r). rewrite Hip. split; [done|].
  assert (ixe q = Z.to_nat (cq_ix q)) as Hi.
  { unfold ixe. by rewrite (proj2 (Z.eqb_neq _ _) Hix). }
  rewrite Hi in Hd. split; [done|done|lia| |done].
  destruct (decide (Z.to_nat (cq_ox q) <=
    length (data m (rev r) ++ take (Z.to_nat (cq_ix q)) (chars m b)))%nat); [done|].
  rewrite drop_ge in Hd by lia. by subst l.
Qed.

(** A non-empty queue whose last block is full. *)
Lemma qrep_full m q bs l :
  qrep m q bs l -> cq_ix q = 0 -> bs <> [] ->
  exists bs0, bs = bs0 ++ [cq_ip q] /\ cq_ip q <> 0 /\
    drop (Z.to_nat (cq_ox q)) (data m bs) = l /\
    (Z.to_nat (cq_ox q) <= length (data m bs))%nat.
Proof.
  intros Hq Hix Hbs.
  pose proof Hq as (Hch & Hcc & Hox & Hx & H).
  destruct (rev bs) as [|b r] eqn:E.
  { apply (f_equal (@rev Z)) in E. by rewrite rev_involutive in E. }
  apply rev_cons_inv in E as ->. destruct H as (Hip & Hl & Hd).
  destruct (chain_lookup _ _ _ b Hch ltac:(set_solver)) as (Hb0 & cb & Hcb & Hlb).
  exists (rev r). rewrite Hip. split; [done|]. split; [done|].
  unfold ixe in Hd. rewrite Hix in Hd. simpl in Hd.
  rewrite take_ge in Hd by (unfold chars; rewrite Hcb; unfold NCPCL in *; lia).
  rewrite data_snoc. split; [done|].
  destruct (decide (Z.to_nat (cq_ox q) <= length (data m (rev r) ++ chars m b))%nat); [done|].
  rewrite drop_ge in Hd by lia. by subst l.
Qed.

Lemma qrep_nil m q l : qrep m q [] l -> l = [] /\
  q = {| cq_cc := 0; cq_ip := 0; cq_ix := 0; cq_op := 0; cq_ox := 0 |}.
Proof. intros (_ & _ & _ & _ & H). simpl in H. tauto. Qed.

(** Taking the first free block. *)
Lemma chain_pop_free m p b free :
  chain m p (b :: free) -> p = b /\ b <> 0 /\ exists blk, m !! b = Some blk /\
    Z.of_nat (length (cl_ch blk)) = NCPCL /\ chain m (cl_fp blk) free.
Proof. done. Qed.

(** A fresh block [ip] becomes the last block of the queue. *)
Lemma qfill_fresh m q bs l ip ci b c :
  qrep m q bs l -> cq_ix q = 0 -> ip <> 0 -> ip ∉ bs -> NoDup bs ->
  m !! ip = Some ci -> Z.of_nat (length (cl_ch ci)) = NCPCL ->
  bs = b ++ [cq_ip q] -> m !! cq_ip q = Some c ->
  qfill (<[cq_ip q := {| cl_fp := ip; cl_ch := cl_ch c |}]>
           (<[ip := {| cl_fp := 0; cl_ch := cl_ch ci |}]> m)) (cq_ox q) (cq_op q) bs ip 0 l.
Proof.
  intros Hq Hix Hip Hnin Hnd Hci Hl Hbs Hc.
  destruct (qrep_full _ _ _ _ Hq Hix) as (bs0 & Hb0 & Hne & Hd & Hle); [by rewrite Hbs; destruct b|].
  pose proof Hq as (Hch & Hcc & Hox & Hx & _).
  assert (Hdata : data (<[cq_ip q := {| cl_fp := ip; cl_ch := cl_ch c |}]>
           (<[ip := {| cl_fp := 0; cl_ch := cl_ch ci |}]> m)) bs = data m bs).
  { unfold data. f_equal. apply map_ext_in. intros a Ha%list_elem_of_In. unfold chars.
    destruct (decide (a = cq_ip q)) as [->|Hna]; [by rewrite lookup_insert_eq, Hc|].
    rewrite !lookup_insert_ne by congruence. done. }
  split.
  - rewrite Hbs, <- app_assoc. simpl. apply chain_snoc; try done; by rewrite <- Hbs.
  - done.
  - done.
  - by rewrite Hdata, take_0, app_nil_r.
  - by rewrite Hdata, take_0, app_nil_r.
Qed.

Lemma pool_store st free q bs0 b l qs op c :
  chain (cl_mem st) (cltfree st) free ->
  Forall (fun x => qrep (cl_mem st) (fst (fst x)) (snd (fst x)) (snd x)) qs ->
  NoDup (free ++ (bs0 ++ [b]) ++ concat (map (fun x => snd (fst x)) qs)) ->
  Z.of_nat (length (free ++ (bs0 ++ [b]) ++ concat (map (fun x => snd (fst x)) qs))) <= NCLIST ->
  qfill (cl_mem st) (cq_ox q) op bs0 b (Z.to_nat (cq_ix q)) l ->
  0 <= cq_ix q -> cq_cc q = Z.of_nat (length l) ->
  exists q' st', putq_store q c b op st = Ret (c, q') st' /\
    pool st' free ((q', bs0 ++ [b], l ++ [u8 c]) :: qs) /\
    cltwant st' = cltwant st /\ cl_woken st' = cl_woken st.
Proof.
  intros Hf Hqs Hnd Hsz Hfill Hix Hcc.
  destruct (chain_lookup _ _ _ b (qf_chain _ _ _ _ _ _ _ Hfill) ltac:(set_solver))
    as (Hb0 & blk & Hb & Hlb).
  pose proof (qf_n _ _ _ _ _ _ _ Hfill) as Hn.
  assert (NoDup (bs0 ++ [b])) as Hnd1.
  { apply NoDup_app in Hnd as (_ & _ & Hnd). by apply NoDup_app in Hnd as (Hnd & _). }
  pose proof (qfill_store _ _ _ _ _ _ _ blk c Hfill Hnd1 Hb) as Hq.
  assert (Z.of_nat (length l) <= NCPCL * NCLIST) as Hll.
  { apply qrep_lt in Hq. rewrite !length_app in Hq. rewrite !length_app in Hsz.
    cbn [length] in *. unfold NCLIST, NCPCL in *. lia. }
  assert (Hdisj : forall x, x ∈ free \/ x ∈ concat (map (fun x => snd (fst x)) qs) -> x <> b).
  { intros x Hx ->. apply NoDup_app in Hnd as (_ & H1 & Hnd).
    apply NoDup_app in Hnd as (_ & H2 & _). destruct Hx as [Hx|Hx].
    - apply (H1 b Hx). set_solver.
    - apply (H2 b); set_solver. }
  unfold putq_store, kbind.
  rewrite (put_ch_eq _ _ _ _ _ Hb) by lia. simpl.
  unfold NCLIST, NCPCL in *. rewrite !s16_small by lia.
  do 2 eexists. split; [done|]. split; [|done].
  rewrite Z2Nat.id in Hq by lia. rewrite Hcc. split; simpl.
  - eapply chain_ext; [|done]. intros x Hx. by rewrite lookup_insert_ne by (symmetry; auto).
  - constructor; [done|]. eapply qs_frame; [|done].
    intros x Hx. by rewrite lookup_insert_ne by (symmetry; auto).
  - done.
  - unfold NCLIST. done.
Qed.

Lemma NoDup_move {A} (x : A) l1 l2 l3 :
  (x :: l1) ++ l2 ++ l3 ≡ₚ l1 ++ (l2 ++ [x]) ++ l3.
Proof.
  rewrite <- !app_assoc. simpl. rewrite !app_assoc. apply Permutation_middle.
Qed.

Lemma putq_store_ox q c ip op st r q' st' : putq_store q c ip op st = Ret (r, q') st' -> cq_ox q' = cq_ox q.
Proof.
  unfold putq_store, kbind at 1. destruct (put_ch _ _ _ _) as [u s1| | |]; simpl; [|done..]. intros E; inversion E; subst; done.
Qed.
Lemma putq_ox q c st r q' st' : putq q c st = Ret (r, q') st' -> cq_ox q' = cq_ox q.
Proof.
  unfold putq. destruct (cq_ix q =? 0); [|apply putq_store_ox].
  unfold kbind at 1. simpl. destruct (cltfree st =? 0); [intros E; inversion E; subst; done|].
  unfold kbind at 1. destruct (cvirt _ st) as [b s1| | |]; simpl; [|done..].
  unfold kbind at 1. simpl. unfold kbind at 1. destruct (put_fp _ _ _) as [u s2| | |]; simpl; [|done..].
  destruct (cq_ip q =? 0); [apply putq_store_ox|].
  unfold kbind at 1. destruct (put_fp _ _ _) as [u' s3| | |]; simpl; [|done..]. apply putq_store_ox.
Qed.

(** Putting a character. *)
Lemma putq_appends st free q bs l qs c :
  pool st free ((q, bs, l) :: qs) ->
  (cq_ix q = 0 /\ free = [] /\ putq q c st = Ret (-1, q) st) \/
  exists q' st' free' bs',
    putq q c st = Ret (c, q') st' /\
    pool st' free' ((q', bs', l ++ [u8 c]) :: qs) /\
    free' ++ bs' ≡ₚ free ++ bs /\
    cltwant st' = cltwant st /\ cl_woken st' = cl_woken st.
Proof.
  intros Hpool. pose proof (pool_head _ _ _ _ _ _ Hpool) as (Hf & Hq & Hnd & Hsz).
  destruct Hpool as [_ Hqs _ Hsz2]. apply Forall_cons in Hqs as [_ Hqs]. simpl in Hsz2.
  pose proof Hq as (Hch & Hcc & Hox & Hx & _).
  unfold putq. destruct (Z.eqb_spec (cq_ix q) 0) as [Hix|Hix].
  2: { right. destruct (qrep_fill_same _ _ _ _ Hq Hix) as (bs0 & Hbs & Hfill).
    rewrite Hbs in Hnd, Hsz2.
    destruct (pool_store st free q bs0 (cq_ip q) l qs (cq_op q) c)
      as (q' & st' & ? & ? & ? & ?); try done. { lia. }
    exists q', st', free, bs. rewrite Hbs. done. }
  destruct free as [|ip free].
  { left. unfold kbind, gets. simpl. rewrite Hf. done. }
  right. destruct (chain_pop_free _ _ _ _ Hf) as (Hfree & Hip0 & ci & Hci & Hlci & Hf').
  rewrite (NoDup_move ip) in Hnd, Hsz2.
  assert (Hdisj : forall x, x ∈ free \/ x ∈ bs \/ x ∈ concat (map (fun x => snd (fst x)) qs) -> x <> ip).
  { intros x Hx1 ->. rewrite <- (NoDup_move ip) in Hnd. simpl in Hnd.
    apply NoDup_cons in Hnd as [Hn _]. apply Hn. rewrite !elem_of_app. tauto. }
  unfold kbind, gets, modify. simpl. rewrite Hfree, (proj2 (Z.eqb_neq _ _) Hip0).
  rewrite (cvirt_eq _ _ _ Hci). simpl. rewrite (put_fp_eq _ _ _ ci) by done. simpl.
  destruct (Z.eqb_spec (cq_ip q) 0) as [Hnp|Hnp].
  - assert (bs = []) as ->.
    { destruct (decide (bs = [])) as [|Hbs]; [done|].
      by destruct (qrep_full _ _ _ _ Hq Hix Hbs) as (? & _ & ? & _). }
    destruct (qrep_nil _ _ _ Hq) as [-> ->].
    edestruct (pool_store (set_mem ip {| cl_fp := 0; cl_ch := cl_ch ci |} (set_cltfree (cl_fp ci) st))
      free {| cq_cc := 0; cq_ip := 0; cq_ix := 0; cq_op := 0; cq_ox := 0 |} [] ip [] qs ip c)
      as (q' & st' & E & Hp & ? & ?); try done; simpl.
    + eapply chain_ext; [|done]. intros x Hx0. rewrite lookup_insert_ne; [done|].
      apply not_eq_sym, Hdisj; auto.
    + eapply qs_frame; [|done]. intros x Hx0. rewrite lookup_insert_ne; [done|].
      apply not_eq_sym, Hdisj; auto.
    + split; [|done..]. simpl. split; [done|]. split; [done|].
      eexists. by rewrite lookup_insert_eq.
    + exists q', st', free, [ip]. split; [done|]. split; [done|]. split; [|done].
      rewrite app_nil_r. symmetry. apply Permutation_cons_append.
  - destruct (decide (bs = [])) as [->|Hbs].
    { destruct (qrep_nil _ _ _ Hq) as [_ ->]. done. }
    destruct (qrep_full _ _ _ _ Hq Hix Hbs) as (bs0 & Hb0 & _ & _ & _).
    destruct (chain_lookup _ _ _ (cq_ip q) Hch ltac:(rewrite Hb0; set_solver)) as (_ & cp & Hcp & Hlp).
    assert (cq_ip q <> ip) as Hne.
    { apply Hdisj. right. left. rewrite Hb0. set_solver. }
    rewrite (put_fp_eq _ _ _ cp) by (simpl; by rewrite lookup_insert_ne).
    simpl.
    edestruct (pool_store (set_mem (cq_ip q) {| cl_fp := ip; cl_ch := cl_ch cp |}
       (set_mem ip {| cl_fp := 0; cl_ch := cl_ch ci |} (set_cltfree (cl_fp ci) st)))
      free q bs ip l qs (cq_op q) c)
      as (q' & st' & E & Hp & ? & ?); try done; simpl.
    + eapply chain_ext; [|done]. intros x Hx0. rewrite !lookup_insert_ne; [done| |].
      * apply not_eq_sym, Hdisj; auto.
      * intros <-. apply NoDup_app in Hnd as (_ & Hn & _). apply (Hn _ Hx0).
        rewrite Hb0. set_solver.
    + eapply qs_frame; [|done]. intros x Hx0. rewrite !lookup_insert_ne; [done| |].
      * apply not_eq_sym, Hdisj; auto.
      * intros <-. apply NoDup_app in Hnd as (_ & _ & Hn). apply NoDup_app in Hn as (_ & Hn & _).
        apply (Hn (cq_ip q)); [|done]. rewrite Hb0. set_solver.
    + rewrite Hix. eapply qfill_fresh; try done.
      * intros Hin. by apply (Hdisj ip); auto.
      * apply NoDup_app in Hnd as (_ & _ & Hn). apply NoDup_app in Hn as (Hn & _).
        by apply NoDup_app in Hn as (Hn & _).
    + lia.
    + exists q', st', free, (bs ++ [ip]). split; [done|]. split; [done|]. split; [|done].
      rewrite app_assoc. symmetry. apply (Permutation_cons_append (free ++ bs)).
Qed.

(** ** Initialisation, clearing, waiting *)

(** The addresses of the blocks that [cltinit] links, in order. *)
Definition blocks (clistp : Z) (k n : nat) : list Z :=
  map (fun i => clistp + CLSIZE * Z.of_nat i) (seq k n).

Lemma blocks_inv clistp k n b :
  b ∈ blocks clistp k n -> exists i, (k <= i < k + n)%nat /\ b = clistp + CLSIZE * Z.of_nat i.
Proof.
  unfold blocks. intros (i & -> & Hi)%list_elem_of_fmap.
  exists i. split; [|done]. apply elem_of_seq in Hi. lia.
Qed.

Lemma blocks_NoDup clistp k n : NoDup (blocks clistp k n).
Proof.
  unfold blocks. apply NoDup_fmap_2; [|apply NoDup_seq].
  intros i j. unfold CLSIZE. lia.
Qed.

Lemma cltinit_loop_spec clistp k : forall n fuel st lm,
  (k < fuel)%nat -> CLSIZE < clistp -> clistp + CLSIZE * Z.of_nat (k + n) < 2 ^ 31 ->
  (forall i, (i < k)%nat -> exists c, cl_mem st !! (clistp + CLSIZE * Z.of_nat i) = Some c /\
      Z.of_nat (length (cl_ch c)) = NCPCL) ->
  chain (cl_mem st) lm (blocks clistp k n) ->
  exists st' lm', cltinit_loop fuel clistp (clistp + CLSIZE * Z.of_nat k) lm st = Ret lm' st' /\
    chain (cl_mem st') lm' (blocks clistp 0 (k + n)).
Proof.
  induction k as [|k IH]; intros n fuel st lm Hfuel Hpos Hbd Hmem Hch.
  - destruct fuel as [|fuel]; [lia|]. simpl. unfold CLSIZE in *.
    rewrite s32_small by lia. rewrite (proj2 (Z.leb_gt _ _)) by lia.
    by exists st, lm.
  - destruct fuel as [|fuel]; [lia|]. simpl. unfold CLSIZE in *.
    rewrite s32_small by lia. rewrite (proj2 (Z.leb_le _ _)) by lia.
    replace (clistp + 256 * Z.of_nat (S k) - 256) with (clistp + 256 * Z.of_nat k) by lia.
    destruct (Hmem k ltac:(lia)) as (c & Hc & Hlc).
    unfold kbind. rewrite (put_fp_eq _ _ _ c Hc). simpl.
    edestruct (IH (S n) fuel (set_mem (clistp + 256 * Z.of_nat k) {| cl_fp := lm; cl_ch := cl_ch c |} st)
                 (clistp + 256 * Z.of_nat k)) as (st' & lm' & E & Hch'); [lia|lia|lia| | |].
    + intros i Hi. destruct (Hmem i ltac:(lia)) as (ci & Hci & Hli).
      exists ci. split; [|done]. simpl. rewrite lookup_insert_ne by lia. done.
    + unfold blocks, CLSIZE. simpl. split; [done|]. split; [lia|].
      eexists. rewrite lookup_insert_eq. split; [done|]. split; [done|]. simpl.
      eapply chain_ext; [|exact Hch]. intros b (i & Hi & ->)%blocks_inv.
      unfold CLSIZE. rewrite lookup_insert_ne by lia. done.
    + exists st', lm'. split; [done|]. by replace (k + S n)%nat with (S k + n)%nat in Hch' by lia.
Qed.

(** [cltinit] links the [NCLIST] blocks of the clist area, none left out
    or linked twice, into the free list, with no queue in use. *)
Theorem cltinit_pool clistp st :
  CLSIZE < clistp -> clistp + NCLIST * CLSIZE < 2 ^ 31 ->
  (forall i, 0 <= i < NCLIST -> exists c, cl_mem st !! (clistp + CLSIZE * i) = Some c /\
      Z.of_nat (length (cl_ch c)) = NCPCL) ->
  exists st', cltinit clistp st = Ret tt st' /\
    pool st' (blocks clistp 0 (Z.to_nat NCLIST)) [].
Proof.
  intros Hpos Hbd Hmem. unfold cltinit, kbind, NCLIST in *.
  rewrite s32_small by (unfold CLSIZE in *; lia).
  destruct (cltinit_loop_spec clistp 32 0 33 st 0) as (st' & lm & E & Hch);
    [lia|done|unfold CLSIZE in *; lia| |done|].
  { intros i Hi. apply Hmem. lia. }
  change (Z.to_nat 32) with 32%nat. change (32 * CLSIZE) with (CLSIZE * Z.of_nat 32).
  rewrite E. simpl. eexists. split; [done|]. split; simpl.
  - done.
  - constructor.
  - apply (blocks_NoDup clistp 0 32).
  - done.
Qed.

Lemma qrep_empty m q bs : qrep m q bs [] -> bs = [].
Proof.
  intros (_ & _ & _ & _ & H). destruct (rev bs) as [|b r] eqn:E; [|by destruct H as (_ & [] & _)].
  by rewrite <- (rev_involutive bs), E.
Qed.

Definition cq_zero : cqueue := {| cq_cc := 0; cq_ip := 0; cq_ix := 0; cq_op := 0; cq_ox := 0 |}.

Lemma getq_empty st free q bs qs :
  pool st free ((q, bs, []) :: qs) -> getq q st = Ret (-1, q) st /\ q = cq_zero /\ bs = [].
Proof.
  intros (_ & Hq & _)%pool_head. pose proof (qrep_empty _ _ _ Hq) as ->.
  destruct (qrep_nil _ _ _ Hq) as [_ ->]. done.
Qed.

(** [clrq] empties a queue: it ends with the empty header and every block
    the queue had is back on the free list, the other queues untouched. *)
Theorem clrq_frees l : forall fuel st free q bs qs,
  pool st free ((q, bs, l) :: qs) -> (length l < fuel)%nat ->
  exists st' free', clrq fuel q st = Ret cq_zero st' /\
    pool st' free' ((cq_zero, [], []) :: qs) /\ free' ≡ₚ free ++ bs.
Proof.
  induction l as [|c l IH]; intros fuel st free q bs qs Hp Hf;
    (destruct fuel as [|fuel]; [simpl in Hf; lia|]); simpl; unfold kbind.
  - destruct (getq_empty _ _ _ _ _ Hp) as (E & -> & ->). rewrite E. simpl.
    exists st, free. rewrite app_nil_r. done.
  - destruct (getq_pops _ _ _ _ _ _ _ Hp) as (q' & st' & free' & bs' & E & Hp' & Hperm & _).
    rewrite E. simpl. pose proof (u8_range c). rewrite (proj2 (Z.leb_le _ _)) by lia.
    destruct (IH fuel _ _ _ _ _ Hp') as (st2 & free2 & E2 & Hp2 & Hperm2); [simpl in Hf; lia|].
    exists st2, free2. split; [done|]. split; [done|]. by rewrite Hperm2.
Qed.

(** [waitq] sleeps only when no block is free and the wanted flag is
    set, so that [getq] wakes it, and it returns only when a block is free,
    whatever the other processes do meanwhile. *)
Theorem waitq_waits fuel R st :
  safe R (fun s => cltfree s = 0 /\ cltwant s = 1) (waitq fuel st) (fun _ s => cltfree s <> 0).
Proof.
  revert st. induction fuel as [|fuel IH]; intros st; simpl; [done|].
  unfold kbind, gets. simpl. destruct (Z.eqb_spec (cltfree st) 0); simpl; [|done].
  split; [done|]. intros s' _. apply IH.
Qed.

(** ** A queue refines a first-in first-out list *)

Inductive qop := Put (c : Z) | Get.

(** Run operations on a queue, collecting what they return. *)
Fixpoint run_ops (ops : list qop) (q : cqueue) : M clstate (list Z * cqueue) :=
  match ops with
  | [] => kret ([], q)
  | o :: ops =>
    r <- (match o with Put c => putq q c | Get => getq q end) ;;
    rs <- run_ops ops (snd r) ;;
    kret (fst r :: fst rs, snd rs)
  end.

(** The results [rs] are what a list of characters, oldest first, gives to the
    operations [ops]; a [Put] may be refused, which leaves the list as it is. *)
Inductive fifo : list Z -> list qop -> list Z -> list Z -> Prop :=
| fifo_nil l : fifo l [] [] l
| fifo_put l c ops rs l' : fifo (l ++ [u8 c]) ops rs l' -> fifo l (Put c :: ops) (c :: rs) l'
| fifo_full l c ops rs l' : fifo l ops rs l' -> fifo l (Put c :: ops) (-1 :: rs) l'
| fifo_get c l ops rs l' : fifo l ops rs l' -> fifo (c :: l) (Get :: ops) (u8 c :: rs) l'
| fifo_empty ops rs l' : fifo [] ops rs l' -> fifo [] (Get :: ops) (-1 :: rs) l'.

(** C23: Whatever characters are put into and taken from a queue of the pool,
    what [putq] and [getq] return is what a first-in first-out list returns,
    and the pool stays whole: no block is lost, shared or left outside. *)
Theorem queue_refines_fifo ops : forall st free q bs l qs,
  pool st free ((q, bs, l) :: qs) ->
  exists rs q' st' free' bs' l',
    run_ops ops q st = Ret (rs, q') st' /\
    fifo l ops rs l' /\
    pool st' free' ((q', bs', l') :: qs) /\
    free' ++ bs' ≡ₚ free ++ bs.
Proof.
  induction ops as [|o ops IH]; intros st free q bs l qs Hp; simpl; unfold kbind.
  { do 6 eexists. split; [done|]. split; [constructor|]. done. }
  assert (exists r q1 st1 free1 bs1 l1,
    (match o with Put c => putq q c | Get => getq q end) st = Ret (r, q1) st1 /\
    pool st1 free1 ((q1, bs1, l1) :: qs) /\ free1 ++ bs1 ≡ₚ free ++ bs /\
    (forall rs l', fifo l1 ops rs l' -> fifo l (o :: ops) (r :: rs) l')) as
    (r & q1 & st1 & free1 & bs1 & l1 & E & Hp1 & Hperm & Hstep).
  { destruct o as [c|].
    - destruct (putq_appends _ _ _ _ _ _ c Hp) as
        [(_ & _ & E)|(q1 & st1 & free1 & bs1 & E & Hp1 & Hperm & _)].
      + exists (-1), q, st, free, bs, l. do 3 (split; [done|]). by constructor.
      + exists c, q1, st1, free1, bs1, (l ++ [u8 c]). do 3 (split; [done|]). by constructor.
    - destruct l as [|c l].
      + destruct (getq_empty _ _ _ _ _ Hp) as (E & _ & _).
        exists (-1), q, st, free, bs, []. do 3 (split; [done|]). by constructor.
      + destruct (getq_pops _ _ _ _ _ _ _ Hp) as (q1 & st1 & free1 & bs1 & E & Hp1 & Hperm & _).
        exists (u8 c), q1, st1, free1, bs1, l. do 3 (split; [done|]). by constructor. }
  rewrite E. simpl.
  destruct (IH _ _ _ _ _ _ Hp1) as (rs & q2 & st2 & free2 & bs2 & l2 & E2 & Hf & Hp2 & Hperm2).
  rewrite E2. simpl. do 6 eexists. split; [done|]. split; [by apply Hstep|].
  split; [done|]. by rewrite Hperm2.
Qed.

(** [putq] refuses a character only when the input block of the queue is
    full and no block is free, and then changes nothing; otherwise it
    appends the character and returns it, and no other queue changes. *)
Theorem putq_correct st free q bs l qs c :
  pool st free ((q, bs, l) :: qs) ->
  (cq_ix q = 0 /\ free = [] /\ putq q c st = Ret (-1, q) st) \/
  exists q' st' free' bs',
    putq q c st = Ret (c, q') st' /\
    pool st' free' ((q', bs', l ++ [u8 c]) :: qs) /\
    free' ++ bs' ≡ₚ free ++ bs /\
    cltwant st' = cltwant st /\ cl_woken st' = cl_woken st.
Proof. apply putq_appends. Qed.

(** ** Concrete instances *)

Definition one_block : clstate :=
  {| cl_mem := {[256 := {| cl_fp := 0; cl_ch := repeat 0 252 |}]}; cltfree := 256; cltwant := 0; cl_woken := [] |}.

Lemma one_block_pool : pool one_block [256] [(cq_zero, [], [])].
Proof.
  split; simpl.
  - split; [done|]. split; [done|]. eexists. split; [apply lookup_singleton_eq|]. done.
  - apply Forall_singleton. split; [done|]. split; [done|]. split; [done|]. split; [done|]. done.
  - apply NoDup_singleton.
  - done.
Qed.

Lemma queue_refines_fifo_witness : exists rs q' st' free' bs' l',
  run_ops [Put 65; Get; Get] cq_zero one_block = Ret (rs, q') st' /\
  fifo [] [Put 65; Get; Get] rs l' /\ pool st' free' [(q', bs', l')] /\ free' ++ bs' ≡ₚ [256] ++ [].
Proof. exact (queue_refines_fifo [Put 65; Get; Get] _ _ _ _ _ _ one_block_pool). Defined.

Lemma putq_correct_witness : (cq_ix cq_zero = 0 /\ [256] = [] /\ putq cq_zero 65 one_block = Ret (-1, cq_zero) one_block) \/
  exists q' st' free' bs', putq cq_zero 65 one_block = Ret (65, q') st' /\
    pool st' free' [(q', bs', [] ++ [u8 65])] /\ free' ++ bs' ≡ₚ [256] ++ [] /\
    cltwant st' = 0 /\ cl_woken st' = [].
Proof. exact (putq_correct _ _ _ _ _ _ 65 one_block_pool). Defined.

Lemma clrq_frees_witness : exists st' free', clrq 1 cq_zero one_block = Ret cq_zero st' /\
  pool st' free' [(cq_zero, [], [])] /\ free' ≡ₚ [256] ++ [].
Proof. apply (clrq_frees [] 1 one_block [256] cq_zero [] []); [apply one_block_pool|simpl; lia]. Defined.

(** The clist area, before [cltinit]. *)
Definition raw_area : clstate :=
  {| cl_mem := list_to_map (map (fun b => (b, {| cl_fp := 0; cl_ch := repeat 0 252 |})) (blocks 4096 0 32));
     cltfree := 0; cltwant := 0; cl_woken := [] |}.

Lemma cltinit_pool_witness : exists st', cltinit 4096 raw_area = Ret tt st' /\
  pool st' (blocks 4096 0 (Z.to_nat NCLIST)) [].
Proof.
  apply (cltinit_pool 4096 raw_area); [done|done|].
  intros i Hi. assert (exists n, (n < 32)%nat /\ i = Z.of_nat n) as (n & Hn & ->).
  { exists (Z.to_nat i). unfold NCLIST in Hi. lia. }
  exists {| cl_fp := 0; cl_ch := repeat 0 252 |}. split; [|done].
  do 32 (destruct n as [|n]; [vm_compute; reflexivity|]). exfalso. clear -Hn. lia.
Defined.
