(* ===== verification/Mint.v ===== *)
(** Multi-precision integers (userland/lib/libmp): representation, [norm],
    addition, negation, comparison and conversions.

    A [mint] is a counted array of base 128 digits, least significant first.
    A leading digit [NEFL] marks a negative number, in radix complement.  The
    array is the list [val[0..len)] of its bytes; it always has at least one.
    The results of the library are built in fresh storage and replace the old
    value of their argument as the last step, so that operands may coincide
    with results; here a procedure returns its results. *)
From S2P Require Import Prelude.
Local Open Scope Z_scope.

Definition BASE : Z := 128.
Definition L2BASE : Z := 7.
Definition NEFL : Z := 127.

Definition mint : Type := list Z.

(** The ways a library procedure can fail to return. *)
Inductive mres (A : Type) :=
| MOk (a : A)
| MPerr                        (* mperr(): message and exit *)
| MAssert                      (* assert() failed *)
| MBad                         (* access outside the digits *)
| MFuel.                       (* loop fuel exhausted *)
Arguments MOk {A} _.
Arguments MPerr {A}.
Arguments MAssert {A}.
Arguments MBad {A}.
Arguments MFuel {A}.

Definition mbind {A B} (m : mres A) (f : A -> mres B) : mres B :=
  match m with MOk a => f a | MPerr => MPerr | MAssert => MAssert | MBad => MBad | MFuel => MFuel end.

Declare Scope mint_scope.
Delimit Scope mint_scope with mint.
Notation "x <-- m ;; k" := (mbind m (fun x => k))
  (at level 100, m at next level, right associativity) : mint_scope.
Local Open Scope mint_scope.

Definition massert {A} (b : bool) (k : mres A) : mres A := if b then k else MAssert.

(** Digit access through [val[i]], and the leading digit. *)
Definition mtop (a : mint) : Z := List.last a 0.

Definition ispos (a : mint) : bool := negb (mtop a =? NEFL).

Definition zerop (a : mint) : bool :=
  match a with [d] => d =? 0 | _ => false end.

(** ** norm *)

(** The carry loop; bytes are read unsigned. *)
Fixpoint norm_carry (bs : list Z) (carry : Z) : list Z :=
  match bs with
  | [] => []
  | b :: bs =>
    let carry := s16 (carry + b) in
    u8 (Z.rem carry BASE) :: norm_carry bs (Z.shiftr carry L2BASE)
  end.

(** Dropping leading digits; the list has the leading digit first. *)
Fixpoint strip_nefl (r : list Z) : list Z :=
  match r with
  | d :: r' => if d =? NEFL then strip_nefl r' else r
  | [] => []
  end.

Fixpoint strip_zero (r : list Z) : list Z :=
  match r with
  | d :: ((_ :: _) as r') => if d =? 0 then strip_zero r' else r
  | r => r
  end.

Definition norm_strip (r : list Z) : list Z :=
  match r with
  | d :: _ =>
    if d =? NEFL then NEFL :: strip_nefl r
    else match strip_zero r with
         | (d :: _) as r' => if d =? NEFL then 0 :: r' else r'
         | [] => []
         end
  | [] => []
  end.

Definition norm (a : list Z) : mint := rev (norm_strip (rev (norm_carry a 0))).

(** ** Addition and negation *)

(** Both operands in range: [*rp++ = *ap++ + *bp++]. *)
Fixpoint madd_both (ap bp : list Z) (bsign : Z) : list Z :=
  match ap, bp with
  | a :: ap, b :: bp => u8 (s8 a + s8 b) :: madd_both ap bp bsign
  | a :: ap, [] => u8 (s8 a + bsign) :: madd_both ap [] bsign
  | [], _ => []
  end.

Definition madd (a b : mint) : mint :=
  let '(a, b) := if (length a <? length b)%nat then (b, a) else (a, b) in
  let bsign := if ispos b then 0 else NEFL in
  let asign := if ispos a then 0 else NEFL in
  norm (madd_both a b bsign ++ [u8 (asign + bsign)]).

Definition mneg (a : mint) : mint :=
  let mifl := ispos a in
  let bs := map (fun d => u8 (NEFL - s8 d)) a ++ (if mifl then [NEFL] else []) in
  match bs with
  | b :: bs => norm (u8 (b + 1) :: bs)
  | [] => []
  end.

Definition msub (a b : mint) : mint := madd a (mneg b).

Definition mcopy (a : mint) : mint := a.

(** ** Comparison *)

Fixpoint mcmp_bytes (ra rb : list Z) : Z :=
  match ra, rb with
  | a :: ra, b :: rb => if s8 a =? s8 b then mcmp_bytes ra rb else s8 a - s8 b
  | _, _ => 0
  end.

Definition mcmp (a b : mint) : Z :=
  let sign := mtop a =? NEFL in
  if negb (Bool.eqb sign (mtop b =? NEFL)) then (if sign then -1 else 1)
  else
    let la := Z.of_nat (length a) in
    let lb := Z.of_nat (length b) in
    if negb (la =? lb) then s16 (if sign then lb - la else la - lb)
    else mcmp_bytes (rev a) (rev b).

(** ** Constants and conversions *)

Definition mzero : mint := [0].
Definition mone : mint := [1].
Definition mminint : mint := [0; 0; 126; 127].
Definition mmaxint : mint := [127; 127; 1].

(** [while (an != 0)]: the digits of [an]. The array has [NORSIZ] bytes. *)
Definition NORSIZ : Z := 4.
Fixpoint mitom_digits (room : nat) (an : Z) : mres (list Z) :=
  if an =? 0 then (match room with O => MBad | S _ => MOk [0] end)
  else match room with
       | O => MBad
       | S room => ds <-- mitom_digits room (Z.shiftr an L2BASE) ;;
                   MOk (u8 (Z.rem an BASE) :: ds)
       end.

Definition mitom (n : Z) : mres mint :=
  let mifl := n <? 0 in
  let an := if mifl then s16 (- n) else n in
  tev <-- mitom_digits (Z.to_nat NORSIZ) an ;;
  if mifl then
    match map (fun d => u8 (NEFL - s8 d)) tev with
    | b :: bs => MOk (norm (u8 (b + 1) :: bs))
    | [] => MBad
    end
  else MOk (norm tev).

Definition itom (n : Z) : mres mint := mitom n.

(** [while (--ap >= a->val)], from the digit below the leading one down. *)
Fixpoint mtoi_loop (mifl : bool) (r : list Z) (res : Z) : Z :=
  match r with
  | d :: r => mtoi_loop mifl r (s16 (res * BASE + (if mifl then s8 d else NEFL - s8 d)))
  | [] => res
  end.

Definition mtoi (a : mint) : mres Z :=
  if (0 <? mcmp mminint a) || (0 <? mcmp a mmaxint) then MPerr
  else
    let mifl := ispos a in
    match rev a with
    | d :: r =>
      let res := mtoi_loop mifl r (if mifl then s8 d else 0) in
      MOk (if mifl then res else s16 (- (s16 (res + 1))))
    | [] => MBad
    end.

(** ** The value of a mint *)

Fixpoint usum (l : list Z) : Z :=
  match l with [] => 0 | d :: l => d + BASE * usum l end.

(** [BASE ^ n] *)
Definition P (n : nat) : Z := BASE ^ Z.of_nat n.

Definition top_val (t : Z) : Z := if t =? NEFL then -1 else t.

Fixpoint mval (a : mint) : Z :=
  match a with
  | [] => 0
  | [t] => top_val t
  | d :: a => d + BASE * mval a
  end.

Definition digits (l : list Z) : Prop := Forall (fun d => 0 <= d < BASE) l.

(** No leading digit can be dropped. *)
Definition minimal (a : mint) : Prop :=
  match rev a with
  | t :: s :: _ => (t = NEFL -> s <> NEFL) /\ (t = 0 -> s = NEFL)
  | _ => True
  end.

Definition wf (a : mint) : Prop := a <> [] /\ digits a /\ minimal a.

(** [wf], decided. *)
Definition wf_b (a : mint) : bool :=
  forallb (fun d => (0 <=? d) && (d <? BASE)) a &&
  match rev a with
  | [] => false
  | [_] => true
  | t :: s :: _ => (negb (t =? NEFL) || negb (s =? NEFL)) && (negb (t =? 0) || (s =? NEFL))
  end.

Lemma wf_b_wf a : wf_b a = true -> wf a.
Proof.
  unfold wf_b, wf, minimal. intros [Hd Hm]%andb_prop. split; [by intros ->|]. split.
  - apply Forall_forall. intros d Hin%list_elem_of_In.
    apply (proj1 (forallb_forall _ _) Hd) in Hin.
    apply andb_prop in Hin as [?%Z.leb_le ?%Z.ltb_lt]. done.
  - destruct (rev a) as [|t [|s r]]; [done|done|].
    apply andb_prop in Hm as [H1 H2].
    destruct (Z.eqb_spec t NEFL), (Z.eqb_spec s NEFL), (Z.eqb_spec t 0); done.
Qed.

(** ** Arithmetic of digit lists *)

Lemma P_0 : P 0 = 1. Proof. done. Qed.
Lemma P_S n : P (S n) = BASE * P n.
Proof. unfold P, BASE. rewrite Nat2Z.inj_succ, Z.pow_succ_r by lia. done. Qed.
Lemma P_pos n : 0 < P n.
Proof. unfold P, BASE. apply Z.pow_pos_nonneg; lia. Qed.
Lemma P_add n k : P (n + k) = P n * P k.
Proof. unfold P, BASE. rewrite Nat2Z.inj_add, Z.pow_add_r by lia. done. Qed.
Lemma P_mono n k : (n <= k)%nat -> P n <= P k.
Proof. intros. unfold P, BASE. apply Z.pow_le_mono_r; lia. Qed.

Create HintDb mint.
#[export] Hint Resolve P_pos : mint.

Lemma usum_app l1 l2 : usum (l1 ++ l2) = usum l1 + P (length l1) * usum l2.
Proof.
  induction l1 as [|d l1 IH]; cbn [usum app length]; [rewrite P_0; lia|].
  rewrite IH, P_S. unfold BASE. ring.
Qed.

Lemma usum_range l : digits l -> 0 <= usum l < P (length l).
Proof.
  induction 1 as [|d l Hd Hl IH]; cbn [usum length]; [rewrite P_0; lia|].
  rewrite P_S. unfold BASE in *. lia.
Qed.

Lemma digits_app l1 l2 : digits (l1 ++ l2) <-> digits l1 /\ digits l2.
Proof. unfold digits. by rewrite Forall_app. Qed.

Lemma digits_cons d l : digits (d :: l) <-> 0 <= d < BASE /\ digits l.
Proof. unfold digits. by rewrite Forall_cons. Qed.

Lemma digits_1 d : 0 <= d < BASE -> digits [d].
Proof. intros. apply digits_cons. split; [done|constructor]. Qed.
Lemma digits_nefl : digits [NEFL].
Proof. by apply digits_1. Qed.
Lemma digits_zero : digits [0].
Proof. by apply digits_1. Qed.
Lemma digits_rev l : digits l -> digits (rev l).
Proof. apply Forall_rev. Qed.
#[export] Hint Resolve digits_1 digits_zero digits_nefl digits_rev : mint.

Lemma mval_snoc l t : mval (l ++ [t]) = usum l + P (length l) * top_val t.
Proof.
  induction l as [|d l IH]; [cbn [mval usum app length]; rewrite P_0; lia|].
  rewrite <- app_comm_cons. cbn [mval usum length].
  destruct (l ++ [t]) as [|x r] eqn:E; [by destruct l|].
  rewrite IH, P_S. unfold BASE. ring.
Qed.

Lemma snoc_cases {A} (l : list A) : l <> [] -> exists l' t, l = l' ++ [t].
Proof. intros H. destruct (exists_last H) as (l' & t & ->). eauto. Qed.

Lemma mtop_snoc l t : mtop (l ++ [t]) = t.
Proof. apply List.last_last. Qed.

Lemma top_val_range t : 0 <= t < BASE -> -1 <= top_val t < NEFL.
Proof. unfold top_val, NEFL, BASE. intros. bool_cases; lia. Qed.

(** The range of the values of length [S n], and the representation in it. *)
Definition inrange (n : nat) (v : Z) : Prop := - P n <= v < NEFL * P n.

Lemma mval_range l t : digits (l ++ [t]) -> inrange (length l) (mval (l ++ [t])).
Proof.
  intros [Hl Ht]%digits_app. apply digits_cons in Ht as [Ht _].
  apply usum_range in Hl. apply top_val_range in Ht.
  rewrite mval_snoc. unfold inrange, NEFL in *. pose proof (P_pos (length l)). nia.
Qed.

Lemma mval_usum a : digits a -> a <> [] ->
  mval a = usum a - (if mtop a =? NEFL then P (length a) else 0).
Proof.
  intros Hd Hne. destruct (snoc_cases a Hne) as (l & t & ->).
  rewrite mval_snoc, usum_app, mtop_snoc, length_app. simpl length.
  rewrite Nat.add_1_r, P_S. unfold top_val, NEFL, BASE. simpl.
  destruct (Z.eqb_spec t 127); subst; lia.
Qed.

Lemma mval_mod a : digits a -> a <> [] -> mval a mod P (length a) = usum a.
Proof.
  intros Hd Hne. rewrite mval_usum by done.
  pose proof (usum_range a Hd). pose proof (P_pos (length a)).
  destruct (_ =? _).
  - replace (usum a - P (length a)) with (usum a + (-1) * P (length a)) by lia.
    rewrite Z.mod_add, Z.mod_small by lia. done.
  - rewrite Z.sub_0_r. by apply Z.mod_small.
Qed.

Lemma inrange_unique n u v k : inrange n u -> inrange n v -> u = v + k * P (S n) -> u = v.
Proof.
  rewrite P_S. unfold inrange, NEFL, BASE. intros Hu Hv E. pose proof (P_pos n).
  assert (k = 0) as ->; [|lia]. nia.
Qed.

(** ** norm *)

Lemma norm_carry_spec bs : forall c,
  Forall (fun b => 0 <= b < 256) bs -> 0 <= c < 256 ->
  length (norm_carry bs c) = length bs /\ digits (norm_carry bs c) /\
  exists c', usum (norm_carry bs c) + P (length bs) * c' = usum bs + c.
Proof.
  induction bs as [|b bs IH]; intros c Hbs Hc; simpl.
  - split; [done|]. split; [constructor|]. exists c. rewrite P_0. lia.
  - apply Forall_cons in Hbs as [Hb Hbs]. rewrite s16_small by lia.
    rewrite Z.rem_mod_nonneg, Z.shiftr_div_pow2 by (unfold BASE, L2BASE; lia).
    change (2 ^ L2BASE) with BASE.
    pose proof (Z.mod_pos_bound (c + b) BASE ltac:(done)) as Hm.
    pose proof (Z.div_mod (c + b) BASE ltac:(done)) as Hdm.
    destruct (IH ((c + b) / BASE) Hbs) as (Hl & Hd & c' & Hc').
    { unfold BASE in *. split; [apply Z.div_pos; lia|]. apply Z.div_lt_upper_bound; lia. }
    rewrite u8_small by (unfold BASE in *; lia).
    split; [by rewrite Hl|]. split; [by apply digits_cons|].
    exists c'. rewrite P_S. unfold BASE in *. lia.
Qed.

Lemma mval_drop_nefl l : mval (l ++ [NEFL; NEFL]) = mval (l ++ [NEFL]).
Proof.
  replace (l ++ [NEFL; NEFL]) with ((l ++ [NEFL]) ++ [NEFL]) by (by rewrite <- app_assoc).
  rewrite !mval_snoc, usum_app, length_app. simpl length.
  rewrite Nat.add_1_r, P_S. unfold top_val, NEFL, BASE. simpl. lia.
Qed.

Lemma mval_drop_zero l s : s <> NEFL -> mval (l ++ [s; 0]) = mval (l ++ [s]).
Proof.
  intros Hs. replace (l ++ [s; 0]) with ((l ++ [s]) ++ [0]) by (by rewrite <- app_assoc).
  rewrite !mval_snoc, usum_app, length_app. simpl length.
  unfold top_val, NEFL in *. simpl. rewrite (proj2 (Z.eqb_neq _ _) Hs). lia.
Qed.

Lemma minimal_snoc2 l s t : minimal (l ++ [s; t]) <-> (t = NEFL -> s <> NEFL) /\ (t = 0 -> s = NEFL).
Proof. unfold minimal. rewrite rev_app_distr. done. Qed.

Lemma strip_nefl_spec r : digits r ->
  wf (rev (NEFL :: strip_nefl r)) /\ mval (rev (NEFL :: strip_nefl r)) = mval (rev (NEFL :: r)).
Proof.
  induction r as [|d r IH]; intros Hd; simpl strip_nefl.
  - split; [|done]. split; [done|]. split; [|done]. apply digits_nefl.
  - apply digits_cons in Hd as [Hd0 Hd].
    destruct (Z.eqb_spec d NEFL) as [->|Hne].
    + destruct (IH Hd) as [Hwf E]. split; [done|]. rewrite E. cbn [rev].
      rewrite <- app_assoc. symmetry. apply mval_drop_nefl.
    + split; [|done]. cbn [rev]. rewrite <- app_assoc. split; [by destruct (rev r)|].
      split.
      * rewrite digits_app. split; [auto with mint|].
        apply digits_cons. split; [done|apply digits_nefl].
      * apply minimal_snoc2. split; [done|]. unfold NEFL. lia.
Qed.

Lemma strip_zero_spec r : digits r -> r <> [] -> hd 0 r <> NEFL ->
  let r1 := match strip_zero r with
            | (d :: _) as r' => if d =? NEFL then 0 :: r' else r'
            | [] => [] end in
  wf (rev r1) /\ mval (rev r1) = mval (rev r).
Proof.
  induction r as [|d r IH]; intros Hd Hne Hhd; [done|].
  apply digits_cons in Hd as [Hd0 Hd]. simpl in Hhd.
  destruct r as [|s r].
  { cbv zeta. cbn [strip_zero]. rewrite (proj2 (Z.eqb_neq _ _) Hhd).
    split; [|done]. split; [done|]. split; [|done]. auto with mint. }
  change (strip_zero (d :: s :: r)) with (if d =? 0 then strip_zero (s :: r) else d :: s :: r).
  destruct (Z.eqb_spec d 0) as [->|Hd1].
  2: { cbv zeta. rewrite (proj2 (Z.eqb_neq _ _) Hhd). split; [|done]. cbn [rev].
       split; [by destruct (rev r ++ [s])|]. split.
       - rewrite !digits_app. apply digits_cons in Hd as [??].
         auto with mint.
       - rewrite <- app_assoc. by apply minimal_snoc2. }
  destruct (Z.eq_dec s NEFL) as [->|Hs].
  - (* the zero is kept in front of a NEFL digit *)
    assert (strip_zero (NEFL :: r) = NEFL :: r) as -> by (by destruct r).
    cbv zeta. rewrite Z.eqb_refl. split; [|done]. cbn [rev].
    split; [by destruct (rev r ++ [NEFL])|]. split.
    + rewrite !digits_app. apply digits_cons in Hd as [??].
      auto with mint.
    + rewrite <- app_assoc. by apply minimal_snoc2.
  - destruct (IH Hd ltac:(done) Hs) as [Hwf E]. split; [done|]. rewrite E.
    cbn [rev]. rewrite <- app_assoc. symmetry. by apply mval_drop_zero.
Qed.

Lemma norm_strip_spec r : digits r -> r <> [] ->
  wf (rev (norm_strip r)) /\ mval (rev (norm_strip r)) = mval (rev r).
Proof.
  intros Hd Hne. destruct r as [|d r]; [done|]. simpl.
  destruct (Z.eqb_spec d NEFL) as [->|Hn].
  - apply digits_cons in Hd as [_ Hd]. by apply strip_nefl_spec.
  - by apply (strip_zero_spec (d :: r)).
Qed.

(** The sum of the bytes fixes the value, in the range of their number. *)
Lemma norm_spec bs n v k :
  Forall (fun b => 0 <= b < 256) bs -> length bs = S n -> inrange n v ->
  usum bs = v + k * P (S n) ->
  wf (norm bs) /\ mval (norm bs) = v.
Proof.
  intros Hbs Hlen Hv Hs. unfold norm.
  destruct (norm_carry_spec bs 0 Hbs ltac:(lia)) as (Hl & Hd & c' & Hc).
  assert (norm_carry bs 0 <> []) as Hne by (intros E; rewrite E in Hl; simpl in Hl; lia).
  destruct (norm_strip_spec (rev (norm_carry bs 0))) as [Hwf E].
  { by apply Forall_rev. }
  { intros E. apply Hne. by rewrite <- (rev_involutive (norm_carry bs 0)), E. }
  split; [done|]. rewrite E, rev_involutive.
  destruct (snoc_cases _ Hne) as (l & t & El).
  pose proof Hd as Hr. rewrite El in Hr. apply mval_range in Hr. rewrite <- El in Hr.
  assert (length l = n) as Hln.
  { rewrite El, length_app in Hl. simpl in Hl. lia. }
  rewrite Hln in Hr. rewrite mval_usum in Hr |- * by done.
  rewrite Hl, Hlen in *.
  destruct (mtop (norm_carry bs 0) =? NEFL).
  - apply (inrange_unique n _ _ (k - c' - 1)); [done|done|]. lia.
  - apply (inrange_unique n _ _ (k - c')); [done|done|]. lia.
Qed.

(** ** Addition *)

Lemma digit_s8 d : 0 <= d < BASE -> s8 d = d.
Proof. unfold BASE. intros. apply s8_small. lia. Qed.

Lemma madd_both_spec (sg : bool) a : forall b,
  digits a -> digits b -> (length b <= length a)%nat ->
  let bsign := if sg then NEFL else 0 in
  length (madd_both a b bsign) = length a /\
  Forall (fun x => 0 <= x < 256) (madd_both a b bsign) /\
  usum (madd_both a b bsign) =
    usum a + usum b + (if sg then P (length a) - P (length b) else 0).
Proof.
  induction a as [|x a IH]; intros b Ha Hb Hlen; simpl in Hlen.
  { destruct b; [|simpl in Hlen; lia]. cbn [madd_both usum length]. destruct sg; split; [done| |done|];
      (split; [constructor|lia]). }
  apply digits_cons in Ha as [Hx Ha].
  assert (0 <= (if sg then NEFL else 0) <= NEFL) as Hsg by (unfold NEFL; destruct sg; lia).
  destruct b as [|y b]; cbn zeta.
  - destruct (IH [] Ha Hb ltac:(simpl; lia)) as (Hl & Hf & Hs). cbn zeta in *.
    cbn [madd_both length usum] in *. rewrite digit_s8 by done.
    unfold NEFL, BASE in *. rewrite u8_small by lia.
    split; [by rewrite Hl|]. split; [constructor; [lia|done]|].
    rewrite Hs, P_S. rewrite P_0 in *. unfold BASE. destruct sg; lia.
  - apply digits_cons in Hb as [Hy Hb]. simpl in Hlen.
    destruct (IH b Ha Hb ltac:(lia)) as (Hl & Hf & Hs). cbn zeta in *.
    cbn [madd_both length usum] in *. rewrite !digit_s8 by done.
    unfold NEFL, BASE in *. rewrite u8_small by lia.
    split; [by rewrite Hl|]. split; [constructor; [lia|done]|].
    rewrite Hs, !P_S. unfold BASE. destruct sg; lia.
Qed.

Lemma wf_len a : wf a -> exists n, length a = S n /\ inrange n (mval a).
Proof.
  intros (Hne & Hd & _). destruct (snoc_cases a Hne) as (l & t & ->).
  exists (length l). rewrite length_app. simpl. split; [lia|]. by apply mval_range.
Qed.

Lemma inrange_mono n k v : (n <= k)%nat -> inrange n v -> inrange k v.
Proof. intros Hn Hv. pose proof (P_mono _ _ Hn). unfold inrange, NEFL in *. lia. Qed.

Lemma mval_sign a : wf a -> mval a = usum a - (if ispos a then 0 else P (length a)).
Proof.
  intros (Hne & Hd & _). rewrite mval_usum by done. unfold ispos.
  destruct (_ =? _); simpl; lia.
Qed.

Lemma madd_ordered a b : wf a -> wf b -> (length b <= length a)%nat ->
  let bs := madd_both a b (if ispos b then 0 else NEFL) ++
       [u8 ((if ispos a then 0 else NEFL) + (if ispos b then 0 else NEFL))] in
  wf (norm bs) /\ mval (norm bs) = mval a + mval b.
Proof.
  intros Ha Hb Hlen bs.
  destruct (wf_len a Ha) as (na & Hla & Hra). destruct (wf_len b Hb) as (nb & Hlb & Hrb).
  pose proof (mval_sign a Ha) as Va. pose proof (mval_sign b Hb) as Vb.
  destruct Ha as (_ & Hda & _), Hb as (_ & Hdb & _).
  destruct (madd_both_spec (negb (ispos b)) a b Hda Hdb Hlen) as (Hl & Hf & Hs).
  assert ((if negb (ispos b) then NEFL else 0) = (if ispos b then 0 else NEFL)) as Eb
    by (by destruct (ispos b)).
  rewrite Eb in *. cbn zeta in *.
  set (top := (if ispos a then 0 else NEFL) + (if ispos b then 0 else NEFL)) in *.
  assert (0 <= top < 256) as Ht by (unfold top, NEFL; destruct (ispos a), (ispos b); lia).
  assert (length bs = S (S na)) as Hlbs.
  { unfold bs. rewrite length_app, Hl, Hla. simpl. lia. }
  apply (norm_spec bs (S na) _ ((if ispos a then 0 else 1) + (if ispos b then 0 else 1))).
  - unfold bs. apply Forall_app. split; [done|]. constructor; [apply u8_range|constructor].
  - done.
  - apply (inrange_mono nb na) in Hrb; [|lia].
    unfold inrange, NEFL in *. rewrite P_S. unfold BASE. pose proof (P_pos na). lia.
  - unfold bs. rewrite usum_app, Hs, Hl, u8_small by done. cbn [usum].
    rewrite Va, Vb, Hla in *. rewrite !P_S in *. unfold top, NEFL, BASE in *.
    destruct (ispos a), (ispos b); simpl; lia.
Qed.

Lemma madd_correct a b : wf a -> wf b -> wf (madd a b) /\ mval (madd a b) = mval a + mval b.
Proof.
  intros Ha Hb. unfold madd. destruct (Nat.ltb_spec (length a) (length b)).
  - destruct (madd_ordered b a Hb Ha ltac:(lia)) as [Hw E]. split; [done|]. by rewrite E, Z.add_comm.
  - by apply madd_ordered.
Qed.

(** ** Negation *)

Lemma usum_compl a : digits a ->
  usum (map (fun d => u8 (NEFL - s8 d)) a) = P (length a) - 1 - usum a /\
  digits (map (fun d => u8 (NEFL - s8 d)) a).
Proof.
  induction 1 as [|d a Hd Ha [IH IHd]]; cbn [map usum length].
  - rewrite P_0. split; [lia|constructor].
  - rewrite digit_s8 by done. unfold BASE, NEFL in *. rewrite u8_small by lia.
    rewrite IH, P_S. unfold BASE in *. split; [lia|]. apply digits_cons. unfold BASE. split; [lia|done].
Qed.

Lemma digits_bytes l : digits l -> Forall (fun b => 0 <= b < 256) l.
Proof. intros H. eapply Forall_impl; [exact H|]. unfold BASE. simpl. lia. Qed.

(** Complementing every digit and adding one in the first. *)
Lemma complement_spec a ext : digits a -> a <> [] -> digits ext ->
  exists b bs, map (fun d => u8 (NEFL - s8 d)) a ++ ext = b :: bs /\
    Forall (fun b => 0 <= b < 256) (u8 (b + 1) :: bs) /\
    length (u8 (b + 1) :: bs) = (length a + length ext)%nat /\
    usum (u8 (b + 1) :: bs) = P (length a) - usum a + P (length a) * usum ext.
Proof.
  intros Ha Hne He. destruct (usum_compl a Ha) as [Hs Hd].
  destruct (map (fun d => u8 (NEFL - s8 d)) a) as [|b bs] eqn:E; [by destruct a|].
  assert (length a = S (length bs)) as Hl.
  { rewrite <- (length_map (fun d => u8 (NEFL - s8 d)) a), E. done. }
  exists b, (bs ++ ext). apply digits_cons in Hd as [Hb Hbs]. unfold BASE in Hb.
  rewrite u8_small by lia. split; [done|]. split.
  { constructor; [lia|]. apply Forall_app; split; by apply digits_bytes. }
  split; [simpl; rewrite length_app; lia|].
  cbn [usum] in *. rewrite usum_app, Hl in *. rewrite P_S in *. unfold BASE in *. lia.
Qed.

Lemma mneg_correct a : wf a -> wf (mneg a) /\ mval (mneg a) = - mval a.
Proof.
  intros Ha. destruct (wf_len a Ha) as (n & Hl & Hr). pose proof (mval_sign a Ha) as V.
  pose proof Ha as (Hne & Hd & _). unfold mneg.
  destruct (complement_spec a (if ispos a then [NEFL] else []) Hd Hne) as (b & bs & E & Hf & Hlb & Hs).
  { destruct (ispos a); [apply digits_nefl|constructor]. }
  rewrite E. unfold inrange, NEFL in *. destruct (ispos a) eqn:Hp; simpl length in *.
  - apply (norm_spec _ (S n) _ 1); [done|simpl; lia| |].
    + unfold inrange, NEFL. rewrite P_S. unfold BASE. pose proof (usum_range a Hd). lia.
    + rewrite Hs, Hl. cbn [usum]. rewrite !P_S in *. unfold NEFL, BASE in *. lia.
  - apply (norm_spec _ n _ 0); [done|simpl; lia| |].
    + unfold inrange, NEFL. pose proof (P_pos n). pose proof (usum_range a Hd).
      rewrite Hl, P_S in *. unfold BASE in *. lia.
    + rewrite Hs, Hl in *. cbn [usum]. rewrite !P_S in *. unfold BASE in *. lia.
Qed.

Lemma msub_correct a b : wf a -> wf b -> wf (msub a b) /\ mval (msub a b) = mval a - mval b.
Proof.
  intros Ha Hb. destruct (mneg_correct b Hb) as [Hn E]. unfold msub.
  destruct (madd_correct a _ Ha Hn) as [Hw E']. split; [done|]. rewrite E', E. lia.
Qed.

(** ** Normal forms are unique, comparison *)

Lemma top_cases l s t : digits (l ++ [s; t]) -> minimal (l ++ [s; t]) ->
  ~ inrange (length l) (mval (l ++ [s; t])).
Proof.
  intros Hd Hm. apply minimal_snoc2 in Hm as [Hn Hz].
  replace (l ++ [s; t]) with ((l ++ [s]) ++ [t]) in * by (by rewrite <- app_assoc).
  rewrite mval_snoc, usum_app, length_app. cbn [usum length].
  rewrite !digits_app, !digits_cons in Hd. destruct Hd as [[Hl [Hs _]] [Ht _]].
  apply usum_range in Hl. rewrite Nat.add_1_r, P_S. pose proof (P_pos (length l)).
  unfold inrange, top_val, NEFL, BASE in *. destruct (Z.eqb_spec t 127); [|destruct (Z.eqb_spec t 0)].
  - assert (s <= 126) by (specialize (Hn ltac:(done)); lia). nia.
  - specialize (Hz ltac:(done)). subst. lia.
  - nia.
Qed.

Lemma wf_long a n : wf a -> length a = S (S n) -> ~ inrange n (mval a).
Proof.
  intros (Hne & Hd & Hm) Hl. destruct (snoc_cases a Hne) as (l' & t & ->).
  rewrite length_app in Hl. simpl in Hl.
  destruct (snoc_cases l') as (l & s & ->); [by destruct l'; [simpl in Hl; lia|]|].
  rewrite <- app_assoc in *. simpl in *.
  replace n with (length l) by (rewrite length_app in Hl; simpl in Hl; lia).
  by apply top_cases.
Qed.

Lemma wf_length_le a b : wf a -> wf b -> mval a = mval b -> (length a <= length b)%nat.
Proof.
  intros Ha Hb E. destruct (wf_len b Hb) as (nb & Hlb & Hrb).
  destruct (decide (length a <= length b)%nat) as [|Hgt]; [done|]. exfalso.
  apply (wf_long a (length a - 2) Ha); [lia|]. rewrite E.
  eapply inrange_mono; [|done]. lia.
Qed.

Lemma usum_inj a : forall b, digits a -> digits b -> length a = length b ->
  usum a = usum b -> a = b.
Proof.
  induction a as [|x a IH]; intros [|y b] Ha Hb Hl E; try done.
  apply digits_cons in Ha as [Hx Ha], Hb as [Hy Hb]. cbn [usum] in E. unfold BASE in *.
  assert (x = y /\ usum a = usum b) as [-> E'] by lia.
  f_equal. apply IH; auto.
Qed.

Lemma ispos_mval a : wf a -> ispos a = (0 <=? mval a).
Proof.
  intros Ha. rewrite (mval_sign a Ha). destruct Ha as (Hne & Hd & _).
  pose proof (usum_range a Hd). destruct (ispos a); symmetry; [apply Z.leb_le|apply Z.leb_gt]; lia.
Qed.

Lemma mval_inj a b : wf a -> wf b -> mval a = mval b -> a = b.
Proof.
  intros Ha Hb E. pose proof (wf_length_le a b Ha Hb E). pose proof (wf_length_le b a Hb Ha (eq_sym E)).
  assert (length a = length b) as Hl by lia.
  pose proof (mval_sign a Ha) as Va. pose proof (mval_sign b Hb) as Vb.
  rewrite (ispos_mval a Ha), E, <- (ispos_mval b Hb), Hl in Va.
  apply usum_inj; [apply Ha|apply Hb|done|lia].
Qed.

Lemma mcmp_bytes_spec ra : forall rb, digits ra -> digits rb -> length ra = length rb ->
  Z.sgn (mcmp_bytes ra rb) = Z.sgn (usum (rev ra) - usum (rev rb)).
Proof.
  induction ra as [|x ra IH]; intros [|y rb] Ha Hb Hl; try done.
  apply digits_cons in Ha as [Hx Ha], Hb as [Hy Hb]. injection Hl as Hl.
  cbn [mcmp_bytes rev]. rewrite !digit_s8 by done.
  rewrite !usum_app, !length_rev, <- Hl. cbn [usum].
  pose proof (usum_range _ (digits_rev _ Ha)) as Ra. pose proof (usum_range _ (digits_rev _ Hb)) as Rb.
  rewrite !length_rev in *. rewrite <- Hl in *. pose proof (P_pos (length ra)).
  destruct (Z.eqb_spec x y) as [->|Hne].
  - rewrite IH by done. f_equal. lia.
  - destruct (Z.lt_trichotomy x y) as [Hlt|[|Hlt]]; [|done|]; [rewrite !Z.sgn_neg|rewrite !Z.sgn_pos]; nia.
Qed.

Definition short (a : mint) : Prop := Z.of_nat (length a) < 2 ^ 15.

Lemma mcmp_correct a b : wf a -> wf b -> short a -> short b ->
  Z.sgn (mcmp a b) = Z.sgn (mval a - mval b).
Proof.
  intros Ha Hb Hsa Hsb. pose proof (mval_sign a Ha) as Va. pose proof (mval_sign b Hb) as Vb.
  pose proof (usum_range a (proj1 (proj2 Ha))) as Ra. pose proof (usum_range b (proj1 (proj2 Hb))) as Rb.
  destruct (wf_len a Ha) as (na & La & Ia). destruct (wf_len b Hb) as (nb & Lb & Ib).
  unfold mcmp. fold (ispos a) (ispos b).
  assert (forall m, (mtop m =? NEFL) = negb (ispos m)) as Hneg.
  { intros m. unfold ispos. by rewrite negb_involutive. }
  rewrite !Hneg. unfold short in *.
  destruct (Bool.eqb (negb (ispos a)) (negb (ispos b))) eqn:Es; simpl.
  2: { destruct (ispos a), (ispos b); try done; simpl; symmetry;
       [apply Z.sgn_pos_iff|apply Z.sgn_neg_iff]; lia. }
  apply eqb_prop in Es.
  destruct (Z.eqb_spec (Z.of_nat (length a)) (Z.of_nat (length b))) as [El|El]; simpl.
  - rewrite mcmp_bytes_spec; [|apply digits_rev, Ha|apply digits_rev, Hb|rewrite !length_rev; lia].
    rewrite !rev_involutive. f_equal. assert (length a = length b) as El' by lia.
    rewrite El' in Va. destruct (ispos a), (ispos b); try done; lia.
  - assert (s16 (Z.of_nat (length b) - Z.of_nat (length a)) = Z.of_nat (length b) - Z.of_nat (length a))
      as E1 by (apply s16_small; lia).
    assert (s16 (Z.of_nat (length a) - Z.of_nat (length b)) = Z.of_nat (length a) - Z.of_nat (length b))
      as E2 by (apply s16_small; lia).
    assert ((length a < length b)%nat -> ~ inrange na (mval b)) as Hab.
    { intros Hlt. pose proof (wf_long b (nb - 1) Hb ltac:(lia)) as Hn.
      intros Hi. apply Hn. eapply inrange_mono; [|done]. lia. }
    assert ((length b < length a)%nat -> ~ inrange nb (mval a)) as Hba.
    { intros Hlt. pose proof (wf_long a (na - 1) Ha ltac:(lia)) as Hn.
      intros Hi. apply Hn. eapply inrange_mono; [|done]. lia. }
    pose proof (P_pos na). pose proof (P_pos nb).
    unfold inrange, NEFL in *.
    assert (forall u v, 0 < u /\ 0 < v \/ u < 0 /\ v < 0 -> Z.sgn u = Z.sgn v) as Hsgn by lia.
    destruct (ispos a), (ispos b); try done; cbn [negb]; rewrite ?E1, ?E2; apply Hsgn;
      (destruct (decide (length a < length b)%nat);
        [specialize (Hab ltac:(done)) | specialize (Hba ltac:(lia))]); lia.
Qed.

(** ** Conversions *)

Lemma mitom_digits_spec k : forall room an, 0 <= an < P k -> an < 2 ^ 15 -> (k < room)%nat ->
  exists ds, mitom_digits room an = MOk (ds ++ [0]) /\ digits ds /\ usum ds = an.
Proof.
  induction k as [|k IH]; intros [|room] an Han Hs Hr; try lia.
  - rewrite P_0 in Han. assert (an = 0) as -> by lia. exists []. split; [done|]. split; [constructor|done].
  - simpl. destruct (Z.eqb_spec an 0) as [->|Hne].
    { exists []. split; [done|]. split; [constructor|done]. }
    rewrite Z.shiftr_div_pow2 by done. change (2 ^ L2BASE) with BASE.
    rewrite Z.rem_mod_nonneg by (unfold BASE; lia).
    pose proof (Z.mod_pos_bound an BASE ltac:(done)) as Hm.
    pose proof (Z.div_mod an BASE ltac:(done)) as Hdm.
    rewrite P_S in Han. unfold BASE in *.
    destruct (IH room (an / 128)) as (ds & -> & Hd & Hu).
    { split; [apply Z.div_pos; lia|]. apply Z.div_lt_upper_bound; lia. }
    { apply Z.div_lt_upper_bound; lia. }
    { lia. }
    exists (an mod 128 :: ds). simpl. rewrite u8_small by lia.
    split; [done|]. split; [apply digits_cons; unfold BASE; by split|]. unfold BASE. lia.
Qed.

Lemma mitom_correct n : -32768 < n < 32768 ->
  exists m, mitom n = MOk m /\ wf m /\ mval m = n.
Proof.
  intros Hn. unfold mitom.
  assert (forall an, 0 <= an < 32768 -> exists ds,
    mitom_digits (Z.to_nat NORSIZ) an = MOk (ds ++ [0]) /\ digits ds /\ usum ds = an) as Hds.
  { intros an Han. apply (mitom_digits_spec 3).
    - change (P 3) with 2097152. lia.
    - lia.
    - unfold NORSIZ. lia. }
  destruct (Z.ltb_spec n 0) as [Hlt|Hge].
  - rewrite s16_small by lia. destruct (Hds (- n) ltac:(lia)) as (ds & -> & Hd & Hu). simpl mbind.
    assert (digits (ds ++ [0])) as Hd1 by (apply digits_app; split; [done|by apply digits_1]).
    destruct (complement_spec (ds ++ [0]) [] Hd1) as (b & bs & E & Hf & Hl & Hs);
      [by destruct ds|constructor|].
    rewrite app_nil_r in E. rewrite E. eexists. split; [done|].
    pose proof (usum_range ds Hd). rewrite length_app in *. cbn [length] in *.
    apply (norm_spec _ (length ds) _ 1); [done|simpl; lia| |].
    + unfold inrange, NEFL. lia.
    + rewrite Hs, usum_app, Nat.add_1_r. cbn [usum]. lia.
  - destruct (Hds n ltac:(lia)) as (ds & -> & Hd & Hu). simpl mbind.
    eexists. split; [done|]. pose proof (usum_range ds Hd).
    apply (norm_spec _ (length ds) _ 0).
    + apply digits_bytes, digits_app; split; [done|by apply digits_1].
    + rewrite length_app. simpl. lia.
    + unfold inrange, NEFL. lia.
    + rewrite usum_app. cbn [usum]. lia.
Qed.

(** The most negative int is its own negation: the conversion loop never
    reaches zero and writes past its array. *)
Lemma mitom_min_int : mitom (-32768) = MBad.
Proof. vm_compute. done. Qed.

Lemma mtoi_loop_spec (mifl : bool) (r : list Z) : forall res,
  digits r -> 0 <= res ->
  let ds := if mifl then r else map (fun d => NEFL - d) r in
  res * P (length r) + usum (rev ds) < 2 ^ 15 ->
  mtoi_loop mifl r res = res * P (length r) + usum (rev ds).
Proof.
  induction r as [|d r IH]; intros res Hd Hres ds Hb; subst ds; cbn [mtoi_loop length].
  { rewrite P_0. destruct mifl; simpl; lia. }
  apply digits_cons in Hd as [Hd Hr]. rewrite digit_s8 by done.
  set (e := if mifl then d else NEFL - d).
  set (ds := if mifl then r else map (fun d => NEFL - d) r) in *.
  assert (rev (if mifl then d :: r else map (fun d => NEFL - d) (d :: r)) = rev ds ++ [e]) as E
    by (unfold e, ds; by destruct mifl).
  rewrite E in *. clear E.
  assert (length (rev ds) = length r) as Hl.
  { rewrite length_rev. unfold ds. destruct mifl; [done|by rewrite length_map]. }
  assert (digits ds) as Hds.
  { unfold ds. destruct mifl; [done|]. apply Forall_map. eapply Forall_impl; [exact Hr|].
    unfold NEFL, BASE. simpl. lia. }
  pose proof (usum_range _ (digits_rev _ Hds)) as Ru. rewrite Hl in Ru.
  rewrite usum_app, Hl in *. cbn [usum length] in *. rewrite P_S in *.
  pose proof (P_pos (length r)).
  assert (0 <= e < BASE) by (unfold e, NEFL, BASE in *; destruct mifl; lia).
  assert (res * BASE + e < 2 ^ 15) by (unfold BASE in *; nia).
  assert (0 <= res * BASE + e) by (unfold BASE in *; nia).
  rewrite s16_small by lia. rewrite IH; [fold ds; lia|done|done|]. fold ds. lia.
Qed.

Lemma wf_mminint : wf mminint.
Proof. by apply wf_b_wf. Qed.
Lemma wf_mmaxint : wf mmaxint.
Proof. by apply wf_b_wf. Qed.

Lemma short_const m : m = mminint \/ m = mmaxint -> short m.
Proof. intros [-> | ->]; done. Qed.

Lemma mtoi_correct a : wf a -> short a ->
  mtoi a = if (-32768 <=? mval a) && (mval a <=? 32767) then MOk (mval a) else MPerr.
Proof.
  intros Ha Hs.
  pose proof (mcmp_correct _ _ wf_mminint Ha (short_const _ (or_introl eq_refl)) Hs) as C1.
  pose proof (mcmp_correct _ _ Ha wf_mmaxint Hs (short_const _ (or_intror eq_refl))) as C2.
  change (mval mminint) with (-32768) in C1. change (mval mmaxint) with 32767 in C2.
  unfold mtoi.
  assert ((0 <? mcmp mminint a) = (mval a <? -32768)) as ->.
  { destruct (Z.ltb_spec (mval a) (-32768)); [apply Z.ltb_lt|apply Z.ltb_ge]; lia. }
  assert ((0 <? mcmp a mmaxint) = (32767 <? mval a)) as ->.
  { destruct (Z.ltb_spec 32767 (mval a)); [apply Z.ltb_lt|apply Z.ltb_ge]; lia. }
  destruct (Z.ltb_spec (mval a) (-32768)), (Z.leb_spec (-32768) (mval a)); try lia; [done|].
  destruct (Z.ltb_spec 32767 (mval a)), (Z.leb_spec (mval a) 32767); try lia; [done|]. simpl.
  destruct Ha as (Hne & Hd & _). destruct (snoc_cases a Hne) as (l & t & ->).
  rewrite mval_snoc in *. rewrite rev_app_distr. simpl.
  apply digits_app in Hd as [Hl [Ht _]%digits_cons]. rewrite digit_s8 by done.
  unfold ispos. rewrite mtop_snoc. unfold top_val in *.
  pose proof (usum_range l Hl). pose proof (P_pos (length l)).
  destruct (Z.eqb_spec t NEFL) as [Et|Hn]; simpl;
    [subst t|].
  - destruct (usum_compl l Hl) as [Hu _].
    assert (map (fun d => u8 (NEFL - s8 d)) l = map (fun d => NEFL - d) l) as Em.
    { apply map_ext_in. intros d Hin. apply list_elem_of_In in Hin.
      pose proof (proj1 (Forall_forall _ _) Hl d Hin) as Hdd. simpl in Hdd.
      rewrite digit_s8 by done. unfold BASE, NEFL in *. apply u8_small. lia. }
    rewrite Em in Hu.
    rewrite mtoi_loop_spec; [|by apply digits_rev|done|];
      rewrite <- map_rev, rev_involutive, Hu, length_rev; [|lia].
    rewrite s16_opp_s16, s16_small by lia. f_equal. lia.
  - rewrite mtoi_loop_spec; [|by apply digits_rev|lia|];
      rewrite rev_involutive, length_rev; [f_equal; lia|lia].
Qed.

(** ** What the arithmetic promises *)

(** [madd], [msub] and [mneg] keep numbers normalised and are addition,
    subtraction and negation of the integers that the numbers stand for. *)
Theorem madd_msub_mneg_correct a b : wf a -> wf b ->
  (wf (madd a b) /\ mval (madd a b) = mval a + mval b) /\
  (wf (msub a b) /\ mval (msub a b) = mval a - mval b) /\
  (wf (mneg a) /\ mval (mneg a) = - mval a).
Proof. intros Ha Hb. auto using madd_correct, msub_correct, mneg_correct. Qed.

(** A normalised number is the only one of its value, and [mcmp] has the
    sign of the difference of the values: it is zero exactly for equal
    numbers. *)
Theorem mcmp_orders a b : wf a -> wf b -> short a -> short b ->
  Z.sgn (mcmp a b) = Z.sgn (mval a - mval b) /\ (mcmp a b = 0 <-> a = b).
Proof.
  intros Ha Hb Hsa Hsb. pose proof (mcmp_correct a b Ha Hb Hsa Hsb) as E. split; [done|].
  rewrite <- Z.sgn_null_iff, E, Z.sgn_null_iff. split; [|intros ->; lia].
  intros Hv. apply mval_inj; [done|done|lia].
Qed.

(** For every [int] but the least one, [mitom] gives the normalised number
    of that value and [mtoi] gives the [int] back; [mtoi] of a number that no
    [int] equals calls [mperr]. *)
Theorem mitom_mtoi_roundtrip n a : -32768 < n < 32768 -> wf a -> short a ->
  (exists m, mitom n = MOk m /\ wf m /\ mval m = n /\ mtoi m = MOk n) /\
  mtoi a = if (-32768 <=? mval a) && (mval a <=? 32767) then MOk (mval a) else MPerr.
Proof.
  intros Hn Ha Hs. split; [|by apply mtoi_correct].
  destruct (mitom_correct n Hn) as (m & E & Hw & Hv). exists m. split; [done|]. split; [done|]. split; [done|].
  rewrite mtoi_correct, Hv, (proj2 (Z.leb_le _ _)), (proj2 (Z.leb_le n _)); try done; try lia.
  unfold short. destruct (wf_len m Hw) as (k & Hl & _).
  destruct (decide (length m <= 4)%nat) as [|Hgt]; [lia|]. exfalso.
  apply (wf_long m (length m - 2) Hw); [lia|]. rewrite Hv.
  pose proof (P_mono 3 (length m - 2) ltac:(lia)) as HP. change (P 3) with 2097152 in HP.
  unfold inrange, NEFL in *. lia.
Qed.

(** ** Concrete instances *)

(** 300 and -5. *)
Definition m300 : mint := [44; 2].
Definition m_5 : mint := [123; 127].

Lemma wf_m300 : wf m300.
Proof. by apply wf_b_wf. Qed.
Lemma wf_m_5 : wf m_5.
Proof. by apply wf_b_wf. Qed.

Lemma madd_msub_mneg_correct_witness :
  (wf (madd m300 m_5) /\ mval (madd m300 m_5) = 295) /\
  (wf (msub m300 m_5) /\ mval (msub m300 m_5) = 305) /\ (wf (mneg m300) /\ mval (mneg m300) = -300).
Proof. exact (madd_msub_mneg_correct m300 m_5 wf_m300 wf_m_5). Defined.

Lemma mcmp_orders_witness : Z.sgn (mcmp m300 m_5) = Z.sgn (mval m300 - mval m_5) /\ (mcmp m300 m_5 = 0 <-> m300 = m_5).
Proof. apply mcmp_orders; [apply wf_m300|apply wf_m_5|done|done]. Defined.

Lemma mitom_mtoi_roundtrip_witness :
  (exists m, mitom (-300) = MOk m /\ wf m /\ mval m = -300 /\ mtoi m = MOk (-300)) /\ mtoi m300 = MOk 300.
Proof. apply (mitom_mtoi_roundtrip (-300) m300); [lia|apply wf_m300|done]. Defined.
