(* ===== verification/MintMul.v ===== *)
(** Multi-precision multiplication and division by a digit
    (userland/lib/libmp: smult.c, msma.c, mult.c, sdiv.c). *)
From S2P Require Import Prelude Mint.
From Stdlib Require Import Zquot.
Local Open Scope Z_scope.
Local Open Scope mint_scope.

(** ** smult: by a digit *)

Fixpoint smult_loop (ap : list Z) (n carry : Z) : list Z * Z :=
  match ap with
  | [] => ([], carry)
  | d :: ap =>
    let carry := s16 (carry + s8 d * n) in
    let r := smult_loop ap n (Z.shiftr carry L2BASE) in
    (u8 (Z.rem carry BASE) :: fst r, snd r)
  end.

Definition smult (a : mint) (n : Z) : mres mint :=
  massert ((0 <=? n) && (n <=? NEFL)) (
  if n =? 0 then MOk (mcopy mzero) else
  let r := smult_loop a n 0 in
  let carry := if ispos a then snd r else s16 (snd r + (BASE - n)) in
  massert ((0 <=? carry) && (carry <=? NEFL)) (
  massert ((carry =? NEFL) && (mtop a =? NEFL) || negb (carry =? NEFL) && negb (mtop a =? NEFL)) (
  MOk (norm (fst r ++ [u8 carry]))))).

(** ** msma: shift, multiply and add in place *)

(** The multiplication loop: the digits written, those left, the carry. *)
Fixpoint msma_mul (fp tp : list Z) (fac carry : Z) : list Z * list Z * Z :=
  match fp, tp with
  | f :: fp, t :: tp =>
    let carry := s16 (carry + (s8 t + s8 f * fac)) in
    let '(o, rest, c) := msma_mul fp tp fac (Z.shiftr carry L2BASE) in
    (u8 (Z.rem carry BASE) :: o, rest, c)
  | _, _ => ([], tp, carry)
  end.

(** Propagating the carry or borrow. *)
Fixpoint msma_carry (tp : list Z) (carry : Z) : list Z :=
  match tp with
  | [] => []
  | t :: tp' =>
    if carry =? 0 then tp else
    let carry := s16 (carry + (s8 t + BASE)) in
    u8 (Z.rem carry BASE) :: msma_carry tp' (Z.shiftr carry L2BASE - 1)
  end.

Definition msma (from : mint) (fac : Z) (shift : nat) (to : mint) : mres mint :=
  massert ((0 <=? fac) && (fac <? 2 * BASE)) (
  if fac =? 0 then MOk to else
  let mifl := ispos from in
  let count := if mifl then length from else (length from - 1)%nat in
  massert (shift + count <=? length to)%nat (
  let '(o, rest, carry) := msma_mul (take count from) (drop shift to) fac 0 in
  MOk (take shift to ++ o ++ msma_carry rest (if mifl then carry else carry - fac)))).

(** ** mult *)

(** The digits of [a], leading first, with [count] the number left. *)
Fixpoint mult_loop (ra : list Z) (b res : mint) : mres mint :=
  match ra with
  | [] => MOk res
  | d :: ra =>
    res <-- msma b (s8 d) (length ra) res ;;
    mult_loop ra b res
  end.

Definition mult (a b : mint) : mres mint :=
  let '(a, b) := if (length b <? length a)%nat then (b, a) else (a, b) in
  let apos := ispos a in
  let a := if apos then a else mneg a in
  match a with
  | [d] =>
    c <-- smult b (s8 d) ;;
    MOk (if apos then c else mneg c)
  | _ =>
    res <-- mult_loop (rev a) b (repeat 0 (length a + length b)) ;;
    let res := norm res in
    MOk (if apos then res else mneg res)
  end.

(** ** sdiv: by an int *)

(** The quotient digits, leading first, and the remainder. *)
Fixpoint sdiv_loop (ra : list Z) (n rem : Z) : list Z * Z :=
  match ra with
  | [] => ([], rem)
  | d :: ra =>
    let rem := s16 (BASE * rem + s8 d) in
    let r := sdiv_loop ra n (Z.rem rem n) in
    (u8 (Z.quot rem n) :: fst r, snd r)
  end.

Definition sdiv (a : mint) (n : Z) : mres (mint * Z) :=
  if n =? 0 then MPerr else
  let dmfl := n <? 0 in
  let n := if dmfl then s16 (- n) else n in
  massert ((1 <=? n) && (n <=? BASE)) (
  let npfl := ispos a in
  let a := if npfl then a else mneg a in
  let r := sdiv_loop (rev a) n 0 in
  let q := norm (rev (fst r)) in
  let rem := snd r in
  if (if npfl then dmfl else negb dmfl)
  then MOk (mneg q, s16 (- rem))
  else MOk (q, rem)).

(** ** Correctness *)

Lemma carry_step c : 0 <= c < 32768 ->
  u8 (Z.rem (s16 c) BASE) = c mod BASE /\ Z.shiftr (s16 c) L2BASE = c / BASE /\
  0 <= c mod BASE < BASE /\ c = BASE * (c / BASE) + c mod BASE.
Proof.
  intros Hc. rewrite s16_small by lia.
  rewrite Z.rem_mod_nonneg, Z.shiftr_div_pow2 by (unfold BASE, L2BASE; lia).
  pose proof (Z.mod_pos_bound c BASE ltac:(done)) as Hm.
  pose proof (Z.div_mod c BASE ltac:(done)) as Hd.
  unfold BASE in *. rewrite u8_small by lia. done.
Qed.

Lemma smult_loop_spec a : forall n carry, digits a -> 0 <= n <= NEFL -> 0 <= carry <= NEFL ->
  let r := smult_loop a n carry in
  digits (fst r) /\ length (fst r) = length a /\ 0 <= snd r <= NEFL /\
  usum (fst r) + P (length a) * snd r = usum a * n + carry.
Proof.
  induction a as [|d a IH]; intros n carry Ha Hn Hc; cbn [smult_loop]; cbn zeta.
  { cbn [fst snd usum length]. rewrite P_0. split; [constructor|]. split; [done|]. lia. }
  apply digits_cons in Ha as [Hd Ha]. rewrite digit_s8 by done.
  assert (0 <= d * n <= 127 * 127) by (unfold NEFL, BASE in *; nia).
  destruct (carry_step (carry + d * n) ltac:(unfold NEFL in *; lia)) as (-> & -> & Hm & Hdm).
  unfold NEFL, BASE in *.
  destruct (IH n ((carry + d * n) / 128) Ha ltac:(lia)) as (Hdr & Hl & Hb & E).
  { split; [apply Z.div_pos; lia|]. apply Z.lt_succ_r, Z.div_lt_upper_bound; lia. }
  cbn zeta in *. cbn [fst snd usum length]. rewrite P_S. unfold BASE in *.
  split; [by apply digits_cons|]. split; [by rewrite Hl|]. split; [done|]. lia.
Qed.

Lemma smult_correct a n : wf a -> 0 <= n <= NEFL ->
  exists c, smult a n = MOk c /\ wf c /\ mval c = mval a * n.
Proof.
  intros Ha Hn. unfold smult. rewrite (proj2 (Z.leb_le 0 n)), (proj2 (Z.leb_le n NEFL)) by lia. simpl.
  destruct (Z.eqb_spec n 0) as [->|Hn0].
  { exists mzero. rewrite Z.mul_0_r. split; [done|]. split; [|done]. by apply wf_b_wf. }
  destruct (wf_len a Ha) as (k & Hla & Hra). pose proof (mval_sign a Ha) as V.
  pose proof Ha as (Hne & Hd & _). pose proof (usum_range a Hd) as Hu.
  destruct (smult_loop_spec a n 0 Hd Hn) as (Hdr & Hlr & Hcr & E); [unfold NEFL; lia|].
  cbn zeta in *. set (r := smult_loop a n 0) in *.
  pose proof (usum_range _ Hdr) as Hur. rewrite Hlr in Hur.
  pose proof (P_pos k) as Pk. rewrite Hla, P_S in *. unfold inrange, NEFL, BASE in *.
  set (carry := if ispos a then snd r else s16 (snd r + (128 - n))).
  assert (0 <= carry <= 127 /\ (carry = 127 <-> ispos a = false) /\
    mval a * n = usum (fst r) + 128 * P k * (if ispos a then carry else carry - 128)) as (Hc & Hc7 & Hval).
  { unfold carry. rewrite V. destruct (ispos a).
    - assert (usum a * n <= 127 * (127 * P k)) by nia.
      assert (snd r <= 126) by nia. split; [lia|]. split; [split; [intros; exfalso; lia|done]|]. lia.
    - rewrite s16_small by lia.
      assert (0 < 128 * P k - usum a <= P k) by lia.
      assert (0 < n * (128 * P k - usum a) <= 127 * P k) by nia.
      assert (snd r = n - 1) as Hs by nia. rewrite Hs in *.
      split; [lia|]. split; [split; [done|intros _; lia]|].
      replace (n - 1 + (128 - n) - 128) with (-1) by lia. lia. }
  rewrite (proj2 (Z.leb_le 0 carry)), (proj2 (Z.leb_le carry 127)) by lia. simpl.
  assert ((mtop a =? 127) = negb (ispos a)) as Et by (unfold ispos; by rewrite negb_involutive).
  rewrite Et. assert ((carry =? 127) = negb (ispos a)) as Ec.
  { destruct (ispos a) eqn:Hp; simpl; [apply Z.eqb_neq; intros H; by apply Hc7 in H|apply Z.eqb_eq; by apply Hc7]. }
  rewrite Ec. assert (negb (ispos a) && negb (ispos a) || negb (negb (ispos a)) && negb (negb (ispos a)) = true) as ->
    by (by destruct (ispos a)). simpl.
  eexists. split; [done|].
  apply (norm_spec _ (S k) _ (if ispos a then 0 else 1)).
  - apply Forall_app. split; [by apply digits_bytes|]. constructor; [apply u8_range|constructor].
  - rewrite length_app, Hlr. simpl. lia.
  - unfold inrange, NEFL. rewrite P_S. unfold BASE. nia.
  - rewrite usum_app, Hlr, u8_small by lia. cbn [usum]. rewrite Hval, !P_S. unfold BASE.
    destruct (ispos a); lia.
Qed.

Lemma msma_mul_spec fp : forall tp fac carry,
  digits fp -> digits tp -> 0 <= fac < 2 * BASE -> 0 <= carry <= fac -> (length fp <= length tp)%nat ->
  exists o rest c, msma_mul fp tp fac carry = (o, rest, c) /\
    digits o /\ digits rest /\ length o = length fp /\ (length o + length rest = length tp)%nat /\
    0 <= c <= fac /\
    usum o + P (length fp) * (usum rest + c) = usum tp + fac * usum fp + carry.
Proof.
  induction fp as [|f fp IH]; intros tp fac carry Hf Ht Hfac Hc Hl.
  { exists [], tp, carry. cbn [msma_mul length usum]. rewrite P_0.
    split; [by destruct tp|]. split; [constructor|]. split; [done|].
    split; [done|]. split; [done|]. split; [done|]. lia. }
  destruct tp as [|t tp]; [simpl in Hl; lia|]. simpl in Hl.
  apply digits_cons in Hf as [Hf0 Hf], Ht as [Ht0 Ht].
  cbn [msma_mul]. rewrite !digit_s8 by done.
  assert (0 <= f * fac <= 127 * fac) by (unfold BASE in *; nia).
  destruct (carry_step (carry + (t + f * fac)) ltac:(unfold BASE in *; lia)) as (-> & -> & Hm & Hdm).
  unfold BASE in *.
  destruct (IH tp fac ((carry + (t + f * fac)) / 128) Hf Ht Hfac) as (o & rest & c & -> & Ho & Hr & Hlo & Hlr & Hc' & E).
  { split; [apply Z.div_pos; lia|]. apply Z.lt_succ_r, Z.div_lt_upper_bound; lia. }
  { lia. }
  eexists _, rest, c. split; [done|]. split; [by apply digits_cons|]. split; [done|].
  cbn [length usum]. split; [lia|]. split; [lia|]. split; [done|]. rewrite P_S. unfold BASE. lia.
Qed.

Lemma msma_carry_spec tp : forall carry, digits tp -> - BASE <= carry < 2 * BASE ->
  digits (msma_carry tp carry) /\ length (msma_carry tp carry) = length tp /\
  exists k, usum (msma_carry tp carry) = usum tp + carry + k * P (length tp).
Proof.
  induction tp as [|t tp IH]; intros carry Ht Hc.
  { split; [constructor|]. split; [done|]. exists (- carry). cbn [msma_carry usum length]. rewrite P_0. lia. }
  cbn [msma_carry]. destruct (Z.eqb_spec carry 0) as [->|Hne].
  { split; [done|]. split; [done|]. exists 0. lia. }
  apply digits_cons in Ht as [Ht0 Ht]. rewrite digit_s8 by done.
  destruct (carry_step (carry + (t + BASE)) ltac:(unfold BASE in *; lia)) as (-> & -> & Hm & Hdm).
  unfold BASE in *.
  destruct (IH ((carry + (t + 128)) / 128 - 1) Ht) as (Hd & Hl & k & E).
  { assert (0 <= (carry + (t + 128)) / 128) by (apply Z.div_pos; lia).
    assert ((carry + (t + 128)) / 128 < 128) by (apply Z.div_lt_upper_bound; lia). lia. }
  cbn [length usum]. split; [by apply digits_cons|]. split; [by rewrite Hl|].
  exists k. rewrite E, P_S. unfold BASE. lia.
Qed.

(** [msma] adds [fac * from * BASE^shift] modulo the size of [to]. *)
Lemma msma_spec from fac shift to :
  wf from -> digits to -> 0 <= fac <= BASE ->
  (fac <> 0 -> (shift + (if ispos from then length from else length from - 1) <= length to)%nat) ->
  exists to', msma from fac shift to = MOk to' /\ digits to' /\ length to' = length to /\
    exists k, usum to' = usum to + fac * mval from * P shift + k * P (length to).
Proof.
  intros Hf Ht Hfac Hlen. unfold msma.
  rewrite (proj2 (Z.leb_le 0 fac)), (proj2 (Z.ltb_lt fac (2 * BASE))) by (unfold BASE in *; lia). simpl.
  destruct (Z.eqb_spec fac 0) as [->|Hne].
  { exists to. split; [done|]. split; [done|]. split; [done|]. exists 0. lia. }
  specialize (Hlen Hne). pose proof (mval_sign from Hf) as V.
  destruct Hf as (Hfne & Hfd & _). destruct (snoc_cases from Hfne) as (l & t & ->).
  set (count := if ispos (l ++ [t]) then length (l ++ [t]) else (length (l ++ [t]) - 1)%nat) in *.
  rewrite (proj2 (Nat.leb_le _ _)) by done. simpl.
  destruct (proj1 (digits_app l [t]) Hfd) as [Hl [Htt _]%digits_cons].
  assert (digits (take count (l ++ [t])) /\ length (take count (l ++ [t])) = count /\
    usum (take count (l ++ [t])) - (if ispos (l ++ [t]) then 0 else P count) = mval (l ++ [t]))
    as (Hd1 & Hl1 & Hv1).
  { unfold count. destruct (ispos (l ++ [t])) eqn:Hp.
    - rewrite take_ge by lia. split; [done|]. split; [done|]. lia.
    - rewrite length_app, Nat.add_sub, take_app_length. split; [done|]. split; [done|].
      rewrite mval_snoc. unfold ispos in Hp. rewrite mtop_snoc in Hp.
      unfold top_val. destruct (t =? NEFL); [|done]. lia. }
  assert (digits (drop shift to) /\ length (drop shift to) = (length to - shift)%nat) as [Hd2 Hl2].
  { split; [by apply Forall_drop|]. apply length_drop. }
  destruct (msma_mul_spec (take count (l ++ [t])) (drop shift to) fac 0 Hd1 Hd2)
    as (o & rest & c & -> & Ho & Hr & Hlo & Hlr & Hc & E); [unfold BASE in *; lia|lia|lia|].
  destruct (msma_carry_spec rest (if ispos (l ++ [t]) then c else c - fac) Hr) as (Hd3 & Hl3 & k & E3).
  { unfold BASE in *. destruct (ispos _); lia. }
  eexists. split; [done|].
  assert (digits (take shift to)) as Hd0 by (by apply Forall_take).
  assert (length (take shift to) = shift) as Hl0 by (rewrite length_take; lia).
  split; [by rewrite !digits_app|]. split; [rewrite !length_app; lia|].
  exists k. rewrite !usum_app, Hl0, Hlo, Hl1, E3.
  rewrite <- (take_drop shift to) at 2. rewrite usum_app, Hl0.
  rewrite Hl1 in E.
  assert (P (length to) = P shift * (P count * P (length rest))) as Hp3.
  { rewrite <- !P_add. f_equal. lia. }
  rewrite Hp3, <- Hv1. destruct (ispos (l ++ [t])); nia.
Qed.

Lemma mult_loop_spec ra : forall b res,
  digits ra -> wf b -> digits res -> (length ra + length b <= length res)%nat ->
  exists res', mult_loop ra b res = MOk res' /\ digits res' /\ length res' = length res /\
    exists k, usum res' = usum res + usum (rev ra) * mval b + k * P (length res).
Proof.
  induction ra as [|d ra IH]; intros b res Ha Hb Hr Hl; cbn [mult_loop].
  { exists res. split; [done|]. split; [done|]. split; [done|]. exists 0. simpl. lia. }
  apply digits_cons in Ha as [Hd Ha]. rewrite digit_s8 by done. cbn [length] in Hl.
  destruct (msma_spec b d (length ra) res Hb Hr) as (r1 & -> & Hd1 & Hl1 & k1 & E1).
  { unfold BASE in *. lia. }
  { intros _. destruct (ispos b); lia. }
  simpl mbind. destruct (IH b r1 Ha Hb Hd1) as (r2 & -> & Hd2 & Hl2 & k2 & E2); [lia|].
  exists r2. split; [done|]. split; [done|]. split; [lia|]. exists (k1 + k2).
  rewrite E2, E1, Hl1. cbn [rev]. rewrite usum_app, length_rev. cbn [usum]. lia.
Qed.

Lemma mult_abs a : wf a ->
  let a' := if ispos a then a else mneg a in
  wf a' /\ ispos a' = true /\ mval a' = Z.abs (mval a).
Proof.
  intros Ha. pose proof (ispos_mval a Ha) as Hp. cbn zeta. destruct (ispos a) eqn:E.
  - symmetry in Hp. apply Z.leb_le in Hp. split; [done|]. split; [done|]. lia.
  - symmetry in Hp. apply Z.leb_gt in Hp. destruct (mneg_correct a Ha) as [Hw Hv].
    split; [done|]. rewrite (ispos_mval _ Hw), Hv. split; [apply Z.leb_le; lia|lia].
Qed.

(** Giving the result the sign of [a]. *)
Lemma mult_sign a c v : wf a -> wf c -> mval c = Z.abs (mval a) * v ->
  let r := if ispos a then c else mneg c in wf r /\ mval r = mval a * v.
Proof.
  intros Ha Hc Hv. cbn zeta. pose proof (ispos_mval a Ha) as Hp.
  destruct (ispos a); symmetry in Hp.
  - apply Z.leb_le in Hp. split; [done|]. rewrite Hv. lia.
  - apply Z.leb_gt in Hp. destruct (mneg_correct c Hc) as [Hw E]. split; [done|]. rewrite E, Hv. lia.
Qed.

Lemma usum_zeros n : usum (repeat 0 n) = 0 /\ digits (repeat 0 n).
Proof.
  induction n as [|n [IH Hd]]; simpl; [split; [done|constructor]|].
  split; [unfold BASE; lia|]. apply digits_cons. done.
Qed.

Lemma mult_ordered a b : wf a -> wf b ->
  exists c, (let a' := if ispos a then a else mneg a in
    match a' with
    | [d] => c <-- smult b (s8 d) ;; MOk (if ispos a then c else mneg c)
    | _ => res <-- mult_loop (rev a') b (repeat 0 (length a' + length b)) ;;
           let res := norm res in MOk (if ispos a then res else mneg res)
    end) = MOk c /\ wf c /\ mval c = mval a * mval b.
Proof.
  intros Ha Hb. destruct (mult_abs a Ha) as (Ha' & Hp & Hv). cbn zeta in *.
  set (a' := if ispos a then a else mneg a) in *.
  assert (forall c, wf c -> mval c = mval a' * mval b ->
    exists c', MOk (if ispos a then c else mneg c) = MOk c' /\ wf c' /\ mval c' = mval a * mval b) as Hfin.
  { intros c Hc E. rewrite Hv in E. destruct (mult_sign a c (mval b) Ha Hc E) as [Hw Ew].
    eexists. split; [done|]. done. }
  destruct (wf_len a' Ha') as (na & Hla & Hra). destruct (wf_len b Hb) as (nb & Hlb & Hrb).
  assert (Hgen : exists c, (res <-- mult_loop (rev a') b (repeat 0 (length a' + length b)) ;;
           let res := norm res in MOk (if ispos a then res else mneg res)) = MOk c /\
           wf c /\ mval c = mval a * mval b).
  { destruct (usum_zeros (length a' + length b)) as [Hz0 Hzd].
    destruct (mult_loop_spec (rev a') b (repeat 0 (length a' + length b))) as (r & -> & Hd & Hl & k & E).
    { apply digits_rev, Ha'. } { done. } { done. } { rewrite length_rev, repeat_length. lia. }
    simpl mbind. rewrite repeat_length in *. rewrite rev_involutive, Hz0 in E.
    assert (usum a' = mval a') as Hu by (rewrite (mval_sign a' Ha'), Hp; lia). rewrite Hu in E.
    destruct (norm_spec r (na + S nb) (mval a' * mval b) k) as [Hw Ew].
    - by apply digits_bytes.
    - lia.
    - apply usum_range in Hd as _. unfold inrange, NEFL in *. rewrite P_add, P_S. unfold BASE.
      pose proof (P_pos na). pose proof (P_pos nb).
      assert (0 <= mval a') by lia.
      assert (mval a' * mval b < 127 * P na * (127 * P nb)) by nia.
      assert (- (127 * P na * P nb) <= mval a' * mval b) by nia. nia.
    - rewrite E. replace (length a' + length b)%nat with (S (na + S nb)) by lia. lia.
    - by apply Hfin. }
  destruct a' as [|d [|d2 a'']] eqn:Ea; [by destruct Ha'| |exact Hgen].
  assert (0 <= d < NEFL) as Hd.
  { destruct Ha' as (_ & [Hd _]%digits_cons & _). unfold ispos, mtop in Hp. simpl in Hp.
    destruct (Z.eqb_spec d NEFL); [done|]. unfold BASE, NEFL in *. lia. }
  rewrite s8_small by (unfold NEFL in *; lia).
  destruct (smult_correct b d Hb) as (c & -> & Hc & Ec); [unfold NEFL in *; lia|]. simpl mbind.
  apply Hfin; [done|]. rewrite Ec. cbn [mval]. unfold top_val.
  rewrite (proj2 (Z.eqb_neq d NEFL)) by lia. lia.
Qed.

Lemma mult_correct a b : wf a -> wf b ->
  exists c, mult a b = MOk c /\ wf c /\ mval c = mval a * mval b.
Proof.
  intros Ha Hb. unfold mult. destruct (Nat.ltb_spec (length b) (length a)).
  - destruct (mult_ordered b a Hb Ha) as (c & E & Hc & V). exists c. rewrite V, Z.mul_comm. done.
  - apply (mult_ordered a b Ha Hb).
Qed.

(** ** Division by an int *)

Lemma sdiv_loop_spec ra : forall n rem, digits ra -> 1 <= n <= BASE -> 0 <= rem < n ->
  let r := sdiv_loop ra n rem in
  digits (fst r) /\ length (fst r) = length ra /\ 0 <= snd r < n /\
  usum (rev (fst r)) * n + snd r = rem * P (length ra) + usum (rev ra).
Proof.
  induction ra as [|d ra IH]; intros n rem Hd Hn Hr; cbn [sdiv_loop]; cbn zeta.
  { cbn [fst snd length rev usum]. rewrite P_0. split; [constructor|]. split; [done|]. split; [done|lia]. }
  apply digits_cons in Hd as [Hd0 Hd]. rewrite digit_s8 by done. unfold BASE in *.
  rewrite s16_small by lia. rewrite Z.rem_mod_nonneg, Z.quot_div_nonneg by lia.
  pose proof (Z.mod_pos_bound (128 * rem + d) n ltac:(lia)) as Hm.
  pose proof (Z.div_mod (128 * rem + d) n ltac:(lia)) as Hdm.
  assert (0 <= (128 * rem + d) / n < 128) as Hq.
  { split; [apply Z.div_pos; lia|]. apply Z.div_lt_upper_bound; nia. }
  destruct (IH n ((128 * rem + d) mod n) Hd Hn Hm) as (Hdr & Hl & Hb & E). cbn zeta in *.
  cbn [fst snd rev]. rewrite u8_small by lia.
  split; [by apply digits_cons|]. split; [simpl; by rewrite Hl|]. split; [done|].
  rewrite !usum_app, !length_rev, Hl. cbn [usum length]. rewrite P_S. unfold BASE. nia.
Qed.

Lemma quot_rem_of_abs a b q r : b <> 0 -> 0 <= r < Z.abs b -> q * Z.abs b + r = Z.abs a ->
  Z.quot a b = (if Bool.eqb (0 <=? a) (0 <=? b) then q else - q) /\
  Z.rem a b = (if 0 <=? a then r else - r).
Proof.
  intros Hb Hr E.
  destruct (Zquot_mod_unique_full a b (if Bool.eqb (0 <=? a) (0 <=? b) then q else - q)
    (if 0 <=? a then r else - r)) as [<- <-]; [| |done];
    destruct (Z.leb_spec 0 a), (Z.leb_spec 0 b); unfold Remainder; simpl; nia.
Qed.

(** The remainder carries the sign of the quotient, not that of [a]. *)
Lemma sdiv_correct a n : wf a -> 1 <= Z.abs n <= BASE ->
  exists q, sdiv a n = MOk (q, Z.sgn n * Z.rem (mval a) n) /\ wf q /\ mval q = Z.quot (mval a) n.
Proof.
  intros Ha Hn. unfold sdiv. rewrite (proj2 (Z.eqb_neq n 0)) by lia.
  assert ((if n <? 0 then s16 (- n) else n) = Z.abs n) as ->.
  { unfold BASE in *. destruct (Z.ltb_spec n 0); [rewrite s16_small by lia|]; lia. }
  rewrite (proj2 (Z.leb_le 1 _)), (proj2 (Z.leb_le _ BASE)) by lia. simpl.
  destruct (mult_abs a Ha) as (Ha' & Hp & Hv). cbn zeta in *.
  set (a' := if ispos a then a else mneg a) in *.
  assert (usum a' = Z.abs (mval a)) as Hu by (rewrite <- Hv, (mval_sign a' Ha'), Hp; lia).
  destruct (sdiv_loop_spec (rev a') (Z.abs n) 0) as (Hd & Hl & Hr & E); [apply digits_rev, Ha'|lia|lia|].
  cbn zeta in *. set (r := sdiv_loop (rev a') (Z.abs n) 0) in *.
  rewrite rev_involutive, Hu in E. rewrite length_rev in *.
  destruct (wf_len a' Ha') as (k & Hla & Hra). rewrite Hv in Hra.
  pose proof (usum_range _ (digits_rev _ Hd)) as Hur.
  destruct (norm_spec (rev (fst r)) k (usum (rev (fst r))) 0) as [Hw Ew].
  { by apply digits_bytes, digits_rev. } { rewrite length_rev. lia. }
  { unfold inrange in *. pose proof (P_pos k). nia. } { lia. }
  destruct (quot_rem_of_abs (mval a) n (usum (rev (fst r))) (snd r)) as [Eq Er]; [lia|lia|lia|].
  rewrite Eq, Er. rewrite (ispos_mval a Ha).
  assert (s16 (- snd r) = - snd r) as Es by (apply s16_small; unfold BASE in *; lia).
  destruct (mneg_correct _ Hw) as [Hwn En].
  destruct (Z.leb_spec 0 (mval a)), (Z.ltb_spec n 0), (Z.leb_spec 0 n); try lia; simpl;
    (eexists; split; [apply (f_equal MOk); apply f_equal2; [reflexivity|rewrite ?Es; lia]|]; split;
     [done|]; rewrite ?En, Ew; lia).
Qed.

(** ** What multiplication and division by an int promise *)

(** [mult] is the product of any two normalised numbers and [smult] that
    of a number and an [int] from 0 to 127; the results are normalised, and
    the digits that [msma] adds in place never leave the product's array. *)
Theorem mult_smult_correct a b n : wf a -> wf b -> 0 <= n <= NEFL ->
  (exists c, mult a b = MOk c /\ wf c /\ mval c = mval a * mval b) /\
  (exists c, smult a n = MOk c /\ wf c /\ mval c = mval a * n).
Proof. intros. split; [by apply mult_correct|by apply smult_correct]. Qed.

(** [sdiv] by an [int] from 1 to 128 in absolute value gives the
    truncated quotient, normalised, and the remainder of truncated division
    with its sign turned for a negative divisor; by zero it calls [mperr]. *)
Theorem sdiv_quotient a n : wf a -> Z.abs n <= BASE ->
  if n =? 0 then sdiv a n = MPerr else
  exists q, sdiv a n = MOk (q, Z.sgn n * Z.rem (mval a) n) /\ wf q /\ mval q = Z.quot (mval a) n.
Proof.
  intros Ha Hn. destruct (Z.eqb_spec n 0) as [->|Hne]; [done|].
  apply sdiv_correct; [done|lia].
Qed.

Lemma mult_smult_correct_witness :
  (exists c, mult m300 m_5 = MOk c /\ wf c /\ mval c = -1500) /\
  (exists c, smult m300 7 = MOk c /\ wf c /\ mval c = 2100).
Proof. apply (mult_smult_correct m300 m_5 7); [apply wf_m300|apply wf_m_5|done]. Defined.

Lemma sdiv_quotient_witness :
  exists q, sdiv m300 (-7) = MOk (q, -6) /\ wf q /\ mval q = -42.
Proof. apply (sdiv_quotient m300 (-7)); [apply wf_m300|done]. Defined.
