(* ===== verification/MintDiv.v ===== *)
(** Multi-precision long division (userland/lib/libmp/mdiv.c). *)
From S2P Require Import Prelude Mint MintMul.
Local Open Scope Z_scope.
Local Open Scope mint_scope.

Definition mderef {A} (o : option A) : mres A :=
  match o with Some x => MOk x | None => MBad end.

(** Digit [i] of a value. *)
Definition val (a : mint) (i : Z) : mres Z := mderef (aget a i).

(** Small denominators, between [-BASE] and [BASE]. *)
Definition shortd (a b : mint) : mres (mint * mint) :=
  massert (length b <=? 2)%nat (
  d0 <-- val b 0 ;;
  let denom := if ispos b
               then (if negb (Z.of_nat (length b) =? 1) && (s8 d0 =? 0) then BASE else s8 d0)
               else s8 d0 - BASE in
  massert ((- BASE <=? denom) && (denom <=? BASE)) (
  qr <-- sdiv a denom ;;
  r <-- mitom (snd qr) ;;
  MOk (fst qr, r))).

(** The leading digits of a negative number, rounded up in absolute value. *)
Definition est (a : mint) : mres Z :=
  massert (negb (ispos a) && (3 <=? length a)%nat) (
  d2 <-- val a (Z.of_nat (length a) - 2) ;;
  d3 <-- val a (Z.of_nat (length a) - 3) ;;
  let result := s16 (Z.shiftl (NEFL - s8 d2) L2BASE) in
  let result := s16 (result + (NEFL - s8 d3 + 1)) in
  massert ((result <=? BASE * BASE) && (BASE <? result)) (MOk result)).

(** One quotient digit: [a / (den * BASE^shift)]. *)
Definition guess (den : Z) (shift : nat) (a : mint) : mres Z :=
  let n := if mtop a =? 0 then (length a - 1)%nat else length a in
  massert (n <=? shift + 3)%nat (
  if (n <? shift + 2)%nat then MOk 0 else
  d0 <-- val a (Z.of_nat n - 1) ;;
  d1 <-- val a (Z.of_nat n - 2) ;;
  let result := s16 (Z.shiftl (s8 d0) L2BASE + s8 d1) in
  result <-- (if (n =? shift + 3)%nat
              then (d2 <-- val a (Z.of_nat n - 3) ;;
                    MOk (s32 (Z.shiftl result L2BASE + s8 d2)))
              else MOk result) ;;
  massert (result <? den * BASE) (MOk (Z.quot result den))).

(** The digit comparison of [snc], leading digits first. *)
Fixpoint snc_cmp (ra rb : list Z) : bool :=
  match rb with
  | [] => false
  | y :: rb =>
    match ra with
    | [] => false
    | x :: ra =>
      let temp := s8 x + s8 y in
      if BASE <=? temp then true
      else if temp <? NEFL then false
      else snc_cmp ra rb
    end
  end.

(** Shift, negate and compare: whether [a >= -b * BASE^shift], and [a] with
    its length corrected. *)
Definition snc (b : mint) (shift : nat) (a : mint) : mres (bool * mint) :=
  let r := strip_zero (rev a) in
  a' <-- match r with
         | d :: _ =>
           if d =? NEFL
           then (if (length r =? length a)%nat then MBad else MOk (rev (0 :: r)))
           else MOk (rev r)
         | [] => MBad
         end ;;
  let aleng := length r in
  let bleng := (length b + shift - 1)%nat in
  if negb (aleng =? bleng)%nat then MOk ((bleng <? aleng)%nat, a')
  else MOk (snc_cmp r (tl (rev b)), a').

(** The quotient digits are produced from the leading one down; [q] holds
    those already found, least significant first. *)
Fixpoint longd_loop (shift : nat) (tden : Z) (tbias : nat) (b a q : mint) : mres (mint * mint) :=
  g <-- guess tden (tbias + shift) a ;;
  let d := u8 g in
  a <-- msma b (s8 d) shift a ;;
  ca <-- snc b shift a ;;
  let d' := if fst ca then u8 (d + 1) else d in
  a <-- (if fst ca then msma b 1 shift (snd ca) else MOk (snd ca)) ;;
  match shift with
  | O => MOk (d' :: q, a)
  | S shift => longd_loop shift tden tbias b a (d' :: q)
  end.

Definition longd (a b : mint) : mres (mint * mint) :=
  tden <-- est b ;;
  let tbias := (length b - 3)%nat in
  massert (tbias + 2 <=? length a)%nat (
  let shift := (length a - (tbias + 2))%nat in
  qa <-- longd_loop shift tden tbias b a [0] ;;
  MOk (norm (fst qa), norm (snd qa))).

(** The denominators that [shortd] can handle. *)
Definition small_den (b : mint) : bool :=
  match b with
  | [_] => true
  | [d0; d1] => (s8 d1 =? NEFL) || (s8 d1 =? 0) || ((s8 d1 =? 1) && (s8 d0 =? 0))
  | _ => false
  end.

Definition mdiv (a b : mint) : mres (mint * mint) :=
  if small_den b then shortd a b else
  let bpos := ispos b in
  let b := if bpos then mneg b else b in
  massert (2 <? length b)%nat (
  let apos := ispos a in
  let a := if apos then mcopy a else mneg a in
  qa <-- (if (length a <=? length b - 2)%nat then MOk (mcopy mzero, a) else
          (r <-- longd a b ;; MOk r)) ;;
  if (if apos then negb bpos else bpos)
  then MOk (mneg (fst qa), mneg (snd qa))
  else MOk (fst qa, snd qa)).

(** ** Correctness *)

Lemma usum_mono_top l1 l2 t1 t2 : digits l1 -> digits l2 -> length l1 = length l2 ->
  usum (l1 ++ [t1]) <= usum (l2 ++ [t2]) -> t1 <= t2.
Proof.
  intros H1 H2 Hl. rewrite !usum_app, Hl. cbn [usum].
  pose proof (usum_range _ H1). pose proof (usum_range _ H2). rewrite Hl in *.
  pose proof (P_pos (length l2)). nia.
Qed.

(** [msma] with a negative multiplier, when the result is not negative. *)
Lemma msma_sub b fac shift a :
  wf b -> ispos b = false -> digits a -> 0 <= fac <= BASE -> ispos a = true -> a <> [] ->
  (3 <= length b)%nat ->
  fac * (- mval b) * P shift <= usum a ->
  exists a', msma b fac shift a = MOk a' /\ digits a' /\ length a' = length a /\
    usum a' = usum a - fac * (- mval b) * P shift /\ ispos a' = true.
Proof.
  intros Hb Hnb Ha Hfac Hpa Hane Hlb Hle.
  pose proof (mval_sign b Hb) as Vb. rewrite Hnb in Vb.
  pose proof (usum_range a Ha) as Ra.
  assert (- mval b > P (length b - 2)) as HD.
  { destruct (wf_len b Hb) as (nb & Hl & Hr).
    pose proof (wf_long b (nb - 1) Hb ltac:(lia)) as Hn.
    pose proof (ispos_mval b Hb) as Hp. rewrite Hnb in Hp. symmetry in Hp. apply Z.leb_gt in Hp.
    replace (length b - 2)%nat with (nb - 1)%nat by lia.
    unfold inrange, NEFL in Hn. pose proof (P_pos (nb - 1)). lia. }
  destruct (msma_spec b fac shift a Hb Ha Hfac) as (a' & E & Hd & Hl & k & Hk).
  { rewrite Hnb. intros Hf0.
    destruct (decide (shift + (length b - 1) <= length a)%nat) as [|Hgt]; [done|]. exfalso.
    assert (P (length a) <= P (shift + (length b - 2))) by (apply P_mono; lia).
    rewrite P_add in *. pose proof (P_pos shift). pose proof (P_pos (length b - 2)).
    assert (P (length b - 2) < fac * - mval b) by nia. nia. }
  exists a'. split; [done|]. split; [done|]. split; [done|].
  pose proof (usum_range a' Hd) as Ra'. rewrite Hl in Ra'.
  pose proof (P_pos shift) as Ps.
  assert (0 <= fac * (- mval b) * P shift).
  { apply Z.mul_nonneg_nonneg; [|lia]. pose proof (P_pos (length b - 2)). nia. }
  assert (k = 0) as -> by nia.
  assert (usum a' = usum a - fac * - mval b * P shift) as Eu by lia.
  split; [done|].
  assert (a' <> []) as Hane' by (intros ->; by destruct a).
  destruct (snoc_cases a Hane) as (l & t & ->), (snoc_cases a' Hane') as (l' & t' & ->).
  rewrite !length_app in Hl. simpl in Hl.
  apply digits_app in Ha as [Hla [Ht _]%digits_cons], Hd as [Hla' [Ht' _]%digits_cons].
  pose proof (usum_mono_top l' l t' t Hla' Hla ltac:(lia) ltac:(lia)).
  unfold ispos in *. rewrite mtop_snoc in *. unfold NEFL, BASE in *.
  destruct (Z.eqb_spec t 127), (Z.eqb_spec t' 127); try done; lia.
Qed.

(** ** snc *)

Lemma snc_cmp_spec rb : forall ra, digits ra -> digits rb -> length ra = length rb ->
  snc_cmp ra rb = (P (length rb) <=? usum (rev ra) + usum (rev rb)).
Proof.
  induction rb as [|y rb IH]; intros [|x ra] Ha Hb Hl; try done.
  apply digits_cons in Ha as [Hx Ha], Hb as [Hy Hb]. injection Hl as Hl.
  cbn [snc_cmp rev]. rewrite !digit_s8 by done.
  rewrite !usum_app, !length_rev, Hl. cbn [usum length].
  pose proof (usum_range _ (digits_rev _ Ha)) as Ra. pose proof (usum_range _ (digits_rev _ Hb)) as Rb.
  rewrite !length_rev in *. rewrite Hl in *. rewrite P_S. unfold BASE, NEFL in *.
  pose proof (P_pos (length rb)).
  destruct (Z.leb_spec 128 (x + y)); [symmetry; apply Z.leb_le; nia|].
  destruct (Z.ltb_spec (x + y) 127); [symmetry; apply Z.leb_gt; nia|].
  rewrite IH by done. assert (x + y = 127) by lia.
  destruct (Z.leb_spec (P (length rb)) (usum (rev ra) + usum (rev rb))); symmetry;
    [apply Z.leb_le|apply Z.leb_gt]; nia.
Qed.

Lemma snc_cmp_app ra rest rb : length ra = length rb -> snc_cmp (ra ++ rest) rb = snc_cmp ra rb.
Proof.
  revert ra. induction rb as [|y rb IH]; intros [|x ra] Hl; try done; [by destruct rest|].
  injection Hl as Hl. simpl. by rewrite IH.
Qed.

(** What [strip_zero] leaves of an unsigned number. *)
Lemma strip_zero_usum r : digits r -> r <> [] ->
  exists z d r', r = repeat 0 z ++ d :: r' /\ strip_zero r = d :: r' /\ (d = 0 -> r' = []).
Proof.
  induction r as [|d r IH]; intros Hd Hne; [done|].
  apply digits_cons in Hd as [Hd0 Hd]. destruct r as [|s r].
  { exists O, d, []. done. }
  change (strip_zero (d :: s :: r)) with (if d =? 0 then strip_zero (s :: r) else d :: s :: r).
  destruct (Z.eqb_spec d 0) as [->|Hn].
  - destruct (IH Hd ltac:(done)) as (z & d & r' & E & Es & H0).
    exists (S z), d, r'. simpl. rewrite <- E. done.
  - exists O, d, (s :: r). done.
Qed.

Lemma usum_repeat0 l z : usum (l ++ repeat 0 z) = usum l.
Proof. rewrite usum_app. destruct (usum_zeros z) as [-> _]. lia. Qed.

Lemma length_strip d r' n : digits (d :: r') -> (d = 0 -> r' = []) ->
  usum (rev (d :: r')) < P n -> (1 <= n)%nat -> (length (d :: r') <= n)%nat.
Proof.
  intros Hd H0 Hlt Hn. destruct (decide (length (d :: r') <= n)%nat) as [|Hgt]; [done|]. exfalso.
  apply digits_cons in Hd as [Hd Hr]. destruct (decide (d = 0)) as [->|Hne].
  { rewrite (H0 eq_refl) in *. simpl in Hgt. lia. }
  cbn [rev] in Hlt. rewrite usum_app, length_rev in Hlt. cbn [usum length] in *.
  pose proof (usum_range _ (digits_rev _ Hr)). rewrite length_rev in *.
  pose proof (P_mono n (length r') ltac:(lia)). pose proof (P_pos (length r')). nia.
Qed.

Lemma snc_correct b shift a :
  wf b -> ispos b = false -> (3 <= length b)%nat -> digits a -> ispos a = true -> a <> [] ->
  exists a', snc b shift a = MOk ((- mval b * P shift <=? usum a), a') /\
    digits a' /\ a' <> [] /\ ispos a' = true /\ usum a' = usum a /\
    (forall m, (1 <= m)%nat -> usum a < 2 * P m -> (length a' <= m + 1)%nat).
Proof.
  intros Hb Hnb Hlb Ha Hpa Hane.
  destruct (strip_zero_usum (rev a)) as (z & d & r' & Er & Es & H0); [by apply digits_rev| |].
  { intros E. apply Hane. by rewrite <- (rev_involutive a), E. }
  assert (a = rev (d :: r') ++ repeat 0 z) as Ea.
  { rewrite <- (rev_involutive a), Er, rev_app_distr. f_equal. apply rev_repeat. }
  assert (digits (d :: r')) as Hdr.
  { pose proof (digits_rev _ Ha) as H. rewrite Er in H. by apply digits_app in H as [_ H]. }
  assert (usum a = usum (rev (d :: r'))) as Eu by (rewrite Ea; apply usum_repeat0).
  pose proof Hdr as [Hd Hr]%digits_cons.
  pose proof (usum_range _ (digits_rev _ Hr)) as Rr. rewrite length_rev in Rr.
  assert (usum a = usum (rev r') + P (length r') * d) as Eu2.
  { rewrite Eu. cbn [rev]. rewrite usum_app, length_rev. cbn [usum]. lia. }
  pose proof (P_pos (length r')) as Pr.
  (* the corrected length *)
  assert (exists a', match d :: r' with
         | d :: _ => if d =? NEFL
           then (if (length (d :: r') =? length a)%nat then MBad else MOk (rev (0 :: d :: r')))
           else MOk (rev (d :: r'))
         | [] => MBad end = MOk a' /\ digits a' /\ a' <> [] /\ ispos a' = true /\ usum a' = usum a /\
    (forall m, (1 <= m)%nat -> usum a < 2 * P m -> (length a' <= m + 1)%nat)) as (a' & Ea' & Hprops).
  { destruct (Z.eqb_spec d NEFL) as [->|Hn].
    - destruct (Nat.eqb_spec (length (NEFL :: r')) (length a)) as [El|El].
      { exfalso. rewrite Ea, length_app, repeat_length, length_rev in El.
        assert (z = O) as -> by lia. simpl in Ea. rewrite app_nil_r in Ea.
        rewrite Ea in Hpa. unfold ispos in Hpa. by rewrite mtop_snoc in Hpa. }
      eexists. split; [done|]. cbn [rev].
      split. { rewrite !digits_app. cbn [rev] in *. auto 6 with mint. }
      split; [by destruct (rev r' ++ [NEFL])|].
      split; [unfold ispos; by rewrite mtop_snoc|].
      split. { rewrite Eu. cbn [rev]. rewrite usum_app. cbn [usum]. lia. }
      intros m Hm Hlt. rewrite !length_app, length_rev. cbn [length].
      destruct (decide (length r' + 1 <= m)%nat); [lia|]. exfalso.
      pose proof (P_mono m (length r') ltac:(lia)). unfold NEFL in *. nia.
    - eexists. split; [done|]. split; [by apply digits_rev|].
      split; [intros E; apply (f_equal length) in E; rewrite length_rev in E; done|].
      split; [unfold ispos; cbn [rev]; rewrite mtop_snoc; by rewrite (proj2 (Z.eqb_neq _ _) Hn)|].
      split; [done|]. intros m Hm Hlt. rewrite length_rev.
      apply length_strip; [done|done| |lia]. rewrite <- Eu, Nat.add_1_r, P_S. unfold BASE.
      pose proof (P_pos m). lia. }
  exists a'. unfold snc. rewrite Es, Ea'. cbn [mbind]. cbv zeta. split; [|done]. clear Ea' Hprops.
  (* the comparison *)
  destruct Hb as (Hbne & Hbd & Hbm). destruct (snoc_cases b Hbne) as (l & t & ->).
  assert (t = NEFL) as ->.
  { unfold ispos in Hnb. rewrite mtop_snoc in Hnb. destruct (Z.eqb_spec t NEFL); done. }
  rewrite mval_snoc. unfold top_val. rewrite Z.eqb_refl.
  rewrite rev_app_distr. cbn [rev app tl]. rewrite length_app in *. change (length (d :: r')) with (S (length r')). cbn [length] in Hlb |- *.
  rewrite Nat.add_1_r in *. apply digits_app in Hbd as [Hl _].
  pose proof (usum_range l Hl) as Rl.
  assert (P (length l - 1) < P (length l) - usum l) as HD.
  { destruct (snoc_cases l) as (l0 & s & ->); [by intros ->; simpl in Hlb; lia|].
    rewrite <- app_assoc in Hbm. apply (minimal_snoc2 l0 s NEFL) in Hbm as [Hs _].
    specialize (Hs eq_refl). apply digits_app in Hl as [Hl0 [Hs0 _]%digits_cons].
    pose proof (usum_range l0 Hl0). rewrite usum_app, length_app, Nat.add_sub in *. cbn [usum length] in *.
    rewrite Nat.add_1_r, P_S. unfold NEFL, BASE in *. pose proof (P_pos (length l0)). nia. }
  pose proof (P_pos shift) as Psh.
  assert (S (length l) + shift - 1 = length l + shift)%nat as -> by lia.
  destruct (Nat.eqb_spec (S (length r')) (length l + shift)) as [El|El]; cbn [negb];
    match goal with |- MOk (?x, _) = MOk (?y, _) => cut (x = y); [by intros ->|] end.
  - (* same length: compare digits *)
    rewrite <- (take_drop (length l) (d :: r')), snc_cmp_app by
      (rewrite length_take, length_rev; cbn [length]; lia).
    rewrite snc_cmp_spec; [|by apply Forall_take|by apply digits_rev|
      rewrite length_take, length_rev; cbn [length]; lia].
    rewrite rev_involutive, length_rev.
    rewrite Eu. rewrite <- (take_drop (length l) (d :: r')) at 2.
    rewrite rev_app_distr, usum_app, length_rev, length_drop. cbn [length].
    replace (S (length r') - length l)%nat with shift by lia.
    assert (digits (rev (drop (length l) (d :: r')))) as Hdd by (by apply digits_rev, Forall_drop).
    apply usum_range in Hdd. rewrite length_rev, length_drop in Hdd. cbn [length] in Hdd.
    replace (S (length r') - length l)%nat with shift in Hdd by lia.
    set (T := usum (rev (take (length l) (d :: r')))) in *.
    set (L := usum (rev (drop (length l) (d :: r')))) in *.
    destruct (Z.leb_spec (P (length l)) (T + usum l)); symmetry; [apply Z.leb_le|apply Z.leb_gt]; nia.
  - destruct (Nat.ltb_spec (length l + shift) (S (length r'))) as [Hlt|Hge]; symmetry.
    + apply Z.leb_le. rewrite Eu2. assert (d <> 0) by (intros ->; rewrite H0 in Hlt; simpl in Hlt; lia || done).
      pose proof (P_mono (length l + shift) (length r') ltac:(lia)). rewrite P_add in *. nia.
    + apply Z.leb_gt. rewrite Eu2.
      pose proof (P_mono (S (length r')) (length l - 1 + shift) ltac:(lia)).
      rewrite P_add, P_S in *. unfold BASE in *. nia.
Qed.

(** ** The quotient loop *)

(** A wide negative number: its digits below the sign and its size. *)
Lemma wide_neg b : wf b -> ispos b = false -> (3 <= length b)%nat ->
  exists l0 d3 d2, b = l0 ++ [d3; d2; NEFL] /\ digits l0 /\ 0 <= d3 < BASE /\ 0 <= d2 < NEFL /\
    - mval b = P (S (S (length l0))) - usum l0 - P (length l0) * (d3 + BASE * d2).
Proof.
  intros (Hne & Hd & Hm) Hp Hl. destruct (snoc_cases b Hne) as (b1 & t & ->).
  rewrite length_app in Hl. simpl in Hl.
  destruct (snoc_cases b1) as (b2 & d2 & ->); [by intros ->; simpl in Hl; lia|].
  rewrite length_app in Hl. simpl in Hl.
  destruct (snoc_cases b2) as (l0 & d3 & ->); [by intros ->; simpl in Hl; lia|].
  assert (t = NEFL) as ->.
  { unfold ispos in Hp. rewrite mtop_snoc in Hp. destruct (Z.eqb_spec t NEFL); done. }
  rewrite <- app_assoc in Hm. apply (minimal_snoc2 (l0 ++ [d3]) d2 NEFL) in Hm as [Hs _].
  specialize (Hs eq_refl). rewrite !digits_app in Hd.
  destruct Hd as (((Hl0 & [Hd3 _]%digits_cons) & [Hd2 _]%digits_cons) & _).
  exists l0, d3, d2. split; [by rewrite <- !app_assoc|]. split; [done|]. split; [done|].
  split; [unfold NEFL, BASE in *; lia|].
  rewrite mval_snoc, !usum_app, !length_app. cbn [length usum].
  rewrite !Nat.add_1_r, !P_S. unfold top_val. rewrite Z.eqb_refl. unfold BASE. ring.
Qed.

Lemma aget_app_r {A} (l r : list A) i :
  0 <= i -> aget (l ++ r) (Z.of_nat (length l) + i) = aget r i.
Proof.
  intros Hi. unfold aget. rewrite (proj2 (Z.ltb_ge _ 0)), (proj2 (Z.ltb_ge i 0)) by lia.
  rewrite lookup_app_r by lia. f_equal. lia.
Qed.

Lemma est_spec b : wf b -> ispos b = false -> (3 <= length b)%nat ->
  exists R, est b = MOk R /\ BASE < R <= BASE * BASE /\
    R * P (length b - 3) - P (length b - 3) < - mval b <= R * P (length b - 3).
Proof.
  intros Hb Hp Hl. destruct (wide_neg b Hb Hp Hl) as (l0 & d3 & d2 & Eb & Hl0 & H3 & H2 & V).
  exists (16384 - 128 * d2 - d3). unfold est. rewrite Hp, (proj2 (Nat.leb_le 3 _) Hl). cbn [negb andb massert].
  rewrite V. clear V Hb Hp Hl. subst b. rewrite length_app. cbn [length].
  replace (Z.of_nat (length l0 + 3) - 2) with (Z.of_nat (length l0) + 1) by lia.
  replace (Z.of_nat (length l0 + 3) - 3) with (Z.of_nat (length l0) + 0) by lia.
  replace (length l0 + 3 - 3)%nat with (length l0) by lia.
  unfold val. rewrite !aget_app_r by lia. 
  change (aget [d3; d2; NEFL] 1) with (Some d2). change (aget [d3; d2; NEFL] 0) with (Some d3).
  cbn [mderef mbind].
  pose proof (usum_range _ Hl0) as Hu. rewrite !P_S. unfold BASE, NEFL, L2BASE in *.
  rewrite (s8_small d2), (s8_small d3) by lia. rewrite Z.shiftl_mul_pow2 by lia. change (2 ^ 7) with 128.
  rewrite (s16_small ((127 - d2) * 128)) by lia.
  replace ((127 - d2) * 128 + (127 - d3 + 1)) with (16384 - 128 * d2 - d3) by lia.
  rewrite s16_small by lia. rewrite (proj2 (Z.leb_le _ _)), (proj2 (Z.ltb_lt _ _)) by lia.
  split; [done|]. split; [lia|]. pose proof (P_pos (length l0)). nia.
Qed.

Lemma val_mid l x t i : i = Z.of_nat (length l) -> val (l ++ x :: t) i = MOk x.
Proof.
  intros ->. unfold val. rewrite <- (Z.add_0_r (Z.of_nat _)), aget_app_r by lia. done.
Qed.

Lemma div_den x d p : 0 < d -> 0 < p -> x / (d * p) = (x / p) / d.
Proof. intros. rewrite (Z.mul_comm d p), Z.div_div by lia. done. Qed.

Lemma usum_div_low l t : digits l -> usum (l ++ t) / P (length l) = usum t.
Proof.
  intros Hl%usum_range. rewrite usum_app, (Z.mul_comm (P _)), Z.div_add, Z.div_small by lia. lia.
Qed.

(** At most one leading zero is dropped from the number. *)
Lemma guess_split a : a <> [] -> exists c t,
  a = c ++ t /\ (if (mtop a =? 0)%Z then length a - 1 else length a)%nat = length c /\
  usum a = usum c /\ (mtop a = 0%Z -> length a = S (length c)).
Proof.
  intros Hne. destruct (snoc_cases a Hne) as (l & d & ->). rewrite mtop_snoc, length_app. cbn [length].
  destruct (Z.eqb_spec d 0) as [->|Hd].
  - exists l, [0]. split; [done|]. split; [lia|]. split; [rewrite usum_app; cbn [usum]; lia|lia].
  - exists (l ++ [d]), []. rewrite app_nil_r, length_app. split; [done|]. split; [simpl; lia|]. done.
Qed.

Lemma guess_spec den sh a : digits a -> a <> [] -> BASE < den <= BASE * BASE ->
  usum a < den * P (S sh) -> (length a <= sh + 4)%nat ->
  (length a = sh + 4 -> mtop a = 0%Z)%nat ->
  guess den sh a = MOk (usum a / (den * P sh)).
Proof.
  intros Ha Hne Hden Hu Hl Htop. pose proof (P_pos sh) as Ps. rewrite P_S in Hu. unfold BASE in Hden, Hu.
  unfold guess. destruct (guess_split a Hne) as (c & t & Ea & -> & Ec & Hc).
  assert (length c <= sh + 3)%nat as Hn.
  { assert (length a = length c + length t)%nat by (by rewrite Ea, length_app).
    destruct (decide (length a = sh + 4)%nat) as [E|]; [rewrite Hc in E by auto|]; lia. }
  rewrite (proj2 (Nat.leb_le _ _) Hn). cbn [massert]. rewrite Ec in *.
  rewrite Ea in Ha. apply digits_app in Ha as [Hdc _]. pose proof (usum_range c Hdc) as Rc.
  destruct (Nat.ltb_spec (length c) (sh + 2)) as [Hlt|Hge].
  { f_equal. symmetry. apply Z.div_small. pose proof (P_mono (length c) (S sh) ltac:(lia)) as Hm.
    rewrite P_S in Hm. unfold BASE in Hm. nia. }
  destruct (snoc_cases c) as (c1 & d0 & ->); [by intros ->; simpl in Hge; lia|].
  rewrite length_app in *. cbn [length] in *.
  destruct (snoc_cases c1) as (c2 & d1 & ->); [by intros ->; simpl in Hge; lia|].
  rewrite length_app in *. cbn [length] in *. rewrite <- !app_assoc in *. cbn [app] in *. subst a.
  change (c2 ++ d1 :: d0 :: t) with (c2 ++ [d1] ++ d0 :: t) at 1. rewrite app_assoc.
  rewrite val_mid by (rewrite length_app; cbn [length]; lia). cbn [mbind].
  rewrite val_mid by lia. cbn [mbind].
  apply digits_app in Hdc as (Hd2 & [Hd1 [Hd0 _]%digits_cons]%digits_cons).
  rewrite !digit_s8 by done. unfold L2BASE, BASE in *.
  rewrite !Z.shiftl_mul_pow2 by lia. change (2 ^ 7) with 128. rewrite s16_small by lia.
  assert (forall v, v = usum (c2 ++ [d1; d0]) / P sh ->
    massert (v <? den * 128) (MOk (Z.quot v den)) = MOk (usum (c2 ++ [d1; d0]) / (den * P sh))) as Hfin.
  { intros v Hv. rewrite div_den by lia. rewrite <- Hv.
    assert (0 <= v) by (rewrite Hv; apply Z.div_pos; lia).
    assert (v < den * 128) by (rewrite Hv; apply Z.div_lt_upper_bound; lia).
    rewrite (proj2 (Z.ltb_lt _ _)) by lia. cbn [massert]. by rewrite Z.quot_div_nonneg by lia. }
  destruct (Nat.eqb_spec (length c2 + 1 + 1) (sh + 3)) as [El|El].
  - destruct (snoc_cases c2) as (c3 & d2 & ->); [by intros ->; simpl in El; lia|].
    rewrite length_app in *. cbn [length] in *. rewrite <- !app_assoc in *. cbn [app] in *.
    rewrite val_mid by lia. cbn [mbind].
    apply digits_app in Hd2 as (Hd3 & [Hd2 _]%digits_cons). rewrite digit_s8 by done.
    rewrite s32_small by (unfold BASE in *; lia). apply Hfin.
    replace sh with (length c3) by lia. rewrite usum_div_low by done.
    cbn [usum]. unfold BASE. lia.
  - cbn [mbind]. apply Hfin.
    replace sh with (length c2) by lia. rewrite usum_div_low by done.
    cbn [usum]. unfold BASE. lia.
Qed.

(** The guessed digit is the quotient digit or one less. *)
Lemma guess_error R p D u : BASE < R -> 0 < p -> (R - 1) * p < D <= R * p ->
  0 <= u < D * BASE ->
  let g := u / (R * p) in 0 <= g < BASE /\ g * D <= u < (g + 2) * D.
Proof.
  intros HR Hp HD Hu g. unfold BASE in *.
  assert (0 < R * p) as HRp by nia.
  pose proof (Z.div_mod u (R * p) ltac:(lia)) as Hdm. pose proof (Z.mod_pos_bound u (R * p) HRp) as Hm.
  fold g in Hdm. assert (0 <= g) by (apply Z.div_pos; lia).
  assert (g < 128) by (apply Z.div_lt_upper_bound; nia).
  split; [done|]. split; [nia|].
  assert (u < (g + 1) * (R * p)) by lia.
  assert ((g + 1) * p <= (R - 1) * p) by nia.
  assert ((g + 1) * (R * p) <= (g + 2) * ((R - 1) * p)) by nia. nia.
Qed.

Definition digit_state (lb : nat) (D : Z) (shift : nat) (a : mint) : Prop :=
  digits a /\ a <> [] /\ ispos a = true /\ usum a < D * P (S shift) /\ (length a <= lb + shift + 1)%nat.

Section longd.
Context (b : mint) (R : Z).
Hypothesis Hb : wf b.
Hypothesis Hp : ispos b = false.
Hypothesis Hl : (3 <= length b)%nat.
Hypothesis HR : BASE < R <= BASE * BASE.
Let D := - mval b.
Let m := (length b - 3)%nat.
Hypothesis HD : R * P m - P m < D <= R * P m.

Lemma D_le : D <= P (length b - 1).
  Proof.
    replace (length b - 1)%nat with (S (S m)) by lia. rewrite !P_S. pose proof (P_pos m).
    unfold BASE in *. nia.
  Qed.

Lemma guess_step shift a : digit_state (length b) D shift a ->
    guess R (m + shift) a = MOk (usum a / (R * P m * P shift)).
  Proof.
    intros (Hd & Hne & Hpa & Hu & Hla).
    pose proof (P_pos m). pose proof (P_pos shift). pose proof (P_pos (S shift)).
    assert (P (m + shift) = P m * P shift) as EP by apply P_add.
    assert (usum a < R * P (S (m + shift))) as Hu'.
    { rewrite P_S, EP. rewrite P_S in Hu. unfold BASE in *. nia. }
    rewrite guess_spec; [|done|done|done|done|lia|].
    { by rewrite EP, Z.mul_assoc. }
    intros El. destruct (snoc_cases a Hne) as (l & d & ->). rewrite mtop_snoc.
    rewrite length_app in El. cbn [length] in El. rewrite usum_app in Hu'. cbn [usum] in Hu'.
    apply digits_app in Hd as [Hdl [Hd _]%digits_cons]. apply usum_range in Hdl.
    replace (length l) with (S (S (S (m + shift)))) in * by lia. rewrite !P_S in *.
    pose proof (P_pos (m + shift)). unfold BASE in *. nia.
  Qed.

Lemma digit_step shift a : digit_state (length b) D shift a ->
    let g := usum a / (R * P m * P shift) in
    exists a1 a2 a3 c, msma b (s8 (u8 g)) shift a = MOk a1 /\ snc b shift a1 = MOk (c, a2) /\
      (if (c : bool) then msma b 1 shift a2 else MOk a2) = MOk a3 /\
      let d := if c then u8 (u8 g + 1) else u8 g in
      0 <= d < BASE /\ digits a3 /\ a3 <> [] /\ ispos a3 = true /\
      usum a = d * (D * P shift) + usum a3 /\ usum a3 < D * P shift /\
      (length a3 <= length b + shift)%nat.
  Proof.
    intros Hst g. pose proof (P_pos m) as Pm. pose proof (P_pos shift) as Ps.
    destruct Hst as (Hd & Hne & Hpa & Hu & Hla). rewrite P_S in Hu.
    destruct (guess_error R (P m * P shift) (D * P shift) (usum a)) as [Hg [Hlo Hhi]].
    { lia. } { nia. }
    { rewrite !Z.mul_assoc. split; [apply Z.mul_lt_mono_pos_r|apply Z.mul_le_mono_nonneg_r]; lia. }
    { pose proof (usum_range a Hd). unfold BASE in *. nia. }
    rewrite (Z.mul_assoc R) in Hg, Hlo, Hhi. fold g in Hg, Hlo, Hhi. unfold BASE in Hg.
    rewrite u8_small, s8_small by lia.
    destruct (msma_sub b g shift a) as (a1 & E1 & Hd1 & Hl1 & Hu1 & Hp1); try done.
    { unfold BASE. lia. } { rewrite <- Z.mul_assoc. exact Hlo. }
    assert (a1 <> []) as Hne1 by (intros ->; by destruct a). fold D in Hu1.
    destruct (snc_correct b shift a1) as (a2 & E2 & Hd2 & Hne2 & Hp2 & Hu2 & Hl2); try done.
    fold D in E2. pose proof D_le as HDl.
    assert (length a2 <= length b + shift)%nat as Hla2.
    { specialize (Hl2 (length b - 1 + shift)%nat ltac:(lia)).
      cut (usum a1 < 2 * P (length b - 1 + shift)); [intros H; specialize (Hl2 H); lia|].
      rewrite P_add. nia. }
    exists a1, a2. destruct (Z.leb_spec (D * P shift) (usum a1)) as [Hge|Hlt].
    - destruct (msma_sub b 1 shift a2) as (a3 & E3 & Hd3 & Hl3 & Hu3 & Hp3); try done.
      { fold D. lia. }
      exists a3, true. split; [done|]. split; [done|]. split; [done|]. fold D in Hu3.
      assert (g + 1 < 128) by (unfold BASE in *; nia). rewrite u8_small by lia. unfold BASE.
      split; [lia|]. split; [done|]. split; [by intros ->; destruct a2|]. split; [done|].
      split; [nia|]. split; [nia|]. lia.
    - exists a2, false. split; [done|]. split; [done|]. split; [done|]. unfold BASE.
      split; [lia|]. split; [done|]. split; [done|]. split; [done|]. split; [nia|]. split; [nia|done].
  Qed.

Lemma longd_loop_spec shift : forall a q, digit_state (length b) D shift a ->
    exists q' a', longd_loop shift R m b a q = MOk (q' ++ q, a') /\
      digits q' /\ digits a' /\ a' <> [] /\ ispos a' = true /\
      length q' = S shift /\ usum a' < D /\ usum a = usum q' * D + usum a'.
  Proof.
    induction shift as [|shift IH]; intros a q Hst; cbn [longd_loop];
      rewrite guess_step by done; cbn [mbind]; cbv zeta;
      destruct (digit_step _ a Hst) as (a1 & a2 & a3 & c & -> & E2 & E3 & Hdd & Hd3 & Hne3 & Hp3 & Hu3 & Hlt3 & Hl3);
      cbn [mbind]; rewrite E2; cbn [mbind fst snd]; rewrite E3; cbn [mbind].
    - eexists [_], a3. split; [done|]. split; [by apply digits_1|]. rewrite P_0 in *. cbn [usum length].
      split; [done|]. split; [done|]. split; [done|]. split; [done|]. split; lia.
    - set (d := if c then u8 _ else u8 _) in *.
      destruct (IH a3 (d :: q)) as (q' & a' & E & Hq & Ha' & Hne' & Hp' & Hlq & Hlt & Hu).
      { split; [done|]. split; [done|]. split; [done|]. split; [lia|]. lia. }
      exists (q' ++ [d]), a'. rewrite <- app_assoc. split; [exact E|].
      split; [apply digits_app; split; [done|by apply digits_1]|].
      split; [done|]. split; [done|]. split; [done|]. split; [rewrite length_app; simpl; lia|].
      split; [done|]. rewrite usum_app, Hlq. cbn [usum]. rewrite Hu3, Hu. ring.
  Qed.
End longd.

(** The value of the bytes of a number that is not negative. *)
Lemma norm_pos l v : digits l -> l <> [] -> usum l = v -> ispos l = true ->
  wf (norm l) /\ mval (norm l) = v.
Proof.
  intros Hd Hne Hu Hp. destruct (snoc_cases l Hne) as (l' & t & E).
  assert (inrange (length l') v) as Hr.
  { pose proof Hd as Hr. rewrite E in Hr. apply mval_range in Hr. rewrite <- E in Hr.
    rewrite mval_usum in Hr by done. unfold ispos in Hp. destruct (mtop l =? NEFL); [done|].
    by rewrite Z.sub_0_r, Hu in Hr. }
  apply (norm_spec l (length l') v 0); [|by rewrite E, length_app; simpl; lia|done|lia].
  eapply Forall_impl; [exact Hd|]. unfold BASE. simpl. lia.
Qed.

Lemma longd_correct a b : wf a -> ispos a = true -> wf b -> ispos b = false ->
  (3 <= length b)%nat -> (length b - 2 < length a)%nat ->
  exists q r, longd a b = MOk (q, r) /\ wf q /\ wf r /\
    mval a = mval q * (- mval b) + mval r /\ 0 <= mval r < - mval b.
Proof.
  intros Ha Hpa Hb Hp Hl Hla. destruct (est_spec b Hb Hp Hl) as (R & E & HR & HD).
  unfold longd. rewrite E. cbn [mbind]. rewrite (proj2 (Nat.leb_le _ _)) by lia. cbn [massert].
  pose proof Ha as (Hne & Hda & _). pose proof (mval_sign a Ha) as Va. rewrite Hpa, Z.sub_0_r in Va.
  assert (digit_state (length b) (- mval b) (length a - (length b - 3 + 2)) a) as Hst.
  { split; [done|]. split; [done|]. split; [done|]. split; [|lia].
    pose proof (usum_range a Hda) as Hua.
    assert (P (length a) = BASE * P (length b - 3) * P (S (length a - (length b - 3 + 2)))) as EP.
    { rewrite <- P_S, <- P_add. f_equal. lia. }
    rewrite EP in Hua. pose proof (P_pos (S (length a - (length b - 3 + 2)))). pose proof (P_pos (length b - 3)).
    unfold BASE in *. nia. }
  destruct (longd_loop_spec b R Hb Hp Hl HR HD _ a [0] Hst)
    as (q & r & -> & Hq & Hr & Hner & Hpr & Hlq & Hlt & Hu).
  cbn [mbind fst snd]. eexists _, _. split; [done|].
  destruct (norm_pos (q ++ [0]) (usum q)) as [Hwq Hvq].
  { apply digits_app. split; [done|apply digits_zero]. } { by destruct q. }
  { rewrite usum_app. cbn [usum]. lia. } { unfold ispos. by rewrite mtop_snoc. }
  destruct (norm_pos r (usum r) Hr Hner eq_refl Hpr) as [Hwr Hvr].
  split; [done|]. split; [done|]. rewrite Hvq, Hvr. pose proof (usum_range r Hr). split; lia.
Qed.

(** ** mdiv *)

Lemma small_den_val b : wf b -> small_den b = true ->
  (length b <=? 2)%nat = true /\
  exists d0, val b 0 = MOk d0 /\ -128 <= mval b <= 128 /\
  (if ispos b then (if negb (Z.of_nat (length b) =? 1) && (s8 d0 =? 0) then BASE else s8 d0)
   else s8 d0 - BASE) = mval b.
Proof.
  intros (Hne & Hd & Hm) Hs. unfold small_den in Hs.
  destruct b as [|d0 [|d1 [|]]]; try done; split; try done; exists d0; (split; [done|]);
    apply digits_cons in Hd as [Hd0 Hd]; rewrite digit_s8 in * by done.
  - unfold ispos, mtop. cbn [List.last mval length]. unfold top_val, NEFL, BASE in *. simpl.
    destruct (Z.eqb_spec d0 127) as [->|]; simpl; lia.
  - apply digits_cons in Hd as [Hd1 _]. rewrite !digit_s8 in Hs by done.
    unfold minimal in Hm. cbn [rev app] in Hm.
    unfold ispos, mtop. cbn [List.last mval length]. unfold top_val, NEFL, BASE in *. simpl.
    destruct (Z.eqb_spec d1 127) as [->|]; simpl; [lia|].
    destruct (Z.eqb_spec d0 0) as [->|], (Z.eqb_spec d1 0) as [->|]; simpl in *; lia.
Qed.

Lemma wide_den b : wf b -> small_den b = false -> BASE < Z.abs (mval b).
Proof.
  intros Hb Hs. destruct (wf_len b Hb) as (n & Hl & _).
  destruct b as [|d0 [|d1 [|d2 b]]]; try done.
  - destruct Hb as (_ & [Hd0 [Hd1 _]%digits_cons]%digits_cons & Hm).
    unfold small_den in Hs. rewrite !digit_s8 in Hs by done.
    cbn [mval]. unfold top_val, NEFL, BASE in *.
    destruct (Z.eqb_spec d1 127), (Z.eqb_spec d1 0), (Z.eqb_spec d1 1), (Z.eqb_spec d0 0); simpl in Hs; try done; try lia.
  - pose proof (wf_long _ (length b + 1) Hb ltac:(simpl; lia)) as Hn.
    unfold inrange, NEFL in Hn. rewrite P_add in Hn. change (P 1) with 128 in Hn. pose proof (P_pos (length b)).
    unfold BASE. lia.
Qed.

Lemma neg_len b : wf b -> mval b < - BASE -> ispos b = false /\ (3 <= length b)%nat.
Proof.
  intros Hb Hv. rewrite (ispos_mval b Hb). unfold BASE in *. split; [apply Z.leb_gt; lia|].
  destruct (wf_len b Hb) as (n & Hl & Hr). destruct (decide (2 <= n)%nat); [lia|]. exfalso.
  pose proof (P_mono n 1 ltac:(lia)). change (P 1) with 128 in *. unfold inrange in Hr. lia.
Qed.

(** Quotient and remainder of a number that is not negative by the negation
    of one below [-BASE]. *)
Lemma div_abs a b : wf a -> ispos a = true -> wf b -> ispos b = false -> (3 <= length b)%nat ->
  exists q r, (if (length a <=? length b - 2)%nat then MOk (mcopy mzero, a) else
               (r <-- longd a b ;; MOk r)) = MOk (q, r) /\ wf q /\ wf r /\
    mval q * (- mval b) + mval r = mval a /\ 0 <= mval r < - mval b.
Proof.
  intros Ha Hpa Hb Hp Hl. destruct (Nat.leb_spec (length a) (length b - 2)) as [Hle|Hgt].
  - exists mzero, a. split; [done|]. split; [by apply wf_b_wf|]. split; [done|].
    change (mval mzero) with 0. destruct (est_spec b Hb Hp Hl) as (R & _ & HR & HD).
    pose proof (mval_sign a Ha) as V. rewrite Hpa, Z.sub_0_r in V.
    pose proof (usum_range a (proj1 (proj2 Ha))).
    pose proof (P_mono (length a) (S (length b - 3)) ltac:(lia)) as HP. rewrite P_S in HP.
    pose proof (P_pos (length b - 3)). unfold BASE in *. split; [lia|]. nia.
  - destruct (longd_correct a b Ha Hpa Hb Hp Hl Hgt) as (q & r & -> & Hq & Hr & E & Hlt).
    exists q, r. cbn [mbind]. split; [done|]. split; [done|]. split; [done|]. lia.
Qed.

Lemma mneg_if (c : bool) q : wf q ->
  wf (if c then mneg q else q) /\ mval (if c then mneg q else q) = if c then - mval q else mval q.
Proof. intros Hq. destruct c; [apply (mneg_correct q Hq)|done]. Qed.

Lemma mdiv_wide a b : wf a -> wf b -> small_den b = false ->
  exists q r, mdiv a b = MOk (q, r) /\ wf q /\ wf r /\
    mval q = Z.quot (mval a) (mval b) /\ mval r = Z.sgn (mval b) * Z.rem (mval a) (mval b).
Proof.
  intros Ha Hb Hs. pose proof (wide_den b Hb Hs) as Hw. unfold mdiv. rewrite Hs.
  destruct (mult_abs a Ha) as (Ha' & Hpa' & Va'). cbn zeta in *. fold (mcopy a) in *.
  unfold mcopy in Ha', Hpa', Va' |- *. set (a' := if ispos a then a else mneg a) in *.
  pose proof (mneg_if (ispos b) b Hb) as [Hb' Vb']. set (b' := if ispos b then mneg b else b) in *.
  assert (mval b' = - Z.abs (mval b)) as Eb'.
  { rewrite Vb', (ispos_mval b Hb). destruct (Z.leb_spec 0 (mval b)); lia. }
  destruct (neg_len b' Hb' ltac:(lia)) as [Hpb' Hlb'].
  rewrite (proj2 (Nat.ltb_lt 2 _)) by lia. cbn [massert].
  destruct (div_abs a' b' Ha' Hpa' Hb' Hpb' Hlb') as (q & r & Eq & Hq & Hr & E & Hlt).
  unfold mcopy in Eq. rewrite Eq. cbn [mbind fst snd]. rewrite Eb' in E, Hlt. rewrite Va' in E.
  destruct (quot_rem_of_abs (mval a) (mval b) (mval q) (mval r)) as [Hquot Hrem]; [unfold BASE in *; lia|lia|lia|].
  rewrite Hquot, Hrem. set (c := if ispos a then negb (ispos b) else ispos b).
  exists (if c then mneg q else q), (if c then mneg r else r).
  destruct (mneg_if c q Hq) as [Hwq ->]. destruct (mneg_if c r Hr) as [Hwr ->].
  split; [by destruct c|]. split; [done|]. split; [done|]. subst c.
  rewrite (ispos_mval a Ha), (ispos_mval b Hb). unfold BASE in *.
  destruct (Z.leb_spec 0 (mval a)), (Z.leb_spec 0 (mval b)); cbn [negb Bool.eqb]; split; try done;
    first [rewrite Z.sgn_pos by lia|rewrite Z.sgn_neg by lia]; lia.
Qed.

Lemma mdiv_spec a b : wf a -> wf b ->
  if mval b =? 0 then mdiv a b = MPerr else
  exists q r, mdiv a b = MOk (q, r) /\ wf q /\ wf r /\
    mval q = Z.quot (mval a) (mval b) /\
    mval r = Z.sgn (mval b) * Z.rem (mval a) (mval b).
Proof.
  intros Ha Hb. destruct (small_den b) eqn:Hs.
  - destruct (small_den_val b Hb Hs) as (Hl & d0 & E0 & Hr & Ed).
    unfold mdiv. rewrite Hs. unfold shortd. rewrite Hl, E0. cbn [massert mbind]. cbv zeta. rewrite Ed.
    unfold BASE. rewrite (proj2 (Z.leb_le _ _)), (proj2 (Z.leb_le (mval b) _)) by lia. cbn [massert andb].
    destruct (Z.eqb_spec (mval b) 0) as [E|Hn]; [by rewrite E|].
    destruct (sdiv_correct a (mval b) Ha ltac:(unfold BASE; lia)) as (q & -> & Hq & Vq).
    cbn [mbind snd fst]. pose proof (Z.rem_bound_abs (mval a) (mval b) Hn).
    destruct (mitom_correct (Z.sgn (mval b) * Z.rem (mval a) (mval b))) as (r & -> & Hw & Vr); [lia|].
    cbn [mbind]. exists q, r. done.
  - pose proof (wide_den b Hb Hs). rewrite (proj2 (Z.eqb_neq _ _)) by (unfold BASE in *; lia).
    by apply mdiv_wide.
Qed.

(** C25: For normalised [a] and [b], [mdiv] reports division by zero, or
    returns normalised quotient and remainder: the quotient is the truncated
    one, and the remainder that of truncated division with its sign turned
    for a negative divisor. *)
Theorem mdiv_correct a b : wf a -> wf b ->
  if mval b =? 0 then mdiv a b = MPerr else
  exists q r, mdiv a b = MOk (q, r) /\ wf q /\ wf r /\
    mval q = Z.quot (mval a) (mval b) /\
    mval r = Z.sgn (mval b) * Z.rem (mval a) (mval b).
Proof. apply mdiv_spec. Qed.

(** The remainder is not [a - q * b] for a negative divisor. *)
Lemma mdiv_negative_divisor : mdiv [7] [126; 127] = MOk ([125; 127], [127]).
Proof. vm_compute. reflexivity. Qed.

(** 5000000 by -300. *)
Lemma mdiv_correct_witness : exists q r, mdiv [64; 22; 49; 2] [84; 125; 127] = MOk (q, r) /\ wf q /\ wf r /\
  mval q = -16666 /\ mval r = -200.
Proof. apply (mdiv_correct [64; 22; 49; 2] [84; 125; 127]); by apply wf_b_wf. Defined.
