(* ===== verification/Alloc.v ===== *)
(** The kernel storage allocator (kernel/coh/alloc.c).

    An arena is a chain of [ALL] headers in memory.  A header is the address
    of the next one, with the low bit set when the block is in use; the last
    header links back to the first and is always in use.  Memory is a function
    from byte addresses to bytes, read and written as big-endian long words.
    [link], [tstfree], [setfree] and [setused] are the Z8000 macros of
    kernel/z8001/h/machine.h. *)
From S2P Require Import Prelude Sched.
Local Open Scope Z_scope.
Local Open Scope kernel_scope.

Definition memory : Type := Z -> Z.

Definition ldl (m : memory) (p : Z) : Z :=
  m p * 16777216 + m (p + 1) * 65536 + m (p + 2) * 256 + m (p + 3).

Definition stl (m : memory) (p v : Z) : memory := fun x =>
  if x =? p then v / 16777216 mod 256
  else if x =? p + 1 then v / 65536 mod 256
  else if x =? p + 2 then v / 256 mod 256
  else if x =? p + 3 then v mod 256
  else m x.

Record astate := AState { a_mem : memory; a_error : Z }.

Definition set_a_mem (m : memory) (s : astate) : astate := AState m (a_error s).
Definition set_a_error (e : Z) (s : astate) : astate := AState (a_mem s) e.

Definition EKSPACE : Z := 35.
Definition sizeof_ALL : Z := 4.

Definition align (p : Z) : Z := Z.land p (Z.lnot 1).
Definition link (m : memory) (ap : Z) : Z := align (ldl m ap).
Definition tstfree (m : memory) (ap : Z) : bool := Z.land (ldl m ap) 1 =? 0.
Definition setfree (m : memory) (ap : Z) : memory := stl m ap (Z.land (ldl m ap) (Z.lnot 1)).
Definition setused (m : memory) (ap : Z) : memory := stl m ap (Z.lor (ldl m ap) 1).

(** [kclear(bp, n)] as kernel/z8001/src/md.s does it: for an odd count it
    clears the byte at [bp], and then [n / 2] words from [bp] again. *)
Definition kclear (m : memory) (bp n : Z) : memory := fun x =>
  if Z.odd n && (x =? bp) then 0
  else if (bp <=? x) && (x <? bp + 2 * (n / 2)) then 0 else m x.
(** The number of bytes it clears. *)
Definition kcleared (n : Z) : Z := if Z.odd n then Z.max 1 (n - 1) else n.

Definition setarena (cp n : Z) : M astate Z :=
  let ap1 := if align cp <? cp then align cp + sizeof_ALL else align cp in
  let ap2 := align (cp + n) - sizeof_ALL in
  if ap2 <? ap1 then panic "Arena %o too small" else
  modify (fun s => set_a_mem (setused (stl (stl (a_mem s) ap1 ap2) ap2 ap1) ap2) s) ;;;
  kret ap1.

(** [for (ap2=link(ap1); tstfree(ap2); ap2=link(ap2)) if (ap2 == apq) break;] *)
Fixpoint scan_free (fuel : nat) (m : memory) (apq ap2 : Z) : option Z :=
  match fuel with
  | O => None
  | S fuel =>
    if tstfree m ap2
    then (if ap2 =? apq then Some ap2 else scan_free fuel m apq (link m ap2))
    else Some ap2
  end.

(** One pass over the arena: exact fit when [i] is 0, first fit otherwise. *)
Fixpoint alloc_pass (fuel : nat) (i n l apq ap1 : Z) : M astate (option Z) :=
  match fuel with
  | O => nofuel
  | S fuel =>
    m <- gets a_mem ;;
    if link m ap1 =? apq then kret None
    else if ap1 =? 0 then panic "Corrupt arena"
    else if tstfree m ap1 then
      match scan_free fuel m apq (link m ap1) with
      | None => nofuel
      | Some ap2 =>
        modify (set_a_mem (stl m ap1 ap2)) ;;;
        let s := u16 (Z.quot (ap2 - ap1) sizeof_ALL) in
        if n <=? s then
          if (n <? s) && (i =? 0) then (m <- gets a_mem ;; alloc_pass fuel i n l apq (link m ap1))
          else
            (if n <? s
             then let ap := ap1 + sizeof_ALL * n in
                  modify (fun st => set_a_mem (stl (stl (a_mem st) ap ap2) ap1 ap) st)
             else kret tt) ;;;
            modify (fun st => set_a_mem (kclear (setused (a_mem st) ap1) (ap1 + sizeof_ALL) l) st) ;;;
            kret (Some (ap1 + sizeof_ALL))
        else (m <- gets a_mem ;; alloc_pass fuel i n l apq (link m ap1))
      end
    else alloc_pass fuel i n l apq (link m ap1)
  end.

(** The number of [ALL] units asked for, in unsigned 16-bit arithmetic. *)
Definition alloc_units (l : Z) : Z := u16 (1 + u16 (l + sizeof_ALL - 1) / sizeof_ALL).

Definition alloc (fuel : nat) (apq l : Z) : M astate Z :=
  let n := alloc_units l in
  r <- alloc_pass fuel 0 n l apq apq ;;
  match r with
  | Some p => kret p
  | None =>
    r <- alloc_pass fuel 1 n l apq apq ;;
    match r with
    | Some p => kret p
    | None => modify (set_a_error EKSPACE) ;;; kret 0
    end
  end.

(** [kend] is the address of [end], where the kernel's own data stops. *)
Definition free (kend cp : Z) : M astate unit :=
  let ap := cp - sizeof_ALL in
  m <- gets a_mem ;;
  if (ap <? kend) || tstfree m ap then panic "Bad free %o"
  else modify (fun s => set_a_mem (setfree (a_mem s) ap) s).

(** ** Memory *)

Lemma ldl_stl_same m p v : 0 <= v < 4294967296 -> ldl (stl m p v) p = v.
Proof.
  intros Hv. unfold ldl, stl. rewrite Z.eqb_refl.
  rewrite !(proj2 (Z.eqb_neq (p + _) p)), !Z.eqb_refl by lia.
  rewrite !(proj2 (Z.eqb_neq (p + 2) (p + 1))), !(proj2 (Z.eqb_neq (p + 3) (p + _))) by lia.
  Z.to_euclidean_division_equations. lia.
Qed.

Definition bytes (m : memory) : Prop := forall x, 0 <= m x < 256.

(** Bytes changed between two memories lie in [lo, hi). *)
Definition frame (m m' : memory) (lo hi : Z) : Prop := forall x, ~ (lo <= x < hi) -> m' x = m x.

Lemma frame_stl m p v : frame m (stl m p v) p (p + 4).
Proof. intros x Hx. unfold stl. bool_cases; first [lia|done]. Qed.

Lemma frame_kclear m p l : 0 <= l -> frame m (kclear m p l) p (p + l).
Proof.
  intros Hl x Hx. unfold kclear. pose proof (Z.div_mod l 2 ltac:(done)) as Hd. pose proof (Z.mod_pos_bound l 2 ltac:(lia)) as Hb.
  destruct (Z.odd l) eqn:Ho; cbn [andb].
  - apply Z.odd_spec in Ho as [k Hk]. destruct (Z.eqb_spec x p); [lia|]. bool_cases; simpl; first [lia|done].
  - bool_cases; simpl; first [lia|done].
Qed.

Lemma kclear_zero m p l x : 0 <= l -> p <= x < p + kcleared l -> kclear m p l x = 0.
Proof.
  intros Hl Hx. unfold kclear, kcleared in *. destruct (Z.odd l) eqn:Eo; cbn [andb].
  - destruct (Z.eqb_spec x p); [done|]. apply Z.odd_spec in Eo as [k ->].
    replace ((2 * k + 1) / 2) with k by (Z.to_euclidean_division_equations; lia). bool_cases; simpl; first [lia|done].
  - assert (Z.even l = true) as Ee by (by rewrite <- Z.negb_odd, Eo). apply Z.even_spec in Ee as [k ->].
    replace (2 * k / 2) with k by (Z.to_euclidean_division_equations; lia). bool_cases; simpl; first [lia|done].
Qed.

(** The last byte of an odd count is left as it was. *)
Lemma kclear_odd_tail m p l : Z.odd l = true -> 1 < l -> kclear m p l (p + l - 1) = m (p + l - 1).
Proof.
  intros Ho Hl. unfold kclear. rewrite Ho. apply Z.odd_spec in Ho as [k ->].
  replace ((2 * k + 1) / 2) with k by (Z.to_euclidean_division_equations; lia). bool_cases; simpl; first [lia|done].
Qed.

Lemma frame_trans m1 m2 m3 lo hi : frame m1 m2 lo hi -> frame m2 m3 lo hi -> frame m1 m3 lo hi.
Proof. intros H1 H2 x Hx. by rewrite (H2 x Hx), (H1 x Hx). Qed.

Lemma frame_weak m m' lo hi lo' hi' : frame m m' lo hi -> lo' <= lo -> hi <= hi' -> frame m m' lo' hi'.
Proof. intros H ?? x Hx. apply H. lia. Qed.

Lemma ldl_frame m m' lo hi p : frame m m' lo hi -> p + 4 <= lo \/ hi <= p -> ldl m' p = ldl m p.
Proof. intros H Hp. unfold ldl. rewrite !H by lia. done. Qed.

(** ** The chain of blocks *)

Local Abbreviation blk := (prod Z bool).

Definition hd_addr (l : list blk) (z : Z) : Z := match l with (a, _) :: _ => a | [] => z end.

(** The headers of [l], followed by a header at [z]. *)
Fixpoint seg (m : memory) (l : list blk) (z : Z) : Prop :=
  match l with
  | [] => True
  | (a, u) :: l =>
    ldl m a = hd_addr l z + Z.b2z u /\ 0 < a /\ Z.even a = true /\ a + 4 <= hd_addr l z /\ seg m l z
  end.

(** The blocks in use, with the address that follows each. *)
Fixpoint live (l : list blk) (z : Z) : list (Z * Z) :=
  match l with
  | [] => []
  | (a, u) :: l => (if u then [(a, hd_addr l z)] else []) ++ live l z
  end.

Record arena (m : memory) (apq z : Z) (l : list blk) : Prop := {
  ar_seg : seg m l z;
  ar_hd : hd_addr l z = apq;
  ar_end : ldl m z = apq + 1;
  ar_even : Z.even apq = true;
  ar_zeven : Z.even z = true;
  ar_pos : 0 < apq;
  ar_top : z - apq < 65536 /\ z < 4294967295
}.

Lemma hd_addr_app l1 l2 z : hd_addr (l1 ++ l2) z = hd_addr l1 (hd_addr l2 z).
Proof. by destruct l1 as [|[]]. Qed.

Lemma seg_app m l1 l2 z : seg m (l1 ++ l2) z <-> seg m l1 (hd_addr l2 z) /\ seg m l2 z.
Proof.
  induction l1 as [|[a u] l1 IH]; simpl; [tauto|]. rewrite IH, hd_addr_app. tauto.
Qed.

Lemma live_app l1 l2 z : live (l1 ++ l2) z = live l1 (hd_addr l2 z) ++ live l2 z.
Proof.
  induction l1 as [|[a u] l1 IH]; simpl; [done|]. by rewrite IH, hd_addr_app, app_assoc.
Qed.

Lemma seg_le m l z : seg m l z -> hd_addr l z <= z /\ forall a u, (a, u) ∈ l -> hd_addr l z <= a /\ a + 4 <= z.
Proof.
  induction l as [|[a u] l IH]; simpl; [intros; split; [lia|]; by intros ?? ?%elem_of_nil|].
  intros (_ & _ & _ & Hlt & Hs). destruct (IH Hs) as [Hle Hin]. split; [lia|].
  intros b ub [E|H]%elem_of_cons; [injection E as -> ->; lia|]. apply Hin in H. lia.
Qed.

Lemma seg_ext m m' l z : seg m l z -> (forall a u, (a, u) ∈ l -> ldl m' a = ldl m a) -> seg m' l z.
Proof.
  induction l as [|[a u] l IH]; simpl; [done|]. intros (E & ? & ? & ? & Hs) Hm.
  rewrite (Hm a u) by constructor. split; [done|]. split; [done|]. split; [done|]. split; [done|].
  apply IH; [done|]. intros b ub Hb. apply (Hm b ub). by constructor.
Qed.

(** A change outside the headers on either side leaves them alone. *)
Lemma seg_frame_l m m' l z lo hi : seg m l z -> frame m m' lo hi -> z <= lo -> seg m' l z.
Proof.
  intros Hs Hf Hz. apply (seg_ext m); [done|]. intros a u Ha.
  pose proof (proj2 (seg_le _ _ _ Hs) a u Ha). eapply ldl_frame; [done|]. lia.
Qed.

Lemma seg_frame_r m m' l z lo hi : seg m l z -> frame m m' lo hi -> hi <= hd_addr l z -> seg m' l z.
Proof.
  intros Hs Hf Hz. apply (seg_ext m); [done|]. intros a u Ha.
  pose proof (proj2 (seg_le _ _ _ Hs) a u Ha). eapply ldl_frame; [done|]. lia.
Qed.

Lemma seg_even m l z a u : seg m l z -> (a, u) ∈ l -> Z.even a = true /\ 0 < a.
Proof.
  induction l as [|[b ub] l IH]; simpl; [by intros _ ?%elem_of_nil|].
  intros (_ & ? & ? & _ & Hs) [E|Hin]%elem_of_cons; [by injection E as -> ->|auto].
Qed.

Lemma hd_even m l z : seg m l z -> Z.even z = true -> Z.even (hd_addr l z) = true.
Proof. destruct l as [|[a u] l]; simpl; tauto. Qed.

Lemma align_even x : align x = 2 * (x / 2).
Proof.
  unfold align. change (Z.land x (Z.lnot 1)) with (Z.land x (Z.lnot (Z.ones 1))).
  rewrite <- Z.ldiff_land, Z.ldiff_ones_r, Z.shiftr_div_pow2, Z.shiftl_mul_pow2 by lia.
  change (2 ^ 1) with 2. lia.
Qed.

Lemma align_b2z a u : Z.even a = true -> align (a + Z.b2z u) = a.
Proof.
  intros [k ->]%Z.even_spec. rewrite align_even. f_equal. destruct u; simpl Z.b2z.
  - rewrite (Z.mul_comm 2 k), Z.div_add_l by lia. change (1 / 2) with 0. lia.
  - rewrite Z.add_0_r, (Z.mul_comm 2 k). by apply Z.div_mul.
Qed.

Lemma low_b2z a u : Z.even a = true -> Z.land (a + Z.b2z u) 1 = Z.b2z u.
Proof.
  intros [k ->]%Z.even_spec. change 1 with (Z.ones 1). rewrite Z.land_ones by lia.
  change (2 ^ 1) with 2. rewrite Z.add_comm, (Z.mul_comm 2 k), Z.mod_add by lia. by destruct u.
Qed.

Lemma lor_even a : Z.even a = true -> Z.lor a 1 = a + 1.
Proof.
  intros He. pose proof (low_b2z a false He) as H. simpl in H. rewrite Z.add_0_r in H.
  rewrite Z.add_nocarry_lxor by done. by rewrite Z.lxor_lor.
Qed.

(** Reading a header of the chain. *)
Lemma hdr_cases m a nx u : ldl m a = nx + Z.b2z u -> Z.even nx = true ->
  link m a = nx /\ tstfree m a = negb u.
Proof.
  intros E He. unfold link, tstfree. rewrite E, align_b2z, low_b2z by done. split; [done|]. by destruct u.
Qed.

(** ** Replacing a stretch of blocks *)

Lemma live_range m l z a nx : seg m l z -> (a, nx) ∈ live l z -> hd_addr l z <= a /\ nx <= z.
Proof.
  induction l as [|[b ub] l IH]; simpl; [by intros _ ?%elem_of_nil|].
  intros (_ & _ & _ & Hlt & Hs) Hin. destruct (seg_le _ _ _ Hs) as [Hle _].
  apply elem_of_app in Hin as [Hin|Hin].
  - destruct ub; [|by apply elem_of_nil in Hin]. apply list_elem_of_singleton in Hin. injection Hin as -> ->. lia.
  - specialize (IH Hs Hin). lia.
Qed.

Section splice.
Context (m m' : memory) (apq z : Z) (l1 mid rest : list blk).
Hypothesis Har : arena m apq z (l1 ++ mid ++ rest).
Hypothesis Hf : frame m m' (hd_addr (mid ++ rest) z) (hd_addr rest z).

Lemma arena_splice mid' : seg m' mid' (hd_addr rest z) ->
    hd_addr mid' (hd_addr rest z) = hd_addr (mid ++ rest) z -> arena m' apq z (l1 ++ mid' ++ rest).
  Proof.
    intros Hs Hh. destruct Har as [Hseg Hhd Hend Hev Hzev Hpos Htop].
    apply seg_app in Hseg as [Hs1 Hs2]. apply seg_app in Hs2 as [Hsm Hsr].
    destruct (seg_le _ _ _ Hsr) as [Hrz _].
    split; try done.
    - apply seg_app. rewrite hd_addr_app, Hh. split; [by eapply seg_frame_l|].
      apply seg_app. split; [done|]. by eapply seg_frame_r.
    - by rewrite hd_addr_app, hd_addr_app, Hh, <- hd_addr_app.
    - rewrite <- Hend. eapply ldl_frame; [done|]. lia.
  Qed.

  (** The contents of the blocks in use outside the stretch are kept. *)
Lemma keeps_splice : live mid (hd_addr rest z) = [] -> forall a nx, (a, nx) ∈ live (l1 ++ mid ++ rest) z ->
    forall x, a + 4 <= x < nx -> m' x = m x.
  Proof.
    intros Hm a nx Hin x Hx. apply Hf.
    destruct Har as [Hseg _ _ _ _ _ _].
    apply seg_app in Hseg as [Hs1 Hs2]. apply seg_app in Hs2 as [Hsm Hsr].
    rewrite !live_app, Hm in Hin. simpl in Hin. apply elem_of_app in Hin as [Hin|Hin].
    - pose proof (live_range _ _ _ _ _ Hs1 Hin). lia.
    - pose proof (live_range _ _ _ _ _ Hsr Hin). lia.
  Qed.
End splice.

Definition keeps (m m' : memory) (lv : list (Z * Z)) : Prop :=
  forall a nx, (a, nx) ∈ lv -> forall x, a + 4 <= x < nx -> m' x = m x.

Lemma keeps_refl m lv : keeps m m lv.
Proof. by intros a nx _ x _. Qed.
Lemma keeps_trans m1 m2 m3 lv : keeps m1 m2 lv -> keeps m2 m3 lv -> keeps m1 m3 lv.
Proof. intros H1 H2 a nx Hin x Hx. by rewrite (H2 a nx Hin x Hx), (H1 a nx Hin x Hx). Qed.

(** ** Merging adjacent free blocks *)

Fixpoint coal_from (prevfree : bool) (l : list blk) : list blk :=
  match l with
  | [] => []
  | (a, true) :: l => (a, true) :: coal_from false l
  | (a, false) :: l => if prevfree then coal_from true l else (a, false) :: coal_from true l
  end.
Definition coal : list blk -> list blk := coal_from false.

Definition used_head (l : list blk) : Prop := match l with (_, false) :: _ => False | _ => True end.

Lemma coal_used_head l : used_head l -> coal_from true l = coal l.
Proof. destruct l as [|[a []] l]; done. Qed.

Lemma coal_free_run fr rest : Forall (fun b => b.2 = false) fr -> coal_from true (fr ++ rest) = coal_from true rest.
Proof. induction 1 as [|[a u] fr Hu _ IH]; simpl in *; [done|]. by subst. Qed.

Lemma free_span (l : list blk) : exists fr rest : list blk, l = fr ++ rest /\ Forall (fun b => b.2 = false) fr /\ used_head rest.
Proof.
  induction l as [|[a u] l (fr & rest & -> & Hf & Hu)]; [by exists [], []|].
  destruct u; [by exists [], ((a, true) :: fr ++ rest)|].
  exists ((a, false) :: fr), rest. split; [done|]. split; [by constructor|done].
Qed.

Lemma live_free_run fr z : Forall (fun b => b.2 = false) fr -> live fr z = [].
Proof. induction 1 as [|[a u] fr Hu _ IH]; simpl in *; [done|]. by subst. Qed.

Lemma hd_coal l z : hd_addr (coal l) z = hd_addr l z.
Proof. by destruct l as [|[a []] l]. Qed.

Lemma live_coal_from p l z : live (coal_from p l) z = live l z.
Proof.
  revert p. induction l as [|[a []] l IH]; intros p; simpl; [done| |].
  - rewrite (IH false). fold (coal l). by rewrite hd_coal.
  - destruct p; [apply (IH true)|]. simpl. apply (IH true).
Qed.

Lemma coal_coal_from p l : coal_from p (coal_from p l) = coal_from p l.
Proof.
  revert p. induction l as [|[a []] l IH]; intros p; simpl; [done|by rewrite IH|].
  destruct p; [apply IH|]. simpl. by rewrite IH.
Qed.

(** ** One pass *)

(** The size of a block in units. *)
Definition units (a nx : Z) : Z := Z.quot (nx - a) 4.

Lemma scan_free_spec m apq z (rest : list blk) : forall (fr : list blk) fuel,
  seg m (fr ++ rest) z -> ldl m z = apq + 1 -> Z.even z = true -> Z.even apq = true ->
  Forall (fun b => b.2 = false) fr -> used_head rest -> apq < hd_addr (fr ++ rest) z ->
  (length fr < fuel)%nat ->
  scan_free fuel m apq (hd_addr (fr ++ rest) z) = Some (hd_addr rest z).
Proof.
  induction fr as [|[a u] fr IH]; intros fuel Hs Hz Hze Hae Hfr Hu Hlt Hfu; destruct fuel as [|fuel];
    try (simpl in Hfu; lia); cbn [scan_free].
  - simpl. assert (tstfree m (hd_addr rest z) = false) as ->; [|done].
    destruct rest as [|[b ub] rest]; simpl.
    + apply (hdr_cases m z apq true Hz Hae).
    + destruct ub; [|done]. destruct Hs as (E & _ & _ & _ & Hs).
      apply (hdr_cases m b _ true E). by eapply hd_even.
  - simpl in *. inversion Hfr as [|? ? Hu0 Hfr']. simpl in Hu0. subst u.
    destruct Hs as (E & Hpos & Hev & Hle & Hs).
    destruct (hdr_cases m a _ false E) as [-> ->]; [by eapply hd_even|]. simpl.
    rewrite (proj2 (Z.eqb_neq a apq)) by lia. apply IH; try done; lia.
Qed.

Record allocated (m m' : memory) (apq z n l : Z) (bs : list blk) (p : Z) : Prop := {
  al_blocks : exists bs' nx, arena m' apq z bs' /\ live bs' z ≡ₚ (p - 4, nx) :: live bs z /\
    p + l <= nx /\ units (p - 4) nx = n;
  al_pos : 0 < p;
  al_zero : forall x, p <= x < p + kcleared l -> m' x = 0;
  al_keeps : keeps m m' (live bs z)
}.

(** Whether a free block is what pass [i] looks for. *)
Definition fits (i n a nx : Z) : bool := if i =? 0 then units a nx =? n else n <=? units a nx.

Definition no_fit (i n : Z) (l : list blk) (z : Z) : Prop :=
  forall l1 a l2, l = l1 ++ (a, false) :: l2 -> fits i n a (hd_addr l2 z) = false.

Lemma no_fit_cons i n a u l z : no_fit i n l z -> (u = false -> fits i n a (hd_addr l z) = false) ->
  no_fit i n ((a, u) :: l) z.
Proof.
  intros H Ha [|[b ub] l1] c l2 E; simpl in E; injection E as -> -> E; [by subst; auto|].
  by apply (H l1).
Qed.

(** Taking [n] units from the front of a free block of at least [n]. *)
Lemma take_block m apq z (l1 : list blk) a (rest : list blk) n l :
  arena m apq z (l1 ++ (a, false) :: rest) -> 1 <= n -> 0 <= l <= 4 * (n - 1) ->
  n <= units a (hd_addr rest z) ->
  let ap2 := hd_addr rest z in
  let m1 := if n <? units a ap2 then stl (stl m (a + 4 * n) ap2) a (a + 4 * n) else m in
  allocated m (kclear (setused m1 a) (a + 4) l) apq z n l (l1 ++ (a, false) :: rest) (a + 4).
Proof.
  intros Har Hn Hl Hfit ap2 m1.
  pose proof Har as [Hseg Hhd Hend Hev Hzev Hpos Htop].
  apply seg_app in Hseg as [Hs1 (E & Ha & Hae & Hle & Hsr)]. fold ap2 in E, Hle, Hfit.
  destruct (seg_le _ _ _ Hsr) as [Hrz _]. fold ap2 in Hrz.
  assert (Z.even ap2 = true) as He2 by (by eapply hd_even).
  assert (4 * n <= ap2 - a) as Hn4.
  { unfold units in Hfit. rewrite Z.quot_div_nonneg in Hfit by lia. Z.to_euclidean_division_equations. lia. }
  set (nx := if n <? units a ap2 then a + 4 * n else ap2).
  assert (a + 4 * n <= nx <= ap2) as Hnx by (unfold nx; bool_cases; lia).
  assert (Z.even nx = true) as Hne.
  { unfold nx. bool_cases; [|done]. rewrite Z.even_add, Hae, Z.even_mul. done. }
  assert (frame m m1 a ap2) as Hf1.
  { unfold m1. bool_cases; [|by intros x Hx].
    apply (frame_trans _ (stl m (a + 4 * n) ap2)); eapply frame_weak; try apply frame_stl; try lia.
    unfold units in *. rewrite Z.quot_div_nonneg in * by lia. Z.to_euclidean_division_equations. lia. }
  assert (ldl m1 a = nx) as E1.
  { unfold m1, nx. bool_cases; [apply ldl_stl_same; lia|]. simpl in E. lia. }
  set (m2 := setused m1 a).
  assert (ldl m2 a = nx + 1) as E2.
  { unfold m2, setused. rewrite E1, lor_even by done. apply ldl_stl_same. lia. }
  assert (frame m1 m2 a (a + 4)) as Hf2 by apply frame_stl.
  set (m3 := kclear m2 (a + 4) l).
  assert (frame m2 m3 (a + 4) (a + 4 + l)) as Hf3 by (apply frame_kclear; lia).
  assert (frame m m3 a ap2) as Hf.
  { eapply frame_trans; [exact Hf1|]. eapply frame_trans; (eapply frame_weak; [eassumption| |]); lia. }
  set (mid := if n <? units a ap2 then [(a, true); (a + 4 * n, false)] else [(a, true)]).
  assert (seg m3 mid ap2 /\ hd_addr mid ap2 = a /\ live mid ap2 = [(a, nx)]) as (Hmid & Hhm & Hlm).
  { assert (ldl m3 a = nx + 1) as E3 by (rewrite <- E2; eapply ldl_frame; [exact Hf3|lia]).
    unfold mid, nx in *. destruct (Z.ltb_spec n (units a ap2)) as [Hlt|Hge].
    - assert (a + 4 * n + 4 <= ap2) as Hroom.
      { unfold units in Hlt. rewrite Z.quot_div_nonneg in Hlt by lia. Z.to_euclidean_division_equations. lia. }
      assert (ldl m3 (a + 4 * n) = ap2) as E4.
      { rewrite (ldl_frame m2 m3 _ _ _ Hf3) by lia. rewrite (ldl_frame m1 m2 _ _ _ Hf2) by lia.
        unfold m1. rewrite (ldl_frame _ _ _ _ _ (frame_stl _ a (a + 4 * n))) by lia.
        apply ldl_stl_same. lia. }
      simpl. rewrite E3, E4. split; [|done]. rewrite Z.add_0_r. split; [done|]. split; [done|]. split; [done|].
      split; [lia|]. split; [done|]. split; [lia|]. split; [done|]. done.
    - simpl. split; [|done]. split; [done|]. split; [done|]. split; [done|]. split; [lia|done]. }
  split; [|lia| |].
  - exists (l1 ++ mid ++ rest), nx. split; [|split; [|split]].
    + apply (arena_splice m m3 apq z l1 [(a, false)] rest); done.
    + rewrite !live_app. simpl. fold ap2. rewrite Hlm. rewrite hd_addr_app. fold ap2. rewrite Hhm.
      replace (a + 4 - 4) with a by lia. symmetry. apply Permutation_middle.
    + lia.
    + replace (a + 4 - 4) with a by lia. unfold nx, units in *. bool_cases; [|lia].
      replace (a + 4 * n - a) with (n * 4) by lia. by rewrite Z.quot_mul.
  - intros x Hx. subst m3. apply kclear_zero; [lia|done].
  - exact (keeps_splice m m3 apq z l1 [(a, false)] rest Har Hf eq_refl).
Qed.

(** Absorbing the free blocks that follow a free block. *)
Lemma merge_block m apq z (l1 : list blk) a (fr rest : list blk) :
  arena m apq z (l1 ++ (a, false) :: fr ++ rest) -> Forall (fun b => b.2 = false) fr ->
  let m1 := stl m a (hd_addr rest z) in
  arena m1 apq z (l1 ++ (a, false) :: rest) /\
  keeps m m1 (live (l1 ++ (a, false) :: fr ++ rest) z) /\
  link m1 a = hd_addr rest z /\
  (a + 4 <= hd_addr rest z <= z) /\ apq <= a /\ 0 < a.
Proof.
  intros Har Hfr m1. pose proof Har as [Hseg Hhd _ _ Hzev Hpos Htop].
  apply seg_app in Hseg as [Hs1 Hs2]. pose proof Hs2 as (E & Ha & Hae & Hle & Hs).
  apply seg_app in Hs as [Hsf Hsr]. destruct (seg_le _ _ _ Hsr) as [Hrz _].
  rewrite hd_addr_app in Hle. destruct (seg_le _ _ _ Hsf) as [Hfz _].
  destruct (seg_le _ _ _ Hs1) as [Hl1 _]. rewrite hd_addr_app in Hhd. simpl in Hl1, Hhd.
  assert (frame m m1 a (hd_addr rest z)) as Hf.
  { eapply frame_weak; [apply frame_stl| |]; lia. }
  assert (Z.even (hd_addr rest z) = true) as He by (by eapply hd_even).
  assert (ldl m1 a = hd_addr rest z + Z.b2z false) as E1.
  { simpl. rewrite Z.add_0_r. apply ldl_stl_same. lia. }
  split; [|split; [|split; [apply (hdr_cases _ _ _ _ E1 He)|split; [lia|lia]]]].
  - apply (arena_splice m _ apq z l1 ((a, false) :: fr) rest Har Hf [(a, false)]); [|done].
    simpl. split; [exact E1|]. split; [done|]. split; [done|]. split; [lia|done].
  - refine (keeps_splice m _ apq z l1 ((a, false) :: fr) rest Har Hf _).
    simpl. by apply live_free_run.
Qed.

Lemma allocated_mono m m1 m' apq z n l bs bs1 p : keeps m m1 (live bs z) -> live bs1 z = live bs z ->
  allocated m1 m' apq z n l bs1 p -> allocated m m' apq z n l bs p.
Proof.
  intros Hk El [Hb Hp Hz Hk']. rewrite El in *. split; try done. by eapply keeps_trans.
Qed.

(** What a pass from the blocks [todo] on leaves. *)
Definition pass_post (i n l apq z : Z) (m : memory) (bs : list blk) (cs : list blk) (l1 : list blk)
    (r : option Z) (m' : memory) : Prop :=
  match r with
  | None => arena m' apq z (l1 ++ cs) /\ no_fit i n cs z /\ keeps m m' (live bs z)
  | Some p => allocated m m' apq z n l bs p /\
      exists x y, cs = x ++ (p - 4, false) :: y /\ fits i n (p - 4) (hd_addr y z) = true
  end.

Lemma pass_post_cons i n l apq z m m1 bs bs1 b cs l1 r m' : keeps m m1 (live bs z) -> live bs1 z = live bs z ->
  (b.2 = false -> fits i n b.1 (hd_addr cs z) = false) ->
  pass_post i n l apq z m1 bs1 cs (l1 ++ [b]) r m' -> pass_post i n l apq z m bs (b :: cs) l1 r m'.
Proof.
  intros Hk El Hb. destruct r as [p|]; simpl.
  - intros [Hal (x & y & -> & Hf)]. split; [by eapply allocated_mono|]. by exists (b :: x), y.
  - rewrite <- app_assoc, El. simpl. intros (Har & Hn & Hk'). split; [done|]. split; [|by eapply keeps_trans].
    destruct b. by apply no_fit_cons.
Qed.

Lemma pass_spec i n l apq z fuel : 1 <= n -> 0 <= l <= 4 * (n - 1) ->
  forall todo l1 m e, arena m apq z (l1 ++ todo) -> (length todo < fuel)%nat ->
  exists m' r, alloc_pass fuel i n l apq (hd_addr todo z) (AState m e) = Ret r (AState m' e) /\
    pass_post i n l apq z m (l1 ++ todo) (coal todo) l1 r m'.
Proof.
  intros Hn Hl. induction fuel as [|fuel IH]; intros todo l1 m e Har Hfu; [lia|].
  pose proof Har as [Hseg Hhd Hend Hev Hzev Hpos Htop]. apply seg_app in Hseg as [Hs1 Hs2].
  destruct (seg_le _ _ _ Hs1) as [Hl1 _]. rewrite hd_addr_app in Hhd.
  cbn [alloc_pass]. unfold kbind at 1, gets at 1. cbn [obind a_mem].
  destruct todo as [|[a []] t].
  - (* the last header *)
    simpl. destruct (hdr_cases m z apq true Hend Hev) as [-> _]. rewrite Z.eqb_refl.
    exists m, None. split; [done|]. simpl. split; [done|]. split; [by intros [] ???|apply keeps_refl].
  - (* a block in use *)
    destruct Hs2 as (E & Ha & Hae & Hle & Hst). simpl in Hl1, Hhd. cbn [hd_addr a_mem].
    destruct (hdr_cases m a _ true E) as [El Et]; [by eapply hd_even|]. rewrite El, Et.
    rewrite (proj2 (Z.eqb_neq _ apq)), (proj2 (Z.eqb_neq a 0)) by lia. cbn [negb].
    destruct (IH t (l1 ++ [(a, true)]) m e) as (m' & r & -> & Hp);
      [by rewrite <- app_assoc|simpl in Hfu; lia|].
    exists m', r. split; [done|]. rewrite <- app_assoc in Hp. change (coal ((a, true) :: t)) with ((a, true) :: coal t).
    by eapply (pass_post_cons _ _ _ _ _ m m); [apply keeps_refl|done|done|].
  - (* a free block and those after it *)
    destruct (free_span t) as (fr & rest & -> & Hfr & Hu).
    destruct Hs2 as (E & Ha & Hae & Hle & Hst). simpl in Hl1, Hhd. cbn [hd_addr a_mem].
    destruct (hdr_cases m a _ false E) as [El Et]; [by eapply hd_even|]. rewrite El, Et.
    rewrite (proj2 (Z.eqb_neq _ apq)), (proj2 (Z.eqb_neq a 0)) by lia. cbn [negb].
    simpl length in Hfu. rewrite length_app in Hfu.
    rewrite scan_free_spec; try done; [|lia|lia].
    destruct (merge_block m apq z l1 a fr rest Har Hfr) as (Har1 & Hk1 & Hlk & Hrz & _ & _).
    set (m1 := stl m a (hd_addr rest z)) in *.
    unfold kbind at 1, modify at 1, set_a_mem at 1. cbn [obind a_error]. fold m1. change sizeof_ALL with 4. fold (units a (hd_addr rest z)).
    assert (0 <= units a (hd_addr rest z) < 65536) as Hus.
    { unfold units. rewrite Z.quot_div_nonneg by lia. Z.to_euclidean_division_equations. lia. }
    cbv zeta. rewrite u16_small by done.
    assert (coal ((a, false) :: fr ++ rest) = (a, false) :: coal rest) as Ec.
    { unfold coal. cbn [coal_from]. rewrite coal_free_run by done. f_equal. by apply coal_used_head. }
    assert (live (l1 ++ (a, false) :: rest) z = live (l1 ++ (a, false) :: fr ++ rest) z) as Elv.
    { rewrite !live_app. simpl. rewrite live_app, (live_free_run fr) by done. done. }
    assert (fits i n a (hd_addr (coal rest) z) = false ->
      exists m' r, (m0 <- gets a_mem ;; alloc_pass fuel i n l apq (link m0 a)) (AState m1 e) = Ret r (AState m' e) /\
        pass_post i n l apq z m (l1 ++ (a, false) :: fr ++ rest) (coal ((a, false) :: fr ++ rest)) l1 r m') as Hnext.
    { intros Hnf. unfold kbind, gets. cbn [obind a_mem]. rewrite Hlk.
      destruct (IH rest (l1 ++ [(a, false)]) m1 e) as (m' & r & -> & Hp); [by rewrite <- app_assoc|lia|].
      exists m', r. split; [done|]. rewrite Ec. rewrite <- app_assoc in Hp.
      by eapply pass_post_cons; [exact Hk1|exact Elv|done|]. }
    rewrite hd_coal in Hnext. unfold fits in Hnext.
    destruct (Z.leb_spec n (units a (hd_addr rest z))) as [Hge|Hlt].
    2: { apply Hnext. bool_cases; lia || done. }
    destruct ((n <? units a (hd_addr rest z)) && (i =? 0)) eqn:Hc.
    { apply andb_true_iff in Hc as [Hc1%Z.ltb_lt Hc2]. apply Hnext. rewrite Hc2. apply Z.eqb_neq. lia. }
    pose proof (take_block m1 apq z l1 a rest n l Har1 Hn Hl Hge) as Hal. cbv zeta in Hal.
    rewrite Ec. exists (kclear (setused (if n <? units a (hd_addr rest z) then stl (stl m1 (a + 4 * n) (hd_addr rest z)) a (a + 4 * n) else m1) a) (a + 4) l), (Some (a + 4)).
    split. { unfold kbind. by destruct (n <? units a (hd_addr rest z)). }
    split; [by eapply allocated_mono|]. exists [], (coal rest).
    replace (a + 4 - 4) with a by lia. split; [done|]. rewrite hd_coal. unfold fits.
    destruct (i =? 0); [|apply Z.leb_le; lia].
    rewrite andb_true_r in Hc. apply Z.ltb_ge in Hc. apply Z.eqb_eq. lia.
Qed.

(** ** The allocator *)

Lemma alloc_units_spec l : 0 <= l <= 65532 ->
  alloc_units l = 1 + (l + 3) / 4 /\ 1 <= alloc_units l /\ l <= 4 * (alloc_units l - 1).
Proof.
  intros Hl. unfold alloc_units, sizeof_ALL.
  rewrite (u16_small (l + 4 - 1)) by lia. rewrite u16_small by (Z.to_euclidean_division_equations; lia).
  Z.to_euclidean_division_equations. lia.
Qed.

(** What [alloc] promises: the best fit it looks for, or the proof that no
    run of free blocks is large enough. *)
Record alloc_fit (n : Z) (bs : list blk) (z p : Z) : Prop := {
  af_block : exists x y, coal bs = x ++ (p - 4, false) :: y /\ n <= units (p - 4) (hd_addr y z) /\
    (n < units (p - 4) (hd_addr y z) -> no_fit 0 n (coal bs) z)
}.

Lemma alloc_spec fuel m e apq z bs l : arena m apq z bs -> 0 <= l <= 65532 -> (length bs < fuel)%nat ->
  let n := alloc_units l in
  exists m', keeps m m' (live bs z) /\
  ((exists p, alloc fuel apq l (AState m e) = Ret p (AState m' e) /\
     allocated m m' apq z n l bs p /\ alloc_fit n bs z p) \/
   (alloc fuel apq l (AState m e) = Ret 0 (AState m' EKSPACE) /\
     arena m' apq z (coal bs) /\ live (coal bs) z = live bs z /\ no_fit 1 n (coal bs) z)).
Proof.
  intros Har Hl Hfu n. destruct (alloc_units_spec l Hl) as (_ & Hn & Hln). fold n in Hn, Hln.
  assert (hd_addr bs z = apq) as Hhd by apply Har.
  remember (alloc fuel apq l (AState m e)) as o eqn:Eo. unfold alloc in Eo. cbv zeta in Eo. fold n in Eo.
  destruct (pass_spec 0 n l apq z fuel Hn ltac:(lia) bs [] m e Har Hfu) as (m1 & r1 & E1 & P1).
  rewrite Hhd in E1. simpl app in P1. unfold kbind at 1 in Eo. rewrite E1 in Eo. cbn [obind] in Eo.
  destruct r1 as [p|].
  - exists m1. destruct P1 as [Hal (x & y & Ec & Hf)]. split; [apply Hal|]. left. exists p.
    split; [done|]. split; [done|]. split. exists x, y. split; [done|].
    unfold fits in Hf. apply Z.eqb_eq in Hf. lia.
  - destruct P1 as (Har1 & Hno & Hk1).
    assert (length (coal bs) < fuel)%nat as Hfu1.
    { eapply Nat.le_lt_trans; [|exact Hfu]. clear. unfold coal. generalize false as p.
      induction bs as [|[a []] l IH]; intros p; simpl; [lia|specialize (IH false); lia|].
      specialize (IH true). destruct p; simpl; lia. }
    destruct (pass_spec 1 n l apq z fuel Hn ltac:(lia) (coal bs) [] m1 e Har1 Hfu1) as (m2 & r2 & E2 & P2).
    rewrite hd_coal, Hhd in E2. simpl app in P2.
    unfold kbind at 1 in Eo. rewrite E2 in Eo. cbn [obind] in Eo.
    assert (live (coal bs) z = live bs z) as Elv by apply live_coal_from.
    assert (coal (coal bs) = coal bs) as Ecc by apply coal_coal_from. rewrite Ecc in P2.
    destruct r2 as [p|]; simpl in P2.
    + exists m2. destruct P2 as [Hal (x & y & Ec & Hf)].
      assert (allocated m m2 apq z n l bs p) as Hal' by (by eapply allocated_mono).
      split; [apply Hal'|]. left. exists p. split; [done|]. split; [done|]. split. exists x, y.
      split; [done|]. unfold fits in Hf. simpl in Hf. apply Z.leb_le in Hf. done.
    + destruct P2 as (Har2 & Hno2 & Hk2). rewrite Elv in Hk2. exists m2.
      split; [by eapply keeps_trans|]. right. done.
Qed.

(** C24: [alloc] on an arena always returns.  Either it returns the data of a
    fresh block of exactly the units needed, cleared (all but the last byte
    of an odd size above one), carved from a maximal
    run of free blocks (of the exact size when there is one), and the set of
    blocks in use grows by that block; or no maximal run of free blocks is
    large enough, and it reports [EKSPACE].  In both cases no byte of any block in use
    changes. *)
Theorem alloc_correct fuel m e apq z bs l :
  arena m apq z bs -> 0 <= l <= 65532 -> (length bs < fuel)%nat ->
  let n := 1 + (l + 3) / 4 in
  exists m', keeps m m' (live bs z) /\
  ((exists p, alloc fuel apq l (AState m e) = Ret p (AState m' e) /\
     allocated m m' apq z n l bs p /\ alloc_fit n bs z p) \/
   (alloc fuel apq l (AState m e) = Ret 0 (AState m' EKSPACE) /\
     arena m' apq z (coal bs) /\ live (coal bs) z = live bs z /\ no_fit 1 n (coal bs) z)).
Proof.
  intros Har Hl Hfu n. unfold n. destruct (alloc_units_spec l Hl) as (<- & _).
  by apply alloc_spec.
Qed.

(** A request within three bytes of the 16-bit limit wraps to one unit. *)
Lemma alloc_units_wrap l : 65533 <= l <= 65535 -> alloc_units l = 1.
Proof.
  intros Hl. unfold alloc_units, sizeof_ALL.
  assert (u16 (l + 4 - 1) = l - 65533) as ->.
  { unfold u16, wrapu. change (2 ^ 16) with 65536. symmetry. apply (Zmod_unique _ _ 1); lia. }
  rewrite (Z.div_small (l - 65533)) by lia. done.
Qed.

Lemma free_spec kend m e apq z l1 a u l2 : arena m apq z (l1 ++ (a, u) :: l2) ->
  if u && (kend <=? a) then
    exists m', free kend (a + 4) (AState m e) = Ret tt (AState m' e) /\
      arena m' apq z (l1 ++ (a, false) :: l2) /\
      keeps m m' (live (l1 ++ (a, u) :: l2) z)
  else free kend (a + 4) (AState m e) = Stop (Panicked "Bad free %o").
Proof.
  intros Har. pose proof Har as [Hseg Hhd Hend Hev Hzev Hpos Htop].
  apply seg_app in Hseg as [Hs1 (E & Ha & Hae & Hle & Hsr)].
  destruct (seg_le _ _ _ Hsr) as [Hrz _]. assert (Z.even (hd_addr l2 z) = true) as He by (by eapply hd_even).
  destruct (hdr_cases m a _ u E He) as [_ Et].
  unfold free, sizeof_ALL. replace (a + 4 - 4) with a by lia.
  unfold kbind, gets. cbn [obind a_mem]. rewrite Et.
  replace (a <? kend) with (negb (kend <=? a)) by (symmetry; apply Z.ltb_antisym).
  destruct u, (kend <=? a); try done. simpl.
  assert (ldl (setfree m a) a = hd_addr l2 z + Z.b2z false) as E1.
  { unfold setfree. fold (align (ldl m a)). rewrite E, align_b2z by done.
    rewrite Z.add_0_r. apply ldl_stl_same. lia. }
  assert (frame m (setfree m a) a (a + 4)) as Hf by apply frame_stl.
  eexists. split; [done|]. cbn [set_a_mem a_mem a_error]. split.
  - refine (arena_splice m _ apq z l1 [(a, true)] l2 Har _ [(a, false)] _ eq_refl).
    + eapply frame_weak; [done| |]; simpl; lia.
    + simpl. done.
  - intros b bn Hin x Hx. apply Hf. rewrite live_app in Hin. simpl in Hin, Hs1.
    apply elem_of_app in Hin as [Hin|[Hin|Hin]%elem_of_cons].
    + pose proof (live_range _ _ _ _ _ Hs1 Hin). lia.
    + injection Hin as -> ->. lia.
    + pose proof (live_range _ _ _ _ _ Hsr Hin). lia.
Qed.

(** C36: [free] of a block in use makes it free and leaves every other block;
    [free] of a block that is already free, or below the end of the kernel,
    stops the system. *)
Theorem free_correct kend m e apq z l1 a u l2 : arena m apq z (l1 ++ (a, u) :: l2) ->
  if u && (kend <=? a) then
    exists m', free kend (a + 4) (AState m e) = Ret tt (AState m' e) /\
      arena m' apq z (l1 ++ (a, false) :: l2) /\
      keeps m m' (live (l1 ++ (a, u) :: l2) z)
  else free kend (a + 4) (AState m e) = Stop (Panicked "Bad free %o").
Proof. apply free_spec. Qed.

(** An arena made in a region of at least twelve bytes is one free
    block, aligned, that fills the region. *)
Theorem setarena_correct cp n m e : 0 < cp -> 12 <= n < 65536 -> cp + n < 4294967296 ->
  exists ap1 z m', setarena cp n (AState m e) = Ret ap1 (AState m' e) /\
    arena m' ap1 z [(ap1, false)] /\ cp <= ap1 <= cp + 3 /\ cp + n - 1 <= z + 4 <= cp + n.
Proof.
  intros Hcp Hn Hw. unfold setarena, sizeof_ALL. rewrite !align_even.
  set (ap1 := if 2 * (cp / 2) <? cp then 2 * (cp / 2) + 4 else 2 * (cp / 2)).
  set (z := 2 * ((cp + n) / 2) - 4).
  assert (cp <= ap1 <= cp + 3 /\ Z.even ap1 = true) as [Hap1 He1].
  { unfold ap1. bool_cases; (split; [Z.to_euclidean_division_equations; lia|]);
      [rewrite Z.even_add|]; by rewrite Z.even_mul. }
  assert (cp + n - 1 <= z + 4 <= cp + n /\ Z.even z = true) as [Hz Hez].
  { unfold z. split; [Z.to_euclidean_division_equations; lia|].
    by rewrite Z.even_sub, Z.even_mul. }
  rewrite (proj2 (Z.ltb_ge z ap1)) by lia.
  eexists ap1, z, _. split; [reflexivity|]. cbn [a_mem]. split; [|lia].
  set (m1 := stl m ap1 z). set (m2 := stl m1 z ap1).
  assert (ldl m2 z = ap1) as E2 by (apply ldl_stl_same; lia).
  assert (ldl (setused m2 z) z = ap1 + 1) as E3.
  { unfold setused. rewrite E2, lor_even by done. apply ldl_stl_same. lia. }
  assert (ldl (setused m2 z) ap1 = z) as E1.
  { rewrite (ldl_frame m2 _ z (z + 4)); [|apply frame_stl|lia].
    rewrite (ldl_frame m1 _ z (z + 4)); [|apply frame_stl|lia]. apply ldl_stl_same. lia. }
  split; try done; [|lia|lia]. simpl. rewrite E1. split; [lia|]. split; [lia|]. split; [done|]. split; [lia|done].
Qed.

(** ** Concrete instances *)

(** One free block of 25 units, and the same arena with its first 4 units in
    use. *)
Definition mem1 : memory := stl (stl (fun _ => 0) 1000 1100) 1100 1001.
Definition mem2 : memory := stl (stl (stl (fun _ => 0) 1000 1017) 1016 1100) 1100 1001.

Lemma arena_mem1 : arena mem1 1000 1100 [(1000, false)].
Proof. split; vm_compute; try done; repeat split; done. Qed.

Lemma arena_mem2 : arena mem2 1000 1100 [(1000, true); (1016, false)].
Proof. split; vm_compute; try done; repeat split; done. Qed.

Lemma alloc_correct_witness : exists m', keeps mem2 m' (live [(1000, true); (1016, false)] 1100) /\
  ((exists p, alloc 3 1000 10 (AState mem2 0) = Ret p (AState m' 0) /\
     allocated mem2 m' 1000 1100 4 10 [(1000, true); (1016, false)] p /\
     alloc_fit 4 [(1000, true); (1016, false)] 1100 p) \/
   (alloc 3 1000 10 (AState mem2 0) = Ret 0 (AState m' EKSPACE) /\
     arena m' 1000 1100 (coal [(1000, true); (1016, false)]) /\
     live (coal [(1000, true); (1016, false)]) 1100 = live [(1000, true); (1016, false)] 1100 /\
     no_fit 1 4 (coal [(1000, true); (1016, false)]) 1100)).
Proof. apply (alloc_correct 3 mem2 0 1000 1100 _ 10 arena_mem2); [lia|simpl; lia]. Defined.

Lemma free_correct_witness : exists m', free 900 1004 (AState mem2 0) = Ret tt (AState m' 0) /\
  arena m' 1000 1100 [(1000, false); (1016, false)] /\ keeps mem2 m' (live [(1000, true); (1016, false)] 1100).
Proof. exact (free_correct 900 mem2 0 1000 1100 [] 1000 true [(1016, false)] arena_mem2). Defined.

Lemma setarena_correct_witness : exists ap1 z m', setarena 1001 103 (AState (fun _ => 0) 0) = Ret ap1 (AState m' 0) /\
  arena m' ap1 z [(ap1, false)] /\ 1001 <= ap1 <= 1001 + 3 /\ 1001 + 103 - 1 <= z + 4 <= 1001 + 103.
Proof. apply setarena_correct; lia. Defined.
