(* ===== verification/Timeout.v ===== *)
(** The timer queue (kernel/coh/timeout.c, and the parts of
    kernel/coh/clock.c that keep it).

    [timl] heads a list of [TIM] structures that live in the data of drivers.
    A loadable driver's data can be reached only while its map is in the
    overlay register; [t_dmap] of a structure is the map of the next one.  Here
    [home tp] is the map of the driver that owns [tp], and a reference to a
    structure whose map is not loaded has no meaning.  [t_tinc] is the number
    of ticks from the structure's own time to that of the next. *)
From stdpp Require Import sorting.
From S2P Require Import Prelude Sched.
Local Open Scope Z_scope.
Local Open Scope kernel_scope.

Record TIM := Tim {
  t_next : option Z;             (* NULL is None *)
  t_dmap : Z;
  t_tinc : Z;
  t_func : option Z;
  t_farg : Z
}.

Definition set_t_next v t := Tim v (t_dmap t) (t_tinc t) (t_func t) (t_farg t).
Definition set_t_dmap v t := Tim (t_next t) v (t_tinc t) (t_func t) (t_farg t).
Definition set_t_tinc v t := Tim (t_next t) (t_dmap t) v (t_func t) (t_farg t).
Definition set_t_func v t := Tim (t_next t) (t_dmap t) (t_tinc t) v (t_farg t).
Definition set_t_farg v t := Tim (t_next t) (t_dmap t) (t_tinc t) (t_func t) v.

(** The queue, the overlay register, and the calls made by [stand] with the
    map in force. *)
Record tqstate := Tq { tims : gmap Z TIM; omap : Z; calls : list (Z * Z * Z) }.

Definition set_tims v s := Tq v (omap s) (calls s).
Definition set_omap v s := Tq (tims s) v (calls s).

(** [&timl]; it is in the kernel's own space. *)
Definition timl : Z := 0.
Definition MAXINT : Z := 32767.

Section timeout.
  Context (home : Z -> Z).

Definition mapped (s : tqstate) (p : Z) : bool := (p =? timl) || (omap s =? home p).

Definition rdt (p : Z) : M tqstate TIM :=
  s <- get ;; if mapped s p then deref (tims s !! p) else bad.

Definition wrt (p : Z) (f : TIM -> TIM) : M tqstate unit :=
  t <- rdt p ;; modify (fun s => set_tims (<[p := f t]> (tims s)) s).

Definition dsave : M tqstate Z := gets omap.
Definition drest (m : Z) : M tqstate unit := modify (set_omap m).

(** The loop that takes [tp] out of the queue. *)
Fixpoint excise (fuel : nat) (tp : Z) (tnext : option Z) (tdmap ttinc : Z) (tp1 : Z) : M tqstate unit :=
  match fuel with
  | O => nofuel
  | S fuel =>
    t1 <- rdt tp1 ;;
    match t_next t1 with
    | None => kret tt
    | Some tp2 =>
      if tp2 =? tp then
        wrt tp1 (set_t_next tnext) ;;;
        wrt tp1 (set_t_dmap tdmap) ;;;
        wrt tp1 (set_t_tinc (s16 (t_tinc t1 + ttinc)))
      else drest (t_dmap t1) ;;; excise fuel tp tnext tdmap ttinc tp2
    end
  end.

(** The loop that finds the insertion point: the structure after which to
    insert, the next one, and the ticks left at that point. *)
Fixpoint insertion (fuel : nat) (n tp1 : Z) : M tqstate (Z * option Z * Z) :=
  match fuel with
  | O => nofuel
  | S fuel =>
    t1 <- rdt tp1 ;;
    match t_next t1 with
    | None => kret (tp1, None, n)
    | Some tp2 =>
      let n := s16 (n - t_tinc t1) in
      if n <? 0 then kret (tp1, Some tp2, s16 (n + t_tinc t1))
      else drest (t_dmap t1) ;;; insertion fuel n tp2
    end
  end.

Definition timeout (fuel : nat) (tp n : Z) (f : option Z) (a : Z) : M tqstate unit :=
  dold <- dsave ;;
  t <- rdt tp ;;
  match t_func t with
  | Some _ => excise fuel tp (t_next t) (t_dmap t) (t_tinc t) timl
  | None => kret tt
  end ;;;
  drest dold ;;;
  match f with
  | None => kret tt
  | Some f =>
    r <- insertion fuel n timl ;;
    let '(tp1, tp2, n) := r in
    wrt tp1 (set_t_next (Some tp)) ;;;
    t1 <- rdt tp1 ;;
    let tdmap := t_dmap t1 in
    wrt tp1 (set_t_dmap dold) ;;;
    let ttinc := s16 (t_tinc t1 - n) in
    wrt tp1 (set_t_tinc n) ;;;
    drest dold ;;;
    wrt tp (set_t_next tp2) ;;;
    wrt tp (set_t_dmap tdmap) ;;;
    wrt tp (set_t_tinc ttinc) ;;;
    wrt tp (set_t_func (Some f)) ;;;
    wrt tp (set_t_farg a)
  end.

(** [clock] counts the head down every tick. *)
Definition clock_timl : M tqstate unit :=
  wrt timl (fun t => set_t_tinc (s16 (t_tinc t - 1)) t).

(** The call through [tf] with [tp->t_farg]; the argument is read when the call is made, with the
    map of the structure still loaded. *)
Definition fire (tf : option Z) (tp : Z) (call : Z -> Z -> M tqstate unit) : M tqstate unit :=
  t <- rdt tp ;;
  match tf with Some f => call f (t_farg t) | None => bad end.

(** The loop in [stand]. *)
Fixpoint stand_loop (fuel : nat) (call : Z -> Z -> M tqstate unit) : M tqstate unit :=
  match fuel with
  | O => nofuel
  | S fuel =>
    t0 <- rdt timl ;;
    if 0 <? t_tinc t0 then kret tt else
    match t_next t0 with
    | None => wrt timl (set_t_tinc MAXINT)
    | Some tp =>
      drest (t_dmap t0) ;;;
      t <- rdt tp ;;
      wrt timl (set_t_next (t_next t)) ;;;
      wrt timl (set_t_dmap (t_dmap t)) ;;;
      wrt timl (set_t_tinc (s16 (t_tinc t0 + t_tinc t))) ;;;
      wrt tp (set_t_func None) ;;;
      fire (t_func t) tp call ;;;
      stand_loop fuel call
    end
  end.

Definition stand_timers (fuel : nat) (call : Z -> Z -> M tqstate unit) : M tqstate unit :=
  t0 <- rdt timl ;;
  if 0 <? t_tinc t0 then kret tt else
  dold <- dsave ;;
  stand_loop fuel call ;;;
  drest dold.

(** ** The queue as a list

    [l] lists the structures in the queue with the number of ticks, from now,
    after which each is due. *)
Fixpoint tchain (ts : gmap Z TIM) (p base : Z) (l : list (Z * Z)) : Prop :=
  match l with
  | [] => exists t, ts !! p = Some t /\ t_next t = None
  | (q, d) :: l =>
    (exists t, ts !! p = Some t /\ t_next t = Some q /\ t_dmap t = home q /\ t_tinc t = d - base) /\
    tchain ts q d l
  end.

(** The times in the queue, and that of a request, lie in one window of
    32768 ticks around now. *)
Definition inwin (lo d : Z) : Prop := -32767 <= lo <= 0 /\ lo <= d <= lo + 32767.

Definition has_func (ts : gmap Z TIM) (fa : Z -> Z * Z) (q : Z) : Prop :=
  exists t, ts !! q = Some t /\ t_func t = Some (fa q).1 /\ t_farg t = (fa q).2.

Definition ordered (l : list (Z * Z)) : Prop := StronglySorted (fun e e' => e.2 <= e'.2) l.

Record tqrep (lo : Z) (ts : gmap Z TIM) (l : list (Z * Z)) (fa : Z -> Z * Z) : Prop := {
  tq_chain : tchain ts timl 0 l;
  tq_nodup : NoDup (timl :: l.*1);
  tq_lo : inwin lo 0;
  tq_win : Forall (fun e => inwin lo e.2) l;
  tq_ord : ordered l;
  tq_func : Forall (fun e => has_func ts fa e.1) l
}.

(** The queue operations on the list. *)
Definition tremove (tp : Z) (l : list (Z * Z)) : list (Z * Z) := filter (fun e => e.1 <> tp) l.
Fixpoint tinsert (tp n : Z) (l : list (Z * Z)) : list (Z * Z) :=
  match l with
  | [] => [(tp, n)]
  | (q, d) :: l' => if n <? d then (tp, n) :: l else (q, d) :: tinsert tp n l'
  end.

Lemma rdt_ok s p t : mapped s p = true -> tims s !! p = Some t -> rdt p s = Ret t s.
Proof. intros Hm Ht. unfold rdt, kbind, get. simpl. by rewrite Hm, Ht. Qed.

Lemma wrt_ok s p t f : mapped s p = true -> tims s !! p = Some t ->
  wrt p f s = Ret tt (set_tims (<[p := f t]> (tims s)) s).
Proof. intros Hm Ht. unfold wrt, kbind at 1. by rewrite (rdt_ok s p t Hm Ht). Qed.

(** The structure before a suffix of the queue, and its time. *)
Fixpoint endp (p base : Z) (l : list (Z * Z)) : Z * Z :=
  match l with [] => (p, base) | (q, d) :: l => endp q d l end.

Lemma endp_in p base l : (endp p base l).1 ∈ p :: l.*1.
Proof.
  revert p base. induction l as [|[q d] l IH]; intros p base; simpl; [constructor|].
  apply elem_of_cons. right. apply IH.
Qed.

Lemma tchain_end ts p base l1 l2 : tchain ts p base (l1 ++ l2) ->
  tchain ts (endp p base l1).1 (endp p base l1).2 l2.
Proof.
  revert p base. induction l1 as [|[q d] l1 IH]; intros p base; simpl; [done|]. intros [_ H]. by apply IH.
Qed.

Lemma tchain_head ts p base l : tchain ts p base l -> exists t, ts !! p = Some t /\
  t_next t = head (l.*1) /\ (forall q d l', l = (q, d) :: l' -> t_dmap t = home q /\ t_tinc t = d - base).
Proof.
  destruct l as [|[q d] l]; simpl.
  - intros (t & Ht & Hn). exists t. done.
  - intros [(t & Ht & Hn & Hd & Hi) _]. exists t. split; [done|]. split; [done|].
    intros ??? E. by injection E as <- <- _.
Qed.

(** Changing the end of the chain. *)
Lemma tchain_join ts ts' p base l1 l2 l2' : tchain ts p base (l1 ++ l2) ->
  NoDup (p :: l1.*1) ->
  (forall q, q ∈ p :: l1.*1 -> q <> (endp p base l1).1 -> ts' !! q = ts !! q) ->
  tchain ts' (endp p base l1).1 (endp p base l1).2 l2' -> tchain ts' p base (l1 ++ l2').
Proof.
  revert p base. induction l1 as [|[q d] l1 IH]; intros p base; simpl; [done|].
  intros [Hp Hc] Hnd Hs Hend. apply NoDup_cons in Hnd as [Hni Hnd]. split.
  - rewrite Hs; [done|constructor|]. intros E. apply Hni. rewrite E. apply endp_in.
  - apply IH; [done|done| |done]. intros q' Hq'. apply Hs. by constructor.
Qed.

Lemma tchain_ext ts ts' p base l : tchain ts p base l -> (forall q, q ∈ p :: l.*1 -> ts' !! q = ts !! q) ->
  tchain ts' p base l.
Proof.
  revert p base. induction l as [|[q d] l IH]; intros p base; simpl.
  - intros Hp Hs. rewrite Hs; [done|constructor].
  - intros [Hp Hc] Hs. split; [rewrite Hs; [done|constructor]|]. apply IH; [done|].
    intros q' Hq'. apply Hs. by constructor.
Qed.

(** ** Walking the queue *)

Lemma bind_rdt {B} p (k : TIM -> M tqstate B) s t : mapped s p = true -> tims s !! p = Some t ->
  kbind (rdt p) k s = k t s.
Proof. intros Hm Ht. unfold kbind. by rewrite (rdt_ok s p t Hm Ht). Qed.

Lemma bind_wrt {B} p f (k : unit -> M tqstate B) s t : mapped s p = true -> tims s !! p = Some t ->
  kbind (wrt p f) k s = k tt (set_tims (<[p := f t]> (tims s)) s).
Proof. intros Hm Ht. unfold kbind at 1. by rewrite (wrt_ok s p t f Hm Ht). Qed.

Lemma bind_drest {B} m (k : unit -> M tqstate B) s : kbind (drest m) k s = k tt (set_omap m s).
Proof. done. Qed.

Lemma mapped_home q s : mapped (set_omap (home q) s) q = true.
Proof. unfold mapped. simpl. rewrite (Z.eqb_refl (home q)). apply orb_true_r. Qed.

Lemma set_omap_id s : set_omap (omap s) s = s.
Proof. by destruct s. Qed.

Definition cut (tnext : option Z) (tdmap ttinc : Z) (t : TIM) : TIM :=
  set_t_tinc (s16 (t_tinc t + ttinc)) (set_t_dmap tdmap (set_t_next tnext t)).

Lemma excise_spec tp tnext tdmap ttinc l2 : forall l1 fuel p base s,
  tchain (tims s) p base (l1 ++ l2) -> mapped s p = true -> (length l1 < fuel)%nat ->
  tp ∉ l1.*1 -> (forall e l, l2 = e :: l -> e.1 = tp) ->
  exists m t1, tims s !! (endp p base l1).1 = Some t1 /\
    excise fuel tp tnext tdmap ttinc p s = Ret tt (match l2 with [] => set_omap m s | _ =>
      set_tims (<[(endp p base l1).1 := cut tnext tdmap ttinc t1]> (tims s)) (set_omap m s) end).
Proof.
  induction l1 as [|[q d] l1 IH]; intros fuel p base s Hc Hm Hfu Hni Hl2;
    (destruct fuel as [|fuel]; [simpl in Hfu; lia|]); cbn [excise].
  - destruct (tchain_head _ _ _ _ Hc) as (t1 & Ht1 & Hn & _). exists (omap s), t1. split; [done|].
    rewrite (bind_rdt p _ s t1 Hm Ht1), Hn, set_omap_id.
    destruct l2 as [|e l2]; [done|]. simpl. rewrite (Hl2 _ _ eq_refl), Z.eqb_refl.
    rewrite (bind_wrt p _ _ s t1 Hm Ht1).
    rewrite (bind_wrt p _ _ _ (set_t_next tnext t1)); [|done|apply lookup_insert_eq].
    rewrite (wrt_ok _ p (set_t_dmap tdmap (set_t_next tnext t1))); [|done|apply lookup_insert_eq].
    simpl. unfold set_tims. simpl. by rewrite !insert_insert_eq.
  - destruct Hc as [(t1 & Ht1 & Hn & Hd & _) Hc].
    rewrite (bind_rdt p _ s t1 Hm Ht1), Hn. apply not_elem_of_cons in Hni as [Hne Hni]. simpl in Hne.
    rewrite (proj2 (Z.eqb_neq q tp)) by done. rewrite bind_drest, Hd.
    destruct (IH fuel q d (set_omap (home q) s) Hc (mapped_home q s)) as (m & t & Ht & ->);
      [simpl in Hfu; lia|done|done|].
    by exists m, t.
Qed.

Lemma insertion_spec lo N l2 : inwin lo N -> (forall e l, l2 = e :: l -> N < e.2 /\ inwin lo e.2) ->
  forall l1 fuel p base s,
  tchain (tims s) p base (l1 ++ l2) -> mapped s p = true -> (length l1 < fuel)%nat ->
  -32768 <= N - base < 32768 -> Forall (fun e => e.2 <= N /\ inwin lo e.2) l1 ->
  exists m, mapped (set_omap m s) (endp p base l1).1 = true /\
    insertion fuel (N - base) p s =
    Ret ((endp p base l1).1, head (l2.*1), N - (endp p base l1).2) (set_omap m s).
Proof.
  intros HN Hl2. induction l1 as [|[q d] l1 IH]; intros fuel p base s Hc Hm Hfu Hb Hle;
    (destruct fuel as [|fuel]; [simpl in Hfu; lia|]); cbn [insertion].
  - destruct (tchain_head _ _ _ _ Hc) as (t1 & Ht1 & Hn & Hi).
    exists (omap s). rewrite set_omap_id. split; [done|].
    rewrite (bind_rdt p _ s t1 Hm Ht1), Hn. destruct l2 as [|[q d] l2]; [done|].
    destruct (Hi _ _ _ eq_refl) as [_ ->]. destruct (Hl2 _ _ eq_refl) as [Hlt Hw]. simpl in *.
    unfold inwin in *. replace (N - base - (d - base)) with (N - d) by lia. rewrite (s16_small (N - d)) by lia.
    rewrite (proj2 (Z.ltb_lt _ _)) by lia. rewrite s16_small by lia. unfold kret. do 3 f_equal. lia.
  - destruct Hc as [(t1 & Ht1 & Hn & Hd & Hi) Hc]. apply Forall_cons in Hle as [[Hle Hw] Hles]. simpl in Hle, Hw.
    rewrite (bind_rdt p _ s t1 Hm Ht1), Hn, Hi. unfold inwin in *.
    replace (N - base - (d - base)) with (N - d) by lia. rewrite (s16_small (N - d)) by lia.
    rewrite (proj2 (Z.ltb_ge _ _)) by lia. rewrite bind_drest, Hd.
    destruct (IH fuel q d (set_omap (home q) s) Hc (mapped_home q s)) as (m & Hm' & ->);
      [simpl in Hfu; lia|lia|done|]. by exists m.
Qed.

(** ** timeout *)

Lemma tremove_split tp l : NoDup (l.*1) -> tp ∈ l.*1 -> exists l1 d l2,
  l = l1 ++ (tp, d) :: l2 /\ tremove tp l = l1 ++ l2 /\ tp ∉ l1.*1.
Proof.
  induction l as [|[q d] l IH]; cbn [fmap list_fmap fst]; intros Hnd Hin; [by apply elem_of_nil in Hin|].
  apply NoDup_cons in Hnd as [Hni Hnd]. destruct (decide (q = tp)) as [->|Hne].
  - exists [], d, l. split; [done|]. split; [|apply not_elem_of_nil].
    unfold tremove. rewrite filter_cons_False by (simpl; tauto). apply list_filter_all.
    apply Forall_forall. intros e He E. apply Hni. rewrite <- E. by apply list_elem_of_fmap_2.
  - apply elem_of_cons in Hin as [?|Hin]; [done|].
    destruct (IH Hnd Hin) as (l1 & d' & l2 & -> & E & Hni1).
    exists ((q, d) :: l1), d', l2. split; [done|]. split.
    + unfold tremove in *. rewrite filter_cons_True by done. by rewrite E.
    + simpl. apply not_elem_of_cons. done.
Qed.

Lemma tremove_id tp l : tp ∉ l.*1 -> tremove tp l = l.
Proof.
  intros Hni. unfold tremove. apply list_filter_all. apply Forall_forall. intros e He E.
  apply Hni. rewrite <- E. by apply list_elem_of_fmap_2.
Qed.

Lemma tinsert_split tp n l : exists l1 l2, l = l1 ++ l2 /\ tinsert tp n l = l1 ++ (tp, n) :: l2 /\
  Forall (fun e => e.2 <= n) l1 /\ (forall e l, l2 = e :: l -> n < e.2).
Proof.
  induction l as [|[q d] l (l1 & l2 & -> & E & Hf & Hh)]; simpl.
  - exists [], []. done.
  - destruct (Z.ltb_spec n d).
    + exists [], ((q, d) :: l1 ++ l2). split; [done|]. split; [done|]. split; [constructor|].
      intros e l Ee. by injection Ee as <- _.
    + exists ((q, d) :: l1), l2. rewrite E. split; [done|]. split; [done|]. split; [by constructor|done].
Qed.

Lemma endp_win lo p base l : inwin lo base -> Forall (fun e => inwin lo e.2) l -> inwin lo (endp p base l).2.
Proof. revert p base. induction l as [|[q d] l IH]; simpl; [done|]. intros p base _ [? ?]%Forall_cons. by apply IH. Qed.

Lemma has_func_ext ts ts' fa fa' (l : list (Z * Z)) : Forall (fun e => has_func ts fa e.1) l ->
  (forall q t, q ∈ l.*1 -> ts !! q = Some t -> fa' q = fa q /\ exists t', ts' !! q = Some t' /\
     t_func t' = t_func t /\ t_farg t' = t_farg t) ->
  Forall (fun e => has_func ts' fa' e.1) l.
Proof.
  intros H Hext. apply Forall_forall. intros e He. apply (proj1 (Forall_forall _ _)) with (x := e) in H; [|done].
  destruct H as (t & Ht & Hf & Ha).
  unfold has_func. destruct (Hext e.1 t (list_elem_of_fmap_2 fst l e He) Ht) as (-> & t' & ? & E1 & E2).
  exists t'. by rewrite E1, E2.
Qed.

Lemma ordered_mid l1 e l2 : ordered (l1 ++ e :: l2) -> ordered (l1 ++ l2).
Proof.
  unfold ordered. rewrite !StronglySorted_app, StronglySorted_cons. intros (H & H1 & _ & H2).
  split; [|done]. intros x1 x2 ??. apply H; [done|by constructor].
Qed.

Lemma ordered_put l1 l2 tp n : ordered (l1 ++ l2) -> Forall (fun e => e.2 <= n) l1 ->
  (forall e l, l2 = e :: l -> n < e.2) -> ordered (l1 ++ (tp, n) :: l2).
Proof.
  unfold ordered. rewrite !StronglySorted_app, StronglySorted_cons, Forall_forall. intros (H & H1 & H2) Hle Hh.
  assert (forall x, x ∈ l2 -> n <= x.2) as Hl2.
  { intros x Hx. destruct l2 as [|e l2]; [by apply elem_of_nil in Hx|].
    specialize (Hh e l2 eq_refl). apply elem_of_cons in Hx as [->|Hx]; [lia|].
    apply StronglySorted_cons in H2 as [H2 _]. rewrite Forall_forall in H2. specialize (H2 x Hx). lia. }
  split; [|split; [done|split; [|done]]].
  - intros x1 x2 Hx1 [->|Hx2]%elem_of_cons; [by apply Hle|by apply H].
  - apply Forall_forall. intros x Hx. by apply Hl2.
Qed.

Lemma remove_stage lo fuel s l fa tp t0 : tqrep lo (tims s) l fa -> tp <> timl -> tims s !! tp = Some t0 ->
  (length l < fuel)%nat ->
  exists m ts', match t_func t0 with
    | Some _ => excise fuel tp (t_next t0) (t_dmap t0) (t_tinc t0) timl
    | None => kret tt end s = Ret tt (set_tims ts' (set_omap m s)) /\
    tqrep lo ts' (tremove tp l) fa /\ ts' !! tp = Some t0 /\ (forall q, is_Some (tims s !! q) -> is_Some (ts' !! q)).
Proof.
  intros [Hc Hnd Hlo Hw Ho Hf] Htp Ht0 Hfu. destruct (decide (tp ∈ l.*1)) as [Hin|Hni].
  - pose proof Hnd as [Hni0 Hnd']%NoDup_cons.
    destruct (tremove_split tp l Hnd' Hin) as (l1 & d & l2 & -> & -> & Hni1).
    pose proof Hf as Hft. rewrite Forall_app, Forall_cons in Hft. destruct Hft as (Hf1 & (t & Ht & Hfn & _) & Hf2).
    simpl in Ht. rewrite Ht0 in Ht. injection Ht as <-. rewrite Hfn.
    rewrite length_app in Hfu. rewrite fmap_app in Hnd. simpl in Hnd.
    destruct (excise_spec tp (t_next t0) (t_dmap t0) (t_tinc t0) ((tp, d) :: l2) l1 fuel timl 0 s Hc eq_refl)
      as (m & t1 & Ht1 & ->); [lia|done|by intros ?? [= <- <-]|].
    pose proof (tchain_end _ _ _ _ _ Hc) as [(t1' & Ht1' & Hn1 & Hd1 & Hi1) Hc2].
    rewrite Ht1 in Ht1'. injection Ht1' as <-.
    pose proof (endp_in timl 0 l1) as Hp1. set (p1 := (endp timl 0 l1).1) in *. set (b1 := (endp timl 0 l1).2) in *.
    rewrite app_comm_cons in Hnd. apply NoDup_app in Hnd as (Hnd1 & Hdis & Hnd2).
    apply NoDup_cons in Hnd2 as [Hni2 Hnd2].
    assert (p1 <> tp) as Hp1tp by (intros <-; by apply (Hdis _ Hp1); constructor).
    rewrite Forall_app, Forall_cons in Hw. destruct Hw as (Hw1 & Hwd & Hw2).
    exists m, (<[p1 := cut (t_next t0) (t_dmap t0) (t_tinc t0) t1]> (tims s)). split; [done|].
    split; [|split; [by rewrite lookup_insert_ne|]].
    2: { intros q Hq. destruct (decide (p1 = q)) as [<-|]; [by rewrite lookup_insert_eq|by rewrite lookup_insert_ne]. }
    split; [| |done| | |].
    + eapply tchain_join; [exact Hc|done| |]; fold p1 b1.
      { intros q _ Hq. by rewrite lookup_insert_ne. }
      destruct (tchain_head _ _ _ _ Hc2) as (t0' & Ht0' & Hn0 & Hi0). rewrite Ht0 in Ht0'. injection Ht0' as <-.
      destruct l2 as [|[q e] l2]; simpl.
      { eexists. rewrite lookup_insert_eq. split; [done|]. done. }
      destruct (Hi0 _ _ _ eq_refl) as [Hd0 Hi0']. split.
      { eexists. rewrite lookup_insert_eq. split; [done|]. unfold cut. simpl. split; [done|]. split; [done|].
        rewrite Hi1, Hi0'. pose proof (endp_win lo timl 0 l1 Hlo Hw1) as Hb1. fold b1 in Hb1.
        apply Forall_cons in Hw2 as [Hwe _]. simpl in Hwe. unfold inwin in *. rewrite s16_small by lia. lia. }
      destruct Hc2 as [_ Hc2]. eapply tchain_ext; [exact Hc2|]. intros q' Hq'. apply lookup_insert_ne.
      intros <-. apply (Hdis _ Hp1). constructor. exact Hq'.
    + rewrite fmap_app, app_comm_cons. apply NoDup_app. split; [done|]. split; [|done].
      intros x Hx Hx2. apply (Hdis x Hx). by constructor.
    + by rewrite Forall_app.
    + by eapply ordered_mid.
    + apply (has_func_ext (tims s) _ fa); [by rewrite Forall_app|].
      intros q t _ Hq. split; [done|]. destruct (decide (p1 = q)) as [<-|].
      * rewrite lookup_insert_eq. rewrite Ht1 in Hq. injection Hq as <-. eexists. done.
      * rewrite lookup_insert_ne by done. eauto.
  - rewrite tremove_id by done. destruct (t_func t0).
    + destruct (excise_spec tp (t_next t0) (t_dmap t0) (t_tinc t0) [] l fuel timl 0 s) as (m & t1 & _ & ->);
        [by rewrite app_nil_r|done|done|done|done|].
      exists m, (tims s). split; [done|]. done.
    + exists (omap s), (tims s). rewrite set_omap_id. split; [by destruct s|]. done.
Qed.

Lemma length_tremove tp l : (length (tremove tp l) <= length l)%nat.
Proof. apply length_filter. Qed.

Lemma tremove_in tp q l : q ∈ (tremove tp l).*1 -> q ∈ l.*1 /\ q <> tp.
Proof.
  intros (e & -> & He)%list_elem_of_fmap. apply list_elem_of_filter in He as [Hne He].
  split; [by apply list_elem_of_fmap_2|done].
Qed.

(** The writes that link [tp] in after [p1]. *)
Lemma insert_stage s tp f a p1 b1 tp2 n t0 t1 m : tp <> timl -> p1 <> tp -> omap s = home tp ->
  tims s !! tp = Some t0 -> tims s !! p1 = Some t1 -> mapped (set_omap m s) p1 = true ->
  (wrt p1 (set_t_next (Some tp)) ;;;
    t1 <- rdt p1 ;;
    let tdmap := t_dmap t1 in
    wrt p1 (set_t_dmap (omap s)) ;;;
    let ttinc := s16 (t_tinc t1 - (n - b1)) in
    wrt p1 (set_t_tinc (n - b1)) ;;;
    drest (omap s) ;;;
    wrt tp (set_t_next tp2) ;;;
    wrt tp (set_t_dmap tdmap) ;;;
    wrt tp (set_t_tinc ttinc) ;;;
    wrt tp (set_t_func (Some f)) ;;;
    wrt tp (set_t_farg a)) (set_omap m s) =
  Ret tt (set_tims (<[tp := Tim tp2 (t_dmap t1) (s16 (t_tinc t1 - (n - b1))) (Some f) a]>
    (<[p1 := set_t_tinc (n - b1) (set_t_dmap (home tp) (set_t_next (Some tp) t1))]> (tims s))) s).
Proof.
  intros Htp Hne Ho Ht0 Ht1 Hm.
  rewrite (bind_wrt p1 _ _ _ t1 Hm Ht1).
  rewrite (bind_rdt p1 _ _ (set_t_next (Some tp) t1)); [|exact Hm|apply lookup_insert_eq]. cbv zeta.
  rewrite (bind_wrt p1 _ _ _ (set_t_next (Some tp) t1)); [|exact Hm|apply lookup_insert_eq].
  rewrite (bind_wrt p1 _ _ _ (set_t_dmap (omap s) (set_t_next (Some tp) t1))); [|exact Hm|apply lookup_insert_eq].
  rewrite bind_drest. unfold set_tims at 1 2 3 4. cbn [tims omap calls set_omap set_tims].
  rewrite !insert_insert_eq. set (ts1 := <[p1 := _]> (tims s)).
  assert (ts1 !! tp = Some t0) as E by (unfold ts1; by rewrite lookup_insert_ne).
  assert (forall ts c, mapped (Tq ts (omap s) c) tp = true) as Hmt.
  { intros. unfold mapped. simpl. rewrite Ho, Z.eqb_refl. apply orb_true_r. }
  repeat (first [erewrite bind_wrt|erewrite wrt_ok];
    [|apply Hmt|first [exact E|apply lookup_insert_eq]]; unfold set_tims at 1; cbn [tims omap calls set_omap set_tims]).
  rewrite !insert_insert_eq. unfold ts1. rewrite Ho. unfold set_tims. by rewrite Ho.
Qed.

(** The queue after those writes. *)
Lemma insert_rep lo ts1 l1 l2 fa tp n f a t1 : tqrep lo ts1 (l1 ++ l2) fa -> inwin lo n ->
  Forall (fun e => e.2 <= n) l1 -> (forall e l, l2 = e :: l -> n < e.2) ->
  (forall q, q ∈ timl :: (l1 ++ l2).*1 -> q <> tp) ->
  let p1 := (endp timl 0 l1).1 in let b1 := (endp timl 0 l1).2 in
  ts1 !! p1 = Some t1 -> t_next t1 = head (l2.*1) ->
  (forall q d l', l2 = (q, d) :: l' -> t_dmap t1 = home q /\ t_tinc t1 = d - b1) ->
  tqrep lo (<[tp := Tim (head (l2.*1)) (t_dmap t1) (s16 (t_tinc t1 - (n - b1))) (Some f) a]>
    (<[p1 := set_t_tinc (n - b1) (set_t_dmap (home tp) (set_t_next (Some tp) t1))]> ts1))
    (l1 ++ (tp, n) :: l2) (fun q => if q =? tp then (f, a) else fa q).
Proof.
  intros [Hc Hnd Hlo Hw Hor Hf] Hn Hle Hh Hntp p1 b1 Ht1 Hn1 Hi1.
  assert (p1 ∈ timl :: l1.*1) as Hp1 by apply endp_in.
  assert (p1 <> tp) as Hp1tp.
  { apply Hntp. rewrite fmap_app, app_comm_cons. apply elem_of_app. by left. }
  set (tn := Tim _ _ _ _ _). set (t1' := set_t_tinc _ _).
  assert (forall q, q <> tp -> q <> p1 -> <[tp := tn]> (<[p1 := t1']> ts1) !! q = ts1 !! q) as Hother.
  { intros q ??. by rewrite !lookup_insert_ne. }
  rewrite fmap_app in Hnd, Hntp. split; [| |done| |by apply ordered_put|].
  - eapply tchain_join; [exact Hc| | |]; fold p1 b1.
    { rewrite app_comm_cons in Hnd. by apply NoDup_app in Hnd as [? _]. }
    { intros q Hq Hqp. apply Hother; [|done]. apply Hntp. rewrite app_comm_cons. apply elem_of_app. by left. }
    cbn [tchain]. split.
    { exists t1'. rewrite lookup_insert_ne, lookup_insert_eq by done. done. }
    pose proof (tchain_end _ _ _ _ _ Hc) as Hc2. fold p1 b1 in Hc2.
    destruct l2 as [|[q e] l2]; [by exists tn; rewrite lookup_insert_eq|].
    destruct (Hi1 _ _ _ eq_refl) as [Hd1 Hi1']. cbn [tchain]. split.
    { exists tn. rewrite lookup_insert_eq. split; [done|]. split; [done|]. split; [done|]. subst tn. cbn [t_tinc].
      rewrite Hi1'. rewrite Forall_app, Forall_cons in Hw. destruct Hw as (_ & Hwe & _). simpl in Hwe.
      unfold inwin in *. rewrite s16_small by lia. lia. }
    destruct Hc2 as [_ Hc2]. eapply tchain_ext; [exact Hc2|]. intros q' Hq'. apply Hother.
    { apply Hntp. rewrite app_comm_cons. apply elem_of_app. by right. }
    intros ->. rewrite app_comm_cons in Hnd. apply NoDup_app in Hnd as (_ & Hdis & _). by apply (Hdis p1 Hp1).
  - rewrite fmap_app. cbn [fmap list_fmap fst].
    assert (timl :: l1.*1 ++ tp :: l2.*1 ≡ₚ tp :: timl :: l1.*1 ++ l2.*1) as ->.
    { rewrite <- Permutation_middle. by rewrite (Permutation_swap tp timl). }
    apply NoDup_cons. split; [|done]. intros Hin. by apply Hntp in Hin.
  - rewrite Forall_app, Forall_cons in *. tauto.
  - rewrite Forall_app, Forall_cons in *. destruct Hf as [Hf1 Hf2].
    assert (forall l' : list (Z * Z), (forall q, q ∈ l'.*1 -> q <> tp) -> Forall (fun e => has_func ts1 fa e.1) l' ->
      Forall (fun e => has_func (<[tp := tn]> (<[p1 := t1']> ts1)) (fun q => if q =? tp then (f, a) else fa q) e.1) l') as Hext.
    { intros l' Hl' Hfl. apply (has_func_ext ts1 _ fa); [done|]. intros q t Hq Hqt.
      rewrite (proj2 (Z.eqb_neq q tp)) by (by apply Hl'). split; [done|]. rewrite lookup_insert_ne by (symmetry; by apply Hl').
      destruct (decide (q = p1)) as [->|]; [|rewrite lookup_insert_ne by done; eauto].
      rewrite lookup_insert_eq. rewrite Ht1 in Hqt. injection Hqt as <-. eexists. done. }
    split; [|split].
    + apply Hext; [|done]. intros q Hq. apply Hntp. constructor. apply elem_of_app. by left.
    + exists tn. cbn [fst]. rewrite lookup_insert_eq, Z.eqb_refl. done.
    + apply Hext; [|done]. intros q Hq. apply Hntp. constructor. apply elem_of_app. by right.
Qed.

(** [timeout] takes [tp] out of the queue wherever it is and, when a
    function is given, puts it back to be called with its argument in [n]
    ticks, after every structure due at the same time or before; the other
    structures keep their times, and the driver map is what it was.  It
    reaches every structure with the map of its own driver loaded. *)
Theorem timeout_correct lo fuel s l fa tp n f a t0 : tqrep lo (tims s) l fa -> tp <> timl -> omap s = home tp ->
  tims s !! tp = Some t0 -> inwin lo n -> (length l < fuel)%nat ->
  exists ts', timeout fuel tp n f a s = Ret tt (set_tims ts' s) /\
  (forall q, is_Some (tims s !! q) -> is_Some (ts' !! q)) /\
  match f with
  | None => tqrep lo ts' (tremove tp l) fa
  | Some f => tqrep lo ts' (tinsert tp n (tremove tp l)) (fun q => if q =? tp then (f, a) else fa q)
  end.
Proof.
  intros Hrep Htp Ho Ht0 Hn Hfu. unfold timeout, dsave.
  destruct (remove_stage lo fuel s l fa tp t0 Hrep Htp Ht0 Hfu) as (m & ts1 & E1 & Hrep1 & Ht0' & Hdom).
  unfold kbind at 1, gets at 1. cbn [obind].
  rewrite (bind_rdt tp _ s t0); [|unfold mapped; rewrite Ho, Z.eqb_refl; apply orb_true_r|done].
  unfold kbind at 1. rewrite E1. cbn [obind]. rewrite bind_drest.
  replace (set_omap (omap s) (set_tims ts1 (set_omap m s))) with (set_tims ts1 s) by done.
  destruct f as [f|]; [|by exists ts1].
  pose proof (length_tremove tp l) as Hlt.
  destruct (tinsert_split tp n (tremove tp l)) as (l1 & l2 & El & -> & Hle & Hh). rewrite El in Hrep1.
  rewrite El, length_app in Hlt.
  pose proof Hrep1 as [Hc Hnd Hlo Hw Hor Hf].
  destruct (insertion_spec lo n l2 Hn) with (l1 := l1) (fuel := fuel) (p := timl) (base := 0) (s := set_tims ts1 s)
    as (m' & Hm' & E2).
  { intros e l' ->. split; [by eapply Hh|]. rewrite Forall_app, Forall_cons in Hw. apply Hw. }
  { exact Hc. } { done. } { lia. } { unfold inwin in Hn. lia. }
  { apply Forall_forall. intros e He. rewrite Forall_forall in Hle. split; [by apply Hle|].
    rewrite Forall_forall in Hw. apply Hw. apply elem_of_app. by left. }
  rewrite Z.sub_0_r in E2. unfold kbind at 1. rewrite E2. cbn [obind].
  pose proof (endp_in timl 0 l1) as Hp1. set (p1 := (endp timl 0 l1).1) in *. set (b1 := (endp timl 0 l1).2) in *.
  assert (forall q, q ∈ timl :: (l1 ++ l2).*1 -> q <> tp) as Hntp.
  { intros q [->|Hq]%elem_of_cons; [done|]. rewrite <- El in Hq. by apply tremove_in in Hq as [_ ?]. }
  assert (p1 <> tp) as Hp1tp.
  { apply Hntp. rewrite fmap_app, app_comm_cons. apply elem_of_app. by left. }
  destruct (tchain_head _ _ _ _ (tchain_end _ _ _ _ _ Hc)) as (t1 & Ht1 & Hn1 & Hi1). fold p1 b1 in Ht1, Hn1, Hi1.
  cbv iota beta.
  rewrite (insert_stage (set_tims ts1 s) tp f a p1 b1 (head (l2.*1)) n t0 t1 m' Htp Hp1tp Ho Ht0' Ht1 Hm').
  cbn [tims set_tims]. eexists. split; [reflexivity|]. split; [|by apply insert_rep].
  intros q Hq. rewrite !lookup_insert_is_Some. specialize (Hdom q Hq).
  destruct (decide (tp = q)), (decide ((endp timl 0 l1).1 = q)); tauto.
Qed.

(** ** The clock *)

(** A called function that leaves the queue alone; the call is recorded with
    the map in force. *)
Definition log_call (f a : Z) : M tqstate unit :=
  modify (fun s => Tq (tims s) (omap s) (calls s ++ [(f, a, omap s)])).

Definition called (fa : Z -> Z * Z) (e : Z * Z) : Z * Z * Z := ((fa e.1).1, (fa e.1).2, home e.1).

Definition due (k : Z) (l : list (Z * Z)) : list (Z * Z) := filter (fun e => e.2 <= k) l.
Definition later (k : Z) (l : list (Z * Z)) : list (Z * Z) := filter (fun e => k < e.2) l.
Definition passed (k : Z) (l : list (Z * Z)) : list (Z * Z) := map (fun e => (e.1, e.2 - k)) l.

Lemma due_cons_le k e l : e.2 <= k -> due k (e :: l) = e :: due k l /\ later k (e :: l) = later k l.
Proof. intros H. unfold due, later. rewrite filter_cons_True, filter_cons_False by lia. done. Qed.

Lemma due_later_gt k l : Forall (fun e => k < e.2) l -> due k l = [] /\ later k l = l.
Proof.
  intros H. split; [|by apply list_filter_all]. unfold due. induction H as [|e l He _ IH]; [done|].
  rewrite filter_cons_False by lia. done.
Qed.

Lemma ordered_gt k e l : ordered (e :: l) -> k < e.2 -> Forall (fun e => k < e.2) (e :: l).
Proof.
  intros [H _]%StronglySorted_cons Hlt. apply Forall_cons. split; [done|].
  eapply Forall_impl; [exact H|]. simpl. lia.
Qed.

Lemma tqrep_pop lo ts q d l fa t0 t : tqrep lo ts ((q, d) :: l) fa -> ts !! timl = Some t0 -> ts !! q = Some t ->
  tqrep lo (<[q := set_t_func None t]> (<[timl := set_t_tinc (s16 (t_tinc t0 + t_tinc t))
    (set_t_dmap (t_dmap t) (set_t_next (t_next t) t0))]> ts)) l fa.
Proof.
  intros [[(t0' & Ht0' & _ & _ & Hi) Hc] Hnd Hlo Hw Hor Hf] Ht0 Ht. rewrite Ht0 in Ht0'. injection Ht0' as <-.
  cbn [fmap list_fmap fst] in Hnd. apply NoDup_cons in Hnd as [Hn0 [Hnq Hnd]%NoDup_cons].
  apply not_elem_of_cons in Hn0 as [Hqt Hn0]. apply Forall_cons in Hw as [Hwd Hw], Hf as [_ Hf].
  destruct (tchain_head _ _ _ _ Hc) as (t' & Ht' & Hn & Hnext). rewrite Ht in Ht'. injection Ht' as <-.
  set (t0' := set_t_tinc _ _).
  assert (forall r, r ∈ l.*1 -> <[q := set_t_func None t]> (<[timl := t0']> ts) !! r = ts !! r) as Hsame.
  { intros r Hr. rewrite !lookup_insert_ne; [done| |]; congruence. }
  split; [| |done|done|by apply StronglySorted_cons in Hor as [_ Hor]|].
  - destruct l as [|[r e] l]; cbn [tchain].
    { exists t0'. rewrite lookup_insert_ne, lookup_insert_eq by done. done. }
    destruct (Hnext _ _ _ eq_refl) as [Hdm Hti]. split.
    { exists t0'. rewrite lookup_insert_ne, lookup_insert_eq by done. split; [done|].
      subst t0'. cbn [t_next t_dmap t_tinc set_t_tinc set_t_dmap set_t_next]. split; [done|]. split; [done|].
      apply Forall_cons in Hw as [Hwe _]. unfold inwin in *. simpl in *. rewrite s16_small by lia. lia. }
    destruct Hc as [_ Hc]. eapply tchain_ext; [exact Hc|]. intros r' Hr'. by apply Hsame.
  - apply NoDup_cons. done.
  - apply (has_func_ext ts _ fa); [done|]. intros r tr Hr Htr. split; [done|]. exists tr. by rewrite Hsame.
Qed.

Lemma stand_loop_spec lo fa : forall l fuel s, tqrep lo (tims s) l fa -> (length l < fuel)%nat ->
  exists ts' m', stand_loop fuel log_call s = Ret tt (Tq ts' m' (calls s ++ map (called fa) (due 0 l))) /\
    tqrep lo ts' (later 0 l) fa.
Proof.
  induction l as [|[q d] l IH]; intros fuel s Hrep Hfu; (destruct fuel as [|fuel]; [simpl in Hfu; lia|]);
    cbn [stand_loop]; destruct (tchain_head _ _ _ _ (tq_chain _ _ _ _ Hrep)) as (t0 & Ht0 & Hn & Hi);
    rewrite (bind_rdt timl _ s t0 eq_refl Ht0), Hn.
  - cbn [map due later filter list_filter fmap list_fmap head]. rewrite app_nil_r. destruct (0 <? t_tinc t0).
    { exists (tims s), (omap s). split; [by destruct s|done]. }
    rewrite (wrt_ok timl s t0 eq_refl Ht0) || rewrite (wrt_ok s timl t0 _ eq_refl Ht0).
    eexists _, (omap s). split; [reflexivity|]. destruct Hrep as [_ Hnd Hlo Hw Hor Hf].
    split; try done. simpl. eexists. rewrite lookup_insert_eq. done.
  - destruct (Hi _ _ _ eq_refl) as [Hdm Hti]. rewrite Z.sub_0_r in Hti. rewrite Hti. cbn [fmap list_fmap head fst].
    destruct (Z.ltb_spec 0 d) as [Hpos|Hneg].
    { exists (tims s), (omap s).
      destruct (due_later_gt 0 ((q, d) :: l)) as [-> ->]; [by apply ordered_gt; [apply Hrep|]|].
      simpl. rewrite app_nil_r. split; [by destruct s|done]. }
    destruct (due_cons_le 0 (q, d) l Hneg) as [-> ->].
    pose proof (tq_func _ _ _ _ Hrep) as [(t & Ht & Hfn & Hfa) _]%Forall_cons. cbn [fst] in Ht, Hfn, Hfa.
    assert (q <> timl) as Hqt.
    { pose proof (tq_nodup _ _ _ _ Hrep) as [Hni _]%NoDup_cons. intros ->. apply Hni. constructor. }
    rewrite bind_drest, Hdm. rewrite (bind_rdt q _ _ t); [|apply mapped_home|exact Ht].
    rewrite (bind_wrt timl _ _ _ t0); [|done|exact Ht0].
    rewrite (bind_wrt timl _ _ _ (set_t_next (t_next t) t0)); [|done|apply lookup_insert_eq].
    rewrite (bind_wrt timl _ _ _ (set_t_dmap (t_dmap t) (set_t_next (t_next t) t0))); [|done|apply lookup_insert_eq].
    unfold set_tims at 1 2 3. cbn [tims omap calls set_omap set_tims]. rewrite !insert_insert_eq.
    rewrite (bind_wrt q _ _ _ t);
      [|apply (mapped_home q (Tq _ (omap s) (calls s)))|cbn [tims]; by rewrite lookup_insert_ne].
    unfold set_tims. cbn [tims omap calls].
    pose proof (tqrep_pop lo _ q d l fa t0 t Hrep Ht0 Ht) as Hrep'. rewrite Hti in Hrep'.
    unfold kbind at 1, fire. rewrite (bind_rdt q _ _ (set_t_func None t));
      [|apply (mapped_home q (Tq _ (omap s) (calls s)))|apply lookup_insert_eq].
    rewrite Hfn. unfold log_call, modify. cbn [obind tims omap calls set_t_func t_farg].
    destruct (IH fuel (Tq _ (home q) (calls s ++ [((fa q).1, t_farg t, home q)])) Hrep' ltac:(simpl in Hfu; lia))
      as (ts' & m' & E & Hrep'').
    unfold log_call, modify in E. rewrite E. exists ts', m'. split; [|done]. cbn [calls map]. unfold called at 2. cbn [fst].
    by rewrite <- app_assoc, Hfa.
Qed.

Lemma stand_spec lo fa l fuel s : tqrep lo (tims s) l fa -> (length l < fuel)%nat ->
  exists ts', stand_timers fuel log_call s = Ret tt (Tq ts' (omap s) (calls s ++ map (called fa) (due 0 l))) /\
    tqrep lo ts' (later 0 l) fa.
Proof.
  intros Hrep Hfu. unfold stand_timers.
  destruct (tchain_head _ _ _ _ (tq_chain _ _ _ _ Hrep)) as (t0 & Ht0 & Hn & Hi).
  rewrite (bind_rdt timl _ s t0 eq_refl Ht0). destruct (Z.ltb_spec 0 (t_tinc t0)) as [Hpos|].
  - exists (tims s). destruct (due_later_gt 0 l) as [-> ->].
    { destruct l as [|[q d] l]; [done|]. apply ordered_gt; [apply Hrep|].
      destruct (Hi _ _ _ eq_refl) as [_ E]. simpl. lia. }
    simpl. rewrite app_nil_r. split; [by destruct s|done].
  - destruct (stand_loop_spec lo fa l fuel s Hrep Hfu) as (ts' & m' & E & Hrep').
    exists ts'. split; [|done]. unfold dsave, kbind at 1, gets at 1. cbn [obind].
    unfold kbind at 1. rewrite E. cbn [obind]. done.
Qed.

Lemma clock_spec lo fa l s : tqrep lo (tims s) l fa -> Forall (fun e => lo < e.2) l ->
  exists ts', clock_timl s = Ret tt (set_tims ts' s) /\ tqrep lo ts' (passed 1 l) fa.
Proof.
  intros Hrep Hgt. destruct (tchain_head _ _ _ _ (tq_chain _ _ _ _ Hrep)) as (t0 & Ht0 & Hn & Hi).
  unfold clock_timl. rewrite (wrt_ok s timl t0 _ eq_refl Ht0). eexists. split; [reflexivity|].
  destruct Hrep as [Hc Hnd Hlo Hw Hor Hf].
  assert (forall l, (passed 1 l).*1 = l.*1) as Ek.
  { intros l'. unfold passed. rewrite <- list_fmap_compose. by apply list_fmap_ext. }
  split; [| |done| | |].
  - destruct l as [|[q d] l]; cbn [passed map tchain].
    { eexists. rewrite lookup_insert_eq. done. }
    destruct (Hi _ _ _ eq_refl) as [Hdm Hti]. split.
    { eexists. rewrite lookup_insert_eq. split; [done|]. cbn [t_next t_dmap t_tinc set_t_tinc fst snd].
      split; [done|]. split; [done|]. rewrite Hti.
      apply Forall_cons in Hw as [Hwd _], Hgt as [Hgd _]. unfold inwin in *. simpl in *. rewrite s16_small by lia. lia. }
    destruct Hc as [_ Hc]. fold (passed 1 l). cbn [fmap list_fmap fst] in Hnd. cbn [fst snd].
    apply (tchain_ext _ (<[timl := set_t_tinc (s16 (t_tinc t0 - 1)) t0]> (tims s))) in Hc.
    2: { intros r Hr. apply lookup_insert_ne. intros <-. by apply NoDup_cons in Hnd as [? _]. }
    clear -Hc. revert q d Hc. induction l as [|[r e] l IH]; intros q d; cbn [tchain map passed]; [done|].
    intros [(t & Ht & H1 & H2 & H3) Hc]. split; [exists t; cbn [fst snd]; split_and!; try done; lia|].
    by apply IH.
  - by rewrite Ek.
  - unfold passed. rewrite Forall_fmap || apply Forall_map. apply Forall_forall. intros e He.
    rewrite Forall_forall in Hw, Hgt. specialize (Hw e He). specialize (Hgt e He). unfold inwin in *. simpl. lia.
  - clear -Hor. unfold ordered, passed in *. induction l as [|e l IH]; simpl; [constructor|].
    apply StronglySorted_cons in Hor as [H1 H2]. apply StronglySorted_cons. split; [|by apply IH].
    apply Forall_map. eapply Forall_impl; [exact H1|]. simpl. lia.
  - unfold passed. apply Forall_map. apply Forall_forall. intros e He. simpl.
    rewrite Forall_forall in Hf. specialize (Hf e He). destruct Hf as (t & Ht & Hfn & Hfa). unfold has_func.
    rewrite lookup_insert_ne; [by eauto|]. intros E. apply NoDup_cons in Hnd as [Hni _]. apply Hni. rewrite E.
    by apply list_elem_of_fmap_2.
Qed.

(** [k] ticks of the clock, with [stand] run after each. *)
Fixpoint ticks (k fuel : nat) : M tqstate unit :=
  match k with
  | O => kret tt
  | S k => clock_timl ;;; stand_timers fuel log_call ;;; ticks k fuel
  end.

Lemma due_later_shift k l : 
  map fst (due 0 (passed 1 l)) = map fst (due 1 l) /\ passed k (later k (later 0 (passed 1 l))) = passed (k + 1) (later (k + 1) (later 1 l)).
Proof.
  unfold due, later, passed. split.
  - induction l as [|[q d] l IH]; [done|]. cbn [map fst snd].
    rewrite !filter_cons. cbn [snd fst]. destruct (decide (d - 1 <= 0)), (decide (d <= 1)); try lia; cbn [map fst]; by rewrite IH.
  - induction l as [|[q d] l IH]; [done|]. cbn [map fst snd].
    rewrite !(filter_cons (fun e => 0 < e.2)), !(filter_cons (fun e => 1 < e.2)). cbn [snd fst].
    destruct (decide (0 < d - 1)), (decide (1 < d)); try lia; [|done].
    rewrite !filter_cons. cbn [snd fst].
    destruct (decide (k < d - 1)), (decide (k + 1 < d)); try lia; [|done].
    cbn [map fst snd]. rewrite IH. do 2 f_equal. lia.
Qed.

Lemma later_later k l : 1 <= k -> later k (later 1 l) = later k l.
Proof.
  intros Hk. unfold later. induction l as [|[q d] l IH]; [done|].
  rewrite (filter_cons (fun e => 1 < e.2)). cbn [snd]. destruct (decide (1 < d)).
  - rewrite !filter_cons. cbn [snd]. destruct (decide (k < d)); by rewrite IH.
  - rewrite IH, filter_cons_False by (simpl; lia). done.
Qed.

Lemma due_split k l : ordered l -> 0 <= k -> due (k + 1) l = due 1 l ++ map (fun e => (e.1, e.2 + 1)) (due k (passed 1 (later 1 l))).
Proof.
  intros Ho Hk. induction l as [|[q d] l IH]; [done|]. pose proof Ho as [_ Ho']%StronglySorted_cons.
  destruct (decide (d <= 1)) as [Hle|Hgt].
  - destruct (due_cons_le 1 (q, d) l Hle) as [-> ->]. destruct (due_cons_le (k + 1) (q, d) l ltac:(simpl; lia)) as [-> _].
    by rewrite IH.
  - destruct (due_later_gt 1 ((q, d) :: l)) as [-> ->]; [apply ordered_gt; [done|simpl; lia]|].
    rewrite app_nil_l. clear. generalize ((q, d) :: l) as l'. intros l'.
    unfold due, passed. induction l' as [|[r e] l' IH]; [done|].
    cbn [map fst snd]. rewrite !filter_cons. cbn [snd].
    destruct (decide (e <= k + 1)), (decide (e - 1 <= k)); try lia; [|done]. cbn [map fst snd].
    rewrite IH. do 2 f_equal. lia.
Qed.

Lemma map_called fa l l' : map fst l = map fst l' -> map (called fa) l = map (called fa) l'.
Proof.
  intros E. assert (forall l : list (Z * Z), map (called fa) l = map (fun q => ((fa q).1, (fa q).2, home q)) (map fst l)) as H.
  { intros l0. rewrite map_map. done. }
  by rewrite !H, E.
Qed.

Lemma ticks_spec lo fa fuel : forall k l s, tqrep lo (tims s) l fa -> Forall (fun e => 0 < e.2) l -> (length l < fuel)%nat ->
  exists ts', ticks k fuel s = Ret tt (Tq ts' (omap s) (calls s ++ map (called fa) (due (Z.of_nat k) l))) /\
    tqrep lo ts' (passed (Z.of_nat k) (later (Z.of_nat k) l)) fa.
Proof.
  induction k as [|k IH]; intros l s Hrep Hpos Hfu.
  - change (Z.of_nat 0) with 0. destruct (due_later_gt 0 l Hpos) as [Ed El]. rewrite Ed, El. exists (tims s). simpl. rewrite app_nil_r.
    split; [by destruct s|]. unfold passed. rewrite (map_ext _ id), map_id; [done|].
    intros [q d]. simpl. f_equal. lia.
  - cbn [ticks]. destruct (clock_spec lo fa l s Hrep) as (ts1 & E1 & Hrep1).
    { eapply Forall_impl; [exact Hpos|]. simpl. pose proof (tq_lo _ _ _ _ Hrep) as [??]. lia. }
    unfold kbind at 1. rewrite E1. cbn [obind].
    destruct (stand_spec lo fa (passed 1 l) fuel (set_tims ts1 s) Hrep1) as (ts2 & E2 & Hrep2).
    { unfold passed. by rewrite length_map. }
    unfold kbind at 1. rewrite E2. cbn [obind omap calls set_tims].
    destruct (IH (later 0 (passed 1 l)) (Tq ts2 (omap s) (calls s ++ map (called fa) (due 0 (passed 1 l)))) Hrep2)
      as (ts3 & E3 & Hrep3).
    { apply Forall_forall. intros e He. by apply list_elem_of_filter in He as [? _]. }
    { eapply Nat.le_lt_trans; [apply length_filter|]. unfold passed. by rewrite length_map. }
    exists ts3. rewrite E3. cbn [calls omap]. replace (Z.of_nat (S k)) with (Z.of_nat k + 1) by lia.
    destruct (due_later_shift (Z.of_nat k) l) as [Hd Hl]. rewrite Hl, later_later in Hrep3 by lia.
    split; [|done]. rewrite <- app_assoc, <- map_app. f_equal. f_equal.
    rewrite (due_split (Z.of_nat k) l); [|exact (tq_ord _ _ _ _ Hrep)|lia]. f_equal. apply map_called. rewrite !map_app, Hd. f_equal.
    rewrite map_map. cbn [fst]. f_equal. f_equal.
    clear. unfold later, passed. induction l as [|[q d] l IH]; [done|]. cbn [map fst snd].
    rewrite !filter_cons. cbn [snd]. destruct (decide (0 < d - 1)), (decide (1 < d)); try lia; [|done].
    cbn [map fst snd]. by rewrite IH.
Qed.

(** C26: With [stand] run after every tick, the functions called in the first
    [k] ticks are exactly those due by then, in the order of their times and
    each with the map of its driver loaded; the others remain, [k] ticks
    nearer. *)
Theorem timers_fire_on_time lo fa fuel k l s :
  tqrep lo (tims s) l fa -> Forall (fun e => 0 < e.2) l -> (length l < fuel)%nat ->
  exists ts', ticks k fuel s = Ret tt (Tq ts' (omap s) (calls s ++ map (called fa) (due (Z.of_nat k) l))) /\
    tqrep lo ts' (passed (Z.of_nat k) (later (Z.of_nat k) l)) fa.
Proof. apply ticks_spec. Qed.
End timeout.

(** ** A concrete queue *)

(** Structures 1 and 2 belong to drivers with maps 10 and 20; 1 is due in
    two ticks and 2 is not in the queue. *)
Definition home_ex (tp : Z) : Z := 10 * tp.
Definition tq_ex : tqstate :=
  Tq {[timl := Tim (Some 1) 10 2 None 0; 1 := Tim None 0 5 (Some 77) 7; 2 := Tim None 0 0 None 0]} 20 [].
Definition fa_ex (_ : Z) : Z * Z := (77, 7).

Lemma tqrep_ex : tqrep home_ex (-100) (tims tq_ex) [(1, 2)] fa_ex.
Proof.
  split.
  - split; eexists; split; try (vm_compute; reflexivity); vm_compute; done.
  - apply NoDup_cons. split; [by intros ?%list_elem_of_singleton|apply NoDup_singleton].
  - unfold inwin. lia.
  - apply Forall_singleton. unfold inwin. simpl. lia.
  - repeat constructor.
  - apply Forall_singleton. eexists. split; [vm_compute; reflexivity|]. done.
Qed.

Lemma timeout_correct_witness : exists ts', timeout home_ex 2 2 1 (Some 88) 8 tq_ex = Ret tt (set_tims ts' tq_ex) /\
  (forall q, is_Some (tims tq_ex !! q) -> is_Some (ts' !! q)) /\
  tqrep home_ex (-100) ts' [(2, 1); (1, 2)] (fun q => if q =? 2 then (88, 8) else fa_ex q).
Proof.
  apply (timeout_correct home_ex (-100) 2 tq_ex [(1, 2)] fa_ex 2 1 (Some 88) 8 (Tim None 0 0 None 0) tqrep_ex);
    [done|done|vm_compute; reflexivity|unfold inwin; lia|simpl; lia].
Defined.

Lemma timers_fire_on_time_witness : exists ts',
  ticks home_ex 3 2 tq_ex = Ret tt (Tq ts' 20 ([] ++ map (called home_ex fa_ex) (due (Z.of_nat 3) [(1, 2)]))) /\
  tqrep home_ex (-100) ts' (passed (Z.of_nat 3) (later (Z.of_nat 3) [(1, 2)])) fa_ex.
Proof.
  apply (timers_fire_on_time home_ex (-100) fa_ex 2 3 [(1, 2)] tq_ex tqrep_ex);
    [apply Forall_singleton; simpl; lia|simpl; lia].
Defined.
