(* ===== verification/Bytes.v ===== *)
(** Bytes of memory: big-endian integers in a list of bytes, and the
    canonical (on-disk) byte order.

    Structures that go to disk are lists of bytes here, and a field is read or
    written at its offset as the Z8001 does, the most significant byte first.
    [canw] and [canl] are the two routines of libc/gen/canon.s behind the
    [can...] macros of kernel/z8001/h/canon.h; [l3tol] and [ltol3] are
    libc/gen/l3tol.c and ltol3.c. *)
From S2P Require Import Prelude.
Local Open Scope Z_scope.

(** ** Stretches of a list *)

Definition sub {A} (l : list A) (o n : nat) : list A := take n (drop o l).
Definition upd {A} (l : list A) (o : nat) (bs : list A) : list A :=
  take o l ++ bs ++ drop (o + length bs) l.

Lemma repeat_replicate {A} (a : A) n : repeat a n = replicate n a.
Proof. induction n as [|n IH]; [done|]. simpl. by rewrite IH. Qed.

Definition isbyte (b : Z) : Prop := 0 <= b < 256.
Definition arebytes (l : list Z) : Prop := Forall isbyte l.

(** Big-endian integers. *)
Fixpoint be (bs : list Z) : Z :=
  match bs with [] => 0 | b :: bs => b * 256 ^ Z.of_nat (length bs) + be bs end.
Fixpoint unbe (n : nat) (v : Z) : list Z :=
  match n with O => [] | S n => (v / 256 ^ Z.of_nat n) mod 256 :: unbe n v end.

(** Fields: 16 and 32 bits, signed or not. *)
Definition get16 (l : list Z) (o : nat) : Z := be (sub l o 2).
Definition get32 (l : list Z) (o : nat) : Z := be (sub l o 4).
Definition put16 (l : list Z) (o : nat) (v : Z) : list Z := upd l o (unbe 2 (u16 v)).
Definition put32 (l : list Z) (o : nat) (v : Z) : list Z := upd l o (unbe 4 (u32 v)).

(** [_canw]: exchange the bytes of a word; [_canl]: of each word of a long. *)
Definition canw (i : Z) : Z :=
  let i := u16 i in s16 (i mod 256 * 256 + i / 256).
Definition canl (l : Z) : Z :=
  let l := u32 l in s32 (u16 (canw (l / 65536)) * 65536 + u16 (canw (l mod 65536))).

(** Three-byte disk addresses. *)
Fixpoint l3tol (cp : list Z) (nl : nat) {struct nl} : list Z :=
  match nl, cp with
  | S nl, c0 :: c1 :: c2 :: cp =>
    s32 (Z.lor (Z.lor (Z.shiftl c0 16) c1) (Z.shiftl c2 8)) :: l3tol cp nl
  | _, _ => []
  end.
Fixpoint ltol3 (lp : list Z) (nl : nat) {struct nl} : list Z :=
  match nl, lp with
  | S nl, l :: lp => u8 (Z.shiftr l 16) :: u8 l :: u8 (Z.shiftr l 8) :: ltol3 lp nl
  | _, _ => []
  end.

(** ** Stretches *)

Lemma length_upd {A} (l : list A) o bs : (o + length bs <= length l)%nat -> length (upd l o bs) = length l.
Proof. intros H. unfold upd. rewrite !length_app, length_take, length_drop. lia. Qed.

Lemma length_sub {A} (l : list A) o n : (o + n <= length l)%nat -> length (sub l o n) = n.
Proof. intros H. unfold sub. rewrite length_take, length_drop. lia. Qed.

Lemma sub_whole {A} (l : list A) n : n = length l -> sub l 0 n = l.
Proof. intros ->. unfold sub. rewrite drop_0. apply take_ge. lia. Qed.

Lemma lookup_sub {A} (l : list A) o n i : sub l o n !! i = if decide (i < n)%nat then l !! (o + i)%nat else None.
Proof.
  unfold sub. destruct (decide (i < n)%nat).
  - by rewrite lookup_take_lt, lookup_drop by lia.
  - by rewrite lookup_take_ge by lia.
Qed.

Lemma lookup_upd {A} (l : list A) o bs i : (o + length bs <= length l)%nat ->
  upd l o bs !! i = if decide (o <= i < o + length bs)%nat then bs !! (i - o)%nat else l !! i.
Proof.
  intros H. unfold upd. destruct (decide (i < o)%nat) as [Hlt|Hge].
  - rewrite lookup_app_l by (rewrite length_take; lia). rewrite lookup_take_lt by lia.
    by rewrite decide_False by lia.
  - rewrite lookup_app_r by (rewrite length_take; lia). rewrite length_take, Nat.min_l by lia.
    destruct (decide (i < o + length bs)%nat).
    + rewrite lookup_app_l by lia. by rewrite decide_True by lia.
    + rewrite lookup_app_r, lookup_drop by lia. rewrite decide_False by lia. f_equal. lia.
Qed.

Lemma sub_upd_same {A} (l : list A) o bs : (o + length bs <= length l)%nat -> sub (upd l o bs) o (length bs) = bs.
Proof.
  intros H. apply list_eq. intros i. rewrite lookup_sub, lookup_upd by done.
  destruct (decide (i < length bs)%nat).
  - rewrite decide_True by lia. f_equal. lia.
  - symmetry. apply lookup_ge_None. lia.
Qed.

Lemma sub_upd_other {A} (l : list A) o bs o' n : (o + length bs <= length l)%nat ->
  (o' + n <= o \/ o + length bs <= o')%nat -> sub (upd l o bs) o' n = sub l o' n.
Proof.
  intros H Hd. apply list_eq. intros i. rewrite !lookup_sub, lookup_upd by done.
  destruct (decide (i < n)%nat); [|done]. by rewrite decide_False by lia.
Qed.

Lemma upd_bytes l o bs : arebytes l -> arebytes bs -> arebytes (upd l o bs).
Proof.
  intros Hl Hb. unfold upd, arebytes. rewrite !Forall_app. split; [by apply Forall_take|].
  split; [done|by apply Forall_drop].
Qed.

Lemma sub_bytes l o n : arebytes l -> arebytes (sub l o n).
Proof. intros. by apply Forall_take, Forall_drop. Qed.

(** ** Big-endian integers *)

Lemma length_unbe n v : length (unbe n v) = n.
Proof. induction n; simpl; congruence. Qed.

Lemma unbe_bytes n v : arebytes (unbe n v).
Proof.
  induction n; simpl; constructor; [|done]. unfold isbyte. apply Z.mod_pos_bound. lia.
Qed.

Lemma be_range bs : arebytes bs -> 0 <= be bs < 256 ^ Z.of_nat (length bs).
Proof.
  induction 1 as [|b bs Hb _ IH]; cbn [be length]; [simpl; lia|].
  rewrite Nat2Z.inj_succ, Z.pow_succ_r by lia. unfold isbyte in Hb. nia.
Qed.

Lemma be_unbe n v : be (unbe n v) = v mod 256 ^ Z.of_nat n.
Proof.
  induction n as [|n IH]; [by rewrite Z.mod_1_r|].
  cbn [unbe be]. rewrite length_unbe, IH, Nat2Z.inj_succ, Z.pow_succ_r by lia.
  assert (0 < 256 ^ Z.of_nat n) as Hp by (apply Z.pow_pos_nonneg; lia).
  rewrite (Z.mul_comm 256), Z.rem_mul_r by lia. lia.
Qed.

Lemma unbe_be bs : arebytes bs -> unbe (length bs) (be bs) = bs.
Proof.
  induction 1 as [|b bs Hb Hbs IH]; [done|]. cbn [length unbe be].
  pose proof (be_range bs Hbs) as Hr. unfold isbyte in Hb.
  assert (0 < 256 ^ Z.of_nat (length bs)) as Hp by lia.
  f_equal.
  - rewrite Z.add_comm, Z.div_add, Z.div_small by lia. rewrite Z.mod_small; lia.
  - assert (forall n k, (n <= length bs)%nat -> unbe n (k * 256 ^ Z.of_nat (length bs) + be bs) = unbe n (be bs)) as Hgen; [|by rewrite Hgen].
    induction n as [|n IHn]; intros k Hn; [done|]. simpl. rewrite IHn by lia. f_equal.
    replace (Z.of_nat (length bs)) with (Z.of_nat n + (Z.of_nat (length bs - n - 1) + 1)) by lia.
    rewrite !Z.pow_add_r, Z.pow_1_r by lia.
    assert (0 < 256 ^ Z.of_nat n) by (apply Z.pow_pos_nonneg; lia).
    replace (k * (256 ^ Z.of_nat n * (256 ^ Z.of_nat (length bs - n - 1) * 256)) + be bs)
      with (be bs + (k * 256 ^ Z.of_nat (length bs - n - 1) * 256) * 256 ^ Z.of_nat n) by ring.
    rewrite Z.div_add by lia. rewrite Z.mod_add by lia. done.
Qed.

Lemma get16_range l o : arebytes l -> 0 <= get16 l o < 65536.
Proof.
  intros Hl. unfold get16. pose proof (be_range (sub l o 2) (sub_bytes _ _ _ Hl)) as H.
  assert (length (sub l o 2) <= 2)%nat as Hn by (unfold sub; rewrite length_take; lia).
  assert (256 ^ Z.of_nat (length (sub l o 2)) <= 256 ^ 2) by (apply Z.pow_le_mono_r; lia). lia.
Qed.

Lemma get32_range l o : arebytes l -> 0 <= get32 l o < 4294967296.
Proof.
  intros Hl. unfold get32. pose proof (be_range (sub l o 4) (sub_bytes _ _ _ Hl)) as H.
  assert (length (sub l o 4) <= 4)%nat as Hn by (unfold sub; rewrite length_take; lia).
  assert (256 ^ Z.of_nat (length (sub l o 4)) <= 256 ^ 4) by (apply Z.pow_le_mono_r; lia). lia.
Qed.

Lemma length_put16 l o v : (o + 2 <= length l)%nat -> length (put16 l o v) = length l.
Proof. intros. apply length_upd. by rewrite length_unbe. Qed.
Lemma length_put32 l o v : (o + 4 <= length l)%nat -> length (put32 l o v) = length l.
Proof. intros. apply length_upd. by rewrite length_unbe. Qed.
Lemma put16_bytes l o v : arebytes l -> arebytes (put16 l o v).
Proof. intros. apply upd_bytes; [done|apply unbe_bytes]. Qed.
Lemma put32_bytes l o v : arebytes l -> arebytes (put32 l o v).
Proof. intros. apply upd_bytes; [done|apply unbe_bytes]. Qed.

Lemma get16_put16 l o v : (o + 2 <= length l)%nat -> get16 (put16 l o v) o = u16 v.
Proof.
  intros H. unfold get16, put16. rewrite <- (length_unbe 2 (u16 v)) at 2.
  rewrite sub_upd_same by (by rewrite length_unbe). rewrite be_unbe.
  apply Z.mod_small. apply u16_range.
Qed.
Lemma get32_put32 l o v : (o + 4 <= length l)%nat -> get32 (put32 l o v) o = u32 v.
Proof.
  intros H. unfold get32, put32. rewrite <- (length_unbe 4 (u32 v)) at 2.
  rewrite sub_upd_same by (by rewrite length_unbe). rewrite be_unbe.
  apply Z.mod_small. apply u32_range.
Qed.
Lemma sub_put16 l o v o' n : (o + 2 <= length l)%nat -> (o' + n <= o \/ o + 2 <= o')%nat ->
  sub (put16 l o v) o' n = sub l o' n.
Proof. intros. apply sub_upd_other; by rewrite length_unbe. Qed.
Lemma sub_put32 l o v o' n : (o + 4 <= length l)%nat -> (o' + n <= o \/ o + 4 <= o')%nat ->
  sub (put32 l o v) o' n = sub l o' n.
Proof. intros. apply sub_upd_other; by rewrite length_unbe. Qed.

(** ** The canonical order *)

Lemma u16_canw i : u16 (canw i) = u16 i mod 256 * 256 + u16 i / 256.
Proof.
  unfold canw. rewrite u16_s16. apply u16_small. pose proof (u16_range i).
  Z.to_euclidean_division_equations. lia.
Qed.

Lemma canw_canw i : canw (canw i) = s16 i.
Proof.
  unfold canw at 1. rewrite u16_canw. rewrite <- (s16_u16 i). f_equal. pose proof (u16_range i).
  Z.to_euclidean_division_equations. lia.
Qed.

Lemma u32_canl l : u32 (canl l) = u16 (canw (u32 l / 65536)) * 65536 + u16 (canw (u32 l mod 65536)).
Proof.
  unfold canl. rewrite u32_s32. apply u32_small.
  pose proof (u16_range (canw (u32 l / 65536))). pose proof (u16_range (canw (u32 l mod 65536))). lia.
Qed.

Lemma u16_canw_u16 i : u16 (canw (u16 (canw i))) = u16 i.
Proof.
  rewrite (u16_canw (u16 _)), u16_u16, u16_canw. pose proof (u16_range i).
  Z.to_euclidean_division_equations. lia.
Qed.

Lemma canl_canl l : canl (canl l) = s32 l.
Proof.
  unfold canl at 1. rewrite u32_canl. set (h := u16 (canw (u32 l / 65536))). set (k := u16 (canw (u32 l mod 65536))).
  pose proof (u16_range (canw (u32 l / 65536))) as Hh. fold h in Hh.
  pose proof (u16_range (canw (u32 l mod 65536))) as Hk. fold k in Hk.
  rewrite Z.div_add_l, (Z.div_small k), Z.add_0_r by lia.
  rewrite (Z.add_comm (h * 65536)), Z.mod_add, (Z.mod_small k) by lia.
  unfold h, k. rewrite !u16_canw_u16, <- (s32_u32 l). f_equal.
  pose proof (u32_range l). rewrite !u16_small; Z.to_euclidean_division_equations; lia.
Qed.

(** ** Disk addresses in three bytes *)

Definition addr24 (l : Z) : Prop := 0 <= l < 16777216.

Lemma l3tol_cons c0 c1 c2 cp nl : isbyte c0 -> isbyte c1 -> isbyte c2 ->
  l3tol (c0 :: c1 :: c2 :: cp) (S nl) = c0 * 65536 + c2 * 256 + c1 :: l3tol cp nl.
Proof.
  unfold isbyte. intros H0 H1 H2. cbn [l3tol]. f_equal.
  rewrite !Z.shiftl_mul_pow2, <- Z.lor_assoc, (Z.lor_comm c1) by lia.
  rewrite (lor_high_low c2 c1 8) by lia. change (2 ^ 8) with 256.
  rewrite (lor_high_low c0 _ 16) by (change (2 ^ 16) with 65536; lia). change (2 ^ 16) with 65536.
  rewrite s32_small by lia. lia.
Qed.

Lemma ltol3_cons l lp nl : addr24 l ->
  ltol3 (l :: lp) (S nl) = l / 65536 :: l mod 256 :: (l / 256) mod 256 :: ltol3 lp nl.
Proof.
  unfold addr24. intros Hl. cbn [ltol3]. rewrite !Z.shiftr_div_pow2 by lia.
  change (2 ^ 16) with 65536. change (2 ^ 8) with 256. f_equal.
  apply u8_small. Z.to_euclidean_division_equations. lia.
Qed.

Lemma l3tol_ltol3 lp : forall rest, Forall addr24 lp ->
  l3tol (ltol3 lp (length lp) ++ rest) (length lp) = lp.
Proof.
  induction lp as [|l lp IH]; intros rest Hf; [done|]. apply Forall_cons in Hf as [Hl Hf].
  cbn [length]. rewrite ltol3_cons by done. cbn [app].
  unfold addr24 in Hl. rewrite l3tol_cons by (unfold isbyte; Z.to_euclidean_division_equations; lia).
  rewrite IH by done. f_equal. Z.to_euclidean_division_equations. lia.
Qed.

Lemma ltol3_bytes lp nl : arebytes (ltol3 lp nl).
Proof.
  revert lp. induction nl as [|nl IH]; intros [|l lp]; cbn [ltol3]; try constructor;
    [apply u8_range|]. constructor; [apply u8_range|]. constructor; [apply u8_range|apply IH].
Qed.

Lemma length_ltol3 lp : length (ltol3 lp (length lp)) = (3 * length lp)%nat.
Proof. induction lp as [|l lp IH]; [done|]. cbn [length ltol3]. rewrite IH. lia. Qed.

Lemma l3tol_addr24 cp nl : arebytes cp -> Forall addr24 (l3tol cp nl).
Proof.
  revert cp. induction nl as [|nl IH]; intros cp Hb; [constructor|].
  destruct cp as [|c0 [|c1 [|c2 cp]]]; try (cbn [l3tol]; constructor; fail).
  apply Forall_cons in Hb as [H0 Hb]. apply Forall_cons in Hb as [H1 Hb]. apply Forall_cons in Hb as [H2 Hb].
  rewrite l3tol_cons by done. constructor; [|by apply IH]. unfold addr24, isbyte in *. lia.
Qed.

(** ** Canonical fields *)

Definition enc16 (v : Z) : list Z := unbe 2 (u16 (canw v)).
Definition enc32 (v : Z) : list Z := unbe 4 (u32 (canl v)).
Definition dec16 (l : list Z) (o : nat) : Z := canw (get16 l o).
Definition dec32 (l : list Z) (o : nat) : Z := canl (get32 l o).

(** Arrays of words and longs in memory order. *)
Fixpoint longs (l : list Z) (o n : nat) : list Z :=
  match n with O => [] | S n => s32 (get32 l o) :: longs l (o + 4) n end.
Definition unlongs (v : list Z) : list Z := concat (map (fun x => unbe 4 (u32 x)) v).

Lemma sub_app_r {A} (l1 l2 : list A) o n k : k = length l1 -> (k <= o)%nat -> sub (l1 ++ l2) o n = sub l2 (o - k) n.
Proof. intros -> H. unfold sub. rewrite drop_app_ge by done. done. Qed.
Lemma sub_app_l {A} (l1 l2 : list A) n : n = length l1 -> sub (l1 ++ l2) 0 n = l1.
Proof. intros ->. unfold sub. rewrite drop_0. apply take_app_length. Qed.

Lemma canw_u16 i : canw (u16 i) = canw i.
Proof. unfold canw. by rewrite u16_u16. Qed.
Lemma canl_u32 i : canl (u32 i) = canl i.
Proof. unfold canl. by rewrite u32_u32. Qed.

Lemma be_enc16 v : canw (be (enc16 v)) = s16 v.
Proof.
  unfold enc16. rewrite be_unbe. rewrite Z.mod_small by apply u16_range. by rewrite canw_u16, canw_canw.
Qed.
Lemma be_enc32 v : canl (be (enc32 v)) = s32 v.
Proof.
  unfold enc32. rewrite be_unbe. rewrite Z.mod_small by apply u32_range. by rewrite canl_u32, canl_canl.
Qed.

Lemma enc16_bytes v : arebytes (enc16 v).
Proof. apply unbe_bytes. Qed.
Lemma enc32_bytes v : arebytes (enc32 v).
Proof. apply unbe_bytes. Qed.
Lemma unlongs_bytes v : arebytes (unlongs v).
Proof.
  induction v as [|x v IH]; [constructor|]. unfold unlongs in *. cbn [map concat].
  apply Forall_app. split; [apply unbe_bytes|done].
Qed.
Lemma length_unlongs v : length (unlongs v) = (4 * length v)%nat.
Proof.
  induction v as [|x v IH]; [done|]. unfold unlongs in *. cbn [map concat length].
  rewrite length_app, length_unbe, IH. lia.
Qed.

Lemma longs_app l1 l2 o n k : k = length l1 -> (k <= o)%nat -> longs (l1 ++ l2) o n = longs l2 (o - k) n.
Proof.
  intros ->. revert o. induction n as [|n IH]; intros o Ho; [done|]. cbn [longs].
  unfold get32. rewrite (sub_app_r l1 l2 o 4 (length l1)) by done. rewrite IH by lia. do 2 f_equal. lia.
Qed.

Lemma longs_unlongs v rest : longs (unlongs v ++ rest) 0 (length v) = map s32 v.
Proof.
  induction v as [|x v IH]; [done|]. cbn [length longs map]. unfold unlongs. cbn [map concat].
  rewrite <- app_assoc. fold (unlongs v). f_equal.
  - unfold get32. rewrite sub_app_l by (by rewrite length_unbe). rewrite be_unbe.
    rewrite Z.mod_small by apply u32_range. apply s32_u32.
  - rewrite longs_app with (k := 4%nat) by (rewrite ?length_unbe; lia). exact IH.
Qed.

(** Fields of a list of bytes given as a concatenation. *)
Ltac fields := repeat first
  [ rewrite sub_app_l by (rewrite ?length_unbe; reflexivity)
  | erewrite sub_app_r; [|rewrite ?length_unbe, ?length_unlongs; reflexivity|cbn [length]; lia] ].

Lemma sub_sub {A} (l : list A) o n o' n' : (o' + n' <= n)%nat -> sub (sub l o n) o' n' = sub l (o + o') n'.
Proof.
  intros H. apply list_eq. intros i. rewrite !lookup_sub. destruct (decide (i < n')%nat); [|done].
  rewrite decide_True by lia. f_equal. lia.
Qed.

Lemma longs_sub l o n k : (4 * n <= k)%nat -> forall o', (o' + 4 * n <= k)%nat -> longs (sub l o k) o' n = longs l (o + o') n.
Proof.
  intros Hk. induction n as [|n IH]; intros o' Ho; [done|]. cbn [longs]. unfold get32. rewrite sub_sub by lia.
  rewrite IH by lia. do 2 f_equal. lia.
Qed.
