(* ===== verification/Bcache.v ===== *)
(** The interface of the buffer cache.

    [BufCache] is what the file system calls: [bread] (synchronous), [bclaim],
    [bwrite], [brelease], and access to the data and the [BFMOD] flag of a
    buffer it holds.  A handle is the index of a buffer header.  An operation
    that would wait for ever gives no result.

    [BufCacheLaws] states what the cache promises in terms of a [bview]: the
    contents of every block of every device, and the buffers held with their
    data.  The contents of a block on which the device fails are not
    promised.  [acache] is the specification itself as a cache. *)
From S2P Require Import Prelude.
Local Open Scope Z_scope.

Definition BSIZE : Z := 512.
Definition NODEV : Z := 65535.
Definition EIO : Z := 5.

Definition bkey : Type := (Z * Z)%type.     (* device, block number *)

(** A buffer that is held: its block, whether it was marked modified, and its data. *)
Record hbuf := Hbuf { h_key : bkey; h_mod : bool; h_data : list Z }.

Record bview := View {
  v_blk : bkey -> list Z;
  v_held : gmap nat hbuf;
  v_good : bkey -> bool
}.

Class BufCache (C : Type) := {
  c_bread : Z -> Z -> C -> option (option nat * Z * C);   (* bread(dev, bno, 1), with the error it sets or 0 *)
  c_breada : Z -> Z -> C -> option C;                 (* bread(dev, bno, 0) *)
  c_bclaim : Z -> Z -> C -> option (nat * C);
  c_bwrite : nat -> C -> option C;                    (* bwrite(bp, 1) *)
  c_bawrite : nat -> C -> option C;                   (* bwrite(bp, 0) *)
  c_brelease : nat -> C -> option C;
  c_vaddr : nat -> C -> list Z;
  c_store : nat -> list Z -> C -> C;
  c_setmod : nat -> C -> C
}.

Definition put_held (h : nat) (b : hbuf) (v : bview) : bview :=
  View (v_blk v) (<[h := b]> (v_held v)) (v_good v).
Definition drop_held (h : nat) (v : bview) : bview :=
  View (v_blk v) (delete h (v_held v)) (v_good v).
Definition put_blk (k : bkey) (d : list Z) (v : bview) : bview :=
  View (fun k' => if decide (k' = k) then d else v_blk v k') (v_held v) (v_good v).

(** No buffer for this block is held. *)
Definition unheld (k : bkey) (v : bview) : Prop := forall h b, v_held v !! h = Some b -> h_key b <> k.

(** The number of buffers a process may hold at once. *)
Definition NHOLD : nat := 8.
Definition room (v : bview) : Prop := (size (v_held v) < NHOLD)%nat.

(** What becomes of a buffer that is released: written blocks keep their data;
    one that was marked modified must be of a device that works, and one that
    was not must not have been changed. *)
Definition releasable (v : bview) (b : hbuf) : Prop :=
  if h_mod b then v_good v (h_key b) = true else h_data b = v_blk v (h_key b) \/ (h_key b).1 = NODEV.
Definition released (b : hbuf) (v : bview) : bview :=
  if h_mod b then put_blk (h_key b) (h_data b) v else v.

Class BufCacheLaws (C : Type) `{BufCache C} := {
  c_rep : C -> bview -> Prop;
  bread_law c v dev bno : c_rep c v -> unheld (dev, bno) v -> room v ->
    v_good v (dev, bno) = true -> dev <> NODEV ->
    exists h c', c_bread dev bno c = Some (Some h, 0, c') /\ v_held v !! h = None /\
      c_rep c' (put_held h (Hbuf (dev, bno) false (v_blk v (dev, bno))) v);
  breada_law c v dev bno : c_rep c v -> unheld (dev, bno) v -> room v -> v_good v (dev, bno) = true -> dev <> NODEV ->
    exists c', c_breada dev bno c = Some c' /\ c_rep c' v;
  bclaim_law c v dev bno : c_rep c v -> unheld (dev, bno) v -> room v ->
    exists h c' d, c_bclaim dev bno c = Some (h, c') /\ v_held v !! h = None /\ Z.of_nat (length d) = BSIZE /\
      c_rep c' (put_held h (Hbuf (dev, bno) false d) v);
  bwrite_law c v h b : c_rep c v -> v_held v !! h = Some b -> v_good v (h_key b) = true -> (h_key b).1 <> NODEV ->
    exists c', c_bwrite h c = Some c' /\
      c_rep c' (put_blk (h_key b) (h_data b) (put_held h (Hbuf (h_key b) false (h_data b)) v));
  bawrite_law c v h b : c_rep c v -> v_held v !! h = Some b -> v_good v (h_key b) = true -> (h_key b).1 <> NODEV ->
    exists c', c_bawrite h c = Some c' /\ c_rep c' (drop_held h (put_blk (h_key b) (h_data b) v));
  brelease_law c v h b : c_rep c v -> v_held v !! h = Some b -> releasable v b ->
    exists c', c_brelease h c = Some c' /\ c_rep c' (drop_held h (released b v));
  vaddr_law c v h b : c_rep c v -> v_held v !! h = Some b -> c_vaddr h c = h_data b;
  store_law c v h b d : c_rep c v -> v_held v !! h = Some b -> Z.of_nat (length d) = BSIZE ->
    c_rep (c_store h d c) (put_held h (Hbuf (h_key b) (h_mod b) d) v);
  setmod_law c v h b : c_rep c v -> v_held v !! h = Some b ->
    c_rep (c_setmod h c) (put_held h (Hbuf (h_key b) true (h_data b)) v)
}.

(** ** The specification as a cache *)

Record acache := Acache { a_view : bview }.

Definition a_fresh (v : bview) : nat := fresh (dom (v_held v) : gset nat).

#[export] Instance acache_cache : BufCache acache := {
  c_bread dev bno c :=
    let v := a_view c in
    if v_good v (dev, bno)
    then Some (Some (a_fresh v), 0, Acache (put_held (a_fresh v) (Hbuf (dev, bno) false (v_blk v (dev, bno))) v))
    else Some (None, EIO, c);
  c_breada dev bno c := Some c;
  c_bclaim dev bno c :=
    let v := a_view c in
    Some (a_fresh v, Acache (put_held (a_fresh v) (Hbuf (dev, bno) false (repeat 0 (Z.to_nat BSIZE))) v));
  c_bwrite h c :=
    let v := a_view c in
    b ← v_held v !! h;
    Some (Acache (put_blk (h_key b) (h_data b) (put_held h (Hbuf (h_key b) false (h_data b)) v)));
  c_bawrite h c :=
    let v := a_view c in
    b ← v_held v !! h;
    Some (Acache (drop_held h (put_blk (h_key b) (h_data b) v)));
  c_brelease h c :=
    let v := a_view c in
    b ← v_held v !! h;
    Some (Acache (drop_held h (released b v)));
  c_vaddr h c := from_option h_data [] (v_held (a_view c) !! h);
  c_store h d c :=
    let v := a_view c in
    match v_held v !! h with
    | Some b => Acache (put_held h (Hbuf (h_key b) (h_mod b) d) v)
    | None => c
    end;
  c_setmod h c :=
    let v := a_view c in
    match v_held v !! h with
    | Some b => Acache (put_held h (Hbuf (h_key b) true (h_data b)) v)
    | None => c
    end
}.

Lemma a_fresh_spec v : v_held v !! a_fresh v = None.
Proof. unfold a_fresh. apply not_elem_of_dom. exact (is_fresh (dom (v_held v) : gset nat)). Qed.

#[export, refine] Instance acache_laws : BufCacheLaws acache := {
  c_rep c v := a_view c = v
}.
Proof.
  - intros c v dev bno <- _ _ Hg _. simpl. rewrite Hg. do 2 eexists. split; [done|].
    split; [apply a_fresh_spec|done].
  - intros c v dev bno <- _ _ _ _. simpl. eauto.
  - intros c v dev bno <- _ _. eexists _, _, (repeat 0 (Z.to_nat BSIZE)). split; [reflexivity|]. split; [apply a_fresh_spec|]. split; [reflexivity|done].
  - intros c v h b <- Hh _ _. simpl. rewrite Hh. simpl. eauto.
  - intros c v h b <- Hh _ _. simpl. rewrite Hh. simpl. eauto.
  - intros c v h b <- Hh _. simpl. rewrite Hh. simpl. eauto.
  - intros c v h b <- Hh. simpl. by rewrite Hh.
  - intros c v h b d <- Hh _. simpl. by rewrite Hh.
  - intros c v h b <- Hh. simpl. by rewrite Hh.
Defined.

(** ** Views *)

Lemma drop_put h b v : v_held v !! h = None -> drop_held h (put_held h b v) = v.
Proof. intros Hh. unfold drop_held, put_held. simpl. rewrite delete_insert_id by done. by destruct v. Qed.

Lemma put_put h b b' v : put_held h b' (put_held h b v) = put_held h b' v.
Proof. unfold put_held. simpl. by rewrite insert_insert_eq. Qed.

Lemma held_put h b v : v_held (put_held h b v) !! h = Some b.
Proof. apply lookup_insert_eq. Qed.

(** Two views that differ only in one block of a device. *)
Definition same_but (k : bkey) (v v' : bview) : Prop :=
  v_held v' = v_held v /\ v_good v' = v_good v /\ forall k', k' <> k -> v_blk v' k' = v_blk v k'.

Lemma same_but_refl k v : same_but k v v.
Proof. done. Qed.
Lemma same_but_trans k v1 v2 v3 : same_but k v1 v2 -> same_but k v2 v3 -> same_but k v1 v3.
Proof. intros (H1 & G1 & B1) (H2 & G2 & B2). split; [congruence|]. split; [congruence|]. intros. rewrite B2, B1; done. Qed.
Lemma same_but_put k d v : same_but k v (put_blk k d v).
Proof. split; [done|]. split; [done|]. intros k' Hk. simpl. by rewrite decide_False. Qed.

Lemma blk_put k d v : v_blk (put_blk k d v) k = d.
Proof. simpl. by rewrite decide_True. Qed.
Lemma blk_put_ne k k' d v : k' <> k -> v_blk (put_blk k d v) k' = v_blk v k'.
Proof. intros. simpl. by rewrite decide_False. Qed.
