(* ===== verification/Bio.v ===== *)
(** Buffered I/O (kernel/coh/bio.c): the buffer cache and the device switch.

    The procedures are written as the kernel has them, with [sleep] where they
    wait.  The device is a driver with a queue: [dblock] appends the buffer to
    [pending], and at an interrupt the driver completes some of the requests,
    which ones being decided by [sched], an arbitrary list of choices.
    Interrupts come where they are enabled: before a step of [bclaim], when
    [spl] turns them on again, and in every [sleep].  [bio_cache] runs the
    procedures to their end as a [BufCache]: a [sleep] lasts until the device
    completes a request, and one for which there is none lasts for ever.

    Each device block is good, faulty ([BFERR] is set) or transfers nothing
    (beyond the end); a good transfer leaves a [b_resid] of 0.  The memory
    mapping of a buffer is not modelled beyond [BFMAP]: [b_data] is what its
    512 bytes of memory hold. *)
From S2P Require Import Prelude Sched Bcache.
Local Open Scope Z_scope.
Local Open Scope kernel_scope.

Definition ENXIO : Z := 6.
Definition BFNTP : Z := 1.
Definition BFERR : Z := 4.
Definition BFMOD : Z := 8.
Definition BFASY : Z := 16.
Definition BFMAP : Z := 32.
Definition BREAD : Z := 1.
Definition BWRITE : Z := 2.
Definition NBUF : nat := 40.

(** kernel/h/buf.h; the queue links of the driver and the addresses of the
    memory are left out. *)
Record BUF := Buf {
  b_gate : bool;            (* gate *)
  b_flag : Z;               (* flags *)
  b_dev : Z;                (* device *)
  b_bno : Z;                (* block number *)
  b_req : Z;                (* I/O type *)
  b_err : Z;                (* error *)
  b_seqn : Z;               (* buffer sequence number, unsigned *)
  b_count : Z;              (* size of I/O *)
  b_resid : Z;              (* driver returns count here *)
  b_data : list Z           (* the memory of the buffer *)
}.
Definition set_b_gate v b := Buf v (b_flag b) (b_dev b) (b_bno b) (b_req b) (b_err b) (b_seqn b) (b_count b) (b_resid b) (b_data b).
Definition set_b_flag v b := Buf (b_gate b) v (b_dev b) (b_bno b) (b_req b) (b_err b) (b_seqn b) (b_count b) (b_resid b) (b_data b).
Definition set_b_dev v b := Buf (b_gate b) (b_flag b) v (b_bno b) (b_req b) (b_err b) (b_seqn b) (b_count b) (b_resid b) (b_data b).
Definition set_b_bno v b := Buf (b_gate b) (b_flag b) (b_dev b) v (b_req b) (b_err b) (b_seqn b) (b_count b) (b_resid b) (b_data b).
Definition set_b_req v b := Buf (b_gate b) (b_flag b) (b_dev b) (b_bno b) v (b_err b) (b_seqn b) (b_count b) (b_resid b) (b_data b).
Definition set_b_seqn v b := Buf (b_gate b) (b_flag b) (b_dev b) (b_bno b) (b_req b) (b_err b) v (b_count b) (b_resid b) (b_data b).
Definition set_b_count v b := Buf (b_gate b) (b_flag b) (b_dev b) (b_bno b) (b_req b) (b_err b) (b_seqn b) v (b_resid b) (b_data b).
Definition set_b_resid v b := Buf (b_gate b) (b_flag b) (b_dev b) (b_bno b) (b_req b) (b_err b) (b_seqn b) (b_count b) v (b_data b).
Definition set_b_data v b := Buf (b_gate b) (b_flag b) (b_dev b) (b_bno b) (b_req b) (b_err b) (b_seqn b) (b_count b) (b_resid b) v.

(** [bp->b_flag & f], [bp->b_flag |= f] and [bp->b_flag &= ~f]. *)
Definition on (b : BUF) (f : Z) : bool := negb (Z.land (b_flag b) f =? 0).
Definition raise (f : Z) (b : BUF) : BUF := set_b_flag (Z.lor (b_flag b) f) b.
Definition clr (f : Z) (b : BUF) : BUF := set_b_flag (Z.land (b_flag b) (Z.lnot f)) b.

(** kernel/h/drvcon.h; [d_conp] tells whether there is a driver. *)
Record DRV := Drv { d_conp : bool; d_map : Z; d_gate : bool }.

Inductive dres := Good | Faulty | Nothing.

Record bio := Bio {
  bufl : list BUF;
  bufseqn : Z;
  bufneed : Z;
  drvl : list DRV;
  dmap : Z;                        (* the driver map in use *)
  u_error : Z;
  u_block : Z;
  disk : bkey -> list Z;           (* the devices *)
  d_res : bkey -> dres;
  pending : list nat;              (* the requests of the driver *)
  sched : list (list nat)          (* what the next interrupts complete *)
}.
Definition set_bufl v s := Bio v (bufseqn s) (bufneed s) (drvl s) (dmap s) (u_error s) (u_block s) (disk s) (d_res s) (pending s) (sched s).
Definition set_bufseqn v s := Bio (bufl s) v (bufneed s) (drvl s) (dmap s) (u_error s) (u_block s) (disk s) (d_res s) (pending s) (sched s).
Definition set_bufneed v s := Bio (bufl s) (bufseqn s) v (drvl s) (dmap s) (u_error s) (u_block s) (disk s) (d_res s) (pending s) (sched s).
Definition set_dmap v s := Bio (bufl s) (bufseqn s) (bufneed s) (drvl s) v (u_error s) (u_block s) (disk s) (d_res s) (pending s) (sched s).
Definition set_u_error v s := Bio (bufl s) (bufseqn s) (bufneed s) (drvl s) (dmap s) v (u_block s) (disk s) (d_res s) (pending s) (sched s).
Definition set_u_block v s := Bio (bufl s) (bufseqn s) (bufneed s) (drvl s) (dmap s) (u_error s) v (disk s) (d_res s) (pending s) (sched s).
Definition set_disk v s := Bio (bufl s) (bufseqn s) (bufneed s) (drvl s) (dmap s) (u_error s) (u_block s) v (d_res s) (pending s) (sched s).
Definition set_pending v s := Bio (bufl s) (bufseqn s) (bufneed s) (drvl s) (dmap s) (u_error s) (u_block s) (disk s) (d_res s) v (sched s).
Definition set_sched v s := Bio (bufl s) (bufseqn s) (bufneed s) (drvl s) (dmap s) (u_error s) (u_block s) (disk s) (d_res s) (pending s) v.

Definition updb (i : nat) (f : BUF -> BUF) (s : bio) : bio := set_bufl (alter f i (bufl s)) s.

Definition bsmap : BUF -> BUF := raise BFMAP.
Definition bumap (b : BUF) : BUF := if on b BFMAP then clr BFMAP b else b.

(** ** Completion *)

Definition brelease_s (i : nat) (s : bio) : bio :=
  let s := match bufl s !! i with
           | Some bp => if on bp BFERR then updb i (fun b => set_b_dev NODEV (clr BFERR b)) s
                        else set_bufseqn (u16 (bufseqn s + 1)) (updb i (set_b_seqn (bufseqn s)) s)
           | None => s
           end in
  let s := updb i (clr BFNTP) s in
  let s := updb i bumap s in
  let s := updb i (set_b_gate false) s in
  if bufneed s =? 0 then s else set_bufneed 0 s.

Definition bdone (i : nat) (s : bio) : bio :=
  let s := updb i (fun b => if b_req b =? BWRITE then clr BFMOD b else b) s in
  let s := updb i (fun b => if b_req b =? BREAD then if on b BFERR then set_b_dev NODEV b else b else b) s in
  let s := match bufl s !! i with
           | Some bp => if on bp BFASY then brelease_s i (updb i (clr BFASY) s) else s
           | None => s
           end in
  updb i (clr BFNTP) s.

(** The driver carries out a request and calls [bdone]. *)
Definition transfer (i : nat) (s : bio) : bio :=
  match bufl s !! i with
  | None => s
  | Some bp =>
    let k := (b_dev bp, b_bno bp) in
    bdone i (match d_res s k with
      | Good => updb i (set_b_resid 0)
          (if b_req bp =? BREAD then updb i (set_b_data (disk s k)) s
           else set_disk (fun k' => if decide (k' = k) then b_data bp else disk s k') s)
      | Faulty => updb i (raise BFERR) s
      | Nothing => updb i (set_b_resid BSIZE) s
      end)
  end.

(** Some request of the queue is completed; interrupts complete several. *)
Definition complete (s : bio) (c : nat) : bio :=
  let n := (c mod length (pending s))%nat in
  match pending s !! n with
  | Some i => transfer i (set_pending (delete n (pending s)) s)
  | None => s
  end.
Definition next (s : bio) : list nat * bio :=
  match sched s with [] => ([], s) | cs :: r => (cs, set_sched r s) end.
Definition interrupts (s : bio) : bio := let '(cs, s) := next s in fold_left complete cs s.
(** What happens during a sleep: at least one completion. *)
Definition progress (s : bio) : option bio :=
  match pending s with
  | [] => None
  | _ => let '(cs, s) := next s in Some (fold_left complete (match cs with [] => [0%nat] | _ => cs end) s)
  end.

(** ** The procedures *)

Definition getb (i : nat) : M bio BUF := s <- get ;; deref (bufl s !! i).
Definition putb (i : nat) (f : BUF -> BUF) : M bio unit := modify (updb i f).
(** [spl] and other places where an interrupt may come. *)
Definition spl : M bio unit := modify interrupts.
Definition waits : M bio nat := gets (fun s => S (length (pending s))).

Fixpoint lock_loop (n : nat) (i : nat) : M bio unit :=
  match n with
  | O => nofuel
  | S n => bp <- getb i ;; if b_gate bp then sleep (ChBuf i) ;;; lock_loop n i else putb i (set_b_gate true)
  end.
Definition lock (i : nat) : M bio unit := n <- waits ;; lock_loop n i.
Definition unlock (i : nat) : M bio unit := putb i (set_b_gate false).

(** [while ((bp->b_flag&BFNTP) != 0) sleep(bp, ...)]. *)
Fixpoint wait_loop (n : nat) (i : nat) : M bio unit :=
  match n with
  | O => nofuel
  | S n => bp <- getb i ;; if on bp BFNTP then sleep (ChBuf i) ;;; wait_loop n i else kret tt
  end.
Definition wait_io (i : nat) : M bio unit := n <- waits ;; wait_loop n i.

Definition major (dev : Z) : Z := Z.land (Z.shiftr dev 8) 255.
(** The configuration entry, whose map is loaded; the old map is returned. *)
Definition drvmap (dev : Z) : M bio (option Z) :=
  s <- get ;;
  match drvl s !! Z.to_nat (major dev) with
  | None => modify (set_u_error ENXIO) ;;; kret None
  | Some dp =>
    if d_gate dp then modify (set_u_error ENXIO) ;;; kret None
    else if negb (d_conp dp) then modify (set_u_error ENXIO) ;;; kret None
    else
      (if negb (d_map dp =? 0) then modify (set_dmap (d_map dp)) else kret tt) ;;;
      kret (Some (dmap s))
  end.

Definition dblock (dev : Z) (i : nat) : M bio unit :=
  r <- drvmap dev ;;
  match r with
  | None => kret tt
  | Some dold =>
    modify (fun s => set_pending (pending s ++ [i]) s) ;;;
    modify (set_dmap dold)
  end.

(** [bwrite(bp, f)]. *)
Definition bwrite (i : nat) (f : bool) : M bio unit :=
  putb i (fun b => if f then clr BFASY b else bumap (raise BFASY b)) ;;;
  putb i (raise BFNTP) ;;;
  putb i (set_b_req BWRITE) ;;;
  putb i (set_b_count BSIZE) ;;;
  bp <- getb i ;;
  dblock (b_dev bp) i ;;;
  if f then wait_io i else spl.

(** The scan of [bclaim] for the block; without it, the unlocked buffer that
    was released longest ago. *)
Definition older (bs : Z) (bp : BUF) (i : nat) (best : option nat * Z) : option nat * Z :=
  if b_gate bp then best
  else if snd best <=? u16 (bs - b_seqn bp) then (Some i, u16 (bs - b_seqn bp)) else best.
Fixpoint claim_scan (l : list BUF) (i : nat) (dev bno bs : Z) (best : option nat * Z) : nat + option nat * Z :=
  match l with
  | [] => inr best
  | bp :: l =>
    if (b_dev bp =? dev) && (b_bno bp =? bno) then inl i
    else claim_scan l (S i) dev bno bs (older bs bp i best)
  end.
Fixpoint oldest (l : list BUF) (i : nat) (bs : Z) (best : option nat * Z) : option nat * Z :=
  match l with
  | [] => best
  | bp :: l => oldest l (S i) bs (older bs bp i best)
  end.

(** [n] bounds the jumps to [again]. *)
Fixpoint bclaim_loop (n : nat) (dev bno : Z) : M bio nat :=
  match n with
  | O => nofuel
  | S n =>
    spl ;;;
    s <- get ;;
    match claim_scan (bufl s) 0 dev bno (bufseqn s) (None, 0) with
    | inl i =>
      lock i ;;;
      bp <- getb i ;;
      if negb (b_dev bp =? dev) || negb (b_bno bp =? bno) then unlock i ;;; bclaim_loop n dev bno
      else
        (if on bp BFERR then putb i (raise BFNTP) else kret tt) ;;;
        putb i bsmap ;;;
        kret i
    | inr (best, seqn) =>
      best <- (match best with
               | Some i => kret (Some i)
               | None => spl ;;; s <- get ;; kret (fst (oldest (bufl s) 0 (bufseqn s) (None, seqn)))
               end) ;;
      match best with
      | None =>
        modify (set_bufneed 1) ;;;
        sleep ChBufneed ;;;
        bclaim_loop n dev bno
      | Some i =>
        lock i ;;;
        bp <- getb i ;;
        if on bp BFMOD then bwrite i false ;;; bclaim_loop n dev bno
        else
          putb i (set_b_flag BFNTP) ;;;
          putb i (set_b_dev dev) ;;;
          putb i (set_b_bno bno) ;;;
          putb i bsmap ;;;
          kret i
      end
    end
  end.
Definition bclaim (dev bno : Z) : M bio nat :=
  n <- gets (fun s => length (bufl s)) ;; bclaim_loop (2 + n) dev bno.

Definition brelease (i : nat) : M bio unit := modify (brelease_s i).

(** [bread(dev, bno, f)]. *)
Definition bread (dev bno : Z) (f : bool) : M bio (option nat) :=
  i <- bclaim dev bno ;;
  bp <- getb i ;;
  let found :=
    if f then modify (fun s => set_u_block (u_block s + 1) s) ;;; kret (Some i)
    else brelease i ;;; kret None in
  if on bp BFNTP then
    putb i (fun b => if f then clr BFASY b else bumap (raise BFASY b)) ;;;
    putb i (set_b_req BREAD) ;;;
    putb i (set_b_count BSIZE) ;;;
    dblock dev i ;;;
    if negb f then spl ;;; kret None
    else
      wait_io i ;;;
      spl ;;;
      bp <- getb i ;;
      if on bp BFERR then
        modify (set_u_error (if b_err bp =? 0 then EIO else b_err bp)) ;;; brelease i ;;; kret None
      else if b_resid bp =? BSIZE then brelease i ;;; kret None
      else found
  else found.

(** The buffers from [i] on, [n] of them. *)
Fixpoint bsync_loop (n : nat) (i : nat) : M bio unit :=
  match n with
  | O => kret tt
  | S n =>
    bp <- getb i ;;
    (if on bp BFMOD then
       lock i ;;;
       bp <- getb i ;;
       (if on bp BFMOD then bwrite i true else kret tt) ;;;
       unlock i
     else kret tt) ;;;
    bsync_loop n (S i)
  end.
Definition bsync : M bio unit := n <- gets (fun s => length (bufl s)) ;; bsync_loop n 0.

Fixpoint bflush_loop (n : nat) (i : nat) (dev : Z) : M bio unit :=
  match n with
  | O => kret tt
  | S n =>
    bp <- getb i ;;
    (if b_dev bp =? dev then
       lock i ;;;
       bp <- getb i ;;
       (if b_dev bp =? dev then
          (if on bp BFMOD then bwrite i true else kret tt) ;;;
          putb i (set_b_dev NODEV)
        else kret tt) ;;;
       unlock i
     else kret tt) ;;;
    bflush_loop n (S i) dev
  end.
Definition bflush (dev : Z) : M bio unit := n <- gets (fun s => length (bufl s)) ;; bflush_loop n 0 dev.

(** [bufinit] on headers that [kalloc] cleared; [m] is what the memory of each
    buffer holds. *)
Definition bufinit (m : nat -> list Z) : list BUF :=
  map (fun i => set_b_data (m i) (set_b_dev NODEV (Buf false 0 0 0 0 0 0 0 0 []))) (seq 0 NBUF).

(** ** As a buffer cache *)

Fixpoint drive {A} (o : out bio A) : option (A * bio) :=
  match o with
  | Ret a s => Some (a, s)
  | Sleep _ s k => match progress s with Some s' => drive (k s') | None => None end
  | Stop _ | NoFuel => None
  end.
Definition finish {A} (m : M bio A) (s : bio) : option (A * bio) := drive (m s).

#[export] Instance bio_cache : BufCache bio := {
  c_bread dev bno s :=
    '(r, s') ← finish (bread dev bno true) (set_u_error 0 s); Some (r, u_error s', s');
  c_breada dev bno s := snd <$> finish (bread dev bno false) s;
  c_bclaim dev bno s := finish (bclaim dev bno) s;
  c_bwrite h s := snd <$> finish (bwrite h true) s;
  c_bawrite h s := snd <$> finish (bwrite h false) s;
  c_brelease h s := snd <$> finish (brelease h) s;
  c_vaddr h s := from_option b_data [] (bufl s !! h);
  c_store h d s := updb h (set_b_data d) s;
  c_setmod h s := updb h (raise BFMOD) s
}.
