(* ===== verification/BioLaws.v ===== *)
(** The buffer cache of kernel/coh/bio.c keeps the promises that the file
    system relies on ([BufCacheLaws]), for every order and time of the
    completions of the device. *)
From S2P Require Import Prelude Sched Bcache Bio.
Local Open Scope Z_scope.
Local Open Scope kernel_scope.

(** ** Flags *)

Lemma on_flag b z f : on (set_b_flag z b) f = negb (Z.land z f =? 0).
Proof. done. Qed.
Lemma on_raise f b : f <> 0 -> on (raise f b) f = true.
Proof.
  intros Hf. unfold on, raise. cbn [b_flag set_b_flag].
  assert (Z.land (Z.lor (b_flag b) f) f = f) as ->; [|by rewrite (proj2 (Z.eqb_neq _ _))].
  apply Z.bits_inj'. intros n Hn. rewrite Z.land_spec, Z.lor_spec. by destruct (Z.testbit _ _), (Z.testbit f n).
Qed.
Lemma on_raise_ne f g b : Z.land f g = 0 -> on (raise f b) g = on b g.
Proof.
  intros Hf. unfold on, raise. cbn [b_flag set_b_flag]. do 2 f_equal.
  apply Z.bits_inj'. intros n Hn. rewrite !Z.land_spec, Z.lor_spec.
  assert (Z.testbit f n && Z.testbit g n = false) as E by (rewrite <- Z.land_spec, Hf; apply Z.bits_0).
  by destruct (Z.testbit (b_flag b) n), (Z.testbit f n), (Z.testbit g n).
Qed.
Lemma on_clr f b : on (clr f b) f = false.
Proof.
  unfold on, clr. cbn [b_flag set_b_flag].
  assert (Z.land (Z.land (b_flag b) (Z.lnot f)) f = 0) as ->; [|done].
  apply Z.bits_inj'. intros n Hn. rewrite !Z.land_spec, Z.lnot_spec, Z.bits_0 by done.
  by destruct (Z.testbit (b_flag b) n), (Z.testbit f n).
Qed.
Lemma on_clr_ne f g b : Z.land f g = 0 -> on (clr f b) g = on b g.
Proof.
  intros Hf. unfold on, clr. cbn [b_flag set_b_flag]. do 2 f_equal.
  apply Z.bits_inj'. intros n Hn. rewrite !Z.land_spec, Z.lnot_spec by done.
  assert (Z.testbit f n && Z.testbit g n = false) as E by (rewrite <- Z.land_spec, Hf; apply Z.bits_0).
  by destruct (Z.testbit (b_flag b) n), (Z.testbit f n), (Z.testbit g n).
Qed.

(** The flags that matter to the invariant are left alone by [BFMAP]. *)
Lemma bsmap_same b : b_gate (bsmap b) = b_gate b /\ b_dev (bsmap b) = b_dev b /\ b_bno (bsmap b) = b_bno b /\
  b_req (bsmap b) = b_req b /\ b_data (bsmap b) = b_data b /\ forall f, Z.land BFMAP f = 0 -> on (bsmap b) f = on b f.
Proof. split_and!; try done. intros f Hf. by apply on_raise_ne. Qed.
Lemma bumap_same b : b_gate (bumap b) = b_gate b /\ b_dev (bumap b) = b_dev b /\ b_bno (bumap b) = b_bno b /\
  b_req (bumap b) = b_req b /\ b_data (bumap b) = b_data b /\ b_resid (bumap b) = b_resid b /\
  forall f, Z.land BFMAP f = 0 -> on (bumap b) f = on b f.
Proof. unfold bumap. destruct (on b BFMAP); split_and!; try done. intros f Hf. by apply on_clr_ne. Qed.

(** ** The invariant *)

Definition key (b : BUF) : bkey := (b_dev b, b_bno b).

(** A transfer that is under way. *)
Definition io_ok (blk : bkey -> list Z) (gd : bkey -> bool) (bp : BUF) : Prop :=
  b_gate bp = true /\ gd (key bp) = true /\
  ((b_req bp = BREAD /\ on bp BFMOD = false) \/ (b_req bp = BWRITE /\ b_data bp = blk (key bp))).

(** A buffer is free, with the driver ([p]), held by a process, or in the
    hands of the operation that is running ([o]). *)
Definition buf_ok (gd : bkey -> bool) (blk : bkey -> list Z) (p : bool) (hb : option hbuf) (o : bool) (bp : BUF) : Prop :=
  on bp BFERR = false /\ Z.of_nat (length (b_data bp)) = BSIZE /\
  match p, hb, o with
  | false, None, false => b_gate bp = false /\ on bp BFNTP = false /\
      (b_dev bp <> NODEV -> b_data bp = blk (key bp)) /\ (on bp BFMOD = true -> gd (key bp) = true)
  | true, None, o => io_ok blk gd bp /\ on bp BFASY = negb o
  | false, Some hb, false => b_gate bp = true /\ key bp = h_key hb /\ b_data bp = h_data hb /\
      (h_mod hb = true -> on bp BFMOD = true) /\ (on bp BFMOD = true -> h_mod hb = true \/ gd (key bp) = true)
  | false, None, true => b_gate bp = true /\ (on bp BFMOD = true -> gd (key bp) = true)
  | _, _, _ => False
  end.

Definition isin (i : nat) (pd : list nat) : bool := bool_decide (i ∈ pd).
Definition isown (i : nat) (own : option nat) : bool := bool_decide (own = Some i).

Record repc (bl : list BUF) (pd : list nat) (dk : bkey -> list Z) (gd : bkey -> bool) (v : bview) (own : option nat) (er : Z) : Prop := {
  c_size : (NHOLD < length bl)%nat;
  c_nodup : NoDup pd;
  c_pd : forall i, i ∈ pd -> (i < length bl)%nat;
  c_held : forall i hb, v_held v !! i = Some hb -> (i < length bl)%nat;
  c_own : forall i, own = Some i -> (i < length bl)%nat;
  c_buf : forall i bp, bl !! i = Some bp -> buf_ok gd (v_blk v) (isin i pd) (v_held v !! i) (isown i own) bp;
  c_uniq : forall i j bp bq, bl !! i = Some bp -> bl !! j = Some bq -> key bp = key bq -> b_dev bp <> NODEV -> i = j;
  c_disk : forall k, gd k = true ->
    (forall i bp, bl !! i = Some bp -> key bp = k -> on bp BFMOD = false /\ (i ∈ pd -> b_req bp <> BWRITE)) -> dk k = v_blk v k;
  c_dlen : forall k, gd k = true -> Z.of_nat (length (dk k)) = BSIZE;
  c_nodev : forall b, gd (NODEV, b) = false;
  c_good : forall k, v_good v k = gd k;
  c_err : er = 0
}.

(** The blocks of the drivers that are there which work. *)
Definition dgood (s : bio) (k : bkey) : bool :=
  match drvl s !! Z.to_nat (major k.1) with
  | Some dp => negb (d_gate dp) && d_conp dp && match d_res s k with Good => true | _ => false end
  | None => false
  end.
Definition rep (s : bio) (v : bview) (own : option nat) : Prop :=
  repc (bufl s) (pending s) (disk s) (dgood s) v own (u_error s).

(** A change of the buffer [i] only. *)
Lemma repc_upd bl pd dk gd v own er i bp0 bp pd' dk' v' own' :
  repc bl pd dk gd v own er -> bl !! i = Some bp0 ->
  NoDup pd' -> (forall j, j <> i -> (j ∈ pd' <-> j ∈ pd)) ->
  (forall j, j <> i -> v_held v' !! j = v_held v !! j) -> v_good v' = v_good v ->
  (forall j, j <> i -> (own' = Some j <-> own = Some j)) ->
  (forall j bq, j <> i -> bl !! j = Some bq -> key bq = key bp -> b_dev bp = NODEV) ->
  (forall j bq, j <> i -> bl !! j = Some bq -> b_dev bq <> NODEV -> v_blk v' (key bq) = v_blk v (key bq)) ->
  buf_ok gd (v_blk v') (isin i pd') (v_held v' !! i) (isown i own') bp ->
  (forall k, gd k = true -> Z.of_nat (length (dk' k)) = BSIZE) ->
  (forall k, gd k = true -> (key bp = k -> on bp BFMOD = false /\ (i ∈ pd' -> b_req bp <> BWRITE)) ->
     (forall j bq, j <> i -> bl !! j = Some bq -> key bq = k -> on bq BFMOD = false /\ (j ∈ pd -> b_req bq <> BWRITE)) -> dk' k = v_blk v' k) ->
  repc (<[i := bp]> bl) pd' dk' gd v' own' er.
Proof.
  intros [Hsz Hnd Hpd Hhd Ho Hbuf Hun Hdk Hdl Hno Hgd Her] Hi Hnd' Hpd' Hheld Hg Hown Huniq Hblk Hok Hdl' Hdk'.
  assert (i < length bl)%nat as Hil by (by eapply lookup_lt_Some).
  split; try done.
  - by rewrite length_insert.
  - intros j Hj. rewrite length_insert. destruct (decide (j = i)) as [->|Hne]; [done|]. by apply Hpd, Hpd'.
  - intros j hb Hj. rewrite length_insert. destruct (decide (j = i)) as [->|Hne]; [done|]. rewrite Hheld in Hj by done. by eapply Hhd.
  - intros j Hj. rewrite length_insert. destruct (decide (j = i)) as [->|Hne]; [done|]. by apply Ho, Hown.
  - intros j bq. destruct (decide (j = i)) as [->|Hne].
    + rewrite list_lookup_insert_eq by done. by intros [= <-].
    + rewrite list_lookup_insert_ne by done. intros Hj. pose proof (Hbuf j bq Hj) as (He & Hl & Hb). rewrite Hheld by done.
      assert (isin j pd' = isin j pd) as -> by (unfold isin; by apply bool_decide_ext, Hpd').
      assert (isown j own' = isown j own) as -> by (unfold isown; by apply bool_decide_ext, Hown).
      split; [done|]. split; [done|]. destruct (isin j pd), (v_held v !! j), (isown j own); try done.
      * destruct Hb as [(Hb1 & Hb2 & Hb3) Hb4]. split; [|done]. split; [done|]. split; [done|].
        destruct Hb3 as [?|[? Hd]]; [by left|right]. split; [done|]. rewrite Hd. symmetry. eapply Hblk; [done|done|].
        intros E. unfold key in Hb2. rewrite E, Hno in Hb2. done.
      * destruct Hb as [(Hb1 & Hb2 & Hb3) Hb4]. split; [|done]. split; [done|]. split; [done|].
        destruct Hb3 as [?|[? Hd]]; [by left|right]. split; [done|]. rewrite Hd. symmetry. eapply Hblk; [done|done|].
        intros E. unfold key in Hb2. rewrite E, Hno in Hb2. done.
      * destruct Hb as (Hb1 & Hb2 & Hb3 & Hb4). split; [done|]. split; [done|]. split; [|done].
        intros Hd. rewrite Hb3 by done. symmetry. by eapply Hblk.
  - assert (forall j bq, j <> i -> bl !! j = Some bq -> key bq = key bp -> b_dev bp <> NODEV -> False) as Hx.
    { intros j bq Hne Hj E Hd. apply Hd. by eapply Huniq. }
    intros j k bj bk. destruct (decide (j = i)) as [->|Hj], (decide (k = i)) as [->|Hk]; rewrite ?list_lookup_insert_eq by done; rewrite ?list_lookup_insert_ne by done.
    + done.
    + intros [= <-] Hbk E Hd. exfalso. by eapply Hx.
    + intros Hbj [= <-] E Hd. exfalso. eapply (Hx j); [done|done|done|]. injection E as E _. congruence.
    + apply Hun.
  - intros k Hk Hall. apply Hdk'; [done| |].
    + intros E. apply (Hall i); [by rewrite list_lookup_insert_eq|done].
    + intros j bq Hne Hj E. destruct (Hall j bq) as [? Hp]; [by rewrite list_lookup_insert_ne|done|].
      split; [done|]. intros Hin. by apply Hp, Hpd'.
  - intros k. by rewrite Hg.
Qed.

(** ** Single steps *)

(** [s'] is [s] with [bp] for the buffer [i], and perhaps other counters. *)
Record set_buf (i : nat) (bp : BUF) (s s' : bio) : Prop := {
  sb_bufl : bufl s' = <[i := bp]> (bufl s);
  sb_pending : pending s' = pending s;
  sb_disk : disk s' = disk s;
  sb_drvl : drvl s' = drvl s;
  sb_res : d_res s' = d_res s;
  sb_err : u_error s' = u_error s
}.

Lemma updb_eq i f s bp : bufl s !! i = Some bp -> updb i f s = set_bufl (<[i := f bp]> (bufl s)) s.
Proof.
  intros Hi. unfold updb. f_equal. apply list_eq. intros j. destruct (decide (j = i)) as [->|Hne].
  - rewrite list_lookup_alter_eq, list_lookup_insert_eq by (by eapply lookup_lt_Some). by rewrite Hi.
  - by rewrite list_lookup_alter_ne, list_lookup_insert_ne.
Qed.
Lemma updb_set i f s bp : bufl s !! i = Some bp -> set_buf i (f bp) s (updb i f s).
Proof. intros Hi. rewrite (updb_eq _ _ _ bp) by done. by split. Qed.
Lemma set_buf_lookup i bp s s' b0 : set_buf i bp s s' -> bufl s !! i = Some b0 -> bufl s' !! i = Some bp.
Proof. intros [E _ _ _ _] Hi. rewrite E. apply list_lookup_insert_eq. by eapply lookup_lt_Some. Qed.
Lemma set_buf_trans i b1 b2 s s1 s2 : set_buf i b1 s s1 -> set_buf i b2 s1 s2 -> set_buf i b2 s s2.
Proof.
  intros [A1 A2 A3 A4 A5 A6] [B1 B2 B3 B4 B5 B6]. split; [|congruence..]. rewrite B1, A1. apply list_insert_insert_eq.
Qed.
Lemma set_buf_upd i f bp s s' b0 : bufl s !! i = Some b0 -> set_buf i bp s s' -> set_buf i (f bp) s (updb i f s').
Proof. intros Hi Hs. eapply set_buf_trans; [done|]. apply updb_set. by eapply set_buf_lookup. Qed.
Lemma set_buf_same i s bp : bufl s !! i = Some bp -> set_buf i bp s s.
Proof. intros Hi. split; [by rewrite list_insert_id|done..]. Qed.
Lemma dgood_same s s' : drvl s' = drvl s -> d_res s' = d_res s -> dgood s' = dgood s.
Proof. intros E1 E2. unfold dgood. by rewrite E1, E2. Qed.

(** The fields of a buffer that steps leave alone. *)
Definition kept (b b' : BUF) : Prop := key b' = key b /\ b_req b' = b_req b /\ b_data b' = b_data b /\ b_resid b' = b_resid b.

Lemma brelease_spec s i bp : bufl s !! i = Some bp -> on bp BFERR = false ->
  exists bp', set_buf i bp' s (brelease_s i s) /\ kept bp bp' /\ b_gate bp' = false /\ on bp' BFNTP = false /\
    (forall f, Z.land (Z.lor BFNTP BFMAP) f = 0 -> on bp' f = on bp f) /\ sched (brelease_s i s) = sched s.
Proof.
  intros Hi He. unfold brelease_s. rewrite Hi, He.
  set (b1 := clr BFNTP (set_b_seqn (bufseqn s) bp)). set (b2 := set_b_gate false (bumap b1)). exists b2.
  destruct (bumap_same b1) as (_ & E2 & E3 & E4 & E5 & E6 & Ef).
  assert (set_buf i b2 s (updb i (set_b_gate false) (updb i bumap (updb i (clr BFNTP) (set_bufseqn (u16 (bufseqn s + 1)) (updb i (set_b_seqn (bufseqn s)) s)))))) as Hs.
  { do 3 (eapply set_buf_upd; [done|]). destruct (updb_set i (set_b_seqn (bufseqn s)) s bp Hi) as [? ? ? ? ? ?]. by split. }
  split; [case_match; [done|]; destruct Hs as [? ? ? ? ? ?]; by split|].
  split; [unfold kept, key; unfold b2; cbn [b_dev b_bno b_req b_data b_resid set_b_gate]; rewrite E2, E3, E4, E5, E6; done|].
  split; [done|]. split; [|split; [|by case_match]].
  - change (on b2 BFNTP) with (on (bumap b1) BFNTP). rewrite Ef by done. apply on_clr.
  - intros f Hf. change (on b2 f) with (on (bumap b1) f).
    assert (Z.land BFMAP f = 0 /\ Z.land BFNTP f = 0) as [H1 H2].
    { assert (forall g, Z.land g (Z.lor BFNTP BFMAP) = g -> Z.land g f = 0) as Hg; [|by split; apply Hg].
      intros g Eg. rewrite <- Eg, <- Z.land_assoc, Hf. apply Z.land_0_r. }
    rewrite Ef by done. unfold b1. by rewrite on_clr_ne.
Qed.

(** A completed transfer of a good block. *)
Lemma transfer_spec s i bp : bufl s !! i = Some bp -> on bp BFERR = false -> dgood s (key bp) = true ->
  b_req bp = BREAD \/ b_req bp = BWRITE ->
  let rd := b_req bp =? BREAD in
  exists bp', bufl (transfer i s) = <[i := bp']> (bufl s) /\ pending (transfer i s) = pending s /\
    disk (transfer i s) = (if rd then disk s else fun k => if decide (k = key bp) then b_data bp else disk s k) /\
    dgood (transfer i s) = dgood s /\ u_error (transfer i s) = u_error s /\
    key bp' = key bp /\ b_req bp' = b_req bp /\ b_data bp' = (if rd then disk s (key bp) else b_data bp) /\ b_resid bp' = 0 /\
    on bp' BFERR = false /\ on bp' BFNTP = false /\ on bp' BFASY = false /\
    on bp' BFMOD = (if rd then on bp BFMOD else false) /\ b_gate bp' = (if on bp BFASY then false else b_gate bp).
Proof.
  intros Hi He Hg Hreq rd. unfold transfer. rewrite Hi. fold (key bp).
  assert (d_res s (key bp) = Good) as ->.
  { unfold dgood in Hg. destruct (drvl s !! _); [|done]. apply andb_true_iff in Hg as [_ Hg]. by destruct (d_res s (key bp)). }
  fold rd. set (s1 := updb i (set_b_resid 0) _). set (b1 := set_b_resid 0 (if rd then set_b_data (disk s (key bp)) bp else bp)).
  assert (bufl s1 = <[i := b1]> (bufl s) /\ pending s1 = pending s /\ drvl s1 = drvl s /\ d_res s1 = d_res s /\ u_error s1 = u_error s /\
    disk s1 = (if rd then disk s else fun k => if decide (k = key bp) then b_data bp else disk s k)) as (E1 & E2 & E3 & E4 & E6 & E5).
  { unfold s1, b1. destruct rd.
    - destruct (set_buf_upd i (set_b_resid 0) _ s _ bp Hi (updb_set i (set_b_data (disk s (key bp))) s bp Hi)) as [? ? ? ? ? ?]. done.
    - set (s2 := set_disk _ s). assert (bufl s2 !! i = Some bp) as Hi2 by done.
      destruct (updb_set i (set_b_resid 0) s2 bp Hi2) as [? ? ? ? ? ?]. done. }
  assert (bufl s1 !! i = Some b1) as Hi1 by (rewrite E1; apply list_lookup_insert_eq; by eapply lookup_lt_Some).
  unfold bdone. set (s2 := updb i _ s1). set (b2 := if b_req b1 =? BWRITE then clr BFMOD b1 else b1).
  assert (set_buf i b2 s1 s2) as Hs2 by (by apply (updb_set i (fun b => if b_req b =? BWRITE then clr BFMOD b else b))).
  assert (b_req b1 = b_req bp) as Er by (unfold b1; by destruct rd).
  assert (rd = true -> b2 = b1) as Eb2.
  { intros Hr. unfold b2. rewrite Er. apply Z.eqb_eq in Hr. by rewrite Hr. }
  assert (forall f, on b1 f = on bp f) as Ef by (intros f; unfold b1; by destruct rd).
  assert (on b2 BFERR = false) as He2.
  { unfold b2. destruct (b_req b1 =? BWRITE); rewrite ?on_clr_ne, ?Ef by done; done. }
  assert (on b2 BFASY = on bp BFASY) as Ha2.
  { unfold b2. destruct (b_req b1 =? BWRITE); rewrite ?on_clr_ne, ?Ef by done; done. }
  assert (on b2 BFMOD = if rd then on bp BFMOD else false) as Hm2.
  { destruct rd eqn:Erd; [rewrite Eb2, Ef by done; done|]. unfold b2. rewrite Er. apply Z.eqb_neq in Erd.
    assert (b_req bp = BWRITE) as -> by tauto. apply on_clr. }
  assert (kept b1 b2) as Hk2 by (unfold b2, kept; by destruct (b_req b1 =? BWRITE)).
  set (s3 := updb i _ s2). assert (set_buf i b2 s1 s3) as Hs3.
  { pose proof (set_buf_upd i (fun b => if b_req b =? BREAD then if on b BFERR then set_b_dev NODEV b else b else b) b2 s1 s2 b1 Hi1 Hs2) as Hs3.
    cbv beta in Hs3. rewrite He2 in Hs3. destruct (b_req b2 =? BREAD); exact Hs3. }
  rewrite (set_buf_lookup _ _ _ _ _ Hs3 Hi1), Ha2.
  assert (exists b4 s4, (if on bp BFASY then brelease_s i (updb i (clr BFASY) s3) else s3) = s4 /\ set_buf i b4 s1 s4 /\ kept b2 b4 /\
    on b4 BFERR = false /\ on b4 BFASY = false /\ on b4 BFMOD = on b2 BFMOD /\ b_gate b4 = (if on bp BFASY then false else b_gate bp)) as
    (b4 & s4 & -> & Hs4 & Hk4 & He4 & Ha4 & Hm4 & Hg4).
  { destruct (on bp BFASY) eqn:Ea.
    - pose proof (set_buf_upd i (clr BFASY) _ _ _ _ Hi1 Hs3) as Hs5.
      destruct (brelease_spec _ i (clr BFASY b2) (set_buf_lookup _ _ _ _ _ Hs5 Hi1)) as (b4 & Hs6 & Hk & Hg6 & _ & Hf & _).
      { by rewrite on_clr_ne. }
      exists b4, (brelease_s i (updb i (clr BFASY) s3)). split; [done|]. split; [by eapply set_buf_trans|].
      split; [done|]. rewrite !Hf by done. rewrite on_clr, !on_clr_ne by done. done.
    - exists b2, s3. split; [done|]. split; [done|]. split; [done|]. split; [done|]. split; [by rewrite Ha2|]. split; [done|].
      transitivity (b_gate b1); [unfold b2; by destruct (b_req b1 =? BWRITE)|unfold b1; by destruct rd]. }
  destruct (set_buf_upd i (clr BFNTP) _ _ _ _ Hi1 Hs4) as [F1 F2 F3 F4 F5 F6].
  exists (clr BFNTP b4). rewrite F1, E1, list_insert_insert_eq, F2, F3, F6, E6.
  rewrite (dgood_same s) by congruence. rewrite (on_clr_ne BFNTP BFERR), (on_clr_ne BFNTP BFASY), (on_clr_ne BFNTP BFMOD), on_clr, He4, Ha4, Hm4, Hm2 by done.
  destruct Hk2 as (K1 & K2 & K3 & K4), Hk4 as (J1 & J2 & J3 & J4).
  change (key (clr BFNTP b4)) with (key b4). change (b_req (clr BFNTP b4)) with (b_req b4).
  change (b_data (clr BFNTP b4)) with (b_data b4). change (b_resid (clr BFNTP b4)) with (b_resid b4). change (b_gate (clr BFNTP b4)) with (b_gate b4).
  split_and!; try done; [by rewrite J1, K1; unfold b1; destruct rd|by rewrite J2, K2|by rewrite J3, K3; unfold b1; destruct rd|by rewrite J4, K4].
Qed.

(** ** Completions *)

Definition dirty (bp : BUF) : Prop := b_gate bp = false /\ on bp BFMOD = true.

(** [bp'] is what completions made of the buffer [i] after [bp]. *)
Record evolved (v : bview) (s s' : bio) (i : nat) (bp bp' : BUF) : Prop := {
  ev_key : key bp' = key bp;
  ev_same : i ∈ pending s' \/ i ∉ pending s -> bp' = bp;
  ev_done : i ∈ pending s -> i ∉ pending s' -> on bp' BFNTP = false /\ on bp' BFMOD = false /\ b_resid bp' = 0 /\
    b_data bp' = v_blk v (key bp)
}.
Record later (v : bview) (s s' : bio) : Prop := {
  la_len : length (bufl s') = length (bufl s);
  la_good : dgood s' = dgood s;
  la_pend : forall i, i ∈ pending s' -> i ∈ pending s;
  la_buf : forall i bp, bufl s !! i = Some bp -> exists bp', bufl s' !! i = Some bp' /\ evolved v s s' i bp bp'
}.

Lemma later_same v s s' : bufl s' = bufl s -> pending s' = pending s -> dgood s' = dgood s -> later v s s'.
Proof.
  intros E1 E2 E3. split; [by rewrite E1|done|by rewrite E2|]. intros i bp Hi. exists bp. rewrite E1. split; [done|].
  split; [done|done|]. by rewrite E2.
Qed.
Lemma later_trans v s s1 s2 : later v s s1 -> later v s1 s2 -> later v s s2.
Proof.
  intros [A1 A2 A3 A4] [B1 B2 B3 B4]. split; [congruence|congruence|by intros i ?%B3%A3|].
  intros i bp Hi. destruct (A4 i bp Hi) as (b1 & H1 & [K1 S1 D1]). destruct (B4 i b1 H1) as (b2 & H2 & [K2 S2 D2]).
  exists b2. split; [done|]. split; [congruence| |].
  - intros [Hp|Hp]; [rewrite S2, S1; [done|left; by apply B3|by left]|]. rewrite S2, S1; [done|by right|right; by intros ?%A3].
  - intros Hp Hn. destruct (decide (i ∈ pending s1)) as [Hp1|Hp1].
    + rewrite <- K1. by apply D2.
    + rewrite S2 by (by right). by apply D1.
Qed.

Lemma rep_same s s' v own : bufl s' = bufl s -> pending s' = pending s -> disk s' = disk s -> dgood s' = dgood s -> u_error s' = u_error s -> rep s v own -> rep s' v own.
Proof. unfold rep. by intros -> -> -> -> ->. Qed.

(** The data of a buffer whose read is under way is what the file system sees. *)
Lemma read_data s v own i bp : rep s v own -> bufl s !! i = Some bp -> i ∈ pending s -> b_req bp = BREAD ->
  disk s (key bp) = v_blk v (key bp).
Proof.
  intros Hr Hi Hp Hq. pose proof (c_buf _ _ _ _ _ _ _ Hr i bp Hi) as (_ & _ & Hb). unfold isin in Hb. rewrite bool_decide_true in Hb by done.
  destruct (v_held v !! i); [done|]. destruct Hb as [(_ & Hg & Hio) _].
  apply (c_disk _ _ _ _ _ _ _ Hr); [done|]. intros j bq Hj E.
  assert (b_dev bp <> NODEV) as Hd. { intros Hd. unfold key in Hg. by rewrite Hd, (c_nodev _ _ _ _ _ _ _ Hr) in Hg. }
  assert (j = i) as ->. { symmetry. by eapply (c_uniq _ _ _ _ _ _ _ Hr). }
  rewrite Hi in Hj. injection Hj as <-. destruct Hio as [[_ Hm]|[Hw _]]; [|by rewrite Hq in Hw]. split; [done|]. intros _. by rewrite Hq.
Qed.

Lemma transfer_rep s v own n i : rep s v own -> pending s !! n = Some i ->
  let s' := transfer i (set_pending (delete n (pending s)) s) in rep s' v own /\ later v s s' /\ pending s' = delete n (pending s).
Proof.
  intros Hr Hn s'. pose proof (list_elem_of_lookup_2 _ _ _ Hn) as Hin.
  destruct (lookup_lt_is_Some_2 (bufl s) i (c_pd _ _ _ _ _ _ _ Hr i Hin)) as [bp Hi].
  pose proof (c_buf _ _ _ _ _ _ _ Hr i bp Hi) as (He & Hlen & Hb). unfold isin in Hb. rewrite bool_decide_true in Hb by done.
  destruct (v_held v !! i) eqn:Eh; [done|]. destruct Hb as [(Hgate & Hg & Hio) Hasy].
  assert (b_req bp = BREAD \/ b_req bp = BWRITE) as Hreq by tauto.
  destruct (transfer_spec (set_pending (delete n (pending s)) s) i bp Hi He Hg Hreq) as
    (bp' & E1 & E2 & E3 & E4 & E5 & K & Kr & Kd & Krs & Ke & Kn & Ka & Km & Kg). fold s' in E1, E2, E3, E4, E5. cbn [pending set_pending disk] in *.
  pose proof (c_nodup _ _ _ _ _ _ _ Hr) as Hnd.
  pose proof (delete_Permutation _ _ _ Hn) as Hperm. rewrite Hperm in Hnd. apply NoDup_cons in Hnd as [Hni Hnd].
  assert (forall j, j <> i -> (j ∈ delete n (pending s) <-> j ∈ pending s)) as Hdel.
  { intros j Hj. rewrite Hperm at 2. rewrite elem_of_cons. tauto. }
  assert (forall j bq, j <> i -> bufl s !! j = Some bq -> key bq = key bp -> False) as Hne.
  { intros j bq Hj Hbq E. apply Hj. symmetry. eapply (c_uniq _ _ _ _ _ _ _ Hr); [done|done|done|].
    intros Hd. unfold key in Hg. by rewrite Hd, (c_nodev _ _ _ _ _ _ _ Hr) in Hg. }
  assert (b_data bp' = v_blk v (key bp)) as Hdat.
  { rewrite Kd. destruct (Z.eqb_spec (b_req bp) BREAD) as [E|E]; [by eapply read_data|]. destruct Hio as [[? _]|[_ ?]]; [done|done]. }
  assert (on bp' BFMOD = false) as Hmd.
  { rewrite Km. destruct (Z.eqb_spec (b_req bp) BREAD) as [E|E]; [|done]. destruct Hio as [[_ ?]|[Ew _]]; [done|by rewrite E in Ew]. }
  split; [|split; [|done]].
  - unfold rep. rewrite E1, E2, E3, E4, E5. change (u_error (set_pending (delete n (pending s)) s)) with (u_error s). change (dgood (set_pending (delete n (pending s)) s)) with (dgood s).
    eapply (repc_upd _ _ _ _ _ _ _ i bp); [exact Hr|done|done|done|done|done|done| |done| |..].
    + intros j bq Hj Hbq E. exfalso. apply (Hne j bq Hj Hbq). by rewrite E.
    + split; [done|]. unfold isin. rewrite bool_decide_false by done. rewrite Eh. rewrite K.
      assert (Z.of_nat (length (b_data bp')) = BSIZE) as Hl.
      { rewrite Kd. destruct (b_req bp =? BREAD); [|done]. by apply (c_dlen _ _ _ _ _ _ _ Hr). }
      split; [done|]. rewrite Kg, Hasy. destruct (isown i own); cbn [negb]; [split; [done|]; by rewrite Hmd|].
      split; [done|]. split; [done|]. split; [by intros _|]. by rewrite Hmd.
    + intros k Hk. destruct (b_req bp =? BREAD); [by apply (c_dlen _ _ _ _ _ _ _ Hr)|]. case_decide; [done|]. by apply (c_dlen _ _ _ _ _ _ _ Hr).
    + intros k Hk _ Hoth. assert (k <> key bp -> disk s k = v_blk v k) as Hk'.
      { intros Hkne. apply (c_disk _ _ _ _ _ _ _ Hr); [done|]. intros j bq Hj E. destruct (decide (j = i)) as [->|Hj'].
        - rewrite Hi in Hj. injection Hj as <-. by destruct Hkne.
        - by apply (Hoth j bq). }
      destruct (Z.eqb_spec (b_req bp) BREAD) as [E|E].
      * destruct (decide (k = key bp)) as [->|]; [by eapply read_data|by apply Hk'].
      * case_decide as Ek; [|by apply Hk']. subst k. destruct Hio as [[? _]|[_ ?]]; [done|done].
  - split; [by rewrite E1, length_insert|done| |].
    + intros j. rewrite E2. intros Hj. rewrite Hperm. apply elem_of_cons. by right.
    + intros j bq Hj. rewrite E1. destruct (decide (j = i)) as [->|Hj'].
      * rewrite Hi in Hj. injection Hj as <-. exists bp'. rewrite list_lookup_insert_eq by (by eapply lookup_lt_Some). split; [done|].
        split; [done| |done]. rewrite E2. by intros [?|?].
      * exists bq. rewrite list_lookup_insert_ne by done. split; [done|]. split; [done|done|]. rewrite E2. intros H1 H2. exfalso. apply H2. by apply Hdel.
Qed.

Lemma complete_rep s v own c : rep s v own -> rep (complete s c) v own /\ later v s (complete s c) /\
  (pending s <> [] -> length (pending (complete s c)) < length (pending s))%nat.
Proof.
  intros Hr. unfold complete. set (n := (c mod length (pending s))%nat). destruct (pending s !! n) as [i|] eqn:En.
  - destruct (transfer_rep s v own n i Hr En) as (H1 & H2 & H3). split; [done|]. split; [done|]. intros _. rewrite H3.
    pose proof (lookup_lt_Some _ _ _ En). rewrite length_delete by (by exists i). lia.
  - split; [done|]. split; [by apply later_same|]. intros Hne. exfalso. apply lookup_ge_None in En.
    assert (length (pending s) <> O) by (by destruct (pending s)). pose proof (Nat.mod_upper_bound c (length (pending s)) ltac:(done)).
    unfold n in En. lia.
Qed.

Lemma completes_rep v own cs : forall s, rep s v own -> rep (fold_left complete cs s) v own /\ later v s (fold_left complete cs s) /\
  (length (pending (fold_left complete cs s)) <= length (pending s))%nat.
Proof.
  induction cs as [|c cs IH]; intros s Hr; cbn [fold_left]; [split; [done|split; [by apply later_same|lia]]|].
  destruct (complete_rep s v own c Hr) as (R1 & L1 & N1). destruct (IH _ R1) as (R2 & L2 & N2).
  split; [done|]. split; [by eapply later_trans|]. destruct (decide (pending s = [])) as [E|E]; [|specialize (N1 E); lia].
  assert (complete s c = s) as Ec by (unfold complete; by rewrite E, lookup_nil). rewrite Ec in N2 |- *. lia.
Qed.

Lemma next_spec s : bufl (snd (next s)) = bufl s /\ pending (snd (next s)) = pending s /\ disk (snd (next s)) = disk s /\ dgood (snd (next s)) = dgood s /\
  u_error (snd (next s)) = u_error s.
Proof. unfold next. by destruct (sched s). Qed.
Lemma next_rep s v own : rep s v own -> rep (snd (next s)) v own /\ later v s (snd (next s)).
Proof. intros Hr. destruct (next_spec s) as (E1 & E2 & E3 & E4 & E5). split; [by eapply rep_same|by apply later_same]. Qed.

Lemma interrupts_rep s v own : rep s v own -> rep (interrupts s) v own /\ later v s (interrupts s).
Proof.
  intros Hr. unfold interrupts. destruct (next_rep s v own Hr) as [H1 H2]. destruct (next s) as [cs s1]. cbn [snd] in *.
  destruct (completes_rep v own cs s1 H1) as (H3 & H4 & _). split; [done|]. by eapply later_trans.
Qed.

Lemma progress_rep s v own : rep s v own -> pending s <> [] -> exists s', progress s = Some s' /\ rep s' v own /\ later v s s' /\
  (length (pending s') < length (pending s))%nat.
Proof.
  intros Hr Hp. unfold progress. destruct (next_rep s v own Hr) as [H1 H2]. destruct (next_spec s) as (_ & Ep & _).
  destruct (next s) as [cs s1] eqn:En. cbn [snd] in *.
  assert (exists c cs', match cs with [] => [0%nat] | _ :: _ => cs end = c :: cs') as (c & cs' & E) by (destruct cs; by do 2 eexists).
  exists (fold_left complete (c :: cs') s1). split; [rewrite E; by destruct (pending s)|]. cbn [fold_left].
  destruct (complete_rep s1 v own c H1) as (R1 & L1 & N1). destruct (completes_rep v own cs' _ R1) as (R2 & L2 & N2).
  split; [done|]. split; [eapply later_trans; [done|by eapply later_trans]|]. rewrite Ep in N1. specialize (N1 Hp). lia.
Qed.

(** ** Running a procedure to its end *)

Definition io {A} (m : M bio A) (Q : A -> bio -> Prop) (s : bio) : Prop :=
  match drive (m s) with Some (a, s') => Q a s' | None => False end.

Lemma drive_bind {A B} (o : out bio A) (f : A -> M bio B) :
  drive (obind o f) = match drive o with Some (a, s) => drive (f a s) | None => None end.
Proof.
  induction o as [a s|ch s k IH| |]; cbn [obind drive]; try done. destruct (progress s) as [s'|]; [apply IH|done].
Qed.
Lemma io_bind {A B} (m : M bio A) (f : A -> M bio B) Q s : io m (fun a s' => io (f a) Q s') s -> io (kbind m f) Q s.
Proof. unfold io, kbind. rewrite drive_bind. by destruct (drive (m s)) as [[a s']|]. Qed.
Lemma io_ret {A} (a : A) (Q : A -> bio -> Prop) s : Q a s -> io (kret a) Q s.
Proof. done. Qed.
Lemma io_get (Q : bio -> bio -> Prop) s : Q s s -> io get Q s.
Proof. done. Qed.
Lemma io_gets {A} (f : bio -> A) (Q : A -> bio -> Prop) s : Q (f s) s -> io (gets f) Q s.
Proof. done. Qed.
Lemma io_modify f (Q : unit -> bio -> Prop) s : Q tt (f s) -> io (modify f) Q s.
Proof. done. Qed.
Lemma io_getb i bp (Q : BUF -> bio -> Prop) s : bufl s !! i = Some bp -> Q bp s -> io (getb i) Q s.
Proof. intros Hi HQ. unfold io, getb, kbind, get. cbn. by rewrite Hi. Qed.
Lemma io_mono {A} (m : M bio A) (Q Q' : A -> bio -> Prop) s : io m Q s -> (forall a s', Q a s' -> Q' a s') -> io m Q' s.
Proof. unfold io. destruct (drive (m s)) as [[a s']|]; auto. Qed.
Lemma io_finish {A} (m : M bio A) Q s : io m Q s <-> exists a s', finish m s = Some (a, s') /\ Q a s'.
Proof.
  unfold io, finish. split.
  - destruct (drive (m s)) as [[a s']|]; [|done]. intros HQ. by exists a, s'.
  - by intros (a & s' & -> & HQ).
Qed.

(** A sleep is one or more completions. *)
Lemma io_sleep ch (Q : unit -> bio -> Prop) s v own : rep s v own -> pending s <> [] ->
  (forall s', rep s' v own -> later v s s' -> (length (pending s') < length (pending s))%nat -> Q tt s') -> io (sleep ch) Q s.
Proof.
  intros Hr Hp HQ. destruct (progress_rep s v own Hr Hp) as (s' & E & H1 & H2 & H3). unfold io, sleep. cbn. rewrite E. by apply HQ.
Qed.

Lemma io_spl (Q : unit -> bio -> Prop) s v own : rep s v own -> (forall s', rep s' v own -> later v s s' -> Q tt s') -> io spl Q s.
Proof. intros Hr HQ. apply io_modify. destruct (interrupts_rep s v own Hr). by apply HQ. Qed.

(** Waiting for a buffer that is with the driver. *)
Lemma io_wait_loop i v own n : forall s bp, rep s v own -> bufl s !! i = Some bp ->
  (on bp BFNTP = true <-> i ∈ pending s) -> (length (pending s) < n)%nat ->
  forall (Q : unit -> bio -> Prop), (forall s', rep s' v own -> later v s s' -> i ∉ pending s' -> Q tt s') -> io (wait_loop n i) Q s.
Proof.
  induction n as [|n IH]; intros s bp Hr Hi Hn Hl Q HQ; [lia|]. cbn [wait_loop]. apply io_bind. eapply io_getb; [done|].
  destruct (on bp BFNTP) eqn:Eb.
  - assert (i ∈ pending s) as Hin by by apply Hn. apply io_bind. eapply io_sleep; [done|by intros E; rewrite E in Hin; apply elem_of_nil in Hin|].
    intros s' Hr' Hla Hlt. destruct (la_buf _ _ _ Hla i bp Hi) as (bp' & Hi' & Hev).
    apply (IH s' bp' Hr' Hi'); [|lia|].
    + split.
      * intros Ht. destruct (decide (i ∈ pending s')) as [|Hnp]; [done|]. destruct (ev_done _ _ _ _ _ _ Hev Hin Hnp) as (E & _). congruence.
      * intros Hp. rewrite (ev_same _ _ _ _ _ _ Hev) by (by left). done.
    + intros s2 Hr2 Hla2 Hnp. apply HQ; [done| |done]. by eapply later_trans.
  - apply io_ret, HQ; [done|by apply later_same|]. rewrite <- Hn. done.
Qed.
Lemma io_wait i v own s bp (Q : unit -> bio -> Prop) : rep s v own -> bufl s !! i = Some bp ->
  (on bp BFNTP = true <-> i ∈ pending s) ->
  (forall s', rep s' v own -> later v s s' -> i ∉ pending s' -> Q tt s') -> io (wait_io i) Q s.
Proof. intros Hr Hi Hn HQ. unfold wait_io. apply io_bind, io_gets. eapply io_wait_loop; [done|done|done|lia|done]. Qed.

(** Locking a buffer that is free or with the driver. *)
Lemma io_lock_loop i v n : forall s bp, rep s v None -> bufl s !! i = Some bp -> v_held v !! i = None ->
  (length (pending s) < n)%nat ->
  forall (Q : unit -> bio -> Prop), (forall s' bp', rep s' v None -> later v s s' -> bufl s' !! i = Some bp' -> b_gate bp' = false ->
    Q tt (updb i (set_b_gate true) s')) -> io (lock_loop n i) Q s.
Proof.
  induction n as [|n IH]; intros s bp Hr Hi Hh Hl Q HQ; [lia|]. cbn [lock_loop]. apply io_bind. eapply io_getb; [done|].
  destruct (b_gate bp) eqn:Eb.
  - pose proof (c_buf _ _ _ _ _ _ _ Hr i bp Hi) as (_ & _ & Hb). rewrite Hh in Hb. unfold isin, isown in Hb.
    destruct (bool_decide (i ∈ pending s)) eqn:Ep; [|destruct Hb as [Hb _]; congruence]. apply bool_decide_eq_true in Ep.
    apply io_bind. eapply io_sleep; [done|by intros E; rewrite E in Ep; apply elem_of_nil in Ep|].
    intros s' Hr' Hla Hlt. destruct (la_buf _ _ _ Hla i bp Hi) as (bp' & Hi' & Hev).
    apply (IH s' bp' Hr' Hi' Hh); [lia|]. intros s2 bp2 Hr2 Hla2 Hi2 Hg2. eapply HQ; [done| |done|done]. by eapply later_trans.
  - apply io_modify. eapply HQ; [done|by apply later_same|done|done].
Qed.
Lemma io_lock i v s bp (Q : unit -> bio -> Prop) : rep s v None -> bufl s !! i = Some bp -> v_held v !! i = None ->
  (forall s' bp', rep s' v None -> later v s s' -> bufl s' !! i = Some bp' -> b_gate bp' = false -> key bp' = key bp ->
    (b_gate bp = false -> bp' = bp) -> Q tt (updb i (set_b_gate true) s')) -> io (lock i) Q s.
Proof.
  intros Hr Hi Hh HQ. unfold lock. apply io_bind, io_gets. eapply io_lock_loop; [done|done|done|lia|].
  intros s' bp' Hr' Hla Hi' Hg. destruct (la_buf _ _ _ Hla i bp Hi) as (b2 & Hi2 & Hev). rewrite Hi2 in Hi'. injection Hi' as <-.
  eapply HQ; [done|done|done|done|by apply Hev|]. intros Hf. apply Hev. right. intros Hin.
  pose proof (c_buf _ _ _ _ _ _ _ Hr i bp Hi) as (_ & _ & Hb). unfold isin in Hb. rewrite Hh, bool_decide_true in Hb by done.
  destruct Hb as [(? & _) _]. congruence.
Qed.

(** ** Changes of one buffer *)

Lemma isin_false i pd : i ∉ pd -> isin i pd = false.
Proof. intros. unfold isin. by apply bool_decide_false. Qed.
Lemma isin_true i pd : i ∈ pd -> isin i pd = true.
Proof. intros. unfold isin. by apply bool_decide_true. Qed.
Lemma isown_self i : isown i (Some i) = true.
Proof. unfold isown. by apply bool_decide_true. Qed.

Lemma good_dev s v own k : rep s v own -> dgood s k = true -> k.1 <> NODEV.
Proof. intros Hr Hg E. destruct k as [d b]. cbn in E. subst d. by rewrite (c_nodev _ _ _ _ _ _ _ Hr) in Hg. Qed.

(** A free buffer is neither held nor with the driver. *)
Lemma free_status s v own i bp : rep s v own -> bufl s !! i = Some bp -> b_gate bp = false ->
  (i ∉ pending s) /\ v_held v !! i = None /\ own <> Some i /\ on bp BFNTP = false /\
  (b_dev bp <> NODEV -> b_data bp = v_blk v (key bp)) /\ (on bp BFMOD = true -> dgood s (key bp) = true).
Proof.
  intros Hr Hi Hg. pose proof (c_buf _ _ _ _ _ _ _ Hr i bp Hi) as (_ & _ & Hb). unfold isin, isown in Hb.
  destruct (bool_decide_reflect (i ∈ pending s)) as [Hp|Hp], (v_held v !! i), (bool_decide_reflect (own = Some i)) as [Ho|Ho]; try done.
  - destruct Hb as [(? & _) _]. congruence.
  - destruct Hb as [(? & _) _]. congruence.
  - destruct Hb as (? & _). congruence.
  - destruct Hb as (? & _). congruence.
  - destruct Hb as (_ & ? & ? & ?). done.
Qed.

(** A buffer that is not with the driver changes, keeping its block. *)
Lemma rep_upd_same s s' v v' own own' i bp bp' : rep s v own -> bufl s !! i = Some bp -> i ∉ pending s -> set_buf i bp' s s' ->
  key bp' = key bp -> (on bp' BFMOD = false -> on bp BFMOD = false) ->
  (forall j, j <> i -> v_held v' !! j = v_held v !! j) -> v_good v' = v_good v -> v_blk v' = v_blk v ->
  (forall j, j <> i -> (own' = Some j <-> own = Some j)) ->
  buf_ok (dgood s) (v_blk v) false (v_held v' !! i) (isown i own') bp' -> rep s' v' own'.
Proof.
  intros Hr Hi Hp [E1 E2 E3 E4 E5 E6] Hk Hm Hh Hg Hbl Ho Hok. unfold rep. rewrite E1, E2, E3, E6, (dgood_same _ _ E4 E5).
  eapply (repc_upd _ _ _ _ _ _ _ i bp); [exact Hr|done|by apply Hr|done|done|done|done| |by rewrite Hbl|by rewrite isin_false, Hbl|by apply Hr|].
  - intros j bq Hj Hbq E. destruct (decide (b_dev bp' = NODEV)) as [|Hd]; [done|]. exfalso. apply Hj. symmetry.
    eapply (c_uniq _ _ _ _ _ _ _ Hr); [done|done|congruence|]. injection Hk as Hk _. congruence.
  - intros k Hgk Hi' Hoth. rewrite Hbl. apply (c_disk _ _ _ _ _ _ _ Hr); [done|]. intros j bq Hj E.
    destruct (decide (j = i)) as [->|Hne]; [|by apply (Hoth j bq)]. rewrite Hi in Hj. injection Hj as <-.
    split; [apply Hm, Hi'; congruence|done].
Qed.

Lemma rep_lock s v i bp : rep s v None -> bufl s !! i = Some bp -> b_gate bp = false -> rep (updb i (set_b_gate true) s) v (Some i).
Proof.
  intros Hr Hi Hg. destruct (free_status s v None i bp Hr Hi Hg) as (Hp & Hh & _ & _ & _ & Hm).
  pose proof (c_buf _ _ _ _ _ _ _ Hr i bp Hi) as (He & Hl & _).
  eapply rep_upd_same; [exact Hr|exact Hi|done|by apply updb_set|done|done|done|done|done|intros j Hj; by split; [intros [= ->]|]|].
  split; [done|]. split; [done|]. rewrite Hh, isown_self. done.
Qed.

(** The operation changes the flags of its own buffer. *)
Lemma rep_own s s' v i bp bp' : rep s v (Some i) -> bufl s !! i = Some bp -> i ∉ pending s -> set_buf i bp' s s' ->
  key bp' = key bp -> b_data bp' = b_data bp -> b_gate bp' = b_gate bp -> on bp' BFERR = on bp BFERR -> on bp' BFMOD = on bp BFMOD ->
  rep s' v (Some i).
Proof.
  intros Hr Hi Hp Hs Hk Hd Hg He Hm. pose proof (c_buf _ _ _ _ _ _ _ Hr i bp Hi) as (He0 & Hl & Hb).
  eapply rep_upd_same; [exact Hr|exact Hi|done|exact Hs|done|congruence|done|done|done|done|].
  split; [congruence|]. split; [congruence|]. rewrite isin_false, isown_self in * by done. destruct (v_held v !! i); [done|]. rewrite Hg, Hm, Hk. done.
Qed.

Lemma own_not_held s v i bp : rep s v (Some i) -> bufl s !! i = Some bp -> v_held v !! i = None.
Proof.
  intros Hr Hi. pose proof (c_buf _ _ _ _ _ _ _ Hr i bp Hi) as (_ & _ & Hb). rewrite isown_self in Hb. by destruct (isin i (pending s)), (v_held v !! i).
Qed.

(** The buffer goes to the driver; an asynchronous request is given up by the
    operation. *)
Lemma rep_submit s v i bp o : rep s v (Some i) -> bufl s !! i = Some bp -> i ∉ pending s -> io_ok (v_blk v) (dgood s) bp ->
  on bp BFASY = negb o -> rep (set_pending (pending s ++ [i]) s) v (if o then Some i else None).
Proof.
  intros Hr Hi Hp Hio Ha. pose proof (c_buf _ _ _ _ _ _ _ Hr i bp Hi) as (He & Hl & _). pose proof (own_not_held _ _ _ _ Hr Hi) as Hh.
  unfold rep. cbn [bufl pending disk set_pending]. change (dgood (set_pending (pending s ++ [i]) s)) with (dgood s).
  assert (i ∈ pending s ++ [i]) as Hin by (apply elem_of_app; right; by apply list_elem_of_singleton).
  rewrite <- (list_insert_id (bufl s) i bp) by done.
  eapply (repc_upd _ _ _ _ _ _ _ i bp); [exact Hr|done| | |done|done| | |done| |by apply Hr|].
  - apply NoDup_app. split; [by apply Hr|]. split; [|apply NoDup_singleton]. by intros j Hj ->%list_elem_of_singleton.
  - intros j Hj. rewrite elem_of_app, list_elem_of_singleton. tauto.
  - intros j Hj. destruct o; [done|]. split; [done|]. by intros [= ->].
  - intros j bq Hj Hbq E. destruct (decide (b_dev bp = NODEV)) as [|Hd]; [done|]. exfalso. apply Hj. symmetry.
    by eapply (c_uniq _ _ _ _ _ _ _ Hr).
  - split; [done|]. split; [done|]. rewrite isin_true, Hh by done. split; [done|]. rewrite Ha. destruct o; [by rewrite isown_self|]. done.
  - intros k Hgk Hi' Hoth. apply (c_disk _ _ _ _ _ _ _ Hr); [done|]. intros j bq Hj E.
    destruct (decide (j = i)) as [->|Hne]; [|by apply (Hoth j bq)]. rewrite Hi in Hj. injection Hj as <-.
    destruct (Hi' E) as [? _]. split; [done|]. by intros ?.
Qed.

(** The operation hands its buffer to the caller. *)
Lemma rep_hold s v i bp hb : rep s v (Some i) -> bufl s !! i = Some bp -> i ∉ pending s -> key bp = h_key hb -> b_data bp = h_data hb ->
  h_mod hb = false -> rep s (put_held i hb v) None.
Proof.
  intros Hr Hi Hp Hk Hd Hm. pose proof (own_not_held _ _ _ _ Hr Hi) as Hh. pose proof (c_buf _ _ _ _ _ _ _ Hr i bp Hi) as (He & Hl & Hb).
  rewrite isin_false, isown_self, Hh in Hb by done. destruct Hb as [Hg Hmd].
  eapply rep_upd_same; [exact Hr|exact Hi|done|by apply set_buf_same|done|done| |done|done| |].
  - intros j Hj. cbn. by rewrite lookup_insert_ne.
  - intros j Hj. split; [done|by intros [= ->]].
  - split; [done|]. split; [done|]. cbn [v_held put_held]. rewrite lookup_insert_eq. split; [done|]. split; [done|]. split; [done|].
    split; [by rewrite Hm|]. intros Ht. right. by apply Hmd.
Qed.

(** What a caller has in its hands. *)
Lemma held_status s v h hb : rep s v None -> v_held v !! h = Some hb -> exists bp, bufl s !! h = Some bp /\ (h ∉ pending s) /\
  on bp BFERR = false /\ b_gate bp = true /\ key bp = h_key hb /\ b_data bp = h_data hb /\ Z.of_nat (length (b_data bp)) = BSIZE /\
  (h_mod hb = true -> on bp BFMOD = true) /\ (on bp BFMOD = true -> h_mod hb = true \/ dgood s (key bp) = true).
Proof.
  intros Hr Hh. destruct (lookup_lt_is_Some_2 (bufl s) h (c_held _ _ _ _ _ _ _ Hr h hb Hh)) as [bp Hi]. exists bp. split; [done|].
  pose proof (c_buf _ _ _ _ _ _ _ Hr h bp Hi) as (He & Hl & Hb). rewrite Hh in Hb. unfold isin in Hb.
  destruct (bool_decide_reflect (h ∈ pending s)) as [Hp|Hp]; [done|]. destruct Hb as (? & ? & ? & ? & ?). by split_and!.
Qed.

Lemma rep_store s v h hb d : rep s v None -> v_held v !! h = Some hb -> Z.of_nat (length d) = BSIZE ->
  rep (updb h (set_b_data d) s) (put_held h (Hbuf (h_key hb) (h_mod hb) d) v) None.
Proof.
  intros Hr Hh Hd. destruct (held_status s v h hb Hr Hh) as (bp & Hi & Hp & He & Hg & Hk & Hdt & Hl & Hm1 & Hm2).
  eapply rep_upd_same; [exact Hr|exact Hi|done|by apply updb_set|done|done| |done|done|done|].
  - intros j Hj. cbn. by rewrite lookup_insert_ne.
  - split; [done|]. split; [done|]. cbn [v_held put_held]. rewrite lookup_insert_eq. done.
Qed.

Lemma rep_setmod s v h hb : rep s v None -> v_held v !! h = Some hb ->
  rep (updb h (raise BFMOD) s) (put_held h (Hbuf (h_key hb) true (h_data hb)) v) None.
Proof.
  intros Hr Hh. destruct (held_status s v h hb Hr Hh) as (bp & Hi & Hp & He & Hg & Hk & Hdt & Hl & Hm1 & Hm2).
  assert (on (raise BFMOD bp) BFMOD = true) as Ht by (by apply on_raise).
  eapply rep_upd_same; [exact Hr|exact Hi|done|by apply updb_set|done|by rewrite Ht| |done|done|done|].
  - intros j Hj. cbn. by rewrite lookup_insert_ne.
  - split; [by rewrite on_raise_ne|]. split; [done|]. cbn [v_held put_held]. rewrite lookup_insert_eq. split; [done|]. split; [done|]. split; [done|].
    split; [by intros _|]. intros _. by left.
Qed.

(** A change of a held buffer together with what the file system sees in its block. *)
Lemma rep_upd_blk s s' v own i bp bp' hb pd' d o : rep s v own -> own = None \/ own = Some i -> bufl s !! i = Some bp -> i ∉ pending s ->
  bufl s' = <[i := bp']> (bufl s) -> pending s' = pd' -> disk s' = disk s -> dgood s' = dgood s -> u_error s' = u_error s ->
  NoDup pd' -> (forall j, j <> i -> (j ∈ pd' <-> j ∈ pending s)) ->
  key bp' = key bp -> b_dev bp <> NODEV -> (on bp' BFMOD = true \/ (i ∈ pd' /\ b_req bp' = BWRITE)) ->
  let v' := put_blk (key bp) d hb in
  v_blk hb = v_blk v -> v_good hb = v_good v -> (forall j, j <> i -> v_held hb !! j = v_held v !! j) ->
  buf_ok (dgood s) (v_blk v') (isin i pd') (v_held hb !! i) o bp' -> rep s' v' (if o then Some i else None).
Proof.
  intros Hr Ho Hi Hp E1 E2 E3 E4 E5 Hnd Hpd Hk Hd Hm v' Hbl Hg Hh Hok. unfold rep. rewrite E1, E2, E3, E4, E5.
  assert (forall j bq, j <> i -> bufl s !! j = Some bq -> key bq <> key bp) as Hne.
  { intros j bq Hj Hbq E. apply Hj. symmetry. by eapply (c_uniq _ _ _ _ _ _ _ Hr). }
  eapply (repc_upd _ _ _ _ _ _ _ i bp); [exact Hr|done|done|done|done|done| | | | |by apply Hr|].
  - intros j Hj. destruct o, Ho as [->| ->]; split; try done; intros [= ->]; done.
  - intros j bq Hj Hbq E. destruct (Hne j bq Hj Hbq). congruence.
  - intros j bq Hj Hbq _. unfold v'. rewrite blk_put_ne by (by apply (Hne j)). by rewrite Hbl.
  - replace (isown i (if o then Some i else None)) with o; [done|]. by destruct o; rewrite ?isown_self.
  - intros k Hgk Hi' Hoth. destruct (decide (k = key bp)) as [->|Hkne].
    + exfalso. destruct (Hi' Hk) as [H1 H2]. destruct Hm as [Hm|[Hm1 Hm2]]; [congruence|]. by apply H2.
    + unfold v'. rewrite blk_put_ne by done. rewrite Hbl. apply (c_disk _ _ _ _ _ _ _ Hr); [done|]. intros j bq Hj E.
      destruct (decide (j = i)) as [->|Hne']; [|by apply (Hoth j bq)]. rewrite Hi in Hj. injection Hj as <-. done.
Qed.

Lemma rep_brelease s v h hb : rep s v None -> v_held v !! h = Some hb -> releasable v hb ->
  rep (brelease_s h s) (drop_held h (released hb v)) None.
Proof.
  intros Hr Hh Hrel. destruct (held_status s v h hb Hr Hh) as (bp & Hi & Hp & He & Hg & Hk & Hdt & Hl & Hm1 & Hm2).
  destruct (brelease_spec s h bp Hi He) as (bp' & Hs & (K1 & K2 & K3 & K4) & Hg' & Hn & Hf & _).
  pose proof (Hf BFERR eq_refl) as He'. pose proof (Hf BFMOD eq_refl) as Hm'.
  assert (forall j, j <> h -> delete h (v_held v) !! j = v_held v !! j) as Hoth by (intros j Hj; by rewrite lookup_delete_ne).
  unfold releasable, released in *. destruct (h_mod hb) eqn:Em.
  - assert (dgood s (key bp) = true) as Hgd by (rewrite <- (c_good _ _ _ _ _ _ _ Hr); by rewrite Hk).
    pose proof (good_dev _ _ _ _ Hr Hgd) as Hd. pose proof Hs as [E1 E2 E3 E4 E5 E6]. rewrite <- Hk.
    change (drop_held h (put_blk (key bp) (h_data hb) v)) with (put_blk (key bp) (h_data hb) (drop_held h v)).
    eapply (rep_upd_blk s _ v None h bp bp' (drop_held h v) (pending s) (h_data hb) false);
      [exact Hr|by left|done|done|done|done|done|by apply dgood_same|done|by apply Hr|done|done|done| |done|done|done|].
    + left. rewrite Hm'. by apply Hm1.
    + split; [congruence|]. split; [congruence|]. rewrite isin_false by done. cbn [v_held drop_held]. rewrite lookup_delete_eq.
      split; [done|]. split; [done|]. rewrite K1. split; [|done]. intros _. rewrite blk_put. congruence.
  - eapply rep_upd_same; [exact Hr|exact Hi|done|exact Hs|done|congruence|done|done|done|done|].
    split; [congruence|]. split; [congruence|]. cbn [v_held drop_held]. rewrite lookup_delete_eq. split; [done|]. split; [done|]. rewrite K1, Hm'.
    split.
    + intros Hd. destruct Hrel as [E|E]; [rewrite K3, Hdt, Hk; done|]. exfalso. rewrite <- Hk in E. injection K1 as K1 _. cbn in E. congruence.
    + intros Ht. destruct (Hm2 Ht) as [?|?]; [done|done].
Qed.

(** A write of a held buffer starts: what it holds is now what the block holds. *)
Lemma rep_write s s' v h hb bp' o : rep s v None -> v_held v !! h = Some hb -> v_good v (h_key hb) = true ->
  bufl s' = <[h := bp']> (bufl s) -> pending s' = pending s ++ [h] -> disk s' = disk s -> dgood s' = dgood s -> u_error s' = u_error s ->
  key bp' = h_key hb -> b_data bp' = h_data hb -> b_gate bp' = true -> on bp' BFERR = false -> b_req bp' = BWRITE -> on bp' BFASY = negb o ->
  rep s' (put_blk (h_key hb) (h_data hb) (drop_held h v)) (if o then Some h else None).
Proof.
  intros Hr Hh Hgd E1 E2 E3 E4 E5 Hk' Hd' Hg' He' Hq' Ha'.
  destruct (held_status s v h hb Hr Hh) as (bp & Hi & Hp & He & Hg & Hk & Hdt & Hl & Hm1 & Hm2).
  assert (dgood s (key bp) = true) as Hgd' by (rewrite <- (c_good _ _ _ _ _ _ _ Hr); by rewrite Hk).
  pose proof (good_dev _ _ _ _ Hr Hgd') as Hd. rewrite <- Hk in *.
  assert (h ∈ pending s ++ [h]) as Hin by (apply elem_of_app; right; by apply list_elem_of_singleton).
  eapply (rep_upd_blk s _ v None h bp bp' (drop_held h v) (pending s ++ [h]) (h_data hb) o);
    [exact Hr|by left|done|done|done|done|done|done|done| | |done|done| |done|done| |].
  - apply NoDup_app. split; [by apply Hr|]. split; [|apply NoDup_singleton]. by intros j Hj ->%list_elem_of_singleton.
  - intros j Hj. rewrite elem_of_app, list_elem_of_singleton. tauto.
  - by right.
  - intros j Hj. cbn. by rewrite lookup_delete_ne.
  - split; [done|]. split; [congruence|]. rewrite isin_true by done. cbn [v_held drop_held]. rewrite lookup_delete_eq.
    split; [|done]. split; [done|]. rewrite Hk'. split; [done|]. right. split; [done|]. by rewrite blk_put.
Qed.

(** ** The procedures *)

Lemma io_putb i f bp (Q : unit -> bio -> Prop) s : bufl s !! i = Some bp -> (forall s', set_buf i (f bp) s s' -> Q tt s') -> io (putb i f) Q s.
Proof. intros Hi HQ. apply io_modify, HQ. by apply updb_set. Qed.

Lemma io_dblock i k (Q : unit -> bio -> Prop) s : dgood s k = true ->
  (forall s', bufl s' = bufl s -> pending s' = pending s ++ [i] -> disk s' = disk s -> dgood s' = dgood s -> u_error s' = u_error s -> Q tt s') ->
  io (dblock k.1 i) Q s.
Proof.
  intros Hg HQ. unfold dblock, drvmap. unfold dgood in Hg. apply io_bind, io_bind, io_get.
  destruct (drvl s !! Z.to_nat (major k.1)) as [dp|]; [|done].
  apply andb_true_iff in Hg as [[Hg1 Hg2]%andb_true_iff _]. apply negb_true_iff in Hg1. rewrite Hg1, Hg2. cbn [negb].
  apply io_bind. destruct (negb (d_map dp =? 0)); [apply io_modify|apply io_ret]; apply io_ret; apply io_bind, io_modify, io_modify, HQ; done.
Qed.

(** The request that a write hands to the driver. *)
Record request (rq : Z) (f : bool) (bp bp' : BUF) : Prop := {
  rq_key : key bp' = key bp;
  rq_data : b_data bp' = b_data bp;
  rq_gate : b_gate bp' = b_gate bp;
  rq_req : b_req bp' = rq;
  rq_asy : on bp' BFASY = negb f;
  rq_err : on bp' BFERR = on bp BFERR;
  rq_mod : on bp' BFMOD = on bp BFMOD;
  rq_ntp : rq = BWRITE \/ on bp BFNTP = true -> on bp' BFNTP = true
}.
Definition asked (i : nat) (rq : Z) (f : bool) (bp : BUF) (s s' : bio) : Prop :=
  exists bp', request rq f bp bp' /\ bufl s' = <[i := bp']> (bufl s) /\ pending s' = pending s ++ [i] /\ disk s' = disk s /\ dgood s' = dgood s /\
    u_error s' = u_error s.

Definition asyb (f : bool) (b : BUF) : BUF := if f then clr BFASY b else bumap (raise BFASY b).
Lemma asyb_same f b : key (asyb f b) = key b /\ b_data (asyb f b) = b_data b /\ b_gate (asyb f b) = b_gate b /\
  on (asyb f b) BFASY = negb f /\ forall g, Z.land (Z.lor BFASY BFMAP) g = 0 -> on (asyb f b) g = on b g.
Proof.
  assert (forall g, Z.land (Z.lor BFASY BFMAP) g = 0 -> Z.land BFASY g = 0 /\ Z.land BFMAP g = 0) as Hg.
  { intros g Hg. split; [rewrite (eq_refl : BFASY = Z.land BFASY (Z.lor BFASY BFMAP))|rewrite (eq_refl : BFMAP = Z.land BFMAP (Z.lor BFASY BFMAP))];
      rewrite <- Z.land_assoc, Hg; apply Z.land_0_r. }
  unfold asyb. destruct f.
  - split_and!; try done; [apply on_clr|]. intros g [H1 H2]%Hg. by apply on_clr_ne.
  - destruct (bumap_same (raise BFASY b)) as (E1 & E2 & E3 & E4 & E5 & E6 & Ef). unfold key. rewrite E1, E2, E3, E5.
    split_and!; try done; [rewrite Ef by done; by apply on_raise|]. intros g [H1 H2]%Hg. rewrite Ef by done. by apply on_raise_ne.
Qed.

Lemma io_bwrite i f bp (Q : unit -> bio -> Prop) s : bufl s !! i = Some bp -> dgood s (key bp) = true ->
  (forall s', asked i BWRITE f bp s s' -> io (if f then wait_io i else spl) Q s') -> io (bwrite i f) Q s.
Proof.
  intros Hi Hg HQ. unfold bwrite. apply io_bind. eapply io_putb; [done|]. intros s1 H1.
  fold (asyb f bp) in H1. destruct (asyb_same f bp) as (A1 & A2 & A3 & A4 & A5).
  apply io_bind. eapply io_putb; [by eapply set_buf_lookup|]. intros s2 H2. pose proof (set_buf_trans _ _ _ _ _ _ H1 H2) as H12.
  apply io_bind. eapply io_putb; [by eapply set_buf_lookup|]. intros s3 H3. pose proof (set_buf_trans _ _ _ _ _ _ H12 H3) as H13.
  apply io_bind. eapply io_putb; [by eapply set_buf_lookup|]. intros s4 H4. pose proof (set_buf_trans _ _ _ _ _ _ H13 H4) as [E1 E2 E3 E4 E5 E6].
  apply io_bind. eapply io_getb; [by eapply set_buf_lookup, Hi; eapply set_buf_trans|].
  apply io_bind. change (b_dev (set_b_count BSIZE (set_b_req BWRITE (raise BFNTP (asyb f bp))))) with (key (asyb f bp)).1. rewrite A1.
  apply (io_dblock i (key bp)); [by rewrite (dgood_same _ _ E4 E5)|]. intros s5 F1 F2 F3 F4 F5. apply HQ.
  exists (set_b_count BSIZE (set_b_req BWRITE (raise BFNTP (asyb f bp)))). split.
  - assert (forall g, on (set_b_count BSIZE (set_b_req BWRITE (raise BFNTP (asyb f bp)))) g = on (raise BFNTP (asyb f bp)) g) as Eo by done.
    split; try done; rewrite Eo; [by rewrite on_raise_ne|rewrite on_raise_ne by done; by apply A5..|]. intros _. by apply on_raise.
  - rewrite F1, F2, F3, F4, F5, E1, E2, E3, E6. by rewrite (dgood_same _ _ E4 E5).
Qed.

(** *** bclaim *)

Lemma older_spec bs bp i best : older bs bp i best = best \/ (older bs bp i best).1 = Some i /\ b_gate bp = false.
Proof. unfold older. destruct (b_gate bp); [by left|]. case_match; [by right|by left]. Qed.

Lemma oldest_some l : forall i0 bs best i, fst (oldest l i0 bs best) = Some i -> fst best = Some i \/
  exists bp, (i0 <= i)%nat /\ l !! (i - i0)%nat = Some bp /\ b_gate bp = false.
Proof.
  induction l as [|bp l IH]; intros i0 bs best i E; cbn [oldest] in E; [by left|].
  destruct (IH _ _ _ _ E) as [E1|(b & Hl & Hb & Hg)].
  - destruct (older_spec bs bp i0 best) as [E2|[E2 Hg]]; [left; by rewrite E2 in E1|right]. rewrite E2 in E1. injection E1 as <-.
    exists bp. rewrite Nat.sub_diag. split; [lia|done].
  - right. exists b. split; [lia|]. split; [|done]. replace (i - i0)%nat with (S (i - S i0)) by lia. done.
Qed.

Lemma oldest_keeps l : forall i0 bs best, fst best <> None -> fst (oldest l i0 bs best) <> None.
Proof.
  induction l as [|bp l IH]; intros i0 bs best Hb; cbn [oldest]; [done|]. apply IH.
  destruct (older_spec bs bp i0 best) as [->|[-> _]]; done.
Qed.
Lemma oldest_none l : forall i0 bs, fst (oldest l i0 bs (None, 0)) = None ->
  oldest l i0 bs (None, 0) = (None, 0) /\ Forall (fun bp => b_gate bp = true) l.
Proof.
  induction l as [|bp l IH]; intros i0 bs E; cbn [oldest] in *; [done|]. unfold older in *. destruct (b_gate bp) eqn:Eg.
  - destruct (IH _ _ E). split; [done|]. by constructor.
  - exfalso. revert E. cbn [snd]. pose proof (u16_range (bs - b_seqn bp)). rewrite (proj2 (Z.leb_le 0 _)) by lia. by apply oldest_keeps.
Qed.

Lemma claim_scan_inl l : forall i0 dev bno bs best i, claim_scan l i0 dev bno bs best = inl i ->
  exists bp, (i0 <= i)%nat /\ l !! (i - i0)%nat = Some bp /\ key bp = (dev, bno).
Proof.
  induction l as [|bp l IH]; intros i0 dev bno bs best i E; cbn [claim_scan] in E; [done|].
  destruct ((b_dev bp =? dev) && (b_bno bp =? bno)) eqn:Ek.
  - injection E as <-. exists bp. rewrite Nat.sub_diag. apply andb_true_iff in Ek as [E1%Z.eqb_eq E2%Z.eqb_eq].
    split; [lia|]. split; [done|]. unfold key. congruence.
  - destruct (IH _ _ _ _ _ _ E) as (b & Hl & Hb & Hk). exists b. split; [lia|]. split; [|done].
    replace (i - i0)%nat with (S (i - S i0)) by lia. done.
Qed.
Lemma claim_scan_inr l : forall i0 dev bno bs best r, claim_scan l i0 dev bno bs best = inr r ->
  r = oldest l i0 bs best /\ Forall (fun bp => key bp <> (dev, bno)) l.
Proof.
  induction l as [|bp l IH]; intros i0 dev bno bs best r E; cbn [claim_scan] in E; [by injection E as <-|].
  destruct ((b_dev bp =? dev) && (b_bno bp =? bno)) eqn:Ek; [done|]. destruct (IH _ _ _ _ _ _ E) as [-> Hf].
  split; [done|]. constructor; [|done]. intros [= E1 E2]. rewrite E1, E2, !Z.eqb_refl in Ek. done.
Qed.

(** The free buffers that must be written before they can be used again. *)
#[export] Instance dirty_dec b : Decision (dirty b).
Proof. unfold dirty. apply _. Defined.
Definition ndirty (l : list BUF) : nat := length (filter dirty l).

Lemma ndirty_mono l l' : Forall2 (fun b b' => dirty b' -> dirty b) l l' -> (ndirty l' <= ndirty l)%nat.
Proof.
  unfold ndirty. induction 1 as [|b b' l l' Hb _ IH]; [done|]. rewrite !filter_cons.
  destruct (decide (dirty b')), (decide (dirty b)); cbn [length]; try lia. tauto.
Qed.
Lemma ndirty_insert l i b b' : l !! i = Some b -> dirty b -> ~ dirty b' -> (ndirty (<[i := b']> l) < ndirty l)%nat.
Proof.
  unfold ndirty. revert i. induction l as [|b0 l IH]; intros [|i] Hi Hb Hb'; [done..| |].
  - injection Hi as ->. change (<[0%nat := b']> (b :: l)) with (b' :: l). rewrite !filter_cons, decide_False, decide_True by done. cbn [length]. lia.
  - change (<[S i := b']> (b0 :: l)) with (b0 :: <[i := b']> l). pose proof (IH i Hi Hb Hb') as Hlt. rewrite !filter_cons. destruct (decide (dirty b0)); cbn [length]; lia.
Qed.
Lemma ndirty_length l : (ndirty l <= length l)%nat.
Proof. apply length_filter. Qed.
Lemma ndirty_zero l i b : ndirty l = O -> l !! i = Some b -> ~ dirty b.
Proof.
  unfold ndirty. intros E Hi Hd. apply length_zero_iff_nil in E. assert (b ∈ filter dirty l) as Hin; [|by rewrite E in Hin; apply elem_of_nil in Hin].
  apply list_elem_of_filter. split; [done|]. by eapply list_elem_of_lookup_2.
Qed.

Lemma later_dirty v s s' : later v s s' -> rep s v None -> (ndirty (bufl s') <= ndirty (bufl s))%nat.
Proof.
  intros Hl Hr. apply ndirty_mono. apply Forall2_same_length_lookup_2; [by rewrite (la_len _ _ _ Hl)|].
  intros i b b' Hi Hi'. destruct (la_buf _ _ _ Hl i b Hi) as (b2 & Hi2 & [Hk Hs Hd]). rewrite Hi2 in Hi'. injection Hi' as ->.
  intros Hdt. destruct (decide (i ∈ pending s')) as [Hp|Hp]; [by rewrite <- Hs by (by left)|].
  destruct (decide (i ∈ pending s)) as [Hp'|Hp']; [|by rewrite <- Hs by (by right)].
  destruct (Hd Hp' Hp) as (_ & Hm & _). destruct Hdt. congruence.
Qed.
(** A free buffer stays free. *)
Lemma later_free v s s' i b : later v s s' -> rep s v None -> bufl s !! i = Some b -> b_gate b = false -> bufl s' !! i = Some b.
Proof.
  intros Hl Hr Hi Hg. destruct (free_status _ _ _ _ _ Hr Hi Hg) as (Hp & _). destruct (la_buf _ _ _ Hl i b Hi) as (b' & Hi' & Hev).
  by rewrite (ev_same _ _ _ _ _ _ Hev) in Hi' by (by right).
Qed.

(** What [bclaim] gives to the procedure that called it. *)
Definition claimed (v : bview) (k : bkey) (gd : bkey -> bool) (i : nat) (s : bio) : Prop :=
  exists bp, rep s v (Some i) /\ bufl s !! i = Some bp /\ (i ∉ pending s) /\ key bp = k /\ dgood s = gd /\
    (on bp BFNTP = false -> k.1 <> NODEV -> b_data bp = v_blk v k) /\ (on bp BFNTP = true -> on bp BFMOD = false).

Lemma claimed_flag v k gd i s s' bp bp' : rep s v (Some i) -> bufl s !! i = Some bp -> (i ∉ pending s) -> key bp = k -> dgood s = gd ->
  (on bp BFNTP = false -> k.1 <> NODEV -> b_data bp = v_blk v k) -> (on bp BFNTP = true -> on bp BFMOD = false) ->
  set_buf i bp' s s' -> bp' = bsmap bp -> claimed v k gd i s'.
Proof.
  intros Hr Hi Hp Hk Hg Hd Hm Hs ->. destruct (bsmap_same bp) as (E1 & E2 & E3 & E4 & E5 & Ef).
  exists (bsmap bp). split; [eapply rep_own; try done; by apply Ef|]. split; [by eapply set_buf_lookup|].
  destruct Hs as [F1 F2 F3 F4 F5 F6]. rewrite F2. split; [done|]. split; [done|]. split; [by rewrite (dgood_same _ _ F4 F5)|].
  rewrite !Ef by done. done.
Qed.

(** A block that is in no buffer gets the free, clean buffer [i]. *)
Lemma rep_reuse s s' v i bp bp' k : rep s v (Some i) -> bufl s !! i = Some bp -> (i ∉ pending s) -> on bp BFMOD = false ->
  b_data bp = v_blk v (key bp) \/ b_dev bp = NODEV -> Forall (fun b => key b <> k) (bufl s) -> set_buf i bp' s s' ->
  key bp' = k -> b_data bp' = b_data bp -> b_gate bp' = b_gate bp -> on bp' BFERR = false -> on bp' BFMOD = false -> rep s' v (Some i).
Proof.
  intros Hr Hi Hp Hm Hold Hno [E1 E2 E3 E4 E5 E6] Hk Hd Hg He Hm'. pose proof (own_not_held _ _ _ _ Hr Hi) as Hh.
  pose proof (c_buf _ _ _ _ _ _ _ Hr i bp Hi) as (_ & Hl & Hb). rewrite isin_false, isown_self, Hh in Hb by done.
  unfold rep. rewrite E1, E2, E3, E6, (dgood_same _ _ E4 E5). rewrite Forall_lookup in Hno.
  eapply (repc_upd _ _ _ _ _ _ _ i bp); [exact Hr|done|by apply Hr|done|done|done|done| |done| |by apply Hr|].
  - intros j bq Hj Hbq E. exfalso. by apply (Hno j bq Hbq); rewrite E.
  - split; [done|]. split; [congruence|]. rewrite isin_false, isown_self, Hh by done. rewrite Hm', Hg. split; [tauto|done].
  - intros k' Hgk _ Hoth. apply (c_disk _ _ _ _ _ _ _ Hr); [done|]. intros j bq Hj E.
    destruct (decide (j = i)) as [->|Hne]; [|by apply (Hoth j bq)]. rewrite Hi in Hj. injection Hj as <-. done.
Qed.

Lemma io_reuse dev bno i bp s v (gd : bkey -> bool) (Q : nat -> bio -> Prop) : rep s v (Some i) -> bufl s !! i = Some bp -> (i ∉ pending s) ->
  on bp BFMOD = false -> b_data bp = v_blk v (key bp) \/ b_dev bp = NODEV -> Forall (fun b => key b <> (dev, bno)) (bufl s) -> dgood s = gd ->
  (forall s', claimed v (dev, bno) gd i s' -> Q i s') ->
  io (putb i (set_b_flag BFNTP) ;;; putb i (set_b_dev dev) ;;; putb i (set_b_bno bno) ;;; putb i bsmap ;;; kret i) Q s.
Proof.
  intros Hr Hi Hp Hm Hold Hno Hg HQ.
  apply io_bind. eapply io_putb; [done|]. intros s1 H1.
  apply io_bind. eapply io_putb; [by eapply set_buf_lookup|]. intros s2 H2. pose proof (set_buf_trans _ _ _ _ _ _ H1 H2) as H12.
  apply io_bind. eapply io_putb; [by eapply set_buf_lookup|]. intros s3 H3. pose proof (set_buf_trans _ _ _ _ _ _ H12 H3) as H13.
  apply io_bind. eapply io_putb; [by eapply set_buf_lookup|]. intros s4 H4. apply io_ret, HQ.
  set (b3 := set_b_bno bno (set_b_dev dev (set_b_flag BFNTP bp))) in *.
  assert (rep s3 v (Some i)) as Hr3.
  { eapply (rep_reuse s s3 v i bp b3 (dev, bno)); try done. }
  pose proof H13 as [F1 F2 F3 F4 F5 F6].
  eapply (claimed_flag v (dev, bno) gd i s3 s4 b3); [done|by eapply set_buf_lookup|by rewrite F2|done|by rewrite (dgood_same _ _ F4 F5)|done|done|done|done].
Qed.

(** The [again] loop ends: it writes the dirty free buffers, waits for at most
    one, and then finds one that is free and clean. *)
Definition enough (n : nat) (l : list BUF) : Prop :=
  (ndirty l + 2 <= n)%nat \/ ((1 <= n)%nat /\ ndirty l = O /\ exists i b, l !! i = Some b /\ b_gate b = false).

Lemma enough_later v s s' n : later v s s' -> rep s v None -> enough n (bufl s) -> enough n (bufl s').
Proof.
  intros Hl Hr [H1|(H1 & H2 & i & b & Hi & Hg)]; pose proof (later_dirty _ _ _ Hl Hr); [left; lia|right].
  split; [done|]. split; [lia|]. exists i, b. split; [|done]. by eapply later_free.
Qed.

Lemma all_locked_pending s v : rep s v None -> room v -> Forall (fun b => b_gate b = true) (bufl s) -> pending s <> [].
Proof.
  intros Hr Hroom Hall E. pose proof (c_size _ _ _ _ _ _ _ Hr) as Hsz. unfold room in Hroom.
  assert (length (bufl s) <= size (v_held v))%nat; [|lia]. rewrite <- size_dom, <- (length_seq (length (bufl s)) 0).
  rewrite <- (size_list_to_set (C := gset nat) (seq 0 (length (bufl s)))) by apply NoDup_seq.
  apply subseteq_size. intros i Hi. apply elem_of_list_to_set, elem_of_seq in Hi.
  destruct (lookup_lt_is_Some_2 (bufl s) i) as [b Hb]; [lia|]. rewrite Forall_lookup in Hall.
  pose proof (c_buf _ _ _ _ _ _ _ Hr i b Hb) as (_ & _ & Hok). rewrite E in Hok. unfold isin in Hok. rewrite bool_decide_false in Hok by apply not_elem_of_nil.
  apply elem_of_dom. destruct (v_held v !! i); [done|]. cbn in Hok. destruct Hok as (Hg & _). specialize (Hall i b Hb). cbn in Hall. congruence.
Qed.

Lemma unheld_lookup s v k i b : rep s v None -> unheld k v -> bufl s !! i = Some b -> key b = k -> v_held v !! i = None.
Proof.
  intros Hr Hu Hi Hk. destruct (v_held v !! i) as [hb|] eqn:E; [|done]. destruct (Hu i hb E).
  destruct (held_status s v i hb Hr E) as (b' & Hi' & _ & _ & _ & Hk' & _). congruence.
Qed.

(** The block is in a buffer. *)
Lemma io_claim_found n i b s v dev bno (Q : nat -> bio -> Prop) : rep s v None -> unheld (dev, bno) v ->
  bufl s !! i = Some b -> key b = (dev, bno) -> (forall i s', claimed v (dev, bno) (dgood s) i s' -> Q i s') ->
  io (lock i ;;;
      bp <- getb i ;;
      if negb (b_dev bp =? dev) || negb (b_bno bp =? bno) then unlock i ;;; bclaim_loop n dev bno
      else (if on bp BFERR then putb i (raise BFNTP) else kret tt) ;;; putb i bsmap ;;; kret i) Q s.
Proof.
  intros Hr Hu Hi Hk HQ. apply io_bind. eapply io_lock; [done|done|by eapply unheld_lookup|].
  intros s1 b1 Hr1 Hl1 Hi1 Hg1 Hk1 _. destruct (free_status s1 v None i b1 Hr1 Hi1 Hg1) as (Hp1 & Hh1 & _ & Hn1 & Hd1 & Hm1).
  pose proof (c_buf _ _ _ _ _ _ _ Hr1 i b1 Hi1) as (He1 & _).
  pose proof (updb_set i (set_b_gate true) s1 b1 Hi1) as Hs. pose proof (set_buf_lookup _ _ _ _ _ Hs Hi1) as Hi2.
  apply io_bind. eapply io_getb; [done|]. change (b_dev (set_b_gate true b1)) with (key b1).1. change (b_bno (set_b_gate true b1)) with (key b1).2.
  rewrite Hk1, Hk. cbn [fst snd]. rewrite !Z.eqb_refl. cbn [negb orb]. change (on (set_b_gate true b1) BFERR) with (on b1 BFERR). rewrite He1.
  apply io_bind, io_ret. apply io_bind. eapply io_putb; [done|]. intros s3 Hs3. apply io_ret, HQ.
  pose proof Hs as [F1 F2 F3 F4 F5 F6].
  eapply (claimed_flag v _ _ i _ s3 (set_b_gate true b1)); [by eapply rep_lock|done|by rewrite F2| | | | |done|done].
  - change (key b1 = (dev, bno)). congruence.
  - rewrite (dgood_same _ _ F4 F5). apply Hl1.
  - intros _ Hd. change (b_data b1 = v_blk v (dev, bno)). rewrite <- Hk, <- Hk1. apply Hd1. change ((key b1).1 <> NODEV). by rewrite Hk1, Hk.
  - intros Ht. change (on b1 BFNTP = true) in Ht. congruence.
Qed.

Lemma set_buf_rep i b s s1 s2 v own : set_buf i b s s1 -> set_buf i b s s2 -> rep s1 v own -> rep s2 v own.
Proof.
  intros [A1 A2 A3 A4 A5 A6] [B1 B2 B3 B4 B5 B6]. apply rep_same; [congruence..| |congruence]. by rewrite (dgood_same s s2), (dgood_same s s1).
Qed.

Lemma ndirty_locked l : Forall (fun b => b_gate b = true) l -> ndirty l = O.
Proof.
  unfold ndirty. induction 1 as [|b l Hb _ IH]; [done|]. rewrite filter_cons, decide_False; [done|]. intros [? _]. congruence.
Qed.

(** A completion frees a buffer. *)
Lemma later_frees s s' v : rep s v None -> rep s' v None -> later v s s' -> (length (pending s') < length (pending s))%nat ->
  exists i b, bufl s' !! i = Some b /\ b_gate b = false.
Proof.
  intros Hr Hr' Hl Hlt. destruct (decide (Forall (fun i => i ∈ pending s') (pending s))) as [Hall|Hex].
  { exfalso. assert (length (pending s) <= length (pending s'))%nat; [|lia]. apply submseteq_length, NoDup_submseteq; [by apply Hr|].
    intros i Hi. rewrite Forall_forall in Hall. by apply Hall. }
  apply not_Forall_Exists in Hex; [|apply _]. apply Exists_exists in Hex as (i & Hi & Hni). cbn in Hni.
  destruct (lookup_lt_is_Some_2 (bufl s) i (c_pd _ _ _ _ _ _ _ Hr i Hi)) as [b Hb].
  pose proof (c_buf _ _ _ _ _ _ _ Hr i b Hb) as (_ & _ & Hok). rewrite isin_true in Hok by done.
  destruct (la_buf _ _ _ Hl i b Hb) as (b' & Hb' & _). exists i, b'. split; [done|].
  pose proof (c_buf _ _ _ _ _ _ _ Hr' i b' Hb') as (_ & _ & Hok'). rewrite isin_false in Hok' by done.
  destruct (v_held v !! i); [done|]. by destruct Hok' as (? & _).
Qed.

(** A free buffer was picked. *)
Lemma io_claim_pick n i b s v dev bno (Q : nat -> bio -> Prop) : rep s v None -> bufl s !! i = Some b -> b_gate b = false ->
  Forall (fun b => key b <> (dev, bno)) (bufl s) -> enough (S n) (bufl s) ->
  (forall s', rep s' v None -> dgood s' = dgood s -> enough n (bufl s') -> io (bclaim_loop n dev bno) Q s') ->
  (forall i s', claimed v (dev, bno) (dgood s) i s' -> Q i s') ->
  io (lock i ;;;
      bp <- getb i ;;
      if on bp BFMOD then bwrite i false ;;; bclaim_loop n dev bno
      else putb i (set_b_flag BFNTP) ;;; putb i (set_b_dev dev) ;;; putb i (set_b_bno bno) ;;; putb i bsmap ;;; kret i) Q s.
Proof.
  intros Hr Hi Hg Hno Hen Hloop HQ. destruct (free_status s v None i b Hr Hi Hg) as (Hp & Hh & _ & Hn & Hd & Hm).
  pose proof (c_buf _ _ _ _ _ _ _ Hr i b Hi) as (He & Hlen & _).
  apply io_bind. unfold lock. apply io_bind, io_gets. cbn [lock_loop]. apply io_bind. eapply io_getb; [done|]. rewrite Hg.
  eapply io_putb; [done|]. intros s1 Hs1. pose proof (set_buf_lookup _ _ _ _ _ Hs1 Hi) as Hi1. pose proof Hs1 as [F1 F2 F3 F4 F5 F6].
  pose proof (set_buf_rep _ _ _ _ _ _ _ (updb_set i (set_b_gate true) s b Hi) Hs1 (rep_lock s v i b Hr Hi Hg)) as Hr1.
  apply io_bind. eapply io_getb; [done|]. change (on (set_b_gate true b) BFMOD) with (on b BFMOD). destruct (on b BFMOD) eqn:Em.
  - assert (dgood s1 (key (set_b_gate true b)) = true) as Hgd.
    { rewrite (dgood_same _ _ F4 F5). by apply Hm. }
    pose proof (good_dev _ _ _ _ Hr1 Hgd) as Hdev.
    apply io_bind. eapply io_bwrite; [done|done|]. intros s2 (b2 & [K1 K2 K3 K4 K5 K6 K7 K8] & E1 & E2 & E3 & E4 & E5).
    set (s1' := set_bufl (<[i := b2]> (bufl s1)) s1).
    assert (set_buf i b2 s1 s1') as Hs1' by done.
    assert (rep s1' v (Some i)) as Hr1' by (eapply (rep_own s1 s1' v i _ b2); try done; by rewrite F2).
    assert (rep s2 v None) as Hr2.
    { eapply rep_same; [..|apply (rep_submit s1' v i b2 false Hr1')]; try done.
      - cbn. apply list_lookup_insert_eq. by eapply lookup_lt_Some.
      - cbn. by rewrite F2.
      - split; [by rewrite K3|]. change (dgood s1') with (dgood s1). rewrite K1. split; [done|]. right. split; [done|]. rewrite K2. by apply Hd. }
    eapply io_spl; [exact Hr2|]. intros s3 Hr3 Hl3. apply Hloop; [done| |].
    + rewrite (la_good _ _ _ Hl3), E4. by apply dgood_same.
    + eapply enough_later; [done|done|]. destruct Hen as [Hen|(_ & H0 & _)].
      * left. rewrite E1, F1, list_insert_insert_eq.
        assert (ndirty (<[i := b2]> (bufl s)) < ndirty (bufl s))%nat; [|lia]. eapply ndirty_insert; [done|done|].
        intros [Hf _]. rewrite K3 in Hf. done.
      * exfalso. by eapply (ndirty_zero _ i b H0 Hi).
  - eapply (io_reuse dev bno i _ s1 v (dgood s)); [exact Hr1|done|by rewrite F2|exact Em| | |by apply dgood_same|intros s2; apply HQ].
    + change (b_data b = v_blk v (key b) \/ b_dev b = NODEV). destruct (decide (b_dev b = NODEV)); [by right|left; by apply Hd].
    + rewrite F1. by apply Forall_insert; [|apply Forall_lookup_1 with (1 := Hno) (2 := Hi)].
Qed.

Lemma io_bclaim_loop dev bno v n : forall s (Q : nat -> bio -> Prop), rep s v None -> unheld (dev, bno) v -> room v -> enough n (bufl s) ->
  (forall i s', claimed v (dev, bno) (dgood s) i s' -> Q i s') -> io (bclaim_loop n dev bno) Q s.
Proof.
  induction n as [|n IH]; intros s Q Hr Hu Hroom Hen HQ; [exfalso; destruct Hen as [?|[? _]]; lia|]. cbn [bclaim_loop].
  apply io_bind. eapply io_spl; [done|]. intros s1 Hr1 Hl1. pose proof (enough_later _ _ _ _ Hl1 Hr Hen) as Hen1.
  rewrite <- (la_good _ _ _ Hl1) in HQ. clear Hr Hen Hl1 s.
  apply io_bind, io_get. destruct (claim_scan (bufl s1) 0 dev bno (bufseqn s1) (None, 0)) as [i|[best seqn]] eqn:Esc.
  { destruct (claim_scan_inl _ _ _ _ _ _ _ Esc) as (b & _ & Hi & Hk). rewrite Nat.sub_0_r in Hi. by eapply io_claim_found. }
  destruct (claim_scan_inr _ _ _ _ _ _ _ Esc) as [Eo Hno].
  assert (forall s', rep s' v None -> dgood s' = dgood s1 -> enough n (bufl s') -> io (bclaim_loop n dev bno) Q s') as Hloop.
  { intros s' Hr' Hg' Hen'. apply IH; [done..|]. by rewrite Hg'. }
  apply io_bind. destruct best as [i|].
  - apply io_ret. destruct (oldest_some (bufl s1) 0 (bufseqn s1) (None, 0) i) as [?|(b & _ & Hi & Hg)]; [by rewrite <- Eo|done|].
    rewrite Nat.sub_0_r in Hi. by eapply io_claim_pick.
  - destruct (oldest_none (bufl s1) 0 (bufseqn s1)) as [E0 Hall]; [by rewrite <- Eo|]. rewrite E0 in Eo. injection Eo as ->.
    assert (ndirty (bufl s1) + 2 <= S n)%nat as Hen2.
    { destruct Hen1 as [?|(_ & _ & i & b & Hi & Hg)]; [done|]. rewrite Forall_lookup in Hall. specialize (Hall i b Hi). cbn in Hall. congruence. }
    assert (ndirty (bufl s1) = O) as Hz by by apply ndirty_locked.
    apply io_bind. eapply io_spl; [done|]. intros s2 Hr2 Hl2. apply io_bind, io_get. apply io_ret.
    pose proof (later_dirty _ _ _ Hl2 Hr1) as Hz2.
    destruct (fst (oldest (bufl s2) 0 (bufseqn s2) (None, 0))) as [i|] eqn:E2.
    + destruct (oldest_some (bufl s2) 0 (bufseqn s2) (None, 0) i E2) as [?|(b & _ & Hi & Hg)]; [done|]. rewrite Nat.sub_0_r in Hi.
      eapply io_claim_pick; [done|done|done| | | |].
      * rewrite Forall_lookup in *. intros j b2 Hj.
        destruct (lookup_lt_is_Some_2 (bufl s1) j) as [b1 Hj1]; [rewrite <- (la_len _ _ _ Hl2); by eapply lookup_lt_Some|].
        destruct (la_buf _ _ _ Hl2 j b1 Hj1) as (b2' & Hj2 & Hev). rewrite Hj in Hj2. injection Hj2 as <-.
        rewrite (ev_key _ _ _ _ _ _ Hev). by apply (Hno j).
      * left. lia.
      * intros s' Hr' Hg' Hen'. apply Hloop; [done| |done]. rewrite Hg'. apply Hl2.
      * intros i' s' Hc. apply HQ. by rewrite <- (la_good _ _ _ Hl2).
    + destruct (oldest_none (bufl s2) 0 (bufseqn s2) E2) as [_ Hall2].
      apply io_bind, io_modify. set (s3 := set_bufneed 1 s2).
      assert (rep s3 v None) as Hr3 by exact Hr2.
      pose proof (all_locked_pending s3 v Hr3 Hroom Hall2) as Hp3.
      apply io_bind. eapply io_sleep; [exact Hr3|exact Hp3|]. intros s4 Hr4 Hl4 Hlt.
      apply Hloop; [done|rewrite (la_good _ _ _ Hl4); apply Hl2|]. right.
      pose proof (later_dirty _ _ _ Hl4 Hr3) as Hz4. change (bufl s3) with (bufl s2) in Hz4.
      split; [lia|]. split; [lia|]. exact (later_frees s3 s4 v Hr3 Hr4 Hl4 Hlt).
Qed.

Lemma io_bclaim dev bno v s (Q : nat -> bio -> Prop) : rep s v None -> unheld (dev, bno) v -> room v ->
  (forall i s', claimed v (dev, bno) (dgood s) i s' -> Q i s') -> io (bclaim dev bno) Q s.
Proof.
  intros Hr Hu Hroom HQ. unfold bclaim. apply io_bind, io_gets. apply io_bclaim_loop with (v := v); try done.
  left. pose proof (ndirty_length (bufl s)). lia.
Qed.

(** *** The operations of the interface *)

(** The claimed buffer of a block that is not valid gets a read request. *)
Lemma rep_read i f s s' v bp : rep s v (Some i) -> bufl s !! i = Some bp -> (i ∉ pending s) -> dgood s (key bp) = true -> on bp BFMOD = false ->
  asked i BREAD f bp s s' -> on bp BFNTP = true -> rep s' v (if f then Some i else None) /\
  exists bp', bufl s' !! i = Some bp' /\ i ∈ pending s' /\ request BREAD f bp bp' /\ dgood s' = dgood s.
Proof.
  intros Hr Hi Hp Hg Hm (b2 & Hrq & E1 & E2 & E3 & E4 & E5) Hn. pose proof Hrq as [K1 K2 K3 K4 K5 K6 K7 K8].
  pose proof (own_not_held _ _ _ _ Hr Hi) as Hh.
  pose proof (c_buf _ _ _ _ _ _ _ Hr i bp Hi) as (_ & _ & Hb). rewrite isin_false, isown_self, Hh in Hb by done. destruct Hb as [Hgate _].
  set (s1 := set_bufl (<[i := b2]> (bufl s)) s). assert (set_buf i b2 s s1) as Hs1 by done.
  pose proof (set_buf_lookup _ _ _ _ _ Hs1 Hi) as Hi1.
  assert (rep s1 v (Some i)) as Hr1 by (eapply (rep_own s s1 v i bp b2); done).
  split.
  - eapply rep_same; [..|apply (rep_submit s1 v i b2 f Hr1 Hi1)]; try done.
    split; [congruence|]. change (dgood s1) with (dgood s). rewrite K1. split; [done|]. left. split; [done|]. congruence.
  - exists b2. rewrite E1, E2. split; [exact Hi1|]. split; [|done]. apply elem_of_app. right. by apply list_elem_of_singleton.
Qed.

Definition bread_done (s : bio) (v : bview) (k : bkey) (r : option nat) (s' : bio) : Prop :=
  exists h, r = Some h /\ v_held v !! h = None /\ rep s' (put_held h (Hbuf k false (v_blk v k)) v) None.

Lemma io_read_request {A} i f bp k s (m : M bio A) (Q : A -> bio -> Prop) : bufl s !! i = Some bp -> dgood s k = true -> key bp = k ->
  (forall s', asked i BREAD f bp s s' -> io m Q s') ->
  io (putb i (fun b => if f then clr BFASY b else bumap (raise BFASY b)) ;;;
      putb i (set_b_req BREAD) ;;; putb i (set_b_count BSIZE) ;;; dblock k.1 i ;;; m) Q s.
Proof.
  intros Hi Hg Hk HQ. apply io_bind. eapply io_putb; [done|]. intros s1 H1.
  fold (asyb f bp) in H1. destruct (asyb_same f bp) as (A1 & A2 & A3 & A4 & A5).
  apply io_bind. eapply io_putb; [by eapply set_buf_lookup|]. intros s2 H2. pose proof (set_buf_trans _ _ _ _ _ _ H1 H2) as H12.
  apply io_bind. eapply io_putb; [by eapply set_buf_lookup|]. intros s3 H3. pose proof (set_buf_trans _ _ _ _ _ _ H12 H3) as [E1 E2 E3 E4 E5 E6].
  apply io_bind, (io_dblock i k); [by rewrite (dgood_same _ _ E4 E5)|]. intros s4 F1 F2 F3 F4 F5. apply HQ.
  exists (set_b_count BSIZE (set_b_req BREAD (asyb f bp))). split.
  - assert (forall g, on (set_b_count BSIZE (set_b_req BREAD (asyb f bp))) g = on (asyb f bp) g) as Eo by done.
    split; try done; rewrite Eo; [by apply A5|by apply A5|]. intros [?|?]; [done|]. by rewrite A5.
  - rewrite F1, F2, F3, F4, F5, E1, E2, E3, E6. by rewrite (dgood_same _ _ E4 E5).
Qed.


(** The operation frees its buffer, which holds what the block holds. *)
Lemma rep_free s v i bp : rep s v (Some i) -> bufl s !! i = Some bp -> (i ∉ pending s) ->
  (b_dev bp <> NODEV -> b_data bp = v_blk v (key bp)) -> rep (brelease_s i s) v None.
Proof.
  intros Hr Hi Hp Hd. pose proof (own_not_held _ _ _ _ Hr Hi) as Hh. pose proof (c_buf _ _ _ _ _ _ _ Hr i bp Hi) as (He & Hl & Hb).
  rewrite isin_false, isown_self, Hh in Hb by done. destruct Hb as [Hg Hm].
  destruct (brelease_spec s i bp Hi He) as (bp' & Hs & (K1 & K2 & K3 & K4) & Hg' & Hn & Hf & _).
  pose proof (Hf BFERR eq_refl) as He'. pose proof (Hf BFMOD eq_refl) as Hm'.
  eapply rep_upd_same; [exact Hr|exact Hi|done|exact Hs|done|congruence|done|done|done|intros j Hj; by split; [|intros [= ->]]|].
  split; [congruence|]. split; [congruence|]. rewrite Hh. split; [done|]. split; [done|]. rewrite K1, K3, Hm'. split; [|done].
  injection K1 as K1 _. intros Hd'. apply Hd. congruence.
Qed.

Lemma io_bread k s v : rep s v None -> unheld k v -> room v -> v_good v k = true ->
  io (bread k.1 k.2 true) (fun r s' => exists h, r = Some h /\ v_held v !! h = None /\
    rep s' (put_held h (Hbuf k false (v_blk v k)) v) None) s.
Proof.
  intros Hr Hu Hroom Hg. assert (dgood s k = true) as Hgd by (by rewrite <- (c_good _ _ _ _ _ _ _ Hr)).
  pose proof (good_dev _ _ _ _ Hr Hgd) as Hdev. unfold bread.
  apply io_bind. apply io_bclaim with (v := v); [done|by destruct k|done|].
  intros i s1 (bp & Hr1 & Hi1 & Hp1 & Hk1 & Hgs & Hdat & Hmod). replace (k.1, k.2) with k in * by by destruct k.
  assert (forall s2 b2, rep s2 v (Some i) -> bufl s2 !! i = Some b2 -> (i ∉ pending s2) -> key b2 = k -> b_data b2 = v_blk v k ->
    io (modify (fun s => set_u_block (u_block s + 1) s) ;;; kret (Some i)) (fun r s' => exists h, r = Some h /\ v_held v !! h = None /\
      rep s' (put_held h (Hbuf k false (v_blk v k)) v) None) s2) as Hfound.
  { intros s2 b2 Hr2 Hi2 Hp2 Hk2 Hd2. apply io_bind, io_modify, io_ret. exists i. split; [done|]. split; [by eapply own_not_held|].
    eapply (rep_hold (set_u_block (u_block s2 + 1) s2) v i b2); [by eapply rep_same; [..|exact Hr2]|done|done|done|done|done]. }
  apply io_bind. eapply io_getb; [done|]. destruct (on bp BFNTP) eqn:En.
  - eapply (io_read_request i true bp k s1); [done|by rewrite Hgs|done|]. intros s2 Hask.
    destruct (rep_read i true s1 s2 v bp Hr1 Hi1 Hp1) as (Hr2 & b2 & Hi2 & Hp2 & Hrq & Hg2);
      [by rewrite Hk1, Hgs|by apply Hmod|done|done|]. cbn [negb].
    pose proof Hrq as [K1 K2 K3 K4 K5 K6 K7 K8].
    apply io_bind. eapply io_wait; [exact Hr2|exact Hi2|by rewrite K8 by (by right)|]. intros s3 Hr3 Hl3 Hp3.
    destruct (la_buf _ _ _ Hl3 i b2 Hi2) as (b3 & Hi3 & [V1 V2 V3]). destruct (V3 Hp2 Hp3) as (W1 & W2 & W3 & W4).
    apply io_bind. eapply io_spl; [exact Hr3|]. intros s4 Hr4 Hl4.
    destruct (la_buf _ _ _ Hl4 i b3 Hi3) as (b4 & Hi4 & [X1 X2 X3]). rewrite X2 in Hi4 by (by right).
    assert (i ∉ pending s4) as Hp4 by (by intros ?%(la_pend _ _ _ Hl4)).
    apply io_bind. eapply io_getb; [exact Hi4|]. pose proof (c_buf _ _ _ _ _ _ _ Hr4 i b3 Hi4) as (He4 & _).
    rewrite He4, W3. change (0 =? BSIZE) with false. cbv iota.
    assert (key b3 = k) as Hk3 by congruence. eapply (Hfound s4 b3); try done. rewrite W4. congruence.
  - eapply (Hfound s1 bp); try done. by apply Hdat.
Qed.

Lemma io_breada k s v : rep s v None -> unheld k v -> room v -> v_good v k = true -> io (bread k.1 k.2 false) (fun _ s' => rep s' v None) s.
Proof.
  intros Hr Hu Hroom Hg. assert (dgood s k = true) as Hgd by (by rewrite <- (c_good _ _ _ _ _ _ _ Hr)).
  pose proof (good_dev _ _ _ _ Hr Hgd) as Hdev. unfold bread.
  apply io_bind. apply io_bclaim with (v := v); [done|by destruct k|done|].
  intros i s1 (bp & Hr1 & Hi1 & Hp1 & Hk1 & Hgs & Hdat & Hmod). replace (k.1, k.2) with k in * by by destruct k.
  apply io_bind. eapply io_getb; [done|]. destruct (on bp BFNTP) eqn:En.
  - eapply (io_read_request i false bp k s1); [done|by rewrite Hgs|done|]. intros s2 Hask.
    destruct (rep_read i false s1 s2 v bp Hr1 Hi1 Hp1) as (Hr2 & _); [by rewrite Hk1, Hgs|by apply Hmod|done|done|]. cbn [negb].
    apply io_bind. eapply io_spl; [exact Hr2|]. intros s3 Hr3 _. by apply io_ret.
  - apply io_bind, io_modify, io_ret. eapply rep_free; [done|done|done|]. intros _. rewrite Hk1. by apply Hdat.
Qed.

Lemma io_bclaim_held k s v : rep s v None -> unheld k v -> room v ->
  io (bclaim k.1 k.2) (fun h s' => exists d, v_held v !! h = None /\ Z.of_nat (length d) = BSIZE /\ rep s' (put_held h (Hbuf k false d) v) None) s.
Proof.
  intros Hr Hu Hroom. apply io_bclaim with (v := v); [done|by destruct k|done|].
  intros i s1 (bp & Hr1 & Hi1 & Hp1 & Hk1 & Hgs & Hdat & Hmod). exists (b_data bp). split; [by eapply own_not_held|].
  pose proof (c_buf _ _ _ _ _ _ _ Hr1 i bp Hi1) as (_ & Hl & _). split; [done|]. eapply rep_hold; try done. rewrite Hk1. by destruct k.
Qed.

(** A write of a held buffer. *)
Lemma io_write f h hb s v : rep s v None -> v_held v !! h = Some hb -> v_good v (h_key hb) = true ->
  io (bwrite h f) (fun _ s' => rep s' (if f then put_blk (h_key hb) (h_data hb) (put_held h (Hbuf (h_key hb) false (h_data hb)) v)
    else drop_held h (put_blk (h_key hb) (h_data hb) v)) None) s.
Proof.
  intros Hr Hh Hg. destruct (held_status s v h hb Hr Hh) as (bp & Hi & Hp & He & Hgt & Hk & Hdt & Hl & _).
  eapply io_bwrite; [done|by rewrite Hk, <- (c_good _ _ _ _ _ _ _ Hr)|]. intros s1 (b1 & Hrq & E1 & E2 & E3 & E4 & E5).
  pose proof Hrq as [K1 K2 K3 K4 K5 K6 K7 K8].
  assert (rep s1 (put_blk (h_key hb) (h_data hb) (drop_held h v)) (if f then Some h else None)) as Hr1.
  { eapply (rep_write s s1 v h hb b1); [done|done|done|done|done|done|done|done|congruence|congruence|congruence|congruence|done|done]. }
  set (v1 := put_blk (h_key hb) (h_data hb) (drop_held h v)) in *.
  destruct f; [|eapply io_spl; [exact Hr1|]; intros s2 Hr2 _; exact Hr2].
  assert (bufl s1 !! h = Some b1) as Hi1 by (rewrite E1; apply list_lookup_insert_eq; by eapply lookup_lt_Some).
  assert (h ∈ pending s1) as Hp1 by (rewrite E2; apply elem_of_app; right; by apply list_elem_of_singleton).
  eapply io_wait; [exact Hr1|exact Hi1|by rewrite K8 by (by left)|]. intros s2 Hr2 Hl2 Hp2.
  destruct (la_buf _ _ _ Hl2 h b1 Hi1) as (b2 & Hi2 & [V1 V2 V3]). destruct (V3 Hp1 Hp2) as (W1 & W2 & W3 & W4).
  pose proof (rep_hold s2 v1 h b2 (Hbuf (h_key hb) false (h_data hb)) Hr2 Hi2 Hp2) as Hr3.
  assert (put_held h (Hbuf (h_key hb) false (h_data hb)) v1 = put_blk (h_key hb) (h_data hb) (put_held h (Hbuf (h_key hb) false (h_data hb)) v)) as <-.
  { unfold v1, put_held, put_blk, drop_held. cbn. by rewrite insert_delete_eq. }
  assert (key b1 = h_key hb) as Hk1 by congruence.
  apply Hr3; [cbn [h_key]; congruence| |done]. rewrite W4, Hk1. unfold v1. by rewrite blk_put.
Qed.

(** ** The laws *)

Lemma rep_error s v : rep s v None -> set_u_error 0 s = s.
Proof. intros Hr. pose proof (c_err _ _ _ _ _ _ _ Hr) as E. destruct s. cbn in *. by rewrite E. Qed.

#[export, refine] Instance bio_laws : BufCacheLaws bio := {
  c_rep s v := rep s v None
}.
Proof.
  - intros s v dev bno Hr Hu Hroom Hg Hd. destruct (proj1 (io_finish _ _ _) (io_bread (dev, bno) s v Hr Hu Hroom Hg)) as (r & s' & E & h & -> & Hh & Hr').
    exists h, s'. cbn [c_bread bio_cache]. rewrite (rep_error s v Hr). cbn [fst snd] in E. rewrite E. cbn. by rewrite (c_err _ _ _ _ _ _ _ Hr').
  - intros s v dev bno Hr Hu Hroom Hg Hd. destruct (proj1 (io_finish _ _ _) (io_breada (dev, bno) s v Hr Hu Hroom Hg)) as (r & s' & E & Hr').
    exists s'. cbn [c_breada bio_cache]. cbn [fst snd] in E. by rewrite E.
  - intros s v dev bno Hr Hu Hroom. destruct (proj1 (io_finish _ _ _) (io_bclaim_held (dev, bno) s v Hr Hu Hroom)) as (h & s' & E & d & Hh & Hl & Hr').
    exists h, s', d. done.
  - intros s v h hb Hr Hh Hg Hd. destruct (proj1 (io_finish _ _ _) (io_write true h hb s v Hr Hh Hg)) as ([] & s' & E & Hr').
    exists s'. cbn [c_bwrite bio_cache]. by rewrite E.
  - intros s v h hb Hr Hh Hg Hd. destruct (proj1 (io_finish _ _ _) (io_write false h hb s v Hr Hh Hg)) as ([] & s' & E & Hr').
    exists s'. cbn [c_bawrite bio_cache]. by rewrite E.
  - intros s v h hb Hr Hh Hrel. exists (brelease_s h s). split; [done|]. by apply rep_brelease.
  - intros s v h hb Hr Hh. destruct (held_status s v h hb Hr Hh) as (bp & Hi & _ & _ & _ & _ & Hdt & _). cbn. by rewrite Hi.
  - intros s v h hb d Hr Hh Hl. by apply rep_store.
  - intros s v h hb Hr Hh. by apply rep_setmod.
Defined.
