(* ===== verification/BioSync.v ===== *)
(** Writing the buffer cache back: [bsync], [bflush] (kernel/coh/bio.c), and
    the state that [bufinit] leaves. *)
From S2P Require Import Prelude Sched Bcache Bio BioLaws.
Local Open Scope Z_scope.
Local Open Scope kernel_scope.

Lemma rep_unlock s v i bp : rep s v (Some i) -> bufl s !! i = Some bp -> (i ∉ pending s) -> on bp BFNTP = false ->
  (b_dev bp <> NODEV -> b_data bp = v_blk v (key bp)) -> rep (updb i (set_b_gate false) s) v None.
Proof.
  intros Hr Hi Hp Hn Hd. pose proof (own_not_held _ _ _ _ Hr Hi) as Hh. pose proof (c_buf _ _ _ _ _ _ _ Hr i bp Hi) as (He & Hl & Hb).
  rewrite isin_false, isown_self, Hh in Hb by done. destruct Hb as [Hg Hm].
  eapply rep_upd_same; [exact Hr|exact Hi|done|by apply updb_set|done|done|done|done|done|intros j Hj; by split; [|intros [= ->]]|].
  split; [done|]. split; [done|]. rewrite Hh. done.
Qed.

(** A buffer with nothing to write. *)
Definition clean_at (s : bio) (j : nat) : Prop := forall b, bufl s !! j = Some b -> on b BFMOD = false.

Lemma clean_later v s s' j : later v s s' -> clean_at s j -> clean_at s' j.
Proof.
  intros Hl Hc b' Hb'. destruct (lookup_lt_is_Some_2 (bufl s) j) as [b Hb]; [rewrite <- (la_len _ _ _ Hl); by eapply lookup_lt_Some|].
  destruct (la_buf _ _ _ Hl j b Hb) as (b2 & Hb2 & [_ Hs Hd]). rewrite Hb2 in Hb'. injection Hb' as ->.
  destruct (decide (j ∈ pending s')) as [Hp|Hp]; [rewrite Hs by (by left); by apply Hc|].
  destruct (decide (j ∈ pending s)) as [Hp'|Hp']; [by apply Hd|]. rewrite Hs by (by right). by apply Hc.
Qed.
Lemma clean_set s s' i b j : set_buf i b s s' -> j <> i -> clean_at s j -> clean_at s' j.
Proof. intros [E _ _ _ _ _] Hj Hc b'. rewrite E, list_lookup_insert_ne by done. apply Hc. Qed.

(** [bwrite(bp, 1)] on a buffer that the operation has locked. *)
Lemma io_write_own s v i bp (Q : unit -> bio -> Prop) : rep s v (Some i) -> bufl s !! i = Some bp -> (i ∉ pending s) ->
  on bp BFMOD = true -> b_data bp = v_blk v (key bp) ->
  (forall s' b', rep s' v (Some i) -> bufl s' !! i = Some b' -> (i ∉ pending s') -> on b' BFNTP = false -> on b' BFMOD = false ->
     key b' = key bp -> b_data b' = v_blk v (key bp) -> length (bufl s') = length (bufl s) ->
     (forall j, j <> i -> clean_at s j -> clean_at s' j) ->
     (forall j b0, j <> i -> bufl s !! j = Some b0 -> exists b1, bufl s' !! j = Some b1 /\ key b1 = key b0) -> Q tt s') ->
  io (bwrite i true) Q s.
Proof.
  intros Hr Hi Hp Hm Hd HQ. pose proof (own_not_held _ _ _ _ Hr Hi) as Hh. pose proof (c_buf _ _ _ _ _ _ _ Hr i bp Hi) as (He & Hl & Hb).
  rewrite isin_false, isown_self, Hh in Hb by done. destruct Hb as [Hg Hgd]. specialize (Hgd Hm).
  eapply io_bwrite; [done|done|]. intros s1 (b1 & [K1 K2 K3 K4 K5 K6 K7 K8] & E1 & E2 & E3 & E4 & E5).
  set (s0 := set_bufl (<[i := b1]> (bufl s)) s). assert (set_buf i b1 s s0) as Hs0 by done.
  pose proof (set_buf_lookup _ _ _ _ _ Hs0 Hi) as Hi0.
  assert (rep s0 v (Some i)) as Hr0 by (by eapply (rep_own s s0 v i bp b1)).
  assert (rep s1 v (Some i)) as Hr1.
  { eapply rep_same; [..|apply (rep_submit s0 v i b1 true Hr0 Hi0 Hp)]; try done.
    split; [congruence|]. change (dgood s0) with (dgood s). rewrite K1. split; [done|]. right. split; [done|]. congruence. }
  assert (bufl s1 !! i = Some b1) as Hi1 by (rewrite E1; exact Hi0).
  assert (i ∈ pending s1) as Hp1 by (rewrite E2; apply elem_of_app; right; by apply list_elem_of_singleton).
  eapply io_wait; [exact Hr1|exact Hi1|by rewrite K8 by (by left)|]. intros s2 Hr2 Hl2 Hp2.
  destruct (la_buf _ _ _ Hl2 i b1 Hi1) as (b2 & Hi2 & [V1 V2 V3]). destruct (V3 Hp1 Hp2) as (W1 & W2 & W3 & W4).
  apply (HQ s2 b2); try done; [congruence|by rewrite W4, K1|by rewrite (la_len _ _ _ Hl2), E1, length_insert| |].
  - intros j Hj Hc. apply (clean_later _ _ _ _ Hl2). intros b. rewrite E1, list_lookup_insert_ne by done. apply Hc.
  - intros j b0 Hj Hb0. destruct (la_buf _ _ _ Hl2 j b0) as (b' & Hb' & [X1 _ _]); [by rewrite E1, list_lookup_insert_ne|]. by exists b'.
Qed.

(** The body of the loop of [bsync] for one buffer. *)
Lemma io_sync_one {A} (m : M bio A) s v i (Q : A -> bio -> Prop) : rep s v None -> v_held v = ∅ -> (i < length (bufl s))%nat ->
  (forall s', rep s' v None -> length (bufl s') = length (bufl s) -> clean_at s' i -> (forall j, j <> i -> clean_at s j -> clean_at s' j) -> io m Q s') ->
  io (bp <- getb i ;;
      (if on bp BFMOD then lock i ;;; bp <- getb i ;; (if on bp BFMOD then bwrite i true else kret tt) ;;; unlock i else kret tt) ;;; m) Q s.
Proof.
  intros Hr Hh Hlt HQ. destruct (lookup_lt_is_Some_2 (bufl s) i Hlt) as [bp Hi].
  apply io_bind. eapply io_getb; [done|]. apply io_bind. destruct (on bp BFMOD) eqn:Em.
  2: { apply io_ret, HQ; try done. intros b Hb. congruence. }
  apply io_bind. eapply io_lock; [done|done|by rewrite Hh, lookup_empty|]. intros s1 b1 Hr1 Hl1 Hi1 Hg1 Hk1 _.
  destruct (free_status s1 v None i b1 Hr1 Hi1 Hg1) as (Hp1 & Hh1 & _ & Hn1 & Hd1 & Hm1).
  pose proof (updb_set i (set_b_gate true) s1 b1 Hi1) as Hs2. pose proof (set_buf_lookup _ _ _ _ _ Hs2 Hi1) as Hi2.
  pose proof (rep_lock s1 v i b1 Hr1 Hi1 Hg1) as Hr2. set (s2 := updb i (set_b_gate true) s1) in *.
  assert (i ∉ pending s2) as Hp2 by (by rewrite (sb_pending _ _ _ _ Hs2)).
  assert (length (bufl s2) = length (bufl s)) as Hlen2 by (rewrite (sb_bufl _ _ _ _ Hs2), length_insert; apply Hl1).
  assert (forall j, j <> i -> clean_at s j -> clean_at s2 j) as Hc2.
  { intros j Hj Hc. eapply clean_set; [done|done|]. by eapply clean_later. }
  apply io_bind. eapply io_getb; [exact Hi2|]. change (on (set_b_gate true b1) BFMOD) with (on b1 BFMOD).
  assert (forall s3 b3, rep s3 v (Some i) -> bufl s3 !! i = Some b3 -> (i ∉ pending s3) -> on b3 BFNTP = false -> on b3 BFMOD = false ->
    (b_dev b3 <> NODEV -> b_data b3 = v_blk v (key b3)) -> length (bufl s3) = length (bufl s) ->
    (forall j, j <> i -> clean_at s j -> clean_at s3 j) -> io (unlock i) (fun _ s' => io m Q s') s3) as Hend.
  { intros s3 b3 Hr3 Hi3 Hp3 Hn3 Hm3 Hd3 Hlen3 Hc3. apply io_modify. pose proof (updb_set i (set_b_gate false) s3 b3 Hi3) as Hs4.
    apply HQ; [by eapply rep_unlock|by rewrite (sb_bufl _ _ _ _ Hs4), length_insert| |].
    - intros b Hb. rewrite (set_buf_lookup _ _ _ _ _ Hs4 Hi3) in Hb. injection Hb as <-. exact Hm3.
    - intros j Hj Hc. eapply clean_set; [done|done|]. by apply Hc3. }
  apply io_bind. destruct (on b1 BFMOD) eqn:Em1.
  - pose proof (good_dev _ _ _ _ Hr1 (Hm1 eq_refl)) as Hdev.
    eapply (io_write_own s2 v i _); [exact Hr2|exact Hi2|exact Hp2|exact Em1|by apply Hd1|].
    intros s3 b3 Hr3 Hi3 Hp3 Hn3 Hm3 Hk3 Hd3 Hl3 Hc3 _. eapply (Hend s3 b3); try done; [|congruence|].
    + intros _. by rewrite Hk3.
    + intros j Hj Hc. apply Hc3; [done|]. by apply Hc2.
  - apply io_ret. by eapply (Hend s2 (set_b_gate true b1)).
Qed.

Lemma io_bsync_loop v n : forall i s (Q : unit -> bio -> Prop), rep s v None -> v_held v = ∅ -> (i + n)%nat = length (bufl s) ->
  (forall j, (j < i)%nat -> clean_at s j) ->
  (forall s', rep s' v None -> (forall j, clean_at s' j) -> Q tt s') -> io (bsync_loop n i) Q s.
Proof.
  induction n as [|n IH]; intros i s Q Hr Hh Hn Hc HQ; cbn [bsync_loop].
  - apply io_ret, HQ; [done|]. intros j b Hb. apply (Hc j); [|done]. apply lookup_lt_Some in Hb. lia.
  - eapply io_sync_one; [done|done|lia|]. intros s' Hr' Hl' Hci Hcj. apply IH; [done|done|lia| |done].
    intros j Hj. destruct (decide (j = i)) as [->|Hne]; [done|]. apply Hcj; [done|]. apply Hc. lia.
Qed.

(** What of a good block is not on the disk is in the queue of the driver,
    with the data that the file system has there. *)
Definition on_its_way (s : bio) (v : bview) (k : bkey) : Prop :=
  disk s k = v_blk v k \/ exists i b, i ∈ pending s /\ bufl s !! i = Some b /\ key b = k /\ b_req b = BWRITE /\ b_data b = v_blk v k.

Lemma clean_written s v k : rep s v None -> dgood s k = true -> (forall j b, bufl s !! j = Some b -> key b = k -> on b BFMOD = false) -> on_its_way s v k.
Proof.
  intros Hr Hg Hc. set (writes i := match bufl s !! i with Some b => bool_decide (key b = k) && (b_req b =? BWRITE) | None => false end).
  destruct (decide (Exists (fun i => writes i = true) (pending s))) as [Hex|Hno].
  - right. apply Exists_exists in Hex as (i & Hp & Hw). unfold writes in Hw. destruct (bufl s !! i) as [b|] eqn:Hi; [|done].
    apply andb_true_iff in Hw as [Hk%bool_decide_eq_true Hq%Z.eqb_eq]. exists i, b.
    pose proof (c_buf _ _ _ _ _ _ _ Hr i b Hi) as (_ & _ & Hb). rewrite isin_true in Hb by done. destruct (v_held v !! i); [done|].
    destruct Hb as [(_ & _ & [[E _]|[_ E]]) _]; [by rewrite Hq in E|]. split_and!; congruence.
  - left. apply (c_disk _ _ _ _ _ _ _ Hr); [done|]. intros i b Hi Hk. split; [by eapply Hc|]. intros Hp Hq. apply Hno, Exists_exists.
    exists i. split; [done|]. unfold writes. rewrite Hi, bool_decide_true, Hq by done. done.
Qed.

(** C32: after [bsync] no buffer of the cache is marked modified, and every
    good block is on the disk with the contents that the file system sees, or
    is being written with them: [bsync] waits for its own writes and for those
    of marked buffers, not for an asynchronous write of an unmarked one. *)
Theorem bsync_writes_back s v : rep s v None -> v_held v = ∅ ->
  io bsync (fun _ s' => rep s' v None /\ (forall j, clean_at s' j) /\ forall k, v_good v k = true -> on_its_way s' v k) s.
Proof.
  intros Hr Hh. unfold bsync. apply io_bind, io_gets. eapply io_bsync_loop; [done|done|lia|intros; lia|].
  intros s' Hr' Hc. split; [done|]. split; [done|]. intros k Hg. eapply clean_written; [done| |].
  - by rewrite <- (c_good _ _ _ _ _ _ _ Hr').
  - intros j b Hj _. by apply (Hc j).
Qed.

(** ** bflush *)

(** The operation forgets the block of its clean buffer. *)
Lemma rep_forget s v i bp : rep s v (Some i) -> bufl s !! i = Some bp -> (i ∉ pending s) -> on bp BFMOD = false ->
  (b_dev bp <> NODEV -> b_data bp = v_blk v (key bp)) -> rep (updb i (set_b_dev NODEV) s) v (Some i).
Proof.
  intros Hr Hi Hp Hm Hd. pose proof (own_not_held _ _ _ _ Hr Hi) as Hh. pose proof (c_buf _ _ _ _ _ _ _ Hr i bp Hi) as (He & Hl & Hb).
  rewrite isin_false, isown_self, Hh in Hb by done. destruct Hb as [Hg Hgd].
  destruct (updb_set i (set_b_dev NODEV) s bp Hi) as [E1 E2 E3 E4 E5 E6].
  unfold rep. rewrite E1, E2, E3, E6, (dgood_same _ _ E4 E5).
  eapply (repc_upd _ _ _ _ _ _ _ i bp); [exact Hr|done|by apply Hr|done|done|done|done| |done| |by apply Hr|].
  - done.
  - split; [done|]. split; [done|]. rewrite isin_false, isown_self, Hh by done. split; [done|]. intros Ht. change (on bp BFMOD = true) in Ht. congruence.
  - intros k Hgk _ Hoth. apply (c_disk _ _ _ _ _ _ _ Hr); [done|]. intros j bq Hj E.
    destruct (decide (j = i)) as [->|Hne]; [|by apply (Hoth j bq)]. rewrite Hi in Hj. injection Hj as <-. done.
Qed.


Definition not_dev (dev : Z) (s : bio) (j : nat) : Prop := forall b, bufl s !! j = Some b -> b_dev b <> dev.

Lemma not_dev_later v s s' dev j : later v s s' -> not_dev dev s j -> not_dev dev s' j.
Proof.
  intros Hl Hc b' Hb'. destruct (lookup_lt_is_Some_2 (bufl s) j) as [b Hb]; [rewrite <- (la_len _ _ _ Hl); by eapply lookup_lt_Some|].
  destruct (la_buf _ _ _ Hl j b Hb) as (b2 & Hb2 & [Hk _ _]). rewrite Hb2 in Hb'. injection Hb' as ->. injection Hk as -> _. by apply Hc.
Qed.
Lemma not_dev_set s s' i b dev j : set_buf i b s s' -> j <> i -> not_dev dev s j -> not_dev dev s' j.
Proof. intros [E _ _ _ _ _] Hj Hc b'. rewrite E, list_lookup_insert_ne by done. apply Hc. Qed.

Lemma io_flush_one {A} (m : M bio A) s v i dev (Q : A -> bio -> Prop) : rep s v None -> v_held v = ∅ -> dev <> NODEV -> (i < length (bufl s))%nat ->
  (forall s', rep s' v None -> length (bufl s') = length (bufl s) -> not_dev dev s' i -> (forall j, j <> i -> not_dev dev s j -> not_dev dev s' j) ->
    io m Q s') ->
  io (bp <- getb i ;;
      (if b_dev bp =? dev then
         lock i ;;; bp <- getb i ;;
         (if b_dev bp =? dev then (if on bp BFMOD then bwrite i true else kret tt) ;;; putb i (set_b_dev NODEV) else kret tt) ;;;
         unlock i
       else kret tt) ;;; m) Q s.
Proof.
  intros Hr Hh Hdev Hlt HQ. destruct (lookup_lt_is_Some_2 (bufl s) i Hlt) as [bp Hi].
  apply io_bind. eapply io_getb; [done|]. apply io_bind. destruct (Z.eqb_spec (b_dev bp) dev) as [Ed|Ed].
  2: { apply io_ret, HQ; try done. intros b Hb. congruence. }
  apply io_bind. eapply io_lock; [done|done|by rewrite Hh, lookup_empty|]. intros s1 b1 Hr1 Hl1 Hi1 Hg1 Hk1 _.
  destruct (free_status s1 v None i b1 Hr1 Hi1 Hg1) as (Hp1 & Hh1 & _ & Hn1 & Hd1 & Hm1).
  pose proof (updb_set i (set_b_gate true) s1 b1 Hi1) as Hs2. pose proof (set_buf_lookup _ _ _ _ _ Hs2 Hi1) as Hi2.
  pose proof (rep_lock s1 v i b1 Hr1 Hi1 Hg1) as Hr2. set (s2 := updb i (set_b_gate true) s1) in *.
  assert (i ∉ pending s2) as Hp2 by (by rewrite (sb_pending _ _ _ _ Hs2)).
  assert (length (bufl s2) = length (bufl s)) as Hlen2 by (rewrite (sb_bufl _ _ _ _ Hs2), length_insert; apply Hl1).
  assert (forall j, j <> i -> not_dev dev s j -> not_dev dev s2 j) as Hc2.
  { intros j Hj Hc. eapply not_dev_set; [done|done|]. by eapply not_dev_later. }
  apply io_bind. eapply io_getb; [exact Hi2|]. assert (b_dev b1 = dev) as Ed1 by (injection Hk1 as -> _; done).
  change (b_dev (set_b_gate true b1)) with (b_dev b1). change (on (set_b_gate true b1) BFMOD) with (on b1 BFMOD). rewrite Ed1, Z.eqb_refl.
  assert (forall s3 b3, rep s3 v (Some i) -> bufl s3 !! i = Some b3 -> (i ∉ pending s3) -> on b3 BFNTP = false -> on b3 BFMOD = false ->
    (b_dev b3 <> NODEV -> b_data b3 = v_blk v (key b3)) -> length (bufl s3) = length (bufl s) ->
    (forall j, j <> i -> not_dev dev s j -> not_dev dev s3 j) ->
    io (putb i (set_b_dev NODEV)) (fun _ s' => io (unlock i) (fun _ s' => io m Q s') s') s3) as Hend.
  { intros s3 b3 Hr3 Hi3 Hp3 Hn3 Hm3 Hd3 Hlen3 Hc3. pose proof (updb_set i (set_b_dev NODEV) s3 b3 Hi3) as Hs4.
    pose proof (set_buf_lookup _ _ _ _ _ Hs4 Hi3) as Hi4. pose proof (rep_forget s3 v i b3 Hr3 Hi3 Hp3 Hm3 Hd3) as Hr4.
    apply io_modify. set (s4 := updb i (set_b_dev NODEV) s3) in *. apply io_modify. pose proof (updb_set i (set_b_gate false) s4 _ Hi4) as Hs5.
    apply HQ.
    - eapply rep_unlock; [exact Hr4|exact Hi4|by rewrite (sb_pending _ _ _ _ Hs4)|exact Hn3|]. by intros [].
    - by rewrite (sb_bufl _ _ _ _ Hs5), length_insert, (sb_bufl _ _ _ _ Hs4), length_insert.
    - intros b Hb. rewrite (set_buf_lookup _ _ _ _ _ Hs5 Hi4) in Hb. injection Hb as <-. cbn. congruence.
    - intros j Hj Hc. eapply not_dev_set; [done|done|]. eapply not_dev_set; [done|done|]. by apply Hc3. }
  apply io_bind. destruct (on b1 BFMOD) eqn:Em1; apply io_bind.
  - eapply (io_write_own s2 v i _); [exact Hr2|exact Hi2|exact Hp2|exact Em1|by apply Hd1; rewrite Ed1|].
    intros s3 b3 Hr3 Hi3 Hp3 Hn3 Hm3 Hk3 Hd3 Hl3 _ Hkeys. eapply (Hend s3 b3); try done; [|congruence|].
    + intros _. by rewrite Hk3.
    + intros j Hj Hc b Hb. destruct (lookup_lt_is_Some_2 (bufl s2) j) as [b0 Hb0]; [rewrite <- Hl3; by eapply lookup_lt_Some|].
      destruct (Hkeys j b0 Hj Hb0) as (b' & Hb' & Hk'). rewrite Hb' in Hb. injection Hb as ->. injection Hk' as -> _. by apply (Hc2 j Hj Hc b0).
  - apply io_ret. by eapply (Hend s2 (set_b_gate true b1)).
Qed.

Lemma io_bflush_loop v dev n : forall i s (Q : unit -> bio -> Prop), rep s v None -> v_held v = ∅ -> dev <> NODEV -> (i + n)%nat = length (bufl s) ->
  (forall j, (j < i)%nat -> not_dev dev s j) ->
  (forall s', rep s' v None -> (forall j, not_dev dev s' j) -> Q tt s') -> io (bflush_loop n i dev) Q s.
Proof.
  induction n as [|n IH]; intros i s Q Hr Hh Hd Hn Hc HQ; cbn [bflush_loop].
  - apply io_ret, HQ; [done|]. intros j b Hb. apply (Hc j); [|done]. apply lookup_lt_Some in Hb. lia.
  - eapply io_flush_one; [done|done|done|lia|]. intros s' Hr' Hl' Hci Hcj. apply IH; [done|done|done|lia| |done].
    intros j Hj. destruct (decide (j = i)) as [->|Hne]; [done|]. apply Hcj; [done|]. apply Hc. lia.
Qed.

(** After [bflush] of a device no buffer belongs to it, and every good
    block of it is on the disk with the contents that the file system saw; the
    blocks of other devices are as they were to the file system. *)
Theorem bflush_writes_back s v dev : rep s v None -> v_held v = ∅ -> dev <> NODEV ->
  io (bflush dev) (fun _ s' => rep s' v None /\ (forall j, not_dev dev s' j) /\
    forall b, v_good v (dev, b) = true -> disk s' (dev, b) = v_blk v (dev, b)) s.
Proof.
  intros Hr Hh Hd. unfold bflush. apply io_bind, io_gets. eapply io_bflush_loop; [done|done|done|lia|intros; lia|].
  intros s' Hr' Hc. split; [done|]. split; [done|]. intros b Hg. apply (c_disk _ _ _ _ _ _ _ Hr').
  - by rewrite <- (c_good _ _ _ _ _ _ _ Hr').
  - intros i bp Hi [= E _]. by destruct (Hc i bp Hi).
Qed.

(** ** The cold cache *)

(** The state after [bufinit]: nothing is with the driver, and there are
    fewer than 256 drivers, so that none is for [NODEV]. *)
Record booted (s : bio) : Prop := {
  bo_bufl : exists m, (forall i, Z.of_nat (length (m i)) = BSIZE) /\ bufl s = bufinit m;
  bo_pending : pending s = [];
  bo_error : u_error s = 0;
  bo_drvn : (length (drvl s) <= 255)%nat;
  bo_disk : forall k, dgood s k = true -> Z.of_nat (length (disk s k)) = BSIZE
}.

Lemma rep_boot s : booted s -> rep s (View (disk s) ∅ (dgood s)) None.
Proof.
  intros [(m & Hm & Eb) Ep Ee Hd Hk].
  assert (forall i bp, bufl s !! i = Some bp -> bp = set_b_data (m i) (set_b_dev NODEV (Buf false 0 0 0 0 0 0 0 0 []))) as Hb.
  { intros i bp. rewrite Eb. unfold bufinit. rewrite list_lookup_fmap_Some. intros (j & -> & Hj).
    apply lookup_seq in Hj as [-> _]. done. }
  split; try done.
  - rewrite Eb. unfold bufinit. rewrite length_map, length_seq. unfold NHOLD, NBUF. lia.
  - rewrite Ep. constructor.
  - rewrite Ep. by intros i ?%elem_of_nil.
  - intros i bp Hi. rewrite (Hb i bp Hi), Ep. split; [done|]. split; [apply Hm|]. rewrite isin_false by apply not_elem_of_nil. done.
  - intros i j bp bq Hi Hj _ Hn. by rewrite (Hb i bp Hi) in Hn.
  - intros b. unfold dgood. change (Z.to_nat (major (NODEV, b).1)) with 255%nat. by rewrite lookup_ge_None_2.
Qed.

(** C1: the buffer cache of bio.c, started cold, is a buffer cache: every law
    that the file system relies on holds of its procedures, whatever requests
    the driver completes at each interrupt and in whatever order. *)
Theorem bio_implements_cache : exists L : BufCacheLaws bio,
  forall s, booted s -> @c_rep bio bio_cache L s (View (disk s) ∅ (dgood s)).
Proof. exists bio_laws. apply rep_boot. Qed.

(** ** A concrete instance

    One driver, whose blocks all work and hold zeros, and a cache in which
    block 7 of its device 1 was changed and not yet written. *)
Definition w_bio : bio :=
  Bio (bufinit (fun _ => repeat 0 512)) 0 0 [Drv true 0 false] 0 0 0 (fun _ => repeat 0 512) (fun _ => Good) [] [[]; [0%nat; 1%nat]].
Definition w_changed : BUF := Buf false BFMOD 1 7 0 0 0 512 0 (repeat 5 512).
Definition w_dirty : bio := set_bufl (<[3%nat := w_changed]> (bufl w_bio)) w_bio.
Definition w_dview : bview := put_blk (1, 7) (repeat 5 512) (View (disk w_bio) ∅ (dgood w_bio)).

Lemma w_booted : booted w_bio.
Proof. split; [exists (fun _ => repeat 0 512); by split|done|done|cbn; lia|done]. Qed.

Lemma w_dirty_rep : rep w_dirty w_dview None.
Proof.
  pose proof (rep_boot w_bio w_booted) as Hr.
  assert (bufl w_bio !! 3%nat = Some (set_b_data (repeat 0 512) (set_b_dev NODEV (Buf false 0 0 0 0 0 0 0 0 [])))) as Hi by reflexivity.
  assert (forall j bq, bufl w_bio !! j = Some bq -> b_dev bq = NODEV) as Hno.
  { intros j bq. cbn [bufl w_bio]. unfold bufinit. rewrite list_lookup_fmap_Some. by intros (i & -> & _). }
  unfold rep. change (dgood w_dirty) with (dgood w_bio).
  eapply (repc_upd _ _ _ _ _ _ _ 3 _ w_changed); [exact Hr|exact Hi|constructor|done|done|done|done| | | | |].
  - intros j bq Hj Hbq E. exfalso. injection E as E _. rewrite (Hno j bq Hbq) in E. done.
  - intros j bq Hj Hbq Hd. by destruct (Hd (Hno j bq Hbq)).
  - split; [reflexivity|]. split; [reflexivity|]. split; [reflexivity|]. split; [reflexivity|]. split; [|by intros _].
    intros _. unfold w_dview. change (key w_changed) with (1, 7). by rewrite blk_put.
  - by intros k Hk.
  - intros k Hk H1 _. unfold w_dview. destruct (decide (k = (1, 7))) as [->|Hk']; [|by rewrite blk_put_ne].
    destruct (H1 eq_refl) as [Hf _]. discriminate Hf.
Qed.

Lemma bsync_writes_back_witness : exists a s', finish bsync w_dirty = Some (a, s') /\
  rep s' w_dview None /\ (forall j, clean_at s' j) /\ forall k, v_good w_dview k = true -> on_its_way s' w_dview k.
Proof. exact (proj1 (io_finish _ _ _) (bsync_writes_back w_dirty w_dview w_dirty_rep eq_refl)). Defined.

Lemma bflush_writes_back_witness : exists a s', finish (bflush 1) w_dirty = Some (a, s') /\
  rep s' w_dview None /\ (forall j, not_dev 1 s' j) /\ forall b, v_good w_dview (1, b) = true -> disk s' (1, b) = v_blk w_dview (1, b).
Proof. exact (proj1 (io_finish _ _ _) (bflush_writes_back w_dirty w_dview 1 w_dirty_rep eq_refl ltac:(discriminate))). Defined.
