(* ===== verification/Super.v ===== *)
(** Super blocks (kernel/h/filsys.h, kernel/h/fblk.h, [cansuper] and
    [canndaddr] of kernel/coh/fs2.c).

    [super_out] is the image of a super block in the canonical byte order, as
    [kkcopy] and [cansuper] leave it in a buffer; [super_in] is what mounting
    makes of a buffer. *)
From S2P Require Import Prelude Bytes Bcache.
Local Open Scope Z_scope.

Definition NICINOD : Z := 100.
Definition NICFREE : Z := 64.
Definition INOPB : Z := 8.
Definition SUPERI : Z := 1.
Definition INODEI : Z := 2.
Definition BADFIN : Z := 1.
Definition ROOTIN : Z := 2.
Definition FSCLEAN : Z := 0.
Definition FSDIRTY : Z := 1.
Definition iblockn (ino : Z) : Z := INODEI + u16 (ino - 1) / INOPB.
Definition iblocko (ino : Z) : Z := u16 (ino - 1) mod INOPB.

Record filsys := Filsys {
  s_isize : Z;              (* first block not in the inode list *)
  s_fsize : Z;              (* size of the volume *)
  s_nfree : Z;              (* addresses in s_free *)
  s_free : list Z;          (* free block list *)
  s_ninode : Z;             (* inodes in s_inode *)
  s_inode : list Z;         (* free inode list *)
  s_dirty : Z;              (* FSCLEAN or FSDIRTY *)
  s_ilock : Z;              (* not used *)
  s_fmod : Z;               (* super block modified *)
  s_ronly : Z;              (* mounted read only *)
  s_time : Z;               (* last update *)
  s_tfree : Z;              (* total free blocks *)
  s_tinode : Z;             (* total free inodes *)
  s_m : Z;                  (* interleave *)
  s_n : Z;                  (* interleave *)
  s_fname : list Z;         (* file system name *)
  s_fpack : list Z;         (* pack name *)
  s_unique : Z             (* unique number *)
}.

Definition set_s_nfree (v : Z) (x : filsys) : filsys :=
  Filsys (s_isize x) (s_fsize x) v (s_free x) (s_ninode x) (s_inode x) (s_dirty x) (s_ilock x) (s_fmod x) (s_ronly x) (s_time x) (s_tfree x) (s_tinode x) (s_m x) (s_n x) (s_fname x) (s_fpack x) (s_unique x).
Definition set_s_free (v : list Z) (x : filsys) : filsys :=
  Filsys (s_isize x) (s_fsize x) (s_nfree x) v (s_ninode x) (s_inode x) (s_dirty x) (s_ilock x) (s_fmod x) (s_ronly x) (s_time x) (s_tfree x) (s_tinode x) (s_m x) (s_n x) (s_fname x) (s_fpack x) (s_unique x).
Definition set_s_ninode (v : Z) (x : filsys) : filsys :=
  Filsys (s_isize x) (s_fsize x) (s_nfree x) (s_free x) v (s_inode x) (s_dirty x) (s_ilock x) (s_fmod x) (s_ronly x) (s_time x) (s_tfree x) (s_tinode x) (s_m x) (s_n x) (s_fname x) (s_fpack x) (s_unique x).
Definition set_s_inode (v : list Z) (x : filsys) : filsys :=
  Filsys (s_isize x) (s_fsize x) (s_nfree x) (s_free x) (s_ninode x) v (s_dirty x) (s_ilock x) (s_fmod x) (s_ronly x) (s_time x) (s_tfree x) (s_tinode x) (s_m x) (s_n x) (s_fname x) (s_fpack x) (s_unique x).
Definition set_s_dirty (v : Z) (x : filsys) : filsys :=
  Filsys (s_isize x) (s_fsize x) (s_nfree x) (s_free x) (s_ninode x) (s_inode x) v (s_ilock x) (s_fmod x) (s_ronly x) (s_time x) (s_tfree x) (s_tinode x) (s_m x) (s_n x) (s_fname x) (s_fpack x) (s_unique x).
Definition set_s_fmod (v : Z) (x : filsys) : filsys :=
  Filsys (s_isize x) (s_fsize x) (s_nfree x) (s_free x) (s_ninode x) (s_inode x) (s_dirty x) (s_ilock x) v (s_ronly x) (s_time x) (s_tfree x) (s_tinode x) (s_m x) (s_n x) (s_fname x) (s_fpack x) (s_unique x).
Definition set_s_time (v : Z) (x : filsys) : filsys :=
  Filsys (s_isize x) (s_fsize x) (s_nfree x) (s_free x) (s_ninode x) (s_inode x) (s_dirty x) (s_ilock x) (s_fmod x) (s_ronly x) v (s_tfree x) (s_tinode x) (s_m x) (s_n x) (s_fname x) (s_fpack x) (s_unique x).
Definition set_s_tfree (v : Z) (x : filsys) : filsys :=
  Filsys (s_isize x) (s_fsize x) (s_nfree x) (s_free x) (s_ninode x) (s_inode x) (s_dirty x) (s_ilock x) (s_fmod x) (s_ronly x) (s_time x) v (s_tinode x) (s_m x) (s_n x) (s_fname x) (s_fpack x) (s_unique x).
Definition set_s_tinode (v : Z) (x : filsys) : filsys :=
  Filsys (s_isize x) (s_fsize x) (s_nfree x) (s_free x) (s_ninode x) (s_inode x) (s_dirty x) (s_ilock x) (s_fmod x) (s_ronly x) (s_time x) (s_tfree x) v (s_m x) (s_n x) (s_fname x) (s_fpack x) (s_unique x).
Definition set_s_unique (v : Z) (x : filsys) : filsys :=
  Filsys (s_isize x) (s_fsize x) (s_nfree x) (s_free x) (s_ninode x) (s_inode x) (s_dirty x) (s_ilock x) (s_fmod x) (s_ronly x) (s_time x) (s_tfree x) (s_tinode x) (s_m x) (s_n x) (s_fname x) (s_fpack x) v.

(** ** Disk images *)

(** [canndaddr(dp, n)]. *)
Fixpoint canndaddr (dp : list Z) (n : nat) {struct n} : list Z :=
  match n, dp with
  | S n, d :: dp => canl d :: canndaddr dp n
  | _, _ => dp
  end.

Definition cchar (v : Z) : list Z := [u8 v].

Definition super_out (f : filsys) : list Z :=
  enc16 (s_isize f) ++ enc32 (s_fsize f) ++ enc16 (s_nfree f) ++
  unlongs (map canl (s_free f)) ++ enc16 (s_ninode f) ++ concat (map enc16 (s_inode f)) ++
  cchar (s_dirty f) ++ cchar (s_ilock f) ++ cchar (s_fmod f) ++ cchar (s_ronly f) ++
  enc32 (s_time f) ++ enc32 (s_tfree f) ++ enc16 (s_tinode f) ++ enc16 (s_m f) ++ enc16 (s_n f) ++
  s_fname f ++ s_fpack f ++ enc32 (s_unique f).

Fixpoint words (l : list Z) (o n : nat) : list Z :=
  match n with O => [] | S n => u16 (dec16 l o) :: words l (o + 2) n end.

Definition super_in (b : list Z) : filsys :=
  Filsys (u16 (dec16 b 0)) (dec32 b 2) (dec16 b 6) (map canl (longs b 8 (Z.to_nat NICFREE)))
    (dec16 b 264) (words b 266 (Z.to_nat NICINOD))
    (s8 (be (sub b 466 1))) (s8 (be (sub b 467 1))) (s8 (be (sub b 468 1))) (s8 (be (sub b 469 1)))
    (dec32 b 470) (dec32 b 474) (u16 (dec16 b 478)) (dec16 b 480) (dec16 b 482)
    (sub b 484 6) (sub b 490 6) (dec32 b 496).

(** A free list block: [kclear], then the count and the list, of which the
    first [n] are canonized. *)
Definition fblk_out (n : Z) (free : list Z) : list Z :=
  upd (upd (repeat 0 (Z.to_nat BSIZE)) 0 (enc16 n)) 2 (unlongs (canndaddr free (Z.to_nat n))).
Definition fblk_nfree (b : list Z) : Z := dec16 b 0.
Definition fblk_free (b : list Z) (n : Z) : list Z := canndaddr (longs b 2 (Z.to_nat NICFREE)) (Z.to_nat n).

(** ** Round trips *)

Definition is16 (v : Z) : Prop := -32768 <= v < 32768.
Definition is32 (v : Z) : Prop := -2147483648 <= v < 2147483648.
Definition isu16 (v : Z) : Prop := 0 <= v < 65536.
Definition is8 (v : Z) : Prop := -128 <= v < 128.

Record super_ok (f : filsys) : Prop := {
  so_isize : isu16 (s_isize f);
  so_long : Forall is32 [s_fsize f; s_time f; s_tfree f; s_unique f];
  so_short : Forall is16 [s_nfree f; s_ninode f; s_m f; s_n f];
  so_char : Forall is8 [s_dirty f; s_ilock f; s_fmod f; s_ronly f];
  so_tinode : isu16 (s_tinode f);
  so_free : Forall is32 (s_free f) /\ Z.of_nat (length (s_free f)) = NICFREE;
  so_inode : Forall isu16 (s_inode f) /\ Z.of_nat (length (s_inode f)) = NICINOD;
  so_names : length (s_fname f) = 6%nat /\ length (s_fpack f) = 6%nat
}.

Lemma u16_s16_id v : isu16 v -> u16 (s16 v) = v.
Proof. intros H. rewrite u16_s16. by apply u16_small. Qed.

Lemma dec16_enc16 v rest : dec16 (enc16 v ++ rest) 0 = s16 v.
Proof. unfold dec16, get16. rewrite sub_app_l by done. apply be_enc16. Qed.

Lemma words_app l1 l2 o n k : k = length l1 -> (k <= o)%nat -> words (l1 ++ l2) o n = words l2 (o - k) n.
Proof.
  intros ->. revert o. induction n as [|n IH]; intros o Ho; [done|]. cbn [words].
  unfold dec16, get16. rewrite (sub_app_r l1 l2 o 2 (length l1)) by done. rewrite IH by lia. do 2 f_equal. lia.
Qed.

Lemma words_enc v rest : Forall isu16 v -> words (concat (map enc16 v) ++ rest) 0 (length v) = v.
Proof.
  induction 1 as [|x v Hx _ IH]; [done|]. cbn [map concat length words]. rewrite <- app_assoc. f_equal.
  - rewrite dec16_enc16. by apply u16_s16_id.
  - rewrite words_app with (k := 2%nat) by (done || lia). exact IH.
Qed.

Lemma length_concat_enc16 v : length (concat (map enc16 v)) = (2 * length v)%nat.
Proof. induction v as [|x v IH]; [done|]. cbn [map concat length]. rewrite length_app, IH. simpl. lia. Qed.

Lemma map_s32_id v : Forall is32 v -> map s32 v = v.
Proof. induction 1 as [|x v Hx _ IH]; [done|]. cbn [map]. rewrite IH. f_equal. by apply s32_small. Qed.

Lemma canl_is32 v : is32 (canl v).
Proof. unfold canl. apply s32_range. Qed.

Lemma map_canl_canl v : Forall is32 v -> map canl (map canl v) = v.
Proof.
  induction 1 as [|x v Hx _ IH]; [done|]. cbn [map]. rewrite IH, canl_canl. f_equal. by apply s32_small.
Qed.

(** Find a field in a concatenation whose parts have known lengths. *)
Ltac skip_part :=
  match goal with
  | L : length ?a = ?k |- context [sub (?a ++ ?b) ?o ?n] =>
    let t := eval vm_compute in (Nat.leb k o && negb (Nat.eqb k 0))%bool in constr_eq t true;
    rewrite (sub_app_r a b o n k (eq_sym L)) by (apply Nat.leb_le; reflexivity);
    let o' := eval vm_compute in (o - k)%nat in change (o - k)%nat with o'
  | L : length ?a = ?k |- context [longs (?a ++ ?b) ?o ?n] =>
    let t := eval vm_compute in (Nat.leb k o && negb (Nat.eqb k 0))%bool in constr_eq t true;
    rewrite (longs_app a b o n k (eq_sym L)) by (apply Nat.leb_le; reflexivity);
    let o' := eval vm_compute in (o - k)%nat in change (o - k)%nat with o'
  | L : length ?a = ?k |- context [words (?a ++ ?b) ?o ?n] =>
    let t := eval vm_compute in (Nat.leb k o && negb (Nat.eqb k 0))%bool in constr_eq t true;
    rewrite (words_app a b o n k (eq_sym L)) by (apply Nat.leb_le; reflexivity);
    let o' := eval vm_compute in (o - k)%nat in change (o - k)%nat with o'
  end.
Ltac find_field := repeat skip_part; try (rewrite sub_app_l by (symmetry; assumption)).

Lemma canw_be_enc v l : l = enc16 v -> canw (be l) = s16 v.
Proof. intros ->. apply be_enc16. Qed.
Lemma canl_be_enc v l : l = enc32 v -> canl (be l) = s32 v.
Proof. intros ->. apply be_enc32. Qed.

Lemma s8_be_u8 v : is8 v -> s8 (be [u8 v]) = v.
Proof.
  intros H. cbn [be length]. replace (u8 v * 256 ^ Z.of_nat 0 + 0) with (u8 v) by (simpl; lia).
  rewrite <- (s8_small v H) at 2. apply (wraps_eqm 8 _ _ (- (v / 2 ^ 8))); [done|]. unfold u8, wrapu.
  pose proof (Z.div_mod v (2 ^ 8) ltac:(done)). lia.
Qed.

(** Reading back the image of a super block. *)
Lemma super_in_out f rest : super_ok f -> super_in (super_out f ++ rest) = f.
Proof.
  intros [Hi Hlg Hsh Hch Hti [Hfr Hfl] [Hino Hil] [Hn1 Hn2]].
  destruct f as [isize fsize nfree fr ninode inode dirty ilock fmod ronly time tfree tinode m n fname fpack unique].
  cbn [s_isize s_fsize s_nfree s_free s_ninode s_inode s_dirty s_ilock s_fmod s_ronly s_time s_tfree s_tinode
       s_m s_n s_fname s_fpack s_unique] in *.
  repeat match goal with H : Forall _ (_ :: _) |- _ => apply Forall_cons in H as [? H] end.
  unfold super_in, super_out. cbn [s_isize s_fsize s_nfree s_free s_ninode s_inode s_dirty s_ilock s_fmod s_ronly
    s_time s_tfree s_tinode s_m s_n s_fname s_fpack s_unique].
  rewrite <- !app_assoc. unfold dec16, dec32, get16, get32.
  assert (forall v, length (enc16 v) = 2%nat) as E16 by done.
  assert (forall v, length (enc32 v) = 4%nat) as E32 by done.
  assert (forall v, length (cchar v) = 1%nat) as E8 by done.
  assert (length (unlongs (map canl fr)) = 256%nat) as L1.
  { rewrite length_unlongs, length_map. unfold NICFREE in Hfl. lia. }
  assert (length (concat (map enc16 inode)) = 200%nat) as L2.
  { rewrite length_concat_enc16. unfold NICINOD in Hil. lia. }
  pose proof (E16 isize). pose proof (E32 fsize). pose proof (E16 nfree). pose proof (E16 ninode).
  pose proof (E8 dirty). pose proof (E8 ilock). pose proof (E8 fmod). pose proof (E8 ronly).
  pose proof (E32 time). pose proof (E32 tfree). pose proof (E16 tinode). pose proof (E16 m). pose proof (E16 n).
  pose proof (E32 unique).
  f_equal; find_field; try (apply s8_be_u8; assumption); try reflexivity;
    rewrite ?be_enc16, ?be_enc32; try (apply s16_small; assumption); try (apply s32_small; assumption);
    try (apply u16_s16_id; assumption).
  - replace (Z.to_nat NICFREE) with (length (map canl fr)) by (rewrite length_map; unfold NICFREE in *; lia).
    rewrite longs_unlongs, map_s32_id; [by apply map_canl_canl|].
    apply Forall_map. apply Forall_forall. intros x _. apply canl_is32.
  - replace (Z.to_nat NICINOD) with (length inode) by (unfold NICINOD in *; lia). by apply words_enc.
Qed.

Lemma length_canndaddr dp n : length (canndaddr dp n) = length dp.
Proof. revert dp. induction n as [|n IH]; intros [|d dp]; try done. simpl. by rewrite IH. Qed.

Lemma canndaddr_twice dp n : Forall is32 dp -> canndaddr (map s32 (canndaddr dp n)) n = dp.
Proof.
  revert dp. induction n as [|n IH]; intros dp Hd.
  { cbn [canndaddr]. by rewrite map_s32_id. }
  destruct dp as [|d dp]; [done|]. apply Forall_cons in Hd as [Hd Hds]. simpl. rewrite IH by done. f_equal.
  rewrite s32_small by apply canl_is32. rewrite canl_canl. by apply s32_small.
Qed.

Lemma length_fblk_hd n : length (upd (repeat 0 (Z.to_nat BSIZE)) 0 (enc16 n)) = 512%nat.
Proof. rewrite length_upd; [by rewrite repeat_length|]. rewrite repeat_length. change (length (enc16 n)) with 2%nat. change (Z.to_nat BSIZE) with 512%nat. lia. Qed.

Lemma length_fblk_list n free : Z.of_nat (length free) = NICFREE ->
  length (unlongs (canndaddr free (Z.to_nat n))) = 256%nat.
Proof. intros H. rewrite length_unlongs, length_canndaddr. unfold NICFREE in H. lia. Qed.

Lemma length_fblk_out n free : Z.of_nat (length free) = NICFREE -> length (fblk_out n free) = 512%nat.
Proof.
  intros H. unfold fblk_out. pose proof (length_fblk_list n free H). pose proof (length_fblk_hd n).
  rewrite length_upd; lia.
Qed.

Lemma fblk_nfree_out n free : Z.of_nat (length free) = NICFREE -> is16 n -> fblk_nfree (fblk_out n free) = n.
Proof.
  intros Hl Hn. unfold fblk_nfree, dec16, get16, fblk_out.
  pose proof (length_fblk_list n free Hl). pose proof (length_fblk_hd n).
  rewrite sub_upd_other by lia.
  change 2%nat with (length (enc16 n)). rewrite sub_upd_same by (rewrite repeat_length; change (length (enc16 n)) with 2%nat; change (Z.to_nat BSIZE) with 512%nat; lia).
  rewrite be_enc16. by apply s16_small.
Qed.

Lemma fblk_free_out n free : Z.of_nat (length free) = NICFREE -> Forall is32 free -> fblk_free (fblk_out n free) n = free.
Proof.
  intros Hl Hf. unfold fblk_free, fblk_out.
  pose proof (length_fblk_list n free Hl) as L1. pose proof (length_fblk_hd n) as L2.
  change (Z.to_nat NICFREE) with 64%nat. unfold NICFREE in Hl.
  set (h := upd (repeat 0 _) 0 _) in *. set (bs := unlongs (canndaddr free (Z.to_nat n))) in *.
  replace (longs (upd h 2 bs) 2 64) with (longs (sub (upd h 2 bs) 2 256) 0 64) by (by rewrite longs_sub by lia).
  rewrite <- L1. rewrite sub_upd_same by lia.
  rewrite <- (app_nil_r bs). replace 64%nat with (length (canndaddr free (Z.to_nat n))) by (rewrite length_canndaddr; lia).
  unfold bs. rewrite longs_unlongs. by apply canndaddr_twice.
Qed.

(** ** Well-formedness of updated super blocks *)

Ltac super_ok_solve :=
  intros [? Hl Hs Hc ? [? ?] [? ?] ?]; intros;
  repeat match goal with H : Forall _ (_ :: _) |- _ => apply Forall_cons in H as [? H] end;
  split; cbn; try assumption; try (split; assumption); repeat apply Forall_cons_2; try assumption; try apply Forall_nil_2.

Lemma super_ok_nfree f n : super_ok f -> is16 n -> super_ok (set_s_nfree n f).
Proof. super_ok_solve. Qed.
Lemma super_ok_free f l : super_ok f -> Forall is32 l -> Z.of_nat (length l) = NICFREE -> super_ok (set_s_free l f).
Proof. super_ok_solve. Qed.
Lemma super_ok_ninode f n : super_ok f -> is16 n -> super_ok (set_s_ninode n f).
Proof. super_ok_solve. Qed.
Lemma super_ok_inode f l : super_ok f -> Forall isu16 l -> Z.of_nat (length l) = NICINOD -> super_ok (set_s_inode l f).
Proof. super_ok_solve. Qed.
Lemma super_ok_tfree f n : super_ok f -> is32 n -> super_ok (set_s_tfree n f).
Proof. super_ok_solve. Qed.
Lemma super_ok_tinode f n : super_ok f -> isu16 n -> super_ok (set_s_tinode n f).
Proof. super_ok_solve. Qed.
Lemma super_ok_dirty f n : super_ok f -> is8 n -> super_ok (set_s_dirty n f).
Proof. super_ok_solve. Qed.
Lemma super_ok_fmod f n : super_ok f -> is8 n -> super_ok (set_s_fmod n f).
Proof. super_ok_solve. Qed.
Lemma super_ok_time f n : super_ok f -> is32 n -> super_ok (set_s_time n f).
Proof. super_ok_solve. Qed.

Lemma length_super_out f : super_ok f -> length (super_out f) = 500%nat.
Proof.
  intros [_ _ _ _ _ [_ Hfl] [_ Hil] [Hn1 Hn2]]. unfold super_out.
  rewrite !length_app, length_unlongs, length_map, length_concat_enc16, Hn1, Hn2. unfold NICFREE, NICINOD in *.
  unfold enc16, enc32, cchar. rewrite !length_unbe. simpl length. lia.
Qed.

Lemma super_in_upd f d : super_ok f -> super_in (upd d 0 (super_out f)) = f.
Proof. intros Hf. unfold upd. rewrite take_0. by apply super_in_out. Qed.

Lemma length_longs l o n : length (longs l o n) = n.
Proof. revert o. induction n as [|n IH]; intros o; [done|]. simpl. by rewrite IH. Qed.
Lemma longs_is32 l o n : Forall is32 (longs l o n).
Proof. revert o. induction n as [|n IH]; intros o; constructor; [apply s32_range|apply IH]. Qed.
Lemma canndaddr_is32 l n : Forall is32 l -> Forall is32 (canndaddr l n).
Proof.
  revert l. induction n as [|n IH]; intros l Hl; [done|]. destruct l as [|x l]; [done|].
  apply Forall_cons in Hl as [Hx Hl]. constructor; [apply canl_is32|by apply IH].
Qed.
Lemma fblk_free_ok d n : Forall is32 (fblk_free d n) /\ Z.of_nat (length (fblk_free d n)) = NICFREE.
Proof.
  unfold fblk_free. split; [apply canndaddr_is32, longs_is32|]. rewrite length_canndaddr, length_longs. done.
Qed.

(** A super block written to block 1 reads back as it was, for every field
    of its declared width; a free list block reads back its count and its
    addresses, although only the counted ones are in canonical order. *)
Theorem super_roundtrip f d n free :
  super_ok f -> is16 n -> Forall is32 free -> Z.of_nat (length free) = NICFREE ->
  super_in (upd d 0 (super_out f)) = f /\
  fblk_nfree (fblk_out n free) = n /\ fblk_free (fblk_out n free) n = free.
Proof. intros. split; [by apply super_in_upd|]. split; [by apply fblk_nfree_out|by apply fblk_free_out]. Qed.

Definition w_super : filsys :=
  Filsys 3 20 2 ([7; 9] ++ repeat 0 62) 1 (repeat 4 100) 0 0 0 0 0 2 5 1 1 (repeat 0 6) (repeat 0 6) 0.

Ltac ranges := repeat (apply Forall_cons; split; [unfold is32, isu16, is16, is8; lia|]); apply Forall_nil_2.

Lemma w_super_ok : super_ok w_super.
Proof. split; cbn [w_super s_isize s_fsize s_nfree s_free s_ninode s_inode s_dirty s_ilock s_fmod s_ronly s_time
  s_tfree s_tinode s_m s_n s_fname s_fpack s_unique]; try (split; [|reflexivity]); first [by unfold isu16|by ranges|done]. Qed.

Lemma super_roundtrip_witness :
  super_in (upd (repeat 255 512) 0 (super_out w_super)) = w_super /\
  fblk_nfree (fblk_out 3 (s_free w_super)) = 3 /\ fblk_free (fblk_out 3 (s_free w_super)) 3 = s_free w_super.
Proof.
  refine (super_roundtrip w_super (repeat 255 512) 3 (s_free w_super) w_super_ok _ _ _).
  - unfold is16. lia.
  - apply w_super_ok.
  - reflexivity.
Defined.
