(* ===== verification/Fs.v ===== *)
(** The state of the file system code: buffer cache, mount table, in-core
    inodes and the fields of the current process that it uses.

    [MOUNT] is kernel/h/mount.h, [INODE] kernel/h/inode.h, and the operations
    on buffers are those of a [BufCache].  A mount entry is named by its
    device, an in-core inode by its index in [inodep]. *)
From S2P Require Import Prelude Sched Bytes Bcache Super.
Local Open Scope Z_scope.
Local Open Scope kernel_scope.

Definition ENXIO : Z := 6.
Definition EACCES : Z := 13.
Definition EPERM : Z := 1.
Definition ENFILE : Z := 23.
Definition EFBIG : Z := 27.
Definition ENOSPC : Z := 28.
Definition EROFS : Z := 30.

Definition MFRON : Z := 1.

Record MOUNT := Mount {
  m_dev : Z;
  m_flag : Z;
  m_ip : option nat;             (* the inode it is mounted on *)
  m_ilock : bool;
  m_flock : bool;
  m_super : filsys
}.

Definition set_m_flag v x := Mount (m_dev x) v (m_ip x) (m_ilock x) (m_flock x) (m_super x).
Definition set_m_ilock v x := Mount (m_dev x) (m_flag x) (m_ip x) v (m_flock x) (m_super x).
Definition set_m_flock v x := Mount (m_dev x) (m_flag x) (m_ip x) (m_ilock x) v (m_super x).
Definition set_m_super v x := Mount (m_dev x) (m_flag x) (m_ip x) (m_ilock x) (m_flock x) v.

Record INODE := Inode {
  i_dev : Z;                (* device *)
  i_ino : Z;                (* inode number *)
  i_refc : Z;               (* reference count *)
  i_lrt : Z;                (* last reference time *)
  i_gate : bool;            (* locked *)
  i_flag : Z;               (* flags *)
  i_mode : Z;               (* mode and type *)
  i_nlink : Z;              (* links *)
  i_uid : Z;                (* owner *)
  i_gid : Z;                (* group *)
  i_size : Z;               (* bytes in the file *)
  i_a : list Z;             (* the 52 bytes of the address union *)
  i_atime : Z;              (* last access *)
  i_mtime : Z;              (* last change *)
  i_ctime : Z              (* creation *)
}.

Definition set_i_dev (v : Z) (x : INODE) : INODE :=
  Inode v (i_ino x) (i_refc x) (i_lrt x) (i_gate x) (i_flag x) (i_mode x) (i_nlink x) (i_uid x) (i_gid x) (i_size x) (i_a x) (i_atime x) (i_mtime x) (i_ctime x).
Definition set_i_ino (v : Z) (x : INODE) : INODE :=
  Inode (i_dev x) v (i_refc x) (i_lrt x) (i_gate x) (i_flag x) (i_mode x) (i_nlink x) (i_uid x) (i_gid x) (i_size x) (i_a x) (i_atime x) (i_mtime x) (i_ctime x).
Definition set_i_refc (v : Z) (x : INODE) : INODE :=
  Inode (i_dev x) (i_ino x) v (i_lrt x) (i_gate x) (i_flag x) (i_mode x) (i_nlink x) (i_uid x) (i_gid x) (i_size x) (i_a x) (i_atime x) (i_mtime x) (i_ctime x).
Definition set_i_lrt (v : Z) (x : INODE) : INODE :=
  Inode (i_dev x) (i_ino x) (i_refc x) v (i_gate x) (i_flag x) (i_mode x) (i_nlink x) (i_uid x) (i_gid x) (i_size x) (i_a x) (i_atime x) (i_mtime x) (i_ctime x).
Definition set_i_gate (v : bool) (x : INODE) : INODE :=
  Inode (i_dev x) (i_ino x) (i_refc x) (i_lrt x) v (i_flag x) (i_mode x) (i_nlink x) (i_uid x) (i_gid x) (i_size x) (i_a x) (i_atime x) (i_mtime x) (i_ctime x).
Definition set_i_flag (v : Z) (x : INODE) : INODE :=
  Inode (i_dev x) (i_ino x) (i_refc x) (i_lrt x) (i_gate x) v (i_mode x) (i_nlink x) (i_uid x) (i_gid x) (i_size x) (i_a x) (i_atime x) (i_mtime x) (i_ctime x).
Definition set_i_mode (v : Z) (x : INODE) : INODE :=
  Inode (i_dev x) (i_ino x) (i_refc x) (i_lrt x) (i_gate x) (i_flag x) v (i_nlink x) (i_uid x) (i_gid x) (i_size x) (i_a x) (i_atime x) (i_mtime x) (i_ctime x).
Definition set_i_nlink (v : Z) (x : INODE) : INODE :=
  Inode (i_dev x) (i_ino x) (i_refc x) (i_lrt x) (i_gate x) (i_flag x) (i_mode x) v (i_uid x) (i_gid x) (i_size x) (i_a x) (i_atime x) (i_mtime x) (i_ctime x).
Definition set_i_uid (v : Z) (x : INODE) : INODE :=
  Inode (i_dev x) (i_ino x) (i_refc x) (i_lrt x) (i_gate x) (i_flag x) (i_mode x) (i_nlink x) v (i_gid x) (i_size x) (i_a x) (i_atime x) (i_mtime x) (i_ctime x).
Definition set_i_gid (v : Z) (x : INODE) : INODE :=
  Inode (i_dev x) (i_ino x) (i_refc x) (i_lrt x) (i_gate x) (i_flag x) (i_mode x) (i_nlink x) (i_uid x) v (i_size x) (i_a x) (i_atime x) (i_mtime x) (i_ctime x).
Definition set_i_size (v : Z) (x : INODE) : INODE :=
  Inode (i_dev x) (i_ino x) (i_refc x) (i_lrt x) (i_gate x) (i_flag x) (i_mode x) (i_nlink x) (i_uid x) (i_gid x) v (i_a x) (i_atime x) (i_mtime x) (i_ctime x).
Definition set_i_a (v : list Z) (x : INODE) : INODE :=
  Inode (i_dev x) (i_ino x) (i_refc x) (i_lrt x) (i_gate x) (i_flag x) (i_mode x) (i_nlink x) (i_uid x) (i_gid x) (i_size x) v (i_atime x) (i_mtime x) (i_ctime x).
Definition set_i_atime (v : Z) (x : INODE) : INODE :=
  Inode (i_dev x) (i_ino x) (i_refc x) (i_lrt x) (i_gate x) (i_flag x) (i_mode x) (i_nlink x) (i_uid x) (i_gid x) (i_size x) (i_a x) v (i_mtime x) (i_ctime x).
Definition set_i_mtime (v : Z) (x : INODE) : INODE :=
  Inode (i_dev x) (i_ino x) (i_refc x) (i_lrt x) (i_gate x) (i_flag x) (i_mode x) (i_nlink x) (i_uid x) (i_gid x) (i_size x) (i_a x) (i_atime x) v (i_ctime x).
Definition set_i_ctime (v : Z) (x : INODE) : INODE :=
  Inode (i_dev x) (i_ino x) (i_refc x) (i_lrt x) (i_gate x) (i_flag x) (i_mode x) (i_nlink x) (i_uid x) (i_gid x) (i_size x) (i_a x) (i_atime x) (i_mtime x) v.

(** kernel/h/io.h. *)
Record IO := Io {
  io_seg : Z;               (* space *)
  io_ioc : Z;               (* count, unsigned *)
  io_seek : Z;              (* seek position *)
  io_base : Z;              (* virtual base *)
  io_phys : Z              (* physical base *)
}.
Definition IOSYS : Z := 0.
Definition IOUSR : Z := 1.
Definition IOPHY : Z := 2.
Definition set_io_ioc v x := Io (io_seg x) v (io_seek x) (io_base x) (io_phys x).
Definition set_io_seek v x := Io (io_seg x) (io_ioc x) v (io_base x) (io_phys x).
Definition set_io_base v x := Io (io_seg x) (io_ioc x) (io_seek x) v (io_phys x).
Definition set_io_phys v x := Io (io_seg x) (io_ioc x) (io_seek x) (io_base x) v.

(** The fields of the user area that path names and the calls on files use. *)
Record uproc := Uproc {
  u_umask : Z;
  u_cdir : nat;                  (* current directory *)
  u_rdir : nat;                  (* root directory *)
  u_cdirn : Z;                   (* child inode number *)
  u_cdiri : option nat;          (* child inode *)
  u_pdiri : option nat;          (* parent inode *)
  d_ino : Z;                     (* u_direct *)
  d_name : list Z;
  u_io : IO;
  u_ruid : Z;                    (* real user and group *)
  u_rgid : Z
}.
Definition set_u_umask v x := Uproc v (u_cdir x) (u_rdir x) (u_cdirn x) (u_cdiri x) (u_pdiri x) (d_ino x) (d_name x) (u_io x) (u_ruid x) (u_rgid x).
Definition set_u_cdir v x := Uproc (u_umask x) v (u_rdir x) (u_cdirn x) (u_cdiri x) (u_pdiri x) (d_ino x) (d_name x) (u_io x) (u_ruid x) (u_rgid x).
Definition set_u_rdir v x := Uproc (u_umask x) (u_cdir x) v (u_cdirn x) (u_cdiri x) (u_pdiri x) (d_ino x) (d_name x) (u_io x) (u_ruid x) (u_rgid x).
Definition set_u_cdirn v x := Uproc (u_umask x) (u_cdir x) (u_rdir x) v (u_cdiri x) (u_pdiri x) (d_ino x) (d_name x) (u_io x) (u_ruid x) (u_rgid x).
Definition set_u_cdiri v x := Uproc (u_umask x) (u_cdir x) (u_rdir x) (u_cdirn x) v (u_pdiri x) (d_ino x) (d_name x) (u_io x) (u_ruid x) (u_rgid x).
Definition set_u_pdiri v x := Uproc (u_umask x) (u_cdir x) (u_rdir x) (u_cdirn x) (u_cdiri x) v (d_ino x) (d_name x) (u_io x) (u_ruid x) (u_rgid x).
Definition set_d_ino v x := Uproc (u_umask x) (u_cdir x) (u_rdir x) (u_cdirn x) (u_cdiri x) (u_pdiri x) v (d_name x) (u_io x) (u_ruid x) (u_rgid x).
Definition set_d_name v x := Uproc (u_umask x) (u_cdir x) (u_rdir x) (u_cdirn x) (u_cdiri x) (u_pdiri x) (d_ino x) v (u_io x) (u_ruid x) (u_rgid x).
Definition set_u_io v x := Uproc (u_umask x) (u_cdir x) (u_rdir x) (u_cdirn x) (u_cdiri x) (u_pdiri x) (d_ino x) (d_name x) v (u_ruid x) (u_rgid x).
Definition set_u_ruid v x := Uproc (u_umask x) (u_cdir x) (u_rdir x) (u_cdirn x) (u_cdiri x) (u_pdiri x) (d_ino x) (d_name x) (u_io x) v (u_rgid x).
Definition set_u_rgid v x := Uproc (u_umask x) (u_cdir x) (u_rdir x) (u_cdirn x) (u_cdiri x) (u_pdiri x) (d_ino x) (d_name x) (u_io x) (u_ruid x) v.

Section state.
Context {C : Type}.

Record fs := Fs {
  cache : C;
  mtab : list MOUNT;             (* from mountp on *)
  inodep : list INODE;
  u_error : Z;
  u_uid : Z;
  u_gid : Z;
  t_time : Z;                    (* timer.t_time *)
  rootdev : Z;
  msgs : list string;            (* devmsg() *)
  u_flag : Z;
  mem : Z -> Z -> option Z;      (* the bytes of each space that can be accessed *)
  up : uproc
}.

Definition set_cache v s := Fs v (mtab s) (inodep s) (u_error s) (u_uid s) (u_gid s) (t_time s) (rootdev s) (msgs s) (u_flag s) (mem s) (up s).
Definition set_mtab v s := Fs (cache s) v (inodep s) (u_error s) (u_uid s) (u_gid s) (t_time s) (rootdev s) (msgs s) (u_flag s) (mem s) (up s).
Definition set_inodep v s := Fs (cache s) (mtab s) v (u_error s) (u_uid s) (u_gid s) (t_time s) (rootdev s) (msgs s) (u_flag s) (mem s) (up s).
Definition set_u_error v s := Fs (cache s) (mtab s) (inodep s) v (u_uid s) (u_gid s) (t_time s) (rootdev s) (msgs s) (u_flag s) (mem s) (up s).
Definition set_u_uid v s := Fs (cache s) (mtab s) (inodep s) (u_error s) v (u_gid s) (t_time s) (rootdev s) (msgs s) (u_flag s) (mem s) (up s).
Definition set_u_gid v s := Fs (cache s) (mtab s) (inodep s) (u_error s) (u_uid s) v (t_time s) (rootdev s) (msgs s) (u_flag s) (mem s) (up s).
Definition set_u_flag v s := Fs (cache s) (mtab s) (inodep s) (u_error s) (u_uid s) (u_gid s) (t_time s) (rootdev s) (msgs s) v (mem s) (up s).
Definition set_mem v s := Fs (cache s) (mtab s) (inodep s) (u_error s) (u_uid s) (u_gid s) (t_time s) (rootdev s) (msgs s) (u_flag s) v (up s).
Definition set_up v s := Fs (cache s) (mtab s) (inodep s) (u_error s) (u_uid s) (u_gid s) (t_time s) (rootdev s) (msgs s) (u_flag s) (mem s) v.
Definition add_msg v s := Fs (cache s) (mtab s) (inodep s) (u_error s) (u_uid s) (u_gid s) (t_time s) (rootdev s) (v :: msgs s) (u_flag s) (mem s) (up s).

Context `{BufCache C}.

Definition bread (dev bno : Z) : M fs (option nat) := fun s =>
  match c_bread dev bno (cache s) with
  | Some (r, e, c) => Ret r (if e =? 0 then set_cache c s else set_u_error e (set_cache c s))
  | None => NoFuel
  end.
Definition breada (dev bno : Z) : M fs unit := fun s =>
  match c_breada dev bno (cache s) with Some c => Ret tt (set_cache c s) | None => NoFuel end.
Definition bclaim (dev bno : Z) : M fs nat := fun s =>
  match c_bclaim dev bno (cache s) with Some (h, c) => Ret h (set_cache c s) | None => NoFuel end.
Definition bwrite (bp : nat) : M fs unit := fun s =>
  match c_bwrite bp (cache s) with Some c => Ret tt (set_cache c s) | None => NoFuel end.
Definition bawrite (bp : nat) : M fs unit := fun s =>
  match c_bawrite bp (cache s) with Some c => Ret tt (set_cache c s) | None => NoFuel end.
Definition brelease (bp : nat) : M fs unit := fun s =>
  match c_brelease bp (cache s) with Some c => Ret tt (set_cache c s) | None => NoFuel end.
(** [bp->b_vaddr], read and written; [bp->b_flag |= BFMOD]. *)
Definition vaddr (bp : nat) : M fs (list Z) := gets (fun s => c_vaddr bp (cache s)).
Definition store (bp : nat) (f : list Z -> list Z) : M fs unit :=
  modify (fun s => set_cache (c_store bp (f (c_vaddr bp (cache s))) (cache s)) s).
Definition setmod (bp : nat) : M fs unit :=
  modify (fun s => set_cache (c_setmod bp (cache s)) s).

Definition devmsg (dev : Z) (m : string) : M fs unit := modify (add_msg m).
Definition error (e : Z) : M fs unit := modify (set_u_error e).

(** The mount entry of a device: the first in the list. *)
Fixpoint findm (dev : Z) (l : list MOUNT) : option MOUNT :=
  match l with
  | [] => None
  | mp :: l => if m_dev mp =? dev then Some mp else findm dev l
  end.
Fixpoint updm (dev : Z) (f : MOUNT -> MOUNT) (l : list MOUNT) : list MOUNT :=
  match l with
  | [] => []
  | mp :: l => if m_dev mp =? dev then f mp :: l else mp :: updm dev f l
  end.

Definition getm (dev : Z) : M fs MOUNT := s <- get ;; deref (findm dev (mtab s)).
Definition putm (dev : Z) (f : MOUNT -> MOUNT) : M fs unit :=
  modify (fun s => set_mtab (updm dev f (mtab s)) s).
Definition getsb (dev : Z) : M fs filsys := mp <- getm dev ;; kret (m_super mp).
Definition putsb (dev : Z) (f : filsys -> filsys) : M fs unit :=
  putm dev (fun mp => set_m_super (f (m_super mp)) mp).

(** Gates of a mount entry; [lock] waits while the gate is taken. *)
Fixpoint mlock (retry : nat) (dev : Z) (il : bool) : M fs unit :=
  match retry with
  | O => nofuel
  | S retry =>
    mp <- getm dev ;;
    if (if il then m_ilock mp else m_flock mp)
    then sleep (ChMount dev il) ;;; mlock retry dev il
    else putm dev (if il then set_m_ilock true else set_m_flock true)
  end.
Definition munlock (dev : Z) (il : bool) : M fs unit :=
  putm dev (if il then set_m_ilock false else set_m_flock false).

End state.
Arguments fs : clear implicits.

(** ** Rules for the operations *)

(** A state in which the cache has the view [v], the mount entry of [dev] is
    [mp] and [u_error] is [e]; the rest is as in [s0]. *)
Record fs_at {C} `{BufCacheLaws C} (s0 : fs C) (dev : Z) (mp : MOUNT) (v : bview) (e : Z) (s : fs C) : Prop := {
  at_rep : c_rep (cache s) v;
  at_mount : findm dev (mtab s) = Some mp;
  at_others : forall d, d <> dev -> findm d (mtab s) = findm d (mtab s0);
  at_inodes : inodep s = inodep s0;
  at_error : u_error s = e;
  at_ids : u_uid s = u_uid s0 /\ u_gid s = u_gid s0 /\ t_time s = t_time s0 /\ rootdev s = rootdev s0 /\ u_flag s = u_flag s0 /\ mem s = mem s0 /\ up s = up s0
}.

Section rules.
Context {C : Type} `{BufCacheLaws C}.
Implicit Types (s : fs C) (mp : MOUNT) (v : bview).

Lemma findm_dev dev l mp : findm dev l = Some mp -> m_dev mp = dev.
Proof.
  induction l as [|mp' l IH]; simpl; [done|]. destruct (Z.eqb_spec (m_dev mp') dev); [by intros [= <-]|done].
Qed.

Lemma findm_updm dev f l mp : findm dev l = Some mp -> m_dev (f mp) = dev ->
  findm dev (updm dev f l) = Some (f mp) /\ forall d, d <> dev -> findm d (updm dev f l) = findm d l.
Proof.
  induction l as [|mp' l IH]; simpl; [done|]. destruct (Z.eqb_spec (m_dev mp') dev) as [E|Hne].
  - intros [= ->] Hd. simpl. rewrite (proj2 (Z.eqb_eq _ _) Hd). split; [done|].
    intros d Hdn. simpl. rewrite !(proj2 (Z.eqb_neq _ d)) by congruence. done.
  - intros Hf Hd. destruct (IH Hf Hd) as [E1 E2]. simpl. rewrite (proj2 (Z.eqb_neq _ dev)) by done.
    split; [done|]. intros d Hdn. simpl. by rewrite E2.
Qed.

Lemma fs_at_self s dev mp v : c_rep (cache s) v -> findm dev (mtab s) = Some mp -> fs_at s dev mp v (u_error s) s.
Proof. by split. Qed.

Lemma fs_at_trans s0 s1 s2 dev mp1 mp2 v1 v2 e1 e2 : fs_at s0 dev mp1 v1 e1 s1 -> fs_at s1 dev mp2 v2 e2 s2 -> fs_at s0 dev mp2 v2 e2 s2.
Proof.
  intros [_ _ O1 I1 _ (A1&B1&C1&D1&E1&F1&G1)] [R2 M2 O2 I2 X2 (A2&B2&C2&D2&E2&F2&G2)].
  split; try done; [|congruence|split_and!; congruence]. intros d Hd. by rewrite O2, O1.
Qed.

Lemma fs_at_cache s0 dev mp v v' e s c : fs_at s0 dev mp v e s -> c_rep c v' -> fs_at s0 dev mp v' e (set_cache c s).
Proof. intros [? ? ? ? ? ?] ?. by split. Qed.

Lemma wp_getm s0 dev mp v e s Q : fs_at s0 dev mp v e s -> Q mp s -> wp (getm dev) Q s.
Proof. intros Hat HQ. unfold wp, getm, kbind, get. simpl. by rewrite (at_mount _ _ _ _ _ _ Hat). Qed.

Lemma wp_getsb s0 dev mp v e s Q : fs_at s0 dev mp v e s -> Q (m_super mp) s -> wp (getsb dev) Q s.
Proof. intros Hat HQ. apply wp_bind. eapply wp_getm; [done|]. by apply wp_ret. Qed.

Lemma wp_putm s0 dev mp v e s f (Q : unit -> fs C -> Prop) : fs_at s0 dev mp v e s -> m_dev (f mp) = m_dev mp ->
  (forall s', fs_at s0 dev (f mp) v e s' -> Q tt s') -> wp (putm dev f) Q s.
Proof.
  intros [Hr Hm Ho Hi He Hids] Hd HQ. apply wp_modify. apply HQ.
  destruct (findm_updm dev f (mtab s) mp Hm) as [E1 E2]; [by rewrite Hd; apply findm_dev in Hm|].
  split; simpl; try done. intros d Hdn. by rewrite E2, Ho.
Qed.

Lemma wp_putsb s0 dev mp v e s f (Q : unit -> fs C -> Prop) : fs_at s0 dev mp v e s ->
  (forall s', fs_at s0 dev (set_m_super (f (m_super mp)) mp) v e s' -> Q tt s') -> wp (putsb dev f) Q s.
Proof. intros Hat HQ. by eapply wp_putm. Qed.

Lemma wp_error s0 dev mp v e s e' (Q : unit -> fs C -> Prop) : fs_at s0 dev mp v e s ->
  (forall s', fs_at s0 dev mp v e' s' -> Q tt s') -> wp (error e') Q s.
Proof. intros [? ? ? ? ? ?] HQ. apply wp_modify, HQ. by split. Qed.

Lemma wp_devmsg s0 dev mp v e s d m (Q : unit -> fs C -> Prop) : fs_at s0 dev mp v e s ->
  (forall s', fs_at s0 dev mp v e s' -> Q tt s') -> wp (devmsg d m) Q s.
Proof. intros [? ? ? ? ? ?] HQ. apply wp_modify, HQ. by split. Qed.

Lemma wp_bread s0 dev mp v e s d b Q : fs_at s0 dev mp v e s -> unheld (d, b) v -> room v ->
  v_good v (d, b) = true -> d <> NODEV ->
  (forall h s', v_held v !! h = None ->
     fs_at s0 dev mp (put_held h (Hbuf (d, b) false (v_blk v (d, b))) v) e s' -> Q (Some h) s') ->
  wp (bread d b) Q s.
Proof.
  intros Hat Hu Hroom Hg Hd HQ. destruct (bread_law (cache s) v d b (at_rep _ _ _ _ _ _ Hat) Hu Hroom Hg Hd) as (h & c' & E & Hh & Hr).
  unfold wp, bread. rewrite E. apply HQ; [done|]. by eapply fs_at_cache.
Qed.

Lemma wp_bclaim s0 dev mp v e s d b Q : fs_at s0 dev mp v e s -> unheld (d, b) v -> room v ->
  (forall h dat s', v_held v !! h = None -> Z.of_nat (length dat) = BSIZE ->
     fs_at s0 dev mp (put_held h (Hbuf (d, b) false dat) v) e s' -> Q h s') ->
  wp (bclaim d b) Q s.
Proof.
  intros Hat Hu Hroom HQ. destruct (bclaim_law (cache s) v d b (at_rep _ _ _ _ _ _ Hat) Hu Hroom) as (h & c' & dat & E & Hh & Hl & Hr).
  unfold wp, bclaim. rewrite E. eapply HQ; [done|done|]. by eapply fs_at_cache.
Qed.

Lemma wp_vaddr s0 dev mp v e s h b Q : fs_at s0 dev mp v e s -> v_held v !! h = Some b ->
  Q (h_data b) s -> wp (vaddr h) Q s.
Proof. intros Hat Hh HQ. apply wp_gets. by rewrite (vaddr_law _ _ _ _ (at_rep _ _ _ _ _ _ Hat) Hh). Qed.

Lemma wp_store s0 dev mp v e s h b f (Q : unit -> fs C -> Prop) : fs_at s0 dev mp v e s -> v_held v !! h = Some b ->
  Z.of_nat (length (f (h_data b))) = BSIZE ->
  (forall s', fs_at s0 dev mp (put_held h (Hbuf (h_key b) (h_mod b) (f (h_data b))) v) e s' -> Q tt s') ->
  wp (store h f) Q s.
Proof.
  intros Hat Hh Hl HQ. apply wp_modify, HQ. rewrite (vaddr_law _ _ _ _ (at_rep _ _ _ _ _ _ Hat) Hh).
  eapply fs_at_cache; [done|]. apply store_law; [by apply Hat|done|done].
Qed.

Lemma wp_setmod s0 dev mp v e s h b (Q : unit -> fs C -> Prop) : fs_at s0 dev mp v e s -> v_held v !! h = Some b ->
  (forall s', fs_at s0 dev mp (put_held h (Hbuf (h_key b) true (h_data b)) v) e s' -> Q tt s') ->
  wp (setmod h) Q s.
Proof.
  intros Hat Hh HQ. apply wp_modify, HQ. eapply fs_at_cache; [done|]. apply setmod_law; [by apply Hat|done].
Qed.

Lemma wp_bwrite s0 dev mp v e s h b (Q : unit -> fs C -> Prop) : fs_at s0 dev mp v e s -> v_held v !! h = Some b ->
  v_good v (h_key b) = true -> (h_key b).1 <> NODEV ->
  (forall s', fs_at s0 dev mp (put_blk (h_key b) (h_data b) (put_held h (Hbuf (h_key b) false (h_data b)) v)) e s' -> Q tt s') ->
  wp (bwrite h) Q s.
Proof.
  intros Hat Hh Hg Hd HQ. destruct (bwrite_law _ _ _ _ (at_rep _ _ _ _ _ _ Hat) Hh Hg Hd) as (c' & E & Hr).
  unfold wp, bwrite. rewrite E. apply HQ. by eapply fs_at_cache.
Qed.

Lemma wp_brelease s0 dev mp v e s h b (Q : unit -> fs C -> Prop) : fs_at s0 dev mp v e s -> v_held v !! h = Some b ->
  releasable v b ->
  (forall s', fs_at s0 dev mp (drop_held h (released b v)) e s' -> Q tt s') -> wp (brelease h) Q s.
Proof.
  intros Hat Hh Hrel HQ. destruct (brelease_law _ _ _ _ (at_rep _ _ _ _ _ _ Hat) Hh Hrel) as (c' & E & Hr).
  unfold wp, brelease. rewrite E. apply HQ. by eapply fs_at_cache.
Qed.

Lemma wp_mlock s0 dev mp v e s il retry (Q : unit -> fs C -> Prop) : fs_at s0 dev mp v e s -> (0 < retry)%nat ->
  (if (il : bool) then m_ilock mp else m_flock mp) = false ->
  (forall s', fs_at s0 dev ((if il then set_m_ilock true else set_m_flock true) mp) v e s' -> Q tt s') ->
  wp (mlock retry dev il) Q s.
Proof.
  intros Hat Hretry Hun HQ. destruct retry as [|retry]; [lia|]. simpl. apply wp_bind. eapply wp_getm; [done|].
  rewrite Hun. eapply wp_putm; [done| |done]. by destruct il.
Qed.

Lemma wp_munlock s0 dev mp v e s il (Q : unit -> fs C -> Prop) : fs_at s0 dev mp v e s ->
  (forall s', fs_at s0 dev ((if (il : bool) then set_m_ilock false else set_m_flock false) mp) v e s' -> Q tt s') ->
  wp (munlock dev il) Q s.
Proof. intros Hat HQ. eapply wp_putm; [done| |done]. by destruct il. Qed.
End rules.
