(* ===== verification/Free.v ===== *)
(** Free blocks and free inodes of a mounted file system (kernel/coh/fs2.c:
    [getment], [smod], [superwrite], [mssync], [balloc], [bfree], [ifree]). *)
From S2P Require Import Prelude Sched Bytes Bcache Super Fs.
Local Open Scope Z_scope.
Local Open Scope kernel_scope.

Section free.
Context {C : Type} `{BufCache C}.
(** How often a process that was woken may find a gate taken again. *)
Context (retry : nat).

(** The entry must be writable; [false] is the null pointer. *)
Fixpoint getment_loop (l : list MOUNT) (dev f : Z) : M (fs C) bool :=
  match l with
  | [] => panic "getment: dev=0x%x"
  | mp :: l =>
    if m_dev mp =? dev then
      if negb (Z.land (m_flag mp) MFRON =? 0)
      then (if negb (f =? 0) then error EROFS else kret tt) ;;; kret false
      else kret true
    else getment_loop l dev f
  end.
Definition getment (dev f : Z) : M (fs C) bool := l <- gets mtab ;; getment_loop l dev f.

Definition superwrite (dev : Z) : M (fs C) unit :=
  sb <- getsb dev ;;
  bp <- bclaim dev SUPERI ;;
  store bp (fun d => upd d 0 (super_out sb)) ;;;
  bwrite bp ;;;
  brelease bp.

Definition smod (dev : Z) : M (fs C) unit :=
  sb <- getsb dev ;;
  if s_fmod sb =? 0 then
    putsb dev (set_s_fmod 1) ;;;
    putsb dev (set_s_dirty FSDIRTY) ;;;
    superwrite dev
  else kret tt.

Definition mssync (dev : Z) : M (fs C) unit :=
  mp <- getm dev ;;
  if negb (Z.land (m_flag mp) MFRON =? 0) then kret tt else
  root <- gets rootdev ;;
  if (s_fmod (m_super mp) =? 0) && negb (m_dev mp =? root) then kret tt else
  bp <- bclaim dev SUPERI ;;
  t <- gets t_time ;;
  putsb dev (set_s_time t) ;;;
  putsb dev (set_s_fmod 0) ;;;
  putsb dev (set_s_dirty FSCLEAN) ;;;
  sb <- getsb dev ;;
  store bp (fun d => upd d 0 (super_out sb)) ;;;
  bwrite bp ;;;
  brelease bp.

(** The [enospc] and [ebadflist] labels of [balloc]. *)
Definition enospc (dev : Z) : M (fs C) Z :=
  putsb dev (set_s_nfree 0) ;;;
  devmsg dev "Out of space" ;;;
  error ENOSPC ;;;
  kret 0.
Definition ebadflist (dev : Z) : M (fs C) Z :=
  devmsg dev "Bad free list" ;;; enospc dev.

(** A block outside the data area of the file system. *)
Definition outside (sb : filsys) (b : Z) : bool := (s_fsize sb <=? b) || (b <? s_isize sb).

(** The last entry names the block that holds the rest of the list. *)
Definition refill (dev b : Z) : M (fs C) bool :=
  sb <- getsb dev ;;
  if outside sb b then kret false else
  r <- bread dev b ;;
  match r with
  | None => kret false
  | Some bp =>
    d <- vaddr bp ;;
    let n := fblk_nfree d in
    putsb dev (set_s_nfree n) ;;;
    if NICFREE <? u16 n then brelease bp ;;; kret false
    else
      putsb dev (set_s_free (fblk_free d n)) ;;;
      brelease bp ;;;
      kret true
  end.

Definition balloc (dev : Z) : M (fs C) Z :=
  ok <- getment dev 1 ;;
  if negb ok then kret 0 else
  mlock retry dev false ;;;
  sb <- getsb dev ;;
  b <- (if s_nfree sb =? 0 then enospc dev else
        smod dev ;;;
        putsb dev (fun sb => set_s_nfree (s16 (s_nfree sb - 1)) sb) ;;;
        sb <- getsb dev ;;
        b <- deref (aget (s_free sb) (s_nfree sb)) ;;
        if b =? 0 then enospc dev else
        ok <- (if s_nfree sb =? 0 then refill dev b else kret true) ;;
        if negb ok then ebadflist dev else
        putsb dev (fun sb => set_s_tfree (s32 (s_tfree sb - 1)) sb) ;;;
        sb <- getsb dev ;;
        if outside sb b then
          putsb dev (fun sb => set_s_tfree (s32 (s_tfree sb + 1)) sb) ;;;
          ebadflist dev
        else smod dev ;;; kret b) ;;
  munlock dev false ;;;
  kret b.

Definition bfree (dev b : Z) : M (fs C) unit :=
  ok <- getment dev 1 ;;
  if negb ok then kret tt else
  sb <- getsb dev ;;
  if outside sb b then devmsg dev "Bad block %u (free)" else
  mlock retry dev false ;;;
  sb <- getsb dev ;;
  (if (s_nfree sb =? 0) || (s_nfree sb =? NICFREE) then
     bp <- bclaim dev b ;;
     sb <- getsb dev ;;
     store bp (fun _ => fblk_out (s_nfree sb) (s_free sb)) ;;;
     setmod bp ;;;
     brelease bp ;;;
     putsb dev (set_s_nfree 0)
   else kret tt) ;;;
  sb <- getsb dev ;;
  l <- deref (aset (s_free sb) (s_nfree sb) b) ;;
  putsb dev (set_s_free l) ;;;
  putsb dev (fun sb => set_s_nfree (s16 (s_nfree sb + 1)) sb) ;;;
  putsb dev (fun sb => set_s_tfree (s32 (s_tfree sb + 1)) sb) ;;;
  smod dev ;;;
  munlock dev false.

Definition ifree (dev ino : Z) : M (fs C) unit :=
  ok <- getment dev 1 ;;
  if negb ok then kret tt else
  mlock retry dev true ;;;
  smod dev ;;;
  sb <- getsb dev ;;
  (if s_ninode sb <? NICINOD then
     l <- deref (aset (s_inode sb) (s_ninode sb) ino) ;;
     putsb dev (set_s_inode l) ;;;
     putsb dev (fun sb => set_s_ninode (s16 (s_ninode sb + 1)) sb)
   else kret tt) ;;;
  putsb dev (fun sb => set_s_tinode (u16 (s_tinode sb + 1)) sb) ;;;
  munlock dev true.

(** [fsshutdown], after [usync]: every file system becomes read only. *)
Definition shut_mounts : M (fs C) unit :=
  modify (fun s => set_mtab (map (fun mp => set_m_flag (Z.lor (m_flag mp) MFRON) mp) (mtab s)) s).
End free.

(** ** The free block list

    [flist rd n free l]: a super block with [n] addresses in [free] gives out
    the blocks [l], in that order, where [rd] reads the blocks that hold the
    rest of the list. *)
Inductive flist (rd : Z -> list Z) : Z -> list Z -> list Z -> Prop :=
| fl_empty free : flist rd 0 free []
| fl_last n free : 1 <= n <= NICFREE -> free !! 0%nat = Some 0 ->
    flist rd n free (rev (sub free 1 (Z.to_nat n - 1)))
| fl_chain n free b l : 1 <= n <= NICFREE -> free !! 0%nat = Some b -> b <> 0 ->
    0 <= fblk_nfree (rd b) <= NICFREE ->
    flist rd (fblk_nfree (rd b)) (fblk_free (rd b) (fblk_nfree (rd b))) l ->
    flist rd n free (rev (sub free 1 (Z.to_nat n - 1)) ++ b :: l).

Lemma flist_range rd n free l : flist rd n free l -> 0 <= n <= NICFREE.
Proof. destruct 1; unfold NICFREE in *; lia. Qed.

Lemma flist_frame rd rd' n free l : flist rd n free l -> (forall b, b ∈ l -> rd' b = rd b) -> flist rd' n free l.
Proof.
  induction 1 as [free|n free Hn H0|n free b l Hn H0 Hb Hr Hl IH]; intros Hs; [constructor|by constructor|].
  assert (rd' b = rd b) as E by (apply Hs; apply elem_of_app; right; constructor).
  constructor; rewrite ?E; try done. apply IH. intros b' Hb'. apply Hs. apply elem_of_app. right. by constructor.
Qed.

Lemma sub_snoc (free : list Z) k x : free !! S k = Some x -> sub free 1 (S k) = sub free 1 k ++ [x].
Proof.
  intros Hx. apply list_eq. intros i. rewrite lookup_sub. pose proof (lookup_lt_Some _ _ _ Hx) as Hl.
  destruct (decide (i < k)%nat) as [Hi|Hi].
  - rewrite decide_True by lia. rewrite lookup_app_l by (rewrite length_sub; lia).
    rewrite lookup_sub, decide_True by lia. done.
  - rewrite lookup_app_r by (rewrite length_sub; lia). rewrite length_sub by lia.
    destruct (decide (i < S k)%nat).
    + replace i with k by lia. rewrite Nat.sub_diag. done.
    + symmetry. apply lookup_ge_None. simpl. lia.
Qed.

(** Taking the first block, when it is not the head of a chain. *)
Lemma flist_pop rd n free l : flist rd n free l -> 2 <= n -> Z.of_nat (length free) = NICFREE ->
  exists b l', free !! Z.to_nat (n - 1) = Some b /\ l = b :: l' /\ flist rd (n - 1) free l'.
Proof.
  intros Hl Hn Hlen. pose proof (flist_range _ _ _ _ Hl) as Hr. unfold NICFREE in *.
  destruct (lookup_lt_is_Some_2 free (Z.to_nat (n - 1))) as [x Hx]; [lia|].
  assert (exists k, Z.to_nat (n - 1) = S k) as [k Ek] by (exists (Z.to_nat (n - 2)); lia).
  exists x. rewrite Ek in Hx.
  assert (Z.to_nat n - 1 = S k)%nat as En by lia. assert (Z.to_nat (n - 1) - 1 = k)%nat as En1 by lia.
  destruct Hl as [free|n free Hn' H0|n free b l Hn' H0 Hb Hr' Hl]; [lia| |].
  - exists (rev (sub free 1 k)). split; [by rewrite Ek|]. rewrite En, (sub_snoc _ _ _ Hx), rev_app_distr.
    split; [done|]. rewrite <- En1. by constructor; unfold NICFREE; [lia|].
  - exists (rev (sub free 1 k) ++ b :: l). split; [by rewrite Ek|]. rewrite En, (sub_snoc _ _ _ Hx), rev_app_distr.
    split; [done|]. rewrite <- En1. by constructor; unfold NICFREE; [lia|..].
Qed.

(** Adding a block that is not the head of a chain. *)
Lemma flist_push rd n free l b : flist rd n free l -> 1 <= n < NICFREE -> Z.of_nat (length free) = NICFREE ->
  flist rd (n + 1) (<[Z.to_nat n := b]> free) (b :: l).
Proof.
  intros Hl Hn Hlen. unfold NICFREE in *.
  assert (exists k, Z.to_nat n = S k) as [k Ek] by (exists (Z.to_nat (n - 1)); lia).
  assert (Z.to_nat (n + 1) - 1 = S k)%nat as E1 by lia. assert (Z.to_nat n - 1 = k)%nat as E2 by lia.
  assert (<[S k := b]> free !! S k = Some b) as Hb by (apply list_lookup_insert_eq; lia).
  assert (sub (<[S k := b]> free) 1 k = sub free 1 k) as Es.
  { apply list_eq. intros i. rewrite !lookup_sub. destruct (decide (i < k)%nat); [|done].
    apply list_lookup_insert_ne. lia. }
  rewrite Ek. destruct Hl as [free|n free Hn' H0|n free b0 l Hn' H0 Hb0 Hr' Hl]; [lia| |].
  - pose proof (fl_last rd (n + 1) (<[S k := b]> free)) as H1.
    rewrite E1, (sub_snoc _ _ _ Hb), rev_app_distr, Es in H1. rewrite E2. apply H1; [unfold NICFREE; lia|].
    by rewrite list_lookup_insert_ne.
  - pose proof (fl_chain rd (n + 1) (<[S k := b]> free) b0 l) as H1.
    rewrite E1, (sub_snoc _ _ _ Hb), rev_app_distr, Es in H1. rewrite E2. apply H1; unfold NICFREE; try done; [lia|].
    by rewrite list_lookup_insert_ne.
Qed.

Lemma flist_one rd free b l : flist rd 1 free (b :: l) ->
  free !! 0%nat = Some b /\ b <> 0 /\ 0 <= fblk_nfree (rd b) <= NICFREE /\
  flist rd (fblk_nfree (rd b)) (fblk_free (rd b) (fblk_nfree (rd b))) l.
Proof.
  intros Hl. remember 1 as n eqn:En. remember (b :: l) as bl eqn:El.
  destruct Hl as [free|n free Hn H0|n free b0 l0 Hn H0 Hb Hr Hl]; subst; [done|done|].
  change (Z.to_nat 1 - 1)%nat with O in El. simpl in El. by injection El as -> ->.
Qed.

Lemma flist_none rd n free : flist rd n free [] -> Z.of_nat (length free) = NICFREE ->
  n = 0 \/ (n = 1 /\ free !! 0%nat = Some 0).
Proof.
  intros Hl Hlen. pose proof (flist_range _ _ _ _ Hl) as Hr.
  destruct (decide (2 <= n)) as [Hn|Hn].
  { by destruct (flist_pop _ _ _ _ Hl Hn Hlen) as (b & l' & _ & E & _). }
  destruct (decide (n = 0)); [by left|right]. assert (n = 1) as -> by lia. split; [done|].
  remember 1 as n eqn:En. remember [] as bl eqn:El.
  destruct Hl as [free|n free Hn1 H0|n free b0 l0 Hn1 H0 Hb Hr1 Hl]; [done|done|].
  by destruct (rev (sub free 1 (Z.to_nat n - 1))).
Qed.

(** ** Marking the file system modified *)

(** The conditions for writing the super block of [dev]. *)
Record ready (dev : Z) (v : bview) : Prop := {
  rd_super : unheld (dev, SUPERI) v;
  rd_room : room v;
  rd_good : forall b, v_good v (dev, b) = true;
  rd_dev : dev <> NODEV
}.

Lemma ready_same dev k v v' : ready dev v -> same_but k v v' -> ready dev v'.
Proof.
  intros [Hs Hr Hg Hd] (Eh & Eg & _). split; [|by unfold room; rewrite Eh|by rewrite Eg|done].
  intros h b Hb. rewrite Eh in Hb. by eapply Hs.
Qed.

Definition on_disk (v : bview) (dev : Z) : filsys := super_in (v_blk v (dev, SUPERI)).
(** The super block on disk says that the file system is dirty. *)
Definition dirty_on_disk (v : bview) (dev : Z) : Prop := s_dirty (on_disk v dev) = FSDIRTY.
(** Once [s_fmod] is set, the disk says so too. *)
Definition dinv (v : bview) (dev : Z) (f : filsys) : Prop := s_fmod f <> 0 -> dirty_on_disk v dev.

Definition touch (f : filsys) : filsys :=
  if s_fmod f =? 0 then set_s_dirty FSDIRTY (set_s_fmod 1 f) else f.

Lemma touch_mod f : s_fmod (touch f) <> 0.
Proof. unfold touch. destruct (Z.eqb_spec (s_fmod f) 0); simpl; lia. Qed.
Lemma touch_ok f : super_ok f -> super_ok (touch f).
Proof.
  intros Hf. unfold touch. destruct (_ =? _); [|done].
  apply super_ok_dirty; [apply super_ok_fmod; [done|]|]; unfold is8, FSDIRTY; lia.
Qed.

Section proofs.
Context {C : Type} `{BufCacheLaws C}.
Implicit Types (s : fs C) (mp : MOUNT) (v : bview).

Lemma wp_superwrite s0 dev mp v e s (Q : unit -> fs C -> Prop) : fs_at s0 dev mp v e s -> ready dev v -> super_ok (m_super mp) ->
  (forall d s', fs_at s0 dev mp (put_blk (dev, SUPERI) (upd d 0 (super_out (m_super mp))) v) e s' -> Q tt s') ->
  wp (superwrite dev) Q s.
Proof.
  intros Hat [Hu Hr Hg Hd] Hok HQ. unfold superwrite.
  apply wp_bind. eapply wp_getsb; [done|]. apply wp_bind.
  eapply wp_bclaim; [done|done|done|]. intros h d s1 Hh Hl Hat1.
  apply wp_bind. eapply wp_store; [done|apply held_put| |].
  { rewrite length_upd; [done|]. rewrite length_super_out by done. cbn [h_data]. unfold BSIZE in Hl. lia. }
  intros s2 Hat2. rewrite put_put in Hat2. simpl in Hat2.
  apply wp_bind. eapply wp_bwrite; [done|apply held_put|apply Hg|done|]. intros s3 Hat3. rewrite put_put in Hat3. simpl in Hat3.
  eapply wp_brelease; [done|apply lookup_insert_eq| |].
  { left. simpl. by rewrite decide_True. }
  intros s4 Hat4. eapply HQ. unfold released in Hat4. simpl in Hat4.
  unfold drop_held, put_blk, put_held in Hat4. simpl in Hat4. rewrite delete_insert_id in Hat4 by done. exact Hat4.
Qed.

Lemma wp_smod s0 dev mp v e s (Q : unit -> fs C -> Prop) : fs_at s0 dev mp v e s -> ready dev v -> super_ok (m_super mp) ->
  dinv v dev (m_super mp) ->
  (forall v' s', same_but (dev, SUPERI) v v' -> dirty_on_disk v' dev ->
     fs_at s0 dev (set_m_super (touch (m_super mp)) mp) v' e s' -> Q tt s') ->
  wp (smod dev) Q s.
Proof.
  intros Hat Hrd Hok Hdi HQ. unfold smod. apply wp_bind. eapply wp_getsb; [done|].
  unfold touch in HQ. destruct (Z.eqb_spec (s_fmod (m_super mp)) 0) as [E|E].
  - apply wp_bind. eapply wp_putsb; [done|]. intros s1 Hat1. apply wp_bind. eapply wp_putsb; [done|].
    intros s2 Hat2. simpl in Hat2. eapply wp_superwrite; [done|done| |].
    { simpl. apply super_ok_dirty; [apply super_ok_fmod; [done|]|]; unfold is8, FSDIRTY; lia. }
    intros d s3 Hat3. eapply HQ; [apply same_but_put| |exact Hat3].
    unfold dirty_on_disk, on_disk. rewrite blk_put. rewrite super_in_upd; [done|].
    simpl. apply super_ok_dirty; [apply super_ok_fmod; [done|]|]; unfold is8, FSDIRTY; lia.
  - apply wp_ret. eapply HQ; [apply same_but_refl|by apply Hdi|].
    destruct mp as [? ? ? ? ? sb]. exact Hat.
Qed.

Lemma wp_getment s0 dev mp v e s f Q : fs_at s0 dev mp v e s ->
  (if Z.land (m_flag mp) MFRON =? 0 then Q true s
   else forall s', fs_at s0 dev mp v (if f =? 0 then e else EROFS) s' -> Q false s') ->
  wp (getment dev f) Q s.
Proof.
  intros Hat HQ. unfold getment. apply wp_bind, wp_gets. pose proof (at_mount _ _ _ _ _ _ Hat) as Hm.
  revert Hm. generalize (mtab s) as l. induction l as [|mp' l IH]; simpl; [done|].
  destruct (Z.eqb_spec (m_dev mp') dev) as [E|Hne]; [|done]. intros [= ->].
  destruct (Z.land (m_flag mp) MFRON =? 0); simpl; [by apply wp_ret|].
  apply wp_bind. destruct (f =? 0); simpl; [apply wp_ret, wp_ret; by apply HQ|].
  eapply wp_error; [done|]. intros s' Hat'. apply wp_ret. by apply HQ.
Qed.

(** ** balloc *)

(** The free block list of a mounted file system. *)
Record freelist (dev : Z) (v : bview) (f : filsys) (l : list Z) : Prop := {
  fr_list : flist (fun b => v_blk v (dev, b)) (s_nfree f) (s_free f) l;
  fr_ok : super_ok f;
  fr_isize : 2 <= s_isize f;
  fr_inside : Forall (fun b => outside f b = false) l;
  fr_nodup : NoDup l;
  fr_dinv : dinv v dev f
}.

Definition unheld_all (dev : Z) (l : list Z) (v : bview) : Prop := forall b, b ∈ l -> unheld (dev, b) v.

Lemma inside_super f b : 2 <= s_isize f -> outside f b = false -> b <> SUPERI /\ b <> 0 /\ s_isize f <= b < s_fsize f.
Proof.
  unfold outside, SUPERI. intros Hi [H1 H2]%orb_false_iff. apply Z.leb_gt in H1. apply Z.ltb_ge in H2. lia.
Qed.

Lemma flist_same dev v v' f n free l : flist (fun b => v_blk v (dev, b)) n free l -> 2 <= s_isize f ->
  Forall (fun b => outside f b = false) l -> same_but (dev, SUPERI) v v' -> flist (fun b => v_blk v' (dev, b)) n free l.
Proof.
  intros Hl Hi Hin (_ & _ & Hb). eapply flist_frame; [done|]. intros b Hbl. apply Hb.
  rewrite Forall_forall in Hin. apply Hin, (inside_super f) in Hbl; [|done]. intros [= ->]. tauto.
Qed.

(** What [balloc] and [bfree] change in the super block: the list and, by
    [d], the count of free blocks. *)
Record counted (f f' : filsys) (d : Z) : Prop := {
  ct_isize : s_isize f' = s_isize f;
  ct_fsize : s_fsize f' = s_fsize f;
  ct_inodes : s_ninode f' = s_ninode f /\ s_inode f' = s_inode f /\ s_tinode f' = s_tinode f;
  ct_tfree : s_tfree f' = s32 (s_tfree f + d)
}.

Lemma touch_fields f : s_isize (touch f) = s_isize f /\ s_fsize (touch f) = s_fsize f /\ s_nfree (touch f) = s_nfree f /\
  s_free (touch f) = s_free f /\ s_ninode (touch f) = s_ninode f /\ s_inode (touch f) = s_inode f /\
  s_tinode (touch f) = s_tinode f /\ s_tfree (touch f) = s_tfree f.
Proof. unfold touch. by destruct (_ =? _). Qed.

Lemma wp_refill s0 dev mp v e s b (Q : bool -> fs C -> Prop) :
  let d := v_blk v (dev, b) in
  fs_at s0 dev mp v e s -> ready dev v -> unheld (dev, b) v -> outside (m_super mp) b = false ->
  0 <= fblk_nfree d <= NICFREE ->
  (forall s', fs_at s0 dev (set_m_super (set_s_free (fblk_free d (fblk_nfree d))
     (set_s_nfree (fblk_nfree d) (m_super mp))) mp) v e s' -> Q true s') ->
  wp (refill dev b) Q s.
Proof.
  intros d Hat [Hu Hr Hg Hd] Hub Hout Hn HQ. unfold refill.
  apply wp_bind. eapply wp_getsb; [done|]. rewrite Hout.
  apply wp_bind. eapply wp_bread; [done|done|done|apply Hg|done|]. intros h s1 Hh Hat1.
  apply wp_bind. eapply wp_vaddr; [done|apply held_put|]. cbn [h_data]. fold d.
  apply wp_bind. eapply wp_putsb; [done|]. intros s2 Hat2.
  unfold NICFREE in *. rewrite u16_small by lia. rewrite (proj2 (Z.ltb_ge 64 _)) by lia.
  apply wp_bind. eapply wp_putsb; [done|]. intros s3 Hat3. apply wp_bind.
  eapply wp_brelease; [done|apply held_put|by left|]. intros s4 Hat4. unfold released in Hat4. cbn [h_mod] in Hat4.
  rewrite drop_put in Hat4 by done. apply wp_ret, HQ. exact Hat4.
Qed.

Lemma wp_enospc s0 dev mp v e s (Q : Z -> fs C -> Prop) : fs_at s0 dev mp v e s ->
  (forall s', fs_at s0 dev (set_m_super (set_s_nfree 0 (m_super mp)) mp) v ENOSPC s' -> Q 0 s') -> wp (enospc dev) Q s.
Proof.
  intros Hat HQ. unfold enospc. apply wp_bind. eapply wp_putsb; [done|]. intros s1 Hat1.
  apply wp_bind. eapply wp_devmsg; [done|]. intros s2 Hat2. apply wp_bind. eapply wp_error; [done|].
  intros s3 Hat3. by apply wp_ret, HQ.
Qed.

(** The block taken from a list that is not empty. *)
Definition popped (v : bview) (dev : Z) (f : filsys) (b : Z) : filsys :=
  let n := s_nfree f - 1 in
  let d := v_blk v (dev, b) in
  if n =? 0 then set_s_free (fblk_free d (fblk_nfree d)) (set_s_nfree (fblk_nfree d) (set_s_nfree n f)) else set_s_nfree n f.

Lemma popped_list v dev f b l : freelist dev v f (b :: l) ->
  let f' := popped v dev f b in
  flist (fun b => v_blk v (dev, b)) (s_nfree f') (s_free f') l /\ super_ok f' /\
  s_free f !! Z.to_nat (s_nfree f - 1) = Some b /\ 1 <= s_nfree f <= NICFREE /\
  (s_nfree f = 1 -> 0 <= fblk_nfree (v_blk v (dev, b)) <= NICFREE) /\
  s_isize f' = s_isize f /\ s_fsize f' = s_fsize f /\ s_tfree f' = s_tfree f /\ s_fmod f' = s_fmod f /\
  s_ninode f' = s_ninode f /\ s_inode f' = s_inode f /\ s_tinode f' = s_tinode f.
Proof.
  intros [Hl Hok Hi Hin Hnd _] f'. pose proof (flist_range _ _ _ _ Hl) as Hr.
  pose proof (so_free _ Hok) as [Hfr Hlen].
  assert (s_nfree f <> 0) as Hn0.
  { intros E. rewrite E in Hl. inversion Hl; subst; unfold NICFREE in *; lia. }
  unfold f', popped. destruct (Z.eqb_spec (s_nfree f - 1) 0) as [E1|E1].
  - assert (s_nfree f = 1) as En by lia. rewrite En in Hl |- *. change (Z.to_nat (1 - 1)) with O.
    destruct (flist_one _ _ _ _ Hl) as (Hb0 & Hne & Hr0 & Hl0). destruct (fblk_free_ok (v_blk v (dev, b)) (fblk_nfree (v_blk v (dev, b)))) as [Hf1 Hf2].
    split; [done|]. split; [|unfold NICFREE in *; repeat split; try done; lia].
    apply super_ok_free; [|done|done]. do 2 (apply super_ok_nfree; [|unfold is16, NICFREE in *; lia]). done.
  - destruct (flist_pop _ _ _ _ Hl) as (b' & l' & Hb & [= <- <-] & Hl'); [lia|done|].
    split; [exact Hl'|]. split; [apply super_ok_nfree; [done|]; unfold is16, NICFREE in *; lia|].
    split; [done|]. unfold NICFREE in *. repeat split; try done; lia.
Qed.

Lemma mount_back mp f : m_flock mp = false -> set_m_flock false (set_m_super f (set_m_flock true mp)) = set_m_super f mp.
Proof. destruct mp. simpl. by intros ->. Qed.

Lemma s32_id z : is32 z -> s32 z = z.
Proof. apply s32_small. Qed.

Lemma tfree32 f : super_ok f -> is32 (s_tfree f).
Proof. intros Hok. pose proof (so_long _ Hok) as Hlg. do 2 apply Forall_cons in Hlg as [_ Hlg]. by apply Forall_cons in Hlg as [? _]. Qed.

Lemma same_unheld k v v' k' : same_but k v v' -> unheld k' v -> unheld k' v'.
Proof. intros (Eh & _) Hu h b. rewrite Eh. apply Hu. Qed.

Lemma dirty_dinv v dev f : dirty_on_disk v dev -> dinv v dev f.
Proof. by intros ? ?. Qed.

(** The list after the super block was marked modified. *)
Lemma freelist_touch dev v v1 f l : freelist dev v f l -> same_but (dev, SUPERI) v v1 -> dirty_on_disk v1 dev ->
  freelist dev v1 (touch f) l.
Proof.
  intros [Hl Hok Hi Hin Hnd Hdi] Hs Hdd.
  destruct (touch_fields f) as (E1 & E2 & E3 & E4 & _).
  split; rewrite ?E1, ?E3, ?E4; try done.
  - by eapply flist_same.
  - by apply touch_ok.
  - eapply Forall_impl; [done|]. intros b. unfold outside. by rewrite E1, E2.
  - by apply dirty_dinv.
Qed.

(** An empty list with its count cleared. *)
Lemma freelist_empty dev v f l : freelist dev v f l -> freelist dev v (set_s_nfree 0 f) [].
Proof.
  intros [Hl Hok Hi Hin Hnd Hdi]. split; try done; [constructor|apply super_ok_nfree; [done|unfold is16; lia]|constructor].
Qed.

Lemma counted_touch_nfree f g n : counted f g 0 -> counted f (set_s_nfree n g) 0.
Proof. by intros [? ? ? ?]. Qed.
Lemma counted_self f : super_ok f -> counted f f 0.
Proof. intros Hok. split; try done. rewrite Z.add_0_r. symmetry. by apply s32_id, tfree32. Qed.
Lemma counted_touch f : super_ok f -> counted f (touch f) 0.
Proof.
  intros Hok. destruct (touch_fields f) as (E1 & E2 & E3 & E4 & E5 & E6 & E7 & E8). split; rewrite ?E1, ?E2, ?E5, ?E6, ?E7, ?E8; try done.
  rewrite Z.add_0_r. symmetry. by apply s32_id, tfree32.
Qed.

(** The part of [balloc] after the block was taken from the list. *)
Lemma wp_hand_out s0 dev mp v e s f b (Q : Z -> fs C -> Prop) :
  fs_at s0 dev (set_m_super f (set_m_flock true mp)) v e s -> m_flock mp = false ->
  outside f b = false -> s_fmod f <> 0 ->
  (forall s', fs_at s0 dev (set_m_super (set_s_tfree (s32 (s_tfree f - 1)) f) mp) v e s' -> Q b s') ->
  wp (putsb dev (fun sb => set_s_tfree (s32 (s_tfree sb - 1)) sb) ;;;
      sb <- getsb dev ;;
      if outside sb b then
        putsb dev (fun sb => set_s_tfree (s32 (s_tfree sb + 1)) sb) ;;;
        ebadflist dev
      else smod dev ;;; kret b) (fun b' s' => wp (munlock dev false ;;; kret b') Q s') s.
Proof.
  intros Hat Hlk Hout Hmod HQ. apply wp_bind. eapply wp_putsb; [done|]. intros s1 Hat1.
  apply wp_bind. eapply wp_getsb; [done|]. cbn [m_super set_m_super] in *.
  assert (outside (set_s_tfree (s32 (s_tfree f - 1)) f) b = false) as -> by done.
  apply wp_bind. unfold smod. apply wp_bind. eapply wp_getsb; [done|]. cbn [m_super set_m_super] in *.
  change (s_fmod (set_s_tfree _ f)) with (s_fmod f). rewrite (proj2 (Z.eqb_neq _ 0)) by done.
  apply wp_ret, wp_ret. apply wp_bind. eapply wp_munlock; [done|]. intros s2 Hat2. apply wp_ret, HQ.
  cbn [set_m_super m_dev m_flag m_ip m_ilock m_flock m_super set_m_flock] in Hat2.
  rewrite <- (mount_back mp _ Hlk). exact Hat2.
Qed.

(** ** Writing the super block back *)

Definition cleaned (t : Z) (f : filsys) : filsys := set_s_dirty FSCLEAN (set_s_fmod 0 (set_s_time t f)).

Lemma cleaned_ok t f : super_ok f -> is32 t -> super_ok (cleaned t f).
Proof.
  intros Hf Ht. apply super_ok_dirty; [apply super_ok_fmod; [by apply super_ok_time|]|]; unfold is8, FSCLEAN; lia.
Qed.

Lemma wp_mssync s dev mp v :
  c_rep (cache s) v -> findm dev (mtab s) = Some mp -> ready dev v -> super_ok (m_super mp) -> is32 (t_time s) ->
  let skip := negb (Z.land (m_flag mp) MFRON =? 0) || (s_fmod (m_super mp) =? 0) && negb (dev =? rootdev s) in
  let f' := if skip then m_super mp else cleaned (t_time s) (m_super mp) in
  wp (mssync dev) (fun _ s' => exists v', fs_at s dev (set_m_super f' mp) v' (u_error s) s' /\
    same_but (dev, SUPERI) v v' /\ if skip then v' = v else on_disk v' dev = f') s.
Proof.
  intros Hrep Hm Hrd Hok Ht. cbn zeta. pose proof (fs_at_self s dev mp v Hrep Hm) as Hat.
  assert (set_m_super (m_super mp) mp = mp) as Emp by by destruct mp.
  unfold mssync. apply wp_bind. eapply wp_getm; [done|].
  destruct (Z.land (m_flag mp) MFRON =? 0) eqn:Ero; cbn [negb orb].
  2: { apply wp_ret. exists v. rewrite Emp. by split; [|split; [apply same_but_refl|]]. }
  apply wp_bind, wp_gets. rewrite (findm_dev _ _ _ Hm).
  destruct ((s_fmod (m_super mp) =? 0) && negb (dev =? rootdev s)).
  { apply wp_ret. exists v. rewrite Emp. by split; [|split; [apply same_but_refl|]]. }
  pose proof Hrd as [Hu Hr Hg Hd].
  apply wp_bind. eapply wp_bclaim; [done|done|done|]. intros h d s1 Hh Hl Hat1.
  apply wp_bind, wp_gets. destruct (at_ids _ _ _ _ _ _ Hat1) as (_ & _ & -> & _).
  apply wp_bind. eapply wp_putsb; [done|]. intros s2 Hat2.
  apply wp_bind. eapply wp_putsb; [done|]. intros s3 Hat3.
  apply wp_bind. eapply wp_putsb; [done|]. intros s4 Hat4. cbn [m_super set_m_super] in Hat4.
  apply wp_bind. eapply wp_getsb; [done|]. cbn [m_super set_m_super].
  change (set_s_dirty FSCLEAN (set_s_fmod 0 (set_s_time (t_time s) (m_super mp)))) with (cleaned (t_time s) (m_super mp)) in *.
  pose proof (cleaned_ok _ _ Hok Ht) as Hok'.
  apply wp_bind. eapply wp_store; [done|apply held_put| |].
  { rewrite length_upd; [done|]. rewrite length_super_out by done. cbn [h_data]. unfold BSIZE in Hl. lia. }
  intros s5 Hat5. rewrite put_put in Hat5. cbn [h_key h_mod h_data] in Hat5.
  apply wp_bind. eapply wp_bwrite; [done|apply held_put|apply Hg|done|]. intros s6 Hat6. rewrite put_put in Hat6. cbn [h_key h_mod h_data] in Hat6.
  eapply wp_brelease; [done|apply lookup_insert_eq| |].
  { left. simpl. by rewrite decide_True. }
  intros s7 Hat7. unfold released in Hat7. cbn [h_mod] in Hat7.
  exists (put_blk (dev, SUPERI) (upd d 0 (super_out (cleaned (t_time s) (m_super mp)))) v). split; [|split].
  - unfold drop_held, put_blk, put_held in Hat7. cbn [v_held v_blk v_good] in Hat7. rewrite delete_insert_id in Hat7 by done. exact Hat7.
  - apply same_but_put.
  - unfold on_disk. rewrite blk_put. by rewrite super_in_upd.
Qed.

(** C34: the first modification after a sync writes FSDIRTY to the super block
    on disk before anything else changes; later ones rely on it. *)
Theorem smod_dirties_disk s dev mp v :
  c_rep (cache s) v -> findm dev (mtab s) = Some mp -> ready dev v -> super_ok (m_super mp) -> dinv v dev (m_super mp) ->
  wp (smod dev) (fun _ s' => exists v', fs_at s dev (set_m_super (touch (m_super mp)) mp) v' (u_error s) s' /\
    same_but (dev, SUPERI) v v' /\ dirty_on_disk v' dev /\ s_fmod (touch (m_super mp)) <> 0) s.
Proof.
  intros Hrep Hm Hrd Hok Hdi. eapply wp_smod; [by apply fs_at_self|done|done|done|].
  intros v' s' Hs Hdd Hat. exists v'. split_and!; try done. apply touch_mod.
Qed.

(** [mssync] leaves a read-only file system and an unmodified one that is
    not the root alone, and otherwise writes the super block with the current
    time, marked clean and unmodified, so that reading block 1 back gives
    exactly the super block in core. *)
Theorem mssync_cleans_disk s dev mp v :
  c_rep (cache s) v -> findm dev (mtab s) = Some mp -> ready dev v -> super_ok (m_super mp) -> is32 (t_time s) ->
  let skip := negb (Z.land (m_flag mp) MFRON =? 0) || (s_fmod (m_super mp) =? 0) && negb (dev =? rootdev s) in
  let f' := if skip then m_super mp else cleaned (t_time s) (m_super mp) in
  wp (mssync dev) (fun _ s' => exists v', fs_at s dev (set_m_super f' mp) v' (u_error s) s' /\
    same_but (dev, SUPERI) v v' /\ if skip then v' = v else on_disk v' dev = f') s.
Proof. intros. by apply wp_mssync. Qed.

(** How often a gate may be found taken again: the gates are free here. *)
Context (retry : nat) (Hretry : (0 < retry)%nat).

Lemma wp_no_space s0 dev mp v e s f (Q : Z -> fs C -> Prop) :
  fs_at s0 dev (set_m_super f (set_m_flock true mp)) v e s -> m_flock mp = false ->
  (forall s', fs_at s0 dev (set_m_super (set_s_nfree 0 f) mp) v ENOSPC s' -> Q 0 s') ->
  wp (enospc dev) (fun b' s' => wp (munlock dev false ;;; kret b') Q s') s.
Proof.
  intros Hat Hlk HQ. eapply wp_enospc; [done|]. intros s1 Hat1. apply wp_bind.
  eapply wp_munlock; [done|]. intros s2 Hat2. apply wp_ret, HQ. rewrite <- (mount_back mp _ Hlk). exact Hat2.
Qed.

(** What [balloc] does to a mounted file system whose free list is [l]. *)
Definition took (s : fs C) (dev : Z) (mp : MOUNT) (v : bview) (l : list Z) (b : Z) (s' : fs C) : Prop :=
  exists v' f', b = hd 0 l /\
    fs_at s dev (set_m_super f' mp) v' (match l with [] => ENOSPC | _ => u_error s end) s' /\
    same_but (dev, SUPERI) v v' /\ freelist dev v' f' (tl l) /\
    counted (m_super mp) f' (match l with [] => 0 | _ => -1 end) /\
    (l <> [] -> dirty_on_disk v' dev).

Lemma freelist_pop dev v f b l : freelist dev v f (b :: l) ->
  freelist dev v (set_s_tfree (s32 (s_tfree f - 1)) (popped v dev f b)) l /\
  counted f (set_s_tfree (s32 (s_tfree f - 1)) (popped v dev f b)) (-1).
Proof.
  intros Hfl. destruct (popped_list v dev f b l Hfl) as (Hl & Hok & _ & _ & _ & E1 & E2 & E3 & E4 & E5 & E6 & E7).
  destruct Hfl as [_ _ Hi Hin Hnd Hdi]. apply Forall_cons in Hin as [_ Hin]. apply NoDup_cons in Hnd as [_ Hnd]. split.
  - split; cbn [s_nfree s_free s_isize set_s_tfree]; rewrite ?E1; try done.
    + apply super_ok_tfree; [done|]. unfold is32. apply s32_range.
    + eapply Forall_impl; [done|]. intros b' Hb'. unfold outside in *. cbn [s_fsize s_isize set_s_tfree]. by rewrite E1, E2.
    + unfold dinv in *. cbn [s_fmod set_s_tfree]. by rewrite E4.
  - by split; cbn.
Qed.

Lemma counted_from f g h d : counted f g 0 -> super_ok f -> counted g h d -> counted f h d.
Proof.
  intros [A1 A2 (A3 & A4 & A5) A6] Hok [B1 B2 (B3 & B4 & B5) B6].
  rewrite Z.add_0_r, s32_id in A6 by by apply tfree32. split; [congruence|congruence|split_and!; congruence|].
  by rewrite B6, A6.
Qed.

(** [balloc] once the file system is marked modified and the list is not known empty. *)
Lemma wp_balloc_list s0 s dev mp v f l (Q : Z -> fs C -> Prop) :
  fs_at s0 dev (set_m_super f (set_m_flock true mp)) v (u_error s0) s ->
  freelist dev v f l -> ready dev v -> unheld_all dev l v -> m_flock mp = false ->
  s_nfree f <> 0 -> s_fmod f <> 0 ->
  (forall f' s', fs_at s0 dev (set_m_super f' mp) v (match l with [] => ENOSPC | _ => u_error s0 end) s' ->
     freelist dev v f' (tl l) -> counted f f' (match l with [] => 0 | _ => -1 end) -> Q (hd 0 l) s') ->
  wp (putsb dev (fun sb => set_s_nfree (s16 (s_nfree sb - 1)) sb) ;;;
      sb <- getsb dev ;;
      b <- deref (aget (s_free sb) (s_nfree sb)) ;;
      if b =? 0 then enospc dev else
      ok <- (if s_nfree sb =? 0 then refill dev b else kret true) ;;
      if negb ok then ebadflist dev else
      putsb dev (fun sb => set_s_tfree (s32 (s_tfree sb - 1)) sb) ;;;
      sb <- getsb dev ;;
      if outside sb b then
        putsb dev (fun sb => set_s_tfree (s32 (s_tfree sb + 1)) sb) ;;;
        ebadflist dev
      else smod dev ;;; kret b) (fun b' s' => wp (munlock dev false ;;; kret b') Q s') s.
Proof.
  intros Hat Hfl Hrd Hul Hlk Hn0 Hmod HQ. pose proof (fr_ok _ _ _ _ Hfl) as Hok.
  destruct (so_free _ Hok) as [_ Hlen]. pose proof (flist_range _ _ _ _ (fr_list _ _ _ _ Hfl)) as Hr.
  unfold NICFREE in Hr, Hlen.
  apply wp_bind. eapply wp_putsb; [done|]. intros s3 Hat3. cbn [m_super set_m_super] in Hat3.
  apply wp_bind. eapply wp_getsb; [done|]. cbn [m_super set_m_super].
  rewrite s16_small in Hat3 |- * by lia. cbn [s_nfree s_free set_s_nfree]. apply wp_bind.
  destruct l as [|b l].
  - destruct (flist_none _ _ _ (fr_list _ _ _ _ Hfl)) as [?|[En Hb]]; [unfold NICFREE; lia|lia|].
    eapply wp_deref; [rewrite En; exact Hb|]. change (0 =? 0) with true. cbn iota. eapply (wp_no_space _ _ mp _ _ _ (set_s_nfree (s_nfree f - 1) f)); [exact Hat3|done|].
    intros s4 Hat4. change (set_s_nfree 0 (set_s_nfree _ f)) with (set_s_nfree 0 f) in Hat4. simpl in HQ.
    eapply HQ; [exact Hat4|by eapply (freelist_empty dev v f [])|].
    by apply counted_touch_nfree, counted_self.
  - destruct (popped_list v dev f b l Hfl) as (Hl & Hok' & Hb & _ & Hrf & E1 & E2 & E3 & E4 & _).
    destruct (freelist_pop _ _ _ _ _ Hfl) as [Hfl' Hct'].
    assert (outside f b = false) as Hout by (pose proof (fr_inside _ _ _ _ Hfl) as Hin; by apply Forall_cons in Hin as [? _]).
    destruct (inside_super f b (fr_isize _ _ _ _ Hfl) Hout) as (_ & Hb0 & _).
    eapply wp_deref; [unfold aget; rewrite (proj2 (Z.ltb_ge _ 0)) by lia; exact Hb|].
    rewrite (proj2 (Z.eqb_neq b 0)) by done.
    assert (forall s4, fs_at s0 dev (set_m_super (popped v dev f b) (set_m_flock true mp)) v (u_error s0) s4 ->
      wp (if negb true then ebadflist dev else
      putsb dev (fun sb => set_s_tfree (s32 (s_tfree sb - 1)) sb) ;;;
      sb <- getsb dev ;;
      if outside sb b then
        putsb dev (fun sb => set_s_tfree (s32 (s_tfree sb + 1)) sb) ;;;
        ebadflist dev
      else smod dev ;;; kret b) (fun b' s' => wp (munlock dev false ;;; kret b') Q s') s4) as Hgo.
    { intros s4 Hat4. simpl. eapply wp_hand_out; [done|done| |by rewrite E4|].
      { unfold outside. by rewrite E1, E2. }
      intros s5 Hat5. rewrite E3 in Hat5. by eapply HQ. }
    apply wp_bind. unfold popped in Hgo. destruct (Z.eqb_spec (s_nfree f - 1) 0) as [E|E].
    + eapply wp_refill; [done|done|apply Hul; constructor|done|apply Hrf; lia|]. intros s4 Hat4. apply Hgo. exact Hat4.
    + apply wp_ret, Hgo. exact Hat3.
Qed.

Lemma wp_balloc s dev mp v l :
  c_rep (cache s) v -> findm dev (mtab s) = Some mp -> ready dev v -> unheld_all dev l v ->
  m_flock mp = false -> Z.land (m_flag mp) MFRON = 0 -> freelist dev v (m_super mp) l ->
  wp (balloc retry dev) (took s dev mp v l) s.
Proof.
  intros Hrep Hm Hrd Hul Hlk Hro Hfl. pose proof (fs_at_self s dev mp v Hrep Hm) as Hat.
  unfold balloc. apply wp_bind. eapply wp_getment; [done|]. rewrite Hro. simpl.
  apply wp_bind. eapply wp_mlock; [done|done|done|]. intros s1 Hat1. simpl in Hat1.
  apply wp_bind. eapply wp_getsb; [done|]. cbn [m_super set_m_flock].
  assert (set_m_flock true mp = set_m_super (m_super mp) (set_m_flock true mp)) as Emp by by destruct mp.
  rewrite Emp in Hat1.
  pose proof (fr_ok _ _ _ _ Hfl) as Hok.
  destruct (so_free _ Hok) as [_ Hlen].
  apply wp_bind. destruct (Z.eqb_spec (s_nfree (m_super mp)) 0) as [En|En].
  - assert (l = []) as ->.
    { pose proof (fr_list _ _ _ _ Hfl) as Hl. rewrite En in Hl. inversion Hl; subst; [done|lia..]. }
    eapply wp_no_space; [done|done|]. intros s2 Hat2. exists v, (set_s_nfree 0 (m_super mp)).
    split; [done|]. split; [exact Hat2|]. split; [apply same_but_refl|].
    split; [by eapply freelist_empty|]. split; [by apply counted_touch_nfree, counted_self|done].
  - apply wp_bind. eapply wp_smod; [done|done|done|by apply Hfl|].
    intros v1 s2 Hs Hdd Hat2. cbn [m_super set_m_super] in Hat2.
    eapply (wp_balloc_list s _ dev mp v1 (touch (m_super mp)) l); [exact Hat2|..]; try done.
    + by eapply freelist_touch.
    + by eapply ready_same.
    + intros b Hb. by eapply same_unheld, Hul.
    + by destruct (touch_fields (m_super mp)) as (_ & _ & -> & _).
    + apply touch_mod.
    + intros f' s' Hat' Hfl' Hct'. exists v1, f'. split; [done|]. split; [exact Hat'|]. split; [done|]. split; [done|].
      split; [|done]. eapply counted_from; [by apply counted_touch|done|done].
Qed.

(** The same from a state described relative to another one. *)
Lemma wp_balloc_at s0 dev mp v e s l (Q : Z -> fs C -> Prop) :
  fs_at s0 dev mp v e s -> ready dev v -> unheld_all dev l v -> m_flock mp = false -> Z.land (m_flag mp) MFRON = 0 ->
  freelist dev v (m_super mp) l ->
  (forall v' f' s', fs_at s0 dev (set_m_super f' mp) v' (match l with [] => ENOSPC | _ => e end) s' ->
     same_but (dev, SUPERI) v v' -> freelist dev v' f' (tl l) ->
     counted (m_super mp) f' (match l with [] => 0 | _ => -1 end) -> Q (hd 0 l) s') ->
  wp (balloc retry dev) Q s.
Proof.
  intros Hat Hrd Hul Hlk Hro Hfl HQ.
  eapply wp_mono; [eapply wp_balloc; [by apply Hat|by apply Hat|done|exact Hul|done|done|done]|].
  intros b s' (v' & f' & -> & Hat' & Hs & Hfl' & Hct & _). eapply HQ; [|done|done|done].
  rewrite (at_error _ _ _ _ _ _ Hat) in Hat'. by eapply fs_at_trans.
Qed.

(** ** bfree *)

Lemma dinv_same dev b v v1 f : dinv v dev f -> same_but (dev, b) v v1 -> b <> SUPERI -> dinv v1 dev f.
Proof.
  intros Hd (_ & _ & Hb) Hne Hm. specialize (Hd Hm). unfold dirty_on_disk, on_disk in *.
  rewrite Hb; [done|]. intros [= E]. congruence.
Qed.

(** The free list with [b] in front, before the block is counted. *)
Definition pushed (f : filsys) (b : Z) : filsys :=
  let n := if (s_nfree f =? 0) || (s_nfree f =? NICFREE) then 0 else s_nfree f in
  set_s_nfree (n + 1) (set_s_free (<[Z.to_nat n := b]> (s_free f)) (set_s_nfree n f)).
Definition chained (f : filsys) (b : Z) (dev : Z) (v : bview) : bview :=
  if (s_nfree f =? 0) || (s_nfree f =? NICFREE) then put_blk (dev, b) (fblk_out (s_nfree f) (s_free f)) v else v.

Lemma chained_same f b dev v : same_but (dev, b) v (chained f b dev v).
Proof. unfold chained. destruct (_ || _); [apply same_but_put|apply same_but_refl]. Qed.

Lemma pushed_list dev v f b l : freelist dev v f l -> b ∉ l -> outside f b = false -> is32 b ->
  freelist dev (chained f b dev v) (pushed f b) (b :: l).
Proof.
  intros [Hl Hok Hi Hin Hnd Hdi] Hb Hout H32. destruct (inside_super f b Hi Hout) as (Hs & Hb0 & _).
  pose proof (flist_range _ _ _ _ Hl) as Hr. destruct (so_free _ Hok) as [Hfr Hlen]. unfold NICFREE in Hr, Hlen.
  pose proof (dinv_same _ _ _ _ f Hdi (chained_same f b dev v) Hs) as Hdi'.
  assert (forall n, is16 n -> super_ok (set_s_nfree n f)) as Hokn by (intros; by apply super_ok_nfree).
  split; [|unfold pushed; do 2 (try apply super_ok_nfree); try apply super_ok_free; try done|done|
    by constructor|by constructor|done].
  - unfold chained, pushed. destruct ((s_nfree f =? 0) || (s_nfree f =? NICFREE)) eqn:E.
    + cbn [s_nfree s_free set_s_nfree set_s_free]. change (0 + 1) with 1.
      assert (v_blk (put_blk (dev, b) (fblk_out (s_nfree f) (s_free f)) v) (dev, b) = fblk_out (s_nfree f) (s_free f)) as Eb by apply blk_put.
      pose proof (fl_chain (fun b' => v_blk (put_blk (dev, b) (fblk_out (s_nfree f) (s_free f)) v) (dev, b')) 1
        (<[Z.to_nat 0 := b]> (s_free f)) b l) as Hc. cbv beta in Hc. rewrite Eb in Hc.
      rewrite fblk_nfree_out, fblk_free_out in Hc by (done || unfold is16; lia).
      change (rev (sub (<[Z.to_nat 0:=b]> (s_free f)) 1 (Z.to_nat 1 - 1)) ++ b :: l) with (b :: l) in Hc.
      apply Hc; unfold NICFREE; try lia.
      * apply list_lookup_insert_eq. change (Z.to_nat 0) with O. lia.
      * eapply flist_frame; [done|]. intros b' Hb'. apply blk_put_ne. intros [= ->]. done.
    + apply orb_false_iff in E as [E1%Z.eqb_neq E2%Z.eqb_neq]. unfold NICFREE in E2.
      cbn [s_nfree s_free set_s_nfree set_s_free]. apply flist_push; [done|unfold NICFREE; lia|unfold NICFREE; lia].
  - apply super_ok_nfree; [done|]. unfold is16. destruct (_ || _); lia.
  - apply Forall_insert; [done|]. done.
  - rewrite length_insert. unfold NICFREE. lia.
  - unfold is16. destruct (_ || _); lia.
Qed.

(** Writing the list into the block that becomes its new head. *)
Lemma wp_chain s0 dev mp v e s b (Q : unit -> fs C -> Prop) :
  let f := m_super mp in
  fs_at s0 dev mp v e s -> room v -> (forall b, v_good v (dev, b) = true) -> unheld (dev, b) v -> Z.of_nat (length (s_free f)) = NICFREE ->
  (forall s', let n := if (s_nfree f =? 0) || (s_nfree f =? NICFREE) then 0 else s_nfree f in
     fs_at s0 dev (set_m_super (set_s_nfree n f) mp) (chained f b dev v) e s' -> Q tt s') ->
  wp (if (s_nfree f =? 0) || (s_nfree f =? NICFREE) then
     bp <- bclaim dev b ;;
     sb <- getsb dev ;;
     store bp (fun _ => fblk_out (s_nfree sb) (s_free sb)) ;;;
     setmod bp ;;;
     brelease bp ;;;
     putsb dev (set_s_nfree 0)
   else kret tt) Q s.
Proof.
  intros f Hat Hroom Hg Hub Hlen HQ. unfold chained in HQ.
  destruct ((s_nfree f =? 0) || (s_nfree f =? NICFREE)) eqn:E.
  - apply wp_bind. eapply wp_bclaim; [done|done|done|]. intros h d s1 Hh Hl Hat1.
    apply wp_bind. eapply wp_getsb; [done|]. fold f.
    apply wp_bind. eapply wp_store; [done|apply held_put| |].
    { rewrite length_fblk_out by done. done. }
    intros s2 Hat2. rewrite put_put in Hat2. cbn [h_key h_mod h_data] in Hat2.
    apply wp_bind. eapply wp_setmod; [done|apply held_put|]. intros s3 Hat3. rewrite put_put in Hat3. cbn [h_key h_mod h_data] in Hat3.
    apply wp_bind. eapply wp_brelease; [done|apply held_put|apply Hg|]. intros s4 Hat4.
    eapply wp_putsb; [done|]. intros s5 Hat5. apply HQ.
    unfold released in Hat5. cbn [h_mod h_key h_data] in Hat5.
    assert (drop_held h (put_blk (dev, b) (fblk_out (s_nfree f) (s_free f)) (put_held h
      (Hbuf (dev, b) true (fblk_out (s_nfree f) (s_free f))) v)) = put_blk (dev, b) (fblk_out (s_nfree f) (s_free f)) v) as Ed.
    { unfold drop_held, put_blk, put_held. cbn [v_blk v_held v_good]. by rewrite delete_insert_id. }
    by rewrite Ed in Hat5.
  - apply wp_ret, HQ. replace (set_m_super (set_s_nfree (s_nfree f) f) mp) with mp; [done|].
    unfold f. destruct mp as [? ? ? ? ? sb]. by destruct sb.
Qed.

Lemma pushed_fields f b : s_isize (pushed f b) = s_isize f /\ s_fsize (pushed f b) = s_fsize f /\
  s_ninode (pushed f b) = s_ninode f /\ s_inode (pushed f b) = s_inode f /\ s_tinode (pushed f b) = s_tinode f /\
  s_tfree (pushed f b) = s_tfree f.
Proof. done. Qed.

Lemma freelist_count dev v f l n : freelist dev v f l -> is32 n -> freelist dev v (set_s_tfree n f) l.
Proof. intros [Hl Hok Hi Hin Hnd Hdi] Hn. split; try done. by apply super_ok_tfree. Qed.

Lemma counted_touch_after f g d : counted f g d -> counted f (touch g) d.
Proof.
  intros [A1 A2 (A3 & A4 & A5) A6]. destruct (touch_fields g) as (E1 & E2 & E3 & E4 & E5 & E6 & E7 & E8).
  split; [congruence|congruence|split_and!; congruence|congruence].
Qed.

(** What [bfree] does to a mounted file system whose free list is [l]. *)
Definition gave (s : fs C) (dev b : Z) (mp : MOUNT) (v : bview) (l : list Z) (s' : fs C) : Prop :=
  exists v1 v' f', fs_at s dev (set_m_super f' mp) v' (u_error s) s' /\
    same_but (dev, b) v v1 /\ same_but (dev, SUPERI) v1 v' /\ freelist dev v' f' (b :: l) /\
    counted (m_super mp) f' 1 /\ dirty_on_disk v' dev.

Lemma wp_bfree s dev b mp v l :
  c_rep (cache s) v -> findm dev (mtab s) = Some mp -> ready dev v -> unheld (dev, b) v ->
  m_flock mp = false -> Z.land (m_flag mp) MFRON = 0 -> freelist dev v (m_super mp) l ->
  outside (m_super mp) b = false -> b ∉ l -> is32 b ->
  wp (bfree retry dev b) (fun _ => gave s dev b mp v l) s.
Proof.
  intros Hrep Hm Hrd Hub Hlk Hro Hfl Hout Hb H32. pose proof (fs_at_self s dev mp v Hrep Hm) as Hat.
  pose proof (fr_ok _ _ _ _ Hfl) as Hok. destruct (so_free _ Hok) as [_ Hlen].
  pose proof (flist_range _ _ _ _ (fr_list _ _ _ _ Hfl)) as Hr.
  unfold bfree. apply wp_bind. eapply wp_getment; [done|]. rewrite Hro. simpl.
  apply wp_bind. eapply wp_getsb; [done|]. rewrite Hout.
  apply wp_bind. eapply wp_mlock; [done|done|done|]. intros s1 Hat1.
  apply wp_bind. eapply wp_getsb; [done|].
  apply wp_bind. eapply wp_chain; [exact Hat1|by apply Hrd|by apply Hrd|done|done|]. intros s2. cbn zeta. cbn [m_super set_m_flock]. intros Hat2.
  pose proof (pushed_list dev v _ b l Hfl Hb Hout H32) as Hp. pose proof (chained_same (m_super mp) b dev v) as Hcs.
  set (v1 := chained (m_super mp) b dev v) in *. unfold pushed in Hp.
  set (n := if (s_nfree (m_super mp) =? 0) || (s_nfree (m_super mp) =? NICFREE) then 0 else s_nfree (m_super mp)) in *.
  assert (0 <= n < 64) as Hn.
  { unfold n. unfold NICFREE in *. destruct (Z.eqb_spec (s_nfree (m_super mp)) 0), (Z.eqb_spec (s_nfree (m_super mp)) 64); simpl; lia. }
  apply wp_bind. eapply wp_getsb; [done|]. cbn [m_super set_m_super s_free s_nfree set_s_nfree].
  apply wp_bind. eapply wp_deref.
  { unfold aset. rewrite (proj2 (Z.leb_le 0 n)), (proj2 (Z.ltb_lt n _)) by (unfold NICFREE in *; lia). reflexivity. }
  apply wp_bind. eapply wp_putsb; [done|]. intros s3 Hat3.
  apply wp_bind. eapply wp_putsb; [done|]. intros s4 Hat4. cbn [m_super set_m_super s_free s_nfree set_s_nfree set_s_free] in Hat4.
  apply wp_bind. eapply wp_putsb; [done|]. intros s5 Hat5. cbn [m_super set_m_super] in Hat5.
  rewrite s16_small in Hat5 by lia.
  change (fs_at s dev (set_m_super (set_s_tfree (s32 (s_tfree (m_super mp) + 1)) (pushed (m_super mp) b)) (set_m_flock true mp))
    v1 (u_error s) s5) in Hat5. change (freelist dev v1 (pushed (m_super mp) b) (b :: l)) in Hp.
  set (f5 := set_s_tfree (s32 (s_tfree (m_super mp) + 1)) (pushed (m_super mp) b)) in *.
  assert (freelist dev v1 f5 (b :: l)) as Hp5 by (apply freelist_count; [done|unfold is32; apply s32_range]).
  assert (counted (m_super mp) f5 1) as Hc5 by done.
  assert (ready dev v1) as Hrd1 by by eapply ready_same.
  apply wp_bind. eapply wp_smod; [done|done|by apply Hp5|by apply Hp5|]. intros v2 s6 Hs2 Hdd Hat6.
  eapply wp_munlock; [done|]. intros s7 Hat7. cbn [m_super set_m_super] in Hat7.
  exists v1, v2, (touch f5). split; [by rewrite <- (mount_back mp _ Hlk)|]. split; [done|]. split; [done|].
  split; [by eapply freelist_touch|]. split; [|done]. by apply counted_touch_after.
Qed.

(** ** The free inode list *)

Definition ifreed (f : filsys) (ino : Z) : filsys :=
  let f1 := if s_ninode f <? NICINOD
            then set_s_ninode (s_ninode f + 1) (set_s_inode (<[Z.to_nat (s_ninode f) := ino]> (s_inode f)) f) else f in
  set_s_tinode (u16 (s_tinode f + 1)) f1.

Lemma wp_ifree s0 dev ino mp v e s (Q : unit -> fs C -> Prop) :
  fs_at s0 dev mp v e s -> ready dev v -> super_ok (m_super mp) -> dinv v dev (m_super mp) ->
  m_ilock mp = false -> Z.land (m_flag mp) MFRON = 0 -> 0 <= s_ninode (m_super mp) ->
  (forall v' s', same_but (dev, SUPERI) v v' -> dirty_on_disk v' dev ->
     fs_at s0 dev (set_m_super (ifreed (touch (m_super mp)) ino) mp) v' e s' -> Q tt s') ->
  wp (ifree retry dev ino) Q s.
Proof.
  intros Hat Hrd Hok Hdi Hlk Hro Hn HQ. unfold ifree.
  apply wp_bind. eapply wp_getment; [done|]. rewrite Hro. simpl.
  apply wp_bind. eapply wp_mlock; [done|done|done|]. intros s1 Hat1.
  apply wp_bind. eapply wp_smod; [done|done|done|done|]. intros v1 s2 Hs Hdd Hat2. cbn [m_super set_m_ilock] in Hat2.
  apply wp_bind. eapply wp_getsb; [done|]. cbn [m_super set_m_super].
  assert (s_ninode (touch (m_super mp)) = s_ninode (m_super mp)) as En by (by destruct (touch_fields (m_super mp)) as (_ & _ & _ & _ & ? & _)).
  destruct (so_inode _ (touch_ok _ Hok)) as [_ Hlen].
  set (f := touch (m_super mp)) in *. assert (forall g s3 e', fs_at s0 dev (set_m_super g (set_m_ilock true mp)) v1 e' s3 ->
    s_tinode g = s_tinode f ->
    (forall s', fs_at s0 dev (set_m_super (set_s_tinode (u16 (s_tinode f + 1)) g) mp) v1 e' s' -> Q tt s') ->
    wp (putsb dev (fun sb => set_s_tinode (u16 (s_tinode sb + 1)) sb) ;;; munlock dev true) Q s3) as Hend.
  { intros g s3 e' Hat3 Et HQ'. apply wp_bind. eapply wp_putsb; [done|]. intros s4 Hat4. cbn [m_super set_m_super] in Hat4.
    eapply wp_munlock; [done|]. intros s5 Hat5. apply HQ'. rewrite Et in Hat5.
    destruct mp as [? ? ? il ? ?]. simpl in Hlk. subst il. exact Hat5. }
  unfold ifreed in HQ. apply wp_bind. destruct (Z.ltb_spec (s_ninode f) NICINOD) as [Hlt|Hge].
  - apply wp_bind. eapply wp_deref.
    { unfold aset. rewrite (proj2 (Z.leb_le 0 _)), (proj2 (Z.ltb_lt _ _)) by (unfold NICINOD in *; lia). reflexivity. }
    apply wp_bind. eapply wp_putsb; [done|]. intros s3 Hat3. cbn [m_super set_m_super] in Hat3.
    eapply wp_putsb; [done|]. intros s4 Hat4. cbn [m_super set_m_super s_ninode set_s_inode] in Hat4.
    rewrite s16_small in Hat4 by (unfold NICINOD in *; lia). eapply Hend; [exact Hat4|done|].
    intros s5 Hat5. by eapply HQ.
  - apply wp_ret. eapply Hend; [exact Hat2|done|]. intros s5 Hat5. by eapply HQ.
Qed.


(** ** Sequences of allocations and releases *)

Inductive bop := TakeBlock | GiveBlock (b : Z).

Fixpoint run_bops (dev : Z) (ops : list bop) : M (fs C) (list Z) :=
  match ops with
  | [] => kret []
  | TakeBlock :: ops => b <- balloc retry dev ;; r <- run_bops dev ops ;; kret (b :: r)
  | GiveBlock b :: ops => bfree retry dev b ;;; run_bops dev ops
  end.

(** The specification: a stack of free blocks; 0 when it is empty. *)
Fixpoint spec_bops (ops : list bop) (l : list Z) : list Z * list Z :=
  match ops with
  | [] => ([], l)
  | TakeBlock :: ops => let '(r, l') := spec_bops ops (tl l) in (hd 0 l :: r, l')
  | GiveBlock b :: ops => spec_bops ops (b :: l)
  end.

(** Blocks given back are in the data area and not free already. *)
Fixpoint legal_bops (isize fsize : Z) (ops : list bop) (l : list Z) : Prop :=
  match ops with
  | [] => True
  | TakeBlock :: ops => legal_bops isize fsize ops (tl l)
  | GiveBlock b :: ops => isize <= b < fsize /\ (b ∉ l) /\ legal_bops isize fsize ops (b :: l)
  end.

(** A mounted, writable file system at rest whose free list is [l]. *)
Definition at_rest (dev isize fsize : Z) (l : list Z) (s : fs C) : Prop :=
  exists mp v, c_rep (cache s) v /\ findm dev (mtab s) = Some mp /\ ready dev v /\ v_held v = ∅ /\
    m_flock mp = false /\ Z.land (m_flag mp) MFRON = 0 /\ freelist dev v (m_super mp) l /\
    s_isize (m_super mp) = isize /\ s_fsize (m_super mp) = fsize.

Lemma unheld_none v k : v_held v = ∅ -> unheld k v.
Proof. intros E h b. rewrite E. by rewrite lookup_empty. Qed.

Lemma at_rest_balloc dev isize fsize l s : at_rest dev isize fsize l s ->
  wp (balloc retry dev) (fun b s' => b = hd 0 l /\ at_rest dev isize fsize (tl l) s') s.
Proof.
  intros (mp & v & Hrep & Hm & Hrd & Hh & Hlk & Hro & Hfl & Hi & Hf).
  eapply wp_mono; [eapply wp_balloc; try done; intros b _; by apply unheld_none|].
  intros b s' (v' & f' & -> & Hat & Hs & Hfl' & [E1 E2 _ _] & _). split; [done|].
  exists (set_m_super f' mp), v'. split; [by apply Hat|]. split; [by apply Hat|].
  split; [by eapply ready_same|]. split; [by rewrite (proj1 Hs)|]. split_and!; try done; cbn; congruence.
Qed.

Lemma at_rest_bfree dev isize fsize l s b : at_rest dev isize fsize l s -> isize <= b < fsize -> b ∉ l ->
  wp (bfree retry dev b) (fun _ s' => at_rest dev isize fsize (b :: l) s') s.
Proof.
  intros (mp & v & Hrep & Hm & Hrd & Hh & Hlk & Hro & Hfl & Hi & Hf) Hb Hnl.
  assert (outside (m_super mp) b = false) as Hout.
  { unfold outside. rewrite Hi, Hf, (proj2 (Z.leb_gt _ _)), (proj2 (Z.ltb_ge _ _)) by lia. done. }
  assert (is32 b) as H32.
  { pose proof (so_long _ (fr_ok _ _ _ _ Hfl)) as Hlg. apply Forall_cons in Hlg as [Hz _]. pose proof (fr_isize _ _ _ _ Hfl).
    unfold is32 in *. lia. }
  eapply wp_mono; [eapply wp_bfree; try done; by apply unheld_none|].
  intros [] s' (v1 & v' & f' & Hat & Hs1 & Hs & Hfl' & [E1 E2 _ _] & _).
  exists (set_m_super f' mp), v'. split; [by apply Hat|]. split; [by apply Hat|].
  split; [by eapply ready_same, Hs; eapply ready_same|].
  split; [by rewrite (proj1 Hs), (proj1 Hs1)|]. split_and!; try done; cbn; congruence.
Qed.

Lemma wp_run_bops dev isize fsize ops l s : at_rest dev isize fsize l s -> legal_bops isize fsize ops l ->
  wp (run_bops dev ops) (fun r s' => r = (spec_bops ops l).1 /\ at_rest dev isize fsize (spec_bops ops l).2 s') s.
Proof.
  revert l s. induction ops as [|[|b] ops IH]; intros l s Hs Hlg; cbn [run_bops spec_bops legal_bops] in *; [by apply wp_ret|..].
  - apply wp_bind. eapply wp_mono; [by apply at_rest_balloc|]. intros b s' [-> Hs'].
    apply wp_bind. eapply wp_mono; [by apply (IH (tl l))|]. intros r s2 [-> Hs2]. apply wp_ret.
    by destruct (spec_bops ops (tl l)).
  - destruct Hlg as (Hb & Hnl & Hlg). apply wp_bind. eapply wp_mono; [by apply at_rest_bfree|]. intros [] s' Hs'. by apply IH.
Qed.

(** [balloc] takes the first block of the free list of a writable file
    system, reading the next part of the list from the block when it was the
    last in core, counts it, and has the super block on disk marked dirty; it
    changes no other block.  With an empty list it gives 0 and ENOSPC.  On a
    read-only file system it gives 0 and EROFS and changes nothing. *)
Theorem balloc_correct s dev mp v l :
  c_rep (cache s) v -> findm dev (mtab s) = Some mp -> ready dev v -> unheld_all dev l v -> m_flock mp = false ->
  (Z.land (m_flag mp) MFRON = 0 -> freelist dev v (m_super mp) l ->
     wp (balloc retry dev) (took s dev mp v l) s) /\
  (Z.land (m_flag mp) MFRON <> 0 ->
     wp (balloc retry dev) (fun b s' => b = 0 /\ fs_at s dev mp v EROFS s') s).
Proof.
  intros Hrep Hm Hrd Hul Hlk. split; [intros; by apply wp_balloc|]. intros Hro.
  unfold balloc. apply wp_bind. eapply wp_getment; [by apply fs_at_self|].
  rewrite (proj2 (Z.eqb_neq _ 0)) by done. cbn. intros s' Hat. by apply wp_ret.
Qed.

(** [bfree] puts a block of the data area in front of the free list, and
    when the list in core is empty or full first writes it into the block; it
    counts the block, marks the super block on disk dirty and changes no
    block but those two.  A block outside the data area is refused with a
    message, and a read-only file system with EROFS, and neither changes
    anything. *)
Theorem bfree_correct s dev b mp v l :
  c_rep (cache s) v -> findm dev (mtab s) = Some mp -> ready dev v -> unheld (dev, b) v -> m_flock mp = false ->
  (Z.land (m_flag mp) MFRON = 0 -> freelist dev v (m_super mp) l -> outside (m_super mp) b = false -> b ∉ l -> is32 b ->
     wp (bfree retry dev b) (fun _ => gave s dev b mp v l) s) /\
  (Z.land (m_flag mp) MFRON = 0 -> outside (m_super mp) b = true ->
     wp (bfree retry dev b) (fun _ => fs_at s dev mp v (u_error s)) s) /\
  (Z.land (m_flag mp) MFRON <> 0 ->
     wp (bfree retry dev b) (fun _ => fs_at s dev mp v EROFS) s).
Proof.
  intros Hrep Hm Hrd Hub Hlk. pose proof (fs_at_self s dev mp v Hrep Hm) as Hat. split; [intros; by apply wp_bfree|split].
  - intros Hro Hout. unfold bfree. apply wp_bind. eapply wp_getment; [done|]. rewrite Hro. simpl.
    apply wp_bind. eapply wp_getsb; [done|]. rewrite Hout. by eapply wp_devmsg.
  - intros Hro. unfold bfree. apply wp_bind. eapply wp_getment; [done|].
    rewrite (proj2 (Z.eqb_neq _ 0)) by done. cbn. intros s' Hat'. by apply wp_ret.
Qed.

(** C19: any sequence of [balloc] and [bfree] calls on a writable file system
    behaves as pops and pushes on a stack of distinct free blocks of the data
    area: no block is handed out while it is in use, and the chain of free
    list blocks stays sound. *)
Theorem blocks_refine_stack dev isize fsize ops l s : at_rest dev isize fsize l s -> legal_bops isize fsize ops l ->
  wp (run_bops dev ops) (fun r s' => r = (spec_bops ops l).1 /\ at_rest dev isize fsize (spec_bops ops l).2 s') s.
Proof. apply wp_run_bops. Qed.

(** [ifree] marks the super block dirty on disk before it changes it, then
    enters the inode in the free inode list unless it is full, and counts it. *)
Theorem ifree_correct s dev ino mp v :
  c_rep (cache s) v -> findm dev (mtab s) = Some mp -> ready dev v -> super_ok (m_super mp) -> dinv v dev (m_super mp) ->
  m_ilock mp = false -> Z.land (m_flag mp) MFRON = 0 -> 0 <= s_ninode (m_super mp) ->
  wp (ifree retry dev ino) (fun _ s' => exists v', same_but (dev, SUPERI) v v' /\ dirty_on_disk v' dev /\
    fs_at s dev (set_m_super (ifreed (touch (m_super mp)) ino) mp) v' (u_error s) s') s.
Proof. intros. eapply wp_ifree; eauto using fs_at_self. Qed.

End proofs.

(** ** Concrete instances *)

Definition w_view : bview :=
  View (fun k => if decide (k = (1, 7)) then fblk_out 1 (repeat 0 64) else repeat 0 512) ∅ (fun _ => true).
Definition w_mount (flag : Z) : MOUNT := Mount 1 flag None false false w_super.
Definition w_up : uproc := Uproc 0 0 0 0 None None 0 (repeat 0 14) (Io 0 0 0 0 0) 0 0.
Definition w_state (flag : Z) : fs acache := Fs (Acache w_view) [w_mount flag] [] 0 0 0 77 1 [] 0 (fun _ _ => None) w_up.

Lemma w_dinv : dinv w_view 1 w_super.
Proof. intros Hx. by destruct (Hx eq_refl). Qed.

Lemma w_freelist : freelist 1 w_view w_super [9; 7].
Proof.
  split; [|apply w_super_ok|cbn; lia| | |apply w_dinv].
  - change [9; 7] with (rev (sub (s_free w_super) 1 (Z.to_nat 2 - 1)) ++ 7 :: []).
    assert (v_blk w_view (1, 7) = fblk_out 1 (repeat 0 64)) as E by reflexivity.
    assert (Forall is32 (repeat 0 64)) as Hz by (cbn; ranges).
    constructor; cbv beta; rewrite ?E, ?fblk_nfree_out, ?fblk_free_out by (done || unfold is16; lia);
      [unfold NICFREE; lia|done|done|unfold NICFREE; lia|].
    change [] with (rev (sub (repeat 0 64) 1 (Z.to_nat 1 - 1))). by constructor; [unfold NICFREE; lia|].
  - repeat constructor.
  - apply NoDup_cons; split; [set_solver|]. apply NoDup_cons; split; [set_solver|apply NoDup_nil_2].
Qed.

Lemma w_ready : ready 1 w_view.
Proof. split; [by apply unheld_none|unfold room, NHOLD; vm_compute; lia|done|done]. Qed.

Lemma w_at_rest : at_rest 1 3 20 [9; 7] (w_state 0).
Proof.
  exists (w_mount 0), w_view. split; [done|]. split; [done|]. split; [apply w_ready|]. split; [done|].
  split; [done|]. split; [done|]. split; [apply w_freelist|done].
Qed.

Lemma balloc_correct_witness : exists b s', balloc 1 1 (w_state 0) = Ret b s' /\ took (w_state 0) 1 (w_mount 0) w_view [9; 7] b s'.
Proof.
  refine (proj1 (wp_returns _ _ _) (proj1 (balloc_correct 1 _ (w_state 0) 1 (w_mount 0) w_view [9; 7] eq_refl eq_refl w_ready _ eq_refl) eq_refl w_freelist)).
  - lia.
  - intros b _. by apply unheld_none.
Defined.

Lemma bfree_correct_witness : exists b s', bfree 1 1 11 (w_state 0) = Ret b s' /\ gave (w_state 0) 1 11 (w_mount 0) w_view [9; 7] s'.
Proof.
  refine (proj1 (wp_returns _ _ _) (proj1 (bfree_correct 1 _ (w_state 0) 1 11 (w_mount 0) w_view [9; 7] eq_refl eq_refl w_ready _ eq_refl) eq_refl w_freelist eq_refl _ _)).
  - lia.
  - by apply unheld_none.
  - set_solver.
  - unfold is32. lia.
Defined.

(** Three blocks are taken, the third when none is left, after one was given back. *)
Lemma blocks_refine_stack_witness : exists r s',
  run_bops 1 1 [TakeBlock; TakeBlock; TakeBlock; GiveBlock 9; TakeBlock] (w_state 0) = Ret r s' /\
  r = [9; 7; 0; 9] /\ at_rest 1 3 20 [] s'.
Proof.
  refine (proj1 (wp_returns _ _ _) (blocks_refine_stack 1 _ 1 3 20 [TakeBlock; TakeBlock; TakeBlock; GiveBlock 9; TakeBlock] [9; 7] (w_state 0) w_at_rest _)).
  - lia.
  - simpl. split; [lia|]. split; [set_solver|done].
Defined.

Lemma ifree_correct_witness : exists b s', ifree 1 1 12 (w_state 0) = Ret b s' /\ exists v',
  same_but (1, SUPERI) w_view v' /\ dirty_on_disk v' 1 /\
  fs_at (w_state 0) 1 (set_m_super (ifreed (touch w_super) 12) (w_mount 0)) v' 0 s'.
Proof.
  refine (proj1 (wp_returns _ _ _) (ifree_correct 1 _ (w_state 0) 1 12 (w_mount 0) w_view eq_refl eq_refl w_ready w_super_ok _ eq_refl eq_refl _)).
  - lia.
  - apply w_dinv.
  - cbn. lia.
Defined.

Lemma smod_dirties_disk_witness : exists b s', smod 1 (w_state 0) = Ret b s' /\ exists v',
  fs_at (w_state 0) 1 (set_m_super (touch w_super) (w_mount 0)) v' 0 s' /\
  same_but (1, SUPERI) w_view v' /\ dirty_on_disk v' 1 /\ s_fmod (touch w_super) <> 0.
Proof.
  refine (proj1 (wp_returns _ _ _) (smod_dirties_disk (w_state 0) 1 (w_mount 0) w_view eq_refl eq_refl w_ready w_super_ok w_dinv)).
Defined.

Lemma mssync_cleans_disk_witness : exists b s', mssync 1 (w_state 0) = Ret b s' /\ exists v',
  fs_at (w_state 0) 1 (set_m_super (cleaned 77 w_super) (w_mount 0)) v' 0 s' /\
  same_but (1, SUPERI) w_view v' /\ on_disk v' 1 = cleaned 77 w_super.
Proof.
  refine (proj1 (wp_returns _ _ _) (mssync_cleans_disk (w_state 0) 1 (w_mount 0) w_view eq_refl eq_refl w_ready w_super_ok _)).
  unfold is32. cbn. lia.
Defined.
