(* ===== verification/Fmap.v ===== *)
(** Files as blocks (kernel/coh/fs3.c: [lmap], [vmap], [vread], [aread],
    [fread], [fwrite]; kernel/coh/bio.c: [ioread], [iowrite]).

    An in-core inode is named by its index in the table; an [IO] structure is
    passed and returned.  A fault stops a copy at the first byte that cannot
    be accessed. *)
From S2P Require Import Prelude Sched Bytes Bcache Super Fs Free.
Local Open Scope Z_scope.
Local Open Scope kernel_scope.

Definition NBN : Z := 128.
Definition ND : Z := 10.
Definition NI : Z := 3.
Definition NADDR : Z := 13.
Definition NEXREAD : Z := 4.
Definition EFAULT : Z := 14.

Definition IFMT : Z := 0xF000.
Definition IFPIPE : Z := 0x1000.
Definition IFCHR : Z := 0x2000.
Definition IFDIR : Z := 0x4000.
Definition IFBLK : Z := 0x6000.
Definition IFREG : Z := 0x8000.
Definition itype (x : INODE) : Z := Z.land (i_mode x) IFMT.

Definition blockn (n : Z) : Z := Z.shiftr n 9.
Definition blocko (n : Z) : Z := Z.land n 511.
Definition nbnrem (b : Z) : Z := Z.land (s16 b) 127.
Definition nbndiv (b : Z) : Z := Z.shiftr b 7.

(** The address union of an inode. *)
Definition i_addr (x : INODE) (k : Z) : option Z :=
  if (0 <=? k) && (k <? NADDR) then Some (s32 (get32 (i_a x) (Z.to_nat (4 * k)))) else None.
Definition set_i_addr (k v : Z) (x : INODE) : INODE := set_i_a (put32 (i_a x) (Z.to_nat (4 * k)) v) x.
Definition i_rdev (x : INODE) : Z := get16 (i_a x) 0.

(** [((daddr_t * )bp->b_vaddr)[i]] in the order of the machine. *)
Definition entry (d : list Z) (i : Z) : Z := canl (s32 (get32 d (Z.to_nat (4 * i)))).
Definition set_entry (d : list Z) (i v : Z) : list Z := put32 d (Z.to_nat (4 * i)) (canl v).

Section fmap.
Context {C : Type} `{BufCache C}.
Context (retry : nat).

Definition geti (ip : nat) : M (fs C) INODE := s <- get ;; deref (inodep s !! ip).
Definition puti (ip : nat) (f : INODE -> INODE) : M (fs C) unit :=
  modify (fun s => set_inodep (alter f ip (inodep s)) s).

(** ** From logical to physical blocks *)

(** The [do] loop; [n] counts the levels left.  The result is the array. *)
Fixpoint lmap_loop (n : nat) (b : Z) (lp : list Z) : option (list Z) :=
  match n with
  | O => None
  | S n =>
    let lp := lp ++ [nbnrem b] in
    let b := nbndiv b in
    if b =? 0 then Some (lp ++ [ND + NI - 1 - Z.of_nat n]) else lmap_loop n (b - 1) lp
  end.

Definition lmap (b : Z) : M (fs C) (option (list Z)) :=
  if b <? ND then kret (Some [s16 b]) else
  match lmap_loop (Z.to_nat NI) (b - ND) [] with
  | Some lp => kret (Some lp)
  | None => error EFBIG ;;; kret None
  end.

(** The [for] loop of [vmap]; [lp] is what is left of the array, last first. *)
Fixpoint vmap_loop (dev : Z) (lp : list Z) : Z -> M (fs C) Z :=
  match lp with
  | [] => fun pb => kret pb
  | i :: lp => let next := vmap_loop dev lp in fun pb =>
    if pb =? 0 then kret pb else
    r <- bread dev pb ;;
    match r with
    | None => kret (-1)
    | Some bp =>
      d <- vaddr bp ;;
      brelease bp ;;;
      next (entry d i)
    end
  end.

Definition vmap (ip : nat) (lb : Z) : M (fs C) Z :=
  r <- lmap lb ;;
  match r with
  | None => kret (-1)
  | Some list =>
    x <- geti ip ;;
    i <- deref (last list) ;;
    pb <- deref (i_addr x i) ;;
    vmap_loop (i_dev x) (tail (rev list)) pb
  end.

(** A claimed buffer, cleared. *)
Definition kclaim (dev bno : Z) : M (fs C) nat :=
  bp <- bclaim dev bno ;;
  store bp (fun _ => repeat 0 (Z.to_nat BSIZE)) ;;;
  kret bp.

Definition vread (ip : nat) (lb : Z) : M (fs C) (option nat) :=
  pb <- vmap ip lb ;;
  if pb <? 0 then kret None else
  x <- geti ip ;;
  if negb (pb =? 0) then bread (i_dev x) pb else
  bp <- kclaim NODEV 0 ;; kret (Some bp).

(** The [for] loop of [aread]; [lflag] is that nothing is left of the array. *)
Fixpoint aread_loop (dev : Z) (fflag : bool) (lp : list Z) : Z -> bool -> M (fs C) (option nat) :=
  match lp with
  | [] => fun pb aflag =>
    if negb aflag && negb fflag then bread dev pb
    else bp <- kclaim dev pb ;; setmod bp ;;; kret (Some bp)
  | i :: lp => let next := aread_loop dev fflag lp in fun pb aflag =>
    r <- (if negb aflag then bread dev pb
          else bp <- kclaim dev pb ;; setmod bp ;;; kret (Some bp)) ;;
    match r with
    | None => kret None
    | Some bp =>
      d <- vaddr bp ;;
      let pb := entry d i in
      if pb =? 0 then
        pb <- balloc retry dev ;;
        if pb =? 0 then brelease bp ;;; kret None else
        store bp (fun d => set_entry d i pb) ;;;
        setmod bp ;;;
        brelease bp ;;;
        next pb true
      else
        brelease bp ;;;
        next pb false
    end
  end.

Definition aread (ip : nat) (lb : Z) (fflag : bool) : M (fs C) (option nat) :=
  r <- lmap lb ;;
  match r with
  | None => kret None
  | Some list =>
    x <- geti ip ;;
    let dev := i_dev x in
    l <- deref (last list) ;;
    pb <- deref (i_addr x l) ;;
    if pb =? 0 then
      pb <- balloc retry dev ;;
      if pb =? 0 then kret None else
      puti ip (set_i_addr l pb) ;;;
      aread_loop dev fflag (tail (rev list)) pb true
    else aread_loop dev fflag (tail (rev list)) pb false
  end.

(** ** Copying to and from the I/O segment *)

Fixpoint take_mem (m : Z -> option Z) (a : Z) (n : nat) : list Z :=
  match n with
  | O => []
  | S n => match m a with None => [] | Some b => b :: take_mem m (a + 1) n end
  end.
Definition put_mem (m : Z -> option Z) (a : Z) (bs : list Z) : Z -> option Z := fun x =>
  if (a <=? x) && (x <? a + Z.of_nat (length bs)) then bs !! Z.to_nat (x - a) else m x.

(** The address the copy starts at, and the structure after [m] bytes. *)
Definition io_ptr (io : IO) : Z := if io_seg io =? IOPHY then io_phys io else io_base io.
Definition io_move (io : IO) (m : Z) : IO :=
  let io := if io_seg io =? IOPHY then set_io_phys (io_phys io + m) io else set_io_base (io_base io + m) io in
  set_io_ioc (u16 (io_ioc io - m)) io.
Definition io_space (io : IO) : bool := (io_seg io =? IOSYS) || (io_seg io =? IOUSR) || (io_seg io =? IOPHY).

Definition ioread (io : IO) (bp off : nat) (n : Z) : M (fs C) IO :=
  if negb (io_space io) then kret io else
  m <- gets mem ;;
  let bs := take_mem (m (io_seg io)) (io_ptr io) (Z.to_nat n) in
  store bp (fun d => upd d off bs) ;;;
  (if Z.of_nat (length bs) <? n then error EFAULT else kret tt) ;;;
  kret (io_move io (Z.of_nat (length bs))).

Definition iowrite (io : IO) (bp off : nat) (n : Z) : M (fs C) IO :=
  if negb (io_space io) then kret io else
  m <- gets mem ;;
  d <- vaddr bp ;;
  let k := length (take_mem (m (io_seg io)) (io_ptr io) (Z.to_nat n)) in
  modify (set_mem (fun sp => if sp =? io_seg io then put_mem (m sp) (io_ptr io) (sub d off k) else m sp)) ;;;
  (if Z.of_nat k <? n then error EFAULT else kret tt) ;;;
  kret (io_move io (Z.of_nat k)).

(** ** Reading *)

(** The [for] loop that maps and starts reading the next blocks; the array
    [list], or [None] for a return from [fread]. *)
Fixpoint read_ahead (n : nat) (ip : nat) (blk : bool) (dev zbn : Z) : M (fs C) (option (list Z)) :=
  match n with
  | O => kret (Some [])
  | S n =>
    pbn <- (if blk then kret zbn else vmap ip zbn) ;;
    if negb blk && (pbn <? 0) then kret None else
    e <- (if negb blk && (pbn =? 0) then kret (-1) else breada dev pbn ;;; kret pbn) ;;
    r <- read_ahead n ip blk dev (zbn + 1) ;;
    kret (match r with None => None | Some l => Some (e :: l) end)
  end.

Fixpoint fread_loop (fuel : nat) (ip : nat) (blk : bool) (dev lbn abn zbn : Z) (list : list Z) (off res : Z) (io : IO)
    : M (fs C) IO :=
  match fuel with
  | O => nofuel
  | S fuel =>
    if res <=? 0 then kret io else
    let n := u16 (blockn (res + BSIZE - 1)) in
    let n := if NEXREAD <? n then NEXREAD else n in
    let n := if n <=? 0 then 1 else n in
    a <- (if zbn <=? lbn
          then r <- read_ahead (Z.to_nat n) ip blk dev lbn ;; kret (option_map (fun l => (lbn, lbn + n, l)) r)
          else kret (Some (abn, zbn, list))) ;;
    match a with
    | None => kret io
    | Some (abn, zbn, list) =>
      pbn <- deref (aget list (lbn - abn)) ;;
      r <- (if pbn <? 0 then bp <- kclaim NODEV 0 ;; kret (Some bp) else bread dev pbn) ;;
      match r with
      | None => kret io
      | Some bp =>
        let n := BSIZE - off in
        let n := if n <? res then n else res in
        io <- iowrite io bp (Z.to_nat off) n ;;
        brelease bp ;;;
        e <- gets u_error ;;
        if negb (e =? 0) then kret io else
        fread_loop fuel ip blk dev (lbn + 1) abn zbn list 0 (res - n) io
      end
    end
  end.

Definition fread (fuel : nat) (ip : nat) (io : IO) : M (fs C) IO :=
  x <- geti ip ;;
  let blk := itype x =? IFBLK in
  let dev := if blk then i_rdev x else i_dev x in
  let lbn := blockn (io_seek io) in
  let off := blocko (io_seek io) in
  let res := s32 (i_size x - io_seek io) in
  let res := if blk || (io_ioc io <? res) then io_ioc io else res in
  if res <=? 0 then kret io else
  if res + off <=? BSIZE then
    r <- (if blk then bread dev lbn else vread ip lbn) ;;
    match r with
    | None => kret io
    | Some bp =>
      io <- iowrite io bp (Z.to_nat off) res ;;
      brelease bp ;;;
      kret io
    end
  else fread_loop fuel ip blk dev lbn 0 0 [] off res io.

(** ** Writing *)

Fixpoint fwrite_loop (fuel : nat) (ip : nat) (blk : bool) (lbn off : Z) (io : IO) : M (fs C) IO :=
  match fuel with
  | O => nofuel
  | S fuel =>
    if io_ioc io <=? 0 then kret io else
    x <- geti ip ;;
    let n := BSIZE - off in
    let n := if n <? io_ioc io then n else io_ioc io in
    let com := (off =? 0) && (n =? BSIZE) in
    r <- (if negb blk then aread ip lbn com
          else if com then bp <- bclaim (i_rdev x) lbn ;; kret (Some bp) else bread (i_rdev x) lbn) ;;
    match r with
    | None => kret io
    | Some bp =>
      io <- ioread io bp (Z.to_nat off) n ;;
      setmod bp ;;;
      (if com && negb (itype x =? IFPIPE) then bawrite bp else brelease bp) ;;;
      e <- gets u_error ;;
      if negb (e =? 0) then kret io else
      let io := set_io_seek (s32 (io_seek io + n)) io in
      x <- geti ip ;;
      (if (i_size x <? io_seek io) && negb blk then puti ip (set_i_size (io_seek io)) else kret tt) ;;;
      fwrite_loop fuel ip blk (lbn + 1) 0 io
    end
  end.

Definition fwrite (fuel : nat) (ip : nat) (io : IO) : M (fs C) IO :=
  x <- geti ip ;;
  fwrite_loop fuel ip (itype x =? IFBLK) (blockn (io_seek io)) (blocko (io_seek io)) io.
End fmap.

(** ** The map from blocks to index lists is a bijection

    Index lists are numbers in the bijective base [NBN]. *)

Fixpoint lvalue (ds : list Z) : Z :=
  match ds with [] => -1 | d :: ds => d + NBN * (1 + lvalue ds) end.

Definition digit (d : Z) : Prop := 0 <= d < NBN.

(** What [lmap] leaves in the array for some block. *)
Definition lpath (l : list Z) : Prop :=
  exists ds t, l = ds ++ [t] /\ (length ds <= 3)%nat /\ Forall digit ds /\
    if decide (ds = []) then 0 <= t < ND else t = ND - 1 + Z.of_nat (length ds).
Definition lblock (l : list Z) : Z :=
  match removelast l with [] => hd 0 l | ds => ND + lvalue ds end.
(** The number of blocks that [n] levels reach. *)
Fixpoint lcap (n : nat) : Z := match n with O => 0 | S n => NBN * (1 + lcap n) end.
Definition lmax : Z := ND + lcap 3.

Lemma nbnrem_mod b : nbnrem b = b mod NBN.
Proof.
  unfold nbnrem. change 127 with (Z.ones 7). rewrite Z.land_ones by lia. unfold s16, wraps. change (2 ^ 7) with 128.
  unfold NBN. change (2 ^ 16) with 65536. change (2 ^ (16 - 1)) with 32768. Z.to_euclidean_division_equations. lia.
Qed.

Lemma nbndiv_div b : nbndiv b = b / NBN.
Proof. unfold nbndiv. by rewrite Z.shiftr_div_pow2. Qed.

Lemma lcap_pos n : 0 <= lcap n.
Proof. induction n; simpl; unfold NBN in *; lia. Qed.

Lemma lvalue_range ds : Forall digit ds -> -1 <= lvalue ds /\ lvalue ds < lcap (length ds).
Proof.
  induction 1 as [|d ds Hd _ [IH1 IH2]]; simpl; [lia|]. unfold digit, NBN in *. lia.
Qed.

Lemma lvalue_nonneg d ds : Forall digit (d :: ds) -> 0 <= lvalue (d :: ds).
Proof. intros [Hd Hds]%Forall_cons. pose proof (lvalue_range ds Hds). simpl. unfold digit, NBN in *. lia. Qed.

Lemma lmap_loop_value ds n lp : Forall digit ds -> ds <> [] -> (length ds <= n)%nat ->
  lmap_loop n (lvalue ds) lp = Some (lp ++ ds ++ [ND + NI - 1 - Z.of_nat (n - length ds)]).
Proof.
  revert n lp. induction ds as [|d ds IH]; intros n lp Hds Hne Hn; [done|].
  destruct n as [|n]; [simpl in Hn; lia|]. apply Forall_cons in Hds as [Hd Hds]. cbn [lmap_loop lvalue].
  pose proof (lvalue_range ds Hds) as Hr. unfold digit in Hd.
  rewrite nbnrem_mod, nbndiv_div.
  replace ((d + NBN * (1 + lvalue ds)) mod NBN) with d by (unfold NBN in *; Z.to_euclidean_division_equations; lia).
  replace ((d + NBN * (1 + lvalue ds)) / NBN) with (1 + lvalue ds) by (unfold NBN in *; Z.to_euclidean_division_equations; lia).
  destruct ds as [|d' ds].
  - simpl. rewrite Nat.sub_0_r. by rewrite <- app_assoc.
  - pose proof (lvalue_nonneg d' ds Hds). rewrite (proj2 (Z.eqb_neq _ 0)) by lia.
    replace (1 + lvalue (d' :: ds) - 1) with (lvalue (d' :: ds)) by lia. rewrite IH by (done || simpl in *; lia).
    rewrite <- app_assoc. done.
Qed.

Lemma lvalue_surj n b : 0 <= b < lcap n ->
  exists ds, Forall digit ds /\ ds <> [] /\ (length ds <= n)%nat /\ lvalue ds = b.
Proof.
  revert b. induction n as [|n IH]; intros b Hb; simpl in Hb; [lia|].
  pose proof (Z.mod_pos_bound b NBN ltac:(unfold NBN; lia)) as Hm. pose proof (Z.div_mod b NBN ltac:(done)) as Hd.
  destruct (decide (b / NBN = 0)) as [E|E].
  - exists [b mod NBN]. split; [by apply Forall_singleton|]. split; [done|]. simpl. split; [lia|]. rewrite E in Hd. unfold NBN in *. lia.
  - destruct (IH (b / NBN - 1)) as (ds & Hds & Hne & Hl & Hv); [unfold NBN in *; lia|].
    exists (b mod NBN :: ds). split; [by constructor|]. split; [done|]. simpl. split; [lia|]. rewrite Hv. lia.
Qed.

Lemma lmap_loop_none n b lp : lcap n <= b -> lmap_loop n b lp = None.
Proof.
  revert b lp. induction n as [|n IH]; intros b lp Hb; [done|]. cbn [lmap_loop lcap] in *. rewrite nbndiv_div.
  pose proof (lcap_pos n). assert (1 + lcap n <= b / NBN) as Hq by (unfold NBN in *; Z.to_euclidean_division_equations; lia).
  rewrite (proj2 (Z.eqb_neq _ 0)) by lia. apply IH. lia.
Qed.

(** The array for a block, when it has one. *)
Definition lmap_path (b : Z) : option (list Z) :=
  if b <? ND then Some [s16 b] else lmap_loop (Z.to_nat NI) (b - ND) [].

Lemma lmap_path_lblock l : lpath l -> 0 <= lblock l < lmax /\ lmap_path (lblock l) = Some l.
Proof.
  intros (ds & t & -> & Hlen & Hds & Ht). unfold lblock. rewrite removelast_last.
  pose proof (lvalue_range ds Hds) as Hr. unfold lmap_path. destruct ds as [|d ds].
  - rewrite decide_True in Ht by done. cbn [hd app]. unfold lmax, ND in *. rewrite (proj2 (Z.ltb_lt t _)) by lia.
    split; [change (lcap 3) with 2113664; lia|]. rewrite s16_small by lia. done.
  - rewrite decide_False in Ht by done. pose proof (lvalue_nonneg d ds Hds) as Hn. cbv iota beta.
    rewrite (proj2 (Z.ltb_ge (ND + lvalue (d :: ds)) ND)) by lia. assert (lcap (length (d :: ds)) <= lcap 3) as Hc.
    { destruct ds as [|? [|? [|? ?]]]; simpl in Hlen |- *; unfold NBN; lia. }
    pose proof (Z.lt_le_trans _ _ _ (proj2 Hr) Hc) as Hc2. split; [unfold lmax, ND in *; clear Hr Hc; lia|]. replace (ND + lvalue (d :: ds) - ND) with (lvalue (d :: ds)) by lia.
    rewrite lmap_loop_value; [|done|done|exact Hlen].
    replace (ND + NI - 1 - Z.of_nat (Z.to_nat NI - length (d :: ds))) with t; [done|].
    rewrite Ht. unfold ND, NI. change (Z.to_nat 3) with 3%nat. lia.
Qed.

Lemma lmap_path_some b : 0 <= b < lmax -> exists l, lmap_path b = Some l /\ lpath l /\ lblock l = b.
Proof.
  intros Hb. assert (exists l, lpath l /\ lblock l = b) as (l & Hl & E).
  - destruct (decide (b < ND)) as [Hlt|Hge].
    + exists [b]. split; [|done]. exists [], b. split; [done|]. split; [simpl; lia|]. split; [constructor|]. rewrite decide_True by done. lia.
    + destruct (lvalue_surj 3 (b - ND)) as (ds & Hds & Hne & Hl & Hv); [unfold lmax in Hb; lia|].
      exists (ds ++ [ND - 1 + Z.of_nat (length ds)]). split.
      * exists ds, (ND - 1 + Z.of_nat (length ds)). split; [done|]. split; [done|]. split; [done|]. by rewrite decide_False.
      * unfold lblock. rewrite removelast_last. destruct ds; [done|]. rewrite Hv. lia.
  - exists l. split; [|done]. rewrite <- E. by apply lmap_path_lblock.
Qed.

Lemma lmap_path_none b : lmax <= b -> lmap_path b = None.
Proof.
  intros Hb. unfold lmap_path, lmax in *. pose proof (lcap_pos 3). rewrite (proj2 (Z.ltb_ge _ _)) by lia.
  apply lmap_loop_none. change (Z.to_nat NI) with 3%nat. lia.
Qed.

Section maps.
Context {C : Type} `{BufCacheLaws C}.
Implicit Types (s : fs C) (mp : MOUNT) (v : bview) (x : INODE).

Lemma lmap_path_eq b s : lmap b s = match lmap_path b with Some l => Ret (Some l) s | None => Ret None (set_u_error EFBIG s) end.
Proof. unfold lmap, lmap_path. destruct (b <? ND); [done|]. by destruct (lmap_loop _ _ _). Qed.

(** ** Walking the map *)

(** A process that holds no buffer of a device that works. *)
Record usable (dev : Z) (v : bview) : Prop := {
  us_idle : forall b, unheld (dev, b) v;
  us_room : room v;
  us_good : forall b, v_good v (dev, b) = true;
  us_dev : dev <> NODEV
}.

(** The block that the indirect block [pb] and those below it map a list of
    indexes to; 0 for a hole. *)
Fixpoint walk (v : bview) (dev : Z) (lp : list Z) (pb : Z) : Z :=
  match lp with
  | [] => pb
  | i :: lp => if pb =? 0 then 0 else walk v dev lp (entry (v_blk v (dev, pb)) i)
  end.
(** The physical block of an array left by [lmap]. *)
Definition pmap (v : bview) (x : INODE) (l : list Z) : Z :=
  match last l with
  | Some i => match i_addr x i with Some pb => walk v (i_dev x) (tail (rev l)) pb | None => -1 end
  | None => -1
  end.
(** The physical block of a logical one, and the data in it. *)
Definition fblock (v : bview) (x : INODE) (lb : Z) : Z :=
  match lmap_path lb with Some l => pmap v x l | None => -1 end.
Definition fdata (v : bview) (x : INODE) (lb : Z) : list Z :=
  let pb := fblock v x lb in
  if pb =? 0 then repeat 0 (Z.to_nat BSIZE) else v_blk v (i_dev x, pb).

Lemma wp_geti s ip x Q : inodep s !! ip = Some x -> Q x s -> wp (geti ip) Q s.
Proof. intros Hx HQ. unfold wp, geti, kbind, get. simpl. by rewrite Hx. Qed.

Lemma wp_get_inode s0 dev mp v e s ip x Q : fs_at s0 dev mp v e s -> inodep s0 !! ip = Some x -> Q x s -> wp (geti ip) Q s.
Proof. intros Hat Hx HQ. eapply wp_geti; [|done]. by rewrite (at_inodes _ _ _ _ _ _ Hat). Qed.

Lemma wp_breada s0 dev mp v e s d b Q : fs_at s0 dev mp v e s -> unheld (d, b) v -> room v -> v_good v (d, b) = true -> d <> NODEV ->
  (forall s', fs_at s0 dev mp v e s' -> Q tt s') -> wp (breada d b) Q s.
Proof.
  intros Hat Hu Hr Hg Hd HQ. destruct (breada_law (cache s) v d b (at_rep _ _ _ _ _ _ Hat) Hu Hr Hg Hd) as (c' & E & Hc).
  unfold wp, breada. rewrite E. apply HQ. by eapply fs_at_cache.
Qed.

Lemma wp_kclaim s0 dev mp v e s d b (Q : nat -> fs C -> Prop) : fs_at s0 dev mp v e s -> unheld (d, b) v -> room v ->
  (forall h s', v_held v !! h = None ->
     fs_at s0 dev mp (put_held h (Hbuf (d, b) false (repeat 0 (Z.to_nat BSIZE))) v) e s' -> Q h s') ->
  wp (kclaim d b) Q s.
Proof.
  intros Hat Hu Hr HQ. unfold kclaim. apply wp_bind. eapply wp_bclaim; [done|done|done|]. intros h dat s1 Hh Hl Hat1.
  apply wp_bind. eapply wp_store; [done|apply held_put|done|]. intros s2 Hat2. rewrite put_put in Hat2.
  apply wp_ret. by eapply HQ.
Qed.

(** Reading a buffer and giving it back. *)
Lemma wp_peek s0 dev mp v e s b {A} (k : list Z -> M (fs C) A) (Q : A -> fs C -> Prop) :
  fs_at s0 dev mp v e s -> usable dev v ->
  (forall s', fs_at s0 dev mp v e s' -> wp (k (v_blk v (dev, b))) Q s') ->
  forall z, wp (r <- bread dev b ;;
      match r with
      | None => z
      | Some bp => d <- vaddr bp ;; brelease bp ;;; k d
      end) Q s.
Proof.
  intros Hat [Hi Hr Hg Hd] HQ z. apply wp_bind. eapply wp_bread; [done|apply Hi|done|apply Hg|done|].
  intros h s1 Hh Hat1. apply wp_bind. eapply wp_vaddr; [done|apply held_put|]. cbn [h_data].
  apply wp_bind. eapply wp_brelease; [done|apply held_put|by left|]. intros s2 Hat2.
  unfold released in Hat2. cbn [h_mod] in Hat2. rewrite drop_put in Hat2 by done. by apply HQ.
Qed.

Lemma wp_vmap_loop s0 dev mp v e s lp pb (Q : Z -> fs C -> Prop) : fs_at s0 dev mp v e s -> usable dev v ->
  (forall s', fs_at s0 dev mp v e s' -> Q (walk v dev lp pb) s') -> wp (vmap_loop dev lp pb) Q s.
Proof.
  revert pb s. induction lp as [|i lp IH]; intros pb s Hat Hus HQ; cbn [vmap_loop walk] in *; [by apply wp_ret, HQ|].
  destruct (Z.eqb_spec pb 0) as [->|Hne]; [by apply wp_ret, HQ|].
  eapply wp_peek; [done|done|]. intros s' Hat'. by apply IH.
Qed.

(** A file of a mounted device: its inode and what its map needs. *)
Definition at_file s0 (ip : nat) (x : INODE) (dev : Z) (mp : MOUNT) (v : bview) (e : Z) (s : fs C) : Prop :=
  fs_at s0 dev mp v e s /\ inodep s0 !! ip = Some x /\ i_dev x = dev.

Lemma wp_lmap s0 dev mp v e s lb (Q : option (list Z) -> fs C -> Prop) : fs_at s0 dev mp v e s ->
  (forall s', fs_at s0 dev mp v (match lmap_path lb with Some _ => e | None => EFBIG end) s' -> Q (lmap_path lb) s') ->
  wp (lmap lb) Q s.
Proof.
  intros Hat HQ. unfold wp. rewrite lmap_path_eq. destruct (lmap_path lb); [by apply HQ|].
  apply HQ. destruct Hat as [? ? ? ? ? ?]. by split.
Qed.

Lemma wp_vmap s0 ip x dev mp v e s lb (Q : Z -> fs C -> Prop) : at_file s0 ip x dev mp v e s -> usable dev v -> 0 <= lb < lmax ->
  (forall s', fs_at s0 dev mp v e s' -> Q (fblock v x lb) s') -> wp (vmap ip lb) Q s.
Proof.
  intros (Hat & Hx & Hd) Hus Hlb HQ. unfold vmap. apply wp_bind. eapply wp_lmap; [done|].
  unfold fblock in HQ. destruct (lmap_path_some lb Hlb) as (l & E & Hl & _). rewrite E in HQ |- *. intros s1 Hat1.
  destruct Hl as (ds & t & -> & Hlen & _ & Ht).
  apply wp_bind. eapply wp_get_inode; [done|done|]. apply wp_bind. eapply wp_deref; [apply last_snoc|].
  unfold pmap in HQ. rewrite last_snoc in HQ.
  assert (exists pb, i_addr x t = Some pb) as [pb Epb].
  { unfold i_addr. rewrite (proj2 (Z.leb_le 0 t)), (proj2 (Z.ltb_lt t NADDR)); [by eexists| |];
      unfold NADDR, ND in *; destruct (decide (ds = [])); lia. }
  rewrite Epb in HQ. apply wp_bind. eapply wp_deref; [exact Epb|]. rewrite Hd in HQ |- *. by eapply wp_vmap_loop.
Qed.

Lemma wp_vmap_none s0 ip x dev mp v e s lb (Q : Z -> fs C -> Prop) : at_file s0 ip x dev mp v e s -> lmax <= lb ->
  (forall s', fs_at s0 dev mp v EFBIG s' -> Q (-1) s') -> wp (vmap ip lb) Q s.
Proof.
  intros (Hat & Hx & Hd) Hlb HQ. unfold vmap. apply wp_bind. eapply wp_lmap; [done|].
  rewrite lmap_path_none by done. intros s1 Hat1. by apply wp_ret, HQ.
Qed.

(** ** Copying out *)

Definition mem_put (m : Z -> Z -> option Z) (seg a : Z) (bs : list Z) : Z -> Z -> option Z :=
  fun sp => if sp =? seg then put_mem (m sp) a bs else m sp.
(** [n] bytes from [a] can be accessed. *)
Definition accessible (m : Z -> Z -> option Z) (seg a n : Z) : Prop := forall i, 0 <= i < n -> is_Some (m seg (a + i)).

Lemma fs_at_mem s0 dev mp v e s m : fs_at s0 dev mp v e s -> fs_at (set_mem m s0) dev mp v e (set_mem m s).
Proof. intros [? ? ? ? ? (?&?&?&?&?&?&?)]. by split. Qed.

Lemma length_take_mem m a n : (length (take_mem m a n) <= n)%nat.
Proof. revert a. induction n as [|n IH]; intros a; simpl; [done|]. destruct (m a); simpl; [|lia]. specialize (IH (a + 1)). lia. Qed.

Lemma take_mem_all m a n : (forall i, 0 <= i < Z.of_nat n -> is_Some (m (a + i))) -> length (take_mem m a n) = n.
Proof.
  revert a. induction n as [|n IH]; intros a Ha; simpl; [done|].
  destruct (Ha 0) as [b Hb]; [lia|]. rewrite Z.add_0_r in Hb. rewrite Hb. simpl. f_equal. apply IH.
  intros i Hi. replace (a + 1 + i) with (a + (i + 1)) by lia. apply Ha. lia.
Qed.

Lemma io_move_ptr io k : io_ptr (io_move io k) = io_ptr io + k.
Proof. unfold io_ptr, io_move. by destruct (io_seg io =? IOPHY) eqn:E; simpl; rewrite E. Qed.
Lemma io_move_seg io k : io_seg (io_move io k) = io_seg io.
Proof. unfold io_move. by destruct (io_seg io =? IOPHY). Qed.
Lemma io_move_space io k : io_space (io_move io k) = io_space io.
Proof. unfold io_space. by rewrite io_move_seg. Qed.
Lemma io_move_ioc io k : io_ioc (io_move io k) = u16 (io_ioc io - k).
Proof. unfold io_move. by destruct (io_seg io =? IOPHY). Qed.
Lemma io_move_seek io k : io_seek (io_move io k) = io_seek io.
Proof. unfold io_move. by destruct (io_seg io =? IOPHY). Qed.

Lemma u16_sub_sub a b c : u16 (u16 (a - b) - c) = u16 (a - (b + c)).
Proof. unfold u16, wrapu. rewrite Zminus_mod_idemp_l. f_equal. lia. Qed.

Lemma io_move_move io a b : io_move (io_move io a) b = io_move io (a + b).
Proof.
  unfold io_move. destruct (io_seg io =? IOPHY) eqn:E; cbn; rewrite E; cbn; by rewrite u16_sub_sub, Z.add_assoc.
Qed.
Lemma io_move_0 io : 0 <= io_ioc io < 65536 -> io_move io 0 = io.
Proof.
  intros Hi. unfold io_move. destruct io as [seg ioc seek base phys]. cbn in *.
  destruct (seg =? IOPHY); cbn; by rewrite Z.sub_0_r, Z.add_0_r, u16_small.
Qed.

Lemma wp_iowrite s0 dev mp v e s io h b off n (Q : IO -> fs C -> Prop) : fs_at s0 dev mp v e s -> v_held v !! h = Some b ->
  io_space io = true -> 0 <= n -> accessible (mem s0) (io_seg io) (io_ptr io) n ->
  (forall s', fs_at (set_mem (mem_put (mem s0) (io_seg io) (io_ptr io) (sub (h_data b) off (Z.to_nat n))) s0) dev mp v e s' ->
     Q (io_move io n) s') ->
  wp (iowrite io h off n) Q s.
Proof.
  intros Hat Hh Hsp Hn Hacc HQ. unfold iowrite. rewrite Hsp. cbn [negb].
  destruct (at_ids _ _ _ _ _ _ Hat) as (_ & _ & _ & _ & _ & Em & _).
  apply wp_bind, wp_gets. rewrite Em. apply wp_bind. eapply wp_vaddr; [done|done|].
  rewrite take_mem_all; [|intros i Hi; apply Hacc; lia].
  apply wp_bind, wp_modify. rewrite Z2Nat.id by done. rewrite Z.ltb_irrefl.
  apply wp_bind, wp_ret, wp_ret, HQ. by apply fs_at_mem.
Qed.

(** ** Reading a file *)

Definition rmap (blk : bool) (v : bview) (x : INODE) (lb : Z) : Z :=
  if blk then lb else if fblock v x lb =? 0 then -1 else fblock v x lb.
(** The data of a block of a file, or of the device itself. *)
Definition rdata (blk : bool) (v : bview) (x : INODE) (lb : Z) : list Z :=
  if blk then v_blk v (i_rdev x, lb) else fdata v x lb.
Definition rbyte (blk : bool) (v : bview) (x : INODE) (p : Z) : Z :=
  default 0 (rdata blk v x (p / BSIZE) !! Z.to_nat (p mod BSIZE)).
(** [n] bytes from position [p] on, copied to the addresses from [a] on. *)
Definition copied (blk : bool) (v : bview) (x : INODE) (m m' : Z -> Z -> option Z) (seg a p n : Z) : Prop :=
  forall sp y, m' sp y = if (sp =? seg) && (a <=? y) && (y <? a + n) then Some (rbyte blk v x (p + (y - a))) else m sp y.

(** The blocks below a position are mapped and whole. *)
Definition readable (blk : bool) (v : bview) (x : INODE) (p : Z) : Prop :=
  (blk = true \/ forall lb, 0 <= lb -> lb * BSIZE < p -> lb < lmax /\ 0 <= fblock v x lb) /\
  forall lb, 0 <= lb -> lb * BSIZE < p -> Z.of_nat (length (rdata blk v x lb)) = BSIZE.

Lemma copied_app blk v x m m1 m2 seg a p n1 n2 : copied blk v x m m1 seg a p n1 -> 0 <= n1 -> 0 <= n2 ->
  copied blk v x m1 m2 seg (a + n1) (p + n1) n2 -> copied blk v x m m2 seg a p (n1 + n2).
Proof.
  intros H1 Hn1 Hn2 H2 sp y. rewrite H2, H1. destruct (sp =? seg); cbn [andb]; [|done].
  bool_cases; simpl; try lia; f_equal; try (f_equal; lia).
Qed.

Lemma copied_accessible blk v x m m1 seg a p n b k : copied blk v x m m1 seg a p n -> accessible m seg b k -> accessible m1 seg b k.
Proof. intros Hc Ha i Hi. rewrite Hc. destruct (_ && _); [by eexists|by apply Ha]. Qed.

(** Copying a piece of one block. *)
Lemma copied_block blk v x m seg a p n : 0 <= p -> 0 < n -> p mod BSIZE + n <= BSIZE ->
  Z.of_nat (length (rdata blk v x (p / BSIZE))) = BSIZE ->
  copied blk v x m (mem_put m seg a (sub (rdata blk v x (p / BSIZE)) (Z.to_nat (p mod BSIZE)) (Z.to_nat n))) seg a p n.
Proof.
  intros Hp Hn Hfit Hlen sp y. unfold mem_put. destruct (Z.eqb_spec sp seg) as [->|]; [|done]. cbn [andb]. unfold put_mem.
  pose proof (Z.mod_pos_bound p BSIZE ltac:(unfold BSIZE; lia)) as Hm.
  rewrite length_sub by (unfold BSIZE in *; lia). rewrite Z2Nat.id by lia.
  destruct ((a <=? y) && (y <? a + n)) eqn:E; [|done]. apply andb_true_iff in E as [E1%Z.leb_le E2%Z.ltb_lt].
  assert ((p + (y - a)) / BSIZE = p / BSIZE /\ (p + (y - a)) mod BSIZE = p mod BSIZE + (y - a)) as [Ed Em].
  { unfold BSIZE in *. Z.to_euclidean_division_equations. lia. }
  rewrite lookup_sub, decide_True by lia. unfold rbyte. rewrite Ed, Em.
  destruct (lookup_lt_is_Some_2 (rdata blk v x (p / BSIZE)) (Z.to_nat (p mod BSIZE + (y - a)))) as [b Hb]; [lia|].
  rewrite Hb. replace (Z.to_nat (p mod BSIZE) + Z.to_nat (y - a))%nat with (Z.to_nat (p mod BSIZE + (y - a))) by lia. by rewrite Hb.
Qed.

Section reading.
Context (s0 : fs C) (ip : nat) (x : INODE) (dev : Z) (mp : MOUNT) (v : bview) (blk : bool).
Local Abbreviation rd := (if blk then i_rdev x else i_dev x).
Context (Hx : inodep s0 !! ip = Some x) (Hdev : i_dev x = dev)
  (Hus : usable dev v) (Hrd : usable rd v) (Hnd : unheld (NODEV, 0) v).

Lemma wp_getblk e s s1 lb (Q : option nat -> fs C -> Prop) : fs_at s1 dev mp v e s ->
  0 <= lb -> blk = true \/ 0 <= fblock v x lb ->
  (forall h key s', v_held v !! h = None -> releasable v (Hbuf key false (rdata blk v x lb)) ->
     fs_at s1 dev mp (put_held h (Hbuf key false (rdata blk v x lb)) v) e s' -> Q (Some h) s') ->
  wp (if rmap blk v x lb <? 0 then bp <- kclaim NODEV 0 ;; kret (Some bp) else bread rd (rmap blk v x lb)) Q s.
Proof.
  intros Hat Hlb Hok HQ. pose proof Hrd as [Hi Hr Hg Hn]. unfold rmap. destruct blk.
  - rewrite (proj2 (Z.ltb_ge lb 0)) by done. eapply wp_bread; [done|apply Hi|done|apply Hg|done|].
    intros h s' Hh Hat'. refine (HQ h _ s' Hh _ Hat'); by left.
  - destruct Hok as [?|Hok]; [done|]. unfold rdata, fdata in HQ. destruct (Z.eqb_spec (fblock v x lb) 0) as [E|E].
    + change (-1 <? 0) with true. cbv iota. apply wp_bind. eapply wp_kclaim; [done|done|done|].
      intros h s' Hh Hat'. apply wp_ret. refine (HQ h (NODEV, 0) s' Hh _ Hat'); by right.
    + rewrite (proj2 (Z.ltb_ge _ 0)) by done. eapply wp_bread; [done|apply Hi|done|apply Hg|done|].
      intros h s' Hh Hat'. refine (HQ h _ s' Hh _ Hat'); by left.
Qed.

Lemma wp_release_read e s s1 h key d (Q : unit -> fs C -> Prop) : v_held v !! h = None -> releasable v (Hbuf key false d) ->
  fs_at s1 dev mp (put_held h (Hbuf key false d) v) e s ->
  (forall s', fs_at s1 dev mp v e s' -> Q tt s') -> wp (brelease h) Q s.
Proof.
  intros Hh Hrel Hat HQ. eapply wp_brelease; [done|apply held_put|done|].
  intros s' Hat'. unfold released in Hat'. cbn [h_mod] in Hat'. rewrite drop_put in Hat' by done. by apply HQ.
Qed.

Lemma wp_read_ahead e s s1 n lb (Q : option (list Z) -> fs C -> Prop) : fs_at s1 dev mp v e s -> inodep s1 = inodep s0 -> 0 <= lb ->
  (blk = true \/ forall k, lb <= k < lb + Z.of_nat n -> k < lmax /\ 0 <= fblock v x k) ->
  (forall s', fs_at s1 dev mp v e s' -> Q (Some (map (rmap blk v x) (seqZ lb (Z.of_nat n)))) s') ->
  wp (read_ahead n ip blk rd lb) Q s.
Proof.
  revert lb s Q. induction n as [|n IH]; intros lb s Q Hat Hin Hlb Hok HQ; cbn [read_ahead]; [by apply wp_ret, HQ|].
  pose proof Hrd as [Hi Hr Hg Hn].
  rewrite seqZ_cons in HQ by lia. replace (Z.pred (Z.of_nat (S n))) with (Z.of_nat n) in HQ by lia. cbn [map] in HQ.
  assert (forall s2 e', fs_at s1 dev mp v e s2 -> e' = rmap blk v x lb -> wp (r <- read_ahead n ip blk rd (lb + 1) ;;
    kret (match r with None => None | Some l => Some (e' :: l) end)) Q s2) as Hrest.
  { intros s2 e' Hat2 ->. apply wp_bind. eapply IH; [done|done|lia| |].
    - destruct Hok as [?|Hok]; [by left|right]. intros k Hk. apply Hok. lia.
    - intros s3 Hat3. apply wp_ret. by apply HQ. }
  destruct blk eqn:Eblk.
  - apply wp_bind, wp_ret. cbn [negb andb]. apply wp_bind, wp_bind. eapply wp_breada; [done|apply Hi|done|apply Hg|done|].
    intros s2 Hat2. apply wp_ret. by apply Hrest.
  - destruct Hok as [?|Hok]; [done|]. destruct (Hok lb) as [Hlt Hge]; [lia|].
    apply wp_bind. eapply (wp_vmap s1 ip x); [split; [done|by rewrite Hin]|done|lia|].
    intros s2 Hat2. cbn [negb andb]. rewrite (proj2 (Z.ltb_ge _ 0)) by done. apply wp_bind.
    unfold rmap in Hrest. destruct (fblock v x lb =? 0) eqn:E0.
    + apply wp_ret. by apply Hrest.
    + apply wp_bind. eapply wp_breada; [done|apply Hi|done|apply Hg|done|]. intros s3 Hat3. apply wp_ret. by apply Hrest.
Qed.

(** The array [list] covers the blocks from [abn] to [zbn]. *)
Definition covers (abn zbn : Z) (l : list Z) : Prop := l = map (rmap blk v x) (seqZ abn (zbn - abn)).

Lemma covers_lookup abn zbn l lb : covers abn zbn l -> abn <= lb < zbn -> aget l (lb - abn) = Some (rmap blk v x lb).
Proof.
  intros -> Hlb. unfold aget. rewrite (proj2 (Z.ltb_ge _ 0)) by lia. rewrite list_lookup_fmap.
  rewrite lookup_seqZ_lt by lia. simpl. do 2 f_equal. lia.
Qed.

Lemma readable_blk p lb : readable blk v x p -> 0 <= lb -> lb * BSIZE < p -> blk = true \/ 0 <= fblock v x lb.
Proof. intros [[?|Ho] _] Hlb Hp; [by left|]. right. by apply Ho. Qed.

(** A piece of one block: getting it, copying it out and letting it go. *)
Lemma wp_piece {A} s1 s io p n (k : IO -> M (fs C) A) (Q : A -> fs C -> Prop) : fs_at s1 dev mp v 0 s ->
  0 <= p -> 0 < n -> p mod BSIZE + n <= BSIZE -> readable blk v x (p + n) -> io_space io = true ->
  accessible (mem s1) (io_seg io) (io_ptr io) n ->
  (forall m' s', copied blk v x (mem s1) m' (io_seg io) (io_ptr io) p n -> fs_at (set_mem m' s1) dev mp v 0 s' ->
     wp (k (io_move io n)) Q s') ->
  forall z,
  wp (r <- (if rmap blk v x (p / BSIZE) <? 0 then bp <- kclaim NODEV 0 ;; kret (Some bp) else bread rd (rmap blk v x (p / BSIZE))) ;;
      match r with
      | None => z
      | Some bp => io <- iowrite io bp (Z.to_nat (p mod BSIZE)) n ;; brelease bp ;;; k io
      end) Q s.
Proof.
  intros Hat Hp Hn Hfit Hrb Hsp Hacc HQ z. pose proof (Z.div_mod p BSIZE ltac:(done)) as Hdm.
  pose proof (Z.mod_pos_bound p BSIZE ltac:(unfold BSIZE; lia)) as Hm.
  assert (0 <= p / BSIZE) as Hlb by (apply Z.div_pos; unfold BSIZE; lia).
  apply wp_bind. eapply wp_getblk; [done|done|eapply readable_blk; [done|done|lia]|].
  intros h key s2 Hh Hrel Hat2. apply wp_bind. eapply wp_iowrite; [done|apply held_put|done|lia|done|].
  intros s3 Hat3. apply wp_bind. eapply wp_release_read; [done|done|exact Hat3|]. intros s4 Hat4.
  eapply HQ; [|exact Hat4]. cbn [h_data]. apply copied_block; try done. apply Hrb; lia.
Qed.

(** A read within one block. *)
Lemma wp_one_block s1 s io p n (Q : IO -> fs C -> Prop) : fs_at s1 dev mp v 0 s -> inodep s1 = inodep s0 ->
  0 <= p -> 0 < n -> p mod BSIZE + n <= BSIZE -> readable blk v x (p + n) -> io_space io = true ->
  accessible (mem s1) (io_seg io) (io_ptr io) n ->
  (forall m' s', copied blk v x (mem s1) m' (io_seg io) (io_ptr io) p n -> fs_at (set_mem m' s1) dev mp v 0 s' ->
     Q (io_move io n) s') ->
  wp (r <- (if blk then bread rd (p / BSIZE) else vread ip (p / BSIZE)) ;;
      match r with
      | None => kret io
      | Some bp => io <- iowrite io bp (Z.to_nat (p mod BSIZE)) n ;; brelease bp ;;; kret io
      end) Q s.
Proof.
  intros Hat Hin Hp Hn Hfit Hrb Hsp Hacc HQ. pose proof (Z.div_mod p BSIZE ltac:(done)) as Hdm.
  pose proof (Z.mod_pos_bound p BSIZE ltac:(unfold BSIZE; lia)) as Hm.
  assert (0 <= p / BSIZE) as Hlb by (apply Z.div_pos; unfold BSIZE; lia).
  assert (p / BSIZE * BSIZE < p + n) as Hin' by lia.
  enough (forall s2, fs_at s1 dev mp v 0 s2 ->
    wp (r <- (if rmap blk v x (p / BSIZE) <? 0 then bp <- kclaim NODEV 0 ;; kret (Some bp) else bread rd (rmap blk v x (p / BSIZE))) ;;
      match r with
      | None => kret io
      | Some bp => io <- iowrite io bp (Z.to_nat (p mod BSIZE)) n ;; brelease bp ;;; kret io
      end) Q s2) as Hgo.
  - unfold rmap in Hgo. destruct blk.
    + rewrite (proj2 (Z.ltb_ge _ 0)) in Hgo by done. by apply Hgo.
    + destruct Hrb as [[?|Ho] _]; [done|]. destruct (Ho _ Hlb Hin') as [Hmax Hge].
      unfold vread. apply wp_bind, wp_bind. eapply (wp_vmap s1 ip x); [split; [done|by rewrite Hin]|done|done|].
      intros s2 Hat2. rewrite (proj2 (Z.ltb_ge _ 0)) by done. apply wp_bind. eapply wp_get_inode; [done|by rewrite Hin|].
      specialize (Hgo s2 Hat2). destruct (fblock v x (p / BSIZE) =? 0); cbn [negb].
      * by apply wp_unbind in Hgo.
      * rewrite (proj2 (Z.ltb_ge _ 0)) in Hgo by done. by apply wp_unbind in Hgo.
  - intros s2 Hat2. eapply wp_piece; [done|done|done|done|done|done|done|]. intros m' s' Hc Hat'. apply wp_ret. by eapply HQ.
Qed.

Lemma wp_fread_loop fuel s1 s p abn zbn l res io (Q : IO -> fs C -> Prop) : fs_at s1 dev mp v 0 s -> inodep s1 = inodep s0 ->
  0 <= p -> 0 <= res < 65536 -> res < Z.of_nat fuel -> readable blk v x (p + res) -> io_space io = true -> 0 <= io_ioc io < 65536 ->
  accessible (mem s1) (io_seg io) (io_ptr io) res ->
  (p / BSIZE < zbn -> abn <= p / BSIZE /\ covers abn zbn l) ->
  (forall m' s', copied blk v x (mem s1) m' (io_seg io) (io_ptr io) p res -> fs_at (set_mem m' s1) dev mp v 0 s' ->
     Q (io_move io res) s') ->
  wp (fread_loop fuel ip blk rd (p / BSIZE) abn zbn l (p mod BSIZE) res io) Q s.
Proof.
  revert s1 s p abn zbn l res io Q. induction fuel as [|fuel IH];
    intros s1 s p abn zbn l res io Q Hat Hin Hp Hres Hfu Hrb Hsp Hioc Hacc Hcov HQ; [lia|].
  cbn [fread_loop]. pose proof (Z.div_mod p BSIZE ltac:(done)) as Hdm.
  pose proof (Z.mod_pos_bound p BSIZE ltac:(unfold BSIZE; lia)) as Hm. change BSIZE with 512 in Hdm, Hm.
  assert (0 <= p / BSIZE) as Hlb by (apply Z.div_pos; unfold BSIZE; lia).
  destruct (Z.leb_spec res 0) as [Hr0|Hr0].
  { apply wp_ret. assert (res = 0) as E by lia. rewrite E, io_move_0 in HQ by done.
    apply (HQ (mem s1)); [|by destruct s1].
    intros sp y. rewrite Z.add_0_r. bool_cases; simpl; try done; lia. }
  (* the array *)
  apply wp_bind.
  set (n0 := u16 (blockn (res + BSIZE - 1))).
  set (n1 := if NEXREAD <? n0 then NEXREAD else n0). set (n := if n1 <=? 0 then 1 else n1).
  assert (1 <= n /\ n * 512 < res + 512) as [Hn1 Hn2].
  { assert (n0 = (res + 511) / 512) as En.
    { unfold n0, blockn. rewrite Z.shiftr_div_pow2 by lia. change (2 ^ 9) with 512. change BSIZE with 512.
      replace (res + 512 - 1) with (res + 511) by lia. rewrite u16_small; [done|]. Z.to_euclidean_division_equations. lia. }
    unfold n, n1, NEXREAD. rewrite En. clear - Hres Hr0. bool_cases; Z.to_euclidean_division_equations; lia. }
  apply wp_mono with (Q := fun a s' => exists abn zbn l, a = Some (abn, zbn, l) /\ abn <= p / BSIZE < zbn /\ covers abn zbn l /\
    fs_at s1 dev mp v 0 s').
  { destruct (Z.leb_spec zbn (p / BSIZE)) as [Hz|Hz].
    - apply wp_bind. eapply wp_read_ahead; [done|done|done| |].
      + destruct Hrb as [[?|Ho] _]; [by left|right]. intros k Hk. rewrite Z2Nat.id in Hk by lia. apply Ho; change BSIZE with 512; change BSIZE with 512 in Hk; lia.
      + intros s2 Hat2. apply wp_ret. eexists _, _, _. split; [done|]. split; [lia|]. split; [|done].
        unfold covers. rewrite Z2Nat.id by lia. do 2 f_equal. lia.
    - apply wp_ret. destruct (Hcov Hz) as [? ?]. eexists _, _, _. split; [done|]. split; [lia|]. by split. }
  clear Hcov abn zbn l. intros a s2 (abn & zbn & l & -> & Hb & Hcov & Hat2).
  apply wp_bind. eapply wp_deref; [by eapply covers_lookup|].
  set (k := if BSIZE - p mod BSIZE <? res then BSIZE - p mod BSIZE else res).
  assert (0 < k <= res /\ p mod BSIZE + k <= BSIZE) as [Hk Hfit].
  { unfold k. change BSIZE with 512. destruct (Z.ltb_spec (512 - p mod 512) res); change BSIZE with 512 in *; lia. }
  eapply wp_piece; [done|done|lia|done| |done| |].
  { destruct Hrb as [[?|Ho] Hl]; (split; [|intros lb ? ?; apply Hl; lia]); [by left|right]. intros lb ? ?. apply Ho; lia. }
  { intros i Hi. apply Hacc. lia. }
  intros m2 s3 Hc2 Hat3. apply wp_bind, wp_gets.
  rewrite (at_error _ _ _ _ _ _ Hat3). cbn [negb Z.eqb].
  destruct (Z_lt_ge_dec (BSIZE - p mod BSIZE) res) as [Hlt|Hge]; fold k.
  - assert (p mod BSIZE + k = 512) as Ek by (unfold k; rewrite (proj2 (Z.ltb_lt _ _)) by done; change BSIZE with 512; lia).
    assert ((p + k) / BSIZE = p / BSIZE + 1 /\ (p + k) mod BSIZE = 0) as [Ed Em].
    { change BSIZE with 512 in *. clear - Ek. Z.to_euclidean_division_equations. lia. }
    rewrite <- Ed, <- Em.
    eapply IH; [exact Hat3|done|lia|lia|lia| |by rewrite io_move_space|rewrite io_move_ioc; apply u16_range| | |].
    + by replace (p + k + (res - k)) with (p + res) by lia.
    + rewrite io_move_seg, io_move_ptr. eapply copied_accessible; [exact Hc2|]. intros i Hi. rewrite <- Z.add_assoc. apply Hacc. lia.
    + intros Hz. split; [lia|done].
    + intros m3 s4 Hc3 Hat4. rewrite io_move_seg, io_move_ptr in Hc3. rewrite io_move_move.
      replace (k + (res - k)) with res by lia. apply (HQ m3); [|exact Hat4].
      replace res with (k + (res - k)) by lia. eapply copied_app; [exact Hc2|lia|lia|exact Hc3].
  - assert (k = res) as Ek by (unfold k; rewrite (proj2 (Z.ltb_ge _ _)) by lia; done).
    destruct fuel as [|fuel]; [lia|]. cbn [fread_loop]. rewrite Ek, Z.sub_diag. cbn [Z.leb Z.compare].
    apply wp_ret. rewrite Ek in Hc2. by apply (HQ m2).
Qed.

Lemma wp_fread fuel s1 s io (Q : IO -> fs C -> Prop) : fs_at s1 dev mp v 0 s -> inodep s1 = inodep s0 ->
  blk = (itype x =? IFBLK) ->
  let len := if blk || (io_ioc io <? i_size x - io_seek io) then io_ioc io else Z.max 0 (i_size x - io_seek io) in
  0 <= io_seek io -> 0 <= io_ioc io < 65536 -> is32 (i_size x - io_seek io) -> len < Z.of_nat fuel ->
  readable blk v x (io_seek io + len) -> io_space io = true -> accessible (mem s1) (io_seg io) (io_ptr io) len ->
  (forall m' s', copied blk v x (mem s1) m' (io_seg io) (io_ptr io) (io_seek io) len -> fs_at (set_mem m' s1) dev mp v 0 s' ->
     Q (io_move io len) s') ->
  wp (fread fuel ip io) Q s.
Proof.
  intros Hat Hin Hblk len Hp Hioc H32 Hfu Hrb Hsp Hacc HQ. unfold fread.
  apply wp_bind. eapply wp_get_inode; [done|by rewrite Hin|]. rewrite <- Hblk. rewrite (s32_small _ H32).
  assert (0 <= len < 65536 /\ (if blk || (io_ioc io <? i_size x - io_seek io) then io_ioc io else i_size x - io_seek io) <= len /\
    (0 < len -> (if blk || (io_ioc io <? i_size x - io_seek io) then io_ioc io else i_size x - io_seek io) = len)) as (Hl & Hle & Hlen).
  { unfold len. destruct blk; cbn [orb]; [lia|]. destruct (Z.ltb_spec (io_ioc io) (i_size x - io_seek io)); lia. }
  clearbody len. set (res := if blk || _ then _ else _) in *. assert (blocko (io_seek io) = io_seek io mod BSIZE /\ blockn (io_seek io) = io_seek io / BSIZE) as [-> ->].
  { unfold blocko, blockn. change 511 with (Z.ones 9). by rewrite Z.land_ones, Z.shiftr_div_pow2. }
  pose proof (Z.mod_pos_bound (io_seek io) BSIZE ltac:(unfold BSIZE; lia)) as Hm.
  destruct (Z.leb_spec res 0) as [H1|H1].
  { apply wp_ret. destruct (decide (0 < len)) as [Hpos|Hz]; [specialize (Hlen Hpos); lia|]. assert (len = 0) as E by lia.
    rewrite E, io_move_0 in HQ by done. apply (HQ (mem s1)); [|by destruct s1].
    intros sp y. rewrite Z.add_0_r. bool_cases; simpl; try done; lia. }
  assert (res = len) as -> by (apply Hlen; lia).
  destruct (Z.leb_spec (len + io_seek io mod BSIZE) BSIZE) as [Hone|Hmany].
  - eapply wp_one_block; [done|done|done|lia|lia|done|done|done|]. done.
  - eapply wp_fread_loop; [done|done|done|lia|lia|done|done|done|done| |done].
    intros Hz. exfalso. assert (0 <= io_seek io / BSIZE) by (apply Z.div_pos; unfold BSIZE; lia). lia.
Qed.
End reading.

(** C33: [lmap] is a bijection between the blocks a file can have and the index
    lists of at most three indirections: every block number below [lmax] has
    exactly one, whose indexes fit an indirect block and whose value is the
    number; beyond [lmax] it reports EFBIG. *)
Theorem lmap_bijection b s : 0 <= b ->
  (b < lmax -> exists l, lmap b s = Ret (Some l) s /\ lpath l /\ lblock l = b /\
     forall l', lpath l' -> lblock l' = b -> l' = l) /\
  (lmax <= b -> lmap b s = Ret None (set_u_error EFBIG s)).
Proof.
  intros Hb. rewrite lmap_path_eq. split; intros Hm.
  - destruct (lmap_path_some b) as (l & -> & Hl & E); [done|]. exists l. split_and!; try done.
    intros l' Hl' E'. destruct (lmap_path_lblock l Hl) as [_ E1]. destruct (lmap_path_lblock l' Hl') as [_ E2]. congruence.
  - by rewrite lmap_path_none.
Qed.

(** [vmap] follows the index list of a block through the inode and the
    indirect blocks on disk, stops at a hole with 0, holds no buffer when it
    returns and changes nothing; a block number that is too large gives -1
    and EFBIG. *)
Theorem vmap_correct s ip x dev mp v e lb : at_file s ip x dev mp v e s -> usable dev v -> 0 <= lb ->
  wp (vmap ip lb) (fun pb s' => if lb <? lmax then pb = fblock v x lb /\ fs_at s dev mp v e s'
                                else pb = -1 /\ fs_at s dev mp v EFBIG s') s.
Proof.
  intros Hf Hus Hlb. destruct (Z.ltb_spec lb lmax).
  - by eapply wp_vmap.
  - by eapply wp_vmap_none.
Qed.

(** C31: [fread] moves the bytes of the file from the seek position on, up to
    the count or the end of the file, to consecutive addresses of the I/O
    segment, zeros for the blocks of a hole, through every level of
    indirection and whether it reads ahead or not; nothing else in memory
    changes, no buffer stays held, and the count and the address of the I/O
    structure advance by the bytes moved.  For a block special file the bytes
    are those of the device and the count is not limited by a size. *)
Theorem fread_correct fuel s ip x dev mp v io :
  let blk := itype x =? IFBLK in
  let len := if blk || (io_ioc io <? i_size x - io_seek io) then io_ioc io else Z.max 0 (i_size x - io_seek io) in
  at_file s ip x dev mp v 0 s -> usable dev v -> usable (if blk then i_rdev x else i_dev x) v -> unheld (NODEV, 0) v ->
  0 <= io_seek io -> 0 <= io_ioc io < 65536 -> is32 (i_size x - io_seek io) -> len < Z.of_nat fuel ->
  readable blk v x (io_seek io + len) -> io_space io = true -> accessible (mem s) (io_seg io) (io_ptr io) len ->
  wp (fread fuel ip io) (fun io' s' => io' = io_move io len /\ exists m',
    copied blk v x (mem s) m' (io_seg io) (io_ptr io) (io_seek io) len /\ fs_at (set_mem m' s) dev mp v 0 s') s.
Proof.
  intros blk len (Hat & Hx & Hdev) Hus Hrd Hnd Hp Hioc H32 Hfu Hrb Hsp Hacc.
  eapply wp_fread; [done..|]. intros m' s' Hc Hat'. split; [done|]. by exists m'.
Qed.
End maps.

(** ** Concrete instances *)

(** Block 0 is on block 12, block 1 is a hole and block 10 is on block 14,
    through the indirect block 13. *)
Definition w_addrs : list Z := concat (map (unbe 4) [12; 0; 0; 0; 0; 0; 0; 0; 0; 0; 13; 0; 0]).
Definition w_inode : INODE := Inode 1 5 1 0 true 0 IFREG 1 0 0 6000 w_addrs 0 0 0.
Definition w_fview : bview :=
  View (fun k => if decide (k = (1, 13)) then set_entry (repeat 0 512) 0 14
                 else if decide (k = (1, 12)) then repeat 65 512 else repeat 0 512) ∅ (fun _ => true).
Definition w_fstate : fs acache :=
  Fs (Acache w_fview) [w_mount 0] [w_inode] 0 0 0 77 1 [] 0 (fun _ _ => Some 0) w_up.

Lemma w_at_file : at_file w_fstate 0 w_inode 1 (w_mount 0) w_fview 0 w_fstate.
Proof. split; [by apply fs_at_self|]. done. Qed.

Lemma w_usable : usable 1 w_fview.
Proof. split; [intros; by apply unheld_none|unfold room, NHOLD; vm_compute; lia|done|done]. Qed.

Lemma lmap_bijection_witness : exists l, lmap (C := acache) 2113673 w_fstate = Ret (Some l) w_fstate /\ lpath l /\ lblock l = 2113673 /\
  forall l', lpath l' -> lblock l' = 2113673 -> l' = l.
Proof. refine (proj1 (lmap_bijection 2113673 w_fstate _) _); [lia|]. unfold lmax. vm_compute. reflexivity. Defined.

Lemma vmap_correct_witness : exists pb s', vmap 0 10 w_fstate = Ret pb s' /\ pb = 14 /\ fs_at w_fstate 1 (w_mount 0) w_fview 0 s'.
Proof.
  refine (proj1 (wp_returns _ _ _) (vmap_correct w_fstate 0 w_inode 1 (w_mount 0) w_fview 0 10 w_at_file w_usable _)). lia.
Defined.

(** Six bytes across the end of block 0 into the hole. *)
Lemma fread_correct_witness : exists io' s', fread 7 0 (Io IOUSR 6 510 100 0) w_fstate = Ret io' s' /\
  io' = Io IOUSR 0 510 106 0 /\ exists m',
  copied false w_fview w_inode (mem w_fstate) m' IOUSR 100 510 6 /\ fs_at (set_mem m' w_fstate) 1 (w_mount 0) w_fview 0 s'.
Proof.
  refine (proj1 (wp_returns _ _ _) (fread_correct 7 w_fstate 0 w_inode 1 (w_mount 0) w_fview (Io IOUSR 6 510 100 0)
    w_at_file w_usable w_usable _ _ _ _ _ _ eq_refl _)).
  - by apply unheld_none.
  - done.
  - done.
  - done.
  - done.
  - change (readable false w_fview w_inode 516).
    assert (forall lb, 0 <= lb -> lb * BSIZE < 516 -> lb = 0 \/ lb = 1) as H01 by (unfold BSIZE; lia).
    split; [right|]; intros lb Hlb Hlt; destruct (H01 lb Hlb Hlt) as [-> | ->]; vm_compute; try done; by split.
  - intros i _. by eexists.
Defined.
