(* ===== verification/Ftree.v ===== *)
(** The tree of blocks of a file, and what [aread] does to it
    (kernel/coh/fs3.c).

    A path is an index of the inode followed by indexes of indirect blocks;
    [node] is the block it leads to, 0 for a hole.  In a well-formed file
    different paths lead to different blocks, none of them free. *)
From S2P Require Import Prelude Sched Bytes Bcache Super Fs Free Fmap.
Local Open Scope Z_scope.
Local Open Scope kernel_scope.

(** The levels of indirection below an index of the inode. *)
Definition depth (t : Z) : nat := Z.to_nat (t - (ND - 1)).
Definition fpath (q : list Z) : Prop :=
  match q with t :: r => 0 <= t < NADDR /\ (length r <= depth t)%nat /\ Forall digit r | [] => False end.
(** A path to a data block. *)
Definition leaf (q : list Z) : Prop := match q with t :: r => length r = depth t | [] => False end.

Definition node (v : bview) (x : INODE) (q : list Z) : Z :=
  match q with
  | t :: r => match i_addr x t with Some pb => walk v (i_dev x) r pb | None => 0 end
  | [] => 0
  end.

Record tree (v : bview) (x : INODE) (f : filsys) (l : list Z) : Prop := {
  tr_inj : forall p q, fpath p -> fpath q -> node v x p = node v x q -> node v x p <> 0 -> p = q;
  tr_in : forall p, fpath p -> node v x p <> 0 -> outside f (node v x p) = false /\ node v x p ∉ l;
  tr_len : length (i_a x) = 52%nat;
  tr_blk : forall p, fpath p -> node v x p <> 0 -> ~ leaf p -> length (v_blk v (i_dev x, node v x p)) = 512%nat
}.

(** ** Paths *)

Lemma fpath_snoc q i : fpath (q ++ [i]) -> q <> [] -> fpath q /\ ~ leaf q /\ digit i.
Proof.
  destruct q as [|t r]; [done|]. cbn [app fpath leaf]. rewrite length_app. cbn [length].
  intros (Ht & Hl & [Hr Hi]%Forall_app) _. apply Forall_cons in Hi as [Hi _]. split; [split; [done|split; [lia|done]]|]. split; [lia|done].
Qed.

Lemma lpath_fpath l : lpath l -> fpath (rev l) /\ leaf (rev l).
Proof.
  intros (ds & t & -> & Hl & Hds & Ht). rewrite rev_app_distr. cbn [rev app fpath leaf]. rewrite length_rev.
  assert (Forall digit (rev ds)) as Hr by by apply Forall_rev.
  unfold depth, NADDR, ND in *. destruct (decide (ds = [])) as [->|Hne]; simpl in *; repeat split; try done; lia.
Qed.

Lemma leaf_fpath_rev q : fpath q -> leaf q -> lpath (rev q).
Proof.
  destruct q as [|t r]; [done|]. cbn [fpath leaf]. intros (Ht & Hl & Hr) E. exists (rev r), t. split; [done|].
  rewrite length_rev. unfold depth, NADDR, ND in *. split; [lia|]. split; [by apply Forall_rev|].
  destruct (decide (rev r = [])) as [E'|Hne].
  - assert (length r = 0%nat) by (rewrite <- length_rev, E'; done). lia.
  - assert (length r <> 0%nat). { intros E0. apply Hne. destruct r; [done|]. done. } lia.
Qed.

(** The array of [lmap] turned round is the path of the block. *)
Lemma lmap_path_rev lb ll : 0 <= lb < lmax -> lmap_path lb = Some ll ->
  exists t r, rev ll = t :: r /\ last ll = Some t /\ tail (rev ll) = r /\ fpath (rev ll) /\ leaf (rev ll) /\ 0 <= t < NADDR.
Proof.
  intros Hlb E. destruct (lmap_path_some lb Hlb) as (ll' & E' & Hl & _). rewrite E in E'. injection E' as <-.
  destruct (lpath_fpath ll Hl) as [Hp Hlf]. destruct Hl as (ds & t & -> & _).
  rewrite rev_app_distr in *. cbn [rev app] in *. exists t, (rev ds). rewrite last_snoc. split_and!; try done; by apply Hp.
Qed.

Lemma i_addr_some x t : 0 <= t < NADDR -> exists pb, i_addr x t = Some pb.
Proof.
  intros Ht. unfold i_addr. rewrite (proj2 (Z.leb_le 0 t)), (proj2 (Z.ltb_lt t NADDR)) by lia. by eexists.
Qed.

(** ** Nodes *)

Lemma walk_snoc v dev r i pb : walk v dev (r ++ [i]) pb =
  if walk v dev r pb =? 0 then 0 else entry (v_blk v (dev, walk v dev r pb)) i.
Proof.
  revert pb. induction r as [|j r IH]; intros pb; cbn [app walk]; [done|].
  destruct (pb =? 0); [done|apply IH].
Qed.

Lemma node_snoc v x q i : q <> [] ->
  node v x (q ++ [i]) = if node v x q =? 0 then 0 else entry (v_blk v (i_dev x, node v x q)) i.
Proof. intros Hq. destruct q as [|t r]; [done|]. cbn [app node]. destruct (i_addr x t); [apply walk_snoc|done]. Qed.

Lemma node_one v x t : node v x [t] = default 0 (i_addr x t).
Proof. simpl. by destruct (i_addr x t). Qed.

(** Below a hole there are holes. *)
Lemma node_hole v x p r : p <> [] -> node v x p = 0 -> node v x (p ++ r) = 0.
Proof.
  intros Hp H0. induction r as [|i r IH] using rev_ind; [by rewrite app_nil_r|].
  rewrite app_assoc, node_snoc by (by destruct p). by rewrite IH.
Qed.

(** Nodes depend on the blocks of the nodes before them only. *)
Lemma node_frame v v' x q : fpath q ->
  (forall p, fpath p -> ~ leaf p -> node v x p <> 0 -> v_blk v' (i_dev x, node v x p) = v_blk v (i_dev x, node v x p)) ->
  node v' x q = node v x q.
Proof.
  intros Hq Hs. induction q as [|i q IH] using rev_ind; [done|]. destruct (decide (q = [])) as [->|Hne].
  - cbn [app]. by rewrite !node_one.
  - destruct (fpath_snoc q i Hq Hne) as (Hfq & Hlf & _). rewrite !node_snoc by done. rewrite (IH Hfq).
    destruct (Z.eqb_spec (node v x q) 0) as [E|E]; [done|]. by rewrite Hs.
Qed.

(** ** Entries *)

Lemma length_set_entry d i nb : length d = 512%nat -> digit i -> length (set_entry d i nb) = 512%nat.
Proof. intros Hd Hi. unfold digit, NBN in Hi. unfold set_entry. rewrite length_put32; lia. Qed.

Lemma entry_set_entry d i j nb : length d = 512%nat -> digit i -> digit j -> is32 nb ->
  entry (set_entry d i nb) j = if decide (j = i) then nb else entry d j.
Proof.
  intros Hd Hi Hj Hnb. unfold digit, NBN in *. unfold entry, set_entry. destruct (decide (j = i)) as [->|Hne].
  - rewrite get32_put32 by lia. rewrite s32_u32, (s32_small (canl nb)) by (unfold canl; apply s32_range).
    rewrite canl_canl. by apply s32_small.
  - unfold get32. rewrite sub_put32 by lia. done.
Qed.

Lemma entry_zeros j : digit j -> entry (repeat 0 (Z.to_nat BSIZE)) j = 0.
Proof.
  intros Hj. unfold digit, NBN in Hj. unfold entry, get32. change (Z.to_nat BSIZE) with 512%nat.
  assert (sub (repeat 0 512) (Z.to_nat (4 * j)) 4 = repeat 0 4) as ->; [|done].
  unfold sub. rewrite !repeat_replicate, drop_replicate, take_replicate. f_equal. lia.
Qed.

Lemma i_addr_set x t t' nb : length (i_a x) = 52%nat -> 0 <= t < NADDR -> 0 <= t' < NADDR -> is32 nb ->
  i_addr (set_i_addr t nb x) t' = if decide (t' = t) then Some nb else i_addr x t'.
Proof.
  intros Hl Ht Ht' Hnb. unfold NADDR in *. unfold i_addr, set_i_addr. cbn [i_a set_i_a].
  rewrite (proj2 (Z.leb_le 0 t')), (proj2 (Z.ltb_lt t' NADDR)) by (unfold NADDR; lia). cbn [andb].
  destruct (decide (t' = t)) as [->|Hne].
  - rewrite get32_put32 by lia. rewrite s32_u32. by rewrite (s32_small nb).
  - unfold get32. rewrite sub_put32 by lia. done.
Qed.

Lemma length_set_i_addr x t nb : length (i_a x) = 52%nat -> 0 <= t < NADDR -> length (i_a (set_i_addr t nb x)) = 52%nat.
Proof. intros Hl Ht. unfold NADDR in Ht. unfold set_i_addr. cbn [i_a set_i_a]. rewrite length_put32; lia. Qed.

(** ** Adding one block to a file *)

Definition zeros : list Z := repeat 0 (Z.to_nat BSIZE).

Lemma tree_super v x f l p : tree v x f l -> 2 <= s_isize f -> fpath p -> node v x p <> 0 -> node v x p <> SUPERI.
Proof. intros Ht Hi Hp Hn. destruct (tr_in _ _ _ _ Ht p Hp Hn) as [Ho _]. by destruct (inside_super f _ Hi Ho). Qed.

Section grow.
Context (v v' : bview) (x x' : INODE) (f : filsys) (l : list Z) (p' : list Z) (nb : Z).
Local Abbreviation dev := (i_dev x).
Context (Ht : tree v x f (nb :: l)) (Hi2 : 2 <= s_isize f) (Hp' : fpath p') (Hold : node v x p' = 0)
  (Hnb : is32 nb) (Hnb0 : nb <> 0) (Hnd : NoDup (nb :: l)) (Hout : outside f nb = false)
  (Hzero : v_blk v' (dev, nb) = zeros) (Hdev : i_dev x' = dev) (Hlen : length (i_a x') = 52%nat).

Lemma nb_fresh p : fpath p -> node v x p <> nb.
Proof.
  intros Hp E. destruct (tr_in _ _ _ _ Ht p Hp) as [_ Hin]; [by rewrite E|]. apply Hin. rewrite E. by constructor.
Qed.

Lemma tree_extend :
  (forall q, fpath q -> node v' x' q = if decide (q = p') then nb else node v x q) ->
  (forall b, length (v_blk v (dev, b)) = 512%nat -> b <> nb -> b <> SUPERI -> length (v_blk v' (dev, b)) = 512%nat) ->
  tree v' x' f l.
Proof.
  intros Hn Hsz. split.
  - intros p q Hp Hq. rewrite !Hn by done. destruct (decide (p = p')) as [->|Hpp], (decide (q = p')) as [->|Hqp]; try done.
    + intros E _. by destruct (nb_fresh q Hq).
    + intros E _. by destruct (nb_fresh p Hp).
    + intros E Hne. by apply (tr_inj _ _ _ _ Ht).
  - intros p Hp. rewrite Hn by done. destruct (decide (p = p')) as [->|Hpp]; intros Hne.
    + apply NoDup_cons in Hnd as [? _]. done.
    + destruct (tr_in _ _ _ _ Ht p Hp Hne) as [? Hin]. split; [done|]. intros Hl. apply Hin. by constructor.
  - done.
  - intros p Hp. rewrite Hn, Hdev by done. destruct (decide (p = p')) as [->|Hpp]; intros Hne Hlf.
    + by rewrite Hzero.
    + apply Hsz; [by apply (tr_blk _ _ _ _ Ht)| |by eapply tree_super].
      by apply nb_fresh.
Qed.

(** By an entry of an indirect block. *)
Lemma node_set_entry p i : p' = p ++ [i] -> p <> [] -> node v x p <> 0 -> x' = x ->
  v_blk v' (dev, node v x p) = set_entry (v_blk v (dev, node v x p)) i nb ->
  (forall b, b <> node v x p -> b <> nb -> b <> SUPERI -> v_blk v' (dev, b) = v_blk v (dev, b)) ->
  forall q, fpath q -> node v' x' q = if decide (q = p') then nb else node v x q.
Proof.
  intros -> Hpne Hpn -> Hset Hsame q Hq. destruct (fpath_snoc p i Hp' Hpne) as (Hp & Hplf & Hi).
  induction q as [|j q IH] using rev_ind; [done|]. destruct (decide (q = [])) as [->|Hne].
  - cbn [app]. rewrite !node_one. rewrite decide_False; [done|].
    intros [E _]%(app_inj_2 [] p [j] [i]); [|done]. by destruct Hpne.
  - destruct (fpath_snoc q j Hq Hne) as (Hfq & Hlf & Hj). rewrite node_snoc by done. rewrite (IH Hfq).
    destruct (decide (q = p ++ [i])) as [->|Hqp].
    + rewrite (proj2 (Z.eqb_neq nb 0)) by done. rewrite Hzero. unfold zeros. rewrite entry_zeros by done.
      rewrite decide_False by (intros E; apply (f_equal length) in E; rewrite !length_app in E; simpl in E; lia).
      symmetry. by apply node_hole.
    + rewrite (node_snoc v x q) by done. destruct (Z.eqb_spec (node v x q) 0) as [E|E].
      { rewrite decide_False; [done|]. intros [Eq _]%app_inj_2; [|done]. by subst q. }
      destruct (decide (q = p)) as [->|Hqp'].
      * rewrite Hset. rewrite entry_set_entry; [|by apply (tr_blk _ _ _ _ Ht)|done|done|done].
        destruct (decide (j = i)) as [->|Hji]; [by rewrite decide_True|].
        rewrite decide_False; [done|]. intros [_ Eq]%app_inj_2; [|done]. by injection Eq.
      * rewrite Hsame.
        -- rewrite decide_False; [done|]. by intros [Eq _]%app_inj_2.
        -- intros E'. apply Hqp'. by apply (tr_inj _ _ _ _ Ht).
        -- by apply nb_fresh.
        -- by eapply tree_super.
Qed.

(** By an index of the inode. *)
Lemma node_set_addr t : p' = [t] -> x' = set_i_addr t nb x ->
  (forall b, b <> nb -> b <> SUPERI -> v_blk v' (dev, b) = v_blk v (dev, b)) ->
  forall q, fpath q -> node v' x' q = if decide (q = p') then nb else node v x q.
Proof.
  intros -> -> Hsame q Hq. destruct Hp' as (Htr & _).
  induction q as [|j q IH] using rev_ind; [done|]. destruct (decide (q = [])) as [->|Hne].
  - cbn [app] in *. destruct Hq as (Hj & _). rewrite !node_one, i_addr_set by (done || apply Ht).
    destruct (decide (j = t)) as [->|Hjt]; [by rewrite decide_True|]. rewrite decide_False by congruence. done.
  - destruct (fpath_snoc q j Hq Hne) as (Hfq & Hlf & Hj). rewrite node_snoc by done. rewrite (IH Hfq).
    rewrite (decide_False (P := q ++ [j] = [t])).
    2: { intros E. apply (f_equal length) in E. rewrite length_app in E. destruct q; [done|]. simpl in E. lia. }
    destruct (decide (q = [t])) as [->|Hqp].
    + rewrite (proj2 (Z.eqb_neq nb 0)) by done. change (i_dev (set_i_addr t nb x)) with dev. rewrite Hzero.
      unfold zeros. rewrite entry_zeros by done. symmetry. by apply node_hole.
    + rewrite (node_snoc v x q) by done. destruct (Z.eqb_spec (node v x q) 0) as [E|E]; [done|].
      change (i_dev (set_i_addr t nb x)) with dev. rewrite Hsame; [done|by apply nb_fresh|by eapply tree_super].
Qed.
End grow.

(** What taking blocks from the list [l] for the path [q] does to a file. *)
Record growth (f : filsys) (q : list Z) (v : bview) (x : INODE) (l : list Z) (v' : bview) (x' : INODE) (l' : list Z) : Prop := {
  gr_dev : i_dev x' = i_dev x;
  gr_tree : tree v' x' f l';
  gr_list : exists nbs, l = nbs ++ l';
  gr_node : forall p, fpath p -> node v x p <> 0 -> node v' x' p = node v x p;
  gr_new : forall p, fpath p -> node v x p = 0 -> node v' x' p <> 0 -> (exists r, q = p ++ r) /\ node v' x' p ∈ l;
  gr_blk : forall k, (k.1 = i_dev x -> k.2 <> SUPERI /\ (k.2 ∉ l) /\
      forall p, fpath p -> ~ leaf p -> node v x p <> 0 -> node v x p <> k.2) ->
    v_blk v' k = v_blk v k;
  gr_zero : node v x q = 0 -> node v' x' q <> 0 -> v_blk v' (i_dev x, node v' x' q) = zeros
}.

(** Views with the same blocks, but for the super block. *)
Definition blk_but (dev : Z) (v v' : bview) : Prop := forall k, k <> (dev, SUPERI) -> v_blk v' k = v_blk v k.

Lemma same_blk_but dev v v' : same_but (dev, SUPERI) v v' -> blk_but dev v v'.
Proof. by intros (_ & _ & ?). Qed.

Lemma node_blk_but v v' x f l p : tree v x f l -> 2 <= s_isize f -> blk_but (i_dev x) v v' -> fpath p -> node v' x p = node v x p.
Proof.
  intros Ht Hi Hb Hp. apply node_frame; [done|]. intros p' Hp' _ Hn. apply Hb. intros [= E]. by eapply tree_super.
Qed.

Lemma tree_blk_but v v' x f l : tree v x f l -> 2 <= s_isize f -> blk_but (i_dev x) v v' -> tree v' x f l.
Proof.
  intros Ht Hi Hb. assert (forall p, fpath p -> node v' x p = node v x p) as Hn by (intros; by eapply node_blk_but).
  split.
  - intros p p' Hp Hp'. rewrite !Hn by done. by apply Ht.
  - intros p Hp. rewrite Hn by done. by apply Ht.
  - apply Ht.
  - intros p Hp. rewrite Hn by done. intros Hne Hlf. rewrite Hb by (intros [= E]; by eapply tree_super). by apply Ht.
Qed.

Lemma growth_same f q v x l v' : fpath q -> tree v x f l -> 2 <= s_isize f -> blk_but (i_dev x) v v' -> growth f q v x l v' x l.
Proof.
  intros Hq Ht Hi Hb. assert (forall p, fpath p -> node v' x p = node v x p) as Hn by (intros; by eapply node_blk_but).
  split; [done|by eapply tree_blk_but|by exists []|..].
  - intros p Hp _. by apply Hn.
  - intros p Hp E. by rewrite Hn, E.
  - intros [d b] Hk. apply Hb. intros [= -> ->]. by destruct (Hk eq_refl).
  - intros E. by rewrite Hn, E.
Qed.

Lemma growth_one f q v x l v' x' p' nb r :
  tree v' x' f l -> i_dev x' = i_dev x -> q = p' ++ r ->
  (forall p, fpath p -> node v' x' p = if decide (p = p') then nb else node v x p) ->
  node v x p' = 0 -> v_blk v' (i_dev x, nb) = zeros -> fpath q ->
  (forall k, (k.1 = i_dev x -> k.2 <> SUPERI /\ k.2 <> nb /\
      forall p, fpath p -> ~ leaf p -> node v x p <> 0 -> node v x p <> k.2) -> v_blk v' k = v_blk v k) ->
  growth f q v x (nb :: l) v' x' l.
Proof.
  intros Ht Hd Hq Hn Hold Hz Hfq Hb. split; try done.
  - by exists [nb].
  - intros p Hp Hne. rewrite Hn by done. destruct (decide (p = p')) as [->|]; [done|done].
  - intros p Hp E. rewrite Hn by done. destruct (decide (p = p')) as [->|]; [|done]. intros _. split; [by exists r|constructor].
  - intros k Hk. apply Hb. intros Ek. destruct (Hk Ek) as (? & Hin & ?). split; [done|]. split; [|done].
    intros E. apply Hin. rewrite E. constructor.
  - intros E. rewrite Hn by done. by destruct (decide (q = p')) as [<-|].
Qed.

Lemma growth_trans f q v x l v1 x1 l1 v2 x2 l2 : fpath q -> leaf q -> 2 <= s_isize f ->
  growth f q v x l v1 x1 l1 -> growth f q v1 x1 l1 v2 x2 l2 -> growth f q v x l v2 x2 l2.
Proof.
  intros Hq Hlf Hi [D1 T1 [n1 ->] N1 W1 B1 Z1] [D2 T2 [n2 ->] N2 W2 B2 Z2].
  assert (forall b, b ∉ n1 ++ n2 ++ l2 -> b ∉ n2 ++ l2) as Hsub by (intros b Hb Hc; apply Hb, elem_of_app; by right).
  split; [congruence|done|exists (n1 ++ n2); by rewrite <- app_assoc|..].
  - intros p Hp Hne. pose proof (N1 p Hp Hne) as E. rewrite <- E in Hne |- *. by apply N2.
  - intros p Hp E Hne. destruct (decide (node v1 x1 p = 0)) as [E1|E1].
    + destruct (W2 p Hp E1 Hne) as [? Hin]. split; [done|]. apply elem_of_app. by right.
    + rewrite (N2 p Hp E1). by apply W1.
  - intros k Hk. rewrite B2; [by apply B1|]. rewrite D1. intros Ek. destruct (Hk Ek) as (Hs & Hin & Hnode).
    split; [done|]. split; [by apply Hsub|]. intros p Hp Hpl Hne E.
    destruct (decide (node v x p = 0)) as [E0|E0].
    + destruct (W1 p Hp E0 Hne) as [_ Hin']. by rewrite E in Hin'.
    + apply (Hnode p Hp Hpl E0). by rewrite <- (N1 p Hp E0).
  - intros E Hne. destruct (decide (node v1 x1 q = 0)) as [E1|E1]; [rewrite <- D1; by apply Z2|].
    rewrite (N2 q Hq E1). rewrite <- Z1 by done. apply B2. rewrite D1. cbn [fst snd]. intros _.
    destruct (tr_in _ _ _ _ T1 q Hq E1) as [_ Hin].
    split; [by eapply tree_super|]. split; [done|]. intros p Hp Hpl Hpn Epq.
    assert (p = q) as -> by (by apply (tr_inj _ _ _ _ T1)). done.
Qed.

(** ** aread *)

Section aread.
Context {C : Type} `{BufCacheLaws C}.
Context (retry : nat) (Hretry : (0 < retry)%nat).
Context (s0 : fs C) (x : INODE) (mp : MOUNT) (e : Z) (f0 : filsys) (q : list Z) (fflag : bool).
Local Abbreviation dev := (i_dev x).
Context (Hlk : m_flock mp = false) (Hro : Z.land (m_flag mp) MFRON = 0) (Hi2 : 2 <= s_isize f0)
  (Hq : fpath q) (Hleaf : leaf q) (Hnodev : dev <> NODEV).

(** A state between two steps: no buffer is held, the free list is [l], and
    the super block bounds the same data area. *)
Record between (v : bview) (f : filsys) (l : list Z) (er : Z) (s : fs C) : Prop := {
  bt_at : fs_at s0 dev (set_m_super f mp) v er s;
  bt_held : v_held v = ∅;
  bt_good : forall b, v_good v (dev, b) = true;
  bt_free : freelist dev v f l;
  bt_area : s_isize f = s_isize f0 /\ s_fsize f = s_fsize f0
}.

(** [aread] returned the buffer [h]: held, on the block of the path, with the
    data the file has there in the view [v'], the rest of which is on disk. *)
Definition got_block (v : bview) (l : list Z) (h : nat) (s' : fs C) : Prop :=
  exists v' vd f' l' md d, let b := node v' x q in
    fs_at s0 dev (set_m_super f' mp) (put_held h (Hbuf (dev, b) md d) vd) e s' /\
    v_held vd = ∅ /\ (forall b, v_good vd (dev, b) = true) /\ b <> 0 /\
    (forall k, k <> (dev, b) -> v_blk vd k = v_blk v' k) /\ (md = false -> v_blk vd (dev, b) = d) /\
    d = (if fflag then zeros else v_blk v' (dev, b)) /\
    growth f0 q v x l v' x l' /\ freelist dev vd f' l' /\ s_isize f' = s_isize f0 /\ s_fsize f' = s_fsize f0.
(** The free list ran out: what was taken stays with the file. *)
Definition no_block (v : bview) (l : list Z) (s' : fs C) : Prop :=
  exists v' f', between v' f' [] ENOSPC s' /\ growth f0 q v x l v' x [] /\ node v' x q = 0.
Definition aread_post (v : bview) (l : list Z) (o : option nat) (s' : fs C) : Prop :=
  match o with Some h => got_block v l h s' | None => no_block v l s' end.

Lemma aread_post_trans v l v1 l1 o s' : growth f0 q v x l v1 x l1 -> aread_post v1 l1 o s' -> aread_post v l o s'.
Proof.
  intros Hg. destruct o as [h|]; simpl.
  - intros (v' & vd & f' & l' & md & d & A1 & A2 & A3 & A4 & A5 & A6 & A7 & A8 & A9 & A10 & A11).
    exists v', vd, f', l', md, d. cbn zeta. split_and!; try done. exact (growth_trans _ _ _ _ _ _ _ _ _ _ _ Hq Hleaf Hi2 Hg A8).
  - intros (v' & f' & A1 & A2 & A3). exists v', f'. split; [done|]. split; [|done]. exact (growth_trans _ _ _ _ _ _ _ _ _ _ _ Hq Hleaf Hi2 Hg A2).
Qed.

Lemma freelist_blk v v' f l : freelist dev v f l -> (forall b, b ∈ l -> v_blk v' (dev, b) = v_blk v (dev, b)) ->
  v_blk v' (dev, SUPERI) = v_blk v (dev, SUPERI) -> freelist dev v' f l.
Proof.
  intros [Hl Hok Hi Hin Hnd Hdi] Hb Hs. split; try done.
  - eapply flist_frame; [done|]. done.
  - intros Hm. unfold dirty_on_disk, on_disk. rewrite Hs. by apply Hdi.
Qed.

Lemma empty_room v h b : v_held v = ∅ -> room (put_held h b v).
Proof. intros Ev. unfold room. cbn. rewrite Ev, insert_empty, map_size_singleton. unfold NHOLD. lia. Qed.

Lemma held_one v h b : v_held v = ∅ -> h_key b <> (dev, SUPERI) -> unheld (dev, SUPERI) (put_held h b v).
Proof.
  intros Ev Hk h' b'. cbn. rewrite Ev. destruct (decide (h' = h)) as [->|Hne].
  - rewrite lookup_insert_eq. by intros [= <-].
  - rewrite lookup_insert_ne by done. by rewrite lookup_empty.
Qed.

Lemma between_unheld v f l er s b : between v f l er s -> unheld (dev, b) v.
Proof. intros Hb. apply unheld_none. by apply Hb. Qed.
Lemma between_room v f l er s : between v f l er s -> room v.
Proof. intros Hb. unfold room. rewrite (bt_held _ _ _ _ _ Hb). rewrite map_size_empty. unfold NHOLD. lia. Qed.

(** The view after a buffer over [v] was dropped. *)
Lemma held_back v v1 h b : v_held v1 = v_held (put_held h b v) -> v_held v = ∅ ->
  v1 = put_held h b (View (v_blk v1) ∅ (v_good v1)).
Proof. intros E Ev. destruct v1 as [bl he go]. cbn in *. unfold put_held. cbn. by rewrite E, Ev. Qed.

(** What the loop knows: the block [pb] of the path so far, which when
    [aflag] is set counts as cleared although the disk does not say so. *)
Record looping (p : list Z) (pb : Z) (aflag : bool) (w : bview) (l : list Z) (v : bview) (f : filsys) (s : fs C) : Prop := {
  lo_between : between v f l e s;
  lo_same : forall k, k <> (dev, pb) -> v_blk w k = v_blk v k;
  lo_pb : v_blk w (dev, pb) = if aflag then zeros else v_blk v (dev, pb);
  lo_path : p <> [] /\ fpath p;
  lo_node : node w x p = pb;
  lo_nz : pb <> 0;
  lo_tree : tree w x f0 l
}.

Lemma lo_super p pb aflag w l v f s : looping p pb aflag w l v f s -> pb <> SUPERI.
Proof. intros [_ _ _ [_ Hp] Hn Hz Ht]. rewrite <- Hn. eapply tree_super; [done|done|done|by rewrite Hn]. Qed.
Lemma lo_notin p pb aflag w l v f s : looping p pb aflag w l v f s -> pb ∉ l.
Proof. intros [_ _ _ [_ Hp] Hn Hz Ht]. rewrite <- Hn. apply Ht; [done|by rewrite Hn]. Qed.

(** Getting the buffer of the block. *)
Lemma wp_loop_buf p pb aflag w l v f s clear (Q : option nat -> fs C -> Prop) : looping p pb aflag w l v f s ->
  (aflag = true -> clear = true) ->
  (forall h md s1, fs_at s0 dev (set_m_super f mp)
     (put_held h (Hbuf (dev, pb) md (if clear then zeros else v_blk w (dev, pb))) v) e s1 ->
     (md = false -> v_blk v (dev, pb) = if clear then zeros else v_blk w (dev, pb)) -> Q (Some h) s1) ->
  wp (if negb clear then bread dev pb else bp <- kclaim dev pb ;; setmod bp ;;; kret (Some bp)) Q s.
Proof.
  intros [Hb _ Hpb _ _ _ _] Hcl HQ. pose proof (between_room _ _ _ _ _ Hb) as Hroom. pose proof (between_unheld _ _ _ _ _ pb Hb) as Hun.
  destruct clear; cbn [negb].
  - apply wp_bind. eapply wp_kclaim; [by apply Hb|done|done|]. intros h s1 Hh Hat1.
    apply wp_bind. eapply wp_setmod; [done|apply held_put|]. intros s2 Hat2. rewrite put_put in Hat2.
    apply wp_ret. by eapply (HQ h true).
  - destruct aflag; [by specialize (Hcl eq_refl)|]. rewrite Hpb in HQ.
    eapply wp_bread; [by apply Hb|done|done|by apply Hb|done|]. intros h s1 Hh Hat1. by eapply (HQ h false).
Qed.

(** A block of the file is released: the disk has what the view says. *)
Lemma release_block v f l er s h md d b (Q : unit -> fs C -> Prop) :
  fs_at s0 dev (set_m_super f mp) (put_held h (Hbuf (dev, b) md d) v) er s -> v_held v = ∅ ->
  (forall b', v_good v (dev, b') = true) -> freelist dev v f l -> s_isize f = s_isize f0 /\ s_fsize f = s_fsize f0 ->
  b <> SUPERI -> b ∉ l -> (md = false -> v_blk v (dev, b) = d) ->
  (forall v' s', between v' f l er s' -> v_blk v' (dev, b) = d -> (forall k, k <> (dev, b) -> v_blk v' k = v_blk v k) -> Q tt s') ->
  wp (brelease h) Q s.
Proof.
  intros Hat Hh Hg Hfl Ha Hs Hb Hmd HQ. eapply wp_brelease; [done|apply held_put| |].
  { destruct md; [apply Hg|]. left. cbn. by rewrite Hmd. }
  intros s1 Hat1. set (v' := if md then put_blk (dev, b) d v else v).
  assert (drop_held h (released (Hbuf (dev, b) md d) (put_held h (Hbuf (dev, b) md d) v)) = v') as E.
  { unfold v', released, drop_held, put_held, put_blk. destruct md, v as [bl he go]; cbn in *;
      rewrite delete_insert_id by (by rewrite Hh); done. }
  rewrite E in Hat1. assert (v_blk v' (dev, b) = d) as Eb.
  { unfold v'. destruct md; [apply blk_put|by apply Hmd]. }
  assert (forall k, k <> (dev, b) -> v_blk v' k = v_blk v k) as Ek.
  { intros k Hk. unfold v'. destruct md; [by apply blk_put_ne|done]. }
  apply (HQ v'); [|done|done]. split; [done|by unfold v'; destruct md|by unfold v'; destruct md| |done].
  eapply freelist_blk; [done| |].
  - intros b' Hb'. apply Ek. intros [= ->]. done.
  - apply Ek. intros [= E']. congruence.
Qed.

(** One more block is taken for the path. *)
Lemma growth_entry w l nb p pb i lp v2 w2 : tree w x f0 (nb :: l) -> q = p ++ i :: lp -> p <> [] -> fpath (p ++ [i]) ->
  node w x p = pb -> pb <> 0 -> node w x (p ++ [i]) = 0 -> is32 nb -> nb <> 0 -> NoDup (nb :: l) -> outside f0 nb = false ->
  v_blk v2 (dev, pb) = set_entry (v_blk w (dev, pb)) i nb ->
  (forall k, k <> (dev, pb) -> k <> (dev, SUPERI) -> v_blk v2 k = v_blk w k) ->
  (forall k, k <> (dev, nb) -> v_blk w2 k = v_blk v2 k) -> v_blk w2 (dev, nb) = zeros ->
  growth f0 q w x (nb :: l) w2 x l /\ node w2 x (p ++ [i]) = nb.
Proof.
  intros Ht Eq Hpne Hpi Hn Hpb Hold H32 Hnb Hnd Hout Hset Hsame Hw2 Hz.
  destruct (fpath_snoc p i Hpi Hpne) as (Hp & Hplf & Hi).
  assert (pb <> nb) as Hpn by (rewrite <- Hn; by eapply nb_fresh).
  assert (pb <> SUPERI) as Hps. { rewrite <- Hn. eapply tree_super. all: try done. by rewrite Hn. }
  assert (v_blk w2 (dev, pb) = set_entry (v_blk w (dev, pb)) i nb) as Hset2 by (rewrite Hw2; [done|by intros [= ->]]).
  assert (forall b, b <> pb -> b <> nb -> b <> SUPERI -> v_blk w2 (dev, b) = v_blk w (dev, b)) as Hs2.
  { intros b H1 H2 H3. rewrite Hw2 by (by intros [= ->]). apply Hsame; intros [= E]; congruence. }
  assert (forall q', fpath q' -> node w2 x q' = if decide (q' = p ++ [i]) then nb else node w x q') as Hnode.
  { rewrite <- Hn in Hset2, Hs2. eapply (node_set_entry w w2 x x f0 l (p ++ [i]) nb). all: try done. all: first [by apply (tr_len _ _ _ _ Ht)|by rewrite Hn]. }
  split; [|rewrite Hnode by done; by rewrite decide_True].
  eapply (growth_one f0 q w x l w2 x (p ++ [i]) nb lp); try done.
  - eapply (tree_extend w w2 x x f0 l (p ++ [i]) nb); try done; [apply Ht|].
    intros b Hlen H1 H2. destruct (decide (b = pb)) as [->|H3]; [|by rewrite Hs2].
    rewrite Hset2. by apply length_set_entry.
  - by rewrite <- app_assoc.
  - intros [d b] Hk. destruct (decide (d = dev)) as [->|Hd].
    + destruct (Hk eq_refl) as (H1 & H2 & H3). apply Hs2; [|done|done]. cbn in H3. rewrite <- Hn. intros ->.
      apply (H3 p Hp Hplf); [by rewrite Hn|done].
    + rewrite Hw2 by congruence. apply Hsame; congruence.
Qed.

(** [aread] at a hole below the block [pb], whose buffer it holds. *)
Lemma wp_grow_step p pb i lp w l vd f h md s (k : Z -> bool -> M (fs C) (option nat)) :
  tree w x f0 l -> q = p ++ i :: lp -> p <> [] -> fpath (p ++ [i]) -> node w x p = pb -> pb <> 0 ->
  node w x (p ++ [i]) = 0 -> pb <> SUPERI -> pb ∉ l -> NoDup l -> Forall (fun b => outside f0 b = false) l ->
  fs_at s0 dev (set_m_super f mp) (put_held h (Hbuf (dev, pb) md (v_blk w (dev, pb))) vd) (match l with [] => ENOSPC | _ => e end) s ->
  v_held vd = ∅ -> (forall b, v_good vd (dev, b) = true) -> freelist dev vd f (tl l) ->
  s_isize f = s_isize f0 /\ s_fsize f = s_fsize f0 -> (md = false -> v_blk vd (dev, pb) = v_blk w (dev, pb)) ->
  (forall k, k <> (dev, SUPERI) -> k <> (dev, pb) -> v_blk vd k = v_blk w k) ->
  (forall nb l' w2 v2 s', looping (p ++ [i]) nb true w2 l' v2 f s' -> wp (k nb true) (aread_post w2 l') s') ->
  wp (let pb := hd 0 l in
      if pb =? 0 then brelease h ;;; kret None else
      store h (fun d => set_entry d i pb) ;;;
      setmod h ;;;
      brelease h ;;;
      k pb true) (aread_post w l) s.
Proof.
  intros Ht Eq Hpne Hpi Hn Hz Hold Hps Hpl Hnd Hin Hat Hh Hg Hfl Ha Hmd Hvd Hk. destruct l as [|nb l]; cbn [hd tl] in *.
  - change (0 =? 0) with true. cbv zeta iota. apply wp_bind. eapply release_block; [exact Hat|done|done|done|done|done|done|done|].
    intros v2 s3 Hb2 Hv2 Hs2. apply wp_ret. exists v2, f. split; [done|].
    assert (blk_but dev w v2) as Hbb.
    { intros k' Hk'. destruct (decide (k' = (dev, pb))) as [->|Hne]; [done|]. rewrite Hs2 by done. by apply Hvd. }
    split; [by apply growth_same|]. erewrite node_blk_but; [|done|done|done|done].
    rewrite Eq. change (i :: lp) with ([i] ++ lp). rewrite app_assoc. apply node_hole; [by destruct p|done].
  - pose proof Hin as [Hout0 _]%Forall_cons.
    destruct (inside_super f0 nb Hi2 Hout0) as (_ & Hnb0 & Hr). cbv zeta. rewrite (proj2 (Z.eqb_neq nb 0)) by done.
    apply not_elem_of_cons in Hpl as [Hpnb Hpl]. destruct (fpath_snoc p i Hpi Hpne) as (Hp & Hplf & Hi).
    apply wp_bind. eapply wp_store; [done|apply held_put| |].
    { cbn [h_data]. rewrite length_set_entry; [done| |done]. rewrite <- Hn. apply (tr_blk _ _ _ _ Ht); [done|by rewrite Hn|done]. }
    intros s1 Hat1. rewrite put_put in Hat1. cbn [h_key h_mod h_data] in Hat1.
    apply wp_bind. eapply wp_setmod; [done|apply held_put|]. intros s2 Hat2. rewrite put_put in Hat2. cbn [h_key h_mod h_data] in Hat2.
    apply wp_bind. eapply release_block; [exact Hat2|done|done|done|done|done|done|done|].
    intros v2 s3 Hb2 Hv2 Hs2. set (w2 := put_blk (dev, nb) zeros v2).
    assert (is32 nb) as H32.
    { pose proof (so_long _ (fr_ok _ _ _ _ Hfl)) as Hlg. apply Forall_cons in Hlg as [Hlg _]. destruct Ha as [_ Ha]. unfold is32 in *. lia. }
    destruct (growth_entry w l nb p pb i lp v2 w2) as [Hgr Hnode]; try done.
    { intros k' H1 H2. rewrite Hs2 by done. by apply Hvd. }
    { intros k' H1. by apply blk_put_ne. }
    { apply blk_put. }
    eapply wp_mono; [apply (Hk nb l w2 v2 s3)|].
    + split; [exact Hb2| |apply blk_put|split; [by destruct p|done]|exact Hnode|done|by apply Hgr].
      intros k' Hk'. by apply blk_put_ne.
    + intros o s4 Ho. by eapply aread_post_trans.
Qed.

Lemma wp_aread_loop lp : forall p pb aflag w l v f s, looping p pb aflag w l v f s -> q = p ++ lp ->
  wp (aread_loop retry dev fflag lp pb aflag) (aread_post w l) s.
Proof.
  induction lp as [|i lp IH]; intros p pb aflag w l v f s Hlo Eq; cbn [aread_loop].
  - rewrite app_nil_r in Eq. subst p. pose proof Hlo as [Hb Hsame Hpb _ Hn Hz Ht].
    replace (negb aflag && negb fflag) with (negb (aflag || fflag)) by (by destruct aflag, fflag).
    eapply wp_loop_buf; [done|by intros ->|]. intros h md s1 Hat1 Hmd.
    exists w, v, f, l, md, (if aflag || fflag then zeros else v_blk w (dev, pb)). rewrite Hn. cbn zeta.
    split; [exact Hat1|]. split; [by apply Hb|]. split; [by apply Hb|]. split; [done|].
    split; [intros k Hk; by rewrite Hsame|]. split; [done|].
    split; [rewrite Hpb; by destruct aflag, fflag|]. split; [by apply growth_same|]. split; by apply Hb.
  - pose proof Hlo as [Hb Hsame Hpb [Hpne Hp] Hn Hz Ht]. pose proof (lo_super _ _ _ _ _ _ _ _ Hlo) as Hps.
    pose proof (lo_notin _ _ _ _ _ _ _ _ Hlo) as Hpl.
    assert (fpath (p ++ [i])) as Hpi.
    { rewrite Eq in Hq. clear - Hq Hpne. destruct p as [|t r]; [done|]. cbn [app fpath] in *.
      destruct Hq as (H1 & H2 & H3). rewrite length_app in H2 |- *. simpl in *. split; [done|]. split; [lia|].
      apply Forall_app in H3 as [H3 H4]. apply Forall_cons in H4 as [H4 _]. apply Forall_app. split; [done|]. by apply Forall_singleton. }
    apply wp_bind. eapply (wp_loop_buf p pb aflag w l v f s aflag); [done|done|]. intros h md s1 Hat1 Hmd.
    assert ((if aflag then zeros else v_blk w (dev, pb)) = v_blk w (dev, pb)) as Ed.
    { destruct aflag; [by rewrite Hpb|done]. } rewrite Ed in Hat1, Hmd.
    apply wp_bind. eapply wp_vaddr; [done|apply held_put|]. cbn [h_data].
    assert (node w x (p ++ [i]) = entry (v_blk w (dev, pb)) i) as Ent.
    { rewrite node_snoc by done. rewrite Hn. by rewrite (proj2 (Z.eqb_neq pb 0)). }
    rewrite <- Ent. destruct (Z.eqb_spec (node w x (p ++ [i])) 0) as [E0|E0].
    + pose proof Hb as [_ Hh Hg Hfl Ha].
      assert (ready dev (put_held h (Hbuf (dev, pb) md (v_blk w (dev, pb))) v)) as Hrd.
      { split; [apply held_one; [done|cbn; by intros [= ->]]|by apply empty_room|done|done]. }
      apply wp_bind. eapply (wp_balloc_at retry Hretry); [exact Hat1|exact Hrd| |done|done|by eapply freelist_blk; [exact Hfl|..]|].
      { intros b Hbl h' b'. cbn. rewrite Hh, insert_empty. intros [_ <-]%lookup_singleton_Some. cbn. by intros [= ->]. }
      intros v1 f1 s2 Hat2 Hs Hfl1 Hct. pose proof (held_back _ _ _ _ (proj1 Hs) Hh) as Ev1.
      set (vd := View (v_blk v1) ∅ (v_good v1)) in *. rewrite Ev1 in Hat2.
      assert (forall b, v_good vd (dev, b) = true) as Hgd by (intros b; cbn; rewrite (proj1 (proj2 Hs)); apply Hg).
      assert (s_isize f1 = s_isize f0 /\ s_fsize f1 = s_fsize f0) as Ha1.
      { destruct Hct as [E1 E2 _ _]. cbn in E1, E2. destruct Ha. split; congruence. }
      assert (forall k, k <> (dev, SUPERI) -> k <> (dev, pb) -> v_blk vd k = v_blk w k) as Hvd.
      { intros k H1 H2. cbn. rewrite (proj2 (proj2 Hs)) by done. cbn. by rewrite Hsame. }
      apply (freelist_blk _ vd) in Hfl1; [|done|done].
      eapply (wp_grow_step p pb i lp w l vd f1 h md); try done.
      * apply Hfl.
      * eapply Forall_impl; [apply Hfl|]. intros b. unfold outside. by destruct Ha as [-> ->].
      * intros Emd. rewrite <- (Hmd Emd). cbn. rewrite (proj2 (proj2 Hs)); [done|]. by intros [= E].
      * intros nb l' w2 v2 s' Hlo'. apply (IH _ _ _ _ _ _ _ _ Hlo'). by rewrite <- app_assoc.
    + apply wp_bind. eapply release_block; [exact Hat1|by apply Hb|by apply Hb|by apply Hb|by apply Hb|done|done|done|].
      intros v2 s2 Hb2 Hv2 Hs2. assert (forall k, v_blk v2 k = v_blk w k) as Ew.
      { intros k. destruct (decide (k = (dev, pb))) as [->|Hk]; [done|]. by rewrite Hs2, Hsame. }
      assert (blk_but dev w v2) as Hbb by by intros k _.
      eapply wp_mono; [apply (IH (p ++ [i]) _ false v2 l v2 f s2); [|by rewrite <- app_assoc]|].
      * split; try done; [|by eapply node_blk_but|by eapply tree_blk_but]. split; [by destruct p|done].
      * intros o s3 Ho. eapply aread_post_trans; [|exact Ho]. by apply growth_same.
Qed.
End aread.

(** What [aread] leaves: the inode is now [x'], and the file has grown. *)
Definition aread_result {C} `{BufCacheLaws C} (s0 : fs C) (mp : MOUNT) (e : Z) (f0 : filsys) (q : list Z) (fflag : bool)
    (v : bview) (x : INODE) (l : list Z) (x' : INODE) (o : option nat) (s' : fs C) : Prop :=
  match o with
  | Some h => exists v' vd f' l' md d, let b := node v' x' q in
    fs_at s0 (i_dev x) (set_m_super f' mp) (put_held h (Hbuf (i_dev x, b) md d) vd) e s' /\
    v_held vd = ∅ /\ (forall b, v_good vd (i_dev x, b) = true) /\ b <> 0 /\
    (forall k, k <> (i_dev x, b) -> v_blk vd k = v_blk v' k) /\ (md = false -> v_blk vd (i_dev x, b) = d) /\
    d = (if fflag then zeros else v_blk v' (i_dev x, b)) /\
    growth f0 q v x l v' x' l' /\ freelist (i_dev x) vd f' l' /\ s_isize f' = s_isize f0 /\ s_fsize f' = s_fsize f0
  | None => exists v' f', between s0 x' mp f0 v' f' [] ENOSPC s' /\ growth f0 q v x l v' x' [] /\ node v' x' q = 0
  end.

Section aread_top.
Context {C : Type} `{BufCacheLaws C}.
Context (retry : nat) (Hretry : (0 < retry)%nat).

Lemma aread_post_result (s0 : fs C) mp e f0 q fflag v x l v1 x' l1 o s' : fpath q -> leaf q -> 2 <= s_isize f0 ->
  growth f0 q v x l v1 x' l1 -> aread_post s0 x' mp e f0 q fflag v1 l1 o s' -> aread_result s0 mp e f0 q fflag v x l x' o s'.
Proof.
  intros Hq Hlf Hi Hg. destruct o as [h|]; simpl.
  - intros (v' & vd & f' & l' & md & d & A1 & A2 & A3 & A4 & A5 & A6 & A7 & A8 & A9 & A10 & A11).
    rewrite (gr_dev _ _ _ _ _ _ _ _ Hg) in *.
    exists v', vd, f', l', md, d. cbn zeta. split_and!; try done. by eapply growth_trans.
  - intros (v' & f' & A1 & A2 & A3). exists v', f'. split; [done|]. split; [by eapply growth_trans|done].
Qed.

Lemma fs_at_inodep (s0 : fs C) dev mp v e s il : fs_at s0 dev mp v e s -> fs_at (set_inodep il s0) dev mp v e (set_inodep il s).
Proof. intros [? ? ? ? ? ?]. by split. Qed.

Lemma wp_puti s0 dev mp v e s ip x g (Q : unit -> fs C -> Prop) : fs_at s0 dev mp v e s -> inodep s0 !! ip = Some x ->
  (forall s', fs_at (set_inodep (<[ip := g x]> (inodep s0)) s0) dev mp v e s' -> Q tt s') -> wp (puti ip g) Q s.
Proof.
  intros Hat Hx HQ. apply wp_modify, HQ. rewrite (at_inodes _ _ _ _ _ _ Hat).
  replace (alter g ip (inodep s0)) with (<[ip := g x]> (inodep s0)); [by apply fs_at_inodep|].
  apply list_eq. intros i. destruct (decide (i = ip)) as [->|Hi].
  - rewrite list_lookup_insert_eq by (by eapply lookup_lt_Some). by rewrite list_lookup_alter_eq, Hx.
  - by rewrite list_lookup_insert_ne, list_lookup_alter_ne by done.
Qed.

Lemma wp_aread (s : fs C) ip x mp v e lb ll fflag l :
  at_file s ip x (i_dev x) mp v e s -> v_held v = ∅ -> (forall b, v_good v (i_dev x, b) = true) -> i_dev x <> NODEV ->
  m_flock mp = false -> Z.land (m_flag mp) MFRON = 0 -> 0 <= lb < lmax -> lmap_path lb = Some ll ->
  freelist (i_dev x) v (m_super mp) l -> tree v x (m_super mp) l ->
  wp (aread retry ip lb fflag) (fun o s' => exists x', (x' = x \/ exists t nb, x' = set_i_addr t nb x) /\
    aread_result (set_inodep (<[ip := x']> (inodep s)) s) mp e (m_super mp) (rev ll) fflag v x l x' o s') s.
Proof.
  intros (Hat & Hx & _) Hh Hg Hnd Hlk Hro Hlb Ell Hfl Ht. set (f := m_super mp) in *.
  destruct (lmap_path_rev lb ll Hlb Ell) as (t & r & Erev & Elast & Etail & Hq & Hlf & Htr).
  pose proof (fr_isize _ _ _ _ Hfl) as Hi2.
  assert (set_inodep (<[ip:=x]> (inodep s)) s = s) as Esame by (rewrite list_insert_id by done; by destruct s).
  assert (set_m_super f mp = mp) as Emp by (unfold f; by destruct mp).
  unfold aread. apply wp_bind. eapply wp_lmap; [done|]. rewrite Ell. intros s1 Hat1.
  apply wp_bind. eapply wp_get_inode; [done|done|]. apply wp_bind. eapply wp_deref; [exact Elast|].
  destruct (i_addr_some x t Htr) as [pb Epb]. apply wp_bind. eapply wp_deref; [exact Epb|].
  assert (node v x [t] = pb) as Hnode by (rewrite node_one, Epb; done).
  assert (fpath [t]) as Hpt by (split; [done|split; [simpl; lia|constructor]]).
  rewrite Etail. destruct (Z.eqb_spec pb 0) as [E0|E0].
  - apply wp_bind. eapply (wp_balloc_at retry Hretry); [exact Hat1|split; [by apply unheld_none|unfold room; rewrite Hh, map_size_empty; unfold NHOLD; lia|done|done]|
      intros b _; by apply unheld_none|done|done|exact Hfl|].
    intros v1 f1 s2 Hat2 Hs Hfl1 [C1 C2 _ _]. pose proof (same_blk_but _ _ _ Hs) as Hbb.
    assert (v_held v1 = ∅) as Hh1 by (by rewrite (proj1 Hs)).
    assert (forall b, v_good v1 (i_dev x, b) = true) as Hg1 by (intros b; by rewrite (proj1 (proj2 Hs))).
    destruct l as [|nb l]; cbn [hd tl] in *.
    + change (0 =? 0) with true. cbv iota. apply wp_ret. exists x. split; [by left|]. rewrite Esame. exists v1, f1.
      split; [split; try done|]. split; [by apply growth_same|].
      erewrite node_blk_but; [|done|done|done|done]. rewrite Erev. change (t :: r) with ([t] ++ r). apply node_hole; [done|].
      by rewrite Hnode.
    + pose proof (fr_inside _ _ _ _ Hfl) as Hin. apply Forall_cons in Hin as [Hout Hin].
      destruct (inside_super f nb Hi2 Hout) as (_ & Hnb0 & Hr). rewrite (proj2 (Z.eqb_neq nb 0)) by done.
      apply wp_bind. eapply wp_puti; [done|done|]. intros s3 Hat3.
      set (x' := set_i_addr t nb x) in *. set (w := put_blk (i_dev x, nb) zeros v1).
      assert (is32 nb) as H32.
      { pose proof (so_long _ (fr_ok _ _ _ _ Hfl)) as Hlg. apply Forall_cons in Hlg as [Hlg _]. unfold is32 in *. lia. }
      assert (length (i_a x') = 52%nat) as Hlen by (apply length_set_i_addr; [apply Ht|done]).
      assert (forall q', fpath q' -> node w x' q' = if decide (q' = [t]) then nb else node v x q') as Hn.
      { eapply (node_set_addr v w x x' f l [t] nb); try done.
        1: by rewrite Hnode. 1: apply blk_put.
        intros b H1 H2. unfold w. rewrite blk_put_ne by congruence. apply Hbb. congruence. }
      assert (tree w x' f l) as Ht'.
      { eapply (tree_extend v w x x' f l [t] nb); try done; [apply Hfl|apply blk_put|].
        intros b Hb H1 H2. unfold w. rewrite blk_put_ne by congruence. rewrite Hbb by congruence. done. }
      eapply wp_mono; [apply (wp_aread_loop retry Hretry (set_inodep (<[ip := x']> (inodep s)) s) x' mp e f (rev ll) fflag Hlk Hro Hi2 Hq Hlf Hnd r [t] nb true w l v1 f1 s3)|].
      * split; try done; [intros k Hk; by apply blk_put_ne|apply blk_put|]. rewrite Hn by done. by rewrite decide_True.
      * done.
      * intros o s4 Ho. exists x'. split; [right; by exists t, nb|].
        eapply aread_post_result; [done|done|done| |exact Ho].
        eapply (growth_one f (rev ll) v x l w x' [t] nb r); try done; [by rewrite Hnode|apply blk_put|].
        intros [d b] Hk. destruct (decide (d = i_dev x)) as [->|Hd].
        -- destruct (Hk eq_refl) as (H1 & H2 & _). cbn in H1, H2. unfold w. rewrite blk_put_ne by congruence. apply Hbb. congruence.
        -- unfold w. rewrite blk_put_ne by congruence. apply Hbb. congruence.
  - eapply wp_mono; [apply (wp_aread_loop retry Hretry s x mp e f (rev ll) fflag Hlk Hro Hi2 Hq Hlf Hnd r [t] pb false v l v f s1)|].
    + split; try done. split; try done. by rewrite Emp.
    + done.
    + intros o s4 Ho. exists x. split; [by left|]. rewrite Esame. eapply aread_post_result; [done|done|done| |exact Ho].
      by apply growth_same.
Qed.
End aread_top.

(** ** The contents of a file *)

Section contents.
Implicit Types (v : bview) (x : INODE).

Lemma fblock_node v x lb ll : 0 <= lb < lmax -> lmap_path lb = Some ll -> fblock v x lb = node v x (rev ll).
Proof.
  intros Hlb E. destruct (lmap_path_rev lb ll Hlb E) as (t & r & Erev & Elast & Etail & _ & _ & Htr).
  unfold fblock, pmap. rewrite E, Elast, Etail, Erev. cbn [node]. by destruct (i_addr_some x t Htr) as [pb ->].
Qed.

(** Different blocks have different paths. *)
Lemma lmap_path_inj lb lb' ll : 0 <= lb < lmax -> 0 <= lb' < lmax -> lmap_path lb = Some ll -> lmap_path lb' = Some ll -> lb = lb'.
Proof.
  intros H1 H2 E1 E2. destruct (lmap_path_some lb H1) as (l1 & F1 & _ & <-). destruct (lmap_path_some lb' H2) as (l2 & F2 & _ & <-).
  congruence.
Qed.

Lemma leaf_prefix p r : fpath (p ++ r) -> leaf p -> leaf (p ++ r) -> r = [].
Proof.
  destruct p as [|t p]; [done|]. cbn [app leaf fpath]. rewrite length_app. intros _ E1 E2. destruct r; [done|]. simpl in E2. lia.
Qed.

(** A file that grows keeps its contents. *)
Lemma growth_fdata f lb ll v x l v' x' l' lb' : lmap_path lb = Some ll -> 0 <= lb < lmax -> 2 <= s_isize f -> tree v x f l ->
  growth f (rev ll) v x l v' x' l' -> 0 <= lb' < lmax -> fdata v' x' lb' = fdata v x lb'.
Proof.
  intros E Hlb Hi Ht Hg Hlb'. destruct (lmap_path_some lb' Hlb') as (ll' & E' & Hlp & _).
  destruct (lmap_path_rev lb ll Hlb E) as (_ & _ & _ & _ & _ & Hq & Hlf & _).
  destruct (lmap_path_rev lb' ll' Hlb' E') as (_ & _ & _ & _ & _ & Hq' & Hlf' & _).
  unfold fdata. rewrite !(fblock_node _ _ lb' ll') by done. rewrite (gr_dev _ _ _ _ _ _ _ _ Hg).
  destruct (Z.eqb_spec (node v x (rev ll')) 0) as [E0|E0].
  - destruct (Z.eqb_spec (node v' x' (rev ll')) 0) as [E1|E1]; [done|].
    destruct (gr_new _ _ _ _ _ _ _ _ Hg _ Hq' E0 E1) as [[r Er] _].
    assert (r = []) as -> by (rewrite Er in Hq, Hlf; by eapply leaf_prefix). rewrite app_nil_r in Er. rewrite <- Er in *.
    by apply (gr_zero _ _ _ _ _ _ _ _ Hg).
  - rewrite (gr_node _ _ _ _ _ _ _ _ Hg) by done. rewrite (proj2 (Z.eqb_neq _ 0)) by done.
    apply (gr_blk _ _ _ _ _ _ _ _ Hg). intros _. cbn [snd]. split; [by eapply tree_super|]. split; [by apply Ht|].
    intros p Hp Hpl Hpn Ep. assert (p = rev ll') as -> by (by apply (tr_inj _ _ _ _ Ht)). done.
Qed.

(** ... and its blocks. *)
Definition mapped v x v' x' : Prop := forall lb, 0 <= lb < lmax -> fblock v x lb <> 0 -> fblock v' x' lb = fblock v x lb.

Lemma growth_mapped f q v x l v' x' l' : growth f q v x l v' x' l' -> mapped v x v' x'.
Proof.
  intros Hg lb Hlb. destruct (lmap_path_some lb Hlb) as (ll & E & _ & _).
  destruct (lmap_path_rev lb ll Hlb E) as (_ & _ & _ & _ & _ & Hq & _). rewrite !(fblock_node _ _ lb ll) by done.
  by apply (gr_node _ _ _ _ _ _ _ _ Hg).
Qed.

(** New data in the block of one data block of the file. *)
Lemma leaf_write v v' x f l lb ll d : lmap_path lb = Some ll -> 0 <= lb < lmax -> tree v x f l ->
  fblock v x lb <> 0 -> v_blk v' (i_dev x, fblock v x lb) = d ->
  (forall k, k <> (i_dev x, fblock v x lb) -> v_blk v' k = v_blk v k) ->
  tree v' x f l /\ (forall lb', 0 <= lb' < lmax -> fdata v' x lb' = if decide (lb' = lb) then d else fdata v x lb') /\ mapped v x v' x.
Proof.
  intros E Hlb Ht Hne Hd Hs. rewrite (fblock_node _ _ lb ll) in Hne, Hd, Hs by done.
  destruct (lmap_path_rev lb ll Hlb E) as (_ & _ & _ & _ & _ & Hq & Hlf & _).
  assert (forall p, fpath p -> ~ leaf p -> node v x p <> 0 -> v_blk v' (i_dev x, node v x p) = v_blk v (i_dev x, node v x p)) as Hs'.
  { intros p Hp Hpl Hpn. apply Hs. intros [= Ep]. assert (p = rev ll) as -> by (by apply (tr_inj _ _ _ _ Ht)). done. }
  assert (forall p, fpath p -> node v' x p = node v x p) as Hn by (intros p Hp; by apply node_frame).
  split.
  - split.
    + intros p p' Hp Hp'. rewrite !Hn by done. by apply Ht.
    + intros p Hp. rewrite Hn by done. by apply Ht.
    + apply Ht.
    + intros p Hp. rewrite Hn by done. intros Hpn Hpl. rewrite Hs' by done. by apply Ht.
  - split.
    + intros lb' Hlb'. destruct (lmap_path_some lb' Hlb') as (ll' & E' & _ & _).
      destruct (lmap_path_rev lb' ll' Hlb' E') as (_ & _ & _ & _ & _ & Hq' & Hlf' & _).
      unfold fdata. rewrite !(fblock_node _ _ lb' ll') by done. rewrite Hn by done.
      destruct (decide (lb' = lb)) as [->|Hlne].
      * assert (ll' = ll) as -> by congruence. by rewrite (proj2 (Z.eqb_neq _ 0)).
      * destruct (Z.eqb_spec (node v x (rev ll')) 0) as [E0|E0]; [done|]. apply Hs. intros [= Ep]. apply Hlne.
        assert (rev ll' = rev ll) as Er by (by apply (tr_inj _ _ _ _ Ht)).
        apply (f_equal (@rev Z)) in Er. rewrite !rev_involutive in Er. subst ll'. by eapply lmap_path_inj.
    + intros lb' Hlb' _. destruct (lmap_path_some lb' Hlb') as (ll' & E' & _ & _).
      destruct (lmap_path_rev lb' ll' Hlb' E') as (_ & _ & _ & _ & _ & Hq' & _). rewrite !(fblock_node _ _ lb' ll') by done. by apply Hn.
Qed.
End contents.

(** What [aread] for block [lb] leaves of a file with contents [v], [x] and a
    free list [l]. *)
Definition aread_done {C} `{BufCacheLaws C} (s : fs C) (ip : nat) (x : INODE) (mp : MOUNT) (v : bview) (e : Z) (lb : Z) (fflag : bool)
    (l : list Z) (o : option nat) (s' : fs C) : Prop :=
  exists x' v' f' l', (x' = x \/ exists t nb, x' = set_i_addr t nb x) /\ (exists nbs, l = nbs ++ l') /\
    tree v' x' (m_super mp) l' /\ (forall lb', 0 <= lb' < lmax -> fdata v' x' lb' = fdata v x lb') /\ mapped v x v' x' /\
    s_isize f' = s_isize (m_super mp) /\ s_fsize f' = s_fsize (m_super mp) /\
    let s0 := set_inodep (<[ip := x']> (inodep s)) s in
    let b := fblock v' x' lb in
    match o with
    | Some h => exists vd md, b <> 0 /\ freelist (i_dev x) vd f' l' /\ v_held vd = ∅ /\ (forall b, v_good vd (i_dev x, b) = true) /\
        fs_at s0 (i_dev x) (set_m_super f' mp)
          (put_held h (Hbuf (i_dev x, b) md (if fflag then zeros else fdata v x lb)) vd) e s' /\
        (forall k, k <> (i_dev x, b) -> v_blk vd k = v_blk v' k)
    | None => l' = [] /\ b = 0 /\ freelist (i_dev x) v' f' [] /\ v_held v' = ∅ /\ (forall b, v_good v' (i_dev x, b) = true) /\
        fs_at s0 (i_dev x) (set_m_super f' mp) v' ENOSPC s'
    end.

(** What the theorems on a file ask of its file system: nothing held, a
    device that works, the gate of the free list open, and well-formed lists. *)
Record file_ok {C} `{BufCacheLaws C} (s : fs C) (ip : nat) (x : INODE) (mp : MOUNT) (v : bview) (l : list Z) : Prop := {
  fo_held : v_held v = ∅;
  fo_good : forall b, v_good v (i_dev x, b) = true;
  fo_dev : i_dev x <> NODEV;
  fo_lock : m_flock mp = false;
  fo_rw : Z.land (m_flag mp) MFRON = 0;
  fo_free : freelist (i_dev x) v (m_super mp) l;
  fo_tree : tree v x (m_super mp) l
}.

Section aread_file.
Context {C : Type} `{BufCacheLaws C}.
Context (retry : nat) (Hretry : (0 < retry)%nat).

Lemma wp_aread_file (s : fs C) ip x mp v e lb fflag l : at_file s ip x (i_dev x) mp v e s -> file_ok s ip x mp v l -> 0 <= lb < lmax ->
  wp (aread retry ip lb fflag) (aread_done s ip x mp v e lb fflag l) s.
Proof.
  intros Hf [Hh Hg Hnd Hlk Hro Hfl Ht] Hlb. destruct (lmap_path_some lb Hlb) as (ll & Ell & _ & _).
  pose proof (fr_isize _ _ _ _ Hfl) as Hi2.
  eapply wp_mono; [by eapply (wp_aread retry Hretry)|]. intros o s' (x' & Hx' & Hres). destruct o as [h|]; simpl in Hres.
  - destruct Hres as (v' & vd & f' & l' & md & d & A1 & A2 & A3 & A4 & A5 & A6 & A7 & A8 & A9 & A10 & A11).
    pose proof (fblock_node v' x' lb ll Hlb Ell) as Eb. rewrite <- Eb in *.
    assert (forall lb', 0 <= lb' < lmax -> fdata v' x' lb' = fdata v x lb') as Hdata by (intros; by eapply growth_fdata).
    exists x', v', f', l'. cbn zeta. split_and!; try done; [by apply A8|by apply A8|by eapply growth_mapped|]. exists vd, md.
    split_and!; try done. rewrite A7 in A1. rewrite <- Hdata by done.
    unfold fdata. rewrite (proj2 (Z.eqb_neq _ 0)) by done. rewrite (gr_dev _ _ _ _ _ _ _ _ A8). exact A1.
  - destruct Hres as (v' & f' & A1 & A2 & A3). pose proof (fblock_node v' x' lb ll Hlb Ell) as Eb. rewrite <- Eb in *.
    assert (i_dev x' = i_dev x) as Ed by (by apply (gr_dev _ _ _ _ _ _ _ _ A2)).
    destruct A1 as [B1 B2 B3 B4 [B5 B6]]. rewrite Ed in *.
    exists x', v', f', []. cbn zeta. split_and!; try done; [by apply A2|by apply A2| |by eapply growth_mapped]. intros. by eapply growth_fdata.
Qed.

(** C28: [aread] returns a buffer on a block of the file that is really
    allocated, holding the contents of the logical block (zeros when it was a
    hole, or when the caller will overwrite it); the blocks it allocated, of
    indirection and data, come off the front of the free list, no two paths
    of the file lead to the same block, and the contents of the whole file and
    the blocks it had are as before.  When the free list runs out it reports ENOSPC, keeps what it
    linked into the file and holds no buffer. *)
Theorem aread_correct (s : fs C) ip x mp v e lb fflag l : at_file s ip x (i_dev x) mp v e s -> file_ok s ip x mp v l -> 0 <= lb < lmax ->
  wp (aread retry ip lb fflag) (aread_done s ip x mp v e lb fflag l) s.
Proof. apply wp_aread_file. Qed.
End aread_file.

(** ** Concrete instances *)

(** The file of [w_fstate] on a file system with the free list 9, 7. *)
Definition w_tview : bview :=
  View (fun k => if decide (k = (1, 7)) then fblk_out 1 (repeat 0 64) else v_blk w_fview k) ∅ (fun _ => true).
Definition w_tstate : fs acache :=
  Fs (Acache w_tview) [w_mount 0] [w_inode] 0 0 0 77 1 [] 0 (fun _ _ => Some 0) w_up.

Lemma w_tnode q : fpath q -> node w_tview w_inode q <> 0 ->
  (q = [0] /\ node w_tview w_inode q = 12) \/ (q = [10] /\ node w_tview w_inode q = 13) \/
  (q = [10; 0] /\ node w_tview w_inode q = 14).
Proof.
  destruct q as [|t r]; [done|]. intros (Ht & Hl & Hr) Hn. unfold NADDR in Ht.
  assert (t = 0 \/ t = 10 \/ (t <> 0 /\ t <> 10)) as [-> | [-> | [H1 H2]]] by lia.
  - left. destruct r; [by split|]. change (depth 0) with O in Hl. simpl in Hl. lia.
  - destruct r as [|i [|j r]]; [right; left; by split|right; right|change (depth 10) with 1%nat in Hl; simpl in Hl; lia].
    apply Forall_cons in Hr as [Hi _].
    assert (node w_tview w_inode [10; i] = if decide (i = 0) then 14 else 0) as E.
    { change [10; i] with ([10] ++ [i]). rewrite node_snoc by done.
      change (node w_tview w_inode [10]) with 13. change (13 =? 0) with false. cbv iota.
      change (v_blk w_tview (i_dev w_inode, 13)) with (set_entry (repeat 0 512) 0 14).
      rewrite entry_set_entry by (done || unfold is32; lia). destruct (decide (i = 0)); [done|].
      by apply entry_zeros. }
    rewrite E in Hn |- *. destruct (decide (i = 0)) as [->|]; [split; reflexivity|lia].
  - exfalso. apply Hn. change (t :: r) with ([t] ++ r). apply node_hole; [done|]. rewrite node_one.
    assert (t = 1 \/ t = 2 \/ t = 3 \/ t = 4 \/ t = 5 \/ t = 6 \/ t = 7 \/ t = 8 \/ t = 9 \/ t = 11 \/ t = 12) as Ht' by lia.
    repeat destruct Ht' as [-> | Ht']; try reflexivity. by subst t.
Qed.

Lemma w_tfree : freelist 1 w_tview w_super [9; 7].
Proof.
  eapply (freelist_blk w_inode w_view); [exact w_freelist| |done].
  intros b. unfold w_tview, w_view. cbn [v_blk]. intros [-> | [-> | []%elem_of_nil]%elem_of_cons]%elem_of_cons; by vm_compute.
Qed.

Lemma w_file_ok : file_ok w_tstate 0 w_inode (w_mount 0) w_tview [9; 7].
Proof.
  split; try done; [exact w_tfree|]. split.
  - intros p q Hp Hq E Hn. assert (node w_tview w_inode q <> 0) as Hn' by (by rewrite <- E).
    destruct (w_tnode p Hp Hn) as [[-> E1]|[[-> E1]|[-> E1]]], (w_tnode q Hq Hn') as [[-> E2]|[[-> E2]|[-> E2]]];
      first [reflexivity|rewrite E1, E2 in E; discriminate E].
  - intros p Hp Hn.
    assert (node w_tview w_inode p = 12 \/ node w_tview w_inode p = 13 \/ node w_tview w_inode p = 14) as Hb.
    { destruct (w_tnode p Hp Hn) as [[_ E]|[[_ E]|[_ E]]]; tauto. }
    revert Hb. generalize (node w_tview w_inode p). clear. intros b Hb.
    assert (outside w_super b = false) as Ho by (unfold outside; cbn [w_super s_fsize s_isize]; lia).
    split; [done|]. rewrite !not_elem_of_cons. split; [lia|split; [lia|apply not_elem_of_nil]].
  - done.
  - intros p Hp Hn Hlf. destruct (w_tnode p Hp Hn) as [[-> ->]|[[-> ->]|[-> ->]]];
      [by destruct Hlf|vm_compute; reflexivity|by destruct Hlf].
Qed.

(** Block 11 is a hole below the indirect block 13. *)
Lemma aread_correct_witness : exists o s', aread 1 0 11 false w_tstate = Ret o s' /\
  aread_done w_tstate 0 w_inode (w_mount 0) w_tview 0 11 false [9; 7] o s'.
Proof.
  refine (proj1 (wp_returns _ _ _) (aread_correct 1 _ w_tstate 0 w_inode (w_mount 0) w_tview 0 11 false [9; 7] _ w_file_ok _)).
  - lia.
  - split; [by apply fs_at_self|done].
  - unfold lmax. vm_compute. by split.
Defined.
