(* ===== verification/Fwrite.v ===== *)
(** What [fwrite] does to the contents of a file (kernel/coh/fs3.c). *)
From S2P Require Import Prelude Sched Bytes Bcache Super Fs Free Fmap Ftree.
Local Open Scope Z_scope.
Local Open Scope kernel_scope.

(** An I/O structure after [k] bytes were written. *)
Definition io_adv (io : IO) (k : Z) : IO := set_io_seek (io_seek io + k) (io_move io k).
(** The byte of the I/O segment at [a]. *)
Definition mbyte (m : Z -> Z -> option Z) (seg a : Z) : Z := default 0 (m seg a).

Lemma io_adv_adv io a b : io_adv (io_adv io a) b = io_adv io (a + b).
Proof.
  unfold io_adv. assert (forall io p k, io_move (set_io_seek p io) k = set_io_seek p (io_move io k)) as E.
  { intros io' p k. unfold io_move. cbn. by destruct (io_seg io' =? IOPHY). }
  rewrite E, io_move_move. unfold set_io_seek. cbn [io_seek io_seg io_ioc io_base io_phys].
  by replace (io_seek io + a + b) with (io_seek io + (a + b)) by lia.
Qed.

Lemma io_adv_0 io : 0 <= io_ioc io < 65536 -> io_adv io 0 = io.
Proof. intros Hi. unfold io_adv. rewrite io_move_0 by done. rewrite Z.add_0_r. by destruct io. Qed.

Lemma io_adv_fields io k : io_seg (io_adv io k) = io_seg io /\ io_ptr (io_adv io k) = io_ptr io + k /\
  io_seek (io_adv io k) = io_seek io + k /\ io_ioc (io_adv io k) = u16 (io_ioc io - k) /\ io_space (io_adv io k) = io_space io.
Proof.
  unfold io_adv, io_move, io_ptr, io_space. destruct io as [seg ioc seek base phys]. cbn.
  destruct (seg =? IOPHY) eqn:E; cbn; rewrite ?E; by split_and!.
Qed.

Lemma take_mem_lookup m a n i : (forall j, 0 <= j < Z.of_nat n -> is_Some (m (a + j))) -> (i < n)%nat ->
  take_mem m a n !! i = m (a + Z.of_nat i).
Proof.
  revert a i. induction n as [|n IH]; intros a i Ha Hi; [lia|]. simpl. destruct (Ha 0) as [b Hb]; [lia|].
  rewrite Z.add_0_r in Hb. rewrite Hb. destruct i as [|i]; simpl.
  - by rewrite Z.add_0_r, Hb.
  - rewrite IH; [f_equal; lia| |lia]. intros j Hj. replace (a + 1 + j) with (a + (j + 1)) by lia. apply Ha. lia.
Qed.

Section fwrite.
Context {C : Type} `{BufCacheLaws C}.
Context (retry : nat) (Hretry : (0 < retry)%nat).
Implicit Types (s : fs C) (mp : MOUNT) (v : bview) (x : INODE).

Lemma wp_ioread s0 dev mp v e s io h b off n (Q : IO -> fs C -> Prop) : fs_at s0 dev mp v e s -> v_held v !! h = Some b ->
  io_space io = true -> 0 <= n -> accessible (mem s0) (io_seg io) (io_ptr io) n ->
  Z.of_nat (length (h_data b)) = BSIZE -> Z.of_nat off + n <= BSIZE ->
  (forall s', fs_at s0 dev mp (put_held h (Hbuf (h_key b) (h_mod b)
       (upd (h_data b) off (take_mem (mem s0 (io_seg io)) (io_ptr io) (Z.to_nat n)))) v) e s' -> Q (io_move io n) s') ->
  wp (ioread io h off n) Q s.
Proof.
  intros Hat Hh Hsp Hn Hacc Hlen Hfit HQ. unfold ioread. rewrite Hsp. cbn [negb].
  destruct (at_ids _ _ _ _ _ _ Hat) as (_ & _ & _ & _ & _ & Em & _).
  apply wp_bind, wp_gets. rewrite Em.
  assert (length (take_mem (mem s0 (io_seg io)) (io_ptr io) (Z.to_nat n)) = Z.to_nat n) as El.
  { apply take_mem_all. intros i Hi. apply Hacc. lia. }
  apply wp_bind. eapply wp_store; [done|done| |].
  { rewrite length_upd; [done|]. rewrite El. lia. }
  intros s1 Hat1. rewrite El, Z2Nat.id, Z.ltb_irrefl by done. apply wp_bind, wp_ret, wp_ret, HQ. exact Hat1.
Qed.

Lemma wp_bawrite s0 dev mp v e s h b (Q : unit -> fs C -> Prop) : fs_at s0 dev mp v e s -> v_held v !! h = Some b ->
  v_good v (h_key b) = true -> (h_key b).1 <> NODEV ->
  (forall s', fs_at s0 dev mp (drop_held h (put_blk (h_key b) (h_data b) v)) e s' -> Q tt s') -> wp (bawrite h) Q s.
Proof.
  intros Hat Hh Hg Hd HQ. destruct (bawrite_law _ _ _ _ (at_rep _ _ _ _ _ _ Hat) Hh Hg Hd) as (c' & E & Hr).
  unfold wp, bawrite. rewrite E. apply HQ. by eapply fs_at_cache.
Qed.

(** A modified buffer goes to the disk either way. *)
Lemma wp_let_go s0 dev mp v e s h b d (com : bool) (Q : unit -> fs C -> Prop) :
  fs_at s0 dev mp (put_held h (Hbuf (dev, b) true d) v) e s -> v_held v = ∅ -> v_good v (dev, b) = true -> dev <> NODEV ->
  (forall s', fs_at s0 dev mp (put_blk (dev, b) d v) e s' -> Q tt s') ->
  wp (if com then bawrite h else brelease h) Q s.
Proof.
  intros Hat Hh Hg Hd HQ. assert (forall s', fs_at s0 dev mp (drop_held h (put_blk (dev, b) d (put_held h (Hbuf (dev, b) true d) v))) e s' -> Q tt s') as HQ'.
  { intros s' Hat'. apply HQ. unfold drop_held, put_blk, put_held in *. cbn in *. rewrite delete_insert_id in Hat' by (by rewrite Hh). exact Hat'. }
  destruct com.
  - eapply wp_bawrite; [exact Hat|apply held_put|done|done|done].
  - eapply wp_brelease; [exact Hat|apply held_put|exact Hg|done].
Qed.

(** Every block of the file, mapped or not, has the size of a block. *)
Definition whole v x : Prop := forall lb, 0 <= lb < lmax -> Z.of_nat (length (fdata v x lb)) = BSIZE.

(** The bytes of the file after [k] of them were written at [p] from the
    address [a]. *)
Definition overwritten v x v' x' (m : Z -> Z -> option Z) (seg a p k : Z) : Prop :=
  forall y, 0 <= y < lmax * BSIZE ->
    rbyte false v' x' y = if (p <=? y) && (y <? p + k) then mbyte m seg (a + (y - p)) else rbyte false v x y.

Lemma overwritten_0 v x m seg a p : overwritten v x v x m seg a p 0.
Proof. intros y Hy. rewrite Z.add_0_r. bool_cases; simpl; try done; lia. Qed.

Lemma overwritten_app v x v1 x1 v2 x2 m seg a p n k : 0 <= n -> 0 <= k ->
  overwritten v x v1 x1 m seg a p n -> overwritten v1 x1 v2 x2 m seg (a + n) (p + n) k ->
  overwritten v x v2 x2 m seg a p (n + k).
Proof.
  intros Hn Hk H1 H2 y Hy. rewrite H2, H1 by done. bool_cases; simpl; try lia; try done. f_equal. lia.
Qed.

(** One block is overwritten. *)
Lemma overwritten_block v x v' x' m seg a p n d : 0 <= p -> 0 < n -> p mod BSIZE + n <= BSIZE -> p + n <= lmax * BSIZE ->
  accessible m seg a n -> Z.of_nat (length d) = BSIZE ->
  (n = BSIZE \/ d = fdata v x (p / BSIZE)) ->
  (forall lb, 0 <= lb < lmax -> fdata v' x' lb = if decide (lb = p / BSIZE)
     then upd d (Z.to_nat (p mod BSIZE)) (take_mem (m seg) a (Z.to_nat n)) else fdata v x lb) ->
  overwritten v x v' x' m seg a p n.
Proof.
  intros Hp Hn Hfit Hmax Hacc Hlen Hd Hdata y Hy.
  pose proof (Z.div_mod p BSIZE ltac:(done)) as Hdm. pose proof (Z.mod_pos_bound p BSIZE ltac:(unfold BSIZE; lia)) as Hm.
  pose proof (Z.div_mod y BSIZE ltac:(done)) as Hdy. pose proof (Z.mod_pos_bound y BSIZE ltac:(unfold BSIZE; lia)) as Hmy.
  assert (length (take_mem (m seg) a (Z.to_nat n)) = Z.to_nat n) as El by (apply take_mem_all; intros i Hi; apply Hacc; lia).
  assert (0 <= y / BSIZE < lmax) as Hyb.
  { split; [apply Z.div_pos; unfold BSIZE; lia|apply Z.div_lt_upper_bound; unfold BSIZE in *; lia]. }
  unfold rbyte, rdata. rewrite Hdata by done. unfold BSIZE in *. destruct (decide (y / 512 = p / 512)) as [E|E].
  - rewrite lookup_upd by lia. rewrite El.
    destruct ((p <=? y) && (y <? p + n)) eqn:Ein.
    + apply andb_true_iff in Ein as [E1%Z.leb_le E2%Z.ltb_lt].
      rewrite decide_True by lia. rewrite take_mem_lookup; [|intros j Hj; apply Hacc; lia|lia]. unfold mbyte. do 2 f_equal. lia.
    + rewrite decide_False by (apply andb_false_iff in Ein as [?%Z.leb_gt|?%Z.ltb_ge]; lia).
      destruct Hd as [->| ->]; [|by rewrite E]. apply andb_false_iff in Ein as [?%Z.leb_gt|?%Z.ltb_ge]; lia.
  - rewrite (proj2 (andb_false_iff _ _)); [done|]. rewrite Z.leb_gt, Z.ltb_ge. lia.
Qed.

Lemma tree_area v x f f' l : tree v x f l -> s_isize f' = s_isize f -> s_fsize f' = s_fsize f -> tree v x f' l.
Proof.
  intros Ht E1 E2. split; try apply Ht. intros p Hp Hn. unfold outside. rewrite E1, E2. by apply Ht.
Qed.

(** What [fwrite] did: [k] bytes of the count. *)
Definition written (s0 : fs C) (ip : nat) x mp v (l : list Z) (io : IO) (io' : IO) (s' : fs C) : Prop :=
  exists k x' v' f' l' er, 0 <= k <= io_ioc io /\ io' = io_adv io k /\
    fs_at (set_inodep (<[ip := x']> (inodep s0)) s0) (i_dev x) (set_m_super f' mp) v' er s' /\
    (exists a sz, x' = set_i_size sz (set_i_a a x)) /\
    i_size x' = (if k =? 0 then i_size x else Z.max (i_size x) (io_seek io + k)) /\
    file_ok s' ip x' (set_m_super f' mp) v' l' /\ (exists nbs, l = nbs ++ l') /\
    overwritten v x v' x' (mem s0) (io_seg io) (io_ptr io) (io_seek io) k /\ whole v' x' /\
    (k = io_ioc io /\ er = 0 \/ k < io_ioc io /\ er = ENOSPC /\ l' = [] /\ fblock v x ((io_seek io + k) / BSIZE) = 0).

(** One block of [fwrite]: the data is in the buffer that [aread] returned. *)
Lemma wp_fill s0 s1 ip x mp v lb (fflag pipe : bool) l h io n (K : IO -> M (fs C) IO) (Q : IO -> fs C -> Prop) :
  inodep s0 !! ip = Some x -> file_ok s0 ip x mp v l -> 0 <= io_seek io -> lb = io_seek io / BSIZE -> 0 <= lb < lmax ->
  aread_done s0 ip x mp v 0 lb fflag l (Some h) s1 -> whole v x ->
  io_space io = true -> 0 < n -> io_seek io mod BSIZE + n <= BSIZE -> accessible (mem s0) (io_seg io) (io_ptr io) n ->
  (fflag = true -> n = BSIZE) -> io_seek io + n <= lmax * BSIZE ->
  (forall x' v' f' l' s', fs_at (set_inodep (<[ip := x']> (inodep s0)) s0) (i_dev x) (set_m_super f' mp) v' 0 s' ->
     (exists a, x' = set_i_a a x) -> file_ok s' ip x' (set_m_super f' mp) v' l' -> (exists nbs, l = nbs ++ l') ->
     overwritten v x v' x' (mem s0) (io_seg io) (io_ptr io) (io_seek io) n -> mapped v x v' x' -> whole v' x' -> wp (K (io_move io n)) Q s') ->
  wp (io <- ioread io h (Z.to_nat (io_seek io mod BSIZE)) n ;;
      setmod h ;;;
      (if pipe then bawrite h else brelease h) ;;;
      e <- gets u_error ;;
      if negb (e =? 0) then kret io else K io) Q s1.
Proof.
  intros Hx Hok Hp Elb Hlb (x' & v' & f' & l' & Hx' & Hl & Ht & Hdata & Hmap & A1 & A2 & vd & md & B1 & B2 & B3 & B4 & B5 & B6) Hw Hsp Hn Hfit Hacc Hff Hmax HK.
  pose proof (Z.mod_pos_bound (io_seek io) BSIZE ltac:(unfold BSIZE; lia)) as Hm.
  set (d := if fflag then zeros else fdata v x lb) in *.
  assert (Z.of_nat (length d) = BSIZE) as Hlen by (unfold d; destruct fflag; [done|by apply Hw]).
  assert (i_dev x' = i_dev x) as Ed by (by destruct Hx' as [->|(t & nb & ->)]).
  apply wp_bind. eapply wp_ioread; [exact B5|apply held_put|done|lia|exact Hacc|exact Hlen|rewrite Z2Nat.id by lia; done|].
  intros s2 Hat2. rewrite put_put in Hat2. cbn [h_key h_mod h_data] in Hat2.
  set (d' := upd d (Z.to_nat (io_seek io mod BSIZE)) (take_mem (mem s0 (io_seg io)) (io_ptr io) (Z.to_nat n))).
  apply wp_bind. eapply wp_setmod; [done|apply held_put|]. intros s3 Hat3. rewrite put_put in Hat3. cbn [h_key h_mod h_data] in Hat3.
  apply wp_bind. eapply wp_let_go; [exact Hat3|done|apply B4|by apply Hok|]. intros s4 Hat4. fold d' in Hat4.
  apply wp_bind, wp_gets. rewrite (at_error _ _ _ _ _ _ Hat4). cbn [Z.eqb negb].
  set (b := fblock v' x' lb) in *. set (v2 := put_blk (i_dev x, b) d' vd) in *.
  destruct (lmap_path_some lb Hlb) as (ll & Ell & _ & _).
  destruct (leaf_write v' v2 x' (m_super mp) l' lb ll d' Ell Hlb Ht B1) as (Ht2 & Hd2 & Hm2).
  { rewrite Ed. apply blk_put. }
  { intros k Hk. rewrite Ed in Hk. unfold v2. rewrite blk_put_ne by done. by apply B6. }
  assert (length d' = 512%nat) as Hd'.
  { unfold d'. unfold BSIZE in *. rewrite length_upd; [lia|]. rewrite take_mem_all; [lia|]. intros i Hi. apply Hacc. lia. }
  assert (whole v2 x') as Hw2.
  { intros lb' Hlb'. rewrite Hd2 by done. destruct (decide (lb' = lb)); [by rewrite Hd'|]. rewrite Hdata by done. by apply Hw. }
  pose proof (fr_isize _ _ _ _ B2) as Hi2.
  assert (outside (m_super mp) b = false /\ b ∉ l') as [Hbo Hbl].
  { unfold b in *. rewrite (fblock_node v' x' lb ll) in B1 |- * by done.
    destruct (lmap_path_rev lb ll Hlb Ell) as (_ & _ & _ & _ & _ & Hq & _). by apply Ht. }
  assert (b <> SUPERI) as Hbs.
  { assert (outside f' b = false) as Ho by (unfold outside in *; by rewrite A1, A2). by destruct (inside_super f' b Hi2 Ho). }
  assert (mapped v x v2 x') as Hmap2.
  { intros lb' Hlb' Hne. pose proof (Hmap lb' Hlb' Hne) as E. rewrite <- E. apply Hm2; [done|congruence]. }
  eapply HK; [exact Hat4| | |done| |done|done].
  - destruct Hx' as [->|(t & nb & ->)]; [exists (i_a x); by destruct x|by eexists].
  - destruct Hok as [C1 C2 C3 C4 C5 C6 C7]. split; try done; rewrite ?Ed; try done.
    + eapply (freelist_blk x); [exact B2| |].
      * intros b' Hb'. apply blk_put_ne. intros [= ->]. done.
      * apply blk_put_ne. congruence.
    + by eapply tree_area.
  - eapply (overwritten_block v x v2 x' (mem s0) (io_seg io) (io_ptr io) (io_seek io) n d); try done.
    + unfold d. destruct fflag; [left; by apply Hff|right; by rewrite Elb].
    + intros lb' Hlb'. rewrite Hd2 by done. rewrite Elb. destruct (decide (lb' = io_seek io / BSIZE)); [done|by apply Hdata].
Qed.

Lemma aread_done_at s0 s ip x mp v e lb fflag l o s' : fs_at s0 (i_dev x) mp v e s ->
  aread_done s ip x mp v e lb fflag l o s' -> aread_done s0 ip x mp v e lb fflag l o s'.
Proof.
  intros Hat (x' & v' & f' & l' & A1 & A2 & A3 & A4 & Am & A5 & A6 & A7).
  assert (forall mp' w e', fs_at (set_inodep (<[ip := x']> (inodep s)) s) (i_dev x) mp' w e' s' ->
    fs_at (set_inodep (<[ip := x']> (inodep s0)) s0) (i_dev x) mp' w e' s') as Hre.
  { destruct Hat as [_ _ O1 I1 _ (P1 & P2 & P3 & P4 & P5 & P6 & P7)]. rewrite I1. intros mp' w e' [R M O I X (Q1 & Q2 & Q3 & Q4 & Q5 & Q6 & Q7)]. cbn in *.
    split; cbn; try done; [|split_and!; congruence]. intros d Hd. by rewrite O, O1. }
  exists x', v', f', l'. split_and!; try done. cbn zeta in *. destruct o as [h|].
  - destruct A7 as (vd & md & B1 & B2 & B3 & B4 & B5 & B6). exists vd, md. split_and!; try done. by apply Hre.
  - destruct A7 as (B1 & B2 & B3 & B4 & B5 & B6). split_and!; try done. by apply Hre.
Qed.

Lemma written_stop s0 s ip x mp v l io : fs_at s0 (i_dev x) mp v 0 s -> inodep s0 !! ip = Some x -> file_ok s0 ip x mp v l ->
  whole v x -> io_ioc io = 0 -> written s0 ip x mp v l io io s.
Proof.
  intros Hat Hx Hok Hw Hz. exists 0, x, v, (m_super mp), l, 0. rewrite io_adv_0 by lia.
  assert (set_m_super (m_super mp) mp = mp) as -> by by destruct mp.
  split_and!; try done; [lia|by rewrite list_insert_id by done; destruct s0| |by destruct Hok; split|by exists []|apply overwritten_0|by left; rewrite Hz].
  exists (i_a x), (i_size x). by destruct x.
Qed.

(** What was written after one block adds up. *)
Lemma written_step s0 ip x mp v l io n x1 v1 f1 l1 io' s' :
  0 < n <= io_ioc io -> io_ioc io < 65536 -> (exists a, x1 = set_i_a a x) -> (exists nbs, l = nbs ++ l1) ->
  overwritten v x v1 x1 (mem s0) (io_seg io) (io_ptr io) (io_seek io) n -> mapped v x v1 x1 -> 0 <= io_seek io -> io_seek io + io_ioc io <= lmax * BSIZE ->
  let x2 := if i_size x1 <? io_seek io + n then set_i_size (io_seek io + n) x1 else x1 in
  inodep s0 !! ip = Some x ->
  written (set_inodep (<[ip := x2]> (inodep s0)) s0) ip x2 (set_m_super f1 mp) v1 l1 (io_adv io n) io' s' ->
  written s0 ip x mp v l io io' s'.
Proof.
  intros Hn H16 [a ->] [nb1 ->] Hov Hmap Hp0 Hmax x2 Hx (k & x' & v' & f' & l' & er & Hk & -> & Hat & (a' & sz' & Ex') & Hsz & Hok & [nb2 ->] & Hov' & Hw & Her).
  destruct (io_adv_fields io n) as (F1 & F2 & F3 & F4 & F5). rewrite F1, F2, F3 in Hov'. rewrite F3 in Hsz. rewrite F4 in Hk, Her.
  rewrite u16_small in Hk, Her by lia.
  assert (i_dev x2 = i_dev x /\ exists a sz, x' = set_i_size sz (set_i_a a x)) as [Ed Hx'].
  { unfold x2 in *. destruct (_ <? _); (split; [done|]); exists a', sz'; rewrite Ex'; done. }
  exists (n + k), x', v', f', (l'), er. rewrite io_adv_adv. split_and!; try done; [lia|lia| | | | |].
  - rewrite Ed in Hat. cbn [inodep set_inodep] in Hat. rewrite list_insert_insert_eq in Hat. exact Hat.
  - rewrite (proj2 (Z.eqb_neq (n + k) 0)) by lia. rewrite Hsz. unfold x2. cbn [i_size set_i_a].
    destruct (Z.ltb_spec (i_size x) (io_seek io + n)); cbn [i_size set_i_size set_i_a]; destruct (Z.eqb_spec k 0); lia.
  - exists (nb1 ++ nb2). by rewrite <- app_assoc.
  - eapply overwritten_app; [lia|lia|exact Hov|]. intros y Hy. rewrite (Hov' y Hy). unfold x2. by destruct (_ <? _).
  - destruct Her as [[H1 H2]|(H1 & H2 & H3 & H4)]; [left; lia|right]. split_and!; [lia|done|done|]. rewrite F3, <- Z.add_assoc in H4.
    set (lb := (io_seek io + (n + k)) / BSIZE) in *. replace (io_seek io + n + k) with (io_seek io + (n + k)) in H4 by lia. fold lb in H4.
    destruct (Z.eqb_spec (fblock v x lb) 0) as [E0|E0]; [done|].
    assert (0 <= lb < lmax) as Hlb.
    { unfold lb. split; [apply Z.div_pos; unfold BSIZE; lia|apply Z.div_lt_upper_bound; unfold BSIZE in *; lia]. }
    rewrite <- (Hmap lb Hlb E0). rewrite <- H4. unfold x2. by destruct (_ <? _).
Qed.

(** The end of an iteration: the seek position and the size. *)
Lemma wp_next s0 s ip x x1 mp v l io n (K : IO -> M (fs C) IO) (Q : IO -> fs C -> Prop) :
  fs_at (set_inodep (<[ip := x1]> (inodep s0)) s0) (i_dev x) mp v 0 s -> inodep s0 !! ip = Some x ->
  0 < n -> 0 <= io_seek io -> io_seek io + n <= lmax * BSIZE ->
  (exists a, x1 = set_i_a a x) -> file_ok s ip x1 mp v l -> whole v x1 ->
  (forall x2 s', x2 = (if i_size x1 <? io_seek io + n then set_i_size (io_seek io + n) x1 else x1) ->
     fs_at (set_inodep (<[ip := x2]> (inodep s0)) s0) (i_dev x) mp v 0 s' -> file_ok s' ip x2 mp v l -> whole v x2 ->
     wp (K (io_adv io n)) Q s') ->
  wp (let io := set_io_seek (s32 (io_seek (io_move io n) + n)) (io_move io n) in
      x <- geti ip ;;
      (if (i_size x <? io_seek io) && negb false then puti ip (set_i_size (io_seek io)) else kret tt) ;;;
      K io) Q s.
Proof.
  intros Hat Hx Hn Hp Hmax [a ->] Hok Hw HK. cbv zeta. rewrite io_move_seek.
  assert (lmax * BSIZE = 1082201088) as Em by reflexivity. rewrite s32_small by lia. fold (io_adv io n).
  change (set_io_seek (io_seek io + n) (io_move io n)) with (io_adv io n).
  assert (io_seek (io_adv io n) = io_seek io + n) as -> by done.
  assert (inodep (set_inodep (<[ip := set_i_a a x]> (inodep s0)) s0) !! ip = Some (set_i_a a x)) as Hx1.
  { cbn. by rewrite list_lookup_insert_eq by (by eapply lookup_lt_Some). }
  apply wp_bind. eapply wp_get_inode; [done|exact Hx1|]. rewrite andb_true_r. apply wp_bind.
  destruct (i_size (set_i_a a x) <? io_seek io + n) eqn:E.
  - eapply wp_puti; [exact Hat|exact Hx1|]. intros s' Hat'. cbn [inodep set_inodep] in Hat'. rewrite list_insert_insert_eq in Hat'.
    eapply HK; [done|exact Hat'| |done]. destruct Hok as [C1 C2 C3 C4 C5 C6 [D1 D2 D3 D4]]. by split.
  - apply wp_ret. eapply HK; [done|exact Hat|done|done].
Qed.

Lemma wp_fwrite_loop fuel : forall s0 s ip x mp v l io, fs_at s0 (i_dev x) mp v 0 s -> inodep s0 !! ip = Some x ->
  file_ok s0 ip x mp v l -> whole v x -> 0 <= io_seek io -> io_seek io + io_ioc io <= lmax * BSIZE ->
  0 <= io_ioc io < 65536 -> io_ioc io < Z.of_nat fuel -> io_space io = true ->
  accessible (mem s0) (io_seg io) (io_ptr io) (io_ioc io) ->
  wp (fwrite_loop retry fuel ip false (io_seek io / BSIZE) (io_seek io mod BSIZE) io) (written s0 ip x mp v l io) s.
Proof.
  induction fuel as [|fuel IH]; intros s0 s ip x mp v l io Hat Hx Hok Hw Hp Hmax Hioc Hfu Hsp Hacc; [lia|].
  cbn [fwrite_loop]. destruct (Z.leb_spec (io_ioc io) 0) as [Hz|Hpos].
  { apply wp_ret. apply written_stop; try done. lia. }
  pose proof (Z.div_mod (io_seek io) BSIZE ltac:(done)) as Hdm.
  pose proof (Z.mod_pos_bound (io_seek io) BSIZE ltac:(unfold BSIZE; lia)) as Hm.
  assert (0 <= io_seek io / BSIZE < lmax) as Hlb.
  { split; [apply Z.div_pos; unfold BSIZE; lia|apply Z.div_lt_upper_bound; unfold BSIZE in *; lia]. }
  apply wp_bind. eapply wp_get_inode; [done|done|]. cbn [negb].
  set (n := if BSIZE - io_seek io mod BSIZE <? io_ioc io then BSIZE - io_seek io mod BSIZE else io_ioc io).
  assert (0 < n <= io_ioc io /\ io_seek io mod BSIZE + n <= BSIZE) as [Hn Hfit].
  { unfold n. unfold BSIZE in *. destruct (Z.ltb_spec (512 - io_seek io mod 512) (io_ioc io)); lia. }
  set (com := (io_seek io mod BSIZE =? 0) && (n =? BSIZE)).
  apply wp_bind. eapply wp_mono.
  { refine (wp_aread_file retry Hretry s ip x mp v 0 (io_seek io / BSIZE) com l _ _ Hlb).
    - split; [by destruct Hat; split|]. split; [by rewrite (at_inodes _ _ _ _ _ _ Hat)|done].
    - destruct Hok. by split. }
  intros o s1 Hdone. apply (aread_done_at s0) in Hdone; [|done].
  destruct o as [h|].
  - eapply (wp_fill s0 s1 ip x mp v _ com _ l h io n); try done; [lia|intros i Hi; apply Hacc; lia| |lia|].
    + unfold com. intros [_ E]%andb_true_iff. by apply Z.eqb_eq in E.
    + intros x1 v1 f1 l1 s2 Hat2 Hx1 Hok1 Hl1 Hov Hmap1 Hw1.
      eapply wp_next; try done; [lia|lia|].
      intros x2 s3 Hx2 Hat3 Hok3 Hw3. pose proof Hx1 as [a Ea].
      destruct (io_adv_fields io n) as (F1 & F2 & F3 & F4 & F5). rewrite u16_small in F4 by lia.
      assert (i_dev x2 = i_dev x) as Ed by (rewrite Hx2; case_match; rewrite Ea; reflexivity).
      apply wp_mono with (Q := written (set_inodep (<[ip := x2]> (inodep s0)) s0) ip x2 (set_m_super f1 mp) v1 l1 (io_adv io n)).
      2: { intros io' s' Hwr. rewrite Hx2 in Hwr. eapply written_step; [| |exact Hx1|exact Hl1|exact Hov|exact Hmap1| | |exact Hx|exact Hwr]; lia. }
      destruct (decide (n = io_ioc io)) as [En|En].
      * destruct fuel as [|fuel]; [lia|]. cbn [fwrite_loop]. rewrite F4, En, Z.sub_diag. cbn [Z.leb Z.compare].
        apply wp_ret. apply written_stop; try done; [by rewrite Ed|cbn; by rewrite list_lookup_insert_eq by (by eapply lookup_lt_Some)|by destruct Hok3; split|rewrite <- En, F4; lia].
      * assert (io_seek io mod BSIZE + n = BSIZE) as Efull.
        { unfold n in *. destruct (Z.ltb_spec (BSIZE - io_seek io mod BSIZE) (io_ioc io)); lia. }
        assert ((io_seek io + n) / BSIZE = io_seek io / BSIZE + 1 /\ (io_seek io + n) mod BSIZE = 0) as [D1 D2].
        { clear - Efull. unfold BSIZE in *. Z.to_euclidean_division_equations. lia. }
        rewrite <- D1, <- D2, <- F3. eapply IH; rewrite ?F1, ?F2, ?F3, ?F4, ?F5; try done; try lia.
        -- by rewrite Ed.
        -- cbn. by rewrite list_lookup_insert_eq by (by eapply lookup_lt_Some).
        -- by destruct Hok3; split.
        -- intros i Hi. rewrite <- Z.add_assoc. apply Hacc. lia.
  - apply wp_ret. destruct Hdone as (x' & v' & f' & l' & Hx' & Hl & Ht & Hdata & Hmap & A1 & A2 & -> & B1 & B2 & B3 & B4 & B5).
    exists 0, x', v', f', [], ENOSPC. rewrite io_adv_0 by done.
    assert (i_dev x' = i_dev x) as Ed by (by destruct Hx' as [->|(t & nb & ->)]).
    assert (i_size x' = i_size x) as Es by (by destruct Hx' as [->|(t & nb & ->)]).
    split_and!; try done; try lia.
    + destruct Hx' as [->|(t & nb & ->)]; [exists (i_a x), (i_size x)|exists (i_a (set_i_addr t nb x)), (i_size x)]; by destruct x.
    + destruct Hok as [C1 C2 C3 C4 C5 C6 C7]. split; rewrite ?Ed; try done. by eapply tree_area.
    + intros y Hy. rewrite Z.add_0_r. rewrite (proj2 (andb_false_iff _ _)) by (rewrite Z.leb_gt, Z.ltb_ge; lia).
      unfold rbyte, rdata. rewrite Hdata; [done|]. unfold BSIZE in *. split; [apply Z.div_pos; lia|apply Z.div_lt_upper_bound; lia].
    + intros lb' Hlb'. rewrite Hdata by done. by apply Hw.
    + right. split; [lia|]. split; [done|]. split; [done|]. rewrite Z.add_0_r. destruct (Z.eqb_spec (fblock v x (io_seek io / BSIZE)) 0) as [E0|E0]; [done|].
      by rewrite (Hmap _ Hlb E0) in B1.
Qed.

Lemma wp_fwrite_file fuel s ip x mp v l io : at_file s ip x (i_dev x) mp v 0 s -> file_ok s ip x mp v l -> whole v x ->
  itype x <> IFBLK -> 0 <= io_seek io -> io_seek io + io_ioc io <= lmax * BSIZE ->
  0 <= io_ioc io < 65536 -> io_ioc io < Z.of_nat fuel -> io_space io = true ->
  accessible (mem s) (io_seg io) (io_ptr io) (io_ioc io) ->
  wp (fwrite retry fuel ip io) (written s ip x mp v l io) s.
Proof.
  intros (Hat & Hx & _) Hok Hw Hblk Hp Hmax Hioc Hfu Hsp Hacc. unfold fwrite.
  apply wp_bind. eapply wp_get_inode; [done|done|]. rewrite (proj2 (Z.eqb_neq _ IFBLK)) by done.
  assert (blocko (io_seek io) = io_seek io mod BSIZE /\ blockn (io_seek io) = io_seek io / BSIZE) as [-> ->].
  { unfold blocko, blockn. change 511 with (Z.ones 9). by rewrite Z.land_ones, Z.shiftr_div_pow2. }
  by apply wp_fwrite_loop.
Qed.

(** C21: writing [io_ioc] bytes to a file puts exactly those bytes of the I/O
    segment at the seek position and leaves every other byte of the file as it
    was, across block boundaries and through newly allocated indirect blocks;
    the size becomes the end of the write if that is further, the file keeps
    different blocks on different paths, none of them free, and no buffer stays
    held.  Either the whole count is written, or the free list is exhausted
    and the count, address and seek position of the I/O structure tell how much
    was, with ENOSPC; that happens only at a block that the file did not have. *)
Theorem fwrite_correct fuel s ip x mp v l io : at_file s ip x (i_dev x) mp v 0 s -> file_ok s ip x mp v l -> whole v x ->
  itype x <> IFBLK -> 0 <= io_seek io -> io_seek io + io_ioc io <= lmax * BSIZE ->
  0 <= io_ioc io < 65536 -> io_ioc io < Z.of_nat fuel -> io_space io = true ->
  accessible (mem s) (io_seg io) (io_ptr io) (io_ioc io) ->
  wp (fwrite retry fuel ip io) (written s ip x mp v l io) s.
Proof. apply wp_fwrite_file. Qed.
End fwrite.

(** A write from the end of block 10 into the hole of block 11. *)
Lemma w_whole : whole w_tview w_inode.
Proof.
  intros lb _. unfold fdata. destruct (fblock w_tview w_inode lb =? 0); [done|].
  unfold w_tview. cbn [v_blk]. repeat (destruct (decide _); [vm_compute; reflexivity|]).
  unfold w_fview. cbn [v_blk]. repeat (destruct (decide _); [vm_compute; reflexivity|]). reflexivity.
Qed.

Lemma fwrite_correct_witness : exists io' s', fwrite 1 601 0 (Io IOUSR 600 5600 100 0) w_tstate = Ret io' s' /\
  written w_tstate 0 w_inode (w_mount 0) w_tview [9; 7] (Io IOUSR 600 5600 100 0) io' s'.
Proof.
  refine (proj1 (wp_returns _ _ _) (fwrite_correct 1 _ 601 w_tstate 0 w_inode (w_mount 0) w_tview [9; 7] (Io IOUSR 600 5600 100 0)
    _ w_file_ok w_whole _ _ _ _ _ eq_refl _)).
  - lia.
  - split; [by apply fs_at_self|done].
  - done.
  - cbn. lia.
  - vm_compute. intros [=].
  - cbn. lia.
  - cbn. lia.
  - intros i _. by eexists.
Defined.
