(* ===== verification/Umem.v ===== *)
(** Memory, by space and address, as bytes are moved in and out. *)
From S2P Require Import Prelude Sched Bytes Bcache Super Fs Fmap Fwrite.
Local Open Scope Z_scope.

#[local] Abbreviation memory := (Z -> Z -> option Z).

(** [m'] is [m] with the bytes [bs] at [a]. *)
Definition poured (m m' : memory) (sp a : Z) (bs : list Z) : Prop :=
  forall x y, m' x y = if decide (x = sp /\ a <= y < a + Z.of_nat (length bs)) then bs !! Z.to_nat (y - a) else m x y.

Lemma poured_nil m sp a : poured m m sp a [].
Proof. intros x y. rewrite decide_False; [done|]. cbn. lia. Qed.

Lemma poured_app m1 m2 m3 sp a bs1 bs2 : poured m1 m2 sp a bs1 -> poured m2 m3 sp (a + Z.of_nat (length bs1)) bs2 ->
  poured m1 m3 sp a (bs1 ++ bs2).
Proof.
  intros H1 H2 x y. rewrite H2, H1, length_app. destruct (decide (x = sp /\ a <= y < a + Z.of_nat (length bs1 + length bs2))) as [[Ex Hy]|Hn].
  - destruct (decide (y < a + Z.of_nat (length bs1))) as [Hlt|Hge].
    + rewrite decide_False by lia. rewrite decide_True by lia. symmetry. apply lookup_app_l. lia.
    + rewrite decide_True by lia. rewrite lookup_app_r by lia. f_equal. lia.
  - rewrite !decide_False by lia. done.
Qed.

(** The bytes [bs] are at [a]. *)
Definition bytes_at (m : memory) (sp a : Z) (bs : list Z) : Prop :=
  forall i, (i < length bs)%nat -> m sp (a + Z.of_nat i) = bs !! i.

Lemma bytes_at_app m sp a bs1 bs2 : bytes_at m sp a bs1 -> bytes_at m sp (a + Z.of_nat (length bs1)) bs2 -> bytes_at m sp a (bs1 ++ bs2).
Proof.
  intros H1 H2 i Hi. rewrite length_app in Hi. destruct (decide (i < length bs1)%nat).
  - rewrite lookup_app_l by done. by apply H1.
  - rewrite lookup_app_r by lia. rewrite <- H2 by lia. f_equal. lia.
Qed.

Lemma bytes_at_exist m sp a n : (forall i, 0 <= i < Z.of_nat n -> is_Some (m sp (a + i))) -> exists bs, length bs = n /\ bytes_at m sp a bs.
Proof.
  intros Hm. exists (take_mem (m sp) a n). split; [by apply take_mem_all|].
  intros i Hi. rewrite take_mem_all in Hi by done. symmetry. by apply take_mem_lookup.
Qed.

(** One byte more. *)
Lemma poured_snoc (m m' : memory) sp a bs b : poured m m' sp a bs ->
  poured m (fun x y => if (x =? sp) && (y =? a + Z.of_nat (length bs)) then Some b else m' x y) sp a (bs ++ [b]).
Proof.
  intros H. apply (poured_app _ m'); [done|]. intros x y. cbn.
  destruct (Z.eqb_spec x sp) as [->|Hx], (Z.eqb_spec y (a + Z.of_nat (length bs))) as [->|Hy]; cbn.
  - rewrite decide_True by lia. by rewrite Z.sub_diag.
  - rewrite decide_False; [done|lia].
  - rewrite decide_False; [done|tauto].
  - rewrite decide_False; [done|tauto].
Qed.

Lemma poured_other (m m' : memory) sp a bs x y : poured m m' sp a bs -> ~ (x = sp /\ a <= y < a + Z.of_nat (length bs)) -> m' x y = m x y.
Proof. intros H Hn. by rewrite H, decide_False. Qed.

(** The rest of a request, after one byte. *)
Definition io_next (io : IO) : IO := Io (io_seg io) (u16 (io_ioc io - 1)) (io_seek io) (io_base io + 1) (io_phys io).
