(* ===== verification/Inode.v ===== *)
(** In-core and disk inodes (kernel/coh/fs1.c but for [ftoi] and its makers;
    kernel/coh/fs2.c: [indfree], [ialloc], [bad]). *)
From S2P Require Import Prelude Sched Bytes Bcache Super Fs Free Fmap Ftree.
Local Open Scope Z_scope.
Local Open Scope kernel_scope.

Definition IFACC : Z := 1.
Definition IFMOD : Z := 2.
Definition IFCRT : Z := 4.
Definition IFMNT : Z := 8.
Definition IPR : Z := 4.
Definition IPW : Z := 2.
Definition IPE : Z := 1.
Definition ASU : Z := 2.
Definition DIRSIZ : Z := 14.

(** Pipe fields of the address union. *)
Definition i_pnc (x : INODE) : Z := s16 (get16 (i_a x) 40).
Definition i_prx (x : INODE) : Z := s16 (get16 (i_a x) 42).
Definition i_pwx (x : INODE) : Z := s16 (get16 (i_a x) 44).
(** The first [n] addresses. *)
Definition i_addrs (x : INODE) (n : Z) : list Z := longs (i_a x) 0 (Z.to_nat n).

(** ** Disk inodes *)

(** The 40 bytes of addresses of a disk inode, over the bytes [junk] that were
    in the structure before. *)
Definition dinode_a (x : INODE) (junk : list Z) : list Z :=
  let t := itype x in
  if (t =? IFBLK) || (t =? IFCHR) then upd junk 0 (enc16 (i_rdev x))
  else if (t =? IFREG) || (t =? IFDIR) then upd junk 0 (ltol3 (i_addrs x NADDR) (Z.to_nat NADDR))
  else if t =? IFPIPE then
    upd (upd (upd (upd junk 0 (ltol3 (i_addrs x ND) (Z.to_nat ND))) 30 (enc16 (i_pnc x))) 32 (enc16 (i_prx x))) 34 (enc16 (i_pwx x))
  else repeat 0 40.
Definition dinode_out (x : INODE) (junk : list Z) : list Z :=
  enc16 (i_mode x) ++ enc16 (i_nlink x) ++ enc16 (i_uid x) ++ enc16 (i_gid x) ++ enc32 (i_size x) ++
  dinode_a x junk ++ enc32 (i_atime x) ++ enc32 (i_mtime x) ++ enc32 (i_ctime x).

(** The address union made of a disk inode [d] with mode [m]. *)
Definition inode_a (m : Z) (d a : list Z) : list Z :=
  let t := Z.land m IFMT in
  if (t =? IFBLK) || (t =? IFCHR) then put16 a 0 (dec16 d 12)
  else if (t =? IFREG) || (t =? IFDIR) then upd a 0 (unlongs (l3tol (sub d 12 40) (Z.to_nat NADDR)))
  else if t =? IFPIPE then
    put16 (put16 (put16 (upd a 0 (unlongs (l3tol (sub d 12 40) (Z.to_nat ND)))) 40 (dec16 d 42)) 42 (dec16 d 44)) 44 (dec16 d 46)
  else repeat 0 52.
(** [icopydm] with the disk inode [d]. *)
Definition dinode_in (d : list Z) (x : INODE) : INODE :=
  let m := dec16 d 0 in
  Inode (i_dev x) (i_ino x) (i_refc x) (i_lrt x) (i_gate x) 0 m (dec16 d 2) (dec16 d 4) (dec16 d 6) (dec32 d 8)
    (inode_a m d (i_a x)) (dec32 d 52) (dec32 d 56) (dec32 d 60).

Section inode.
Context {C : Type} `{BufCache C}.
Context (retry : nat).

(** ** Gates and times *)

Fixpoint ilock_loop (n : nat) (ip : nat) : M (fs C) unit :=
  match n with
  | O => nofuel
  | S n =>
    x <- geti ip ;;
    if i_gate x then sleep (ChInode ip) ;;; ilock_loop n ip else puti ip (set_i_gate true)
  end.
Definition ilock (ip : nat) : M (fs C) unit := ilock_loop retry ip.
Definition iunlock (ip : nat) : M (fs C) unit := puti ip (set_i_gate false).

Definition iamc (ip : nat) : M (fs C) unit :=
  t <- gets t_time ;;
  puti ip (fun x => set_i_ctime t (set_i_mtime t (set_i_atime t
    (set_i_flag (Z.lor (i_flag x) (Z.lor (Z.lor IFACC IFMOD) IFCRT)) x)))).

(** ** Permissions *)

Definition super : M (fs C) bool :=
  uid <- gets u_uid ;;
  if negb (uid =? 0) then error EPERM ;;; kret false
  else modify (fun s => set_u_flag (Z.lor (u_flag s) ASU) s) ;;; kret true.
Definition owner (uid : Z) : M (fs C) bool :=
  u <- gets u_uid ;;
  if u =? uid then kret true
  else if u =? 0 then modify (fun s => set_u_flag (Z.lor (u_flag s) ASU) s) ;;; kret true
  else error EPERM ;;; kret false.

Definition imode (x : INODE) (uid gid : Z) : Z :=
  if uid =? 0 then Z.lor (Z.lor IPR IPW) IPE
  else if uid =? i_uid x then Z.land (Z.shiftr (i_mode x) 6) 7
  else if gid =? i_gid x then Z.land (Z.shiftr (i_mode x) 3) 7
  else Z.land (i_mode x) 7.
Definition iaccess (ip : nat) (mode : Z) : M (fs C) bool :=
  x <- geti ip ;;
  uid <- gets u_uid ;;
  gid <- gets u_gid ;;
  if negb (Z.land (imode x uid gid) mode =? mode) then error EACCES ;;; kret false else kret true.

Record stat := Stat {
  st_dev : Z; st_ino : Z; st_mode : Z; st_nlink : Z; st_uid : Z; st_gid : Z;
  st_rdev : Z; st_size : Z; st_atime : Z; st_mtime : Z; st_ctime : Z
}.
Definition istat (x : INODE) : stat :=
  let t := itype x in
  let dev := (t =? IFBLK) || (t =? IFCHR) in
  Stat (i_dev x) (i_ino x) (u16 (i_mode x)) (i_nlink x) (i_uid x) (i_gid x)
    (if dev then i_rdev x else NODEV) (if dev then 0 else if t =? IFPIPE then i_pnc x else i_size x)
    (i_atime x) (i_mtime x) (i_ctime x).

(** [direq] for a directory entry of 16 bytes. *)
Definition direq (d : list Z) (name : list Z) : bool :=
  if get16 d 0 =? 0 then false else bool_decide (sub d 2 (Z.to_nat DIRSIZ) = name).

(** ** Freeing the blocks of a file *)

(** The [while] loop of [indfree]; [f] frees what an entry names. *)
Fixpoint ind_loop (f : Z -> M (fs C) unit) (bp i : nat) : M (fs C) unit :=
  match i with
  | O => kret tt
  | S i =>
    d <- vaddr bp ;;
    (if get32 d (4 * i) =? 0 then kret tt else f (entry d (Z.of_nat i))) ;;;
    ind_loop f bp i
  end.

Fixpoint indfree (dev : Z) (l : nat) : Z -> M (fs C) unit :=
  match l with
  | O => fun b => if b =? 0 then kret tt else bfree retry dev b
  | S l => let next := indfree dev l in fun b =>
    if b =? 0 then kret tt else
    r <- bread dev b ;;
    match r with
    | Some bp =>
      ind_loop (match l with O => bfree retry dev | _ => next end) bp (Z.to_nat NBN) ;;;
      brelease bp
    | None => kret tt
    end ;;;
    bfree retry dev b
  end.

(** The two [while] loops of [iclear]. *)
Fixpoint clear_addrs (n : nat) (ip : nat) : M (fs C) unit :=
  match n with
  | O => kret tt
  | S n =>
    x <- geti ip ;;
    b <- deref (i_addr x (Z.of_nat n)) ;;
    (if b =? 0 then kret tt
     else if ND <=? Z.of_nat n then indfree (i_dev x) (Z.to_nat (1 + Z.of_nat n - ND)) b
     else bfree retry (i_dev x) b) ;;;
    clear_addrs n ip
  end.

Definition iclear (ip : nat) : M (fs C) unit :=
  x <- geti ip ;;
  let t := itype x in
  let go n :=
    clear_addrs (Z.to_nat n) ip ;;;
    puti ip (set_i_size 0) ;;;
    puti ip (set_i_a (repeat 0 52)) ;;;
    iamc ip in
  if t =? IFPIPE then
    puti ip (fun x => set_i_a (put16 (put16 (put16 (i_a x) 40 0) 42 0) 44 0) x) ;;; go ND
  else if (t =? IFDIR) || (t =? IFREG) then go NADDR
  else kret tt.

(** ** Between disk and memory *)

(** The disk inode [ino] in a buffer. *)
Definition dinode_off (ino : Z) : nat := Z.to_nat (64 * iblocko ino).

Definition icopydm (ip : nat) : M (fs C) bool :=
  puti ip (set_i_flag 0) ;;;
  x <- geti ip ;;
  let ino := i_ino x in
  r <- bread (i_dev x) (iblockn ino) ;;
  match r with
  | None => kret false
  | Some bp =>
    d <- vaddr bp ;;
    brelease bp ;;;
    puti ip (dinode_in (sub d (dinode_off ino) 64)) ;;;
    kret true
  end.

(** [junk] is what the stack held where [dinode] is. *)
Definition icopymd (junk : list Z) (ip : nat) : M (fs C) unit :=
  x <- geti ip ;;
  ok <- getment (i_dev x) 0 ;;
  if negb ok then kret tt else
  let ino := i_ino x in
  (if (i_refc x =? 0) && (i_nlink x =? 0) && negb (ino =? BADFIN) && negb (ino =? ROOTIN) then
     iclear ip ;;;
     puti ip (set_i_lrt 0) ;;;
     puti ip (set_i_mode 0) ;;;
     ifree retry (i_dev x) ino
   else kret tt) ;;;
  x <- geti ip ;;
  let d := dinode_out x junk in
  r <- bread (i_dev x) (iblockn ino) ;;
  match r with
  | None => kret tt
  | Some bp =>
    store bp (fun b => upd b (dinode_off ino) d) ;;;
    setmod bp ;;;
    brelease bp ;;;
    puti ip (fun x => set_i_flag (Z.land (i_flag x) (Z.lnot (Z.lor (Z.lor IFACC IFMOD) IFCRT))) x)
  end.

Definition dirty (x : INODE) : bool := negb (Z.land (i_flag x) (Z.lor (Z.lor IFACC IFMOD) IFCRT) =? 0).

(** The loops over the table. *)
Fixpoint for_inodes (ips : list nat) (body : nat -> M (fs C) unit) : M (fs C) unit :=
  match ips with
  | [] => kret tt
  | ip :: ips => body ip ;;; for_inodes ips body
  end.
Definition all_inodes (body : nat -> M (fs C) unit) : M (fs C) unit :=
  l <- gets inodep ;; for_inodes (seq 0 (length l)) body.

Definition isync (junk : list Z) (dev : Z) : M (fs C) unit :=
  all_inodes (fun ip =>
    x <- geti ip ;;
    if (i_refc x =? 0) || negb (i_dev x =? dev) || negb (dirty x) || (itype x =? IFCHR) then kret tt
    else icopymd junk ip).

Definition iremap (dev : Z) : M (fs C) unit :=
  all_inodes (fun ip =>
    x <- geti ip ;;
    if (i_refc x =? 0) || negb (i_dev x =? dev) then kret tt else
    let mnt := Z.land (i_flag x) IFMNT in
    icopydm ip ;;;
    puti ip (fun x => set_i_flag (Z.lor (i_flag x) mnt) x)).

(** ** Attaching and detaching *)

Definition idetach (junk : list Z) (ip : nat) : M (fs C) unit :=
  x <- geti ip ;;
  if negb (i_gate x) || (i_refc x <=? 0) then panic "idetach(%p)" else
  puti ip (set_i_refc (s16 (i_refc x - 1))) ;;;
  (if (s16 (i_refc x - 1) =? 0) && (dirty x || (i_nlink x =? 0)) then icopymd junk ip else kret tt) ;;;
  iunlock ip.
Definition ldetach (junk : list Z) (ip : nat) : M (fs C) unit := ilock ip ;;; idetach junk ip.

(** The slot of an inode, and the slot to reuse: the free one with the least
    [i_lrt], the first of those. *)
Definition is_inode (dev ino : Z) (x : INODE) : bool := (i_ino x =? ino) && (i_dev x =? dev).
Fixpoint find_inode (dev ino : Z) (l : list INODE) (n : nat) : option nat :=
  match l with
  | [] => None
  | x :: l => if is_inode dev ino x then Some n else find_inode dev ino l (S n)
  end.
Fixpoint find_free (l : list INODE) (n : nat) (best : option (nat * Z)) : option nat :=
  match l with
  | [] => option_map fst best
  | x :: l =>
    find_free l (S n)
      (if i_refc x =? 0 then
         match best with
         | None => Some (n, i_lrt x)
         | Some (_, lrt) => if i_lrt x <? lrt then Some (n, i_lrt x) else best
         end
       else best)
  end.
(** The mount entry on an inode: its root. *)
Fixpoint mounted_on (ip : nat) (l : list MOUNT) : option Z :=
  match l with
  | [] => None
  | mp :: l => if bool_decide (m_ip mp = Some ip) then Some (m_dev mp) else mounted_on ip l
  end.

Fixpoint iattach (fuel : nat) (dev ino : Z) : M (fs C) (option nat) :=
  match fuel with
  | O => nofuel
  | S fuel =>
    l <- gets inodep ;;
    match find_inode dev ino l 0 with
    | None =>
      match find_free l 0 None with
      | None => devmsg dev "Inode table overflow" ;;; error ENFILE ;;; kret None
      | Some ip =>
        ilock ip ;;;
        x <- geti ip ;;
        if negb (i_refc x =? 0) then iunlock ip ;;; iattach fuel dev ino else
        l <- gets inodep ;;
        match find_inode dev ino l 0 with
        | Some _ => iunlock ip ;;; iattach fuel dev ino
        | None =>
          t <- gets t_time ;;
          puti ip (fun x => set_i_lrt (u16 t) (set_i_refc 1 (set_i_ino ino (set_i_dev dev x)))) ;;;
          ok <- icopydm ip ;;
          if negb ok then
            puti ip (fun x => set_i_refc 0 (set_i_ino 0 x)) ;;;
            iunlock ip ;;;
            kret None
          else kret (Some ip)
        end
      end
    | Some ip =>
      x <- geti ip ;;
      if negb (Z.land (i_flag x) IFMNT =? 0) then
        m <- gets mtab ;;
        match mounted_on ip m with
        | Some d => iattach fuel d ROOTIN
        | None => iattach fuel dev ino
        end
      else
      ilock ip ;;;
      x <- geti ip ;;
      if negb (is_inode dev ino x) then iunlock ip ;;; iattach fuel dev ino else
      if i_refc x <? 0 then panic "ialloc(%p), ip" else
      t <- gets t_time ;;
      puti ip (fun x => set_i_lrt (u16 t) (set_i_refc (s16 (i_refc x + 1)) x)) ;;;
      kret (Some ip)
    end
  end.

(** [iucheck]: the inode in core, or a copy from disk in a variable. *)
Definition iucheck (dev ino : Z) : M (fs C) bool :=
  l <- gets inodep ;;
  m <- match find_inode dev ino l 0 with
       | Some ip => x <- geti ip ;; kret (Some (itype x))
       | None =>
         r <- bread dev (iblockn ino) ;;
         match r with
         | None => kret None
         | Some bp =>
           d <- vaddr bp ;;
           brelease bp ;;;
           kret (Some (Z.land (dec16 (sub d (dinode_off ino) 64) 0) IFMT))
         end
       end ;;
  match m with
  | None => kret false
  | Some t => if t =? IFDIR then super else kret true
  end.

(** ** Allocating inodes *)

(** The [for] loops of [bad] over the addresses of the bad block file. *)
Fixpoint bad_direct (x : INODE) (b : Z) (i : nat) (m : nat) : M (fs C) bool :=
  match m with
  | O => kret false
  | S m =>
    a <- deref (i_addr x (Z.of_nat i)) ;;
    if b =? a then kret true else bad_direct x b (S i) m
  end.
Fixpoint bad_entries (d : list Z) (b : Z) (i : nat) (m : nat) : bool :=
  match m with
  | O => false
  | S m => if b =? canl (s32 (get32 d (4 * i))) then true else bad_entries d b (S i) m
  end.

Definition bad (fuel : nat) (junk : list Z) (dev b : Z) : M (fs C) bool :=
  oerror <- gets u_error ;;
  r <- iattach fuel dev BADFIN ;;
  match r with
  | None => error oerror ;;; kret true
  | Some ip =>
    x <- geti ip ;;
    let n := s16 (blockn (i_size x)) in
    let m := if ND <? n then ND else n in
    found <- bad_direct x b 0 (Z.to_nat m) ;;
    if (found : bool) then idetach junk ip ;;; kret true else
    l <- deref (i_addr x ND) ;;
    idetach junk ip ;;;
    let n := if 0 <? m then n - m else n in
    if n =? 0 then kret false else
    r <- bread dev l ;;
    match r with
    | None => kret false
    | Some bp =>
      d <- vaddr bp ;;
      brelease bp ;;;
      kret (bad_entries d b 0 (Z.to_nat (if NBN <? n then NBN else n)))
    end
  end.

(** The entries of one block of inodes: [modes] is what is left of it, [k]
    the place in [s_inode]. *)
Fixpoint scan_dinodes (dev : Z) (modes : list Z) (ino k : Z) : M (fs C) (Z * Z) :=
  match modes with
  | [] => kret (ino, k)
  | m :: modes =>
    if negb (m =? 0) then scan_dinodes dev modes (u16 (ino + 1)) k
    else if NICINOD <=? k then kret (ino, k) else
    sb <- getsb dev ;;
    l <- deref (aset (s_inode sb) k ino) ;;
    putsb dev (set_s_inode l) ;;;
    scan_dinodes dev modes (u16 (ino + 1)) (k + 1)
  end.
Definition dinode_modes (d : list Z) : list Z := map (fun i => get16 d (64 * i)) (seq 0 (Z.to_nat INOPB)).

(** The scan of the inode list; [None] when the free list was refilled while
    the gate was down, else the number of inodes found. *)
Fixpoint ialloc_scan (n : nat) (fuel : nat) (junk : list Z) (dev b ino k : Z) : M (fs C) (option Z) :=
  match n with
  | O => nofuel
  | S n =>
    sb <- getsb dev ;;
    if negb (b <? s_isize sb) then kret (Some k) else
    munlock dev true ;;;
    badb <- bad fuel junk dev b ;;
    mlock retry dev true ;;;
    sb <- getsb dev ;;
    if negb (s_ninode sb =? 0) then kret None else
    if (badb : bool) then ialloc_scan n fuel junk dev (b + 1) (u16 (ino + INOPB)) k else
    r <- bread dev b ;;
    match r with
    | None => ialloc_scan n fuel junk dev (b + 1) (u16 (ino + INOPB)) k
    | Some bp =>
      d <- vaddr bp ;;
      p <- scan_dinodes dev (dinode_modes d) ino k ;;
      brelease bp ;;;
      if NICINOD <=? snd p then kret (Some (snd p))
      else ialloc_scan n fuel junk dev (b + 1) (fst p) (snd p)
    end
  end.

(** From the label [haveilock] to a list that is not empty; [false] when there
    are no inodes. *)
Fixpoint ialloc_fill (n : nat) (fuel : nat) (junk : list Z) (dev : Z) : M (fs C) bool :=
  match n with
  | O => nofuel
  | S n =>
    smod dev ;;;
    sb <- getsb dev ;;
    if negb (s_ninode sb =? 0) then kret true else
    r <- ialloc_scan (Z.to_nat (s_isize sb)) fuel junk dev INODEI 1 0 ;;
    match r with
    | None => ialloc_fill n fuel junk dev
    | Some k =>
      putsb dev (set_s_ninode k) ;;;
      if k =? 0 then
        putsb dev (set_s_tinode 0) ;;;
        munlock dev true ;;;
        devmsg dev "Out of inodes" ;;;
        error ENOSPC ;;;
        kret false
      else kret true
    end
  end.

Fixpoint ialloc_loop (n : nat) (fuel : nat) (junk : list Z) (dev mode : Z) : M (fs C) (option nat) :=
  match n with
  | O => nofuel
  | S n =>
    mlock retry dev true ;;;
    ok <- ialloc_fill fuel fuel junk dev ;;
    if negb ok then kret None else
    putsb dev (fun sb => set_s_ninode (s16 (s_ninode sb - 1)) sb) ;;;
    sb <- getsb dev ;;
    ino <- deref (aget (s_inode sb) (s_ninode sb)) ;;
    putsb dev (fun sb => set_s_tinode (u16 (s_tinode sb - 1)) sb) ;;;
    smod dev ;;;
    munlock dev true ;;;
    r <- iattach fuel dev ino ;;
    match r with
    | Some ip =>
      x <- geti ip ;;
      if negb (i_mode x =? 0) then
        devmsg dev "Inode %u busy" ;;;
        idetach junk ip ;;;
        ialloc_loop n fuel junk dev mode
      else
      uid <- gets u_uid ;;
      gid <- gets u_gid ;;
      puti ip (fun x => set_i_gid gid (set_i_uid uid (set_i_nlink 0 (set_i_mode (s16 mode) (set_i_flag 0 x))))) ;;;
      kret (Some ip)
    | None => ifree retry dev ino ;;; kret None
    end
  end.

Definition ialloc (n fuel : nat) (junk : list Z) (dev mode : Z) : M (fs C) (option nat) :=
  ok <- getment dev 1 ;;
  if negb ok then kret None else ialloc_loop n fuel junk dev mode.
End inode.

(** ** Disk inodes read back *)

(** The fields in their declared widths, and addresses of three bytes. *)
Record inode_ok (x : INODE) : Prop := {
  io_short : Forall is16 [i_mode x; i_nlink x; i_uid x; i_gid x];
  io_long : Forall is32 [i_size x; i_atime x; i_mtime x; i_ctime x];
  io_a : length (i_a x) = 52%nat /\ arebytes (i_a x);
  io_addr24 : (itype x = IFREG \/ itype x = IFDIR -> Forall addr24 (i_addrs x NADDR)) /\
              (itype x = IFPIPE -> Forall addr24 (i_addrs x ND))
}.

(** The address unions of [x] and [z] say the same for the type of [x]. *)
Definition same_addrs (x z : INODE) : Prop :=
  let t := itype x in
  if (t =? IFBLK) || (t =? IFCHR) then i_rdev z = i_rdev x
  else if (t =? IFREG) || (t =? IFDIR) then i_a z = i_a x
  else if t =? IFPIPE then i_addrs z ND = i_addrs x ND /\ i_pnc z = i_pnc x /\ i_prx z = i_prx x /\ i_pwx z = i_pwx x
  else i_a z = repeat 0 52.
(** [z] is a copy of the file [x]. *)
Record same_file (x z : INODE) : Prop := {
  sf_short : i_mode z = i_mode x /\ i_nlink z = i_nlink x /\ i_uid z = i_uid x /\ i_gid z = i_gid x;
  sf_long : i_size z = i_size x /\ i_atime z = i_atime x /\ i_mtime z = i_mtime x /\ i_ctime z = i_ctime x;
  sf_addrs : same_addrs x z
}.

Lemma dec16_at l o v : sub l o 2 = enc16 v -> dec16 l o = s16 v.
Proof. intros E. unfold dec16, get16. rewrite E. apply be_enc16. Qed.
Lemma dec32_at l o v : sub l o 4 = enc32 v -> dec32 l o = s32 v.
Proof. intros E. unfold dec32, get32. rewrite E. apply be_enc32. Qed.

Lemma length_i_addrs x n : length (i_addrs x n) = Z.to_nat n.
Proof. apply length_longs. Qed.

Lemma length_dinode_a x junk : length (i_a x) = 52%nat -> length junk = 40%nat -> length (dinode_a x junk) = 40%nat.
Proof.
  intros Ha Hj. unfold dinode_a.
  assert (length (ltol3 (i_addrs x NADDR) (Z.to_nat NADDR)) = 39%nat) as L1.
  { rewrite <- (length_i_addrs x NADDR) at 1. rewrite length_ltol3. by rewrite length_i_addrs. }
  assert (length (ltol3 (i_addrs x ND) (Z.to_nat ND)) = 30%nat) as L2.
  { rewrite <- (length_i_addrs x ND) at 1. rewrite length_ltol3. by rewrite length_i_addrs. }
  assert (forall v, length (enc16 v) = 2%nat) as L3 by done.
  destruct (_ || _); [rewrite length_upd; rewrite ?L3; lia|]. destruct (_ || _); [rewrite length_upd; rewrite ?L1; lia|].
  destruct (_ =? _); [|done].
  assert (length (upd junk 0 (ltol3 (i_addrs x ND) (Z.to_nat ND))) = 40%nat) as U1 by (rewrite length_upd; rewrite ?L2; lia).
  assert (forall l o v, length l = 40%nat -> (o <= 38)%nat -> length (upd l o (enc16 v)) = 40%nat) as U2.
  { intros l o v El Ho. rewrite length_upd; rewrite ?L3; lia. }
  repeat (apply U2; [|lia]). exact U1.
Qed.

(** The fields of a disk inode image. *)
Lemma dinode_fields x junk : length (i_a x) = 52%nat -> length junk = 40%nat ->
  let d := dinode_out x junk in
  length d = 64%nat /\
  (sub d 0 2 = enc16 (i_mode x) /\ sub d 2 2 = enc16 (i_nlink x) /\ sub d 4 2 = enc16 (i_uid x) /\ sub d 6 2 = enc16 (i_gid x)) /\
  (sub d 8 4 = enc32 (i_size x) /\ sub d 52 4 = enc32 (i_atime x) /\ sub d 56 4 = enc32 (i_mtime x) /\ sub d 60 4 = enc32 (i_ctime x)) /\
  sub d 12 40 = dinode_a x junk.
Proof.
  intros Ha Hj d. pose proof (length_dinode_a x junk Ha Hj) as La.
  assert (forall v, length (enc16 v) = 2%nat) as E16 by done. assert (forall v, length (enc32 v) = 4%nat) as E32 by done.
  pose proof (E16 (i_mode x)). pose proof (E16 (i_nlink x)). pose proof (E16 (i_uid x)). pose proof (E16 (i_gid x)).
  pose proof (E32 (i_size x)). pose proof (E32 (i_atime x)). pose proof (E32 (i_mtime x)). pose proof (E32 (i_ctime x)).
  unfold d, dinode_out. split; [rewrite !length_app, La; done|].
  split_and!; find_field; reflexivity.
Qed.

(** Addresses of the inode from its bytes and back. *)
Lemma unlongs_longs l n : forall o, arebytes l -> (o + 4 * n <= length l)%nat -> unlongs (longs l o n) = sub l o (4 * n).
Proof.
  induction n as [|n IH]; intros o Hl Ho; [done|]. cbn [longs]. unfold unlongs. cbn [map concat]. fold (unlongs (longs l (o + 4) n)).
  rewrite IH by (done || lia). unfold get32. rewrite u32_s32.
  assert (arebytes (sub l o 4)) as Hb by by apply sub_bytes. assert (length (sub l o 4) = 4%nat) as E4 by (apply length_sub; lia).
  pose proof (be_range _ Hb) as Hr. rewrite E4 in Hr. rewrite u32_small by (change (256 ^ Z.of_nat 4) with 4294967296 in Hr; lia).
  rewrite <- E4 at 1. rewrite unbe_be by done.
  apply list_eq. intros i. rewrite lookup_sub. destruct (decide (i < 4)%nat) as [Hi|Hi].
  - rewrite lookup_app_l by lia. rewrite lookup_sub, decide_True by done. by rewrite decide_True by lia.
  - rewrite lookup_app_r by lia. rewrite E4, lookup_sub. destruct (decide (i < 4 * S n)%nat); [rewrite decide_True by lia|by rewrite decide_False by lia].
    f_equal. lia.
Qed.

Lemma upd_over {A} (l bs : list A) : length bs = length l -> upd l 0 bs = bs.
Proof. intros E. unfold upd. rewrite take_0, drop_ge by lia. by rewrite app_nil_r. Qed.
Lemma upd_front {A} (l bs : list A) : upd l 0 bs = bs ++ drop (length bs) l.
Proof. done. Qed.

(** Reading the addresses of a disk inode: regular files, pipes. *)
Lemma l3tol_upd x junk n : Forall addr24 (i_addrs x n) ->
  l3tol (upd junk 0 (ltol3 (i_addrs x n) (Z.to_nat n))) (Z.to_nat n) = i_addrs x n.
Proof.
  intros H. rewrite upd_front. rewrite <- (length_i_addrs x n) at 1 3. by apply l3tol_ltol3.
Qed.

Lemma sub_upd16 (l : list Z) o v : (o + 2 <= length l)%nat -> sub (upd l o (enc16 v)) o 2 = enc16 v.
Proof. intros Hl. change 2%nat with (length (enc16 v)). apply sub_upd_same. done. Qed.

Lemma get16_s16 x o : arebytes (i_a x) -> u16 (s16 (get16 (i_a x) o)) = get16 (i_a x) o.
Proof. intros Hb. rewrite u16_s16. apply u16_small. by apply get16_range. Qed.

Lemma longs_upd_front l bs n : longs (upd l 0 bs) 0 n = longs (bs ++ drop (length bs) l) 0 n.
Proof. done. Qed.

Lemma longs_put16 l o v n : (o + 2 <= length l)%nat -> (4 * n <= o)%nat -> longs (put16 l o v) 0 n = longs l 0 n.
Proof.
  intros Hl Hn. replace (longs (put16 l o v) 0 n) with (longs (sub (put16 l o v) 0 (4 * n)) 0 n) by (by rewrite longs_sub by lia).
  rewrite sub_put16 by lia. by rewrite longs_sub by lia.
Qed.

Lemma get16_put16_ne l o v o' : (o + 2 <= length l)%nat -> (o' + 2 <= o \/ o + 2 <= o')%nat -> get16 (put16 l o v) o' = get16 l o'.
Proof. intros. unfold get16. by rewrite sub_put16. Qed.

(** A device inode. *)
Lemma same_rdev x (d a : list Z) z : arebytes (i_a x) -> length a = 52%nat -> sub d 12 2 = enc16 (i_rdev x) ->
  i_a z = put16 a 0 (dec16 d 12) -> i_rdev z = i_rdev x.
Proof.
  intros Hb La Ed Ez. unfold i_rdev. rewrite Ez, get16_put16 by lia. rewrite (dec16_at _ _ _ Ed). by apply get16_s16.
Qed.

(** A pipe. *)
Lemma same_pipe x (d a : list Z) z : arebytes (i_a x) -> length (i_a x) = 52%nat -> length a = 52%nat -> Forall addr24 (i_addrs x ND) ->
  sub d 42 2 = enc16 (i_pnc x) -> sub d 44 2 = enc16 (i_prx x) -> sub d 46 2 = enc16 (i_pwx x) ->
  i_a z = put16 (put16 (put16 (upd a 0 (unlongs (i_addrs x ND))) 40 (dec16 d 42)) 42 (dec16 d 44)) 44 (dec16 d 46) ->
  i_addrs z ND = i_addrs x ND /\ i_pnc z = i_pnc x /\ i_prx z = i_prx x /\ i_pwx z = i_pwx x.
Proof.
  intros Hb Lx La H24 E1 E2 E3 Ez. set (u := upd a 0 (unlongs (i_addrs x ND))) in *.
  assert (length u = 52%nat) as Lu.
  { unfold u. rewrite length_upd by (rewrite length_unlongs, length_i_addrs; change (Z.to_nat ND) with 10%nat; lia). done. }
  rewrite (dec16_at _ _ _ E1), (dec16_at _ _ _ E2), (dec16_at _ _ _ E3) in Ez.
  assert (forall o, s16 (s16 (get16 (i_a x) o)) = s16 (get16 (i_a x) o)) as Ess.
  { intros o. apply s16_small, s16_range. }
  unfold i_pnc, i_prx, i_pwx in *. rewrite !Ess in Ez.
  assert (forall l o v, length l = 52%nat -> (o <= 50)%nat -> length (put16 l o v) = 52%nat) as Lp.
  { intros l o v El Ho. rewrite length_put16; lia. }
  set (u1 := put16 u 40 _) in Ez. assert (length u1 = 52%nat) as L1 by (apply Lp; [done|lia]).
  set (u2 := put16 u1 42 _) in Ez. assert (length u2 = 52%nat) as L2 by (apply Lp; [done|lia]).
  change (Z.to_nat ND) with 10%nat in *.
  repeat split; rewrite ?Ez.
  - unfold i_addrs at 1. rewrite Ez. change (Z.to_nat ND) with 10%nat.
    rewrite longs_put16 by lia. unfold u2. rewrite longs_put16 by lia. unfold u1. rewrite longs_put16 by lia.
    unfold u. rewrite upd_front. change 10%nat with (Z.to_nat ND). rewrite <- (length_i_addrs x ND) at 1. rewrite longs_unlongs.
    apply map_s32_id. eapply Forall_impl; [exact H24|]. intros v. unfold addr24, is32. lia.
  - rewrite get16_put16_ne by lia. unfold u2. rewrite get16_put16_ne by lia. unfold u1. rewrite get16_put16 by lia. by rewrite s16_u16.
  - rewrite get16_put16_ne by lia. unfold u2. rewrite get16_put16 by lia. by rewrite s16_u16.
  - rewrite get16_put16 by lia. by rewrite s16_u16.
Qed.

Lemma pipe_fields x junk : (itype x =? IFBLK) || (itype x =? IFCHR) = false -> (itype x =? IFREG) || (itype x =? IFDIR) = false ->
  (itype x =? IFPIPE) = true -> Forall addr24 (i_addrs x ND) -> length junk = 40%nat ->
  let a := dinode_a x junk in
  l3tol a (Z.to_nat ND) = i_addrs x ND /\ sub a 30 2 = enc16 (i_pnc x) /\ sub a 32 2 = enc16 (i_prx x) /\ sub a 34 2 = enc16 (i_pwx x).
Proof.
  intros E1 E2 E3 H24 Hj a. assert (length (ltol3 (i_addrs x ND) (Z.to_nat ND)) = 30%nat) as L2.
  { rewrite <- (length_i_addrs x ND) at 1. rewrite length_ltol3. by rewrite length_i_addrs. }
  assert (a = ltol3 (i_addrs x ND) (Z.to_nat ND) ++ enc16 (i_pnc x) ++ enc16 (i_prx x) ++ enc16 (i_pwx x) ++ drop 36 junk) as ->.
  { unfold a, dinode_a. rewrite E1, E2, E3. rewrite upd_front, L2. 
    do 40 (destruct junk as [|? junk]; [done|]). destruct junk; [|done].
    remember (ltol3 (i_addrs x ND) (Z.to_nat ND)) as l. clear -L2. do 30 (destruct l as [|? l]; [done|]). by destruct l. }
  split.
  - rewrite <- (length_i_addrs x ND) at 1 2. by apply l3tol_ltol3.
  - assert (forall v, length (enc16 v) = 2%nat) as E16 by done.
    pose proof (E16 (i_pnc x)). pose proof (E16 (i_prx x)). pose proof (E16 (i_pwx x)). split_and!; find_field; reflexivity.
Qed.

(** What [dinode_in] makes of it. *)
Lemma dinode_in_out x y junk : inode_ok x -> length (i_a y) = 52%nat -> length junk = 40%nat ->
  same_file x (dinode_in (dinode_out x junk) y).
Proof.
  intros [Hsh Hlg [Ha Hab] [H24 H24p]] Hy Hj. destruct (dinode_fields x junk Ha Hj) as (Ld & (F1 & F2 & F3 & F4) & (F5 & F6 & F7 & F8) & Fa).
  set (d := dinode_out x junk) in *.
  repeat match goal with H : Forall _ (_ :: _) |- _ => apply Forall_cons in H as [? H] end.
  assert (dec16 d 0 = i_mode x) as Em by (rewrite (dec16_at _ _ _ F1); by apply s16_small).
  split.
  - cbn [dinode_in i_mode i_nlink i_uid i_gid]. rewrite (dec16_at _ _ _ F1), (dec16_at _ _ _ F2), (dec16_at _ _ _ F3), (dec16_at _ _ _ F4).
    rewrite !s16_small by done. done.
  - cbn [dinode_in i_size i_atime i_mtime i_ctime]. rewrite (dec32_at _ _ _ F5), (dec32_at _ _ _ F6), (dec32_at _ _ _ F7), (dec32_at _ _ _ F8).
    rewrite !s32_small by done. done.
  - assert (i_a (dinode_in d y) = inode_a (i_mode x) d (i_a y)) as Ez by (rewrite <- Em; reflexivity).
    unfold inode_a in Ez. fold (itype x) in Ez. unfold same_addrs. cbv zeta.
    assert (forall o, (o + 2 <= 40)%nat -> sub d (12 + o) 2 = sub (dinode_a x junk) o 2) as Hs.
    { intros o Ho. rewrite <- Fa. symmetry. by apply sub_sub. }
    destruct ((itype x =? IFBLK) || (itype x =? IFCHR)) eqn:E1; [|destruct ((itype x =? IFREG) || (itype x =? IFDIR)) eqn:E2;
      [|destruct (itype x =? IFPIPE) eqn:E3; [|done]]].
    + apply (same_rdev x d (i_a y)); [done|done| |done].
      rewrite (Hs 0%nat : _ -> sub d 12 2 = _) by lia. unfold dinode_a. rewrite E1. apply sub_upd16. lia.
    + rewrite Ez, Fa. unfold dinode_a. rewrite E1, E2. rewrite l3tol_upd.
      * unfold i_addrs. rewrite unlongs_longs by (done || (rewrite Ha; unfold NADDR; lia)).
        change (4 * Z.to_nat NADDR)%nat with 52%nat. rewrite sub_whole by done. apply upd_over. congruence.
      * apply H24. apply orb_true_iff in E2 as [E2%Z.eqb_eq|E2%Z.eqb_eq]; tauto.
    + assert (Forall addr24 (i_addrs x ND)) as Hn by by apply H24p, Z.eqb_eq.
      destruct (pipe_fields x junk E1 E2 E3 Hn Hj) as (P0 & P1 & P2 & P3).
      rewrite Fa in Ez. rewrite P0 in Ez.
      apply (same_pipe x d (i_a y)); try done; [by rewrite (Hs 30%nat : _ -> sub d 42 2 = _) by lia|by rewrite (Hs 32%nat : _ -> sub d 44 2 = _) by lia|by rewrite (Hs 34%nat : _ -> sub d 46 2 = _) by lia].
Qed.

Section transfer.
Context {C : Type} `{BufCacheLaws C}.
Context (retry : nat).

Lemma dinode_off_range ino : (dinode_off ino + 64 <= Z.to_nat BSIZE)%nat.
Proof.
  unfold dinode_off, iblocko, INOPB, BSIZE. pose proof (Z.mod_pos_bound (u16 (ino - 1)) 8 ltac:(lia)). lia.
Qed.

Lemma length_dinode_out x junk : length (i_a x) = 52%nat -> length junk = 40%nat -> length (dinode_out x junk) = 64%nat.
Proof. intros Ha Hj. by destruct (dinode_fields x junk Ha Hj). Qed.

(** The block of an inode after [icopymd]. *)
Definition inode_stored (junk : list Z) (x : INODE) (v : bview) : bview :=
  let k := (i_dev x, iblockn (i_ino x)) in put_blk k (upd (v_blk v k) (dinode_off (i_ino x)) (dinode_out x junk)) v.
Definition clean (x : INODE) : INODE := set_i_flag (Z.land (i_flag x) (Z.lnot (Z.lor (Z.lor IFACC IFMOD) IFCRT))) x.

(** An inode that is in use or has links. *)
Definition in_use (x : INODE) : Prop := i_refc x <> 0 \/ i_nlink x <> 0 \/ i_ino x = BADFIN \/ i_ino x = ROOTIN.
Lemma in_use_b x : in_use x -> (i_refc x =? 0) && (i_nlink x =? 0) && negb (i_ino x =? BADFIN) && negb (i_ino x =? ROOTIN) = false.
Proof.
  intros [Hr|[Hn|[Hi|Hi]]].
  - by rewrite (proj2 (Z.eqb_neq _ 0) Hr).
  - rewrite (proj2 (Z.eqb_neq _ 0) Hn). by rewrite andb_false_r.
  - rewrite Hi. by rewrite andb_false_r.
  - rewrite Hi. by rewrite !andb_false_r.
Qed.

Lemma wp_icopymd_live s0 ip x junk mp v e s (Q : unit -> fs C -> Prop) : at_file s0 ip x (i_dev x) mp v e s -> usable (i_dev x) v ->
  length (v_blk v (i_dev x, iblockn (i_ino x))) = Z.to_nat BSIZE -> length (i_a x) = 52%nat -> length junk = 40%nat ->
  Z.land (m_flag mp) MFRON = 0 -> in_use x ->
  (forall s', fs_at (set_inodep (<[ip := clean x]> (inodep s0)) s0) (i_dev x) mp (inode_stored junk x v) e s' -> Q tt s') ->
  wp (icopymd retry junk ip) Q s.
Proof.
  intros (Hat & Hx & _) [Hi Hr Hg Hd] Hlen Ha Hj Hro Hu HQ. unfold icopymd.
  apply wp_bind. eapply wp_get_inode; [done|done|]. apply wp_bind. eapply wp_getment; [done|]. rewrite Hro. cbn [Z.eqb negb].
  apply wp_bind. rewrite in_use_b by done. apply wp_ret.
  apply wp_bind. eapply wp_get_inode; [done|done|]. apply wp_bind. eapply wp_bread; [done|apply Hi|done|apply Hg|done|].
  intros h s1 Hh Hat1. apply wp_bind. eapply wp_store; [done|apply held_put| |].
  { cbn [h_data]. rewrite length_upd by (rewrite length_dinode_out by done; rewrite Hlen; apply dinode_off_range). by rewrite Hlen. }
  intros s2 Hat2. rewrite put_put in Hat2. cbn [h_data h_key h_mod] in Hat2. apply wp_bind. eapply wp_setmod; [done|apply held_put|].
  intros s3 Hat3. rewrite put_put in Hat3. cbn [h_data h_key h_mod] in Hat3. apply wp_bind. eapply wp_brelease; [done|apply held_put|apply Hg|].
  intros s4 Hat4. eapply wp_puti; [done|done|]. intros s5 Hat5. apply HQ. unfold released in Hat5. cbn [h_mod h_key h_data] in Hat5.
  unfold drop_held, put_blk, put_held in Hat5. cbn [v_blk v_held v_good] in Hat5. rewrite delete_insert_id in Hat5 by done. exact Hat5.
Qed.

(** What [icopydm] makes of the inode [x] with the disk as it is. *)
Definition inode_read (v : bview) (x : INODE) : INODE :=
  dinode_in (sub (v_blk v (i_dev x, iblockn (i_ino x))) (dinode_off (i_ino x)) 64) (set_i_flag 0 x).

Lemma wp_icopydm s0 ip x mp v e s (Q : bool -> fs C -> Prop) : at_file s0 ip x (i_dev x) mp v e s -> usable (i_dev x) v ->
  (forall s', fs_at (set_inodep (<[ip := inode_read v x]> (inodep s0)) s0) (i_dev x) mp v e s' -> Q true s') ->
  wp (icopydm ip) Q s.
Proof.
  intros (Hat & Hx & _) Hus HQ. unfold icopydm. apply wp_bind. eapply wp_puti; [done|done|]. intros s1 Hat1.
  assert (inodep (set_inodep (<[ip := set_i_flag 0 x]> (inodep s0)) s0) !! ip = Some (set_i_flag 0 x)) as Hx1.
  { cbn. by rewrite list_lookup_insert_eq by (by eapply lookup_lt_Some). }
  apply wp_bind. eapply wp_get_inode; [exact Hat1|exact Hx1|]. cbn [i_ino i_dev set_i_flag].
  pose proof Hus as [Hi Hr Hg Hd]. apply wp_bind. eapply wp_bread; [done|apply Hi|done|apply Hg|done|].
  intros h s2 Hh Hat2. apply wp_bind. eapply wp_vaddr; [done|apply held_put|]. cbn [h_data].
  apply wp_bind. eapply wp_brelease; [done|apply held_put|by left|]. intros s3 Hat3.
  unfold released in Hat3. cbn [h_mod] in Hat3. rewrite drop_put in Hat3 by done.
  apply wp_bind. eapply wp_puti; [exact Hat3|exact Hx1|]. intros s4 Hat4. apply wp_ret, HQ.
  cbn [inodep set_inodep] in Hat4. rewrite list_insert_insert_eq in Hat4. exact Hat4.
Qed.

(** C29: an inode in use that [icopymd] has written back is read by [icopydm]
    as the same file: mode, links, owner, size, times, and the addresses, device
    or pipe that its type has; the rest of the block on disk, every other
    block and every other inode are as before. *)
Theorem inode_roundtrip s ip x junk mp v e : at_file s ip x (i_dev x) mp v e s -> inode_ok x -> usable (i_dev x) v ->
  length (v_blk v (i_dev x, iblockn (i_ino x))) = Z.to_nat BSIZE -> length junk = 40%nat -> Z.land (m_flag mp) MFRON = 0 -> in_use x ->
  wp (icopymd retry junk ip ;;; icopydm ip) (fun ok s' => ok = true /\ exists z v',
    fs_at (set_inodep (<[ip := z]> (inodep s)) s) (i_dev x) mp v' e s' /\
    same_file x z /\ i_dev z = i_dev x /\ i_ino z = i_ino x /\ i_refc z = i_refc x /\ i_flag z = 0 /\
    same_but (i_dev x, iblockn (i_ino x)) v v' /\
    (forall i, (i < dinode_off (i_ino x) \/ dinode_off (i_ino x) + 64 <= i)%nat ->
       v_blk v' (i_dev x, iblockn (i_ino x)) !! i = v_blk v (i_dev x, iblockn (i_ino x)) !! i)) s.
Proof.
  intros Hf Hok Hus Hlen Hj Hro Hu. pose proof Hf as (Hat & Hx & _). pose proof Hok as [_ _ [Ha Hab] _].
  pose proof (dinode_off_range (i_ino x)) as Hoff. pose proof (length_dinode_out x junk Ha Hj) as Ld.
  assert (length (upd (v_blk v (i_dev x, iblockn (i_ino x))) (dinode_off (i_ino x)) (dinode_out x junk)) = Z.to_nat BSIZE) as Lu.
  { by rewrite length_upd by (rewrite Ld, Hlen; apply dinode_off_range). }
  apply wp_bind. eapply wp_icopymd_live; try done. intros s1 Hat1.
  eapply (wp_icopydm (set_inodep (<[ip := clean x]> (inodep s)) s) ip (clean x)); [| |].
  { split; [exact Hat1|]. split; [|done]. cbn. by rewrite list_lookup_insert_eq by (by eapply lookup_lt_Some). }
  { cbn [clean i_dev set_i_flag]. destruct Hus as [Hi Hr Hg Hd]. split; done. }
  intros s2 Hat2. split; [done|]. cbn [inodep set_inodep] in Hat2. rewrite list_insert_insert_eq in Hat2.
  eexists _, (inode_stored junk x v). split; [exact Hat2|]. unfold inode_read. cbn [clean i_dev i_ino set_i_flag].
  unfold inode_stored at 1. rewrite blk_put. rewrite <- Ld at 1. rewrite sub_upd_same by (rewrite Ld; lia).
  split; [by apply dinode_in_out|]. do 4 (split; [done|]). split; [apply same_but_put|].
  intros i Hi. unfold inode_stored. rewrite blk_put, lookup_upd by (rewrite Ld; lia). by rewrite decide_False by (rewrite Ld; lia).
Qed.
End transfer.

(** Inode 5 of device 1: a file with mode 0644. *)
Definition w_ri : INODE := set_i_mode (-32348) w_inode.
Definition w_rstate : fs acache := Fs (Acache w_fview) [w_mount 0] [w_ri] 0 0 0 77 1 [] 0 (fun _ _ => Some 0) w_up.

Lemma w_ri_ok : inode_ok w_ri.
Proof.
  split.
  - repeat (apply Forall_cons; split; [cbn; unfold is16; lia|]). constructor.
  - repeat (apply Forall_cons; split; [cbn; unfold is32; lia|]). constructor.
  - split; [done|]. unfold w_ri, w_inode, arebytes. cbn [i_a set_i_mode].
    apply Forall_forall. intros b Hb%list_elem_of_In. vm_compute in Hb.
    repeat (destruct Hb as [<-|Hb]; [unfold isbyte; lia|]). destruct Hb.
  - assert (Forall addr24 (i_addrs w_ri NADDR)) as Ha.
    { apply Forall_forall. intros b Hb%list_elem_of_In. vm_compute in Hb.
      repeat (destruct Hb as [<-|Hb]; [unfold addr24; lia|]). destruct Hb. }
    split; [done|]. intros E. vm_compute in E. discriminate.
Qed.

Lemma inode_roundtrip_witness : exists ok s', (icopymd 1 (repeat 9 40) 0 ;;; icopydm 0) w_rstate = Ret ok s' /\ ok = true /\ exists z v',
  fs_at (set_inodep (<[0%nat := z]> (inodep w_rstate)) w_rstate) 1 (w_mount 0) v' 0 s' /\
  same_file w_ri z /\ i_dev z = 1 /\ i_ino z = 5 /\ i_refc z = 1 /\ i_flag z = 0 /\
  same_but (1, iblockn 5) w_fview v' /\
  (forall i, (i < dinode_off 5 \/ dinode_off 5 + 64 <= i)%nat -> v_blk v' (1, iblockn 5) !! i = v_blk w_fview (1, iblockn 5) !! i).
Proof.
  refine (proj1 (wp_returns _ _ _) (inode_roundtrip 1 w_rstate 0 w_ri (repeat 9 40) (w_mount 0) w_fview 0 _ w_ri_ok w_usable _ _ _ _)).
  - split; [by apply fs_at_self|done].
  - reflexivity.
  - reflexivity.
  - reflexivity.
  - left. discriminate.
Defined.
