(* ===== verification/Names.v ===== *)
(** Path names (kernel/coh/fs1.c: [ftoi], [ftoim], [imake], [idirent]) and the
    switch of kernel/coh/fs3.c on the type of a file ([iread], [iwrite]).

    A path name is read a character at a time from kernel or user space; a
    directory is a file of entries of sixteen bytes ([struct direct]). *)
From S2P Require Import Prelude Sched Bytes Bcache Super Fs Free Fmap Ftree Inode.
Local Open Scope Z_scope.
Local Open Scope kernel_scope.

Definition ENOENT : Z := 2.
Definition ENOTDIR : Z := 20.
Definition PATHMAX : Z := 1024.
Definition ISVTXT : Z := 512.
Definition slash : Z := 47.
Definition dot : Z := 46.
(** [sizeof (struct direct)]. *)
Definition sizeof_direct : Z := 16.

(** The kind of access: 'r', 'c' and 'u'. *)
Inductive how := Reference | Create | Unlink.
#[export] Instance how_eq_dec : EqDecision how.
Proof. solve_decision. Defined.

(** The pointer into the path name and the characters left to scan. *)
Record cursor := Cur { np : Z; nleft : Z }.
(** [p++]: the offset wraps within the segment. *)
Definition pnext (p : Z) : Z := 65536 * (p / 65536) + u16 (p + 1).

(** What the search of a directory has found. *)
Record dscan := Scan {
  sc_s : Z;                  (* bytes left *)
  sc_seek : Z;               (* cseek *)
  sc_fflag : Z;
  sc_fseek : Z;
  sc_ino : Z;
  sc_mflag : Z
}.

(** The entries of a block, [n] left from byte [o] on. *)
Fixpoint scan_entries (n : nat) (o : nat) (d name : list Z) (q : dscan) : dscan :=
  match n with
  | O => q
  | S n =>
    let s := s32 (sc_s q - sizeof_direct) in
    if s <? 0 then Scan s (sc_seek q) (sc_fflag q) (sc_fseek q) (sc_ino q) (sc_mflag q) else
    let dp := sub d o 16 in
    let ino := get16 dp 0 in
    if negb (ino =? 0) && direq dp name
    then Scan 0 (sc_seek q) (sc_fflag q) (sc_fseek q) (u16 (canw ino)) 1
    else
      let free := (ino =? 0) && (sc_fflag q =? 0) in
      scan_entries n (o + 16) d name
        (Scan s (s32 (sc_seek q + sizeof_direct)) (if free then 1 else sc_fflag q)
           (if free then sc_seek q else sc_fseek q) ino (sc_mflag q))
  end.

Section names.
Context {C : Type} `{BufCache C}.
Context (retry fuel : nat) (junk : list Z).

(** ** Reading and writing any file

    Devices and pipes have drivers and coh/pipe.c. *)
Context (dread dwrite : Z -> IO -> M (fs C) IO) (pread pwrite : nat -> IO -> M (fs C) IO).

Definition imod (ip : nat) : M (fs C) unit :=
  t <- gets t_time ;; puti ip (fun x => set_i_mtime t (set_i_flag (Z.lor (i_flag x) IFMOD) x)).
Definition icrt (ip : nat) : M (fs C) unit :=
  t <- gets t_time ;; puti ip (fun x => set_i_ctime t (set_i_flag (Z.lor (i_flag x) IFCRT) x)).

Definition iread (ip : nat) (io : IO) : M (fs C) IO :=
  if io_ioc io =? 0 then kret io else
  x <- geti ip ;;
  let t := itype x in
  if t =? IFCHR then dread (i_rdev x) io
  else if (t =? IFBLK) || (t =? IFREG) || (t =? IFDIR) then fread fuel ip io
  else if t =? IFPIPE then pread ip io
  else error ENXIO ;;; kret io.

Definition iwrite (ip : nat) (io : IO) : M (fs C) IO :=
  imod ip ;;;
  icrt ip ;;;
  if io_ioc io =? 0 then kret io else
  x <- geti ip ;;
  let t := itype x in
  if t =? IFCHR then dwrite (i_rdev x) io
  else if t =? IFBLK then fwrite retry fuel ip io
  else if (t =? IFREG) || (t =? IFDIR) then
    ok <- getment (i_dev x) 1 ;;
    if negb ok then kret io else fwrite retry fuel ip io
  else if t =? IFPIPE then pwrite ip io
  else error ENXIO ;;; kret io.

(** ** The characters of a path name *)

Definition putu (f : uproc -> uproc) : M (fs C) unit := modify (fun s => set_up (f (up s)) s).

(** [ftoic(np++)]. *)
Definition ftoic (q : cursor) : M (fs C) (Z * cursor) :=
  let p := np q in
  let q := Cur (pnext p) (nleft q - 1) in
  if nleft q <? 0 then error ENOENT ;;; kret (-1, q) else
  u <- gets up ;;
  m <- gets mem ;;
  if io_seg (u_io u) =? IOSYS then c <- deref (m IOSYS p) ;; kret (c, q) else
  match m IOUSR p with
  | Some c => kret (c, q)
  | None => error EFAULT ;;; kret (-1, q)
  end.

(** More than the characters that [ftoic] gives. *)
Definition PATHFUEL : nat := Z.to_nat (PATHMAX + 2).

Fixpoint slashes (n : nat) (c : Z) (q : cursor) : M (fs C) (Z * cursor) :=
  match n with
  | O => nofuel
  | S n => if c =? slash then r <- ftoic q ;; slashes n (fst r) (snd r) else kret (c, q)
  end.

(** The [while] loop that puts a name into [u.u_direct]; [cp] is the index. *)
Fixpoint name_loop (n : nat) (cp : nat) (c : Z) (q : cursor) : M (fs C) (nat * Z * cursor) :=
  match n with
  | O => nofuel
  | S n =>
    if (c =? slash) || (c =? 0) then kret (cp, c, q) else
    let go := Z.of_nat cp <? DIRSIZ in
    (if go then putu (fun u => set_d_name (<[cp := u8 c]> (d_name u)) u) else kret tt) ;;;
    let cp := if go then S cp else cp in
    r <- ftoic q ;;
    e <- gets u_error ;;
    if negb (e =? 0) then kret (cp, fst r, snd r) else name_loop n cp (fst r) (snd r)
  end.
(** The rest of the name is cleared. *)
Fixpoint name_pad (n : nat) (cp : nat) : M (fs C) unit :=
  match n with
  | O => kret tt
  | S n => putu (fun u => set_d_name (<[cp := 0]> (d_name u)) u) ;;; name_pad n (S cp)
  end.

(** ** Directories *)

Fixpoint scan_dir (n : nat) (ip : nat) (b : Z) (name : list Z) (q : dscan) : M (fs C) (option dscan) :=
  match n with
  | O => nofuel
  | S n =>
    if sc_s q <=? 0 then kret (Some q) else
    r <- vread ip b ;;
    match r with
    | None =>
      e <- gets u_error ;;
      (if e =? 0 then error EIO else kret tt) ;;;
      idetach retry junk ip ;;;
      kret None
    | Some bp =>
      d <- vaddr bp ;;
      brelease bp ;;;
      scan_dir n ip (b + 1) name (scan_entries (Z.to_nat (BSIZE / sizeof_direct)) 0 d name q)
    end
  end.

(** The inode that the file system whose root is [ip] is mounted on. *)
Definition ftoim (ip : nat) : M (fs C) nat :=
  x <- geti ip ;;
  m <- gets mtab ;;
  match findm (i_dev x) m with
  | None => kret ip
  | Some mp =>
    idetach retry junk ip ;;;
    ip <- deref (m_ip mp) ;;
    ilock retry ip ;;;
    puti ip (fun x => set_i_refc (s16 (i_refc x + 1)) x) ;;;
    kret ip
  end.

(** [..] in the root of the process and in the root of a file system. *)
Definition dotdot (cip : nat) : M (fs C) nat :=
  u <- gets up ;;
  if bool_decide (take 3 (d_name u) = [dot; dot; 0]) then
    if bool_decide (cip = u_rdir u) then putu (fun u => set_d_name (<[1%nat := 0]> (d_name u)) u) ;;; kret cip else
    x <- geti cip ;;
    r <- gets rootdev ;;
    if (i_ino x =? ROOTIN) && negb (i_dev x =? r) then ftoim cip else kret cip
  else kret cip.

(** The second half of the [for] loop, after the search: [c] is the character
    after the name, [next] goes on with the next name. *)
Definition ftoi_next (t : how) (cip : nat) (c dev : Z) (sc : dscan) (next : nat -> M (fs C) unit) : M (fs C) unit :=
  let fseek := if sc_fflag sc =? 0 then sc_seek sc else sc_fseek sc in
  if sc_mflag sc =? 0 then
    if (c =? 0) && bool_decide (t = Create)
    then putu (fun u => set_u_pdiri (Some cip) (set_u_io (set_io_seek fseek (u_io u)) u))
    else error ENOENT ;;; idetach retry junk cip
  else if c =? 0 then
    if bool_decide (t = Unlink)
    then putu (fun u => set_u_cdirn (sc_ino sc) (set_u_pdiri (Some cip) (set_u_io (set_io_seek (sc_seek sc) (u_io u)) u)))
    else
      idetach retry junk cip ;;;
      ip <- iattach retry fuel dev (sc_ino sc) ;;
      putu (set_u_cdiri ip)
  else
    idetach retry junk cip ;;;
    r <- iattach retry fuel dev (sc_ino sc) ;;
    match r with
    | None => kret tt
    | Some cip => next cip
    end.

(** The [for] loop: [cip] is locked and [c] is the first character of a name. *)
Fixpoint ftoi_loop (n : nat) (t : how) (cip : nat) (c : Z) (q : cursor) : M (fs C) unit :=
  match n with
  | O => nofuel
  | S n =>
    r <- name_loop PATHFUEL 0 c q ;;
    w <- slashes PATHFUEL (snd (fst r)) (snd r) ;;
    e <- gets u_error ;;
    if negb (e =? 0) then idetach retry junk cip else
    name_pad (Z.to_nat DIRSIZ - fst (fst r)) (fst (fst r)) ;;;
    x <- geti cip ;;
    (if negb (itype x =? IFDIR) then error ENOTDIR else iaccess cip IPE ;;; kret tt) ;;;
    e <- gets u_error ;;
    if negb (e =? 0) then idetach retry junk cip else
    cip <- dotdot cip ;;
    x <- geti cip ;;
    u <- gets up ;;
    o <- scan_dir (S (S (Z.to_nat (blockn (i_size x))))) cip 0 (d_name u) (Scan (i_size x) 0 0 0 0 0) ;;
    match o with
    | None => kret tt
    | Some sc =>
      x <- geti cip ;;
      ftoi_next t cip (fst w) (i_dev x) sc (fun cip => ftoi_loop n t cip (fst w) (snd w))
    end
  end.

Definition ftoi_body (p : Z) (t : how) : M (fs C) unit :=
  putu (fun u => set_u_pdiri None (set_u_cdiri None (set_u_cdirn 0 u))) ;;;
  a <- ftoic (Cur p PATHMAX) ;;
  e <- gets u_error ;;
  if negb (e =? 0) then kret tt else
  u <- gets up ;;
  b <- (if negb (fst a =? slash) then kret (u_cdir u, a) else r <- ftoic (snd a) ;; kret (u_rdir u, r)) ;;
  w <- slashes PATHFUEL (fst (snd b)) (snd (snd b)) ;;
  e <- gets u_error ;;
  if negb (e =? 0) then kret tt else
  let cip := fst b in
  ilock retry cip ;;;
  puti cip (fun x => set_i_refc (s16 (i_refc x + 1)) x) ;;;
  if fst w =? 0 then
    if bool_decide (t = Reference) then putu (set_u_cdiri (Some cip))
    else error ENOENT ;;; idetach retry junk cip
  else ftoi_loop PATHFUEL t cip (fst w) (snd w).
Definition ftoi (p : Z) (t : how) : M (fs C) Z := ftoi_body p t ;;; gets u_error.

(** ** Making entries *)

(** [udirect] is the address of [u.u_direct] in the kernel's space. *)
Context (udirect : Z).

Definition idirent (ino : Z) : M (fs C) unit :=
  putu (set_d_ino (u16 (canw (u16 ino)))) ;;;
  putu (fun u => set_u_io (Io IOSYS sizeof_direct (io_seek (u_io u)) udirect (io_phys (u_io u))) u) ;;;
  u <- gets up ;;
  modify (fun s => set_mem (mem_put (mem s) IOSYS udirect (unbe 2 (d_ino u) ++ d_name u)) s) ;;;
  ip <- deref (u_pdiri u) ;;
  io <- iwrite ip (u_io u) ;;
  putu (set_u_io io).

Definition imake (mode rdev : Z) : M (fs C) (option nat) :=
  u <- gets up ;;
  pd <- deref (u_pdiri u) ;;
  let mode := Z.land (u16 mode) (Z.lnot (u_umask u)) in
  ok <- (if negb (Z.land mode ISVTXT =? 0) then super else kret true) ;;
  r <- (if negb ok then kret None else
        acc <- iaccess pd IPW ;;
        if negb acc then kret None else
        x <- geti pd ;;
        r <- ialloc retry fuel fuel junk (i_dev x) mode ;;
        match r with
        | None => kret None
        | Some ip =>
          puti ip (fun x => set_i_a (put16 (i_a x) 0 (u16 rdev)) (set_i_nlink 1 x)) ;;;
          y <- geti ip ;;
          idirent (i_ino y) ;;;
          iamc ip ;;;
          kret (Some ip)
        end) ;;
  idetach retry junk pd ;;;
  kret r.
End names.
