(* ===== verification/Dirs.v ===== *)
(** Directories as lists of entries: what the search in [ftoi] finds. *)
From S2P Require Import Prelude Sched Bytes Bcache Super Fs Free Fmap Ftree Inode Names.
Local Open Scope Z_scope.
Local Open Scope kernel_scope.

(** ** Entries *)

(** The inode number of an entry, 0 for a free one, and its name. *)
Definition d_inode (e : list Z) : Z := u16 (canw (get16 e 0)).
Definition d_text (e : list Z) : list Z := sub e 2 14.
Definition d_free (e : list Z) : Prop := get16 e 0 = 0.
Definition d_is (name e : list Z) : Prop := direq e name = true.
#[export] Instance d_free_dec e : Decision (d_free e).
Proof. unfold d_free. apply _. Defined.
#[export] Instance d_is_dec name e : Decision (d_is name e).
Proof. unfold d_is. apply _. Defined.

(** Entry [k] of a directory, and all of them: a part of an entry at the end
    is not one. *)
Definition dentry (v : bview) (x : INODE) (k : Z) : list Z := map (fun i => rbyte false v x (16 * k + i)) (seqZ 0 16).
Definition entries (v : bview) (x : INODE) : list (list Z) := map (dentry v x) (seqZ 0 (i_size x / 16)).
(** Where a new entry goes. *)
Definition vacant (es : list (list Z)) : Z :=
  match list_find d_free es with Some (k, _) => Z.of_nat k | None => Z.of_nat (length es) end.
(** The place and the entry of a name. *)
Definition dlookup (es : list (list Z)) (name : list Z) : option (nat * list Z) := list_find (d_is name) es.

(** A directory that can be searched. *)
Record dir_ok (v : bview) (x : INODE) : Prop := {
  do_size : 0 <= i_size x < 2 ^ 31;
  do_read : readable false v x (i_size x)
}.

(** ** The loops as one pass over the entries *)

Fixpoint chunks (n : nat) (o : nat) (d : list Z) : list (list Z) :=
  match n with O => [] | S n => sub d o 16 :: chunks n (o + 16) d end.

Definition pass (dp : list Z) (q : dscan) : dscan :=
  let free := (get16 dp 0 =? 0) && (sc_fflag q =? 0) in
  Scan (s32 (sc_s q - sizeof_direct)) (s32 (sc_seek q + sizeof_direct)) (if free then 1 else sc_fflag q)
    (if free then sc_seek q else sc_fseek q) (get16 dp 0) (sc_mflag q).
Fixpoint scan_all (es : list (list Z)) (name : list Z) (q : dscan) : dscan :=
  match es with
  | [] => q
  | dp :: es =>
    if direq dp name then Scan 0 (sc_seek q) (sc_fflag q) (sc_fseek q) (d_inode dp) 1
    else scan_all es name (pass dp q)
  end.

Definition set_s (s : Z) (q : dscan) : dscan := Scan s (sc_seek q) (sc_fflag q) (sc_fseek q) (sc_ino q) (sc_mflag q).

Lemma direq_used dp name : direq dp name = true -> (get16 dp 0 =? 0) = false.
Proof. unfold direq. by destruct (get16 dp 0 =? 0). Qed.

Lemma scan_all_app es1 es2 name q : sc_mflag q = 0 ->
  scan_all (es1 ++ es2) name q = let q1 := scan_all es1 name q in if sc_mflag q1 =? 0 then scan_all es2 name q1 else q1.
Proof.
  revert q. induction es1 as [|dp es1 IH]; intros q Hm; cbn [scan_all app]; [by rewrite Hm|].
  destruct (direq dp name); [done|]. by rewrite IH.
Qed.

Lemma scan_all_left es name q : sc_mflag q = 0 -> 0 <= sc_s q < 2 ^ 31 -> 16 * Z.of_nat (length es) <= sc_s q ->
  sc_mflag (scan_all es name q) = 0 -> sc_s (scan_all es name q) = sc_s q - 16 * Z.of_nat (length es).
Proof.
  revert q. induction es as [|dp es IH]; intros q Hm Hs Hl Hr; cbn [scan_all length] in *; [lia|].
  destruct (direq dp name); [done|]. assert (sc_s (pass dp q) = sc_s q - 16) as E by (unfold pass, sizeof_direct; cbn; apply s32_small; lia).
  rewrite IH; rewrite ?E; (done || lia).
Qed.

Lemma scan_all_hit es name q : sc_mflag q = 0 -> sc_mflag (scan_all es name q) <> 0 -> sc_s (scan_all es name q) = 0.
Proof.
  revert q. induction es as [|dp es IH]; intros q Hm; cbn [scan_all]; [done|]. destruct (direq dp name); [done|]. by apply IH.
Qed.

Lemma scan_entries_all n o d name q : sc_mflag q = 0 -> 0 <= sc_s q < 2 ^ 31 ->
  let k := Nat.min n (Z.to_nat (sc_s q / 16)) in
  let q' := scan_all (chunks k o d) name q in
  scan_entries n o d name q = if (sc_mflag q' =? 0) && (k <? n)%nat then set_s (s32 (sc_s q' - 16)) q' else q'.
Proof.
  revert o q. induction n as [|n IH]; intros o q Hm Hs; [cbn; by rewrite andb_false_r|].
  assert (s32 (sc_s q - 16) = sc_s q - 16) as Es by (apply s32_small; lia).
  cbn [scan_entries]. change sizeof_direct with 16. rewrite Es.
  destruct (Z.ltb_spec (sc_s q - 16) 0) as [Hlt|Hge].
  - rewrite (Z.div_small (sc_s q) 16) by lia. change (Nat.min (S n) (Z.to_nat 0)) with 0%nat.
    cbn [chunks scan_all]. rewrite Hm, Es. unfold set_s. by rewrite Hm.
  - assert (Z.to_nat (sc_s q / 16) = S (Z.to_nat ((sc_s q - 16) / 16))) as Ek.
    { replace (sc_s q) with (sc_s q - 16 + 1 * 16) at 1 by lia. rewrite Z.div_add by lia.
      rewrite Z2Nat.inj_add by (try apply Z.div_pos; lia). lia. }
    rewrite Ek. cbn [Nat.min chunks scan_all]. cbn zeta.
    destruct (direq (sub d o 16) name) eqn:Ed.
    + rewrite (direq_used _ _ Ed). cbn [negb andb]. done.
    + rewrite andb_false_r. change (Nat.ltb (S ?a) (S n)) with (Nat.ltb a n).
      change (Scan _ _ _ _ _ _) with (set_s (sc_s q - 16) (pass (sub d o 16) q)).
      assert (set_s (sc_s q - 16) (pass (sub d o 16) q) = pass (sub d o 16) q) as -> by (unfold set_s, pass, sizeof_direct; cbn; by rewrite Es).
      assert (sc_s (pass (sub d o 16) q) = sc_s q - 16) as E1 by (unfold pass, sizeof_direct; cbn; done).
      rewrite IH; [|done|rewrite E1; lia]. rewrite E1. done.
Qed.

(** ** What one pass finds *)

Lemma scan_all_spec es name q : sc_mflag q = 0 -> 0 <= sc_seek q -> sc_seek q + 16 * Z.of_nat (length es) < 2 ^ 31 ->
  match dlookup es name with
  | Some (k, e) => sc_mflag (scan_all es name q) = 1 /\ sc_seek (scan_all es name q) = sc_seek q + 16 * Z.of_nat k /\
      sc_ino (scan_all es name q) = d_inode e
  | None => sc_mflag (scan_all es name q) = 0 /\ sc_seek (scan_all es name q) = sc_seek q + 16 * Z.of_nat (length es) /\
      if sc_fflag q =? 0
      then (if sc_fflag (scan_all es name q) =? 0 then sc_seek (scan_all es name q) else sc_fseek (scan_all es name q)) =
           sc_seek q + 16 * vacant es
      else sc_fflag (scan_all es name q) = sc_fflag q /\ sc_fseek (scan_all es name q) = sc_fseek q
  end.
Proof.
  unfold dlookup, vacant. revert q. induction es as [|dp es IH]; intros q Hm Hp Hl; cbn [list_find scan_all length] in *.
  - split; [done|]. split; [lia|]. destruct (sc_fflag q =? 0); [lia|done].
  - unfold d_is at 1. destruct (decide (direq dp name = true)) as [E|E]; [rewrite E; cbn; split_and!; (done || lia)|].
    apply not_true_is_false in E. rewrite E.
    assert (sc_seek (pass dp q) = sc_seek q + 16) as Ek by (unfold pass, sizeof_direct; cbn; apply s32_small; lia).
    specialize (IH (pass dp q) Hm). rewrite Ek in IH. specialize (IH ltac:(lia) ltac:(lia)).
    destruct (list_find (d_is name) es) as [[k e]|]; cbn [fmap option_fmap option_map prod_map fst snd id].
    + destruct IH as (I1 & I2 & I3). split_and!; [done| |done]. rewrite I2. lia.
    + destruct IH as (I1 & I2 & I3). split; [done|]. split; [rewrite I2; lia|].
      set (r := scan_all es name (pass dp q)) in *. unfold d_free at 1.
      destruct (decide (get16 dp 0 = 0)) as [E0|E0].
      * unfold pass in I3. rewrite E0 in I3. cbn [sc_fflag sc_fseek Z.eqb] in I3.
        destruct (sc_fflag q =? 0) eqn:Ef; cbn [andb Z.eqb] in I3.
        -- destruct I3 as [-> ->]. cbn. lia.
        -- rewrite Ef in I3. done.
      * assert ((get16 dp 0 =? 0) = false) as E0' by by apply Z.eqb_neq.
        unfold pass in I3. rewrite E0' in I3. cbn [sc_fflag sc_fseek andb] in I3.
        destruct (sc_fflag q =? 0); [|done]. rewrite I3. destruct (list_find d_free es) as [[k e]|]; cbn; lia.
Qed.

(** ** Entries and blocks *)

Lemma chunks_dentry v x b d n j : d = fdata v x b -> length d = 512%nat -> 0 <= b -> (j + n <= 32)%nat ->
  chunks n (16 * j) d = map (dentry v x) (seqZ (32 * b + Z.of_nat j) (Z.of_nat n)).
Proof.
  intros -> Hl Hb. revert j. induction n as [|n IH]; intros j Hj; [done|].
  rewrite seqZ_cons by lia. cbn [chunks map]. f_equal.
  - unfold dentry. apply list_eq. intros i. rewrite lookup_sub.
    destruct (decide (i < 16)%nat) as [Hi|Hi].
    + rewrite list_lookup_fmap, lookup_seqZ_lt by lia. cbn [fmap option_fmap option_map].
      unfold rbyte, rdata, BSIZE.
      replace ((16 * (32 * b + Z.of_nat j) + (0 + Z.of_nat i)) / 512) with b by (Z.to_euclidean_division_equations; lia).
      replace (Z.to_nat ((16 * (32 * b + Z.of_nat j) + (0 + Z.of_nat i)) mod 512)) with (16 * j + i)%nat by (Z.to_euclidean_division_equations; lia).
      destruct (lookup_lt_is_Some_2 (fdata v x b) (16 * j + i)) as [c Hc]; [lia|]. by rewrite Hc.
    + symmetry. apply lookup_ge_None. rewrite length_map, length_seqZ. lia.
  - replace (16 * j + 16)%nat with (16 * S j)%nat by lia. rewrite IH by lia. f_equal. f_equal; lia.
Qed.

(** The search has come to the same end. *)
Definition same_found (q q' : dscan) : Prop :=
  sc_mflag q = sc_mflag q' /\ sc_seek q = sc_seek q' /\ sc_fflag q = sc_fflag q' /\ sc_fseek q = sc_fseek q' /\
  (sc_mflag q <> 0 -> sc_ino q = sc_ino q').

(** The result of a search. *)
Definition searched (es : list (list Z)) (name : list Z) (q : dscan) : Prop :=
  match dlookup es name with
  | Some (k, e) => sc_mflag q = 1 /\ sc_seek q = 16 * Z.of_nat k /\ sc_ino q = d_inode e
  | None => sc_mflag q = 0 /\ (if sc_fflag q =? 0 then sc_seek q else sc_fseek q) = 16 * vacant es
  end.

Lemma searched_all es name q q' s0 : 0 <= s0 -> 16 * Z.of_nat (length es) < 2 ^ 31 -> q = Scan s0 0 0 0 0 0 ->
  same_found q' (scan_all es name q) -> searched es name q'.
Proof.
  intros Hs Hl -> (H1 & H2 & H3 & H4 & H5). pose proof (scan_all_spec es name (Scan s0 0 0 0 0 0) eq_refl (Z.le_refl 0) Hl) as H.
  unfold searched. destruct (dlookup es name) as [[k e]|].
  - destruct H as (G1 & G2 & G3). cbn [sc_seek] in G2. split_and!; [congruence|rewrite H2, G2; lia|].
    rewrite H5; [done|]. rewrite H1, G1. lia.
  - destruct H as (G1 & G2 & G3). split; [congruence|]. cbn [sc_fflag Z.eqb sc_seek] in G3. rewrite H2, H3, H4, G3. lia.
Qed.

Lemma dlookup_length (v : bview) (x : INODE) : 0 <= i_size x < 2 ^ 31 -> 16 * Z.of_nat (length (entries v x)) < 2 ^ 31.
Proof.
  intros Hs. unfold entries. rewrite length_map, length_seqZ. pose proof (Z.mul_div_le (i_size x) 16 ltac:(lia)).
  rewrite Z2Nat.id by (apply Z.div_pos; lia). lia.
Qed.

Section search.
Context {C : Type} `{BufCacheLaws C}.
Context (retry : nat) (junk : list Z).
Implicit Types (s : fs C) (mp : MOUNT) (v : bview).

(** A block of a file in a buffer. *)
Lemma wp_vread s0 ip x dev mp v e s lb {A} (k : list Z -> M (fs C) A) (z : M (fs C) A) (Q : A -> fs C -> Prop) :
  at_file s0 ip x dev mp v e s -> usable dev v -> unheld (NODEV, 0) v -> 0 <= lb < lmax -> 0 <= fblock v x lb ->
  (forall s', fs_at s0 dev mp v e s' -> wp (k (fdata v x lb)) Q s') ->
  wp (r <- vread ip lb ;;
      match r with None => z | Some bp => d <- vaddr bp ;; brelease bp ;;; k d end) Q s.
Proof.
  intros Hf Hus Hnd Hlb Hge HQ. pose proof Hf as (Hat & Hx & Hd). unfold vread.
  apply wp_bind, wp_bind. eapply wp_vmap; [done|done|done|]. intros s1 Hat1. rewrite (proj2 (Z.ltb_ge _ 0)) by done.
  apply wp_bind. eapply wp_get_inode; [exact Hat1|exact Hx|].
  assert (forall d h key s', d = fdata v x lb -> v_held v !! h = None -> releasable v (Hbuf key false d) ->
    fs_at s0 dev mp (put_held h (Hbuf key false d) v) e s' ->
    wp (d <- vaddr h ;; brelease h ;;; k d) Q s') as Hgo.
  { intros d h key s2 -> Hh Hrel Hat2. apply wp_bind. eapply wp_vaddr; [exact Hat2|apply held_put|]. cbn [h_data].
    apply wp_bind. eapply (wp_brelease s0); [exact Hat2|apply held_put|exact Hrel|]. intros s3 Hat3.
    unfold released in Hat3. cbn [h_mod] in Hat3. rewrite drop_put in Hat3 by done. by apply HQ. }
  destruct (fblock v x lb =? 0) eqn:E; cbn [negb].
  - apply wp_bind. eapply (wp_kclaim s0); [exact Hat1|done|apply Hus|]. intros h s2 Hh Hat2. apply wp_ret.
    refine (Hgo _ h (NODEV, 0) s2 _ Hh _ Hat2); [unfold fdata; by rewrite E|by right].
  - rewrite Hd. pose proof Hus as [Hi Hr Hg Hn].
    eapply (wp_bread s0); [exact Hat1|apply Hi|done|apply Hg|done|]. intros h s2 Hh Hat2.
    refine (Hgo _ h _ s2 _ Hh _ Hat2); [unfold fdata; by rewrite E, Hd|by left].
Qed.

Lemma wp_scan_end n ip b name q s (Q : option dscan -> fs C -> Prop) : (0 < n)%nat -> sc_s q <= 0 -> Q (Some q) s ->
  wp (scan_dir retry junk n ip b name q) Q s.
Proof. intros Hn Hs HQ. destruct n; [lia|]. cbn [scan_dir]. by rewrite (proj2 (Z.leb_le _ _)). Qed.

(** One block of the search, from a block border. *)
Lemma scan_block (v : bview) x b name q : dir_ok v x -> 0 <= b -> 512 * b < i_size x -> sc_mflag q = 0 -> sc_s q = i_size x - 512 * b ->
  let es := map (dentry v x) (seqZ (32 * b) (i_size x / 16 - 32 * b)) in
  let q' := scan_entries 32 0 (fdata v x b) name q in
  if decide (sc_s q' <= 0) then same_found q' (scan_all es name q)
  else sc_mflag q' = 0 /\ sc_s q' = i_size x - 512 * (b + 1) /\
    scan_all es name q = scan_all (map (dentry v x) (seqZ (32 * (b + 1)) (i_size x / 16 - 32 * (b + 1)))) name q'.
Proof.
  intros [Hsz [_ Hlen]] Hb Hlt Hm Hs es q'. specialize (Hlen b Hb ltac:(unfold BSIZE; lia)). unfold rdata, BSIZE in Hlen.
  assert (sc_s q / 16 = i_size x / 16 - 32 * b) as Ediv by (rewrite Hs; Z.to_euclidean_division_equations; lia).
  assert (0 <= i_size x / 16 - 32 * b) as Hpos by (rewrite <- Ediv; apply Z.div_pos; lia).
  pose proof (Z.mul_div_le (sc_s q) 16 ltac:(lia)) as Hmul. pose proof (Z.mod_pos_bound (sc_s q) 16 ltac:(lia)) as Hmod.
  pose proof (Z.div_mod (sc_s q) 16 ltac:(lia)) as Hdm.
  pose proof (scan_entries_all 32 0 (fdata v x b) name q Hm ltac:(lia)) as E. cbv zeta in E. fold q' in E.
  set (k := Nat.min 32 (Z.to_nat (sc_s q / 16))) in *.
  pose proof (chunks_dentry v x b (fdata v x b) k 0 eq_refl ltac:(lia) Hb ltac:(lia)) as Ech. rewrite Z.add_0_r in Ech.
  change (16 * 0)%nat with 0%nat in Ech. rewrite Ech in E. clear Ech.
  set (es1 := map (dentry v x) (seqZ (32 * b) (Z.of_nat k))) in *.
  assert (length es1 = k) as El1 by (unfold es1; rewrite length_map, length_seqZ; lia).
  assert (es = es1 ++ map (dentry v x) (seqZ (32 * b + Z.of_nat k) (i_size x / 16 - 32 * b - Z.of_nat k))) as Ees.
  { unfold es, es1. rewrite <- map_app, <- seqZ_app by lia. do 2 f_equal. lia. }
  pose proof (scan_all_left es1 name q Hm ltac:(lia) ltac:(lia)) as Hleft. rewrite El1 in Hleft.
  assert (sc_mflag (scan_all es1 name q) <> 0 -> sc_s (scan_all es1 name q) = 0) as Hhit.
  { by apply scan_all_hit. }
  rewrite Ees, scan_all_app by done. cbv zeta. set (q1 := scan_all es1 name q) in *.
  destruct (sc_mflag q1 =? 0) eqn:Em.
  - apply Z.eqb_eq in Em. specialize (Hleft Em). destruct (k <? 32)%nat eqn:Ek; cbn [andb] in E.
    + apply Nat.ltb_lt in Ek. rewrite E. assert (s32 (sc_s q1 - 16) = sc_s q1 - 16) as E16 by (apply s32_small; lia).
      cbn [set_s sc_s]. rewrite E16. rewrite decide_True by lia.
      rewrite seqZ_nil by lia. by split_and!.
    + apply Nat.ltb_ge in Ek. assert (k = 32%nat) as Ek' by lia. rewrite E.
      destruct (decide (sc_s q1 <= 0)) as [Hz|Hz].
      * rewrite seqZ_nil; [by split_and!|]. lia.
      * split; [done|]. split; [lia|]. rewrite Ek'. f_equal. f_equal. f_equal; lia.
  - cbn [andb] in E. apply Z.eqb_neq in Em. rewrite E. rewrite decide_True by (rewrite Hhit by done; lia). by split_and!.
Qed.

Lemma wp_scan_dir s0 ip x dev mp v e s n b name q (Q : option dscan -> fs C -> Prop) :
  at_file s0 ip x dev mp v e s -> usable dev v -> unheld (NODEV, 0) v -> dir_ok v x ->
  0 <= b -> sc_mflag q = 0 -> sc_s q = i_size x - 512 * b -> sc_s q < 512 * (Z.of_nat n - 1) -> (0 < n)%nat ->
  (forall q' s', same_found q' (scan_all (map (dentry v x) (seqZ (32 * b) (i_size x / 16 - 32 * b))) name q) ->
     fs_at s0 dev mp v e s' -> Q (Some q') s') ->
  wp (scan_dir retry junk n ip b name q) Q s.
Proof.
  intros Hf Hus Hnd Hd. revert b q s Hf. induction n as [|n IH]; intros b q s Hf Hb Hm Hs Hfu Hn HQ; [lia|].
  pose proof Hd as [Hsz [[?|Hrd] Hlen]]; [done|]. cbn [scan_dir]. destruct (Z.leb_spec (sc_s q) 0) as [Hle|Hgt].
  - apply wp_ret, HQ; [|by apply Hf]. rewrite seqZ_nil; [done|]. pose proof (Z.div_le_upper_bound (i_size x) 16 (32 * b)). lia.
  - destruct (Hrd b) as [Hmax Hge]; [done|unfold BSIZE; lia|].
    eapply wp_vread; [exact Hf|done|done|lia|done|]. intros s1 Hat1. change (Z.to_nat (BSIZE / sizeof_direct)) with 32%nat.
    pose proof (scan_block v x b name q Hd Hb ltac:(lia) Hm Hs) as Hblk. cbv zeta in Hblk.
    destruct (decide (_ <= 0)) as [Hend|Hgo] in Hblk.
    + apply wp_scan_end; [lia|done|]. by apply HQ.
    + destruct Hblk as (H1 & H2 & H3). eapply IH; [by destruct Hf|lia|done|done|lia|lia|]. rewrite H3 in HQ. exact HQ.
Qed.
(** The search of a whole directory, as [ftoi] starts it. *)
Lemma wp_search s0 ip x dev mp v e s name (Q : option dscan -> fs C -> Prop) :
  at_file s0 ip x dev mp v e s -> usable dev v -> unheld (NODEV, 0) v -> dir_ok v x ->
  (forall q s', searched (entries v x) name q -> fs_at s0 dev mp v e s' -> Q (Some q) s') ->
  wp (scan_dir retry junk (S (S (Z.to_nat (blockn (i_size x))))) ip 0 name (Scan (i_size x) 0 0 0 0 0)) Q s.
Proof.
  intros Hf Hus Hnd Hd HQ. pose proof (do_size _ _ Hd) as Hsz.
  eapply wp_scan_dir; try done; cbn [sc_s]; [lia| |lia|].
  - unfold blockn. rewrite Z.shiftr_div_pow2 by lia. change (2 ^ 9) with 512.
    rewrite !Nat2Z.inj_succ, Z2Nat.id by (apply Z.div_pos; lia). pose proof (Z.mod_pos_bound (i_size x) 512 ltac:(lia)).
    pose proof (Z.div_mod (i_size x) 512 ltac:(lia)). lia.
  - change (32 * 0) with 0. rewrite Z.sub_0_r. fold (entries v x). intros q s' Hq Hat. apply HQ; [|done].
    eapply searched_all; [|by apply dlookup_length|done|exact Hq]. lia.
Qed.

(** The search of a directory in [ftoi] finds the first entry in use that
    has the name, with its inode number and its position, whatever blocks and
    holes the directory has; when there is none, it has the position of the
    first free entry, or of the end.  It holds no buffer afterwards and changes nothing. *)
Theorem scan_dir_correct s ip x dev mp v e name : at_file s ip x dev mp v e s -> usable dev v -> unheld (NODEV, 0) v -> dir_ok v x ->
  wp (scan_dir retry junk (S (S (Z.to_nat (blockn (i_size x))))) ip 0 name (Scan (i_size x) 0 0 0 0 0))
    (fun o s' => fs_at s dev mp v e s' /\ exists q, o = Some q /\
       match dlookup (entries v x) name with
       | Some (k, d) => sc_mflag q = 1 /\ sc_seek q = 16 * Z.of_nat k /\ sc_ino q = d_inode d
       | None => sc_mflag q = 0 /\ (if sc_fflag q =? 0 then sc_seek q else sc_fseek q) = 16 * vacant (entries v x)
       end) s.
Proof.
  intros Hf Hus Hnd Hd. eapply wp_search; [done..|]. intros q s' Hq Hat. split; [done|]. by exists q.
Qed.
End search.
