(* ===== verification/Path.v ===== *)
(** Path names as lists of names, and how [ftoi] reads them. *)
From S2P Require Import Prelude Sched Bytes Bcache Super Fs Free Fmap Ftree Inode Names Dirs.
Local Open Scope Z_scope.
Local Open Scope kernel_scope.

(** ** Path names as lists of names *)

Fixpoint seg (w : list Z) : list Z :=
  match w with [] => [] | c :: w => if c =? slash then [] else c :: seg w end.
Fixpoint after (w : list Z) : list Z :=
  match w with [] => [] | c :: w' => if c =? slash then w else after w' end.
Fixpoint skip (w : list Z) : list Z :=
  match w with [] => [] | c :: w' => if c =? slash then skip w' else w end.

(** The names of a path: what is left between the slashes. *)
Fixpoint names (w : list Z) : list (list Z) :=
  match w with
  | [] => []
  | c :: w' =>
    if c =? slash then names w' else
    match seg w', names w' with
    | _ :: _, n :: ns => (c :: n) :: ns
    | _, ns => [c] :: ns
    end
  end.
(** A name as a directory has it: fourteen characters, filled up with zeros. *)
Definition padded (n : list Z) : list Z := take 14 (n ++ repeat 0 14).

Lemma names_skip w : names (skip w) = names w.
Proof. induction w as [|c w IH]; [done|]. cbn [skip names]. by destruct (c =? slash) eqn:E; [|cbn [names]; rewrite E]. Qed.

Lemma names_seg w : seg w <> [] -> names w = seg w :: names (after w).
Proof.
  induction w as [|c w IH]; [done|]. cbn [seg names after]. destruct (c =? slash); [done|]. intros _.
  destruct (seg w) as [|d s] eqn:Es.
  - f_equal. destruct w as [|d w]; [done|]. cbn [seg] in Es. cbn [after]. by destruct (d =? slash).
  - by rewrite IH.
Qed.

Lemma length_skip w : (length (skip w) <= length w)%nat.
Proof. induction w as [|c w IH]; cbn [skip length]; [done|]. destruct (c =? slash); cbn [length]; lia. Qed.
Lemma seg_after w : w = seg w ++ after w.
Proof. induction w as [|c w IH]; [done|]. cbn [seg after]. destruct (c =? slash); [done|]. cbn. by f_equal. Qed.
Lemma skip_head c w w' : skip w = c :: w' -> (c =? slash) = false.
Proof. induction w as [|d w IH]; [done|]. cbn [skip]. destruct (d =? slash) eqn:E; [done|]. intros [= <- _]. done. Qed.
Lemma after_head c w w' : after w = c :: w' -> c = slash.
Proof. induction w as [|d w IH]; [done|]. cbn [after]. destruct (Z.eqb_spec d slash) as [->|]; [by intros [= <- _]|done]. Qed.

(** A character of a name. *)
Definition pchar (c : Z) : Prop := 0 < c < 256.

Lemma skip_chars w : Forall pchar w -> Forall pchar (skip w).
Proof. induction 1 as [|c w Hc Hw IH]; cbn [skip]; [done|]. destruct (c =? slash); [done|]. by constructor. Qed.
Lemma after_chars w : Forall pchar w -> Forall pchar (after w).
Proof. induction 1 as [|c w Hc Hw IH]; cbn [after]; [done|]. destruct (c =? slash); [by constructor|done]. Qed.

(** ** The characters in memory *)

Fixpoint text (m : Z -> option Z) (p : Z) (cs : list Z) : Prop :=
  match cs with [] => True | c :: cs => m p = Some c /\ text m (pnext p) cs end.

(** [c] was read last and the path goes on with [w]: its characters and the
    NUL are in memory and within the bound. *)
Definition ahead (m : Z -> option Z) (c : Z) (q : cursor) (w : list Z) : Prop :=
  exists rest, w ++ [0] = c :: rest /\ text m (np q) rest /\ Z.of_nat (length rest) <= nleft q.

Section chars.
Context {C : Type} `{BufCacheLaws C}.
Context (s0 : fs C) (dev : Z) (mp : MOUNT) (v : bview).
Implicit Types (s : fs C) (l : list INODE) (u : uproc).

(** The inodes are [l], the user area is [u], the rest is as in [s0]. *)
Definition here l u e s : Prop := fs_at (set_up u (set_inodep l s0)) dev mp v e s.
(** The space of the path name. *)
Definition pspace (u : uproc) : Z -> option Z := mem s0 (if io_seg (u_io u) =? IOSYS then IOSYS else IOUSR).

Lemma fs_at_up (s1 : fs C) e s u : fs_at s1 dev mp v e s -> fs_at (set_up u s1) dev mp v e (set_up u s).
Proof. intros [? ? ? ? ? (? & ? & ? & ? & ? & ? & ?)]. by split. Qed.

Lemma here_up l u e s : here l u e s -> up s = u.
Proof. intros Hs. by destruct (at_ids _ _ _ _ _ _ Hs) as (_ & _ & _ & _ & _ & _ & ->). Qed.
Lemma here_mem l u e s : here l u e s -> mem s = mem s0.
Proof. intros Hs. by destruct (at_ids _ _ _ _ _ _ Hs) as (_ & _ & _ & _ & _ & -> & _). Qed.
Lemma here_inodep l u e s : here l u e s -> inodep s = l.
Proof. intros Hs. by rewrite (at_inodes _ _ _ _ _ _ Hs). Qed.

Lemma wp_putu_here l u e s f (Q : unit -> fs C -> Prop) : here l u e s -> (forall s', here l (f u) e s' -> Q tt s') -> wp (putu f) Q s.
Proof.
  intros Hs HQ. apply wp_modify, HQ. rewrite (here_up _ _ _ _ Hs). apply (fs_at_up _ _ _ (f u)) in Hs. exact Hs.
Qed.

Lemma wp_puti_here l u e s ip x g (Q : unit -> fs C -> Prop) : here l u e s -> l !! ip = Some x ->
  (forall s', here (<[ip := g x]> l) u e s' -> Q tt s') -> wp (puti ip g) Q s.
Proof. intros Hs Hx HQ. eapply wp_puti; [exact Hs|exact Hx|]. intros s' Hs'. by apply HQ. Qed.

Lemma wp_geti_here l u e s ip x (Q : INODE -> fs C -> Prop) : here l u e s -> l !! ip = Some x -> Q x s -> wp (geti ip) Q s.
Proof. intros Hs Hx HQ. eapply wp_get_inode; [exact Hs|exact Hx|done]. Qed.

Lemma wp_error_here l u e s e' (Q : unit -> fs C -> Prop) : here l u e s -> (forall s', here l u e' s' -> Q tt s') -> wp (error e') Q s.
Proof. intros Hs HQ. by eapply wp_error. Qed.

Lemma wp_ftoic l u e s q c (Q : Z * cursor -> fs C -> Prop) : here l u e s -> pspace u (np q) = Some c -> 0 < nleft q ->
  Q (c, Cur (pnext (np q)) (nleft q - 1)) s -> wp (ftoic q) Q s.
Proof.
  intros Hs Hc Hn HQ. unfold ftoic. cbn [nleft]. rewrite (proj2 (Z.ltb_ge _ 0)) by lia.
  apply wp_bind, wp_gets. rewrite (here_up _ _ _ _ Hs). apply wp_bind, wp_gets. rewrite (here_mem _ _ _ _ Hs).
  unfold pspace in Hc. destruct (io_seg (u_io u) =? IOSYS).
  - apply wp_bind. eapply wp_deref; [exact Hc|]. by apply wp_ret.
  - rewrite Hc. by apply wp_ret.
Qed.

(** The next character. *)
Lemma wp_next_char l u e s c q w (Q : Z * cursor -> fs C -> Prop) : here l u e s -> ahead (pspace u) c q (c :: w) ->
  (forall c' q', ahead (pspace u) c' q' w -> Q (c', q') s) -> wp (ftoic q) Q s.
Proof.
  intros Hs (rest & E & Ht & Hl) HQ. cbn in E. injection E as <-.
  destruct (w ++ [0]) as [|c' w'] eqn:Ew; [by destruct w|]. cbn [text length] in Ht, Hl. destruct Ht as [Hc Ht].
  eapply wp_ftoic; [exact Hs|exact Hc|lia|]. apply HQ. exists w'. cbn [np nleft]. split; [done|]. split; [done|lia].
Qed.

Lemma ahead_nil m c q : ahead m c q [] -> c = 0.
Proof. intros (rest & E & _). by injection E. Qed.
Lemma ahead_cons m c q d w : ahead m c q (d :: w) -> c = d.
Proof. intros (rest & E & _). by injection E. Qed.

Lemma wp_slashes n l u e s c q w (Q : Z * cursor -> fs C -> Prop) : here l u e s -> ahead (pspace u) c q w -> (length w < n)%nat ->
  (forall c' q', ahead (pspace u) c' q' (skip w) -> Q (c', q') s) -> wp (slashes n c q) Q s.
Proof.
  revert c q n. induction w as [|d w IH]; intros c q n Hs Ha Hn HQ; cbn [length] in Hn; (destruct n as [|n]; [lia|]); cbn [slashes].
  - rewrite (ahead_nil _ _ _ Ha). apply wp_ret, HQ. by rewrite (ahead_nil _ _ _ Ha) in Ha.
  - pose proof (ahead_cons _ _ _ _ _ Ha) as ->. cbn [skip] in HQ. destruct (d =? slash).
    + apply wp_bind. eapply wp_next_char; [done|done|]. intros c' q' Ha'. cbn [fst snd]. apply IH; [done|done|lia|done].
    + by apply wp_ret, HQ.
Qed.

(** One name, up to the slash or the end. *)
Lemma wp_name_loop n l u s cp c q w (Q : nat * Z * cursor -> fs C -> Prop) : here l u 0 s -> ahead (pspace u) c q w ->
  Forall pchar w -> (length w < n)%nat -> (cp <= 14)%nat -> length (d_name u) = 14%nat ->
  (forall cp' nm c' q' s', here l (set_d_name nm u) 0 s' -> ahead (pspace u) c' q' (after w) -> length nm = 14%nat ->
     take cp' nm = take 14 (take cp (d_name u) ++ seg w) -> cp' = Nat.min 14 (cp + length (seg w)) -> Q (cp', c', q') s') ->
  wp (name_loop n cp c q) Q s.
Proof.
  revert n u cp c q s. induction w as [|d w IH]; intros n u cp c q s Hs Ha Hw Hn Hcp Hl HQ; cbn [length] in Hn; (destruct n as [|n]; [lia|]); cbn [name_loop].
  - pose proof (ahead_nil _ _ _ Ha) as ->. rewrite orb_true_r. apply wp_ret. eapply (HQ cp (d_name u)); [|exact Ha|done| |].
    + by destruct u.
    + cbn [seg]. rewrite app_nil_r, take_take. f_equal. lia.
    + cbn [seg length]. lia.
  - pose proof (ahead_cons _ _ _ _ _ Ha) as ->. apply Forall_cons in Hw as [Hd Hw]. unfold pchar in Hd.
    assert ((d =? 0) = false) as Hd0 by (apply Z.eqb_neq; lia).
    rewrite Hd0, orb_false_r. cbn [seg after] in HQ. destruct (d =? slash) eqn:Esl.
    { apply wp_ret. eapply (HQ cp (d_name u)); [|exact Ha|done| |].
      + by destruct u.
      + rewrite app_nil_r, take_take. f_equal. lia.
      + cbn [seg length]. lia. }
    rewrite u8_small by lia. unfold DIRSIZ. destruct (Z.ltb_spec (Z.of_nat cp) 14) as [Hlt|Hge].
    + apply wp_bind. eapply wp_putu_here; [exact Hs|]. intros s1 Hs1.
      apply wp_bind. eapply (wp_next_char _ _ _ _ _ _ w); [exact Hs1|exact Ha|]. intros c' q' Ha'. cbn [fst snd].
      apply wp_bind, wp_gets. rewrite (at_error _ _ _ _ _ _ Hs1). cbn [Z.eqb negb].
      eapply IH; [exact Hs1|exact Ha'|done|lia|lia|cbn; by rewrite length_insert|].
      intros cp' nm c2 q2 s2 Hs2 Ha2 Hnm Htk Hc'. cbn [d_name set_d_name] in Htk. eapply (HQ cp' nm); [exact Hs2|exact Ha2|done| |].
      * rewrite Htk. f_equal. rewrite (take_S_r _ _ d) by (apply list_lookup_insert_eq; lia).
        rewrite take_insert_ge by lia. by rewrite <- app_assoc.
      * rewrite Hc'. cbn [seg length]. lia.
    + assert (cp = 14%nat) as -> by lia. apply wp_bind, wp_ret.
      apply wp_bind. eapply (wp_next_char _ _ _ _ _ _ w); [exact Hs|exact Ha|]. intros c' q' Ha'. cbn [fst snd].
      apply wp_bind, wp_gets. rewrite (at_error _ _ _ _ _ _ Hs). cbn [Z.eqb negb].
      eapply IH; [exact Hs|exact Ha'|done|lia|lia|done|].
      intros cp' nm c2 q2 s2 Hs2 Ha2 Hnm Htk Hc'. eapply (HQ cp' nm); [exact Hs2|exact Ha2|done| |].
      * rewrite Htk. rewrite !take_app_le by (rewrite length_take; lia). done.
      * rewrite Hc'. cbn [seg length]. lia.
Qed.

Lemma wp_name_pad n l u e s cp (Q : unit -> fs C -> Prop) : here l u e s -> length (d_name u) = (cp + n)%nat ->
  (forall s', here l (set_d_name (take cp (d_name u) ++ repeat 0 n) u) e s' -> Q tt s') -> wp (name_pad n cp) Q s.
Proof.
  revert u cp s. induction n as [|n IH]; intros u cp s Hs Hl HQ; cbn [name_pad].
  - apply wp_ret, HQ. cbn. rewrite app_nil_r, take_ge by lia. by destruct u.
  - apply wp_bind. eapply wp_putu_here; [exact Hs|]. intros s1 Hs1. eapply IH; [exact Hs1|cbn; rewrite length_insert; lia|].
    intros s2 Hs2. apply HQ. cbn [d_name set_d_name] in Hs2.
    rewrite (take_S_r _ _ 0), take_insert_ge, <- app_assoc in Hs2 by (try apply list_lookup_insert_eq; lia). exact Hs2.
Qed.
End chars.
