(* ===== verification/Itable.v ===== *)
(** The table of in-core inodes as path names use it: [iattach] and [idetach]
    when nothing has to be written back. *)
From S2P Require Import Prelude Sched Bytes Bcache Super Fs Free Fmap Ftree Inode Names Dirs Path.
Local Open Scope Z_scope.
Local Open Scope kernel_scope.

(** ** Inodes as the disk has them *)

(** The bytes of an inode on disk, and the inode they make. *)
Definition dimage (v : bview) (dev ino : Z) : list Z := sub (v_blk v (dev, iblockn ino)) (dinode_off ino) 64.
Definition inode_at (v : bview) (dev ino : Z) : INODE :=
  dinode_in (dimage v dev ino) (Inode dev ino 0 0 false 0 0 0 0 0 0 (repeat 0 52) 0 0 0).
(** [y] has in core what the disk has; an address union keeps bytes that its
    type does not use. *)
Definition holds (v : bview) (y : INODE) : Prop :=
  exists a, length a = 52%nat /\ y = set_i_flag (i_flag y) (dinode_in (dimage v (i_dev y) (i_ino y)) (set_i_a a y)).

(** What the search of a directory depends on. *)
Record like (x y : INODE) : Prop := {
  lk_dev : i_dev y = i_dev x;
  lk_mode : i_mode y = i_mode x;
  lk_nlink : i_nlink y = i_nlink x;
  lk_uid : i_uid y = i_uid x;
  lk_gid : i_gid y = i_gid x;
  lk_size : i_size y = i_size x;
  lk_a : itype x = IFDIR -> i_a y = i_a x
}.

Lemma length_l3tol d n : (3 * n <= length d)%nat -> length (l3tol d n) = n.
Proof.
  revert d. induction n as [|n IH]; intros d Hl; [done|]. do 3 (destruct d as [|? d]; [cbn in Hl; lia|]).
  cbn [l3tol length]. rewrite IH; [done|]. cbn [length] in Hl. lia.
Qed.

Lemma dinode_like d f x y : length d = 64%nat -> i_dev x = i_dev y -> length (i_a x) = 52%nat -> length (i_a y) = 52%nat ->
  like (dinode_in d x) (set_i_flag f (dinode_in d y)).
Proof.
  intros Hl Hd Hx Hy. split; cbn [i_dev i_mode i_nlink i_uid i_gid i_size set_i_flag dinode_in]; try reflexivity; [by symmetry|].
  unfold itype. cbn [i_mode i_a dinode_in set_i_flag]. intros Et. unfold inode_a. rewrite Et.
  cbn [Z.eqb IFDIR IFBLK IFCHR IFREG orb Pos.eqb]. change (Z.to_nat NADDR) with 13%nat.
  assert (length (unlongs (l3tol (sub d 12 40) 13)) = 52%nat) as L.
  { rewrite length_unlongs, length_l3tol; [done|]. rewrite length_sub; lia. }
  by rewrite !upd_over by congruence.
Qed.

Lemma holds_like v y : length (dimage v (i_dev y) (i_ino y)) = 64%nat -> holds v y -> like (inode_at v (i_dev y) (i_ino y)) y.
Proof.
  intros Hl (a & Ha & E). unfold inode_at. generalize dependent (dimage v (i_dev y) (i_ino y)). intros d Hl E.
  assert (like (dinode_in d (Inode (i_dev y) (i_ino y) 0 0 false 0 0 0 0 0 0 (repeat 0 52) 0 0 0)) (set_i_flag (i_flag y) (dinode_in d (set_i_a a y)))) as L.
  { by apply dinode_like. }
  rewrite <- E in L. exact L.
Qed.

Lemma like_fdata v x y lb : like x y -> itype x = IFDIR -> fdata v y lb = fdata v x lb.
Proof.
  intros L E. unfold fdata, fblock, pmap, i_addr. rewrite (lk_dev _ _ L), (lk_a _ _ L E). done.
Qed.
Lemma like_entries v x y : like x y -> itype x = IFDIR -> entries v y = entries v x.
Proof.
  intros L E. unfold entries. rewrite (lk_size _ _ L). apply map_ext. intros k. unfold dentry. apply map_ext. intros i.
  unfold rbyte, rdata. by rewrite (like_fdata v x y).
Qed.
Lemma like_dir_ok v x y : like x y -> itype x = IFDIR -> dir_ok v x -> dir_ok v y.
Proof.
  intros L E [Hs [[?|Hr] Hl]]; [done|]. split; [by rewrite (lk_size _ _ L)|]. rewrite (lk_size _ _ L). split; [right|].
  - intros lb H1 H2. unfold fblock, pmap, i_addr. rewrite (lk_dev _ _ L), (lk_a _ _ L E). by apply Hr.
  - intros lb H1 H2. unfold rdata. rewrite (like_fdata v x y) by done. by apply Hl.
Qed.
Lemma like_imode x y uid gid : like x y -> imode y uid gid = imode x uid gid.
Proof. intros L. unfold imode. by rewrite (lk_uid _ _ L), (lk_gid _ _ L), (lk_mode _ _ L). Qed.

Lemma holds_set v y (g : INODE -> INODE) :
  (forall f d a z, g (set_i_flag f (dinode_in d (set_i_a a z))) = set_i_flag f (dinode_in d (set_i_a a (g z)))) ->
  i_dev (g y) = i_dev y -> i_ino (g y) = i_ino y -> i_flag (g y) = i_flag y -> holds v y -> holds v (g y).
Proof. intros Hg Hd Hi Hf (a & Ha & E). exists a. split; [done|]. rewrite Hd, Hi, Hf, <- Hg. by rewrite <- E. Qed.

Ltac inode_fields := cbn [i_dev i_ino i_refc i_lrt i_gate i_flag i_mode i_nlink i_uid i_gid i_size i_a i_atime i_mtime i_ctime].
Ltac holds_field :=
  intros; unfold set_i_gate, set_i_refc, set_i_lrt, set_i_flag, set_i_a, dinode_in; inode_fields; reflexivity.

Lemma holds_gate v y b : holds v y -> holds v (set_i_gate b y).
Proof. apply (holds_set v y (set_i_gate b)); holds_field. Qed.
Lemma holds_lrt v y t : holds v y -> holds v (set_i_lrt t y).
Proof. apply (holds_set v y (set_i_lrt t)); holds_field. Qed.
Lemma holds_refc v y n : holds v y -> holds v (set_i_refc n y).
Proof. apply (holds_set v y (set_i_refc n)); holds_field. Qed.

Lemma length_inode_a m d a : length d = 64%nat -> length a = 52%nat -> length (inode_a m d a) = 52%nat.
Proof.
  intros Hd Ha. unfold inode_a. destruct (_ || _); [rewrite length_put16; lia|].
  destruct (_ || _).
  { rewrite length_upd; [done|]. rewrite length_unlongs, length_l3tol; change (Z.to_nat NADDR) with 13%nat; [lia|]. rewrite length_sub; lia. }
  destruct (_ =? _); [|done].
  assert (length (upd a 0 (unlongs (l3tol (sub d 12 40) (Z.to_nat ND)))) = 52%nat) as L.
  { rewrite length_upd; [done|]. rewrite length_unlongs, length_l3tol; change (Z.to_nat ND) with 10%nat; [lia|]. rewrite length_sub; lia. }
  assert (forall l o k, length l = 52%nat -> (o <= 50)%nat -> length (put16 l o k) = 52%nat) as L2 by (intros l o k Hl Ho; rewrite length_put16; lia).
  apply L2; [|lia]. apply L2; [|lia]. apply L2; [done|lia].
Qed.

(** ** Searching the table *)

Lemma find_inode_some dev ino l n ip : find_inode dev ino l n = Some ip ->
  (n <= ip)%nat /\ exists y, l !! (ip - n)%nat = Some y /\ is_inode dev ino y = true.
Proof.
  revert n. induction l as [|x l IH]; intros n; cbn [find_inode]; [done|]. destruct (is_inode dev ino x) eqn:E.
  - intros [= <-]. split; [done|]. exists x. by rewrite Nat.sub_diag.
  - intros Hf. destruct (IH _ Hf) as (Hle & y & Hy & Ey). split; [lia|]. exists y. split; [|done].
    replace (ip - n)%nat with (S (ip - S n)) by lia. done.
Qed.
Lemma find_inode_none dev ino l n : find_inode dev ino l n = None <-> forall ip y, l !! ip = Some y -> is_inode dev ino y = false.
Proof.
  revert n. induction l as [|x l IH]; intros n; cbn [find_inode]; [done|]. destruct (is_inode dev ino x) eqn:E.
  - split; [done|]. intros Ha. specialize (Ha 0%nat x eq_refl). congruence.
  - rewrite IH. split; [|by intros Ha ip y Hy; apply (Ha (S ip))]. intros Ha [|ip] y Hy; [by injection Hy as <-|by apply (Ha ip)].
Qed.

Lemma find_free_spec l n best : match find_free l n best with
  | Some ip => option_map fst best = Some ip \/ (n <= ip)%nat /\ exists y, l !! (ip - n)%nat = Some y /\ i_refc y = 0
  | None => best = None /\ forall ip y, l !! ip = Some y -> i_refc y <> 0
  end.
Proof.
  revert n best. induction l as [|x l IH]; intros n best; cbn [find_free].
  - destruct best; [by left|done].
  - set (b' := if _ : bool then _ else best). specialize (IH (S n) b').
    assert (b' = best \/ b' = Some (n, i_lrt x) /\ i_refc x = 0) as Hb.
    { unfold b'. destruct (Z.eqb_spec (i_refc x) 0); [|by left]. destruct best as [[k t]|]; [|by right]. destruct (_ <? _); [by right|by left]. }
    destruct (find_free l (S n) b') as [ip|].
    + destruct IH as [IH|(Hle & y & Hy & Ey)].
      * destruct Hb as [->|[-> Er]]; [by left|]. injection IH as <-. right. split; [done|]. exists x. by rewrite Nat.sub_diag.
      * right. split; [lia|]. exists y. replace (ip - n)%nat with (S (ip - S n)) by lia. done.
    + destruct IH as [Hbn Ha]. destruct Hb as [Hb|[Hb _]]; [|congruence]. split; [congruence|].
      intros [|ip] y Hy; [|by apply (Ha ip)]. injection Hy as <-. intros Er. unfold b' in Hbn. rewrite Er in Hbn. cbn in Hbn.
      destruct best as [[k t]|]; [|done]. by destruct (_ <? _) in Hbn.
Qed.

(** ** The table of inodes *)

(** Nothing to write back and nothing mounted on it. *)
Definition quiet (y : INODE) : Prop := Z.land (i_flag y) 15 = 0.
Definition put_back (y : INODE) : INODE := set_i_gate false (set_i_refc (i_refc y - 1) y).
(** Only what tells how long ago an inode was used may differ, and all of one
    that is not in use. *)
Definition still1 (y y' : INODE) : Prop := i_refc y' = i_refc y /\ (i_refc y <> 0 -> y' = set_i_lrt (i_lrt y') y).
Definition still : list INODE -> list INODE -> Prop := Forall2 still1.

#[export] Instance still1_preorder : PreOrder still1.
Proof.
  split.
  - intros y. split; [done|]. intros _. by destruct y.
  - intros y1 y2 y3 [R1 E1] [R2 E2].
    split; [congruence|]. intros Hr. specialize (E1 Hr). rewrite R1 in E2. specialize (E2 Hr). rewrite E2, E1. done.
Qed.
#[export] Instance still_preorder : PreOrder still.
Proof. split; unfold still; apply _. Qed.

Lemma still_insert l ip y y' : l !! ip = Some y -> still1 y y' -> still l (<[ip := y']> l).
Proof.
  intros Hy Hs. rewrite <- (list_insert_id l ip y) at 1 by done. apply Forall2_insert; [reflexivity|done].
Qed.
Lemma still_lookup l l' ip y : still l l' -> l !! ip = Some y -> exists y', l' !! ip = Some y' /\ still1 y y'.
Proof. intros Hs Hy. destruct (Forall2_lookup_l _ _ _ _ _ Hs Hy) as (y' & ? & ?). by exists y'. Qed.

Section table.
Context (v : bview) (dev : Z) (I : Z -> Prop).

(** [I] is a set of inodes that is closed under the entries of its
    directories, and they are as they should be. *)
Record tree_ok : Prop := {
  to_block : forall ino, I ino -> length (dimage v dev ino) = 64%nat;
  to_nlink : forall ino, I ino -> i_nlink (inode_at v dev ino) <> 0;
  to_dir : forall ino, I ino -> itype (inode_at v dev ino) = IFDIR -> dir_ok v (inode_at v dev ino);
  to_next : forall ino e, I ino -> itype (inode_at v dev ino) = IFDIR -> e ∈ entries v (inode_at v dev ino) -> ~ d_free e -> I (d_inode e)
}.

(** No inode of [I] is locked, changed or twice in the table, and those in core
    are what the disk has. *)
Record table_sane (l : list INODE) : Prop := {
  tk_free : forall ip y, l !! ip = Some y -> i_refc y = 0 -> i_gate y = false /\ length (i_a y) = 52%nat;
  tk_known : forall ip y, l !! ip = Some y -> i_dev y = dev -> I (i_ino y) -> i_gate y = false /\ quiet y /\ holds v y /\ 0 <= i_refc y < 32767;
  tk_uniq : forall ip ip' y y', l !! ip = Some y -> l !! ip' = Some y' -> i_dev y = dev -> I (i_ino y) -> is_inode (i_dev y) (i_ino y) y' = true -> ip = ip'
}.
(** There is a slot to use as well. *)
Record table_ok (l : list INODE) : Prop := {
  tk_sane :> table_sane l;
  tk_room : exists ip y, l !! ip = Some y /\ i_refc y = 0
}.

(** One slot of the table changed in a way that does not matter. *)
Lemma table_sane_insert l ip y y' : table_sane l -> l !! ip = Some y ->
  (i_refc y' = 0 -> i_gate y' = false /\ length (i_a y') = 52%nat) ->
  (i_dev y' = dev -> I (i_ino y') -> i_gate y' = false /\ quiet y' /\ holds v y' /\ 0 <= i_refc y' < 32767) ->
  (i_dev y' = i_dev y /\ i_ino y' = i_ino y \/ forall k z, l !! k = Some z -> is_inode (i_dev y') (i_ino y') z = false) ->
  table_sane (<[ip := y']> l).
Proof.
  intros [T1 T2 T3] Hy HF HK Hid. assert (ip < length l)%nat as Hip by by eapply lookup_lt_Some.
  assert (forall k z, <[ip := y']> l !! k = Some z -> k = ip /\ z = y' \/ k <> ip /\ l !! k = Some z) as Hlk.
  { intros k z Hk. destruct (decide (k = ip)) as [->|Hne]; [left|right; by rewrite list_lookup_insert_ne in Hk].
    rewrite list_lookup_insert_eq in Hk by done. by injection Hk. }
  split.
  - intros k z Hk. destruct (Hlk k z Hk) as [[-> ->]|[_ Hk']]; [done|by apply T1 with k].
  - intros k z Hk. destruct (Hlk k z Hk) as [[-> ->]|[_ Hk']]; [done|by apply T2 with k].
  - intros k k' z z' Hk Hk' Hd Hi Hz. destruct (Hlk k z Hk) as [[-> ->]|[Hne Hl]], (Hlk k' z' Hk') as [[-> ->]|[Hne' Hl']]; [done| | |by eapply T3].
    + destruct Hid as [[E1 E2]|Hid]; [|by rewrite (Hid _ _ Hl') in Hz]. rewrite E1, E2 in *. by eapply T3.
    + destruct Hid as [[E1 E2]|Hid].
      * eapply T3; [exact Hl|exact Hy|done|done|]. unfold is_inode in *. by rewrite <- E1, <- E2.
      * unfold is_inode in Hz. apply andb_true_iff in Hz as [Ei%Z.eqb_eq Ed%Z.eqb_eq]. specialize (Hid _ _ Hl). rewrite Ei, Ed in Hid.
        unfold is_inode in Hid. by rewrite !Z.eqb_refl in Hid.
Qed.

Lemma table_ok_insert l ip y y' : table_ok l -> l !! ip = Some y -> i_refc y' = i_refc y ->
  (i_refc y' = 0 -> i_gate y' = false /\ length (i_a y') = 52%nat) ->
  (i_dev y' = dev -> I (i_ino y') -> i_gate y' = false /\ quiet y' /\ holds v y' /\ 0 <= i_refc y' < 32767) ->
  (i_dev y' = i_dev y /\ i_ino y' = i_ino y \/ forall k z, l !! k = Some z -> is_inode (i_dev y') (i_ino y') z = false) ->
  table_ok (<[ip := y']> l).
Proof.
  intros [Hs T4] Hy Hr HF HK Hid. split; [by apply (table_sane_insert l ip y)|]. assert (ip < length l)%nat as Hip by by eapply lookup_lt_Some.
  destruct T4 as (k & z & Hk & Hz). destruct (decide (k = ip)) as [->|Hne].
  - exists ip, y'. rewrite list_lookup_insert_eq by done. split; [done|congruence].
  - exists k, z. by rewrite list_lookup_insert_ne.
Qed.

(** The inode [ino] is locked and referenced from slot [ip]; given back, the
    table is the one that [l0] was. *)
Record held_at (l0 l : list INODE) (ip : nat) (ino : Z) : Prop := {
  ha_in : I ino;
  ha_file : exists y, l !! ip = Some y /\ i_dev y = dev /\ i_ino y = ino /\ i_gate y = true /\ 1 <= i_refc y <= 32767 /\ quiet y /\ holds v y /\
    table_ok (<[ip := put_back y]> l) /\ still l0 (<[ip := put_back y]> l)
}.
(** What [iattach] leaves in a slot keeps the table when it is given back. *)
Lemma held_make l0 l ip y0 y ino : l !! ip = Some y0 -> table_ok l -> still l0 l -> I ino -> i_dev y = dev -> i_ino y = ino ->
  i_gate y = true -> i_refc y = i_refc y0 + 1 -> 0 <= i_refc y0 < 32767 -> quiet y -> holds v y -> length (i_a y) = 52%nat \/ i_refc y0 <> 0 ->
  (i_refc y0 <> 0 -> put_back y = set_i_lrt (i_lrt y) y0) ->
  (i_dev y = i_dev y0 /\ i_ino y = i_ino y0 \/ forall k z, l !! k = Some z -> is_inode (i_dev y) (i_ino y) z = false) ->
  held_at l0 (<[ip := y]> l) ip ino.
Proof.
  intros Hy0 Ht Hst Hin Hd Hi Hg Hr Hr0 Hq Hh Ha Hsame Hid. split; [done|]. exists y.
  assert (ip < length l)%nat as Hip by by eapply lookup_lt_Some.
  rewrite list_lookup_insert_eq by done. rewrite list_insert_insert_eq.
  assert (i_refc (put_back y) = i_refc y0) as Er by (cbn; lia).
  assert (holds v (put_back y)) as Hh'.
  { by apply holds_gate, holds_refc. }
  split; [reflexivity|]. split; [exact Hd|]. split; [exact Hi|]. split; [exact Hg|]. split; [lia|]. split; [exact Hq|]. split; [exact Hh|].
  split.
  - apply (table_ok_insert l ip y0); [exact Ht|exact Hy0|exact Er| | |exact Hid].
    + rewrite Er. intros Hz. split; [done|]. by destruct Ha.
    + intros _ _. split; [done|]. split; [exact Hq|]. split; [exact Hh'|lia].
  - etransitivity; [exact Hst|]. apply still_insert with y0; [done|]. split; [done|]. intros Hne. by rewrite (Hsame Hne).
Qed.

End table.

(** ** Attaching and detaching *)

Section moves.
Context {C : Type} `{BufCacheLaws C}.
Context (retry fuel : nat) (junk : list Z) (Hretry : (0 < retry)%nat).
Context (s0 : fs C) (dev : Z) (mp : MOUNT) (v : bview) (I : Z -> Prop) (l0 : list INODE).
Context (Hus : usable dev v) (Htree : tree_ok v dev I).
Local Abbreviation here := (here s0 dev mp v).
Local Abbreviation table_ok := (table_ok v dev I).
Local Abbreviation held_at := (held_at v dev I l0).
Implicit Types (s : fs C) (l : list INODE) (u : uproc).

Lemma wp_ilock l u e s ip y (Q : unit -> fs C -> Prop) : here l u e s -> l !! ip = Some y -> i_gate y = false ->
  (forall s', here (<[ip := set_i_gate true y]> l) u e s' -> Q tt s') -> wp (ilock retry ip) Q s.
Proof.
  intros Hs Hy Hg HQ. unfold ilock. destruct retry as [|r]; [lia|]. cbn [ilock_loop].
  apply wp_bind. eapply wp_geti_here; [exact Hs|exact Hy|]. rewrite Hg. by eapply wp_puti_here.
Qed.

Lemma quiet_dirty y : quiet y -> dirty y = false /\ (Z.land (i_flag y) IFMNT =? 0) = true.
Proof.
  intros Hq. unfold dirty. change (Z.lor (Z.lor IFACC IFMOD) IFCRT) with 7.
  assert (forall k, Z.land 15 k = k -> Z.land (i_flag y) k = 0) as Hk.
  { intros k Ek. rewrite <- Ek, Z.land_assoc, Hq. apply Z.land_0_l. }
  by rewrite !Hk.
Qed.

Lemma wp_idetach l u e s ip ino (Q : unit -> fs C -> Prop) : here l u e s -> held_at l ip ino ->
  (forall l' s', table_ok l' -> still l0 l' -> here l' u e s' -> Q tt s') -> wp (idetach retry junk ip) Q s.
Proof.
  intros Hs [Hin (y & Hy & Hd & Hi & Hg & Hr & Hq & Hh & Ht & Hst)] HQ. unfold idetach.
  assert (ip < length l)%nat as Hip by by eapply lookup_lt_Some.
  apply wp_bind. eapply wp_geti_here; [exact Hs|exact Hy|]. rewrite Hg, (proj2 (Z.leb_gt _ _)) by lia. cbn [negb orb].
  rewrite s16_small by lia. apply wp_bind. eapply wp_puti_here; [exact Hs|exact Hy|]. intros s1 Hs1.
  assert (dirty y || (i_nlink y =? 0) = false) as ->.
  { rewrite (proj1 (quiet_dirty y Hq)). apply Z.eqb_neq.
    assert (like (inode_at v (i_dev y) (i_ino y)) y) as L by (apply holds_like; [rewrite Hd, Hi; by apply Htree|done]).
    rewrite (lk_nlink _ _ L), Hd, Hi. by apply Htree. }
  rewrite andb_false_r. apply wp_bind, wp_ret.
  eapply wp_puti_here; [exact Hs1|by apply list_lookup_insert_eq|]. intros s2 Hs2. rewrite list_insert_insert_eq in Hs2.
  eapply HQ; [exact Ht|exact Hst|exact Hs2].
Qed.

(** An inode that is in the table. *)
Lemma wp_attach_old l u e s ip y ino n (Q : option nat -> fs C -> Prop) : here l u e s -> table_ok l -> still l0 l -> I ino ->
  find_inode dev ino l 0 = Some ip -> l !! ip = Some y ->
  (forall l' s', held_at l' ip ino -> here l' u e s' -> Q (Some ip) s') -> wp (iattach retry (S n) dev ino) Q s.
Proof.
  intros Hs Ht Hst Hin Hf Hy HQ. destruct (find_inode_some _ _ _ _ _ Hf) as (_ & y' & Hy' & Ey). rewrite Nat.sub_0_r in Hy'.
  assert (y' = y) as -> by congruence. unfold is_inode in Ey. apply andb_true_iff in Ey as [Ei%Z.eqb_eq Ed%Z.eqb_eq].
  assert (I (i_ino y)) as Hiy by by rewrite Ei. destruct (tk_known _ _ _ _ Ht ip y Hy Ed Hiy) as (Hg & Hq & Hh & Hr).
  assert (ip < length l)%nat as Hip by by eapply lookup_lt_Some.
  cbn [iattach]. apply wp_bind, wp_gets. rewrite (here_inodep _ _ _ _ _ _ _ _ Hs), Hf.
  apply wp_bind. eapply wp_geti_here; [exact Hs|exact Hy|]. rewrite (proj2 (quiet_dirty y Hq)). cbn [negb].
  apply wp_bind. eapply wp_ilock; [exact Hs|exact Hy|exact Hg|]. intros s1 Hs1.
  apply wp_bind. eapply wp_geti_here; [exact Hs1|by apply list_lookup_insert_eq|].
  unfold is_inode. cbn [i_ino i_dev i_refc set_i_gate]. rewrite Ei, Ed, !Z.eqb_refl. cbn [andb negb]. rewrite (proj2 (Z.ltb_ge _ 0)) by lia.
  apply wp_bind, wp_gets. apply wp_bind. eapply wp_puti_here; [exact Hs1|by apply list_lookup_insert_eq|]. intros s2 Hs2.
  rewrite list_insert_insert_eq in Hs2. apply wp_ret. eapply HQ; [|exact Hs2]. 
  apply (held_make v dev I l0 l ip y); [exact Hy|exact Ht|exact Hst|exact Hin|exact Ed|exact Ei|reflexivity| |exact Hr|exact Hq| | | |by left].
  - cbn [i_refc set_i_refc set_i_lrt set_i_gate]. by rewrite s16_small by lia.
  - by apply holds_lrt, holds_refc, holds_gate.
  - destruct (decide (i_refc y = 0)) as [E0|E0]; [left|by right]. by apply (tk_free _ _ _ _ Ht ip y).
  - intros _. unfold put_back. cbn [i_refc set_i_refc set_i_lrt set_i_gate i_lrt]. rewrite s16_small by lia.
    replace (i_refc y + 1 - 1) with (i_refc y) by lia. destruct y. cbn in Hg. subst. reflexivity.
Qed.

(** An inode that has to be read. *)
Lemma wp_attach_new l u e s ino n (Q : option nat -> fs C -> Prop) : here l u e s -> table_ok l -> still l0 l -> I ino ->
  find_inode dev ino l 0 = None ->
  (forall ip l' s', held_at l' ip ino -> here l' u e s' -> Q (Some ip) s') -> wp (iattach retry (S n) dev ino) Q s.
Proof.
  intros Hs Ht Hst Hin Hf HQ. cbn [iattach]. apply wp_bind, wp_gets. rewrite (here_inodep _ _ _ _ _ _ _ _ Hs), Hf.
  pose proof (find_free_spec l 0 None) as Hff. destruct (find_free l 0 None) as [ip|].
  2:{ destruct Hff as [_ Hn]. destruct (tk_room _ _ _ _ Ht) as (k & z & Hk & Hz). by destruct (Hn k z Hk). }
  destruct Hff as [?|(_ & y & Hy & Hr)]; [done|]. rewrite Nat.sub_0_r in Hy.
  destruct (tk_free _ _ _ _ Ht ip y Hy Hr) as [Hg Ha]. assert (ip < length l)%nat as Hip by by eapply lookup_lt_Some.
  pose proof (proj1 (find_inode_none dev ino l 0) Hf) as Hnone.
  apply wp_bind. eapply wp_ilock; [exact Hs|exact Hy|exact Hg|]. intros s1 Hs1.
  apply wp_bind. eapply wp_geti_here; [exact Hs1|by apply list_lookup_insert_eq|]. cbn [i_refc set_i_gate]. rewrite Hr. cbn [Z.eqb negb].
  apply wp_bind, wp_gets. rewrite (here_inodep _ _ _ _ _ _ _ _ Hs1).
  assert (find_inode dev ino (<[ip := set_i_gate true y]> l) 0 = None) as ->.
  { apply find_inode_none. intros k z Hk. destruct (decide (k = ip)) as [->|Hne].
    - rewrite list_lookup_insert_eq in Hk by done. injection Hk as <-. exact (Hnone ip y Hy).
    - rewrite list_lookup_insert_ne in Hk by done. exact (Hnone k z Hk). }
  apply wp_bind, wp_gets. apply wp_bind. eapply wp_puti_here; [exact Hs1|by apply list_lookup_insert_eq|]. intros s2 Hs2.
  rewrite list_insert_insert_eq in Hs2. set (y1 := set_i_lrt _ _) in Hs2.
  apply wp_bind. eapply (wp_icopydm (set_up u (set_inodep (<[ip := y1]> l) s0)) ip y1); [|exact Hus|].
  { split; [exact Hs2|]. split; [|done]. by apply list_lookup_insert_eq. }
  intros s3 Hs3. cbn [negb]. apply wp_ret.
  assert (here (<[ip := inode_read v y1]> l) u e s3) as Hs3'.
  { unfold Path.here. cbn [inodep set_up set_inodep] in Hs3. rewrite list_insert_insert_eq in Hs3. exact Hs3. }
  eapply HQ; [|exact Hs3']. clear Hs3 HQ.
  assert (length (dimage v dev ino) = 64%nat) as Hl64 by by apply Htree.
  apply (held_make v dev I l0 l ip y); [exact Hy|exact Ht|exact Hst|exact Hin|reflexivity|reflexivity|reflexivity| | | | | | |].
  - rewrite Hr. reflexivity.
  - lia.
  - reflexivity.
  - exists (i_a y). split; [done|]. unfold inode_read. holds_field.
  - left. unfold inode_read. cbn [i_a dinode_in]. apply length_inode_a; [exact Hl64|exact Ha].
  - done.
  - right. exact Hnone.
Qed.

Lemma wp_iattach l u e s ino (Q : option nat -> fs C -> Prop) : (0 < fuel)%nat -> here l u e s -> table_ok l -> still l0 l -> I ino ->
  (forall ip l' s', held_at l' ip ino -> here l' u e s' -> Q (Some ip) s') -> wp (iattach retry fuel dev ino) Q s.
Proof.
  intros Hfuel Hs Ht Hst Hin HQ. rewrite <- (Nat.succ_pred_pos fuel Hfuel). destruct (find_inode dev ino l 0) as [ip|] eqn:Hf.
  - destruct (find_inode_some _ _ _ _ _ Hf) as (_ & y & Hy & _). rewrite Nat.sub_0_r in Hy.
    eapply wp_attach_old; [exact Hs|exact Ht|exact Hst|exact Hin|exact Hf|exact Hy|]. apply HQ.
  - by eapply wp_attach_new.
Qed.
End moves.
