(* ===== verification/Walk.v ===== *)
(** The walk of [ftoi] along a path name. *)
From S2P Require Import Prelude Sched Bytes Bcache Super Fs Free Fmap Ftree Inode Names Dirs Path Itable.
Local Open Scope Z_scope.
Local Open Scope kernel_scope.

(** ** What a path name means *)

Section resolve.
Context (v : bview) (dev : Z) (root uid gid : Z).

(** What [ftoi] finds. *)
Inductive found :=
| FChild (ino : Z)                        (* the file *)
| FParent (dir : Z) (name : list Z) (at_ : Z) (* a directory, and where the name could be entered *)
| FEntry (dir ino at_ : Z)                (* a directory and the entry of the file in it *)
| FError (e : Z).

(** The name to look for: [..] in the root is the root itself. *)
Definition goal_name (dir : Z) (n : list Z) : list Z :=
  let p := padded n in
  if bool_decide (take 3 p = [dot; dot; 0]) && (dir =? root) then <[1%nat := 0]> p else p.

Definition search_bit (x : INODE) : bool := Z.land (imode x uid gid) IPE =? IPE.

(** What there is to do once a name has been looked for. *)
Definition looked_up (t : how) (dir : Z) (nm : list Z) (es : list (list Z)) : found :=
  match dlookup es nm with
  | None => if bool_decide (t = Create) then FParent dir nm (16 * vacant es) else FError ENOENT
  | Some (k, e) => if bool_decide (t = Unlink) then FEntry dir (d_inode e) (16 * Z.of_nat k) else FChild (d_inode e)
  end.

Fixpoint resolve (t : how) (dir : Z) (ns : list (list Z)) : found :=
  match ns with
  | [] => if bool_decide (t = Reference) then FChild dir else FError ENOENT
  | n :: ns' =>
    let x := inode_at v dev dir in
    if negb (itype x =? IFDIR) then FError ENOTDIR else
    if negb (search_bit x) then FError EACCES else
    match ns' with
    | [] => looked_up t dir (goal_name dir n) (entries v x)
    | _ => match dlookup (entries v x) (goal_name dir n) with
           | None => FError ENOENT
           | Some (_, e) => resolve t (d_inode e) ns'
           end
    end
  end.
End resolve.

Section walk.
Context {C : Type} `{BufCacheLaws C}.
Context (retry fuel : nat) (junk : list Z) (Hretry : (0 < retry)%nat) (Hfuel : (0 < fuel)%nat).
Context (s0 : fs C) (dev : Z) (mp : MOUNT) (v : bview) (I : Z -> Prop) (l0 : list INODE) (root : Z) (rd : nat).
Context (Hus : usable dev v) (Hnd : unheld (NODEV, 0) v) (Htree : tree_ok v dev I).
(** The root directory of the process is in use; there is one file system. *)
Context (Hroot : exists z, l0 !! rd = Some z /\ i_dev z = dev /\ i_ino z = root /\ i_refc z <> 0) (Hdev : rootdev s0 = dev).
Local Abbreviation here := (here s0 dev mp v).
Local Abbreviation table_ok := (table_ok v dev I).
Local Abbreviation held_at := (held_at v dev I l0).
Implicit Types (s : fs C) (l : list INODE) (u : uproc).

(** The fields of the user area that stay. *)
Record kept u u' : Prop := {
  kp_umask : u_umask u' = u_umask u;
  kp_cdir : u_cdir u' = u_cdir u;
  kp_rdir : u_rdir u' = u_rdir u;
  kp_real : u_ruid u' = u_ruid u /\ u_rgid u' = u_rgid u;
  kp_io : exists k, u_io u' = set_io_seek k (u_io u);
  kp_name : length (d_name u) = 14%nat -> length (d_name u') = 14%nat
}.

#[export] Instance kept_preorder : PreOrder kept.
Proof.
  split.
  - intros u. split; try done. exists (io_seek (u_io u)). by destruct (u_io u).
  - intros u1 u2 u3 [A1 A2 A3 [A6 A7] [k A4] A5] [B1 B2 B3 [B6 B7] [k' B4] B5]. split; try congruence; [split; congruence| |auto].
    exists k'. rewrite B4, A4. by destruct (u_io u1).
Qed.

Lemma kept_seek u : exists k, u_io u = set_io_seek k (u_io u).
Proof. exists (io_seek (u_io u)). by destruct (u_io u). Qed.
Lemma kept_set u u' : u_umask u' = u_umask u /\ u_cdir u' = u_cdir u /\ u_rdir u' = u_rdir u /\ d_name u' = d_name u /\ u_ruid u' = u_ruid u /\ u_rgid u' = u_rgid u ->
  (exists k, u_io u' = set_io_seek k (u_io u)) -> kept u u'.
Proof. intros (E1 & E2 & E3 & E4 & E5 & E6) Hio. split; try done. by rewrite E4. Qed.

(** The state [ftoi] leaves. *)
Definition outcome (r : found) u0 l u s : Prop :=
  kept u0 u /\
  match r with
  | FChild ino => here l u 0 s /\ exists ip, held_at l ip ino /\ u_cdiri u = Some ip /\ u_pdiri u = None
  | FParent dir name k => here l u 0 s /\ exists ip, held_at l ip dir /\ u_pdiri u = Some ip /\ u_cdiri u = None /\
      d_name u = name /\ io_seek (u_io u) = k
  | FEntry dir ino k => here l u 0 s /\ exists ip, held_at l ip dir /\ u_pdiri u = Some ip /\ u_cdiri u = None /\
      u_cdirn u = ino /\ io_seek (u_io u) = k
  | FError e => here l u e s /\ e <> 0 /\ table_ok l /\ still l0 l
  end.

(** Giving up with an error. *)
Lemma wp_refuse l u e s cip ino u0 e' (Q : unit -> fs C -> Prop) : here l u e s -> held_at l cip ino -> kept u0 u -> e <> 0 -> e = e' ->
  (forall l' u' s', outcome (FError e') u0 l' u' s' -> Q tt s') -> wp (idetach retry junk cip) Q s.
Proof.
  intros Hs Hh Hk He <- HQ. eapply wp_idetach; [exact Hretry|exact Htree|exact Hs|exact Hh|]. intros l' s' Ht Hst Hs'.
  eapply HQ. split; [exact Hk|]. split; [exact Hs'|]. by split.
Qed.

Lemma is_root l cip ino : held_at l cip ino -> bool_decide (cip = rd) = (ino =? root).
Proof.
  intros [Hin (y & Hy & Hd & Hi & Hg & Hr & Hq & Hh & Ht & Hst)]. destruct Hroot as (z & Hz & Hzd & Hzi & Hzr).
  destruct (still_lookup _ _ _ _ Hst Hz) as (z' & Hz' & _ & Ez'). specialize (Ez' Hzr).
  assert (cip < length l)%nat as Hip by by eapply lookup_lt_Some.
  assert (<[cip := put_back y]> l !! cip = Some (put_back y)) as Hb by by apply list_lookup_insert_eq.
  destruct (Z.eqb_spec ino root) as [E|E].
  - apply bool_decide_true. apply (tk_uniq _ _ _ _ Ht cip rd (put_back y) z'); [exact Hb|exact Hz'|exact Hd|cbn; by rewrite Hi|].
    rewrite Ez'. unfold is_inode. cbn. by rewrite Hzi, Hzd, Hi, Hd, <- E, !Z.eqb_refl.
  - apply bool_decide_false. intros ->. rewrite Hb in Hz'. injection Hz' as E2. apply E.
    rewrite <- Hi, <- Hzi. change (i_ino y) with (i_ino (put_back y)). by rewrite E2, Ez'.
Qed.

Lemma held_like l cip ino : held_at l cip ino -> exists y, l !! cip = Some y /\ i_dev y = dev /\ like (inode_at v dev ino) y.
Proof.
  intros [Hin (y & Hy & Hd & Hi & Hg & Hr & Hq & Hh & Ht & Hst)]. exists y. split; [done|]. split; [done|].
  rewrite <- Hd at 1. rewrite <- Hi. apply holds_like; [|done]. rewrite Hd, Hi. by apply Htree.
Qed.

Lemma wp_dotdot l u e s cip ino n (Q : nat -> fs C -> Prop) : here l u e s -> held_at l cip ino -> u_rdir u = rd -> d_name u = padded n ->
  (forall s', here l (set_d_name (goal_name root ino n) u) e s' -> Q cip s') -> wp (dotdot retry junk cip) Q s.
Proof.
  intros Hs Hh Hrd Hn HQ. unfold dotdot. apply wp_bind, wp_gets. rewrite (here_up _ _ _ _ _ _ _ _ Hs), Hn, Hrd, (is_root _ _ _ Hh).
  assert (u = set_d_name (padded n) u) as Eu by (rewrite <- Hn; by destruct u).
  unfold goal_name in HQ. cbv zeta in HQ. destruct (bool_decide _); cbn [andb] in HQ.
  - destruct (ino =? root).
    + apply wp_bind. eapply wp_putu_here; [exact Hs|]. intros s' Hs'. apply wp_ret, HQ. by rewrite Hn in Hs'.
    + destruct (held_like _ _ _ Hh) as (y & Hy & Hd & _). apply wp_bind. eapply wp_geti_here; [exact Hs|exact Hy|].
      apply wp_bind, wp_gets. destruct (at_ids _ _ _ _ _ _ Hs) as (_ & _ & _ & -> & _). cbn [rootdev set_up set_inodep].
      rewrite Hd, Hdev, Z.eqb_refl, andb_false_r. apply wp_ret, HQ. by rewrite <- Eu.
  - apply wp_ret, HQ. by rewrite <- Eu.
Qed.

(** The checks on a directory. *)
Lemma wp_permit l u s cip ino x (Q : unit -> fs C -> Prop) : here l u 0 s -> l !! cip = Some x -> like (inode_at v dev ino) x ->
  (forall e s', here l u e s' ->
     e = (if negb (itype (inode_at v dev ino) =? IFDIR) then ENOTDIR
          else if negb (search_bit (u_uid s0) (u_gid s0) (inode_at v dev ino)) then EACCES else 0) -> Q tt s') ->
  wp (if negb (itype x =? IFDIR) then error ENOTDIR else iaccess cip IPE ;;; kret tt) Q s.
Proof.
  intros Hs Hx L HQ. unfold itype in *. rewrite (lk_mode _ _ L). destruct (negb _).
  - eapply wp_error_here; [exact Hs|]. intros s' Hs'. by eapply HQ.
  - unfold search_bit in HQ. rewrite <- (like_imode _ _ _ _ L) in HQ. unfold iaccess. apply wp_bind, wp_bind.
    eapply wp_geti_here; [exact Hs|exact Hx|]. destruct (at_ids _ _ _ _ _ _ Hs) as (Eu & Eg & _). apply wp_bind, wp_gets. rewrite Eu.
    apply wp_bind, wp_gets. rewrite Eg. cbn [u_uid u_gid set_up set_inodep]. destruct (_ =? IPE); cbn [negb] in *.
    + apply wp_ret, wp_ret. by eapply HQ.
    + apply wp_bind. eapply wp_error_here; [exact Hs|]. intros s' Hs'. apply wp_ret, wp_ret. by eapply HQ.
Qed.

Lemma names_next w : seg w <> [] -> names w = seg w :: names (skip (after w)).
Proof. intros Hw. by rewrite names_skip, <- names_seg. Qed.
Lemma seg_skip w : skip w <> [] -> seg (skip w) <> [].
Proof.
  intros Hw. destruct (skip w) as [|c w'] eqn:E; [done|]. cbn [seg]. by rewrite (skip_head _ _ _ E).
Qed.
Lemma length_next w : seg w <> [] -> (length (skip (after w)) < length w)%nat.
Proof.
  intros Hw. pose proof (length_skip (after w)). pose proof (f_equal length (seg_after w)) as E. rewrite length_app in E.
  destruct (seg w); [done|]. cbn [length] in E. lia.
Qed.

(** One name of the path, up to the next. *)
Lemma wp_name {A} l u s c q w (k : nat * Z * cursor -> Z * cursor -> M (fs C) A) (z : M (fs C) A) (Q : A -> fs C -> Prop) :
  here l u 0 s -> ahead (pspace s0 u) c q w -> Forall pchar w -> (length w < PATHFUEL)%nat -> length (d_name u) = 14%nat ->
  (forall r c' q' s', here l (set_d_name (padded (seg w)) u) 0 s' -> ahead (pspace s0 u) c' q' (skip (after w)) -> wp (k r (c', q')) Q s') ->
  wp (r <- name_loop PATHFUEL 0 c q ;;
      w <- slashes PATHFUEL (snd (fst r)) (snd r) ;;
      e <- gets u_error ;;
      if negb (e =? 0) then z else
      name_pad (Z.to_nat DIRSIZ - fst (fst r)) (fst (fst r)) ;;; k r w) Q s.
Proof.
  intros Hs Ha Hw Hl Hn HQ. apply wp_bind. eapply (wp_name_loop s0 dev mp v); [exact Hs|exact Ha|exact Hw|exact Hl|lia|exact Hn|].
  intros cp nm c1 q1 s1 Hs1 Ha1 Hnm Htk Hcp. cbn [fst snd]. apply wp_bind.
  assert (length (after w) <= length w)%nat as Hla.
  { pose proof (f_equal length (seg_after w)) as E. rewrite length_app in E. lia. }
  eapply (wp_slashes s0 dev mp v); [exact Hs1|exact Ha1|lia|]. intros c2 q2 Ha2.
  apply wp_bind, wp_gets. rewrite (at_error _ _ _ _ _ _ Hs1). cbn [Z.eqb negb]. change (Z.to_nat DIRSIZ) with 14%nat.
  apply wp_bind. eapply wp_name_pad; [exact Hs1|cbn [d_name set_d_name]; lia|]. intros s2 Hs2. cbn [d_name set_d_name] in Hs2.
  rewrite take_0 in Htk. cbn [app] in Htk. rewrite Htk in Hs2. eapply HQ; [|exact Ha2].
  replace (padded (seg w)) with (take 14 (seg w) ++ repeat 0 (14 - cp)); [exact Hs2|].
  unfold padded. rewrite take_app. f_equal. rewrite Hcp. symmetry. rewrite !repeat_replicate, take_replicate. f_equal. lia.
Qed.

Lemma length_padded n : length (padded n) = 14%nat.
Proof. unfold padded. rewrite length_take, length_app, repeat_length. lia. Qed.
Lemma length_goal_name dir n : length (goal_name root dir n) = 14%nat.
Proof. unfold goal_name. cbv zeta. destruct (_ && _); [rewrite length_insert|]; apply length_padded. Qed.

Lemma dlookup_entry es name k e : dlookup es name = Some (k, e) -> e ∈ es /\ ~ d_free e.
Proof.
  intros Hd. apply list_find_Some in Hd as (Hk & Hd & _). split; [by eapply list_elem_of_lookup_2|].
  apply direq_used in Hd. by apply Z.eqb_neq.
Qed.

Lemma ahead_end m c q w : ahead m c q w -> Forall pchar w -> (c =? 0) = bool_decide (w = []).
Proof.
  intros Ha Hw. destruct w as [|d w]; [by rewrite (ahead_nil _ _ _ Ha)|]. rewrite (ahead_cons _ _ _ _ _ Ha).
  apply Forall_cons in Hw as [Hd _]. unfold pchar in Hd. rewrite bool_decide_false by done. apply Z.eqb_neq. lia.
Qed.

Lemma names_nil w : seg w <> [] \/ w = [] -> names w = [] <-> w = [].
Proof. intros [Hw| ->]; [|done]. rewrite names_seg by done. split; [done|]. by intros ->. Qed.

(** From a directory to one of its files. *)
Lemma wp_step_into {A} l u e s cip ino i (K : option nat -> M (fs C) A) (Q : A -> fs C -> Prop) : here l u e s -> held_at l cip ino -> I i ->
  (forall ip l' s', held_at l' ip i -> here l' u e s' -> wp (K (Some ip)) Q s') ->
  wp (idetach retry junk cip ;;; r <- iattach retry fuel dev i ;; K r) Q s.
Proof.
  intros Hs Hh Hi HQ. apply wp_bind. eapply (wp_idetach retry junk); [exact Hretry|exact Htree|exact Hs|exact Hh|]. intros l1 s1 Ht1 Hst1 Hs1.
  apply wp_bind. eapply (wp_iattach retry fuel Hretry); [exact Hus|exact Htree|exact Hfuel|exact Hs1|exact Ht1|exact Hst1|exact Hi|].
  exact HQ.
Qed.

Lemma wp_ftoi_next t l u0 u s cip ino c es sc (last : bool) (next : nat -> M (fs C) unit) (Q : unit -> fs C -> Prop) :
  here l u 0 s -> held_at l cip ino -> kept u0 u -> u_cdiri u = None -> u_pdiri u = None -> searched es (d_name u) sc ->
  (forall k d, dlookup es (d_name u) = Some (k, d) -> I (d_inode d)) -> (c =? 0) = last ->
  (if last then forall l' u' s', outcome (looked_up t ino (d_name u) es) u0 l' u' s' -> Q tt s'
   else match dlookup es (d_name u) with
        | None => forall l' u' s', outcome (FError ENOENT) u0 l' u' s' -> Q tt s'
        | Some (k, d) => forall ip l' s', held_at l' ip (d_inode d) -> here l' u 0 s' -> wp (next ip) Q s'
        end) ->
  wp (ftoi_next retry fuel junk t cip c dev sc next) Q s.
Proof.
  intros Hs Hh Hk Hci Hpi Hsc Hid Hc HQ. unfold ftoi_next. cbv zeta. rewrite Hc. unfold searched, looked_up in *.
  destruct (dlookup es (d_name u)) as [[k d]|].
  - destruct Hsc as (Hm & Hk' & Hi). rewrite Hm. cbn [Z.eqb]. rewrite Hi. specialize (Hid k d eq_refl). destruct last.
    + destruct (bool_decide (t = Unlink)).
      * eapply wp_putu_here; [exact Hs|]. intros s1 Hs1.
        refine (HQ _ _ _ (conj _ (conj Hs1 _))); [etransitivity; [exact Hk|apply kept_set; [done|by eexists]]|]. exists cip. by split_and!.
      * eapply wp_step_into; [exact Hs|exact Hh|exact Hid|]. intros ip l1 s1 Hh1 Hs1. eapply wp_putu_here; [exact Hs1|]. intros s2 Hs2.
        refine (HQ _ _ _ (conj _ (conj Hs2 _))); [etransitivity; [exact Hk|apply kept_set; [done|exact (kept_seek u)]]|]. exists ip. by split_and!.
    + eapply wp_step_into; [exact Hs|exact Hh|exact Hid|]. exact HQ.
  - destruct Hsc as (Hm & Hf). rewrite Hm. cbn [Z.eqb].
    assert (forall (F : Prop), (forall l' u' s', outcome (FError ENOENT) u0 l' u' s' -> Q tt s') -> wp (error ENOENT ;;; idetach retry junk cip) Q s) as Hno.
    { intros _ HQ'. apply wp_bind. eapply wp_error_here; [exact Hs|]. intros s1 Hs1. eapply wp_refuse; [exact Hs1|exact Hh|exact Hk|done|done|exact HQ']. }
    destruct last; cbn [andb]; [|by apply (Hno True)]. destruct (bool_decide (t = Create)); [|by apply (Hno True)].
    eapply wp_putu_here; [exact Hs|]. intros s1 Hs1.
    refine (HQ _ _ _ (conj _ (conj Hs1 _))); [etransitivity; [exact Hk|apply kept_set; [done|by eexists]]|]. exists cip. by split_and!.
Qed.

Lemma wp_ftoi_loop n t l u0 u s cip ino c q w (Q : unit -> fs C -> Prop) :
  here l u 0 s -> held_at l cip ino -> kept u0 u -> u_rdir u0 = rd -> ahead (pspace s0 u) c q w -> Forall pchar w ->
  (length w < n)%nat -> (length w < PATHFUEL)%nat -> seg w <> [] -> length (d_name u) = 14%nat -> u_cdiri u = None -> u_pdiri u = None ->
  (forall l' u' s', outcome (resolve v dev root (u_uid s0) (u_gid s0) t ino (names w)) u0 l' u' s' -> Q tt s') ->
  wp (ftoi_loop retry fuel junk n t cip c q) Q s.
Proof.
  revert l u s cip ino c q w. induction n as [|n IH]; intros l u s cip ino c q w Hs Hh Hk Hrd Ha Hw Hlen Hpf Hsg Hn Hci Hpi HQ; [lia|].
  cbn [ftoi_loop]. eapply wp_name; [exact Hs|exact Ha|exact Hw|exact Hpf|exact Hn|].
  intros r c2 q2 s1 Hs1 Ha2. cbn [fst snd].
  set (u1 := set_d_name (padded (seg w)) u) in *. set (w2 := skip (after w)) in *.
  assert (kept u0 u1) as Hk1.
  { etransitivity; [exact Hk|]. split; try done; [exact (kept_seek u)|]. intros _. apply length_padded. }
  rewrite (names_next w Hsg) in HQ. fold w2 in HQ. cbn [resolve] in HQ.
  destruct (held_like _ _ _ Hh) as (x & Hx & Hxd & L). set (xd := inode_at v dev ino) in *.
  apply wp_bind. eapply wp_geti_here; [exact Hs1|exact Hx|]. apply wp_bind. eapply wp_permit; [exact Hs1|exact Hx|exact L|].
  intros e s2 Hs2 He. fold xd in He. apply wp_bind, wp_gets. rewrite (at_error _ _ _ _ _ _ Hs2).
  destruct (itype xd =? IFDIR) eqn:Edir; cbn [negb] in He, HQ.
  2:{ rewrite He. cbn [Z.eqb negb ENOTDIR]. eapply wp_refuse; [exact Hs2|exact Hh|exact Hk1|by rewrite He|exact He|exact HQ]. }
  destruct (search_bit _ _ xd) eqn:Eacc; cbn [negb] in He, HQ.
  2:{ rewrite He. cbn [Z.eqb negb EACCES]. eapply wp_refuse; [exact Hs2|exact Hh|exact Hk1|by rewrite He|exact He|exact HQ]. }
  subst e. cbn [Z.eqb negb]. apply Z.eqb_eq in Edir.
  apply wp_bind. eapply (wp_dotdot _ _ _ _ _ _ (seg w)); [exact Hs2|exact Hh|by rewrite (kp_rdir _ _ Hk1)|done|]. intros s3 Hs3.
  set (nm := goal_name root ino (seg w)) in *. set (u2 := set_d_name nm u1) in *.
  assert (kept u0 u2) as Hk2.
  { etransitivity; [exact Hk1|]. split; try done; [exact (kept_seek u1)|]. intros _. apply length_goal_name. }
  apply wp_bind. eapply wp_geti_here; [exact Hs3|exact Hx|]. apply wp_bind, wp_gets. rewrite (here_up _ _ _ _ _ _ _ _ Hs3).
  change (d_name u2) with nm. apply wp_bind.
  assert (I ino) as Hino by by destruct Hh.
  assert (dir_ok v x) as Hdir by (apply (like_dir_ok v xd); [exact L|exact Edir|by apply Htree]).
  eapply wp_search; [split; [exact Hs3|by split]|exact Hus|exact Hnd|exact Hdir|]. intros sc s4 Hsc Hs4.
  fold (Path.here s0 dev mp v l u2 0 s4) in Hs4. apply wp_bind. eapply wp_geti_here; [exact Hs4|exact Hx|]. rewrite Hxd.
  assert (searched (entries v xd) nm sc) as Hsc' by by rewrite <- (like_entries v xd x L Edir).
  assert (forall k d, dlookup (entries v xd) nm = Some (k, d) -> I (d_inode d)) as Hid.
  { intros k d Hd. destruct (dlookup_entry _ _ _ _ Hd) as [Hd1 Hd2]. eapply to_next; [exact Htree|exact Hino|exact Edir|exact Hd1|exact Hd2]. }
  assert (length nm = 14%nat) as Hlnm by apply length_goal_name.
  assert (seg w2 <> [] \/ w2 = []) as Hw2 by (unfold w2; destruct (decide (skip (after w) = [])) as [E|E]; [by right|left; by apply seg_skip]).
  pose proof (ahead_end _ _ _ _ Ha2 ltac:(by apply skip_chars, after_chars)) as Hend.
  pose proof (length_next w Hsg) as Hlt. fold w2 in Hlt, Hend. assert (Forall pchar w2) as Hw2c by by apply skip_chars, after_chars.
  clearbody xd nm w2. clear L Hsc Hdir. generalize dependent (entries v xd). intros es HQ Hsc Hid.
  eapply (wp_ftoi_next t l u0 u2 s4 cip ino c2 es sc (bool_decide (w2 = []))); [exact Hs4|exact Hh|exact Hk2|exact Hci|exact Hpi|exact Hsc|exact Hid|exact Hend|].
  change (d_name u2) with nm. destruct (decide (w2 = [])) as [->|Ew].
  - rewrite bool_decide_true by done. exact HQ.
  - rewrite bool_decide_false by done. destruct Hw2 as [Hw2|]; [|done]. pose proof (names_seg w2 Hw2) as Ens. rewrite Ens in HQ. cbv iota in HQ.
    destruct (dlookup es nm) as [[k d]|]; [|exact HQ]. rewrite <- Ens in HQ. intros ip l' s' Hh' Hs'.
    eapply IH; [exact Hs'|exact Hh'|exact Hk2|exact Hrd|exact Ha2|exact Hw2c|lia|lia|exact Hw2|exact Hlnm|exact Hci|exact Hpi|exact HQ].
Qed.

(** The directory to start at. *)
Lemma wp_enter l u e s cip ino y {A} (k : M (fs C) A) (Q : A -> fs C -> Prop) : here l u e s -> table_ok l -> still l0 l -> I ino ->
  l !! cip = Some y -> i_dev y = dev -> i_ino y = ino -> i_refc y <> 0 ->
  (forall l' s', held_at l' cip ino -> here l' u e s' -> wp k Q s') ->
  wp (ilock retry cip ;;; puti cip (fun x => set_i_refc (s16 (i_refc x + 1)) x) ;;; k) Q s.
Proof.
  intros Hs Ht Hst Hin Hy Hd Hi Hr HQ. assert (cip < length l)%nat as Hip by by eapply lookup_lt_Some.
  destruct (tk_known _ _ _ _ Ht cip y Hy Hd ltac:(by rewrite Hi)) as (Hg & Hq & Hh & Hr2).
  apply wp_bind. eapply (wp_ilock retry Hretry); [exact Hs|exact Hy|exact Hg|]. intros s1 Hs1.
  apply wp_bind. eapply wp_puti_here; [exact Hs1|by apply list_lookup_insert_eq|]. intros s2 Hs2. rewrite list_insert_insert_eq in Hs2.
  eapply HQ; [|exact Hs2]. cbn [i_refc set_i_gate]. rewrite s16_small by lia.
  apply (held_make v dev I l0 l cip y); [exact Hy|exact Ht|exact Hst|exact Hin|exact Hd|exact Hi|reflexivity|reflexivity|exact Hr2|exact Hq| |by right| |by left].
  - by apply holds_refc, holds_gate.
  - intros _. unfold put_back. cbn [i_refc set_i_refc set_i_gate i_lrt]. replace (i_refc y + 1 - 1) with (i_refc y) by lia.
    destruct y. cbn in Hg. subst. reflexivity.
Qed.

Lemma skip_names w : seg (skip w) <> [] \/ skip w = [].
Proof. destruct (decide (skip w = [])) as [E|E]; [by right|left; by apply seg_skip]. Qed.

Lemma wp_ftoi_from t l u0 u s cip ino y c q w (Q : unit -> fs C -> Prop) :
  here l u 0 s -> table_ok l -> still l0 l -> I ino -> l !! cip = Some y -> i_dev y = dev -> i_ino y = ino -> i_refc y <> 0 ->
  kept u0 u -> u_rdir u0 = rd -> ahead (pspace s0 u) c q w -> Forall pchar w -> (length w < PATHFUEL)%nat ->
  length (d_name u) = 14%nat -> u_cdiri u = None -> u_pdiri u = None ->
  (forall l' u' s', outcome (resolve v dev root (u_uid s0) (u_gid s0) t ino (names w)) u0 l' u' s' -> Q tt s') ->
  wp (w <- slashes PATHFUEL c q ;;
      e <- gets u_error ;;
      if negb (e =? 0) then kret tt else
      ilock retry cip ;;;
      puti cip (fun x => set_i_refc (s16 (i_refc x + 1)) x) ;;;
      if fst w =? 0 then
        if bool_decide (t = Reference) then putu (set_u_cdiri (Some cip))
        else error ENOENT ;;; idetach retry junk cip
      else ftoi_loop retry fuel junk PATHFUEL t cip (fst w) (snd w)) Q s.
Proof.
  intros Hs Ht Hst Hin Hy Hd Hi Hr Hk Hrd Ha Hw Hl Hn Hci Hpi HQ. apply wp_bind.
  eapply (wp_slashes s0 dev mp v); [exact Hs|exact Ha|exact Hl|]. intros c' q' Ha'. cbn [fst snd].
  apply wp_bind, wp_gets. rewrite (at_error _ _ _ _ _ _ Hs). cbn [Z.eqb negb].
  eapply wp_enter; [exact Hs|exact Ht|exact Hst|exact Hin|exact Hy|exact Hd|exact Hi|exact Hr|]. intros l1 s1 Hh Hs1.
  rewrite <- names_skip in HQ. pose proof (skip_names w) as Hw2. pose proof (length_skip w) as Hlw. pose proof (skip_chars w Hw) as Hwc.
  generalize dependent (skip w). intros w2 HQ Ha2 Hw2 Hlw Hwc. rewrite (ahead_end _ _ _ _ Ha2 Hwc).
  destruct (decide (w2 = [])) as [->|Ew]; [rewrite bool_decide_true by done|rewrite bool_decide_false by done].
  - cbn [names resolve] in HQ. destruct (bool_decide (t = Reference)).
    + eapply wp_putu_here; [exact Hs1|]. intros s2 Hs2.
      refine (HQ _ _ _ (conj _ (conj Hs2 _))); [etransitivity; [exact Hk|apply kept_set; [done|exact (kept_seek u)]]|]. exists cip. by split_and!.
    + apply wp_bind. eapply wp_error_here; [exact Hs1|]. intros s2 Hs2. eapply wp_refuse; [exact Hs2|exact Hh|exact Hk|done|done|exact HQ].
  - destruct Hw2 as [Hw2|]; [|done].
    eapply wp_ftoi_loop; [exact Hs1|exact Hh|exact Hk|exact Hrd|exact Ha2|exact Hwc|lia|lia|exact Hw2|exact Hn|exact Hci|exact Hpi|exact HQ].
Qed.
End walk.

(** The directory a process has in [cip] is [ino] of [dev], and in use. *)
Definition dir_of {C} (s : fs C) (dev : Z) (cip : nat) (ino : Z) : Prop :=
  exists y, inodep s !! cip = Some y /\ i_dev y = dev /\ i_ino y = ino /\ i_refc y <> 0.

(** Where a path starts. *)
Definition start (root cwd : Z) (w : list Z) : Z :=
  match w with c :: _ => if c =? slash then root else cwd | [] => cwd end.

Lemma wp_ftoi {C} `{BufCacheLaws C} retry fuel junk (s : fs C) dev mp v (I : Z -> Prop) root cwd t p w :
  fs_at s dev mp v 0 s -> usable dev v -> unheld (NODEV, 0) v -> rootdev s = dev ->
  tree_ok v dev I -> table_ok v dev I (inodep s) -> I root -> I cwd -> dir_of s dev (u_rdir (up s)) root -> dir_of s dev (u_cdir (up s)) cwd ->
  length (d_name (up s)) = 14%nat -> Forall pchar w -> Z.of_nat (length w) < PATHMAX -> text (pspace s (up s)) p (w ++ [0]) ->
  (0 < retry)%nat -> (0 < fuel)%nat ->
  wp (ftoi retry fuel junk p t) (fun r s' => r = u_error s' /\ exists l u,
    outcome s dev mp v I (inodep s) (resolve v dev root (u_uid s) (u_gid s) t (start root cwd w) (names w)) (up s) l u s') s.
Proof.
  intros Hat Hus Hnd Hdev Htree Htab Hir Hic Hroot (y & Hy & Hyd & Hyi & Hyr) Hn Hw Hl Htx Hretry Hfuel.
  pose proof Hroot as (z & Hz & Hzd & Hzi & Hzr).
  assert (here s dev mp v (inodep s) (up s) 0 s) as Hs by (unfold here; by destruct s).
  unfold ftoi. apply wp_bind. apply wp_mono with (Q := fun _ s' => exists l u,
    outcome s dev mp v I (inodep s) (resolve v dev root (u_uid s) (u_gid s) t (start root cwd w) (names w)) (up s) l u s');
    [|intros _ s' Ho; by apply wp_gets].
  unfold ftoi_body. apply wp_bind. eapply wp_putu_here; [exact Hs|]. intros s1 Hs1. set (u1 := set_u_pdiri _ _) in Hs1.
  assert (kept (up s) u1) as Hk by (apply kept_set; [done|exact (kept_seek (up s))]).
  assert (exists c rest, w ++ [0] = c :: rest) as (c & rest & Ecr) by (destruct w; by do 2 eexists).
  assert (length rest = length w) as Hlr by (apply (f_equal length) in Ecr; rewrite length_app in Ecr; cbn in Ecr; lia).
  pose proof Htx as Htx'. rewrite Ecr in Htx'. destruct Htx' as [Hc Hrest].
  apply wp_bind. eapply wp_ftoic; [exact Hs1|exact Hc|done|]. apply wp_bind, wp_gets. rewrite (at_error _ _ _ _ _ _ Hs1). cbn [Z.eqb negb].
  assert (ahead (pspace s u1) c (Cur (pnext p) (PATHMAX - 1)) w) as Ha.
  { exists rest. split; [done|]. split; [exact Hrest|]. cbn [nleft]. lia. }
  assert (length w < PATHFUEL)%nat as Hpf by (unfold PATHFUEL, PATHMAX in *; lia).
  apply wp_bind, wp_gets. rewrite (here_up _ _ _ _ _ _ _ _ Hs1). cbn [fst snd np nleft].
  apply wp_bind. destruct (c =? slash) eqn:Esl; cbn [negb].
  - destruct w as [|c' w']; [injection Ecr as <- _; done|]. injection Ecr as <- _. cbn [start names]. rewrite Esl.
    apply Forall_cons in Hw as [_ Hw]. apply wp_bind. eapply wp_next_char; [exact Hs1|exact Ha|]. intros c2 q2 Ha2. apply wp_ret. cbn [fst snd].
    cbn [length] in Hpf.
    eapply (wp_ftoi_from retry fuel junk Hretry Hfuel s dev mp v I (inodep s) root (u_rdir (up s))); [exact Hus|exact Hnd|exact Htree|exact Hroot|exact Hdev|exact Hs1|exact Htab|done|exact Hir|exact Hz|exact Hzd|exact Hzi|exact Hzr|exact Hk|done|exact Ha2|exact Hw|lia|exact Hn|done|done|].
    intros l' u' s' Ho. by exists l', u'.
  - apply wp_ret. cbn [fst snd]. assert (start root cwd w = cwd) as ->.
    { destruct w as [|c' w']; [done|]. injection Ecr as -> _. cbn [start]. by rewrite Esl. }
    eapply (wp_ftoi_from retry fuel junk Hretry Hfuel s dev mp v I (inodep s) root (u_rdir (up s))); [exact Hus|exact Hnd|exact Htree|exact Hroot|exact Hdev|exact Hs1|exact Htab|done|exact Hic|exact Hy|exact Hyd|exact Hyi|exact Hyr|exact Hk|done|exact Ha|exact Hw|exact Hpf|exact Hn|done|done|].
    intros l' u' s' Ho. by exists l', u'.
Qed.

(** C5: [ftoi] finds what the path name means: starting at the root or the
    current directory it goes through the names between the slashes, each cut
    to fourteen characters, asks for a directory that the process may search
    every time, does not go up from the root of the process, and ends with the
    file, with the place for a new entry or with the place of the entry to
    remove, or with the error of the first name that fails.  The inode it returns is
    locked and has a reference of its own; every other inode in use is as before,
    nothing is left locked, no buffer is held and the disk is not written. *)
Theorem ftoi_correct {C} `{BufCacheLaws C} retry fuel junk (s : fs C) dev mp v (I : Z -> Prop) root cwd t p w :
  fs_at s dev mp v 0 s -> usable dev v -> unheld (NODEV, 0) v -> rootdev s = dev ->
  tree_ok v dev I -> table_ok v dev I (inodep s) -> I root -> I cwd -> dir_of s dev (u_rdir (up s)) root -> dir_of s dev (u_cdir (up s)) cwd ->
  length (d_name (up s)) = 14%nat -> Forall pchar w -> Z.of_nat (length w) < PATHMAX -> text (pspace s (up s)) p (w ++ [0]) ->
  (0 < retry)%nat -> (0 < fuel)%nat ->
  wp (ftoi retry fuel junk p t) (fun r s' => r = u_error s' /\ exists l u,
    outcome s dev mp v I (inodep s) (resolve v dev root (u_uid s) (u_gid s) t (start root cwd w) (names w)) (up s) l u s') s.
Proof. apply wp_ftoi. Qed.

(** ** A small file system

    Inode 2 is the root with the directory bin, inode 3, in which the file sh
    is inode 4. *)
Definition w_entry (ino : Z) (n : list Z) : list Z := enc16 ino ++ padded n.
Definition w_bin : list Z := [98; 105; 110].
Definition w_sh : list Z := [115; 104].
Definition w_block (es : list (list Z)) : list Z := take 512 (concat es ++ repeat 0 512).
Definition w_file (mode size b : Z) : INODE :=
  Inode 1 0 0 0 false 0 mode 1 0 0 size (concat (map (unbe 4) (b :: repeat 0 12))) 0 0 0.
Definition w_image (x : INODE) : list Z := dinode_out x (repeat 0 40).
Definition w_inodes : list Z :=
  w_block [repeat 0 64; w_image (w_file 0x41ED 48 20); w_image (w_file 0x41ED 48 21); w_image (w_file (-32275) 5 22)].
Definition w_dirs : bview := View (fun k =>
  if decide (k = (1, iblockn 2)) then w_inodes
  else if decide (k = (1, 20)) then w_block [w_entry 2 [46]; w_entry 2 [46; 46]; w_entry 3 w_bin]
  else if decide (k = (1, 21)) then w_block [w_entry 3 [46]; w_entry 2 [46; 46]; w_entry 4 w_sh]
  else repeat 0 512) ∅ (fun _ => true).
Definition w_tree (ino : Z) : Prop := ino = 2 \/ ino = 3 \/ ino = 4.
(** The path /bin/sh at 100. *)
Definition w_path : list Z := slash :: w_bin ++ slash :: w_sh.
Definition w_pathmem (sp a : Z) : option Z := if a <? 100 then None else (w_path ++ [0]) !! Z.to_nat (a - 100).
Definition w_slots : list INODE :=
  [set_i_refc 2 (inode_at w_dirs 1 2); Inode 0 0 0 0 false 0 0 0 0 0 0 (repeat 0 52) 0 0 0].
Definition w_wstate : fs acache := Fs (Acache w_dirs) [w_mount 0] w_slots 0 0 0 77 1 [] 0 w_pathmem w_up.

Lemma w_lookup (P : INODE -> Prop) ip y : w_slots !! ip = Some y -> (ip = 0%nat -> P (set_i_refc 2 (inode_at w_dirs 1 2))) ->
  (ip = 1%nat -> P (Inode 0 0 0 0 false 0 0 0 0 0 0 (repeat 0 52) 0 0 0)) -> P y.
Proof. destruct ip as [|[|ip]]; [by intros [= <-]; auto..|done]. Qed.

(** Its directories. *)
Lemma w_dir ino : w_tree ino -> itype (inode_at w_dirs 1 ino) = IFDIR -> ino = 2 \/ ino = 3.
Proof. intros [->|[->| ->]]; [by left|by right|]. vm_compute. discriminate. Qed.

Lemma w_dir_ok ino : ino = 2 \/ ino = 3 -> dir_ok w_dirs (inode_at w_dirs 1 ino).
Proof.
  intros Hi. assert (i_size (inode_at w_dirs 1 ino) = 48) as Es by (destruct Hi as [-> | ->]; vm_compute; reflexivity).
  assert (forall lb, 0 <= lb -> lb * BSIZE < 48 -> lb = 0) as H0 by (unfold BSIZE; lia).
  assert (0 <= fblock w_dirs (inode_at w_dirs 1 ino) 0) as Hb by (destruct Hi as [-> | ->]; vm_compute; discriminate).
  assert (Z.of_nat (length (rdata false w_dirs (inode_at w_dirs 1 ino) 0)) = BSIZE) as Hl by (destruct Hi as [-> | ->]; vm_compute; reflexivity).
  split; [rewrite Es; done|]. rewrite Es. split; [right|]; intros lb Hlb Hlt; rewrite (H0 lb Hlb Hlt); [split; [reflexivity|exact Hb]|exact Hl].
Qed.

Lemma w_entries ino : ino = 2 \/ ino = 3 -> exists n, entries w_dirs (inode_at w_dirs 1 ino) =
  [w_entry ino [46]; w_entry 2 [46; 46]; w_entry (ino + 1) n].
Proof. intros [-> | ->]; [exists w_bin|exists w_sh]; vm_compute; reflexivity. Qed.

Lemma w_inode_of ino n : ino = 2 \/ ino = 3 \/ ino = 4 -> d_inode (w_entry ino n) = ino.
Proof. intros [->|[->| ->]]; reflexivity. Qed.

Lemma w_tree_ok : tree_ok w_dirs 1 w_tree.
Proof.
  split.
  - intros ino [->|[->| ->]]; vm_compute; reflexivity.
  - intros ino [->|[->| ->]]; vm_compute; discriminate.
  - intros ino Hi Ht. by apply w_dir_ok, w_dir.
  - intros ino e Hi Ht He _. pose proof (w_dir ino Hi Ht) as Hd. destruct (w_entries ino Hd) as [n E]. rewrite E in He.
    apply elem_of_cons in He as [->|He]; [rewrite w_inode_of; [exact Hi|exact Hi]|].
    apply elem_of_cons in He as [->|He]; [rewrite w_inode_of; by left|].
    apply list_elem_of_singleton in He as ->. rewrite w_inode_of by lia. unfold w_tree. lia.
Qed.

Lemma w_table_ok : table_ok w_dirs 1 w_tree w_slots.
Proof.
  split; [split|].
  - intros ip y Hy. pattern y. apply (w_lookup _ ip y Hy); intros _; [vm_compute; discriminate|done].
  - intros ip y Hy. pattern y. apply (w_lookup _ ip y Hy); intros _; [|intros _ [?|[?|?]]; done].
    intros _ _. split; [done|]. split; [done|]. split; [|split; [discriminate|reflexivity]].
    exists (repeat 0 52). split; [done|]. vm_compute. reflexivity.
  - intros ip ip' y y' Hy Hy'. destruct ip as [|[|ip]], ip' as [|[|ip']]; try done; injection Hy as <-; injection Hy' as <-.
    + intros _ _. vm_compute. discriminate.
    + intros ? [?|[?|?]]; done.
  - exists 1%nat. eexists. split; [reflexivity|done].
Qed.

(** /bin/sh is inode 4. *)
Lemma ftoi_correct_witness : exists r s', ftoi 1 1 (repeat 0 40) 100 Reference w_wstate = Ret r s' /\ r = u_error s' /\ exists l u,
  outcome w_wstate 1 (w_mount 0) w_dirs w_tree w_slots (FChild 4) w_up l u s'.
Proof.
  refine (proj1 (wp_returns _ _ _) (ftoi_correct 1 1 (repeat 0 40) w_wstate 1 (w_mount 0) w_dirs w_tree 2 2 Reference 100 w_path
    _ _ _ _ w_tree_ok w_table_ok _ _ _ _ _ _ _ _ _ _)).
  - by apply fs_at_self.
  - split; [intros; by apply unheld_none|unfold room, NHOLD; vm_compute; lia|done|done].
  - by apply unheld_none.
  - done.
  - by left.
  - by left.
  - eexists. by split_and!.
  - eexists. by split_and!.
  - done.
  - repeat (apply Forall_cons; split; [by split|]). constructor.
  - done.
  - vm_compute. by split_and!.
  - lia.
  - lia.
Defined.
