(* ===== verification/Entry.v ===== *)
(** Directory entries made and removed ([idirent]). *)
From S2P Require Import Prelude Sched Bytes Bcache Super Fs Free Fmap Ftree Fwrite Inode Names Dirs Path.
Local Open Scope Z_scope.
Local Open Scope kernel_scope.

(** ** Entries replaced *)

(** The directory as a table from names to inodes. *)
Definition lookup_ino (es : list (list Z)) (name : list Z) : option Z := (fun p => d_inode (snd p)) <$> dlookup es name.
(** Entry [k] is [e]: one of the list, or the next. *)
Definition put_entry (k : nat) (e : list Z) (es : list (list Z)) : list (list Z) :=
  if decide (k < length es)%nat then <[k := e]> es else es ++ [e].
Definition new_entry (ino : Z) (name : list Z) : list Z := enc16 ino ++ name.

Lemma new_entry_ino ino name : 0 <= ino < 65536 -> get16 (new_entry ino name) 0 = u16 (canw ino) /\ d_inode (new_entry ino name) = ino.
Proof.
  intros Hi. assert (get16 (new_entry ino name) 0 = u16 (canw ino)) as E.
  { unfold get16, new_entry. rewrite sub_app_l by done. unfold enc16. rewrite be_unbe. apply u16_small, u16_range. }
  split; [done|]. unfold d_inode. rewrite E. rewrite u16_canw_u16. by apply u16_small.
Qed.

Lemma direq_new ino name n : length name = 14%nat -> 0 <= ino < 65536 ->
  direq (new_entry ino name) n = negb (ino =? 0) && bool_decide (name = n).
Proof.
  intros Hl Hi. unfold direq. rewrite (proj1 (new_entry_ino ino name Hi)).
  assert (sub (new_entry ino name) 2 (Z.to_nat DIRSIZ) = name) as ->.
  { change (new_entry ino name) with (enc16 ino ++ name). rewrite (sub_app_r _ _ 2 _ 2) by done. rewrite Nat.sub_diag. by apply sub_whole. }
  destruct (Z.eqb_spec ino 0) as [->|Hne]; [done|]. cbn [negb andb]. rewrite (proj2 (Z.eqb_neq _ 0)); [done|].
  intros E. apply Hne. rewrite <- (u16_small ino Hi), <- (u16_canw_u16 ino), E. done.
Qed.

Lemma lookup_ino_nil n : lookup_ino [] n = None.
Proof. done. Qed.
Lemma lookup_ino_cons e es n : lookup_ino (e :: es) n = if direq e n then Some (d_inode e) else lookup_ino es n.
Proof.
  unfold lookup_ino, dlookup. cbn [list_find]. unfold d_is at 1. destruct (decide (direq e n = true)) as [->|E]; [done|].
  apply not_true_is_false in E. rewrite E. by destruct (list_find (d_is n) es) as [[k d]|].
Qed.

Lemma put_entry_S k e d es : put_entry (S k) e (d :: es) = d :: put_entry k e es.
Proof. unfold put_entry. cbn [length]. destruct (decide (k < length es)%nat); [rewrite decide_True by lia|rewrite decide_False by lia]; done. Qed.
Lemma vacant_cons d es : vacant (d :: es) = if decide (d_free d) then 0 else vacant es + 1.
Proof.
  unfold vacant. cbn [list_find]. destruct (decide (d_free d)); [done|]. destruct (list_find d_free es) as [[k e]|]; cbn; lia.
Qed.
Lemma vacant_range es : 0 <= vacant es <= Z.of_nat (length es).
Proof.
  induction es as [|d es IH]; [done|]. rewrite vacant_cons. cbn [length]. destruct (decide _); lia.
Qed.
Lemma direq_free d n : d_free d -> direq d n = false.
Proof. unfold d_free, direq. by intros ->. Qed.

(** A name entered in the first free entry. *)
Lemma enter_lookup es ino nm n : lookup_ino es nm = None -> 0 < ino < 65536 -> length nm = 14%nat ->
  lookup_ino (put_entry (Z.to_nat (vacant es)) (new_entry ino nm) es) n = if decide (n = nm) then Some ino else lookup_ino es n.
Proof.
  intros Hno Hi Hl. assert (forall es', lookup_ino (new_entry ino nm :: es') n = if decide (n = nm) then Some ino else lookup_ino es' n) as Hnew.
  { intros es'. rewrite lookup_ino_cons, direq_new, (proj2 (Z.eqb_neq ino 0)) by (done || lia). cbn [negb andb].
    rewrite (proj2 (new_entry_ino ino nm ltac:(lia))). destruct (decide (n = nm)) as [->|Hne]; [by rewrite bool_decide_true|by rewrite bool_decide_false by congruence]. }
  induction es as [|d es IH]; [apply Hnew|]. rewrite vacant_cons. rewrite lookup_ino_cons in Hno.
  destruct (decide (d_free d)) as [Hf|Hf].
  - change (put_entry (Z.to_nat 0) (new_entry ino nm) (d :: es)) with (new_entry ino nm :: es). rewrite Hnew.
    by rewrite (lookup_ino_cons d), direq_free.
  - pose proof (vacant_range es). replace (Z.to_nat (vacant es + 1)) with (S (Z.to_nat (vacant es))) by lia.
    rewrite put_entry_S, !lookup_ino_cons. destruct (direq d nm) eqn:Ed; [done|]. rewrite IH by done.
    destruct (decide (n = nm)) as [->|]; [by rewrite Ed|done].
Qed.

(** A name removed that is there once. *)
Lemma remove_lookup es nm k d n : dlookup es nm = Some (k, d) -> lookup_ino (drop (S k) es) nm = None -> length nm = 14%nat ->
  lookup_ino (put_entry k (new_entry 0 nm) es) n = if decide (n = nm) then None else lookup_ino es n.
Proof.
  intros Hk Hno Hl. revert k Hk Hno. induction es as [|x es IH]; intros k Hk Hno; [done|]. unfold dlookup in Hk. cbn [list_find] in Hk.
  unfold d_is at 1 in Hk. destruct (decide (direq x nm = true)) as [E|E].
  - injection Hk as <- <-. change (put_entry 0 (new_entry 0 nm) (x :: es)) with (new_entry 0 nm :: es). rewrite !lookup_ino_cons, direq_new by (done || lia).
    cbn [Z.eqb negb andb]. destruct (decide (n = nm)) as [->|Hne]; [exact Hno|].
    destruct (direq x n) eqn:En; [|done]. exfalso. apply Hne. unfold direq in E, En. destruct (get16 x 0 =? 0); [done|].
    apply bool_decide_eq_true in E, En. congruence.
  - destruct (list_find (d_is nm) es) as [[k' d']|] eqn:Ef; [|done]. injection Hk as <- <-.
    rewrite put_entry_S, !lookup_ino_cons. rewrite (IH k') by (unfold dlookup; done).
    apply not_true_is_false in E. destruct (decide (n = nm)) as [->|]; [by rewrite E|done].
Qed.

(** ** Writing an entry *)

Section idirent.
Context {C : Type} `{BufCacheLaws C}.
Context (retry fuel : nat) (Hretry : (0 < retry)%nat).
Context (dwrite : Z -> IO -> M (fs C) IO) (pwrite : nat -> IO -> M (fs C) IO) (udirect : Z).
Implicit Types (s : fs C) (mp : MOUNT) (v : bview) (x : INODE).

Lemma put_entry_lookup k e es j : (k <= length es)%nat -> put_entry k e es !! j = if decide (j = k) then Some e else es !! j.
Proof.
  intros Hk. unfold put_entry. destruct (decide (k < length es)%nat) as [Hlt|Hge]; destruct (decide (j = k)) as [->|Hne].
  - by apply list_lookup_insert_eq.
  - by rewrite list_lookup_insert_ne.
  - assert (k = length es) as -> by lia. by rewrite lookup_app_r, Nat.sub_diag by lia.
  - assert (k = length es) as -> by lia. destruct (decide (j < length es)%nat); [by rewrite lookup_app_l|].
    rewrite lookup_app_r by lia. rewrite (lookup_ge_None_2 es) by lia. replace (j - length es)%nat with (S (j - length es - 1)) by lia. done.
Qed.
Lemma length_put_entry k e es : (k <= length es)%nat -> length (put_entry k e es) = Nat.max (length es) (S k).
Proof. intros Hk. unfold put_entry. destruct (decide _); [rewrite length_insert|rewrite length_app; cbn]; lia. Qed.

Lemma length_entries v x : 0 <= i_size x -> Z.of_nat (length (entries v x)) = i_size x / 16.
Proof. intros Hs. unfold entries. rewrite length_map, length_seqZ, Z2Nat.id; [done|]. apply Z.div_pos; lia. Qed.
Lemma entries_lookup v x j : (j < length (entries v x))%nat -> entries v x !! j = Some (dentry v x (Z.of_nat j)).
Proof.
  intros Hj. unfold entries in *. rewrite length_map, length_seqZ in Hj. rewrite list_lookup_fmap, lookup_seqZ_lt by lia. cbn. by rewrite Z.add_0_l.
Qed.
Lemma length_dentry v x k : length (dentry v x k) = 16%nat.
Proof. done. Qed.

(** The bytes of the entry were written. *)
Lemma entries_written v x v' x' m seg a k e : 0 <= i_size x -> (k <= length (entries v x))%nat -> 16 * Z.of_nat k + 16 <= lmax * BSIZE ->
  i_size x <= lmax * BSIZE -> length e = 16%nat -> (forall i, (i < 16)%nat -> m seg (a + Z.of_nat i) = e !! i) ->
  overwritten v x v' x' m seg a (16 * Z.of_nat k) 16 -> i_size x' = Z.max (i_size x) (16 * Z.of_nat k + 16) ->
  entries v' x' = put_entry k e (entries v x).
Proof.
  intros Hs Hk Hmax Hsmax Hl Hm Hov Hs'. pose proof (length_entries v x Hs) as Ln.
  pose proof (length_entries v' x' ltac:(lia)) as Ln'.
  assert (length (entries v' x') = Nat.max (length (entries v x)) (S k)) as Len.
  { rewrite Hs' in Ln'. pose proof (Z.mul_div_le (i_size x) 16 ltac:(lia)). pose proof (Z.mod_pos_bound (i_size x) 16 ltac:(lia)).
    pose proof (Z.div_mod (i_size x) 16 ltac:(lia)).
    assert (Z.max (i_size x) (16 * Z.of_nat k + 16) / 16 = Z.max (i_size x / 16) (Z.of_nat k + 1)) as E.
    { assert ((16 * Z.of_nat k + 16) / 16 = Z.of_nat k + 1) as <- by (replace (16 * Z.of_nat k + 16) with ((Z.of_nat k + 1) * 16) by lia; apply Z.div_mul; lia).
      destruct (Z.le_gt_cases (i_size x) (16 * Z.of_nat k + 16)) as [Hle|Hgt].
      - pose proof (Z.div_le_mono _ _ 16 ltac:(lia) Hle). rewrite !Z.max_r by lia. done.
      - pose proof (Z.div_le_mono (16 * Z.of_nat k + 16) (i_size x) 16 ltac:(lia) ltac:(lia)). rewrite !Z.max_l by lia. done. }
    rewrite E in Ln'. lia. }
  apply list_eq. intros j. rewrite put_entry_lookup by done.
  destruct (decide (j < length (entries v' x'))%nat) as [Hj|Hj].
  2: { rewrite lookup_ge_None_2 by lia. rewrite decide_False by lia. rewrite lookup_ge_None_2 by lia. done. }
  rewrite entries_lookup by done. rewrite Len in Hj.
  assert (16 * Z.of_nat j + 16 <= lmax * BSIZE) as Hjm.
  { destruct (decide (j = k)) as [->|]; [done|]. pose proof (Z.mul_div_le (i_size x) 16 ltac:(lia)). lia. }
  assert (forall i, (i < 16)%nat -> dentry v' x' (Z.of_nat j) !! i = Some (if decide (j = k) then default 0 (e !! i) else rbyte false v x (16 * Z.of_nat j + Z.of_nat i))) as Hd.
  { intros i Hi. unfold dentry. rewrite list_lookup_fmap, lookup_seqZ_lt by lia. cbn [fmap option_fmap option_map]. f_equal.
    rewrite Z.add_0_l, Hov by lia. destruct (decide (j = k)) as [->|Hne].
    - rewrite (proj2 (Z.leb_le _ _)), (proj2 (Z.ltb_lt _ _)) by lia. cbn [andb]. unfold mbyte.
      replace (a + (16 * Z.of_nat k + Z.of_nat i - 16 * Z.of_nat k)) with (a + Z.of_nat i) by lia. by rewrite Hm.
    - rewrite (proj2 (andb_false_iff _ _)); [done|]. rewrite Z.leb_gt, Z.ltb_ge. lia. }
  destruct (decide (j = k)) as [->|Hne].
  - f_equal. apply list_eq. intros i. destruct (decide (i < 16)%nat) as [Hi|Hi].
    + rewrite Hd by done. destruct (lookup_lt_is_Some_2 e i) as [b Hb]; [lia|]. by rewrite Hb.
    + rewrite !lookup_ge_None_2; [done|lia|rewrite length_dentry; lia].
  - rewrite entries_lookup by lia. f_equal. apply list_eq. intros i. destruct (decide (i < 16)%nat) as [Hi|Hi].
    + rewrite Hd by done. unfold dentry. rewrite list_lookup_fmap, lookup_seqZ_lt by lia. cbn. by rewrite ?Z.add_0_l.
    + rewrite !lookup_ge_None_2; [done|rewrite length_dentry; lia..].
Qed.

(** The other entries, whatever was written of one. *)
Lemma entries_spared v x v' x' m seg a k n j : 0 <= n <= 16 -> j <> k -> (16 * Z.of_nat j + 16 <= lmax * BSIZE) ->
  overwritten v x v' x' m seg a (16 * Z.of_nat k) n -> dentry v' x' (Z.of_nat j) = dentry v x (Z.of_nat j).
Proof.
  intros Hn Hne Hj Hov. unfold dentry. apply map_ext_in. intros i Hi%list_elem_of_In%elem_of_seqZ. rewrite Hov by lia.
  rewrite (proj2 (andb_false_iff _ _)); [done|]. rewrite Z.leb_gt, Z.ltb_ge. lia.
Qed.

(** The inode [x] with the times of a change. *)
Definition touched (t : Z) (x : INODE) : INODE :=
  set_i_ctime t (set_i_flag (Z.lor (Z.lor (i_flag x) IFMOD) IFCRT) (set_i_mtime t x)).

(** An entry in a hole of the directory is free. *)
Lemma hole_free v x k : fblock v x (16 * k / BSIZE) = 0 -> 0 <= k -> d_free (dentry v x k).
Proof.
  intros Hh Hk. assert (forall i, 0 <= i < 16 -> rbyte false v x (16 * k + i) = 0) as Hz.
  { intros i Hi. unfold rbyte, rdata, fdata. assert ((16 * k + i) / BSIZE = 16 * k / BSIZE) as ->.
    { unfold BSIZE. Z.to_euclidean_division_equations. lia. }
    rewrite Hh. cbn [Z.eqb]. pose proof (Z.mod_pos_bound (16 * k + i) BSIZE ltac:(unfold BSIZE; lia)).
    unfold zeros. rewrite repeat_replicate, lookup_replicate_2; [done|unfold BSIZE in *; lia]. }
  unfold d_free, get16, sub, dentry. change (seqZ 0 16) with [0; 1; 2; 3; 4; 5; 6; 7; 8; 9; 10; 11; 12; 13; 14; 15]. cbn [map].
  rewrite !Hz by lia. reflexivity.
Qed.

(** What [idirent] leaves in the directory: entry [k] is [e], or there was no
    room, which happens only in a hole. *)
Definition entered s (dir : nat) x mp v (l : list Z) (k : nat) (e : list Z) s' : Prop :=
  exists x' v' mp' l' er, inodep s' = <[dir := x']> (inodep s) /\ u_error s' = er /\ i_dev x' = i_dev x /\ i_mode x' = i_mode x /\
    at_file s' dir x' (i_dev x) mp' v' er s' /\ file_ok s' dir x' mp' v' l' /\ whole v' x' /\ (exists nbs, l = nbs ++ l') /\
    (er = 0 /\ entries v' x' = put_entry k e (entries v x) \/
     er = ENOSPC /\ l' = [] /\ fblock v x (16 * Z.of_nat k / BSIZE) = 0 /\
       forall j, (j < length (entries v x))%nat -> j <> k -> dentry v' x' (Z.of_nat j) = dentry v x (Z.of_nat j)).

Lemma tree_same v x x1 f l : i_dev x1 = i_dev x -> i_a x1 = i_a x -> tree v x f l -> tree v x1 f l.
Proof. destruct x, x1. cbn. intros -> -> [T1 T2 T3 T4]. split; [exact T1|exact T2|exact T3|exact T4]. Qed.
Lemma file_ok_same s s1 ip x x1 mp v l : i_dev x1 = i_dev x -> i_a x1 = i_a x -> file_ok s ip x mp v l -> file_ok s1 ip x1 mp v l.
Proof.
  intros Ed Ea [C1 C2 C3 C4 C5 C6 C7]. split; rewrite ?Ed; try assumption. by apply (tree_same v x).
Qed.
Lemma whole_same v x x1 : i_dev x1 = i_dev x -> i_a x1 = i_a x -> whole v x -> whole v x1.
Proof. destruct x, x1. cbn. intros -> ->. exact id. Qed.

Lemma fs_at_here (B : fs C) dev mp v e s : fs_at B dev mp v e s -> fs_at s dev mp v e s.
Proof. intros [R1 R2 _ _ R5 _]. by split. Qed.

(** [iwrite] of a directory or a regular file. *)
Lemma wp_iwrite s0 s ip x mp v l io (Q : IO -> fs C -> Prop) : fs_at s0 (i_dev x) mp v 0 s -> inodep s0 !! ip = Some x -> file_ok s0 ip x mp v l -> whole v x ->
  itype x = IFDIR -> 0 <= io_seek io -> io_seek io + io_ioc io <= lmax * BSIZE -> 0 < io_ioc io < 65536 -> io_ioc io < Z.of_nat fuel ->
  io_space io = true -> accessible (mem s0) (io_seg io) (io_ptr io) (io_ioc io) ->
  (forall s1 io' s', inodep s1 = <[ip := touched (t_time s0) x]> (inodep s0) -> mem s1 = mem s0 -> up s1 = up s0 ->
     written s1 ip (touched (t_time s0) x) mp v l io io' s' -> Q io' s') ->
  wp (iwrite retry fuel dwrite pwrite ip io) Q s.
Proof.
  intros Hat Hx Hok Hw Hdir Hp Hmax Hioc Hfu Hsp Hacc HQ. assert (ip < length (inodep s0))%nat as Hip by by eapply lookup_lt_Some.
  pose proof (at_ids _ _ _ _ _ _ Hat) as (_ & _ & Et & _). unfold iwrite, imod, icrt.
  apply wp_bind, wp_bind, wp_gets. rewrite Et. eapply wp_puti; [exact Hat|exact Hx|]. intros s1 Hat1.
  pose proof (at_ids _ _ _ _ _ _ Hat1) as (_ & _ & Et1 & _). cbn [t_time set_inodep] in Et1.
  apply wp_bind, wp_bind, wp_gets. rewrite Et1. eapply wp_puti; [exact Hat1|by apply list_lookup_insert_eq|]. intros s2 Hat2.
  cbn [inodep set_inodep] in Hat2. rewrite list_insert_insert_eq in Hat2. cbn [i_flag set_i_mtime set_i_flag] in Hat2.
  set (x1 := touched (t_time s0) x) in *.
  change (fs_at (set_inodep (<[ip := x1]> (inodep s0)) s0) (i_dev x) mp v 0 s2) in Hat2.
  pose proof (at_inodes _ _ _ _ _ _ Hat2) as Ei. cbn [inodep set_inodep] in Ei.
  pose proof (at_ids _ _ _ _ _ _ Hat2) as (_ & _ & _ & _ & _ & Em & Eu). cbn [mem up set_inodep] in Em, Eu.
  assert (inodep s2 !! ip = Some x1) as Hx1 by (rewrite Ei; by apply list_lookup_insert_eq).
  rewrite (proj2 (Z.eqb_neq (io_ioc io) 0)) by lia. apply wp_bind. eapply wp_geti; [exact Hx1|].
  change (itype x1) with (itype x). rewrite Hdir. cbn [Z.eqb IFDIR IFCHR IFBLK IFREG orb Pos.eqb].
  apply wp_bind. eapply wp_getment; [exact Hat2|]. rewrite (fo_rw _ _ _ _ _ _ Hok). cbn [Z.eqb negb].
  eapply wp_mono.
  { apply (wp_fwrite_file retry Hretry fuel s2 ip x1 mp v l io).
    - split; [|split; [exact Hx1|done]]. exact (fs_at_here _ _ _ _ _ _ Hat2).
    - by apply (file_ok_same s0 _ ip x).
    - by apply (whole_same v x).
    - change (itype x1) with (itype x). by rewrite Hdir.
    - exact Hp.
    - exact Hmax.
    - lia.
    - exact Hfu.
    - exact Hsp.
    - rewrite Em. exact Hacc. }
  intros io' s' Hwr. exact (HQ s2 io' s' Ei Em Eu Hwr).
Qed.

Lemma wp_idirent s dir x mp v l k ino : at_file s dir x (i_dev x) mp v 0 s -> file_ok s dir x mp v l -> whole v x -> itype x = IFDIR ->
  0 <= i_size x <= lmax * BSIZE -> u_pdiri (up s) = Some dir -> io_seek (u_io (up s)) = 16 * Z.of_nat k ->
  (k <= length (entries v x))%nat -> 16 * Z.of_nat k + 16 <= lmax * BSIZE -> length (d_name (up s)) = 14%nat -> (16 < fuel)%nat ->
  wp (idirent retry fuel dwrite pwrite udirect ino) (fun _ s' => entered s dir x mp v l k (new_entry (u16 ino) (d_name (up s))) s') s.
Proof.
  intros (Hat & Hx & _) Hok Hw Hdir Hs Hp Hk0 Hk Hkm Hn Hfu. unfold idirent.
  set (e := new_entry (u16 ino) (d_name (up s))).
  assert (here s (i_dev x) mp v (inodep s) (up s) 0 s) as Hs0 by (unfold here; by destruct s).
  apply wp_bind. eapply wp_putu_here; [exact Hs0|]. intros s1 Hs1.
  apply wp_bind. eapply wp_putu_here; [exact Hs1|]. intros s2 Hs2. set (u2 := set_u_io _ _) in Hs2.
  apply wp_bind, wp_gets. rewrite (here_up _ _ _ _ _ _ _ _ Hs2). apply wp_bind, wp_modify. rewrite (here_mem _ _ _ _ _ _ _ _ Hs2).
  change (unbe 2 (d_ino u2) ++ d_name u2) with e. set (m := mem_put (mem s) IOSYS udirect e).
  apply (fs_at_mem _ _ _ _ _ _ m) in Hs2. apply wp_bind. eapply wp_deref; [exact Hp|]. apply wp_bind.
  assert (length e = 16%nat) as He by (unfold e, new_entry; rewrite length_app, Hn; done).
  assert (forall i, (i < 16)%nat -> m IOSYS (udirect + Z.of_nat i) = e !! i) as Hm.
  { intros i Hi. unfold m, mem_put. rewrite Z.eqb_refl. unfold put_mem. rewrite (proj2 (Z.leb_le _ _)), (proj2 (Z.ltb_lt _ _)) by lia.
    cbn [andb]. f_equal. lia. }
  eapply (wp_iwrite _ _ dir x mp v l); [exact Hs2|exact Hx|by apply (file_ok_same s _ dir x)|exact Hw|exact Hdir| | | | | | |].
  - cbn. lia.
  - cbn. unfold sizeof_direct. lia.
  - done.
  - cbn. unfold sizeof_direct. lia.
  - done.
  - intros i Hi. cbn in Hi. unfold sizeof_direct in Hi. cbn [io_seg io_ptr u_io set_u_io mem set_mem set_up set_inodep u2].
    change (io_ptr _) with udirect. replace i with (Z.of_nat (Z.to_nat i)) by lia. rewrite Hm by lia. apply lookup_lt_is_Some_2. lia.
  - intros s3 io' s4 Ei Em Eu (n & x' & v' & f' & l' & er & Hn' & -> & Hat' & (ax & sz & Ex') & Hsz & Hok' & Hnb & Hov & Hw' & Her).
    change (i_dev (touched _ x)) with (i_dev x) in Hat'. pose proof (at_inodes _ _ _ _ _ _ Hat') as Ei'. cbn [inodep set_inodep] in Ei'. rewrite Ei in Ei'.
    cbn [inodep set_mem set_up set_inodep] in Ei'. rewrite list_insert_insert_eq in Ei'.
    assert (i_dev x' = i_dev x /\ i_mode x' = i_mode x) as [Ed Emd] by by rewrite Ex'.
    assert (dir < length (inodep s))%nat as Hip by by eapply lookup_lt_Some.
    apply wp_modify. exists x', v', (set_m_super f' mp), l', er. split; [exact Ei'|]. split; [exact (at_error _ _ _ _ _ _ Hat')|].
    split; [exact Ed|]. split; [exact Emd|]. split.
    { split; [|split; [cbn [inodep set_up]; rewrite Ei'; by apply list_lookup_insert_eq|exact Ed]].
      apply (fs_at_up _ _ _ _ _ _ (set_u_io (io_adv (u_io u2) n) (up s4))). exact (fs_at_here _ _ _ _ _ _ Hat'). }
    split; [by apply (file_ok_same s4 _ dir x')|]. split; [exact Hw'|]. split; [exact Hnb|].
    rewrite Em in Hov. cbn [mem set_mem] in Hov. change (io_seek (u_io u2)) with (io_seek (u_io (up s))) in *. rewrite Hk0 in *.
    change (io_seg (u_io u2)) with IOSYS in Hov. change (io_ptr (u_io u2)) with udirect in Hov. change (io_ioc (u_io u2)) with 16 in *.
    change (i_size (touched _ x)) with (i_size x) in Hsz.
    destruct Her as [[-> ->]|(Hlt & -> & -> & Hhole)].
    + left. split; [done|]. eapply (entries_written v x v' x' m IOSYS udirect k e); [lia|exact Hk|exact Hkm|lia|exact He|exact Hm|exact Hov|exact Hsz].
    + right. split; [done|]. split; [done|]. split.
      { change (fblock v x ((16 * Z.of_nat k + n) / BSIZE) = 0) in Hhole. rewrite <- Hhole. f_equal. unfold BSIZE. Z.to_euclidean_division_equations. lia. }
      intros j Hj Hne. eapply (entries_spared v x v' x' m IOSYS udirect k n j); [lia|exact Hne| |exact Hov].
      pose proof (length_entries v x ltac:(lia)). pose proof (Z.mul_div_le (i_size x) 16 ltac:(lia)). lia.
Qed.

(** C10: a name that is not in a directory, entered where the search of [ftoi]
    found room: the directory then has exactly the names it had and the new
    one, with its inode, in a free entry or at the end, in a new block when it has to be;
    or there is no block left, ENOSPC, and every other entry is as it was. *)
Theorem idirent_enters s dir x mp v l ino : at_file s dir x (i_dev x) mp v 0 s -> file_ok s dir x mp v l -> whole v x -> itype x = IFDIR ->
  0 <= i_size x <= lmax * BSIZE -> u_pdiri (up s) = Some dir -> io_seek (u_io (up s)) = 16 * vacant (entries v x) ->
  16 * vacant (entries v x) + 16 <= lmax * BSIZE -> length (d_name (up s)) = 14%nat -> (16 < fuel)%nat ->
  lookup_ino (entries v x) (d_name (up s)) = None -> 0 < ino < 65536 ->
  wp (idirent retry fuel dwrite pwrite udirect ino) (fun _ s' => exists x' v' mp' l' er,
    inodep s' = <[dir := x']> (inodep s) /\ u_error s' = er /\ i_mode x' = i_mode x /\
    at_file s' dir x' (i_dev x) mp' v' er s' /\ file_ok s' dir x' mp' v' l' /\ whole v' x' /\
    (er = 0 /\ (forall n, lookup_ino (entries v' x') n = if decide (n = d_name (up s)) then Some ino else lookup_ino (entries v x) n) \/
     er = ENOSPC /\ l' = [] /\ forall j, (j < length (entries v x))%nat -> Z.of_nat j <> vacant (entries v x) ->
       dentry v' x' (Z.of_nat j) = dentry v x (Z.of_nat j))) s.
Proof.
  intros Hat Hok Hw Hdir Hs Hp Hk0 Hkm Hn Hfu Hno Hi. pose proof (vacant_range (entries v x)) as Hfs.
  eapply wp_mono; [apply (wp_idirent s dir x mp v l (Z.to_nat (vacant (entries v x))) ino); try assumption; rewrite ?Z2Nat.id by lia; (assumption || lia)|].
  intros _ s' (x' & v' & mp' & l' & er & H1' & H2' & H3' & H4' & H5' & H6' & H7' & H8' & Hr). exists x', v', mp', l', er. split_and!; try assumption.
  destruct Hr as [[-> E]|(-> & -> & _ & E)]; [left|right]; (split; [done|]).
  - intros n. rewrite E, u16_small by lia. by apply enter_lookup.
  - split; [done|]. intros j Hj Hne. apply E; [done|lia].
Qed.

(** C13: the entry that the search of [ftoi] found, cleared: the directory has
    exactly the other names.  There is always room for that, whether blocks are free
    or not. *)
Theorem idirent_removes s dir x mp v l k d : at_file s dir x (i_dev x) mp v 0 s -> file_ok s dir x mp v l -> whole v x -> itype x = IFDIR ->
  0 <= i_size x <= lmax * BSIZE -> u_pdiri (up s) = Some dir -> io_seek (u_io (up s)) = 16 * Z.of_nat k ->
  length (d_name (up s)) = 14%nat -> (16 < fuel)%nat ->
  dlookup (entries v x) (d_name (up s)) = Some (k, d) -> lookup_ino (drop (S k) (entries v x)) (d_name (up s)) = None ->
  wp (idirent retry fuel dwrite pwrite udirect 0) (fun _ s' => exists x' v' mp' l',
    inodep s' = <[dir := x']> (inodep s) /\ u_error s' = 0 /\ i_mode x' = i_mode x /\
    at_file s' dir x' (i_dev x) mp' v' 0 s' /\ file_ok s' dir x' mp' v' l' /\ whole v' x' /\
    (forall n, lookup_ino (entries v' x') n = if decide (n = d_name (up s)) then None else lookup_ino (entries v x) n)) s.
Proof.
  intros Hat Hok Hw Hdir Hs Hp Hk0 Hn Hfu Hk Hno. pose proof Hk as Hf. apply list_find_Some in Hf as (Hkd & Hused & _).
  assert (k < length (entries v x))%nat as Hlt by by eapply lookup_lt_Some.
  pose proof (length_entries v x ltac:(lia)) as Ln. pose proof (Z.mul_div_le (i_size x) 16 ltac:(lia)) as Hdiv.
  eapply wp_mono; [apply (wp_idirent s dir x mp v l k 0); try assumption; lia|].
  intros _ s' (x' & v' & mp' & l' & er & H1' & H2' & H3' & H4' & H5' & H6' & H7' & H8' & Hr).
  destruct Hr as [[-> E]|(_ & _ & Hhole & _)].
  - exists x', v', mp', l'. split_and!; try assumption. intros n. rewrite E. by apply (remove_lookup _ _ _ d).
  - rewrite entries_lookup in Hkd by done. injection Hkd as <-. apply direq_used, Z.eqb_neq in Hused. exfalso. apply Hused, hole_free; [exact Hhole|lia].
Qed.
End idirent.

(** ** Instances

    A directory whose block 0 is full and block 1 is a hole. *)
Definition w_dirx : INODE := set_i_size 528 (set_i_mode IFDIR w_inode).
Definition w_dirup (k : Z) (n : list Z) : uproc := Uproc 0 0 0 0 None (Some 0%nat) 0 n (Io 0 0 k 0 0) 0 0.
Definition w_dirstate (k : Z) (n : list Z) : fs acache :=
  Fs (Acache w_tview) [w_mount 0] [w_dirx] 0 0 0 77 1 [] 0 (fun _ _ => Some 0) (w_dirup k n).
Definition w_new : list Z := 100 :: repeat 0 13.

Lemma w_dirx_at k n : at_file (w_dirstate k n) 0 w_dirx 1 (w_mount 0) w_tview 0 (w_dirstate k n).
Proof. split; [by apply fs_at_self|done]. Qed.
Lemma w_dirx_ok k n : file_ok (w_dirstate k n) 0 w_dirx (w_mount 0) w_tview [9; 7].
Proof. by apply (file_ok_same w_tstate _ 0 w_inode), w_file_ok. Qed.
Lemma w_dirx_whole : whole w_tview w_dirx.
Proof. by apply (whole_same _ w_inode), w_whole. Qed.
Definition w_nodev (_ : Z) (io : IO) : M (fs acache) IO := kret io.
Definition w_nopipe (_ : nat) (io : IO) : M (fs acache) IO := kret io.

Lemma w_dirx_entries : vacant (entries w_tview w_dirx) = 32 /\ lookup_ino (entries w_tview w_dirx) w_new = None.
Proof. split; vm_compute; reflexivity. Qed.

Lemma idirent_enters_witness : exists r s', idirent 1 17 w_nodev w_nopipe 1000 258 (w_dirstate 512 w_new) = Ret r s' /\ exists x' v' mp' l' er,
  inodep s' = <[0%nat := x']> [w_dirx] /\ u_error s' = er /\ i_mode x' = IFDIR /\
  at_file s' 0 x' 1 mp' v' er s' /\ file_ok s' 0 x' mp' v' l' /\ whole v' x' /\
  (er = 0 /\ (forall n, lookup_ino (entries v' x') n = if decide (n = w_new) then Some 258 else lookup_ino (entries w_tview w_dirx) n) \/
   er = ENOSPC /\ l' = [] /\ forall j, (j < length (entries w_tview w_dirx))%nat -> Z.of_nat j <> vacant (entries w_tview w_dirx) ->
     dentry v' x' (Z.of_nat j) = dentry w_tview w_dirx (Z.of_nat j)).
Proof.
  destruct w_dirx_entries as [E1 E2].
  refine (proj1 (wp_returns _ _ _) (idirent_enters 1 17 _ w_nodev w_nopipe 1000 (w_dirstate 512 w_new) 0 w_dirx (w_mount 0) w_tview [9; 7] 258
    (w_dirx_at 512 w_new) (w_dirx_ok 512 w_new) w_dirx_whole eq_refl _ eq_refl _ _ eq_refl _ E2 _)).
  - lia.
  - split; [discriminate|]. vm_compute. discriminate.
  - rewrite E1. reflexivity.
  - rewrite E1. vm_compute. discriminate.
  - lia.
  - lia.
Defined.

(** A directory of one entry. *)
Definition w_dir1 : INODE := set_i_size 16 w_dirx.
Definition w_old : list Z := repeat 65 14.
Definition w_dir1state : fs acache :=
  Fs (Acache w_tview) [w_mount 0] [w_dir1] 0 0 0 77 1 [] 0 (fun _ _ => Some 0) (w_dirup 0 w_old).

Lemma w_dir1_entries : entries w_tview w_dir1 = [repeat 65 16].
Proof. vm_compute. reflexivity. Qed.

Lemma idirent_removes_witness : exists r s', idirent 1 17 w_nodev w_nopipe 1000 0 w_dir1state = Ret r s' /\ exists x' v' mp' l',
  inodep s' = <[0%nat := x']> [w_dir1] /\ u_error s' = 0 /\ i_mode x' = IFDIR /\
  at_file s' 0 x' 1 mp' v' 0 s' /\ file_ok s' 0 x' mp' v' l' /\ whole v' x' /\
  (forall n, lookup_ino (entries v' x') n = if decide (n = w_old) then None else lookup_ino (entries w_tview w_dir1) n).
Proof.
  refine (proj1 (wp_returns _ _ _) (idirent_removes 1 17 _ w_nodev w_nopipe 1000 w_dir1state 0 w_dir1 (w_mount 0) w_tview [9; 7] 0 (repeat 65 16)
    _ _ _ eq_refl _ eq_refl eq_refl eq_refl _ _ _)).
  - lia.
  - split; [by apply fs_at_self|done].
  - by apply (file_ok_same w_tstate _ 0 w_inode), w_file_ok.
  - by apply (whole_same _ w_inode), w_whole.
  - split; [discriminate|]. vm_compute. discriminate.
  - lia.
  - cbn [up w_dir1state d_name w_dirup]. rewrite w_dir1_entries. reflexivity.
  - rewrite w_dir1_entries. reflexivity.
Defined.
