(* ===== verification/Calls.v ===== *)
(** System calls on files by name (kernel/coh/sys2.c: [uaccess], [schizo],
    [uchdir], [uchroot], [setcdir], [uchmod], [uchown], [ulink], [umknod];
    kernel/coh/sys3.c: [uunlink], [uutime], [uumask], [uunique]).

    [pevent], which wakes the processes at a pipe, is in Pipe; here it is an
    argument, with the writing of devices and pipes. *)
From S2P Require Import Prelude Sched Bytes Bcache Super Fs Free Fmap Ftree Inode Names.
Local Open Scope Z_scope.
Local Open Scope kernel_scope.

Definition EEXIST : Z := 17.
Definition EXDEV : Z := 18.
Definition ISUID : Z := 2048.
Definition ISGID : Z := 1024.

(** Which of the working directories. *)
Inductive wdir := Cdir | Rdir.
Definition get_wdir (w : wdir) (u : uproc) : nat := match w with Cdir => u_cdir u | Rdir => u_rdir u end.
Definition set_wdir (w : wdir) (ip : nat) (u : uproc) : uproc := match w with Cdir => set_u_cdir ip u | Rdir => set_u_rdir ip u end.

Section calls.
Context {C : Type} `{BufCache C}.
Context (retry fuel : nat) (junk : list Z).
Context (dwrite : Z -> IO -> M (fs C) IO) (pwrite : nat -> IO -> M (fs C) IO) (pevent : nat -> M (fs C) unit) (udirect : Z).

(** [ip = u.u_cdiri]. *)
Definition cdiri : M (fs C) nat := u <- gets up ;; deref (u_cdiri u).

Definition schizo : M (fs C) unit :=
  modify (fun s =>
    set_u_uid (u_ruid (up s)) (set_u_gid (u_rgid (up s)) (set_up (set_u_ruid (u_uid s) (set_u_rgid (u_gid s) (up s))) s))).

Definition uaccess (np mode : Z) : M (fs C) unit :=
  schizo ;;;
  r <- ftoi retry fuel junk np Reference ;;
  schizo ;;;
  if negb (r =? 0) then kret tt else
  ip <- cdiri ;;
  x <- geti ip ;;
  u <- gets up ;;
  (if negb (Z.land mode (imode x (u_ruid u) (u_rgid u)) =? mode) then error EACCES else kret tt) ;;;
  idetach retry junk ip.

Definition setcdir (np : Z) (w : wdir) : M (fs C) unit :=
  r <- ftoi retry fuel junk np Reference ;;
  if negb (r =? 0) then kret tt else
  ip <- cdiri ;;
  x <- geti ip ;;
  if negb (itype x =? IFDIR) then error ENOTDIR ;;; idetach retry junk ip else
  ok <- iaccess ip IPE ;;
  if negb ok then error EACCES ;;; idetach retry junk ip else
  iunlock ip ;;;
  u <- gets up ;;
  ldetach retry junk (get_wdir w u) ;;;
  putu (set_wdir w ip).
Definition uchdir (np : Z) : M (fs C) unit := setcdir np Cdir.
Definition uchroot (np : Z) : M (fs C) unit :=
  ok <- super ;;
  if (ok : bool) then setcdir np Rdir else kret tt.

Definition uchmod (np mode : Z) : M (fs C) unit :=
  r <- ftoi retry fuel junk np Reference ;;
  if negb (r =? 0) then kret tt else
  ip <- cdiri ;;
  x <- geti ip ;;
  ok <- owner (i_uid x) ;;
  (if (ok : bool) then
     uid <- gets u_uid ;;
     let mode := if negb (uid =? 0) then Z.land mode (Z.lnot ISVTXT) else mode in
     puti ip (fun x => set_i_mode (s16 (Z.lor (Z.land (i_mode x) IFMT) (Z.land mode (Z.lnot IFMT)))) x) ;;;
     icrt ip
   else kret tt) ;;;
  idetach retry junk ip.

Definition uchown (np uid gid : Z) : M (fs C) unit :=
  r <- ftoi retry fuel junk np Reference ;;
  if negb (r =? 0) then kret tt else
  ip <- cdiri ;;
  ok <- super ;;
  (if (ok : bool) then
     puti ip (fun x => set_i_gid gid (set_i_uid uid (set_i_mode (s16 (Z.land (i_mode x) (Z.lnot (Z.lor ISUID ISGID)))) x))) ;;;
     icrt ip
   else kret tt) ;;;
  idetach retry junk ip.

Definition umknod (np mode rdev : Z) : M (fs C) unit :=
  let type := Z.land mode IFMT in
  ok <- (if negb (type =? IFPIPE) then super else kret true) ;;
  if negb ok then kret tt else
  let rdev := if negb (type =? IFBLK) && negb (type =? IFCHR) then 0 else rdev in
  r <- ftoi retry fuel junk np Create ;;
  if negb (r =? 0) then kret tt else
  u <- gets up ;;
  match u_cdiri u with
  | Some ip => error EEXIST ;;; idetach retry junk ip
  | None =>
    r <- imake retry fuel junk dwrite pwrite udirect mode rdev ;;
    match r with Some ip => idetach retry junk ip | None => kret tt end
  end.

Definition ulink (np1 np2 : Z) : M (fs C) unit :=
  r <- ftoi retry fuel junk np1 Reference ;;
  if negb (r =? 0) then kret tt else
  ip1 <- cdiri ;;
  x1 <- geti ip1 ;;
  ok <- (if itype x1 =? IFDIR then super else kret true) ;;
  if negb ok then idetach retry junk ip1 else
  iunlock ip1 ;;;
  r <- ftoi retry fuel junk np2 Create ;;
  if negb (r =? 0) then ldetach retry junk ip1 else
  u <- gets up ;;
  match u_cdiri u with
  | Some ip => error EEXIST ;;; idetach retry junk ip ;;; ldetach retry junk ip1
  | None =>
    pd <- deref (u_pdiri u) ;;
    x1 <- geti ip1 ;;
    y <- geti pd ;;
    if negb (i_dev x1 =? i_dev y) then error EXDEV ;;; idetach retry junk pd ;;; ldetach retry junk ip1 else
    acc <- iaccess pd IPW ;;
    if negb acc then idetach retry junk pd ;;; ldetach retry junk ip1 else
    idirent retry fuel dwrite pwrite udirect (i_ino x1) ;;;
    idetach retry junk pd ;;;
    ilock retry ip1 ;;;
    puti ip1 (fun x => set_i_nlink (s16 (i_nlink x + 1)) x) ;;;
    icrt ip1 ;;;
    idetach retry junk ip1
  end.

Definition uunlink (np : Z) : M (fs C) unit :=
  r <- ftoi retry fuel junk np Unlink ;;
  if negb (r =? 0) then kret tt else
  u <- gets up ;;
  ip <- deref (u_pdiri u) ;;
  acc <- iaccess ip IPW ;;
  (if negb acc then error EACCES else
   x <- geti ip ;;
   let dev := i_dev x in
   ok <- iucheck dev (u_cdirn u) ;;
   if negb ok then kret tt else
   v <- (if u_cdirn u =? i_ino x then kret (Some ip) else iattach retry fuel dev (u_cdirn u)) ;;
   match v with
   | None => kret tt
   | Some vip =>
     idirent retry fuel dwrite pwrite udirect 0 ;;;
     y <- geti vip ;;
     (if 0 <? i_nlink y then puti vip (fun y => set_i_nlink (i_nlink y - 1) y) else kret tt) ;;;
     icrt vip ;;;
     y <- geti vip ;;
     (if (itype y =? IFPIPE) && (i_nlink y =? 0) && (i_refc y =? 2) then pevent vip else kret tt) ;;;
     if negb (vip =? ip)%nat then idetach retry junk vip else kret tt
   end) ;;;
  idetach retry junk ip.

(** [stime] is what the stack held where the times are copied to. *)
Definition uutime (stime : list Z) (np utime : Z) : M (fs C) unit :=
  r <- ftoi retry fuel junk np Reference ;;
  if negb (r =? 0) then kret tt else
  ip <- cdiri ;;
  x <- geti ip ;;
  ok <- owner (i_uid x) ;;
  (if (ok : bool) then
     iamc ip ;;;
     if negb (utime =? 0) then
       m <- gets mem ;;
       let bs := take_mem (m IOUSR) utime 8 in
       let stime := upd stime 0 bs in
       (if (length bs <? 8)%nat then error EFAULT else kret tt) ;;;
       puti ip (fun x => set_i_mtime (s32 (get32 stime 4)) (set_i_atime (s32 (get32 stime 0)) x))
     else kret tt
   else kret tt) ;;;
  idetach retry junk ip.

Definition uumask (mask : Z) : M (fs C) Z :=
  u <- gets up ;;
  putu (set_u_umask (Z.land mask 511)) ;;;
  kret (u_umask u).

Definition uunique : M (fs C) Z :=
  dev <- gets rootdev ;;
  ok <- getment dev 1 ;;
  if negb ok then kret 0 else
  smod dev ;;;
  putsb dev (fun sb => set_s_unique (s32 (s_unique sb + 1)) sb) ;;;
  sb <- getsb dev ;;
  kret (s_unique sb).
End calls.
