(* ===== verification/CallLaws.v ===== *)
(** What the calls of Calls do with a file found by name: [uaccess], which asks
    for the real ids, and [setcdir], which moves the working or the root
    directory.  A call is proved against what Walk shows of [ftoi] and Itable of
    the inode table; every path out gives back the inodes and the locks. *)
From S2P Require Import Prelude Sched Bytes Bcache Super Fs Free Fmap Ftree Inode Names Dirs Path Itable Walk Calls.
Local Open Scope Z_scope.
Local Open Scope kernel_scope.

Section table.
Context (v : bview) (dev : Z) (I : Z -> Prop).
Local Abbreviation table_sane := (table_sane v dev I).

Lemma holds_length y : length (dimage v (i_dev y) (i_ino y)) = 64%nat -> holds v y -> length (i_a y) = 52%nat.
Proof.
  intros Hl (a & Ha & E). apply (f_equal i_a) in E. cbn [i_a set_i_flag dinode_in set_i_a] in E. rewrite E. by apply length_inode_a.
Qed.

(** The count of an inode of [I] may change. *)
Lemma table_sane_refc l ip y n : tree_ok v dev I -> table_sane l -> l !! ip = Some y -> i_dev y = dev -> I (i_ino y) -> 0 <= n < 32767 ->
  table_sane (<[ip := set_i_refc n y]> l).
Proof.
  intros Htr Ht Hy Hd Hi Hn. destruct (tk_known _ _ _ _ Ht ip y Hy Hd Hi) as (Hg & Hq & Hh & Hr).
  apply (table_sane_insert v dev I l ip y); [exact Ht|exact Hy| | |by left].
  - intros _. split; [exact Hg|]. cbn [i_a set_i_refc]. apply holds_length; [|exact Hh]. rewrite Hd. by apply Htr.
  - intros _ _. split; [exact Hg|]. split; [exact Hq|]. split; [by apply holds_refc|exact Hn].
Qed.

(** [ip] has one reference more and [old] one less. *)
Definition moved_ref (l l' : list INODE) (ip old : nat) : Prop := forall k y, l !! k = Some y ->
  exists y', l' !! k = Some y' /\ i_refc y' = i_refc y + (if decide (k = ip) then 1 else 0) - (if decide (k = old) then 1 else 0) /\
    (i_refc y <> 0 -> i_dev y' = i_dev y /\ i_ino y' = i_ino y /\ i_gate y' = i_gate y).
End table.

Section laws.
Context {C : Type} `{BufCacheLaws C}.
Context (retry fuel : nat) (junk : list Z) (Hretry : (0 < retry)%nat).
Context (s0 : fs C) (dev : Z) (mp : MOUNT) (v : bview) (I : Z -> Prop) (Htree : tree_ok v dev I).
Local Abbreviation here := (here s0 dev mp v).
Implicit Types (s : fs C) (l : list INODE) (u : uproc).

(** A reference given up. *)
Lemma wp_ldetach l u e s ip y (Q : unit -> fs C -> Prop) : here l u e s -> table_sane v dev I l -> l !! ip = Some y -> i_dev y = dev -> I (i_ino y) -> 0 < i_refc y ->
  (forall s', here (<[ip := set_i_refc (i_refc y - 1) y]> l) u e s' -> Q tt s') -> wp (ldetach retry junk ip) Q s.
Proof.
  intros Hs Ht Hy Hd Hi Hr HQ. destruct (tk_known _ _ _ _ Ht ip y Hy Hd Hi) as (Hg & Hq & Hh & Hr2).
  assert (ip < length l)%nat as Hip by by eapply lookup_lt_Some. unfold ldetach.
  apply wp_bind. eapply (wp_ilock retry Hretry); [exact Hs|exact Hy|exact Hg|]. intros s1 Hs1. unfold idetach.
  apply wp_bind. eapply wp_geti_here; [exact Hs1|by apply list_lookup_insert_eq|]. cbn [i_gate i_refc i_nlink set_i_gate].
  rewrite (proj2 (Z.leb_gt _ _)) by lia. cbn [negb orb]. rewrite s16_small by lia.
  apply wp_bind. eapply wp_puti_here; [exact Hs1|by apply list_lookup_insert_eq|]. intros s2 Hs2. rewrite list_insert_insert_eq in Hs2.
  assert (dirty (set_i_gate true y) || (i_nlink y =? 0) = false) as ->.
  { change (dirty (set_i_gate true y)) with (dirty y). rewrite (proj1 (quiet_dirty y Hq)). apply Z.eqb_neq.
    assert (like (inode_at v (i_dev y) (i_ino y)) y) as L by (apply holds_like; [rewrite Hd; by apply Htree|done]).
    rewrite (lk_nlink _ _ L), Hd. by apply Htree. }
  rewrite andb_false_r. apply wp_bind, wp_ret. eapply wp_puti_here; [exact Hs2|by apply list_lookup_insert_eq|].
  intros s3 Hs3. rewrite list_insert_insert_eq in Hs3. apply HQ.
  assert (set_i_gate false (set_i_refc (i_refc y - 1) (set_i_gate true y)) = set_i_refc (i_refc y - 1) y) as E by (destruct y; cbn in *; by subst).
  rewrite E in Hs3. exact Hs3.
Qed.

(** The process moves to a directory that it holds. *)
Lemma wp_move l0 l u e s ip ino w old z0 (Q : unit -> fs C -> Prop) : here l u e s -> held_at v dev I l0 l ip ino -> get_wdir w u = old ->
  l0 !! old = Some z0 -> i_dev z0 = dev -> I (i_ino z0) -> 0 < i_refc z0 -> (forall k y, l0 !! k = Some y -> i_refc y < 32766) ->
  (forall l' s', table_sane v dev I l' -> moved_ref l0 l' ip old -> (exists y, l' !! ip = Some y /\ i_dev y = dev /\ i_ino y = ino) ->
     here l' (set_wdir w ip u) e s' -> Q tt s') ->
  wp (iunlock ip ;;; u <- gets up ;; ldetach retry junk (get_wdir w u) ;;; putu (set_wdir w ip)) Q s.
Proof.
  intros Hs [Hin (y & Hy & Hd & Hi & Hg & Hr & Hq & Hh & Ht & Hst)] Hold Hz0 Hzd Hzi Hzr Hmax HQ.
  assert (ip < length l)%nat as Hip by by eapply lookup_lt_Some.
  set (T := <[ip := put_back y]> l) in *. assert (T !! ip = Some (put_back y)) as HTip by by apply list_lookup_insert_eq.
  assert (i_refc y - 1 < 32766) as Hlim.
  { destruct (lookup_lt_is_Some_2 l0 ip) as [y0 Hy0]; [rewrite (Forall2_length _ _ _ Hst); unfold T; by rewrite length_insert|].
    destruct (still_lookup _ _ _ _ Hst Hy0) as (y1 & Hy1 & Er & _). rewrite HTip in Hy1. injection Hy1 as <-. cbn in Er. specialize (Hmax _ _ Hy0). lia. }
  assert (<[ip := set_i_gate false y]> l = <[ip := set_i_refc (i_refc y) (put_back y)]> T) as E1.
  { unfold T. by rewrite list_insert_insert_eq. }
  apply wp_bind. eapply wp_puti_here; [exact Hs|exact Hy|]. intros s1 Hs1. rewrite E1 in Hs1.
  assert (table_sane v dev I (<[ip := set_i_refc (i_refc y) (put_back y)]> T)) as Ht1.
  { apply (table_sane_refc v dev I T ip (put_back y)); [exact Htree|exact Ht|exact HTip|exact Hd|cbn; by rewrite Hi|lia]. }
  destruct (still_lookup _ _ _ _ Hst Hz0) as (z & Hz & Ezr & Ez). specialize (Ez ltac:(lia)).
  apply wp_bind, wp_gets. rewrite (here_up _ _ _ _ _ _ _ _ Hs1), Hold.
  set (l1 := <[ip := set_i_refc (i_refc y) (put_back y)]> T) in *.
  assert (exists z1, l1 !! old = Some z1 /\ i_dev z1 = dev /\ I (i_ino z1) /\ i_refc z1 = i_refc z0 + (if decide (old = ip) then 1 else 0) /\
    i_dev z1 = i_dev z0 /\ i_ino z1 = i_ino z0 /\ i_gate z1 = i_gate z0) as (z1 & Hz1 & Hz1d & Hz1i & Hz1r & Hz1e).
  { unfold l1. destruct (decide (old = ip)) as [->|Hne].
    - exists (set_i_refc (i_refc y) (put_back y)). rewrite list_lookup_insert_eq by (unfold T; by rewrite length_insert).
      rewrite HTip in Hz. injection Hz as <-. cbn in Ezr. split; [done|]. split; [exact Hd|]. split; [cbn; by rewrite Hi|]. split; [cbn; lia|].
      pose proof (f_equal i_dev Ez) as A1. pose proof (f_equal i_ino Ez) as A2. pose proof (f_equal i_gate Ez) as A3. by split_and!.
    - exists z. rewrite list_lookup_insert_ne by done. split; [exact Hz|]. rewrite Ez. cbn [i_dev i_ino i_refc i_gate set_i_lrt]. by split_and!; try lia. }
  apply wp_bind. eapply wp_ldetach; [exact Hs1|exact Ht1|exact Hz1|exact Hz1d|exact Hz1i|rewrite Hz1r; destruct (decide _); lia|].
  intros s2 Hs2. eapply wp_putu_here; [exact Hs2|]. intros s3 Hs3. eapply HQ; [| | |exact Hs3].
  - apply (table_sane_refc v dev I l1 old z1); [exact Htree|exact Ht1|exact Hz1|exact Hz1d|exact Hz1i|].
    specialize (Hmax _ _ Hz0). rewrite Hz1r. destruct (decide _); lia.
  - intros k y0 Hy0. destruct (still_lookup _ _ _ _ Hst Hy0) as (yk & Hyk & Erk & Ek).
    destruct (decide (k = old)) as [->|Hne].
    + rewrite Hz0 in Hy0. injection Hy0 as <-. eexists. rewrite list_lookup_insert_eq by (by eapply lookup_lt_Some). split; [reflexivity|].
      cbn [i_refc set_i_refc i_dev i_ino i_gate]. split; [lia|]. intros _. exact Hz1e.
    + rewrite list_lookup_insert_ne by done. destruct (decide (k = ip)) as [->|Hnip].
      * rewrite HTip in Hyk. injection Hyk as <-. exists (set_i_refc (i_refc y) (put_back y)). unfold l1.
        rewrite list_lookup_insert_eq by (unfold T; by rewrite length_insert). split; [done|]. cbn in Erk. split; [cbn; lia|].
        intros Hne0. specialize (Ek Hne0). pose proof (f_equal i_dev Ek) as A1. pose proof (f_equal i_ino Ek) as A2. pose proof (f_equal i_gate Ek) as A3. by split_and!.
      * exists yk. unfold l1. rewrite list_lookup_insert_ne by done. split; [exact Hyk|]. split; [lia|]. intros Hne0. rewrite (Ek Hne0). done.
  - destruct (decide (ip = old)) as [->|Hne].
    + eexists. rewrite list_lookup_insert_eq by (by eapply lookup_lt_Some). split; [reflexivity|]. split; [exact Hz1d|].
      unfold l1 in Hz1. rewrite list_lookup_insert_eq in Hz1 by (unfold T; by rewrite length_insert). injection Hz1 as <-. exact Hi.
    + eexists. rewrite list_lookup_insert_ne by done. unfold l1. rewrite list_lookup_insert_eq by (unfold T; by rewrite length_insert). by split_and!.
Qed.
End laws.

(** ** Calls with a path *)

(** A process in a file system that is whole. *)
Record scene {C} `{BufCacheLaws C} (s : fs C) (dev : Z) (mp : MOUNT) (v : bview) (I : Z -> Prop) (root cwd : Z) : Prop := {
  sn_at : fs_at s dev mp v 0 s;
  sn_usable : usable dev v;
  sn_nodev : unheld (NODEV, 0) v;
  sn_rootdev : rootdev s = dev;
  sn_tree : tree_ok v dev I;
  sn_table : table_ok v dev I (inodep s);
  sn_root : I root /\ dir_of s dev (u_rdir (up s)) root;
  sn_cwd : I cwd /\ dir_of s dev (u_cdir (up s)) cwd;
  sn_name : length (d_name (up s)) = 14%nat
}.
(** The path name [w] at [p]. *)
Record path_at {C} (s : fs C) (p : Z) (w : list Z) : Prop := {
  pa_chars : Forall pchar w;
  pa_length : Z.of_nat (length w) < PATHMAX;
  pa_text : text (pspace s (up s)) p (w ++ [0])
}.

Lemma resolve_reference v dev root uid gid dir ns : match resolve v dev root uid gid Reference dir ns with FChild _ | FError _ => True | _ => False end.
Proof.
  revert dir. induction ns as [|n ns IH]; intros dir; cbn [resolve]; [done|]. destruct (negb _); [done|]. destruct (negb _); [done|].
  destruct ns as [|n' ns].
  - unfold looked_up. by destruct (dlookup _ _) as [[k e]|].
  - destruct (dlookup _ _) as [[k e]|]; [apply IH|done].
Qed.

Section calls.
Context {C : Type} `{BufCacheLaws C}.
Context (retry fuel : nat) (junk : list Z) (Hretry : (0 < retry)%nat) (Hfuel : (0 < fuel)%nat).
Context (dev : Z) (mp : MOUNT) (v : bview) (I : Z -> Prop) (root cwd : Z).
Implicit Types (s : fs C).

(** Every inode in use is as it was. *)
Definition undisturbed s s' : Prop := c_rep (cache s') v /\ table_ok v dev I (inodep s') /\ still (inodep s) (inodep s') /\ kept (up s) (up s').

(** [ftoi] for a file, as the calls use it: the error, or the file, held. *)
Lemma wp_ftoi_ref s p w (Q : Z -> fs C -> Prop) : scene s dev mp v I root cwd -> path_at s p w ->
  let r := resolve v dev root (u_uid s) (u_gid s) Reference (start root cwd w) (names w) in
  (forall e s', r = FError e -> e <> 0 -> u_error s' = e -> undisturbed s s' -> here s dev mp v (inodep s') (up s') e s' -> Q e s') ->
  (forall ino ip s', r = FChild ino -> held_at v dev I (inodep s) (inodep s') ip ino -> u_cdiri (up s') = Some ip -> kept (up s) (up s') ->
     here s dev mp v (inodep s') (up s') 0 s' -> Q 0 s') ->
  wp (ftoi retry fuel junk p Reference) Q s.
Proof.
  intros [A1 A2 A3 A4 A5 A6 [A7 A8] [A9 A10] A11] [P1 P2 P3] r HE HC.
  eapply wp_mono; [eapply (wp_ftoi retry fuel junk s dev mp v I root cwd Reference p w); eassumption|].
  intros e s' (-> & l & u & Hk & Ho). pose proof (resolve_reference v dev root (u_uid s) (u_gid s) (start root cwd w) (names w)) as Href.
  fold r in Ho, Href. clear A1 A2 A3 A4 A5 A6 A7 A8 A9 A10 A11 P1 P2 P3. destruct r as [ino| | |e]; [|done|done|].
  - destruct Ho as (Hh & ip & Hheld & Hci & Hpi). rewrite (at_error _ _ _ _ _ _ Hh).
    pose proof (here_inodep _ _ _ _ _ _ _ _ Hh) as El. pose proof (here_up _ _ _ _ _ _ _ _ Hh) as Eu. subst l u.
    exact (HC ino ip s' eq_refl Hheld Hci Hk Hh).
  - destruct Ho as (Hh & Hne & Ht & Hst). rewrite (at_error _ _ _ _ _ _ Hh).
    pose proof (here_inodep _ _ _ _ _ _ _ _ Hh) as El. pose proof (here_up _ _ _ _ _ _ _ _ Hh) as Eu. subst l u.
    refine (HE e s' eq_refl Hne (at_error _ _ _ _ _ _ Hh) _ Hh). split; [exact (at_rep _ _ _ _ _ _ Hh)|]. split; [exact Ht|]. by split.
Qed.

(** The real ids exchanged with the effective ones. *)
Definition exchanged s : fs C :=
  set_u_uid (u_ruid (up s)) (set_u_gid (u_rgid (up s)) (set_up (set_u_ruid (u_uid s) (set_u_rgid (u_gid s) (up s))) s)).

Lemma scene_exchanged s : scene s dev mp v I root cwd -> scene (exchanged s) dev mp v I root cwd.
Proof. intros [A1 A2 A3 A4 A5 A6 A7 A8 A9]. split; try done. by destruct A1. Qed.
Lemma here_exchanged s l u e s' : here (exchanged s) dev mp v l u e s' -> u_ruid u = u_uid s /\ u_rgid u = u_gid s ->
  here s dev mp v l (set_u_ruid (u_ruid (up s)) (set_u_rgid (u_rgid (up s)) u)) e (exchanged s').
Proof.
  intros Hh [E1 E2]. pose proof (here_up _ _ _ _ _ _ _ _ Hh) as Eu. destruct Hh as [? ? ? ? ? (A1 & A2 & ? & ? & ? & ? & ?)]. subst u.
  cbn in *. split; try done. cbn. rewrite E1, E2. split_and!; try done. by rewrite A1, A2.
Qed.
Lemma kept_exchanged s u : kept (up (exchanged s)) u -> kept (up s) (set_u_ruid (u_ruid (up s)) (set_u_rgid (u_rgid (up s)) u)).
Proof. intros [? ? ? ? ? ?]. by split. Qed.

(** The file is given up again. *)
Lemma wp_giveup s s1 ip ino e (Q : unit -> fs C -> Prop) : tree_ok v dev I -> held_at v dev I (inodep s) (inodep s1) ip ino -> kept (up s) (up s1) ->
  here s dev mp v (inodep s1) (up s1) e s1 ->
  (forall s', undisturbed s s' -> here s dev mp v (inodep s') (up s1) e s' -> Q tt s') -> wp (idetach retry junk ip) Q s1.
Proof.
  intros Htr Hh Hk Hs HQ. eapply (wp_idetach retry junk Hretry s dev mp v); [exact Htr|exact Hs|exact Hh|].
  intros l' s' Ht Hst Hs'. pose proof (here_inodep _ _ _ _ _ _ _ _ Hs') as El. subst l'. apply HQ; [|exact Hs'].
  split; [exact (at_rep _ _ _ _ _ _ Hs')|]. split; [exact Ht|]. split; [exact Hst|].
  rewrite (here_up _ _ _ _ _ _ _ _ Hs'). exact Hk.
Qed.

(** [uaccess]: the verdict on a file found. *)
Definition verdict (uid gid mode : Z) (r : found) : Z :=
  match r with
  | FChild ino => if Z.land mode (imode (inode_at v dev ino) uid gid) =? mode then 0 else EACCES
  | FError e => e
  | _ => 0
  end.

Lemma wp_uaccess s p w mode (Q : unit -> fs C -> Prop) : scene s dev mp v I root cwd -> path_at s p w ->
  (forall u s', undisturbed s s' ->
     here s dev mp v (inodep s') u (verdict (u_ruid (up s)) (u_rgid (up s)) mode
       (resolve v dev root (u_ruid (up s)) (u_rgid (up s)) Reference (start root cwd w) (names w))) s' -> Q tt s') ->
  wp (uaccess retry fuel junk p mode) Q s.
Proof.
  intros Hsc Hp HQ. pose proof (sn_tree _ _ _ _ _ _ _ Hsc) as Htr. unfold uaccess, schizo. apply wp_bind, wp_modify.
  fold (exchanged s). apply wp_bind. eapply (wp_ftoi_ref (exchanged s) p w); [by apply scene_exchanged|by destruct Hp|..].
  - intros e s2 Hr Hne He (_ & Ht & Hst & Hk) Hh. apply wp_bind, wp_modify. fold (exchanged s2).
    rewrite (proj2 (Z.eqb_neq e 0) Hne). apply wp_ret. pose proof (here_exchanged _ _ _ _ _ Hh (kp_real _ _ Hk)) as Hh'.
    eapply HQ; [|cbn [u_uid u_gid exchanged set_u_uid set_u_gid set_up] in Hr; rewrite Hr; exact Hh'].
    split; [exact (at_rep _ _ _ _ _ _ Hh')|]. split; [exact Ht|]. split; [exact Hst|].
    rewrite (here_up _ _ _ _ _ _ _ _ Hh'). by apply kept_exchanged.
  - intros ino ip s2 Hr Hheld Hci Hk Hh. apply wp_bind, wp_modify. fold (exchanged s2). cbn [Z.eqb negb].
    pose proof (here_exchanged _ _ _ _ _ Hh (kp_real _ _ Hk)) as Hh'. pose proof (here_up _ _ _ _ _ _ _ _ Hh') as Eu.
    cbn [u_uid u_gid exchanged set_u_uid set_u_gid set_up] in Hr. rewrite Hr in HQ. cbn [verdict] in HQ.
    change (inodep s2) with (inodep (exchanged s2)) in *. set (s3 := exchanged s2) in *.
    unfold cdiri. apply wp_bind, wp_bind, wp_gets. rewrite Eu. eapply wp_deref; [exact Hci|].
    destruct (held_like dev v I (inodep (exchanged s)) Htr _ _ _ Hheld) as (y & Hy & Hd & L).
    apply wp_bind. eapply wp_geti_here; [exact Hh'|exact Hy|]. apply wp_bind, wp_gets. rewrite Eu. cbn [u_ruid u_rgid set_u_ruid set_u_rgid].
    rewrite (like_imode _ _ _ _ L). apply wp_bind. pose proof (kept_exchanged _ _ Hk) as Hk'. rewrite <- Eu in Hk', Hh'.
    destruct (_ =? mode); cbn [negb].
    + apply wp_ret. eapply (wp_giveup s s3); [exact Htr|exact Hheld|exact Hk'|exact Hh'|]. intros s' Hu Hs'. eapply HQ; [exact Hu|exact Hs'].
    + eapply wp_error_here; [exact Hh'|]. intros s4 Hs4.
      pose proof (here_inodep _ _ _ _ _ _ _ _ Hs4) as El4. pose proof (here_up _ _ _ _ _ _ _ _ Hs4) as Eu4.
      eapply (wp_giveup s s4); [exact Htr|rewrite El4; exact Hheld|rewrite Eu4; exact Hk'|rewrite El4, Eu4; exact Hs4|].
      intros s' Hu Hs'. eapply HQ; [exact Hu|exact Hs'].
Qed.

(** Can the file found become a working directory? *)
Definition fit uid gid (r : found) : Z :=
  match r with
  | FChild ino => let x := inode_at v dev ino in
    if negb (itype x =? IFDIR) then ENOTDIR else if negb (search_bit uid gid x) then EACCES else 0
  | FError e => e
  | _ => 0
  end.

(** The process has moved to [ino]: the inode is in use once more, the old
    directory once less, and every other slot that was in use as often. *)
Definition moved s s' (wd : wdir) (ino : Z) : Prop := exists ip,
  get_wdir wd (up s') = ip /\ kept (up s) (set_wdir wd (get_wdir wd (up s)) (up s')) /\ c_rep (cache s') v /\
  table_sane v dev I (inodep s') /\ moved_ref (inodep s) (inodep s') ip (get_wdir wd (up s)) /\
  exists y, inodep s' !! ip = Some y /\ i_dev y = dev /\ i_ino y = ino.

Lemma kept_wdir u u' wd ip : kept u u' -> kept u (set_wdir wd (get_wdir wd u) (set_wdir wd ip u')).
Proof. intros [? ? ? ? ? ?]. by destruct wd. Qed.
Lemma get_set_wdir wd ip u : get_wdir wd (set_wdir wd ip u) = ip.
Proof. by destruct wd. Qed.

Lemma scene_wdir s wd : scene s dev mp v I root cwd -> exists y, inodep s !! get_wdir wd (up s) = Some y /\ i_dev y = dev /\ I (i_ino y) /\ 0 < i_refc y.
Proof.
  intros Hsc. assert (exists i, I i /\ dir_of s dev (get_wdir wd (up s)) i) as (i & Hi & y & Hy & Hd & Ei & Hr).
  { destruct wd; [exists cwd; apply Hsc|exists root; apply Hsc]. }
  exists y. subst i. destruct (tk_known _ _ _ _ (tk_sane _ _ _ _ (sn_table _ _ _ _ _ _ _ Hsc)) _ y Hy Hd Hi) as (_ & _ & _ & Hr').
  split_and!; try done. lia.
Qed.

Lemma wp_setcdir s p w wd (Q : unit -> fs C -> Prop) : scene s dev mp v I root cwd -> path_at s p w ->
  (forall k y, inodep s !! k = Some y -> i_refc y < 32766) ->
  let r := resolve v dev root (u_uid s) (u_gid s) Reference (start root cwd w) (names w) in
  (forall s', u_error s' = fit (u_uid s) (u_gid s) r ->
     (u_error s' <> 0 -> undisturbed s s') -> (u_error s' = 0 -> exists ino, r = FChild ino /\ moved s s' wd ino) -> Q tt s') ->
  wp (setcdir retry fuel junk p wd) Q s.
Proof.
  intros Hsc Hp Hmax r HQ. pose proof (sn_tree _ _ _ _ _ _ _ Hsc) as Htr. destruct (scene_wdir s wd Hsc) as (z & Hz & Hzd & Hzi & Hzr).
  unfold setcdir. apply wp_bind. eapply (wp_ftoi_ref s p w _ Hsc Hp).
  - intros e s1 Hr Hne He Hu Hh. rewrite (proj2 (Z.eqb_neq e 0) Hne). apply wp_ret, HQ; [|by intros _|by rewrite He].
    rewrite He. unfold r. by rewrite Hr.
  - intros ino ip s1 Hr Hheld Hci Hk Hh. cbn [Z.eqb negb]. fold r in Hr. rewrite Hr in HQ. cbn [fit] in HQ.
    unfold cdiri. apply wp_bind, wp_bind, wp_gets. eapply wp_deref; [exact Hci|].
    destruct (held_like dev v I (inodep s) Htr _ _ _ Hheld) as (y & Hy & Hd & L).
    apply wp_bind. eapply wp_geti_here; [exact Hh|exact Hy|].
    assert (forall e, e <> 0 -> (e = let x := inode_at v dev ino in if negb (itype x =? IFDIR) then ENOTDIR else if negb (search_bit (u_uid s) (u_gid s) x) then EACCES else 0) ->
      forall s2, here s dev mp v (inodep s1) (up s1) e s2 -> wp (idetach retry junk ip) Q s2) as Hback.
    { intros e Hne He s2 Hs2. pose proof (here_inodep _ _ _ _ _ _ _ _ Hs2) as El2. pose proof (here_up _ _ _ _ _ _ _ _ Hs2) as Eu2.
      eapply (wp_giveup s s2); [exact Htr|rewrite El2; exact Hheld|rewrite Eu2; exact Hk|rewrite El2, Eu2; exact Hs2|].
      intros s' Hu Hs'. pose proof (at_error _ _ _ _ _ _ Hs') as Ee. apply HQ; [by rewrite Ee|by intros _|by rewrite Ee]. }
    unfold itype in *. rewrite (lk_mode _ _ L). destruct (negb _) eqn:Ety.
    { apply wp_bind. eapply wp_error_here; [exact Hh|]. by apply Hback. }
    unfold iaccess. apply wp_bind, wp_bind. eapply wp_geti_here; [exact Hh|exact Hy|].
    destruct (at_ids _ _ _ _ _ _ Hh) as (Eu & Eg & _). cbn [u_uid u_gid set_up set_inodep] in Eu, Eg. apply wp_bind, wp_gets. apply wp_bind, wp_gets.
    rewrite Eu, Eg, (like_imode _ _ _ _ L). fold (search_bit (u_uid s) (u_gid s) (inode_at v dev ino)).
    destruct (search_bit _ _ _); cbn [negb] in *.
    + apply wp_ret. cbn [negb]. eapply (wp_move retry junk Hretry s dev mp v I Htr (inodep s)); [exact Hh|exact Hheld| |exact Hz|exact Hzd|exact Hzi|exact Hzr|exact Hmax|].
      { destruct wd; cbn [get_wdir]; apply Hk. }
      intros l' s' Ht Hmv Hin Hs'. pose proof (here_inodep _ _ _ _ _ _ _ _ Hs') as El. pose proof (here_up _ _ _ _ _ _ _ _ Hs') as Eu'. subst l'.
      apply HQ; [exact (at_error _ _ _ _ _ _ Hs')|by rewrite (at_error _ _ _ _ _ _ Hs')|]. intros _. exists ino. split; [done|].
      exists ip. rewrite Eu'. split; [by apply get_set_wdir|]. split; [by apply kept_wdir|]. split; [exact (at_rep _ _ _ _ _ _ Hs')|]. by split_and!.
    + apply wp_bind. eapply wp_error_here; [exact Hh|]. intros s2 Hs2. apply wp_ret. cbn [negb].
      apply wp_bind. eapply wp_error_here; [exact Hs2|]. by apply Hback.
Qed.
End calls.

(** C12: [uaccess] answers for the real ids: it walks to the file with the real
    user and group in place of the effective ones, so that a directory on the
    way which the real user may not search refuses the call, and compares the
    mode asked for with what the real user may do with the file.  On every path
    out, also when the walk fails, the effective ids are the effective ids
    again, the real the real, no inode stays locked or referenced, and nothing
    is written. *)
Theorem uaccess_correct {C} `{BufCacheLaws C} retry fuel junk (s : fs C) dev mp v (I : Z -> Prop) root cwd p w mode :
  (0 < retry)%nat -> (0 < fuel)%nat -> scene s dev mp v I root cwd -> path_at s p w ->
  wp (uaccess retry fuel junk p mode) (fun _ s' => undisturbed dev v I s s' /\ u_uid s' = u_uid s /\ u_gid s' = u_gid s /\
    u_error s' = verdict dev v (u_ruid (up s)) (u_rgid (up s)) mode
      (resolve v dev root (u_ruid (up s)) (u_rgid (up s)) Reference (start root cwd w) (names w))) s.
Proof.
  intros Hretry Hfuel Hsc Hp. eapply wp_uaccess; [exact Hretry|exact Hfuel|exact Hsc|exact Hp|].
  intros u s' Hu Hs'. destruct (at_ids _ _ _ _ _ _ Hs') as (Eu & Eg & _).
  split; [exact Hu|]. split; [exact Eu|]. split; [exact Eg|]. exact (at_error _ _ _ _ _ _ Hs').
Qed.

(** C11: [setcdir], with which [uchdir] and [uchroot] change the working and the
    root directory, moves the process only to a directory that it may search:
    then the new directory has one reference more and the old one less (none
    changes when they are the same), every other inode in use is untouched and
    none is left locked.  When the path fails, or is no directory, or may not be
    searched, the error says so and nothing has changed. *)
Theorem setcdir_correct {C} `{BufCacheLaws C} retry fuel junk (s : fs C) dev mp v (I : Z -> Prop) root cwd p w wd :
  (0 < retry)%nat -> (0 < fuel)%nat -> scene s dev mp v I root cwd -> path_at s p w ->
  (forall k y, inodep s !! k = Some y -> i_refc y < 32766) ->
  let r := resolve v dev root (u_uid s) (u_gid s) Reference (start root cwd w) (names w) in
  wp (setcdir retry fuel junk p wd) (fun _ s' => u_error s' = fit dev v (u_uid s) (u_gid s) r /\
    (u_error s' <> 0 -> undisturbed dev v I s s') /\
    (u_error s' = 0 -> exists ino, r = FChild ino /\ moved dev v I s s' wd ino)) s.
Proof.
  intros Hretry Hfuel Hsc Hp Hmax r. eapply wp_setcdir; [exact Hretry|exact Hfuel|exact Hsc|exact Hp|exact Hmax|].
  intros s' He Hbad Hgood. by split_and!.
Qed.

(** ** Witnesses: /bin/sh may be read, and /bin becomes the working directory *)

Definition w_at_mem (m : Z -> Z -> option Z) : fs acache := Fs (Acache w_dirs) [w_mount 0] w_slots 0 0 0 77 1 [] 0 m w_up.
(** The path /bin at 100. *)
Definition w_binpath : list Z := slash :: w_bin.
Definition w_binmem (sp a : Z) : option Z := if a <? 100 then None else (w_binpath ++ [0]) !! Z.to_nat (a - 100).

Lemma w_scene m : scene (w_at_mem m) 1 (w_mount 0) w_dirs w_tree 2 2.
Proof.
  split.
  - by apply fs_at_self.
  - split; [intros; by apply unheld_none|unfold room, NHOLD; vm_compute; lia|done|done].
  - by apply unheld_none.
  - done.
  - exact w_tree_ok.
  - exact w_table_ok.
  - split; [by left|]. eexists. by split_and!.
  - split; [by left|]. eexists. by split_and!.
  - done.
Qed.
Lemma w_path_at : path_at (w_at_mem w_pathmem) 100 w_path.
Proof.
  split; [|done|vm_compute; by split_and!]. repeat (apply Forall_cons; split; [by split|]). constructor.
Qed.

Lemma uaccess_correct_witness : exists r s', uaccess 1 1 (repeat 0 40) 100 4 (w_at_mem w_pathmem) = Ret r s' /\
  undisturbed 1 w_dirs w_tree (w_at_mem w_pathmem) s' /\ u_uid s' = 0 /\ u_gid s' = 0 /\ u_error s' = 0.
Proof.
  exact (proj1 (wp_returns _ _ _) (uaccess_correct 1 1 (repeat 0 40) (w_at_mem w_pathmem) 1 (w_mount 0) w_dirs w_tree 2 2 100 w_path 4
    ltac:(lia) ltac:(lia) (w_scene w_pathmem) w_path_at)).
Defined.

Lemma w_binpath_at : path_at (w_at_mem w_binmem) 100 w_binpath.
Proof.
  split; [|done|vm_compute; by split_and!]. repeat (apply Forall_cons; split; [by split|]). constructor.
Qed.
Lemma w_few k y : w_slots !! k = Some y -> i_refc y < 32766.
Proof. destruct k as [|[|k]]; [by intros [= <-]..|done]. Qed.

Lemma setcdir_correct_witness : exists r s', setcdir 1 1 (repeat 0 40) 100 Cdir (w_at_mem w_binmem) = Ret r s' /\
  u_error s' = 0 /\ (u_error s' <> 0 -> undisturbed 1 w_dirs w_tree (w_at_mem w_binmem) s') /\
  (u_error s' = 0 -> exists ino, FChild 3 = FChild ino /\ moved 1 w_dirs w_tree (w_at_mem w_binmem) s' Cdir ino).
Proof.
  exact (proj1 (wp_returns _ _ _) (setcdir_correct 1 1 (repeat 0 40) (w_at_mem w_binmem) 1 (w_mount 0) w_dirs w_tree 2 2 100 w_binpath Cdir
    ltac:(lia) ltac:(lia) (w_scene w_binmem) w_binpath_at w_few)).
Defined.
