(* ===== verification/Crypt.v ===== *)
(** Password encryption: the block cipher of libc/gen/crypt.c and [rand] of
    libc/gen/rand.c.

    A [char] array is a list of signed bytes; reading or writing outside one is
    [None].  The static tables that the program changes (the E table and the
    key schedule) and the seed are the record [des].  [setkey] rotates 28
    bytes that lie beyond its array [cd]: what is there is an argument and a
    result of the model. *)
From S2P Require Import Prelude Bytes.
Local Open Scope Z_scope.

Definition NBPC : Z := 8.
Definition NIB : Z := 64.
Definition NKB : Z := 64.
Definition NUKB : Z := 56.
Definition NOKB : Z := 48.
Definition NITER : Z := 16.
Definition NSBOX : Z := 8.
Definition NSCSET : Z := 64.

(** Initial permutation. *)
Definition IP : list Z := [
  57; 49; 41; 33; 25; 17; 9; 1;
  59; 51; 43; 35; 27; 19; 11; 3;
  61; 53; 45; 37; 29; 21; 13; 5;
  63; 55; 47; 39; 31; 23; 15; 7;
  56; 48; 40; 32; 24; 16; 8; 0;
  58; 50; 42; 34; 26; 18; 10; 2;
  60; 52; 44; 36; 28; 20; 12; 4;
  62; 54; 46; 38; 30; 22; 14; 6].
(** Its inverse. *)
Definition IP1 : list Z := [
  39; 7; 47; 15; 55; 23; 63; 31;
  38; 6; 46; 14; 54; 22; 62; 30;
  37; 5; 45; 13; 53; 21; 61; 29;
  36; 4; 44; 12; 52; 20; 60; 28;
  35; 3; 43; 11; 51; 19; 59; 27;
  34; 2; 42; 10; 50; 18; 58; 26;
  33; 1; 41; 9; 49; 17; 57; 25;
  32; 0; 40; 8; 48; 16; 56; 24].
(** The E bit-selection table as it is saved in [saveE]; [E] starts as a copy. *)
Definition saveE : list Z := [
  31; 0; 1; 2; 3; 4;
  3; 4; 5; 6; 7; 8;
  7; 8; 9; 10; 11; 12;
  11; 12; 13; 14; 15; 16;
  15; 16; 17; 18; 19; 20;
  19; 20; 21; 22; 23; 24;
  23; 24; 25; 26; 27; 28;
  27; 28; 29; 30; 31; 0].
(** Permutation of 32 bits. *)
Definition P : list Z := [
  15; 6; 19; 20;
  28; 11; 27; 16;
  0; 14; 22; 25;
  4; 17; 30; 9;
  1; 7; 23; 13;
  31; 26; 2; 8;
  18; 12; 29; 5;
  21; 10; 3; 24].
(** The eight S-boxes, of four rows of sixteen. *)
Definition Sboxes : list Z := [
  14; 4; 13; 1; 2; 15; 11; 8; 3; 10; 6; 12; 5; 9; 0; 7;
  0; 15; 7; 4; 14; 2; 13; 1; 10; 6; 12; 11; 9; 5; 3; 8;
  4; 1; 14; 8; 13; 6; 2; 11; 15; 12; 9; 7; 3; 10; 5; 0;
  15; 12; 8; 2; 4; 9; 1; 7; 5; 11; 3; 14; 10; 0; 6; 13;
  15; 1; 8; 14; 6; 11; 3; 4; 9; 7; 2; 13; 12; 0; 5; 10;
  3; 13; 4; 7; 15; 2; 8; 14; 12; 0; 1; 10; 6; 9; 11; 5;
  0; 14; 7; 11; 10; 4; 13; 1; 5; 8; 12; 6; 9; 3; 2; 15;
  13; 8; 10; 1; 3; 15; 4; 2; 11; 6; 7; 12; 0; 5; 14; 9;
  10; 0; 9; 14; 6; 3; 15; 5; 1; 13; 12; 7; 11; 4; 2; 8;
  13; 7; 0; 9; 3; 4; 6; 10; 2; 8; 5; 14; 12; 11; 15; 1;
  13; 6; 4; 9; 8; 15; 3; 0; 11; 1; 2; 12; 5; 10; 14; 7;
  1; 10; 13; 0; 6; 9; 8; 7; 4; 15; 14; 3; 11; 5; 2; 12;
  7; 13; 14; 3; 0; 6; 9; 10; 1; 2; 8; 5; 11; 12; 4; 15;
  13; 8; 11; 5; 6; 15; 0; 3; 4; 7; 2; 12; 1; 10; 14; 9;
  10; 6; 9; 0; 12; 11; 7; 13; 15; 1; 3; 14; 5; 2; 8; 4;
  3; 15; 0; 6; 10; 1; 13; 8; 9; 4; 5; 11; 12; 7; 2; 14;
  2; 12; 4; 1; 7; 10; 11; 6; 8; 5; 3; 15; 13; 0; 14; 9;
  14; 11; 2; 12; 4; 7; 13; 1; 5; 0; 15; 10; 3; 9; 8; 6;
  4; 2; 1; 11; 10; 13; 7; 8; 15; 9; 12; 5; 6; 3; 0; 14;
  11; 8; 12; 7; 1; 14; 2; 13; 6; 15; 0; 9; 10; 4; 5; 3;
  12; 1; 10; 15; 9; 2; 6; 8; 0; 13; 3; 4; 14; 7; 5; 11;
  10; 15; 4; 2; 7; 12; 9; 5; 6; 1; 13; 14; 0; 11; 3; 8;
  9; 14; 15; 5; 2; 8; 12; 3; 7; 0; 4; 10; 1; 13; 11; 6;
  4; 3; 2; 12; 9; 5; 15; 10; 11; 14; 1; 7; 6; 0; 8; 13;
  4; 11; 2; 14; 15; 0; 8; 13; 3; 12; 9; 7; 5; 10; 6; 1;
  13; 0; 11; 7; 4; 9; 1; 10; 14; 3; 5; 12; 2; 15; 8; 6;
  1; 4; 11; 13; 12; 3; 7; 14; 10; 15; 6; 8; 0; 5; 9; 2;
  6; 11; 13; 8; 1; 4; 10; 7; 9; 5; 0; 15; 14; 2; 3; 12;
  13; 2; 8; 4; 6; 15; 11; 1; 10; 9; 3; 14; 5; 0; 12; 7;
  1; 15; 13; 8; 10; 3; 7; 4; 12; 5; 6; 11; 0; 14; 9; 2;
  7; 11; 4; 1; 9; 12; 14; 2; 0; 6; 10; 13; 15; 3; 5; 8;
  2; 1; 14; 7; 4; 10; 8; 13; 15; 12; 9; 0; 3; 5; 6; 11].
(** Permuted choices. *)
Definition PC1 : list Z := [
  56; 48; 40; 32; 24; 16; 8;
  0; 57; 49; 41; 33; 25; 17;
  9; 1; 58; 50; 42; 34; 26;
  18; 10; 2; 59; 51; 43; 35;
  62; 54; 46; 38; 30; 22; 14;
  6; 61; 53; 45; 37; 29; 21;
  13; 5; 60; 52; 44; 36; 28;
  20; 12; 4; 27; 19; 11; 3].
Definition PC2 : list Z := [
  13; 16; 10; 23; 0; 4;
  2; 27; 14; 5; 20; 9;
  22; 18; 11; 3; 25; 7;
  15; 6; 26; 19; 12; 1;
  40; 51; 30; 36; 46; 54;
  29; 39; 50; 44; 32; 47;
  43; 48; 38; 55; 33; 52;
  45; 41; 49; 35; 28; 31].
(** Left shifts. *)
Definition shifts : list Z := [
  1; 1; 2; 2; 2; 2; 2; 2;
  1; 2; 2; 2; 2; 2; 2; 1].
(** The small character set. *)
Definition maptab : list Z := [
  97; 98; 99; 100; 101; 102; 103; 104;
  105; 106; 107; 108; 109; 110; 111; 112;
  113; 114; 115; 116; 117; 118; 119; 120;
  121; 122; 65; 66; 67; 68; 69; 70;
  71; 72; 73; 74; 75; 76; 77; 78;
  79; 80; 81; 82; 83; 84; 85; 86;
  87; 88; 89; 90; 48; 49; 50; 51;
  52; 53; 54; 55; 56; 57; 46; 47].

Record des := Des {
  E : list Z;
  Ki : list (list Z);
  seed : Z
}.

(** An array of [n] elements made by a loop. *)
Definition arr (n : Z) (f : Z -> option Z) : option (list Z) := mapM f (seqZ 0 n).

(** ** The cipher *)

Definition permute (ibits ptab : list Z) (nbits : Z) : option (list Z) :=
  arr nbits (fun bitno => p ← aget ptab bitno; aget ibits p).

Definition m2add (i1 i2 : list Z) (nbits : Z) : option (list Z) :=
  arr nbits (fun k => a ← aget i1 k; b ← aget i2 k; Some (s8 (Z.lxor a b))).

Definition bcopy (a : list Z) (nb : Z) : option (list Z) := arr nb (aget a).

(** The first elements of an array replaced. *)
Definition over (new old : list Z) : list Z := new ++ drop (length new) old.

(** One box: its six bits are [ibits]; four bits and [tempout] come out. *)
Definition sbox (boxno : Z) (ibits : list Z) (tempout : Z) : option (list Z * Z) :=
  match ibits with
  | [b0; b1; b2; b3; b4; b5] =>
    let row := Z.lor (Z.shiftl 0 1) b0 in
    let col := Z.lor (Z.shiftl 0 1) b1 in
    let col := Z.lor (s16 (Z.shiftl col 1)) b2 in
    let col := Z.lor (s16 (Z.shiftl col 1)) b3 in
    let col := Z.lor (s16 (Z.shiftl col 1)) b4 in
    let row := Z.lor (s16 (Z.shiftl row 1)) b5 in
    s ← aget Sboxes (boxno * 64 + row * 16 + col);
    let t0 := Z.lor (s16 (Z.shiftl tempout 4)) s in
    let t1 := s16 (Z.shiftl t0 1) in
    let t2 := s16 (Z.shiftl t1 1) in
    let t3 := s16 (Z.shiftl t2 1) in
    Some ([Z.land (Z.shiftr t0 3) 1; Z.land (Z.shiftr t1 3) 1; Z.land (Z.shiftr t2 3) 1; Z.land (Z.shiftr t3 3) 1],
          s16 (Z.shiftl t3 1))
  | _ => None
  end.
Fixpoint dosboxes_loop (n : nat) (boxno : Z) (ibits : list Z) (tempout : Z) : option (list Z) :=
  match n with
  | O => Some []
  | S n =>
    '(o, tempout) ← sbox boxno (sub ibits 0 6) tempout;
    rest ← dosboxes_loop n (boxno + 1) (drop 6 ibits) tempout;
    Some (o ++ rest)
  end.
Definition dosboxes (ibits : list Z) : option (list Z) := dosboxes_loop (Z.to_nat NSBOX) 0 ibits 0.

(** The [for] loop of [cypher]; [m] iterations are left. *)
Fixpoint cypher_loop (m : nat) (s : des) (edflag n : Z) (t1bits t2bits left right : list Z) : option (list Z * list Z) :=
  match m with
  | O => Some (left, right)
  | S m =>
    t1 ← permute right (E s) NOKB;
    let i := if edflag =? 0 then n else NITER - 1 - n in
    k ← aget (Ki s) i;
    t1 ← m2add t1 k NOKB;
    t2 ← dosboxes t1;
    p ← permute t2 P (NIB / 2);
    let t1 := over p t1 in
    t2 ← m2add t1 left (NIB / 2);
    left ← bcopy right (NIB / 2);
    right ← bcopy t2 (NIB / 2);
    cypher_loop m s edflag (n + 1) t1 t2 left right
  end.
Definition cypher (s : des) (ibits : list Z) (edflag : Z) : option (list Z) :=
  left ← bcopy ibits (NIB / 2);
  right ← bcopy (drop (Z.to_nat (NIB / 2)) ibits) (NIB / 2);
  '(left, right) ← cypher_loop (Z.to_nat NITER) s edflag 0 [] [] left right;
  o1 ← bcopy right (NIB / 2);
  o2 ← bcopy left (NIB / 2);
  Some (o1 ++ o2).

Definition encrypt (s : des) (block : list Z) (edflag : Z) : option (list Z) :=
  block1 ← permute block IP NIB;
  block2 ← cypher s block1 edflag;
  permute block2 IP1 NIB.

(** ** The key schedule *)

(** The bytes from [o] on rotated left by one: the [do] loop of [lrot]. *)
Fixpoint lrot_bytes (nb : nat) (bits : list Z) (bp : Z) : option (list Z * Z) :=
  match nb with
  | O => Some (bits, bp)
  | S nb => b ← aget bits (bp + 1); bits ← aset bits bp b; lrot_bytes nb bits (bp + 1)
  end.
Fixpoint lrot (ns : nat) (bits : list Z) (o nbits : Z) : option (list Z) :=
  match ns with
  | O => Some bits
  | S ns =>
    byte ← aget bits o;
    '(bits, bp) ← lrot_bytes (Z.to_nat (nbits - 1)) bits o;
    bits ← aset bits bp byte;
    lrot ns bits o nbits
  end.

(** The loop of [setkey] over the memory from [cd] on: [Di] is [&cd[NUKB]]. *)
Fixpoint setkey_loop (m : nat) (ni : Z) (cd : list Z) : option (list (list Z) * list Z) :=
  match m with
  | O => Some ([], cd)
  | S m =>
    sh ← aget shifts ni;
    cd ← lrot (Z.to_nat sh) cd 0 (NUKB / 2);
    cd ← lrot (Z.to_nat sh) cd NUKB (NUKB / 2);
    k ← permute cd PC2 NOKB;
    '(ks, cd) ← setkey_loop m (ni + 1) cd;
    Some (k :: ks, cd)
  end.
(** [beyond] is the memory after [cd]; it is returned as [setkey] leaves it. *)
Definition setkey (key beyond : list Z) (s : des) : option (list Z * des) :=
  cd ← permute key PC1 NUKB;
  '(ks, cd) ← setkey_loop (Z.to_nat NITER) 0 (cd ++ beyond);
  Some (drop (Z.to_nat NUKB) cd, Des (E s) ks (seed s)).

(** ** Bits *)

Fixpoint unpack_loop (i : nat) (a : list Z) (bitp bp byte : Z) : option (list Z) :=
  match i with
  | O => Some a
  | S i' =>
    '(bp, byte) ← (if Z.of_nat i mod NBPC =? 0 then b ← aget a (bp - 1); Some (bp - 1, b) else Some (bp, byte));
    a ← aset a (bitp - 1) (Z.land byte 1);
    unpack_loop i' a (bitp - 1) bp (Z.shiftr byte 1)
  end.
Definition unpack (bytes : list Z) (nbits : Z) : option (list Z) :=
  unpack_loop (Z.to_nat nbits) bytes nbits ((nbits + NBPC - 1) / NBPC) 0.

Fixpoint pack_loop (m : nat) (i : Z) (a : list Z) (bp bitp byte : Z) : option (list Z) :=
  match m with
  | O => Some a
  | S m =>
    b ← aget a bitp;
    let byte := s16 (Z.lor (Z.shiftl byte 1) b) in
    if i mod NBPC =? NBPC - 1 then
      a ← aset a bp (s8 byte);
      pack_loop m (i + 1) a (bp + 1) (bitp + 1) 0
    else pack_loop m (i + 1) a bp (bitp + 1) byte
  end.
Definition pack (a : list Z) (nbits : Z) : option (list Z) := pack_loop (Z.to_nat nbits) 0 a 0 0 0.

(** ** Random numbers *)

Definition srand (n : Z) (s : des) : des := Des (E s) (Ki s) (u16 n).
Definition rand (s : des) : Z * des :=
  let sd := s32 (seed s * 1664525 + 907633387) in
  (Z.land (Z.shiftr sd 17) 32767, Des (E s) (Ki s) sd).

(** ** Passwords *)

(** The [for] loop of [perturb] over [maptab]. *)
Fixpoint salt_loop (cp : list Z) (i i1 i2 salti : Z) : Z :=
  match cp with
  | [] => salti
  | c :: cp =>
    let salti := if i1 =? c then Z.lor salti (s16 (Z.shiftl i 1)) else salti in
    let salti := if i2 =? c then Z.lor salti (s16 (Z.shiftl i 9)) else salti in
    salt_loop cp (i + 1) i1 i2 salti
  end.
Fixpoint perturb_E (l : list Z) (s : des) : list Z * des :=
  match l with
  | [] => ([], s)
  | e :: l =>
    let '(r, s) := rand s in
    let '(es, s) := perturb_E l s in
    ((e + Z.shiftr r 6) mod (NIB / 2) :: es, s)
  end.
Definition perturb (s0 s1 : Z) (s : des) : des :=
  let salti := salt_loop maptab 0 s0 s1 (Z.lor (Z.shiftl 1 8) 1) in
  let s := srand salti s in
  let '(es, s) := perturb_E saveE s in
  Des es (Ki s) (seed s).

(** The two loops that fill [bkey]: [key] is a string with its NUL. *)
Fixpoint copy_key (cp : list Z) (room : nat) : option (list Z) :=
  match cp with
  | [] => None
  | c :: cp =>
    if c =? 0 then Some [] else
    match room with
    | O => Some []
    | S room => l ← copy_key cp room; Some (c :: l)
    end
  end.
Definition fill_key (l : list Z) : list Z := l ++ repeat 0 (Z.to_nat (NKB / NBPC) - length l).

(** The final [while] loop and the character after it. *)
Fixpoint sixbits (bp : list Z) (i sixbit : Z) : option (list Z) :=
  match bp with
  | [] => c ← aget maptab sixbit; Some [c]
  | b :: bp =>
    let sixbit := s16 (Z.shiftl sixbit 1 + b) in
    if i mod 6 =? 6 - 1 then
      c ← aget maptab sixbit;
      l ← sixbits bp (i + 1) 0;
      Some (c :: l)
    else sixbits bp (i + 1) sixbit
  end.

(** "Password" *)
Definition password : list Z := [80; 97; 115; 115; 119; 111; 114; 100].

(** What the automatic arrays of [crypt] hold after the bytes it sets, and
    the memory that [setkey] rotates. *)
Record frame := Frame { f_bkey : list Z; f_stuff : list Z; f_beyond : list Z }.

(** [crypt]: the string with its NUL, the memory beyond, the static data. *)
Definition crypt (fr : frame) (key : list Z) (salt0 salt1 : Z) (s : des) : option (list Z * list Z * des) :=
  let s := perturb salt0 salt1 s in
  l ← copy_key key (Z.to_nat (NKB / NBPC));
  bkey ← unpack (fill_key l ++ f_bkey fr) NKB;
  '(beyond, s) ← setkey bkey (f_beyond fr) s;
  stuff ← unpack (password ++ f_stuff fr) NIB;
  stuff ← encrypt s (sub stuff 0 (Z.to_nat NIB)) 0;
  out ← sixbits stuff 0 0;
  Some (salt0 :: salt1 :: out ++ [0], beyond, s).

(** ** Arrays and bits *)

Definition isbit (b : Z) : Prop := b = 0 \/ b = 1.
Definition bits (n : nat) (l : list Z) : Prop := length l = n /\ Forall isbit l.
Definition nthZ (l : list Z) (i : Z) : Z := nth (Z.to_nat i) l 0.
Definition within (n : Z) (tab : list Z) : Prop := Forall (fun p => 0 <= p < n) tab.
Definition pick (l tab : list Z) : list Z := map (nthZ l) tab.
Definition xors (a b : list Z) : list Z := zip_with Z.lxor a b.

Lemma aget_nthZ l i : 0 <= i < Z.of_nat (length l) -> aget l i = Some (nthZ l i).
Proof.
  intros Hi. unfold aget, nthZ. rewrite (proj2 (Z.ltb_ge i 0)) by lia.
  destruct (nth_lookup_or_length l (Z.to_nat i) 0); [done|lia].
Qed.

Lemma arr_Some n f g : (forall k, 0 <= k < n -> f k = Some (g k)) -> arr n f = Some (map g (seqZ 0 n)).
Proof.
  intros Hf. unfold arr. apply mapM_Some_2. apply Forall2_fmap_r, Forall_Forall2_diag, Forall_forall.
  intros k Hk. apply elem_of_seqZ in Hk. apply Hf. lia.
Qed.

Lemma map_nthZ l : map (nthZ l) (seqZ 0 (Z.of_nat (length l))) = l.
Proof.
  apply list_eq. intros i. rewrite list_lookup_fmap. destruct (decide (i < length l)%nat) as [Hi|Hi].
  - rewrite lookup_seqZ_lt by lia. cbn. unfold nthZ. rewrite Z.add_0_l, Nat2Z.id.
    destruct (nth_lookup_or_length l i 0); [done|lia].
  - rewrite lookup_seqZ_ge by lia. cbn. symmetry. apply lookup_ge_None. lia.
Qed.

Lemma bcopy_spec a nb : 0 <= nb <= Z.of_nat (length a) -> bcopy a nb = Some (take (Z.to_nat nb) a).
Proof.
  intros Hn. assert (length (take (Z.to_nat nb) a) = Z.to_nat nb) as Hl by (rewrite length_take; lia).
  rewrite <- (map_nthZ (take _ a)), Hl, Z2Nat.id by lia. apply arr_Some. intros k Hk.
  rewrite aget_nthZ by lia. f_equal. unfold nthZ. rewrite !nth_lookup, lookup_take_lt by lia. done.
Qed.

Lemma permute_spec ibits tab n : Z.of_nat (length tab) = n -> within (Z.of_nat (length ibits)) tab ->
  permute ibits tab n = Some (pick ibits tab).
Proof.
  intros <- Hw. unfold permute, pick. rewrite <- (map_nthZ tab) at 2. rewrite map_map. apply arr_Some.
  intros k Hk. rewrite aget_nthZ by done. cbn. apply aget_nthZ.
  unfold within in Hw. rewrite Forall_lookup in Hw. apply (Hw (Z.to_nat k)). unfold nthZ.
  destruct (nth_lookup_or_length tab (Z.to_nat k) 0); [done|lia].
Qed.

Lemma length_pick l tab : length (pick l tab) = length tab.
Proof. apply length_map. Qed.

Lemma pick_bits n l tab : Forall isbit l -> within (Z.of_nat (length l)) tab -> length tab = n -> bits n (pick l tab).
Proof.
  intros Hl Hw Hn. split; [by rewrite length_pick|]. apply Forall_fmap. eapply Forall_impl; [exact Hw|].
  cbv beta. intros p Hp. cbn. rewrite Forall_lookup in Hl. apply (Hl (Z.to_nat p)). unfold nthZ.
  destruct (nth_lookup_or_length l (Z.to_nat p) 0); [done|lia].
Qed.

Lemma pick_pick l t1 t2 : within (Z.of_nat (length t1)) t2 -> pick (pick l t1) t2 = pick l (pick t1 t2).
Proof.
  intros Hw. unfold pick. rewrite map_map. apply map_ext_in. intros p Hp%list_elem_of_In.
  unfold within in Hw. rewrite Forall_forall in Hw. specialize (Hw p Hp).
  unfold nthZ at 1. rewrite (nth_indep (map (nthZ l) t1) 0 (nthZ l 0)) by (rewrite length_map; lia). by rewrite map_nth.
Qed.

Lemma pick_id l : pick l (seqZ 0 (Z.of_nat (length l))) = l.
Proof. apply map_nthZ. Qed.

Lemma isbit_lxor a b : isbit a -> isbit b -> isbit (Z.lxor a b) /\ s8 (Z.lxor a b) = Z.lxor a b.
Proof. unfold isbit. intros [-> | ->] [-> | ->]; cbn; auto. Qed.

Lemma xors_bits n a b : bits n a -> bits n b -> bits n (xors a b).
Proof.
  intros [<- Ba] [Lb Bb]. revert b Lb Bb. induction Ba as [|x a Hx Ha IH]; intros [|y b] Lb Bb; try done.
  apply Forall_cons in Bb as [Hy Bb]. cbn in Lb. destruct (IH b ltac:(lia) Bb) as [L B]. split; [cbn; unfold xors in *; lia|].
  apply Forall_cons. split; [by apply isbit_lxor|done].
Qed.

Lemma lookup_bits l k : Forall isbit l -> 0 <= k < Z.of_nat (length l) -> l !! Z.to_nat k = Some (nthZ l k) /\ isbit (nthZ l k).
Proof.
  intros Hl Hk. assert (l !! Z.to_nat k = Some (nthZ l k)) as E.
  { unfold nthZ. destruct (nth_lookup_or_length l (Z.to_nat k) 0); [done|lia]. }
  split; [done|]. rewrite Forall_lookup in Hl. by apply (Hl _ _ E).
Qed.

Lemma m2add_spec n a b : (n <= length a)%nat -> (n <= length b)%nat -> Forall isbit a -> Forall isbit b ->
  m2add a b (Z.of_nat n) = Some (xors (take n a) (take n b)).
Proof.
  intros Ha Hb Fa Fb. assert (length (xors (take n a) (take n b)) = n) as Hl.
  { unfold xors. rewrite length_zip_with, !length_take. lia. }
  rewrite <- (map_nthZ (xors _ _)), Hl. apply arr_Some. intros k Hk.
  rewrite !aget_nthZ by lia. cbn. f_equal.
  destruct (lookup_bits a k Fa ltac:(lia)) as [Ea Ba]. destruct (lookup_bits b k Fb ltac:(lia)) as [Eb Bb].
  rewrite (proj2 (isbit_lxor _ _ Ba Bb)). unfold nthZ at 3. symmetry. apply nth_lookup_Some.
  unfold xors. rewrite lookup_zip_with, !lookup_take_lt, Ea, Eb by lia. done.
Qed.

Lemma xors_xors a b : length a = length b -> xors a (xors a b) = b.
Proof.
  revert b. induction a as [|x a IH]; intros [|y b] Hl; try done. unfold xors in *. cbn.
  rewrite IH by (cbn in Hl; lia). by rewrite <- Z.lxor_assoc, Z.lxor_nilpotent, Z.lxor_0_l.
Qed.

(** ** The cipher undoes itself *)

Lemma isbit_land1 x : isbit (Z.land x 1).
Proof.
  unfold isbit. assert (Z.land x 1 = x mod 2) as -> by (apply (Z.land_ones x 1); lia).
  pose proof (Z.mod_pos_bound x 2). lia.
Qed.

Lemma Sboxes_length : length Sboxes = 512%nat.
Proof. vm_compute. reflexivity. Qed.

Lemma rowcol b0 b1 b2 b3 b4 b5 : isbit b0 -> isbit b1 -> isbit b2 -> isbit b3 -> isbit b4 -> isbit b5 ->
  0 <= Z.lor (s16 (Z.shiftl (Z.lor (Z.shiftl 0 1) b0) 1)) b5 < 4 /\
  0 <= Z.lor (s16 (Z.shiftl (Z.lor (s16 (Z.shiftl (Z.lor (s16 (Z.shiftl (Z.lor (Z.shiftl 0 1) b1) 1)) b2) 1)) b3) 1)) b4 < 16.
Proof. intros [-> | ->] [-> | ->] [-> | ->] [-> | ->] [-> | ->] [-> | ->]; vm_compute; intuition discriminate. Qed.

Lemma sbox_spec boxno l tempout : 0 <= boxno < 8 -> bits 6 l ->
  exists o t, sbox boxno l tempout = Some (o, t) /\ bits 4 o.
Proof.
  intros Hb [Hl Hf]. destruct l as [|b0 [|b1 [|b2 [|b3 [|b4 [|b5 [|]]]]]]]; try done.
  repeat (apply Forall_cons in Hf as [? Hf]).
  destruct (rowcol b0 b1 b2 b3 b4 b5) as [Hr Hc]; [done..|].
  unfold sbox. set (row := Z.lor _ b5) in *. set (col := Z.lor _ b4) in *. cbv zeta.
  rewrite aget_nthZ by (rewrite Sboxes_length; lia). cbn [mbind option_bind].
  do 2 eexists. split; [reflexivity|]. split; [done|]. repeat (apply Forall_cons; split; [apply isbit_land1|]). constructor.
Qed.

Lemma bits_app n k a b : bits n a -> bits k b -> bits (n + k) (a ++ b).
Proof. intros [L F] [L' F']. split; [rewrite length_app; lia|by apply Forall_app]. Qed.

Lemma bits_sub n l o k : bits n l -> (o + k <= n)%nat -> bits k (sub l o k).
Proof. intros [L F] H. split; [apply length_sub; lia|]. by apply Forall_take, Forall_drop. Qed.

Lemma dosboxes_loop_spec n : forall boxno ibits tempout, 0 <= boxno -> boxno + Z.of_nat n <= 8 -> bits (6 * n) ibits ->
  exists o, dosboxes_loop n boxno ibits tempout = Some o /\ bits (4 * n) o.
Proof.
  induction n as [|n IH]; intros boxno ibits tempout Hb Hn Hi; cbn [dosboxes_loop].
  { exists []. split; [done|]. by split. }
  destruct (sbox_spec boxno (sub ibits 0 6) tempout) as (o & t & -> & Ho); [lia|apply (bits_sub _ _ _ _ Hi); lia|].
  cbn [mbind option_bind]. destruct (IH (boxno + 1) (drop 6 ibits) t) as (o' & -> & Ho'); [lia|lia| |].
  { destruct Hi as [L F]. split; [rewrite length_drop; lia|by apply Forall_drop]. }
  exists (o ++ o'). split; [done|]. replace (4 * S n)%nat with (4 + 4 * n)%nat by lia. by apply (bits_app 4 (4 * n)).
Qed.

Lemma dosboxes_spec ibits : bits 48 ibits -> exists o, dosboxes ibits = Some o /\ bits 32 o.
Proof.
  intros Hi. assert (0 + Z.of_nat 8 <= 8) as H8 by lia.
  exact (dosboxes_loop_spec 8 0 ibits 0 (Z.le_refl 0) H8 Hi).
Qed.

(** The static data between calls. *)
Record des_ok (s : des) : Prop := {
  ok_E : length (E s) = 48%nat /\ within 32 (E s);
  ok_Ki : length (Ki s) = 16%nat /\ Forall (bits 48) (Ki s)
}.

Definition feistel (e k right : list Z) : list Z := pick (default [] (dosboxes (xors (pick right e) k))) P.
Fixpoint rounds (e : list Z) (ks : list (list Z)) (l r : list Z) : list Z * list Z :=
  match ks with [] => (l, r) | k :: ks => rounds e ks r (xors (feistel e k r) l) end.
Definition keys (s : des) (edflag : Z) : list (list Z) := if edflag =? 0 then Ki s else reverse (Ki s).

Lemma P_within : within 32 P.
Proof. apply Forall_forall. intros p Hp%list_elem_of_In. assert (forallb (fun p => (0 <=? p) && (p <? 32)) P = true) as Hf by (vm_compute; reflexivity).
  rewrite forallb_forall in Hf. specialize (Hf p Hp). apply andb_true_iff in Hf as [?%Z.leb_le ?%Z.ltb_lt]. lia. Qed.

Lemma feistel_bits e k r : length e = 48%nat -> within 32 e -> bits 48 k -> bits 32 r ->
  exists t, dosboxes (xors (pick r e) k) = Some t /\ bits 32 t /\ bits 32 (feistel e k r).
Proof.
  intros Le We Hk [Lr Fr]. destruct (dosboxes_spec (xors (pick r e) k)) as (t & Et & Ht).
  { apply xors_bits; [|done]. apply pick_bits; [done|by rewrite Lr|done]. }
  exists t. split; [done|]. split; [done|]. unfold feistel. rewrite Et. change (default [] (Some t)) with t. destruct Ht as [Lt Ft].
  apply pick_bits; [done|rewrite Lt; exact P_within|done].
Qed.

Lemma key_lookup s ed n : des_ok s -> 0 <= n < 16 ->
  exists k, aget (Ki s) (if ed =? 0 then n else NITER - 1 - n) = Some k /\ bits 48 k /\
    drop (Z.to_nat n) (keys s ed) = k :: drop (S (Z.to_nat n)) (keys s ed).
Proof.
  intros [_ [Lk Fk]] Hn. destruct (aget_is_Some (Ki s) (if ed =? 0 then n else NITER - 1 - n)) as [k Hk].
  { rewrite Lk. unfold NITER. destruct (ed =? 0); lia. }
  exists k. split; [done|]. unfold aget in Hk. destruct (_ <? 0) eqn:Eneg; [done|]. split.
  - rewrite Forall_lookup in Fk. by apply (Fk _ _ Hk).
  - apply drop_S. unfold keys. destruct (ed =? 0); [done|]. rewrite <- Hk.
    rewrite reverse_lookup by lia. f_equal. unfold NITER. lia.
Qed.

Lemma take_bits n l : bits n l -> take n l = l.
Proof. intros [L _]. apply take_ge. lia. Qed.

Lemma cypher_loop_spec s ed m : forall n t1 t2 l r, des_ok s -> 0 <= n -> n + Z.of_nat m = 16 -> bits 32 l -> bits 32 r ->
  cypher_loop m s ed n t1 t2 l r = Some (rounds (E s) (drop (Z.to_nat n) (keys s ed)) l r).
Proof.
  induction m as [|m IH]; intros n t1 t2 l r Hs Hn Hm Hl Hr; cbn [cypher_loop].
  { rewrite drop_ge; [done|]. destruct Hs as [_ [Lk _]]. unfold keys. destruct (ed =? 0); rewrite ?length_reverse; lia. }
  pose proof Hs as [[LE WE] _]. pose proof Hr as [Lr Fr]. pose proof Hl as [Ll Fl].
  destruct (key_lookup s ed n Hs ltac:(lia)) as (k & Ek & Hk & Ed). rewrite Ed. cbn [rounds].
  assert (bits 48 (pick r (E s))) as Hp by (apply pick_bits; [done|by rewrite Lr|done]).
  destruct (feistel_bits (E s) k r LE WE Hk Hr) as (t & Et & Ht & Hf).
  rewrite permute_spec; [|unfold NOKB; lia|rewrite Lr; done]. cbn [mbind option_bind]. rewrite Ek. cbn [mbind option_bind].
  change NOKB with (Z.of_nat 48). rewrite m2add_spec; [|destruct Hp; lia|destruct Hk; lia|apply Hp|apply Hk].
  rewrite (take_bits _ _ Hp), (take_bits _ _ Hk). cbn [mbind option_bind]. rewrite Et. cbn [mbind option_bind].
  assert (permute t P (NIB / 2) = Some (feistel (E s) k r)) as ->.
  { unfold feistel. rewrite Et. change (default [] (Some t)) with t. apply permute_spec; [done|]. rewrite (proj1 Ht). exact P_within. }
  cbn [mbind option_bind]. change (NIB / 2) with (Z.of_nat 32).
  set (f := feistel (E s) k r) in *. pose proof Hf as [Lf Ff].
  assert (take 32 (over f (xors (pick r (E s)) k)) = f) as Eo by (unfold over; rewrite <- Lf; apply take_app_length).
  assert (Forall isbit (over f (xors (pick r (E s)) k))) as Fo.
  { unfold over. apply Forall_app. split; [done|]. by apply Forall_drop, (xors_bits 48). }
  rewrite m2add_spec; [|unfold over; rewrite length_app; lia|lia|done|done]. rewrite Eo, (take_bits _ _ Hl). cbn [mbind option_bind].
  pose proof (xors_bits 32 f l Hf Hl) as Hx.
  rewrite (bcopy_spec r) by lia. rewrite (take_bits 32 r Hr : take (Z.to_nat (Z.of_nat 32)) r = r). cbn [mbind option_bind].
  rewrite (bcopy_spec (xors f l)) by (rewrite (proj1 Hx); lia). rewrite (take_bits 32 _ Hx : take (Z.to_nat (Z.of_nat 32)) (xors f l) = xors f l).
  cbn [mbind option_bind]. rewrite IH by (done || lia). do 2 f_equal. f_equal. lia.
Qed.

Lemma rounds_bits e ks : length e = 48%nat -> within 32 e -> Forall (bits 48) ks -> forall l r, bits 32 l -> bits 32 r ->
  bits 32 (rounds e ks l r).1 /\ bits 32 (rounds e ks l r).2.
Proof.
  intros Le We Hks. induction Hks as [|k ks Hk Hks IH]; intros l r Hl Hr; [done|]. cbn [rounds].
  destruct (feistel_bits e k r Le We Hk Hr) as (_ & _ & _ & Hf). apply IH; [done|]. by apply xors_bits.
Qed.

Lemma rounds_app e ks1 ks2 l r : rounds e (ks1 ++ ks2) l r = rounds e ks2 (rounds e ks1 l r).1 (rounds e ks1 l r).2.
Proof. revert l r. induction ks1 as [|k ks1 IH]; intros l r; [done|]. cbn. apply IH. Qed.

Lemma rounds_undo e ks : length e = 48%nat -> within 32 e -> Forall (bits 48) ks -> forall l r, bits 32 l -> bits 32 r ->
  rounds e (reverse ks) (rounds e ks l r).2 (rounds e ks l r).1 = (r, l).
Proof.
  intros Le We Hks. induction Hks as [|k ks Hk Hks IH]; intros l r Hl Hr; [done|]. cbn [rounds].
  destruct (feistel_bits e k r Le We Hk Hr) as (_ & _ & _ & Hf). pose proof (xors_bits 32 _ _ Hf Hl) as Hx.
  rewrite reverse_cons, rounds_app, IH by done. cbn [fst snd rounds].
  rewrite xors_xors; [done|]. destruct Hf, Hl. lia.
Qed.

Lemma within_b n tab : forallb (fun p => (0 <=? p) && (p <? n)) tab = true -> within n tab.
Proof.
  intros Hf. apply Forall_forall. intros p Hp%list_elem_of_In. rewrite forallb_forall in Hf.
  specialize (Hf p Hp). apply andb_true_iff in Hf as [?%Z.leb_le ?%Z.ltb_lt]. lia.
Qed.

Lemma cypher_spec s x ed : des_ok s -> bits 64 x ->
  let lr := rounds (E s) (keys s ed) (take 32 x) (drop 32 x) in
  cypher s x ed = Some (lr.2 ++ lr.1) /\ bits 64 (lr.2 ++ lr.1).
Proof.
  intros Hs Hx lr. pose proof Hx as [Lx Fx]. pose proof Hs as [[LE WE] [LK FK]].
  assert (bits 32 (take 32 x)) as Hl by (split; [rewrite length_take; lia|by apply Forall_take]).
  assert (bits 32 (drop 32 x)) as Hr by (split; [rewrite length_drop; lia|by apply Forall_drop]).
  assert (Forall (bits 48) (keys s ed)) as Hk.
  { unfold keys. destruct (ed =? 0); [done|]. by apply Forall_reverse. }
  destruct (rounds_bits (E s) (keys s ed) LE WE Hk _ _ Hl Hr) as [B1 B2]. fold lr in B1, B2.
  split; [|apply (bits_app 32 32); done]. unfold cypher. change (NIB / 2) with 32. change (Z.to_nat 32) with 32%nat.
  rewrite (bcopy_spec x) by lia. change (Z.to_nat 32) with 32%nat. cbn [mbind option_bind].
  rewrite (bcopy_spec (drop 32 x)) by (rewrite (proj1 Hr); lia). change (Z.to_nat 32) with 32%nat. rewrite (take_bits _ _ Hr).
  cbn [mbind option_bind]. change (Z.to_nat NITER) with 16%nat. rewrite cypher_loop_spec by (done || lia).
  change (drop (Z.to_nat 0) (keys s ed)) with (keys s ed). fold lr.
  cbn [mbind option_bind]. destruct lr as [l r]. cbn [fst snd] in *.
  rewrite (bcopy_spec r) by (rewrite (proj1 B2); lia). cbn [mbind option_bind].
  rewrite (bcopy_spec l) by (rewrite (proj1 B1); lia). cbn [mbind option_bind]. change (Z.to_nat 32) with 32%nat.
  by rewrite (take_bits _ _ B1), (take_bits _ _ B2).
Qed.

Lemma encrypt_spec s b ed : des_ok s -> bits 64 b ->
  let lr := rounds (E s) (keys s ed) (take 32 (pick b IP)) (drop 32 (pick b IP)) in
  encrypt s b ed = Some (pick (lr.2 ++ lr.1) IP1) /\ bits 64 (lr.2 ++ lr.1) /\ bits 64 (pick (lr.2 ++ lr.1) IP1).
Proof.
  intros Hs Hb lr. pose proof Hb as [Lb Fb].
  assert (within 64 IP /\ within 64 IP1) as [W W1] by (split; apply within_b; vm_compute; reflexivity).
  assert (bits 64 (pick b IP)) as Hi by (apply pick_bits; [done|by rewrite Lb|done]).
  destruct (cypher_spec s (pick b IP) ed Hs Hi) as [Ec Hc]. fold lr in Ec, Hc. split; [|split; [done|]].
  - unfold encrypt. rewrite permute_spec; [|done|rewrite Lb; exact W]. cbn [mbind option_bind]. rewrite Ec. cbn [mbind option_bind].
    apply permute_spec; [done|]. rewrite (proj1 Hc). exact W1.
  - apply pick_bits; [apply Hc|rewrite (proj1 Hc); exact W1|done].
Qed.

Lemma encrypt_undo s b ed ed' : des_ok s -> bits 64 b -> (ed =? 0) = negb (ed' =? 0) ->
  exists c, encrypt s b ed = Some c /\ bits 64 c /\ encrypt s c ed' = Some b.
Proof.
  intros Hs Hb Hed. destruct (encrypt_spec s b ed Hs Hb) as (E1 & H1 & H2).
  set (lr := rounds _ _ _ _) in *. exists (pick (lr.2 ++ lr.1) IP1). split; [done|]. split; [done|].
  destruct (encrypt_spec s _ ed' Hs H2) as (-> & _ & _). f_equal.
  assert (pick IP1 IP = seqZ 0 64 /\ pick IP IP1 = seqZ 0 64) as [Ea Eb] by (split; vm_compute; reflexivity).
  rewrite pick_pick, Ea by (apply within_b; vm_compute; reflexivity).
  replace 64 with (Z.of_nat (length (lr.2 ++ lr.1))) by (rewrite (proj1 H1); done). rewrite pick_id.
  pose proof Hs as [[LE WE] [LK FK]]. pose proof Hb as [Lb Fb].
  assert (bits 64 (pick b IP)) as [Li Fi] by (apply pick_bits; [done|rewrite Lb; apply within_b; vm_compute; reflexivity|done]).
  assert (bits 32 (take 32 (pick b IP))) as Hl by (split; [rewrite length_take; lia|by apply Forall_take]).
  assert (bits 32 (drop 32 (pick b IP))) as Hr by (split; [rewrite length_drop; lia|by apply Forall_drop]).
  assert (Forall (bits 48) (keys s ed)) as Hk.
  { unfold keys. destruct (ed =? 0); [done|]. by apply Forall_reverse. }
  destruct (rounds_bits (E s) (keys s ed) LE WE Hk _ _ Hl Hr) as [B1 B2]. fold lr in B1, B2.
  assert (take 32 (lr.2 ++ lr.1) = lr.2 /\ drop 32 (lr.2 ++ lr.1) = lr.1) as [-> ->].
  { rewrite <- (proj1 B2). by rewrite take_app_length, drop_app_length. }
  assert (keys s ed' = reverse (keys s ed)) as ->.
  { unfold keys. rewrite Hed. destruct (ed' =? 0); cbn [negb]; [by rewrite reverse_involutive|done]. }
  unfold lr. rewrite !rounds_undo by done. cbn [fst snd]. rewrite take_drop.
  rewrite pick_pick, Eb by (apply within_b; vm_compute; reflexivity). rewrite <- (pick_id b) at 2. by rewrite Lb.
Qed.

(** ** The key schedule *)

Definition rot1 (l : list Z) : list Z := match l with [] => [] | x :: l => l ++ [x] end.
Definition rotl (n : nat) (l : list Z) : list Z := Nat.iter n rot1 l.

Lemma length_rot1 l : length (rot1 l) = length l.
Proof. destruct l; [done|]. cbn. rewrite length_app. cbn. lia. Qed.
Lemma length_rotl n l : length (rotl n l) = length l.
Proof. induction n as [|n IH]; [done|]. change (rotl (S n) l) with (rot1 (rotl n l)). by rewrite length_rot1. Qed.
Lemma rotl_add n k l : rotl n (rotl k l) = rotl (n + k) l.
Proof. unfold rotl. by rewrite Nat.iter_add. Qed.

Lemma rotl_drop n l : (n <= length l)%nat -> rotl n l = drop n l ++ take n l.
Proof.
  induction n as [|n IH]; intros Hn; [by rewrite drop_0, app_nil_r|]. change (rotl (S n) l) with (rot1 (rotl n l)).
  rewrite IH by lia.
  destruct (lookup_lt_is_Some_2 l n) as [x Hx]; [lia|]. rewrite (drop_S l x n Hx), (take_S_r l n x Hx). cbn. by rewrite app_assoc.
Qed.
Lemma rotl_full l : rotl (length l) l = l.
Proof. rewrite rotl_drop by done. by rewrite drop_all, take_ge. Qed.

Lemma aget_mid (pre : list Z) x post : aget (pre ++ x :: post) (Z.of_nat (length pre)) = Some x.
Proof. unfold aget. rewrite (proj2 (Z.ltb_ge _ 0)), Nat2Z.id by lia. apply list_lookup_middle. done. Qed.
Lemma aset_mid (pre : list Z) x y post : aset (pre ++ x :: post) (Z.of_nat (length pre)) y = Some (pre ++ y :: post).
Proof.
  rewrite aset_is_Some by (rewrite length_app; cbn; lia). rewrite Nat2Z.id. f_equal.
  rewrite insert_app_r_alt by lia. by rewrite Nat.sub_diag.
Qed.

Lemma lrot_bytes_spec rest : forall pre x post,
  exists z, lrot_bytes (length rest) (pre ++ x :: rest ++ post) (Z.of_nat (length pre)) =
  Some (pre ++ rest ++ z :: post, Z.of_nat (length (pre ++ rest))).
Proof.
  induction rest as [|y rest IH]; intros pre x post; cbn [lrot_bytes length].
  { exists x. by rewrite app_nil_r. }
  replace (pre ++ x :: (y :: rest) ++ post) with ((pre ++ [x]) ++ y :: rest ++ post) by (by rewrite <- app_assoc).
  replace (Z.of_nat (length pre) + 1) with (Z.of_nat (length (pre ++ [x]))) by (rewrite length_app; cbn; lia).
  rewrite aget_mid. cbn [mbind option_bind]. rewrite <- app_assoc. cbn [app]. rewrite aset_mid. cbn [mbind option_bind].
  replace (Z.of_nat (length (pre ++ [x]))) with (Z.of_nat (length (pre ++ [y]))) by (rewrite !length_app; done).
  replace (pre ++ y :: y :: rest ++ post) with ((pre ++ [y]) ++ y :: rest ++ post) by (by rewrite <- app_assoc).
  destruct (IH (pre ++ [y]) y post) as [z ->]. exists z. by rewrite <- !app_assoc.
Qed.

Lemma lrot_spec ns : forall pre blk post, blk <> [] ->
  lrot ns (pre ++ blk ++ post) (Z.of_nat (length pre)) (Z.of_nat (length blk)) = Some (pre ++ rotl ns blk ++ post).
Proof.
  induction ns as [|ns IH]; intros pre blk post Hne; [done|]. destruct blk as [|x rest]; [done|]. cbn [lrot].
  cbn [app]. rewrite aget_mid. cbn [mbind option_bind].
  replace (Z.to_nat (Z.of_nat (length (x :: rest)) - 1)) with (length rest) by (cbn [length]; lia).
  destruct (lrot_bytes_spec rest pre x post) as [z ->]. cbn [mbind option_bind]. rewrite app_assoc, aset_mid. cbn [mbind option_bind].
  replace ((pre ++ rest) ++ x :: post) with (pre ++ rot1 (x :: rest) ++ post) by (cbn; by rewrite <- !app_assoc).
  replace (length (x :: rest)) with (length (rot1 (x :: rest))) by apply length_rot1. rewrite IH.
  - change (rotl (S ns)) with (fun l => rotl (1 + ns) l). cbv beta. rewrite Nat.add_comm, <- rotl_add. done.
  - intros E0. apply (f_equal length) in E0. by rewrite length_rot1 in E0.
Qed.

(** The number of places [C] has been rotated by after [n] rounds. *)
Definition turned (n : nat) : nat := Z.to_nat (foldr Z.add 0 (take n shifts)).
(** The key of round [n]: only the first half of the choice has turned. *)
Definition round_key (c d : list Z) (n : nat) : list Z := pick (rotl (turned (S n)) c ++ d) PC2.

Lemma turned_S n : (n < 16)%nat -> exists sh, aget shifts (Z.of_nat n) = Some (Z.of_nat sh) /\ turned (S n) = (sh + turned n)%nat.
Proof.
  intros Hn. do 16 (destruct n as [|n]; [first [by exists 1%nat|by exists 2%nat]|]). lia.
Qed.

Lemma pick_app l1 l2 tab : within (Z.of_nat (length l1)) tab -> pick (l1 ++ l2) tab = pick l1 tab.
Proof.
  intros Hw. apply map_ext_in. intros p Hp%list_elem_of_In. unfold within in Hw. rewrite Forall_forall in Hw.
  specialize (Hw p Hp). unfold nthZ. apply app_nth1. lia.
Qed.

Lemma setkey_loop_spec c d b tail m : forall n, length c = 28%nat -> length d = 28%nat -> length b = 28%nat -> (n + m <= 16)%nat ->
  setkey_loop m (Z.of_nat n) (rotl (turned n) c ++ d ++ rotl (turned n) b ++ tail) =
  Some (map (round_key c d) (seq n m), rotl (turned (n + m)) c ++ d ++ rotl (turned (n + m)) b ++ tail).
Proof.
  induction m as [|m IH]; intros n Lc Ld Lb Hn; cbn [setkey_loop seq map].
  { by rewrite Nat.add_0_r. }
  destruct (turned_S n ltac:(lia)) as (sh & -> & Et). cbn [mbind option_bind]. rewrite Nat2Z.id.
  assert (forall l k, length l = 28%nat -> length (rotl k l) = 28%nat) as Hlen by (intros l k <-; apply length_rotl).
  assert (forall l k, length l = 28%nat -> rotl k l <> []) as Hne.
  { intros l k Hl E0. specialize (Hlen l k Hl). by rewrite E0 in Hlen. }
  pose proof (lrot_spec sh [] (rotl (turned n) c) (d ++ rotl (turned n) b ++ tail) (Hne _ _ Lc)) as E1.
  rewrite Hlen in E1 by done. cbn [app length] in E1. change (NUKB / 2) with (Z.of_nat 28). change 0 with (Z.of_nat 0). rewrite E1.
  cbn [mbind option_bind]. rewrite rotl_add, <- Et.
  pose proof (lrot_spec sh (rotl (turned (S n)) c ++ d) (rotl (turned n) b) tail (Hne _ _ Lb)) as E2.
  rewrite length_app, !Hlen, Ld in E2 by done. rewrite rotl_add, <- Et, <- !app_assoc in E2.
  change NUKB with (Z.of_nat (28 + 28)). rewrite E2. cbn [mbind option_bind].
  assert (within 56 PC2) as Wp by (apply within_b; vm_compute; reflexivity).
  assert (permute (rotl (turned (S n)) c ++ d ++ rotl (turned (S n)) b ++ tail) PC2 NOKB = Some (round_key c d n)) as ->.
  { rewrite permute_spec; [|done|].
    - f_equal. rewrite app_assoc. apply pick_app. by rewrite length_app, Hlen, Ld by done.
    - eapply Forall_impl; [exact Wp|]. cbv beta. intros p Hp. rewrite !length_app, !Hlen, Ld by done. lia. }
  cbn [mbind option_bind]. replace (Z.of_nat n + 1) with (Z.of_nat (S n)) by lia. rewrite IH by (done || lia).
  cbn [mbind option_bind]. by replace (S n + m)%nat with (n + S m)%nat by lia.
Qed.

Lemma PC1_within : within 64 PC1.
Proof. apply within_b. vm_compute. reflexivity. Qed.

Lemma setkey_spec key beyond s : length key = 64%nat -> (28 <= length beyond)%nat ->
  setkey key beyond s =
    Some (beyond, Des (E s) (map (round_key (take 28 (pick key PC1)) (drop 28 (pick key PC1))) (seq 0 16)) (seed s)).
Proof.
  intros Lk Lb. unfold setkey. rewrite permute_spec; [|done|rewrite Lk; exact PC1_within]. cbn [mbind option_bind].
  set (cd := pick key PC1). assert (length cd = 56%nat) as Lcd by (unfold cd; rewrite length_pick; done).
  assert (length (take 28 cd) = 28%nat) as Lc by (rewrite length_take; lia).
  assert (length (drop 28 cd) = 28%nat) as Ld by (rewrite length_drop; lia).
  assert (length (take 28 beyond) = 28%nat) as Lbb by (rewrite length_take; lia).
  pose proof (setkey_loop_spec (take 28 cd) (drop 28 cd) (take 28 beyond) (drop 28 beyond) 16 0 Lc Ld Lbb ltac:(lia)) as El.
  change (turned 0) with 0%nat in El. change (turned (0 + 16)) with 28%nat in El.
  assert (forall l, length l = 28%nat -> rotl 28 l = l) as Hfull by (intros l <-; apply rotl_full).
  rewrite !Hfull in El by done. change (rotl 0 (take 28 cd)) with (take 28 cd) in El. change (rotl 0 (take 28 beyond)) with (take 28 beyond) in El.
  rewrite !(take_drop 28 beyond), !(app_assoc (take 28 cd)), !(take_drop 28 cd) in El. change (Z.to_nat NITER) with 16%nat. change (Z.of_nat 0) with 0 in El.
  rewrite El. reflexivity.
Qed.

(** Positions of the key that no round key depends on: the last bit of each
    byte, and four bits of the half that does not turn. *)
Definition dead_bits : list Z := [7; 15; 23; 31; 39; 47; 55; 63; 14; 53; 13; 19].
Definition live (p : Z) : bool := negb (bool_decide (p ∈ dead_bits)).

Lemma round_key_pick key c d n : length c = 28%nat -> length d = 28%nat -> round_key (pick key c) (pick key d) n = pick key (round_key c d n).
Proof.
  intros Lc Ld. unfold round_key. rewrite <- pick_pick.
  - f_equal. unfold pick. rewrite map_app. f_equal. generalize (turned (S n)) as k. intros k.
    induction k as [|k IH]; [done|]. change (rotl (S k) (map (nthZ key) c)) with (rot1 (rotl k (map (nthZ key) c))).
    change (rotl (S k) c) with (rot1 (rotl k c)). rewrite IH. destruct (rotl k c); [done|]. cbn. by rewrite map_app.
  - rewrite length_app, length_rotl, Lc, Ld. apply within_b. vm_compute. reflexivity.
Qed.

Lemma round_key_live n p : (n < 16)%nat -> p ∈ round_key (take 28 PC1) (drop 28 PC1) n -> live p = true /\ 0 <= p < 64.
Proof.
  intros Hn Hp. assert (forallb (fun k => forallb (fun q => live q && (0 <=? q) && (q <? 64)) (round_key (take 28 PC1) (drop 28 PC1) k)) (seq 0 16) = true) as Hf
    by (vm_compute; reflexivity).
  rewrite forallb_forall in Hf. specialize (Hf n ltac:(apply in_seq; lia)). rewrite forallb_forall in Hf.
  specialize (Hf p ltac:(by apply list_elem_of_In)). apply andb_true_iff in Hf as [[? ?%Z.leb_le]%andb_true_iff ?%Z.ltb_lt]. split; [done|lia].
Qed.

Lemma setkey_live key key' beyond s : length key = 64%nat -> length key' = 64%nat -> (28 <= length beyond)%nat ->
  (forall p, 0 <= p < 64 -> live p = true -> nthZ key p = nthZ key' p) -> setkey key beyond s = setkey key' beyond s.
Proof.
  intros L L' Lb Hp. rewrite !setkey_spec by done. do 3 f_equal. apply map_ext_in. intros n Hn%in_seq.
  assert (forall k, take 28 (pick k PC1) = pick k (take 28 PC1) /\ drop 28 (pick k PC1) = pick k (drop 28 PC1)) as Hk.
  { intros k. split; reflexivity. }
  destruct (Hk key) as [-> ->]. destruct (Hk key') as [-> ->]. rewrite !round_key_pick by done.
  apply map_ext_in. intros p Hin%list_elem_of_In. destruct (round_key_live n p ltac:(lia) Hin). by apply Hp.
Qed.

(** ** Passwords *)

Definition half (b : Z) : Z := Z.shiftr b 1.
(** The bits of a byte, the most significant first. *)
Definition byte_bits (b : Z) : list Z := map (fun k => Z.land (Nat.iter k half b) 1) [7; 6; 5; 4; 3; 2; 1; 0]%nat.

Lemma unpack_spec bs junk : length bs = 8%nat -> length junk = 56%nat ->
  unpack (bs ++ junk) 64 = Some (concat (map byte_bits bs)).
Proof.
  intros Lb Lj. do 8 (destruct bs as [|? bs]; [done|]). destruct bs; [|done].
  do 56 (destruct junk as [|? junk]; [done|]). destruct junk; [|done].
  lazy -[Z.land Z.shiftr]. reflexivity.
Qed.

Lemma byte_bits_bits b : bits 8 (byte_bits b).
Proof. split; [done|]. unfold byte_bits. apply Forall_fmap, Forall_forall. intros k _. apply isbit_land1. Qed.

Lemma concat_bits bs : bits (8 * length bs) (concat (map byte_bits bs)).
Proof.
  induction bs as [|b bs IH]; [done|]. cbn [map concat length].
  replace (8 * S (length bs))%nat with (8 + 8 * length bs)%nat by lia. by apply bits_app, IH; apply byte_bits_bits.
Qed.

Lemma maptab_in i : 0 <= i < 64 -> exists c, aget maptab i = Some c /\ c ∈ maptab.
Proof.
  intros Hi. destruct (aget_is_Some maptab i) as [c Hc]; [exact Hi|]. exists c. split; [done|].
  unfold aget in Hc. destruct (i <? 0); [done|]. by eapply list_elem_of_lookup_2.
Qed.

Lemma sixbits_spec bp : forall i sixbit, 0 <= i -> 0 <= sixbit < 2 ^ (i mod 6) -> Forall isbit bp ->
  exists l, sixbits bp i sixbit = Some l /\ Forall (fun c => c ∈ maptab) l /\
    Z.of_nat (length l) = (i mod 6 + Z.of_nat (length bp)) / 6 + 1.
Proof.
  induction bp as [|b bp IH]; intros i sixbit Hi Hs Hb; cbn [sixbits].
  - assert (2 ^ (i mod 6) <= 2 ^ 6) as Hp by (apply Z.pow_le_mono_r; Z.to_euclidean_division_equations; lia).
    destruct (maptab_in sixbit ltac:(lia)) as (c & -> & Hc). cbn. eexists. split; [reflexivity|]. split.
    + by apply Forall_cons.
    + cbn. rewrite Z.add_0_r, Z.div_small; [done|]. apply Z.mod_pos_bound. lia.
  - apply Forall_cons in Hb as [Hb Hbs].
    assert (0 <= sixbit * 2 + b < 2 ^ (i mod 6 + 1) /\ 2 ^ (i mod 6 + 1) <= 2 ^ 6) as [Hs' Hp].
    { assert (0 <= i mod 6 < 6) by (apply Z.mod_pos_bound; lia). rewrite Z.pow_add_r, Z.pow_1_r by lia.
      split; [destruct Hb as [-> | ->]; lia|]. change (2 ^ 6) with (2 ^ 5 * 2).
      apply Z.mul_le_mono_nonneg_r; [lia|]. apply Z.pow_le_mono_r; lia. }
    rewrite Z.shiftl_mul_pow2, Z.pow_1_r, s16_small by lia.
    destruct (Z.eqb_spec (i mod 6) (6 - 1)) as [E6|N6].
    + destruct (maptab_in (sixbit * 2 + b) ltac:(lia)) as (c & -> & Hc). cbn [mbind option_bind].
      assert ((i + 1) mod 6 = 0) as E0 by (Z.to_euclidean_division_equations; lia).
      destruct (IH (i + 1) 0) as (l & -> & Hl & Hlen); [lia|rewrite E0; lia|done|]. cbn. eexists. split; [reflexivity|]. split.
      * apply Forall_cons. done.
      * cbn [length]. rewrite E0 in Hlen. rewrite E6. rewrite Nat2Z.inj_succ, Hlen. cbn [length]. Z.to_euclidean_division_equations; lia.
    + assert ((i + 1) mod 6 = i mod 6 + 1) as E1 by (Z.to_euclidean_division_equations; lia).
      destruct (IH (i + 1) (sixbit * 2 + b)) as (l & -> & Hl & Hlen); [lia|by rewrite E1|done|].
      exists l. split; [done|]. split; [done|]. rewrite Hlen, E1. cbn [length]. f_equal. f_equal. lia.
Qed.

Lemma perturb_E_spec l : forall s, length (perturb_E l s).1 = length l /\ within 32 (perturb_E l s).1 /\ Ki (perturb_E l s).2 = Ki s.
Proof.
  induction l as [|e l IH]; intros s; cbn [perturb_E]; [split; [done|]; split; [constructor|done]|].
  destruct (rand s) as [r s1] eqn:Er. specialize (IH s1). destruct (perturb_E l s1) as [es s2]. cbn [fst snd] in *.
  destruct IH as (L & W & K). split; [cbn; lia|]. split; [|injection Er as _ <-; exact K].
  apply Forall_cons. split; [|done]. apply Z.mod_pos_bound. done.
Qed.

Lemma copy_key_spec k room : Forall (fun c => c <> 0) k -> copy_key (k ++ [0]) room = Some (take room k).
Proof.
  revert room. induction k as [|c k IH]; intros room Hk; [by destruct room|]. apply Forall_cons in Hk as [Hc Hk].
  cbn [copy_key app]. rewrite (proj2 (Z.eqb_neq c 0)) by done. destruct room as [|room]; [done|]. by rewrite IH.
Qed.

Lemma length_fill_key l : (length l <= 8)%nat -> length (fill_key l) = 8%nat.
Proof. intros H. unfold fill_key. rewrite length_app, repeat_length. change (Z.to_nat (NKB / NBPC)) with 8%nat. lia. Qed.

(** What [setkey] leaves. *)
Lemma setkey_ok key beyond s : bits 64 key -> (28 <= length beyond)%nat -> length (E s) = 48%nat -> within 32 (E s) ->
  exists s', setkey key beyond s = Some (beyond, s') /\ des_ok s' /\ E s' = E s.
Proof.
  intros [Lk Fk] Lb LE WE. rewrite setkey_spec by done. eexists. split; [reflexivity|]. split; [|done].
  split; [done|]. split; [done|]. apply Forall_fmap, Forall_forall. intros n Hn. cbv beta.
  assert (take 28 (pick key PC1) = pick key (take 28 PC1) /\ drop 28 (pick key PC1) = pick key (drop 28 PC1)) as [-> ->] by (split; reflexivity).
  cbn [compose]. apply list_elem_of_In, in_seq in Hn.
  assert (length (take 28 PC1) = 28%nat /\ length (drop 28 PC1) = 28%nat) as [L1 L2] by (split; reflexivity).
  unfold compose. rewrite round_key_pick by done. apply pick_bits; [done| |].
  - apply Forall_forall. intros p Hp. rewrite Lk. apply (round_key_live n p); [lia|done].
  - unfold round_key. by rewrite length_pick.
Qed.

Definition frame_ok (fr : frame) : Prop := length (f_bkey fr) = 56%nat /\ length (f_stuff fr) = 56%nat /\ (28 <= length (f_beyond fr))%nat.

Lemma perturb_ok s0 s1 s : length (E (perturb s0 s1 s)) = 48%nat /\ within 32 (E (perturb s0 s1 s)).
Proof.
  unfold perturb. set (s' := srand _ s). pose proof (perturb_E_spec saveE s') as (L & W & _).
  destruct (perturb_E saveE s') as [es s2]. exact (conj L W).
Qed.

(** The E table and the seed that [perturb] leaves depend on the salt alone. *)
Lemma perturb_E_seed l : forall s t, seed s = seed t ->
  (perturb_E l s).1 = (perturb_E l t).1 /\ seed (perturb_E l s).2 = seed (perturb_E l t).2.
Proof.
  induction l as [|e l IH]; intros s t Hst; [done|]. cbn [perturb_E]. unfold rand. rewrite Hst.
  set (sd := s32 _). destruct (IH (Des (E s) (Ki s) sd) (Des (E t) (Ki t) sd) eq_refl) as [H1 H2].
  destruct (perturb_E l (Des (E s) (Ki s) sd)) as [es s1], (perturb_E l (Des (E t) (Ki t) sd)) as [et t1].
  cbn in H1, H2 |- *. by rewrite H1, H2.
Qed.

Lemma perturb_same salt0 salt1 s t : E (perturb salt0 salt1 s) = E (perturb salt0 salt1 t) /\
  seed (perturb salt0 salt1 s) = seed (perturb salt0 salt1 t).
Proof.
  unfold perturb. generalize (salt_loop maptab 0 salt0 salt1 (Z.lor (Z.shiftl 1 8) 1)). intros n. destruct (perturb_E_seed saveE (srand n s) (srand n t) eq_refl) as [H1 H2].
  destruct (perturb_E saveE (srand n s)) as [es s1], (perturb_E saveE (srand n t)) as [et t1]. exact (conj H1 H2).
Qed.

(** So the schedule after [perturb] and [setkey] depends on the key and the salt alone. *)
Lemma setkey_perturbed key salt0 salt1 : bits 64 key ->
  exists s', des_ok s' /\ forall beyond s, (28 <= length beyond)%nat -> setkey key beyond (perturb salt0 salt1 s) = Some (beyond, s').
Proof.
  intros Hk. destruct (perturb_ok salt0 salt1 (Des [] [] 0)) as [LE WE].
  pose proof (fun s => perturb_same salt0 salt1 s (Des [] [] 0)) as Hsame. revert LE WE Hsame.
  generalize (perturb salt0 salt1 (Des [] [] 0)) as s1. intros s1 LE WE Hsame.
  destruct (setkey_ok key (repeat 0 28) s1 Hk ltac:(done) LE WE) as (s2 & Es2 & Hs2 & _). exists s2. split; [exact Hs2|].
  intros beyond s Lb. rewrite (setkey_spec key beyond _ (proj1 Hk) Lb). destruct (Hsame s) as [-> ->].
  rewrite (setkey_spec key (repeat 0 28) s1 (proj1 Hk) ltac:(done)) in Es2. apply (inj Some) in Es2. apply (f_equal snd) in Es2. cbn [snd] in Es2. by rewrite Es2.
Qed.

Lemma crypt_spec k salt0 salt1 : Forall (fun c => c <> 0) k ->
  exists out s', length out = 11%nat /\ Forall (fun c => c ∈ maptab) out /\ des_ok s' /\
    forall fr s, frame_ok fr -> crypt fr (k ++ [0]) salt0 salt1 s = Some (salt0 :: salt1 :: out ++ [0], f_beyond fr, s').
Proof.
  intros Hk.
  assert (length (fill_key (take 8 k)) = 8%nat) as Lf by (apply length_fill_key; rewrite length_take; lia).
  pose proof (concat_bits (fill_key (take 8 k))) as Bk. rewrite Lf in Bk.
  destruct (setkey_perturbed _ salt0 salt1 Bk) as (s2 & Hs2 & Es2).
  pose proof (concat_bits password) as Bp. change (8 * length password)%nat with 64%nat in Bp.
  destruct (encrypt_undo s2 _ 0 1 Hs2 Bp eq_refl) as (c & Ec & [Lc Fc] & _).
  destruct (sixbits_spec c 0 0) as (out & Eo & Ho & Hl); [lia|split; [lia|reflexivity]|done|].
  exists out, s2. rewrite Lc in Hl. change ((0 mod 6 + Z.of_nat 64) / 6 + 1) with 11 in Hl. split; [lia|]. split; [done|]. split; [done|].
  intros fr s (Lb & Ls & Ly). unfold crypt. cbv zeta. rewrite copy_key_spec by done. cbn [mbind option_bind].
  change (Z.to_nat (NKB / NBPC)) with 8%nat. change NKB with 64. change NIB with 64. rewrite !unpack_spec by done. cbn [mbind option_bind].
  rewrite Es2 by done. cbn [mbind option_bind]. clear Es2.
  revert Bp Ec. generalize (concat (map byte_bits password)) as pw. intros pw Bp Ec.
  change (Z.to_nat 64) with 64%nat. rewrite sub_whole by (symmetry; exact (proj1 Bp)). rewrite Ec. cbn [mbind option_bind].
  rewrite Eo. reflexivity.
Qed.

Lemma live_bits bs bs' p : length bs = 8%nat -> Forall2 (fun c c' => half c = half c') bs bs' -> 0 <= p < 64 -> live p = true ->
  nthZ (concat (map byte_bits bs)) p = nthZ (concat (map byte_bits bs')) p.
Proof.
  intros L H2 Hp. assert (p ∈ seqZ 0 64) as Hin by (apply elem_of_seqZ; lia). clear Hp.
  do 8 (destruct bs as [|? bs]; [done|]; destruct bs' as [|? bs']; [by inversion H2|]; apply Forall2_cons in H2 as [? H2]).
  destruct bs; [|done]. inversion H2; subst. apply list_elem_of_In in Hin.
  repeat match goal with H : half ?b = half _ |- _ => let h := fresh "h" in remember (half b) as h end.
  vm_compute in Hin.
  repeat (destruct Hin as [<-|Hin]; [intros Hl; try (vm_compute in Hl; discriminate);
    lazy -[Z.land half]; congruence|]).
  destruct Hin.
Qed.

Lemma fill_key_half k k' : Forall2 (fun c c' => half c = half c') k k' ->
  Forall2 (fun c c' => half c = half c') (fill_key k) (fill_key k').
Proof.
  intros H. unfold fill_key. rewrite (Forall2_length _ _ _ H). apply Forall2_app; [done|].
  by apply Forall_Forall2_diag, Forall_forall.
Qed.

Lemma crypt_half fr k k' salt0 salt1 s : frame_ok fr -> Forall (fun c => c <> 0) k -> Forall (fun c => c <> 0) k' ->
  Forall2 (fun c c' => half c = half c') (take 8 k) (take 8 k') ->
  crypt fr (k ++ [0]) salt0 salt1 s = crypt fr (k' ++ [0]) salt0 salt1 s.
Proof.
  intros (Lb & Ls & Ly) Hk Hk' H2. unfold crypt. cbv zeta. rewrite !copy_key_spec by done. cbn [mbind option_bind].
  change (Z.to_nat (NKB / NBPC)) with 8%nat. change NKB with 64.
  assert (length (fill_key (take 8 k)) = 8%nat /\ length (fill_key (take 8 k')) = 8%nat) as [Lf Lf'].
  { split; apply length_fill_key; rewrite length_take; lia. }
  rewrite !(unpack_spec _ (f_bkey fr)) by done. cbn [mbind option_bind].
  pose proof (concat_bits (fill_key (take 8 k))) as [B _]. pose proof (concat_bits (fill_key (take 8 k'))) as [B' _].
  rewrite (setkey_live _ (concat (map byte_bits (fill_key (take 8 k'))))); [done|lia|lia|done|].
  intros p Hp Hl. apply live_bits; [done|by apply fill_key_half|done|done].
Qed.

(** C22: the cipher undoes itself: whatever permutation the salt has made of
    the E table and whatever key was set, encrypting a block of 64 bits gives a
    block of 64 bits that decrypting turns back, and the other way round. *)
Theorem encrypt_roundtrip s b ed ed' : des_ok s -> bits 64 b -> (ed =? 0) = negb (ed' =? 0) ->
  exists c, encrypt s b ed = Some c /\ bits 64 c /\ encrypt s c ed' = Some b.
Proof. apply encrypt_undo. Qed.

(** [setkey] makes sixteen keys of 48 bits: key [n] is chosen from the
    first half of the permuted key turned left by the sum of the first [n+1]
    shifts, and from the second half as it is, which never turns because the
    loop turns 28 bytes beyond the array instead; these bytes are back in place
    at the end, after 28 turns. *)
Theorem setkey_correct key beyond s : bits 64 key -> (28 <= length beyond)%nat -> length (E s) = 48%nat -> within 32 (E s) ->
  exists s', setkey key beyond s = Some (beyond, s') /\ des_ok s' /\ E s' = E s /\ seed s' = seed s /\
    forall n, (n < 16)%nat -> Ki s' !! n = Some (round_key (take 28 (pick key PC1)) (drop 28 (pick key PC1)) n).
Proof.
  intros Hk Lb LE WE. destruct (setkey_ok key beyond s Hk Lb LE WE) as (s' & Es & Hok & EE).
  exists s'. rewrite Es. rewrite setkey_spec in Es by (done || apply Hk). injection Es as <-.
  split_and!; try done. intros n Hn. cbn [Ki].
  exact (list_lookup_fmap_Some_2 (round_key _ _) (seq 0 16) n n (lookup_seq_lt 0 16 n Hn)).
Qed.

(** C37: [crypt] is a function of the password and the salt: whatever its automatic
    arrays and its static data hold before, it returns the same two salt characters and
    eleven characters of the small set, within the sixteen bytes of [passwd], and leaves
    the same static data, fit for the next call.  It does not stay inside its arrays:
    [setkey] turns 28 bytes beyond the one of the key, which [frame_ok] asks to be there;
    they do not show in the result and are as before when it returns. *)
Theorem crypt_format k salt0 salt1 : Forall (fun c => c <> 0) k ->
  exists out s', length out = 11%nat /\ (length (salt0 :: salt1 :: out ++ [0%Z]) <= 16)%nat /\
    Forall (fun c => c ∈ maptab) out /\ des_ok s' /\
    forall fr s, frame_ok fr -> crypt fr (k ++ [0]) salt0 salt1 s = Some (salt0 :: salt1 :: out ++ [0], f_beyond fr, s').
Proof.
  intros Hk. destruct (crypt_spec k salt0 salt1 Hk) as (out & s' & Lo & Ho & Hs & Ec).
  exists out, s'. split; [exact Lo|]. split; [cbn [length]; rewrite length_app; cbn [length]; lia|]. by split.
Qed.

(** Passwords whose first eight characters differ only in the lowest bit
    of a character are the same to [crypt], and so are those that differ
    from the ninth character on. *)
Theorem crypt_low_bits fr k k' salt0 salt1 s : frame_ok fr -> Forall (fun c => c <> 0) k -> Forall (fun c => c <> 0) k' ->
  Forall2 (fun c c' => half c = half c') (take 8 k) (take 8 k') ->
  crypt fr (k ++ [0]) salt0 salt1 s = crypt fr (k' ++ [0]) salt0 salt1 s.
Proof. apply crypt_half. Qed.

(** Static data with a key set, and a frame. *)
Definition w_des : des := Des saveE (repeat (repeat 1 48) 16) 1.
Definition w_block : list Z := repeat 1 10 ++ repeat 0 54.
Definition w_frame : frame := Frame (repeat 7 56) (repeat 9 56) (map Z.of_nat (seq 0 30)).

Lemma w_des_ok : des_ok w_des.
Proof.
  split; [split; [done|apply within_b; vm_compute; reflexivity]|split; [done|]].
  cbn [Ki w_des]. rewrite repeat_replicate. apply Forall_replicate. split; [done|].
  rewrite repeat_replicate. apply Forall_replicate. by right.
Qed.
Lemma w_block_bits : bits 64 w_block.
Proof.
  split; [done|]. unfold w_block. rewrite !repeat_replicate. apply Forall_app. split; apply Forall_replicate; [by right|by left].
Qed.
Lemma w_frame_ok : frame_ok w_frame.
Proof. split; [done|]. split; [done|]. cbn. lia. Qed.

Lemma encrypt_roundtrip_witness : exists c, encrypt w_des w_block 0 = Some c /\ bits 64 c /\ encrypt w_des c 1 = Some w_block.
Proof. apply (encrypt_roundtrip w_des w_block 0 1); [apply w_des_ok|apply w_block_bits|reflexivity]. Defined.

Lemma setkey_correct_witness : exists s', setkey w_block (map Z.of_nat (seq 0 30)) w_des = Some (map Z.of_nat (seq 0 30), s') /\
  des_ok s' /\ E s' = saveE /\ seed s' = 1 /\
  forall n, (n < 16)%nat -> Ki s' !! n = Some (round_key (take 28 (pick w_block PC1)) (drop 28 (pick w_block PC1)) n).
Proof.
  apply (setkey_correct w_block (map Z.of_nat (seq 0 30)) w_des); [apply w_block_bits|cbn; lia|done|].
  apply within_b. vm_compute. reflexivity.
Defined.

(** "hello" with salt "ab". *)
Lemma crypt_format_witness : exists out s', length out = 11%nat /\ Forall (fun c => c ∈ maptab) out /\ des_ok s' /\
  crypt w_frame ([104; 101; 108; 108; 111] ++ [0]) 97 98 w_des = Some (97 :: 98 :: out ++ [0], map Z.of_nat (seq 0 30), s').
Proof.
  destruct (crypt_format [104; 101; 108; 108; 111] 97 98) as (out & s' & Lo & _ & Ho & Hs & Ec).
  - repeat (apply Forall_cons; split; [done|]). constructor.
  - exists out, s'. split; [exact Lo|]. split; [exact Ho|]. split; [exact Hs|]. exact (Ec w_frame w_des w_frame_ok).
Defined.

(** "hello" and "idmmn". *)
Lemma crypt_low_bits_witness :
  crypt w_frame ([104; 101; 108; 108; 111] ++ [0]) 97 98 w_des = crypt w_frame ([105; 100; 109; 109; 110] ++ [0]) 97 98 w_des.
Proof.
  apply (crypt_low_bits w_frame [104; 101; 108; 108; 111] [105; 100; 109; 109; 110] 97 98 w_des); [apply w_frame_ok|..].
  - repeat (apply Forall_cons; split; [done|]). constructor.
  - repeat (apply Forall_cons; split; [done|]). constructor.
  - repeat (apply Forall2_cons; split; [reflexivity|]). constructor.
Defined.
