(* ===== verification/MintPow.v ===== *)
(** Multi-precision powers, greatest common divisors, square roots and
    conversion from and to strings (userland/lib/libmp: spow.c, rpow.c, pow.c,
    gcd.c, xgcd.c, msqrt.c, mtos.c, min.c, mout.c), with the character classes
    of ctype.h.

    The loops have no structural measure and take fuel; the theorems give for
    each an amount that is always enough. *)
From S2P Require Import Prelude Mint MintMul MintDiv.
Local Open Scope Z_scope.
Local Open Scope mint_scope.

(** ** Powers *)

(** The [for] loop of [spow] and the product after it. *)
Fixpoint spow_loop (fuel : nat) (ac b : mint) (n : Z) : mres mint :=
  match fuel with
  | O => MFuel
  | S fuel =>
    if n =? 1 then mult ac b else
    b <-- (if negb (n mod 2 =? 0) then mult ac b else MOk b) ;;
    ac <-- mult ac ac ;;
    spow_loop fuel ac b (Z.shiftr n 1)
  end.
(** An [unsigned] has sixteen bits. *)
Definition spow (a : mint) (n : Z) : mres mint :=
  if negb (n =? 0) then spow_loop 16 (mcopy a) (mcopy mone) n else MOk (mcopy mone).

Fixpoint rpow_loop (fuel : nat) (al bl c : mint) : mres mint :=
  match fuel with
  | O => MFuel
  | S fuel =>
    if zerop bl then MOk c else
    al <-- mult al al ;;
    qr <-- sdiv bl 2 ;;
    c <-- (if negb (snd qr =? 0) then mult c al else MOk c) ;;
    rpow_loop fuel al (fst qr) c
  end.
Definition rpow (fuel : nat) (a b : mint) : mres mint :=
  if negb (ispos b) then MPerr else
  let al := mcopy a in
  qr <-- sdiv (mcopy b) 2 ;;
  rpow_loop fuel al (fst qr) (if negb (snd qr =? 0) then mcopy al else mcopy mone).

Fixpoint pow_loop (fuel : nat) (al bl cl m : mint) : mres mint :=
  match fuel with
  | O => MFuel
  | S fuel =>
    if zerop bl then MOk cl else
    al <-- mult al al ;;
    qa <-- mdiv al m ;;
    let al := snd qa in
    qr <-- sdiv bl 2 ;;
    cl <-- (if negb (snd qr =? 0) then (cl <-- mult cl al ;; qc <-- mdiv cl m ;; MOk (snd qc)) else MOk cl) ;;
    pow_loop fuel al (fst qr) cl m
  end.
Definition pow (fuel : nat) (a b m : mint) : mres mint :=
  if negb (ispos b) then MPerr else
  qa <-- mdiv a m ;;
  let al := snd qa in
  qr <-- sdiv (mcopy b) 2 ;;
  pow_loop fuel al (fst qr) (if negb (snd qr =? 0) then mcopy al else mcopy mone) m.

(** ** Greatest common divisors *)

Fixpoint gcd_loop (fuel : nat) (a b : mint) : mres mint :=
  match fuel with
  | O => MFuel
  | S fuel =>
    if zerop b then MOk a else
    qr <-- mdiv a b ;;
    gcd_loop fuel b (snd qr)
  end.
Definition gcd (fuel : nat) (a b : mint) : mres mint := gcd_loop fuel (mcopy a) (mcopy b).

(** The results [r], [s] and [g]. *)
Fixpoint xgcd_loop (fuel : nat) (a b r1 s1 t u : mint) : mres (mint * mint * mint) :=
  match fuel with
  | O => MFuel
  | S fuel =>
    if zerop b then MOk (r1, s1, a) else
    qr <-- mdiv a b ;;
    t1 <-- mult (fst qr) t ;;
    let r1 := msub r1 t1 in
    t1 <-- mult (fst qr) u ;;
    let s1 := msub s1 t1 in
    xgcd_loop fuel b (snd qr) t u r1 s1
  end.
Definition xgcd (fuel : nat) (a b : mint) : mres (mint * mint * mint) :=
  r1 <-- itom 1 ;;
  s1 <-- itom 0 ;;
  t <-- itom 0 ;;
  u <-- itom 1 ;;
  xgcd_loop fuel (mcopy a) (mcopy b) r1 s1 t u.

(** ** Square roots *)

Fixpoint msqrt_loop (fuel : nat) (a x : mint) : mres (mint * mint) :=
  match fuel with
  | O => MFuel
  | S fuel =>
    xs <-- mult x x ;;
    let rem := msub a xs in
    let tx := madd x x in
    if ispos rem && (mcmp rem tx <=? 0) then MOk (x, rem) else
    let xs := madd a xs in
    qr <-- mdiv xs tx ;;
    msqrt_loop fuel a (fst qr)
  end.
(** The root and the remainder. *)
Definition msqrt (fuel : nat) (a : mint) : mres (mint * mint) :=
  if negb (ispos a) then MPerr else
  x <-- mitom BASE ;;
  x <-- spow x (u16 (Z.of_nat (length a)) / 2) ;;
  msqrt_loop fuel a x.

(** ** Strings *)

Definition sizfac : list Z := [7; 5; 4; 3; 3; 3; 3; 3; 3; 3; 2; 2; 2; 2; 2].
(** "0123456789ABCDEF" *)
Definition dtc : list Z := [48; 49; 50; 51; 52; 53; 54; 55; 56; 57; 65; 66; 67; 68; 69; 70].

(** The [do] loop: characters in front of [s], for which [room] bytes are
    left. *)
Fixpoint mtos_loop (fuel : nat) (obase : Z) (ac : mint) (room : Z) (s : list Z) : mres (list Z * Z) :=
  match fuel with
  | O => MFuel
  | S fuel =>
    qd <-- sdiv ac obase ;;
    ch <-- mderef (aget dtc (snd qd)) ;;
    if room <=? 0 then MBad else
    if zerop (fst qd) then MOk (ch :: s, room - 1) else mtos_loop fuel obase (fst qd) (room - 1) (ch :: s)
  end.
(** The string, without the NUL that ends it. *)
Definition mtos (fuel : nat) (obase : Z) (a : mint) : mres (list Z) :=
  let mifl := ispos a in
  let ac := if mifl then mcopy a else mneg a in
  f <-- mderef (aget sizfac (obase - 2)) ;;
  let size := u16 (1 + u16 (Z.of_nat (length ac)) * f) in
  let size := if negb mifl then u16 (size + 1) else size in
  sr <-- mtos_loop fuel obase ac (size - 1) [] ;;
  if mifl then MOk (fst sr)
  else if snd sr <=? 0 then MBad else MOk (45 :: fst sr).

(** [mout]: lines of 72 characters and a backslash. *)
Fixpoint mout_lines (len : nat) (res : list Z) : list Z :=
  match len with
  | O => res
  | S len => take 72 res ++ [92; 10] ++ mout_lines len (drop 72 res)
  end.
Definition mout (fuel : nat) (obase : Z) (a : mint) : mres (list Z) :=
  res <-- mtos fuel obase a ;;
  MOk (mout_lines (length res / 72) res).

(** Character classes: [_ctype] from the entry of [EOF] on. *)
Definition c_S : Z := 16.
Definition c_D : Z := 8.
Definition _ctype : list Z :=
  [0] ++ repeat 64 9 ++ repeat 80 5 ++ repeat 64 18 ++ [144] ++ repeat 32 15 ++ repeat 8 10 ++ repeat 32 7 ++
  repeat 1 26 ++ repeat 32 6 ++ repeat 2 26 ++ repeat 32 4 ++ [64] ++ repeat 0 128.
Definition ctype_has (c m : Z) : bool :=
  match aget _ctype (c + 1) with Some f => negb (Z.land f m =? 0) | None => false end.
Definition isspace (c : Z) : bool := ctype_has c c_S.
Definition isdigit (c : Z) : bool := ctype_has c c_D.
Definition isascii (c : Z) : bool := Z.land (u16 c) (u16 (Z.lnot 127)) =? 0.

Definition okdigit (ch : Z) : bool := (isascii ch && isdigit ch) || ((65 <=? ch) && (ch <=? 70)).
Definition valdigit (ch : Z) : Z := if isdigit ch then ch + 0 - 48 else ch + 10 - 65.

(** The loops that skip blanks: the first character that is not one, -1 at
    the end of the input. *)
Fixpoint skip_blanks (inp : list Z) : Z * list Z :=
  match inp with
  | [] => (-1, [])
  | ch :: rest => if isascii ch && isspace ch then skip_blanks rest else (ch, rest)
  end.
(** The [while] loop: the number, the character read last, the rest. *)
Fixpoint min_loop (ibase ch : Z) (inp : list Z) (a : mint) : mres (mint * Z * list Z) :=
  if okdigit ch then
    let cval := valdigit ch in
    a <-- smult a ibase ;;
    let a := madd a [s8 cval] in
    match inp with
    | [] => MOk (a, -1, [])
    | c :: inp => min_loop ibase c inp a
    end
  else MOk (a, ch, inp).
(** [min]: the number read and what is left of the input. *)
Definition min (ibase : Z) (inp : list Z) : mres (mint * list Z) :=
  massert ((2 <=? ibase) && (ibase <=? 16)) (
  let '(ch, inp) := skip_blanks inp in
  let mifl := ch =? 45 in
  let '(ch, inp) := if mifl then skip_blanks inp else (ch, inp) in
  r <-- min_loop ibase ch inp (mcopy mzero) ;;
  let '(a, ch, inp) := r in
  MOk (if mifl then mneg a else a, if ch =? -1 then inp else ch :: inp)).

(** ** Powers *)

Lemma zerop_mval a : wf a -> zerop a = (mval a =? 0).
Proof.
  intros Ha. destruct (Z.eqb_spec (mval a) 0) as [E|E].
  - rewrite (mval_inj a mzero Ha) by (done || by apply wf_b_wf). done.
  - destruct a as [|d [|]]; try done. cbn. destruct (Z.eqb_spec d 0) as [->|]; [by destruct E|done].
Qed.

Lemma wf_mone : wf mone.
Proof. by apply wf_b_wf. Qed.
Lemma wf_mzero : wf mzero.
Proof. by apply wf_b_wf. Qed.

(** A product, and a quotient by a small number, that the code forms next. *)
Ltac step_mult a b := 
  let c := fresh "c" in let E := fresh "E" in let Hc := fresh "Hc" in let V := fresh "V" in
  destruct (mult_correct a b) as (c & E & Hc & V); [done|done|rewrite E; clear E; cbn [mbind]].

Lemma sdiv_base a n : wf a -> 0 <= mval a -> 1 <= n <= BASE ->
  exists q, sdiv a n = MOk (q, mval a mod n) /\ wf q /\ mval q = mval a / n.
Proof.
  intros Ha Hp Hn. destruct (sdiv_correct a n Ha) as (q & E & Hq & V); [lia|].
  exists q. rewrite E, V, Z.rem_mod_nonneg, Z.quot_div_nonneg by lia. split; [|done]. do 2 f_equal. lia.
Qed.

Lemma pow_halve x n : 0 <= n -> x ^ n = (x * x) ^ (n / 2) * (if n mod 2 =? 0 then 1 else x).
Proof.
  intros Hn. pose proof (Z.div_mod n 2 ltac:(lia)) as E. pose proof (Z.mod_pos_bound n 2 ltac:(lia)) as Hm.
  pose proof (Z.div_pos n 2 Hn ltac:(lia)) as Hd.
  replace ((x * x) ^ (n / 2)) with (x ^ (2 * (n / 2))) by (rewrite Z.pow_mul_r by lia; by rewrite Z.pow_2_r).
  destruct (Z.eqb_spec (n mod 2) 0) as [E0|E0].
  - rewrite Z.mul_1_r. f_equal. lia.
  - rewrite E at 1. replace (n mod 2) with 1 by lia. by rewrite Z.pow_add_r, Z.pow_1_r by lia.
Qed.

Lemma spow_loop_spec fuel : forall ac b n, wf ac -> wf b -> 1 <= n < 2 ^ Z.of_nat fuel ->
  exists c, spow_loop fuel ac b n = MOk c /\ wf c /\ mval c = mval ac ^ n * mval b.
Proof.
  induction fuel as [|fuel IH]; intros ac b n Hac Hb Hn; [cbn in Hn; lia|]. cbn [spow_loop].
  destruct (Z.eqb_spec n 1) as [->|Hn1].
  { destruct (mult_correct ac b Hac Hb) as (c & E & Hc & V). exists c. rewrite V, Z.pow_1_r. done. }
  rewrite Z.shiftr_div_pow2, Z.pow_1_r by lia. rewrite Nat2Z.inj_succ, Z.pow_succ_r in Hn by lia.
  assert (exists b', (if negb (n mod 2 =? 0) then mult ac b else MOk b) = MOk b' /\ wf b' /\
     mval b' = (if n mod 2 =? 0 then 1 else mval ac) * mval b) as (b' & -> & Hb' & Vb).
  { destruct (n mod 2 =? 0); cbn [negb]; [exists b; by rewrite Z.mul_1_l|by apply mult_correct]. }
  cbn [mbind]. step_mult ac ac. destruct (IH c b' (n / 2) Hc Hb') as (r & -> & Hr & Vr).
  { Z.to_euclidean_division_equations. lia. }
  exists r. split; [done|]. split; [done|]. rewrite Vr, Vb, V, (pow_halve (mval ac) n) by lia. ring.
Qed.

Lemma spow_correct a n : wf a -> 0 <= n < 65536 -> exists c, spow a n = MOk c /\ wf c /\ mval c = mval a ^ n.
Proof.
  intros Ha Hn. unfold spow, mcopy. destruct (Z.eqb_spec n 0) as [->|Hn0]; cbn [negb].
  { exists mone. split; [done|]. split; [apply wf_mone|done]. }
  destruct (spow_loop_spec 16 a mone n Ha wf_mone) as (c & E & Hc & V); [change (2 ^ Z.of_nat 16) with 65536; lia|].
  exists c. split; [done|]. split; [done|]. rewrite V. change (mval mone) with 1. lia.
Qed.

Lemma rpow_loop_spec fuel : forall al bl c, wf al -> wf bl -> wf c -> 0 <= mval bl -> (0 < fuel)%nat -> mval bl * 2 < 2 ^ Z.of_nat fuel ->
  exists r, rpow_loop fuel al bl c = MOk r /\ wf r /\ mval r = mval c * (mval al * mval al) ^ mval bl.
Proof.
  induction fuel as [|fuel IH]; intros al bl c Hal Hbl Hc Hp Hf0 Hf; [lia|]; cbn [rpow_loop].
  rewrite zerop_mval by done. destruct (Z.eqb_spec (mval bl) 0) as [E0|E0].
  { exists c. rewrite E0, Z.pow_0_r, Z.mul_1_r. done. }
  step_mult al al. destruct (sdiv_base bl 2 Hbl Hp) as (q & -> & Hq & Vq); [unfold BASE; lia|]. cbn [mbind fst snd].
  assert (exists c', (if negb (mval bl mod 2 =? 0) then mult c c0 else MOk c) = MOk c' /\ wf c' /\
     mval c' = mval c * (if mval bl mod 2 =? 0 then 1 else mval al * mval al)) as (c' & -> & Hc' & Vc).
  { destruct (mval bl mod 2 =? 0); cbn [negb]; [exists c; by rewrite Z.mul_1_r|]. rewrite <- V. by apply mult_correct. }
  cbn [mbind]. rewrite Nat2Z.inj_succ, Z.pow_succ_r in Hf by lia.
  destruct (IH c0 q c' Hc0 Hq Hc') as (r & -> & Hr & Vr).
  { rewrite Vq. apply Z.div_pos; lia. }
  { destruct fuel; [cbn in Hf|]; lia. }
  { rewrite Vq. Z.to_euclidean_division_equations. lia. }
  exists r. split; [done|]. split; [done|]. rewrite Vr, Vc, V, Vq.
  rewrite (pow_halve (mval al * mval al) (mval bl)) by done. ring.
Qed.

Lemma rpow_correct fuel a b : wf a -> wf b -> (0 < fuel)%nat -> mval b < 2 ^ Z.of_nat fuel ->
  if 0 <=? mval b then exists c, rpow fuel a b = MOk c /\ wf c /\ mval c = mval a ^ mval b else rpow fuel a b = MPerr.
Proof.
  intros Ha Hb Hf Hlt. unfold rpow, mcopy. rewrite ispos_mval by done. destruct (Z.leb_spec 0 (mval b)) as [Hp|Hn]; [|done].
  cbn [negb]. destruct (sdiv_base b 2 Hb Hp) as (q & -> & Hq & Vq); [unfold BASE; lia|]. cbn [mbind fst snd].
  set (c0 := if negb (mval b mod 2 =? 0) then a else mone).
  assert (wf c0 /\ mval c0 = if mval b mod 2 =? 0 then 1 else mval a) as [Hc0 V0].
  { unfold c0. destruct (mval b mod 2 =? 0); cbn [negb]; [split; [apply wf_mone|done]|done]. }
  destruct (rpow_loop_spec fuel a q c0 Ha Hq Hc0) as (r & -> & Hr & Vr).
  { rewrite Vq. apply Z.div_pos; lia. }
  { done. }
  { rewrite Vq. pose proof (Z.pow_pos_nonneg 2 (Z.of_nat fuel)). destruct (Z.eq_dec (mval b) 0) as [->|].
    - change (0 / 2 * 2) with 0. lia. 
    - Z.to_euclidean_division_equations. lia. }
  exists r. split; [done|]. split; [done|]. rewrite Vr, V0, Vq, (pow_halve (mval a) (mval b)) by done. ring.
Qed.

(** [a] and [b] leave the same remainder. *)
Definition eqm (m a b : Z) : Prop := a mod m = b mod m.

Lemma eqm_mul m a a' b b' : eqm m a a' -> eqm m b b' -> eqm m (a * b) (a' * b').
Proof. unfold eqm. intros Ea Eb. rewrite Zmult_mod, Ea, Eb. by rewrite <- Zmult_mod. Qed.
Lemma eqm_pow m a a' n : 0 <= n -> eqm m a a' -> eqm m (a ^ n) (a' ^ n).
Proof.
  intros Hn Ea. pattern n. apply natlike_ind; [done| |done]. intros k Hk IH.
  rewrite !Z.pow_succ_r by done. by apply eqm_mul.
Qed.

(** A remainder by a positive modulus. *)
Lemma mdiv_mod a m : wf a -> wf m -> 0 < mval m ->
  exists q r, mdiv a m = MOk (q, r) /\ wf r /\ eqm (mval m) (mval r) (mval a) /\ Z.abs (mval r) < mval m /\
    (0 <= mval a -> 0 <= mval r).
Proof.
  intros Ha Hm Hp. pose proof (mdiv_spec a m Ha Hm) as H. rewrite (proj2 (Z.eqb_neq _ 0)) in H by lia.
  destruct H as (q & r & E & Hq & Hr & _ & Vr). exists q, r. split; [done|]. split; [done|].
  rewrite Z.sgn_pos, Z.mul_1_l in Vr by done. rewrite Vr. split; [|split].
  - unfold eqm. rewrite (Z.quot_rem' (mval a) (mval m)) at 2.
    rewrite Z.add_comm, Z.mul_comm, Z.mod_add by lia. done.
  - pose proof (Z.rem_bound_abs (mval a) (mval m)). lia.
  - intros Hn. pose proof (Z.rem_bound_pos (mval a) (mval m)). lia.
Qed.

Section modular.
Context (m : mint) (Hm : wf m) (Hpos : 0 < mval m).

(** What is known of the result under way. *)
Definition partial (c : mint) (n v : Z) : Prop :=
  wf c /\ eqm (mval m) (mval c) v /\ (n = 0 -> Z.abs (mval c) < mval m).

Lemma pow_loop_spec fuel : forall al bl cl, wf al -> wf bl -> 0 <= mval bl -> (0 < fuel)%nat -> mval bl * 2 < 2 ^ Z.of_nat fuel ->
  partial cl (mval bl) (mval cl) ->
  exists r, pow_loop fuel al bl cl m = MOk r /\ partial r 0 (mval cl * (mval al * mval al) ^ mval bl) /\
    (0 <= mval cl -> 0 <= mval r).
Proof.
  induction fuel as [|fuel IH]; intros al bl cl Hal Hbl Hp Hf0 Hf Hcl; [lia|]; cbn [pow_loop].
  pose proof Hcl as (Hc & _ & Hb). rewrite zerop_mval by done. destruct (Z.eqb_spec (mval bl) 0) as [E0|E0].
  { exists cl. rewrite E0 in Hcl |- *. rewrite Z.pow_0_r, Z.mul_1_r. done. }
  step_mult al al. destruct (mdiv_mod c m Hc0 Hm Hpos) as (qa & al2 & -> & Hal2 & Ea & Ba & Pa). cbn [mbind fst snd].
  destruct (sdiv_base bl 2 Hbl Hp) as (q & -> & Hq & Vq); [unfold BASE; lia|]. cbn [mbind fst snd].
  rewrite V in Ea, Pa. specialize (Pa ltac:(nia)).
  assert (exists c', (if negb (mval bl mod 2 =? 0) then (cl <-- mult cl al2 ;; qc <-- mdiv cl m ;; MOk (snd qc)) else MOk cl) = MOk c' /\
     partial c' (mval q) (mval cl * (if mval bl mod 2 =? 0 then 1 else mval al * mval al)) /\ (0 <= mval cl -> 0 <= mval c')) as (c' & -> & Hc' & Pc').
  { destruct (Z.eqb_spec (mval bl mod 2) 0) as [E2|E2]; cbn [negb].
    - exists cl. rewrite Z.mul_1_r. split; [done|]. split; [|done]. split; [done|]. split; [done|]. intros Eq. rewrite Vq in Eq.
      exfalso. clear -E0 E2 Eq Hp. Z.to_euclidean_division_equations. lia.
    - step_mult cl al2. destruct (mdiv_mod c0 m Hc1 Hm Hpos) as (qc & r & -> & Hr & Er & Br & Pr). cbn [mbind fst snd].
      exists r. split; [done|]. rewrite V0 in Er, Pr. split; [|intros; apply Pr; nia]. split; [done|]. split; [|done].
      unfold eqm in *. rewrite Er. by apply eqm_mul. }
  cbn [mbind]. destruct Hc' as (W' & E' & B').
  rewrite Nat2Z.inj_succ, Z.pow_succ_r in Hf by lia.
  destruct (IH al2 q c' Hal2 Hq) as (r & -> & (Wr & Er & Br) & Pr).
  { rewrite Vq. apply Z.div_pos; lia. }
  { destruct fuel; [cbn in Hf|]; lia. }
  { rewrite Vq. Z.to_euclidean_division_equations. lia. }
  { split; [done|]. split; [done|exact B']. }
  exists r. split; [done|]. split; [|intros; by apply Pr, Pc']. split; [done|]. split; [|done].
  unfold eqm in Er |- *. rewrite Er. rewrite Vq, (pow_halve (mval al * mval al) (mval bl)) by done.
  rewrite (Z.mul_comm (_ ^ _)), Z.mul_assoc. apply eqm_mul; [exact E'|]. apply eqm_pow; [apply Z.div_pos; lia|].
  by apply eqm_mul.
Qed.

Lemma pow_spec fuel a b : wf a -> wf b -> 0 <= mval b -> (0 < fuel)%nat -> mval b < 2 ^ Z.of_nat fuel ->
  exists c, pow fuel a b m = MOk c /\ wf c /\ eqm (mval m) (mval c) (mval a ^ mval b) /\
    (0 < mval b -> Z.abs (mval c) < mval m) /\ (0 <= mval a -> 0 <= mval c).
Proof.
  intros Ha Hb Hp Hf Hlt. unfold pow, mcopy. rewrite ispos_mval by done. rewrite (proj2 (Z.leb_le 0 _)) by done. cbn [negb].
  destruct (mdiv_mod a m Ha Hm Hpos) as (qa & al & -> & Hal & Ea & Ba & Pa). cbn [mbind fst snd].
  destruct (sdiv_base b 2 Hb Hp) as (q & -> & Hq & Vq); [unfold BASE; lia|]. cbn [mbind fst snd].
  set (c0 := if negb (mval b mod 2 =? 0) then al else mone).
  assert (wf c0 /\ mval c0 = (if mval b mod 2 =? 0 then 1 else mval al) /\ (mval q = 0 -> 0 < mval b -> Z.abs (mval c0) < mval m)) as (Hc0 & V0 & B0).
  { unfold c0. destruct (Z.eqb_spec (mval b mod 2) 0) as [E2|E2]; cbn [negb]; [|done].
    split; [apply wf_mone|]. split; [done|]. intros Eq Hb0. rewrite Vq in Eq. exfalso.
    clear -E2 Eq Hb0. Z.to_euclidean_division_equations. lia. }
  assert (0 <= mval a -> 0 <= mval c0) as P0 by (rewrite V0; destruct (_ =? 0); [lia|done]).
  destruct (Z.eq_dec (mval b) 0) as [Eb|Eb].
  { exists c0. assert (mval q = 0) as Eq0 by (rewrite Vq, Eb; reflexivity).
    destruct fuel; [lia|]. cbn [pow_loop]. rewrite zerop_mval, Eq0 by done. cbn [Z.eqb]. split; [done|]. split; [done|].
    rewrite Eb in V0. change (0 mod 2 =? 0) with true in V0. cbv iota in V0. rewrite V0, Eb. split; [done|]. split; [lia|lia]. }
  destruct (pow_loop_spec fuel al q c0 Hal Hq) as (r & -> & (Wr & Er & Br) & Pr).
  { rewrite Vq. apply Z.div_pos; lia. }
  { done. }
  { rewrite Vq. Z.to_euclidean_division_equations. lia. }
  { split; [done|]. split; [done|]. intros. apply B0; [done|lia]. }
  exists r. split; [done|]. split; [done|]. split; [|split; [by intros; apply Br|intros; by apply Pr, P0]].
  unfold eqm in Er |- *. rewrite Er, V0, Vq, (pow_halve (mval a) (mval b)) by done. rewrite Z.mul_comm.
  apply eqm_mul; [apply eqm_pow; [apply Z.div_pos; lia|]; by apply eqm_mul|].
  destruct (mval b mod 2 =? 0); [done|exact Ea].
Qed.
End modular.

(** ** Greatest common divisors *)

Lemma rem_step a b : b <> 0 -> Z.abs (Z.sgn b * Z.rem a b) < Z.abs b /\
  (Z.abs b <= Z.abs a -> 2 * Z.abs (Z.sgn b * Z.rem a b) < Z.abs a) /\
  Z.gcd b (Z.sgn b * Z.rem a b) = Z.gcd a b.
Proof.
  intros Hb. pose proof (Z.rem_bound_abs a b Hb) as Hr. rewrite Z.abs_mul.
  replace (Z.abs (Z.sgn b)) with 1 by lia. rewrite Z.mul_1_l. split; [done|]. split.
  - intros Hle. rewrite <- Z.rem_abs in * by done. rewrite Z.rem_mod_nonneg in * by lia.
    pose proof (Z.div_mod (Z.abs a) (Z.abs b)). assert (1 <= Z.abs a / Z.abs b) by (apply Z.div_le_lower_bound; lia). nia.
  - destruct (Z.sgn_spec b) as [[? ->]|[[? ?]|[? ->]]]; [|lia|].
    + rewrite Z.mul_1_l, Z.gcd_comm. by rewrite Z.gcd_rem, Z.gcd_comm.
    + replace (-1 * Z.rem a b) with (- Z.rem a b) by lia. rewrite Z.gcd_opp_r, Z.gcd_comm. by rewrite Z.gcd_rem, Z.gcd_comm.
Qed.

(** The number of steps that Euclid's algorithm needs. *)
Definition steps (a b : Z) : Z :=
  if b =? 0 then 1 else Z.log2 (Z.abs a) + Z.log2 (Z.abs b) + (if Z.abs b <=? Z.abs a then 2 else 3).

Lemma steps_rem a b : b <> 0 -> steps b (Z.sgn b * Z.rem a b) + 1 <= steps a b.
Proof.
  intros Hb. destruct (rem_step a b Hb) as (Hlt & Hhalf & _). set (r := Z.sgn b * Z.rem a b) in *. unfold steps.
  rewrite (proj2 (Z.eqb_neq b 0)) by done. pose proof (Z.log2_nonneg (Z.abs a)). pose proof (Z.log2_nonneg (Z.abs b)).
  destruct (Z.eqb_spec r 0) as [E0|E0]; [destruct (_ <=? _); lia|].
  rewrite (proj2 (Z.leb_le (Z.abs r) (Z.abs b))) by lia.
  destruct (Z.leb_spec (Z.abs b) (Z.abs a)) as [Hle|Hgt].
  - assert (Z.log2 (Z.abs r) + 1 <= Z.log2 (Z.abs a)); [|lia].
    specialize (Hhalf Hle). pose proof (Z.log2_double (Z.abs r) ltac:(lia)) as Hl.
    pose proof (Z.log2_le_mono (2 * Z.abs r) (Z.abs a) ltac:(lia)). lia.
  - assert (r = Z.sgn b * a) as Er.
    { unfold r. f_equal. apply Z.rem_small_iff; [done|]. lia. }
    assert (Z.abs r = Z.abs a) as -> by (rewrite Er, Z.abs_mul; lia). lia.
Qed.

Lemma steps_pos a b : 1 <= steps a b.
Proof.
  unfold steps. pose proof (Z.log2_nonneg (Z.abs a)). pose proof (Z.log2_nonneg (Z.abs b)).
  destruct (b =? 0); [lia|]. destruct (_ <=? _); lia.
Qed.

Lemma gcd_loop_spec fuel : forall a b, wf a -> wf b -> steps (mval a) (mval b) <= Z.of_nat fuel ->
  exists g, gcd_loop fuel a b = MOk g /\ wf g /\ Z.abs (mval g) = Z.gcd (mval a) (mval b) /\
    (0 <= mval a -> 0 <= mval b -> 0 <= mval g).
Proof.
  induction fuel as [|fuel IH]; intros a b Ha Hb Hf; cbn [gcd_loop].
  { pose proof (steps_pos (mval a) (mval b)). lia. }
  rewrite zerop_mval by done. pose proof (mdiv_spec a b Ha Hb) as Hd. destruct (Z.eqb_spec (mval b) 0) as [E0|E0].
  { exists a. rewrite E0, Z.gcd_0_r. done. }
  destruct Hd as (q & r & -> & Hq & Hr & _ & Vr). cbn [mbind fst snd].
  pose proof (steps_rem (mval a) (mval b) E0) as Hs. rewrite <- Vr in Hs.
  destruct (IH b r Hb Hr ltac:(lia)) as (g & -> & Hg & Vg & Pg). exists g. split; [done|]. split; [done|].
  rewrite Vg, Vr. split; [by apply rem_step|]. intros Pa Pb. apply Pg; [done|]. rewrite Vr.
  rewrite Z.sgn_pos, Z.mul_1_l by lia. apply Z.rem_nonneg; lia.
Qed.

(** The rows of the matrix of [xgcd.c]. *)
Lemma xgcd_loop_spec a0 b0 fuel : forall a b r1 s1 t u, wf a -> wf b -> wf r1 -> wf s1 -> wf t -> wf u ->
  0 <= mval a -> 0 <= mval b -> steps (mval a) (mval b) <= Z.of_nat fuel ->
  mval a = mval r1 * a0 + mval s1 * b0 -> mval b = mval t * a0 + mval u * b0 ->
  exists r s g, xgcd_loop fuel a b r1 s1 t u = MOk (r, s, g) /\ wf r /\ wf s /\ wf g /\
    mval g = Z.gcd (mval a) (mval b) /\ mval g = mval r * a0 + mval s * b0.
Proof.
  induction fuel as [|fuel IH]; intros a b r1 s1 t u Ha Hb Hr1 Hs1 Ht Hu Pa Pb Hf Ea Eb; cbn [xgcd_loop].
  { pose proof (steps_pos (mval a) (mval b)). lia. }
  rewrite zerop_mval by done. pose proof (mdiv_spec a b Ha Hb) as Hd. destruct (Z.eqb_spec (mval b) 0) as [E0|E0].
  { exists r1, s1, a. rewrite E0, Z.gcd_0_r, Z.abs_eq by done. done. }
  destruct Hd as (q & r & -> & Hq & Hr & Vq & Vr). cbn [mbind fst snd].
  pose proof (steps_rem (mval a) (mval b) E0) as Hs. rewrite <- Vr in Hs.
  pose proof (proj2 (proj2 (rem_step (mval a) (mval b) E0))) as Hg. rewrite <- Vr in Hg.
  rewrite Z.sgn_pos, Z.mul_1_l in Vr by lia.
  step_mult q t. step_mult q u.
  destruct (msub_correct r1 c Hr1 Hc) as [Hr1' Vr1]. destruct (msub_correct s1 c0 Hs1 Hc0) as [Hs1' Vs1].
  destruct (IH b r t u (msub r1 c) (msub s1 c0)) as (x & y & g & -> & Hx & Hy & Hgg & Vg & Vb); try done; [|lia| |].
  - rewrite Vr. apply Z.rem_nonneg; lia.
  - rewrite Vr1, Vs1, V, V0, Vr, Vq. pose proof (Z.quot_rem' (mval a) (mval b)). nia.
  - exists x, y, g. rewrite Vg, Hg in *. done.
Qed.

(** ** Square roots *)

(** One step of Newton's method from above the root [s]. *)
Lemma newton_step A s x : 0 <= s -> s * s <= A < (s + 1) * (s + 1) -> s < x ->
  let y := (A + x * x) / (2 * x) in s <= y < x /\ y - s <= (x - s + 1) / 2.
Proof.
  intros Hs HA Hx y. assert (s <= y) as Hlo by (apply Z.div_le_lower_bound; nia).
  assert (y < x) as Hhi by (apply Z.div_lt_upper_bound; nia). split; [lia|].
  set (e := x - s). assert (y < s + (e + 1) / 2 + 1); [|lia]. unfold y. apply Z.div_lt_upper_bound; [lia|].
  assert (e <= 2 * ((e + 1) / 2)) by (Z.to_euclidean_division_equations; lia).
  assert (0 <= (e + 1) / 2) by (apply Z.div_pos; lia). replace x with (s + e) by lia. assert (1 <= e) by lia.
  generalize dependent ((e + 1) / 2). intros h Hh Hh0. nia.
Qed.

Lemma newton_first A s x : 0 <= s -> s * s <= A -> 0 < x -> s <= (A + x * x) / (2 * x).
Proof. intros. apply Z.div_le_lower_bound; [lia|]. pose proof (Z.square_nonneg (x - s)). nia. Qed.

Lemma wf_short a n : wf a -> inrange n (mval a) -> Z.of_nat n + 1 < 2 ^ 15 -> short a.
Proof.
  intros Ha Hr Hn. unfold short. destruct (decide (length a <= n + 1)%nat) as [|Hgt]; [lia|]. exfalso.
  apply (wf_long a (length a - 2) Ha); [lia|]. apply (inrange_mono n); [lia|done].
Qed.

Section msqrt.
Context (a : mint) (L : nat).
Hypothesis Ha : wf a.
Hypothesis Hpos : 0 <= mval a < P L.
Hypothesis HL : Z.of_nat (2 * L) + 1 < 2 ^ 15.

Lemma root_test x rem tx : 0 <= mval x <= P L -> wf rem -> wf tx -> mval rem = mval a - mval x * mval x -> mval tx = 2 * mval x ->
  ispos rem && (mcmp rem tx <=? 0) = (mval x =? Z.sqrt (mval a)).
Proof.
  intros Hx Hr Ht Vr Vt. pose proof (P_pos L) as HP. pose proof (Z.sqrt_spec (mval a) ltac:(lia)) as Hs. cbv zeta in Hs.
  pose proof (Z.sqrt_nonneg (mval a)) as Hs0.
  rewrite ispos_mval, Vr by done. destruct (Z.leb_spec 0 (mval a - mval x * mval x)) as [Hle|Hgt]; cbn [andb].
  - assert (short rem /\ short tx) as [S1 S2].
    { split; [apply (wf_short _ (2 * L) Hr)|apply (wf_short _ (2 * L) Ht)]; try done.
      - unfold inrange, NEFL. rewrite Vr. replace (2 * L)%nat with (L + L)%nat by lia. rewrite P_add. nia.
      - unfold inrange, NEFL. rewrite Vt. replace (2 * L)%nat with (L + L)%nat by lia. rewrite P_add. nia. }
    pose proof (mcmp_correct rem tx Hr Ht S1 S2) as Hc. rewrite Vr, Vt in Hc.
    destruct (Z.leb_spec (mcmp rem tx) 0), (Z.eqb_spec (mval x) (Z.sqrt (mval a))); try done; exfalso.
    + assert (mval x * mval x <= mval a < (mval x + 1) * (mval x + 1)) by lia.
      assert (Z.sqrt (mval a) = mval x) by (apply Z.sqrt_unique; lia). done.
    + assert (mval a - mval x * mval x > 2 * mval x) by lia. unfold Z.succ in Hs. nia.
  - destruct (Z.eqb_spec (mval x) (Z.sqrt (mval a))); [|done]. exfalso. nia.
Qed.

Definition root_of (x r : mint) : Prop :=
  wf x /\ wf r /\ mval x = Z.sqrt (mval a) /\ mval r = mval a - mval x * mval x.

(** What one turn of the loop forms. *)
Lemma msqrt_turn fuel x : wf x -> 0 <= mval x <= P L ->
  exists xs rem tx, mult x x = MOk xs /\ rem = msub a xs /\ tx = madd x x /\
  (mval x = Z.sqrt (mval a) -> msqrt_loop (S fuel) a x = MOk (x, rem) /\ root_of x rem) /\
  (0 < mval x -> mval x <> Z.sqrt (mval a) -> exists y, wf y /\ mval y = (mval a + mval x * mval x) / (2 * mval x) /\
     msqrt_loop (S fuel) a x = msqrt_loop fuel a y).
Proof.
  intros Hx Hr. cbn [msqrt_loop]. destruct (mult_correct x x Hx Hx) as (xs & E & Hxs & Vxs).
  exists xs, (msub a xs), (madd x x). rewrite E. cbn [mbind].
  destruct (msub_correct a xs Ha Hxs) as [Hrem Vrem]. destruct (madd_correct x x Hx Hx) as [Htx Vtx].
  destruct (madd_correct a xs Ha Hxs) as [Hsum Vsum]. rewrite Vxs in *.
  rewrite (root_test x (msub a xs) (madd x x)) by (done || lia).
  split; [done|]. split; [done|]. split; [done|]. destruct (Z.eqb_spec (mval x) (Z.sqrt (mval a))) as [E1|N1].
  - split; [intros _; split; [done|]|done]. split; [done|]. split; [done|]. split; [done|]. lia.
  - split; [done|]. intros Hx0 _. pose proof (mdiv_spec (madd a xs) (madd x x) Hsum Htx) as Hd.
    rewrite (proj2 (Z.eqb_neq _ 0)) in Hd by lia. destruct Hd as (q & r & -> & Hq & _ & Vq & _). cbn [mbind fst].
    exists q. split; [done|]. split; [|done]. rewrite Vq, Vsum, Vtx, Z.quot_div_nonneg by nia. f_equal. lia.
Qed.

Lemma msqrt_loop_spec k : forall fuel x, wf x -> Z.sqrt (mval a) <= mval x <= P L -> mval x - Z.sqrt (mval a) <= 2 ^ Z.of_nat k ->
  (k + 2 <= fuel)%nat -> exists y r, msqrt_loop fuel a x = MOk (y, r) /\ root_of y r.
Proof.
  pose proof (Z.sqrt_spec (mval a) ltac:(lia)) as Hs. pose proof (Z.sqrt_nonneg (mval a)) as Hs0. cbv zeta in Hs. unfold Z.succ in Hs.
  induction k as [|k IH]; intros fuel x Hx Hr Hk Hf; (destruct fuel as [|fuel]; [lia|]);
    destruct (msqrt_turn fuel x Hx ltac:(lia)) as (xs & rem & tx & _ & _ & _ & Hstop & Hgo);
    (destruct (Z.eq_dec (mval x) (Z.sqrt (mval a))) as [E|N]; [destruct (Hstop E); eauto|]).
  - destruct (Hgo ltac:(lia) N) as (y & Hy & Vy & ->).
    destruct (newton_step (mval a) (Z.sqrt (mval a)) (mval x)) as [Hb _]; [lia|lia|lia|]. rewrite <- Vy in Hb.
    change (2 ^ Z.of_nat 0) with 1 in Hk. destruct fuel as [|fuel]; [lia|].
    destruct (msqrt_turn fuel y Hy ltac:(lia)) as (xs' & rem' & tx' & _ & _ & _ & Hstop' & _).
    destruct (Hstop' ltac:(lia)). eauto.
  - destruct (Hgo ltac:(lia) N) as (y & Hy & Vy & ->).
    destruct (newton_step (mval a) (Z.sqrt (mval a)) (mval x)) as [Hb Hh]; [lia|lia|lia|]. rewrite <- Vy in Hb, Hh.
    apply IH; [done|lia| |lia]. rewrite Nat2Z.inj_succ, Z.pow_succ_r in Hk by lia.
    etransitivity; [exact Hh|]. clear -Hk. Z.to_euclidean_division_equations. lia.
Qed.
End msqrt.

Lemma msqrt_spec fuel a : wf a -> Z.of_nat (2 * length a) + 1 < 2 ^ 15 -> (7 * length a + 3 <= fuel)%nat ->
  if 0 <=? mval a then exists x r, msqrt fuel a = MOk (x, r) /\ root_of a x r else msqrt fuel a = MPerr.
Proof.
  intros Ha HL Hf. unfold msqrt. rewrite ispos_mval by done. destruct (Z.leb_spec 0 (mval a)) as [Hp|Hn]; [|done]. cbn [negb].
  destruct (mitom_correct BASE) as (x0 & -> & Hx0 & V0); [unfold BASE; lia|]. cbn [mbind].
  set (n := Z.of_nat (length a) / 2). assert (u16 (Z.of_nat (length a)) / 2 = n) as -> by (rewrite u16_small by lia; done).
  assert (0 <= n < 65536) as Hn by (unfold n; Z.to_euclidean_division_equations; lia).
  destruct (spow_correct x0 n Hx0 Hn) as (x & -> & Hx & Vx). cbn [mbind]. rewrite V0 in Vx.
  assert (0 <= mval a < P (length a)) as Hr.
  { destruct (wf_len a Ha) as (l & El & Hi). rewrite El, P_S. unfold inrange, NEFL, BASE in *. lia. }
  assert (0 < mval x /\ mval x * mval x <= P (length a)) as [Hx1 Hx2].
  { rewrite Vx. split; [apply Z.pow_pos_nonneg; unfold BASE; lia|]. rewrite <- Z.pow_add_r by lia. unfold P.
    apply Z.pow_le_mono_r; [unfold BASE; lia|]. unfold n. Z.to_euclidean_division_equations. lia. }
  pose proof (Z.sqrt_spec (mval a) ltac:(lia)) as Hs. pose proof (Z.sqrt_nonneg (mval a)) as Hs0. cbv zeta in Hs.
  destruct fuel as [|fuel]; [lia|].
  destruct (msqrt_turn a (length a) Ha Hr HL fuel x Hx ltac:(nia)) as (xs & rem & tx & _ & _ & _ & Hstop & Hgo).
  destruct (Z.eq_dec (mval x) (Z.sqrt (mval a))) as [E|N]; [destruct (Hstop E); eauto|].
  destruct (Hgo Hx1 N) as (y & Hy & Vy & ->).
  pose proof (newton_first (mval a) (Z.sqrt (mval a)) (mval x) Hs0 ltac:(lia) Hx1) as Hlo. rewrite <- Vy in Hlo.
  assert (mval y <= P (length a)) as Hhi.
  { rewrite Vy. apply Z.div_le_upper_bound; [lia|]. nia. }
  apply (msqrt_loop_spec a (length a) Ha Hr HL (7 * length a)); [done|lia| |lia].
  assert (P (length a) = 2 ^ Z.of_nat (7 * length a)) as EP.
  { unfold P, BASE. change 128 with (2 ^ 7). rewrite <- Z.pow_mul_r by lia. f_equal. lia. }
  lia.
Qed.

(** ** Strings *)

Definition chr (d : Z) : Z := default 0 (aget dtc d).
Definition dval (ob v : Z) (ds : list Z) : Z := foldl (fun v d => v * ob + d) v ds.
Definition is_digits (ob : Z) (ds : list Z) : Prop := Forall (fun d => 0 <= d < ob) ds.

Lemma chr_spec d : 0 <= d < 16 -> aget dtc d = Some (chr d) /\ okdigit (chr d) = true /\ valdigit (chr d) = d /\
  chr d <> 45 /\ isspace (chr d) = false /\ chr d <> -1.
Proof.
  intros Hd. assert (d ∈ seqZ 0 16) as Hin by (apply elem_of_seqZ; lia). apply list_elem_of_In in Hin.
  vm_compute in Hin. repeat (destruct Hin as [<-|Hin]; [vm_compute; repeat split; discriminate|]). destruct Hin.
Qed.

(** The table is right but for base 5, where 5^3 = 125 is less than 128. *)
Lemma sizfac_spec ob : 2 <= ob <= 16 -> ob <> 5 ->
  exists f : nat, aget sizfac (ob - 2) = Some (Z.of_nat f) /\ 128 <= ob ^ Z.of_nat f /\ (2 <= f <= 7)%nat.
Proof.
  intros Hb H5. assert (ob ∈ seqZ 2 15) as Hin by (apply elem_of_seqZ; lia). apply list_elem_of_In in Hin. vm_compute in Hin.
  repeat (destruct Hin as [<-|Hin];
    [first [by destruct H5
           |exists 7%nat; split; [reflexivity|split; [vm_compute; discriminate|lia]]
           |exists 5%nat; split; [reflexivity|split; [vm_compute; discriminate|lia]]
           |exists 4%nat; split; [reflexivity|split; [vm_compute; discriminate|lia]]
           |exists 3%nat; split; [reflexivity|split; [vm_compute; discriminate|lia]]
           |exists 2%nat; split; [reflexivity|split; [vm_compute; discriminate|lia]]]|]).
  destruct Hin.
Qed.

Lemma dval_snoc ob v ds d : dval ob v (ds ++ [d]) = dval ob v ds * ob + d.
Proof. unfold dval. by rewrite foldl_app. Qed.

Lemma mtos_loop_spec ob k : forall fuel ac room s, 2 <= ob <= 16 -> wf ac -> 0 <= mval ac < ob ^ Z.of_nat (S k) -> (k < fuel)%nat ->
  Z.of_nat (S k) <= room ->
  exists ds, mtos_loop fuel ob ac room s = MOk (map chr ds ++ s, room - Z.of_nat (length ds)) /\ is_digits ob ds /\ ds <> [] /\
    (length ds <= S k)%nat /\ dval ob 0 ds = mval ac.
Proof.
  induction k as [|k IH]; intros fuel ac room s Hob Hac Hr Hf Hroom; (destruct fuel as [|fuel]; [lia|]); cbn [mtos_loop];
    (destruct (sdiv_base ac ob Hac) as (q & -> & Hq & Vq); [lia|unfold BASE; lia|]); cbn [mbind fst snd];
    pose proof (Z.mod_pos_bound (mval ac) ob ltac:(lia)) as Hm;
    (destruct (chr_spec (mval ac mod ob)) as [-> _]; [lia|]); cbn [mderef mbind];
    rewrite (proj2 (Z.leb_gt room 0)), zerop_mval, Vq by (done || lia); pose proof (Z.div_mod (mval ac) ob ltac:(lia)) as Ed.
  - change (ob ^ Z.of_nat 1) with (ob ^ 1) in Hr. rewrite Z.pow_1_r in Hr. rewrite Z.div_small in * by lia. cbn [Z.eqb].
    exists [mval ac mod ob]. split; [done|]. split; [by apply Forall_cons|]. split; [done|]. split; [done|]. cbn. lia.
  - destruct (Z.eqb_spec (mval ac / ob) 0) as [E0|E0].
    { exists [mval ac mod ob]. split; [done|]. split; [by apply Forall_cons|]. split; [done|]. split; [cbn; lia|]. cbn. lia. }
    rewrite Nat2Z.inj_succ, Z.pow_succ_r in Hr by lia.
    destruct (IH fuel q (room - 1) (chr (mval ac mod ob) :: s) Hob Hq) as (ds & -> & Hds & Hne & Hl & Vd).
    { rewrite Vq. split; [apply Z.div_pos; lia|]. apply Z.div_lt_upper_bound; lia. }
    { lia. }
    { lia. }
    exists (ds ++ [mval ac mod ob]). rewrite map_app, <- app_assoc, length_app. cbn [map app length]. split; [do 2 f_equal; lia|].
    split; [apply Forall_app; split; [done|by apply Forall_cons]|]. split; [by destruct ds|]. split; [lia|].
    rewrite dval_snoc, Vd, Vq. lia.
Qed.

Lemma mneg_length a : wf a -> mval a < 0 -> (length (mneg a) <= length a)%nat.
Proof.
  intros Ha Hn. destruct (mneg_correct a Ha) as [Hm Vm]. destruct (wf_len a Ha) as (n & El & Hr).
  destruct (decide (length (mneg a) <= length a)%nat) as [|Hgt]; [done|]. exfalso.
  apply (wf_long (mneg a) (length (mneg a) - 2) Hm); [lia|]. apply (inrange_mono n); [lia|].
  rewrite Vm. unfold inrange, NEFL in *. lia.
Qed.

(** The characters of a number: a sign and its digits, most significant
    first. *)
Definition is_repr (ob : Z) (a : mint) (s : list Z) : Prop :=
  exists ds, is_digits ob ds /\ ds <> [] /\ dval ob 0 ds = Z.abs (mval a) /\
    s = (if ispos a then [] else [45]) ++ map chr ds.

Lemma mtos_spec fuel ob a : 2 <= ob <= 16 -> ob <> 5 -> wf a -> Z.of_nat (length a) < 9000 -> (7 * length a <= fuel)%nat ->
  exists s, mtos fuel ob a = MOk s /\ is_repr ob a s.
Proof.
  intros Hob H5 Ha Hl Hf. unfold mtos. destruct (mult_abs a Ha) as (Hac & _ & Vac). cbv zeta in Hac, Vac.
  pose proof (ispos_mval a Ha) as Ep.
  assert (length (if ispos a then a else mneg a) <= length a)%nat as Hlen.
  { rewrite Ep. destruct (Z.leb_spec 0 (mval a)); [done|]. by apply mneg_length. }
  unfold mcopy. set (ac := if ispos a then a else mneg a) in *.
  destruct (sizfac_spec ob Hob H5) as (f & -> & H128 & Hf7). cbn [mderef mbind].
  destruct (wf_len ac Hac) as (n & En & Hr).
  set (k := (length ac * f)%nat).
  assert (k <= 7 * length a)%nat as Hk7.
  { unfold k. rewrite (Nat.mul_comm 7). apply Nat.mul_le_mono; [done|]. apply Hf7. }
  assert (2 <= k)%nat as Hk2.
  { unfold k. rewrite En. destruct Hf7 as [Hf2 _]. nia. }
  assert (mval ac < ob ^ Z.of_nat k) as Hlt.
  { apply Z.lt_le_trans with (P (length ac)); [rewrite En, P_S; unfold inrange, NEFL, BASE in *; pose proof (P_pos n); lia|].
    unfold k. rewrite Nat2Z.inj_mul, Z.mul_comm, Z.pow_mul_r by lia. unfold P, BASE. apply Z.pow_le_mono_l. lia. }
  assert (u16 (1 + u16 (Z.of_nat (length ac)) * Z.of_nat f) = 1 + Z.of_nat k) as ->.
  { rewrite (u16_small (Z.of_nat _)) by lia. rewrite <- Nat2Z.inj_mul. fold k. apply u16_small. lia. }
  set (size := if negb (ispos a) then _ else _). assert (size = 1 + Z.of_nat k + (if ispos a then 0 else 1)) as Es.
  { unfold size. destruct (ispos a); cbn [negb]; [lia|]. rewrite u16_small by lia. lia. }
  replace k with (S (k - 1)) in Hlt by lia.
  destruct (mtos_loop_spec ob (k - 1) fuel ac (size - 1) [] Hob Hac) as (ds & -> & Hds & Hne & Hlds & Vds);
    [rewrite Vac in *; lia|lia|destruct (ispos a); lia|]. cbn [mbind fst snd]. rewrite app_nil_r.
  destruct (ispos a) eqn:Eip.
  - exists (map chr ds). split; [done|]. exists ds. rewrite Eip. rewrite Vac in Vds. done.
  - rewrite (proj2 (Z.leb_gt _ 0)) by lia. exists (45 :: map chr ds). split; [done|]. exists ds. rewrite Eip. rewrite Vac in Vds. done.
Qed.

(** What may follow a number in the input. *)
Definition stops (rest : list Z) : Prop := match rest with [] => True | c :: _ => okdigit c = false /\ c <> -1 end.

Lemma wf_digit d : 0 <= d < 16 -> wf [d] /\ mval [d] = d.
Proof.
  intros Hd. split.
  - split; [done|]. split; [apply digits_1; unfold BASE; lia|done].
  - cbn. unfold top_val, NEFL. destruct (Z.eqb_spec d 127); lia.
Qed.

Lemma min_loop_spec ob ds : forall d a rest, 2 <= ob <= 16 -> is_digits ob (d :: ds) -> wf a -> stops rest ->
  exists a' ch inp, min_loop ob (chr d) (map chr ds ++ rest) a = MOk (a', ch, inp) /\ wf a' /\ mval a' = dval ob (mval a) (d :: ds) /\
    (if ch =? -1 then inp else ch :: inp) = rest.
Proof.
  induction ds as [|d' ds IH]; intros d a rest Hob Hd Ha Hrest; apply Forall_cons in Hd as [Hd Hds];
    destruct (chr_spec d ltac:(lia)) as (_ & Ok & Vd & _);
    destruct (smult_correct a ob Ha) as (a1 & E1 & Ha1 & V1); try (unfold NEFL; lia);
    destruct (wf_digit d ltac:(lia)) as [Wd Md]; destruct (madd_correct a1 [d] Ha1 Wd) as [Ha2 V2].
  - destruct rest as [|c rest]; cbn [map app min_loop]; rewrite Ok, Vd, E1; cbn [mbind]; rewrite s8_small by lia.
    + exists (madd a1 [d]), (-1), []. split; [done|]. split; [done|]. rewrite V2, V1, Md. done.
    + destruct Hrest as [Hc Hc1]. exists (madd a1 [d]), c, rest.
      assert (forall b, min_loop ob c rest b = MOk (b, c, rest)) as -> by (intros b; destruct rest; cbn [min_loop]; by rewrite Hc).
      split; [done|]. split; [done|]. rewrite V2, V1, Md. split; [done|]. by rewrite (proj2 (Z.eqb_neq c (-1))).
  - cbn [map app min_loop]. rewrite Ok, Vd, E1. cbn [mbind]. rewrite s8_small by lia.
    destruct (IH d' (madd a1 [d]) rest Hob Hds Ha2 Hrest) as (a' & ch & inp & -> & Ha' & V' & Er).
    exists a', ch, inp. split; [done|]. split; [done|]. split; [|done]. rewrite V', V2, V1, Md. done.
Qed.

Lemma skip_digit d inp : 0 <= d < 16 -> skip_blanks (chr d :: inp) = (chr d, inp).
Proof. intros Hd. cbn [skip_blanks]. destruct (chr_spec d Hd) as (_ & _ & _ & _ & -> & _). by rewrite andb_false_r. Qed.

Lemma min_spec ob a s rest : 2 <= ob <= 16 -> wf a -> is_repr ob a s -> stops rest -> min ob (s ++ rest) = MOk (a, rest).
Proof.
  intros Hob Ha (ds & Hds & Hne & Vds & ->) Hrest. unfold min. rewrite (proj2 (Z.leb_le 2 ob)), (proj2 (Z.leb_le ob 16)) by lia. cbn [andb massert].
  destruct ds as [|d ds]; [done|]. pose proof Hds as Hd. apply Forall_cons in Hd as [Hd _].
  destruct (chr_spec d ltac:(lia)) as (_ & _ & _ & N45 & _ & _).
  destruct (min_loop_spec ob ds d mzero rest Hob Hds wf_mzero Hrest) as (a' & ch & inp & El & Ha' & V' & Er).
  change (mval mzero) with 0 in V'. rewrite Vds in V'. pose proof (ispos_mval a Ha) as Ep. destruct (ispos a) eqn:Eip.
  - cbn [map app]. rewrite skip_digit by lia. cbv beta iota zeta. rewrite (proj2 (Z.eqb_neq _ 45)) by done. cbv iota beta.
    unfold mcopy. rewrite El. cbn [mbind]. rewrite Er. do 2 f_equal. apply mval_inj; [done|done|]. symmetry in Ep. apply Z.leb_le in Ep. lia.
  - cbn [map app]. change (skip_blanks (45 :: chr d :: map chr ds ++ rest)) with (45, chr d :: map chr ds ++ rest). cbv beta iota zeta.
    change (45 =? 45) with true. cbv iota. rewrite skip_digit by lia. cbv beta iota.
    unfold mcopy. rewrite El. cbn [mbind]. rewrite Er. do 2 f_equal. destruct (mneg_correct a' Ha') as [Hm Vm].
    apply mval_inj; [done|done|]. symmetry in Ep. apply Z.leb_gt in Ep. lia.
Qed.

(** ** Properties *)

(** [spow] and [rpow] give the exact power, [rpow] reports a negative
    exponent, and [pow] gives a number congruent to the power, reduced below
    the modulus (and the true residue when the base is not negative); only the
    power 0 is left unreduced, at 1.  The loops run once for every bit of the
    exponent. *)
Theorem powers_correct fuel a b m n : wf a -> wf b -> wf m -> 0 < mval m -> 0 <= n < 65536 -> (0 < fuel)%nat -> mval b < 2 ^ Z.of_nat fuel ->
  (exists c, spow a n = MOk c /\ wf c /\ mval c = mval a ^ n) /\
  (if 0 <=? mval b then
     (exists c, rpow fuel a b = MOk c /\ wf c /\ mval c = mval a ^ mval b) /\
     (exists c, pow fuel a b m = MOk c /\ wf c /\ mval c mod mval m = mval a ^ mval b mod mval m /\
        (0 < mval b -> Z.abs (mval c) < mval m /\ (0 <= mval a -> mval c = mval a ^ mval b mod mval m)))
   else rpow fuel a b = MPerr /\ pow fuel a b m = MPerr).
Proof.
  intros Ha Hb Hm Hp Hn Hf Hlt. split; [by apply spow_correct|]. pose proof (rpow_correct fuel a b Ha Hb Hf Hlt) as Hr.
  destruct (Z.leb_spec 0 (mval b)) as [Hb0|Hb0].
  - split; [done|]. destruct (pow_spec m Hm Hp fuel a b Ha Hb Hb0 Hf Hlt) as (c & Ec & Hc & Em & Bc & Pc).
    exists c. split; [done|]. split; [done|]. split; [done|]. intros Hb1. split; [by apply Bc|]. intros Ha0.
    unfold eqm in Em. rewrite <- Em. symmetry. apply Z.mod_small. specialize (Bc Hb1). specialize (Pc Ha0). lia.
  - split; [done|]. unfold pow. rewrite ispos_mval by done. by rewrite (proj2 (Z.leb_gt 0 _)).
Qed.

(** [gcd] gives the greatest common divisor up to sign, and exactly for
    numbers that are not negative; for these [xgcd] gives it with multipliers
    [r] and [s] such that [g = r * a + s * b].  Euclid's loop takes no more
    turns than the two numbers have bits, and three.  For a negative number
    the multipliers of [xgcd] can be wrong. *)
Theorem gcd_xgcd_correct fuel a b : wf a -> wf b ->
  Z.log2 (Z.abs (mval a)) + Z.log2 (Z.abs (mval b)) + 3 <= Z.of_nat fuel ->
  (exists g, gcd fuel a b = MOk g /\ wf g /\ Z.abs (mval g) = Z.gcd (mval a) (mval b) /\ (0 <= mval a -> 0 <= mval b -> 0 <= mval g)) /\
  (0 <= mval a -> 0 <= mval b -> exists r s g, xgcd fuel a b = MOk (r, s, g) /\ wf r /\ wf s /\ wf g /\
     mval g = Z.gcd (mval a) (mval b) /\ mval g = mval r * mval a + mval s * mval b) /\
  (exists r s g, xgcd 9 [7] [125; 127] = MOk (r, s, g) /\ mval g <> mval r * 7 + mval s * (-3)).
Proof.
  intros Ha Hb Hf.
  assert (steps (mval a) (mval b) <= Z.of_nat fuel) as Hs.
  { unfold steps. pose proof (Z.log2_nonneg (Z.abs (mval a))). pose proof (Z.log2_nonneg (Z.abs (mval b))).
    destruct (mval b =? 0); [lia|]. destruct (_ <=? _); lia. }
  split; [by apply gcd_loop_spec|]. split.
  - intros Pa Pb. assert (wf [1] /\ wf [0] /\ mval [1] = 1 /\ mval [0] = 0) as (W1 & W0 & V1 & V0).
    { split; [by apply wf_b_wf|]. split; [by apply wf_b_wf|done]. }
    apply (xgcd_loop_spec (mval a) (mval b) fuel a b [1] [0] [0] [1]); try done; rewrite V1, V0; lia.
  - do 3 eexists. split; [vm_compute; reflexivity|]. vm_compute. discriminate.
Qed.

(** C38: [msqrt] stops after at most [7 * len + 3] turns of its loop, with the
    integer square root and the remainder, or reports a negative number. *)
Theorem msqrt_correct fuel a : wf a -> Z.of_nat (2 * length a) + 1 < 2 ^ 15 -> (7 * length a + 3 <= fuel)%nat ->
  if 0 <=? mval a then
    exists x r, msqrt fuel a = MOk (x, r) /\ wf x /\ wf r /\ mval x = Z.sqrt (mval a) /\ mval r = mval a - mval x * mval x
  else msqrt fuel a = MPerr.
Proof. apply msqrt_spec. Qed.

(** What [mtos] writes in a base, [min] reads back in that base, leaving
    the rest of the input, and [mtos] stays inside the space it has allocated;
    but for base 5, whose factor in [sizfac] is too small: 125 is written in
    front of the string. *)
Theorem mtos_min_roundtrip fuel base a rest : 2 <= base <= 16 -> base <> 5 -> wf a -> Z.of_nat (length a) < 9000 ->
  (7 * length a <= fuel)%nat -> stops rest ->
  (exists s, mtos fuel base a = MOk s /\ min base (s ++ rest) = MOk (a, rest)) /\
  mtos 9 5 [125] = MBad.
Proof.
  intros Hob H5 Ha Hl Hf Hrest. split; [|vm_compute; reflexivity].
  destruct (mtos_spec fuel base a Hob H5 Ha Hl Hf) as (s & Es & Hs). exists s. split; [done|]. by apply min_spec.
Qed.

Lemma powers_correct_witness :
  (exists c, spow m_5 3 = MOk c /\ wf c /\ mval c = -125) /\
  ((exists c, rpow 9 m_5 m300 = MOk c /\ wf c /\ mval c = (-5) ^ 300) /\
   (exists c, pow 9 m_5 m300 [7] = MOk c /\ wf c /\ mval c mod 7 = (-5) ^ 300 mod 7 /\
      (0 < 300 -> Z.abs (mval c) < 7 /\ (0 <= -5 -> mval c = (-5) ^ 300 mod 7)))).
Proof.
  apply (powers_correct 9 m_5 m300 [7] 3); [apply wf_m_5|apply wf_m300|by apply wf_b_wf|done|done|lia|done].
Defined.

Lemma gcd_xgcd_correct_witness :
  (exists g, gcd 15 m300 [21] = MOk g /\ wf g /\ Z.abs (mval g) = 3 /\ (0 <= 300 -> 0 <= 21 -> 0 <= mval g)) /\
  (0 <= 300 -> 0 <= 21 -> exists r s g, xgcd 15 m300 [21] = MOk (r, s, g) /\ wf r /\ wf s /\ wf g /\
     mval g = 3 /\ mval g = mval r * 300 + mval s * 21) /\
  (exists r s g, xgcd 9 [7] [125; 127] = MOk (r, s, g) /\ mval g <> mval r * 7 + mval s * (-3)).
Proof. apply (gcd_xgcd_correct 15 m300 [21]); [apply wf_m300|by apply wf_b_wf|done]. Defined.

Lemma msqrt_correct_witness :
  exists x r, msqrt 17 m300 = MOk (x, r) /\ wf x /\ wf r /\ mval x = 17 /\ mval r = 300 - mval x * mval x.
Proof. apply (msqrt_correct 17 m300); [apply wf_m300|done|cbn; lia]. Defined.

Lemma mtos_min_roundtrip_witness :
  (exists s, mtos 14 10 m_5 = MOk s /\ min 10 (s ++ [10]) = MOk (m_5, [10])) /\ mtos 9 5 [125] = MBad.
Proof. apply (mtos_min_roundtrip 14 10 m_5 [10]); [lia|done|apply wf_m_5|done|cbn; lia|done]. Defined.
