(* ===== verification/Clear.v ===== *)
(** [iclear] gives back exactly the blocks of a file (kernel/coh/fs1.c, with
    [indfree] and [bfree] of fs2.c). *)
From S2P Require Import Prelude Sched Bytes Bcache Super Fs Free Fmap Ftree Inode.
Local Open Scope Z_scope.
Local Open Scope kernel_scope.

(** ** The blocks below an address, in the order in which they are freed *)

Fixpoint ents (next : Z -> list Z) (d : list Z) (n : nat) : list Z :=
  match n with O => [] | S n => next (entry d (Z.of_nat n)) ++ ents next d n end.
Fixpoint below (v : bview) (dev : Z) (l : nat) : Z -> list Z :=
  match l with
  | O => fun b => if b =? 0 then [] else [b]
  | S l => let next := below v dev l in
    fun b => if b =? 0 then [] else ents next (v_blk v (dev, b)) (Z.to_nat NBN) ++ [b]
  end.
(** Those of the first [n] addresses. *)
Definition level (t : Z) : nat := depth t.
Fixpoint addrs_below (v : bview) (x : INODE) (n : nat) : list Z :=
  match n with
  | O => []
  | S n => below v (i_dev x) (level (Z.of_nat n)) (default 0 (i_addr x (Z.of_nat n))) ++ addrs_below v x n
  end.
Definition file_blocks (v : bview) (x : INODE) : list Z := addrs_below v x (Z.to_nat NADDR).

Lemma below_S v dev l b : below v dev (S l) b = if b =? 0 then [] else ents (below v dev l) (v_blk v (dev, b)) (Z.to_nat NBN) ++ [b].
Proof. done. Qed.

Lemma below_self v dev l b : b <> 0 -> b ∈ below v dev l b.
Proof.
  intros Hb. destruct l; cbn [below]; rewrite (proj2 (Z.eqb_neq b 0)) by done; [apply list_elem_of_singleton; done|].
  apply elem_of_app. right. by apply list_elem_of_singleton.
Qed.

Lemma elem_of_ents next d n c : c ∈ ents next d n <-> exists i, (i < n)%nat /\ c ∈ next (entry d (Z.of_nat i)).
Proof.
  induction n as [|n IH]; cbn [ents].
  - split; [by intros ?%elem_of_nil|intros (i & Hi & _); lia].
  - rewrite elem_of_app, IH. split.
    + intros [Hc|(i & Hi & Hc)]; [exists n|exists i]; (split; [lia|done]).
    + intros (i & Hi & Hc). destruct (decide (i = n)) as [->|]; [by left|right]. exists i. split; [lia|done].
Qed.

Lemma ents_ext next next' d n : (forall i, (i < n)%nat -> next (entry d (Z.of_nat i)) = next' (entry d (Z.of_nat i))) -> ents next d n = ents next' d n.
Proof.
  induction n as [|n IH]; intros Hn; [done|]. cbn [ents]. rewrite (Hn n) by lia. rewrite IH; [done|]. intros i Hi. apply Hn. lia.
Qed.

(** The list depends on these blocks only. *)
Lemma below_frame v w dev l : forall b, (forall c, c ∈ below v dev l b -> v_blk w (dev, c) = v_blk v (dev, c)) -> below w dev l b = below v dev l b.
Proof.
  induction l as [|l IH]; intros b Hc; [done|]. rewrite !below_S. rewrite below_S in Hc. case_eq (b =? 0); intros Hb; [done|]. rewrite Hb in Hc.
  rewrite (Hc b) by (apply elem_of_app; right; by apply list_elem_of_singleton). f_equal. apply ents_ext. intros i Hi. apply IH.
  intros c Hin. apply Hc. apply elem_of_app. left. apply elem_of_ents. by exists i.
Qed.

(** Exactly the blocks on the paths below. *)
Lemma walk_below v dev r : forall l b, (length r <= l)%nat -> Forall digit r -> walk v dev r b <> 0 -> walk v dev r b ∈ below v dev l b.
Proof.
  induction r as [|i r IH]; intros l b Hl Hd Hw; cbn [walk] in *; [by apply below_self|].
  destruct (Z.eqb_spec b 0) as [->|Hb]; [done|]. destruct l as [|l]; [cbn in Hl; lia|]. rewrite below_S, (proj2 (Z.eqb_neq b 0)) by done.
  apply Forall_cons in Hd as [Hi Hd]. unfold digit, NBN in Hi. apply elem_of_app. left. apply elem_of_ents. exists (Z.to_nat i).
  split; [unfold NBN; lia|]. rewrite Z2Nat.id by lia. apply IH; [cbn in Hl; lia|done|done].
Qed.
Lemma below_walk v dev l : forall b c, c ∈ below v dev l b -> c <> 0 /\ exists r, (length r <= l)%nat /\ Forall digit r /\ walk v dev r b = c.
Proof.
  induction l as [|l IH]; intros b c; [unfold below|rewrite below_S].
  - destruct (Z.eqb_spec b 0) as [Hb|Hb]; [by intros ?%elem_of_nil|]. intros ->%list_elem_of_singleton. split; [done|].
    exists []. cbn. split; [lia|done].
  - destruct (Z.eqb_spec b 0) as [Hb|Hb]; [by intros ?%elem_of_nil|]. intros [Hc|Hc]%elem_of_app.
    + apply elem_of_ents in Hc as (i & Hi & Hc). destruct (IH _ _ Hc) as (H0 & r & Hl & Hd & Hw). split; [done|].
      exists (Z.of_nat i :: r). cbn [length walk]. rewrite (proj2 (Z.eqb_neq b 0)) by done. split; [lia|]. split; [|done].
      apply Forall_cons. split; [unfold digit; lia|done].
    + apply list_elem_of_singleton in Hc. rewrite Hc. split; [done|]. exists []. cbn. split; [lia|done].
Qed.

Lemma elem_of_addrs v x n c : (Z.of_nat n <= NADDR) -> c ∈ addrs_below v x n <->
  exists t, (t < n)%nat /\ c ∈ below v (i_dev x) (level (Z.of_nat t)) (default 0 (i_addr x (Z.of_nat t))).
Proof.
  intros Hn. induction n as [|n IH]; cbn [addrs_below].
  - split; [by intros ?%elem_of_nil|intros (i & Hi & _); lia].
  - rewrite elem_of_app, IH by lia. split.
    + intros [Hc|(i & Hi & Hc)]; [exists n|exists i]; (split; [lia|done]).
    + intros (i & Hi & Hc). destruct (decide (i = n)) as [->|]; [by left|right]. exists i. split; [lia|done].
Qed.

Lemma node_walk v x t r : 0 <= t < NADDR -> node v x (t :: r) = walk v (i_dev x) r (default 0 (i_addr x t)).
Proof. intros Ht. cbn [node]. by destruct (i_addr_some x t Ht) as [pb ->]. Qed.

Lemma elem_of_file_blocks v x c : c ∈ file_blocks v x <-> exists q, fpath q /\ node v x q = c /\ c <> 0.
Proof.
  unfold file_blocks. rewrite elem_of_addrs by done. split.
  - intros (t & Ht & Hc). destruct (below_walk _ _ _ _ _ Hc) as (H0 & r & Hl & Hd & Hw). exists (Z.of_nat t :: r).
    unfold NADDR in *. rewrite node_walk by (unfold NADDR; lia). split; [|done]. split; [unfold NADDR; lia|done].
  - intros (q & Hq & Hn & H0). destruct q as [|t r]; [done|]. destruct Hq as (Ht & Hl & Hd). exists (Z.to_nat t).
    unfold NADDR in *. split; [lia|]. rewrite Z2Nat.id by lia. rewrite node_walk in Hn by (unfold NADDR; lia). subst c. by apply walk_below.
Qed.

(** No block is on two paths. *)
Definition winj (v : bview) (dev : Z) (l : nat) (b : Z) : Prop :=
  forall r r', (length r <= l)%nat -> (length r' <= l)%nat -> Forall digit r -> Forall digit r' ->
    walk v dev r b = walk v dev r' b -> walk v dev r b <> 0 -> r = r'.

Lemma winj_entry v dev l b i : winj v dev (S l) b -> b <> 0 -> digit i -> winj v dev l (entry (v_blk v (dev, b)) i).
Proof.
  intros Hw Hb Hi r r' Hl Hl' Hd Hd' E Hne.
  assert (forall r, walk v dev (i :: r) b = walk v dev r (entry (v_blk v (dev, b)) i)) as Hc.
  { intros r0. cbn [walk]. by rewrite (proj2 (Z.eqb_neq b 0)). }
  assert (i :: r = i :: r') as [= ?]; [|done]. apply Hw; rewrite ?Hc; try done; try (cbn; lia); by constructor.
Qed.

Lemma ents_nodup next d n : (forall i, (i < n)%nat -> NoDup (next (entry d (Z.of_nat i)))) ->
  (forall i j c, (i < n)%nat -> (j < n)%nat -> c ∈ next (entry d (Z.of_nat i)) -> c ∈ next (entry d (Z.of_nat j)) -> i = j) ->
  NoDup (ents next d n).
Proof.
  induction n as [|n IH]; intros Hn Hd; cbn [ents]; [constructor|]. apply NoDup_app. split; [apply Hn; lia|]. split.
  - intros c Hc (i & Hi & Hc')%elem_of_ents. assert (n = i); [|lia]. eapply Hd; [lia|lia|done|done].
  - apply IH; [intros; apply Hn; lia|]. intros i j c Hi Hj. apply Hd; lia.
Qed.

Lemma below_nodup v dev l : forall b, winj v dev l b -> NoDup (below v dev l b).
Proof.
  induction l as [|l IH]; intros b Hw; [unfold below; case_match; [constructor|apply NoDup_singleton]|].
  rewrite below_S. destruct (Z.eqb_spec b 0) as [Hb|Hb]; [constructor|].
  assert (forall i c, (i < Z.to_nat NBN)%nat -> c ∈ below v dev l (entry (v_blk v (dev, b)) (Z.of_nat i)) ->
    c <> 0 /\ exists r, (length r <= l)%nat /\ Forall digit (Z.of_nat i :: r) /\ walk v dev (Z.of_nat i :: r) b = c) as Hp.
  { intros i c Hi Hc. destruct (below_walk _ _ _ _ _ Hc) as (H0 & r & Hl & Hd & Hr). split; [done|]. exists r. split; [done|].
    cbn [walk]. rewrite (proj2 (Z.eqb_neq b 0)) by done. split; [|done]. apply Forall_cons. split; [unfold digit; lia|done]. }
  apply NoDup_app. split; [|split; [|apply NoDup_singleton]].
  - apply ents_nodup.
    + intros i Hi. apply IH. apply winj_entry; [done|done|unfold digit; lia].
    + intros i j c Hi Hj Hci Hcj. destruct (Hp i c Hi Hci) as (H0 & r & Hl & Hd & Hr). destruct (Hp j c Hj Hcj) as (_ & r' & Hl' & Hd' & Hr').
      assert (Z.of_nat i :: r = Z.of_nat j :: r') as [= E _]; [|lia]. apply Hw; try done; [cbn; lia|cbn; lia|congruence|congruence].
  - intros c (i & Hi & Hc)%elem_of_ents Hcb. apply list_elem_of_singleton in Hcb. destruct (Hp i c Hi Hc) as (H0 & r & Hl & Hd & Hr).
    assert (Z.of_nat i :: r = []); [|done]. apply Hw; try done; [cbn; lia|cbn; lia|by rewrite Hr, Hcb|by rewrite Hr].
Qed.

Lemma file_blocks_nodup v x f l : tree v x f l -> NoDup (file_blocks v x).
Proof.
  intros Ht. unfold file_blocks. assert (Z.of_nat (Z.to_nat NADDR) <= NADDR) as Hn by done. revert Hn. generalize (Z.to_nat NADDR) as n.
  assert (forall t, 0 <= t < NADDR -> winj v (i_dev x) (level t) (default 0 (i_addr x t))) as Hw.
  { intros t Htr r r' Hl Hl' Hd Hd' E Hne. rewrite <- (node_walk v x t r Htr) in E, Hne. rewrite <- (node_walk v x t r' Htr) in E.
    assert (t :: r = t :: r') as [= ?]; [|done]. apply (tr_inj _ _ _ _ Ht); [split; [done|by split]|split; [done|by split]|done|done]. }
  induction n as [|n IH]; intros Hn; cbn [addrs_below]; [constructor|]. apply NoDup_app. split; [apply below_nodup, Hw; lia|].
  split; [|apply IH; lia]. intros c Hc. rewrite elem_of_addrs by lia. intros (t & Htn & Hc').
  destruct (below_walk _ _ _ _ _ Hc) as (H0 & r & Hl & Hd & Hr). destruct (below_walk _ _ _ _ _ Hc') as (_ & r' & Hl' & Hd' & Hr').
  rewrite <- node_walk in Hr, Hr' by lia.
  assert (Z.of_nat n :: r = Z.of_nat t :: r') as [= E _]; [|lia].
  apply (tr_inj _ _ _ _ Ht); [split; [lia|done]|split; [lia|done]|congruence|congruence].
Qed.

(** ** What can be freed, and what freeing does *)

Record can_free (dev : Z) (v : bview) (f : filsys) (l L : list Z) : Prop := {
  cf_list : freelist dev v f l;
  cf_nodup : NoDup L;
  cf_in : forall b, b ∈ L -> outside f b = false /\ (b ∉ l) /\ unheld (dev, b) v /\ arebytes (v_blk v (dev, b));
  cf_super : unheld (dev, SUPERI) v;
  cf_good : forall b, v_good v (dev, b) = true;
  cf_dev : dev <> NODEV
}.

Record gives (dev : Z) (v : bview) (f : filsys) (l L : list Z) (v' : bview) (f' : filsys) : Prop := {
  gi_list : freelist dev v' f' (rev L ++ l);
  gi_held : v_held v' = v_held v;
  gi_good : v_good v' = v_good v;
  gi_blk : forall k, k <> (dev, SUPERI) -> (k.1 = dev -> k.2 ∉ L) -> v_blk v' k = v_blk v k;
  gi_count : counted f f' (Z.of_nat (length L))
}.

Lemma gives_nil dev v f l : freelist dev v f l -> gives dev v f l [] v f.
Proof. intros Hl. split; try done. apply counted_self, Hl. Qed.

Lemma counted_trans f g h d d' : counted f g d -> counted g h d' -> counted f h (d + d').
Proof.
  intros [A1 A2 (A3 & A4 & A5) A6] [B1 B2 (B3 & B4 & B5) B6]. split; [congruence|congruence|split_and!; congruence|].
  rewrite B6, A6. apply (wraps_eqm 32 _ _ (- ((s_tfree f + d + 2 ^ 31) / 2 ^ 32))); [done|]. unfold s32, wraps.
  pose proof (Z.div_mod (s_tfree f + d + 2 ^ 31) (2 ^ 32) ltac:(done)). change (32 - 1) with 31. lia.
Qed.

Lemma gives_trans dev v f l L1 v1 f1 L2 v2 f2 : gives dev v f l L1 v1 f1 -> gives dev v1 f1 (rev L1 ++ l) L2 v2 f2 -> gives dev v f l (L1 ++ L2) v2 f2.
Proof.
  intros [A1 A2 A3 A4 A5] [B1 B2 B3 B4 B5]. split; [by rewrite rev_app_distr, <- app_assoc|congruence|congruence| |].
  - intros k Hk Hin. rewrite B4, A4; [done|done| |done|]; intros Ek Hl; apply (Hin Ek), elem_of_app; tauto.
  - rewrite length_app, Nat2Z.inj_add. by eapply counted_trans.
Qed.

Lemma can_free_head dev v f l L1 L2 : can_free dev v f l (L1 ++ L2) -> can_free dev v f l L1.
Proof.
  intros [A1 A2 A3 A4 A5 A6]. apply NoDup_app in A2 as [A2 _]. split; try done.
  intros b Hb. apply A3, elem_of_app. by left.
Qed.

Lemma can_free_tail dev v f l L1 L2 v1 f1 : can_free dev v f l (L1 ++ L2) -> gives dev v f l L1 v1 f1 ->
  can_free dev v1 f1 (rev L1 ++ l) L2 /\ forall b, b ∈ L2 -> v_blk v1 (dev, b) = v_blk v (dev, b).
Proof.
  intros [A1 A2 A3 A4 A5 A6] [B1 B2 B3 B4 B5]. apply NoDup_app in A2 as (N1 & N2 & N3).
  assert (forall b, b ∈ L2 -> outside f b = false /\ (b ∉ l) /\ unheld (dev, b) v /\ arebytes (v_blk v (dev, b))) as A3'.
  { intros b Hb. apply A3, elem_of_app. by right. }
  assert (forall b, b ∈ L2 -> v_blk v1 (dev, b) = v_blk v (dev, b)) as Hs.
  { intros b Hb. apply B4; [|intros _ Hin; by eapply N2]. destruct (A3' b Hb) as (Ho & _).
    destruct (inside_super f b (fr_isize _ _ _ _ A1) Ho) as [Hne _]. congruence. }
  split; [|done]. split; [done|done| |by intros h b Hh; rewrite B2 in Hh; by eapply A4|intros b; by rewrite B3|done].
  intros b Hb. destruct (A3' b Hb) as (Ho & Hl & Hu & Hby). split; [|split; [|split]].
  - unfold outside in *. by rewrite (ct_isize _ _ _ B5), (ct_fsize _ _ _ B5).
  - rewrite elem_of_app. intros [Hin|Hin]; [|done]. apply list_elem_of_In, in_rev, list_elem_of_In in Hin. by eapply N2.
  - intros h hb Hh. rewrite B2 in Hh. by eapply Hu.
  - by rewrite Hs.
Qed.

(** The same list of blocks after others were freed. *)
Lemma below_gives dev v f l L1 v1 f1 k b : can_free dev v f l (L1 ++ below v dev k b) -> gives dev v f l L1 v1 f1 ->
  below v1 dev k b = below v dev k b.
Proof. intros Hc Hg. apply below_frame. by apply (can_free_tail _ _ _ _ _ _ _ _ Hc Hg). Qed.

(** ** The code *)

Section code.
Context {C : Type} `{BufCacheLaws C}.
Context (retry : nat) (Hretry : (0 < retry)%nat).
Context (s0 : fs C) (dev : Z) (mp0 : MOUNT) (e : Z).
Context (Hlk : m_flock mp0 = false) (Hro : Z.land (m_flag mp0) MFRON = 0).
Implicit Types (v : bview) (f : filsys).

Local Abbreviation at_ f v s := (fs_at s0 dev (set_m_super f mp0) v e s).

(** [F] frees the block [b] and what is below it, [k] levels down. *)
Definition frees (F : Z -> M (fs C) unit) (k : nat) : Prop :=
  forall v f l b s, at_ f v s -> can_free dev v f l (below v dev k b) -> b <> 0 -> (size (v_held v) + k < NHOLD)%nat ->
    wp (F b) (fun _ s' => exists v' f', at_ f' v' s' /\ gives dev v f l (below v dev k b) v' f') s.

Lemma wp_bfree_one v f l b s : at_ f v s -> can_free dev v f l [b] -> (size (v_held v) < NHOLD)%nat ->
  wp (bfree retry dev b) (fun _ s' => exists v' f', at_ f' v' s' /\ gives dev v f l [b] v' f') s.
Proof.
  intros Hat [Hl _ Hin Hu Hg Hd] Hsz. destruct (Hin b) as (Ho & Hnl & Hub & _); [by apply list_elem_of_singleton|].
  assert (is32 b) as H32.
  { pose proof (so_long _ (fr_ok _ _ _ _ Hl)) as Hlg. apply Forall_cons in Hlg as [Hz _]. pose proof (fr_isize _ _ _ _ Hl).
    destruct (inside_super f b (fr_isize _ _ _ _ Hl) Ho) as (_ & _ & ?). unfold is32 in *. lia. }
  eapply wp_mono; [eapply (wp_bfree retry Hretry); [by apply Hat|by apply Hat|by split|done|done|done|done|done|done|done]|].
  intros _ s' (v1 & v' & f' & Hat' & (E1 & G1 & B1) & (E2 & G2 & B2) & Hl' & Hc & _). exists v', f'.
  rewrite (at_error _ _ _ _ _ _ Hat) in Hat'. split; [by eapply fs_at_trans|].
  split; [done|congruence|congruence| |done]. intros k Hk Hb. rewrite B2 by done. apply B1. intros ->.
  apply Hb; [done|]. by apply list_elem_of_singleton.
Qed.

Lemma frees_bfree : frees (bfree retry dev) 0.
Proof.
  intros v f l b s Hat Hc Hb Hsz. unfold below in *. rewrite (proj2 (Z.eqb_neq b 0)) in * by done.
  eapply wp_bfree_one; [done|done|lia].
Qed.

Lemma entry_zero D i : arebytes D -> get32 D (Z.to_nat (4 * i)) = 0 <-> entry D i = 0.
Proof.
  intros HD. pose proof (get32_range D (Z.to_nat (4 * i)) HD) as Hr. unfold entry. split; [by intros ->|]. intros E.
  apply (f_equal canl) in E. rewrite canl_canl in E. change (canl 0) with 0 in E.
  apply (f_equal u32) in E. rewrite !u32_s32 in E. by rewrite u32_small in E.
Qed.

Lemma below_0 v k : below v dev k 0 = [].
Proof. by destruct k. Qed.

Lemma wp_ind_loop F k D h hb n : frees F k -> arebytes D -> h_data hb = D ->
  forall v f l s, at_ f v s -> v_held v !! h = Some hb -> can_free dev v f l (ents (below v dev k) D n) ->
  (size (v_held v) + k < NHOLD)%nat ->
  wp (ind_loop F h n) (fun _ s' => exists v' f', at_ f' v' s' /\ gives dev v f l (ents (below v dev k) D n) v' f') s.
Proof.
  intros HF HD Hhb. induction n as [|n IH]; intros v f l s Hat Hh Hc Hsz; cbn [ind_loop ents] in *.
  { apply wp_ret. exists v, f. split; [done|]. apply gives_nil, Hc. }
  apply wp_bind. eapply wp_vaddr; [done|done|]. rewrite Hhb. apply wp_bind.
  pose proof (entry_zero D (Z.of_nat n) HD) as Ez. replace (Z.to_nat (4 * Z.of_nat n)) with (4 * n)%nat in Ez by lia.
  assert (wp (if get32 D (4 * n) =? 0 then kret tt else F (entry D (Z.of_nat n))) (fun _ s' => exists v' f', at_ f' v' s' /\
    gives dev v f l (below v dev k (entry D (Z.of_nat n))) v' f') s) as H1.
  { destruct (Z.eqb_spec (get32 D (4 * n)) 0) as [E|E].
    - rewrite (proj1 Ez E), below_0. apply wp_ret. exists v, f. split; [done|]. apply gives_nil, Hc.
    - apply HF; [done|by eapply can_free_head|by intros ?%Ez|done]. }
  eapply wp_mono; [exact H1|]. intros _ s1 (v1 & f1 & Hat1 & Hg1).
  destruct (can_free_tail _ _ _ _ _ _ _ _ Hc Hg1) as [Hc1 Hs1].
  assert (ents (below v1 dev k) D n = ents (below v dev k) D n) as Ee.
  { apply ents_ext. intros i Hi. apply below_frame. intros c Hcb. apply Hs1, elem_of_ents. by exists i. }
  eapply wp_mono; [eapply (IH v1 f1); [exact Hat1|..]|].
  - by rewrite (gi_held _ _ _ _ _ _ _ Hg1).
  - rewrite Ee. exact Hc1.
  - by rewrite (gi_held _ _ _ _ _ _ _ Hg1).
  - intros _ s2 (v2 & f2 & Hat2 & Hg2). rewrite Ee in Hg2. exists v2, f2. split; [done|]. by eapply gives_trans.
Qed.

Lemma can_free_hold v f l L b h d : can_free dev v f l L -> (b ∉ L) -> b <> SUPERI -> v_held v !! h = None ->
  can_free dev (put_held h (Hbuf (dev, b) false d) v) f l L.
Proof.
  intros [A1 A2 A3 A4 A5 A6] Hb Hs Hh.
  assert (forall c, c <> b -> unheld (dev, c) v -> unheld (dev, c) (put_held h (Hbuf (dev, b) false d) v)) as Hu.
  { intros c Hcb Hc h' hb'. cbn. destruct (decide (h' = h)) as [->|Hne].
    - rewrite lookup_insert_eq. intros [= <-]. cbn. congruence.
    - rewrite lookup_insert_ne by done. apply Hc. }
  split; [by destruct A1; split|done| |by apply Hu|done|done].
  intros c Hc. destruct (A3 c Hc) as (? & ? & ? & ?). split; [done|]. split; [done|]. split; [|done].
  apply Hu; [|done]. by intros ->.
Qed.

Lemma gives_drop v f l L b h d v' f' : gives dev (put_held h (Hbuf (dev, b) false d) v) f l L v' f' -> v_held v !! h = None ->
  gives dev v f l L (drop_held h v') f'.
Proof.
  intros [A1 A2 A3 A4 A5] Hh. split; [by destruct A1; split| |done|done|done].
  cbn. rewrite A2. cbn. by rewrite delete_insert_id.
Qed.

Lemma frees_ind_step F k : frees F k -> frees (fun b =>
    if b =? 0 then kret tt else
    r <- bread dev b ;;
    match r with
    | Some bp => ind_loop F bp (Z.to_nat NBN) ;;; brelease bp
    | None => kret tt
    end ;;;
    bfree retry dev b) (S k).
Proof.
  intros HF v f l b s Hat Hc Hb Hsz. rewrite below_S in *. rewrite (proj2 (Z.eqb_neq b 0)) in * by done.
  set (L := ents (below v dev k) (v_blk v (dev, b)) (Z.to_nat NBN)) in *.
  assert (b ∈ L ++ [b]) as Hbin by (apply elem_of_app; right; by apply list_elem_of_singleton).
  destruct (cf_in _ _ _ _ _ Hc b Hbin) as (Ho & Hnl & Hub & Hby).
  assert (b ∉ L) as HbL.
  { pose proof (cf_nodup _ _ _ _ _ Hc) as Hnd. apply NoDup_app in Hnd as (_ & Hnd & _). intros Hin. apply (Hnd b Hin). by apply list_elem_of_singleton. }
  assert (b <> SUPERI) as Hbs by (by apply (inside_super f b (fr_isize _ _ _ _ (cf_list _ _ _ _ _ Hc)))).
  apply wp_bind. eapply wp_bread; [done|done|unfold room; lia|apply Hc|apply Hc|]. intros h s1 Hh Hat1.
  set (vh := put_held h (Hbuf (dev, b) false (v_blk v (dev, b))) v) in *.
  assert (ents (below vh dev k) (v_blk v (dev, b)) (Z.to_nat NBN) = L) as EL.
  { apply ents_ext. intros i Hi. by apply below_frame. }
  apply wp_bind, wp_bind. eapply wp_mono; [eapply (wp_ind_loop F k (v_blk v (dev, b)) h (Hbuf (dev, b) false (v_blk v (dev, b))) _ HF Hby)|].
  - reflexivity.
  - exact Hat1.
  - apply held_put.
  - rewrite EL. apply can_free_hold; [by eapply can_free_head|done|done|done].
  - cbn. rewrite map_size_insert_None by done. lia.
  - intros _ s2 (v2 & f2 & Hat2 & Hg). rewrite EL in Hg. eapply wp_brelease; [done| | |].
    + rewrite (gi_held _ _ _ _ _ _ _ Hg). apply held_put.
    + left. cbn. symmetry. apply (gi_blk _ _ _ _ _ _ _ Hg); [congruence|]. by intros _.
    + intros s3 Hat3. unfold released in Hat3. cbn [h_mod] in Hat3. apply gives_drop in Hg; [|done].
      destruct (can_free_tail _ _ _ _ _ _ _ _ Hc Hg) as [Hc3 _].
      eapply wp_mono; [apply (wp_bfree_one _ _ _ b s3 Hat3 Hc3)|].
      * rewrite (gi_held _ _ _ _ _ _ _ Hg). lia.
      * intros _ s4 (v4 & f4 & Hat4 & Hg4). exists v4, f4. split; [done|]. by eapply gives_trans.
Qed.

Lemma frees_indfree k : frees (indfree retry dev k) k.
Proof.
  induction k as [|k IH].
  - intros v f l b s Hat Hc Hb Hsz. cbn [indfree]. rewrite (proj2 (Z.eqb_neq b 0)) by done. by apply frees_bfree.
  - assert (frees (match k with O => bfree retry dev | _ => indfree retry dev k end) k) as HF by (destruct k; [apply frees_bfree|exact IH]).
    exact (frees_ind_step _ _ HF).
Qed.
End code.

Section iclear.
Context {C : Type} `{BufCacheLaws C}.
Context (retry : nat) (Hretry : (0 < retry)%nat).

Lemma wp_clear_addrs (s0 : fs C) ip x mp e n : m_flock mp = false -> Z.land (m_flag mp) MFRON = 0 -> inodep s0 !! ip = Some x ->
  Z.of_nat n <= NADDR ->
  forall v f l s, fs_at s0 (i_dev x) (set_m_super f mp) v e s -> can_free (i_dev x) v f l (addrs_below v x n) -> v_held v = ∅ ->
  wp (clear_addrs retry n ip) (fun _ s' => exists v' f', fs_at s0 (i_dev x) (set_m_super f' mp) v' e s' /\
    gives (i_dev x) v f l (addrs_below v x n) v' f') s.
Proof.
  intros Hlk Hro Hx. induction n as [|n IH]; intros Hn v f l s Hat Hc Hh; cbn [clear_addrs addrs_below] in *.
  { apply wp_ret. exists v, f. split; [done|]. apply gives_nil, Hc. }
  apply wp_bind. eapply wp_get_inode; [done|done|]. apply wp_bind.
  destruct (i_addr_some x (Z.of_nat n)) as [b Eb]; [lia|]. rewrite Eb in *. cbn [default] in *.
  change (default 0 (Some b)) with b in *. eapply wp_deref; [reflexivity|]. apply wp_bind.
  assert (wp (if b =? 0 then kret tt else if ND <=? Z.of_nat n then indfree retry (i_dev x) (Z.to_nat (1 + Z.of_nat n - ND)) b
      else bfree retry (i_dev x) b) (fun _ s' => exists v' f', fs_at s0 (i_dev x) (set_m_super f' mp) v' e s' /\
    gives (i_dev x) v f l (below v (i_dev x) (level (Z.of_nat n)) b) v' f') s) as H1.
  { destruct (Z.eqb_spec b 0) as [->|Hb].
    - rewrite below_0. apply wp_ret. exists v, f. split; [done|]. apply gives_nil, Hc.
    - apply can_free_head in Hc. assert (level (Z.of_nat n) <= 3)%nat as Hl by (unfold level, depth, ND, NADDR in *; lia).
      assert (forall k, (k <= 3)%nat -> (size (v_held v) + k < NHOLD)%nat) as Hs by (intros; rewrite Hh, map_size_empty; unfold NHOLD; lia).
      destruct (Z.leb_spec ND (Z.of_nat n)) as [Hd|Hd].
      + replace (Z.to_nat (1 + Z.of_nat n - ND)) with (level (Z.of_nat n)) by (unfold level, depth, ND in *; lia).
        apply (frees_indfree retry Hretry s0 (i_dev x) mp e Hlk Hro _ v f l b s); auto.
      + assert (level (Z.of_nat n) = O) as E0 by (unfold level, depth, ND in *; lia). rewrite E0 in *.
        apply (frees_bfree retry Hretry s0 (i_dev x) mp e Hlk Hro v f l b s); auto. }
  eapply wp_mono; [exact H1|]. intros _ s1 (v1 & f1 & Hat1 & Hg1).
  destruct (can_free_tail _ _ _ _ _ _ _ _ Hc Hg1) as [Hc1 Hs1].
  assert (addrs_below v1 x n = addrs_below v x n) as Ee.
  { assert (forall m, (m <= n)%nat -> addrs_below v1 x m = addrs_below v x m) as Ha; [|by apply Ha].
    induction m as [|m IHm]; intros Hm; [done|]. cbn [addrs_below]. rewrite IHm by lia. f_equal. apply below_frame.
    intros c Hcb. apply Hs1, elem_of_addrs; [lia|]. exists m. split; [lia|done]. }
  eapply wp_mono; [eapply (IH ltac:(lia) v1 f1); [exact Hat1|by rewrite Ee|by rewrite (gi_held _ _ _ _ _ _ _ Hg1)]|].
  intros _ s2 (v2 & f2 & Hat2 & Hg2). rewrite Ee in Hg2. exists v2, f2. split; [done|]. by eapply gives_trans.
Qed.

(** The inode of a file that was cleared. *)
Definition cleared (t : Z) (x : INODE) : INODE :=
  set_i_ctime t (set_i_mtime t (set_i_atime t (set_i_flag (Z.lor (i_flag x) (Z.lor (Z.lor IFACC IFMOD) IFCRT))
    (set_i_a (repeat 0 52) (set_i_size 0 x))))).

Definition iclear_post (s : fs C) (ip : nat) (x : INODE) (mp : MOUNT) (v : bview) (e : Z) (l : list Z) (s' : fs C) : Prop :=
  let L := file_blocks v x in
  exists v' f', NoDup L /\ (forall b, b ∈ L <-> exists q, fpath q /\ node v x q = b /\ b <> 0) /\
    fs_at (set_inodep (<[ip := cleared (t_time s) x]> (inodep s)) s) (i_dev x) (set_m_super f' mp) v' e s' /\
    freelist (i_dev x) v' f' (rev L ++ l) /\ counted (m_super mp) f' (Z.of_nat (length L)) /\
    v_held v' = ∅ /\ v_good v' = v_good v /\
    forall k, k <> (i_dev x, SUPERI) -> (k.1 = i_dev x -> k.2 ∉ L) -> v_blk v' k = v_blk v k.

(** C27: [iclear] of a regular file or a directory gives back every block of
    the file, of data and of indirection at all three levels, exactly once and
    no other block, in front of the free list; it counts them, leaves every
    other block and every gate as it was, and leaves an empty inode with no
    addresses that is marked changed now.  On a file that is neither, nor a
    pipe, it does nothing. *)
Theorem iclear_correct (s : fs C) ip x mp v e l : at_file s ip x (i_dev x) mp v e s -> file_ok s ip x mp v l ->
  (forall b, b ∈ file_blocks v x -> arebytes (v_blk v (i_dev x, b))) ->
  (itype x = IFREG \/ itype x = IFDIR -> wp (iclear retry ip) (fun _ => iclear_post s ip x mp v e l) s) /\
  (itype x <> IFREG -> itype x <> IFDIR -> itype x <> IFPIPE -> iclear retry ip s = Ret tt s).
Proof.
  intros [Hat [Hx _]] [Hh Hg Hd Hlk Hro Hfl Ht] Hby. unfold iclear. split; [intros Hty|intros H1 H2 H3].
  - apply wp_bind. eapply wp_get_inode; [exact Hat|exact Hx|].
    assert ((itype x =? IFPIPE) = false /\ (itype x =? IFDIR) || (itype x =? IFREG) = true) as [-> ->] by (by destruct Hty as [-> | ->]).
    assert (set_m_super (m_super mp) mp = mp) as Emp by (by destruct mp).
    assert (can_free (i_dev x) v (m_super mp) l (file_blocks v x)) as Hc.
    { split; [done|by eapply file_blocks_nodup| |by apply unheld_none|done|done]. intros b Hb. pose proof Hb as Hin.
      apply elem_of_file_blocks in Hin as (q & Hq & <- & Hn). destruct (tr_in _ _ _ _ Ht q Hq Hn) as [? ?].
      split; [done|]. split; [done|]. split; [by apply unheld_none|by apply Hby]. }
    apply wp_bind. eapply wp_mono; [eapply (wp_clear_addrs s ip x mp e (Z.to_nat NADDR) Hlk Hro Hx ltac:(done) v); [by rewrite Emp|done|done]|].
    intros _ s1 (v1 & f1 & Hat1 & [G1 G2 G3 G4 G5]).
    assert ((ip < length (inodep s))%nat) as Hip by (by eapply lookup_lt_Some).
    apply wp_bind. eapply wp_puti; [exact Hat1|exact Hx|]. intros s2 Hat2.
    apply wp_bind. eapply wp_puti; [exact Hat2|apply list_lookup_insert_eq; exact Hip|]. intros s3 Hat3.
    unfold iamc. apply wp_bind, wp_gets.
    eapply wp_puti; [exact Hat3|apply list_lookup_insert_eq; cbn; rewrite length_insert; exact Hip|]. intros s4 Hat4.
    destruct (at_ids _ _ _ _ _ _ Hat3) as (_ & _ & Et & _). rewrite Et in Hat4. cbn [inodep set_inodep t_time] in Hat4.
    rewrite !list_insert_insert_eq in Hat4.
    exists v1, f1. split; [by apply Hc|]. split; [intros; apply elem_of_file_blocks|]. split; [exact Hat4|].
    split; [done|]. split; [done|]. split; [congruence|]. done.
  - unfold kbind, geti, get. cbn [obind]. unfold kbind. cbn [obind]. rewrite Hx. cbn [deref kret obind].
    by rewrite !(proj2 (Z.eqb_neq _ _)).
Qed.
End iclear.

(** ** A concrete instance *)

(** The file of [w_tstate] has a data block 12, an indirect block 13 and below
    it a data block 14; its free list is 9, 7. *)
Lemma w_file_blocks : file_blocks w_tview w_inode = [14; 13; 12].
Proof. vm_compute. reflexivity. Qed.

Lemma w_blocks_bytes b : b ∈ file_blocks w_tview w_inode -> arebytes (v_blk w_tview (i_dev w_inode, b)).
Proof.
  rewrite w_file_blocks. intros Hin. apply (bool_decide_unpack _).
  apply list_elem_of_In in Hin. repeat (destruct Hin as [<-|Hin]; [vm_compute; reflexivity|]). destruct Hin.
Qed.

Lemma iclear_correct_witness : exists b s', iclear 1 0 w_tstate = Ret b s' /\
  iclear_post w_tstate 0 w_inode (w_mount 0) w_tview 0 [9; 7] s'.
Proof.
  refine (proj1 (wp_returns _ _ _) (proj1 (iclear_correct 1 _ w_tstate 0 w_inode (w_mount 0) w_tview 0 [9; 7] _ w_file_ok w_blocks_bytes) _)).
  - lia.
  - split; [by apply fs_at_self|done].
  - by left.
Defined.
