(* ===== verification/Sort.v ===== *)
(** The sorting routines of libc: [qsort] (userland/lib/libc/gen/qsort.c) and
    [shellsort] (shellsort.c).

    Memory is a list of chars, an address its index; an access outside it has
    no meaning ([None]).  The caller's comparison routine is a parameter, a
    function of the two records it is given.  The loops carry fuel; the
    theorems show that there is enough of it. *)
From stdpp Require Import sorting.
From S2P Require Import Prelude.
Local Open Scope Z_scope.

(** [qsort]'s M: the size below which a partition is sorted by [qlinsert]. *)
Definition M : Z := 10.

(** One byte exchanged through the saved char. *)
Definition xbyte (m : list Z) (p1 p2 : Z) : option (list Z) :=
  save ← aget m p1;
  x ← aget m p2;
  m ← aset m p1 x;
  aset m p2 save.

(** [do { … } while (--width)], [width] times. *)
Fixpoint qexchange (m : list Z) (p1 p2 : Z) (width : nat) : option (list Z) :=
  match width with
  | O => Some m
  | S width => m ← xbyte m p1 p2; qexchange m (p1 + 1) (p2 + 1) width
  end.

Section sort.
  Context (compar : list Z -> list Z -> Z).
  Context (width : Z).

(** The record at [p], and the call of the comparison routine. *)
Definition recd (m : list Z) (p : Z) : option (list Z) :=
  if (0 <=? p) && (p + width <=? Z.of_nat (length m))
  then Some (take (Z.to_nat width) (drop (Z.to_nat p) m)) else None.

Definition cmp (m : list Z) (p q : Z) : option Z :=
  a ← recd m p; b ← recd m q; Some (compar a b).

(** *** qsort.c *)

Definition qmedian (m : list Z) (a b c : Z) : option Z :=
  ab ← cmp m a b;
  let '(bmin, bmax) := if ab <? 0 then (a, b) else (b, a) in
  xc ← cmp m bmax c;
  if xc <? 0 then Some bmax
  else nc ← cmp m bmin c; Some (if nc <? 0 then c else bmin).

(** The inner loop of [qlinsert], [n] times. *)
Fixpoint qmin (n : nat) (m : list Z) (min mbase : Z) : option Z :=
  match n with
  | O => Some min
  | S n =>
    c ← cmp m mbase min;
    qmin n m (if c <? 0 then mbase else min) (mbase + width)
  end.

(** Its outer loop, [nel] counting down to zero. *)
Fixpoint qlinsert_loop (nel : nat) (m : list Z) (base : Z) : option (list Z) :=
  match nel with
  | O => Some m
  | S nel' =>
    min ← qmin nel m base (base + width);
    m ← qexchange m min base (Z.to_nat width);
    qlinsert_loop nel' m (base + width)
  end.

Definition qlinsert (m : list Z) (base nel : Z) : option (list Z) :=
  qlinsert_loop (Z.to_nat (nel - 1)) m base.

Fixpoint up_loop (fuel : nat) (m : list Z) (base bot top : Z) : option Z :=
  match fuel with
  | O => None
  | S fuel =>
    let bot := bot + width in
    c ← cmp m base bot;
    if (0 <=? c) && (bot <? top) then up_loop fuel m base bot top else Some bot
  end.

Fixpoint down_loop (fuel : nat) (m : list Z) (base top : Z) : option Z :=
  match fuel with
  | O => None
  | S fuel =>
    let top := top - width in
    c ← cmp m top base;
    if (0 <=? c) && (base <? top) then down_loop fuel m base top else Some top
  end.

Fixpoint part_loop (fuel : nat) (m : list Z) (base bot top : Z) : option (list Z * Z * Z) :=
  match fuel with
  | O => None
  | S fuel' =>
    bot ← up_loop fuel m base bot top;
    top ← down_loop fuel m base top;
    if bot <? top
    then m ← qexchange m bot top (Z.to_nat width); part_loop fuel' m base bot top
    else Some (m, bot, top)
  end.

Fixpoint qsort_fuel (fuel : nat) (m : list Z) (base nel : Z) : option (list Z) :=
  match fuel with
  | O => None
  | S fuel =>
    let top := base + u16 (nel * width) in
    if nel <? M
    then (if 1 <? nel then qlinsert m base nel else Some m)
    else
      p ← qmedian m base (base + u16 (nel / 2 * width)) (top - width);
      m ← qexchange m base p (Z.to_nat width);
      '(m, bot, top) ← part_loop (S (Z.to_nat nel)) m base base top;
      m ← qexchange m top base (Z.to_nat width);
      m ← qsort_fuel fuel m base ((top - base) / width);
      qsort_fuel fuel m bot (nel - (bot - base) / width)
  end.

(** A call sorts a smaller array than its caller, so [nel] calls deep is enough. *)
Definition qsort (m : list Z) (base nel : Z) : option (list Z) :=
  qsort_fuel (S (Z.to_nat nel)) m base nel.

(** *** shellsort.c: [A(v,i)], and [qexch], whose count is a char *)

Definition A (v i : Z) : Z := v + s16 (i * width).

Fixpoint qexch_loop (fuel : nat) (m : list Z) (p1 p2 n : Z) : option (list Z) :=
  match fuel with
  | O => None
  | S fuel =>
    m ← xbyte m p1 p2;
    let n := s8 (n - 1) in
    if n =? 0 then Some m else qexch_loop fuel m (p1 + 1) (p2 + 1) n
  end.

Definition qexch (m : list Z) (p1 p2 : Z) (size : Z) : option (list Z) :=
  let n := s8 size in
  if n =? 0 then Some m else qexch_loop 256 m p1 p2 n.

Fixpoint shell_j (fuel : nat) (m : list Z) (v gap j : Z) : option (list Z) :=
  match fuel with
  | O => None
  | S fuel =>
    if 0 <=? j then
      c ← cmp m (A v j) (A v (j + gap));
      if c <=? 0 then Some m
      else m ← qexch m (A v j) (A v (j + gap)) width; shell_j fuel m v gap (j - gap)
    else Some m
  end.

Fixpoint shell_i (fuel : nat) (m : list Z) (v n gap i : Z) : option (list Z) :=
  match fuel with
  | O => None
  | S fuel =>
    if i <? n
    then m ← shell_j (S (Z.to_nat n)) m v gap (i - gap); shell_i fuel m v n gap (i + 1)
    else Some m
  end.

Fixpoint shell_gap (fuel : nat) (m : list Z) (v n gap : Z) : option (list Z) :=
  match fuel with
  | O => None
  | S fuel =>
    if 0 <? gap
    then m ← shell_i (S (Z.to_nat n)) m v n gap gap; shell_gap fuel m v n (Z.quot gap 2)
    else Some m
  end.

Definition shellsort (m : list Z) (v n : Z) : option (list Z) :=
  shell_gap (S (Z.to_nat n)) m v n (Z.quot n 2).

End sort.

(** ** Exchanging bytes and records *)

Lemma aget_app {T} (l1 l2 : list T) x i :
  i = Z.of_nat (length l1) -> aget (l1 ++ x :: l2) i = Some x.
Proof.
  intros ->. unfold aget. rewrite (proj2 (Z.ltb_ge _ 0)), Nat2Z.id by lia. by apply list_lookup_middle.
Qed.

Lemma aset_app {T} (l1 l2 : list T) x y i :
  i = Z.of_nat (length l1) -> aset (l1 ++ x :: l2) i y = Some (l1 ++ y :: l2).
Proof.
  intros ->. rewrite aset_is_Some by (rewrite length_app; cbn [length]; lia).
  rewrite Nat2Z.id. f_equal. rewrite insert_app_r_alt by lia. by rewrite Nat.sub_diag.
Qed.

Lemma xbyte_comm m p q : xbyte m p q = xbyte m q p.
Proof.
  unfold xbyte.
  destruct (aget m p) as [x|] eqn:Ep, (aget m q) as [y|] eqn:Eq; simpl; try done.
  apply aget_range in Ep as Hp. apply aget_range in Eq as Hq.
  rewrite !(aset_is_Some m) by done. simpl.
  rewrite !aset_is_Some by (rewrite length_insert; done). f_equal.
  destruct (decide (p = q)) as [->|Hne]; [congruence|].
  apply list_insert_insert_ne. lia.
Qed.

Lemma qexchange_comm n : forall m p q, qexchange m p q n = qexchange m q p n.
Proof.
  induction n as [|n IH]; intros m p q; simpl; [done|].
  rewrite xbyte_comm. destruct (xbyte m q p); simpl; auto.
Qed.

Lemma xbyte_app l1 l2 l3 x y p q :
  p = Z.of_nat (length l1) -> q = p + 1 + Z.of_nat (length l2) ->
  xbyte (l1 ++ x :: l2 ++ y :: l3) p q = Some (l1 ++ y :: l2 ++ x :: l3).
Proof.
  intros -> ->. unfold xbyte.
  assert (E : forall a b : Z, l1 ++ a :: l2 ++ b :: l3 = (l1 ++ a :: l2) ++ b :: l3)
    by (intros; by rewrite <- app_assoc).
  rewrite (aget_app l1 _ x _ eq_refl). simpl.
  rewrite (E x y), aget_app by (rewrite length_app; simpl; lia). simpl.
  rewrite <- E, (aset_app l1 _ _ _ _ eq_refl). simpl.
  rewrite E, aset_app by (rewrite length_app; simpl; lia). by rewrite E.
Qed.

Lemma qexchange_app : forall (a b l1 l2 l3 : list Z) p q,
  length a = length b ->
  p = Z.of_nat (length l1) -> q = p + Z.of_nat (length a + length l2) ->
  qexchange (l1 ++ a ++ l2 ++ b ++ l3) p q (length a) = Some (l1 ++ b ++ l2 ++ a ++ l3).
Proof.
  induction a as [|x a IH]; intros [|y b] l1 l2 l3 p q Hl Hp Hq; simpl in *; try done.
  rewrite (app_assoc a l2), xbyte_app; [|done|rewrite length_app; lia]. simpl.
  pose proof (IH b (l1 ++ [y]) (l2 ++ [x]) l3 (p + 1) (q + 1)) as E.
  rewrite <- !app_assoc in E. simpl in E. rewrite <- app_assoc. apply E; [lia|..].
  - rewrite length_app. simpl. lia.
  - rewrite length_app. simpl. lia.
Qed.

(** A list with the elements at [i] and [j] exchanged. *)
Definition swap {T} (i j : nat) (l : list T) : list T :=
  match l !! i, l !! j with Some a, Some b => <[i := b]> (<[j := a]> l) | _, _ => l end.

Lemma swap_perm {T} i j (l : list T) : swap i j l ≡ₚ l.
Proof.
  unfold swap. destruct (l !! i) eqn:Ei, (l !! j) eqn:Ej; try done.
  by apply Permutation_insert_swap.
Qed.

Lemma length_swap {T} i j (l : list T) : length (swap i j l) = length l.
Proof. apply Permutation_length, swap_perm. Qed.

Lemma lookup_swap {T} i j (l : list T) k a b : l !! i = Some a -> l !! j = Some b ->
  swap i j l !! k = if decide (k = i) then Some b else if decide (k = j) then Some a else l !! k.
Proof.
  intros Hi Hj. unfold swap. rewrite Hi, Hj.
  apply lookup_lt_Some in Hi as Li. apply lookup_lt_Some in Hj as Lj.
  destruct (decide (k = i)) as [->|].
  - by rewrite list_lookup_insert_eq by (rewrite length_insert; done).
  - rewrite list_lookup_insert_ne by done. destruct (decide (k = j)) as [->|].
    + by rewrite list_lookup_insert_eq.
    + by rewrite list_lookup_insert_ne.
Qed.

Lemma swap_comm {T} i j (l : list T) : swap i j l = swap j i l.
Proof.
  apply list_eq. intros k.
  destruct (l !! i) as [a|] eqn:Ei, (l !! j) as [b|] eqn:Ej; [|unfold swap; by rewrite Ei, Ej..].
  rewrite (lookup_swap _ _ _ _ _ _ Ei Ej), (lookup_swap _ _ _ _ _ _ Ej Ei).
  repeat case_decide; congruence.
Qed.

Lemma swap_lt {T} i j (l1 l2 l3 : list T) a b : i = length l1 -> j = (i + 1 + length l2)%nat ->
  swap i j (l1 ++ a :: l2 ++ b :: l3) = l1 ++ b :: l2 ++ a :: l3.
Proof.
  intros Hi Hj.
  assert (Ei : (l1 ++ a :: l2 ++ b :: l3) !! i = Some a) by (subst i; by apply list_lookup_middle).
  assert (E : forall x y : T, l1 ++ x :: l2 ++ y :: l3 = (l1 ++ x :: l2) ++ y :: l3)
    by (intros; by rewrite <- app_assoc).
  assert (Ej : (l1 ++ a :: l2 ++ b :: l3) !! j = Some b).
  { rewrite E. apply list_lookup_middle. rewrite length_app. simpl. lia. }
  unfold swap. rewrite Ei, Ej, E.
  rewrite (insert_app_r_alt (l1 ++ a :: l2)) by (rewrite length_app; simpl; lia).
  rewrite length_app. simpl.
  replace (j - (length l1 + S (length l2)))%nat with 0%nat by lia. simpl.
  rewrite <- E, insert_app_r_alt by lia. subst i. by rewrite Nat.sub_diag.
Qed.

Lemma swap_self {T} i (l : list T) : swap i i l = l.
Proof. unfold swap. destruct (l !! i) eqn:E; [|done]. by rewrite list_insert_insert_eq, list_insert_id. Qed.

Lemma xbyte_self m p : 0 <= p < Z.of_nat (length m) -> xbyte m p p = Some m.
Proof.
  intros Hp. unfold xbyte. destruct (aget_is_Some m p Hp) as [x Hx]. rewrite Hx. simpl.
  rewrite (aset_is_Some m) by done. simpl.
  rewrite aset_is_Some by (by rewrite length_insert). f_equal.
  rewrite list_insert_insert_eq. apply list_insert_id. unfold aget in Hx.
  by destruct (p <? 0).
Qed.

Lemma qexchange_self n : forall m p, 0 <= p /\ p + Z.of_nat n <= Z.of_nat (length m) ->
  qexchange m p p n = Some m.
Proof.
  induction n as [|n IH]; intros m p Hp; [done|]. cbn [qexchange].
  rewrite xbyte_self by lia. apply IH. lia.
Qed.

Lemma list_cut3 {T} (l : list T) t b : (t <= b <= length l)%nat ->
  exists l1 l2 l3, l = l1 ++ l2 ++ l3 /\ length l1 = t /\ length (l1 ++ l2) = b.
Proof.
  intros H. exists (take t l), (take (b - t) (drop t l)), (drop b l).
  rewrite app_assoc, take_take_drop. replace (t + (b - t))%nat with b by lia.
  rewrite take_drop, !length_take. split_and!; [done|lia|lia].
Qed.


(** ** Memory holding an array of records *)

Section records.
  Context (compar : list Z -> list Z -> Z) (width : Z).
  Context (width_pos : 0 < width).

#[local] Abbreviation w := (Z.to_nat width).
#[local] Abbreviation sized := (Forall (fun r : list Z => length r = w)).
#[local] Abbreviation image pre rs post := (pre ++ concat rs ++ post).

(** The address of record [i] of an array at [base]. *)
Definition at_ (base : Z) (i : nat) : Z := base + Z.of_nat i * width.

Lemma length_records rs : sized rs -> length (concat rs) = (length rs * w)%nat.
Proof. induction 1 as [|r rs Hr _ IH]; simpl; [done|]. rewrite length_app. lia. Qed.

Lemma length_images pre rs post :
  sized rs -> length (image pre rs post) = (length pre + length rs * w + length post)%nat.
Proof. intros. rewrite !length_app, length_records by done. lia. Qed.

Lemma sized_swap i j rs : sized rs -> sized (swap i j rs).
Proof. intros. by rewrite swap_perm. Qed.

Lemma recd_at pre rs post base i r :
  base = Z.of_nat (length pre) -> sized rs -> rs !! i = Some r ->
  recd width (image pre rs post) (at_ base i) = Some r.
Proof.
  intros -> Hs Hi. apply lookup_lt_Some in Hi as Hlt.
  assert (Hr : length r = w) by exact (Forall_lookup_1 _ _ _ _ Hs Hi).
  unfold recd, at_.
  rewrite (proj2 (Z.leb_le 0 _)) by lia. rewrite (proj2 (Z.leb_le _ _)); cycle 1.
  { rewrite length_images by done. nia. }
  simpl. f_equal.
  rewrite <- (take_drop_middle _ _ _ Hi) at 1.
  assert (Ht : sized (take i rs)) by (by apply Forall_take).
  rewrite concat_app. simpl. rewrite <- !app_assoc, (app_assoc pre).
  rewrite drop_app_length'; [by rewrite <- Hr, take_app_length|].
  rewrite length_app, length_records, length_take by done. lia.
Qed.

(** The record just past the array can be read; what it holds is of no consequence. *)
Lemma recd_past pre rs post base :
  base = Z.of_nat (length pre) -> sized rs -> (w <= length post)%nat ->
  is_Some (recd width (image pre rs post) (at_ base (length rs))).
Proof.
  intros -> Hs Hp. unfold recd, at_.
  rewrite (proj2 (Z.leb_le 0 _)) by lia. rewrite (proj2 (Z.leb_le _ _)); [by eexists|].
  rewrite length_images by done. nia.
Qed.

Lemma cmp_at pre rs post base i j a b :
  base = Z.of_nat (length pre) -> sized rs -> rs !! i = Some a -> rs !! j = Some b ->
  cmp compar width (image pre rs post) (at_ base i) (at_ base j) = Some (compar a b).
Proof.
  intros Hb Hs Hi Hj. unfold cmp. rewrite (recd_at _ _ _ _ _ _ Hb Hs Hi). simpl.
  by rewrite (recd_at _ _ _ _ _ _ Hb Hs Hj).
Qed.

Lemma qexchange_at pre rs post base i j :
  base = Z.of_nat (length pre) -> sized rs -> (i < length rs)%nat -> (j < length rs)%nat ->
  qexchange (image pre rs post) (at_ base i) (at_ base j) w = Some (image pre (swap i j rs) post).
Proof.
  assert (Hlt : forall i j, base = Z.of_nat (length pre) -> sized rs -> (i < j < length rs)%nat ->
    qexchange (image pre rs post) (at_ base i) (at_ base j) w = Some (image pre (swap i j rs) post)).
  { clear i j. intros i j -> Hs Hij.
    destruct (lookup_lt_is_Some_2 rs i) as [a Ha]; [lia|].
    destruct (lookup_lt_is_Some_2 rs j) as [b Hb]; [lia|].
    assert (La : length a = w) by exact (Forall_lookup_1 _ _ _ _ Hs Ha).
    assert (Lb : length b = w) by exact (Forall_lookup_1 _ _ _ _ Hs Hb).
    assert (E : rs = take i rs ++ a :: take (j - i - 1) (drop (S i) rs) ++ b :: drop (S j) rs).
    { rewrite <- (take_drop_middle _ _ _ Ha) at 1. do 2 f_equal.
      rewrite <- (take_drop_middle (drop (S i) rs) (j - i - 1) b) at 1.
      - do 2 f_equal. rewrite drop_drop. f_equal. lia.
      - rewrite lookup_drop. rewrite <- Hb. f_equal. lia. }
    set (l1 := take i rs) in *. set (l2 := take _ (drop _ _)) in *. set (l3 := drop (S j) rs) in *.
    assert (L1 : length l1 = i) by (unfold l1; rewrite length_take; lia).
    assert (L2 : length l2 = (j - i - 1)%nat).
    { unfold l2. rewrite length_take, length_drop. lia. }
    assert (S1 : sized l1) by (by apply Forall_take).
    assert (S2 : sized l2) by (by apply Forall_take, Forall_drop).
    rewrite E at 1 2. rewrite swap_lt by lia.
    rewrite !concat_app, !concat_cons, !concat_app, !concat_cons, <- !app_assoc, !(app_assoc pre).
    rewrite <- La at 1. apply qexchange_app; [lia| |].
    - unfold at_. rewrite length_app, length_records by done. lia.
    - unfold at_. rewrite length_records by done. nia. }
  intros Hb Hs Hi Hj. destruct (decide (i < j)%nat); [apply Hlt; auto; lia|].
  destruct (decide (i = j)) as [->|].
  { rewrite swap_self, qexchange_self; [done|]. subst base. rewrite length_images by done.
    unfold at_. nia. }
  rewrite qexchange_comm, swap_comm. apply Hlt; auto; lia.
Qed.
End records.

(** What a comparison routine promises: the sign of its result orders the records. *)
Class Ordering (compar : list Z -> list Z -> Z) : Prop := {
  cmp_sign a b : compar a b < 0 <-> 0 < compar b a;
  cmp_trans a b c : compar a b <= 0 -> compar b c <= 0 -> compar a c <= 0
}.

Section order.
  Context (compar : list Z -> list Z -> Z).

Definition le_rec (a b : list Z) : Prop := compar a b <= 0.

Context `{!Ordering compar}.

Lemma le_rec_trans a b c : le_rec a b -> le_rec b c -> le_rec a c.
Proof. apply cmp_trans. Qed.

Lemma le_rec_refl a : le_rec a a.
Proof. unfold le_rec. pose proof (cmp_sign a a). lia. Qed.

Lemma le_rec_ge a b : 0 <= compar b a <-> le_rec a b.
Proof. unfold le_rec. pose proof (cmp_sign b a). lia. Qed.

Lemma le_rec_lt a b : compar a b < 0 -> le_rec a b.
Proof. unfold le_rec. lia. Qed.

Lemma sorted_between l p :
  Forall (fun x => le_rec x p) l -> Forall (le_rec p) l -> StronglySorted le_rec l.
Proof.
  induction l as [|x l IH]; intros Hu Hd; constructor.
  - apply IH; by eapply Forall_inv_tail.
  - apply Forall_inv in Hu. apply Forall_inv_tail in Hd.
    eapply Forall_impl; [exact Hd|]. intros y. by apply le_rec_trans.
Qed.

Lemma StronglySorted_app3 l1 l2 p :
  StronglySorted le_rec l1 -> StronglySorted le_rec l2 ->
  Forall (fun x => le_rec x p) l1 -> Forall (le_rec p) l2 -> StronglySorted le_rec (l1 ++ l2).
Proof.
  intros S1 S2 F1 F2. apply StronglySorted_app_2; [|done..].
  intros x y Hx Hy. rewrite Forall_forall in F1, F2. apply le_rec_trans with p; auto.
Qed.
End order.

(** What a sort leaves in place of the records [rs]. *)
Definition sorts (compar : list Z -> list Z -> Z) (rs rs' : list (list Z)) : Prop :=
  rs' ≡ₚ rs /\ (Ordering compar -> StronglySorted (le_rec compar) rs').

Section qsort.
  Context (compar : list Z -> list Z -> Z) (width : Z).
  Context (width_pos : 0 < width).

#[local] Abbreviation w := (Z.to_nat width).
#[local] Abbreviation sized := (Forall (fun r : list Z => length r = w)).
#[local] Abbreviation image pre rs post := (pre ++ concat rs ++ post).
#[local] Abbreviation at_ := (at_ width).
#[local] Abbreviation le_rec := (le_rec compar).

(** *** The selection sort *)

Lemma qmin_spec pre rs post base : base = Z.of_nat (length pre) -> sized rs ->
  forall n i j a, (i + n = length rs)%nat -> rs !! j = Some a ->
  exists k b, qmin compar width n (image pre rs post) (at_ base j) (at_ base i) = Some (at_ base k) /\
    rs !! k = Some b /\
    (Ordering compar -> le_rec b a /\ forall x, x ∈ drop i rs -> le_rec b x).
Proof.
  intros Hb Hs. induction n as [|n IH]; intros i j a Hin Hj; simpl.
  { exists j, a. split_and!; [done|done|]. intros HO. split; [by apply le_rec_refl|].
    intros x. rewrite drop_ge by lia. by intros ?%not_elem_of_nil. }
  destruct (lookup_lt_is_Some_2 rs i) as [c Hc]; [lia|].
  rewrite (cmp_at compar width width_pos _ _ _ _ _ _ _ _ Hb Hs Hc Hj). simpl.
  replace (at_ base i + width) with (at_ base (S i)) by (unfold Sort.at_; lia).
  assert (Hd : drop i rs = c :: drop (S i) rs) by (by apply drop_S).
  destruct (Z.ltb_spec (compar c a) 0) as [Hlt|Hge].
  - destruct (IH (S i) i c) as (k & b & E & Hk & HO); [lia|done|].
    exists k, b. split_and!; [done..|]. intros HO'. destruct (HO HO') as [H1 H2].
    split; [eapply cmp_trans; [exact H1|lia]|]. intros x. rewrite Hd.
    intros [->|Hx]%elem_of_cons; auto.
  - destruct (IH (S i) j a) as (k & b & E & Hk & HO); [lia|done|].
    exists k, b. split_and!; [done..|]. intros HO'. destruct (HO HO') as [H1 H2].
    split; [done|]. intros x. rewrite Hd. intros [->|Hx]%elem_of_cons; [|auto].
    eapply cmp_trans; [exact H1|]. by apply le_rec_ge.
Qed.

Lemma qlinsert_loop_spec : forall n pre rs post base,
  base = Z.of_nat (length pre) -> sized rs -> length rs = S n ->
  exists rs', qlinsert_loop compar width n (image pre rs post) base = Some (image pre rs' post) /\
    sorts compar rs rs'.
Proof.
  induction n as [|n IH]; intros pre rs post base Hb Hs Hn; cbn [qlinsert_loop].
  { exists rs. split; [done|]. split; [reflexivity|]. intros _.
    destruct rs as [|r [|]]; [done| |done]. constructor; [constructor|constructor]. }
  destruct rs as [|r rs]; [done|]. simpl in Hn.
  destruct (qmin_spec pre (r :: rs) post base Hb Hs (S n) 1 0 r) as (k & b & E & Hk & HO);
    [simpl; lia|done|].
  replace (at_ base 0) with base in E by (unfold Sort.at_; lia).
  replace (at_ base 1) with (base + width) in E by (unfold Sort.at_; lia).
  rewrite E. simpl.
  assert (Hkl : (k < length (r :: rs))%nat) by (by apply lookup_lt_Some in Hk).
  pose proof (qexchange_at width width_pos pre (r :: rs) post base k 0 Hb Hs Hkl ltac:(simpl; lia)) as Ex.
  replace (at_ base 0) with base in Ex by (unfold Sort.at_; lia).
  change (concat (r :: rs)) with (r ++ concat rs) in Ex |- *. rewrite Ex. simpl.
  pose proof (swap_perm k 0 (r :: rs)) as Hp.
  pose proof (lookup_swap k 0 (r :: rs) 0 b r Hk eq_refl) as H0.
  assert (H0' : swap k 0 (r :: rs) !! 0%nat = Some b).
  { rewrite H0. case_decide; [by subst k|done]. }
  pose proof (sized_swap width k 0 (r :: rs) Hs) as Hs'.
  destruct (swap k 0 (r :: rs)) as [|b' rs1] eqn:Es; [done|]. injection H0' as ->.
  apply Forall_cons in Hs' as [Lb Hs1].
  destruct (IH (pre ++ b) rs1 post (base + width)) as (rs' & E' & Hp' & HS'); [..|].
  { rewrite length_app. lia. }
  { done. }
  { apply Permutation_length in Hp. simpl in Hp. lia. }
  rewrite <- !app_assoc in E'. exists (b :: rs'). simpl. rewrite <- app_assoc, E'. split; [by rewrite <- app_assoc|split].
  - by rewrite Hp'.
  - intros HO'. destruct (HO HO') as [Hbr Hall]. constructor; [by apply HS'|].
    apply Forall_forall. intros x Hx. rewrite Hp' in Hx.
    assert (Hx' : x ∈ r :: rs) by (rewrite <- Hp; by right).
    apply elem_of_cons in Hx' as [->|Hx']; [done|]. apply Hall. simpl. by rewrite drop_0.
Qed.

Lemma qlinsert_spec pre rs post base nel :
  base = Z.of_nat (length pre) -> sized rs -> nel = Z.of_nat (length rs) -> 1 < nel ->
  exists rs', qlinsert compar width (image pre rs post) base nel = Some (image pre rs' post) /\
    sorts compar rs rs'.
Proof. intros Hb Hs Hn H1. apply qlinsert_loop_spec; [done..|lia]. Qed.

(** *** The partition *)

Lemma qmedian_spec pre rs post base i j k :
  base = Z.of_nat (length pre) -> sized rs ->
  (i < length rs)%nat -> (j < length rs)%nat -> (k < length rs)%nat ->
  exists l, (l < length rs)%nat /\
    qmedian compar width (image pre rs post) (at_ base i) (at_ base j) (at_ base k) = Some (at_ base l).
Proof.
  intros Hb Hs [a Ha]%lookup_lt_is_Some_2 [b Hj]%lookup_lt_is_Some_2 [c Hk]%lookup_lt_is_Some_2.
  pose proof (lookup_lt_Some _ _ _ Ha). pose proof (lookup_lt_Some _ _ _ Hj).
  pose proof (lookup_lt_Some _ _ _ Hk).
  unfold qmedian. rewrite (cmp_at compar width width_pos _ _ _ _ _ _ _ _ Hb Hs Ha Hj). simpl.
  destruct (compar a b <? 0).
  all: repeat (erewrite (cmp_at compar width width_pos _ _ _ _ _ _ _ _ Hb Hs) by eassumption; simpl).
  all: repeat case_match; eauto.
Qed.

(** The pivot [p] is record 0; [bot] has passed every record up to [b], [top]
    every one from [t] on. *)
Definition passed (p : list Z) (rs : list (list Z)) (b t : nat) : Prop :=
  forall k x, rs !! k = Some x ->
    ((1 <= k <= b)%nat -> le_rec x p) /\ ((t <= k)%nat -> le_rec p x).

Lemma up_loop_spec pre rs post base p :
  base = Z.of_nat (length pre) -> sized rs -> (w <= length post)%nat -> rs !! 0%nat = Some p ->
  forall fuel b t, (b < t <= length rs)%nat -> (t - b <= fuel)%nat ->
  exists b', up_loop compar width fuel (image pre rs post) base (at_ base b) (at_ base t) = Some (at_ base b') /\
    (b < b' <= t)%nat /\
    (forall k x, rs !! k = Some x -> (b < k < b')%nat -> 0 <= compar p x) /\
    (b' = t \/ exists y, rs !! b' = Some y /\ compar p y < 0).
Proof.
  intros Hb Hs Hp H0. induction fuel as [|fuel IH]; intros b t Hbt Hf; [lia|]. cbn [up_loop].
  replace (at_ base b + width) with (at_ base (S b)) by (unfold Sort.at_; lia).
  assert (E0 : base = at_ base 0) by (unfold Sort.at_; lia).
  assert (exists c, cmp compar width (image pre rs post) base (at_ base (S b)) = Some c /\
    forall y, rs !! S b = Some y -> c = compar p y) as (c & Ec & Hc).
  { destruct (decide (S b = length rs)) as [El|].
    - destruct (recd_past width width_pos pre rs post base Hb Hs Hp) as [y Hy].
      exists (compar p y). split; [|intros z Hz%lookup_lt_Some; lia].
      unfold cmp. rewrite El, Hy. rewrite E0 at 1.
      by rewrite (recd_at width width_pos _ _ _ _ _ _ Hb Hs H0).
    - destruct (lookup_lt_is_Some_2 rs (S b)) as [y Hy]; [lia|].
      exists (compar p y). split; [|naive_solver].
      rewrite E0 at 1. by rewrite (cmp_at compar width width_pos _ _ _ _ _ _ _ _ Hb Hs H0 Hy). }
  rewrite Ec. simpl.
  destruct (Z.leb_spec 0 c) as [Hge|Hlt]; simpl.
  - destruct (Z.ltb_spec (at_ base (S b)) (at_ base t)) as [Hl|Hl]; unfold Sort.at_ in Hl.
    + destruct (IH (S b) t) as (b' & E & Hr & Hk & He); [nia|lia|].
      exists b'. split_and!; [done|lia|lia| |done].
      intros k x Hx Hkb. destruct (decide (k = S b)) as [->|].
      * rewrite <- (Hc _ Hx). lia.
      * apply (Hk k x Hx). lia.
    + exists (S b). split_and!; [done|lia|lia| |left; nia]. intros; lia.
  - exists (S b). split_and!; [done|lia|lia| |]; [intros; lia|].
    destruct (decide (S b = t)) as [|]; [by left|right].
    destruct (lookup_lt_is_Some_2 rs (S b)) as [y Hy]; [lia|].
    exists y. split; [done|]. by rewrite <- (Hc _ Hy).
Qed.

Lemma down_loop_spec pre rs post base p :
  base = Z.of_nat (length pre) -> sized rs -> rs !! 0%nat = Some p ->
  forall fuel t, (0 < t <= length rs)%nat -> (t <= fuel)%nat ->
  exists t', down_loop compar width fuel (image pre rs post) base (at_ base t) = Some (at_ base t') /\
    (t' < t)%nat /\
    (forall k x, rs !! k = Some x -> (t' < k < t)%nat -> 0 <= compar x p) /\
    (t' = 0%nat \/ exists y, rs !! t' = Some y /\ compar y p < 0).
Proof.
  intros Hb Hs H0. induction fuel as [|fuel IH]; intros t Ht Hf; [lia|]. cbn [down_loop].
  destruct t as [|t]; [lia|].
  replace (at_ base (S t) - width) with (at_ base t) by (unfold Sort.at_; lia).
  assert (E0 : base = at_ base 0) by (unfold Sort.at_; lia).
  destruct (lookup_lt_is_Some_2 rs t) as [y Hy]; [lia|].
  pose proof (cmp_at compar width width_pos pre rs post base _ _ _ _ Hb Hs Hy H0) as Ec.
  rewrite <- E0 in Ec. rewrite Ec. simpl.
  destruct (Z.leb_spec 0 (compar y p)) as [Hge|Hlt]; simpl.
  - destruct (Z.ltb_spec base (at_ base t)) as [Hl|Hl]; unfold Sort.at_ in Hl.
    + destruct (IH t) as (t' & E & Hr & Hk & He); [nia|lia|].
      exists t'. split_and!; [done|lia| |done]. intros k x Hx Hkt.
      destruct (decide (k = t)) as [->|]; [naive_solver|]. apply (Hk k x Hx). lia.
    + exists t. split_and!; [done|lia|intros; lia|left; nia].
  - exists t. split_and!; [done|lia|intros; lia|]. right. eauto.
Qed.

Lemma passed_swap p rs b t b' t' y z :
  Ordering compar -> passed p rs b t -> (b < b' < t')%nat -> (t' < t)%nat -> rs !! 0%nat = Some p ->
  (forall k x, rs !! k = Some x -> (b < k < b')%nat -> 0 <= compar p x) ->
  (forall k x, rs !! k = Some x -> (t' < k < t)%nat -> 0 <= compar x p) ->
  rs !! b' = Some y -> compar p y < 0 -> rs !! t' = Some z -> compar z p < 0 ->
  passed p (swap b' t' rs) b' t'.
Proof.
  intros HO HP Hb Ht H0 Hup Hdown Hy Cy Hz Cz k x.
  rewrite (lookup_swap _ _ _ _ _ _ Hy Hz).
  destruct (decide (k = b')) as [->|]; [|destruct (decide (k = t')) as [->|]].
  - intros [= <-]. split; [intros _; by apply le_rec_lt|lia].
  - intros [= <-]. split; [lia|intros _; by apply le_rec_lt].
  - intros Hx. destruct (HP k x Hx) as [H1 H2]. split; intros Hk.
    + destruct (decide (k <= b)%nat); [apply H1; lia|]. apply le_rec_ge, (Hup k x Hx); [done|lia].
    + destruct (decide (t <= k)%nat); [by apply H2|]. apply le_rec_ge, (Hdown k x Hx); [done|lia].
Qed.

Lemma part_loop_spec pre post base p : base = Z.of_nat (length pre) -> (w <= length post)%nat ->
  forall fuel rs b t, sized rs -> rs !! 0%nat = Some p -> (b < t <= length rs)%nat -> (t < fuel)%nat ->
  (Ordering compar -> passed p rs b t) ->
  exists rs' b' t',
    part_loop compar width fuel (image pre rs post) base (at_ base b) (at_ base t) =
      Some (image pre rs' post, at_ base b', at_ base t') /\
    rs' ≡ₚ rs /\ rs' !! 0%nat = Some p /\ (t' < length rs)%nat /\ (1 <= b' <= length rs)%nat /\ (t' <= b')%nat /\
    (Ordering compar -> (t' < b')%nat /\ passed p rs' (b' - 1) (S t') /\
       (forall x, rs' !! t' = Some x -> le_rec x p)).
Proof.
  intros Hb Hp. induction fuel as [|fuel IH]; intros rs b t Hs H0 Hbt Hf HP; [lia|]. cbn [part_loop].
  destruct (up_loop_spec pre rs post base p Hb Hs Hp H0 (S fuel) b t) as (b' & E1 & Hb' & Hup & Hy);
    [lia|lia|].
  rewrite E1. cbn [mbind option_bind].
  destruct (down_loop_spec pre rs post base p Hb Hs H0 (S fuel) t) as (t' & E2 & Ht' & Hdown & Hz);
    [lia|lia|].
  rewrite E2. cbn [mbind option_bind].
  destruct (Z.ltb_spec (at_ base b') (at_ base t')) as [Hl|Hl]; unfold Sort.at_ in Hl.
  - assert (Hlt : (b' < t')%nat) by nia.
    rewrite (qexchange_at width width_pos _ _ _ _ b' t' Hb Hs) by lia. cbn [mbind option_bind].
    destruct Hy as [->|(y & Hy & Cy)]; [lia|]. destruct Hz as [->|(z & Hz & Cz)]; [lia|].
    destruct (IH (swap b' t' rs) b' t') as (rs' & b2 & t2 & E & Hp' & R); [..|].
    { by apply sized_swap. }
    { rewrite (lookup_swap _ _ _ _ _ _ Hy Hz). repeat case_decide; [lia|lia|done]. }
    { rewrite length_swap. lia. }
    { lia. }
    { intros HO. eapply passed_swap; eauto; lia. }
    rewrite length_swap in R. exists rs', b2, t2. split_and!; try apply R; [done|].
    by rewrite Hp', swap_perm.
  - exists rs, b', t'. split_and!; [done|done|done|lia|lia|lia|nia|].
    intros HO. specialize (HP HO).
    assert (Hlt : (t' < b')%nat).
    { destruct (decide (b' = t')) as [->|]; [|nia]. exfalso.
      destruct Hy as [->|(y & Hy & Cy)]; [lia|]. destruct Hz as [->|(z & Hz & Cz)]; [lia|].
      pose proof (cmp_sign p y). simplify_eq. lia. }
    split_and!; [done| |].
    + intros k x Hx. destruct (HP k x Hx) as [H1 H2]. split; intros Hk.
      * destruct (decide (k <= b)%nat); [apply H1; lia|]. apply le_rec_ge, (Hup k x Hx); [done|lia].
      * destruct (decide (t <= k)%nat); [by apply H2|]. apply le_rec_ge, (Hdown k x Hx); [done|lia].
    + intros x Hx. destruct Hz as [->|(z & Hz & Cz)].
      * simplify_eq. by apply le_rec_refl.
      * simplify_eq. by apply le_rec_lt.
Qed.

(** After the pivot has been exchanged into [top]'s place, [top] and [bot]
    cut the array into records below, equal to and above the pivot. *)
Lemma cut_spec p rs b t :
  Ordering compar -> (t < b)%nat -> (t < length rs)%nat -> rs !! 0%nat = Some p ->
  passed p rs (b - 1) (S t) -> (forall x, rs !! t = Some x -> le_rec x p) ->
  forall k x, swap t 0 rs !! k = Some x ->
    ((k < b)%nat -> le_rec x p) /\ ((t <= k)%nat -> le_rec p x).
Proof.
  intros HO Htb Ht H0 HP Hy k x. destruct (lookup_lt_is_Some_2 rs t Ht) as [y Ey].
  rewrite (lookup_swap _ _ _ _ _ _ Ey H0).
  pose proof (le_rec_refl compar p) as Hr.
  destruct (decide (k = t)) as [->|]; [|destruct (decide (k = 0%nat)) as [->|]].
  - intros [= <-]. by split.
  - intros [= <-]. split; [intros _; by apply Hy|lia].
  - intros Hx. destruct (HP k x Hx) as [H1 H2]. split; intros Hk; [apply H1|apply H2]; lia.
Qed.

Lemma sorts_cut p l1 l2 l3 l1' l3' :
  (Ordering compar -> forall k x, (l1 ++ l2 ++ l3) !! k = Some x ->
     ((k < length (l1 ++ l2))%nat -> le_rec x p) /\ ((length l1 <= k)%nat -> le_rec p x)) ->
  sorts compar l1 l1' -> sorts compar l3 l3' -> sorts compar (l1 ++ l2 ++ l3) (l1' ++ l2 ++ l3').
Proof.
  intros HC [P1 S1] [P3 S3]. split; [by rewrite P1, P3|]. intros HO. specialize (HC HO).
  assert (F1 : Forall (fun x => le_rec x p) (l1 ++ l2)).
  { apply Forall_lookup. intros k x Hk. apply lookup_lt_Some in Hk as Hlt.
    apply (HC k); [rewrite app_assoc; by apply lookup_app_l_Some|done]. }
  assert (F3 : Forall (le_rec p) (l2 ++ l3)).
  { apply Forall_lookup. intros k x Hk. apply (HC (length l1 + k)%nat); [|lia].
    rewrite lookup_app_r by lia. by rewrite Nat.add_sub_swap, Nat.sub_diag by lia. }
  apply Forall_app in F1 as [Fa Fb]. apply Forall_app in F3 as [Fc Fd].
  apply (StronglySorted_app3 compar _ _ p); [by apply S1| |by rewrite P1|].
  - apply (StronglySorted_app3 compar _ _ p); [|by apply S3|done|by rewrite P3].
    by apply (sorted_between compar _ p).
  - apply Forall_app. split; [done|by rewrite P3].
Qed.

Lemma at_index base i : (at_ base i - base) / width = Z.of_nat i.
Proof. unfold Sort.at_. rewrite Z.add_simpl_l. apply Z.div_mul. lia. Qed.

(** The steps of [qsort] up to its two calls of itself. *)
Lemma partition_spec pre rs post base : let n := length rs in
  base = Z.of_nat (length pre) -> sized rs -> (w <= length post)%nat -> (2 <= n)%nat ->
  exists a m1 m2 p l1 l2 l3, let m := image pre rs post in
    qmedian compar width m base (at_ base (n / 2)) (at_ base (n - 1)) = Some a /\
    qexchange m base a w = Some m1 /\
    part_loop compar width (S n) m1 base base (at_ base n) =
      Some (m2, at_ base (length (l1 ++ l2)), at_ base (length l1)) /\
    qexchange m2 (at_ base (length l1)) base w = Some (image pre (l1 ++ l2 ++ l3) post) /\
    l1 ++ l2 ++ l3 ≡ₚ rs /\ (length l1 < n)%nat /\ (1 <= length (l1 ++ l2))%nat /\
    (Ordering compar -> forall k x, (l1 ++ l2 ++ l3) !! k = Some x ->
      ((k < length (l1 ++ l2))%nat -> le_rec x p) /\ ((length l1 <= k)%nat -> le_rec p x)).
Proof.
  intros n Hb Hs Hp H2. assert (E0 : at_ base 0 = base) by (unfold Sort.at_; lia).
  assert (Hh : (n / 2 < n)%nat) by (apply Nat.div_lt; lia).
  destruct (qmedian_spec pre rs post base 0 (n / 2) (n - 1) Hb Hs) as (l & Hl & El); [lia..|].
  pose proof (qexchange_at width width_pos pre rs post base 0 l Hb Hs ltac:(lia) Hl) as Ex.
  rewrite E0 in El, Ex. exists (at_ base l), (image pre (swap 0 l rs) post).
  pose proof (sized_swap width 0 l rs Hs) as Hs1. pose proof (length_swap 0 l rs) as Hn1.
  pose proof (swap_perm 0 l rs) as HP1. set (rs1 := swap 0 l rs) in *. clearbody rs1.
  destruct (lookup_lt_is_Some_2 rs1 0) as [p H0]; [lia|].
  destruct (part_loop_spec pre post base p Hb Hp (S n) rs1 0 n Hs1 H0)
    as (rs2 & b & t & E & HP2 & H02 & Ht & Hbn & Htb & HC); [lia|lia| |].
  { intros _ k x Hk. apply lookup_lt_Some in Hk. split; lia. }
  assert (Hs2 : sized rs2) by (by rewrite HP2).
  assert (Hn2 : length rs2 = length rs) by (rewrite HP2; done).
  pose proof (qexchange_at width width_pos pre rs2 post base t 0 Hb Hs2 ltac:(lia) ltac:(lia)) as Ex2.
  rewrite E0 in E, Ex2. pose proof (length_swap t 0 rs2) as Hn3.
  assert (HC3 : Ordering compar -> forall k x, swap t 0 rs2 !! k = Some x ->
    ((k < b)%nat -> le_rec x p) /\ ((t <= k)%nat -> le_rec p x)).
  { intros HO. destruct (HC HO) as (H1 & H3 & H4). apply cut_spec; try done. lia. }
  pose proof (swap_perm t 0 rs2) as HP3. set (rs3 := swap t 0 rs2) in *. clearbody rs3.
  destruct (list_cut3 rs3 t b) as (l1 & l2 & l3 & -> & N1 & N2); [lia..|].
  exists (image pre rs2 post), p, l1, l2, l3. rewrite N1, N2.
  split_and!; [done..| |lia|lia|done]. by rewrite HP3, HP2.
Qed.

Lemma qsort_fuel_spec : forall fuel pre rs post base nel,
  base = Z.of_nat (length pre) -> sized rs -> (w <= length post)%nat ->
  nel = Z.of_nat (length rs) -> nel * width < 65536 -> (length rs < fuel)%nat ->
  exists rs', qsort_fuel compar width fuel (image pre rs post) base nel = Some (image pre rs' post) /\
    sorts compar rs rs'.
Proof.
  induction fuel as [|fuel IH]; intros pre rs post base nel Hb Hs Hp Hn Hw Hf; [lia|].
  cbn [qsort_fuel]. destruct (Z.ltb_spec nel M) as [HM|HM].
  { destruct (Z.ltb_spec 1 nel) as [H1|H1]; [by apply qlinsert_spec|].
    exists rs. split; [done|split; [done|]]. intros _.
    destruct rs as [|r [|]]; [constructor|constructor; constructor|simpl in Hn; lia]. }
  unfold M in HM.
  assert (Hh : nel / 2 = Z.of_nat (length rs / 2)) by (rewrite Hn; symmetry; apply (Nat2Z.inj_div _ 2)).
  assert (Hh' : 0 <= nel / 2 < nel) by (split; [apply Z.div_pos|apply Z.div_lt]; lia).
  rewrite !u16_small by nia. rewrite Hh.
  replace (base + nel * width) with (at_ base (length rs)) by (unfold Sort.at_; lia).
  fold (at_ base (length rs / 2)).
  replace (at_ base (length rs) - width) with (at_ base (length rs - 1))
    by (unfold Sort.at_; rewrite Nat2Z.inj_sub by lia; lia).
  replace (Z.to_nat nel) with (length rs) by lia.
  destruct (partition_spec pre rs post base Hb Hs Hp) as
    (a & m1 & m2 & p & l1 & l2 & l3 & E1 & E2 & E3 & E4 & HP & Ht & Hb1 & HC); [lia|].
  rewrite E1. cbn [mbind option_bind]. rewrite E2. cbn [mbind option_bind].
  rewrite E3. cbn [mbind option_bind]. rewrite E4. cbn [mbind option_bind]. rewrite !at_index.
  clear E1 E2 E3 E4 a m1 m2.
  assert (Hs3 : sized (l1 ++ l2 ++ l3)) by (by rewrite HP).
  assert (Hn3 : (length (l1 ++ l2) + length l3 = length rs)%nat)
    by (by rewrite <- length_app, <- app_assoc, HP).
  apply Forall_app in Hs3 as [Z1 [Z2 Z3]%Forall_app].
  destruct (IH pre l1 (concat (l2 ++ l3) ++ post) base (Z.of_nat (length l1))) as (l1' & E1 & HS1);
    [done|done|rewrite length_app; lia|done|nia|lia|].
  assert (Z1' : sized l1') by (by rewrite (proj1 HS1)).
  assert (N1' : length (l1' ++ l2) = length (l1 ++ l2)) by (by rewrite (proj1 HS1)).
  rewrite concat_app, <- app_assoc, E1. cbn [mbind option_bind].
  destruct (IH (pre ++ concat (l1' ++ l2)) l3 post (at_ base (length (l1 ++ l2)))
    (nel - Z.of_nat (length (l1 ++ l2)))) as (l3' & E3 & HS3); [|done|done|lia|nia|lia|].
  { unfold Sort.at_. rewrite (length_app pre), (length_records width width_pos) by (apply Forall_app; done).
    rewrite N1'. lia. }
  exists (l1' ++ l2 ++ l3').
  rewrite !concat_app, <- !app_assoc in E3. rewrite !concat_app, <- !app_assoc, E3. split; [done|].
  destruct (sorts_cut p l1 l2 l3 l1' l3' HC HS1 HS3) as [HP' HS']. split; [by rewrite HP', HP|done].
Qed.

End qsort.

(** ** The Shell sort *)

(** The char count: [qexch] exchanges [size] bytes when [size] is below 256. *)
Lemma qexch_loop_spec : forall fuel m p q k, (1 <= k <= 255)%nat -> (k <= fuel)%nat ->
  qexch_loop fuel m p q (s8 (Z.of_nat k)) = qexchange m p q k.
Proof.
  induction fuel as [|fuel IH]; intros m p q k Hk Hf; [lia|]. destruct k as [|k]; [lia|].
  cbn [qexch_loop qexchange]. destruct (xbyte m p q) as [m'|]; [|done]. cbn [mbind option_bind].
  assert (E : s8 (s8 (Z.of_nat (S k)) - 1) = s8 (Z.of_nat k)).
  { destruct (wraps_decomp 8 (Z.of_nat (S k))) as [c Hc]; [lia|].
    apply wraps_eqm with c; [lia|]. unfold s8 in *. lia. }
  rewrite E. destruct k as [|k]; [by destruct fuel|].
  destruct (Z.eqb_spec (s8 (Z.of_nat (S k))) 0) as [E0|]; [|apply IH; lia].
  exfalso. destruct (wraps_decomp 8 (Z.of_nat (S k))) as [c Hc]; [lia|]. unfold s8 in *. lia.
Qed.

Lemma qexch_spec m p q size : 1 <= size < 256 -> qexch m p q size = qexchange m p q (Z.to_nat size).
Proof.
  intros Hs. unfold qexch.
  rewrite <- (qexch_loop_spec 256), Z2Nat.id by lia.
  destruct (Z.eqb_spec (s8 size) 0) as [E0|]; [|done].
  exfalso. destruct (wraps_decomp 8 size) as [c Hc]; [lia|]. unfold s8 in *. lia.
Qed.

Section shell.
  Context (compar : list Z -> list Z -> Z) (width : Z).
  Context (width_char : 1 <= width < 256).

#[local] Abbreviation w := (Z.to_nat width).
#[local] Abbreviation sized := (Forall (fun r : list Z => length r = w)).
#[local] Abbreviation image pre rs post := (pre ++ concat rs ++ post).
#[local] Abbreviation at_ := (at_ width).
#[local] Abbreviation le_rec := (le_rec compar).

#[local] Lemma width_pos : 0 < width.
Proof. lia. Qed.

Lemma A_at v i : Z.of_nat i * width < 32768 -> A width v (Z.of_nat i) = at_ v i.
Proof. intros. unfold A, Sort.at_. rewrite s16_small by nia. done. Qed.

(** Record [j+gap] sinks towards the front. With a gap of one it ends up in
    order among the records before it. *)
Lemma shell_j_spec pre post v g : v = Z.of_nat (length pre) -> (1 <= g)%nat ->
  forall fuel rs j, sized rs -> Z.of_nat (length rs) * width < 32768 ->
  - Z.of_nat g <= j -> j + Z.of_nat g < Z.of_nat (length rs) ->
  (0 < fuel)%nat -> j < Z.of_nat fuel - 1 ->
  exists rs', shell_j compar width fuel (image pre rs post) v (Z.of_nat g) j = Some (image pre rs' post) /\
    rs' ≡ₚ rs /\
    (g = 1%nat -> Ordering compar -> forall l1 x l2 l3, rs = l1 ++ x :: l2 ++ l3 ->
       Z.of_nat (length l1) = j + 1 -> StronglySorted le_rec (l1 ++ l2) -> Forall (le_rec x) l2 ->
       exists l', rs' = l' ++ l3 /\ StronglySorted le_rec l').
Proof.
  intros Hv Hg. pose proof width_pos as W. induction fuel as [|fuel IH]; intros rs j Hs Hn Hj Hj' Hf0 Hf; [lia|].
  cbn [shell_j]. destruct (Z.leb_spec 0 j) as [H0|H0]; cycle 1.
  { exists rs. split_and!; [done|done|]. intros -> HO l1 x l2 l3 -> Hl HS HF.
    destruct l1; [|simpl in Hl; lia]. exists (x :: l2). split; [done|]. by constructor. }
  destruct (Z_of_nat_complete j H0) as [i ->].
  replace (Z.of_nat i + Z.of_nat g) with (Z.of_nat (i + g)) in * by lia.
  rewrite !A_at by nia.
  destruct (lookup_lt_is_Some_2 rs i) as [y Hy]; [lia|].
  destruct (lookup_lt_is_Some_2 rs (i + g)) as [z Hz]; [lia|].
  rewrite (cmp_at compar width W pre rs post v i (i + g) y z Hv Hs Hy Hz). cbn [mbind option_bind].
  assert (HL : g = 1%nat -> forall l1 x l2 l3, rs = l1 ++ x :: l2 ++ l3 ->
    Z.of_nat (length l1) = Z.of_nat i + 1 -> exists l0, l1 = l0 ++ [y] /\ length l0 = i /\ x = z).
  { intros -> l1 x l2 l3 -> Hl.
    rewrite lookup_app_l in Hy by lia. rewrite lookup_app_r in Hz by lia.
    replace (i + 1 - length l1)%nat with 0%nat in Hz by lia. injection Hz as ->.
    exists (take i l1). rewrite length_take, <- (take_S_r _ _ _ Hy), take_ge by lia.
    split_and!; [done|lia|done]. }
  destruct (Z.leb_spec (compar y z) 0) as [Hle|Hgt].
  - exists rs. split_and!; [done|done|]. intros Hg1 HO l1 x l2 l3 -> Hl HS HF.
    destruct (HL Hg1 l1 x l2 l3 eq_refl Hl) as (l0 & -> & _ & ->).
    exists ((l0 ++ [y]) ++ z :: l2). split; [by rewrite <- !app_assoc|].
    apply StronglySorted_app in HS as (HS1 & HS2 & HS3).
    apply (StronglySorted_app3 compar _ _ z); [done|constructor; done| |].
    + apply Forall_forall. intros a Ha%elem_of_app. destruct Ha as [Ha|Ha].
      * apply (le_rec_trans compar _ y _); [|done].
        eapply StronglySorted_app_1_elem_of; [exact HS2|exact Ha|]. by apply list_elem_of_singleton.
      * apply list_elem_of_singleton in Ha. by subst a.
    + constructor; [by apply le_rec_refl|done].
  - rewrite qexch_spec, (qexchange_at width W pre rs post v i (i + g) Hv Hs) by lia.
    cbn [mbind option_bind].
    destruct (IH (swap i (i + g) rs) (Z.of_nat i - Z.of_nat g)) as (rs' & E & HP & HS);
      [by apply sized_swap|rewrite length_swap; lia|lia|rewrite length_swap; lia|lia|lia|].
    exists rs'. split_and!; [done|by rewrite HP, swap_perm|].
    intros Hg1 HO l1 x l2 l3 -> Hl HSS HF.
    destruct (HL Hg1 l1 x l2 l3 eq_refl Hl) as (l0 & -> & Hi & ->). subst g.
    rewrite <- app_assoc in HS. cbn [app] in HS.
    pose proof (swap_lt i (i + 1) l0 [] (l2 ++ l3) y z ltac:(lia) ltac:(simpl; lia)) as Es.
    cbn [app] in Es. rewrite Es in HS.
    apply (HS eq_refl HO l0 z (y :: l2) l3); [done|lia| |].
    + by rewrite <- app_assoc in HSS.
    + constructor; [apply le_rec_ge; [done|lia]|done].
Qed.

Lemma shell_i_spec pre post v g : v = Z.of_nat (length pre) -> (1 <= g)%nat ->
  forall fuel rs i, sized rs -> Z.of_nat (length rs) * width < 32768 ->
  (g <= i)%nat -> (length rs - i < fuel)%nat ->
  exists rs', shell_i compar width fuel (image pre rs post) v (Z.of_nat (length rs)) (Z.of_nat g) (Z.of_nat i)
      = Some (image pre rs' post) /\
    rs' ≡ₚ rs /\
    (g = 1%nat -> Ordering compar -> StronglySorted le_rec (take i rs) -> StronglySorted le_rec rs').
Proof.
  intros Hv Hg. induction fuel as [|fuel IH]; intros rs i Hs Hn Hi Hf; [lia|]. cbn [shell_i].
  destruct (Z.ltb_spec (Z.of_nat i) (Z.of_nat (length rs))) as [Hl|Hl]; cycle 1.
  { exists rs. split_and!; [done|done|]. intros _ _. by rewrite take_ge by lia. }
  replace (Z.of_nat i + 1) with (Z.of_nat (S i)) by lia.
  replace (Z.of_nat i - Z.of_nat g) with (Z.of_nat (i - g)) by lia. rewrite Nat2Z.id.
  destruct (shell_j_spec pre post v g Hv Hg (S (length rs)) rs (Z.of_nat (i - g)) Hs Hn)
    as (rs1 & E1 & HP1 & HS1); [lia..|].
  rewrite E1. cbn [mbind option_bind].
  assert (Hl1 : length rs1 = length rs) by (by rewrite HP1).
  destruct (IH rs1 (S i)) as (rs2 & E2 & HP2 & HS2); [by rewrite HP1|by rewrite Hl1|lia|lia|].
  rewrite Hl1 in E2. exists rs2. split_and!; [done|by rewrite HP2, HP1|].
  intros Hg1 HO HT. apply HS2; [done..|]. clear HS2.
  destruct (lookup_lt_is_Some_2 rs i) as [x Hx]; [lia|].
  assert (Hlt : length (take i rs) = i) by (rewrite length_take; lia).
  destruct (HS1 Hg1 HO (take i rs) x [] (drop (S i) rs)) as (l' & -> & HS);
    [symmetry; by apply take_drop_middle|lia|by rewrite app_nil_r|constructor|].
  rewrite take_app_length'; [done|]. rewrite length_app, length_drop in Hl1. lia.
Qed.

Lemma shell_gap_spec pre post v : v = Z.of_nat (length pre) ->
  forall fuel rs g, sized rs -> Z.of_nat (length rs) * width < 32768 -> (g < fuel)%nat ->
  exists rs', shell_gap compar width fuel (image pre rs post) v (Z.of_nat (length rs)) (Z.of_nat g)
      = Some (image pre rs' post) /\
    rs' ≡ₚ rs /\ ((1 <= g)%nat -> Ordering compar -> StronglySorted le_rec rs').
Proof.
  intros Hv. induction fuel as [|fuel IH]; intros rs g Hs Hn Hf; [lia|]. cbn [shell_gap].
  destruct (Z.ltb_spec 0 (Z.of_nat g)) as [Hg|Hg]; [|exists rs; split_and!; [done|done|lia]].
  rewrite Nat2Z.id.
  destruct (shell_i_spec pre post v g Hv ltac:(lia) (S (length rs)) rs g Hs Hn) as (rs1 & E1 & HP1 & HS1);
    [lia..|].
  rewrite E1. cbn [mbind option_bind].
  assert (Hl1 : length rs1 = length rs) by (by rewrite HP1).
  assert (Hh : Z.quot (Z.of_nat g) 2 = Z.of_nat (g / 2)).
  { rewrite Z.quot_div_nonneg by lia. symmetry. apply (Nat2Z.inj_div g 2). }
  rewrite Hh. pose proof (Nat.div_lt g 2 ltac:(lia) ltac:(lia)).
  destruct (decide (g = 1%nat)) as [->|Hne].
  - destruct fuel as [|fuel]; [lia|]. exists rs1. split_and!; [done|done|]. intros _ HO.
    apply HS1; [done..|]. destruct rs as [|r rs]; [constructor|].
    simpl. rewrite take_0. constructor; constructor.
  - destruct (IH rs1 (g / 2)%nat) as (rs2 & E2 & HP2 & HS2); [by rewrite HP1|by rewrite Hl1|lia|].
    rewrite Hl1 in E2. exists rs2. split_and!; [done|by rewrite HP2, HP1|]. intros _ HO.
    apply HS2; [|done]. apply Nat.div_str_pos. lia.
Qed.

Lemma shellsort_spec pre rs post v n :
  v = Z.of_nat (length pre) -> sized rs -> n = Z.of_nat (length rs) -> n * width < 32768 ->
  exists rs', shellsort compar width (image pre rs post) v n = Some (image pre rs' post) /\
    sorts compar rs rs'.
Proof.
  intros Hv Hs -> Hn. unfold shellsort. rewrite Nat2Z.id.
  assert (Hh : Z.quot (Z.of_nat (length rs)) 2 = Z.of_nat (length rs / 2)).
  { rewrite Z.quot_div_nonneg by lia. symmetry. apply (Nat2Z.inj_div _ 2). }
  pose proof (Nat.Div0.div_le_mono (length rs) (length rs * 2) 2 ltac:(lia)) as Hd.
  rewrite Nat.div_mul in Hd by lia.
  destruct (shell_gap_spec pre post v Hv (S (length rs)) rs (length rs / 2) Hs Hn) as (rs' & E & HP & HS);
    [lia|].
  rewrite Hh. exists rs'. split; [done|]. split; [done|]. intros HO.
  destruct (decide (2 <= length rs)%nat) as [H2|H2]; [apply HS; [|done]; apply Nat.div_str_pos; lia|].
  assert (Hl : length rs' = length rs) by (by rewrite HP).
  destruct rs' as [|r [|]]; [constructor|constructor; constructor|simpl in Hl; lia].
Qed.
End shell.

(** ** The properties *)

(** The parts of memory around an array: [pre] is what is below it and [post]
    what is above, the array itself the concatenation of its records. *)

(** C30: [qsort] returns, and leaves the records of the array in order and
    everything else in memory as it was: whatever the comparison routine
    answers the array holds a permutation of its records, and when the answers
    order the records every record compares no greater than every later one.
    The record of memory just past the array must be readable, since the scan
    from the left can run on to it. *)
Theorem qsort_correct compar width pre rs post :
  0 < width -> Forall (fun r => length r = Z.to_nat width) rs ->
  Z.of_nat (length rs) * width < 65536 -> width <= Z.of_nat (length post) ->
  exists rs',
    qsort compar width (pre ++ concat rs ++ post) (Z.of_nat (length pre)) (Z.of_nat (length rs)) =
      Some (pre ++ concat rs' ++ post) /\
    rs' ≡ₚ rs /\
    (Ordering compar -> StronglySorted (fun a b => compar a b <= 0) rs').
Proof.
  intros W Hs Hn Hp. unfold qsort. rewrite Nat2Z.id.
  destruct (qsort_fuel_spec compar width W (S (length rs)) pre rs post _ _ eq_refl Hs ltac:(lia) eq_refl Hn)
    as (rs' & E & HP & HS); [lia|]. exists rs'. by split_and!.
Qed.

(** [shellsort] does the same for records of up to 255 bytes, an array
    that an int can measure, and touches nothing past the array. *)
Theorem shellsort_correct compar width pre rs post :
  1 <= width < 256 -> Forall (fun r => length r = Z.to_nat width) rs ->
  Z.of_nat (length rs) * width < 32768 ->
  exists rs',
    shellsort compar width (pre ++ concat rs ++ post) (Z.of_nat (length pre)) (Z.of_nat (length rs)) =
      Some (pre ++ concat rs' ++ post) /\
    rs' ≡ₚ rs /\
    (Ordering compar -> StronglySorted (fun a b => compar a b <= 0) rs').
Proof.
  intros W Hs Hn.
  destruct (shellsort_spec compar width W pre rs post _ _ eq_refl Hs eq_refl Hn) as (rs' & E & HP & HS).
  exists rs'. by split_and!.
Qed.

(** Records compared by their first byte. *)
Definition by_first (a b : list Z) : Z := default 0 (head a) - default 0 (head b).

#[export] Instance by_first_ordering : Ordering by_first.
Proof. constructor; unfold by_first; intros; lia. Qed.

Definition sample : list (list Z) :=
  [[7; 1]; [3; 2]; [9; 3]; [1; 4]; [7; 5]; [12; 6]; [0; 7]; [5; 8]; [3; 9]; [8; 10]; [2; 11]; [7; 12]].

Lemma sample_sized : Forall (fun r : list Z => length r = Z.to_nat 2) sample.
Proof. unfold sample. repeat (constructor; [done|]). constructor. Qed.

Lemma qsort_correct_witness :
  exists rs', qsort by_first 2 ([99] ++ concat sample ++ [77; 78]) 1 12 = Some ([99] ++ concat rs' ++ [77; 78]) /\
    rs' ≡ₚ sample /\ (Ordering by_first -> StronglySorted (fun a b => by_first a b <= 0) rs').
Proof.
  exact (qsort_correct by_first 2 [99] sample [77; 78] ltac:(lia) sample_sized ltac:(vm_compute; done) ltac:(vm_compute; done)).
Defined.

Lemma shellsort_correct_witness :
  exists rs', shellsort by_first 2 ([99] ++ concat sample ++ []) 1 12 = Some ([99] ++ concat rs' ++ []) /\
    rs' ≡ₚ sample /\ (Ordering by_first -> StronglySorted (fun a b => by_first a b <= 0) rs').
Proof.
  exact (shellsort_correct by_first 2 [99] sample [] ltac:(lia) sample_sized ltac:(vm_compute; done)).
Defined.

(** The result of the two on the sample. *)
Example qsort_sample :
  qsort by_first 2 (concat sample ++ [77; 78]) 0 12 =
  Some [0; 7; 1; 4; 2; 11; 3; 2; 3; 9; 5; 8; 7; 5; 7; 12; 7; 1; 8; 10; 9; 3; 12; 6; 77; 78].
Proof. vm_compute. reflexivity. Qed.

(** A pivot that no record exceeds takes the scan from the left past the array. *)
Example qsort_reads_past_end : qsort by_first 1 (repeat 5 10) 0 10 = None.
Proof. vm_compute. reflexivity. Qed.

(** [qexch] takes its count in a char, so records whose size is a multiple of
    256 are not exchanged at all, and [shellsort] leaves the array as it is. *)
Lemma qexch_wraps m p q size : s8 size = 0 -> qexch m p q size = Some m.
Proof. intros E. unfold qexch. by rewrite E. Qed.

Lemma shell_j_wraps compar width v gap : s8 width = 0 -> forall fuel m j m',
  shell_j compar width fuel m v gap j = Some m' -> m' = m.
Proof.
  intros Hw. induction fuel as [|fuel IH]; intros m j m'; [done|]. cbn [shell_j].
  destruct (0 <=? j); [|congruence].
  destruct (cmp compar width m (A width v j) (A width v (j + gap))) as [c|]; [|done].
  cbn [mbind option_bind]. destruct (c <=? 0); [congruence|].
  rewrite qexch_wraps by done. cbn [mbind option_bind]. apply IH.
Qed.

Lemma shell_i_wraps compar width v n gap : s8 width = 0 -> forall fuel m i m',
  shell_i compar width fuel m v n gap i = Some m' -> m' = m.
Proof.
  intros Hw. induction fuel as [|fuel IH]; intros m i m'; [done|]. cbn [shell_i].
  destruct (i <? n); [|congruence].
  destruct (shell_j compar width (S (Z.to_nat n)) m v gap (i - gap)) as [m1|] eqn:E; [|done].
  apply shell_j_wraps in E as ->; [|done]. apply IH.
Qed.

Theorem shellsort_wraps compar width m v n m' :
  s8 width = 0 -> shellsort compar width m v n = Some m' -> m' = m.
Proof.
  intros Hw. unfold shellsort. generalize (Z.quot n 2), (S (Z.to_nat n)). intros gap fuel.
  revert m gap. induction fuel as [|fuel IH]; intros m gap; [done|]. cbn [shell_gap].
  destruct (0 <? gap); [|congruence].
  destruct (shell_i compar width (S (Z.to_nat n)) m v n gap gap) as [m1|] eqn:E; [|done].
  apply shell_i_wraps in E as ->; [|done]. apply IH.
Qed.
