(* ===== verification/Dlist.v ===== *)
(** Circular doubly linked lists, as the kernel threads them through its
    structures: a head and members that point forwards and backwards.

    The two pointers of a node are kept in two maps, the forward pointers and
    the back pointers, so that the lemmas say which of them a list depends on.
    [Proc.v] uses them for the run queue, the sleep queues and the list of
    processes. *)
From S2P Require Import Prelude.

Section ring.
  Context {K : Type} `{Countable K}.
  Implicit Types (f b : gmap K K) (x y z h : K) (l : list K).

(** From [x] one gets to [z] through exactly the nodes [l], and back. *)
Fixpoint chain f b x l z : Prop :=
  match l with
  | [] => f !! x = Some z /\ b !! z = Some x
  | y :: l => (f !! x = Some y /\ b !! y = Some x) /\ chain f b y l z
  end.

(** The head [h] of a circular list with the members [l]. *)
Definition ring f b h l : Prop := chain f b h l h /\ NoDup (h :: l).

Lemma chain_app f b l1 : forall x y l2 z,
  chain f b x (l1 ++ y :: l2) z <-> chain f b x l1 y /\ chain f b y l2 z.
Proof.
  induction l1 as [|w l1 IH]; intros x y l2 z; simpl; [done|]. rewrite IH. tauto.
Qed.

Lemma chain_frame f b f' b' l : forall x z,
  chain f b x l z -> (forall y, y ∈ x :: l -> f' !! y = f !! y) ->
  (forall y, y ∈ z :: l -> b' !! y = b !! y) -> chain f' b' x l z.
Proof.
  induction l as [|w l IH]; intros x z Hc Hf Hb; simpl in *.
  - rewrite Hf, Hb by set_solver. done.
  - destruct Hc as [[H1 H2] Hc]. rewrite Hf, Hb by set_solver. split; [done|].
    apply IH; [done|set_solver|set_solver].
Qed.

Lemma ring_frame f b f' b' h l : ring f b h l ->
  (forall y, y ∈ h :: l -> f' !! y = f !! y /\ b' !! y = b !! y) -> ring f' b' h l.
Proof.
  intros [Hc Hn] Hf. split; [|done]. eapply chain_frame; [done| |]; intros y Hy; by apply Hf.
Qed.

(** The node before and the node after a place in a ring. *)
Definition before h l : K := default h (last l).
Definition after h l : K := default h (head l).

Lemma before_cons x y l : before x (y :: l) = before y l.
Proof. unfold before. rewrite last_cons. by destruct (last l). Qed.

Lemma before_snoc h l x : before h (l ++ [x]) = x.
Proof. unfold before. by rewrite last_snoc. Qed.

Lemma before_elem h l : before h l ∈ h :: l.
Proof.
  revert h. induction l as [|y l IH]; intros h; [by left|].
  rewrite before_cons. specialize (IH y). set_solver.
Qed.

Lemma after_elem h l : after h l ∈ h :: l.
Proof. unfold after. destruct l; simpl; set_solver. Qed.

(** A chain is cut and joined at any place. *)
Lemma chain_cut f b l1 : forall x l2 z,
  chain f b x (l1 ++ l2) z -> chain f b x l1 (after z l2) /\ chain f b (before x l1) l2 z.
Proof.
  induction l1 as [|y l1 IH]; intros x l2 z Hc.
  - split; [|done]. destruct l2; simpl in *; tauto.
  - destruct Hc as [H1 Hc]. apply IH in Hc as [Hc1 Hc2]. by rewrite before_cons.
Qed.

Lemma chain_join f b l1 : forall x l2 z,
  chain f b x l1 (after z l2) -> chain f b (before x l1) l2 z -> chain f b x (l1 ++ l2) z.
Proof.
  induction l1 as [|y l1 IH]; intros x l2 z H1 H2; [done|].
  rewrite before_cons in H2. destruct H1 as [H0 H1]. split; [done|by apply IH].
Qed.

(** Its last pointers can be made to lead to another node, and its first ones
    to come from another. *)
Lemma chain_last f b l : forall x z z', chain f b x l z -> NoDup (x :: l) -> z' ∉ l ->
  chain (<[before x l := z']> f) (<[z' := before x l]> b) x l z'.
Proof.
  induction l as [|y l IH]; intros x z z' Hc Hn Hz.
  - simpl. by rewrite !lookup_insert_eq.
  - destruct Hc as [[H1 H2] Hc]. rewrite before_cons.
    apply NoDup_cons in Hn as [Hx Hn]. pose proof (before_elem y l).
    split; [|apply IH with z; [done|done|set_solver]].
    rewrite !lookup_insert_ne; [done|set_solver|set_solver].
Qed.

Lemma chain_first f b l x x' z : chain f b x l z -> NoDup (z :: l) -> x' ∉ l ->
  chain (<[x' := after z l]> f) (<[after z l := x']> b) x' l z.
Proof.
  intros Hc Hn Hx. destruct l as [|y l]; simpl in *.
  - by rewrite !lookup_insert_eq.
  - rewrite !lookup_insert_eq. split; [done|]. destruct Hc as [_ Hc].
    apply NoDup_cons in Hn as [Hz Hn]. apply NoDup_cons in Hn as [Hy Hn].
    eapply chain_frame; [exact Hc|..]; intros w Hw; rewrite lookup_insert_ne; set_solver.
Qed.

Lemma ring_at f b h l1 l2 : ring f b h (l1 ++ l2) ->
  f !! before h l1 = Some (after h l2) /\ b !! after h l2 = Some (before h l1).
Proof.
  intros [[_ Hc]%chain_cut _]. destruct l2; simpl in *; tauto.
Qed.

Lemma ring_forw f b h l1 x l2 : ring f b h (l1 ++ x :: l2) -> f !! x = Some (after h l2).
Proof.
  change (l1 ++ x :: l2) with (l1 ++ [x] ++ l2). rewrite app_assoc. intros [Hf _]%ring_at.
  unfold before in Hf. by rewrite last_snoc in Hf.
Qed.

Lemma ring_back f b h l1 x l2 : ring f b h (l1 ++ x :: l2) -> b !! x = Some (before h l1).
Proof. by intros [_ Hb]%ring_at. Qed.

Lemma nodup_cut h l1 l2 : NoDup (h :: l1 ++ l2) ->
  NoDup (h :: l1) /\ NoDup (h :: l2) /\ (before h l1 ∉ l2) /\ (after h l2 ∉ l1).
Proof.
  intros Hn. apply NoDup_cons in Hn as [Hh Hn]. apply NoDup_app in Hn as (N1 & N12 & N2).
  apply not_elem_of_app in Hh as [Hh1 Hh2]. split_and!; [by constructor|by constructor|..].
  - intros Hi. destruct (proj1 (elem_of_cons _ _ _) (before_elem h l1)) as [E|E]; [congruence|].
    by apply (N12 _ E).
  - intros Hi. destruct (proj1 (elem_of_cons _ _ _) (after_elem h l2)) as [E|E]; [congruence|].
    by apply (N12 _ Hi).
Qed.

(** Putting [x] between [l1] and [l2]. *)
Lemma ring_insert f b h l1 l2 x : ring f b h (l1 ++ l2) -> x <> h -> x ∉ l1 ++ l2 ->
  ring (<[before h l1 := x]> (<[x := after h l2]> f)) (<[after h l2 := x]> (<[x := before h l1]> b))
    h (l1 ++ x :: l2).
Proof.
  intros Hr Hxh Hx. apply not_elem_of_app in Hx as [Hx1 Hx2]. destruct (nodup_cut _ _ _ (proj2 Hr)) as (N1 & N2 & Nb & Na).
  pose proof (before_elem h l1). pose proof (after_elem h l2).
  destruct Hr as [Hc Hn]. apply chain_cut in Hc as [C1 C2]. split.
  - apply chain_app. split.
    + eapply chain_frame; [exact (chain_last f b l1 h _ x C1 N1 Hx1)|..]; intros w Hw.
      * destruct (decide (w = before h l1)) as [->|]; [by rewrite !lookup_insert_eq|].
        rewrite !(lookup_insert_ne _ (before h l1)), lookup_insert_ne by set_solver. done.
      * rewrite lookup_insert_ne by set_solver. done.
    + eapply chain_frame; [exact (chain_first f b l2 _ x h C2 N2 Hx2)|..]; intros w Hw.
      * rewrite lookup_insert_ne by set_solver. done.
      * destruct (decide (w = after h l2)) as [->|]; [by rewrite !lookup_insert_eq|].
        rewrite !(lookup_insert_ne _ (after h l2)), lookup_insert_ne by set_solver. done.
  - rewrite <- Permutation_middle. apply NoDup_cons in Hn as [Hh Hn].
    constructor; [set_solver|]. constructor; [set_solver|done].
Qed.

Lemma ring_notin f b h l1 x l2 : ring f b h (l1 ++ x :: l2) -> x ∉ h :: l1 ++ l2.
Proof.
  intros [_ Hn]. rewrite <- Permutation_middle in Hn. apply NoDup_cons in Hn as [Hh Hn].
  apply NoDup_cons in Hn as [Hx _]. set_solver.
Qed.

(** Taking [x] out. *)
Lemma ring_remove f b h l1 x l2 : ring f b h (l1 ++ x :: l2) ->
  ring (<[before h l1 := after h l2]> f) (<[after h l2 := before h l1]> b) h (l1 ++ l2).
Proof.
  intros [Hc Hn]. apply chain_app in Hc as [C1 C2].
  assert (Hn' : NoDup (h :: l1 ++ l2)).
  { rewrite <- Permutation_middle in Hn. apply NoDup_cons in Hn as [Hh Hn].
    apply NoDup_cons in Hn as [Hx Hn]. constructor; [set_solver|done]. }
  destruct (nodup_cut _ _ _ Hn') as (N1 & N2 & Nb & Na).
  split; [|done]. apply chain_join; [by apply chain_last with x|by apply chain_first with x].
Qed.
End ring.
