(* ===== verification/Proc.v ===== *)
(** Processes and scheduling: the run queue, the sleep queues and the signals
    that take a process off them (kernel/coh/proc.c, the scheduling parts of
    kernel/coh/clock.c and kernel/coh/sig.c).

    A process is on the run queue headed by [procq], on one of the sleep queues
    of [linkq], or is running.  All of them are threaded through [p_lforw] and
    [p_lback], which come first in a PROC and in a PLINK, so that a queue head
    can stand for a process; here the two fields are maps over the addresses of
    both.  The rest of a PROC is in [procs], and so is [procq].

    The code here runs with interrupts off.  Saving and restoring the machine
    state in [dispatch] is not modelled: what it leaves is who runs next. *)
From stdpp Require Import sorting.
From S2P Require Import Prelude Sched Dlist.
Local Open Scope Z_scope.
Local Open Scope kernel_scope.

(** The addresses of [procq], of [linkq[i]], and of the processes. *)
Inductive ref := Procq | Linkq (i : Z) | Pr (n : Z).

#[export] Instance ref_eq_dec : EqDecision ref.
Proof. solve_decision. Defined.

#[export] Instance ref_countable : Countable ref.
Proof.
  refine (inj_countable' (fun r => match r with Procq => inl tt | Linkq i => inr (inl i) | Pr n => inr (inr n) end)
    (fun x => match x with inl _ => Procq | inr (inl i) => Linkq i | inr (inr n) => Pr n end) _).
  by intros [].
Defined.

Record PROC := Proc {
  p_pid : Z;
  p_state : Z;
  p_flags : Z;
  p_ssig : Z;
  p_isig : Z;
  p_event : Z;
  p_cval : Z;
  p_ival : Z;
  p_rval : Z;
  p_lctim : Z
}.

Definition set_p_pid v p := Proc v (p_state p) (p_flags p) (p_ssig p) (p_isig p) (p_event p) (p_cval p) (p_ival p) (p_rval p) (p_lctim p).
Definition set_p_state v p := Proc (p_pid p) v (p_flags p) (p_ssig p) (p_isig p) (p_event p) (p_cval p) (p_ival p) (p_rval p) (p_lctim p).
Definition set_p_ssig v p := Proc (p_pid p) (p_state p) (p_flags p) v (p_isig p) (p_event p) (p_cval p) (p_ival p) (p_rval p) (p_lctim p).
Definition set_p_event v p := Proc (p_pid p) (p_state p) (p_flags p) (p_ssig p) (p_isig p) v (p_cval p) (p_ival p) (p_rval p) (p_lctim p).
Definition set_p_cval v p := Proc (p_pid p) (p_state p) (p_flags p) (p_ssig p) (p_isig p) (p_event p) v (p_ival p) (p_rval p) (p_lctim p).
Definition set_p_ival v p := Proc (p_pid p) (p_state p) (p_flags p) (p_ssig p) (p_isig p) (p_event p) (p_cval p) v (p_rval p) (p_lctim p).
Definition set_p_rval v p := Proc (p_pid p) (p_state p) (p_flags p) (p_ssig p) (p_isig p) (p_event p) (p_cval p) (p_ival p) v (p_lctim p).
Definition set_p_lctim v p := Proc (p_pid p) (p_state p) (p_flags p) (p_ssig p) (p_isig p) (p_event p) (p_cval p) (p_ival p) (p_rval p) v.

Definition PSSLEEP : Z := 1.
Definition PSRUN : Z := 2.
Definition PFCORE : Z := 1.
Definition NHPLINK : Z := 32.
Definition NCRTICK : Z := 10.
Definition CVNOSIG : Z := 256.
Definition CVCLOCK : Z := 1.
Definition MAXU : Z := 65535.
Definition NPID : Z := 30000.

Record sched := Sch {
  forw : gmap ref ref;           (* p_lforw *)
  back : gmap ref ref;           (* p_lback *)
  nforw : gmap ref ref;          (* p_nforw *)
  nback : gmap ref ref;          (* p_nback *)
  procs : gmap ref PROC;
  SELF : ref;                    (* cprocp *)
  iprocp : ref;
  cpid : Z;
  utimer : Z;
  quantum : Z;
  disflag : Z
}.

Definition set_forw v s := Sch v (back s) (nforw s) (nback s) (procs s) (SELF s) (iprocp s) (cpid s) (utimer s) (quantum s) (disflag s).
Definition set_back v s := Sch (forw s) v (nforw s) (nback s) (procs s) (SELF s) (iprocp s) (cpid s) (utimer s) (quantum s) (disflag s).
Definition set_nforw v s := Sch (forw s) (back s) v (nback s) (procs s) (SELF s) (iprocp s) (cpid s) (utimer s) (quantum s) (disflag s).
Definition set_nback v s := Sch (forw s) (back s) (nforw s) v (procs s) (SELF s) (iprocp s) (cpid s) (utimer s) (quantum s) (disflag s).
Definition set_procs v s := Sch (forw s) (back s) (nforw s) (nback s) v (SELF s) (iprocp s) (cpid s) (utimer s) (quantum s) (disflag s).
Definition set_SELF v s := Sch (forw s) (back s) (nforw s) (nback s) (procs s) v (iprocp s) (cpid s) (utimer s) (quantum s) (disflag s).
Definition set_cpid v s := Sch (forw s) (back s) (nforw s) (nback s) (procs s) (SELF s) (iprocp s) v (utimer s) (quantum s) (disflag s).
Definition set_utimer v s := Sch (forw s) (back s) (nforw s) (nback s) (procs s) (SELF s) (iprocp s) (cpid s) v (quantum s) (disflag s).
Definition set_quantum v s := Sch (forw s) (back s) (nforw s) (nback s) (procs s) (SELF s) (iprocp s) (cpid s) (utimer s) v (disflag s).
Definition set_disflag v s := Sch (forw s) (back s) (nforw s) (nback s) (procs s) (SELF s) (iprocp s) (cpid s) (utimer s) (quantum s) v.

(** Reading and writing through a pointer. *)
Definition rdp (p : ref) : M sched PROC := s <- get ;; deref (procs s !! p).
Definition wrp (p : ref) (g : PROC -> PROC) : M sched unit :=
  x <- rdp p ;; modify (fun s => set_procs (<[p := g x]> (procs s)) s).
Definition lforw (p : ref) : M sched ref := s <- get ;; deref (forw s !! p).
Definition lback (p : ref) : M sched ref := s <- get ;; deref (back s !! p).
Definition set_lforw (p v : ref) : M sched unit := modify (fun s => set_forw (<[p := v]> (forw s)) s).
Definition set_lback (p v : ref) : M sched unit := modify (fun s => set_back (<[p := v]> (back s)) s).
Definition lnforw (p : ref) : M sched ref := s <- get ;; deref (nforw s !! p).
Definition lnback (p : ref) : M sched ref := s <- get ;; deref (nback s !! p).
Definition set_lnforw (p v : ref) : M sched unit := modify (fun s => set_nforw (<[p := v]> (nforw s)) s).
Definition set_lnback (p v : ref) : M sched unit := modify (fun s => set_nback (<[p := v]> (nback s)) s).

(** The saturating additions of kernel/h/fun.h. *)
Definition addu (v n : Z) : Z := let x := u16 (v + n) in if v <=? x then x else MAXU.
Definition subu (v n : Z) : Z := let x := u16 (v - n) in if x <=? v then x else 0.

Definition hash (e : Z) : Z := (Z.shiftr (u16 e) 1) mod NHPLINK.

(** The queue heads made empty, and [procq] the running process. *)
Definition pcsinit_links (s : sched) : sched :=
  fold_left (fun s i => set_back (<[Linkq i := Linkq i]> (back s)) (set_forw (<[Linkq i := Linkq i]> (forw s)) s))
    (seqZ 0 NHPLINK) s.
Definition pcsinit (s : sched) : sched :=
  let s := set_SELF Procq s in
  let s := set_nforw (<[Procq := Procq]> (nforw s)) s in
  let s := set_nback (<[Procq := Procq]> (nback s)) s in
  let s := set_forw (<[Procq := Procq]> (forw s)) s in
  pcsinit_links (set_back (<[Procq := Procq]> (back s)) s).

(** [process]: a process number that no process has, and the place of [pp] in
    the list of processes, which is kept by falling number. *)
Fixpoint pid_scan (fuel : nat) (pp1 : ref) (pid : Z) : M sched (option ref) :=
  match fuel with
  | O => nofuel
  | S fuel =>
    pp1 <- lnforw pp1 ;;
    if decide (pp1 = Procq) then kret (Some pp1)
    else
      x <- rdp pp1 ;;
      if p_pid x <? pid then kret (Some pp1)
      else if p_pid x =? pid then kret None
      else pid_scan fuel pp1 pid
  end.

(** [pp->p_pid = cpid++], and the return of [cpid] to 2. *)
Definition pid_take (pp : ref) : M sched Z :=
  pid <- gets cpid ;;
  wrp pp (set_p_pid pid) ;;;
  modify (set_cpid (pid + 1)) ;;;
  c <- gets cpid ;;
  (if NPID <=? c then modify (set_cpid 2) else kret tt) ;;;
  kret pid.

Fixpoint pid_next (fuel : nat) (pp : ref) : M sched ref :=
  match fuel with
  | O => nofuel
  | S fuel =>
    pid <- pid_take pp ;;
    n <- gets (fun s => size (procs s)) ;;
    r <- pid_scan (S n) Procq pid ;;
    match r with Some pp1 => kret pp1 | None => pid_next fuel pp end
  end.

Definition process_link (pp : ref) : M sched unit :=
  n <- gets (fun s => size (procs s)) ;;
  pp1 <- pid_next (S n) pp ;;
  set_lnforw pp pp1 ;;;
  b <- lnback pp1 ;;
  set_lnback pp b ;;;
  b <- lnback pp1 ;;
  set_lnforw b pp ;;;
  set_lnback pp1 pp.

(** [relproc], up to the release of the PROC. *)
Definition relproc (pp : ref) : M sched unit :=
  b <- lnback pp ;;
  f <- lnforw pp ;;
  set_lnforw b f ;;;
  f <- lnforw pp ;;
  b <- lnback pp ;;
  set_lnback f b ;;;
  modify (fun s => set_procs (delete pp (procs s)) s).

Fixpoint setrun_loop (fuel : nat) (pp2 : ref) (v c : Z) : M sched (ref * Z) :=
  match fuel with
  | O => nofuel
  | S fuel =>
    pp2 <- lback pp2 ;;
    f <- lforw pp2 ;;
    x <- rdp f ;;
    let v := u16 (v + p_cval x) in
    if c <=? v then kret (pp2, v)
    else if decide (pp2 = Procq) then kret (pp2, v)
    else setrun_loop fuel pp2 v c
  end.

Definition setrun (pp1 : ref) : M sched unit :=
  x1 <- rdp pp1 ;;
  n <- gets (fun s => size (procs s)) ;;
  pv <- setrun_loop (S n) Procq 0 (p_cval x1) ;;
  let pp2 := fst pv in
  f <- lforw pp2 ;;
  set_lback f pp1 ;;;
  f <- lforw pp2 ;;
  set_lforw pp1 f ;;;
  set_lforw pp2 pp1 ;;;
  set_lback pp1 pp2 ;;;
  let v := u16 (snd pv - p_cval x1) in
  wrp pp1 (set_p_cval v) ;;;
  f <- lforw pp1 ;;
  wrp f (fun x => set_p_cval (u16 (p_cval x - v)) x) ;;;
  wrp pp1 (set_p_state PSRUN).

(** The search of [dispatch], and the process it takes off the queue. *)
Fixpoint dispatch_loop (fuel : nat) (pp2 : ref) (v : Z) : M sched ref :=
  match fuel with
  | O => nofuel
  | S fuel =>
    pp2 <- lforw pp2 ;;
    if decide (pp2 = Procq) then gets iprocp
    else
      x <- rdp pp2 ;;
      let v := u16 (v - p_cval x) in
      if Z.land (p_flags x) PFCORE =? 0 then dispatch_loop fuel pp2 v
      else
        pp1 <- lforw pp2 ;;
        wrp pp1 (fun y => set_p_cval (u16 (p_cval y + p_cval x)) y) ;;;
        wrp pp2 (set_p_cval v) ;;;
        b <- lback pp2 ;;
        set_lback pp1 b ;;;
        b <- lback pp1 ;;
        set_lforw b pp1 ;;;
        kret pp2
  end.

Definition dispatch : M sched unit :=
  n <- gets (fun s => size (procs s)) ;;
  pp1 <- dispatch_loop (S n) Procq 0 ;;
  modify (fun s => set_SELF pp1 (set_disflag 0 (set_quantum NCRTICK s))).

(** The number of the lowest signal that is set and not ignored. *)
Fixpoint nondsig_loop (fuel : nat) (ssig mask signo : Z) : Z :=
  match fuel with
  | O => signo
  | S fuel =>
    if Z.land ssig mask =? 0 then nondsig_loop fuel ssig (u16 (Z.shiftl mask 1)) (signo + 1) else signo
  end.

Definition nondsig : M sched Z :=
  pp <- gets SELF ;;
  wrp pp (fun x => set_p_ssig (Z.land (p_ssig x) (Z.lnot (p_isig x))) x) ;;;
  x <- rdp pp ;;
  kret (if p_ssig x =? 0 then 0 else nondsig_loop 16 (p_ssig x) 1 1).

(** Is there a signal that ends a sleep of this urgency? *)
Definition interrupted (cl : Z) : M sched bool :=
  pp <- gets SELF ;;
  x <- rdp pp ;;
  if (cl <? CVNOSIG) && negb (p_ssig x =? 0) then n <- nondsig ;; kret (negb (n =? 0)) else kret false.

(** [sleep] up to the point where another process runs.  The result is false
    when a signal sends the process back to the trap it came from. *)
Definition sleep_enter (e cl sl sr : Z) : M sched bool :=
  pp <- gets SELF ;;
  intr <- interrupted cl ;;
  if (intr : bool) then kret false
  else
    ut <- gets utimer ;;
    wrp pp (set_p_state PSSLEEP) ;;;
    wrp pp (set_p_event e) ;;;
    wrp pp (set_p_lctim ut) ;;;
    wrp pp (fun x => set_p_cval (addu (p_cval x) cl) x) ;;;
    wrp pp (set_p_ival sl) ;;;
    wrp pp (set_p_rval sr) ;;;
    let fp := Linkq (hash e) in
    bp <- lback fp ;;
    set_lforw pp fp ;;;
    set_lback fp pp ;;;
    set_lback pp bp ;;;
    set_lforw bp pp ;;;
    dispatch ;;;
    kret true.

(** The rest of [sleep], run by the process that has been woken. *)
Definition sleep_leave (cl : Z) : M sched bool :=
  pp <- gets SELF ;;
  wrp pp (fun x => set_p_cval (subu (p_cval x) cl) x) ;;;
  wrp pp (set_p_ival 0) ;;;
  wrp pp (set_p_rval 0) ;;;
  intr <- interrupted cl ;;
  kret (negb intr).

(** A sleeper taken off its queue, paid for its wait, and made ready. *)
Definition rouse (pp : ref) : M sched unit :=
  b <- lback pp ;;
  f <- lforw pp ;;
  set_lforw b f ;;;
  f <- lforw pp ;;
  b <- lback pp ;;
  set_lback f b ;;;
  ut <- gets utimer ;;
  wrp pp (fun x => set_p_cval (addu (p_cval x) (u16 (u16 (ut - p_lctim x) * CVCLOCK))) x) ;;;
  setrun pp.

Fixpoint wakeup_loop (fuel : nat) (e : Z) (pp1 pp : ref) : M sched unit :=
  match fuel with
  | O => nofuel
  | S fuel =>
    pp <- lforw pp ;;
    if decide (pp = pp1) then kret tt
    else
      x <- rdp pp ;;
      if p_event x =? e then rouse pp ;;; wakeup_loop fuel e pp1 pp1
      else wakeup_loop fuel e pp1 pp
  end.

(** The scan starts again after every process it wakes, so its turns are
    bounded by the square of the number of processes. *)
Definition wakeup (e : Z) : M sched unit :=
  n <- gets (fun s => size (procs s)) ;;
  wakeup_loop (S n * S n) e (Linkq (hash e)) (Linkq (hash e)).

(** sig.c *)
Definition sendsig (sig : Z) (pp : ref) : M sched unit :=
  let f := u16 (Z.shiftl 1 (sig - 1)) in
  x <- rdp pp ;;
  if negb (Z.land (p_isig x) f =? 0) then kret tt
  else
    wrp pp (fun x => set_p_ssig (Z.lor (p_ssig x) f) x) ;;;
    x <- rdp pp ;;
    if p_state x =? PSSLEEP then rouse pp else kret tt.

(** clock.c: one tick, as far as scheduling goes, and the end of [stand]. *)
Definition clock_sched : M sched unit :=
  modify (fun s => set_utimer (u16 (utimer s + 1)) s) ;;;
  modify (fun s => set_quantum (s16 (quantum s - 1)) s) ;;;
  f <- lforw Procq ;;
  x <- rdp f ;;
  (if CVCLOCK <? p_cval x
   then
     wrp f (fun x => set_p_cval (u16 (p_cval x - CVCLOCK)) x) ;;;
     wrp Procq (fun x => set_p_cval (u16 (p_cval x + CVCLOCK)) x)
   else kret tt) ;;;
  pp <- gets SELF ;;
  wrp pp (fun x => set_p_cval (Z.shiftr (p_cval x) 1) x).

Definition redispatch : M sched unit :=
  s <- get ;;
  if disflag s =? 0 then kret tt
  else
    (if decide (SELF s = iprocp s) then kret tt else setrun (SELF s)) ;;;
    dispatch.

(** ** Stepping through the code *)

Lemma wp_rdp p x (Q : PROC -> sched -> Prop) s : procs s !! p = Some x -> Q x s -> wp (rdp p) Q s.
Proof. intros E HQ. unfold wp, rdp, kbind. simpl. by rewrite E. Qed.

Lemma wp_wrp p g x (Q : unit -> sched -> Prop) s : procs s !! p = Some x ->
  Q tt (set_procs (<[p := g x]> (procs s)) s) -> wp (wrp p g) Q s.
Proof. intros E HQ. unfold wp, wrp, rdp, kbind. simpl. by rewrite E. Qed.

Lemma wp_lforw p q (Q : ref -> sched -> Prop) s : forw s !! p = Some q -> Q q s -> wp (lforw p) Q s.
Proof. intros E HQ. unfold wp, lforw, kbind. simpl. by rewrite E. Qed.

Lemma wp_lback p q (Q : ref -> sched -> Prop) s : back s !! p = Some q -> Q q s -> wp (lback p) Q s.
Proof. intros E HQ. unfold wp, lback, kbind. simpl. by rewrite E. Qed.
