(* ===== verification/Runq.v ===== *)
(** The run queue: what it means for it to be well formed, and [setrun]. *)
From stdpp Require Import sorting.
From S2P Require Import Prelude Sched Dlist Proc.
Local Open Scope Z_scope.
Local Open Scope kernel_scope.

(** ** The run queue

    A process on the run queue stands at its [p_cval], its claim to the
    processor; the queue is in falling order.  What is stored is the difference
    to the process in front, and the last value is stored in [procq], so that
    everybody's claim can be raised in one place. *)

Definition cvof (ps : gmap ref PROC) (p : ref) : option Z := p_cval <$> ps !! p.

Definition lastv (d : Z) (rq : list (ref * Z)) : Z := default d (snd <$> last rq).

Fixpoint deltas (ps : gmap ref PROC) (prev : Z) (rq : list (ref * Z)) : Prop :=
  match rq with
  | [] => True
  | (p, v) :: rq => cvof ps p = Some (u16 (prev - v)) /\ deltas ps v rq
  end.

Definition higher (a b : ref * Z) : Prop := b.2 <= a.2.

Record runq (s : sched) (rq : list (ref * Z)) : Prop := {
  rq_ring : ring (forw s) (back s) Procq rq.*1;
  rq_deltas : deltas (procs s) 0 rq;
  rq_end : cvof (procs s) Procq = Some (lastv 0 rq);
  rq_sorted : StronglySorted higher rq;
  rq_range : Forall (fun a : ref * Z => 0 <= a.2 < 65536) rq;
  rq_state : Forall (fun a : ref * Z => exists x, procs s !! a.1 = Some x /\ p_state x = PSRUN) rq
}.

(** Where a process that becomes ready goes: behind everybody whose claim is no less. *)
Fixpoint insert_run (p : ref) (c : Z) (rq : list (ref * Z)) : list (ref * Z) :=
  match rq with
  | [] => [(p, c)]
  | (q, v) :: rq' => if c <=? v then (q, v) :: insert_run p c rq' else (p, c) :: rq
  end.

Lemma lastv_snoc d xs a : lastv d (xs ++ [a]) = a.2.
Proof. unfold lastv. by rewrite last_snoc. Qed.

Lemma lastv_cons d a xs : lastv d (a :: xs) = lastv a.2 xs.
Proof. unfold lastv. rewrite last_cons. by destruct (last xs). Qed.

Lemma lastv_elem d xs : xs <> [] -> exists a, a ∈ xs /\ lastv d xs = a.2.
Proof.
  intros Hne. destruct (exists_last Hne) as (ys & a & ->). exists a.
  rewrite lastv_snoc. split; [set_solver|done].
Qed.

Lemma deltas_app ps xs : forall d ys,
  deltas ps d (xs ++ ys) <-> deltas ps d xs /\ deltas ps (lastv d xs) ys.
Proof.
  induction xs as [|[p v] xs IH]; intros d ys; simpl; [tauto|].
  rewrite lastv_cons, IH. simpl. tauto.
Qed.

Lemma deltas_frame ps ps' rq : forall d,
  (forall p, p ∈ rq.*1 -> cvof ps' p = cvof ps p) -> deltas ps d rq -> deltas ps' d rq.
Proof.
  induction rq as [|[p v] rq IH]; intros d Hf; simpl; [done|]. intros [E Hd]. split.
  - rewrite Hf; [done|]. simpl. by left.
  - apply IH; [|done]. intros q Hq. apply Hf. simpl. by right.
Qed.

Lemma insert_run_app p c xs ys :
  Forall (fun a : ref * Z => c <= a.2) xs -> Forall (fun a : ref * Z => a.2 < c) ys ->
  insert_run p c (xs ++ ys) = xs ++ (p, c) :: ys.
Proof.
  intros Hx Hy. induction Hx as [|[q v] xs Hv Hx IH]; simpl.
  - destruct Hy as [|[q v] ys Hv Hy]; [done|]. simpl in *. by rewrite (proj2 (Z.leb_gt _ _)).
  - simpl in Hv. rewrite (proj2 (Z.leb_le _ _)) by done. by rewrite IH.
Qed.

Lemma before_fst (xs : list (ref * Z)) : before Procq xs.*1 = default Procq (fst <$> last xs).
Proof. unfold before. rewrite fmap_last. done. Qed.

Lemma after_fst (ys : list (ref * Z)) : after Procq ys.*1 = default Procq (fst <$> head ys).
Proof. by destruct ys. Qed.

Lemma lastv_range s xs ys : runq s (xs ++ ys) -> 0 <= lastv 0 xs < 65536.
Proof.
  intros Hr. pose proof (rq_range _ _ Hr) as [HF _]%Forall_app.
  destruct (decide (xs = [])) as [->|Hne]; [done|].
  destruct (lastv_elem 0 xs Hne) as (a & Ha & ->). rewrite Forall_forall in HF. by apply HF.
Qed.

(** What the node after a place stores: with the claim at it, it gives the
    claim in front. *)
Lemma runq_node s xs ys : runq s (xs ++ ys) ->
  exists x, procs s !! after Procq ys.*1 = Some x /\
    p_cval x = u16 (lastv 0 xs - default 0 (snd <$> head ys)).
Proof.
  intros Hr. pose proof (lastv_range _ _ _ Hr) as Hv. destruct ys as [|[p v] ys].
  - pose proof (rq_end _ _ Hr) as He. rewrite app_nil_r in *. unfold cvof in He. simpl.
    unfold after. simpl. destruct (procs s !! Procq) as [x|]; [|done]. exists x. split; [done|].
    injection He as He. rewrite He, Z.sub_0_r, u16_small by done. done.
  - pose proof (rq_deltas _ _ Hr) as Hd. apply deltas_app in Hd as [_ [He _]].
    unfold cvof in He. unfold after. simpl in *. destruct (procs s !! p) as [x|]; [|done].
    exists x. split; [done|]. by injection He.
Qed.

Lemma u16_sub_add a b : 0 <= a < 65536 -> u16 (b + u16 (a - b)) = a.
Proof.
  intros Ha. unfold u16, wrapu. rewrite Zplus_mod_idemp_r.
  replace (b + (a - b)) with a by lia. by apply Z.mod_small.
Qed.

(** The search for the place, from the tail: [ys] has been passed. *)
Lemma wp_setrun_loop s c : forall xs ys fuel,
  runq s (xs ++ ys) -> Forall (fun a : ref * Z => a.2 < c) ys -> (length xs < fuel)%nat ->
  wp (setrun_loop fuel (after Procq ys.*1) (default 0 (snd <$> head ys)) c)
    (fun pv s' => s' = s /\ exists xs1 xs2, xs = xs1 ++ xs2 /\
       pv = (before Procq xs1.*1, lastv 0 xs1) /\ Forall (fun a : ref * Z => a.2 < c) (xs2 ++ ys) /\
       (xs1 = [] \/ c <= lastv 0 xs1)) s.
Proof.
  induction xs as [|a xs IH] using rev_ind; intros ys fuel Hr Hy Hf;
    (destruct fuel as [|fuel]; [lia|]); cbn [setrun_loop].
  all: pose proof (rq_ring _ _ Hr) as Hring; rewrite fmap_app in Hring;
    apply ring_at in Hring as [Hfw Hbk];
    destruct (runq_node _ _ _ Hr) as (x & Hx & Ex);
    apply wp_bind, (wp_lback _ _ _ _ Hbk), wp_bind, (wp_lforw _ _ _ _ Hfw), wp_bind, (wp_rdp _ _ _ _ Hx);
    cbn zeta; rewrite Ex, u16_sub_add by (by apply (lastv_range s _ ys)).
  - assert (HQ : wp (kret (Procq, 0)) (fun pv s' => s' = s /\ exists xs1 xs2, [] = xs1 ++ xs2 /\
       pv = (before Procq xs1.*1, lastv 0 xs1) /\ Forall (fun a : ref * Z => a.2 < c) (xs2 ++ ys) /\
       (xs1 = [] \/ c <= lastv 0 xs1)) s).
    { apply wp_ret. split; [done|]. exists [], []. split_and!; auto. }
    unfold before, lastv. simpl. by destruct (c <=? 0).
  - assert (Hb : before Procq (xs ++ [a]).*1 = a.1).
    { unfold before. rewrite fmap_app, last_app. done. }
    rewrite lastv_snoc, Hb. destruct (Z.leb_spec c a.2) as [Hle|Hgt].
    + apply wp_ret. split; [done|]. exists (xs ++ [a]), []. rewrite app_nil_r, Hb, lastv_snoc.
      split_and!; auto.
    + destruct (decide (a.1 = Procq)) as [E|_].
      { exfalso. destruct (rq_ring _ _ Hr) as [_ Hn]. apply NoDup_cons in Hn as [Hn _].
        rewrite !fmap_app in Hn. simpl in Hn. rewrite E in Hn. set_solver. }
      rewrite <- app_assoc in Hr. cbn [app] in Hr.
      eapply wp_mono; [apply (IH (a :: ys) fuel Hr)|].
      * by constructor.
      * rewrite length_app in Hf. simpl in Hf. lia.
      * intros pv s' (-> & xs1 & xs2 & -> & Hpv & HF & Hc). split; [done|].
        exists xs1, (xs2 ++ [a]). rewrite <- !app_assoc. split_and!; auto.
Qed.

(** Everything but the links and the PROCs. *)
Definition core (s : sched) :=
  (nforw s, nback s, (SELF s, iprocp s, cpid s), (utimer s, quantum s, disflag s)).

(** [s'] differs from [s] only in the links and the claims of the nodes [D],
    and in what happened to [p]. *)
Record rest_same (p : ref) (D : list ref) (s s' : sched) : Prop := {
  rs_forw q : q ∉ D -> forw s' !! q = forw s !! q;
  rs_back q : q ∉ D -> back s' !! q = back s !! q;
  rs_procs q : q <> p -> set_p_cval 0 <$> procs s' !! q = set_p_cval 0 <$> procs s !! q;
  rs_cval q : q ∉ D -> procs s' !! q = procs s !! q;
  rs_core : core s' = core s
}.

Lemma u16_sub_shift a b c : u16 (u16 (a - b) - u16 (a - c)) = u16 (c - b).
Proof. unfold u16, wrapu. rewrite <- Zminus_mod. f_equal. lia. Qed.

Lemma runq_size s rq : runq s rq -> (length rq < size (procs s))%nat.
Proof.
  intros Hr. pose proof (proj2 (rq_ring _ _ Hr)) as Hn.
  assert (Hsub : list_to_set (Procq :: rq.*1) ⊆ dom (procs s)).
  { intros q Hq. apply elem_of_list_to_set, elem_of_cons in Hq as [->|Hq]; apply elem_of_dom.
    - pose proof (rq_end _ _ Hr) as He. unfold cvof in He. by destruct (procs s !! Procq).
    - apply list_elem_of_fmap in Hq as ([q' v] & -> & Hq).
      destruct (proj1 (Forall_forall _ _) (rq_state _ _ Hr) _ Hq) as (x & Hx & _). by exists x. }
  apply subseteq_size in Hsub. rewrite size_list_to_set, size_dom in Hsub by done.
  simpl in Hsub. rewrite length_fmap in Hsub. lia.
Qed.

Lemma sorted_above xs c : StronglySorted higher xs -> xs = [] \/ c <= lastv 0 xs ->
  Forall (fun a : ref * Z => c <= a.2) xs.
Proof.
  intros HS [->|Hc]; [constructor|].
  destruct (decide (xs = [])) as [->|Hne]; [constructor|].
  destruct (exists_last Hne) as (l & a & ->). rewrite lastv_snoc in Hc.
  apply StronglySorted_app in HS as (H1 & _ & _). apply Forall_app. split; [|by repeat constructor].
  apply Forall_forall. intros b Hb. specialize (H1 b a Hb ltac:(set_solver)). unfold higher in H1. lia.
Qed.

Lemma sorted_insert xs ys p c : StronglySorted higher (xs ++ ys) ->
  Forall (fun a : ref * Z => c <= a.2) xs -> Forall (fun a : ref * Z => a.2 < c) ys ->
  StronglySorted higher (xs ++ (p, c) :: ys).
Proof.
  intros HS Hx Hy. apply StronglySorted_app in HS as (H1 & H2 & H3).
  rewrite Forall_forall in Hx, Hy. apply StronglySorted_app_2; [|done|].
  - intros a b Ha Hb. apply elem_of_cons in Hb as [->|Hb]; [by apply Hx|by apply H1].
  - constructor; [done|]. apply Forall_forall. intros b Hb. unfold higher. specialize (Hy b Hb). simpl. lia.
Qed.

(** The stored differences once [p] has been put between [xs] and [ys]. *)
Lemma deltas_insert ps ps' xs ys p c : let n := after Procq ys.*1 in
  deltas ps 0 (xs ++ ys) -> cvof ps Procq = Some (lastv 0 (xs ++ ys)) ->
  NoDup (Procq :: p :: (xs ++ ys).*1) -> 0 <= c < 65536 ->
  (forall q, q <> p -> q <> n -> cvof ps' q = cvof ps q) ->
  cvof ps' p = Some (u16 (lastv 0 xs - c)) ->
  cvof ps' n = Some (u16 (c - default 0 (snd <$> head ys))) ->
  deltas ps' 0 (xs ++ (p, c) :: ys) /\ cvof ps' Procq = Some (lastv 0 (xs ++ (p, c) :: ys)).
Proof.
  intros n Hd He Hn Hc Hf Hp Hnn. apply deltas_app in Hd as [Hd1 Hd2].
  apply NoDup_cons in Hn as [HP Hn]. apply NoDup_cons in Hn as [Hpn Hn].
  rewrite fmap_app in HP, Hpn, Hn. apply NoDup_app in Hn as (N1 & N12 & N2).
  assert (Hxs : deltas ps' 0 xs).
  { eapply deltas_frame; [|done]. intros q Hq. apply Hf; [set_solver|].
    intros ->. unfold n in *. destruct (proj1 (elem_of_cons _ _ _) (after_elem Procq ys.*1)) as [E|E].
    - rewrite E in Hq. set_solver.
    - by apply (N12 _ Hq). }
  rewrite deltas_app. simpl. destruct ys as [|[q v] ys].
  - unfold n, after in *. simpl in *. rewrite lastv_snoc. split_and!; try done.
    by rewrite Hnn, Z.sub_0_r, u16_small by done.
  - unfold n, after in *. simpl in *. apply NoDup_cons in N2 as [Hq N2]. split_and!; try done.
    + eapply deltas_frame; [|apply Hd2]. intros w Hw. apply Hf; [set_solver|]. intros ->. set_solver.
    + rewrite Hf by set_solver. rewrite He. unfold lastv. rewrite !last_app_cons, !last_cons.
      destruct (last ys); done.
Qed.

Lemma runq_notin s rq p x : runq s rq -> procs s !! p = Some x -> p_state x <> PSRUN -> p ∉ rq.*1.
Proof.
  intros Hr Hx Hs Hp. apply list_elem_of_fmap in Hp as (a & -> & Ha).
  destruct (proj1 (Forall_forall _ _) (rq_state _ _ Hr) _ Ha) as (y & Hy & Ey). congruence.
Qed.

Lemma wp_setrun s rq p x : runq s rq -> procs s !! p = Some x -> p <> Procq -> p ∉ rq.*1 ->
  0 <= p_cval x < 65536 ->
  wp (setrun p) (fun _ s' => runq s' (insert_run p (p_cval x) rq) /\
    rest_same p (Procq :: p :: rq.*1) s s' /\
    exists v, procs s' !! p = Some (set_p_state PSRUN (set_p_cval v x))) s.
Proof.
  intros Hr Hx HpP Hp Hc. unfold setrun. apply wp_bind, (wp_rdp _ _ _ _ Hx), wp_bind, wp_gets, wp_bind.
  rewrite <- (app_nil_r rq) in Hr.
  eapply wp_mono; [apply (wp_setrun_loop s (p_cval x) rq [] _ Hr)|]; [constructor| |].
  { pose proof (runq_size _ _ Hr) as Hl. rewrite app_nil_r in Hl. lia. }
  intros pv s' (-> & xs & ys & -> & -> & HF & Hcx). cbn [fst snd].
  rewrite app_nil_r in HF. rewrite app_nil_r in Hr.
  pose proof (rq_ring _ _ Hr) as Hring. rewrite fmap_app in Hring, Hp.
  pose proof (ring_at _ _ _ _ _ Hring) as [Hfw Hbk].
  set (pp2 := before Procq xs.*1) in *. set (n := after Procq ys.*1) in *.
  assert (Hnp : n <> p).
  { intros E. pose proof (after_elem Procq ys.*1) as Ha. fold n in Ha. rewrite E in Ha. set_solver. }
  assert (Hpp : pp2 <> p).
  { intros E. pose proof (before_elem Procq xs.*1) as Ha. fold pp2 in Ha. rewrite E in Ha. set_solver. }
  destruct (runq_node _ _ _ Hr) as (y & Hy & Ey). fold n in Hy.
  apply wp_bind, (wp_lforw _ _ _ _ Hfw), wp_bind, wp_modify, wp_bind.
  apply (wp_lforw _ n); [exact Hfw|].
  apply wp_bind, wp_modify, wp_bind, wp_modify, wp_bind, wp_modify, wp_bind.
  apply (wp_wrp _ _ x); [exact Hx|]. apply wp_bind.
  apply (wp_lforw _ n).
  { cbn. by rewrite lookup_insert_ne, lookup_insert_eq. }
  apply wp_bind, (wp_wrp _ _ y); [cbn; by rewrite lookup_insert_ne|].
  eapply wp_wrp; [cbn; rewrite lookup_insert_ne by done; by rewrite lookup_insert_eq|].
  cbn [set_procs set_forw set_back procs forw back].
  set (v := u16 (lastv 0 xs - p_cval x)).
  set (ps' := <[p := _]> _). set (b' := <[p := pp2]> _). set (f' := <[pp2 := p]> _).
  assert (Hpq : forall q, q <> p -> q <> n -> ps' !! q = procs s !! q).
  { intros q H1 H2. unfold ps'. by rewrite !lookup_insert_ne. }
  assert (Hpp' : ps' !! p = Some (set_p_state PSRUN (set_p_cval v x))).
  { unfold ps'. by rewrite lookup_insert_eq. }
  assert (Hpn : ps' !! n = Some (set_p_cval (u16 (p_cval y - v)) y)).
  { unfold ps'. rewrite lookup_insert_ne, lookup_insert_eq by done. done. }
  assert (Hb' : b' = <[n := p]> (<[p := pp2]> (back s))).
  { unfold b'. by rewrite insert_insert_ne. }
  assert (Hx' : Forall (fun a : ref * Z => p_cval x <= a.2) xs).
  { apply sorted_above; [|done]. pose proof (rq_sorted _ _ Hr) as HS.
    by apply StronglySorted_app_1_l in HS. }
  rewrite insert_run_app by done.
  assert (Hdom : forall q, q ∉ Procq :: p :: (xs ++ ys).*1 -> q <> pp2 /\ q <> n /\ q <> p).
  { intros q Hq. pose proof (before_elem Procq xs.*1) as H1. pose proof (after_elem Procq ys.*1) as H2.
    fold pp2 in H1. fold n in H2. rewrite fmap_app in Hq. split_and!; intros ->; set_solver. }
  split; [|split; [|by exists v]].
  - destruct (deltas_insert (procs s) ps' xs ys p (p_cval x)) as [Hd He].
    + exact (rq_deltas _ _ Hr).
    + exact (rq_end _ _ Hr).
    + destruct Hring as [_ Hn]. rewrite fmap_app. apply NoDup_cons in Hn as [HP Hn].
      constructor; [set_solver|]. by constructor.
    + done.
    + intros q H1 H2. unfold cvof. by rewrite Hpq.
    + unfold cvof. by rewrite Hpp'.
    + unfold cvof. fold n. rewrite Hpn. simpl. unfold v. by rewrite Ey, u16_sub_shift.
    + constructor; cbn.
      * rewrite Hb', fmap_app. by apply ring_insert.
      * done.
      * done.
      * apply sorted_insert; [exact (rq_sorted _ _ Hr)|done..].
      * pose proof (rq_range _ _ Hr) as [R1 R2]%Forall_app. apply Forall_app. split; [done|by constructor].
      * pose proof (rq_state _ _ Hr) as HT. apply Forall_app in HT as [T1 T2].
        assert (HT : forall a : ref * Z, (exists x, procs s !! a.1 = Some x /\ p_state x = PSRUN) ->
          exists x, ps' !! a.1 = Some x /\ p_state x = PSRUN).
        { intros a (z & Hz & Ez). destruct (decide (a.1 = p)) as [->|]; [by eexists|].
          destruct (decide (a.1 = n)) as [E|]; [|exists z; by rewrite Hpq].
          rewrite E in *. rewrite Hpn. eexists. split; [done|]. simpl. congruence. }
        apply Forall_app. split; [by eapply Forall_impl|]. constructor; [by eexists|].
        by eapply Forall_impl.
  - constructor; cbn.
    + intros q Hq. destruct (Hdom q Hq) as (H1 & H2 & H3). unfold f'. by rewrite !lookup_insert_ne.
    + intros q Hq. destruct (Hdom q Hq) as (H1 & H2 & H3). rewrite Hb'. by rewrite !lookup_insert_ne.
    + intros q Hq. destruct (decide (q = n)) as [->|]; [|by rewrite Hpq].
      by rewrite Hpn, Hy.
    + intros q Hq. destruct (Hdom q Hq) as (H1 & H2 & H3). by rewrite Hpq.
    + done.
Qed.
