(* ===== verification/Sleepq.v ===== *)
(** The sleep queues beside the run queue: [rouse], [dispatch] and [wakeup]. *)
From stdpp Require Import sorting.
From S2P Require Import Prelude Sched Dlist Proc Runq.
Local Open Scope Z_scope.
Local Open Scope kernel_scope.

(** ** The sleep queues and the whole state *)

Record sleepq (s : sched) (i : Z) (l : list ref) : Prop := {
  sl_ring : ring (forw s) (back s) (Linkq i) l;
  sl_state : Forall (fun p => exists x, procs s !! p = Some x /\ p_state x = PSSLEEP /\
    hash (p_event x) = i /\ 0 <= p_cval x < 65536) l
}.

(** A process that is neither on the run queue nor asleep. *)
Definition awake (s : sched) (rq : list (ref * Z)) (p : ref) : Prop :=
  (exists x, procs s !! p = Some x /\ p_state x = PSRUN /\ 0 <= p_cval x < 65536) /\ (p ∉ rq.*1).

Record rep (s : sched) (rq : list (ref * Z)) (sq : Z -> list ref) : Prop := {
  rp_run : runq s rq;
  rp_slp i : 0 <= i < NHPLINK -> sleepq s i (sq i);
  rp_procq : exists x, procs s !! Procq = Some x /\ p_state x = 0;
  rp_link i : procs s !! Linkq i = None;
  rp_self : awake s rq (SELF s);
  rp_idle : awake s rq (iprocp s);
  rp_slept p x : procs s !! p = Some x -> p_state x = PSSLEEP -> p ∈ sq (hash (p_event x))
}.

Definition same_at (s s' : sched) (q : ref) : Prop :=
  forw s' !! q = forw s !! q /\ back s' !! q = back s !! q /\ procs s' !! q = procs s !! q.

Lemma rest_same_at p D s s' q : rest_same p D s s' -> q ∉ D -> same_at s s' q.
Proof. intros [Hf Hb _ Hc _] Hq. split_and!; auto. Qed.

Lemma runq_frame s s' rq : runq s rq -> (forall q, q ∈ Procq :: rq.*1 -> same_at s s' q) -> runq s' rq.
Proof.
  intros Hr Hf.
  assert (Hcv : forall q, q ∈ Procq :: rq.*1 -> cvof (procs s') q = cvof (procs s) q).
  { intros q Hq. unfold cvof. by destruct (Hf q Hq) as (_ & _ & ->). }
  constructor.
  - eapply ring_frame; [exact (rq_ring _ _ Hr)|]. intros q Hq. by destruct (Hf q Hq) as (-> & -> & _).
  - eapply deltas_frame; [|exact (rq_deltas _ _ Hr)]. intros q Hq. apply Hcv. by right.
  - rewrite Hcv by left. exact (rq_end _ _ Hr).
  - exact (rq_sorted _ _ Hr).
  - exact (rq_range _ _ Hr).
  - apply Forall_forall. intros a Ha.
    destruct (Hf a.1) as (_ & _ & ->); [right; by apply list_elem_of_fmap_2|].
    pose proof (rq_state _ _ Hr) as HF. rewrite Forall_forall in HF. by apply HF.
Qed.

Lemma sleepq_frame s s' i l : sleepq s i l ->
  (forall q, q ∈ Linkq i :: l -> forw s' !! q = forw s !! q /\ back s' !! q = back s !! q) ->
  (forall q, q ∈ l -> procs s' !! q = procs s !! q) -> sleepq s' i l.
Proof.
  intros [Hr Hst] Hf Hp. constructor; [by eapply ring_frame|].
  rewrite Forall_forall in Hst |- *. intros q Hq. rewrite Hp by done. by apply Hst.
Qed.

Lemma sleepq_lookup s i l p : sleepq s i l -> p ∈ l ->
  exists x, procs s !! p = Some x /\ p_state x = PSSLEEP /\ hash (p_event x) = i /\ 0 <= p_cval x < 65536.
Proof. intros [_ Hst] Hp. rewrite Forall_forall in Hst. by apply Hst. Qed.

Lemma runq_lookup s rq p : runq s rq -> p ∈ rq.*1 -> exists x, procs s !! p = Some x /\ p_state x = PSRUN.
Proof.
  intros Hr Hp. apply list_elem_of_fmap in Hp as (a & -> & Ha).
  pose proof (rq_state _ _ Hr) as HF. rewrite Forall_forall in HF. by apply HF.
Qed.

(** A sleeper is on no other queue, and it is not what runs. *)
Lemma rep_sleeper s rq sq i p : rep s rq sq -> 0 <= i < NHPLINK -> p ∈ sq i ->
  (p ∉ Procq :: rq.*1) /\ p <> SELF s /\ p <> iprocp s /\ (forall j, p <> Linkq j) /\
  (forall j, 0 <= j < NHPLINK -> j <> i -> p ∉ sq j).
Proof.
  intros Hr Hi Hp. destruct (sleepq_lookup _ _ _ _ (rp_slp _ _ _ Hr i Hi) Hp) as (x & Hx & Sx & Ex & _).
  unfold PSSLEEP in Sx. split_and!.
  - intros [->|Hq]%elem_of_cons.
    + destruct (rp_procq _ _ _ Hr) as (y & Hy & Sy). congruence.
    + destruct (runq_lookup _ _ _ (rp_run _ _ _ Hr) Hq) as (y & Hy & Sy). unfold PSRUN in *. congruence.
  - intros ->. destruct (rp_self _ _ _ Hr) as [(y & Hy & Sy & _) _]. unfold PSRUN in *. congruence.
  - intros ->. destruct (rp_idle _ _ _ Hr) as [(y & Hy & Sy & _) _]. unfold PSRUN in *. congruence.
  - intros j ->. pose proof (rp_link _ _ _ Hr j). congruence.
  - intros j Hj Hne Hq.
    destruct (sleepq_lookup _ _ _ _ (rp_slp _ _ _ Hr j Hj) Hq) as (y & Hy & _ & Ey & _). congruence.
Qed.

Lemma rep_link_notin s rq sq i : rep s rq sq -> Linkq i ∉ Procq :: rq.*1.
Proof.
  intros Hr [?|Hq]%elem_of_cons; [done|].
  destruct (runq_lookup _ _ _ (rp_run _ _ _ Hr) Hq) as (y & Hy & _).
  pose proof (rp_link _ _ _ Hr i). congruence.
Qed.

Lemma awake_not_procq s rq sq p : rep s rq sq -> awake s rq p -> p ∉ Procq :: rq.*1.
Proof.
  intros Hr [(x & Hx & Sx & _) Hn] [->|?]%elem_of_cons; [|done].
  destruct (rp_procq _ _ _ Hr) as (y & Hy & Sy). unfold PSRUN in *. congruence.
Qed.

Lemma elem_insert_run q p c rq : q ∈ (insert_run p c rq).*1 <-> q = p \/ q ∈ rq.*1.
Proof.
  induction rq as [|[w v] rq IH]; simpl; [set_solver|].
  destruct (c <=? v); simpl; rewrite ?elem_of_cons, ?IH; set_solver.
Qed.

Lemma u16_addu v n : 0 <= v < 65536 -> 0 <= addu v n < 65536.
Proof. intros Hv. unfold addu, MAXU. pose proof (u16_range (v + n)). cbn zeta. destruct (v <=? _); lia. Qed.

Lemma subu_range v n : 0 <= v < 65536 -> 0 <= subu v n < 65536.
Proof. intros Hv. unfold subu. pose proof (u16_range (v - n)). cbn zeta. destruct (_ <=? v); lia. Qed.

(** What a process that wakes up now claims. *)
Definition aged (s : sched) (x : PROC) : Z := addu (p_cval x) (u16 (u16 (utimer s - p_lctim x) * CVCLOCK)).

Definition upd_sq (i : Z) (l : list ref) (sq : Z -> list ref) (j : Z) : list ref :=
  if j =? i then l else sq j.

Lemma sleepq_members s rq sq i p : rep s rq sq -> 0 <= i < NHPLINK -> p ∈ Linkq i :: sq i ->
  p ∉ Procq :: rq.*1.
Proof.
  intros Hr Hi [->|Hp]%elem_of_cons; [by eapply rep_link_notin|].
  by apply (rep_sleeper _ _ _ _ _ Hr Hi Hp).
Qed.

Lemma sleepq_disjoint s rq sq i j p : rep s rq sq -> 0 <= i < NHPLINK -> 0 <= j < NHPLINK -> i <> j ->
  p ∈ Linkq i :: sq i -> p ∉ Linkq j :: sq j.
Proof.
  intros Hr Hi Hj Hne [->|Hp]%elem_of_cons [Hq|Hq]%elem_of_cons.
  - congruence.
  - by destruct (rep_sleeper _ _ _ _ _ Hr Hj Hq) as (_ & _ & _ & Hl & _); destruct (Hl i).
  - subst p. by destruct (rep_sleeper _ _ _ _ _ Hr Hi Hp) as (_ & _ & _ & Hl & _); destruct (Hl j).
  - destruct (rep_sleeper _ _ _ _ _ Hr Hi Hp) as (_ & _ & _ & _ & Hd). by apply (Hd j).
Qed.

(** [p] taken out of its queue, and its PROC changed to [x']. *)
Definition unlinked (p b n : ref) (x' : PROC) (s : sched) : sched :=
  set_procs (<[p := x']> (procs s)) (set_back (<[n := b]> (back s)) (set_forw (<[b := n]> (forw s)) s)).

Lemma unlinked_frame p b n x' s q : q <> p -> q <> b -> q <> n -> same_at s (unlinked p b n x' s) q.
Proof. intros H1 H2 H3. split_and!; cbn; by rewrite lookup_insert_ne. Qed.

Lemma awake_frame s s' rq rq' p : awake s rq p -> procs s' !! p = procs s !! p -> p ∉ rq'.*1 -> awake s' rq' p.
Proof. intros [(x & Hx & Hs) _] E Hn. split; [|done]. exists x. by rewrite E. Qed.

Lemma state_same o' y : set_p_cval 0 <$> o' = set_p_cval 0 <$> Some y ->
  exists z, o' = Some z /\ p_state z = p_state y.
Proof. destruct o' as [z|]; [|done]. intros E. exists z. split; [done|]. injection E. done. Qed.

Lemma cval_same o o' z : set_p_cval 0 <$> o' = set_p_cval 0 <$> o -> o' = Some z ->
  exists y, o = Some y /\ p_state y = p_state z /\ p_event y = p_event z.
Proof.
  intros E ->. destruct o as [y|]; [|done]. exists y. split; [done|]. injection E. auto.
Qed.

Section roused.
  Context (s s' : sched) (rq : list (ref * Z)) (sq : Z -> list ref) (i : Z) (l1 l2 : list ref) (p : ref) (x' : PROC).
  Context (Hr : rep s rq sq) (Hi : 0 <= i < NHPLINK) (Hl : sq i = l1 ++ p :: l2).
  Context (Hrest : rest_same p (Procq :: p :: rq.*1)
    (unlinked p (before (Linkq i) l1) (after (Linkq i) l2) x' s) s').

Lemma roused_in : p ∈ sq i.
Proof. rewrite Hl. set_solver. Qed.

Lemma roused_ne q : q ∈ Linkq i :: l1 ++ l2 -> q <> p /\ q ∈ Linkq i :: sq i.
Proof.
  intros Hq. split; [|rewrite Hl; set_solver]. intros ->.
  pose proof (sl_ring _ _ _ (rp_slp _ _ _ Hr i Hi)) as Hring. rewrite Hl in Hring.
  by apply ring_notin in Hring.
Qed.

Lemma roused_same q : q ∉ Linkq i :: sq i -> q ∉ Procq :: rq.*1 -> same_at s s' q.
Proof.
  intros Hq HqD. pose proof roused_in. assert (q <> p) by (intros ->; set_solver).
  pose proof (before_elem (Linkq i) l1). pose proof (after_elem (Linkq i) l2). rewrite Hl in Hq.
  destruct (rest_same_at _ _ _ _ q Hrest) as (E1 & E2 & E3); [set_solver|].
  destruct (unlinked_frame p (before (Linkq i) l1) (after (Linkq i) l2) x' s q) as (F1 & F2 & F3);
    [done|set_solver|set_solver|].
  split_and!; congruence.
Qed.

Lemma roused_sleepq j : 0 <= j < NHPLINK -> sleepq s' j (upd_sq i (l1 ++ l2) sq j).
Proof.
  intros Hj. unfold upd_sq. destruct (Z.eqb_spec j i) as [->|Hne].
  - assert (Hd : forall q, q ∈ Linkq i :: l1 ++ l2 ->
      same_at (unlinked p (before (Linkq i) l1) (after (Linkq i) l2) x' s) s' q).
    { intros q Hq. apply roused_ne in Hq as [Hne Hq]. apply (rest_same_at _ _ _ _ _ Hrest).
      pose proof (sleepq_members _ _ _ _ _ Hr Hi Hq). set_solver. }
    apply (sleepq_frame (unlinked p (before (Linkq i) l1) (after (Linkq i) l2) x' s)).
    + constructor; [cbn; eapply ring_remove; rewrite <- Hl; exact (sl_ring _ _ _ (rp_slp _ _ _ Hr i Hi))|].
      apply Forall_forall. intros q Hq. destruct (roused_ne q) as [Hne Hq']; [set_solver|].
      destruct (sleepq_lookup _ _ _ q (rp_slp _ _ _ Hr i Hi)) as (z & Hz & Sz); [rewrite Hl; set_solver|].
      exists z. split; [|done]. cbn. by rewrite lookup_insert_ne.
    + intros q Hq. by destruct (Hd q Hq) as (? & ? & _).
    + intros q Hq. destruct (Hd q) as (_ & _ & ?); [by right|done].
  - assert (Hd : forall q, q ∈ Linkq j :: sq j -> same_at s s' q).
    { intros q Hq. apply roused_same; [by eapply sleepq_disjoint|by eapply sleepq_members]. }
    eapply sleepq_frame; [exact (rp_slp _ _ _ Hr j Hj)|..].
    + intros q Hq. by destruct (Hd q Hq) as (? & ? & _).
    + intros q Hq. destruct (Hd q) as (_ & _ & ?); [by right|done].
Qed.

Lemma roused_awake q : awake s rq q -> awake s' (insert_run p (p_cval x') rq) q /\ procs s' !! q = procs s !! q.
Proof.
  intros Hq. pose proof (awake_not_procq _ _ _ _ Hr Hq) as HqD.
  assert (Hqi : q ∉ Linkq i :: sq i).
  { intros Hin. destruct Hq as [(y & Hy & Sy & _) _]. apply elem_of_cons in Hin as [->|Hin].
    - pose proof (rp_link _ _ _ Hr i). congruence.
    - destruct (sleepq_lookup _ _ _ _ (rp_slp _ _ _ Hr i Hi) Hin) as (z & Hz & Sz & _).
      unfold PSRUN, PSSLEEP in *. congruence. }
  pose proof roused_in. destruct (roused_same q Hqi HqD) as (_ & _ & E). split; [|done].
  eapply awake_frame; [exact Hq|done|]. rewrite elem_insert_run. set_solver.
Qed.

Lemma roused_rep : runq s' (insert_run p (p_cval x') rq) ->
  (exists v, procs s' !! p = Some (set_p_state PSRUN (set_p_cval v x'))) ->
  rep s' (insert_run p (p_cval x') rq) (upd_sq i (l1 ++ l2) sq).
Proof.
  intros Hrun [v Hv]. destruct (rep_sleeper _ _ _ _ _ Hr Hi roused_in) as (HpD & _ & _ & Hpl & _).
  pose proof (rs_core _ _ _ _ Hrest) as Hcore. injection Hcore as _ _ Hself Hidle _ _ _ _.
  constructor.
  - done.
  - apply roused_sleepq.
  - destruct (rp_procq _ _ _ Hr) as (y & Hy & Sy).
    assert (Hne : Procq <> p) by (intros <-; set_solver).
    pose proof (rs_procs _ _ _ _ Hrest Procq Hne) as E. cbn [unlinked procs set_procs] in E.
    rewrite lookup_insert_ne, Hy in E by done. apply state_same in E as (z & -> & Ez).
    exists z. split; [done|congruence].
  - intros j. pose proof (rs_procs _ _ _ _ Hrest (Linkq j) (fun H => Hpl j (eq_sym H))) as E.
    cbn in E. rewrite lookup_insert_ne, (rp_link _ _ _ Hr j) in E by (intros H; by apply (Hpl j)).
    by destruct (procs s' !! Linkq j).
  - rewrite Hself. apply roused_awake, (rp_self _ _ _ Hr).
  - rewrite Hidle. apply roused_awake, (rp_idle _ _ _ Hr).
  - intros q z Hz Sz. destruct (decide (q = p)) as [->|Hne].
    { rewrite Hz in Hv. injection Hv as ->. simpl in Sz. done. }
    pose proof (rs_procs _ _ _ _ Hrest q Hne) as E. cbn [unlinked procs set_procs] in E.
    rewrite lookup_insert_ne in E by done. destruct (cval_same _ _ _ E Hz) as (y & Hy & Sy & Ey).
    pose proof (rp_slept _ _ _ Hr q y Hy ltac:(congruence)) as Hin. rewrite Ey in Hin.
    unfold upd_sq. destruct (Z.eqb_spec (hash (p_event z)) i) as [Ei|]; [|done].
    rewrite Ei, Hl in Hin. set_solver.
Qed.
End roused.

(** What is left alone when [p] is moved. *)
Definition others_same (p : ref) (rq : list (ref * Z)) (s s' : sched) : Prop :=
  (forall q, q <> p -> q ∉ Procq :: rq.*1 -> procs s' !! q = procs s !! q) /\
  (forall q, q <> p -> set_p_cval 0 <$> procs s' !! q = set_p_cval 0 <$> procs s !! q) /\
  core s' = core s.

Lemma wp_rouse s rq sq i l1 l2 p x : rep s rq sq -> 0 <= i < NHPLINK -> sq i = l1 ++ p :: l2 ->
  procs s !! p = Some x ->
  wp (rouse p) (fun _ s' => rep s' (insert_run p (aged s x) rq) (upd_sq i (l1 ++ l2) sq) /\
    others_same p rq s s' /\
    exists v, procs s' !! p = Some (set_p_state PSRUN (set_p_cval v x))) s.
Proof.
  intros Hr Hi Hl Hx. unfold rouse.
  assert (Hp : p ∈ sq i) by (rewrite Hl; set_solver).
  destruct (rep_sleeper _ _ _ _ _ Hr Hi Hp) as (HpD & _ & _ & _ & _).
  destruct (sleepq_lookup _ _ _ _ (rp_slp _ _ _ Hr i Hi) Hp) as (x0 & Hx0 & _ & _ & Hc).
  assert (x0 = x) by congruence. subst x0. clear Hx0.
  pose proof (sl_ring _ _ _ (rp_slp _ _ _ Hr i Hi)) as Hring. rewrite Hl in Hring.
  pose proof (ring_forw _ _ _ _ _ _ Hring) as Hf. pose proof (ring_back _ _ _ _ _ _ Hring) as Hb.
  assert (Hpb : before (Linkq i) l1 <> p).
  { intros E. pose proof (before_elem (Linkq i) l1) as Ha. rewrite E in Ha.
    apply ring_notin in Hring. set_solver. }
  apply wp_bind, (wp_lback _ _ _ _ Hb), wp_bind, (wp_lforw _ _ _ _ Hf), wp_bind, wp_modify, wp_bind.
  apply (wp_lforw _ (after (Linkq i) l2)); [cbn; by rewrite lookup_insert_ne|].
  apply wp_bind, (wp_lback _ (before (Linkq i) l1)); [exact Hb|].
  apply wp_bind, wp_modify, wp_bind, wp_gets, wp_bind.
  apply (wp_wrp _ _ x); [exact Hx|]. cbn [utimer set_back set_forw].
  fold (aged s x). set (x' := set_p_cval (aged s x) x).
  change (wp (setrun p) (fun _ s' => rep s' (insert_run p (aged s x) rq) (upd_sq i (l1 ++ l2) sq) /\
    others_same p rq s s' /\
    exists v, procs s' !! p = Some (set_p_state PSRUN (set_p_cval v x)))
    (unlinked p (before (Linkq i) l1) (after (Linkq i) l2) x' s)).
  set (s1 := unlinked _ _ _ _ _).
  assert (Hrun1 : runq s1 rq).
  { apply (runq_frame s); [exact (rp_run _ _ _ Hr)|]. intros q Hq.
    apply unlinked_frame; intros ->; [set_solver|..].
    - eapply (sleepq_members _ _ _ i); [exact Hr|done| |exact Hq].
      pose proof (before_elem (Linkq i) l1). rewrite Hl. set_solver.
    - eapply (sleepq_members _ _ _ i); [exact Hr|done| |exact Hq].
      pose proof (after_elem (Linkq i) l2). rewrite Hl. set_solver. }
  eapply wp_mono.
  { apply (wp_setrun s1 rq p x' Hrun1); [by apply lookup_insert_eq|set_solver|set_solver|].
    by apply u16_addu. }
  intros _ s' (Hrun & Hrest & v & Hv). unfold others_same. split_and!.
  - apply (roused_rep s s' rq sq i l1 l2 p x'); [done..|by exists v].
  - intros q Hq HqD. destruct (rest_same_at _ _ _ _ q Hrest) as (_ & _ & E); [set_solver|].
    rewrite E. cbn. by rewrite lookup_insert_ne.
  - intros q Hq. rewrite (rs_procs _ _ _ _ Hrest q Hq). cbn. by rewrite lookup_insert_ne.
  - exact (rs_core _ _ _ _ Hrest).
  - by exists v.
Qed.

(** ** Choosing who runs *)

Definition incore (s : sched) (p : ref) : bool :=
  match procs s !! p with Some x => negb (Z.land (p_flags x) PFCORE =? 0) | None => false end.

(** The state with nobody but the idle process off the queues. *)
Definition parked (s : sched) : sched := set_SELF (iprocp s) s.

Lemma rep_parked s rq sq : rep s rq sq -> rep (parked s) rq sq.
Proof.
  intros [H1 H2 H3 H4 H5 H6 H7]. constructor; [|intros i Hi|done..].
  - by eapply runq_frame.
  - by eapply sleepq_frame; [apply H2|..].
Qed.

Lemma u16_sub_cancel a w : 0 <= w < 65536 -> u16 (a - u16 (a - w)) = w.
Proof.
  intros Hw. unfold u16, wrapu. rewrite Zminus_mod_idemp_r.
  replace (a - (a - w)) with w by lia. by apply Z.mod_small.
Qed.

Lemma u16_add_sub a b c : u16 (u16 (b - c) + u16 (a - b)) = u16 (a - c).
Proof. unfold u16, wrapu. rewrite <- Zplus_mod. f_equal. lia. Qed.

Lemma deltas_remove ps ps' xs ys p c : let n := after Procq ys.*1 in
  deltas ps 0 (xs ++ (p, c) :: ys) -> cvof ps Procq = Some (lastv 0 (xs ++ (p, c) :: ys)) ->
  NoDup (Procq :: (xs ++ (p, c) :: ys).*1) -> 0 <= lastv 0 xs < 65536 ->
  (forall q, q <> p -> q <> n -> cvof ps' q = cvof ps q) ->
  cvof ps' n = Some (u16 (lastv 0 xs - default 0 (snd <$> head ys))) ->
  deltas ps' 0 (xs ++ ys) /\ cvof ps' Procq = Some (lastv 0 (xs ++ ys)).
Proof.
  intros n Hd He Hn Hc Hf Hnn. apply deltas_app in Hd as [Hd1 [_ Hd2]].
  apply NoDup_cons in Hn as [HP Hn]. rewrite fmap_app in HP, Hn. cbn [fmap list_fmap fst] in HP, Hn.
  apply NoDup_app in Hn as (N1 & N12 & N2). apply NoDup_cons in N2 as [Np N2].
  assert (Hxs : deltas ps' 0 xs).
  { eapply deltas_frame; [|done]. intros q Hq. apply Hf.
    - intros ->. apply (N12 _ Hq). by left.
    - intros ->. unfold n in *. destruct (proj1 (elem_of_cons _ _ _) (after_elem Procq ys.*1)) as [E|E].
      + rewrite E in Hq. apply HP, elem_of_app. by left.
      + apply (N12 _ Hq). by right. }
  rewrite deltas_app. destruct ys as [|[q v] ys].
  - unfold n, after in *. simpl in *. rewrite app_nil_r. split_and!; try done.
    by rewrite Hnn, Z.sub_0_r, u16_small by done.
  - unfold n, after in *. simpl in *. apply NoDup_cons in N2 as [Hq N2]. split_and!; try done.
    + eapply deltas_frame; [|apply Hd2]. intros w Hw. apply Hf; intros ->; set_solver.
    + rewrite Hf by set_solver. rewrite He. unfold lastv. rewrite !last_app_cons, !last_cons.
      destruct (last ys); done.
Qed.

Lemma sorted_remove xs ys (a : ref * Z) : StronglySorted higher (xs ++ a :: ys) -> StronglySorted higher (xs ++ ys).
Proof.
  intros HS. apply StronglySorted_app in HS as (H1 & H2 & H3).
  apply StronglySorted_inv in H3 as [H3 _]. apply StronglySorted_app_2; [|done..].
  intros x y Hx Hy. apply H1; [done|by right].
Qed.

Definition run_first (s s' : sched) (rq rq' : list (ref * Z)) (p : ref) : Prop :=
  (Forall (fun a : ref * Z => incore s a.1 = false) rq /\ rq' = rq /\ p = iprocp s /\ s' = s) \/
  (exists xs v ys, rq = xs ++ (p, v) :: ys /\ rq' = xs ++ ys /\ incore s p = true /\
     Forall (fun a : ref * Z => incore s a.1 = false) xs /\ cvof (procs s') p = Some v).

(** The run queue without [p], once the node after [p] stores the difference to
    the claim in front of [p]. *)
Lemma runq_remove s s' xs ys p c y y' : let n := after Procq ys.*1 in
  runq s (xs ++ (p, c) :: ys) ->
  forw s' = <[before Procq xs.*1 := n]> (forw s) -> back s' = <[n := before Procq xs.*1]> (back s) ->
  (forall q, q <> p -> q <> n -> procs s' !! q = procs s !! q) ->
  procs s !! n = Some y -> procs s' !! n = Some y' -> p_state y' = p_state y ->
  p_cval y' = u16 (lastv 0 xs - default 0 (snd <$> head ys)) ->
  runq s' (xs ++ ys).
Proof.
  intros n Hr Hf Hb Hpq Hy Hy' Sy Ey.
  pose proof (rq_ring _ _ Hr) as Hring. rewrite fmap_app in Hring.
  pose proof (ring_notin _ _ _ _ _ _ Hring) as Hpn.
  destruct (deltas_remove (procs s) (procs s') xs ys p c) as [Hd He].
  - exact (rq_deltas _ _ Hr).
  - exact (rq_end _ _ Hr).
  - destruct (rq_ring _ _ Hr) as [_ Hn]. exact Hn.
  - by eapply lastv_range.
  - intros q H1 H2. unfold cvof. by rewrite Hpq.
  - unfold cvof. fold n. rewrite Hy'. simpl. by rewrite Ey.
  - constructor; [|done|done|..].
    + rewrite Hf, Hb, fmap_app. by eapply ring_remove.
    + eapply sorted_remove, (rq_sorted _ _ Hr).
    + pose proof (rq_range _ _ Hr) as HR. rewrite <- Permutation_middle in HR. by inversion HR.
    + pose proof (rq_state _ _ Hr) as HT. rewrite <- Permutation_middle in HT.
      apply Forall_cons in HT as [_ HT]. apply Forall_forall. intros a Ha.
      rewrite Forall_forall in HT. destruct (HT a Ha) as (z & Hz & Sz).
      assert (Hap : a.1 <> p).
      { intros E. pose proof (list_elem_of_fmap_2 fst _ _ Ha) as H1. rewrite fmap_app in H1.
        rewrite E in H1. apply Hpn. by right. }
      destruct (decide (a.1 = n)) as [E|]; [|exists z; by rewrite Hpq].
      rewrite E in *. exists y'. split; [done|congruence].
Qed.

(** The part of [dispatch] that takes the process it found off the queue. *)
Lemma wp_take_off s xs p c ys x : runq s (xs ++ (p, c) :: ys) ->
  Forall (fun a : ref * Z => incore s a.1 = false) xs -> procs s !! p = Some x ->
  p_cval x = u16 (lastv 0 xs - c) -> Z.land (p_flags x) PFCORE <> 0 ->
  wp (pp1 <- lforw p ;;
      wrp pp1 (fun y => set_p_cval (u16 (p_cval y + p_cval x)) y) ;;;
      wrp p (set_p_cval c) ;;;
      b <- lback p ;;
      set_lback pp1 b ;;;
      b <- lback pp1 ;;
      set_lforw b pp1 ;;;
      kret p)
    (fun p' s' => exists rq', run_first s s' (xs ++ (p, c) :: ys) rq' p' /\ runq s' rq' /\
       rest_same p' (Procq :: p' :: (xs ++ (p, c) :: ys).*1) s s' /\
       set_p_cval 0 <$> procs s' !! p' = set_p_cval 0 <$> procs s !! p') s.
Proof.
  intros Hr Hx Hxp Ex Hcore. pose proof (rq_ring _ _ Hr) as Hring. rewrite fmap_app in Hring.
  pose proof (ring_forw _ _ _ _ _ _ Hring) as Hfw. pose proof (ring_back _ _ _ _ _ _ Hring) as Hbk.
  pose proof (ring_notin _ _ _ _ _ _ Hring) as Hpn.
  set (n := after Procq ys.*1) in *. set (b := before Procq xs.*1) in *.
  assert (Hnp : n <> p).
  { intros E. pose proof (after_elem Procq ys.*1) as Ha. fold n in Ha. rewrite E in Ha. set_solver. }
  assert (Hbp : b <> p).
  { intros E. pose proof (before_elem Procq xs.*1) as Ha. fold b in Ha. rewrite E in Ha. set_solver. }
  assert (Hr' : runq s ((xs ++ [(p, c)]) ++ ys)) by (by rewrite <- app_assoc).
  destruct (runq_node _ _ _ Hr') as (y & Hy & Ey). rewrite lastv_snoc in Ey. cbn [snd] in Ey. fold n in Hy.
  apply wp_bind, (wp_lforw _ _ _ _ Hfw), wp_bind, (wp_wrp _ _ _ _ _ Hy), wp_bind.
  apply (wp_wrp _ _ x); [cbn; by rewrite lookup_insert_ne|].
  apply wp_bind, (wp_lback _ b); [exact Hbk|]. apply wp_bind, wp_modify, wp_bind.
  apply (wp_lback _ b); [cbn; by rewrite lookup_insert_eq|]. apply wp_bind, wp_modify, wp_ret.
  cbn [set_procs set_forw set_back procs forw back].
  set (ps' := <[p := _]> _).
  assert (Hpq : forall q, q <> p -> q <> n -> ps' !! q = procs s !! q).
  { intros q H1 H2. unfold ps'. by rewrite !lookup_insert_ne. }
  assert (Hpp' : ps' !! p = Some (set_p_cval c x)) by (unfold ps'; by rewrite lookup_insert_eq).
  assert (Hpn' : ps' !! n = Some (set_p_cval (u16 (p_cval y + p_cval x)) y)).
  { unfold ps'. by rewrite lookup_insert_ne, lookup_insert_eq. }
  assert (Hdom : forall q, q ∉ Procq :: p :: (xs ++ (p, c) :: ys).*1 -> q <> b /\ q <> n /\ q <> p).
  { intros q Hq. pose proof (before_elem Procq xs.*1) as H1. pose proof (after_elem Procq ys.*1) as H2.
    fold b in H1. fold n in H2. rewrite fmap_app in Hq. cbn [fmap list_fmap fst] in Hq.
    split_and!; intros ->; set_solver. }
  exists (xs ++ ys). split; [|split; [|split]].
  - right. exists xs, c, ys. split_and!; [done|done| |done|unfold cvof; cbn; by rewrite Hpp'].
    unfold incore. rewrite Hxp. by rewrite (proj2 (Z.eqb_neq _ _)).
  - eapply (runq_remove s _ xs ys p c y); [exact Hr|done|done|exact Hpq|exact Hy|exact Hpn'|done|].
    simpl. by rewrite Ey, Ex, u16_add_sub.
  - constructor; cbn.
    + intros q Hq. destruct (Hdom q Hq) as (H1 & H2 & H3). by rewrite lookup_insert_ne.
    + intros q Hq. destruct (Hdom q Hq) as (H1 & H2 & H3). by rewrite lookup_insert_ne.
    + intros q Hq. destruct (decide (q = n)) as [->|]; [|by rewrite Hpq]. by rewrite Hpn', Hy.
    + intros q Hq. destruct (Hdom q Hq) as (H1 & H2 & H3). by rewrite Hpq.
    + done.
  - cbn. by rewrite Hpp', Hxp.
Qed.

Lemma wp_dispatch_loop s : forall ys xs fuel,
  runq s (xs ++ ys) -> Forall (fun a : ref * Z => incore s a.1 = false) xs -> (length ys < fuel)%nat ->
  wp (dispatch_loop fuel (before Procq xs.*1) (lastv 0 xs))
    (fun p s' => exists rq', run_first s s' (xs ++ ys) rq' p /\ runq s' rq' /\
       rest_same p (Procq :: p :: (xs ++ ys).*1) s s' /\ set_p_cval 0 <$> procs s' !! p = set_p_cval 0 <$> procs s !! p) s.
Proof.
  induction ys as [|[p c] ys IH]; intros xs fuel Hr Hx Hf;
    (destruct fuel as [|fuel]; [simpl in Hf; lia|]); cbn [dispatch_loop].
  all: pose proof (rq_ring _ _ Hr) as Hring; rewrite fmap_app in Hring;
    pose proof (ring_at _ _ _ _ _ Hring) as [Hfw Hbk]; apply wp_bind, (wp_lforw _ _ _ _ Hfw).
  - unfold after. simpl. apply wp_gets. exists xs. rewrite app_nil_r in *.
    split_and!; [left; by split_and!|done| |done]. constructor; auto.
  - change (after Procq ((p, c) :: ys).*1) with p in *.
    assert (HpP : p <> Procq).
    { intros ->. apply ring_notin in Hring. set_solver. }
    destruct (decide (p = Procq)) as [|_]; [done|].
    destruct (runq_node _ _ _ Hr) as (x & Hxp & Ex).
    change (procs s !! p = Some x) in Hxp. change (p_cval x = u16 (lastv 0 xs - c)) in Ex.
    apply wp_bind, (wp_rdp _ _ _ _ Hxp). cbn zeta.
    assert (Hc : 0 <= c < 65536).
    { pose proof (rq_range _ _ Hr) as [_ HR]%Forall_app. by apply Forall_inv in HR. }
    replace (u16 (lastv 0 xs - p_cval x)) with c by (by rewrite Ex, u16_sub_cancel).
    destruct (Z.eqb_spec (Z.land (p_flags x) PFCORE) 0) as [E0|E0].
    + replace (xs ++ (p, c) :: ys) with ((xs ++ [(p, c)]) ++ ys) in * by (by rewrite <- app_assoc).
      assert (Eb : before Procq (xs ++ [(p, c)]).*1 = p) by (unfold before; by rewrite fmap_app, last_app).
      rewrite <- (lastv_snoc 0 xs (p, c)) at 1. rewrite <- Eb at 1.
      apply IH; [done| |simpl in Hf; lia]. apply Forall_app. split; [done|]. constructor; [|done].
      unfold incore. simpl. rewrite Hxp. by rewrite (proj2 (Z.eqb_eq _ _)).
    + by apply (wp_take_off s xs p c ys x).
Qed.

(** The outcome of [dispatch]: the first process of the queue that is in core
    runs with its own claim back, or the idle process when there is none. *)
Definition chosen (s s' : sched) (rq rq' : list (ref * Z)) : Prop :=
  (Forall (fun a : ref * Z => incore s a.1 = false) rq /\ rq' = rq /\ SELF s' = iprocp s) \/
  (exists xs v ys, rq = xs ++ (SELF s', v) :: ys /\ rq' = xs ++ ys /\ incore s (SELF s') = true /\
     Forall (fun a : ref * Z => incore s a.1 = false) xs /\ cvof (procs s') (SELF s') = Some v).

(** What [dispatch] leaves alone. *)
Definition dispatched (rq : list (ref * Z)) (s s' : sched) : Prop :=
  (forall q, q ∉ Procq :: rq.*1 -> procs s' !! q = procs s !! q) /\
  (forall q, set_p_cval 0 <$> procs s' !! q = set_p_cval 0 <$> procs s !! q) /\
  (nforw s', nback s', iprocp s', cpid s', utimer s') = (nforw s, nback s, iprocp s, cpid s, utimer s) /\
  quantum s' = NCRTICK /\ disflag s' = 0.

Lemma sleepq_parked s i l : sleepq (parked s) i l -> sleepq s i l.
Proof. intros H. by eapply sleepq_frame; [exact H|..]. Qed.

Lemma chosen_sub s s' rq rq' p : run_first s s' rq rq' p -> forall q, q ∈ rq'.*1 -> q ∈ rq.*1.
Proof.
  intros [(_ & -> & _)|(xs & v & ys & -> & -> & _)] q; [done|].
  rewrite !fmap_app. simpl. set_solver.
Qed.

Lemma run_first_awake s s' rq rq' p : runq s rq -> runq s' rq' -> awake s rq (iprocp s) ->
  run_first s s' rq rq' p -> set_p_cval 0 <$> procs s' !! p = set_p_cval 0 <$> procs s !! p ->
  awake s' rq' p.
Proof.
  intros Hr Hr' Hi [(_ & -> & -> & ->)|(xs & v & ys & -> & -> & _ & _ & Hv)] E; [done|].
  pose proof (rq_ring _ _ Hr) as Hring. rewrite fmap_app in Hring. apply ring_notin in Hring.
  pose proof (rq_range _ _ Hr) as [_ HR]%Forall_app. apply Forall_inv in HR. simpl in HR.
  destruct (runq_lookup s (xs ++ (p, v) :: ys) p Hr) as (x & Hx & Sx); [rewrite fmap_app; set_solver|].
  rewrite Hx in E. apply state_same in E as (z & Hz & Ez). unfold cvof in Hv. rewrite Hz in Hv.
  injection Hv as Hv. split; [exists z; split_and!; [done|congruence|lia|lia]|].
  rewrite fmap_app. set_solver.
Qed.

Lemma wp_dispatch s rq sq : rep (parked s) rq sq ->
  wp dispatch (fun _ s' => exists rq', chosen s s' rq rq' /\ rep s' rq' sq /\ dispatched rq s s') s.
Proof.
  intros Hp.
  assert (Hr : runq s rq) by (by eapply (runq_frame (parked s)); [apply Hp|]).
  assert (Hid : awake s rq (iprocp s)) by exact (rp_idle _ _ _ Hp).
  unfold dispatch. apply wp_bind, wp_gets, wp_bind.
  eapply wp_mono; [apply (wp_dispatch_loop s rq [] _ Hr); [constructor|]|].
  { pose proof (runq_size _ _ Hr). lia. }
  intros p s1 (rq' & Hc & Hr1 & Hrest & Hpc). cbn [app] in *. apply wp_modify.
  exists rq'. set (s' := set_SELF _ _).
  assert (Hpin : p = iprocp s \/ p ∈ rq.*1).
  { destruct Hc as [(_ & _ & -> & _)|(xs & v & ys & -> & _)]; [by left|right].
    rewrite fmap_app. set_solver. }
  assert (Hq : forall q, q <> iprocp s -> q ∉ Procq :: rq.*1 -> same_at s s' q).
  { intros q Hq1 Hq2. apply (rest_same_at _ _ _ _ q Hrest).
    apply not_elem_of_cons in Hq2 as [H1 H2]. apply not_elem_of_cons. split; [done|].
    apply not_elem_of_cons. split; [|done]. destruct Hpin; congruence. }
  assert (Hall : forall q, set_p_cval 0 <$> procs s' !! q = set_p_cval 0 <$> procs s !! q).
  { intros q. destruct (decide (q = p)) as [->|Hne]; [done|]. exact (rs_procs _ _ _ _ Hrest q Hne). }
  pose proof (rs_core _ _ _ _ Hrest) as Hcore. injection Hcore as E1 E2 _ E3 E4 E5 _ _.
  assert (Haw : awake s' rq' p) by exact (run_first_awake s s1 rq rq' p Hr Hr1 Hid Hc Hpc).
  assert (Hiq : forall q, q ∉ Procq :: rq.*1 -> procs s' !! q = procs s !! q).
  { intros q HqD. destruct (decide (q = iprocp s)) as [->|]; [|by apply Hq].
    destruct Hc as [(_ & -> & -> & ->)|Hc']; [done|]. apply (rs_cval _ _ _ _ Hrest).
    intros [H|[H|H]%elem_of_cons]%elem_of_cons; [set_solver| |set_solver].
    destruct Hc' as (xs & v & ys & -> & _). apply HqD. rewrite <- H, fmap_app. set_solver. }
  pose proof (awake_not_procq _ _ _ _ Hp Hid) as Hn.
  assert (Hidle : awake s' rq' (iprocp s)).
  { eapply awake_frame; [exact Hid|by apply Hiq|]. intros H. apply Hn. right.
    by eapply chosen_sub. }
  split; [|split].
  - destruct Hc as [(H1 & H2 & H3 & _)|(xs & v & ys & H1 & H2 & H3 & H4 & H5)]; [by left|right].
    by exists xs, v, ys.
  - constructor.
    + by eapply (runq_frame s1).
    + intros i Hi. assert (Hs : forall q, q ∈ Linkq i :: sq i -> same_at s s' q).
      { intros q Hin. pose proof (sleepq_members _ _ _ _ _ Hp Hi Hin) as HqD.
        apply Hq; [|done]. intros ->. apply elem_of_cons in Hin as [H|H].
        - destruct Hid as [(x & Hx & _) _]. pose proof (rp_link _ _ _ Hp i) as Hl. cbn in Hl. congruence.
        - by destruct (rep_sleeper _ _ _ _ _ Hp Hi H) as (_ & _ & H1 & _). }
      eapply sleepq_frame; [exact (sleepq_parked _ _ _ (rp_slp _ _ _ Hp i Hi))|..].
      * intros q Hin. by destruct (Hs q Hin) as (? & ? & _).
      * intros q Hin. destruct (Hs q) as (_ & _ & ?); [by right|done].
    + destruct (rp_procq _ _ _ Hp) as (y & Hy & Sy). pose proof (Hall Procq) as E.
      rewrite (Hy : procs s !! Procq = Some y) in E. apply state_same in E as (z & Hz & Ez).
      exists z. split; [done|congruence].
    + intros i. pose proof (Hall (Linkq i)) as E. rewrite (rp_link _ _ _ Hp i : procs s !! Linkq i = None) in E.
      by destruct (procs s' !! Linkq i).
    + exact Haw.
    + rewrite (E3 : iprocp s' = iprocp s). exact Hidle.
    + intros q z Hz Sz. destruct (cval_same _ _ _ (Hall q) Hz) as (y & Hy & Sy & Ey).
      rewrite <- Ey. apply (rp_slept _ _ _ Hp q y Hy). congruence.
  - split_and!; [exact Hiq|exact Hall| |done|done].
    cbn. by rewrite E1, E2, E3, E4, E5.
Qed.

(** ** Waking up *)

Definition wants (s : sched) (e : Z) (p : ref) : bool :=
  match procs s !! p with Some x => p_event x =? e | None => false end.

(** The run queue after the sleepers of [l] that wait for [e] have been woken in turn. *)
Definition wake_rq (s : sched) (e : Z) (l : list ref) (rq : list (ref * Z)) : list (ref * Z) :=
  fold_left (fun rq p => match procs s !! p with
    | Some x => if p_event x =? e then insert_run p (aged s x) rq else rq
    | None => rq end) l rq.

(** What happens to the processes while sleepers of a bucket are woken: those
    that were awake and off the run queue keep their PROC, and every process
    keeps all but its state and its claim. *)
Definition woken (rq : list (ref * Z)) (s s' : sched) : Prop :=
  (forall q x, q ∉ Procq :: rq.*1 -> procs s !! q = Some x -> p_state x <> PSSLEEP -> procs s' !! q = Some x) /\
  (forall q, set_p_state 0 <$> (set_p_cval 0 <$> procs s' !! q) =
             set_p_state 0 <$> (set_p_cval 0 <$> procs s !! q)) /\
  core s' = core s.

Lemma rep_ext s rq sq sq' : rep s rq sq -> (forall i, 0 <= i < NHPLINK -> sq i = sq' i) -> rep s rq sq'.
Proof.
  intros [H1 H2 H3 H4 H5 H6 H7] Hs. constructor; try done.
  - intros i Hi. rewrite <- Hs by done. by apply H2.
  - intros p x Hx Sx. rewrite <- Hs; [by apply H7|]. apply Z.mod_pos_bound. done.
Qed.

Lemma hash_range e : 0 <= hash e < NHPLINK.
Proof. apply Z.mod_pos_bound. done. Qed.

Lemma wake_rq_frame s s' e l : (forall p, p ∈ l -> procs s' !! p = procs s !! p) -> utimer s' = utimer s ->
  forall rq, wake_rq s' e l rq = wake_rq s e l rq.
Proof.
  intros Hp Hu. assert (Ha : forall x, aged s' x = aged s x) by (intros x; unfold aged; by rewrite Hu).
  unfold wake_rq. induction l as [|p l IH]; intros rq; simpl; [done|].
  rewrite Hp by (by left). destruct (procs s !! p) as [x|]; [rewrite Ha|]; apply IH;
    intros q Hq; apply Hp; by right.
Qed.

Lemma wake_rq_skip s e l rq : Forall (fun p => wants s e p = false) l -> wake_rq s e l rq = rq.
Proof.
  intros HF. unfold wake_rq. revert rq. induction HF as [|p l Hp _ IH]; intros rq; simpl; [done|].
  rewrite IH. unfold wants in Hp. destruct (procs s !! p); [by rewrite Hp|done].
Qed.

Lemma wake_rq_cons s e p l rq : wake_rq s e (p :: l) rq = wake_rq s e l (match procs s !! p with
  | Some x => if p_event x =? e then insert_run p (aged s x) rq else rq
  | None => rq end).
Proof. done. Qed.

Lemma wake_rq_app s e l1 l2 rq : wake_rq s e (l1 ++ l2) rq = wake_rq s e l2 (wake_rq s e l1 rq).
Proof. apply fold_left_app. Qed.

Lemma rep_nil_wake s s1 e l1 l2 : (forall q, q ∈ l1 ++ l2 -> procs s1 !! q = procs s !! q) ->
  Forall (fun p => wants s e p = false) l1 ->
  [] ++ filter (fun p => wants s1 e p = false) (l1 ++ l2) = l1 ++ filter (fun p => wants s e p = false) l2.
Proof.
  intros Hs HF. cbn [app].
  assert (E : forall l : list ref, (forall q, q ∈ l -> procs s1 !! q = procs s !! q) ->
    filter (fun p => wants s1 e p = false) l = filter (fun p => wants s e p = false) l).
  { induction l as [|p l IH]; intros Hq; [done|]. rewrite !filter_cons.
    assert (Ew : wants s1 e p = wants s e p) by (unfold wants; by rewrite (Hq p) by (by left)).
    rewrite Ew, IH by (intros q Hin; apply Hq; by right). done. }
  rewrite E by done. rewrite filter_app. f_equal. by apply list_filter_all.
Qed.

Lemma woken_rouse s s1 s' rq p c : others_same p rq s s1 ->
  (exists x v, procs s !! p = Some x /\ p_state x = PSSLEEP /\ procs s1 !! p = Some (set_p_state PSRUN (set_p_cval v x))) ->
  woken (insert_run p c rq) s1 s' -> woken rq s s'.
Proof.
  intros (O1 & O2 & O3) (x & v & Hx & Sx & Hp) (W1 & W2 & W3). split_and!.
  - intros q y Hq Hy Sy. assert (q <> p) by (intros ->; congruence).
    apply W1; [|by rewrite O1|done]. intros [->|H']%elem_of_cons; [set_solver|].
    apply elem_insert_run in H' as [?|?]; [done|set_solver].
  - intros q. rewrite W2. destruct (decide (q = p)) as [->|]; [by rewrite Hp, Hx|].
    by rewrite O2.
  - congruence.
Qed.

Lemma wp_wakeup_loop e : forall fuel s rq sq l1 l2,
  rep s rq sq -> sq (hash e) = l1 ++ l2 -> Forall (fun p => wants s e p = false) l1 ->
  (S (length (sq (hash e))) * S (length (sq (hash e))) <= fuel + length l1)%nat ->
  wp (wakeup_loop fuel e (Linkq (hash e)) (before (Linkq (hash e)) l1))
    (fun _ s' => rep s' (wake_rq s e l2 rq)
        (upd_sq (hash e) (l1 ++ filter (fun p => wants s e p = false) l2) sq) /\ woken rq s s') s.
Proof.
  pose proof (hash_range e) as Hi. set (i := hash e) in *.
  induction fuel as [|fuel IH]; intros s rq sq l1 l2 Hr Hl H1 Hf.
  { rewrite Hl, length_app in Hf. lia. }
  cbn [wakeup_loop]. pose proof (sl_ring _ _ _ (rp_slp _ _ _ Hr i Hi)) as Hring. rewrite Hl in Hring.
  pose proof (ring_at _ _ _ _ _ Hring) as [Hfw _]. apply wp_bind, (wp_lforw _ _ _ _ Hfw).
  destruct l2 as [|p l2].
  { change (after (Linkq i) []) with (Linkq i). destruct (decide (Linkq i = Linkq i)) as [_|]; [|done].
    apply wp_ret. split; [|split_and!; auto].
    rewrite app_nil_r in Hl. eapply rep_ext; [exact Hr|]. intros j Hj. unfold upd_sq.
    destruct (Z.eqb_spec j i) as [->|]; [|done]. by rewrite Hl, app_nil_r. }
  change (after (Linkq i) (p :: l2)) with p. pose proof (ring_notin _ _ _ _ _ _ Hring) as Hpn.
  destruct (decide (p = Linkq i)) as [->|_]; [set_solver|].
  assert (Hp : p ∈ sq i) by (rewrite Hl; set_solver).
  destruct (sleepq_lookup _ _ _ _ (rp_slp _ _ _ Hr i Hi) Hp) as (x & Hx & Sx & _).
  apply wp_bind, (wp_rdp _ _ _ _ Hx).
  destruct (p_event x =? e) eqn:Ee.
  - apply wp_bind. eapply wp_mono; [exact (wp_rouse s rq sq i l1 l2 p x Hr Hi Hl Hx)|].
    intros _ s1 (Hr1 & Ho & Hpr).
    assert (Hsame : forall q, q ∈ l1 ++ l2 -> procs s1 !! q = procs s !! q).
    { intros q Hq. apply (proj1 Ho); [intros ->; set_solver|].
      apply (sleepq_members _ _ _ _ _ Hr Hi). rewrite Hl. set_solver. }
    pose proof (rep_nil_wake s s1 e l1 l2 Hsame H1) as Hw1.
    eapply wp_mono; [apply (IH s1 _ _ [] (l1 ++ l2) Hr1)|].
    + unfold upd_sq. by rewrite Z.eqb_refl.
    + constructor.
    + unfold upd_sq. rewrite Z.eqb_refl. rewrite Hl, !length_app in Hf. rewrite length_app. simpl in *. nia.
    + intros _ s' (Hr' & Hwk). split; [|eapply woken_rouse; [exact Ho|destruct Hpr as [v Hv]; by exists x, v|exact Hwk]].
      rewrite (wake_rq_frame s s1) in Hr' by (done || (destruct Ho as (_ & _ & Hc); by injection Hc)).
      rewrite wake_rq_app, (wake_rq_skip s e l1) in Hr' by done.
      rewrite wake_rq_cons, Hx, Ee.
      eapply rep_ext; [exact Hr'|]. intros j Hj. unfold upd_sq. destruct (j =? i); [|done].
      rewrite filter_cons_False by (unfold wants; by rewrite Hx, Ee).
      exact Hw1.
  - assert (Hw : wants s e p = false) by (unfold wants; by rewrite Hx).
    pose proof (IH s rq sq (l1 ++ [p]) l2) as IH'. rewrite before_snoc in IH'.
    eapply wp_mono; [apply IH'; [done|by rewrite <- app_assoc|..]|]; clear IH'.
    + apply Forall_app. split; [done|by constructor].
    + rewrite length_app. simpl. lia.
    + intros _ s' (Hr' & Hwk). split; [|done]. rewrite wake_rq_cons, Hx, Ee.
      rewrite <- app_assoc in Hr'. cbn [app] in Hr'.
      by rewrite filter_cons_True by done.
Qed.

Lemma sleepq_size s i l : sleepq s i l -> (length l <= size (procs s))%nat.
Proof.
  intros [[_ Hn] Hst]. apply NoDup_cons in Hn as [_ Hn].
  assert (Hsub : list_to_set l ⊆ dom (procs s)).
  { intros q Hq. apply elem_of_list_to_set in Hq. rewrite Forall_forall in Hst.
    destruct (Hst q Hq) as (x & Hx & _). apply elem_of_dom. by exists x. }
  apply subseteq_size in Hsub. by rewrite size_list_to_set, size_dom in Hsub.
Qed.

Lemma wp_wakeup s rq sq e : rep s rq sq ->
  wp (wakeup e) (fun _ s' =>
    rep s' (wake_rq s e (sq (hash e)) rq)
      (upd_sq (hash e) (filter (fun p => wants s e p = false) (sq (hash e))) sq) /\ woken rq s s') s.
Proof.
  intros Hr. unfold wakeup. apply wp_bind, wp_gets.
  pose proof (sleepq_size _ _ _ (rp_slp _ _ _ Hr (hash e) (hash_range e))) as Hl.
  apply (wp_wakeup_loop e _ s rq sq [] (sq (hash e)) Hr); [done|constructor|]. simpl length. nia.
Qed.

(** ** Changes to one PROC *)

Definition view (x : PROC) := (p_state x, p_event x, p_cval x).

Lemma view_lookup o o' z : view <$> o' = view <$> o -> o' = Some z -> exists y, o = Some y /\ view y = view z.
Proof. intros E ->. destruct o as [y|]; [|done]. exists y. split; [done|]. simpl in E. congruence. Qed.

(** Only the state, the event and the claim of a process matter to the queues. *)
Lemma rep_view s rq sq ps : rep s rq sq ->
  (forall q, view <$> ps !! q = view <$> procs s !! q) -> rep (set_procs ps s) rq sq.
Proof.
  intros Hr Hv.
  assert (Hl : forall q x, procs s !! q = Some x -> exists y, ps !! q = Some y /\ view y = view x).
  { intros q x Hx. eapply view_lookup; [symmetry; apply Hv|done]. }
  assert (Hcv : forall q, cvof ps q = cvof (procs s) q).
  { intros q. specialize (Hv q). unfold cvof. destruct (ps !! q), (procs s !! q); simpl in *; try done.
    unfold view in Hv. congruence. }
  assert (Haw : forall q, awake s rq q -> awake (set_procs ps s) rq q).
  { intros q [(x & Hx & Hs) Hn]. destruct (Hl q x Hx) as (y & Hy & Ey). split; [|done].
    exists y. injection Ey as -> _ ->. done. }
  pose proof (rp_run _ _ _ Hr) as [R1 R2 R3 R4 R5 R6]. constructor.
  - constructor; try done; cbn.
    + eapply deltas_frame; [|exact R2]. intros q _. apply Hcv.
    + by rewrite Hcv.
    + eapply Forall_impl; [exact R6|]. intros a (x & Hx & Sx). destruct (Hl _ _ Hx) as (y & Hy & Ey).
      exists y. injection Ey as -> _ _. done.
  - intros i Hi. destruct (rp_slp _ _ _ Hr i Hi) as [S1 S2]. constructor; [done|].
    eapply Forall_impl; [exact S2|]. intros q (x & Hx & Sx). destruct (Hl _ _ Hx) as (y & Hy & Ey).
    exists y. injection Ey as -> -> ->. done.
  - destruct (rp_procq _ _ _ Hr) as (x & Hx & Sx). destruct (Hl _ _ Hx) as (y & Hy & Ey).
    exists y. injection Ey as -> _ _. done.
  - intros i. pose proof (Hv (Linkq i)) as E. rewrite (rp_link _ _ _ Hr i) in E. cbn.
    by destruct (ps !! Linkq i).
  - apply Haw, (rp_self _ _ _ Hr).
  - apply Haw, (rp_idle _ _ _ Hr).
  - intros q y Hy Sy. destruct (view_lookup _ _ _ (Hv q) Hy) as (x & Hx & Ex).
    injection Ex as E1 E2 _. rewrite <- E2. apply (rp_slept _ _ _ Hr q x Hx). congruence.
Qed.

Lemma rep_insert_view s rq sq p x x' : rep s rq sq -> procs s !! p = Some x -> view x' = view x ->
  rep (set_procs (<[p := x']> (procs s)) s) rq sq.
Proof.
  intros Hr Hx Hv. apply rep_view; [done|]. intros q.
  destruct (decide (q = p)) as [->|]; [rewrite lookup_insert_eq, Hx; cbn; by rewrite Hv|].
  by rewrite lookup_insert_ne.
Qed.

Lemma awake_asleep s rq sq i p : rep s rq sq -> awake s rq p -> 0 <= i < NHPLINK -> p ∉ Linkq i :: sq i.
Proof.
  intros Hr [(x & Hx & Sx & _) _] Hi [->|Hin]%elem_of_cons.
  - pose proof (rp_link _ _ _ Hr i). congruence.
  - destruct (sleepq_lookup _ _ _ _ (rp_slp _ _ _ Hr i Hi) Hin) as (z & Hz & Sz & _).
    unfold PSRUN, PSSLEEP in *. congruence.
Qed.

(** The claim of a process that is awake is its own. *)
Lemma rep_insert_awake s rq sq p x' : rep s rq sq -> awake s rq p ->
  p_state x' = PSRUN -> 0 <= p_cval x' < 65536 ->
  rep (set_procs (<[p := x']> (procs s)) s) rq sq.
Proof.
  intros Hr Hp Hs Hc. pose proof (awake_not_procq _ _ _ _ Hr Hp) as HpD.
  assert (Hsame : forall q, q <> p -> same_at s (set_procs (<[p := x']> (procs s)) s) q).
  { intros q Hq. split_and!; [done|done|]. cbn. by rewrite lookup_insert_ne. }
  assert (Haw : forall q, awake s rq q -> awake (set_procs (<[p := x']> (procs s)) s) rq q).
  { intros q Hq. destruct (decide (q = p)) as [->|Hne].
    - split; [|apply Hp]. exists x'. cbn. by rewrite lookup_insert_eq.
    - eapply awake_frame; [exact Hq|by apply Hsame|apply Hq]. }
  constructor.
  - eapply runq_frame; [apply Hr|]. intros q Hq. apply Hsame. intros ->. done.
  - intros i Hi. pose proof (awake_asleep _ _ _ _ _ Hr Hp Hi) as Hpi.
    eapply sleepq_frame; [exact (rp_slp _ _ _ Hr i Hi)|done|]. intros q Hq. apply Hsame.
    intros ->. apply Hpi. by right.
  - destruct (rp_procq _ _ _ Hr) as (y & Hy & Sy). exists y. split; [|done]. cbn.
    rewrite lookup_insert_ne; [done|]. intros ->. apply HpD. by left.
  - intros i. cbn. rewrite lookup_insert_ne; [apply Hr|]. intros ->.
    destruct Hp as [(y & Hy & _) _]. pose proof (rp_link _ _ _ Hr i). congruence.
  - apply Haw, (rp_self _ _ _ Hr).
  - apply Haw, (rp_idle _ _ _ Hr).
  - intros q y. cbn. destruct (decide (q = p)) as [->|].
    + rewrite lookup_insert_eq. intros [= <-]. unfold PSRUN, PSSLEEP in *. lia.
    + rewrite lookup_insert_ne by done. apply (rp_slept _ _ _ Hr).
Qed.
