(* ===== verification/Procsched.v ===== *)
(** Signals, [sleep], the clock and [redispatch], and every history of them. *)
From stdpp Require Import sorting.
From S2P Require Import Prelude Sched Dlist Proc Runq Sleepq.
Local Open Scope Z_scope.
Local Open Scope kernel_scope.

(** ** Signals *)

(** The signals of a process that are set and not ignored. *)
Definition pending (x : PROC) : Z := Z.land (p_ssig x) (Z.lnot (p_isig x)).

(** The least [n] from 1 on whose bit [n-1] is set. *)
Lemma nondsig_loop_spec v : 0 < v < 65536 -> forall fuel k, (k + fuel = 16)%nat ->
  (forall j, (j < k)%nat -> Z.testbit v (Z.of_nat j) = false) ->
  exists n, nondsig_loop fuel v (2 ^ Z.of_nat k) (Z.of_nat k + 1) = Z.of_nat n + 1 /\
    Z.testbit v (Z.of_nat n) = true /\ (forall j, (j < n)%nat -> Z.testbit v (Z.of_nat j) = false).
Proof.
  intros Hv. induction fuel as [|fuel IH]; intros k Hk Hlow.
  - exfalso. assert (Hz : v = 0); [|lia]. apply Z.bits_inj'. intros j Hj. rewrite Z.bits_0.
    destruct (Z_of_nat_complete j Hj) as [i ->].
    destruct (decide (i < k)%nat) as [Hi|Hi]; [by apply Hlow|].
    apply Z.testbit_false; [lia|]. rewrite Z.div_small; [done|].
    split; [lia|]. apply Z.lt_le_trans with (2 ^ 16); [lia|]. apply Z.pow_le_mono_r; lia.
  - cbn [nondsig_loop].
    assert (Hbit : (Z.land v (2 ^ Z.of_nat k) =? 0) = negb (Z.testbit v (Z.of_nat k))).
    { rewrite <- (Z.mul_1_l (2 ^ _)), <- Z.shiftl_mul_pow2 by lia.
      destruct (Z.testbit v (Z.of_nat k)) eqn:E.
      - apply Z.eqb_neq. intros H0. apply (f_equal (fun z => Z.testbit z (Z.of_nat k))) in H0.
        rewrite Z.land_spec, Z.shiftl_spec, Z.sub_diag, E in H0 by lia. by rewrite Z.bits_0 in H0.
      - apply Z.eqb_eq, Z.bits_inj'. intros j Hj. rewrite Z.land_spec, Z.shiftl_spec, Z.bits_0 by done.
        destruct (decide (j = Z.of_nat k)) as [->|]; [by rewrite E|].
        destruct (decide (j < Z.of_nat k)); [rewrite (Z.testbit_neg_r 1) by lia; by rewrite andb_false_r|].
        rewrite (Z.bits_above_log2 1); [by rewrite andb_false_r|lia|]. change (Z.log2 1) with 0. lia. }
    rewrite Hbit. destruct (Z.testbit v (Z.of_nat k)) eqn:E; simpl negb; cbn match.
    + exists k. split_and!; [done|done|exact Hlow].
    + destruct fuel as [|fuel].
      { exfalso. destruct (IH (S k)) as (n & En & Ht & _); [lia| |].
        - intros j Hj. destruct (decide (j = k)) as [->|]; [done|]. apply Hlow. lia.
        - simpl in En. assert (n = S k) by lia. subst n.
          rewrite Z.bits_above_log2 in Ht; [done|lia|].
          apply Z.lt_le_trans with 16; [|lia]. apply Z.log2_lt_pow2; lia. }
      replace (u16 (Z.shiftl (2 ^ Z.of_nat k) 1)) with (2 ^ Z.of_nat (S k)).
      2:{ rewrite Z.shiftl_mul_pow2, <- Z.pow_add_r by lia. rewrite u16_small.
          - f_equal. lia.
          - split; [apply Z.pow_nonneg; lia|]. change 65536 with (2 ^ 16). apply Z.pow_lt_mono_r; lia. }
      replace (Z.of_nat k + 1 + 1) with (Z.of_nat (S k) + 1) by lia.
      apply IH; [lia|]. intros j Hj. destruct (decide (j = k)) as [->|]; [done|]. apply Hlow. lia.
Qed.

Definition first_signal (v : Z) : Z := if v =? 0 then 0 else nondsig_loop 16 v 1 1.

Lemma nondsig_loop_ge fuel : forall v m n, n <= nondsig_loop fuel v m n.
Proof.
  induction fuel as [|fuel IH]; intros v m n; simpl; [lia|].
  destruct (Z.land v m =? 0); [|lia]. specialize (IH v (u16 (Z.shiftl m 1)) (n + 1)). lia.
Qed.

Lemma first_signal_zero v : (first_signal v =? 0) = (v =? 0).
Proof.
  unfold first_signal. destruct (v =? 0); [done|]. pose proof (nondsig_loop_ge 16 v 1 1). lia.
Qed.

Lemma wp_nondsig s x (Q : Z -> sched -> Prop) : procs s !! SELF s = Some x ->
  Q (first_signal (pending x)) (set_procs (<[SELF s := set_p_ssig (pending x) x]> (procs s)) s) ->
  wp nondsig Q s.
Proof.
  intros Hx HQ. unfold nondsig. apply wp_bind, wp_gets, wp_bind, (wp_wrp _ _ _ _ _ Hx), wp_bind.
  apply (wp_rdp _ (set_p_ssig (pending x) x)); [cbn; by rewrite lookup_insert_eq|]. by apply wp_ret.
Qed.

Lemma set_procs_id s p x : procs s !! p = Some x -> set_procs (<[p := x]> (procs s)) s = s.
Proof. intros Hx. destruct s. unfold set_procs. cbn in *. by rewrite insert_id. Qed.

Lemma wp_interrupted cl s x : procs s !! SELF s = Some x ->
  wp (interrupted cl) (fun b s' => b = (cl <? CVNOSIG) && negb (pending x =? 0) /\
    exists x', s' = set_procs (<[SELF s := x']> (procs s)) s /\ (x' = x \/ x' = set_p_ssig (pending x) x)) s.
Proof.
  intros Hx. unfold interrupted. apply wp_bind, wp_gets, wp_bind, (wp_rdp _ _ _ _ Hx).
  destruct (cl <? CVNOSIG); simpl.
  - destruct (Z.eqb_spec (p_ssig x) 0) as [E|E]; simpl.
    + apply wp_ret. unfold pending at 1. rewrite E. split; [done|].
      exists x. by rewrite set_procs_id by done; auto.
    + apply wp_bind, (wp_nondsig _ _ _ Hx), wp_ret. rewrite first_signal_zero. split; [done|]. eauto.
  - apply wp_ret. split; [done|]. exists x. rewrite set_procs_id by done. auto.
Qed.

(** ** Going to sleep *)

(** [x] asleep on [e]. *)
Definition slept (s : sched) (e cl sl sr : Z) (x : PROC) : PROC :=
  set_p_rval sr (set_p_ival sl (set_p_cval (addu (p_cval x) cl) (set_p_lctim (utimer s)
    (set_p_event e (set_p_state PSSLEEP x))))).

(** [p] put at the end of sleep queue [i]. *)
Definition enqueued (p : ref) (i : Z) (l : list ref) (x' : PROC) (s : sched) : sched :=
  set_procs (<[p := x']> (procs s))
    (set_back (<[Linkq i := p]> (<[p := before (Linkq i) l]> (back s)))
      (set_forw (<[before (Linkq i) l := p]> (<[p := Linkq i]> (forw s))) s)).

Lemma enqueued_parked s rq sq p i x' : rep s rq sq -> awake s rq p -> p = SELF s -> p <> iprocp s ->
  0 <= i < NHPLINK -> p_state x' = PSSLEEP -> hash (p_event x') = i -> 0 <= p_cval x' < 65536 ->
  rep (parked (enqueued p i (sq i) x' s)) rq (upd_sq i (sq i ++ [p]) sq).
Proof.
  intros Hr Hp Hself Hid Hi Sx Ex Cx.
  pose proof (awake_not_procq _ _ _ _ Hr Hp) as HpD. pose proof (awake_asleep _ _ _ _ _ Hr Hp Hi) as Hpi.
  pose proof (before_elem (Linkq i) (sq i)) as Hb. set (b := before (Linkq i) (sq i)) in *.
  set (s' := parked _).
  assert (Hsame : forall q, q <> p -> q ∉ Linkq i :: sq i -> same_at s s' q).
  { intros q H1 H2. assert (q <> b) by (intros ->; done). assert (q <> Linkq i) by (intros ->; set_solver).
    split_and!; cbn; by rewrite !lookup_insert_ne. }
  assert (Hpr : forall q, q <> p -> procs s' !! q = procs s !! q).
  { intros q H1. cbn. by rewrite lookup_insert_ne. }
  constructor.
  - eapply runq_frame; [apply Hr|]. intros q Hq. apply Hsame; [intros ->; done|].
    intros Hin. by apply (sleepq_members _ _ _ _ _ Hr Hi Hin).
  - intros j Hj. unfold upd_sq. destruct (Z.eqb_spec j i) as [->|Hne].
    + destruct (rp_slp _ _ _ Hr i Hi) as [S1 S2]. constructor.
      * pose proof (ring_insert (forw s) (back s) (Linkq i) (sq i) [] p) as HI.
        rewrite app_nil_r in HI. apply HI; [done|set_solver|set_solver].
      * apply Forall_app. split.
        -- apply Forall_forall. intros q Hq. rewrite Forall_forall in S2.
           rewrite Hpr by (intros ->; set_solver). by apply S2.
        -- constructor; [|done]. exists x'. cbn. by rewrite lookup_insert_eq.
    + assert (Hd : forall q, q ∈ Linkq j :: sq j -> same_at s s' q).
      { intros q Hq. apply Hsame; [intros ->; by apply (awake_asleep _ _ _ _ _ Hr Hp Hj)|].
        by eapply sleepq_disjoint. }
      eapply sleepq_frame; [exact (rp_slp _ _ _ Hr j Hj)|..].
      * intros q Hq. by destruct (Hd q Hq) as (? & ? & _).
      * intros q Hq. destruct (Hd q) as (_ & _ & ?); [by right|done].
  - rewrite Hpr; [apply Hr|]. intros <-. set_solver.
  - intros j. rewrite Hpr; [apply Hr|]. intros H.
    destruct Hp as [(y & Hy & _) _]. rewrite <- H, (rp_link _ _ _ Hr j) in Hy. done.
  - eapply awake_frame; [exact (rp_idle _ _ _ Hr)|by apply Hpr|apply (rp_idle _ _ _ Hr)].
  - eapply awake_frame; [exact (rp_idle _ _ _ Hr)|by apply Hpr|apply (rp_idle _ _ _ Hr)].
  - intros q y Hy Sy. unfold upd_sq. destruct (decide (q = p)) as [->|Hne].
    + cbn in Hy. rewrite lookup_insert_eq in Hy. injection Hy as <-. rewrite Ex, Z.eqb_refl. set_solver.
    + rewrite Hpr in Hy by done. pose proof (rp_slept _ _ _ Hr q y Hy Sy) as Hin.
      destruct (Z.eqb_spec (hash (p_event y)) i) as [E|]; [|done]. rewrite E in Hin. set_solver.
Qed.

Lemma wp_wrp_fuse {T} p f g (k : M sched T) Q s x : procs s !! p = Some x ->
  wp (wrp p (fun y => g (f y)) ;;; k) Q s -> wp (wrp p f ;;; wrp p g ;;; k) Q s.
Proof.
  intros Hx Hw. apply wp_bind, (wp_wrp _ _ _ _ _ Hx), wp_bind.
  apply (wp_wrp _ _ (f x)); [cbn; by rewrite lookup_insert_eq|].
  apply wp_unbind, wp_returns in Hw as (u & s1 & E & HQ).
  unfold wrp, rdp, kbind in E. simpl in E. rewrite Hx in E. simpl in E. injection E as <- <-.
  cbn. by rewrite insert_insert_eq.
Qed.

Lemma chosen_incore s s1 s' rq rq' : (forall q, p_flags <$> procs s1 !! q = p_flags <$> procs s !! q) ->
  iprocp s1 = iprocp s -> chosen s1 s' rq rq' -> chosen s s' rq rq'.
Proof.
  intros Hf Hi.
  assert (E : forall q, incore s1 q = incore s q).
  { intros q. unfold incore. specialize (Hf q). destruct (procs s1 !! q), (procs s !! q); simpl in Hf; try done.
    by injection Hf as ->. }
  assert (EF : forall l, Forall (fun a : ref * Z => incore s1 a.1 = false) l ->
    Forall (fun a : ref * Z => incore s a.1 = false) l).
  { intros l HF. eapply Forall_impl; [exact HF|]. intros a Ha. cbn in *. by rewrite <- E. }
  intros [(H1 & H2 & H3)|(xs & v & ys & H1 & H2 & H3 & H4 & H5)]; [left|right].
  - split_and!; [by apply EF|done|congruence].
  - exists xs, v, ys. split_and!; [done|done|by rewrite <- E|by apply EF|done].
Qed.

(** The running process asleep on [e], and another one running. *)
Definition gone_to_sleep (s s' : sched) (rq : list (ref * Z)) (sq : Z -> list ref) (x : PROC) (e cl : Z) : Prop :=
  exists rq', chosen s s' rq rq' /\ rep s' rq' (upd_sq (hash e) (sq (hash e) ++ [SELF s]) sq) /\
    (exists y, procs s' !! SELF s = Some y /\ p_state y = PSSLEEP /\ p_event y = e /\
       p_cval y = addu (p_cval x) cl /\ p_lctim y = utimer s) /\
    (forall q, q <> SELF s -> set_p_cval 0 <$> procs s' !! q = set_p_cval 0 <$> procs s !! q).

Lemma wp_sleep_enter s rq sq x e cl sl sr : rep s rq sq -> SELF s <> iprocp s -> procs s !! SELF s = Some x ->
  wp (sleep_enter e cl sl sr) (fun b s' =>
    b = negb ((cl <? CVNOSIG) && negb (pending x =? 0)) /\
    if b then gone_to_sleep s s' rq sq x e cl
    else rep s' rq sq /\ exists x', (x' = x \/ x' = set_p_ssig (pending x) x) /\
      s' = set_procs (<[SELF s := x']> (procs s)) s) s.
Proof.
  intros Hr Hid Hx. unfold sleep_enter. apply wp_bind, wp_gets, wp_bind.
  eapply wp_mono; [apply (wp_interrupted cl s x Hx)|].
  intros b s1 (-> & x' & Hs1 & Hx').
  assert (Hv : view x' = view x) by (by destruct Hx' as [-> | ->]).
  assert (Hfl : p_flags x' = p_flags x) by (by destruct Hx' as [-> | ->]).
  assert (Hr1 : rep s1 rq sq) by (rewrite Hs1; by eapply rep_insert_view).
  destruct ((cl <? CVNOSIG) && negb (pending x =? 0)).
  { apply wp_ret. split; [done|]. split; [done|]. by exists x'. }
  assert (Hx1 : procs s1 !! SELF s = Some x') by (rewrite Hs1; cbn; by rewrite lookup_insert_eq).
  assert (Hself : SELF s1 = SELF s) by (by rewrite Hs1).
  assert (Hut : utimer s1 = utimer s) by (by rewrite Hs1).
  set (i := hash e). pose proof (hash_range e : 0 <= i < NHPLINK) as Hi.
  pose proof (sl_ring _ _ _ (rp_slp _ _ _ Hr1 i Hi)) as Hring. rewrite <- (app_nil_r (sq i)) in Hring.
  apply ring_at in Hring as [_ Hbk].
  apply wp_bind, wp_gets. do 5 apply (wp_wrp_fuse _ _ _ _ _ _ x' Hx1).
  apply wp_bind, (wp_wrp _ _ _ _ _ Hx1), wp_bind. fold i.
  apply (wp_lback _ (before (Linkq i) (sq i))); [exact Hbk|].
  apply wp_bind, wp_modify, wp_bind, wp_modify, wp_bind, wp_modify, wp_bind, wp_modify, wp_bind.
  set (y := set_p_rval sr _).
  assert (Haw : awake s1 rq (SELF s)) by (rewrite <- Hself; apply Hr1).
  assert (Hbs : before (Linkq i) (sq i) <> SELF s).
  { intros E. apply (awake_asleep _ _ _ _ _ Hr1 Haw Hi). rewrite <- E. apply before_elem. }
  match goal with |- wp dispatch _ ?st => replace st with (enqueued (SELF s) i (sq i) y s1) end.
  2:{ unfold enqueued, set_procs, set_back, set_forw. cbn. f_equal. apply insert_insert_ne. intros E.
      apply (awake_asleep _ _ _ _ _ Hr1 Haw Hi). rewrite <- E. by left. }
  assert (Hp : rep (parked (enqueued (SELF s) i (sq i) y s1)) rq (upd_sq i (sq i ++ [SELF s]) sq)).
  { apply enqueued_parked; [done|exact Haw|congruence|subst s1; exact Hid|done|done|done|].
    cbn. apply u16_addu. destruct Haw as [(z & Hz & _ & Hc) _]. congruence. }
  eapply wp_mono; [exact (wp_dispatch _ _ _ Hp)|].
  intros _ s' (rq' & Hch & Hrep & Hd1 & Hd2 & _). apply wp_ret. split; [done|].
  assert (HsD : SELF s ∉ Procq :: rq.*1) by by exact (awake_not_procq _ _ _ _ Hr1 Haw).
  assert (Hother : forall q, q <> SELF s -> procs (enqueued (SELF s) i (sq i) y s1) !! q = procs s !! q).
  { intros q Hq. cbn. rewrite lookup_insert_ne by done. rewrite Hs1. cbn. by rewrite lookup_insert_ne. }
  exists rq'. split_and!.
  - eapply chosen_incore; [| |exact Hch].
    + intros q. destruct (decide (q = SELF s)) as [->|Hq]; [|by rewrite Hother].
      cbn. rewrite lookup_insert_eq, Hx. cbn. by rewrite Hfl.
    + cbn. by rewrite Hs1.
  - exact Hrep.
  - exists y. rewrite Hd1 by done. cbn. rewrite lookup_insert_eq. split_and!; [done|done|done| |done].
    injection Hv as _ _ Hv. by rewrite Hv.
  - intros q Hq. rewrite Hd2. by rewrite Hother.
Qed.


(** ** The clock, and the end of a time slice *)

(** A change of the claims of the run queue alone. *)
Lemma rep_claims s s' rq rq' sq : rep s rq sq -> runq s' rq' -> rq'.*1 = rq.*1 ->
  forw s' = forw s -> back s' = back s -> SELF s' = SELF s -> iprocp s' = iprocp s ->
  (forall q, q ∉ Procq :: rq.*1 -> procs s' !! q = procs s !! q) ->
  (forall q, set_p_cval 0 <$> procs s' !! q = set_p_cval 0 <$> procs s !! q) -> rep s' rq' sq.
Proof.
  intros Hr Hrun Hrq Hf Hb Hs Hi Hq Hall.
  assert (Haw : forall q, awake s rq q -> awake s' rq' q).
  { intros q Hp. eapply awake_frame; [exact Hp| |rewrite Hrq; apply Hp].
    apply Hq. by eapply awake_not_procq. }
  constructor.
  - done.
  - intros i Hii. eapply sleepq_frame; [exact (rp_slp _ _ _ Hr i Hii)|by rewrite Hf, Hb|].
    intros q Hin. apply Hq. apply (sleepq_members _ _ _ _ _ Hr Hii). by right.
  - destruct (rp_procq _ _ _ Hr) as (y & Hy & Sy). pose proof (Hall Procq) as E.
    rewrite Hy in E. apply state_same in E as (z & Hz & Ez). exists z. split; [done|congruence].
  - intros i. pose proof (Hall (Linkq i)) as E. rewrite (rp_link _ _ _ Hr i) in E.
    by destruct (procs s' !! Linkq i).
  - rewrite Hs. apply Haw, Hr.
  - rewrite Hi. apply Haw, Hr.
  - intros q z Hz Sz. destruct (cval_same _ _ _ (Hall q) Hz) as (y & Hy & Sy & Ey).
    rewrite <- Ey. apply (rp_slept _ _ _ Hr q y Hy). congruence.
Qed.

(** What a tick does to the claims: everybody's grows by one, unless the
    highest is at the end of its range or nothing. *)
Definition ticked (rq : list (ref * Z)) : list (ref * Z) :=
  match rq with
  | (_, v) :: _ => if (0 <? v) && (v <? 65535) then map (fun a => (a.1, a.2 + 1)) rq else rq
  | [] => []
  end.

Lemma ticked_fst rq : (ticked rq).*1 = rq.*1.
Proof.
  unfold ticked. destruct rq as [|[p v] rq]; [done|]. destruct (_ && _); [|done].
  change (list_fmap _ _ ?f ?l) with (map f l). rewrite map_map. done.
Qed.

Lemma u16_neg v : 0 <= v < 65536 -> u16 (0 - v) = if v =? 0 then 0 else 65536 - v.
Proof.
  intros Hv. destruct (Z.eqb_spec v 0) as [->|]; [done|].
  unfold u16, wrapu. rewrite <- (Z.mod_add (0 - v) 1) by lia. rewrite Z.mod_small; lia.
Qed.

Lemma deltas_tick ps ps' p v rq :
  deltas ps 0 ((p, v) :: rq) -> NoDup (p :: rq.*1) -> 
  cvof ps' p = Some (u16 (0 - (v + 1))) -> (forall q, q ∈ rq.*1 -> cvof ps' q = cvof ps q) ->
  deltas ps' 0 (map (fun a => (a.1, a.2 + 1)) ((p, v) :: rq)).
Proof.
  intros [_ Hd] Hn Hp Hq. simpl. split; [done|]. apply NoDup_cons in Hn as [_ _].
  clear Hp. revert v Hd Hq. induction rq as [|[q u] rq IH]; intros v Hd Hq; simpl in *; [done|].
  destruct Hd as [E Hd]. split.
  - rewrite Hq, E by (by left). f_equal. f_equal. lia.
  - apply IH; [done|]. intros w Hw. apply Hq. by right.
Qed.

Lemma lastv_map rq a d : lastv d (map (fun a => (a.1, a.2 + 1)) (a :: rq)) = lastv d (a :: rq) + 1.
Proof.
  unfold lastv. revert a. induction rq as [|b rq IH]; intros a; [done|].
  change (map _ (a :: b :: rq)) with ((a.1, a.2 + 1) :: map (fun a : ref * Z => (a.1, a.2 + 1)) (b :: rq)).
  specialize (IH b). cbn [map] in IH |- *. rewrite !(last_cons_cons (a.1, a.2 + 1)), !(last_cons_cons a). exact IH.
Qed.

(** The first of the run queue has the highest claim. *)
Lemma head_highest s p v rq a : runq s ((p, v) :: rq) -> a ∈ (p, v) :: rq -> 0 <= a.2 <= v.
Proof.
  intros Hr Ha. pose proof (rq_range _ _ Hr) as HR. rewrite Forall_forall in HR. pose proof (HR a Ha).
  pose proof (rq_sorted _ _ Hr) as [_ HS]%StronglySorted_inv. rewrite Forall_forall in HS.
  apply elem_of_cons in Ha as [->|Ha]; [simpl in *; lia|]. specialize (HS a Ha). unfold higher in HS. simpl in HS. lia.
Qed.

Lemma head_stored s p v rq x : runq s ((p, v) :: rq) -> procs s !! p = Some x ->
  p_cval x = (if v =? 0 then 0 else 65536 - v) /\ 0 <= v < 65536.
Proof.
  intros Hr Hx. pose proof (Forall_inv (rq_range _ _ Hr)) as Hv. simpl in Hv.
  destruct (rq_deltas _ _ Hr) as [E _]. unfold cvof in E. rewrite Hx in E. injection E as E.
  by rewrite E, u16_neg.
Qed.

Lemma runq_tick s s' p v rq x z : runq s ((p, v) :: rq) -> 0 < v < 65535 ->
  forw s' = forw s -> back s' = back s ->
  procs s !! p = Some x -> procs s !! Procq = Some z ->
  procs s' !! p = Some (set_p_cval (u16 (p_cval x - 1)) x) ->
  procs s' !! Procq = Some (set_p_cval (u16 (p_cval z + 1)) z) ->
  (forall q, q <> p -> q <> Procq -> procs s' !! q = procs s !! q) ->
  runq s' (map (fun a => (a.1, a.2 + 1)) ((p, v) :: rq)).
Proof.
  intros Hr Hv Hf Hb Hx Hz Hpp HPP Hps. destruct (head_stored _ _ _ _ _ Hr Hx) as [Ex _].
  pose proof (rq_ring _ _ Hr) as [_ Hn]. apply NoDup_cons in Hn as [HP Hn].
  pose proof (rq_end _ _ Hr) as He. unfold cvof in He. rewrite Hz in He. injection He as He.
  assert (Hl : 0 <= lastv 0 ((p, v) :: rq) < 65535).
  { destruct (lastv_elem 0 ((p, v) :: rq)) as (a & Ha & ->); [done|].
    pose proof (head_highest _ _ _ _ _ Hr Ha). lia. }
  constructor.
  - rewrite Hf, Hb. change (list_fmap _ _ fst ?l) with (map fst l). rewrite map_map. apply Hr.
  - apply deltas_tick with (procs s); [apply Hr|done| |].
    + unfold cvof. rewrite Hpp. simpl. f_equal. rewrite Ex, u16_neg by lia.
      destruct (Z.eqb_spec v 0); [lia|]. destruct (Z.eqb_spec (v + 1) 0); [lia|].
      rewrite u16_small by lia. lia.
    + intros q Hq. apply NoDup_cons in Hn as [Hpn _]. unfold cvof. rewrite Hps; [done| |]; intros ->; [done|].
      apply HP. by right.
  - rewrite lastv_map. unfold cvof. rewrite HPP. simpl. rewrite He, u16_small by lia. done.
  - assert (HS := rq_sorted _ _ Hr). clear -HS. induction HS as [|a l HS IH Ha]; constructor; [done|].
    apply Forall_map. eapply Forall_impl; [exact Ha|]. intros b. unfold higher. simpl. lia.
  - apply Forall_map, Forall_forall. intros a Ha. simpl. pose proof (head_highest _ _ _ _ _ Hr Ha). lia.
  - apply Forall_map. eapply Forall_impl; [exact (rq_state _ _ Hr)|]. intros a (y & Hy & Sy). simpl.
    destruct (decide (a.1 = p)) as [E|Hp]; [rewrite E in *; eexists; split; [exact Hpp|simpl; congruence]|].
    destruct (decide (a.1 = Procq)) as [E|HP']; [rewrite E in *; eexists; split; [exact HPP|simpl; congruence]|].
    exists y. by rewrite Hps.
Qed.

(** The store after a tick: one less at the head, one more in [procq]. *)
Lemma rep_tick s s' rq sq f x z : rep s rq sq -> f = after Procq rq.*1 ->
  procs s !! f = Some x -> procs s !! Procq = Some z -> CVCLOCK < p_cval x ->
  procs s' = <[Procq := set_p_cval (u16 (p_cval z + CVCLOCK)) z]>
    (<[f := set_p_cval (u16 (p_cval x - CVCLOCK)) x]> (procs s)) ->
  forw s' = forw s -> back s' = back s -> SELF s' = SELF s -> iprocp s' = iprocp s ->
  rep s' (ticked rq) sq.
Proof.
  intros Hr -> Hx Hz Hlt Hp Hf Hb Hs Hi. unfold CVCLOCK in *.
  pose proof (rp_run _ _ _ Hr) as Hrun. destruct (rq_ring _ _ Hrun) as [_ Hn].
  destruct rq as [|[p v] rq].
  { exfalso. pose proof (rq_end _ _ Hrun) as He. unfold cvof in He. unfold after in Hx. simpl in *.
    rewrite Hx in He. simpl in He. unfold lastv in He. simpl in He. injection He. lia. }
  change (after Procq ((p, v) :: rq).*1) with p in *.
  destruct (head_stored _ _ _ _ _ Hrun Hx) as [Ex Hv].
  assert (Hv' : 0 < v < 65535) by (destruct (Z.eqb_spec v 0); lia).
  apply NoDup_cons in Hn as [HP _]. assert (HpP : p <> Procq) by (intros ->; apply HP; by left).
  assert (Hps : forall q, q <> p -> q <> Procq -> procs s' !! q = procs s !! q).
  { intros q H1 H2. rewrite Hp. by rewrite !lookup_insert_ne. }
  assert (Hpp : procs s' !! p = Some (set_p_cval (u16 (p_cval x - 1)) x)).
  { rewrite Hp, lookup_insert_ne, lookup_insert_eq by done. done. }
  assert (HPP : procs s' !! Procq = Some (set_p_cval (u16 (p_cval z + 1)) z)).
  { rewrite Hp, lookup_insert_eq. done. }
  apply (rep_claims s s' ((p, v) :: rq)); try done; [|apply ticked_fst|..].
  - unfold ticked. rewrite (proj2 (Z.ltb_lt 0 v)), (proj2 (Z.ltb_lt v 65535)) by lia.
    by eapply runq_tick.
  - intros q Hq. apply Hps; intros ->; set_solver.
  - intros q. destruct (decide (q = p)) as [->|]; [by rewrite Hpp, Hx|].
    destruct (decide (q = Procq)) as [->|]; [by rewrite HPP, Hz|]. by rewrite Hps.
Qed.

Lemma rep_untouched s s' rq sq : rep s rq sq -> procs s' = procs s ->
  forw s' = forw s -> back s' = back s -> SELF s' = SELF s -> iprocp s' = iprocp s -> rep s' rq sq.
Proof.
  intros Hr Hp Hf Hb Hs Hi. apply (rep_claims s s' rq rq); try done; [|by rewrite Hp..].
  eapply runq_frame; [apply Hr|]. intros q _. split_and!; congruence.
Qed.

Lemma ticked_still s rq sq f x : rep s rq sq -> f = after Procq rq.*1 -> procs s !! f = Some x ->
  p_cval x <= CVCLOCK -> ticked rq = rq.
Proof.
  intros Hr -> Hx Hle. unfold CVCLOCK in *. destruct rq as [|[p v] rq]; [done|].
  change (after Procq ((p, v) :: rq).*1) with p in *.
  destruct (head_stored _ _ _ _ _ (rp_run _ _ _ Hr) Hx) as [Ex Hv]. unfold ticked.
  destruct (Z.ltb_spec 0 v); [|done]. destruct (Z.ltb_spec v 65535); [|done].
  destruct (Z.eqb_spec v 0); lia.
Qed.

Lemma rep_head s rq sq : rep s rq sq -> exists x, forw s !! Procq = Some (after Procq rq.*1) /\
  procs s !! after Procq rq.*1 = Some x.
Proof.
  intros Hr. pose proof (rq_ring _ _ (rp_run _ _ _ Hr)) as Hring.
  apply (ring_at _ _ Procq [] rq.*1) in Hring as [Hf _].
  destruct (runq_node s [] rq (rp_run _ _ _ Hr)) as (x & Hx & _). by exists x.
Qed.

Lemma wp_clock_sched s rq sq x : rep s rq sq -> procs s !! SELF s = Some x ->
  wp clock_sched (fun _ s' => rep s' (ticked rq) sq /\
    procs s' !! SELF s = Some (set_p_cval (p_cval x / 2) x) /\ SELF s' = SELF s /\
    utimer s' = u16 (utimer s + 1) /\ quantum s' = s16 (quantum s - 1)) s.
Proof.
  intros Hr Hx. unfold clock_sched. apply wp_bind, wp_modify, wp_bind, wp_modify.
  set (s1 := set_quantum _ _). assert (Hr1 : rep s1 rq sq) by (by eapply rep_untouched).
  destruct (rep_head _ _ _ Hr1) as (y & Hf & Hy).
  apply wp_bind, (wp_lforw _ _ _ _ Hf), wp_bind, (wp_rdp _ _ _ _ Hy), wp_bind.
  assert (Hpost : forall s2, rep s2 (ticked rq) sq -> SELF s2 = SELF s -> procs s2 !! SELF s = Some x ->
    utimer s2 = utimer s1 -> quantum s2 = quantum s1 ->
    wp (pp <- gets SELF ;; wrp pp (fun x => set_p_cval (Z.shiftr (p_cval x) 1) x))
      (fun _ s' => rep s' (ticked rq) sq /\
        procs s' !! SELF s = Some (set_p_cval (p_cval x / 2) x) /\ SELF s' = SELF s /\
        utimer s' = u16 (utimer s + 1) /\ quantum s' = s16 (quantum s - 1)) s2).
  { intros s2 Hr2 Hs2 Hx2 Hu Hq. apply wp_bind, wp_gets. rewrite Hs2. apply (wp_wrp _ _ _ _ _ Hx2).
    assert (Ha : awake s2 (ticked rq) (SELF s)) by (rewrite <- Hs2; apply Hr2).
    destruct Ha as [(x2 & Hx2' & Sx & Cx) Hn].
    assert (x2 = x) by congruence. subst x2.
    assert (Hh : Z.shiftr (p_cval x) 1 = p_cval x / 2) by (by rewrite Z.shiftr_div_pow2).
    rewrite Hh. assert (0 <= p_cval x / 2 < 65536).
    { split; [apply Z.div_pos; lia|]. apply Z.div_lt_upper_bound; lia. }
    split_and!; [|cbn; by rewrite lookup_insert_eq|done|done|done].
    apply rep_insert_awake; [done| |done|done]. split; [|done]. by exists x. }
  destruct (Z.ltb_spec CVCLOCK (p_cval y)) as [Hlt|Hge].
  - destruct (rp_procq _ _ _ Hr1) as (z & Hz & _).
    assert (HfP : after Procq rq.*1 <> Procq).
    { intros E. pose proof (rp_run _ _ _ Hr1) as Hrun. destruct rq as [|[q v] rq].
      - pose proof (rq_end _ _ Hrun) as He. unfold cvof in He. rewrite E in Hy. rewrite Hy in He.
        injection He as He. unfold lastv in He. simpl in He. unfold CVCLOCK in *. lia.
      - pose proof (rq_ring _ _ Hrun) as [_ Hn]. change (after Procq ((q, v) :: rq).*1) with q in E.
        subst q. apply NoDup_cons in Hn as [Hn _]. set_solver. }
    apply wp_bind, (wp_wrp _ _ _ _ _ Hy), (wp_wrp _ _ z); [cbn; by rewrite lookup_insert_ne|].
    apply Hpost; [|done| |done|done].
    + by eapply (rep_tick s1).
    + pose proof (awake_not_procq _ _ _ _ Hr1 (rp_self _ _ _ Hr1)) as Hn. cbn in Hn.
      cbn. rewrite !lookup_insert_ne; [done| |].
      * intros E. apply Hn. rewrite <- E. apply after_elem.
      * intros E. apply Hn. rewrite <- E. by left.
  - apply wp_ret. apply Hpost; try done. by rewrite (ticked_still s1 rq sq (after Procq rq.*1) y).
Qed.

(** The running process put back among those that wait for the processor. *)
Lemma wp_setrun_self s rq sq x : rep s rq sq -> SELF s <> iprocp s -> procs s !! SELF s = Some x ->
  wp (setrun (SELF s)) (fun _ s' => rep (parked s') (insert_run (SELF s) (p_cval x) rq) sq /\
    (forall q, p_flags <$> procs s' !! q = p_flags <$> procs s !! q) /\ core s' = core s) s.
Proof.
  intros Hr Hne Hx. pose proof (rp_self _ _ _ Hr) as Hp. set (p := SELF s) in *.
  pose proof (awake_not_procq _ _ _ _ Hr Hp) as HpD. pose proof (rp_run _ _ _ Hr) as Hrun.
  assert (Sx : p_state x = PSRUN /\ 0 <= p_cval x < 65536).
  { destruct Hp as [(y & Hy & Hs) _]. by simplify_eq. }
  eapply wp_mono; [apply (wp_setrun s rq p x Hrun Hx); [set_solver|set_solver|apply Sx]|].
  intros _ s' (Hrun' & Hrest & v & Hv). pose proof (rs_core _ _ _ _ Hrest) as Hcore.
  pose proof Hcore as Hcore'. injection Hcore' as _ _ _ Hi _ _ _ _.
  assert (Hall : forall q, set_p_cval 0 <$> procs s' !! q = set_p_cval 0 <$> procs s !! q).
  { intros q. destruct (decide (q = p)) as [->|Hq]; [|by apply (rs_procs _ _ _ _ Hrest)].
    rewrite Hv, Hx. simpl. f_equal. destruct x. simpl in *. by destruct Sx as [-> _]. }
  assert (Hsame : forall q, q <> p -> q ∉ Procq :: rq.*1 -> same_at s s' q).
  { intros q H1 H2. apply (rest_same_at _ _ _ _ q Hrest). set_solver. }
  assert (Haw : awake s' (insert_run p (p_cval x) rq) (iprocp s)).
  { pose proof (rp_idle _ _ _ Hr) as Hid. pose proof (awake_not_procq _ _ _ _ Hr Hid) as Hn.
    eapply awake_frame; [exact Hid|apply Hsame; [congruence|done]|].
    rewrite elem_insert_run. intros [?|?]; [congruence|]. apply Hn. by right. }
  split; [|split; [|exact Hcore]].
  - constructor.
    + by eapply runq_frame.
    + intros i Hii. pose proof (awake_asleep _ _ _ _ _ Hr Hp Hii) as Hpi.
      assert (Hs : forall q, q ∈ Linkq i :: sq i -> same_at s s' q).
      { intros q Hq. apply Hsame; [intros ->; done|by eapply sleepq_members]. }
      eapply sleepq_frame; [exact (rp_slp _ _ _ Hr i Hii)|..].
      * intros q Hq. by destruct (Hs q Hq) as (? & ? & _).
      * intros q Hq. destruct (Hs q) as (_ & _ & ?); [by right|done].
    + destruct (rp_procq _ _ _ Hr) as (y & Hy & Sy). pose proof (Hall Procq) as E.
      rewrite Hy in E. apply state_same in E as (z & Hz & Ez). exists z. split; [done|congruence].
    + intros i. pose proof (Hall (Linkq i)) as E. rewrite (rp_link _ _ _ Hr i) in E. cbn.
      by destruct (procs s' !! Linkq i).
    + cbn. rewrite Hi. exact Haw.
    + cbn. rewrite Hi. exact Haw.
    + intros q z Hz Sz. destruct (cval_same _ _ _ (Hall q) Hz) as (y & Hy & Sy & Ey).
      rewrite <- Ey. apply (rp_slept _ _ _ Hr q y Hy). congruence.
  - intros q. specialize (Hall q). destruct (procs s' !! q), (procs s !! q); simpl in *; try done.
    injection Hall. congruence.
Qed.

(** The claims that compete when the running process gives way. *)
Definition contenders (s : sched) (x : PROC) (rq : list (ref * Z)) : list (ref * Z) :=
  if decide (SELF s = iprocp s) then rq else insert_run (SELF s) (p_cval x) rq.

Lemma wp_redispatch s rq sq x : rep s rq sq -> procs s !! SELF s = Some x -> disflag s <> 0 ->
  wp redispatch (fun _ s' => exists rq', chosen s s' (contenders s x rq) rq' /\ rep s' rq' sq /\
    quantum s' = NCRTICK /\ disflag s' = 0) s.
Proof.
  intros Hr Hx Hd. unfold redispatch. apply wp_bind. unfold wp at 1. cbn [get].
  rewrite (proj2 (Z.eqb_neq _ _)) by done. apply wp_bind. unfold contenders.
  destruct (decide (SELF s = iprocp s)) as [E|Hne].
  - apply wp_ret. eapply wp_mono; [exact (wp_dispatch _ _ _ (rep_parked _ _ _ Hr))|].
    intros _ s' (rq' & Hc & Hr' & _ & _ & _ & Hq & Hdf). exists rq'. by split_and!.
  - eapply wp_mono; [exact (wp_setrun_self s rq sq x Hr Hne Hx)|].
    intros _ s1 (Hr1 & Hf & Hcore). eapply wp_mono; [exact (wp_dispatch _ _ _ Hr1)|].
    intros _ s' (rq' & Hc & Hr' & _ & _ & _ & Hq & Hdf). exists rq'. split_and!; try done.
    eapply chosen_incore; [exact Hf| |exact Hc]. by injection Hcore.
Qed.

(** Nobody in core has a higher claim than the one who is chosen. *)
Lemma chosen_highest s s' rq rq' : StronglySorted higher rq -> chosen s s' rq rq' ->
  (SELF s' = iprocp s /\ forall a, a ∈ rq -> incore s a.1 = false) \/
  (exists v, (SELF s', v) ∈ rq /\ incore s (SELF s') = true /\ cvof (procs s') (SELF s') = Some v /\
     forall a, a ∈ rq -> incore s a.1 = true -> a.2 <= v).
Proof.
  intros HS [(H1 & _ & H3)|(xs & v & ys & -> & _ & H3 & H4 & H5)]; [left|right].
  - split; [done|]. by rewrite Forall_forall in H1.
  - exists v. split_and!; [set_solver|done|done|]. intros a Ha Hc.
    rewrite Forall_forall in H4. apply elem_of_app in Ha as [Ha|[->|Ha]%elem_of_cons].
    + rewrite H4 in Hc by done. done.
    + simpl. lia.
    + apply StronglySorted_app in HS as (_ & _ & HS). apply StronglySorted_inv in HS as [_ HS].
      rewrite Forall_forall in HS. by apply HS.
Qed.

(** The process that has been woken takes back the urgency of its sleep. *)
Lemma wp_sleep_leave s rq sq x cl : rep s rq sq -> procs s !! SELF s = Some x ->
  wp (sleep_leave cl) (fun b s' => b = negb ((cl <? CVNOSIG) && negb (pending x =? 0)) /\ rep s' rq sq /\
    SELF s' = SELF s /\ cvof (procs s') (SELF s) = Some (subu (p_cval x) cl)) s.
Proof.
  intros Hr Hx. unfold sleep_leave. apply wp_bind, wp_gets. do 2 apply (wp_wrp_fuse _ _ _ _ _ _ x Hx).
  apply wp_bind, (wp_wrp _ _ _ _ _ Hx), wp_bind. set (y := set_p_rval 0 _).
  assert (Hy : rep (set_procs (<[SELF s := y]> (procs s)) s) rq sq).
  { destruct (rp_self _ _ _ Hr) as [(z & Hz & Sz & Cz) Hn]. assert (z = x) by congruence. subst z.
    apply rep_insert_awake; [done| |done|]; [split; [by exists x|done]|]. by apply subu_range. }
  eapply wp_mono; [apply (wp_interrupted cl _ y); cbn; by rewrite lookup_insert_eq|].
  intros b s' (-> & x' & -> & Hx'). apply wp_ret. split; [done|].
  assert (Hv : view x' = view y) by (by destruct Hx' as [-> | ->]).
  split; [|split; [done|]].
  - eapply rep_insert_view; [exact Hy| |exact Hv]. cbn. by rewrite lookup_insert_eq.
  - unfold cvof. cbn. rewrite lookup_insert_eq. injection Hv as _ _ Hv. simpl. by rewrite Hv.
Qed.

Definition sigbit (sig : Z) : Z := u16 (Z.shiftl 1 (sig - 1)).

Definition signalled (s s' : sched) (rq : list (ref * Z)) (sq : Z -> list ref) (sig : Z) (p : ref) (x : PROC) : Prop :=
  let x' := set_p_ssig (Z.lor (p_ssig x) (sigbit sig)) x in
  let i := hash (p_event x) in
  if negb (Z.land (p_isig x) (sigbit sig) =? 0) then s' = s
  else if p_state x =? PSSLEEP then
    exists l1 l2, sq i = l1 ++ p :: l2 /\ rep s' (insert_run p (aged s x) rq) (upd_sq i (l1 ++ l2) sq) /\
      (exists v, procs s' !! p = Some (set_p_state PSRUN (set_p_cval v x'))) /\
      (forall q, q <> p -> set_p_cval 0 <$> procs s' !! q = set_p_cval 0 <$> procs s !! q) /\ core s' = core s
  else s' = set_procs (<[p := x']> (procs s)) s /\ rep s' rq sq.

Lemma wp_sendsig s rq sq sig p x : rep s rq sq -> procs s !! p = Some x ->
  wp (sendsig sig p) (fun _ s' => signalled s s' rq sq sig p x) s.
Proof.
  intros Hr Hx. unfold sendsig, signalled. fold (sigbit sig). apply wp_bind, (wp_rdp _ _ _ _ Hx).
  destruct (negb _); [by apply wp_ret|]. apply wp_bind, (wp_wrp _ _ _ _ _ Hx), wp_bind.
  set (x' := set_p_ssig _ _). set (s1 := set_procs _ s).
  assert (Hx1 : procs s1 !! p = Some x') by (cbn; by rewrite lookup_insert_eq).
  assert (Hr1 : rep s1 rq sq) by (by eapply rep_insert_view).
  apply (wp_rdp _ _ _ _ Hx1). change (p_state x') with (p_state x).
  destruct (Z.eqb_spec (p_state x) PSSLEEP) as [Sx|Sx]; [|by apply wp_ret].
  pose proof (rp_slept _ _ _ Hr p x Hx Sx) as Hin. apply list_elem_of_split in Hin as (l1 & l2 & Hl).
  eapply wp_mono; [exact (wp_rouse s1 rq sq _ l1 l2 p x' Hr1 (hash_range _) Hl Hx1)|].
  intros _ s' (Hr' & (_ & Ho & Hcore) & Hp). exists l1, l2. split_and!; [done|exact Hr'|exact Hp| |exact Hcore].
  intros q Hq. rewrite Ho by done. cbn. by rewrite lookup_insert_ne.
Qed.

(** ** Start, and every history *)

Lemma pcsinit_links_spec l : forall s i,
  let s' := fold_left (fun s i => set_back (<[Linkq i := Linkq i]> (back s)) (set_forw (<[Linkq i := Linkq i]> (forw s)) s)) l s in
  (i ∈ l -> forw s' !! Linkq i = Some (Linkq i) /\ back s' !! Linkq i = Some (Linkq i)) /\
  (i ∉ l -> forw s' !! Linkq i = forw s !! Linkq i /\ back s' !! Linkq i = back s !! Linkq i) /\
  forw s' !! Procq = forw s !! Procq /\ back s' !! Procq = back s !! Procq /\
  procs s' = procs s /\ iprocp s' = iprocp s.
Proof.
  induction l as [|j l IH]; intros s i; cbn [fold_left]; [split_and!; auto; by intros ?%not_elem_of_nil|].
  set (s1 := set_back _ _). destruct (IH s1 i) as (H1 & H2 & H3 & H4 & H5 & H6). cbn zeta in *.
  split_and!.
  - intros Hi. destruct (decide (i ∈ l)) as [Hl|Hl]; [by apply H1|].
    apply elem_of_cons in Hi as [->|]; [|done]. destruct (H2 Hl) as [-> ->]. cbn. by rewrite !lookup_insert_eq.
  - intros [Hne Hl]%not_elem_of_cons. destruct (H2 Hl) as [-> ->]. cbn.
    rewrite !lookup_insert_ne by congruence. done.
  - rewrite H3. cbn. by rewrite lookup_insert_ne.
  - rewrite H4. cbn. by rewrite lookup_insert_ne.
  - by rewrite H5.
  - by rewrite H6.
Qed.

(** After [pcsinit], with the first process running and the idle process made. *)
Lemma pcsinit_rep s p x y z : procs s !! Procq = Some x -> p_state x = 0 -> p_cval x = 0 ->
  (forall i, procs s !! Linkq i = None) ->
  procs s !! p = Some y -> p_state y = PSRUN -> 0 <= p_cval y < 65536 ->
  procs s !! iprocp s = Some z -> p_state z = PSRUN -> 0 <= p_cval z < 65536 ->
  (forall q w, procs s !! q = Some w -> p_state w <> PSSLEEP) ->
  rep (set_SELF p (pcsinit s)) [] (fun _ => []).
Proof.
  intros Hx Sx Cx Hl Hy Sy Cy Hz Sz Cz Hns. unfold pcsinit. cbn zeta.
  set (s0 := set_back _ _). unfold pcsinit_links.
  assert (Hs : forall i, _) by exact (pcsinit_links_spec (seqZ 0 NHPLINK) s0). cbn zeta in Hs.
  set (s1 := fold_left _ _ _) in *.
  destruct (Hs 0) as (_ & _ & Hf & Hb & Hp & Hi). cbn in Hp, Hi.
  assert (Hf0 : forw s1 !! Procq = Some Procq) by (rewrite Hf; cbn; by rewrite lookup_insert_eq).
  assert (Hb0 : back s1 !! Procq = Some Procq) by (rewrite Hb; cbn; by rewrite lookup_insert_eq).
  constructor; cbn.
  - constructor; cbn; [split; [done|]|done| |constructor|constructor|constructor].
    + constructor; [by intros ?%not_elem_of_nil|constructor].
    + unfold cvof. rewrite Hp, Hx. simpl. by rewrite Cx.
  - intros i Hii. constructor; [|constructor]. destruct (Hs i) as (H1 & _).
    destruct H1 as [H1 H2]; [apply elem_of_seqZ; lia|]. split; [done|].
    constructor; [by intros ?%not_elem_of_nil|constructor].
  - rewrite Hp. by exists x.
  - intros i. by rewrite Hp.
  - split; [cbn; rewrite Hp; by exists y|by intros ?%not_elem_of_nil].
  - rewrite Hi. split; [cbn; rewrite Hp; by exists z|by intros ?%not_elem_of_nil].
  - rewrite Hp. intros q w Hw Sw. by destruct (Hns q w Hw).
Qed.

(** What can happen, in any order: a tick, a wakeup, a signal, the running
    process going to sleep, its return from a sleep, and a redispatch.  The idle
    process does not sleep. *)
Inductive event :=
| ETick
| EWakeup (e : Z)
| ESignal (sig : Z) (p : ref)
| ESleep (e cl sl sr : Z)
| ELeave (cl : Z)
| ERedispatch.

Definition occur (ev : event) : M sched unit :=
  match ev with
  | ETick => clock_sched
  | EWakeup e => wakeup e
  | ESignal sig p => s <- get ;; match procs s !! p with Some _ => sendsig sig p | None => kret tt end
  | ESleep e cl sl sr => s <- get ;; if decide (SELF s = iprocp s) then kret tt else sleep_enter e cl sl sr ;;; kret tt
  | ELeave cl => sleep_leave cl ;;; kret tt
  | ERedispatch => redispatch
  end.

Fixpoint history (evs : list event) : M sched unit :=
  match evs with
  | [] => kret tt
  | ev :: evs => occur ev ;;; history evs
  end.

Definition well (s : sched) : Prop := exists rq sq, rep s rq sq.

Lemma wp_occur ev s : well s -> wp (occur ev) (fun _ => well) s.
Proof.
  intros (rq & sq & Hr). destruct (rp_self _ _ _ Hr) as [(x & Hx & _) _].
  destruct ev as [|e|sig p|e cl sl sr|cl|]; cbn [occur].
  - eapply wp_mono; [exact (wp_clock_sched _ _ _ _ Hr Hx)|]. intros _ s' (Hr' & _). by eexists _, _.
  - eapply wp_mono; [exact (wp_wakeup _ _ _ e Hr)|]. intros _ s' (Hr' & _). by eexists _, _.
  - apply wp_bind. unfold wp at 1. cbn [get]. destruct (procs s !! p) as [y|] eqn:Hy.
    + eapply wp_mono; [exact (wp_sendsig _ _ _ sig _ _ Hr Hy)|]. unfold signalled. intros _ s'.
      destruct (negb _); [intros ->; by eexists _, _|].
      destruct (p_state y =? PSSLEEP).
      * intros (l1 & l2 & _ & Hr' & _). by eexists _, _.
      * intros (_ & Hr'). by eexists _, _.
    + apply wp_ret. by eexists _, _.
  - apply wp_bind. unfold wp at 1. cbn [get]. destruct (decide (SELF s = iprocp s)) as [|Hne].
    + apply wp_ret. by eexists _, _.
    + apply wp_bind. eapply wp_mono; [exact (wp_sleep_enter s rq sq x e cl sl sr Hr Hne Hx)|].
      intros b s' (_ & Hb). apply wp_ret. destruct b.
      * destruct Hb as (rq' & _ & Hr' & _). by eexists _, _.
      * destruct Hb as (Hr' & _). by eexists _, _.
  - apply wp_bind. eapply wp_mono; [exact (wp_sleep_leave s rq sq x cl Hr Hx)|].
    intros b s' (_ & Hr' & _). apply wp_ret. by eexists _, _.
  - destruct (decide (disflag s = 0)) as [Hd|Hd].
    + unfold redispatch. apply wp_bind. unfold wp at 1. cbn [get]. rewrite Hd. cbn. by eexists _, _.
    + eapply wp_mono; [exact (wp_redispatch s rq sq x Hr Hx Hd)|].
      intros _ s' (rq' & _ & Hr' & _). by eexists _, _.
Qed.

Lemma wp_history evs : forall s, well s -> wp (history evs) (fun _ => well) s.
Proof.
  induction evs as [|ev evs IH]; intros s Hw; [by apply wp_ret|]. cbn [history]. apply wp_bind.
  eapply wp_mono; [exact (wp_occur ev s Hw)|]. intros [] s'. apply IH.
Qed.

Lemma pending_range x : 0 <= p_ssig x < 65536 -> 0 <= pending x < 65536.
Proof.
  intros Hs. assert (E : pending x = pending x mod 2 ^ 16).
  { rewrite <- Z.land_ones by done. unfold pending. rewrite <- Z.land_assoc, (Z.land_comm (Z.lnot _)), Z.land_assoc.
    rewrite Z.land_ones, Z.mod_small by done. done. }
  rewrite E. by apply Z.mod_pos_bound.
Qed.

Lemma first_signal_spec x : 0 <= p_ssig x < 65536 -> pending x <> 0 ->
  let n := first_signal (pending x) in
  1 <= n <= 16 /\ Z.testbit (p_ssig x) (n - 1) = true /\ Z.testbit (p_isig x) (n - 1) = false /\
  forall m, 1 <= m < n -> Z.testbit (p_ssig x) (m - 1) = true -> Z.testbit (p_isig x) (m - 1) = true.
Proof.
  intros Hs Hne. pose proof (pending_range x Hs) as Hp.
  assert (Hbit : forall k, 0 <= k -> Z.testbit (pending x) k = Z.testbit (p_ssig x) k && negb (Z.testbit (p_isig x) k)).
  { intros k Hk. unfold pending. by rewrite Z.land_spec, Z.lnot_spec. }
  unfold first_signal. rewrite (proj2 (Z.eqb_neq _ _) Hne).
  destruct (nondsig_loop_spec (pending x) ltac:(lia) 16 0 eq_refl) as (n & E & Ht & Hlow); [lia|].
  change (nondsig_loop 16 (pending x) 1 1 = Z.of_nat n + 1) in E. rewrite E.
  rewrite Z.add_simpl_r. pose proof (Hbit (Z.of_nat n) ltac:(lia)) as Hn. rewrite Ht in Hn.
  symmetry in Hn. apply andb_true_iff in Hn as [H1 H2%negb_true_iff].
  cbn zeta. split_and!; [lia| |done|done|].
  - destruct (decide (n < 16)%nat); [lia|]. exfalso. rewrite Z.bits_above_log2 in Ht; [done|lia|].
    apply Z.lt_le_trans with 16; [|lia]. apply Z.log2_lt_pow2; lia.
  - intros m Hm Hset. specialize (Hlow (Z.to_nat (m - 1)) ltac:(lia)). rewrite Z2Nat.id in Hlow by lia.
    rewrite Hbit, Hset in Hlow by lia. by apply negb_false_iff in Hlow.
Qed.

(** The queue stays in order when a process is put in its place. *)
Lemma sorted_insert_run p c rq : StronglySorted higher rq -> StronglySorted higher (insert_run p c rq).
Proof.
  induction 1 as [|[q v] rq HS IH HF]; cbn [insert_run]; [repeat constructor|].
  destruct (Z.leb_spec c v) as [Hle|Hgt].
  - constructor; [exact IH|]. apply Forall_forall. intros [r w] Ha.
    assert (Hin : (r, w) = (p, c) \/ (r, w) ∈ rq).
    { clear -Ha. induction rq as [|[t u] rq IHr]; cbn [insert_run] in Ha.
      - left. by apply list_elem_of_singleton in Ha.
      - destruct (c <=? u); [|set_solver]. apply elem_of_cons in Ha as [->|Ha]; [right; by left|].
        destruct (IHr Ha); [by left|right; by right]. }
    destruct Hin as [[= -> ->]|Hin]; [exact Hle|]. rewrite Forall_forall in HF. by apply HF.
  - constructor; [by constructor|]. constructor; [unfold higher; simpl; lia|].
    eapply Forall_impl; [exact HF|]. intros a. unfold higher. simpl. lia.
Qed.

(** ** What the scheduler does *)

Lemma elem_wake_rq s e p l : forall rq, p ∈ (wake_rq s e l rq).*1 <->
  p ∈ rq.*1 \/ (p ∈ l /\ exists x, procs s !! p = Some x /\ p_event x = e).
Proof.
  induction l as [|q l IH]; intros rq.
  { cbn. split; [by left|]. by intros [?|[?%not_elem_of_nil _]]. }
  rewrite wake_rq_cons, IH, elem_of_cons.
  destruct (procs s !! q) as [y|] eqn:Hy.
  - destruct (Z.eqb_spec (p_event y) e) as [E|E].
    + rewrite elem_insert_run. split; [|naive_solver].
      intros [[->|?]|(? & ?)]; [right|by left|naive_solver]. split; [by left|by exists y].
    + split; [naive_solver|]. intros [?|[[->|?] (x & Hx & Ex)]]; [by left|congruence|right; eauto].
  - split; [naive_solver|]. intros [?|[[->|?] (x & Hx & Ex)]]; [by left|congruence|right; eauto].
Qed.

(** Those asleep on [e] are ready afterwards, and the other sleepers still asleep. *)
Definition roused (e : Z) (s s' : sched) : Prop :=
  forall p x, procs s !! p = Some x -> p_state x = PSSLEEP ->
    p_state <$> procs s' !! p = Some (if p_event x =? e then PSRUN else PSSLEEP).

Lemma woken_state s s' rq sq e p x : rep s rq sq ->
  rep s' (wake_rq s e (sq (hash e)) rq)
    (upd_sq (hash e) (filter (fun p => wants s e p = false) (sq (hash e))) sq) ->
  procs s !! p = Some x -> p_state x = PSSLEEP ->
  p_state <$> procs s' !! p = Some (if p_event x =? e then PSRUN else PSSLEEP).
Proof.
  intros Hr Hr' Hx Sx. pose proof (rp_slept _ _ _ Hr p x Hx Sx) as Hin.
  destruct (Z.eqb_spec (p_event x) e) as [E|E].
  - destruct (runq_lookup s' _ p (rp_run _ _ _ Hr')) as (y & -> & Sy); [|by cbn; f_equal].
    apply elem_wake_rq. right. rewrite <- E at 1. split; [done|by exists x].
  - pose proof (rp_slp _ _ _ Hr' (hash (p_event x)) (hash_range _)) as [_ HF].
    rewrite Forall_forall in HF. destruct (HF p) as (y & -> & Sy & _); [|by cbn; f_equal].
    unfold upd_sq. destruct (Z.eqb_spec (hash (p_event x)) (hash e)) as [Eh|]; [|done].
    apply list_elem_of_filter. split; [|by rewrite <- Eh].
    unfold wants. rewrite Hx. by apply Z.eqb_neq.
Qed.

(** C16: started by [pcsinit], with one process running, the idle process there
    and nobody asleep, every sequence of clock ticks, wakeups, signals, sleeps,
    returns from sleep and redispatches returns: no pointer is followed that is
    not there, no loop runs on, and in the end the run queue and the sleep
    queues are rings again, in order and apart, with everybody on the queue that
    his state and event say. *)
Theorem scheduler_invariant (s : sched) (p : ref) (x y z : PROC) (evs : list event)
    (Hprocq : procs s !! Procq = Some x) (Hstate : p_state x = 0) (Hcval : p_cval x = 0)
    (Hlink : forall i, procs s !! Linkq i = None)
    (Hp : procs s !! p = Some y) (Hrun : p_state y = PSRUN) (Hclaim : 0 <= p_cval y < 65536)
    (Hidle : procs s !! iprocp s = Some z) (Hready : p_state z = PSRUN) (Hc : 0 <= p_cval z < 65536)
    (Hawake : forall q w, procs s !! q = Some w -> p_state w <> PSSLEEP) :
  exists s' rq sq, history evs (set_SELF p (pcsinit s)) = Ret tt s' /\ rep s' rq sq.
Proof.
  assert (Hw : well (set_SELF p (pcsinit s))) by (eexists _, _; by eapply pcsinit_rep).
  pose proof (wp_history evs _ Hw) as H. apply wp_returns in H as ([] & s' & E & rq & sq & Hr).
  by exists s', rq, sq.
Qed.

(** C17: when the clock or a wakeup has asked for it, [redispatch] puts the running
    process back among those that are ready, at its claim, and then the
    process runs that has the highest claim of those in core, with a new quantum
    and its claim restored from the differences that the queue stores; the idle
    process runs when none is in core. *)
Theorem redispatch_correct (s : sched) (rq : list (ref * Z)) (sq : Z -> list ref) (x : PROC)
    (Hr : rep s rq sq) (Hx : procs s !! SELF s = Some x) (Hd : disflag s <> 0) :
  exists s' rq', redispatch s = Ret tt s' /\ rep s' rq' sq /\ quantum s' = NCRTICK /\ disflag s' = 0 /\
    chosen s s' (contenders s x rq) rq' /\
    ((SELF s' = iprocp s /\ forall a, a ∈ contenders s x rq -> incore s a.1 = false) \/
     (exists v, (SELF s', v) ∈ contenders s x rq /\ incore s (SELF s') = true /\
        cvof (procs s') (SELF s') = Some v /\
        forall a, a ∈ contenders s x rq -> incore s a.1 = true -> a.2 <= v)).
Proof.
  pose proof (wp_redispatch s rq sq x Hr Hx Hd) as H.
  apply wp_returns in H as ([] & s' & E & rq' & Hch & Hr' & Hq & Hf).
  exists s', rq'. split_and!; try done. apply (chosen_highest s s' _ rq'); [|done].
  pose proof (rq_sorted _ _ (rp_run _ _ _ Hr)) as HS.
  unfold contenders. destruct (decide _); [done|]. by apply sorted_insert_run.
Qed.

(** C18: [wakeup e] makes everybody ready who sleeps on [e], each paid for the ticks
    he slept and put in his place on the run queue, and nobody else: other
    sleepers sleep on, in their order, also those whose event shares the queue
    with [e]. *)
Theorem wakeup_correct (s : sched) (rq : list (ref * Z)) (sq : Z -> list ref) (e : Z) (Hr : rep s rq sq) :
  exists s', wakeup e s = Ret tt s' /\
    rep s' (wake_rq s e (sq (hash e)) rq)
      (upd_sq (hash e) (filter (fun p => wants s e p = false) (sq (hash e))) sq) /\
    roused e s s' /\ woken rq s s'.
Proof.
  pose proof (wp_wakeup s rq sq e Hr) as H. apply wp_returns in H as ([] & s' & E & Hr' & Hw).
  exists s'. split; [done|]. split; [done|]. split; [|done]. intros p x Hx Sx. exact (woken_state s s' rq sq e p x Hr Hr' Hx Sx).
Qed.

(** A process that calls [sleep] sleeps on the queue of its event, with its
    urgency added to its claim, and another one runs; unless a signal that it
    does not ignore is pending and the sleep is one that signals end, in which
    case it goes on without ever leaving the processor. *)
Theorem sleep_correct (s : sched) (rq : list (ref * Z)) (sq : Z -> list ref) (x : PROC) (e cl sl sr : Z)
    (Hr : rep s rq sq) (Hid : SELF s <> iprocp s) (Hx : procs s !! SELF s = Some x) :
  exists b s', sleep_enter e cl sl sr s = Ret b s' /\ b = negb ((cl <? CVNOSIG) && negb (pending x =? 0)) /\
    if b then gone_to_sleep s s' rq sq x e cl
    else rep s' rq sq /\ SELF s' = SELF s.
Proof.
  pose proof (wp_sleep_enter s rq sq x e cl sl sr Hr Hid Hx) as H.
  apply wp_returns in H as (b & s' & E & Eb & Hb). exists b, s'. split; [done|]. split; [done|].
  destruct b; [done|]. destruct Hb as (Hr' & x' & _ & ->). done.
Qed.

(** [sendsig] marks a signal that is not ignored as pending, and takes a
    sleeper off its queue and makes it ready at once; an ignored signal does
    nothing. *)
Theorem sendsig_correct (s : sched) (rq : list (ref * Z)) (sq : Z -> list ref) (sig : Z) (p : ref) (x : PROC)
    (Hr : rep s rq sq) (Hx : procs s !! p = Some x) :
  exists s', sendsig sig p s = Ret tt s' /\ signalled s s' rq sq sig p x.
Proof.
  pose proof (wp_sendsig s rq sq sig p x Hr Hx) as H. apply wp_returns in H as ([] & s' & E & Hs). by exists s'.
Qed.

(** [nondsig] forgets the ignored signals of the running process and gives the
    lowest number of those left, or 0 when none is. *)
Theorem nondsig_correct (s : sched) (x : PROC)
    (Hx : procs s !! SELF s = Some x) (Hs : 0 <= p_ssig x < 65536) :
  exists n, nondsig s = Ret n (set_procs (<[SELF s := set_p_ssig (pending x) x]> (procs s)) s) /\
    (n = 0 <-> pending x = 0) /\
    (pending x <> 0 -> 1 <= n <= 16 /\ Z.testbit (p_ssig x) (n - 1) = true /\ Z.testbit (p_isig x) (n - 1) = false /\
       forall m, 1 <= m < n -> Z.testbit (p_ssig x) (m - 1) = true -> Z.testbit (p_isig x) (m - 1) = true).
Proof.
  pose proof (wp_nondsig s x (fun n s' => n = first_signal (pending x) /\
    s' = set_procs (<[SELF s := set_p_ssig (pending x) x]> (procs s)) s) Hx) as H.
  apply wp_returns in H as (n & s' & E & -> & ->); [|done].
  eexists. split; [exact E|]. split.
  { rewrite <- Z.eqb_eq, first_signal_zero, Z.eqb_eq. done. }
  intros Hne. by apply first_signal_spec.
Qed.

(** ** A small system: the idle process, a process that runs, and one that has
    gone to sleep *)

Definition a_proc (pid state cval ssig isig : Z) : PROC := Proc pid state PFCORE ssig isig 0 cval 0 0 0.
Definition machine : sched :=
  Sch ∅ ∅ ∅ ∅ {[Procq := a_proc 0 0 0 0 0; Pr 0 := a_proc 0 PSRUN 0 0 0; Pr 1 := a_proc 1 PSRUN 100 6 2]}
    Procq (Pr 0) 2 7 NCRTICK 1.
Definition booted : sched := set_SELF (Pr 1) (pcsinit machine).
Definition napping : sched := match sleep_enter 64 300 0 0 booted with Ret _ s => s | _ => booted end.

Lemma machine_awake q w : procs machine !! q = Some w -> p_state w <> PSSLEEP.
Proof.
  unfold machine. cbn. intros H.
  repeat (apply lookup_insert_Some in H as [[_ <-]|[_ H]]; [done|]). by apply lookup_singleton_Some in H as [_ <-].
Qed.

Lemma booted_rep : rep booted [] (fun _ => []).
Proof.
  apply pcsinit_rep with (x := a_proc 0 0 0 0 0) (y := a_proc 1 PSRUN 100 6 2) (z := a_proc 0 PSRUN 0 0 0);
    try reflexivity; [done|done|exact machine_awake].
Qed.

Lemma napping_rep : rep napping [] (upd_sq 0 [Pr 1] (fun _ => [])).
Proof.
  pose proof (wp_sleep_enter booted [] (fun _ => []) (a_proc 1 PSRUN 100 6 2) 64 300 0 0 booted_rep ltac:(done) eq_refl) as H.
  apply wp_returns in H as (b & s' & E & Eb & Hb). unfold napping. rewrite E.
  cbn in Eb. subst b. destruct Hb as (rq' & Hch & Hr & _).
  destruct Hch as [(_ & -> & _)|(xs & v & ys & Hnil & _)]; [exact Hr|]. by destruct xs.
Qed.

Lemma scheduler_invariant_witness :
  exists s' rq sq, history [ETick; ESleep 64 300 0 0; ETick; EWakeup 64; ETick; ERedispatch; ESignal 3 (Pr 1)] booted = Ret tt s' /\
    rep s' rq sq.
Proof.
  apply (scheduler_invariant machine (Pr 1) (a_proc 0 0 0 0 0) (a_proc 1 PSRUN 100 6 2) (a_proc 0 PSRUN 0 0 0));
    try reflexivity; [done|done|exact machine_awake].
Defined.

Lemma redispatch_correct_witness :
  exists s' rq', redispatch booted = Ret tt s' /\ rep s' rq' (fun _ => []) /\ SELF s' = Pr 1.
Proof.
  destruct (redispatch_correct booted [] (fun _ => []) (a_proc 1 PSRUN 100 6 2) booted_rep eq_refl ltac:(done))
    as (s' & rq' & E & Hr & _ & _ & _ & H).
  exists s', rq'. split; [exact E|]. split; [exact Hr|].
  destruct H as [[_ H]|(v & H & _)].
  - by specialize (H (Pr 1, 100) ltac:(by left)).
  - by apply list_elem_of_singleton in H as [= ->].
Defined.

Lemma wakeup_correct_witness :
  exists s', wakeup 64 napping = Ret tt s' /\ p_state <$> procs s' !! Pr 1 = Some PSRUN.
Proof.
  destruct (wakeup_correct napping [] (upd_sq 0 [Pr 1] (fun _ => [])) 64 napping_rep) as (s' & E & _ & H & _).
  exists s'. split; [exact E|].
  exact (H (Pr 1) (Proc 1 PSSLEEP PFCORE 6 2 64 400 0 0 7) ltac:(vm_compute; reflexivity) eq_refl).
Defined.

Lemma sleep_correct_witness :
  exists s', sleep_enter 64 300 0 0 booted = Ret true s' /\ p_state <$> procs s' !! Pr 1 = Some PSSLEEP.
Proof.
  destruct (sleep_correct booted [] (fun _ => []) (a_proc 1 PSRUN 100 6 2) 64 300 0 0 booted_rep ltac:(done) eq_refl)
    as (b & s' & E & Eb & H).
  cbn in Eb. subst b. destruct H as (rq' & _ & _ & (y & Hy & Sy & _) & _).
  exists s'. split; [exact E|]. change (Pr 1) with (SELF booted). rewrite Hy. cbn. by f_equal.
Defined.

Lemma sendsig_correct_witness :
  exists s' l1 l2 rq', sendsig 3 (Pr 1) napping = Ret tt s' /\ rep s' rq' (upd_sq 0 (l1 ++ l2) (upd_sq 0 [Pr 1] (fun _ => []))).
Proof.
  destruct (sendsig_correct napping [] (upd_sq 0 [Pr 1] (fun _ => [])) 3 (Pr 1) (Proc 1 PSSLEEP PFCORE 6 2 64 400 0 0 7)
    napping_rep ltac:(vm_compute; reflexivity)) as (s' & E & l1 & l2 & _ & Hr & _).
  exists s', l1, l2. eexists. split; [exact E|exact Hr].
Defined.

Lemma nondsig_correct_witness : exists n s', nondsig booted = Ret n s' /\ 1 <= n <= 16 /\ Z.testbit 6 (n - 1) = true.
Proof.
  destruct (nondsig_correct booted (a_proc 1 PSRUN 100 6 2) eq_refl ltac:(done)) as (n & E & _ & H).
  destruct (H ltac:(done)) as (Hn & Hb & _). exists n. eexists. split; [exact E|]. split; [exact Hn|exact Hb].
Defined.
