(* ===== verification/Pids.v ===== *)
(** Process numbers: the list of processes that [process] and [relproc] keep. *)
From stdpp Require Import sorting.
From S2P Require Import Prelude Sched Dlist Proc.
Local Open Scope Z_scope.
Local Open Scope kernel_scope.

(** ** Process numbers *)

(** The list of processes with their numbers, in falling order. *)
Record pids (s : sched) (ps : list (ref * Z)) : Prop := {
  pi_ring : ring (nforw s) (nback s) Procq ps.*1;
  pi_pid : Forall (fun a : ref * Z => p_pid <$> procs s !! a.1 = Some a.2) ps;
  pi_sorted : StronglySorted (fun a b : ref * Z => b.2 < a.2) ps
}.

Lemma wp_lnforw p q (Q : ref -> sched -> Prop) s : nforw s !! p = Some q -> Q q s -> wp (lnforw p) Q s.
Proof. intros E HQ. unfold wp, lnforw, kbind. simpl. by rewrite E. Qed.

Lemma wp_lnback p q (Q : ref -> sched -> Prop) s : nback s !! p = Some q -> Q q s -> wp (lnback p) Q s.
Proof. intros E HQ. unfold wp, lnback, kbind. simpl. by rewrite E. Qed.

(** The outcome of the search for the place of a number. *)
Definition place (ps : list (ref * Z)) (pid : Z) (r : option ref) : Prop :=
  match r with
  | Some q => exists l1 l2, ps = l1 ++ l2 /\ q = after Procq l2.*1 /\
      Forall (fun a : ref * Z => pid < a.2) l1 /\ Forall (fun a : ref * Z => a.2 < pid) l2
  | None => pid ∈ ps.*2
  end.

Lemma wp_pid_scan s ps pid : pids s ps -> forall l2 l1 fuel, ps = l1 ++ l2 ->
  Forall (fun a : ref * Z => pid < a.2) l1 -> (length l2 < fuel)%nat ->
  wp (pid_scan fuel (before Procq l1.*1) pid) (fun r s' => s' = s /\ place ps pid r) s.
Proof.
  intros Hp. induction l2 as [|[q n] l2 IH]; intros l1 fuel Hl H1 Hf;
    (destruct fuel as [|fuel]; [simpl in Hf; lia|]); cbn [pid_scan].
  all: pose proof (pi_ring _ _ Hp) as Hring; rewrite Hl, fmap_app in Hring;
    pose proof (ring_at _ _ _ _ _ Hring) as [Hf' _]; apply wp_bind, (wp_lnforw _ _ _ _ Hf').
  - apply wp_ret. split; [done|]. exists l1, []. by split_and!.
  - change (after Procq ((q, n) :: l2).*1) with q. apply ring_notin in Hring.
    destruct (decide (q = Procq)) as [->|_]; [set_solver|].
    pose proof (pi_pid _ _ Hp) as HF. rewrite Hl in HF. apply Forall_app in HF as [_ HF].
    apply Forall_inv in HF. simpl in HF. destruct (procs s !! q) as [x|] eqn:Hx; [|done].
    injection HF as HF. apply wp_bind, (wp_rdp _ _ _ _ Hx). rewrite HF.
    pose proof (pi_sorted _ _ Hp) as HS. rewrite Hl in HS. apply StronglySorted_app in HS as (_ & _ & HS).
    apply StronglySorted_inv in HS as [_ HS].
    destruct (Z.ltb_spec n pid) as [Hlt|Hge].
    + apply wp_ret. split; [done|]. exists l1, ((q, n) :: l2). split_and!; [done|done|done|].
      constructor; [done|]. eapply Forall_impl; [exact HS|]. simpl. lia.
    + destruct (Z.eqb_spec n pid) as [->|Hne].
      * apply wp_ret. split; [done|]. cbn. rewrite Hl, fmap_app. set_solver.
      * pose proof (IH (l1 ++ [(q, n)]) fuel) as IH'. rewrite fmap_app in IH'. cbn [fmap list_fmap fst] in IH'.
        rewrite before_snoc in IH'. apply IH'; [by rewrite <- app_assoc| |simpl in Hf; lia].
        apply Forall_app. split; [done|]. constructor; [simpl; lia|done].
Qed.

(** The numbers are handed out in turn; [nth_pid c k] is the number that comes
    [k] turns after [c]. *)
Definition next_pid (c : Z) : Z := if NPID <=? c + 1 then 2 else c + 1.
Definition nth_pid (c k : Z) : Z := if c + k <? NPID then c + k else c + k - (NPID - 2).

Lemma nth_pid_range c k : 0 <= c < NPID -> 0 <= k < NPID - 2 -> 0 <= nth_pid c k < NPID.
Proof. unfold nth_pid, NPID. intros Hc Hk. destruct (Z.ltb_spec (c + k) 30000); lia. Qed.

Lemma nth_pid_next c k : 0 <= c < NPID -> 0 <= k < NPID - 2 -> next_pid (nth_pid c k) = nth_pid c (k + 1).
Proof.
  unfold next_pid, nth_pid, NPID. intros Hc Hk.
  destruct (Z.ltb_spec (c + k) 30000), (Z.ltb_spec (c + (k + 1)) 30000); destruct (Z.leb_spec 30000 (c + k + 1));
    destruct (Z.leb_spec 30000 (c + k - (30000 - 2) + 1)); lia.
Qed.

Lemma nth_pid_inj c j k : 0 <= c < NPID -> 0 <= j < k -> k < NPID - 2 -> nth_pid c j <> nth_pid c k.
Proof.
  unfold nth_pid, NPID. intros Hc Hj Hk.
  destruct (Z.ltb_spec (c + j) 30000), (Z.ltb_spec (c + k) 30000); lia.
Qed.

(** So many numbers in use take no more turns than that. *)
Lemma turns_bound c k l : 0 <= c < NPID -> Z.of_nat k <= NPID - 2 ->
  (forall j, (j < k)%nat -> nth_pid c (Z.of_nat j) ∈ l) -> (k <= length l)%nat.
Proof.
  intros Hc Hk Hin. set (t := map (fun j => nth_pid c (Z.of_nat j)) (seq 0 k)).
  assert (Ht : length t = k) by (unfold t; by rewrite length_map, length_seq).
  rewrite <- Ht. apply NoDup_incl_length.
  - unfold t. apply NoDup_ListNoDup. apply NoDup_fmap_2_strong; [|apply NoDup_seq].
    intros i j Hi Hj E. apply elem_of_seq in Hi, Hj.
    destruct (decide (i = j)) as [|Hne]; [done|]. exfalso. destruct (decide (i < j)%nat).
    + apply (nth_pid_inj c (Z.of_nat i) (Z.of_nat j)); [done|lia|lia|done].
    + apply (nth_pid_inj c (Z.of_nat j) (Z.of_nat i)); [done|lia|lia|done].
  - intros x Hx. apply in_map_iff in Hx as (j & <- & Hj). apply in_seq in Hj.
    apply list_elem_of_In, Hin. lia.
Qed.

(** [pp] given the number [pid], and nothing else changed but the next number. *)
Record numbered (pp : ref) (pid : Z) (x : PROC) (s s' : sched) : Prop := {
  nu_procs : procs s' = <[pp := set_p_pid pid x]> (procs s);
  nu_cpid : cpid s' = next_pid pid;
  nu_links : (nforw s', nback s', forw s', back s') = (nforw s, nback s, forw s, back s);
  nu_rest : (SELF s', iprocp s', utimer s', quantum s', disflag s') =
    (SELF s, iprocp s, utimer s, quantum s, disflag s)
}.

Lemma wp_pid_take pp s x : procs s !! pp = Some x ->
  wp (pid_take pp) (fun pid s' => pid = cpid s /\ numbered pp pid x s s') s.
Proof.
  intros Hx. unfold pid_take.
  apply wp_bind, wp_gets, wp_bind, (wp_wrp _ _ _ _ _ Hx), wp_bind, wp_modify, wp_bind, wp_gets, wp_bind.
  cbn [cpid set_cpid]. destruct (NPID <=? cpid s + 1) eqn:E.
  - apply wp_modify, wp_ret. split; [done|]. constructor; try done. cbn. unfold next_pid. by rewrite E.
  - apply wp_ret, wp_ret. split; [done|]. constructor; try done. cbn. unfold next_pid. by rewrite E.
Qed.

Lemma pids_numbered pp pid x s s' ps : pids s ps -> pp ∉ ps.*1 -> numbered pp pid x s s' -> pids s' ps.
Proof.
  intros [H1 H2 H3] Hpp [Hp _ Hl _]. injection Hl as Hn Hb _ _. constructor; [by rewrite Hn, Hb| |done].
  apply Forall_forall. intros a Ha. rewrite Forall_forall in H2. rewrite Hp, lookup_insert_ne; [by apply H2|].
  intros ->. apply Hpp. by apply list_elem_of_fmap_2.
Qed.

Lemma numbered_trans pp i j x s1 s2 s3 :
  numbered pp i x s1 s2 -> numbered pp j (set_p_pid i x) s2 s3 -> numbered pp j x s1 s3.
Proof.
  intros [P1 C1 L1 R1] [P2 C2 L2 R2]. constructor; [|done|congruence|congruence].
  by rewrite P2, P1, insert_insert_eq.
Qed.

Lemma wp_pid_next pp c ps : 0 <= c < NPID -> Z.of_nat (length ps) < NPID - 2 ->
  pp <> Procq -> pp ∉ ps.*1 -> forall fuel k s x,
  pids s ps -> procs s !! pp = Some x -> (length ps < size (procs s))%nat ->
  cpid s = nth_pid c (Z.of_nat k) -> (forall j, (j < k)%nat -> nth_pid c (Z.of_nat j) ∈ ps.*2) ->
  (k <= length ps)%nat -> (length ps < fuel + k)%nat ->
  wp (pid_next fuel pp) (fun q s' => exists pid, place ps pid (Some q) /\ 0 <= pid < NPID /\
      numbered pp pid x s s') s.
Proof.
  intros Hc Hlen HpP Hpp. induction fuel as [|fuel IH]; intros k s x Hp Hx Hsz Hcp Htr Hk Hf; [lia|].
  cbn [pid_next]. apply wp_bind. eapply wp_mono; [exact (wp_pid_take pp s x Hx)|].
  intros pid s1 (Epid & Hnu). rewrite Hcp in Epid.
  assert (Hpid : 0 <= pid < NPID) by (rewrite Epid; apply nth_pid_range; [done|lia]).
  pose proof (pids_numbered _ _ _ _ _ _ Hp Hpp Hnu) as Hp1.
  assert (Hx1 : procs s1 !! pp = Some (set_p_pid pid x)) by (rewrite (nu_procs _ _ _ _ _ Hnu); by rewrite lookup_insert_eq).
  assert (Hsz1 : size (procs s1) = size (procs s)).
  { rewrite (nu_procs _ _ _ _ _ Hnu). apply map_size_insert_Some. by exists x. }
  apply wp_bind, wp_gets, wp_bind. eapply wp_mono.
  { apply (wp_pid_scan s1 ps pid Hp1 ps []); [done|constructor|lia]. }
  intros r s2 (-> & Hr). destruct r as [q|].
  - apply wp_ret. by exists pid.
  - cbn in Hr. assert (Htr' : forall j, (j < S k)%nat -> nth_pid c (Z.of_nat j) ∈ ps.*2).
    { intros j Hj. destruct (decide (j = k)) as [->|]; [by rewrite <- Epid|]. apply Htr. lia. }
    assert (Hk' : (S k <= length ps)%nat).
    { rewrite <- (length_fmap snd ps). apply (turns_bound c); [done|lia|done]. }
    eapply wp_mono; [apply (IH (S k) s1 (set_p_pid pid x) Hp1 Hx1); [lia| |done|done|lia]|].
    + rewrite (nu_cpid _ _ _ _ _ Hnu), Epid, nth_pid_next by (done || lia). f_equal. lia.
    + intros q s' (j & Hpl & Hj & Hnu'). exists j. split_and!; [done|lia|lia|]. by eapply numbered_trans.
Qed.

Lemma wp_process_link s ps pp x : pids s ps -> procs s !! pp = Some x -> pp <> Procq -> pp ∉ ps.*1 ->
  (length ps < size (procs s))%nat -> Z.of_nat (length ps) < NPID - 2 -> 0 <= cpid s < NPID ->
  wp (process_link pp) (fun _ s' => exists pid l1 l2, ps = l1 ++ l2 /\ (pid ∉ ps.*2) /\ 0 <= pid < NPID /\
    pids s' (l1 ++ (pp, pid) :: l2) /\ procs s' = <[pp := set_p_pid pid x]> (procs s) /\
    0 <= cpid s' < NPID /\ (forw s', back s', SELF s') = (forw s, back s, SELF s)) s.
Proof.
  intros Hp Hx HpP Hpp Hsz Hlen Hc. unfold process_link. apply wp_bind, wp_gets, wp_bind.
  eapply wp_mono.
  { apply (wp_pid_next pp (cpid s) ps Hc Hlen HpP Hpp _ 0 s x Hp Hx Hsz); [|lia|lia|lia].
    unfold nth_pid. rewrite Z.add_0_r. by rewrite (proj2 (Z.ltb_lt _ _)) by lia. }
  intros q s1 (pid & (l1 & l2 & -> & -> & H1 & H2) & Hpid & Hnu).
  pose proof (pids_numbered _ _ _ _ _ _ Hp Hpp Hnu) as Hp1.
  pose proof (pi_ring _ _ Hp1) as Hring. rewrite fmap_app in Hring, Hpp.
  pose proof (ring_at _ _ _ _ _ Hring) as [_ Hbk].
  set (n := after Procq l2.*1) in *. set (b := before Procq l1.*1) in *.
  assert (Hnp : n <> pp).
  { intros E. pose proof (after_elem Procq l2.*1) as Ha. fold n in Ha. rewrite E in Ha. set_solver. }
  apply wp_bind, wp_modify, wp_bind, (wp_lnback _ b); [exact Hbk|]. apply wp_bind, wp_modify, wp_bind.
  apply (wp_lnback _ b); [cbn; by rewrite lookup_insert_ne|]. apply wp_bind, wp_modify, wp_modify.
  exists pid, l1, l2. split_and!; [done| |lia|lia| |exact (nu_procs _ _ _ _ _ Hnu)|..].
  - rewrite fmap_app. intros [Hi|Hi]%elem_of_app; apply list_elem_of_fmap in Hi as (a & -> & Ha).
    + rewrite Forall_forall in H1. specialize (H1 a Ha). lia.
    + rewrite Forall_forall in H2. specialize (H2 a Ha). lia.
  - constructor; cbn.
    + rewrite fmap_app. cbn. by apply ring_insert.
    + pose proof (pi_pid _ _ Hp1) as [F1 F2]%Forall_app. apply Forall_app. split; [done|]. constructor; [|done].
      simpl. by rewrite (nu_procs _ _ _ _ _ Hnu), lookup_insert_eq.
    + pose proof (pi_sorted _ _ Hp1) as HS. apply StronglySorted_app in HS as (S1 & S2 & S3).
      rewrite Forall_forall in H1, H2. apply StronglySorted_app_2; [|done|].
      * intros a d Ha [->|Hd]%elem_of_cons; [by apply H1|by apply S1].
      * constructor; [done|]. apply Forall_forall. intros d Hd. by apply H2.
  - cbn. rewrite (nu_cpid _ _ _ _ _ Hnu). unfold next_pid, NPID in *. destruct (Z.leb_spec 30000 (pid + 1)); lia.
  - cbn. rewrite (nu_cpid _ _ _ _ _ Hnu). unfold next_pid, NPID in *. destruct (Z.leb_spec 30000 (pid + 1)); lia.
  - cbn. pose proof (nu_links _ _ _ _ _ Hnu) as E1. pose proof (nu_rest _ _ _ _ _ Hnu) as E2. congruence.
Qed.

Lemma wp_relproc s l1 l2 pp n : pids s (l1 ++ (pp, n) :: l2) ->
  wp (relproc pp) (fun _ s' => pids s' (l1 ++ l2) /\ procs s' = delete pp (procs s)) s.
Proof.
  intros [Hr Hp HS]. rewrite fmap_app in Hr. cbn [fmap list_fmap fst] in Hr.
  pose proof (ring_at (nforw s) (nback s) Procq l1.*1 (pp :: l2.*1) Hr) as [_ Hb].
  assert (Hf : nforw s !! pp = Some (after Procq l2.*1)).
  { rewrite cons_middle, app_assoc in Hr. apply ring_at in Hr as [Hf _]. by rewrite before_snoc in Hf. }
  change (after Procq (pp :: l2.*1)) with pp in Hb.
  set (b := before Procq l1.*1) in *. set (f := after Procq l2.*1) in *.
  unfold relproc. apply wp_bind, (wp_lnback _ _ _ _ Hb), wp_bind, (wp_lnforw _ _ _ _ Hf), wp_bind, wp_modify, wp_bind.
  pose proof (ring_notin _ _ _ _ _ _ Hr) as Hpp.
  assert (Hbp : b <> pp) by (intros E; pose proof (before_elem Procq l1.*1) as Hi; fold b in Hi; rewrite E in Hi; set_solver).
  apply (wp_lnforw _ f); [cbn; by rewrite lookup_insert_ne|]. apply wp_bind.
  apply (wp_lnback _ b); [done|]. apply wp_bind, wp_modify, wp_modify. split; [|done].
  constructor.
  - rewrite fmap_app. cbn. by apply (ring_remove _ _ _ _ _ _ Hr).
  - apply Forall_app in Hp as [H1 H2%Forall_cons]. apply Forall_app.
    split; apply Forall_forall; intros a Ha; cbn; rewrite lookup_delete_ne.
    all: try (rewrite Forall_forall in H1; by apply H1). all: try (destruct H2 as [_ H2]; rewrite Forall_forall in H2; by apply H2).
    all: intros E; rewrite E in Hpp; apply (list_elem_of_fmap_2 fst) in Ha; set_solver.
  - apply StronglySorted_app in HS as (S1 & S2 & [S3 _]%StronglySorted_inv).
    apply StronglySorted_app_2; [|done..]. intros a d Ha Hd. apply S1; [done|by right].
Qed.

(** With fewer processes than numbers, [process] comes to an end and gives the
    new process a number that no process has, counting on from the last one and
    from 2 again beyond the limit; the list of processes stays in falling
    order of number, and [relproc] takes the process out of it again. *)
Theorem process_relproc_correct (s : sched) (ps : list (ref * Z)) (pp : ref) (x : PROC)
    (Hp : pids s ps) (Hx : procs s !! pp = Some x) (Hhead : pp <> Procq) (Hnew : pp ∉ ps.*1)
    (Hsize : (length ps < size (procs s))%nat) (Hroom : Z.of_nat (length ps) < NPID - 2) (Hc : 0 <= cpid s < NPID) :
  exists s' pid l1 l2, process_link pp s = Ret tt s' /\ ps = l1 ++ l2 /\ (pid ∉ ps.*2) /\ 0 <= pid < NPID /\
    pids s' (l1 ++ (pp, pid) :: l2) /\ procs s' = <[pp := set_p_pid pid x]> (procs s) /\ 0 <= cpid s' < NPID /\
    exists s'', relproc pp s' = Ret tt s'' /\ pids s'' ps /\ procs s'' = delete pp (procs s).
Proof.
  pose proof (wp_process_link s ps pp x Hp Hx Hhead Hnew Hsize Hroom Hc) as H.
  apply wp_returns in H as ([] & s' & E & pid & l1 & l2 & Hl & Hf & Hr & Hp' & Hprocs & Hc' & _).
  exists s', pid, l1, l2. split; [done|]. split; [done|]. split; [done|]. split; [done|]. split; [done|].
  split; [done|]. split; [done|].
  pose proof (wp_relproc s' l1 l2 pp pid Hp') as H. apply wp_returns in H as ([] & s'' & E'' & Hp'' & Hd).
  exists s''. rewrite Hl. split; [done|]. split; [done|]. rewrite Hd, Hprocs. apply delete_insert_eq.
Qed.

(** Two processes, and the next number the last one there is: the new process
    gets it, and the count goes back to 2. *)
Definition two_procs : sched :=
  Sch ∅ ∅ {[Procq := Pr 1; Pr 1 := Pr 0; Pr 0 := Procq]} {[Procq := Pr 0; Pr 0 := Pr 1; Pr 1 := Procq]}
    {[Procq := Proc 0 0 0 0 0 0 0 0 0 0; Pr 0 := Proc 0 2 1 0 0 0 0 0 0 0; Pr 1 := Proc 29999 2 1 0 0 0 0 0 0 0;
      Pr 2 := Proc 0 2 1 0 0 0 0 0 0 0]}
    (Pr 1) (Pr 0) 29999 0 10 0.

Lemma process_relproc_correct_witness :
  exists s' pid, process_link (Pr 2) two_procs = Ret tt s' /\ (pid ∉ [29999; 0]) /\ cpid s' = 3.
Proof.
  destruct (process_relproc_correct two_procs [(Pr 1, 29999); (Pr 0, 0)] (Pr 2) (Proc 0 2 1 0 0 0 0 0 0 0))
    as (s' & pid & l1 & l2 & E & _ & Hf & _).
  - constructor.
    + split; [vm_compute; done|]. repeat constructor; set_solver.
    + repeat constructor; vm_compute; reflexivity.
    + repeat constructor; vm_compute; reflexivity.
  - reflexivity.
  - done.
  - set_solver.
  - vm_compute. lia.
  - done.
  - done.
  - exists s', pid. split; [exact E|]. split; [exact Hf|].
    assert (E' := E). vm_compute in E'. injection E' as <-. reflexivity.
Defined.
