(* ===== verification/Kheap.v ===== *)
(** Kernel storage as its users see it: [kalloc] and [kfree] of
    z8001/h/coherent.h, which are [alloc(allkp, n)] and [free(p)].

    [Kheap] is what the users call and [KheapLaws] what they rely on: [kalloc]
    returns, with a block that is nobody's and stays its owner's until
    [kfree], or with NULL, and NULL exactly when the storage is full for a
    block of that size; [kfree] of an owned block returns and changes nobody
    else's.  The arena of Alloc.v is an instance: its procedures are run on
    the arena as they are, so that a panic of theirs is one of the caller's.
    The contents of a block are not here: users keep their structures typed, in
    maps over the addresses of their blocks. *)
From S2P Require Import Prelude Sched Alloc.
Local Open Scope Z_scope.
Local Open Scope kernel_scope.

Class Kheap (H : Type) := {
  kalloc : Z -> M H (option Z);
  kfree : Z -> M H unit;
  owned : H -> Z -> Prop;
  kvalid : H -> Prop;
  kfull : Z -> H -> Prop
}.

Class KheapLaws (H : Type) `{Kheap H} := {
  kalloc_law n h : kvalid h -> 0 <= n <= 65532 ->
    wp (kalloc n) (fun r h' => kvalid h' /\ (r = None <-> kfull n h) /\
      match r with
      | Some p => 0 < p /\ ~ owned h p /\ forall q, owned h' q <-> q = p \/ owned h q
      | None => forall q, owned h' q <-> owned h q
      end) h;
  kfree_law p h : kvalid h -> owned h p ->
    wp (kfree p) (fun _ h' => kvalid h' /\ forall q, owned h' q <-> owned h q /\ q <> p) h
}.

(** ** The arena as an instance *)

Record aheap := AHeap { ah_mem : memory; ah_apq : Z; ah_end : Z; ah_kend : Z }.

Definition set_ah_mem (m : memory) (h : aheap) : aheap := AHeap m (ah_apq h) (ah_end h) (ah_kend h).

(** Enough for the blocks that fit between the two ends. *)
Definition ah_fuel (h : aheap) : nat := S (Z.to_nat (ah_end h - ah_apq h)).

(** A procedure of alloc.c on the memory of the arena. *)
Definition in_arena {A} : M astate A -> M aheap A :=
  zoom (fun h => AState (ah_mem h) 0) (fun s => set_ah_mem (a_mem s)).

Definition ah_alloc (n : Z) : M aheap (option Z) :=
  h <- get ;; p <- in_arena (alloc (ah_fuel h) (ah_apq h) n) ;; kret (if p =? 0 then None else Some p).

Definition ah_free (p : Z) : M aheap unit :=
  h <- get ;; in_arena (free (ah_kend h) p).

Definition ah_blocks (h : aheap) (bs : list (Z * bool)) : Prop :=
  arena (ah_mem h) (ah_apq h) (ah_end h) bs /\ ah_kend h <= ah_apq h.

Definition ah_owned (h : aheap) (p : Z) : Prop :=
  exists bs, ah_blocks h bs /\ (p - 4, true) ∈ bs.

(** No run of free blocks has the units that [n] bytes and their header take. *)
Definition ah_full (n : Z) (h : aheap) : Prop :=
  exists bs, ah_blocks h bs /\ no_fit 1 (1 + (n + 3) / 4) (coal bs) (ah_end h).

#[export] Instance ah_kheap : Kheap aheap := {
  kalloc := ah_alloc;
  kfree := ah_free;
  owned := ah_owned;
  kvalid h := exists bs, ah_blocks h bs;
  kfull := ah_full
}.

(** A chain of headers is read off memory in one way only. *)
Lemma seg_unique m z l1 : forall l2, Z.even z = true -> seg m l1 z -> seg m l2 z ->
  hd_addr l1 z = hd_addr l2 z -> l1 = l2.
Proof.
  induction l1 as [|[a u] l1 IH]; intros [|[b v] l2] Hz H1 H2 Hh; simpl in *; [done| | |].
  - destruct H2 as (_ & _ & _ & Hle & Hs). apply seg_le in Hs as [? _]. lia.
  - destruct H1 as (_ & _ & _ & Hle & Hs). apply seg_le in Hs as [? _]. lia.
  - subst b. destruct H1 as (E1 & _ & _ & _ & S1), H2 as (E2 & _ & _ & _ & S2).
    pose proof (hd_even _ _ _ S1 Hz) as [x Ex]%Z.even_spec. pose proof (hd_even _ _ _ S2 Hz) as [y Ey]%Z.even_spec.
    assert (u = v /\ hd_addr l1 z = hd_addr l2 z) as [<- Eh] by (destruct u, v; simpl in *; split; try done; lia).
    f_equal. by apply IH.
Qed.

Lemma arena_unique m a z l1 l2 : arena m a z l1 -> arena m a z l2 -> l1 = l2.
Proof.
  intros [S1 H1 _ _ Ez _ _] [S2 H2 _ _ _ _ _]. eapply seg_unique; [exact Ez|done..|congruence].
Qed.

Lemma seg_length m l z : seg m l z -> Z.of_nat (length l) <= z - hd_addr l z.
Proof.
  induction l as [|[a u] l IH]; simpl; [lia|]. intros (_ & _ & _ & Hle & Hs). specialize (IH Hs). lia.
Qed.

Lemma live_elem l z a : (exists nx, (a, nx) ∈ live l z) <-> (a, true) ∈ l.
Proof.
  induction l as [|[b u] l IH]; simpl.
  - split; [by intros (nx & ?%not_elem_of_nil)|by intros ?%not_elem_of_nil].
  - rewrite elem_of_cons, <- IH. split.
    + intros (nx & [H|H]%elem_of_app); [|by right; exists nx].
      destruct u; [|by apply not_elem_of_nil in H]. apply list_elem_of_singleton in H as [= -> ->]. by left.
    + intros [[= <- <-]|(nx & H)]; [exists (hd_addr l z); by left|exists nx].
      apply elem_of_app. by right.
Qed.

Lemma owned_live h bs p : ah_blocks h bs -> ah_owned h p <-> exists nx, (p - 4, nx) ∈ live bs (ah_end h).
Proof.
  intros Hb. rewrite live_elem. split; [|by exists bs].
  intros (bs' & [Hb' _] & Hin). destruct Hb as [Hb _]. by rewrite (arena_unique _ _ _ _ _ Hb Hb').
Qed.

Lemma live_fst_nodup m l z : seg m l z -> NoDup (live l z).*1.
Proof.
  intros Hs. induction l as [|[a u] l IH]; simpl; [constructor|]. simpl in Hs.
  destruct Hs as (_ & _ & _ & Hle & Hs). destruct u; simpl; [|by apply IH]. constructor; [|by apply IH].
  intros ([b nx] & E & Hin)%list_elem_of_fmap. simpl in E. subst b. apply (live_range _ _ _ _ _ Hs) in Hin. lia.
Qed.

(** [alloc] finds room exactly when there is some. *)
Lemma fit_not_full h bs n p : ah_blocks h bs -> 0 <= n <= 65532 ->
  alloc_fit (alloc_units n) bs (ah_end h) p -> ~ ah_full n h.
Proof.
  intros [Hb _] Hn [(x & y & Ec & Hle & _)] (bs' & [Hb' _] & Hno).
  rewrite (arena_unique _ _ _ _ _ Hb' Hb), <- (proj1 (alloc_units_spec n Hn)) in Hno.
  specialize (Hno x (p - 4) y Ec). unfold fits in Hno. simpl in Hno. apply Z.leb_gt in Hno. lia.
Qed.

Lemma ah_alloc_law n h : kvalid h -> 0 <= n <= 65532 ->
  wp (ah_alloc n) (fun r h' => kvalid h' /\ (r = None <-> ah_full n h) /\
    match r with
    | Some p => 0 < p /\ ~ ah_owned h p /\ forall q, ah_owned h' q <-> q = p \/ ah_owned h q
    | None => forall q, ah_owned h' q <-> ah_owned h q
    end) h.
Proof.
  intros [bs [Har Hk]] Hn. apply wp_bind. unfold wp at 1. cbn [get]. apply wp_bind, wp_zoom.
  assert (Hfu : (length bs < ah_fuel h)%nat).
  { pose proof (seg_length _ _ _ (ar_seg _ _ _ _ Har)) as Hl. rewrite (ar_hd _ _ _ _ Har) in Hl.
    unfold ah_fuel. lia. }
  destruct (alloc_spec (ah_fuel h) (ah_mem h) 0 (ah_apq h) (ah_end h) bs n Har Hn Hfu)
    as (m' & _ & [(p & E & [(bs' & nx & Har' & Hlive & _ & _) Hp _ _] & Hfit)|(E & Har' & Hlive & Hno)]);
    unfold wp at 1; rewrite E; apply wp_ret; cbn [a_mem].
  - rewrite (proj2 (Z.eqb_neq p 0)) by lia.
    assert (Hb' : ah_blocks (set_ah_mem m' h) bs') by done.
    assert (Hfresh : ~ ah_owned h p).
    { intros (mx & Hin)%(owned_live h bs); [|done].
      pose proof (live_fst_nodup _ _ _ (ar_seg _ _ _ _ Har')) as Hnd. rewrite Hlive in Hnd. cbn in Hnd.
      apply NoDup_cons in Hnd as [Hnd _]. apply Hnd. by apply (list_elem_of_fmap_2 fst) in Hin. }
    split; [by exists bs'|]. split; [split; [done|intros Hf; by edestruct (fit_not_full h bs n p)]|].
    split; [done|]. split; [done|].
    intros q. rewrite (owned_live _ bs' q Hb'), (owned_live h bs q) by done. cbn [ah_end set_ah_mem].
    setoid_rewrite Hlive. setoid_rewrite elem_of_cons. split.
    + intros (mx & [[= E' _]|Hin]); [left; lia|right; by exists mx].
    + intros [->|(mx & Hin)]; [exists nx; by left|exists mx; by right].
  - rewrite Z.eqb_refl. assert (Hb' : ah_blocks (set_ah_mem m' h) (coal bs)) by done.
    split; [by exists (coal bs)|]. split.
    { split; [|done]. intros _. exists bs. split; [done|]. by rewrite <- (proj1 (alloc_units_spec n Hn)). }
    intros q. rewrite (owned_live _ _ q Hb'), (owned_live h bs q) by done.
    cbn [ah_end set_ah_mem]. by rewrite Hlive.
Qed.

(** The chain is a list of distinct addresses, so freeing a block changes the
    mark of that one and no other. *)
Lemma free_elem m z l1 a l2 b : seg m (l1 ++ (a, true) :: l2) z ->
  (b, true) ∈ l1 ++ (a, false) :: l2 <-> (b, true) ∈ l1 ++ (a, true) :: l2 /\ b <> a.
Proof.
  intros Hs. apply seg_app in Hs as [H1 (_ & _ & _ & Hle & H2)]. simpl in H1.
  assert (Hn1 : (a, true) ∉ l1) by (intros Hin; apply (seg_le _ _ _ H1) in Hin; lia).
  assert (Hn2 : (a, true) ∉ l2) by (intros Hin; apply (seg_le _ _ _ H2) in Hin; lia).
  rewrite !elem_of_app, !elem_of_cons. split.
  - intros [H|[[=]|H]]; (split; [tauto|]); by intros ->.
  - intros [[H|[[= ->]|H]] Hne]; [by left|done|by right; right].
Qed.

Lemma ah_free_law p h : kvalid h -> ah_owned h p ->
  wp (ah_free p) (fun _ h' => kvalid h' /\ forall q, ah_owned h' q <-> ah_owned h q /\ q <> p) h.
Proof.
  intros _ (bs & [Har Hk] & (l1 & l2 & ->)%list_elem_of_split). apply wp_bind. unfold wp at 1. cbn [get]. apply wp_zoom.
  pose proof (free_spec (ah_kend h) (ah_mem h) 0 (ah_apq h) (ah_end h) l1 (p - 4) true l2 Har) as Hf.
  assert (Hge : ah_apq h <= p - 4).
  { rewrite <- (ar_hd _ _ _ _ Har). destruct (seg_le _ _ _ (ar_seg _ _ _ _ Har)) as [_ Hin]. apply (Hin (p - 4) true). set_solver. }
  rewrite (proj2 (Z.leb_le (ah_kend h) (p - 4))) in Hf by lia. cbn [andb] in Hf.
  destruct Hf as (m' & E & Har' & _). rewrite Z.sub_add in E. unfold wp. rewrite E. cbn [a_mem].
  assert (Hb' : ah_blocks (set_ah_mem m' h) (l1 ++ (p - 4, false) :: l2)) by done.
  split; [by eexists|]. intros q. rewrite (owned_live _ _ q Hb'), live_elem.
  rewrite (owned_live h (l1 ++ (p - 4, true) :: l2) q), live_elem by done.
  rewrite (free_elem _ _ _ _ _ _ (ar_seg _ _ _ _ Har)). split; intros [H1 H2]; (split; [done|]); lia.
Qed.

#[export] Instance ah_laws : KheapLaws aheap := {
  kalloc_law := ah_alloc_law;
  kfree_law := ah_free_law
}.

(** ** A small arena for the examples: 256 bytes with nothing in it *)

Definition small_heap : aheap := AHeap (stl (stl (fun _ => 0) 1000 1256) 1256 1001) 1000 1256 1000.

Lemma small_heap_valid : kvalid small_heap /\ forall p, ~ owned small_heap p.
Proof.
  assert (Har : ah_blocks small_heap [(1000, false)]).
  { split; [|done]. split; vm_compute; try done; repeat split; done. }
  split; [by eexists|]. intros p (nx & H)%(owned_live _ _ p Har). by apply not_elem_of_nil in H.
Qed.

(** The block that is handed out, and the arena that is left. *)
Definition ah_block (n : Z) (h : aheap) : option Z := match ah_alloc n h with Ret r _ => r | _ => None end.
Definition ah_after (n : Z) (h : aheap) : aheap := match ah_alloc n h with Ret _ h' => h' | _ => h end.

Lemma ah_after_ok n h p : kvalid h -> 0 <= n <= 65532 -> ah_block n h = Some p ->
  kvalid (ah_after n h) /\ forall q, owned (ah_after n h) q <-> q = p \/ owned h q.
Proof.
  intros Hv Hn. pose proof (ah_alloc_law n h Hv Hn) as Hw. unfold wp in Hw. unfold ah_block, ah_after.
  destruct (ah_alloc n h) as [r h'| | |]; try done. intros ->. destruct Hw as (Hv' & _ & _ & _ & Ho). by split.
Qed.
