(* ===== verification/Seg.v ===== *)
(** Segments: the pieces of core that processes own (kernel/coh/seg.c and the
    parts of kernel/z8001/src/commodore.c that load them into the MMU).

    The descriptors of the segments in core are on a ring headed by [segmq], by
    rising address, those on the swap device on one headed by [segdq].  Core is
    allotted in clicks of 1024 bytes.  A descriptor lives in a block of the
    kernel heap (Kheap.v) and is found here at its address in [segd]; the two
    links come apart from it, as a queue head has them too.

    Code here runs without interruption between its sleeps; a gate is taken or
    free.  What a process knows of its segments is a [PSEG], and [procl] has one
    for each process, in the order of the list that Pids.v is about. *)
From S2P Require Import Prelude Sched Dlist Kheap.
Local Open Scope Z_scope.
Local Open Scope kernel_scope.

Inductive sref := Segmq | Segdq | Sg (p : Z).

#[export] Instance sref_eq_dec : EqDecision sref.
Proof. solve_decision. Defined.

#[export] Instance sref_countable : Countable sref.
Proof.
  refine (inj_countable' (fun r => match r with Segmq => inl false | Segdq => inl true | Sg p => inr p end)
    (fun x => match x with inl false => Segmq | inl true => Segdq | inr p => Sg p end) _).
  by intros [].
Defined.

Record SEG := Seg {
  s_ip : option Z;
  s_flags : Z;
  s_urefc : Z;
  s_lrefc : Z;
  s_size : Z;
  s_mbase : Z;
  s_dbase : Z
}.

Definition set_s_ip v x := Seg v (s_flags x) (s_urefc x) (s_lrefc x) (s_size x) (s_mbase x) (s_dbase x).
Definition set_s_flags v x := Seg (s_ip x) v (s_urefc x) (s_lrefc x) (s_size x) (s_mbase x) (s_dbase x).
Definition set_s_urefc v x := Seg (s_ip x) (s_flags x) v (s_lrefc x) (s_size x) (s_mbase x) (s_dbase x).
Definition set_s_lrefc v x := Seg (s_ip x) (s_flags x) (s_urefc x) v (s_size x) (s_mbase x) (s_dbase x).
Definition set_s_size v x := Seg (s_ip x) (s_flags x) (s_urefc x) (s_lrefc x) v (s_mbase x) (s_dbase x).
Definition set_s_mbase v x := Seg (s_ip x) (s_flags x) (s_urefc x) (s_lrefc x) (s_size x) v (s_dbase x).
Definition set_s_dbase v x := Seg (s_ip x) (s_flags x) (s_urefc x) (s_lrefc x) (s_size x) (s_mbase x) v.

(** What [kalloc] returns is clear. *)
Definition seg0 : SEG := Seg None 0 0 0 0 0 0.

Definition SFCORE : Z := 1.
Definition SFDOWN : Z := 2.
Definition SFSHRX : Z := 4.
Definition SFTEXT : Z := 8.
Definition SFHIGH : Z := 16.
Definition SFSYST : Z := 32.
Definition SFNSWP : Z := 16384.
Definition SFNCLR : Z := 32768.

(** A process: [p_flags], and [p_segp] with [NUSEG] segments and the auxiliary one. *)
Record PSEG := Pseg { pp_flags : Z; pp_segp : list (option Z) }.
Definition set_pp_flags v p := Pseg v (pp_segp p).
Definition set_pp_segp v p := Pseg (pp_flags p) v.

Definition NUSEG : Z := 8.
Definition SIUSERP : Z := 0.
Definition SISTACK : Z := 1.
Definition SISSLIB : Z := 2.
Definition SIPSLIB : Z := 3.
Definition SISTEXT : Z := 4.
Definition SIPTEXT : Z := 5.
Definition SISDATA : Z := 6.
Definition SIPDATA : Z := 7.
Definition SIAUXIL : Z := 8.
Definition PFCORE : Z := 1.
Definition PFLOCK : Z := 2.
Definition PFSWIO : Z := 4.
Definition PFSWAP : Z := 8.
Definition PFKERN : Z := 128.
Definition PFSPROTO : Z := 2048.
Definition PFSLIB : Z := 4096.
Definition MSSIZE : Z := 64.
Definition ENOMEM : Z := 12.
Definition sizeof_SEG : Z := 24.

(** A segment as the user area and as the MMU has it. *)
Record SR := Sr { sr_flag : Z; sr_base : Z; sr_size : Z; sr_segp : option Z }.
Record hsegs := Hseg { mp_base : Z; mp_len : Z; mp_attr : Z }.

(** The operations on inodes that segments call. *)
Class Inodes (I : Type) := { ldetach : Z -> M I unit; iref : Z -> I -> I }.

Definition btocru (n : Z) : Z := u16 (Z.shiftr (s32 (n + 1023)) 10).
Definition ctob (n : Z) : Z := s32 (Z.shiftl n 10).
Definition stod (n : Z) : Z := u16 (Z.shiftl n 1).

Section Seg.
Context {H : Type} `{!Kheap H} {I : Type} `{!Inodes I}.

Record segst := Sst {
  s_forw : gmap sref sref;
  s_back : gmap sref sref;
  segd : gmap Z SEG;
  heap : H;
  inodes : I;
  procl : list PSEG;
  self : nat;
  ram : Z -> Z;
  u_segl : list SR;
  mp_nseg : Z;
  mp_hsegs : list hsegs;
  mmu : list hsegs;
  corebot : Z;
  coretop : Z;
  swapbot : Z;
  swaptop : Z;
  sexflag : Z;
  seglink : bool;
  pnxgate : bool;
  swapgate : bool;
  swapreq : option (bool * Z * Z * Z);
  swaperr : bool;
  segpacks : Z;
  segpackc : Z;
  u_error : Z;
  ubase : Z                      (* the address of u *)
}.

Definition set_s_forw v x := Sst v (s_back x) (segd x) (heap x) (inodes x) (procl x) (self x) (ram x) (u_segl x) (mp_nseg x) (mp_hsegs x) (mmu x) (corebot x) (coretop x) (swapbot x) (swaptop x) (sexflag x) (seglink x) (pnxgate x) (swapgate x) (swapreq x) (swaperr x) (segpacks x) (segpackc x) (u_error x) (ubase x).
Definition set_s_back v x := Sst (s_forw x) v (segd x) (heap x) (inodes x) (procl x) (self x) (ram x) (u_segl x) (mp_nseg x) (mp_hsegs x) (mmu x) (corebot x) (coretop x) (swapbot x) (swaptop x) (sexflag x) (seglink x) (pnxgate x) (swapgate x) (swapreq x) (swaperr x) (segpacks x) (segpackc x) (u_error x) (ubase x).
Definition set_segd v x := Sst (s_forw x) (s_back x) v (heap x) (inodes x) (procl x) (self x) (ram x) (u_segl x) (mp_nseg x) (mp_hsegs x) (mmu x) (corebot x) (coretop x) (swapbot x) (swaptop x) (sexflag x) (seglink x) (pnxgate x) (swapgate x) (swapreq x) (swaperr x) (segpacks x) (segpackc x) (u_error x) (ubase x).
Definition set_heap v x := Sst (s_forw x) (s_back x) (segd x) v (inodes x) (procl x) (self x) (ram x) (u_segl x) (mp_nseg x) (mp_hsegs x) (mmu x) (corebot x) (coretop x) (swapbot x) (swaptop x) (sexflag x) (seglink x) (pnxgate x) (swapgate x) (swapreq x) (swaperr x) (segpacks x) (segpackc x) (u_error x) (ubase x).
Definition set_inodes v x := Sst (s_forw x) (s_back x) (segd x) (heap x) v (procl x) (self x) (ram x) (u_segl x) (mp_nseg x) (mp_hsegs x) (mmu x) (corebot x) (coretop x) (swapbot x) (swaptop x) (sexflag x) (seglink x) (pnxgate x) (swapgate x) (swapreq x) (swaperr x) (segpacks x) (segpackc x) (u_error x) (ubase x).
Definition set_procl v x := Sst (s_forw x) (s_back x) (segd x) (heap x) (inodes x) v (self x) (ram x) (u_segl x) (mp_nseg x) (mp_hsegs x) (mmu x) (corebot x) (coretop x) (swapbot x) (swaptop x) (sexflag x) (seglink x) (pnxgate x) (swapgate x) (swapreq x) (swaperr x) (segpacks x) (segpackc x) (u_error x) (ubase x).
Definition set_ram v x := Sst (s_forw x) (s_back x) (segd x) (heap x) (inodes x) (procl x) (self x) v (u_segl x) (mp_nseg x) (mp_hsegs x) (mmu x) (corebot x) (coretop x) (swapbot x) (swaptop x) (sexflag x) (seglink x) (pnxgate x) (swapgate x) (swapreq x) (swaperr x) (segpacks x) (segpackc x) (u_error x) (ubase x).
Definition set_u_segl v x := Sst (s_forw x) (s_back x) (segd x) (heap x) (inodes x) (procl x) (self x) (ram x) v (mp_nseg x) (mp_hsegs x) (mmu x) (corebot x) (coretop x) (swapbot x) (swaptop x) (sexflag x) (seglink x) (pnxgate x) (swapgate x) (swapreq x) (swaperr x) (segpacks x) (segpackc x) (u_error x) (ubase x).
Definition set_mp_nseg v x := Sst (s_forw x) (s_back x) (segd x) (heap x) (inodes x) (procl x) (self x) (ram x) (u_segl x) v (mp_hsegs x) (mmu x) (corebot x) (coretop x) (swapbot x) (swaptop x) (sexflag x) (seglink x) (pnxgate x) (swapgate x) (swapreq x) (swaperr x) (segpacks x) (segpackc x) (u_error x) (ubase x).
Definition set_mp_hsegs v x := Sst (s_forw x) (s_back x) (segd x) (heap x) (inodes x) (procl x) (self x) (ram x) (u_segl x) (mp_nseg x) v (mmu x) (corebot x) (coretop x) (swapbot x) (swaptop x) (sexflag x) (seglink x) (pnxgate x) (swapgate x) (swapreq x) (swaperr x) (segpacks x) (segpackc x) (u_error x) (ubase x).
Definition set_mmu v x := Sst (s_forw x) (s_back x) (segd x) (heap x) (inodes x) (procl x) (self x) (ram x) (u_segl x) (mp_nseg x) (mp_hsegs x) v (corebot x) (coretop x) (swapbot x) (swaptop x) (sexflag x) (seglink x) (pnxgate x) (swapgate x) (swapreq x) (swaperr x) (segpacks x) (segpackc x) (u_error x) (ubase x).
Definition set_seglink v x := Sst (s_forw x) (s_back x) (segd x) (heap x) (inodes x) (procl x) (self x) (ram x) (u_segl x) (mp_nseg x) (mp_hsegs x) (mmu x) (corebot x) (coretop x) (swapbot x) (swaptop x) (sexflag x) v (pnxgate x) (swapgate x) (swapreq x) (swaperr x) (segpacks x) (segpackc x) (u_error x) (ubase x).
Definition set_pnxgate v x := Sst (s_forw x) (s_back x) (segd x) (heap x) (inodes x) (procl x) (self x) (ram x) (u_segl x) (mp_nseg x) (mp_hsegs x) (mmu x) (corebot x) (coretop x) (swapbot x) (swaptop x) (sexflag x) (seglink x) v (swapgate x) (swapreq x) (swaperr x) (segpacks x) (segpackc x) (u_error x) (ubase x).
Definition set_swapgate v x := Sst (s_forw x) (s_back x) (segd x) (heap x) (inodes x) (procl x) (self x) (ram x) (u_segl x) (mp_nseg x) (mp_hsegs x) (mmu x) (corebot x) (coretop x) (swapbot x) (swaptop x) (sexflag x) (seglink x) (pnxgate x) v (swapreq x) (swaperr x) (segpacks x) (segpackc x) (u_error x) (ubase x).
Definition set_swapreq v x := Sst (s_forw x) (s_back x) (segd x) (heap x) (inodes x) (procl x) (self x) (ram x) (u_segl x) (mp_nseg x) (mp_hsegs x) (mmu x) (corebot x) (coretop x) (swapbot x) (swaptop x) (sexflag x) (seglink x) (pnxgate x) (swapgate x) v (swaperr x) (segpacks x) (segpackc x) (u_error x) (ubase x).
Definition set_swaperr v x := Sst (s_forw x) (s_back x) (segd x) (heap x) (inodes x) (procl x) (self x) (ram x) (u_segl x) (mp_nseg x) (mp_hsegs x) (mmu x) (corebot x) (coretop x) (swapbot x) (swaptop x) (sexflag x) (seglink x) (pnxgate x) (swapgate x) (swapreq x) v (segpacks x) (segpackc x) (u_error x) (ubase x).
Definition set_segpacks v x := Sst (s_forw x) (s_back x) (segd x) (heap x) (inodes x) (procl x) (self x) (ram x) (u_segl x) (mp_nseg x) (mp_hsegs x) (mmu x) (corebot x) (coretop x) (swapbot x) (swaptop x) (sexflag x) (seglink x) (pnxgate x) (swapgate x) (swapreq x) (swaperr x) v (segpackc x) (u_error x) (ubase x).
Definition set_segpackc v x := Sst (s_forw x) (s_back x) (segd x) (heap x) (inodes x) (procl x) (self x) (ram x) (u_segl x) (mp_nseg x) (mp_hsegs x) (mmu x) (corebot x) (coretop x) (swapbot x) (swaptop x) (sexflag x) (seglink x) (pnxgate x) (swapgate x) (swapreq x) (swaperr x) (segpacks x) v (u_error x) (ubase x).
Definition set_u_error v x := Sst (s_forw x) (s_back x) (segd x) (heap x) (inodes x) (procl x) (self x) (ram x) (u_segl x) (mp_nseg x) (mp_hsegs x) (mmu x) (corebot x) (coretop x) (swapbot x) (swaptop x) (sexflag x) (seglink x) (pnxgate x) (swapgate x) (swapreq x) (swaperr x) (segpacks x) (segpackc x) v (ubase x).

(** Reading and writing through a pointer. *)
Definition rds (p : Z) : M segst SEG := s <- get ;; deref (segd s !! p).
Definition wrs (p : Z) (g : SEG -> SEG) : M segst unit :=
  x <- rds p ;; modify (fun s => set_segd (<[p := g x]> (segd s)) s).
Definition forw (p : sref) : M segst sref := s <- get ;; deref (s_forw s !! p).
Definition back (p : sref) : M segst sref := s <- get ;; deref (s_back s !! p).
Definition set_forw (p v : sref) : M segst unit := modify (fun s => set_s_forw (<[p := v]> (s_forw s)) s).
Definition set_back (p v : sref) : M segst unit := modify (fun s => set_s_back (<[p := v]> (s_back s)) s).
Definition seterr (e : Z) : M segst unit := modify (set_u_error e).

Definition rdp (k : nat) : M segst PSEG := s <- get ;; deref (procl s !! k).
Definition wrp (k : nat) (g : PSEG -> PSEG) : M segst unit :=
  x <- rdp k ;; modify (fun s => set_procl (<[k := g x]> (procl s)) s).
(** [p_segp[n]]. *)
Definition segp (k : nat) (n : Z) : M segst (option Z) := x <- rdp k ;; deref (pp_segp x !! Z.to_nat n).
Definition set_segp (k : nat) (n : Z) (v : option Z) : M segst unit :=
  wrp k (fun x => set_pp_segp (<[Z.to_nat n := v]> (pp_segp x)) x).
Definition on_inodes (m : M I unit) : M segst unit := fun s =>
  let fix run (o : out I unit) : out segst unit :=
    match o with
    | Ret _ i => Ret tt (set_inodes i s)
    | Sleep ch i k => Sleep ch (set_inodes i s) (fun s' => run (k (inodes s')))
    | Stop w => Stop w
    | NoFuel => NoFuel
    end in run (m (inodes s)).

Definition set_flags (f : Z) (x : Z) : Z := Z.lor x f.
Definition clr_flags (f : Z) (x : Z) : Z := Z.land x (Z.lnot f).

(** A descriptor from the kernel heap, clear; NULL sets the error of [alloc]. *)
Definition segalloc : M segst (option Z) :=
  r <- zoom heap set_heap (kalloc sizeof_SEG) ;;
  match r with
  | Some p => modify (fun s => set_segd (<[p := seg0]> (segd s)) s) ;;; kret (Some p)
  | None => seterr Alloc.EKSPACE ;;; kret None
  end.

Definition segfree (p : Z) : M segst unit :=
  zoom heap set_heap (kfree p) ;;; modify (fun s => set_segd (delete p (segd s)) s).

(** [seginit] *)
Definition seginit (s : segst) : segst :=
  set_s_back (<[Segdq := Segdq]> (<[Segmq := Segmq]> (s_back s)))
    (set_s_forw (<[Segdq := Segdq]> (<[Segmq := Segmq]> (s_forw s))) s).

(** ** Core

    Core is bytes at physical addresses.  The MMU takes addresses in units of
    256 bytes, so a click is shifted by 2, in 16 bits; [slrcopy] shifts both of
    its addresses as one long, from which a bit of the second may carry into
    the first. *)
Definition clear_click (h : Z) (m : Z -> Z) : Z -> Z := fun x =>
  if (256 * h <=? x) && (x <? 256 * h + 1024) then 0 else m x.

Definition copy_click (f t : Z) (m : Z -> Z) : Z -> Z := fun x =>
  if (256 * t <=? x) && (x <? 256 * t + 1024) then m (x - 256 * t + 256 * f) else m x.

(** The count of [sclear] is tested as a signed number after it is decremented. *)
Fixpoint sclear_loop (n : nat) (h : Z) (m : Z -> Z) : Z -> Z :=
  match n with
  | O => m
  | S n => sclear_loop n (u16 (h + 4)) (clear_click h m)
  end.
Definition sclear_ram (a n : Z) (m : Z -> Z) : Z -> Z :=
  sclear_loop (Z.to_nat (if n <=? 32768 then n else 0)) (u16 (4 * a)) m.

Fixpoint slrcopy_loop (n : nat) (f t : Z) (m : Z -> Z) : Z -> Z :=
  match n with
  | O => m
  | S n => slrcopy_loop n (u16 (f + 4)) (u16 (t + 4)) (copy_click f t m)
  end.
Definition slrcopy_ram (f t n : Z) (m : Z -> Z) : Z -> Z :=
  let ft := u32 (4 * (f * 65536 + t)) in
  slrcopy_loop (Z.to_nat n) (ft / 65536) (ft mod 65536) m.

Fixpoint srlcopy_loop (n : nat) (s1 s2 : Z) (m : Z -> Z) : Z -> Z :=
  match n with
  | O => m
  | S n => let s1 := u16 (s1 - 1) in let s2 := u16 (s2 - 1) in srlcopy_loop n s1 s2 (slrcopy_ram s1 s2 1 m)
  end.
Definition srlcopy_ram (s1 s2 n : Z) (m : Z -> Z) : Z -> Z :=
  srlcopy_loop (Z.to_nat n) (u16 (s1 + n)) (u16 (s2 + n)) m.

Definition sclear (a n : Z) : M segst unit := modify (fun s => set_ram (sclear_ram a n (ram s)) s).
Definition slrcopy (f t n : Z) : M segst unit := modify (fun s => set_ram (slrcopy_ram f t n (ram s)) s).
Definition srlcopy (f t n : Z) : M segst unit := modify (fun s => set_ram (srlcopy_ram f t n (ram s)) s).

(** ** Gates *)

(** A process that is woken may find the gate taken again; [retry] bounds how often. *)
Fixpoint glock (retry : nat) (g : segst -> bool) (put : bool -> segst -> segst) (ch : chan) : M segst unit :=
  match retry with
  | O => nofuel
  | S retry =>
    b <- gets g ;;
    if (b : bool) then sleep ch ;;; glock retry g put ch else modify (put true)
  end.

Variable retry : nat.

Definition lock_seglink : M segst unit := glock retry seglink set_seglink (ChGate 1).
Definition unlock_seglink : M segst unit := modify (set_seglink false).
Definition lock_pnxgate : M segst unit := glock retry pnxgate set_pnxgate (ChGate 2).
Definition unlock_pnxgate : M segst unit := modify (set_pnxgate false).

(** ** Taking and giving back core and swap space *)

(** The new descriptor [p] linked in between [b] and [f], by the stores of
    [smalloc], [sdalloc] and (in its own order) [shalloc]. *)
Definition link_before (p f : sref) : M segst unit :=
  b <- back f ;; set_forw b p ;;;
  b <- back f ;; set_back p b ;;;
  set_back f p ;;;
  set_forw p f.
Definition link_after (p b : sref) : M segst unit :=
  f <- forw b ;; set_back f p ;;;
  f <- forw b ;; set_forw p f ;;;
  set_forw b p ;;;
  set_back p b.

Definition seg_init (s : Z) (x : SEG) : SEG := set_s_size s (set_s_lrefc 1 (set_s_urefc 1 x)).

Fixpoint smalloc_loop (fuel : nat) (s : Z) (sp1 : sref) (s1 : Z) : M segst (option Z) :=
  match fuel with
  | O => nofuel
  | S fuel =>
    sp1 <- forw sp1 ;;
    s2 <- match sp1 with Sg p => x <- rds p ;; kret (s_mbase x) | _ => gets coretop end ;;
    if s <=? u16 (s2 - s1) then
      r <- segalloc ;;
      match r with
      | None => kret None
      | Some p =>
        link_before (Sg p) sp1 ;;;
        wrs p (fun x => set_s_mbase s1 (seg_init s x)) ;;;
        kret (Some p)
      end
    else
      match sp1 with
      | Sg p => x <- rds p ;; smalloc_loop fuel s sp1 (u16 (s_mbase x + s_size x))
      | _ => kret None
      end
  end.
Definition smalloc (s : Z) : M segst (option Z) :=
  st <- get ;; smalloc_loop (S (size (segd st))) s Segmq (corebot st).

Fixpoint shalloc_loop (fuel : nat) (s : Z) (sp1 : sref) (s2 : Z) : M segst (option Z) :=
  match fuel with
  | O => nofuel
  | S fuel =>
    sp1 <- back sp1 ;;
    s1 <- match sp1 with Sg p => x <- rds p ;; kret (u16 (s_mbase x + s_size x)) | _ => gets corebot end ;;
    if s <=? u16 (s2 - s1) then
      r <- segalloc ;;
      match r with
      | None => kret None
      | Some p =>
        link_after (Sg p) sp1 ;;;
        wrs p (fun x => set_s_mbase (u16 (s2 - s)) (seg_init s x)) ;;;
        kret (Some p)
      end
    else
      match sp1 with
      | Sg p => x <- rds p ;; shalloc_loop fuel s sp1 (s_mbase x)
      | _ => kret None
      end
  end.
Definition shalloc (s : Z) : M segst (option Z) :=
  st <- get ;; shalloc_loop (S (size (segd st))) s Segmq (coretop st).

Definition sxalloc (s f : Z) : M segst (option Z) :=
  if Z.land f SFHIGH =? 0 then smalloc s else shalloc s.

Fixpoint sdalloc_loop (fuel : nat) (s : Z) (sp1 : sref) (d1 : Z) : M segst (option Z) :=
  match fuel with
  | O => nofuel
  | S fuel =>
    top <- gets swaptop ;;
    if top <=? d1 then kret None else
    sp1 <- forw sp1 ;;
    d2 <- match sp1 with Sg p => x <- rds p ;; kret (s_dbase x) | _ => gets swaptop end ;;
    if stod s <=? s32 (d2 - d1) then
      r <- segalloc ;;
      match r with
      | None => kret None
      | Some p =>
        link_before (Sg p) sp1 ;;;
        wrs p (fun x => set_s_dbase d1 (seg_init s x)) ;;;
        kret (Some p)
      end
    else
      match sp1 with
      | Sg p => x <- rds p ;; sdalloc_loop fuel s sp1 (s32 (s_dbase x + stod (s_size x)))
      | _ => kret None
      end
  end.
Definition sdalloc (s : Z) : M segst (option Z) :=
  st <- get ;; sdalloc_loop (S (size (segd st))) s Segdq (swapbot st).

Definition unlink (p : sref) : M segst unit :=
  b <- back p ;; f <- forw p ;; set_forw b f ;;;
  f <- forw p ;; b <- back p ;; set_back f b.

(** [satcopy]: [p1] takes the place and the attributes of [p2], which goes. *)
Definition satcopy (p1 p2 : Z) : M segst unit :=
  unlink (Sg p1) ;;;
  b <- back (Sg p2) ;; set_forw b (Sg p1) ;;;
  b <- back (Sg p2) ;; set_back (Sg p1) b ;;;
  f <- forw (Sg p2) ;; set_back f (Sg p1) ;;;
  f <- forw (Sg p2) ;; set_forw (Sg p1) f ;;;
  x2 <- rds p2 ;;
  wrs p1 (fun x => set_s_dbase (s_dbase x2) (set_s_mbase (s_mbase x2) (set_s_size (s_size x2) x))) ;;;
  segfree p2.

Definition sfree (p : Z) : M segst unit :=
  wrs p (fun x => set_s_lrefc (s8 (s_lrefc x - 1)) x) ;;;
  wrs p (fun x => set_s_urefc (s8 (s_urefc x - 1)) x) ;;;
  x <- rds p ;;
  if s_urefc x =? 0 then
    (if negb (s_lrefc x =? 0) then panic "Bad segment count" else
     match s_ip x with Some ip => on_inodes (ldetach ip) | None => kret tt end ;;;
     lock_seglink ;;;
     unlink (Sg p) ;;;
     unlock_seglink ;;;
     segfree p)
  else kret tt.

(** ** The swapper's side

    [segfinm] marks the process as not in core and gives the processor away
    until the swapper has brought it in; [swapio] waits for the driver. *)
Definition segfinm (p : Z) : M segst unit :=
  x <- rds p ;;
  if negb (Z.land (s_flags x) SFCORE =? 0) then kret tt
  else
    k <- gets self ;;
    set_segp k SIAUXIL (Some p) ;;;
    wrp k (fun x => set_pp_flags (clr_flags PFCORE (pp_flags x)) x) ;;;
    sleep ChRun ;;;
    set_segp k SIAUXIL None.

Definition SCHUNK : Z := 16384.

Fixpoint swap_wait (retry : nat) : M segst unit :=
  match retry with
  | O => nofuel
  | S retry =>
    r <- gets swapreq ;;
    match r with Some _ => sleep ChSwapbuf ;;; swap_wait retry | None => kret tt end
  end.

Fixpoint swapio_loop (fuel : nat) (f : bool) (c d n : Z) : M segst unit :=
  match fuel with
  | O => nofuel
  | S fuel =>
    if n =? 0 then kret tt
    else
      let nb := if Z.shiftr SCHUNK 10 <? n then SCHUNK else u16 (Z.shiftl n 10) in
      modify (set_swapreq (Some (f, d, s32 (Z.shiftl c 10), nb))) ;;;
      swap_wait retry ;;;
      e <- gets swaperr ;;
      if (e : bool) then panic "Swapio error"
      else swapio_loop fuel f (u16 (c + Z.shiftr SCHUNK 10)) (s32 (d + stod (Z.shiftr SCHUNK 10)))
             (u16 (n - Z.shiftr nb 10))
  end.

Definition swapio (f : bool) (c d n : Z) : M segst unit :=
  s <- get ;;
  if (d <? swapbot s) || (swaptop s <? s32 (d + stod n)) || (c <? corebot s) || (coretop s <? u16 (c + n))
  then panic "Swapio bad parameter"
  else
    glock retry swapgate set_swapgate (ChGate 3) ;;;
    wrp (self s) (fun x => set_pp_flags (set_flags PFSWIO (pp_flags x)) x) ;;;
    swapio_loop (S (Z.to_nat n)) f c d n ;;;
    modify (set_swapgate false) ;;;
    wrp (self s) (fun x => set_pp_flags (clr_flags PFSWIO (pp_flags x)) x).

Definition segsext (p s : Z) : M segst (option Z) :=
  sx <- gets sexflag ;;
  if sx =? 0 then seterr ENOMEM ;;; kret None
  else
    lock_seglink ;;;
    r <- sdalloc s ;;
    match r with
    | None => unlock_seglink ;;; kret None
    | Some p2 =>
      unlock_seglink ;;;
      wrs p (fun x => set_s_lrefc (s8 (s_lrefc x + 1)) x) ;;;
      x1 <- rds p ;;
      x2 <- rds p2 ;;
      (if negb (s_size x1 =? 0) then swapio true (s_mbase x1) (s_dbase x2) (s_size x1) else kret tt) ;;;
      lock_seglink ;;;
      satcopy p p2 ;;;
      unlock_seglink ;;;
      wrs p (fun x => set_s_flags (clr_flags SFCORE (s_flags x)) x) ;;;
      wrs p (fun x => set_s_lrefc (s8 (s_lrefc x - 1)) x) ;;;
      segfinm p ;;;
      kret (Some p)
    end.

Definition segdupd (p : Z) : M segst (option Z) :=
  sx <- gets sexflag ;;
  if sx =? 0 then kret None
  else
    lock_seglink ;;;
    x1 <- rds p ;;
    r <- sdalloc (s_size x1) ;;
    match r with
    | None => unlock_seglink ;;; kret None
    | Some p2 =>
      wrs p (fun x => set_s_lrefc (s8 (s_lrefc x + 1)) x) ;;;
      unlock_seglink ;;;
      x1 <- rds p ;;
      x2 <- rds p2 ;;
      swapio true (s_mbase x1) (s_dbase x2) (s_size x1) ;;;
      wrs p (fun x => set_s_lrefc (s8 (s_lrefc x - 1)) x) ;;;
      x1 <- rds p ;;
      wrs p2 (fun x => set_s_size (s_size x1) (set_s_flags (clr_flags SFCORE (s_flags x1)) (set_s_ip (s_ip x1) x))) ;;;
      kret (Some p2)
    end.

(** ** Loading segments into the MMU *)

Definition ADDR (s o : Z) : Z := u32 (Z.shiftl s 24 + u16 o).
Definition NHUSEG : Z := 32.
Definition USTACK : Z := 0.
Definition USEG : Z := 3.

(** The entries of a segment from hardware segment [sn] on, [NHUSEG] at most;
    None is the error return. *)
Fixpoint uproto_loop (fuel : nat) (f flags b l sn : Z) (hp : list hsegs) : option Z * list hsegs :=
  if 0 <? l then
    match fuel with
    | O => (None, hp)
    | S fuel =>
      if NHUSEG <=? sn then (None, hp)
      else
        let hl := if MSSIZE <=? l then 255
                  else if negb (Z.land flags SFDOWN =? 0) then Z.shiftl (MSSIZE - l) 2
                  else Z.shiftl l 2 - 1 in
        uproto_loop fuel f flags (u16 (b + 256)) (l - MSSIZE) (sn + 1)
          (<[Z.to_nat sn := Hseg b (u8 hl) f]> hp)
    end
  else (Some sn, hp).

Definition uproto (sp : option Z) (sn si : Z) : M segst (option Z) :=
  match sp with
  | None => kret (Some sn)
  | Some p =>
    x <- rds p ;;
    let f := if negb (Z.land (s_flags x) SFSHRX =? 0) then 1 else 0 in
    let l := s16 (s_size x) in
    let down := negb (Z.land (s_flags x) SFDOWN =? 0) in
    if down && (MSSIZE - 1 <=? l) then kret None
    else
      let f := if down then Z.lor f 32 else f in
      let hl := MSSIZE - l in
      let b := if down then u16 (s_mbase x - hl) else s_mbase x in
      let base := if down then u16 (Z.shiftl hl 10) else 0 in
      let b := u16 (Z.shiftl b 2) in
      s <- get ;;
      sr <- deref (u_segl s !! Z.to_nat si) ;;
      modify (set_u_segl (<[Z.to_nat si := Sr (sr_flag sr) (ADDR sn base) (sr_size sr) (sr_segp sr)]> (u_segl s))) ;;;
      let r := uproto_loop (S (Z.to_nat NHUSEG)) f (s_flags x) b l sn (mp_hsegs s) in
      modify (set_mp_hsegs (snd r)) ;;;
      match fst r with
      | None => kret None
      | Some sn =>
        n <- gets mp_nseg ;;
        (if n <? sn then modify (set_mp_nseg sn) else kret tt) ;;;
        kret (Some sn)
      end
  end.

Fixpoint mproto_loop (l : list Z) (sn : Z) : M segst bool :=
  match l with
  | [] => kret true
  | i :: l =>
    k <- gets self ;;
    sp <- segp k i ;;
    r <- uproto sp sn i ;;
    match r with
    | None => kret false
    | Some sn =>
      mproto_loop l (if i =? SISTACK then USTACK + 1 else if i =? SISSLIB then USTACK + 2
                     else if i =? SIPSLIB then USEG else sn)
    end
  end.

Definition ENOEXEC : Z := 8.

Definition mproto : M segst bool :=
  modify (set_mp_nseg 0) ;;;
  k <- gets self ;;
  x <- rdp k ;;
  if negb (Z.land (pp_flags x) PFKERN =? 0) then
    a <- segp k SIPTEXT ;; b <- segp k SISTEXT ;; c <- segp k SISDATA ;; d <- segp k SIPDATA ;;
    big <- match d with Some p => x <- rds p ;; kret (MSSIZE <? s_size x) | None => kret false end ;;
    match a, b, c with
    | None, None, None => if (big : bool) then seterr ENOEXEC ;;; kret false else kret true
    | _, _, _ => seterr ENOEXEC ;;; kret false
    end
  else mproto_loop (seqZ SISTACK 7) USTACK.

Definition SRFPMAP : Z := 1.
Definition SRFDUMP : Z := 2.
Definition SRFDATA : Z := 4.

Fixpoint sproto_loop (l : list Z) : M segst unit :=
  match l with
  | [] => kret tt
  | n :: l =>
    k <- gets self ;;
    sp <- segp k n ;;
    match sp with
    | None => kret tt
    | Some p =>
      x <- rds p ;;
      s <- get ;;
      sr <- deref (u_segl s !! Z.to_nat n) ;;
      let fl := if n =? SIUSERP then 0 else SRFPMAP in
      let fl := if (n =? SISTEXT) || (n =? SISDATA) then fl else Z.lor fl SRFDUMP in
      let fl := if (n =? SIUSERP) || (n =? SISTEXT) || (n =? SIPTEXT) then fl else Z.lor fl SRFDATA in
      modify (set_u_segl (<[Z.to_nat n := Sr (Z.lor (sr_flag sr) fl) (if n =? SIUSERP then ubase s else sr_base sr)
        (u16 (Z.shiftl (s_size x) 10)) (Some p)]> (u_segl s)))
    end ;;;
    sproto_loop l
  end.

Definition sproto : M segst bool :=
  modify (set_u_segl (replicate (Z.to_nat NUSEG) (Sr 0 0 0 None))) ;;;
  sproto_loop (seqZ 0 NUSEG) ;;;
  k <- gets self ;;
  wrp k (fun x => set_pp_flags (clr_flags PFSPROTO (pp_flags x)) x) ;;;
  mproto.

(** [loadmmu], for one descriptor or more: the first [n], and no access through the rest. *)
Definition loadmmu (n : Z) (l : list hsegs) : M segst unit :=
  modify (fun s => set_mmu (take (Z.to_nat n) l ++
    map (fun h => Hseg (mp_base h) (mp_len h) 4) (drop (Z.to_nat n) (mmu s))) s).

Definition segload : M segst unit :=
  k <- gets self ;;
  x <- rdp k ;;
  if negb (Z.land (pp_flags x) PFKERN =? 0) then kret tt
  else
    (if negb (Z.land (pp_flags x) PFSPROTO =? 0) then sproto ;;; kret tt else kret tt) ;;;
    s <- get ;;
    loadmmu (mp_nseg s) (mp_hsegs s).

(** ** Compaction *)

(** The look at the slots of one process: None is a refusal. *)
Fixpoint segmove_slots (p : Z) (k : nat) (l : list Z) (n c : Z) : M segst (option (Z * Z)) :=
  match l with
  | [] => kret (Some (n, c))
  | i :: l =>
    sp <- segp k i ;;
    if decide (sp = Some p) then
      x <- rdp k ;;
      me <- gets self ;;
      if negb (Z.land (pp_flags x) (Z.lor PFLOCK (Z.lor PFKERN (Z.lor PFSWIO PFSLIB))) =? 0) then kret None
      else if (i =? SIUSERP) && (bool_decide (k = me)) then kret None
      else
        wrp k (fun x => set_pp_flags (set_flags PFSPROTO (pp_flags x)) x) ;;;
        segmove_slots p k l (n + 1) (if Z.land (pp_flags x) PFSWAP =? 0 then c + 1 else c)
    else segmove_slots p k l n c
  end.

Fixpoint segmove_procs (p : Z) (ks : list nat) (n c : Z) : M segst (option (Z * Z)) :=
  match ks with
  | [] => kret (Some (n, c))
  | k :: ks =>
    r <- segmove_slots p k (seqZ 0 (NUSEG + 1)) n c ;;
    match r with None => kret None | Some (n, c) => segmove_procs p ks n c end
  end.

Definition segmove (p nb : Z) : M segst bool :=
  x <- rds p ;;
  if Z.land (s_flags x) SFCORE =? 0 then kret false
  else if negb (Z.land (s_flags x) SFDOWN =? 0) && (u16 (nb + s_size x) <? MSSIZE) then kret false
  else
    s <- get ;;
    r <- segmove_procs p (seq 0 (length (procl s))) 0 0 ;;
    match r with
    | None => kret false
    | Some (n, c) =>
      if (n =? 0) || negb (n =? s_urefc x) || negb (c =? s_lrefc x) then kret false
      else
        slrcopy (s_mbase x) nb (s_size x) ;;;
        wrs p (set_s_mbase nb) ;;;
        kret true
    end.

(** The holes of core: the largest, and all together. *)
Fixpoint holes (fuel : nat) (sp : sref) (b tot big : Z) : M segst (Z * Z) :=
  match fuel with
  | O => nofuel
  | S fuel =>
    sp <- forw sp ;;
    t <- match sp with Sg p => x <- rds p ;; kret (s_mbase x) | _ => gets coretop end ;;
    let gap := u16 (t - b) in
    let tot := u16 (tot + gap) in
    let big := if big <? gap then gap else big in
    match sp with
    | Sg p => x <- rds p ;; holes fuel sp (u16 (s_mbase x + s_size x)) tot big
    | _ => kret (tot, big)
    end
  end.

Fixpoint slide (fuel : nat) (sp : sref) (b moved : Z) : M segst Z :=
  match fuel with
  | O => nofuel
  | S fuel =>
    match sp with
    | Sg p =>
      x <- rds p ;;
      m <- (if b <? s_mbase x then segmove p b else kret false) ;;
      (if (m : bool) then modify (fun s => set_segpackc (u16 (segpackc s + s_size x)) s) else kret tt) ;;;
      x <- rds p ;;
      sp <- forw sp ;;
      slide fuel sp (u16 (s_mbase x + s_size x)) (if (m : bool) then moved + 1 else moved)
    | _ => kret moved
    end
  end.

Definition segpack (s : Z) : M segst Z :=
  lock_pnxgate ;;;
  lock_seglink ;;;
  st <- get ;;
  h <- holes (S (size (segd st))) Segmq (corebot st) 0 0 ;;
  moved <- (if (snd h <? s) && (s <=? fst h) then
              sp <- forw Segmq ;;
              m <- slide (S (size (segd st))) sp (corebot st) 0 ;;
              modify (fun s => set_segpacks (u16 (segpacks s + 1)) s) ;;;
              kret m
            else kret 0) ;;
  unlock_seglink ;;;
  unlock_pnxgate ;;;
  (if moved =? 0 then kret tt else segload) ;;;
  kret moved.

(** ** Allocation, duplication, growth *)

Definition salloc_flags (f : Z) : Z :=
  Z.lor (Z.land f (Z.lor SFSYST (Z.lor SFHIGH (Z.lor SFTEXT (Z.lor SFSHRX SFDOWN))))) SFCORE.

Definition sxgated (s f : Z) : M segst (option Z) :=
  lock_seglink ;;; sp <- sxalloc s f ;; unlock_seglink ;;; kret sp.

(** Room in core, after compaction if need be. *)
Definition salloc_core (s f : Z) : M segst (option Z) :=
  sp <- sxgated s f ;;
  match sp with
  | Some p => kret (Some p)
  | None => m <- segpack s ;; if m =? 0 then kret None else sxgated s f
  end.

(** A descriptor with no room yet, which the swapper gives it. *)
Definition salloc_swap (s r : Z) : M segst (option Z) :=
  sp <- segalloc ;;
  match sp with
  | None => kret None
  | Some p =>
    set_forw (Sg p) (Sg p) ;;;
    set_back (Sg p) (Sg p) ;;;
    wrs p (fun x => set_s_lrefc 1 (set_s_urefc 1 (set_s_flags r x))) ;;;
    e <- segsext p s ;;
    match e with
    | None => segfree p ;;; kret None
    | Some _ => kret (Some p)
    end
  end.

Definition salloc (n f : Z) : M segst (option Z) :=
  let r := salloc_flags f in
  let s := btocru n in
  sp <- salloc_core s f ;;
  sp <- match sp with
        | Some p => wrs p (set_s_flags r) ;;; kret (Some p)
        | None => if negb (Z.land f SFNSWP =? 0) then kret None else salloc_swap s r
        end ;;
  match sp with
  | None => kret None
  | Some p =>
    (if Z.land f SFNCLR =? 0 then x <- rds p ;; sclear (s_mbase x) s else kret tt) ;;;
    kret (Some p)
  end.

Definition segdupl (p : Z) : M segst (option Z) :=
  x <- rds p ;;
  if negb (Z.land (s_flags x) SFSHRX =? 0) then
    if 127 <=? s_urefc x then kret None
    else
      wrs p (fun x => set_s_lrefc (s8 (s_lrefc x + 1)) (set_s_urefc (s8 (s_urefc x + 1)) x)) ;;;
      kret (Some p)
  else if Z.land (s_flags x) SFCORE =? 0 then panic "Cannot duplicate non shared swapped segment"
  else
    r <- salloc (ctob (s_size x)) (Z.lor (s_flags x) (Z.lor SFNSWP SFNCLR)) ;;
    match r with
    | None => segdupd p
    | Some p1 =>
      x <- rds p ;;
      wrs p1 (set_s_flags (s_flags x)) ;;;
      x1 <- rds p1 ;;
      slrcopy (s_mbase x) (s_mbase x1) (s_size x) ;;;
      kret (Some p1)
    end.

(** [seggrow], after the gaps beside the segment have been found: the part under
    the gate.  True when it has been grown (or shrunk) where it is or beside. *)
Definition grow_here (p s d : Z) (dow : bool) : M segst bool :=
  x <- rds p ;;
  if s <=? s_size x then
    (if dow then wrs p (fun x => set_s_mbase (u16 (s_mbase x - d)) x) else kret tt) ;;;
    wrs p (set_s_size s) ;;;
    kret true
  else
    b <- back (Sg p) ;;
    pb <- match b with Sg q => y <- rds q ;; kret (u16 (s_mbase y + s_size y)) | Segmq => gets corebot | Segdq => kret 0 end ;;
    f <- forw (Sg p) ;;
    nb <- match f with Sg q => y <- rds q ;; kret (s_mbase y) | Segmq => gets coretop | Segdq => kret 0 end ;;
    if negb dow && (s <=? u16 (nb - s_mbase x)) then
      sclear (u16 (s_mbase x + s_size x)) d ;;;
      wrs p (set_s_size s) ;;;
      kret true
    else if dow && (s <=? u16 (s_mbase x + s_size x - pb)) then
      wrs p (fun x => set_s_mbase (u16 (s_mbase x - d)) x) ;;;
      wrs p (set_s_size s) ;;;
      sclear (u16 (s_mbase x - d)) d ;;;
      kret true
    else if s <=? u16 (nb - pb) then
      (if dow then
         srlcopy (s_mbase x) (u16 (nb - s_size x)) (s_size x) ;;;
         sclear (u16 (nb - s)) d ;;;
         wrs p (set_s_mbase (u16 (nb - s)))
       else
         slrcopy (s_mbase x) pb (s_size x) ;;;
         sclear (u16 (pb + s_size x)) d ;;;
         wrs p (set_s_mbase pb)) ;;;
      wrs p (set_s_size s) ;;;
      kret true
    else kret false.

Definition seggrow (p n : Z) : M segst bool :=
  x <- rds p ;;
  let dow := negb (Z.land (s_flags x) SFDOWN =? 0) in
  let s := btocru n in
  lock_seglink ;;;
  x <- rds p ;;
  let d := u16 (s - s_size x) in
  done <- grow_here p s d dow ;;
  unlock_seglink ;;;
  if (done : bool) then kret true
  else
    x <- rds p ;;
    r <- salloc (ctob s) (Z.lor (s_flags x) (Z.lor SFNSWP SFNCLR)) ;;
    match r with
    | Some p1 =>
      x <- rds p ;;
      x1 <- rds p1 ;;
      (if dow then
         slrcopy (s_mbase x) (u16 (s_mbase x1 + d)) (s_size x) ;;;
         sclear (s_mbase x1) d
       else
         slrcopy (s_mbase x) (s_mbase x1) (s_size x) ;;;
         sclear (u16 (s_mbase x1 + s_size x)) d) ;;;
      lock_seglink ;;;
      satcopy p p1 ;;;
      unlock_seglink ;;;
      kret true
    | None =>
      e <- segsext p s ;;
      match e with
      | Some _ =>
        x <- rds p ;;
        (if dow then
           srlcopy (s_mbase x) (u16 (s_mbase x + d)) (u16 (s - d)) ;;;
           sclear (s_mbase x) d
         else sclear (u16 (s_mbase x + s - d)) d) ;;;
        kret true
      | None => kret false
      end
    end.

(** [segadup]: the segments of the running process duplicated for process [c]. *)
Fixpoint segadup_loop (l : list Z) (me c : nat) : M segst Z :=
  match l with
  | [] => kret NUSEG
  | n :: l =>
    sp <- segp me n ;;
    match sp with
    | None => segadup_loop l me c
    | Some p =>
      r <- segdupl p ;;
      match r with
      | None => kret n
      | Some p1 =>
        set_segp c n (Some p1) ;;;
        x <- rds p1 ;;
        (if Z.land (s_flags x) SFCORE =? 0
         then wrp c (fun y => set_pp_flags (clr_flags PFCORE (pp_flags y)) y) else kret tt) ;;;
        segadup_loop l me c
      end
    end
  end.

Fixpoint segadup_undo (n : nat) (c : nat) : M segst Z :=
  match n with
  | O => kret 0
  | S n =>
    sp <- segp c (Z.of_nat n) ;;
    match sp with
    | Some p => sfree p ;;; set_segp c (Z.of_nat n) None
    | None => kret tt
    end ;;;
    segadup_undo n c
  end.

Definition segadup (c : nat) : M segst Z :=
  me <- gets self ;;
  wrp c (fun y => set_pp_flags (set_flags PFSWIO (pp_flags y)) y) ;;;
  n <- segadup_loop (seqZ 0 NUSEG) me c ;;
  n <- (if n <? NUSEG then segadup_undo (Z.to_nat n) c else kret n) ;;
  wrp c (fun y => set_pp_flags (clr_flags PFSWIO (pp_flags y)) y) ;;;
  kret n.

End Seg.
