(* ===== verification/Segq.v ===== *)
(** The segment queues: what it means for them to be well formed, and the
    allotment of core and swap space. *)
From S2P Require Import Prelude Sched Dlist Kheap Seg.
Local Open Scope Z_scope.
Local Open Scope kernel_scope.

(** ** Segments laid out in a space

    [g] gives the place of a segment and its length; the segments [l] lie
    between [b] and [t], one behind the other. *)
Section Layout.
Context (g : SEG -> Z * Z).

Fixpoint placed (m : gmap Z SEG) (b : Z) (l : list Z) (t : Z) : Prop :=
  match l with
  | [] => b <= t
  | p :: l => exists x, m !! p = Some x /\ b <= (g x).1 /\ 0 <= (g x).2 /\ placed m ((g x).1 + (g x).2) l t
  end.

(** Where the last of [l] ends, and where the first begins. *)
Fixpoint ends (m : gmap Z SEG) (b : Z) (l : list Z) : Z :=
  match l with
  | [] => b
  | p :: l => ends m (match m !! p with Some x => (g x).1 + (g x).2 | None => b end) l
  end.

Definition starts (m : gmap Z SEG) (t : Z) (l : list Z) : Z :=
  match l with
  | [] => t
  | p :: _ => match m !! p with Some x => (g x).1 | None => t end
  end.

Lemma placed_le m l : forall b t, placed m b l t -> b <= t.
Proof.
  induction l as [|p l IH]; intros b t; simpl; [done|].
  intros (x & _ & H1 & H2 & H3). apply IH in H3. lia.
Qed.

Lemma placed_app m l1 : forall b l2 t,
  placed m b (l1 ++ l2) t <-> placed m b l1 (ends m b l1) /\ placed m (ends m b l1) l2 t.
Proof.
  induction l1 as [|p l1 IH]; intros b l2 t; simpl; [split; [done|tauto]|]. split.
  - intros (x & Hx & H1 & H2 & H3). rewrite Hx. apply IH in H3 as [H3 H4].
    split; [by exists x|done].
  - intros [(x & Hx & H1 & H2 & H3) H4]. exists x. rewrite Hx in H3, H4. split_and!; [done..|]. by apply IH.
Qed.

Lemma placed_starts m b l t : placed m b l t -> b <= starts m t l <= t.
Proof.
  destruct l as [|p l]; simpl; [lia|]. intros (x & -> & H1 & H2 & H3%placed_le). lia.
Qed.

Lemma placed_frame m m' l : forall b t, placed m b l t ->
  (forall p, p ∈ l -> g <$> m' !! p = g <$> m !! p) -> placed m' b l t.
Proof.
  induction l as [|p l IH]; intros b t; simpl; [done|]. intros (x & Hx & H1 & H2 & H3) Hf.
  pose proof (Hf p ltac:(by left)) as E. rewrite Hx in E. destruct (m' !! p) as [x'|] eqn:Hx'; [|done].
  injection E as E. exists x'. rewrite E. split_and!; [done..|]. apply IH; [done|]. intros q Hq. apply Hf. by right.
Qed.

Lemma ends_frame m m' l : forall b, (forall p, p ∈ l -> g <$> m' !! p = g <$> m !! p) -> ends m' b l = ends m b l.
Proof.
  induction l as [|p l IH]; intros b Hf; simpl; [done|].
  pose proof (Hf p ltac:(by left)) as E. rewrite IH by (intros q Hq; apply Hf; by right). f_equal.
  destruct (m' !! p), (m !! p); try done. by injection E as ->.
Qed.

Lemma starts_frame m m' l t : (forall p, p ∈ l -> g <$> m' !! p = g <$> m !! p) -> starts m' t l = starts m t l.
Proof.
  destruct l as [|p l]; intros Hf; simpl; [done|]. pose proof (Hf p ltac:(by left)) as E.
  destruct (m' !! p), (m !! p); try done. by injection E as ->.
Qed.

Lemma ends_app m l1 : forall b l2, ends m b (l1 ++ l2) = ends m (ends m b l1) l2.
Proof. induction l1 as [|p l1 IH]; intros b l2; simpl; [done|]. apply IH. Qed.

(** A gap between neighbours can be filled, and a segment taken out. *)
Lemma placed_insert m b l1 p x l2 t : placed m b (l1 ++ l2) t -> m !! p = Some x ->
  ends m b l1 <= (g x).1 -> 0 <= (g x).2 -> (g x).1 + (g x).2 <= starts m t l2 ->
  placed m b (l1 ++ p :: l2) t.
Proof.
  intros [H1 H2]%placed_app Hx Hb Hl Ht. apply placed_app. split; [done|]. exists x. split_and!; [done..|].
  destruct l2 as [|q l2]; simpl in *; [done|]. destruct H2 as (y & Hy & ? & ? & ?).
  rewrite Hy in Ht. by exists y.
Qed.

Lemma placed_low m b b' l t : placed m b l t -> b' <= b -> placed m b' l t.
Proof.
  destruct l as [|p l]; simpl; [lia|]. intros (x & ? & ? & ? & ?) Hb. exists x. split_and!; [done|lia|done..].
Qed.

Lemma placed_remove m b l1 p l2 t : placed m b (l1 ++ p :: l2) t -> placed m b (l1 ++ l2) t.
Proof.
  intros [H1 (x & Hx & Hb & Hl & H2)]%placed_app. apply placed_app. split; [done|].
  eapply placed_low; [exact H2|]. lia.
Qed.

Lemma placed_elem m l p : forall b t, placed m b l t -> p ∈ l ->
  exists x, m !! p = Some x /\ b <= (g x).1 /\ 0 <= (g x).2 /\ (g x).1 + (g x).2 <= t.
Proof.
  induction l as [|q l IH]; intros b t; simpl; [by intros _ ?%not_elem_of_nil|].
  intros (x & Hx & H1 & H2 & H3) [->|Hp]%elem_of_cons.
  - exists x. split_and!; [done..|]. by eapply placed_le.
  - destruct (IH _ _ H3 Hp) as (y & Hy & ? & ? & ?). exists y. split_and!; [done|lia|done..].
Qed.

(** The size of the hole between [l1] and [l2]. *)
Definition hole (m : gmap Z SEG) (b t : Z) (l1 l2 : list Z) : Z := starts m t l2 - ends m b l1.
End Layout.

Definition gcore (x : SEG) : Z * Z := (s_mbase x, s_size x).
Definition gswap (x : SEG) : Z * Z := (s_dbase x, 2 * s_size x).

Section Segq.
Context {H : Type} `{!Kheap H} `{!KheapLaws H} {I : Type} `{!Inodes I}.
#[local] Abbreviation st := (segst (H := H) (I := I)).

(** The segments in core [ms] and on the swap device [ds], in the order of their addresses. *)
Record segs (s : st) (ms ds : list Z) : Prop := {
  sg_m : ring (s_forw s) (s_back s) Segmq (Sg <$> ms);
  sg_d : ring (s_forw s) (s_back s) Segdq (Sg <$> ds);
  sg_sep : forall p, p ∈ ms -> (p ∉ ds);
  sg_core : placed gcore (segd s) (corebot s) ms (coretop s);
  sg_swap : placed gswap (segd s) (swapbot s) ds (swaptop s);
  sg_dom : forall p, is_Some (segd s !! p) <-> p ∈ ms \/ p ∈ ds;
  sg_own : forall p, is_Some (segd s !! p) -> owned (heap s) p;
  sg_heap : kvalid (heap s);
  sg_bus : 0 <= corebot s /\ coretop s <= 16384;
  sg_disk : 0 <= swapbot s /\ swaptop s < 2147483648
}.

Lemma wp_rds (s : st) p x (Q : SEG -> st -> Prop) : segd s !! p = Some x -> Q x s -> wp (rds p) Q s.
Proof. intros E HQ. unfold wp, rds, kbind. simpl. by rewrite E. Qed.

Lemma wp_wrs (s : st) p g x (Q : unit -> st -> Prop) : segd s !! p = Some x ->
  Q tt (set_segd (<[p := g x]> (segd s)) s) -> wp (wrs p g) Q s.
Proof. intros E HQ. unfold wp, wrs, rds, kbind. simpl. by rewrite E. Qed.

Lemma wp_forw (s : st) p q (Q : sref -> st -> Prop) : s_forw s !! p = Some q -> Q q s -> wp (forw p) Q s.
Proof. intros E HQ. unfold wp, forw, kbind. simpl. by rewrite E. Qed.

Lemma wp_back (s : st) p q (Q : sref -> st -> Prop) : s_back s !! p = Some q -> Q q s -> wp (back p) Q s.
Proof. intros E HQ. unfold wp, back, kbind. simpl. by rewrite E. Qed.

Lemma wp_lock (s : st) retry g put ch (Q : unit -> st -> Prop) : (0 < retry)%nat -> g s = false ->
  Q tt (put true s) -> wp (glock retry g put ch) Q s.
Proof. intros Hr Hg HQ. destruct retry as [|retry]; [lia|]. cbn [glock]. apply wp_bind, wp_gets. by rewrite Hg. Qed.

(** [p] linked in between its neighbours [b] and [f]. *)
Definition linked (p b f : sref) (s : st) : st :=
  set_s_back (<[f := p]> (<[p := b]> (s_back s))) (set_s_forw (<[b := p]> (<[p := f]> (s_forw s))) s).

Lemma wp_link_before (s : st) p b f (Q : unit -> st -> Prop) : s_back s !! f = Some b -> p <> b ->
  Q tt (linked p b f s) -> wp (link_before p f) Q s.
Proof.
  intros Hb Hpb HQ. unfold link_before. apply wp_bind, (wp_back _ _ _ _ Hb), wp_bind, wp_modify, wp_bind.
  apply (wp_back _ _ b); [done|]. apply wp_bind, wp_modify, wp_bind, wp_modify, wp_modify.
  unfold linked in HQ. unfold set_s_forw, set_s_back in *. cbn in *.
  by rewrite (insert_insert_ne (s_forw s) p b) by done.
Qed.

Lemma wp_link_after (s : st) p b f (Q : unit -> st -> Prop) : s_forw s !! b = Some f -> p <> f ->
  Q tt (linked p b f s) -> wp (link_after p b) Q s.
Proof.
  intros Hf Hpf HQ. unfold link_after. apply wp_bind, (wp_forw _ _ _ _ Hf), wp_bind, wp_modify, wp_bind.
  apply (wp_forw _ _ f); [done|]. apply wp_bind, wp_modify, wp_bind, wp_modify, wp_modify.
  unfold linked in HQ. unfold set_s_forw, set_s_back in *. cbn in *.
  by rewrite (insert_insert_ne (s_back s) p f) by done.
Qed.

(** What a request for a descriptor does: a fresh block, or the error of [alloc] because
    the kernel storage is full. *)
Definition got_seg (s s' : st) (r : option Z) (h : H) : Prop :=
  kvalid h /\
  match r with
  | Some p => segd s !! p = None /\ (forall q, owned h q <-> q = p \/ owned (heap s) q) /\
      s' = set_segd (<[p := seg0]> (segd s)) (set_heap h s)
  | None => kfull sizeof_SEG (heap s) /\ (forall q, owned h q <-> owned (heap s) q) /\ s' = set_u_error Alloc.EKSPACE (set_heap h s)
  end.

Lemma wp_segalloc (s : st) ms ds : segs s ms ds -> wp segalloc (fun r s' => exists h, got_seg s s' r h) s.
Proof.
  intros Hs. unfold segalloc. apply wp_bind, wp_zoom.
  eapply wp_mono; [exact (kalloc_law sizeof_SEG (heap s) (sg_heap _ _ _ Hs) ltac:(done))|].
  intros [p|] h (Hv & Hf & Hk); apply wp_bind, wp_modify, wp_ret; exists h; (split; [done|]).
  - destruct Hk as (_ & Hn & Ho). split_and!; [|done|done].
    apply eq_None_not_Some. intros Hd. by apply Hn, (sg_own _ _ _ Hs).
  - split; [by apply Hf|done].
Qed.

Lemma segs_lookup (s : st) ms ds p : segs s ms ds -> p ∈ ms ->
  exists x, segd s !! p = Some x /\ corebot s <= s_mbase x /\ 0 <= s_size x /\ s_mbase x + s_size x <= coretop s.
Proof. intros Hs Hp. exact (placed_elem gcore _ _ _ _ _ (sg_core _ _ _ Hs) Hp). Qed.

Lemma segs_swapped (s : st) ms ds p : segs s ms ds -> p ∈ ds ->
  exists x, segd s !! p = Some x /\ swapbot s <= s_dbase x /\ 0 <= 2 * s_size x /\ s_dbase x + 2 * s_size x <= swaptop s.
Proof. intros Hs Hp. exact (placed_elem gswap _ _ _ _ _ (sg_swap _ _ _ Hs) Hp). Qed.

(** The state with one segment more in core. *)
Lemma segs_insert (s s' : st) l1 l2 ds p x : segs s (l1 ++ l2) ds -> segd s !! p = None ->
  s_forw s' = s_forw (linked (Sg p) (before Segmq (Sg <$> l1)) (after Segmq (Sg <$> l2)) s) ->
  s_back s' = s_back (linked (Sg p) (before Segmq (Sg <$> l1)) (after Segmq (Sg <$> l2)) s) ->
  segd s' = <[p := x]> (segd s) ->
  (corebot s', coretop s', swapbot s', swaptop s') = (corebot s, coretop s, swapbot s, swaptop s) ->
  kvalid (heap s') -> owned (heap s') p -> (forall q, owned (heap s) q -> owned (heap s') q) ->
  ends gcore (segd s) (corebot s) l1 <= s_mbase x -> 0 <= s_size x ->
  s_mbase x + s_size x <= starts gcore (segd s) (coretop s) l2 ->
  segs s' (l1 ++ p :: l2) ds.
Proof.
  intros Hs Hp Hf Hb Hd Hc Hv Ho Hos Hlo Hsz Hhi. injection Hc as C1 C2 C3 C4.
  assert (Hpm : (p ∉ l1 ++ l2) /\ (p ∉ ds)).
  { apply eq_None_not_Some in Hp. rewrite (sg_dom _ _ _ Hs) in Hp. tauto. }
  destruct Hpm as [Hpm Hpd].
  assert (Hne : forall q, q ∈ l1 ++ l2 \/ q ∈ ds -> segd s' !! q = segd s !! q).
  { intros q Hq. rewrite Hd, lookup_insert_ne; [done|]. intros ->. tauto. }
  constructor; rewrite ?C1, ?C2, ?C3, ?C4; try apply Hs.
  - rewrite Hf, Hb. unfold linked. cbn. rewrite fmap_app. cbn. apply ring_insert.
    + rewrite <- fmap_app. apply Hs.
    + done.
    + rewrite <- fmap_app. rewrite list_elem_of_fmap. by intros (q & [= ->] & ?).
  - rewrite Hf, Hb. unfold linked. cbn. eapply ring_frame; [apply Hs|]. intros y Hy.
    assert (Hsep : forall q, q ∈ Segmq :: (Sg <$> l1 ++ l2) -> y <> q).
    { intros q Hq ->. apply elem_of_cons in Hq as [->|(a & -> & Ha)%list_elem_of_fmap].
      - apply elem_of_cons in Hy as [?|(a & ? & _)%list_elem_of_fmap]; done.
      - apply elem_of_cons in Hy as [?|(c & [= ->] & Hc)%list_elem_of_fmap]; [done|].
        by apply (sg_sep _ _ _ Hs c). }
    assert (Hyp : y <> Sg p).
    { intros ->. apply elem_of_cons in Hy as [?|(c & [= ->] & Hc)%list_elem_of_fmap]; done. }
    pose proof (before_elem Segmq (Sg <$> l1)) as He1. pose proof (after_elem Segmq (Sg <$> l2)) as He2.
    rewrite !lookup_insert_ne; [done|..]; apply not_eq_sym; try done; apply Hsep; rewrite fmap_app.
    + apply elem_of_cons in He2 as [->|?]; [by left|right; apply elem_of_app; by right].
    + apply elem_of_cons in He1 as [->|?]; [by left|right; apply elem_of_app; by left].
  - intros q [Hq|[->|Hq]%elem_of_cons]%elem_of_app; [|done|].
    + apply (sg_sep _ _ _ Hs q). apply elem_of_app. by left.
    + apply (sg_sep _ _ _ Hs q). apply elem_of_app. by right.
  - apply (placed_insert gcore _ _ _ _ x).
    + eapply placed_frame; [apply Hs|]. intros q Hq. rewrite Hne by auto. done.
    + by rewrite Hd, lookup_insert_eq.
    + rewrite (ends_frame gcore (segd s)); [done|]. intros q Hq. rewrite Hne; [done|]. left. apply elem_of_app. by left.
    + done.
    + rewrite (starts_frame gcore (segd s)); [done|]. intros q Hq. rewrite Hne; [done|]. left. apply elem_of_app. by right.
  - eapply placed_frame; [apply Hs|]. intros q Hq. rewrite Hne by auto. done.
  - intros q. rewrite Hd, lookup_insert_is_Some', (sg_dom _ _ _ Hs), !elem_of_app, elem_of_cons. naive_solver.
  - intros q. rewrite Hd, lookup_insert_is_Some'. intros [<-|Hq]; [done|]. by apply Hos, (sg_own _ _ _ Hs).
  - done.
Qed.

(** What the queue operations leave alone. *)
Definition others (s : st) :=
  (inodes s, procl s, self s, ram s, u_segl s, (mp_nseg s, mp_hsegs s, mmu s), (corebot s, coretop s, swapbot s, swaptop s),
   (sexflag s, seglink s, pnxgate s, swapgate s, swapreq s, swaperr s), (segpacks s, segpackc s, ubase s)).

(** A segment of [sz] clicks at [base], new between [l1] and [l2]. *)
Definition carved (s s' : st) (sz base p : Z) (l1 l2 ds : list Z) : Prop :=
  segd s !! p = None /\ segd s' = <[p := Seg None 0 1 1 sz base 0]> (segd s) /\
  segs s' (l1 ++ p :: l2) ds /\ others s' = others s /\ u_error s' = u_error s.

Definition refused (s s' : st) (ms ds : list Z) : Prop :=
  segs s' ms ds /\ segd s' = segd s /\ others s' = others s /\ u_error s' = Alloc.EKSPACE /\ kfull sizeof_SEG (heap s).

Lemma segs_same (s s' : st) ms ds : segs s ms ds -> s_forw s' = s_forw s -> s_back s' = s_back s ->
  segd s' = segd s -> others s' = others s -> kvalid (heap s') -> (forall q, owned (heap s) q -> owned (heap s') q) ->
  segs s' ms ds.
Proof.
  intros [H1 H2 H3 H4 H5 H6 H7 H8 H9 H10] Hf Hb Hd Ho Hv Hos.
  unfold others in Ho. injection Ho as _ _ _ _ _ _ _ _ C1 C2 C3 C4 _ _ _ _ _ _ _ _ _.
  constructor; rewrite ?Hf, ?Hb, ?Hd, ?C1, ?C2, ?C3, ?C4; auto.
Qed.

Lemma wp_carve (s : st) l1 l2 ds (lk : sref -> M st unit) sz base : segs s (l1 ++ l2) ds ->
  ends gcore (segd s) (corebot s) l1 <= base -> 0 <= sz -> base + sz <= starts gcore (segd s) (coretop s) l2 ->
  (forall p (s1 : st) Q, s_forw s1 = s_forw s -> s_back s1 = s_back s ->
     Sg p <> before Segmq (Sg <$> l1) -> Sg p <> after Segmq (Sg <$> l2) ->
     Q tt (linked (Sg p) (before Segmq (Sg <$> l1)) (after Segmq (Sg <$> l2)) s1) -> wp (lk (Sg p)) Q s1) ->
  wp (r <- segalloc ;;
      match r with
      | None => kret None
      | Some p => lk (Sg p) ;;; wrs p (fun x => set_s_mbase base (seg_init sz x)) ;;; kret (Some p)
      end)
    (fun r s' => match r with Some p => carved s s' sz base p l1 l2 ds | None => refused s s' (l1 ++ l2) ds end) s.
Proof.
  intros Hs Hlo Hsz Hhi Hlk. apply wp_bind. eapply wp_mono; [exact (wp_segalloc s _ _ Hs)|].
  intros r s1 (h & Hv & Hr). destruct r as [p|].
  - destruct Hr as (Hp & Ho & ->).
    assert (Hpm : p ∉ l1 ++ l2).
    { intros Hin. apply (eq_None_not_Some (segd s !! p)) in Hp. apply Hp, (sg_dom _ _ _ Hs). by left. }
    apply wp_bind, Hlk; [done|done| | |].
    { intros E. pose proof (before_elem Segmq (Sg <$> l1)) as He. rewrite <- E in He.
      apply elem_of_cons in He as [?|(q & [= ->] & Hq)%list_elem_of_fmap]; [done|]. apply Hpm, elem_of_app. by left. }
    { intros E. pose proof (after_elem Segmq (Sg <$> l2)) as He. rewrite <- E in He.
      apply elem_of_cons in He as [?|(q & [= ->] & Hq)%list_elem_of_fmap]; [done|]. apply Hpm, elem_of_app. by right. }
    apply wp_bind. apply (wp_wrs _ _ _ seg0); [cbn; by rewrite lookup_insert_eq|]. apply wp_ret.
    split; [done|]. split; [cbn; by rewrite insert_insert_eq|]. split; [|done].
    eapply (segs_insert s _ l1 l2 ds p (Seg None 0 1 1 sz base 0) Hs Hp); try done; cbn.
    + by rewrite insert_insert_eq.
    + apply Ho. by left.
    + intros q Hq. apply Ho. by right.
  - destruct Hr as (Hfl & Ho & ->). apply wp_ret. split; [|done].
    apply (segs_same s); try done. intros q Hq. by apply Ho.
Qed.

(** ** First fit from below and from above *)

Definition core_hole (s : st) (l1 l2 : list Z) : Z := hole gcore (segd s) (corebot s) (coretop s) l1 l2.

Definition lowest_fit (s : st) (sz : Z) (l1 l2 : list Z) : Prop :=
  sz <= core_hole s l1 l2 /\
  forall k1 k2, k1 ++ k2 = l1 ++ l2 -> (length k1 < length l1)%nat -> core_hole s k1 k2 < sz.
Definition highest_fit (s : st) (sz : Z) (l1 l2 : list Z) : Prop :=
  sz <= core_hole s l1 l2 /\
  forall k1 k2, k1 ++ k2 = l1 ++ l2 -> (length l1 < length k1)%nat -> core_hole s k1 k2 < sz.
Definition too_small (s : st) (sz : Z) (ms : list Z) : Prop :=
  forall k1 k2, k1 ++ k2 = ms -> core_hole s k1 k2 < sz.

(** The addresses at a place in the queue. *)
Lemma segs_bounds (s : st) l1 l2 ds : segs s (l1 ++ l2) ds ->
  let e := ends gcore (segd s) (corebot s) l1 in let b := starts gcore (segd s) (coretop s) l2 in
  0 <= corebot s <= e /\ e <= b <= coretop s /\ coretop s <= 16384 /\ core_hole s l1 l2 = b - e.
Proof.
  intros Hs e b. pose proof (sg_core _ _ _ Hs) as [H1%placed_le H2%placed_starts]%placed_app.
  pose proof (sg_bus _ _ _ Hs). unfold core_hole, hole. fold e b in H1, H2 |- *. lia.
Qed.

Lemma u16_addr z : 0 <= z <= 16384 -> u16 z = z.
Proof. intros. apply u16_small. lia. Qed.

Lemma ends_snoc m b l p x : m !! p = Some x -> ends gcore m b (l ++ [p]) = s_mbase x + s_size x.
Proof. intros Hx. rewrite ends_app. simpl. by rewrite Hx. Qed.

Lemma app_prefix {A} (l1 l2 k1 k2 : list A) : k1 ++ k2 = l1 ++ l2 -> length k1 = length l1 -> k1 = l1 /\ k2 = l2.
Proof. intros. by apply app_inj_1. Qed.

Lemma before_seg h l p : before h (Sg <$> l ++ [p]) = Sg p.
Proof. rewrite fmap_app. apply before_snoc. Qed.

Lemma wp_smalloc_loop (s : st) ds sz : 0 <= sz -> forall l2 l1 fuel, segs s (l1 ++ l2) ds ->
  (forall k1 k2, k1 ++ k2 = l1 ++ l2 -> (length k1 < length l1)%nat -> core_hole s k1 k2 < sz) ->
  (length l2 < fuel)%nat ->
  wp (smalloc_loop fuel sz (before Segmq (Sg <$> l1)) (ends gcore (segd s) (corebot s) l1))
    (fun r s' => (exists k1 k2, l1 ++ l2 = k1 ++ k2 /\ lowest_fit s sz k1 k2 /\
        match r with
        | Some p => carved s s' sz (ends gcore (segd s) (corebot s) k1) p k1 k2 ds
        | None => refused s s' (l1 ++ l2) ds
        end) \/ (r = None /\ s' = s /\ too_small s sz (l1 ++ l2))) s.
Proof.
  intros Hsz. induction l2 as [|p l2 IH]; intros l1 fuel Hs Hno Hfu; (destruct fuel as [|fuel]; [simpl in Hfu; lia|]);
    cbn [smalloc_loop]; pose proof (sg_m _ _ _ Hs) as Hring; rewrite fmap_app in Hring;
    pose proof (ring_at _ _ _ _ _ Hring) as [Hf Hb]; pose proof (segs_bounds s _ _ ds Hs) as (B1 & B2 & B3 & Bh);
    apply wp_bind, (wp_forw _ _ _ _ Hf); apply wp_bind.
  - change (after Segmq (Sg <$> [])) with Segmq. cbn match. apply wp_gets. cbn [starts] in B2, Bh.
    rewrite u16_addr by lia. destruct (Z.leb_spec sz (coretop s - ends gcore (segd s) (corebot s) l1)) as [Hle|Hgt].
    + eapply wp_mono; [apply (wp_carve s l1 [] ds (fun p => link_before p Segmq)); try done; [cbn; lia|]|].
      * intros p s1 Q E1 E2 Hn1 Hn2 HQ. eapply wp_link_before; [|exact Hn1|exact HQ]. rewrite E2. exact Hb.
      * intros r s' Hr. left. exists l1, []. split; [done|]. split; [split; [lia|done]|]. by destruct r.
    + apply wp_ret. right. split_and!; [done..|]. intros k1 k2 E.
      destruct (decide (length k1 < length l1)%nat) as [Hl|Hl]; [by apply Hno|].
      pose proof (f_equal length E) as El. rewrite !length_app in El. simpl in El.
      destruct (app_prefix l1 [] k1 k2 E) as [-> ->]; [lia|]. lia.
  - destruct (segs_lookup s (l1 ++ p :: l2) ds p Hs ltac:(set_solver)) as (x & Hx & X1 & X2 & X3).
    change (after Segmq (Sg <$> p :: l2)) with (Sg p). cbn match.
    apply wp_bind, (wp_rds _ _ _ _ Hx), wp_ret. cbn [starts] in B2, Bh. rewrite Hx in B2, Bh. cbn [gcore fst] in B2, Bh.
    rewrite u16_addr by lia. destruct (Z.leb_spec sz (s_mbase x - ends gcore (segd s) (corebot s) l1)) as [Hle|Hgt].
    + eapply wp_mono; [apply (wp_carve s l1 (p :: l2) ds (fun q => link_before q (Sg p))); try done|].
      * cbn. rewrite Hx. cbn. lia.
      * intros q s1 Q E1 E2 Hn1 Hn2 HQ. eapply wp_link_before; [|exact Hn1|exact HQ]. rewrite E2. exact Hb.
      * intros r s' Hr. left. exists l1, (p :: l2). split; [done|]. split; [split; [lia|done]|]. by destruct r.
    + apply wp_bind, (wp_rds _ _ _ _ Hx). rewrite u16_addr by lia.
      specialize (IH (l1 ++ [p]) fuel). rewrite (ends_snoc _ _ _ _ x Hx), before_seg, <- app_assoc in IH. apply IH; [done| |simpl in Hfu; lia].
      intros k1 k2 E Hlt. rewrite length_app in Hlt. simpl in Hlt.
      destruct (decide (length k1 < length l1)%nat) as [Hl|Hl]; [by apply Hno|].
      destruct (app_prefix l1 (p :: l2) k1 k2 E) as [-> ->]; [lia|]. lia.
Qed.

Lemma segs_size (s : st) ms ds : segs s ms ds -> (length ms <= size (segd s))%nat.
Proof.
  intros Hs. destruct (sg_m _ _ _ Hs) as [_ Hn]. apply NoDup_cons in Hn as [_ Hn]. apply NoDup_fmap_1 in Hn.
  assert (Hsub : list_to_set ms ⊆ dom (segd s)).
  { intros q Hq. apply elem_of_list_to_set in Hq. apply elem_of_dom, (sg_dom _ _ _ Hs). by left. }
  apply subseteq_size in Hsub. by rewrite size_list_to_set, size_dom in Hsub.
Qed.

(** The outcome of a request for [sz] clicks, where [fit] says which hole is taken. *)
Definition core_got (fit : st -> Z -> list Z -> list Z -> Prop) (at_ : st -> list Z -> list Z -> Z)
    (s : st) (sz : Z) (ms ds : list Z) (r : option Z) (s' : st) : Prop :=
  (exists k1 k2, ms = k1 ++ k2 /\ fit s sz k1 k2 /\
     match r with Some p => carved s s' sz (at_ s k1 k2) p k1 k2 ds | None => refused s s' ms ds end) \/
  (r = None /\ s' = s /\ too_small s sz ms).

Definition at_bottom (s : st) (k1 k2 : list Z) : Z := ends gcore (segd s) (corebot s) k1.

Lemma wp_smalloc (s : st) ms ds sz : segs s ms ds -> 0 <= sz ->
  wp (smalloc sz) (core_got lowest_fit at_bottom s sz ms ds) s.
Proof.
  intros Hs Hsz. unfold smalloc. apply wp_bind. unfold wp at 1. cbn [get].
  pose proof (segs_size _ _ _ Hs) as Hl.
  apply (wp_smalloc_loop s ds sz Hsz ms [] _ Hs); [|lia].
  intros k1 k2 _ Hk. simpl in Hk. lia.
Qed.

Lemma wp_shalloc_loop (s : st) ds sz : 0 <= sz -> forall l1 l2 fuel, segs s (l1 ++ l2) ds ->
  (forall k1 k2, k1 ++ k2 = l1 ++ l2 -> (length l1 < length k1)%nat -> core_hole s k1 k2 < sz) ->
  (length l1 < fuel)%nat ->
  wp (shalloc_loop fuel sz (after Segmq (Sg <$> l2)) (starts gcore (segd s) (coretop s) l2))
    (core_got highest_fit (fun s k1 k2 => starts gcore (segd s) (coretop s) k2 - sz) s sz (l1 ++ l2) ds) s.
Proof.
  intros Hsz. induction l1 as [|p l1 IH] using rev_ind; intros l2 fuel Hs Hno Hfu;
    (destruct fuel as [|fuel]; [rewrite ?length_app in Hfu; simpl in Hfu; lia|]);
    cbn [shalloc_loop]; pose proof (sg_m _ _ _ Hs) as Hring; rewrite fmap_app in Hring;
    pose proof (ring_at _ _ _ _ _ Hring) as [Hf Hb]; pose proof (segs_bounds s _ _ ds Hs) as (B1 & B2 & B3 & Bh);
    apply wp_bind, (wp_back _ _ _ _ Hb); apply wp_bind.
  - change (before Segmq (Sg <$> [])) with Segmq. cbn match. apply wp_gets. cbn [ends] in B2, Bh.
    rewrite u16_addr by lia. destruct (Z.leb_spec sz (starts gcore (segd s) (coretop s) l2 - corebot s)) as [Hle|Hgt].
    + rewrite u16_addr by lia.
      eapply wp_mono; [apply (wp_carve s [] l2 ds (fun p => link_after p Segmq)); try done; [cbn; lia|lia|]|].
      * intros q s1 Q E1 E2 Hn1 Hn2 HQ. eapply wp_link_after; [|exact Hn2|exact HQ]. rewrite E1. exact Hf.
      * intros r s' Hr. left. exists [], l2. split; [done|]. split; [split; [lia|done]|]. by destruct r.
    + apply wp_ret. right. split_and!; [done..|]. intros k1 k2 E.
      destruct k1 as [|q k1]; [simpl in E; subst k2; lia|]. apply Hno; [done|simpl; lia].
  - destruct (segs_lookup s ((l1 ++ [p]) ++ l2) ds p Hs ltac:(set_solver)) as (x & Hx & X1 & X2 & X3).
    rewrite before_seg. cbn match.
    apply wp_bind, (wp_rds _ _ _ _ Hx), wp_ret. rewrite (ends_snoc _ _ _ _ x Hx) in B1, B2, Bh.
    rewrite (u16_addr (s_mbase x + s_size x)), u16_addr by lia.
    destruct (Z.leb_spec sz (starts gcore (segd s) (coretop s) l2 - (s_mbase x + s_size x))) as [Hle|Hgt].
    + rewrite u16_addr by lia.
      eapply wp_mono; [apply (wp_carve s (l1 ++ [p]) l2 ds (fun q => link_after q (Sg p))); try done; [|lia|]|].
      * rewrite (ends_snoc _ _ _ _ x Hx). lia.
      * intros q s1 Q E1 E2 Hn1 Hn2 HQ. rewrite before_seg in HQ.
        eapply wp_link_after; [|exact Hn2|exact HQ]. rewrite E1, <- (before_seg Segmq l1 p). exact Hf.
      * intros r s' Hr. left. exists (l1 ++ [p]), l2. split; [done|]. split; [split; [lia|done]|]. by destruct r.
    + apply wp_bind, (wp_rds _ _ _ _ Hx).
      specialize (IH (p :: l2) fuel). cbn [starts] in IH. rewrite Hx in IH.
      rewrite <- app_assoc. rewrite <- app_assoc in Hs, Hno. apply IH; [done| |rewrite length_app in Hfu; simpl in Hfu; lia].
      intros k1 k2 E Hlt. destruct (decide (length (l1 ++ [p]) < length k1)%nat) as [Hl|Hl]; [by apply Hno|].
      rewrite length_app in Hl. simpl in Hl. change ((p :: l2)) with ([p] ++ l2) in E. rewrite app_assoc in E.
      destruct (app_prefix (l1 ++ [p]) l2 k1 k2 E) as [-> ->]; [rewrite length_app; simpl; lia|]. lia.
Qed.

Definition at_top (sz : Z) (s : st) (k1 k2 : list Z) : Z := starts gcore (segd s) (coretop s) k2 - sz.

Lemma wp_shalloc (s : st) ms ds sz : segs s ms ds -> 0 <= sz ->
  wp (shalloc sz) (core_got highest_fit (at_top sz) s sz ms ds) s.
Proof.
  intros Hs Hsz. unfold shalloc. apply wp_bind. unfold wp at 1. cbn [get].
  pose proof (segs_size _ _ _ Hs) as Hl. rewrite <- (app_nil_r ms). rewrite <- (app_nil_r ms) in Hs.
  apply (wp_shalloc_loop s ds sz Hsz ms [] _ Hs); [|lia].
  intros k1 k2 E Hlt. apply (f_equal length) in E. rewrite !length_app in E. simpl in E. lia.
Qed.

(** Both ways of looking for room, and what the result has in common. *)
Definition sxfit (f : Z) : st -> Z -> list Z -> list Z -> Prop :=
  if Z.land f SFHIGH =? 0 then lowest_fit else highest_fit.
Definition sxat (f sz : Z) : st -> list Z -> list Z -> Z :=
  if Z.land f SFHIGH =? 0 then at_bottom else at_top sz.

Lemma wp_sxalloc (s : st) ms ds sz f : segs s ms ds -> 0 <= sz ->
  wp (sxalloc sz f) (core_got (sxfit f) (sxat f sz) s sz ms ds) s.
Proof.
  intros Hs Hsz. unfold sxalloc, sxfit, sxat. destruct (Z.land f SFHIGH =? 0); [by apply wp_smalloc|by apply wp_shalloc].
Qed.
End Segq.
