(* ===== verification/Segram.v ===== *)
(** Core: what clearing and copying clicks does to it, overlaps included. *)
From S2P Require Import Prelude Sched Dlist Kheap Seg.
Local Open Scope Z_scope.

(** Clicks [a] to [a+n], in bytes. *)
Definition inclicks (a n x : Z) : Prop := 1024 * a <= x < 1024 * (a + n).

#[export] Instance inclicks_dec a n x : Decision (inclicks a n x).
Proof. unfold inclicks. solve_decision. Defined.

Definition cleared (a n : Z) (m m' : Z -> Z) : Prop :=
  forall x, m' x = if decide (inclicks a n x) then 0 else m x.

Definition moved_to (f t n : Z) (m m' : Z -> Z) : Prop :=
  forall x, m' x = if decide (inclicks t n x) then m (x - 1024 * t + 1024 * f) else m x.

Lemma click_bool a x : (256 * (4 * a) <=? x) && (x <? 256 * (4 * a) + 1024) = bool_decide (inclicks a 1 x).
Proof.
  unfold inclicks. destruct (Z.leb_spec (256 * (4 * a)) x), (Z.ltb_spec x (256 * (4 * a) + 1024)); simpl;
    symmetry; (rewrite bool_decide_eq_true || rewrite bool_decide_eq_false); lia.
Qed.

Lemma u16_click a : 0 <= a < 16384 -> u16 (4 * a) = 4 * a.
Proof. intros. apply u16_small. lia. Qed.

Lemma clear_click_spec a m : cleared a 1 m (clear_click (4 * a) m).
Proof. intros x. unfold clear_click. rewrite click_bool. by case_bool_decide; case_decide. Qed.

Lemma copy_click_spec f t m : moved_to f t 1 m (copy_click (4 * f) (4 * t) m).
Proof.
  intros x. unfold copy_click. rewrite click_bool. case_bool_decide; case_decide; try done. f_equal. lia.
Qed.

Lemma sclear_loop_spec n : forall a m, 0 <= a -> a + Z.of_nat n <= 16384 ->
  cleared a (Z.of_nat n) m (sclear_loop n (u16 (4 * a)) m).
Proof.
  induction n as [|n IH]; intros a m Ha Hn x; cbn [sclear_loop].
  - destruct (decide _) as [Hi|]; [unfold inclicks in Hi; lia|done].
  - rewrite u16_click by lia. replace (4 * a + 4) with (4 * (a + 1)) by lia.
    rewrite IH by lia. rewrite clear_click_spec. unfold inclicks.
    repeat (destruct (decide _)); try done; lia.
Qed.

Lemma sclear_ram_spec a n m : 0 <= a -> 0 <= n -> a + n <= 16384 -> cleared a n m (sclear_ram a n m).
Proof.
  intros Ha Hn Hb. unfold sclear_ram. rewrite (proj2 (Z.leb_le n 32768)) by lia.
  rewrite <- (Z2Nat.id n) at 1 by done. apply sclear_loop_spec; lia.
Qed.

(** From left to right, a copy is right when it moves down, or over nothing of its own. *)
Lemma slrcopy_loop_spec n : forall f t m, 0 <= f -> 0 <= t -> f + Z.of_nat n <= 16384 -> t + Z.of_nat n <= 16384 ->
  t <= f \/ f + Z.of_nat n <= t ->
  moved_to f t (Z.of_nat n) m (slrcopy_loop n (u16 (4 * f)) (u16 (4 * t)) m).
Proof.
  induction n as [|n IH]; intros f t m Hf Ht Hfn Htn Ho x; cbn [slrcopy_loop].
  - destruct (decide _) as [Hi|]; [unfold inclicks in Hi; lia|done].
  - rewrite !u16_click by lia. replace (4 * f + 4) with (4 * (f + 1)) by lia. replace (4 * t + 4) with (4 * (t + 1)) by lia.
    rewrite IH by lia. rewrite !copy_click_spec. unfold inclicks.
    repeat (destruct (decide _)); try (exfalso; lia); f_equal; lia.
Qed.

Lemma slrcopy_ram_spec f t n m : 0 <= f -> 0 <= t -> 0 <= n -> f + n <= 16384 -> t + n <= 16384 ->
  t <= f \/ f + n <= t -> moved_to f t n m (slrcopy_ram f t n m).
Proof.
  intros Hf Ht Hn Hfn Htn Ho. unfold slrcopy_ram. destruct (decide (n = 0)) as [->|Hne].
  { intros x. destruct (decide _) as [Hi|]; [unfold inclicks in Hi; lia|done]. }
  unfold u32. rewrite wrapu_small by lia.
  replace (4 * (f * 65536 + t)) with ((4 * f) * 65536 + 4 * t) by lia.
  rewrite Z.div_add_l, (Z.div_small (4 * t)), Z.add_0_r by lia.
  rewrite Z.add_comm, Z.mod_add, Z.mod_small by lia.
  pose proof (slrcopy_loop_spec (Z.to_nat n) f t m) as Hl. rewrite Z2Nat.id in Hl by done.
  rewrite !u16_click in Hl by lia. apply Hl; lia.
Qed.

Lemma srlcopy_loop_spec n : forall s1 s2 m, 0 <= s1 -> 0 <= s2 -> s1 + Z.of_nat n <= 16384 -> s2 + Z.of_nat n <= 16384 ->
  s1 <= s2 \/ s2 + Z.of_nat n <= s1 ->
  moved_to s1 s2 (Z.of_nat n) m (srlcopy_loop n (s1 + Z.of_nat n) (s2 + Z.of_nat n) m).
Proof.
  induction n as [|n IH]; intros s1 s2 m H1 H2 H1n H2n Ho x; cbn [srlcopy_loop].
  - destruct (decide _) as [Hi|]; [unfold inclicks in Hi; lia|done].
  - rewrite !u16_small by lia.
    replace (s1 + Z.of_nat (S n) - 1) with (s1 + Z.of_nat n) by lia.
    replace (s2 + Z.of_nat (S n) - 1) with (s2 + Z.of_nat n) by lia.
    rewrite IH by lia. rewrite !slrcopy_ram_spec by lia. unfold inclicks.
    repeat (destruct (decide _)); try (exfalso; lia); f_equal; lia.
Qed.

(** From right to left it is right when it moves up. *)
Lemma srlcopy_ram_spec s1 s2 n m : 0 <= s1 -> 0 <= s2 -> 0 <= n -> s1 + n <= 16384 -> s2 + n <= 16384 ->
  s1 <= s2 \/ s2 + n <= s1 -> moved_to s1 s2 n m (srlcopy_ram s1 s2 n m).
Proof.
  intros H1 H2 Hn H1n H2n Ho. unfold srlcopy_ram. rewrite !u16_small by lia.
  pose proof (srlcopy_loop_spec (Z.to_nat n) s1 s2 m) as Hl. rewrite Z2Nat.id in Hl by done. by apply Hl.
Qed.

(** ** The contents of a segment *)

(** Byte [j] of the segment described by [x]. *)
Definition sbyte (m : Z -> Z) (x : SEG) (j : Z) : Z := m (1024 * s_mbase x + j).

(** [x'] holds after [m'] what [x] held after [m], byte for byte, [off] further on. *)
Definition same_data (m m' : Z -> Z) (x x' : SEG) (off : Z) : Prop :=
  forall j, 0 <= j < 1024 * s_size x -> sbyte m' x' (j + off) = sbyte m x j.

Definition zero_data (m : Z -> Z) (x : SEG) (lo hi : Z) : Prop :=
  forall j, lo <= j < hi -> sbyte m x j = 0.
