(* ===== verification/Segmap.v ===== *)
(** The hardware map of the running process: what [mproto] makes of its segments
    and [segload] puts into the MMU. *)
From S2P Require Import Prelude Sched Dlist Kheap Seg Segq Segram.
Local Open Scope Z_scope.
Local Open Scope kernel_scope.

(** ** Slots of a process *)

Definition slots : list Z := seqZ 0 (NUSEG + 1).

Definition nine_slots (ps : list PSEG) : Prop := Forall (fun x => length (pp_segp x) = 9%nat) ps.

Lemma nine_lookup ps k x i : nine_slots ps -> ps !! k = Some x -> i ∈ slots -> is_Some (pp_segp x !! Z.to_nat i).
Proof.
  intros Hn Hx Hi. unfold nine_slots in Hn. rewrite Forall_lookup in Hn. apply lookup_lt_is_Some. rewrite (Hn k x Hx).
  unfold slots, NUSEG in Hi. apply elem_of_seqZ in Hi. lia.
Qed.

(** ** What the map should be

    A segment takes hardware segments of [MSSIZE] clicks, one after the other;
    the MMU counts in blocks of 256 bytes, four to a click.  A segment that grows
    downward ends where its hardware segment ends. *)

Definition pieces (y : SEG) : Z := (s_size y + (MSSIZE - 1)) / MSSIZE.
Definition downward (y : SEG) : bool := negb (Z.land (s_flags y) SFDOWN =? 0).
Definition limit (down : bool) (left : Z) : Z :=
  if MSSIZE <=? left then 255 else if down then 4 * (MSSIZE - left) else 4 * left - 1.
Definition access (y : SEG) : Z :=
  (if negb (Z.land (s_flags y) SFSHRX =? 0) then 1 else 0) + (if downward y then 32 else 0).
(** Hardware segment [j] of the segment [y], where it lies now. *)
Definition entry (y : SEG) (j : Z) : hsegs :=
  Hseg (u16 (4 * (s_mbase y - (if downward y then MSSIZE - s_size y else 0)) + 256 * j))
    (limit (downward y) (s_size y - MSSIZE * j)) (access y).

(** Where the next segment goes: the stack and the libraries have fixed places. *)
Definition next_hw (i sn : Z) : Z :=
  if i =? SISTACK then USTACK + 1 else if i =? SISSLIB then USTACK + 2 else if i =? SIPSLIB then USEG else sn.
Definition slot_seg (d : gmap Z SEG) (x : PSEG) (i : Z) : option SEG :=
  match pp_segp x !! Z.to_nat i with Some (Some p) => d !! p | _ => None end.

(** The segments of the slots [l] and the first hardware segment of each. *)
Fixpoint hw_map (d : gmap Z SEG) (x : PSEG) (l : list Z) (sn : Z) : list (Z * SEG) :=
  match l with
  | [] => []
  | i :: l =>
    match slot_seg d x i with
    | None => hw_map d x l (next_hw i sn)
    | Some y => (sn, y) :: hw_map d x l (next_hw i (sn + pieces y))
    end
  end.
(** They fit: what [mproto] wants of a process. *)
Fixpoint map_fits (d : gmap Z SEG) (x : PSEG) (l : list Z) (sn : Z) : bool :=
  match l with
  | [] => true
  | i :: l =>
    match slot_seg d x i with
    | None => (sn <=? next_hw i sn) && map_fits d x l (next_hw i sn)
    | Some y =>
      let e := sn + pieces y in
      (0 <=? s_size y) && (s_size y <? 32768) && negb (downward y && (MSSIZE - 1 <=? s_size y)) &&
      (e <=? NHUSEG) && (e <=? next_hw i e) && map_fits d x l (next_hw i e)
    end
  end.

(** The slots that are mapped. *)
Definition mslots : list Z := seqZ SISTACK 7.

Lemma u16_add_l a b : u16 (u16 a + b) = u16 (a + b).
Proof. unfold u16, wrapu. by rewrite Zplus_mod_idemp_l. Qed.
Lemma u16_mul_r a b : u16 (a * u16 b) = u16 (a * b).
Proof. unfold u16, wrapu. by rewrite Zmult_mod_idemp_r. Qed.
Lemma pieces_range y : 0 <= s_size y -> 0 <= pieces y.
Proof. intros Hs. apply Z.div_pos; unfold MSSIZE; lia. Qed.

Lemma uproto_loop_map fuel f flags : forall b l sn hp, let n := Z.max 0 ((l + 63) / 64) in
  0 <= b < 65536 -> 0 <= sn -> n < Z.of_nat fuel -> sn + n <= 32 -> length hp = 32%nat ->
  exists hp', uproto_loop fuel f flags b l sn hp = (Some (sn + n), hp') /\ length hp' = 32%nat /\
    (forall k, (k < Z.to_nat sn)%nat -> hp' !! k = hp !! k) /\
    forall j, 0 <= j < n -> hp' !! Z.to_nat (sn + j) = Some (Hseg (u16 (b + 256 * j)) (limit (negb (Z.land flags SFDOWN =? 0)) (l - MSSIZE * j)) f).
Proof.
  induction fuel as [|fuel IH]; intros b l sn hp n Hb Hsn Hf Hfit Hl; [unfold n in *; lia|]. cbn [uproto_loop].
  destruct (Z.ltb_spec 0 l) as [Hpos|Hneg].
  2: { assert (n = 0) as -> by (unfold n; Z.to_euclidean_division_equations; lia). exists hp. rewrite Z.add_0_r. split_and!; try done. lia. }
  assert (n = (l + 63) / 64 /\ n = Z.max 0 ((l - 64 + 63) / 64) + 1) as [En En'].
  { unfold n. split; Z.to_euclidean_division_equations; lia. }
  rewrite (proj2 (Z.leb_gt NHUSEG sn)) by (unfold NHUSEG; lia).
  set (hl := if MSSIZE <=? l then 255 else _).
  assert (u8 hl = limit (negb (Z.land flags SFDOWN =? 0)) l) as Ehl.
  { unfold hl, limit, MSSIZE. destruct (Z.leb_spec 64 l); [done|].
    destruct (negb _); rewrite Z.shiftl_mul_pow2 by lia; (rewrite u8_small; [|lia]); change (2 ^ 2) with 4; lia. }
  set (hp1 := <[Z.to_nat sn := Hseg b (u8 hl) f]> hp).
  assert (length hp1 = 32%nat) as Hl1 by (unfold hp1; by rewrite length_insert).
  destruct (IH (u16 (b + 256)) (l - MSSIZE) (sn + 1) hp1) as (hp' & E & Hl' & Hlow & Hent); [apply u16_range|lia|unfold MSSIZE; lia|unfold MSSIZE; lia|done|].
  exists hp'. rewrite E. assert (sn + 1 + Z.max 0 ((l - MSSIZE + 63) / 64) = sn + n) as -> by (unfold MSSIZE; lia). split; [done|]. split; [done|]. split.
  - intros k Hk. rewrite Hlow by lia. unfold hp1. rewrite list_lookup_insert_ne by lia. done.
  - intros j Hj. destruct (decide (j = 0)) as [->|Hj0].
    + rewrite Z.add_0_r, Hlow by lia. unfold hp1. rewrite list_lookup_insert_eq by lia. rewrite Z.mul_0_r, Z.add_0_r, Z.mul_0_r, Z.sub_0_r.
      by rewrite u16_small, <- Ehl by lia.
    + replace (sn + j) with (sn + 1 + (j - 1)) by lia. rewrite Hent by (unfold MSSIZE; lia).
      replace (u16 (u16 (b + 256) + 256 * (j - 1))) with (u16 (b + 256 * j)); [by replace (l - MSSIZE - MSSIZE * (j - 1)) with (l - MSSIZE * j) by lia|].
      rewrite u16_add_l. f_equal. lia.
Qed.

Section Segmap.
Context {H : Type} `{!Kheap H} `{!KheapLaws H} {I : Type} `{!Inodes I}.
#[local] Abbreviation st := (segst (H := H) (I := I)).

Lemma wp_rdps (s : st) k x (Q : PSEG -> st -> Prop) : procl s !! k = Some x -> Q x s -> wp (rdp k) Q s.
Proof. intros E HQ. unfold wp, rdp, kbind. simpl. by rewrite E. Qed.

Lemma wp_wrps (s : st) k g x (Q : unit -> st -> Prop) : procl s !! k = Some x ->
  Q tt (set_procl (<[k := g x]> (procl s)) s) -> wp (wrp k g) Q s.
Proof. intros E HQ. unfold wp, wrp, rdp, kbind. simpl. by rewrite E. Qed.

Lemma wp_segp (s : st) k i x v (Q : option Z -> st -> Prop) : procl s !! k = Some x ->
  pp_segp x !! Z.to_nat i = Some v -> Q v s -> wp (segp k i) Q s.
Proof. intros Hx Hv HQ. unfold segp. by apply wp_bind, (wp_rdps _ _ _ _ Hx), (wp_deref _ v). Qed.

(** ** Loading the MMU *)

(** The same process, but for the mark. *)
Definition alike (x x' : PSEG) : Prop :=
  pp_segp x' = pp_segp x /\ Z.land (pp_flags x') (Z.lnot PFSPROTO) = Z.land (pp_flags x) (Z.lnot PFSPROTO).

#[export] Instance alike_refl : Reflexive alike.
Proof. by intros x. Qed.
#[export] Instance alike_trans : Transitive alike.
Proof. intros x y z [S1 F1] [S2 F2]. split; congruence. Qed.

(** What loading the MMU leaves alone. *)
Definition calm (s : st) :=
  (s_forw s, s_back s, segd s, heap s, inodes s, self s, ram s, (corebot s, coretop s, swapbot s, swaptop s),
   (sexflag s, seglink s, pnxgate s, swapgate s, swapreq s, swaperr s), (segpacks s, segpackc s, ubase s)).

Definition refs_ok (s : st) : Prop :=
  forall k x i p, procl s !! k = Some x -> pp_segp x !! i = Some (Some p) -> is_Some (segd s !! p).

Definition procs_ok (s : st) : Prop := nine_slots (procl s) /\ (self s < length (procl s))%nat /\ refs_ok s.

Lemma procs_slot (s : st) i : procs_ok s -> 0 <= i < 9 -> exists x v, procl s !! self s = Some x /\
  pp_segp x !! Z.to_nat i = Some v /\ (forall p, v = Some p -> exists y, segd s !! p = Some y).
Proof.
  intros (Hn & Hl & Hr) Hi. destruct (lookup_lt_is_Some_2 _ _ Hl) as [x Hx].
  destruct (nine_lookup _ _ _ i Hn Hx) as [v Hv]; [apply elem_of_seqZ; unfold NUSEG; lia|].
  exists x, v. split_and!; [done..|]. intros p ->. by destruct (Hr _ _ _ _ Hx Hv) as [y Hy]; exists y.
Qed.

Lemma procs_calm (s s' : st) : procs_ok s -> calm s' = calm s -> procl s' = procl s -> procs_ok s'.
Proof.
  intros (Hn & Hl & Hr) Hc Hp. unfold calm in Hc. injection Hc as _ _ Hd _ _ Hs _ _ _ _ _ _ _ _ _ _ _ _ _ _.
  unfold procs_ok, refs_ok. rewrite Hp, Hs, Hd. done.
Qed.

Definition loads (s s' : st) : Prop := calm s' = calm s /\ procl s' = procl s.

Lemma wp_sproto_loop l : forall (s : st), procs_ok s -> length (u_segl s) = 8%nat -> (forall n, n ∈ l -> 0 <= n < 8) ->
  wp (sproto_loop l) (fun _ s' => (loads s s' /\ length (u_segl s') = 8%nat) /\ mp_hsegs s' = mp_hsegs s) s.
Proof.
  induction l as [|n l IH]; intros s Hp Hu Hl; cbn [sproto_loop]; [by apply wp_ret|].
  destruct (procs_slot s n Hp) as (x & v & Hx & Hv & Hd); [specialize (Hl n ltac:(by left)); lia|].
  apply wp_bind, wp_gets, wp_bind, (wp_segp _ _ _ _ _ _ Hx Hv), wp_bind.
  assert (Hrest : forall s1 : st, loads s s1 -> length (u_segl s1) = 8%nat -> mp_hsegs s1 = mp_hsegs s ->
    wp (sproto_loop l) (fun _ s' => (loads s s' /\ length (u_segl s') = 8%nat) /\ mp_hsegs s' = mp_hsegs s) s1).
  { intros s1 [C1 P1] Hu1 M1. eapply wp_mono; [apply (IH s1); [by eapply procs_calm|done|]|].
    - intros m Hm. apply Hl. by right.
    - intros _ s' [[[C2 P2] Hu2] M2]. split; [|congruence]. split; [|done]. split; congruence. }
  destruct v as [p|]; [|apply wp_ret; by apply Hrest].
  destruct (Hd p eq_refl) as [y Hy]. apply wp_bind, (wp_rds _ _ _ _ Hy), wp_bind. unfold wp at 1. cbn [get].
  destruct (lookup_lt_is_Some_2 (u_segl s) (Z.to_nat n)) as [sr Hsr]; [specialize (Hl n ltac:(by left)); lia|].
  apply wp_bind, (wp_deref _ sr _ _ Hsr), wp_modify. apply Hrest; [done| |done]. cbn. by rewrite length_insert.
Qed.

Lemma wp_uproto (s : st) sp sn i : (forall p, sp = Some p -> exists y, segd s !! p = Some y) ->
  length (u_segl s) = 8%nat -> 0 <= i < 8 ->
  wp (uproto sp sn i) (fun _ s' => loads s s' /\ length (u_segl s') = 8%nat) s.
Proof.
  intros Hd Hu Hi. destruct sp as [p|]; [|by apply wp_ret]. destruct (Hd p eq_refl) as [y Hy].
  apply wp_bind, (wp_rds _ _ _ _ Hy). cbn zeta. destruct (_ && (MSSIZE - 1 <=? _)); [by apply wp_ret|].
  destruct (lookup_lt_is_Some_2 (u_segl s) (Z.to_nat i)) as [sr Hsr]; [lia|].
  apply wp_bind. unfold wp at 1. cbn [get]. apply wp_bind, (wp_deref _ sr _ _ Hsr), wp_bind, wp_modify, wp_bind, wp_modify.
  assert (Hlen : length (<[Z.to_nat i := Sr (sr_flag sr) (ADDR sn (if negb (Z.land (s_flags y) SFDOWN =? 0) then
    u16 (Z.shiftl (MSSIZE - s16 (s_size y)) 10) else 0)) (sr_size sr) (sr_segp sr)]> (u_segl s)) = 8%nat) by by rewrite length_insert.
  destruct (fst _); [|apply wp_ret; done]. apply wp_bind, wp_gets, wp_bind.
  destruct (mp_nseg _ <? z); [apply wp_modify|apply wp_ret]; apply wp_ret; done.
Qed.

Lemma wp_mproto_loop l : forall (s : st) sn, procs_ok s -> length (u_segl s) = 8%nat -> (forall n, n ∈ l -> 0 <= n < 8) ->
  wp (mproto_loop l sn) (fun _ s' => loads s s') s.
Proof.
  induction l as [|n l IH]; intros s sn Hp Hu Hl; cbn [mproto_loop]; [by apply wp_ret|].
  destruct (procs_slot s n Hp) as (x & v & Hx & Hv & Hd); [specialize (Hl n ltac:(by left)); lia|].
  apply wp_bind, wp_gets, wp_bind, (wp_segp _ _ _ _ _ _ Hx Hv), wp_bind.
  eapply wp_mono; [apply (wp_uproto s v sn n Hd Hu); apply Hl; by left|].
  intros r s1 [[C1 P1] Hu1]. destruct r as [sn'|]; [|by apply wp_ret].
  eapply wp_mono; [apply (IH s1); [by eapply procs_calm|done|]|].
  - intros m Hm. apply Hl. by right.
  - intros _ s' [C2 P2]. split; congruence.
Qed.

(** Nobody but the running process is touched. *)
Definition reloaded (s s' : st) : Prop :=
  calm s' = calm s /\ Forall2 alike (procl s) (procl s') /\ forall k, k <> self s -> procl s' !! k = procl s !! k.

Lemma alike_list_refl ps : Forall2 alike ps ps.
Proof. induction ps; constructor; done. Qed.

Lemma alike_insert ps k x x' : ps !! k = Some x -> alike x x' -> Forall2 alike ps (<[k := x']> ps).
Proof.
  intros Hx Ha. apply Forall2_same_length_lookup_2; [by rewrite length_insert|].
  intros j y y' Hy Hy'. apply list_lookup_insert_Some in Hy' as [(<- & <- & _)|[_ Hy']]; [by simplify_eq|]. by simplify_eq.
Qed.

Lemma seqZ_range a n x : x ∈ seqZ a n -> a <= x < a + n.
Proof. rewrite elem_of_seqZ. lia. Qed.

Lemma loads_reloaded (s s' s'' : st) : reloaded s s' -> loads s' s'' -> reloaded s s''.
Proof. intros (C & F & O) [C' P']. split; [congruence|]. by rewrite P'. Qed.

Lemma wp_mproto (s0 s : st) : reloaded s0 s -> procs_ok s -> length (u_segl s) = 8%nat ->
  wp mproto (fun _ s' => reloaded s0 s') s.
Proof.
  intros Hr Hp Hu. unfold mproto. apply wp_bind, wp_modify. set (s1 := set_mp_nseg 0 s).
  assert (Hr1 : reloaded s0 s1) by done. assert (Hp1 : procs_ok s1) by done.
  destruct (procs_slot s1 SIPTEXT Hp1) as (x & a & Hx & Ha & _); [done|].
  destruct (procs_slot s1 SISTEXT Hp1) as (x2 & b & Hx2 & Hb & _); [done|].
  destruct (procs_slot s1 SISDATA Hp1) as (x3 & c & Hx3 & Hc & _); [done|].
  destruct (procs_slot s1 SIPDATA Hp1) as (x4 & d & Hx4 & Hd & Hdd); [done|].
  assert (x2 = x) by congruence. assert (x3 = x) by congruence. assert (x4 = x) by congruence. subst x2 x3 x4.
  apply wp_bind, wp_gets, wp_bind, (wp_rdps _ _ _ _ Hx).
  destruct (negb (Z.land (pp_flags x) PFKERN =? 0)).
  - apply wp_bind, (wp_segp _ _ _ _ _ _ Hx Ha), wp_bind, (wp_segp _ _ _ _ _ _ Hx Hb), wp_bind,
      (wp_segp _ _ _ _ _ _ Hx Hc), wp_bind, (wp_segp _ _ _ _ _ _ Hx Hd), wp_bind.
    assert (Hk : forall big, wp match a, b, c with
      | None, None, None => if (big : bool) then seterr ENOEXEC ;;; kret false else kret true
      | _, _, _ => seterr ENOEXEC ;;; kret false end (fun _ s' => reloaded s0 s') s1).
    { intros big. assert (He : reloaded s0 (set_u_error ENOEXEC s1)) by exact Hr1.
      destruct a, b, c, big; solve [apply wp_ret; exact Hr1|apply wp_bind, wp_modify, wp_ret; exact He]. }
    destruct d as [p|]; [|apply wp_ret; exact (Hk false)]. destruct (Hdd p eq_refl) as [y Hy].
    apply wp_bind, (wp_rds _ _ _ _ Hy), wp_ret. exact (Hk _).
  - eapply wp_mono; [apply (wp_mproto_loop _ s1 _ Hp1 Hu)|].
    + intros n Hn%seqZ_range. unfold SISTACK in Hn. lia.
    + intros r s' Hl. by eapply loads_reloaded.
Qed.

Lemma procs_wrp (s : st) x y : procs_ok s -> procl s !! self s = Some x -> pp_segp y = pp_segp x -> procs_ok (set_procl (<[self s := y]> (procl s)) s).
Proof.
  intros (Hn & Hl & Hr) Hx Hy. split; [|split].
  - cbn. apply Forall_insert; [done|]. unfold nine_slots in Hn. rewrite Forall_lookup in Hn. rewrite Hy. exact (Hn _ x Hx).
  - cbn. by rewrite length_insert.
  - intros k z i p Hz Hi. cbn in Hz |- *. apply list_lookup_insert_Some in Hz as [(<- & <- & _)|[_ Hz]]; [|by eapply Hr].
    rewrite Hy in Hi. by eapply Hr.
Qed.

Lemma wp_sproto (s : st) : procs_ok s -> wp sproto (fun _ s' => reloaded s s') s.
Proof.
  intros Hp. unfold sproto. apply wp_bind, wp_modify, wp_bind.
  eapply wp_mono; [apply wp_sproto_loop; [exact Hp|done|]|].
  { intros n Hn%seqZ_range. unfold NUSEG in Hn. lia. }
  intros _ s1 [[[C1 P1] Hu1] _]. cbn in C1, P1. pose proof (procs_calm s s1 Hp C1 P1) as Hp1.
  apply wp_bind, wp_gets. destruct (procs_slot s1 0 Hp1) as (x & _ & Hx & _); [done|].
  apply wp_bind, (wp_wrps _ _ _ _ _ Hx). set (y := set_pp_flags _ x).
  assert (Ha : alike x y).
  { split; [done|]. unfold y, clr_flags. cbn [pp_flags set_pp_flags]. rewrite <- Z.land_assoc. by rewrite Z.land_diag. }
  apply wp_mproto; [|by apply (procs_wrp _ x)|done].
  assert (Es : self s1 = self s) by (unfold calm in C1; cbn in C1; congruence).
  split; [done|]. cbn. rewrite <- P1. split; [by eapply alike_insert|]. intros k Hk. rewrite list_lookup_insert_ne; [done|]. rewrite Es. by apply not_eq_sym.
Qed.

Lemma wp_segload (s : st) : procs_ok s -> wp segload (fun _ s' => reloaded s s') s.
Proof.
  intros Hp. unfold segload. destruct (procs_slot s 0 Hp) as (x & _ & Hx & _); [done|].
  assert (Hid : reloaded s s) by (split; [done|]; split; [apply alike_list_refl|done]).
  apply wp_bind, wp_gets, wp_bind, (wp_rdps _ _ _ _ Hx). destruct (negb (Z.land (pp_flags x) PFKERN =? 0)); [by apply wp_ret|].
  apply wp_bind. eapply wp_mono with (Q := fun _ s' => reloaded s s').
  - destruct (negb _); [|by apply wp_ret]. apply wp_bind. eapply wp_mono; [by apply wp_sproto|]. intros b s' Hs'. by apply wp_ret.
  - intros _ s' Hs'. apply wp_bind. unfold wp at 1. cbn [get]. by apply wp_modify.
Qed.


(** ** The map that is loaded *)

Lemma wp_uproto_map (s : st) p y sn i : segd s !! p = Some y -> length (u_segl s) = 8%nat -> 0 <= i < 8 -> length (mp_hsegs s) = 32%nat ->
  0 <= sn -> 0 <= s_size y < 32768 -> downward y && (MSSIZE - 1 <=? s_size y) = false -> sn + pieces y <= NHUSEG ->
  wp (uproto (Some p) sn i) (fun r s' => r = Some (sn + pieces y) /\ (loads s s' /\ length (u_segl s') = 8%nat) /\ length (mp_hsegs s') = 32%nat /\
    mp_nseg s <= mp_nseg s' /\ sn + pieces y <= mp_nseg s' /\ (forall k, (k < Z.to_nat sn)%nat -> mp_hsegs s' !! k = mp_hsegs s !! k) /\
    forall j, 0 <= j < pieces y -> mp_hsegs s' !! Z.to_nat (sn + j) = Some (entry y j)) s.
Proof.
  intros Hy Hu Hi Hm Hsn Hsz Hdown Hfit. apply wp_bind, (wp_rds _ _ _ _ Hy). cbn zeta. rewrite s16_small by lia.
  fold (downward y). rewrite Hdown. destruct (lookup_lt_is_Some_2 (u_segl s) (Z.to_nat i)) as [sr Hsr]; [lia|].
  apply wp_bind. unfold wp at 1. cbn [get]. apply wp_bind, (wp_deref _ sr _ _ Hsr), wp_bind, wp_modify, wp_bind, wp_modify.
  set (b := u16 (Z.shiftl _ 2)). set (f := if downward y then Z.lor _ 32 else _). cbn [mp_hsegs set_u_segl].
  assert (pieces y = Z.max 0 ((s_size y + 63) / 64)) as En.
  { pose proof (pieces_range y ltac:(lia)) as Hn. unfold pieces, MSSIZE in *. rewrite Z.max_r by done. do 2 f_equal. }
  destruct (uproto_loop_map (S (Z.to_nat NHUSEG)) f (s_flags y) b (s_size y) sn (mp_hsegs s)) as (hp' & E & Hl' & Hlow & Hent).
  { apply u16_range. } { done. } { unfold NHUSEG in *. lia. } { unfold NHUSEG in *. lia. } { done. }
  rewrite E. cbn [fst snd]. rewrite <- En in *. apply wp_bind, wp_gets, wp_bind.
  assert (forall j, 0 <= j < pieces y -> hp' !! Z.to_nat (sn + j) = Some (entry y j)) as Hent'.
  { intros j Hj. rewrite Hent by done. unfold entry. fold (downward y). do 2 f_equal.
    - unfold b. rewrite Z.shiftl_mul_pow2, u16_add_l by lia. change (2 ^ 2) with 4. rewrite (Z.mul_comm _ 4). destruct (downward y).
      + rewrite <- u16_add_l, u16_mul_r, u16_add_l. f_equal; lia.
      + f_equal; lia.
    - unfold f, access. destruct (downward y), (negb _); reflexivity. }
  cbn [mp_nseg set_mp_hsegs set_u_segl]. destruct (Z.ltb_spec (mp_nseg s) (sn + pieces y)); [apply wp_modify|apply wp_ret]; apply wp_ret; cbn;
    (split_and!; try done; [by rewrite length_insert|lia..]).
Qed.

Lemma hw_map_from d x l : forall sn a y, map_fits d x l sn = true -> (a, y) ∈ hw_map d x l sn -> sn <= a.
Proof.
  induction l as [|i l IH]; intros sn a y Hf Ha; cbn [hw_map map_fits] in *; [by apply not_elem_of_nil in Ha|].
  destruct (slot_seg d x i) as [z|].
  - rewrite !andb_true_iff, !Z.leb_le in Hf. destruct Hf as [[[[[Hs _] _] _] Hn] Hf].
    apply elem_of_cons in Ha as [[= -> ->]|Ha]; [done|]. pose proof (pieces_range z Hs). specialize (IH _ _ _ Hf Ha). lia.
  - apply andb_true_iff in Hf as [Hn%Z.leb_le Hf]. specialize (IH _ _ _ Hf Ha). lia.
Qed.

Lemma wp_mproto_map l : forall (s : st) sn x, procs_ok s -> procl s !! self s = Some x -> length (u_segl s) = 8%nat ->
  length (mp_hsegs s) = 32%nat -> 0 <= sn -> (forall n, n ∈ l -> 0 <= n < 8) -> map_fits (segd s) x l sn = true ->
  wp (mproto_loop l sn) (fun r s' => loads s s' /\ length (mp_hsegs s') = 32%nat /\ mp_nseg s <= mp_nseg s' /\
    (forall k, (k < Z.to_nat sn)%nat -> mp_hsegs s' !! k = mp_hsegs s !! k) /\
    forall a y j, (a, y) ∈ hw_map (segd s) x l sn -> 0 <= j < pieces y ->
      a + j < mp_nseg s' /\ mp_hsegs s' !! Z.to_nat (a + j) = Some (entry y j)) s.
Proof.
  induction l as [|i l IH]; intros s sn x Hp Hx Hu Hm Hsn Hl Hf; cbn [mproto_loop].
  { apply wp_ret. split_and!; try done. intros a y j []%not_elem_of_nil. }
  destruct (procs_slot s i Hp) as (x' & v & Hx' & Hv & Hd); [specialize (Hl i ltac:(by left)); lia|].
  assert (x' = x) by congruence. subst x'. apply wp_bind, wp_gets, wp_bind, (wp_segp _ _ _ _ _ _ Hx Hv), wp_bind.
  assert (Hi : 0 <= i < 8) by (apply Hl; by left). cbn [hw_map map_fits] in *.
  fold (next_hw i). destruct v as [p|].
  - destruct (Hd p eq_refl) as [y Hy]. assert (slot_seg (segd s) x i = Some y) as Es by (unfold slot_seg; by rewrite Hv; cbn; rewrite Hy).
    rewrite Es in *. rewrite !andb_true_iff, !Z.leb_le, Z.ltb_lt, negb_true_iff in Hf. destruct Hf as [[[[[F1 F2] F3] F4] F5] F6].
    eapply wp_mono; [apply (wp_uproto_map s p y sn i); try done; lia|]. cbn beta.
    intros r s1 (-> & [[C1 P1] Hu1] & Hm1 & N1 & N2 & L1 & E1). fold (next_hw i (sn + pieces y)).
    pose proof C1 as C1'. unfold calm in C1'. injection C1' as _ _ Ed _ _ Eself _ _ _ _ _ _ _ _ _ _ _ _ _ _. pose proof (pieces_range y F1) as Hn.
    eapply wp_mono; [apply (IH s1 (next_hw i (sn + pieces y)) x)|].
    + by eapply procs_calm.
    + by rewrite P1, Eself.
    + done.
    + done.
    + lia.
    + intros n Hin. apply Hl. by right.
    + by rewrite Ed.
    + cbn beta. intros r s' ([C2 P2] & Hm2 & N3 & L2 & E2). split; [split; congruence|]. split; [done|]. split; [lia|]. split.
      * intros k Hk. rewrite L2 by lia. by apply L1.
      * intros a z j Ha Hj. apply elem_of_cons in Ha as [[= -> ->]|Ha]; [|apply E2; [by rewrite Ed|done]].
        split; [lia|]. rewrite L2 by lia. by apply E1.
  - assert (slot_seg (segd s) x i = None) as Es by (unfold slot_seg; by rewrite Hv). rewrite Es in *.
    apply andb_true_iff in Hf as [F1%Z.leb_le F2]. cbn [uproto]. apply wp_ret. fold (next_hw i sn).
    eapply wp_mono; [apply (IH s (next_hw i sn) x); try done; [lia|intros n Hin; apply Hl; by right]|].
    cbn beta. intros r s' (C2 & Hm2 & N3 & L2 & E2). split_and!; try done. intros k Hk. apply L2. lia.
Qed.

(** The MMU maps the segments of the process [x]. *)
Definition in_mmu (s : st) (x : PSEG) : Prop :=
  forall a y j, (a, y) ∈ hw_map (segd s) x mslots USTACK -> 0 <= j < pieces y -> mmu s !! Z.to_nat (a + j) = Some (entry y j).

(** A process that is told maps its segments where they are now. *)
Lemma wp_segload_map (s : st) x : procs_ok s -> procl s !! self s = Some x -> Z.land (pp_flags x) PFKERN = 0 -> Z.land (pp_flags x) PFSPROTO <> 0 ->
  length (mp_hsegs s) = 32%nat -> map_fits (segd s) x mslots USTACK = true -> wp segload (fun _ s' => in_mmu s' x) s.
Proof.
  intros Hp Hx Hk Hs Hm Hf. unfold segload. apply wp_bind, wp_gets, wp_bind, (wp_rdps _ _ _ _ Hx).
  rewrite Hk, (proj2 (Z.eqb_neq _ 0) Hs). cbn [Z.eqb negb]. apply wp_bind, wp_bind. unfold sproto.
  apply wp_bind, wp_modify, wp_bind. set (s0 := set_u_segl _ s).
  eapply wp_mono; [apply (wp_sproto_loop _ s0); [exact Hp|done|]|].
  { intros n Hn%seqZ_range. unfold NUSEG in Hn. lia. }
  cbn beta. intros _ s1 [[[C1 P1] Hu1] M1]. pose proof C1 as C1'. unfold calm in C1'. injection C1' as _ _ Ed _ _ Es _ _ _ _ _ _ _ _ _ _ _ _ _ _.
  cbn in Ed, Es, P1. apply wp_bind, wp_gets. assert (procl s1 !! self s1 = Some x) as Hx1 by (by rewrite P1, Es).
  apply wp_bind, (wp_wrps _ _ _ _ _ Hx1). set (y := set_pp_flags _ x). set (s2 := set_procl _ s1).
  assert (procs_ok s2) as Hp2 by (apply (procs_wrp _ x); [by eapply (procs_calm s)|done|done]).
  assert (procl s2 !! self s2 = Some y) as Hx2 by (unfold s2; cbn; rewrite list_lookup_insert_eq; [done|by eapply lookup_lt_Some]).
  unfold mproto. apply wp_bind, wp_modify, wp_bind, wp_gets. set (s3 := set_mp_nseg 0 s2).
  apply wp_bind, (wp_rdps s3 _ _ _ Hx2).
  assert (Z.land (pp_flags y) PFKERN = 0) as ->.
  { unfold y, clr_flags. cbn [pp_flags set_pp_flags]. rewrite <- Z.land_assoc. exact Hk. }
  cbn [Z.eqb negb]. eapply wp_mono; [apply (wp_mproto_map mslots s3 USTACK y Hp2 Hx2)|].
  - done.
  - cbn. by rewrite M1.
  - done.
  - intros n Hn%seqZ_range. unfold SISTACK in Hn. lia.
  - cbn. rewrite Ed. exact Hf.
  - cbn beta. intros b s4 ([C4 P4] & Hm4 & N4 & _ & E4). apply wp_ret, wp_bind. unfold wp at 1. cbn [get]. apply wp_modify.
    pose proof C4 as C4'. unfold calm in C4'. injection C4' as _ _ Ed4 _ _ _ _ _ _ _ _ _ _ _ _ _ _ _ _ _. cbn in Ed4.
    intros a z j Ha Hj. cbn [segd set_mmu] in Ha. rewrite Ed4 in Ha. destruct (E4 a z j Ha Hj) as [Hlt He].
    rewrite Ed in Ha. pose proof (hw_map_from _ _ _ _ _ _ Hf Ha) as Ha0. unfold USTACK in Ha0. cbn [mmu set_mmu].
    pose proof (lookup_lt_Some _ _ _ He) as Hlen. rewrite lookup_app_l by (rewrite length_take; lia). by rewrite lookup_take_lt by lia.
Qed.
End Segmap.
