(* ===== verification/Segpack.v ===== *)
(** Compaction of core: [segmove] and [segpack]. *)
From S2P Require Import Prelude Sched Dlist Kheap Seg Segq Segram Segmap.
Local Open Scope Z_scope.
Local Open Scope kernel_scope.

(** ** Who holds a segment *)

Definition holds (p : Z) (x : PSEG) (i : Z) : bool := bool_decide (pp_segp x !! Z.to_nat i = Some (Some p)).

(** A process that must not see its segments move, and the user area in use. *)
Definition wired (me k : nat) (x : PSEG) (i : Z) : bool :=
  negb (Z.land (pp_flags x) (Z.lor PFLOCK (Z.lor PFKERN (Z.lor PFSWIO PFSLIB))) =? 0) ||
  ((i =? SIUSERP) && bool_decide (k = me)).

Definition swapped (x : PSEG) : bool := negb (Z.land (pp_flags x) PFSWAP =? 0).

Definition count (f : Z -> bool) (l : list Z) : Z := Z.of_nat (length (filter (fun i => f i = true) l)).

(** How many slots hold [p], of all processes and of those not swapped out, or
    None when one of them is wired. *)
Definition slot_refs (p : Z) (me k : nat) (x : PSEG) (l : list Z) : option (Z * Z) :=
  if existsb (fun i => holds p x i && wired me k x i) l then None
  else Some (count (holds p x) l, if swapped x then 0 else count (holds p x) l).

Fixpoint refs (p : Z) (me k : nat) (ps : list PSEG) : option (Z * Z) :=
  match ps with
  | [] => Some (0, 0)
  | x :: ps =>
    match slot_refs p me k x slots, refs p me (S k) ps with
    | Some (n, c), Some (n', c') => Some (n + n', c + c')
    | _, _ => None
    end
  end.

(** A mark for a new segmentation prototype changes nothing that matters here. *)
Definition marked (x x' : PSEG) : Prop :=
  pp_segp x' = pp_segp x /\ (pp_flags x' = pp_flags x \/ pp_flags x' = set_flags PFSPROTO (pp_flags x)).

#[export] Instance marked_refl : Reflexive marked.
Proof. intros x. split; [done|by left]. Qed.

Lemma set_flags_idem f x : set_flags f (set_flags f x) = set_flags f x.
Proof. unfold set_flags. rewrite <- Z.lor_assoc. by rewrite Z.lor_diag. Qed.

#[export] Instance marked_trans : Transitive marked.
Proof.
  intros x y z [S1 F1] [S2 F2]. split; [congruence|].
  destruct F1 as [F1|F1], F2 as [F2|F2]; [left; congruence|right; congruence|right; congruence|right].
  rewrite F2, F1. apply set_flags_idem.
Qed.

Lemma marked_land x x' f : marked x x' -> Z.land PFSPROTO f = 0 -> Z.land (pp_flags x') f = Z.land (pp_flags x) f.
Proof.
  intros [_ [->| ->]] Hf; [done|]. unfold set_flags. rewrite Z.land_lor_distr_l, Hf. apply Z.lor_0_r.
Qed.

Lemma marked_view p me k x x' : marked x x' -> holds p x' = holds p x /\ wired me k x' = wired me k x /\ swapped x' = swapped x.
Proof.
  intros Hm. unfold holds, wired, swapped. rewrite !(marked_land x x') by done. by rewrite (proj1 Hm).
Qed.

Lemma marked_refs p me ps : forall k ps', Forall2 marked ps ps' -> refs p me k ps' = refs p me k ps.
Proof.
  induction ps as [|x ps IH]; intros k ps' HF; [by apply Forall2_nil_inv_l in HF as ->|].
  apply Forall2_cons_inv_l in HF as (x' & ps1 & Hm & HF & ->). cbn [refs]. rewrite (IH _ _ HF).
  unfold slot_refs. by destruct (marked_view p me k x x' Hm) as (-> & -> & ->).
Qed.

Section Segpack.
Context {H : Type} `{!Kheap H} `{!KheapLaws H} {I : Type} `{!Inodes I}.
#[local] Abbreviation st := (segst (H := H) (I := I)).

Lemma set_procl_id (s : st) k x : procl s !! k = Some x -> set_procl (<[k := x]> (procl s)) s = s.
Proof. intros Hx. destruct s. unfold set_procl. cbn in *. by rewrite list_insert_id. Qed.

Lemma count_cons f i l : count f (i :: l) = (if f i then 1 else 0) + count f l.
Proof. unfold count. rewrite filter_cons. case_decide as Hd; destruct (f i); try done. simpl length. lia. Qed.

(** The look at one process. *)
Lemma wp_segmove_slots p k l : forall (s : st) x n c, procl s !! k = Some x ->
  (forall i, i ∈ l -> is_Some (pp_segp x !! Z.to_nat i)) ->
  wp (segmove_slots p k l n c) (fun r s' => exists x', s' = set_procl (<[k := x']> (procl s)) s /\ marked x x' /\
    match slot_refs p (self s) k x l with
    | None => r = None
    | Some (n', c') => r = Some (n + n', c + c') /\
        (n' <> 0 -> pp_flags x' = set_flags PFSPROTO (pp_flags x))
    end) s.
Proof.
  induction l as [|i l IH]; intros s x n c Hx Hl; cbn [segmove_slots].
  - apply wp_ret. exists x. rewrite set_procl_id by done. split; [done|]. split; [done|].
    unfold slot_refs, count. simpl. split; [|done]. f_equal. destruct (swapped x); f_equal; lia.
  - destruct (Hl i ltac:(by left)) as [v Hv]. apply wp_bind, (wp_segp _ _ _ _ _ _ Hx Hv).
    assert (Hh : holds p x i = bool_decide (v = Some p)).
    { unfold holds. rewrite Hv. apply bool_decide_ext. split; [by intros [= ->]|by intros ->]. }
    unfold slot_refs. cbn [existsb]. rewrite count_cons, Hh. destruct (decide (v = Some p)) as [Ev|Ev].
    + rewrite (bool_decide_eq_true_2 _ Ev). cbn [andb]. apply wp_bind, (wp_rdps _ _ _ _ Hx), wp_bind, wp_gets.
      unfold wired at 1. destruct (negb (Z.land (pp_flags x) _ =? 0)) eqn:Ew; cbn [orb].
      { apply wp_ret. exists x. rewrite set_procl_id by done. by split_and!. }
      destruct ((i =? SIUSERP) && bool_decide (k = self s)) eqn:Eu; cbn [orb].
      { apply wp_ret. exists x. rewrite set_procl_id by done. by split_and!. }
      apply wp_bind, (wp_wrps _ _ _ _ _ Hx). set (y := set_pp_flags _ x).
      assert (Hm : marked x y) by (split; [done|by right]).
      eapply wp_mono; [apply (IH _ y); [cbn; apply list_lookup_insert_eq; by eapply lookup_lt_Some|]|].
      { intros j Hj. apply Hl. by right. }
      intros r s' (x' & -> & Hm' & Hr). exists x'. cbn in Hr |- *. rewrite list_insert_insert_eq.
      split; [done|]. split; [by etrans|]. unfold slot_refs in Hr.
      destruct (marked_view p (self s) k x y Hm) as (E1 & E2 & E3). rewrite E1, E2, E3 in Hr.
      destruct (existsb _ l); [done|]. destruct Hr as [-> Hf]. split.
      * f_equal. unfold swapped. destruct (Z.land (pp_flags x) PFSWAP =? 0); cbn [negb]; f_equal; lia.
      * intros _. destruct Hm' as [_ [-> | ->]]; [done|]. cbn. apply set_flags_idem.
    + rewrite (bool_decide_eq_false_2 _ Ev). cbn [andb orb]. apply (IH s x n c Hx). intros j Hj. apply Hl. by right.
Qed.

Lemma marked_nine ps ps' : Forall2 marked ps ps' -> nine_slots ps -> nine_slots ps'.
Proof.
  induction 1 as [|x x' ps ps' Hm HF IH]; intros Hn; [constructor|]. apply Forall_cons in Hn as [Hx Hn].
  constructor; [|by apply IH]. by rewrite (proj1 Hm).
Qed.

(** Everybody who holds [p] is told to rebuild his prototype. *)
Definition told (p : Z) (ps ps' : list PSEG) : Prop :=
  forall k x, ps !! k = Some x -> count (holds p x) slots <> 0 ->
    exists x', ps' !! k = Some x' /\ pp_flags x' = set_flags PFSPROTO (pp_flags x).

Lemma marked_list_refl ps : Forall2 marked ps ps.
Proof. induction ps; constructor; done. Qed.

Lemma wp_segmove_procs p rest : forall pre (s : st) n c, procl s = pre ++ rest -> nine_slots rest ->
  wp (segmove_procs p (seq (length pre) (length rest)) n c) (fun r s' =>
    exists rest', s' = set_procl (pre ++ rest') s /\ Forall2 marked rest rest' /\
    match refs p (self s) (length pre) rest with
    | None => r = None
    | Some (n', c') => r = Some (n + n', c + c') /\ told p rest rest'
    end) s.
Proof.
  induction rest as [|x rest IH]; intros pre s n c Hps Hn; cbn [length seq segmove_procs].
  - apply wp_ret. exists []. rewrite <- Hps. split; [by destruct s|]. split; [done|]. cbn.
    split; [f_equal; f_equal; lia|]. intros k x Hx. by rewrite lookup_nil in Hx.
  - assert (Hx : procl s !! length pre = Some x) by (by rewrite Hps, list_lookup_middle).
    apply wp_bind. eapply wp_mono; [apply (wp_segmove_slots p _ _ s x n c Hx)|].
    { intros i Hi. apply (nine_lookup (x :: rest) 0 x i Hn); done. }
    change (seqZ 0 (NUSEG + 1)) with slots. intros r s1 (x' & -> & Hm & Hr). cbn [refs]. apply Forall_cons in Hn as [_ Hn].
    assert (Hps1 : <[length pre := x']> (procl s) = (pre ++ [x']) ++ rest).
    { rewrite Hps, <- (Nat.add_0_r (length pre)), insert_app_r. simpl. by rewrite <- app_assoc. }
    destruct (slot_refs p (self s) (length pre) x slots) as [[n1 c1]|] eqn:Esl.
    + destruct Hr as [-> Hfl].
      specialize (IH (pre ++ [x']) (set_procl (<[length pre := x']> (procl s)) s) (n + n1) (c + c1) Hps1 Hn).
      rewrite length_app, Nat.add_1_r in IH. eapply wp_mono; [exact IH|].
      intros r s' (rest' & -> & HF & Hr). exists (x' :: rest'). cbn in Hr |- *.
      rewrite <- app_assoc. split; [done|]. split; [by constructor|].
      destruct (refs p (self s) (S (length pre)) rest) as [[n2 c2]|]; [|done].
      destruct Hr as [-> Ht]. split; [f_equal; f_equal; lia|].
      intros k y Hy Hc. destruct k as [|k]; [|by apply (Ht k y)]. injection Hy as <-.
      exists x'. split; [done|]. apply Hfl. unfold slot_refs in Esl. destruct (existsb _ _); [done|]. by injection Esl as <- _.
    + subst r. apply wp_ret. exists (x' :: rest). rewrite Hps1, <- app_assoc. split; [done|].
      split; [|done]. constructor; [done|apply marked_list_refl].
Qed.

(** Whether [segmove] moves the segment [p], described by [x], down to [nb]. *)
Definition movable (s : st) (p nb : Z) (x : SEG) : bool :=
  negb (Z.land (s_flags x) SFCORE =? 0) &&
  negb (negb (Z.land (s_flags x) SFDOWN =? 0) && (nb + s_size x <? MSSIZE)) &&
  match refs p (self s) 0 (procl s) with
  | Some (n, c) => negb (n =? 0) && (n =? s_urefc x) && (c =? s_lrefc x)
  | None => false
  end.

(** One segment moved down, its bytes with it, and nothing else. *)
Definition moved_down (s s' : st) (p nb : Z) (x : SEG) : Prop :=
  exists ps' ram', s' = set_segd (<[p := set_s_mbase nb x]> (segd s)) (set_ram ram' (set_procl ps' s)) /\
    Forall2 marked (procl s) ps' /\ told p (procl s) ps' /\ moved_to (s_mbase x) nb (s_size x) (ram s) ram'.

Definition only_marked (s s' : st) : Prop := exists ps', s' = set_procl ps' s /\ Forall2 marked (procl s) ps'.

Lemma wp_segmove (s : st) p nb x : segd s !! p = Some x -> nine_slots (procl s) ->
  0 <= nb <= s_mbase x -> 0 <= s_size x -> s_mbase x + s_size x <= 16384 ->
  wp (segmove p nb) (fun r s' => r = movable s p nb x /\
    if r then moved_down s s' p nb x else only_marked s s') s.
Proof.
  intros Hx Hn Hnb Hsz Hhi. unfold segmove, movable. apply wp_bind, (wp_rds _ _ _ _ Hx).
  assert (Hid : only_marked s s) by (exists (procl s); split; [by destruct s|apply marked_list_refl]).
  destruct (Z.land (s_flags x) SFCORE =? 0); cbn [negb andb]; [by apply wp_ret|].
  rewrite u16_small by lia. destruct (_ && (nb + s_size x <? MSSIZE)); cbn [negb andb]; [by apply wp_ret|].
  apply wp_bind. unfold wp at 1. cbn [get]. apply wp_bind.
  eapply wp_mono; [exact (wp_segmove_procs p (procl s) [] s 0 0 eq_refl Hn)|].
  intros r s1 (ps' & -> & HF & Hr). cbn [length app] in Hr |- *.
  destruct (refs p (self s) 0 (procl s)) as [[n c]|].
  - destruct Hr as [-> Ht]. rewrite !Z.add_0_l. destruct (Z.eqb_spec n 0) as [->|Hn0]; cbn [negb andb orb].
    { apply wp_ret. split; [done|]. by exists ps'. }
    destruct (Z.eqb_spec n (s_urefc x)) as [_|]; cbn [negb andb orb]; [|apply wp_ret; split; [done|by exists ps']].
    destruct (Z.eqb_spec c (s_lrefc x)) as [_|]; cbn [negb andb orb]; [|apply wp_ret; split; [done|by exists ps']].
    apply wp_bind, wp_modify, wp_bind. apply (wp_wrs _ _ _ x); [done|]. apply wp_ret. split; [done|].
    exists ps', (slrcopy_ram (s_mbase x) nb (s_size x) (ram s)). split; [done|]. split; [done|]. split; [done|].
    apply slrcopy_ram_spec; lia.
  - subst r. apply wp_ret. split; [done|]. by exists ps'.
Qed.

(** ** Data stays with its segment *)

(** Every segment of [ms] is what it was, but for its address, and so are its bytes. *)
Definition kept (ms : list Z) (s s' : st) : Prop :=
  forall p x, p ∈ ms -> segd s !! p = Some x ->
    exists nb, segd s' !! p = Some (set_s_mbase nb x) /\ same_data (ram s) (ram s') x (set_s_mbase nb x) 0.

Lemma set_s_mbase_id x : set_s_mbase (s_mbase x) x = x.
Proof. by destruct x. Qed.

Lemma kept_refl ms s : kept ms s s.
Proof. intros p x _ Hx. exists (s_mbase x). rewrite set_s_mbase_id. split; [done|]. intros j _. by rewrite Z.add_0_r. Qed.

Lemma kept_trans ms s1 s2 s3 : kept ms s1 s2 -> kept ms s2 s3 -> kept ms s1 s3.
Proof.
  intros H1 H2 p x Hp Hx. destruct (H1 p x Hp Hx) as (n1 & Hx1 & D1). destruct (H2 p _ Hp Hx1) as (n2 & Hx2 & D2).
  exists n2. split; [done|]. intros j Hj. pose proof (D2 j Hj) as E. rewrite <- D1 by done. rewrite Z.add_0_r in *. exact E.
Qed.

(** What stays in place while segments slide. *)
Definition still (s : st) :=
  (s_forw s, s_back s, heap s, inodes s, self s, u_segl s, (mp_nseg s, mp_hsegs s, mmu s),
   (corebot s, coretop s, swapbot s, swaptop s), (sexflag s, seglink s, pnxgate s, swapgate s, swapreq s, swaperr s),
   (segpacks s, u_error s, ubase s)).

(** The segments on either side of a place in the queue. *)
Lemma segs_below (s : st) l1 l2 ds q x : segs s (l1 ++ l2) ds -> q ∈ l1 -> segd s !! q = Some x ->
  s_mbase x + s_size x <= ends gcore (segd s) (corebot s) l1.
Proof.
  intros Hs Hq Hx. pose proof (sg_core _ _ _ Hs) as [H1 _]%placed_app.
  destruct (placed_elem gcore _ _ _ _ _ H1 Hq) as (y & Hy & _ & _ & Hle). by simplify_eq.
Qed.

Lemma segs_above (s : st) l1 p l2 ds q x y : segs s (l1 ++ p :: l2) ds -> q ∈ l2 ->
  segd s !! p = Some x -> segd s !! q = Some y -> s_mbase x + s_size x <= s_mbase y.
Proof.
  intros Hs Hq Hx Hy. pose proof (sg_core _ _ _ Hs) as [_ (z & Hz & _ & _ & H2)]%placed_app.
  destruct (placed_elem gcore _ _ _ _ _ H2 Hq) as (w & Hw & Hle & _). by simplify_eq.
Qed.

Lemma segs_nodup (s : st) ms ds : segs s ms ds -> NoDup ms.
Proof. intros Hs. destruct (sg_m _ _ _ Hs) as [_ Hn]. apply NoDup_cons in Hn as [_ Hn]. by apply NoDup_fmap_1 in Hn. Qed.

Lemma segs_marked (s : st) ms ds ps' : segs s ms ds -> segs (set_procl ps' s) ms ds.
Proof. intros []. by constructor. Qed.

Lemma segs_moved_down (s s' : st) l1 p l2 ds nb x : segs s (l1 ++ p :: l2) ds -> segd s !! p = Some x ->
  ends gcore (segd s) (corebot s) l1 <= nb <= s_mbase x -> moved_down s s' p nb x ->
  segs s' (l1 ++ p :: l2) ds /\ kept (l1 ++ p :: l2) s s'.
Proof.
  intros Hs Hx Hnb (ps' & ram' & -> & _ & _ & Hram).
  pose proof (segs_nodup _ _ _ Hs) as Hnd. apply NoDup_app in Hnd as (_ & Hn12 & [Hp2 _]%NoDup_cons).
  assert (Hp1 : p ∉ l1) by (intros Hin; apply (Hn12 p Hin); by left).
  assert (Hne : forall q, q ∈ l1 \/ q ∈ l2 \/ q ∈ ds -> q <> p).
  { intros q Hq ->. destruct Hq as [?|[?|Hd]]; [done..|]. apply (sg_sep _ _ _ Hs p); [|done]. set_solver. }
  pose proof Hs as [H1 H2 H3 H4 H5 H6 H7 H8 H9 H10].
  apply placed_app in H4 as [Hlo (z & Hz & Z1 & Z2 & Hhi)]. assert (z = x) by congruence. subst z.
  assert (Hfr : forall q, q ∈ l1 \/ q ∈ l2 \/ q ∈ ds -> <[p := set_s_mbase nb x]> (segd s) !! q = segd s !! q).
  { intros q Hq. rewrite lookup_insert_ne; [done|]. apply not_eq_sym. by apply Hne. }
  split.
  - constructor; cbn; try done.
    + apply placed_app. rewrite (ends_frame gcore (segd s)) by (intros q Hq; by rewrite Hfr by auto). split.
      * eapply placed_frame; [exact Hlo|]. intros q Hq. by rewrite Hfr by auto.
      * exists (set_s_mbase nb x). rewrite lookup_insert_eq. cbn in Z2, Hhi |- *. split_and!; [done|lia|done|].
        eapply placed_low; [|instantiate (1 := s_mbase x + s_size x); lia].
        eapply placed_frame; [exact Hhi|]. intros q Hq. by rewrite Hfr by auto.
    + eapply placed_frame; [exact H5|]. intros q Hq. by rewrite Hfr by auto.
    + intros q. rewrite <- H6, lookup_insert_is_Some'. split; [intros [<-|?]; [by eexists|done]|by right].
    + intros q. rewrite lookup_insert_is_Some'. intros [<-|?]; apply H7; [by eexists|done].
  - intros q y Hq Hy. destruct (decide (q = p)) as [->|Hqp].
    + assert (y = x) by congruence. subst y. exists nb. cbn. rewrite lookup_insert_eq. split; [done|].
      intros j Hj. unfold sbyte. cbn. rewrite Hram. unfold inclicks. cbn in Z2.
      rewrite decide_True by lia. f_equal. lia.
    + exists (s_mbase y). rewrite set_s_mbase_id. cbn. rewrite lookup_insert_ne by done. split; [done|].
      intros j Hj. unfold sbyte. rewrite Hram, Z.add_0_r. rewrite decide_False; [done|]. unfold inclicks.
      apply elem_of_app in Hq as [Hq|[->|Hq]%elem_of_cons]; [|done|].
      * pose proof (segs_below _ _ _ _ _ _ Hs Hq Hy). lia.
      * pose proof (segs_above _ _ _ _ _ _ _ _ Hs Hq Hx Hy). lia.
Qed.

(** ** Sliding *)

(** What the loop of [segpack] does to one segment, when it would go to [b]. *)
Definition slide_bit (s : st) (p b : Z) (x : SEG) : bool := (b <? s_mbase x) && movable s p b x.
Definition slide_to (s : st) (p b : Z) (x : SEG) : Z := if slide_bit s p b x then b else s_mbase x.

(** Where the segments [l] lie after they have been slid down to [b]. *)
Fixpoint slid (s : st) (b : Z) (l : list Z) : list (Z * Z) :=
  match l with
  | [] => []
  | p :: l =>
    match segd s !! p with
    | Some x =>
      (p, slide_to s p b x) :: slid s (slide_to s p b x + s_size x) l
    | None => []
    end
  end.

Lemma movable_marked (s s' : st) p nb x : Forall2 marked (procl s) (procl s') -> self s' = self s ->
  movable s' p nb x = movable s p nb x.
Proof. intros Hm Hs. unfold movable. by rewrite Hs, (marked_refs _ _ _ _ _ Hm). Qed.

Lemma slid_frame (s s' : st) l : forall b, Forall2 marked (procl s) (procl s') -> self s' = self s ->
  (forall p, p ∈ l -> segd s' !! p = segd s !! p) -> slid s' b l = slid s b l.
Proof.
  induction l as [|p l IH]; intros b Hm Hs Hf; [done|]. cbn [slid]. rewrite Hf by by left.
  destruct (segd s !! p) as [x|]; [|done].
  assert (E : slide_to s' p b x = slide_to s p b x) by (unfold slide_to, slide_bit; by rewrite (movable_marked s s')).
  rewrite E.
  f_equal. apply IH; [done|done|]. intros q Hq. apply Hf. by right.
Qed.

Lemma told_marked p ps ps1 ps2 : told p ps ps1 -> Forall2 marked ps1 ps2 -> told p ps ps2.
Proof.
  intros Ht Hm k x Hx Hc. destruct (Ht k x Hx Hc) as (y & Hy & Fy).
  destruct (Forall2_lookup_l _ _ _ _ _ Hm Hy) as (z & Hz & _ & [Fz|Fz]); exists z; (split; [done|]); rewrite Fz, Fy; [done|].
  apply set_flags_idem.
Qed.

Lemma marked_told p ps ps1 ps2 : Forall2 marked ps ps1 -> told p ps1 ps2 -> told p ps ps2.
Proof.
  intros Hm Ht k x Hx Hc. destruct (Forall2_lookup_l _ _ _ _ _ Hm Hx) as (y & Hy & Hmy).
  destruct (marked_view p 0 0 x y Hmy) as (Eh & _). destruct (Ht k y Hy) as (z & Hz & Fz); [by rewrite Eh|].
  exists z. split; [done|]. rewrite Fz. destruct Hmy as [_ [-> | ->]]; [done|]. apply set_flags_idem.
Qed.

Lemma marked_list_trans ps1 ps2 ps3 : Forall2 marked ps1 ps2 -> Forall2 marked ps2 ps3 -> Forall2 marked ps1 ps3.
Proof.
  intros H1. revert ps3. induction H1 as [|x y l l' Hm HF IH]; intros ps3 H2; [by apply Forall2_nil_inv_l in H2 as ->|].
  apply Forall2_cons_inv_l in H2 as (z & l'' & Hm' & HF' & ->). constructor; [by etrans|by apply IH].
Qed.

(** The segments that do not stay where they are. *)
Definition shifted (s : st) (l : list (Z * Z)) : list (Z * Z) :=
  filter (fun a : Z * Z => s_mbase <$> segd s !! a.1 <> Some a.2) l.

(** What the slide of [l2] leaves, with the count of segments that moved. *)
Record slide_done (s s' : st) (l1 l2 ds : list Z) (b n : Z) : Prop := {
  sd_segs : segs s' (l1 ++ l2) ds;
  sd_kept : kept (l1 ++ l2) s s';
  sd_at : Forall (fun a : Z * Z => exists x, segd s !! a.1 = Some x /\ segd s' !! a.1 = Some (set_s_mbase a.2 x) /\
            (a.2 <> s_mbase x -> told a.1 (procl s) (procl s'))) (slid s b l2);
  sd_rest : forall q, q ∉ l2 -> segd s' !! q = segd s !! q;
  sd_marked : Forall2 marked (procl s) (procl s');
  sd_still : still s' = still s;
  sd_count : n = Z.of_nat (length (shifted s (slid s b l2)))
}.

Lemma slide_skip (s : st) l1 p l2 ds x : segs s (l1 ++ p :: l2) ds -> segd s !! p = Some x ->
  ends gcore (segd s) (corebot s) l1 <= s_mbase x /\ 0 <= s_size x /\ s_mbase x + s_size x <= 16384.
Proof.
  intros Hs Hx. pose proof (segs_bounds s l1 (p :: l2) ds Hs) as (B1 & B2 & B3 & _). cbn [starts] in B2.
  rewrite Hx in B2. cbn in B2. destruct (segs_lookup s _ ds p Hs ltac:(set_solver)) as (y & Hy & ? & ? & ?).
  simplify_eq. lia.
Qed.

Lemma slid_in (s : st) l : forall z a, a ∈ slid s z l -> a.1 ∈ l.
Proof.
  induction l as [|q l IH]; intros z a; cbn [slid]; [by intros ?%not_elem_of_nil|].
  destruct (segd s !! q); [|by intros ?%not_elem_of_nil]. intros [->|Ha]%elem_of_cons; [by left|right; by eapply IH].
Qed.

Lemma shifted_frame (s s' : st) l : (forall a, a ∈ l -> segd s' !! a.1 = segd s !! a.1) -> shifted s' l = shifted s l.
Proof.
  unfold shifted. induction l as [|a l IH]; intros Hf; [done|]. rewrite !filter_cons, IH by (intros c Hc; apply Hf; by right).
  by rewrite Hf by by left.
Qed.

Record slide_step (s s1 : st) (ms ds : list Z) (p b : Z) (x : SEG) : Prop := {
  ss_segs : segs s1 ms ds;
  ss_kept : kept ms s s1;
  ss_at : segd s1 !! p = Some (set_s_mbase (slide_to s p b x) x);
  ss_rest : forall q, q <> p -> segd s1 !! q = segd s !! q;
  ss_marked : Forall2 marked (procl s) (procl s1);
  ss_told : slide_bit s p b x = true -> told p (procl s) (procl s1);
  ss_still : still s1 = still s
}.

Lemma slide_step_count (s s1 : st) ms ds p b x v : slide_step s s1 ms ds p b x -> slide_step s (set_segpackc v s1) ms ds p b x.
Proof. intros [T1 T2 T3 T4 T5 T6 T7]. constructor; try done. destruct T1. by constructor. Qed.

Lemma wp_slide_step (s : st) l1 p l2 ds x : segs s (l1 ++ p :: l2) ds -> segd s !! p = Some x -> nine_slots (procl s) ->
  let b := ends gcore (segd s) (corebot s) l1 in
  wp (if b <? s_mbase x then segmove p b else kret false)
    (fun r s1 => r = slide_bit s p b x /\ slide_step s s1 (l1 ++ p :: l2) ds p b x) s.
Proof.
  intros Hs Hx Hn b. destruct (slide_skip s l1 p l2 ds x Hs Hx) as (X1 & X2 & X3).
  pose proof (segs_bounds s l1 (p :: l2) ds Hs) as (B1 & _). fold b in X1, B1.
  assert (Hstay : slide_bit s p b x = false -> forall s1 : st, only_marked s s1 -> slide_step s s1 (l1 ++ p :: l2) ds p b x).
  { intros Hb s1 (ps' & -> & Hmk). constructor; try done; [by apply segs_marked| | |by rewrite Hb].
    - intros q y _ Hy. exists (s_mbase y). rewrite set_s_mbase_id. split; [done|]. intros j _. by rewrite Z.add_0_r.
    - unfold slide_to. rewrite Hb. by rewrite set_s_mbase_id. }
  destruct (Z.ltb_spec b (s_mbase x)) as [Hlt|Hge].
  - eapply wp_mono; [apply (wp_segmove s p b x Hx Hn); lia|]. intros r s1 [-> Hm].
    assert (Eb : slide_bit s p b x = movable s p b x) by (unfold slide_bit; by rewrite (proj2 (Z.ltb_lt _ _)) by lia).
    split; [done|]. destruct (movable s p b x); [|by apply Hstay].
    destruct (segs_moved_down s s1 l1 p l2 ds b x Hs Hx ltac:(lia) Hm) as [Hs1 Hk].
    destruct Hm as (ps' & ram' & -> & Hmk & Ht & _). constructor; try done; cbn.
    + unfold slide_to. by rewrite Eb, lookup_insert_eq.
    + intros q Hq. by rewrite lookup_insert_ne.
  - assert (Eb : slide_bit s p b x = false) by (unfold slide_bit; by rewrite (proj2 (Z.ltb_ge _ _)) by lia).
    apply wp_ret. split; [done|]. apply Hstay; [done|]. exists (procl s). split; [by destruct s|apply marked_list_refl].
Qed.

(** One segment, and then the ones above it. *)
Lemma slide_cons (s s2 s3 : st) l1 p l2 ds x r : let b := ends gcore (segd s) (corebot s) l1 in
  segs s (l1 ++ p :: l2) ds -> segd s !! p = Some x -> slide_step s s2 (l1 ++ p :: l2) ds p b x ->
  slide_done s2 s3 (l1 ++ [p]) l2 ds (slide_to s p b x + s_size x) r ->
  slide_done s s3 l1 (p :: l2) ds b ((if slide_bit s p b x then 1 else 0) + r).
Proof.
  intros b Hs Hx [T1 T2 T3 T4 T5 T6 T7] [D1 D2 D3 D4 D5 D6 D7]. rewrite <- app_assoc in D1, D2.
  pose proof (segs_nodup _ _ _ Hs) as Hnd. apply NoDup_app in Hnd as (_ & _ & [Hp2 _]%NoDup_cons).
  assert (Hself : self s2 = self s) by (unfold still in T7; congruence).
  assert (Hab : forall q, q ∈ l2 -> segd s2 !! q = segd s !! q) by (intros q Hq; apply T4; by intros ->).
  rewrite (slid_frame s s2 l2) in D3, D7 by done.
  set (sl := slid s (slide_to s p b x + s_size x) l2) in *.
  assert (Hsp : slid s b (p :: l2) = (p, slide_to s p b x) :: sl) by (cbn [slid]; by rewrite Hx).
  constructor.
  - done.
  - by eapply kept_trans.
  - rewrite Hsp. constructor.
    + exists x. cbn. split; [done|]. split; [by rewrite D4|]. unfold slide_to. destruct (slide_bit s p b x) eqn:E; [|done].
      intros _. eapply told_marked; [by apply T6|done].
    + apply Forall_forall. intros a Ha. rewrite Forall_forall in D3. destruct (D3 a Ha) as (y & Hy & Hy' & Hty).
      exists y. rewrite Hab in Hy by (by eapply slid_in). split_and!; [done..|]. intros Hne. eapply marked_told; [exact T5|]. by apply Hty.
  - intros q [Hqp Hq]%not_elem_of_cons. by rewrite D4, T4.
  - by eapply marked_list_trans.
  - by rewrite D6.
  - rewrite Hsp. unfold shifted. rewrite filter_cons. cbn [fst snd]. rewrite Hx. cbn [fmap option_fmap option_map].
    fold (shifted s sl). rewrite (shifted_frame s s2) in D7 by (intros a Ha; apply Hab; by eapply slid_in).
    unfold slide_to, slide_bit. destruct (Z.ltb_spec b (s_mbase x)) as [Hlt|]; cbn [andb]; [|rewrite decide_False by naive_solver; lia].
    destruct (movable s p b x); [|rewrite decide_False by naive_solver; lia].
    rewrite decide_True by (intros [= ?]; lia). simpl length. lia.
Qed.

Lemma wp_slide ds : forall l2 l1 (s : st) fuel moved, segs s (l1 ++ l2) ds -> nine_slots (procl s) -> (length l2 < fuel)%nat ->
  wp (slide fuel (after Segmq (Sg <$> l2)) (ends gcore (segd s) (corebot s) l1) moved)
    (fun r s' => slide_done s s' l1 l2 ds (ends gcore (segd s) (corebot s) l1) (r - moved)) s.
Proof.
  induction l2 as [|p l2 IH]; intros l1 s fuel moved Hs Hn Hf; (destruct fuel as [|fuel]; [simpl in Hf; lia|]); cbn [slide].
  { apply wp_ret. constructor; first [done|apply kept_refl|apply marked_list_refl|by rewrite Z.sub_diag|constructor]. }
  change (after Segmq (Sg <$> p :: l2)) with (Sg p). cbn match.
  destruct (segs_lookup s (l1 ++ p :: l2) ds p Hs ltac:(set_solver)) as (x & Hx & _).
  destruct (slide_skip s l1 p l2 ds x Hs Hx) as (X1 & X2 & X3).
  pose proof (segs_bounds s l1 (p :: l2) ds Hs) as (B1 & _).
  set (b := ends gcore (segd s) (corebot s) l1) in *. set (mv := slide_bit s p b x). set (nb := slide_to s p b x).
  apply wp_bind, (wp_rds _ _ _ _ Hx), wp_bind. eapply wp_mono; [exact (wp_slide_step s l1 p l2 ds x Hs Hx Hn)|].
  fold b mv nb. intros r s1 [-> Hst].
  assert (Hs2 : wp (if mv then modify (fun s => set_segpackc (u16 (segpackc s + s_size x)) s) else kret tt)
    (fun _ s2 => slide_step s s2 (l1 ++ p :: l2) ds p b x) s1).
  { destruct mv; [apply wp_modify; by apply slide_step_count|by apply wp_ret]. }
  apply wp_bind. eapply wp_mono; [exact Hs2|]. intros [] s2 Hst2. pose proof Hst2 as [T1 T2 T3 T4 T5 T6 T7].
  apply wp_bind, (wp_rds _ _ _ _ T3). pose proof (sg_m _ _ _ T1) as Hring. rewrite cons_middle, app_assoc, fmap_app in Hring.
  apply ring_at in Hring as [Hfw _]. rewrite before_seg in Hfw. apply wp_bind, (wp_forw _ _ _ _ Hfw).
  assert (Hcb : corebot s2 = corebot s) by (unfold still in T7; congruence).
  assert (Hend : ends gcore (segd s2) (corebot s2) (l1 ++ [p]) = nb + s_size x) by (by rewrite (ends_snoc _ _ _ _ _ T3)).
  cbn [s_mbase s_size set_s_mbase]. rewrite u16_addr; [|subst nb; unfold slide_to; destruct (slide_bit s p b x); lia].
  fold nb. rewrite <- Hend. eapply wp_mono; [apply (IH (l1 ++ [p]) s2 fuel); [by rewrite <- app_assoc|by eapply marked_nine|simpl in Hf; lia]|].
  intros r s3 D. rewrite Hend in D. pose proof (slide_cons s s2 s3 l1 p l2 ds x _ Hs Hx Hst2 D) as D'.
  fold b mv in D'. replace (r - moved) with ((if mv then 1 else 0) + (r - (if mv then moved + 1 else moved))) by (destruct mv; lia).
  exact D'.
Qed.

(** ** The holes of core *)

Fixpoint sizes (m : gmap Z SEG) (l : list Z) : Z :=
  match l with
  | [] => 0
  | p :: l => match m !! p with Some x => s_size x | None => 0 end + sizes m l
  end.

Lemma sizes_app m l1 l2 : sizes m (l1 ++ l2) = sizes m l1 + sizes m l2.
Proof. induction l1 as [|p l1 IH]; simpl; [done|]. rewrite IH. lia. Qed.

Lemma sizes_placed m l : forall b t, placed gcore m b l t -> 0 <= sizes m l <= ends gcore m b l - b.
Proof.
  induction l as [|p l IH]; intros b t; simpl; [lia|]. intros (x & Hx & H1 & H2 & H3). rewrite Hx. cbn in *.
  apply IH in H3. lia.
Qed.

(** The clicks of core that no segment has. *)
Definition free_core (s : st) (ms : list Z) : Z := coretop s - corebot s - sizes (segd s) ms.

Definition largest (s : st) (ms : list Z) (big : Z) : Prop :=
  (forall k1 k2, k1 ++ k2 = ms -> core_hole s k1 k2 <= big) /\
  exists k1 k2, k1 ++ k2 = ms /\ core_hole s k1 k2 = big.

(** The largest hole in front of the last of [l1], or 0. *)
Definition largest_before (s : st) (l1 l2 : list Z) (big : Z) : Prop :=
  (forall k1 k2, k1 ++ k2 = l1 ++ l2 -> (length k1 < length l1)%nat -> core_hole s k1 k2 <= big) /\
  (big = 0 \/ exists k1 k2, k1 ++ k2 = l1 ++ l2 /\ core_hole s k1 k2 = big).

Lemma largest_step (s : st) l1 p l2 big : largest_before s l1 (p :: l2) big ->
  largest_before s (l1 ++ [p]) l2 (if big <? core_hole s l1 (p :: l2) then core_hole s l1 (p :: l2) else big).
Proof.
  intros [H1 H2]. split.
  - intros k1 k2 E Hl. rewrite length_app in Hl. simpl in Hl. rewrite <- app_assoc in E. simpl in E.
    destruct (decide (length k1 < length l1)%nat) as [Hlt|].
    + specialize (H1 _ _ E Hlt). destruct (Z.ltb_spec big (core_hole s l1 (p :: l2))); lia.
    + destruct (app_prefix l1 (p :: l2) k1 k2 E) as [-> ->]; [lia|].
      destruct (Z.ltb_spec big (core_hole s l1 (p :: l2))); lia.
  - rewrite <- app_assoc. simpl. destruct (Z.ltb_spec big (core_hole s l1 (p :: l2))); [right; by exists l1, (p :: l2)|done].
Qed.

Lemma wp_holes (s : st) ds : forall l2 l1 fuel tot big, segs s (l1 ++ l2) ds -> (length l2 < fuel)%nat ->
  tot = ends gcore (segd s) (corebot s) l1 - corebot s - sizes (segd s) l1 -> largest_before s l1 l2 big ->
  wp (holes fuel (before Segmq (Sg <$> l1)) (ends gcore (segd s) (corebot s) l1) tot big)
    (fun r s' => s' = s /\ fst r = free_core s (l1 ++ l2) /\ largest s (l1 ++ l2) (snd r)) s.
Proof.
  induction l2 as [|p l2 IH]; intros l1 fuel tot big Hs Hfu Ht Hbig; (destruct fuel as [|fuel]; [simpl in Hfu; lia|]);
    cbn [holes]; pose proof (sg_m _ _ _ Hs) as Hring; rewrite fmap_app in Hring;
    pose proof (ring_at _ _ _ _ _ Hring) as [Hf _]; pose proof (segs_bounds s _ _ ds Hs) as (B1 & B2 & B3 & Bh);
    pose proof (sizes_placed _ _ _ _ (proj1 (proj1 (placed_app gcore _ _ _ _ _) (sg_core _ _ _ Hs)))) as Hsz;
    apply wp_bind, (wp_forw _ _ _ _ Hf); apply wp_bind.
  - change (after Segmq (Sg <$> [])) with Segmq. cbn match. apply wp_gets. cbn [starts] in B2, Bh.
    rewrite (u16_addr (coretop s - _)) by lia. apply wp_ret. cbn [fst snd]. split; [done|].
    rewrite app_nil_r. split; [unfold free_core; rewrite u16_addr by lia; lia|].
    destruct Hbig as [Hb1 Hb2]. rewrite <- Bh. split.
    + intros k1 k2 E. destruct (decide (length k1 < length l1)%nat) as [Hlt|Hge].
      * specialize (Hb1 k1 k2 ltac:(by rewrite app_nil_r) Hlt). destruct (Z.ltb_spec big (core_hole s l1 [])); lia.
      * pose proof (f_equal length E) as El. rewrite length_app in El.
        destruct (app_prefix l1 [] k1 k2) as [-> ->]; [by rewrite app_nil_r|lia|].
        destruct (Z.ltb_spec big (core_hole s l1 [])); lia.
    + destruct (Z.ltb_spec big (core_hole s l1 [])) as [Hlt|Hge]; [exists l1, []; by rewrite app_nil_r|].
      destruct Hb2 as [->|(k1 & k2 & E & Eh)]; [|exists k1, k2; by rewrite app_nil_r in E].
      exists l1, []. rewrite app_nil_r. split; [done|]. lia.
  - destruct (segs_lookup s (l1 ++ p :: l2) ds p Hs ltac:(set_solver)) as (x & Hx & X1 & X2 & X3).
    change (after Segmq (Sg <$> p :: l2)) with (Sg p). cbn match.
    apply wp_bind, (wp_rds _ _ _ _ Hx), wp_ret. cbn [starts] in B2, Bh. rewrite Hx in B2, Bh. cbn [gcore fst] in B2, Bh.
    apply wp_bind, (wp_rds _ _ _ _ Hx). rewrite !u16_addr by (rewrite ?u16_addr; lia). rewrite <- Bh.
    specialize (IH (l1 ++ [p]) fuel). rewrite (ends_snoc _ _ _ _ x Hx), before_seg, <- app_assoc in IH.
    apply IH; [done|simpl in Hfu; lia| |by apply largest_step]. rewrite sizes_app. simpl. rewrite Hx. lia.
Qed.

(** ** Compaction *)

Lemma marked_alike x x' : marked x x' -> alike x x'.
Proof. intros Hm. split; [apply Hm|]. by apply marked_land. Qed.

Definition steady (s : st) :=
  (s_forw s, s_back s, heap s, inodes s, self s, (corebot s, coretop s, swapbot s, swaptop s),
   (sexflag s, swapgate s, swapreq s, swaperr s), ubase s).

(** Nobody holds a gate. *)
Definition unlocked (s : st) : Prop := seglink s = false /\ pnxgate s = false.

(** The segments as they are after the slide; a process that has one that moved is told,
    the running one too, whose MMU is loaded at once. *)
Definition slid_at (s s' : st) (ms : list Z) : Prop :=
  Forall (fun a : Z * Z => exists x, segd s !! a.1 = Some x /\ segd s' !! a.1 = Some (set_s_mbase a.2 x) /\
    (a.2 <> s_mbase x -> forall k y, k <> self s -> procl s !! k = Some y -> count (holds a.1 y) slots <> 0 ->
       exists y', procl s' !! k = Some y' /\ pp_flags y' = set_flags PFSPROTO (pp_flags y)))
    (slid s (corebot s) ms).

(** The running process has a segment that moved, and its map fits the MMU, as
    [mproto] has seen to. *)
Definition displaced (s : st) (ms : list Z) (x : PSEG) : Prop :=
  procl s !! self s = Some x /\ Z.land (pp_flags x) PFKERN = 0 /\ length (mp_hsegs s) = 32%nat /\
  map_fits (segd s) x mslots USTACK = true /\
  exists a y, a ∈ slid s (corebot s) ms /\ segd s !! a.1 = Some y /\ a.2 <> s_mbase y /\ count (holds a.1 x) slots <> 0.
(** Then the MMU maps all its segments, each where it is now. *)
Definition remapped (s s' : st) (ms : list Z) : Prop := forall x, displaced s ms x -> in_mmu s' x.

Record packed (s s' : st) (ms ds : list Z) (sz moved : Z) : Prop := {
  pk_segs : segs s' ms ds;
  pk_procs : procs_ok s';
  pk_kept : kept ms s s';
  pk_rest : forall q, q ∉ ms -> segd s' !! q = segd s !! q;
  pk_steady : steady s' = steady s;
  pk_gates : unlocked s';
  pk_alike : Forall2 alike (procl s) (procl s');
  pk_error : moved = 0 -> u_error s' = u_error s;
  pk_done : exists big, largest s ms big /\
    if (big <? sz) && (sz <=? free_core s ms)
    then moved = Z.of_nat (length (shifted s (slid s (corebot s) ms))) /\ slid_at s s' ms /\ remapped s s' ms
    else moved = 0 /\ segd s' = segd s /\ ram s' = ram s
}.

Lemma alike_nine ps ps' : Forall2 alike ps ps' -> nine_slots ps -> nine_slots ps'.
Proof.
  induction 1 as [|x x' ps ps' Hm HF IH]; intros Hn; [constructor|]. apply Forall_cons in Hn as [Hx Hn].
  constructor; [|by apply IH]. by rewrite (proj1 Hm).
Qed.

Lemma alike_marked_trans ps1 ps2 ps3 : Forall2 marked ps1 ps2 -> Forall2 alike ps2 ps3 -> Forall2 alike ps1 ps3.
Proof.
  intros H1. revert ps3. induction H1 as [|x y l l' Hm HF IH]; intros ps3 H2; [by apply Forall2_nil_inv_l in H2 as ->|].
  apply Forall2_cons_inv_l in H2 as (z & l'' & Hm' & HF' & ->). constructor; [|by apply IH].
  etrans; [by apply marked_alike|done].
Qed.

Lemma marked_list_alike ps ps' : Forall2 marked ps ps' -> Forall2 alike ps ps'.
Proof. intros HF. eapply Forall2_impl; [exact HF|]. apply marked_alike. Qed.

(** The processes stay in order while their segments move about. *)
Lemma procs_alike (s s' : st) : procs_ok s -> Forall2 alike (procl s) (procl s') -> self s' = self s ->
  (forall p, is_Some (segd s !! p) -> is_Some (segd s' !! p)) -> procs_ok s'.
Proof.
  intros (Hn & Hl & Hr) HF Hs Hd. split; [by eapply alike_nine|]. split.
  - rewrite Hs. by rewrite <- (Forall2_length _ _ _ HF).
  - intros k x' i p Hx' Hi. destruct (Forall2_lookup_r _ _ _ _ _ HF Hx') as (x & Hx & Ha & _).
    apply Hd. apply (Hr k x i p Hx). by rewrite <- Ha.
Qed.

Lemma segs_calm (s s' : st) ms ds : segs s ms ds -> calm s' = calm s -> segs s' ms ds.
Proof.
  intros [H1 H2 H3 H4 H5 H6 H7 H8 H9 H10] Hc. unfold calm in Hc.
  injection Hc as E1 E2 E3 E4 E5 E6 E7 C1 C2 C3 C4 _ _ _ _ _ _ _ _ _.
  constructor; rewrite ?E1, ?E2, ?E3, ?E4, ?C1, ?C2, ?C3, ?C4; done.
Qed.

(** The part under the gates. *)
Definition pack_held (sz : Z) : M st Z :=
  st <- get ;;
  h <- holes (S (size (segd st))) Segmq (corebot st) 0 0 ;;
  (if (snd h <? sz) && (sz <=? fst h) then
     sp <- forw Segmq ;;
     m <- slide (S (size (segd st))) sp (corebot st) 0 ;;
     modify (fun s => set_segpacks (u16 (segpacks s + 1)) s) ;;;
     kret m
   else kret 0).

Lemma wp_pack_held (s : st) ms ds sz : segs s ms ds -> procs_ok s ->
  wp (pack_held sz) (fun moved s' => exists s1, (exists v, s' = set_segpacks v s1) /\
    exists big, largest s ms big /\
      if (big <? sz) && (sz <=? free_core s ms) then slide_done s s1 [] ms ds (corebot s) moved
      else moved = 0 /\ s1 = s) s.
Proof.
  intros Hs Hp. unfold pack_held. apply wp_bind. unfold wp at 1. cbn [get]. apply wp_bind.
  pose proof (segs_size _ _ _ Hs) as Hl.
  eapply wp_mono; [apply (wp_holes s ds ms [] (S (size (segd s))) 0 0 Hs ltac:(lia)); [cbn; lia|]|].
  { split; [intros k1 k2 _ Hk; simpl in Hk; lia|by left]. }
  intros h s1 (-> & -> & Hbig). cbn [app] in *. destruct ((snd h <? sz) && (sz <=? free_core s ms)) eqn:E.
  - pose proof (ring_at (s_forw s) (s_back s) Segmq [] (Sg <$> ms) (sg_m _ _ _ Hs)) as [Hf _].
    apply wp_bind, (wp_forw _ _ _ _ Hf), wp_bind.
    eapply wp_mono; [exact (wp_slide ds ms [] s (S (size (segd s))) 0 Hs (proj1 Hp) ltac:(lia))|].
    intros m s1 Hd. cbn beta in Hd. rewrite Z.sub_0_r in Hd. apply wp_bind, wp_modify, wp_ret. exists s1. split; [by eexists|].
    exists (snd h). split; [done|]. by rewrite E.
  - apply wp_ret. exists s. split; [exists (segpacks s); by destruct s|]. exists (snd h). split; [done|]. by rewrite E.
Qed.

Lemma kept_ext ms (s1 s2 s1' s2' : st) : kept ms s1 s2 -> segd s1' = segd s1 -> ram s1' = ram s1 ->
  segd s2' = segd s2 -> ram s2' = ram s2 -> kept ms s1' s2'.
Proof. intros Hk E1 E2 E3 E4 p x. rewrite E1, E2, E3, E4. apply Hk. Qed.

Lemma still_steady (s s' : st) : still s' = still s -> steady s' = steady s.
Proof. intros Hc. unfold still in Hc. unfold steady. congruence. Qed.

Lemma slid_domain (s s' : st) ms ds b n : slide_done s s' [] ms ds b n ->
  forall p, is_Some (segd s !! p) -> is_Some (segd s' !! p).
Proof.
  intros D p [x Hx]. destruct (decide (p ∈ ms)) as [Hp|Hp]; [|exists x; by rewrite (sd_rest _ _ _ _ _ _ _ D)].
  destruct (sd_kept _ _ _ _ _ _ _ D p x Hp Hx) as (nb & Hnb & _). by eexists.
Qed.

(** The state with both gates taken. *)
Definition gated (s : st) : st := set_seglink true (set_pnxgate true s).

(** The same segments elsewhere. *)
Lemma hw_map_segp (d : gmap Z SEG) x x' : pp_segp x' = pp_segp x -> forall l sn, hw_map d x' l sn = hw_map d x l sn.
Proof.
  intros E. induction l as [|i l IH]; intros sn; [done|]. cbn [hw_map]. unfold slot_seg. rewrite E. fold (slot_seg d x i).
  destruct (slot_seg d x i); [f_equal|]; apply IH.
Qed.
Lemma map_fits_moved (d d' : gmap Z SEG) x x' : pp_segp x' = pp_segp x ->
  (forall p, match d !! p with Some y => exists nb, d' !! p = Some (set_s_mbase nb y) | None => d' !! p = None end) ->
  forall l sn, map_fits d' x' l sn = map_fits d x l sn.
Proof.
  intros E Hd. assert (forall i, match slot_seg d x i with Some y => exists nb, slot_seg d' x' i = Some (set_s_mbase nb y) | None => slot_seg d' x' i = None end) as Hs.
  { intros i. unfold slot_seg. rewrite E. destruct (pp_segp x !! Z.to_nat i) as [[p|]|]; [apply Hd|done|done]. }
  induction l as [|i l IH]; intros sn; [done|]. cbn [map_fits]. specialize (Hs i). destruct (slot_seg d x i) as [y|].
  - destruct Hs as [nb ->]. change (pieces (set_s_mbase nb y)) with (pieces y). by rewrite IH.
  - rewrite Hs. by rewrite IH.
Qed.

Lemma in_mmu_segp (s : st) x x' : pp_segp x' = pp_segp x -> in_mmu s x' -> in_mmu s x.
Proof. intros E Hm a y j Ha. apply Hm. by rewrite (hw_map_segp _ x x'). Qed.

(** The slide has told the running process, and [segload] gives it its map. *)
Lemma slide_reloads (s s1 : st) ms ds moved v : segs s ms ds -> procs_ok s -> slide_done (gated s) s1 [] ms ds (corebot s) moved ->
  let t := set_pnxgate false (set_seglink false (set_segpacks v s1)) in procs_ok t ->
  wp (if moved =? 0 then kret tt else segload) (fun _ _ => True) t ->
  wp (if moved =? 0 then kret tt else segload) (fun _ s2 => remapped s s2 ms) t.
Proof.
  intros Hs Hp D t Ht Hr. apply (wp_forall _ (displaced s ms) (fun x _ s2 => in_mmu s2 x) _ Hr).
  intros x (Hx & Hk & Hm & Hf & a & y & Ha & Hy & Hne & Hc). pose proof D as [D1 D2 D3 D4 D5 D6 D7].
  assert (Hsl : slid (gated s) (corebot s) ms = slid s (corebot s) ms) by (apply slid_frame; [apply marked_list_refl|done|done]).
  rewrite Hsl in D3, D7. rewrite Forall_forall in D3. destruct (D3 a Ha) as (y' & Hy' & _ & Htold). cbn [segd gated set_seglink set_pnxgate] in Hy'.
  assert (y' = y) by congruence. subst y'. destruct (Htold Hne (self s) x Hx Hc) as (x' & Hx' & Fx').
  assert (moved <> 0) as Hmv.
  { intros Hz. assert (a ∈ shifted (gated s) (slid s (corebot s) ms)) as Hin.
    { apply list_elem_of_filter. split; [|exact Ha]. cbn. rewrite Hy. intros [= E]. by apply Hne. }
    destruct (shifted (gated s) _); [by apply not_elem_of_nil in Hin|cbn in D7; lia]. }
  rewrite (proj2 (Z.eqb_neq _ 0) Hmv).
  assert (self s1 = self s /\ mp_hsegs s1 = mp_hsegs s) as [Es Em] by (unfold still in D6; cbn in D6; split; congruence).
  assert (pp_segp x' = pp_segp x) as Esp.
  { pose proof (Forall2_lookup_lr _ _ _ _ _ _ D5 Hx Hx') as [E _]. exact E. }
  eapply wp_mono; [apply (wp_segload_map t x')|intros u s2; by apply in_mmu_segp].
  - exact Ht.
  - cbn. by rewrite Es.
  - rewrite Fx'. unfold set_flags. rewrite Z.land_lor_distr_l, Hk. reflexivity.
  - rewrite Fx'. unfold set_flags. rewrite Z.land_lor_distr_l. change (Z.land PFSPROTO PFSPROTO) with PFSPROTO.
    intros E0%Z.lor_eq_0_iff. by destruct E0.
  - cbn. by rewrite Em.
  - cbn. rewrite <- Hf. apply map_fits_moved; [exact Esp|]. intros p. destruct (segd s !! p) as [z|] eqn:Ez.
    + destruct (decide (p ∈ ms)) as [Hin|Hout].
      * destruct (D2 p z Hin Ez) as (nb & Hnb & _). by exists nb.
      * exists (s_mbase z). rewrite D4 by done. cbn. rewrite Ez. f_equal. symmetry. apply set_s_mbase_id.
    + rewrite D4; [done|]. intros Hin. assert (is_Some (segd s !! p)) as [? ?]; [apply (sg_dom _ _ _ Hs); by left|congruence].
Qed.

(** From the slide to the end of [segpack]: the gates let go and the MMU loaded. *)
Lemma slide_packed (s s1 s2 : st) ms ds sz moved big v : procs_ok s -> slide_done (gated s) s1 [] ms ds (corebot s) moved ->
  reloaded (set_pnxgate false (set_seglink false (set_segpacks v s1))) s2 -> (moved = 0 -> u_error s2 = u_error s1) ->
  remapped s s2 ms -> largest s ms big -> (big <? sz) && (sz <=? free_core s ms) = true -> packed s s2 ms ds sz moved.
Proof.
  intros Hp D (C & F & O) He Hre Hbig E. pose proof D as [D1 D2 D3 D4 D5 D6 D7]. cbn [procl set_pnxgate set_seglink set_segpacks] in F, O.
  pose proof C as C'. unfold calm in C'. injection C' as E1 E2 E3 E4 E5 E6 E7 C1 C2 C3 C4 C5 G1 G2 C6 C7 C8 _ _ C9.
  assert (Hst : steady s2 = steady s).
  { transitivity (steady (gated s)); [|done]. rewrite <- (still_steady (gated s) s1 D6). unfold steady. cbn in *. congruence. }
  assert (Hsl : slid (gated s) (corebot s) ms = slid s (corebot s) ms) by (apply slid_frame; [apply marked_list_refl|done|done]).
  rewrite Hsl in D3, D7.
  constructor.
  - apply (segs_calm (set_pnxgate false (set_seglink false (set_segpacks v s1)))); [|done]. destruct D1. by constructor.
  - apply (procs_alike s); [done|by eapply alike_marked_trans|unfold steady in Hst; congruence|].
    intros p Hx. rewrite E3. cbn. by eapply (slid_domain (gated s)).
  - by apply (kept_ext ms (gated s) s1).
  - intros q Hq. rewrite E3. cbn. by rewrite D4.
  - done.
  - by split.
  - by eapply alike_marked_trans.
  - intros Hm. rewrite He by done. unfold still in D6. cbn in D6. congruence.
  - exists big. split; [done|]. rewrite E. split; [done|]. split; [|exact Hre]. apply Forall_forall. intros a Ha. rewrite Forall_forall in D3.
    destruct (D3 a Ha) as (x & Hx & Hx' & Ht). exists x. split; [done|]. rewrite E3. split; [done|].
    intros Hne k y Hk Hy Hc. destruct (Ht Hne k y Hy Hc) as (y' & Hy' & Fy'). exists y'. rewrite O; [done|].
    assert (self s1 = self s) by (unfold still in D6; cbn in D6; congruence). cbn. congruence.
Qed.

Lemma wp_segpack retry (s : st) ms ds sz : segs s ms ds -> procs_ok s -> unlocked s -> (0 < retry)%nat ->
  wp (segpack retry sz) (fun moved s' => packed s s' ms ds sz moved) s.
Proof.
  intros Hs Hp [Hg1 Hg2] Hr. unfold segpack, lock_pnxgate, lock_seglink, unlock_seglink, unlock_pnxgate.
  apply wp_bind, wp_lock; [done|done|]. apply wp_bind, wp_lock; [done|done|]. change (set_seglink true _) with (gated s).
  assert (Hsl : segs (gated s) ms ds) by (destruct Hs; by constructor).
  pose proof (wp_pack_held (gated s) ms ds sz Hsl Hp) as Hh. unfold pack_held in Hh.
  apply wp_bind. apply wp_unbind in Hh. eapply wp_mono; [exact Hh|]. clear Hh. intros st0 s0 Hh.
  apply wp_bind. apply wp_unbind in Hh. eapply wp_mono; [exact Hh|]. clear Hh. intros h s0' Hh.
  apply wp_bind. eapply wp_mono; [exact Hh|]. clear Hh s0 s0' st0 h.
  intros moved s1' (s1 & (v & ->) & big & Hbig & Hd). apply wp_bind, wp_modify, wp_bind, wp_modify, wp_bind.
  change (largest (gated s) ms big) with (largest s ms big) in Hbig. change (free_core (gated s) ms) with (free_core s ms) in Hd.
  assert (Hid : forall s' : st, reloaded s' s') by (intros s'; split; [done|]; split; [apply alike_list_refl|done]).
  destruct ((big <? sz) && (sz <=? free_core s ms)) eqn:E.
  - change (corebot (gated s)) with (corebot s) in Hd.
    set (t := set_pnxgate false (set_seglink false (set_segpacks v s1))).
    assert (Ht : procs_ok t).
    { apply (procs_alike s); [done| | |exact (slid_domain (gated s) s1 _ _ _ _ Hd)].
      - apply marked_list_alike. apply (sd_marked _ _ _ _ _ _ _ Hd).
      - pose proof (sd_still _ _ _ _ _ _ _ Hd) as Hst. unfold still in Hst. cbn in *. congruence. }
    assert (Hload : wp (if moved =? 0 then kret tt else segload)
      (fun _ s2 => reloaded t s2 /\ (moved = 0 -> u_error s2 = u_error s1)) t).
    { destruct (Z.eqb_spec moved 0); [apply wp_ret; split; [apply Hid|done]|].
      eapply wp_mono; [by apply wp_segload|by intros u s2]. }
    pose proof (slide_reloads s s1 ms ds moved v Hs Hp Hd Ht) as Hre. fold t in Hre.
    eapply wp_mono; [apply wp_and; [exact Hload|apply Hre; by eapply wp_mono]|].
    cbn beta. intros u s2 [[Hl He] Hm]. apply wp_ret. exact (slide_packed s s1 s2 ms ds sz moved big v Hp Hd Hl He Hm Hbig E).
  - destruct Hd as [-> ->]. cbn. apply wp_ret, wp_ret. constructor; try done; try apply alike_list_refl; cbn.
    + destruct Hs. by constructor.
    + exact (kept_refl ms s).
    + exists big. split; [done|]. by rewrite E.
Qed.

(** ** When everything can move *)

Definition all_movable (s : st) (ms : list Z) : Prop :=
  forall p x b, p ∈ ms -> segd s !! p = Some x -> b < s_mbase x -> movable s p b x = true.

(** Then the segments lie end to end from the bottom. *)
Lemma slid_tight (s s' : st) l : forall b t, placed gcore (segd s) b l t -> all_movable s l ->
  Forall (fun a : Z * Z => exists x, segd s !! a.1 = Some x /\ segd s' !! a.1 = Some (set_s_mbase a.2 x)) (slid s b l) ->
  ends gcore (segd s') b l = b + sizes (segd s) l.
Proof.
  induction l as [|p l IH]; intros b t Hp Hm HF; cbn [ends sizes slid] in *; [lia|].
  destruct Hp as (x & Hx & H1 & H2 & H3). rewrite Hx in HF |- *. apply Forall_cons in HF as [(y & Hy & Hy') HF].
  cbn [fst snd] in *. assert (y = x) by congruence. subst y. rewrite Hy'. cbn [gcore fst snd s_mbase s_size set_s_mbase] in *.
  assert (Hb : slide_to s p b x = b).
  { unfold slide_to, slide_bit. destruct (Z.ltb_spec b (s_mbase x)); cbn [andb]; [|lia].
    by rewrite (Hm p x b ltac:(by left) Hx) by done. }
  rewrite Hb in *. rewrite (IH (b + s_size x) t); [lia| | |done].
  - eapply placed_low; [exact H3|lia].
  - intros q y c Hq. apply Hm. by right.
Qed.

Lemma packed_room (s s' : st) ms ds sz moved : segs s ms ds -> packed s s' ms ds sz moved -> all_movable s ms ->
  sz <= free_core s ms -> exists k1 k2, k1 ++ k2 = ms /\ sz <= core_hole s' k1 k2.
Proof.
  intros Hs Hp Hm Hfree. destruct (pk_done _ _ _ _ _ _ Hp) as (big & [_ (k1 & k2 & E & Eh)] & Hd).
  pose proof (pk_steady _ _ _ _ _ _ Hp) as Hst. unfold steady in Hst. injection Hst as _ _ _ _ _ C1 C2 _ _ _ _ _ _ _.
  destruct (Z.ltb_spec big sz) as [Hlt|Hge]; cbn [andb] in Hd.
  - rewrite (proj2 (Z.leb_le _ _) Hfree) in Hd. destruct Hd as (_ & HF & _). exists ms, []. rewrite app_nil_r. split; [done|].
    unfold core_hole, hole. cbn [starts]. rewrite C1, C2.
    rewrite (slid_tight s s' ms (corebot s) (coretop s)); [unfold free_core in Hfree; lia|apply Hs|done|].
    eapply Forall_impl; [exact HF|]. intros a (x & Hx & Hx' & _). by exists x.
  - destruct Hd as (_ & Ed & _). exists k1, k2. split; [done|]. unfold core_hole in *. rewrite Ed, C1, C2. lia.
Qed.

Lemma slid_fst (s : st) l : forall b z t, placed gcore (segd s) z l t -> (slid s b l).*1 = l.
Proof.
  induction l as [|p l IH]; intros b z t; cbn [slid]; [done|]. intros (x & -> & _ & _ & Hp). cbn. f_equal. by eapply IH.
Qed.

(** When nothing moved, nothing changed. *)
Lemma packed_still (s s' : st) ms ds sz : segs s ms ds -> packed s s' ms ds sz 0 -> segd s' = segd s.
Proof.
  intros Hs Hp. destruct (pk_done _ _ _ _ _ _ Hp) as (big & _ & Hd).
  destruct ((big <? sz) && (sz <=? free_core s ms)); [|tauto]. destruct Hd as (Hc & HF & _).
  apply map_eq. intros q. destruct (decide (q ∈ ms)) as [Hq|Hq]; [|by apply Hp].
  rewrite <- (slid_fst s ms (corebot s) _ _ (sg_core _ _ _ Hs)) in Hq. apply list_elem_of_fmap in Hq as (a & -> & Ha).
  unfold slid_at in HF. rewrite Forall_forall in HF. destruct (HF a Ha) as (x & Hx & Hx' & _). rewrite Hx, Hx'. f_equal.
  destruct (decide (s_mbase <$> segd s !! a.1 = Some a.2)) as [E|E].
  - rewrite Hx in E. injection E as <-. apply set_s_mbase_id.
  - assert (Hin : a ∈ shifted s (slid s (corebot s) ms)) by by apply list_elem_of_filter.
    destruct (shifted s _); [by apply not_elem_of_nil in Hin|done].
Qed.
End Segpack.

(** ** Compaction, whole *)

(** C15: [segpack] leaves both queues well formed, every segment with its bytes, wherever
    it now is, and every process with its segments; it moves segments only when no hole
    has [sz] clicks but all of them together do, counts them, and tells each other process
    that has one of them, by [PFSPROTO]; when the running one has, every entry of its map in
    the MMU is what its segment says that now lies elsewhere ([in_mmu]: base, limit and
    access of each hardware segment, if the map fits the MMU as [mproto] asks); and if
    nothing is wired there is room after it. *)
Theorem segpack_correct {H} `{!Kheap H} `{!KheapLaws H} {I} `{!Inodes I} retry (s : segst (H := H) (I := I)) ms ds sz :
  segs s ms ds -> procs_ok s -> unlocked s -> (0 < retry)%nat ->
  exists moved s', segpack retry sz s = Ret moved s' /\ packed s s' ms ds sz moved /\
    (all_movable s ms -> sz <= free_core s ms -> exists k1 k2, k1 ++ k2 = ms /\ sz <= core_hole s' k1 k2).
Proof.
  intros Hs Hp Hg Hr. destruct (proj1 (wp_returns _ _ _) (wp_segpack retry s ms ds sz Hs Hp Hg Hr)) as (moved & s' & E & Hk).
  exists moved, s'. split; [done|]. split; [done|]. by apply (packed_room s s' ms ds sz moved).
Qed.

(** A core of ten clicks in two segments, two clicks each, of one process. *)
#[export] Instance no_inodes : Inodes unit := {| ldetach _ := kret tt; iref _ i := i |}.

Definition two_heap : aheap := ah_after 24 (ah_after 24 small_heap).

Definition two_segs : segst (H := aheap) (I := unit) := {|
  s_forw := <[Segmq := Sg 1004]> (<[Sg 1004 := Sg 1032]> (<[Sg 1032 := Segmq]> (<[Segdq := Segdq]> ∅)));
  s_back := <[Segmq := Sg 1032]> (<[Sg 1004 := Segmq]> (<[Sg 1032 := Sg 1004]> (<[Segdq := Segdq]> ∅)));
  segd := <[1004 := Seg None SFCORE 1 1 2 102 0]> (<[1032 := Seg None SFCORE 1 1 2 106 0]> ∅);
  heap := two_heap;
  inodes := tt;
  procl := [Pseg PFCORE [None; None; None; None; None; Some 1004; None; Some 1032; None]];
  self := 0;
  ram := fun _ => 0;
  u_segl := replicate 8 (Sr 0 0 0 None);
  mp_nseg := 0;
  mp_hsegs := replicate 32 (Hseg 0 0 0);
  mmu := replicate 64 (Hseg 0 0 4);
  corebot := 100;
  coretop := 110;
  swapbot := 0;
  swaptop := 0;
  sexflag := 0;
  seglink := false;
  pnxgate := false;
  swapgate := false;
  swapreq := None;
  swaperr := false;
  segpacks := 0;
  segpackc := 0;
  u_error := 0;
  ubase := 0
|}.

Lemma two_heap_ok : kvalid two_heap /\ owned two_heap 1004 /\ owned two_heap 1032.
Proof.
  destruct (ah_after_ok 24 small_heap 1004 (proj1 small_heap_valid) ltac:(lia)) as [V1 O1]; [by vm_compute|].
  destruct (ah_after_ok 24 (ah_after 24 small_heap) 1032 V1 ltac:(lia)) as [V2 O2]; [by vm_compute|].
  split; [exact V2|]. split; apply O2; [right; apply O1; by left|by left].
Qed.

Lemma two_segs_ok : segs two_segs [1004; 1032] [] /\ procs_ok two_segs /\ unlocked two_segs.
Proof.
  destruct two_heap_ok as (Hv & O1 & O2). split; [|split; [|done]].
  - assert (Hdom : forall p, is_Some (segd two_segs !! p) <-> p = 1004 \/ p = 1032).
    { intros p. cbn. rewrite !lookup_insert_is_Some', lookup_empty. split; [|naive_solver]. intros [<-|[<-|[? ?]]]; [by left|by right|done]. }
    constructor; try done.
    + split; [by vm_compute|]. repeat constructor; set_solver.
    + split; [by vm_compute|]. repeat constructor; set_solver.
    + by intros p _ ?%not_elem_of_nil.
    + repeat (eexists; split; [reflexivity|]; split; [cbn; lia|]; split; [cbn; lia|]). cbn. lia.
    + intros p. rewrite Hdom. set_solver.
    + intros p. rewrite Hdom. by intros [-> | ->].
  - split; [by constructor|]. split; [cbn; lia|]. intros k x i p Hk Hi. destruct k; [|done]. injection Hk as <-.
    cbn in Hi. do 9 (destruct i as [|i]; [first [discriminate Hi|injection Hi as <-; by eexists]|]). done.
Qed.

Definition its_segs : PSEG := Pseg PFCORE [None; None; None; None; None; Some 1004; None; Some 1032; None].

Lemma its_segs_displaced : displaced two_segs [1004; 1032] its_segs.
Proof.
  split; [done|]. split; [done|]. split; [done|]. split; [by vm_compute|].
  exists (1004, 100). eexists. split; [vm_compute; by left|]. split; [reflexivity|]. by split.
Qed.

Lemma segpack_correct_witness : exists moved s', segpack 1 5 two_segs = Ret moved s' /\ moved = 2 /\ in_mmu s' its_segs /\
  mmu s' !! 3%nat = Some (Hseg 400 7 0) /\ mmu s' !! 4%nat = Some (Hseg 408 7 0) /\
  exists k1 k2, k1 ++ k2 = [1004; 1032] /\ 5 <= core_hole s' k1 k2.
Proof.
  destruct two_segs_ok as (Hs & Hp & Hg).
  destruct (segpack_correct 1 two_segs _ _ 5 Hs Hp Hg ltac:(lia)) as (moved & s' & E & Hk & Hroom).
  assert (moved = 2) as Em.
  { assert (match segpack 1 5 two_segs with Ret m _ => m | _ => 0 end = 2) as Em by (vm_compute; reflexivity). by rewrite E in Em. }
  assert (match segpack 1 5 two_segs with Ret _ s' => (mmu s' !! 3%nat, mmu s' !! 4%nat) | _ => (None, None) end =
    (Some (Hseg 400 7 0), Some (Hseg 408 7 0))) as Emm by (vm_compute; reflexivity).
  rewrite E in Emm. injection Emm as E3 E4.
  exists moved, s'. split; [exact E|]. split; [exact Em|]. split.
  - destruct (pk_done _ _ _ _ _ _ Hk) as (big & _ & Hd). destruct (_ && _).
    + destruct Hd as (_ & _ & Hre). apply Hre, its_segs_displaced.
    + destruct Hd as (E0 & _). by rewrite E0 in Em.
  - split; [exact E3|]. split; [exact E4|]. apply Hroom; [|vm_compute; discriminate]. intros p x b Hin Hx _.
    repeat (apply elem_of_cons in Hin as [->|Hin]; [injection Hx as <-; vm_compute; reflexivity|]). by apply not_elem_of_nil in Hin.
Defined.
