(* ===== verification/Segops.v ===== *)
(** Segments made, copied and given back: [salloc], [segdupl], [sfree]. *)
From S2P Require Import Prelude Sched Dlist Kheap Seg Segq Segram Segmap Segpack.
Local Open Scope Z_scope.
Local Open Scope kernel_scope.

Section Segops.
Context {H : Type} `{!Kheap H} `{!KheapLaws H} {I : Type} `{!Inodes I}.
#[local] Abbreviation st := (segst (H := H) (I := I)).

(** ** What stays when segments are rearranged *)

Definition fixed (s : st) :=
  (inodes s, self s, (corebot s, coretop s, swapbot s, swaptop s), (sexflag s, swapgate s, swapreq s, swaperr s), ubase s).

(** The segments of [ms] and [ds] again, each with its bytes, perhaps elsewhere in core. *)
Record arranged (s s' : st) (ms ds : list Z) : Prop := {
  ar_segs : segs s' ms ds;
  ar_procs : procs_ok s';
  ar_kept : kept ms s s';
  ar_rest : forall q, q ∉ ms -> segd s' !! q = segd s !! q;
  ar_gates : unlocked s';
  ar_alike : Forall2 alike (procl s) (procl s');
  ar_fixed : fixed s' = fixed s
}.

Lemma arranged_refl (s : st) ms ds : segs s ms ds -> procs_ok s -> unlocked s -> arranged s s ms ds.
Proof. intros. constructor; first [done|apply kept_refl|apply alike_list_refl]. Qed.

Lemma alike_list_trans ps1 ps2 ps3 : Forall2 alike ps1 ps2 -> Forall2 alike ps2 ps3 -> Forall2 alike ps1 ps3.
Proof.
  intros H1. revert ps3. induction H1 as [|x y l l' Hm HF IH]; intros ps3 H2; [by apply Forall2_nil_inv_l in H2 as ->|].
  apply Forall2_cons_inv_l in H2 as (z & l'' & Hm' & HF' & ->). constructor; [by etrans|by apply IH].
Qed.

Lemma arranged_trans (s1 s2 s3 : st) ms ds : arranged s1 s2 ms ds -> arranged s2 s3 ms ds -> arranged s1 s3 ms ds.
Proof.
  intros [] []. constructor; try done; [by eapply kept_trans| |by eapply alike_list_trans|congruence].
  intros q Hq. by rewrite ar_rest1, ar_rest0.
Qed.

Lemma packed_arranged (s s' : st) ms ds sz moved : packed s s' ms ds sz moved -> arranged s s' ms ds.
Proof.
  intros []. constructor; try done. unfold fixed. unfold steady in pk_steady.
  injection pk_steady as _ _ _ E1 E2 C1 C2 C3 C4 F1 F2 F3 F4 U1. congruence.
Qed.

(** ** [salloc] *)

(** A new segment of [n] bytes: a place of its own, its flags, and no references but one. *)
Definition salloced (s s' : st) (ms ds : list Z) (n f : Z) (p : Z) : Prop :=
  exists k1 k2 base, ms = k1 ++ k2 /\ segs s' (k1 ++ p :: k2) ds /\ segd s !! p = None /\
    segd s' !! p = Some (Seg None (salloc_flags f) 1 1 (btocru n) base 0) /\
    kept ms s s' /\ (forall q, q ∉ ms -> q <> p -> segd s' !! q = segd s !! q) /\
    (Z.land f SFNCLR = 0 -> forall j, 0 <= j < 1024 * btocru n -> ram s' (1024 * base + j) = 0) /\
    procs_ok s' /\ unlocked s' /\ Forall2 alike (procl s) (procl s') /\ fixed s' = fixed s.

Lemma kept_insert (s s' : st) ms p x : segd s !! p = None -> segd s' = <[p := x]> (segd s) -> ram s' = ram s -> kept ms s s'.
Proof.
  intros Hp Hd Hr q y _ Hy. exists (s_mbase y). rewrite set_s_mbase_id, Hd, lookup_insert_ne by (intros ->; congruence).
  split; [done|]. rewrite Hr. intros j _. by rewrite Z.add_0_r.
Qed.

(** The state in between, with the segment carved but its flags not set. *)
Definition carved_at (s s' : st) (ms ds : list Z) (sz : Z) (p : Z) : Prop :=
  exists k1 k2 base, ms = k1 ++ k2 /\ segs s' (k1 ++ p :: k2) ds /\ segd s !! p = None /\
    segd s' !! p = Some (Seg None 0 1 1 sz base 0) /\ kept ms s s' /\
    (forall q, q ∉ ms -> q <> p -> segd s' !! q = segd s !! q) /\
    procs_ok s' /\ unlocked s' /\ Forall2 alike (procl s) (procl s') /\ fixed s' = fixed s.

Lemma others_fixed (s s' : st) : others s' = others s -> fixed s' = fixed s /\ procl s' = procl s /\ ram s' = ram s /\
  seglink s' = seglink s /\ pnxgate s' = pnxgate s.
Proof.
  intros Ho. unfold others in Ho.
  injection Ho as E1 E2 E3 E4 E5 E6 E7 E8 C1 C2 C3 C4 F1 F2 F3 F4 F5 F6 G1 G2 G3. unfold fixed. split_and!; congruence.
Qed.

Lemma segs_unlock (s : st) ms ds b : segs s ms ds -> segs (set_seglink b s) ms ds.
Proof. intros []. by constructor. Qed.

Lemma wp_sxgated retry (s0 s : st) ms ds sz f : arranged s0 s ms ds -> (0 < retry)%nat -> 0 <= sz ->
  wp (sxgated retry sz f) (fun r s' => match r with
    | Some p => carved_at s0 s' ms ds sz p
    | None => arranged s0 s' ms ds /\ (segd s' = segd s /\ procl s' = procl s /\ fixed s' = fixed s) /\
        (kfull sizeof_SEG (heap s) \/ too_small s' sz ms /\ heap s' = heap s) end) s.
Proof.
  intros [A1 A2 A3 A4 [G1 G2] A6 A7] Hr Hsz. unfold sxgated, lock_seglink, unlock_seglink.
  apply wp_bind, wp_lock; [done|done|]. apply wp_bind.
  eapply wp_mono; [apply (wp_sxalloc _ ms ds sz f (segs_unlock _ _ _ true A1) Hsz)|].
  intros r s1 Hgot. apply wp_bind, wp_modify, wp_ret.
  destruct Hgot as [(k1 & k2 & E & _ & Hc)|(-> & -> & Hsmall)].
  - destruct r as [p|].
    + destruct Hc as (Hp & Hd & Hs1 & Ho & _). apply others_fixed in Ho as (Fx & Ep & Er & El & En). cbn in Hp, Hd, Ep, Er, En.
      assert (Hp0 : segd s0 !! p = None).
      { rewrite <- (A4 p); [done|]. intros Hin. apply (eq_None_not_Some (segd s !! p)) in Hp. apply Hp, (sg_dom _ _ _ A1). by left. }
      eexists k1, k2, _. split; [done|]. split; [by apply segs_unlock|]. split; [done|]. cbn.
      split; [by rewrite Hd, lookup_insert_eq|]. split.
      { eapply kept_trans; [exact A3|]. by eapply kept_insert. }
      split; [intros q Hq Hqp; by rewrite Hd, lookup_insert_ne, A4 by done|]. split.
      { apply (procs_alike s); [done|cbn; rewrite Ep; apply alike_list_refl|unfold fixed in Fx; cbn in Fx |- *; congruence|].
        intros q Hq. cbn. rewrite Hd, lookup_insert_is_Some'. by right. }
      split; [split; cbn; congruence|]. split; [cbn; by rewrite Ep|]. unfold fixed in *. cbn in *. congruence.
    + destruct Hc as (Hs1 & Hd & Ho & _ & Hfl). apply others_fixed in Ho as (Fx & Ep & Er & El & En). cbn in Hd, Ep, Er, En.
      split; [|split; [|by left]].
      2:{ unfold fixed in *. cbn in *. split_and!; congruence. }
      constructor; cbn; try done.
      * by apply segs_unlock.
      * apply (procs_alike s); [done|cbn; rewrite Ep; apply alike_list_refl|unfold fixed in Fx; cbn in Fx |- *; congruence|]. intros q. cbn. by rewrite Hd.
      * by apply (kept_ext ms s0 s).
      * intros q Hq. rewrite Hd. by apply A4.
      * split; cbn; congruence.
      * by rewrite Ep.
      * unfold fixed in *. cbn in *. congruence.
  - split; [|split; [done|by right]]. constructor; first [done|by apply (segs_unlock _ _ _ false), segs_unlock|by split].
Qed.

(** Why [salloc] fails: the kernel storage has no room for a descriptor, or there is no
    hole, and if everything could move not even with all the holes together. *)
Definition no_room (s s' : st) (ms : list Z) (sz : Z) : Prop :=
  kfull sizeof_SEG (heap s) \/ too_small s' sz ms /\ (all_movable s ms -> free_core s ms < sz).

Lemma too_small_room (s s' : st) k1 k2 sz : too_small s' sz (k1 ++ k2) -> core_hole s' k1 k2 = core_hole s k1 k2 ->
  sz <= core_hole s k1 k2 -> False.
Proof. intros Ht E Hle. specialize (Ht k1 k2 eq_refl). lia. Qed.

Lemma packed_no_room (s s1 s' : st) ms ds sz moved : segs s ms ds -> packed s s1 ms ds sz moved ->
  (forall k1 k2, core_hole s' k1 k2 = core_hole s1 k1 k2) -> too_small s' sz ms -> no_room s s' ms sz.
Proof.
  intros Hs Hp Hh Ht. right. split; [done|]. intros Hm. destruct (Z.lt_ge_cases (free_core s ms) sz) as [|Hge]; [done|].
  destruct (packed_room s s1 ms ds sz moved Hs Hp Hm Hge) as (k1 & k2 & <- & Hle).
  exfalso. by eapply (too_small_room s1 s').
Qed.

Lemma core_hole_frame (s s' : st) k1 k2 : segd s' = segd s -> fixed s' = fixed s -> core_hole s' k1 k2 = core_hole s k1 k2.
Proof.
  intros Ed Fx. unfold fixed in Fx. injection Fx as _ _ C1 C2 _ _ _ _ _ _ _. unfold core_hole. by rewrite Ed, C1, C2.
Qed.

Lemma no_room_frame (s s1 s' : st) ms sz : segd s1 = segd s -> procl s1 = procl s -> fixed s1 = fixed s -> heap s1 = heap s ->
  no_room s1 s' ms sz -> no_room s s' ms sz.
Proof.
  intros Ed Ep Fx Eh [He|[Ht Hf]]; [left; by rewrite <- Eh|right; split; [done|]].
  unfold fixed in Fx. injection Fx as _ Es C1 C2 _ _ _ _ _ _ _.
  unfold free_core in *. rewrite Ed, C1, C2 in Hf. intros Hm. apply Hf. intros q x b. rewrite Ed. intros Hq Hx Hb.
  unfold movable. rewrite Es, Ep. by apply Hm.
Qed.

Lemma wp_salloc_core retry (s : st) ms ds sz f : segs s ms ds -> procs_ok s -> unlocked s -> (0 < retry)%nat -> 0 <= sz ->
  wp (salloc_core retry sz f) (fun r s' => match r with
    | Some p => carved_at s s' ms ds sz p
    | None => arranged s s' ms ds /\ no_room s s' ms sz end) s.
Proof.
  intros Hs Hp Hg Hr Hsz. unfold salloc_core. apply wp_bind.
  eapply wp_mono; [apply (wp_sxgated retry s s ms ds sz f); [by apply arranged_refl|done|done]|].
  intros [p|] s1 H1; [by apply wp_ret|]. destruct H1 as [A1 D1].
  apply wp_bind. eapply wp_mono; [apply (wp_segpack retry s1 ms ds sz); [apply A1..|done]|].
  intros m s2 H2. pose proof (arranged_trans _ _ _ _ _ A1 (packed_arranged _ _ _ _ _ _ H2)) as A2.
  destruct D1 as ((Ed1 & Ep1 & Fx1) & [Hfull|[Ht1 Eh1]]).
  { destruct (Z.eqb_spec m 0) as [->|]; [apply wp_ret; split; [done|by left]|].
    eapply wp_mono; [by apply wp_sxgated|]. intros [p|] s' H3; [done|]. split; [apply H3|by left]. }
  assert (Eh2 : heap s2 = heap s).
  { rewrite <- Eh1. pose proof (pk_steady _ _ _ _ _ _ H2) as E. unfold steady in E. congruence. }
  assert (Hnr : forall s' : st, too_small s' sz ms -> (forall k1 k2, core_hole s' k1 k2 = core_hole s2 k1 k2) -> no_room s s' ms sz).
  { intros s' Ht Hh. apply (no_room_frame s s1 s' ms sz); [done..|]. exact (packed_no_room s1 s2 s' ms ds sz m (ar_segs _ _ _ _ A1) H2 Hh Ht). }
  destruct (Z.eqb_spec m 0) as [->|].
  - apply wp_ret. split; [done|]. pose proof (packed_still s1 s2 ms ds sz (ar_segs _ _ _ _ A1) H2) as Ed.
    apply Hnr; [|done]. intros k1 k2 E. specialize (Ht1 k1 k2 E). rewrite (core_hole_frame s1 s2); [done|done|].
    apply (packed_arranged _ _ _ _ _ _ H2).
  - eapply wp_mono; [by apply wp_sxgated|]. intros [p|] s' H3; [done|]. destruct H3 as (A3 & (Ed & _ & Fx) & D3).
    split; [done|]. destruct D3 as [Hfull|[Ht _]]; [left; by rewrite <- Eh2|].
    apply Hnr; [done|]. intros k1 k2. by apply core_hole_frame.
Qed.

(** A change of a descriptor that keeps its place. *)
Lemma segs_geom (s s' : st) ms ds p x x' : segs s ms ds -> segd s !! p = Some x ->
  s_mbase x' = s_mbase x -> s_size x' = s_size x -> s_dbase x' = s_dbase x ->
  segs (set_segd (<[p := x']> (segd s)) s) ms ds.
Proof.
  intros [H1 H2 H3 H4 H5 H6 H7 H8 H9 H10] Hx Em Es Ed.
  assert (Hg : forall (g : SEG -> Z * Z) q, g x' = g x -> g <$> <[p := x']> (segd s) !! q = g <$> segd s !! q).
  { intros g q E. destruct (decide (q = p)) as [->|]; [by rewrite lookup_insert_eq, Hx; cbn; rewrite E|by rewrite lookup_insert_ne]. }
  assert (Hd : forall q, is_Some (<[p := x']> (segd s) !! q) <-> is_Some (segd s !! q)).
  { intros q. rewrite lookup_insert_is_Some'. split; [intros [<-|?]; [by eexists|done]|by right]. }
  constructor; cbn; try done.
  - eapply placed_frame; [exact H4|]. intros q _. apply Hg. unfold gcore. by rewrite Em, Es.
  - eapply placed_frame; [exact H5|]. intros q _. apply Hg. unfold gswap. by rewrite Ed, Es.
  - intros q. by rewrite Hd.
  - intros q. rewrite Hd. apply H7.
Qed.

Lemma kept_other (s s' : st) ms p x : ~ p ∈ ms -> segd s' = <[p := x]> (segd s) -> ram s' = ram s -> kept ms s s'.
Proof.
  intros Hp Hd Hr q y Hq Hy. exists (s_mbase y). rewrite set_s_mbase_id, Hd, lookup_insert_ne by (by intros ->).
  split; [done|]. rewrite Hr. intros j _. by rewrite Z.add_0_r.
Qed.

Lemma procs_segd (s s' : st) : procs_ok s -> procl s' = procl s -> self s' = self s ->
  (forall p, is_Some (segd s !! p) -> is_Some (segd s' !! p)) -> procs_ok s'.
Proof. intros Hp Ep Es Hd. apply (procs_alike s); [done|rewrite Ep; apply alike_list_refl|done|done]. Qed.

(** Clearing what lies within one segment leaves the others. *)
Lemma kept_clear (s : st) k1 p k2 ds x ram' lo n : segs s (k1 ++ p :: k2) ds -> segd s !! p = Some x ->
  s_mbase x <= lo -> 0 <= n -> lo + n <= s_mbase x + s_size x -> cleared lo n (ram s) ram' ->
  kept (k1 ++ k2) s (set_ram ram' s).
Proof.
  intros Hs Hx H1 H2 H3 Hc q y Hq Hy. exists (s_mbase y). rewrite set_s_mbase_id. split; [done|].
  intros j Hj. unfold sbyte. cbn. rewrite Z.add_0_r, Hc, decide_False; [done|]. unfold inclicks.
  destruct (slide_skip s k1 p k2 ds x Hs Hx) as (Hlo & _).
  apply elem_of_app in Hq as [Hq|Hq].
  - pose proof (segs_below _ _ _ _ _ _ Hs Hq Hy). lia.
  - pose proof (segs_above _ _ _ _ _ _ _ _ Hs Hq Hx Hy). lia.
Qed.

Lemma salloced_of (s s1 : st) ms ds n f p : carved_at s s1 ms ds (btocru n) p ->
  wp (wrs p (set_s_flags (salloc_flags f)) ;;;
      (if Z.land f SFNCLR =? 0 then x <- rds p ;; sclear (s_mbase x) (btocru n) else kret tt))
    (fun _ s' => salloced s s' ms ds n f p) s1.
Proof.
  intros (k1 & k2 & base & -> & Hs & Hp & Hx & Hk & Ho & Hpr & Hg & Ha & Fx).
  assert (Hin : forall q, q ∈ k1 ++ k2 -> q <> p).
  { pose proof (segs_nodup _ _ _ Hs) as Hnd. rewrite <- Permutation_middle in Hnd. apply NoDup_cons in Hnd as [Hn _].
    intros q Hq ->. done. }
  apply wp_bind, (wp_wrs _ _ _ _ _ Hx). set (y := set_s_flags _ _). set (s2 := set_segd _ s1).
  assert (Hs2 : segs s2 (k1 ++ p :: k2) ds) by (by eapply segs_geom).
  assert (Hy : segd s2 !! p = Some y) by (cbn; by rewrite lookup_insert_eq).
  assert (Hk2 : kept (k1 ++ k2) s s2).
  { eapply kept_trans; [exact Hk|]. eapply kept_other; [|done..]. intros Hp'. by apply (Hin p). }
  assert (Ho2 : forall q, q ∉ k1 ++ k2 -> q <> p -> segd s2 !! q = segd s !! q).
  { intros q Hq Hqp. cbn. rewrite lookup_insert_ne by done. by apply Ho. }
  assert (Hp2 : procs_ok s2).
  { apply (procs_segd s1); try done. intros q Hq. cbn. rewrite lookup_insert_is_Some'. by right. }
  assert (Hdone : forall ram', (forall j, Z.land f SFNCLR = 0 -> 0 <= j < 1024 * btocru n -> ram' (1024 * base + j) = 0) ->
    kept (k1 ++ k2) s2 (set_ram ram' s2) -> salloced s (set_ram ram' s2) (k1 ++ k2) ds n f p).
  { intros ram' Hz Hkr. exists k1, k2, base. split; [done|]. split; [destruct Hs2; by constructor|]. split; [done|].
    split; [exact Hy|]. split; [by eapply kept_trans|]. split_and!; try done. intros Hf j Hj. by apply Hz. }
  destruct (Z.eqb_spec (Z.land f SFNCLR) 0) as [Ef|Ef].
  - apply wp_bind, (wp_rds _ _ _ _ Hy), wp_modify.
    destruct (slide_skip s2 k1 p k2 ds y Hs2 Hy) as (B1 & B2 & B3). cbn in B1, B2, B3.
    pose proof (segs_bounds s2 k1 (p :: k2) ds Hs2) as (B0 & _). cbn in B0.
    pose proof (sclear_ram_spec base (btocru n) (ram s2) ltac:(lia) ltac:(lia) ltac:(lia)) as Hc.
    apply Hdone.
    + intros j _ Hj. cbn. rewrite Hc, decide_True; [done|]. unfold inclicks. lia.
    + eapply (kept_clear s2 k1 p k2 ds y); [done|done| | | |exact Hc]; cbn; lia.
  - apply wp_ret. replace s2 with (set_ram (ram s2) s2) at 2 by by destruct s2. apply Hdone; [done|]. exact (kept_refl _ s2).
Qed.

(** A descriptor taken and given back leaves nothing behind. *)
Lemma wp_salloc_swap retry (s0 s : st) ms ds sz r : arranged s0 s ms ds -> sexflag s = 0 ->
  wp (salloc_swap retry sz r) (fun r s' => r = None /\ arranged s0 s' ms ds /\ segd s' = segd s /\ procl s' = procl s) s.
Proof.
  intros A Hx. pose proof A as [A1 A2 A3 A4 [G1 G2] A6 A7]. unfold salloc_swap. apply wp_bind.
  eapply wp_mono; [by apply (wp_segalloc s ms ds)|]. intros [p|] s1 (h & Hv & Hr).
  - destruct Hr as (Hp & Ho & ->). apply wp_bind, wp_modify, wp_bind, wp_modify, wp_bind.
    apply (wp_wrs _ _ _ seg0); [cbn; by rewrite lookup_insert_eq|]. apply wp_bind. unfold segsext.
    apply wp_bind, wp_gets. cbn [sexflag set_segd set_s_back set_s_forw set_heap]. rewrite Hx. cbn match.
    apply wp_bind, wp_modify, wp_ret, wp_bind. unfold segfree. apply wp_bind, wp_zoom.
    cbn [heap set_segd set_s_back set_s_forw set_heap set_u_error].
    eapply wp_mono; [exact (kfree_law p h Hv (proj2 (Ho p) (or_introl eq_refl)))|]. intros _ h2 [Hv2 Ho2]. apply wp_modify, wp_ret.
    assert (Hpm : ~ (p ∈ ms \/ p ∈ ds)) by (rewrite <- (sg_dom _ _ _ A1), Hp; intros [? ?]; done).
    assert (Hed : delete p (<[p := set_s_lrefc 1 (set_s_urefc 1 (set_s_flags r seg0))]> (<[p := seg0]> (segd s))) = segd s).
    { rewrite insert_insert_eq, delete_insert_eq. by apply delete_id. }
    split; [done|]. split; [|split; [exact Hed|done]]. constructor; cbn; rewrite ?Hed; try done.
    destruct A1 as [H1 H2 H3 H4 H5 H6 H7 H8 H9 H10]. constructor; cbn; rewrite ?Hed; try done.
    + eapply ring_frame; [exact H1|]. intros y Hy. rewrite !lookup_insert_ne; [done|..]; intros <-;
        apply elem_of_cons in Hy as [?|(q & [= <-] & Hq)%list_elem_of_fmap]; naive_solver.
    + eapply ring_frame; [exact H2|]. intros y Hy. rewrite !lookup_insert_ne; [done|..]; intros <-;
        apply elem_of_cons in Hy as [?|(q & [= <-] & Hq)%list_elem_of_fmap]; naive_solver.
    + intros q Hq. apply Ho2. split; [apply Ho; right; by apply H7|]. intros ->. rewrite Hp in Hq. by destruct Hq.
  - destruct Hr as (_ & Ho & ->). apply wp_ret. split; [done|]. split; [|done]. constructor; try done.
    destruct A1 as [H1 H2 H3 H4 H5 H6 H7 H8 H9 H10]. constructor; cbn; try done. intros q Hq. apply Ho. by apply H7.
Qed.

Lemma btocru_range n : 0 <= btocru n.
Proof. unfold btocru. apply u16_range. Qed.

(** [salloc] without the swapper. *)
Definition salloc_post (s : st) (ms ds : list Z) (n f : Z) (r : option Z) (s' : st) : Prop :=
  match r with
  | Some p => salloced s s' ms ds n f p
  | None => arranged s s' ms ds /\ no_room s s' ms (btocru n)
  end.

Lemma wp_salloc retry (s : st) ms ds n f : segs s ms ds -> procs_ok s -> unlocked s -> (0 < retry)%nat ->
  Z.land f SFNSWP <> 0 \/ sexflag s = 0 -> wp (salloc retry n f) (salloc_post s ms ds n f) s.
Proof.
  intros Hs Hp Hg Hr Hsw. unfold salloc. cbn zeta. apply wp_bind.
  eapply wp_mono; [apply (wp_salloc_core retry s ms ds (btocru n) f); [done..|apply btocru_range]|].
  intros [p|] s1 H1.
  - pose proof (salloced_of s s1 ms ds n f p H1) as Hd. apply wp_unbind in Hd.
    apply wp_bind, wp_bind. eapply wp_mono; [exact Hd|]. clear Hd. intros u s2 Hd. apply wp_ret, wp_bind.
    eapply wp_mono; [exact Hd|]. intros u' s3 Hd3. by apply wp_ret.
  - destruct H1 as [A1 D1]. apply wp_bind. destruct (Z.eqb_spec (Z.land f SFNSWP) 0) as [E|E]; cbn [negb].
    + destruct Hsw as [?|Hx]; [done|]. pose proof (ar_fixed _ _ _ _ A1) as Fx. unfold fixed in Fx.
      eapply wp_mono; [apply (wp_salloc_swap retry s s1 ms ds); [done|congruence]|].
      intros r s2 (-> & A2 & Ed & _). apply wp_ret. split; [done|]. destruct D1 as [?|[Ht Hf]]; [by left|right; split; [|done]].
      intros k1 k2 Ek. rewrite (core_hole_frame s1 s2); [by apply Ht|done|]. rewrite (ar_fixed _ _ _ _ A2), (ar_fixed _ _ _ _ A1). done.
    + apply wp_ret, wp_ret. by split.
Qed.
End Segops.

(** C20: [salloc] when it may not use the swapper (the caller says so with [SFNSWP], or
    none runs): a new segment of the clicks asked for between two others, with its flags,
    one reference and, unless the caller clears it himself, zeros; or NULL, and then, for
    every caller, either the kernel storage had no room for a descriptor or no hole of
    core is large enough as the segments now lie, nor were all the holes together if
    nothing is wired.  In both cases every other segment keeps its size and its bytes,
    though compaction may have moved it and marked its owners. *)
Theorem salloc_correct {H} `{!Kheap H} `{!KheapLaws H} {I} `{!Inodes I} retry (s : segst (H := H) (I := I)) ms ds n f :
  segs s ms ds -> procs_ok s -> unlocked s -> (0 < retry)%nat -> Z.land f SFNSWP <> 0 \/ sexflag s = 0 ->
  exists r s', salloc retry n f s = Ret r s' /\ salloc_post s ms ds n f r s'.
Proof. intros. by apply wp_returns, wp_salloc. Qed.

(** Three clicks, where every hole has two. *)
Lemma salloc_correct_witness : exists s', salloc 1 3000 SFNSWP two_segs = Ret (Some 1060) s' /\
  salloced two_segs s' [1004; 1032] [] 3000 SFNSWP 1060.
Proof.
  destruct two_segs_ok as (Hs & Hp & Hg).
  destruct (salloc_correct 1 two_segs _ _ 3000 SFNSWP Hs Hp Hg ltac:(lia) ltac:(by left)) as (r & s' & E & Hd).
  assert (Er : match salloc 1 3000 SFNSWP two_segs with Ret r _ => r | _ => None end = Some 1060) by (vm_compute; reflexivity).
  rewrite E in Er. subst r. exists s'. split; [exact E|exact Hd].
Defined.
