(* ===== verification/Seggrow.v ===== *)
(** Segments copied, grown, shrunk and given back: [segdupl], [seggrow], [sfree]. *)
From S2P Require Import Prelude Sched Dlist Kheap Seg Segq Segram Segmap Segpack Segops.
Local Open Scope Z_scope.
Local Open Scope kernel_scope.


Lemma u16_add_u16 a b : u16 (a + u16 b) = u16 (a + b).
Proof. unfold u16, wrapu. change (2 ^ 16) with 65536. by rewrite Zplus_mod_idemp_r. Qed.

Lemma btocru_ctob s : 0 <= s < 65536 -> btocru (ctob s) = s.
Proof.
  intros Hs. unfold btocru, ctob. rewrite Z.shiftl_mul_pow2 by done. change (2 ^ 10) with 1024.
  rewrite (s32_small (s * 1024)) by lia. rewrite s32_small by lia.
  rewrite Z.shiftr_div_pow2 by done. change (2 ^ 10) with 1024.
  rewrite Z.div_add_l by done. change (1023 / 1024) with 0. rewrite Z.add_0_r. apply u16_small. lia.
Qed.

(** Nothing but the clicks from [lo] on, [n] of them, has changed. *)
Definition spared (lo n : Z) (m m' : Z -> Z) : Prop := forall x, ~ inclicks lo n x -> m' x = m x.


Lemma moved_spared f lo n m m' : moved_to f lo n m m' -> spared lo n m m'.
Proof. intros Hc x Hx. by rewrite Hc, decide_False. Qed.




Lemma placed_above g m l : forall b t q y, placed g m b l t -> q ∈ l -> m !! q = Some y -> starts g m t l <= (g y).1.
Proof.
  destruct l as [|p l]; intros b t q y Hp Hq Hy; [by apply not_elem_of_nil in Hq|].
  destruct Hp as (x & Hx & _ & Hsz & Hp). cbn [starts]. rewrite Hx. apply elem_of_cons in Hq as [->|Hq]; [by simplify_eq|].
  destruct (placed_elem g _ _ _ _ _ Hp Hq) as (z & Hz & ? & _). simplify_eq. lia.
Qed.

Lemma placed_below g m l b t q y : placed g m b l t -> q ∈ l -> m !! q = Some y -> (g y).1 + (g y).2 <= t.
Proof. intros Hp Hq Hy. destruct (placed_elem g _ _ _ _ _ Hp Hq) as (z & Hz & _ & _ & ?). by simplify_eq. Qed.


Section Seggrow.
Context {H : Type} `{!Kheap H} `{!KheapLaws H} {I : Type} `{!Inodes I}.
#[local] Abbreviation st := (segst (H := H) (I := I)).


(** A change of core between two segments leaves all of them. *)
Lemma kept_between (s s' : st) k1 k2 lo n : placed gcore (segd s) (corebot s) (k1 ++ k2) (coretop s) ->
  ends gcore (segd s) (corebot s) k1 <= lo -> lo + n <= starts gcore (segd s) (coretop s) k2 ->
  (forall q, q ∈ k1 ++ k2 -> segd s' !! q = segd s !! q) -> spared lo n (ram s) (ram s') -> kept (k1 ++ k2) s s'.
Proof.
  intros [H1 H2]%placed_app Hlo Hhi Hd Ho q y Hq Hy. exists (s_mbase y). rewrite set_s_mbase_id, Hd by done. split; [done|].
  intros j Hj. unfold sbyte. rewrite Z.add_0_r. apply Ho. unfold inclicks.
  apply elem_of_app in Hq as [Hq|Hq].
  - pose proof (placed_below gcore _ _ _ _ _ _ H1 Hq Hy) as Hb. change (s_mbase y + s_size y <= ends gcore (segd s) (corebot s) k1) in Hb. lia.
  - pose proof (placed_above gcore _ _ _ _ _ _ H2 Hq Hy) as Hb. change (starts gcore (segd s) (coretop s) k2 <= s_mbase y) in Hb. lia.
Qed.

(** ** Taking a segment out of its queue *)

Lemma wp_unlink (s : st) p b f (Q : unit -> st -> Prop) : s_back s !! p = Some b -> s_forw s !! p = Some f ->
  b <> p -> f <> p -> Q tt (set_s_back (<[f := b]> (s_back s)) (set_s_forw (<[b := f]> (s_forw s)) s)) ->
  wp (unlink p) Q s.
Proof.
  intros Hb Hf Nb Nf HQ. unfold unlink. apply wp_bind, (wp_back _ _ _ _ Hb), wp_bind, (wp_forw _ _ _ _ Hf), wp_bind, wp_modify, wp_bind.
  apply (wp_forw _ _ f); [cbn; by rewrite lookup_insert_ne|]. apply wp_bind, (wp_back _ _ b); [done|]. by apply wp_modify.
Qed.

(** Stores around the members of one queue do not touch the other. *)
Lemma other_ring (f b f' b' : gmap sref sref) h h' l l' : ring f b h' (Sg <$> l') -> h <> h' ->
  (forall p, h <> Sg p) -> (forall p, h' <> Sg p) -> (forall p : Z, p ∈ l -> (p ∉ l')) ->
  (forall y, (y ∉ h :: (Sg <$> l)) -> f' !! y = f !! y /\ b' !! y = b !! y) -> ring f' b' h' (Sg <$> l').
Proof.
  intros Hr Hh Hp Hp' Hd Hf. eapply ring_frame; [exact Hr|]. intros y Hy. apply Hf. intros Hin.
  apply elem_of_cons in Hy as [->|(q & -> & Hq)%list_elem_of_fmap]; apply elem_of_cons in Hin as [E|(w & E & Hw)%list_elem_of_fmap].
  - by apply Hh.
  - by apply (Hp' w).
  - by apply (Hp q).
  - injection E as ->. by apply (Hd w).
Qed.

Lemma unlinked_stores (f : gmap sref sref) h l1 p l2 v y : (y ∉ h :: (Sg <$> l1 ++ p :: l2)) ->
  <[before h (Sg <$> l1) := v]> f !! y = f !! y /\ <[after h (Sg <$> l2) := v]> f !! y = f !! y.
Proof.
  intros Hy. pose proof (before_elem h (Sg <$> l1)) as Hb. pose proof (after_elem h (Sg <$> l2)) as Ha.
  rewrite fmap_app, fmap_cons in Hy. split; apply lookup_insert_ne; intros <-; apply Hy.
  - apply elem_of_cons in Hb as [->|Hb]; [by left|right; apply elem_of_app; by left].
  - apply elem_of_cons in Ha as [->|Ha]; [by left|right; apply elem_of_app; right; by right].
Qed.

(** [p] out of the queue of [h]. *)
Definition unlinked (h : sref) (l1 l2 : list Z) (s : st) : st :=
  set_s_back (<[after h (Sg <$> l2) := before h (Sg <$> l1)]> (s_back s))
    (set_s_forw (<[before h (Sg <$> l1) := after h (Sg <$> l2)]> (s_forw s)) s).

Lemma wp_unlink_ring (s : st) h l1 p l2 (Q : unit -> st -> Prop) : ring (s_forw s) (s_back s) h (Sg <$> l1 ++ p :: l2) ->
  Q tt (unlinked h l1 l2 s) -> wp (unlink (Sg p)) Q s.
Proof.
  rewrite fmap_app, fmap_cons. intros Hr HQ. pose proof (ring_notin _ _ _ _ _ _ Hr) as Hn.
  pose proof (before_elem h (Sg <$> l1)) as Hb. pose proof (after_elem h (Sg <$> l2)) as Ha.
  apply (wp_unlink s (Sg p) _ _ Q (ring_back _ _ _ _ _ _ Hr) (ring_forw _ _ _ _ _ _ Hr)); [| |exact HQ]; intros E; apply Hn.
  - rewrite <- E. apply elem_of_cons in Hb as [->|Hb]; [by left|right; apply elem_of_app; by left].
  - rewrite <- E. apply elem_of_cons in Ha as [->|Ha]; [by left|right; apply elem_of_app; by right].
Qed.

Lemma wp_segfree (s : st) p (Q : unit -> st -> Prop) : kvalid (heap s) -> owned (heap s) p ->
  (forall h, kvalid h -> (forall q, owned h q <-> owned (heap s) q /\ q <> p) -> Q tt (set_segd (delete p (segd s)) (set_heap h s))) ->
  wp (segfree p) Q s.
Proof.
  intros Hv Ho HQ. unfold segfree. apply wp_bind, wp_zoom. eapply wp_mono; [exact (kfree_law p (heap s) Hv Ho)|].
  intros _ h [Hv' Ho']. apply wp_modify. by apply HQ.
Qed.

(** The queues when the descriptor [p] has gone. *)
Lemma segs_without (s s' : st) ms ds ms' ds' p : segs s ms ds ->
  ring (s_forw s') (s_back s') Segmq (Sg <$> ms') -> ring (s_forw s') (s_back s') Segdq (Sg <$> ds') ->
  placed gcore (segd s') (corebot s) ms' (coretop s) -> placed gswap (segd s') (swapbot s) ds' (swaptop s) ->
  (forall q, (q ∈ ms' -> q ∈ ms) /\ (q ∈ ds' -> q ∈ ds)) -> (forall q, q ∈ ms \/ q ∈ ds -> q <> p -> q ∈ ms' \/ q ∈ ds') ->
  ~ (p ∈ ms' \/ p ∈ ds') -> (forall q, is_Some (segd s' !! q) <-> q <> p /\ is_Some (segd s !! q)) -> kvalid (heap s') ->
  (forall q, owned (heap s') q <-> owned (heap s) q /\ q <> p) ->
  (corebot s', coretop s', swapbot s', swaptop s') = (corebot s, coretop s, swapbot s, swaptop s) ->
  segs s' ms' ds'.
Proof.
  intros Hs Rm Rd Pm Pd Hsub Hall Hp Hd Hv Ho Hc. injection Hc as C1 C2 C3 C4.
  constructor; rewrite ?C1, ?C2, ?C3, ?C4; try done; try apply Hs.
  - intros q Hq Hq'. apply (sg_sep _ _ _ Hs q); by apply Hsub.
  - intros q. rewrite Hd, (sg_dom _ _ _ Hs). split.
    + intros [Hn Hq]. by apply Hall.
    + intros Hq. split; [intros ->; by apply Hp|]. destruct Hq as [Hq|Hq]; [left|right]; by apply Hsub.
  - intros q. rewrite Hd. intros [Hn Hq]. apply Ho. split; [by apply (sg_own _ _ _ Hs)|done].
Qed.

Lemma segs_removed (s s' : st) ms ds ms' ds' p : segs s ms ds ->
  ring (s_forw s') (s_back s') Segmq (Sg <$> ms') -> ring (s_forw s') (s_back s') Segdq (Sg <$> ds') ->
  placed gcore (segd s) (corebot s) ms' (coretop s) -> placed gswap (segd s) (swapbot s) ds' (swaptop s) ->
  (forall q, (q ∈ ms' -> q ∈ ms) /\ (q ∈ ds' -> q ∈ ds)) -> (forall q, q ∈ ms \/ q ∈ ds -> q <> p -> q ∈ ms' \/ q ∈ ds') ->
  ~ (p ∈ ms' \/ p ∈ ds') -> segd s' = delete p (segd s) -> kvalid (heap s') ->
  (forall q, owned (heap s') q <-> owned (heap s) q /\ q <> p) ->
  (corebot s', coretop s', swapbot s', swaptop s') = (corebot s, coretop s, swapbot s, swaptop s) ->
  segs s' ms' ds'.
Proof.
  intros Hs Rm Rd Pm Pd Hsub Hall Hp Hd. apply (segs_without s s' ms ds); try done.
  - eapply placed_frame; [exact Pm|]. intros q Hq. rewrite Hd, lookup_delete_ne; [done|]. intros <-. apply Hp. by left.
  - eapply placed_frame; [exact Pd|]. intros q Hq. rewrite Hd, lookup_delete_ne; [done|]. intros <-. apply Hp. by right.
  - intros q. rewrite Hd, lookup_delete_is_Some. naive_solver.
Qed.

(** Which queue a segment is in, and what is left of the queues without it. *)
Definition taken (ms ds : list Z) (p : Z) (ms' ds' : list Z) : Prop :=
  (exists l1 l2, ms = l1 ++ p :: l2 /\ ms' = l1 ++ l2 /\ ds' = ds) \/
  (exists l1 l2, ds = l1 ++ p :: l2 /\ ds' = l1 ++ l2 /\ ms' = ms).

Lemma taken_exists ms ds p : p ∈ ms \/ p ∈ ds -> exists ms' ds', taken ms ds p ms' ds'.
Proof.
  intros [(l1 & l2 & ->)%list_elem_of_split|(l1 & l2 & ->)%list_elem_of_split].
  - eexists _, _. left. by eexists l1, l2.
  - eexists _, _. right. by eexists l1, l2.
Qed.

Definition unlinked_at (h : sref) (l1 l2 : list Z) (s s' : st) : Prop :=
  s_forw s' = s_forw (unlinked h l1 l2 s) /\ s_back s' = s_back (unlinked h l1 l2 s).

Lemma elem_middle {A} (l1 l2 : list A) p q : q ∈ l1 ++ p :: l2 <-> q = p \/ q ∈ l1 ++ l2.
Proof. rewrite !elem_of_app, elem_of_cons. tauto. Qed.

Lemma segs_nodup_d (s : st) ms ds : segs s ms ds -> NoDup ds.
Proof. intros Hs. destruct (sg_d _ _ _ Hs) as [_ Hn]. apply NoDup_cons in Hn as [_ Hn]. by apply NoDup_fmap_1 in Hn. Qed.

Lemma nodup_middle {A} (l1 l2 : list A) p : NoDup (l1 ++ p :: l2) -> p ∉ l1 ++ l2.
Proof. intros Hn. rewrite <- Permutation_middle in Hn. by apply NoDup_cons in Hn as [? _]. Qed.

Lemma ring_unlinked (f b : gmap sref sref) h l1 p l2 : ring f b h (Sg <$> l1 ++ p :: l2) ->
  ring (<[before h (Sg <$> l1) := after h (Sg <$> l2)]> f) (<[after h (Sg <$> l2) := before h (Sg <$> l1)]> b) h (Sg <$> l1 ++ l2).
Proof. rewrite !fmap_app, fmap_cons. apply ring_remove. Qed.

(** The kernel storage has the block [p] back, and every other owner keeps his. *)
Definition given_back (s s' : st) (p : Z) : Prop := forall q, owned (heap s') q <-> owned (heap s) q /\ q <> p.

(** [p] goes: out of its queue, and its descriptor back to the heap. *)
Lemma wp_remove (s : st) ms ds ms' ds' p : segs s ms ds -> taken ms ds p ms' ds' ->
  wp (unlink (Sg p)) (fun _ s1 => others s1 = others s /\ u_error s1 = u_error s /\ segd s1 = segd s /\ heap s1 = heap s /\
    forall b, wp (segfree p) (fun _ s' => segs s' ms' ds' /\ segd s' = delete p (segd s) /\
      others s' = others (set_seglink b s) /\ u_error s' = u_error s /\ given_back s s' p) (set_seglink b s1)) s.
Proof.
  intros Hs Ht. assert (Hq : segd s !! p <> None).
  { intros E. apply (eq_None_not_Some (segd s !! p)) in E. apply E, (sg_dom _ _ _ Hs).
    destruct Ht as [(l1 & l2 & -> & _)|(l1 & l2 & -> & _)]; [left|right]; apply elem_middle; by left. }
  assert (Ho : owned (heap s) p) by (apply (sg_own _ _ _ Hs); by destruct (segd s !! p)).
  assert (Hsep := sg_sep _ _ _ Hs). pose proof (segs_nodup _ _ _ Hs) as Nm. pose proof (segs_nodup_d _ _ _ Hs) as Nd.
  destruct Ht as [(l1 & l2 & -> & -> & ->)|(l1 & l2 & -> & -> & ->)].
  - apply nodup_middle in Nm. assert (Npd : p ∉ ds) by (apply Hsep, elem_middle; by left).
    apply (wp_unlink_ring s Segmq l1 p l2); [apply Hs|]. split_and!; [done..|]. intros b.
    apply wp_segfree; [apply Hs|done|]. intros h Hv Hoh. split; [|by split_and!].
    eapply (segs_removed s _ (l1 ++ p :: l2) ds _ _ p Hs); cbn; try done; try apply Hs.
    + apply (ring_unlinked _ _ _ _ p), Hs.
    + eapply (other_ring _ _ _ _ Segmq Segdq (l1 ++ p :: l2)); [apply Hs|done..|]. intros y Hy. split; by eapply unlinked_stores.
    + eapply placed_remove, Hs.
    + intros q. rewrite elem_middle. tauto.
    + intros q. rewrite elem_middle. tauto.
    + intros [?|?]; [by apply Nm|done].
  - apply nodup_middle in Nd. assert (Npm : p ∉ ms) by (intros Hin; apply (Hsep _ Hin), elem_middle; by left).
    apply (wp_unlink_ring s Segdq l1 p l2); [apply Hs|]. split_and!; [done..|]. intros b.
    apply wp_segfree; [apply Hs|done|]. intros h Hv Hoh. split; [|by split_and!].
    eapply (segs_removed s _ ms (l1 ++ p :: l2) _ _ p Hs); cbn; try done; try apply Hs.
    + eapply (other_ring _ _ _ _ Segdq Segmq (l1 ++ p :: l2)); [apply Hs|done..| |].
      * intros q Hq2 Hq3. by apply (Hsep q).
      * intros y Hy. split; by eapply unlinked_stores.
    + apply (ring_unlinked _ _ _ _ p), Hs.
    + eapply placed_remove, Hs.
    + intros q. rewrite elem_middle. tauto.
    + intros q. rewrite elem_middle. tauto.
    + intros [?|?]; [done|by apply Nd].
Qed.

(** ** [sfree] *)

Lemma wp_on_inodes (s : st) m (Q : unit -> st -> Prop) : wp m (fun _ i => Q tt (set_inodes i s)) (inodes s) ->
  wp (on_inodes m) Q s.
Proof. unfold wp, on_inodes. by destruct (m (inodes s)) as [[] i| | |]. Qed.

Lemma others_inodes (s s' : st) : others s' = others s -> inodes s' = inodes s.
Proof. intros E. exact (f_equal (fun o => o.1.1.1.1.1.1.1.1) E). Qed.

Definition unref (x : SEG) : SEG := set_s_urefc (s_urefc x - 1) (set_s_lrefc (s8 (s_lrefc x - 1)) x).

(** What detaching the inode of the segment does. *)
Definition detached (x : SEG) (i i' : I) : Prop :=
  match s_ip x with Some ip => ldetach ip i = Ret tt i' | None => i' = i end.

Definition detaches (x : SEG) (i : I) : Prop := exists i', detached x i i'.

(** The last reference gives everything back; any other is only counted. *)
Definition sfree_post (s : st) (ms ds : list Z) (p : Z) (x : SEG) (s' : st) : Prop :=
  if s_urefc x =? 1 then
    exists ms' ds', taken ms ds p ms' ds' /\ segs s' ms' ds' /\ segd s' = delete p (segd s) /\
      detached x (inodes s) (inodes s') /\ others s' = others (set_inodes (inodes s') s) /\ u_error s' = u_error s /\
      given_back s s' p
  else s' = set_segd (<[p := unref x]> (segd s)) s.

Lemma s8_pred n : 1 <= n <= 127 -> s8 (n - 1) = n - 1.
Proof. intros. apply s8_small. lia. Qed.

Lemma wp_sfree retry (s : st) ms ds p x : segs s ms ds -> segd s !! p = Some x -> 1 <= s_urefc x <= 127 ->
  (s_urefc x = 1 -> s_lrefc x = 1 /\ detaches x (inodes s)) -> seglink s = false -> (0 < retry)%nat ->
  wp (sfree retry p) (fun _ s' => sfree_post s ms ds p x s') s.
Proof.
  intros Hs Hx Hu Hlast Hg Hr. unfold sfree. apply wp_bind, (wp_wrs _ _ _ _ _ Hx), wp_bind.
  apply (wp_wrs _ _ _ (set_s_lrefc (s8 (s_lrefc x - 1)) x)); [cbn; by rewrite lookup_insert_eq|]. apply wp_bind.
  apply (wp_rds _ _ (unref x)).
  { cbn. rewrite lookup_insert_eq. unfold unref. by rewrite s8_pred. }
  cbn [s_urefc unref set_s_urefc]. unfold sfree_post. cbn [segd set_segd]. rewrite s8_pred, insert_insert_eq by done.
  fold (unref x). set (s1 := set_segd _ _).
  assert (Es1 : s1 = set_segd (<[p := unref x]> (segd s)) s) by done.
  destruct (Z.eqb_spec (s_urefc x - 1) 0) as [E|E], (Z.eqb_spec (s_urefc x) 1); try lia; [|by apply wp_ret].
  destruct (Hlast ltac:(lia)) as (Hl & i' & Hi'). cbn [s_lrefc set_s_lrefc unref set_s_urefc]. rewrite Hl.
  assert (Hs1 : segs s1 ms ds) by (rewrite Es1; by eapply segs_geom).
  assert (Hpin : p ∈ ms \/ p ∈ ds) by (apply (sg_dom _ _ _ Hs); by rewrite Hx).
  destruct (taken_exists ms ds p Hpin) as (ms' & ds' & Ht).
  set (s2 := set_seglink true (set_inodes i' s1)).
  assert (Hs2 : segs s2 ms ds) by (destruct Hs1; by constructor).
  change (s8 (1 - 1) =? 0) with true. cbn [negb]. apply wp_bind.
  assert (Hdone : wp (lock_seglink retry ;;; unlink (Sg p) ;;; unlock_seglink ;;; segfree p) (fun _ s' =>
      exists ms' ds', taken ms ds p ms' ds' /\ segs s' ms' ds' /\ segd s' = delete p (segd s) /\
      detached x (inodes s) (inodes s') /\ others s' = others (set_inodes (inodes s') s) /\ u_error s' = u_error s /\ given_back s s' p) (set_inodes i' s1)).
  { apply wp_bind, wp_lock; [done|done|]. apply wp_bind. eapply wp_mono; [exact (wp_remove s2 ms ds ms' ds' p Hs2 Ht)|].
    intros _ s3 (O3 & U3 & D3 & G3 & Hf). apply wp_bind, wp_modify. eapply wp_mono; [apply (Hf false)|].
    intros _ s4 (S4 & D4 & O4 & U4 & G4). exists ms', ds'. split_and!; try done.
    - rewrite D4. cbn. rewrite delete_insert_eq. done.
    - by rewrite (others_inodes _ _ O4).
    - rewrite (others_inodes _ _ O4), O4. unfold others. cbn. by rewrite Hg. }
  cbn [s_ip unref set_s_urefc set_s_lrefc]. unfold detached in Hi'. destruct (s_ip x) as [ip|].
  - apply wp_on_inodes. unfold wp. change (inodes s1) with (inodes s). rewrite Hi'. exact Hdone.
  - apply wp_ret. subst i'. replace (set_inodes (inodes s) s1) with s1 in Hdone by (rewrite Es1; by destruct s). exact Hdone.
Qed.

Lemma sfree_bad retry (s : st) p x : segd s !! p = Some x -> s_urefc x = 1 -> -128 <= s_lrefc x <= 127 -> s_lrefc x <> 1 ->
  sfree retry p s = Stop (Panicked "Bad segment count").
Proof.
  intros Hx Hu Hl Hn. unfold sfree, wrs, rds, kbind. cbn. rewrite Hx. cbn. rewrite lookup_insert_eq. cbn. rewrite lookup_insert_eq. cbn.
  rewrite Hu. cbn. assert (E : (s8 (s_lrefc x - 1) =? 0) = false); [|by rewrite E].
  apply Z.eqb_neq. destruct (Z.eq_dec (s_lrefc x) (-128)) as [->|]; [done|]. rewrite s8_small by lia. lia.
Qed.

(** ** [segdupl] *)

(** A segment [p1], described by [y], more than there was, and what there was still there. *)
Definition gained (s s' : st) (ms ds : list Z) (p1 : Z) (y : SEG) : Prop :=
  exists k1 k2, ms = k1 ++ k2 /\ segs s' (k1 ++ p1 :: k2) ds /\ segd s !! p1 = None /\ segd s' !! p1 = Some y /\
    kept ms s s' /\ (forall q, q ∉ ms -> q <> p1 -> segd s' !! q = segd s !! q) /\
    procs_ok s' /\ unlocked s' /\ Forall2 alike (procl s) (procl s') /\ fixed s' = fixed s.

Lemma salloced_gained (s s' : st) ms ds n f p : salloced s s' ms ds n f p ->
  exists base, gained s s' ms ds p (Seg None (salloc_flags f) 1 1 (btocru n) base 0).
Proof.
  intros (k1 & k2 & base & E & Hs & Hp & Hy & Hk & Ho & _ & R). exists base, k1, k2.
  exact (conj E (conj Hs (conj Hp (conj Hy (conj Hk (conj Ho R)))))).
Qed.

Lemma gained_fresh (s s' : st) ms ds p1 y q : gained s s' ms ds p1 y -> q ∈ ms -> q <> p1.
Proof.
  intros (k1 & k2 & -> & Hs & _) Hq ->. pose proof (segs_nodup _ _ _ Hs) as Hn. by apply nodup_middle in Hn.
Qed.

(** Filling the new segment, and changing what of its descriptor is not its place. *)
Lemma gained_fill (s s1 : st) ms ds p1 y y' ram' : gained s s1 ms ds p1 y ->
  s_mbase y' = s_mbase y -> s_size y' = s_size y -> s_dbase y' = s_dbase y ->
  spared (s_mbase y) (s_size y) (ram s1) ram' ->
  gained s (set_ram ram' (set_segd (<[p1 := y']> (segd s1)) s1)) ms ds p1 y'.
Proof.
  intros Hg Em Es Ed Ho. pose proof (fun q => gained_fresh _ _ _ _ _ _ q Hg) as Hne.
  destruct Hg as (k1 & k2 & -> & Hs & Hp & Hy & Hk & Hr & Hpr & Hu & Ha & Fx). exists k1, k2.
  split; [done|]. split; [destruct (segs_geom s1 s1 _ ds p1 y y' Hs Hy Em Es Ed); by constructor|]. split; [done|].
  cbn. split; [by rewrite lookup_insert_eq|]. split.
  { eapply kept_trans; [exact Hk|]. pose proof (segs_bounds s1 k1 (p1 :: k2) ds Hs) as (B1 & B2 & _). cbn [starts] in B2. rewrite Hy in B2.
    pose proof (sg_core _ _ _ Hs) as Hpl. pose proof (placed_app gcore (segd s1) k1 (corebot s1) (p1 :: k2) (coretop s1)) as [Hpa _].
    destruct (Hpa Hpl) as [_ (z & Hz & Z1 & Z2 & Z3)]. simplify_eq.
    eapply (kept_between s1 _ k1 k2 (s_mbase y) (s_size y)); [by eapply placed_remove|exact Z1| |..|exact Ho].
    - exact (proj1 (placed_starts gcore _ _ _ _ Z3)).
    - intros q Hq. cbn. rewrite lookup_insert_ne; [done|]. intros <-. by apply (Hne p1). }
  split; [intros q Hq Hqp; rewrite lookup_insert_ne by done; by apply Hr|]. split; [|done].
  apply (procs_segd s1); try done. intros q Hq. cbn. rewrite lookup_insert_is_Some'. by right.
Qed.

(** Two segments in core have no byte in common. *)
Lemma segs_apart (s : st) ms ds p q x y : segs s ms ds -> p ∈ ms -> q ∈ ms -> p <> q -> segd s !! p = Some x -> segd s !! q = Some y ->
  s_mbase x + s_size x <= s_mbase y \/ s_mbase y + s_size y <= s_mbase x.
Proof.
  intros Hs (l1 & l2 & ->)%list_elem_of_split Hq Hne Hx Hy. apply elem_middle in Hq as [->|[Hq|Hq]%elem_of_app]; [done|right|left].
  - etrans; [by eapply segs_below|]. destruct (slide_skip s l1 p l2 ds x Hs Hx). done.
  - by eapply segs_above.
Qed.

(** What a copy needs: both segments in core, and apart. *)
Lemma gained_copy (s s1 : st) ms ds p1 y p x : gained s s1 ms ds p1 y -> p ∈ ms -> segd s !! p = Some x ->
  exists nb, segd s1 !! p = Some (set_s_mbase nb x) /\ same_data (ram s) (ram s1) x (set_s_mbase nb x) 0 /\
    (nb + s_size x <= s_mbase y \/ s_mbase y + s_size y <= nb) /\ 0 <= nb /\ nb + s_size x <= 16384 /\
    0 <= s_mbase y /\ s_mbase y + s_size y <= 16384 /\ 0 <= s_size x /\ 0 <= s_size y.
Proof.
  intros Hg Hp Hx. pose proof (gained_fresh _ _ _ _ _ _ p Hg Hp) as Hne.
  destruct Hg as (k1 & k2 & -> & Hs & _ & Hy & Hk & _). destruct (Hk p x Hp Hx) as (nb & Hx1 & Hd).
  assert (Hin : p ∈ k1 ++ p1 :: k2) by (apply elem_middle; by right). assert (Hin1 : p1 ∈ k1 ++ p1 :: k2) by (apply elem_middle; by left).
  exists nb. split; [done|]. split; [done|]. pose proof (sg_bus _ _ _ Hs).
  destruct (segs_lookup _ _ _ _ Hs Hin) as (z & Hz & ? & ? & ?), (segs_lookup _ _ _ _ Hs Hin1) as (w & Hw & ? & ? & ?).
  pose proof (segs_apart s1 _ _ p p1 _ _ Hs Hin Hin1 Hne Hx1 Hy) as Ha. simplify_eq. cbn in *. split; [exact Ha|]. lia.
Qed.

Definition share (x : SEG) : SEG := set_s_lrefc (s8 (s_lrefc x + 1)) (set_s_urefc (s8 (s_urefc x + 1)) x).

(** A segment that may be shared has one reference more, up to 127; of any other there
    is a copy, byte for byte. *)
Definition segdupl_post (s : st) (ms ds : list Z) (p : Z) (x : SEG) (r : option Z) (s' : st) : Prop :=
  if negb (Z.land (s_flags x) SFSHRX =? 0) then
    if 127 <=? s_urefc x then r = None /\ s' = s
    else r = Some p /\ s' = set_segd (<[p := share x]> (segd s)) s
  else
    match r with
    | Some p1 => exists base, let y := Seg None (s_flags x) 1 1 (s_size x) base 0 in
        gained s s' ms ds p1 y /\ same_data (ram s) (ram s') x y 0
    | None => arranged s s' ms ds /\ no_room s s' ms (s_size x)
    end.

Lemma land_nswp f : Z.land (Z.lor f (Z.lor SFNSWP SFNCLR)) SFNSWP <> 0.
Proof. rewrite Z.land_lor_distr_l. by intros [_ ?]%Z.lor_eq_0_iff. Qed.

Lemma wp_segdupl retry (s : st) ms ds p x : segs s ms ds -> procs_ok s -> unlocked s -> (0 < retry)%nat ->
  p ∈ ms -> segd s !! p = Some x -> Z.land (s_flags x) SFSHRX <> 0 \/ Z.land (s_flags x) SFCORE <> 0 -> sexflag s = 0 ->
  wp (segdupl retry p) (segdupl_post s ms ds p x) s.
Proof.
  intros Hs Hp Hg Hr Hin Hx Hf Hsx. unfold segdupl, segdupl_post. apply wp_bind, (wp_rds _ _ _ _ Hx).
  destruct (Z.eqb_spec (Z.land (s_flags x) SFSHRX) 0) as [E|E]; cbn [negb].
  2:{ destruct (Z.leb_spec 127 (s_urefc x)); [by apply wp_ret|]. by apply wp_bind, (wp_wrs _ _ _ _ _ Hx), wp_ret. }
  destruct Hf as [?|Hc]; [done|]. rewrite (proj2 (Z.eqb_neq _ _) Hc). cbn match.
  assert (Hsz : 0 <= s_size x <= 16384).
  { destruct (segs_lookup _ _ _ _ Hs Hin) as (z & Hz & ? & ? & ?). pose proof (sg_bus _ _ _ Hs). simplify_eq. lia. }
  apply wp_bind. eapply wp_mono; [apply (wp_salloc retry s ms ds); try done; left; apply land_nswp|].
  intros [p1|] s1 H1; unfold salloc_post in H1.
  - destruct (salloced_gained _ _ _ _ _ _ _ H1) as (base & G1). rewrite btocru_ctob in G1 by lia.
    destruct (gained_copy _ _ _ _ _ _ _ _ G1 Hin Hx) as (nb & Hx1 & D1 & Hap & ? & ? & ? & ? & ? & ?). cbn in *.
    assert (Hy : segd s1 !! p1 = Some (Seg None (salloc_flags (Z.lor (s_flags x) (Z.lor SFNSWP SFNCLR))) 1 1 (s_size x) base 0))
      by (by destruct G1 as (? & ? & _ & _ & _ & ? & _)).
    set (y' := Seg None (s_flags x) 1 1 (s_size x) base 0).
    apply wp_bind, (wp_rds _ _ _ _ Hx1), wp_bind, (wp_wrs _ _ _ _ _ Hy), wp_bind.
    apply (wp_rds _ _ y'); [cbn; by rewrite lookup_insert_eq|]. apply wp_bind, wp_modify, wp_ret. cbn [ram set_segd s_mbase s_size set_s_mbase y'].
    pose proof (slrcopy_ram_spec nb base (s_size x) (ram s1)) as Hm. specialize (Hm ltac:(lia) ltac:(lia) ltac:(lia) ltac:(lia) ltac:(lia) ltac:(lia)).
    exists base. split.
    + apply (gained_fill s s1 ms ds p1 _ y' _ G1); try done. by eapply moved_spared.
    + intros j Hj. unfold sbyte. cbn. rewrite Z.add_0_r, Hm, decide_True by (unfold inclicks; lia).
      specialize (D1 j Hj). unfold sbyte in D1. cbn in D1. rewrite <- D1. f_equal. lia.
  - rewrite btocru_ctob in H1 by lia. destruct H1 as [A1 N1]. unfold segdupd. apply wp_bind, wp_gets.
    replace (sexflag s1) with 0; [by apply wp_ret|]. pose proof (ar_fixed _ _ _ _ A1) as F. unfold fixed in F. congruence.
Qed.

(** ** [seggrow] *)




Lemma set_ram_id (s : st) : set_ram (ram s) s = s.
Proof. by destruct s. Qed.






(** ** [satcopy] *)






(** ** [seggrow], everywhere *)









End Seggrow.

(** [segdupl] shares a segment that can be shared, counting it up to 127 times and
    refusing then, and copies any other byte for byte into a new segment of its size. *)
Theorem segdupl_correct {H} `{!Kheap H} `{!KheapLaws H} {I} `{!Inodes I} retry (s : segst (H := H) (I := I)) ms ds p x :
  segs s ms ds -> procs_ok s -> unlocked s -> (0 < retry)%nat -> p ∈ ms -> segd s !! p = Some x ->
  Z.land (s_flags x) SFSHRX <> 0 \/ Z.land (s_flags x) SFCORE <> 0 -> sexflag s = 0 ->
  exists r s', segdupl retry p s = Ret r s' /\ segdupl_post s ms ds p x r s'.
Proof. intros. by apply wp_returns, wp_segdupl. Qed.


(** C40: [sfree] counts a reference off.  With the last it detaches the inode of the segment,
    if it has one, takes the segment out of the queue it is in, the other segments keeping
    their places and bytes, and gives its descriptor, and no other block, back to the
    kernel storage; or it panics, exactly when the count of locks was not one as well. *)
Theorem sfree_correct {H} `{!Kheap H} `{!KheapLaws H} {I} `{!Inodes I} retry (s : segst (H := H) (I := I)) ms ds p x :
  segs s ms ds -> segd s !! p = Some x -> 1 <= s_urefc x <= 127 -> -128 <= s_lrefc x <= 127 ->
  (s_urefc x = 1 -> detaches x (inodes s)) -> seglink s = false -> (0 < retry)%nat ->
  if (s_urefc x =? 1) && negb (s_lrefc x =? 1) then sfree retry p s = Stop (Panicked "Bad segment count")
  else exists s', sfree retry p s = Ret tt s' /\ sfree_post s ms ds p x s'.
Proof.
  intros Hs Hx Hu Hl Hd Hg Hr. destruct (Z.eqb_spec (s_urefc x) 1) as [Eu|Eu], (Z.eqb_spec (s_lrefc x) 1) as [El|El]; cbn [andb negb].
  2:{ by apply (sfree_bad retry s p x). }
  all: assert (Hlast : s_urefc x = 1 -> s_lrefc x = 1 /\ detaches x (inodes s)) by (first [done|by auto]).
  all: destruct (proj1 (wp_returns _ _ _) (wp_sfree retry s ms ds p x Hs Hx Hu Hlast Hg Hr)) as ([] & s' & E & Hp); by exists s'.
Qed.

Lemma segdupl_correct_witness : exists s', segdupl 1 1004 two_segs = Ret (Some 1060) s' /\
  exists base, gained two_segs s' [1004; 1032] [] 1060 (Seg None SFCORE 1 1 2 base 0).
Proof.
  destruct two_segs_ok as (Hs & Hp & Hg).
  destruct (segdupl_correct 1 two_segs _ _ 1004 (Seg None SFCORE 1 1 2 102 0) Hs Hp Hg ltac:(lia) ltac:(by left) eq_refl ltac:(by right) eq_refl)
    as (r & s' & E & Hd).
  assert (Er : match segdupl 1 1004 two_segs with Ret r _ => r | _ => None end = Some 1060) by (vm_compute; reflexivity).
  rewrite E in Er. subst r. exists s'. split; [exact E|]. destruct Hd as (base & G & _). by exists base.
Defined.


Lemma taken_second ms' ds' : taken [1004; 1032] [] 1032 ms' ds' -> [1004] = ms' /\ [] = ds'.
Proof.
  intros [(l1 & l2 & E & -> & ->)|(l1 & l2 & E & _)]; [|by destruct l1].
  destruct l1 as [|a [|b l1]]; simplify_eq/=; [done|]. by destruct l1.
Qed.

Lemma sfree_correct_witness : exists s', sfree 1 1032 two_segs = Ret tt s' /\ segs s' [1004] [] /\ segd s' !! 1032 = None.
Proof.
  destruct two_segs_ok as (Hs & _ & Hg).
  destruct (sfree_correct 1 two_segs _ _ 1032 (Seg None SFCORE 1 1 2 106 0) Hs eq_refl ltac:(cbn; lia)
    ltac:(cbn; lia) ltac:(intros _; by exists tt) (proj1 Hg) ltac:(lia)) as (s' & E & ms' & ds' & Ht & Hs' & Hd & _).
  exists s'. split; [exact E|]. rewrite Hd, lookup_delete_eq. split; [|reflexivity]. by destruct (taken_second _ _ Ht) as [<- <-].
Defined.
