(* ===== verification/Fd.v ===== *)
(** File descriptors (kernel/coh/fd.c, kernel/h/fd.h).

    A descriptor is a block of the kernel heap that the slots of one process or
    more point to: [u_filep] is the table of the running process, [tables]
    those of all the others.  Opening and closing the inode behind it may
    sleep; [limbo] holds the descriptors that other processes are in the middle
    of closing, which no table has any more. *)
From S2P Require Import Prelude Sched Alloc Kheap.
Local Open Scope Z_scope.
Local Open Scope kernel_scope.

Record FD := Fd {
  f_flag : Z;
  f_refc : Z;
  f_seek : Z;
  f_ip : Z
}.
Definition set_f_flag v x := Fd v (f_refc x) (f_seek x) (f_ip x).
Definition set_f_refc v x := Fd (f_flag x) v (f_seek x) (f_ip x).

(** What [kalloc] returns is clear. *)
Definition fd0 : FD := Fd 0 0 0 0.
Definition sizeof_FD : Z := 12.
Definition FFOPNP : Z := 8.
Definition DUP2 : Z := 64.
Definition NUFILE : Z := 20.
Definition EBADF : Z := 9.
Definition EMFILE : Z := 24.

(** What is called for the inode of a descriptor; the result is the error that
    was set, if any. *)
Class FileOps (I : Type) := {
  op_iopen : Z -> Z -> M I (option Z);
  op_iclose : Z -> M I (option Z);
  op_ldetach : Z -> M I (option Z)
}.

Section Fd.
Context {H : Type} `{!Kheap H} {I : Type} `{!FileOps I}.

Record fdst := Fst {
  u_filep : list (option Z);
  tables : list (list (option Z));
  fds : gmap Z FD;
  limbo : gset Z;
  fheap : H;
  files : I;
  u_error : Z
}.
Definition set_u_filep v x := Fst v (tables x) (fds x) (limbo x) (fheap x) (files x) (u_error x).
Definition set_tables v x := Fst (u_filep x) v (fds x) (limbo x) (fheap x) (files x) (u_error x).
Definition set_fds v x := Fst (u_filep x) (tables x) v (limbo x) (fheap x) (files x) (u_error x).
Definition set_fheap v x := Fst (u_filep x) (tables x) (fds x) (limbo x) v (files x) (u_error x).
Definition set_files v x := Fst (u_filep x) (tables x) (fds x) (limbo x) (fheap x) v (u_error x).
Definition set_u_error v x := Fst (u_filep x) (tables x) (fds x) (limbo x) (fheap x) (files x) v.

Definition rdf (p : Z) : M fdst FD := s <- get ;; deref (fds s !! p).
Definition wrf (p : Z) (g : FD -> FD) : M fdst unit :=
  x <- rdf p ;; modify (fun s => set_fds (<[p := g x]> (fds s)) s).
Definition slot (n : Z) : M fdst (option Z) := s <- get ;; deref (u_filep s !! Z.to_nat n).
Definition set_slot (n : Z) (v : option Z) : M fdst unit :=
  modify (fun s => set_u_filep (<[Z.to_nat n := v]> (u_filep s)) s).
Definition seterr (e : Z) : M fdst unit := modify (set_u_error e).

Fixpoint run_files (o : out I (option Z)) (s : fdst) : out fdst unit :=
  match o with
  | Ret e i => Ret tt (match e with Some e => set_u_error e (set_files i s) | None => set_files i s end)
  | Sleep ch i k => Sleep ch (set_files i s) (fun s' => run_files (k (files s')) s')
  | Stop w => Stop w
  | NoFuel => NoFuel
  end.
Definition on_files (m : M I (option Z)) : M fdst unit := fun s => run_files (m (files s)) s.

Definition fdalloc : M fdst (option Z) :=
  r <- zoom fheap set_fheap (kalloc sizeof_FD) ;;
  match r with
  | Some p => modify (fun s => set_fds (<[p := fd0]> (fds s)) s) ;;; kret (Some p)
  | None => seterr Alloc.EKSPACE ;;; kret None
  end.
Definition fdfree (p : Z) : M fdst unit :=
  zoom fheap set_fheap (kfree p) ;;; modify (fun s => set_fds (delete p (fds s)) s).

(** A number that is no slot, or whose slot is empty. *)
Definition fdget (fd : Z) : M fdst (option Z) :=
  p <- (if NUFILE <=? fd then kret None else slot fd) ;;
  match p with
  | None => seterr EBADF ;;; kret None
  | Some p => kret (Some p)
  end.

Definition fdclose (fd : Z) : M fdst unit :=
  r <- fdget fd ;;
  match r with
  | None => kret tt
  | Some p =>
    set_slot fd None ;;;
    x <- rdf p ;;
    if f_refc x =? 0 then panic "fdclose()"
    else
      wrf p (set_f_refc (s16 (f_refc x - 1))) ;;;
      x <- rdf p ;;
      if f_refc x =? 0 then
        (if negb (Z.land (f_flag x) FFOPNP =? 0) then on_files (op_ldetach (f_ip x))
         else on_files (op_iclose (f_ip x))) ;;;
        fdfree p
      else kret tt
  end.

(** The lowest free slot. *)
Fixpoint free_slot (l : list (option Z)) (n : Z) : Z :=
  match l with
  | Some _ :: l => free_slot l (n + 1)
  | _ => n
  end.

Definition fddup (ofd nfd : Z) : M fdst Z :=
  r <- fdget (Z.land ofd (Z.lnot DUP2)) ;;
  match r with
  | None => kret (-1)
  | Some fdp =>
    let share n := set_slot n (Some fdp) ;;; wrf fdp (fun x => set_f_refc (s16 (f_refc x + 1)) x) ;;; kret n in
    if negb (Z.land ofd DUP2 =? 0) then
      if NUFILE <=? nfd then seterr EBADF ;;; kret (-1)
      else if Z.land ofd (Z.lnot DUP2) =? nfd then kret nfd
      else
        q <- slot nfd ;;
        match q with
        | Some _ =>
          fdclose nfd ;;;
          e <- gets u_error ;;
          if negb (e =? 0) then kret (-1) else share nfd
        | None => share nfd
        end
    else
      l <- gets u_filep ;;
      let n := free_slot l 0 in
      if n =? NUFILE then seterr EMFILE ;;; kret (-1) else share n
  end.

Definition fdopen (ip mode : Z) : M fdst Z :=
  l <- gets u_filep ;;
  let n := free_slot l 0 in
  if n =? NUFILE then seterr EMFILE ;;; kret (-1)
  else
    r <- fdalloc ;;
    match r with
    | None => kret (-1)
    | Some fdp =>
      wrf fdp (fun _ => Fd (s8 (Z.lor mode FFOPNP)) 1 0 ip) ;;;
      set_slot n (Some fdp) ;;;
      on_files (op_iopen ip mode) ;;;
      e <- gets u_error ;;
      if negb (e =? 0) then
        set_slot n None ;;;
        fdfree fdp ;;;
        kret (-1)
      else
        wrf fdp (set_f_flag (s8 mode)) ;;;
        kret n
    end.

Fixpoint fdadupl_loop (l : list (option Z)) : M fdst unit :=
  match l with
  | [] => kret tt
  | Some p :: l => wrf p (fun x => set_f_refc (s16 (f_refc x + 1)) x) ;;; fdadupl_loop l
  | None :: l => fdadupl_loop l
  end.
Definition fdadupl : M fdst unit := l <- gets u_filep ;; fdadupl_loop l.

Fixpoint fdaclose_loop (l : list Z) : M fdst unit :=
  match l with
  | [] => kret tt
  | fd :: l =>
    p <- slot fd ;;
    match p with
    | None => fdaclose_loop l
    | Some _ => fdclose fd ;;; fdaclose_loop l
    end
  end.
Definition fdaclose : M fdst unit := fdaclose_loop (seqZ 0 NUFILE).

End Fd.
