(* ===== verification/FdLaws.v ===== *)
(** File descriptors: the count of references of each descriptor is the number
    of slots that hold it, whatever the other processes do meanwhile. *)
From S2P Require Import Prelude Sched Alloc Kheap Fd.
Local Open Scope Z_scope.
Local Open Scope kernel_scope.

(** What closing and opening may rely on: the inodes are whole between calls
    and at each sleep. *)
Class FileLaws (I : Type) `{FileOps I} := {
  iok : I -> Prop;
  iopen_law ip mode i : iok i -> safe (fun _ i' => iok i') iok (op_iopen ip mode i) (fun _ i' => iok i');
  iclose_law ip i : iok i -> safe (fun _ i' => iok i') iok (op_iclose ip i) (fun _ i' => iok i');
  ldetach_law ip i : iok i -> safe (fun _ i' => iok i') iok (op_ldetach ip i) (fun _ i' => iok i')
}.

(** The number of slots that hold [p]. *)
Definition refs_in (p : Z) (l : list (option Z)) : Z := Z.of_nat (length (filter (fun o => o = Some p) l)).

Lemma refs_nil p : refs_in p [] = 0.
Proof. done. Qed.

Lemma refs_cons p o l : refs_in p (o :: l) = (if decide (o = Some p) then 1 else 0) + refs_in p l.
Proof. unfold refs_in. rewrite filter_cons. destruct (decide (o = Some p)); simpl length; lia. Qed.

Lemma refs_app p l1 l2 : refs_in p (l1 ++ l2) = refs_in p l1 + refs_in p l2.
Proof. unfold refs_in. rewrite filter_app, length_app. lia. Qed.

Lemma refs_nonneg p l : 0 <= refs_in p l <= Z.of_nat (length l).
Proof. unfold refs_in. pose proof (length_filter (fun o => o = Some p) l). lia. Qed.

Lemma refs_insert p (l : list (option Z)) n o o' : l !! n = Some o ->
  refs_in p (<[n := o']> l) = refs_in p l - (if decide (o = Some p) then 1 else 0) + (if decide (o' = Some p) then 1 else 0).
Proof.
  revert n. induction l as [|a l IH]; intros [|n] Hn; simpl in Hn; [done..| |].
  - injection Hn as ->. simpl. rewrite !refs_cons. lia.
  - simpl. rewrite !refs_cons, IH by done. lia.
Qed.

Lemma refs_pos p l : 0 < refs_in p l <-> Some p ∈ l.
Proof.
  induction l as [|o l IH].
  - rewrite refs_nil. split; [lia|by intros ?%not_elem_of_nil].
  - rewrite refs_cons, elem_of_cons, <- IH. pose proof (refs_nonneg p l). case_decide as E.
    + split; [by left|lia].
    + split; [right; lia|]. intros [<-|?]; [done|lia].
Qed.

Lemma concat_length (l : list (list (option Z))) : Forall (fun t => length t = 20%nat) l -> length (concat l) = (20 * length l)%nat.
Proof. induction 1 as [|t l Ht Hl IH]; simpl; [done|]. rewrite length_app, Ht, IH. lia. Qed.

Section FdLaws.
Context {H : Type} `{!Kheap H} `{!KheapLaws H} {I : Type} `{!FileOps I} `{!FileLaws I}.
#[local] Abbreviation st := (fdst (H := H) (I := I)).
Implicit Types s : st.

Definition theirs s (p : Z) : Z := refs_in p (concat (tables s)).
Definition uses s (p : Z) : Z := refs_in p (u_filep s) + theirs s p.

Record fdok s : Prop := {
  ok_len : Forall (fun t => length t = 20%nat) (u_filep s :: tables s);
  ok_count : forall p x, fds s !! p = Some x -> f_refc x = uses s p;
  ok_point : forall p, 0 < uses s p -> is_Some (fds s !! p);
  ok_limbo : forall p, p ∈ limbo s -> is_Some (fds s !! p) /\ uses s p = 0;
  ok_own : forall p, is_Some (fds s !! p) -> owned (fheap s) p;
  ok_heap : kvalid (fheap s);
  ok_files : iok (files s);
  ok_few : 20 * (Z.of_nat (length (tables s)) + 2) < 32768
}.

(** Nothing is left between the tables and the heap but what others are closing. *)
Definition stray s (p : Z) : Prop := is_Some (fds s !! p) /\ uses s p = 0 /\ p ∉ limbo s.
Definition clean s : Prop := forall p, ~ stray s p.

(** A descriptor that nobody else has, or is closing. *)
Definition sole s (p : Z) : Prop := theirs s p = 0 /\ p ∉ limbo s.

Definition keeps (but : Z -> Prop) s s' : Prop :=
  forall p x, fds s !! p = Some x -> sole s p -> ~ but p -> fds s' !! p = Some x /\ sole s' p.

(** What the other processes may do while this one sleeps. *)
Definition others s s' : Prop :=
  fdok s' /\ u_filep s' = u_filep s /\ u_error s' = u_error s /\ keeps (fun _ => False) s s' /\
  forall p, stray s' p -> stray s p.

Lemma keeps_same but s : keeps but s s.
Proof. done. Qed.

Lemma keeps_steps but s1 s2 s3 : keeps but s1 s2 -> keeps but s2 s3 -> keeps but s1 s3.
Proof. intros H1 H2 p x Hx Hs Hb. destruct (H1 p x Hx Hs Hb) as [Hx2 Hs2]. by apply H2. Qed.

Lemma keeps_all s s' : keeps (fun _ => False) s s' -> forall p x, fds s !! p = Some x -> sole s p -> fds s' !! p = Some x /\ sole s' p.
Proof. intros Hk p x Hx Hs. apply Hk; [done..|]. by intros []. Qed.

Lemma keeps_weak (but but' : Z -> Prop) s s' : keeps but s s' -> (forall p, but p -> but' p) -> keeps but' s s'.
Proof. intros Hk Hb p x Hx Hs Hn. apply Hk; [done..|]. intros ?. by apply Hn, Hb. Qed.

Lemma others_refl s : fdok s -> others s s.
Proof. by intros. Qed.

Lemma others_trans s1 s2 s3 : others s1 s2 -> others s2 s3 -> others s1 s3.
Proof.
  intros (_ & F1 & E1 & K1 & C1) (O2 & F2 & E2 & K2 & C2). split; [done|]. split; [congruence|]. split; [congruence|].
  split; [by eapply keeps_steps|]. intros p ?. by apply C1, C2.
Qed.

Lemma fdok_files s i : fdok s -> iok i -> fdok (set_files i s).
Proof. intros []. by constructor. Qed.

Lemma fdok_error s e : fdok s -> fdok (set_u_error e s).
Proof. intros []. by constructor. Qed.

Lemma others_files s s' i : others s s' -> iok i -> others s (set_files i s').
Proof. intros (O & F & E & K & C) Hi. split; [by apply fdok_files|]. by split_and!. Qed.

(** A call on an inode, with all that others do while it sleeps. *)
Lemma safe_on_files s (m : M I (option Z)) (Inv : st -> Prop) Q : fdok s ->
  safe (fun _ i => iok i) iok (m (files s)) (fun _ i => iok i) ->
  (forall s', others s s' -> Inv s') ->
  (forall s' (e : option Z), others s s' -> Q tt (match e with Some e => set_u_error e s' | None => s' end)) ->
  safe others Inv (on_files m s) Q.
Proof.
  intros Hok Hm HI HQ. unfold on_files.
  assert (Hrun : forall o s1, others s s1 -> safe (fun _ i => iok i) iok o (fun _ i => iok i) -> safe others Inv (run_files o s1) Q); [|by apply Hrun].
  induction o as [e i|ch i k IH| |]; intros s1 H1 Ho; cbn in *; try done.
  - pose proof (others_files _ _ i H1 Ho) as H2. specialize (HQ _ e H2). by destruct e.
  - destruct Ho as [Hi Hk]. pose proof (others_files _ _ i H1 Hi) as H2. split; [by apply HI|].
    intros s2 H3. apply IH; [by eapply others_trans|]. apply Hk. apply H3.
Qed.

(** ** The invariant under each kind of store *)

Lemma uses_slot s n o o' p : u_filep s !! n = Some o ->
  refs_in p (<[n := o']> (u_filep s)) + theirs s p =
  uses s p - (if decide (o = Some p) then 1 else 0) + (if decide (o' = Some p) then 1 else 0).
Proof. intros Hn. unfold uses. rewrite (refs_insert p _ n o o' Hn). lia. Qed.

Lemma uses_bound s p : fdok s -> 0 <= uses s p /\ uses s p + 20 < 32768.
Proof.
  intros Hok. pose proof (ok_len _ Hok) as [Hl Hls]%Forall_cons. unfold uses, theirs.
  pose proof (refs_nonneg p (u_filep s)). pose proof (refs_nonneg p (concat (tables s))). pose proof (ok_few _ Hok).
  rewrite (concat_length (tables s) Hls) in *. lia.
Qed.

Lemma uses_slot_pos s n p : u_filep s !! n = Some (Some p) -> 0 < refs_in p (u_filep s).
Proof. intros Hn. apply refs_pos. by apply list_elem_of_lookup_2 in Hn. Qed.

Lemma fdok_slot_some s n p : fdok s -> u_filep s !! n = Some (Some p) -> exists x, fds s !! p = Some x /\ f_refc x = uses s p /\ 0 < uses s p.
Proof.
  intros Hok Hn. pose proof (uses_slot_pos s n p Hn) as Hp.
  assert (Hu : 0 < uses s p) by (unfold uses, theirs; pose proof (refs_nonneg p (concat (tables s))); lia).
  destruct (ok_point _ Hok p Hu) as [x Hx]. exists x. split; [done|]. split; [by apply ok_count|done].
Qed.

Lemma sole_slot s f p : sole s p <-> sole (set_u_filep f s) p.
Proof. done. Qed.

(** A slot gets the descriptor [p], which is counted. *)
Lemma fdok_fill s n p x : fdok s -> u_filep s !! n = Some None -> p ∉ limbo s -> owned (fheap s) p -> f_refc x = uses s p + 1 ->
  fdok (set_u_filep (<[n := Some p]> (u_filep s)) (set_fds (<[p := x]> (fds s)) s)).
Proof.
  intros Hok Hn Hl Ho Hx.
  assert (Hu : forall q, refs_in q (<[n := Some p]> (u_filep s)) + theirs s q = uses s q + (if decide (p = q) then 1 else 0)).
  { intros q. rewrite (uses_slot s n None (Some p) q Hn). rewrite (decide_False (P := None = Some q)) by done.
    destruct (decide (p = q)) as [->|Hne]; [rewrite decide_True by done|rewrite decide_False by congruence]; lia. }
  destruct Hok as [Hlen Hc Hp Hli Hown Hh Hf Hw]. constructor; cbn; unfold uses, theirs in *; cbn in *; try done.
  - apply Forall_cons in Hlen as [? ?]. constructor; [by rewrite length_insert|done].
  - intros q y Hy. rewrite Hu. destruct (decide (p = q)) as [<-|Hne].
    + rewrite lookup_insert_eq in Hy. by injection Hy as <-.
    + rewrite lookup_insert_ne in Hy by done. rewrite Z.add_0_r. by apply Hc.
  - intros q. rewrite Hu, lookup_insert_is_Some'. case_decide; [by left|]. rewrite Z.add_0_r. right. by apply Hp.
  - intros q Hq. rewrite Hu, lookup_insert_is_Some'. destruct (Hli q Hq) as [? E]. rewrite decide_False by (intros ->; done).
    split; [by right|lia].
  - intros q. rewrite lookup_insert_is_Some'. intros [<-|?]; [done|by apply Hown].
Qed.

(** A slot is cleared, and its descriptor counted down. *)
Lemma fdok_clear s n p x : fdok s -> u_filep s !! n = Some (Some p) -> fds s !! p = Some x ->
  fdok (set_u_filep (<[n := None]> (u_filep s)) (set_fds (<[p := set_f_refc (f_refc x - 1) x]> (fds s)) s)).
Proof.
  intros Hok Hn Hx. pose proof (fdok_slot_some s n p Hok Hn) as (y & Hy & Hyc & Hyp). simplify_eq.
  assert (Hu : forall q, refs_in q (<[n := None]> (u_filep s)) + theirs s q = uses s q - (if decide (p = q) then 1 else 0)).
  { intros q. rewrite (uses_slot s n (Some p) None q Hn). rewrite (decide_False (P := None = Some q)) by done.
    destruct (decide (p = q)) as [->|Hne]; [rewrite decide_True by done|rewrite decide_False by congruence]; lia. }
  destruct Hok as [Hlen Hc Hp Hli Hown Hh Hf Hw]. constructor; cbn; unfold uses, theirs in *; cbn in *; try done.
  - apply Forall_cons in Hlen as [? ?]. constructor; [by rewrite length_insert|done].
  - intros q z Hz. rewrite Hu. destruct (decide (p = q)) as [<-|Hne].
    + rewrite lookup_insert_eq in Hz. injection Hz as <-. cbn. lia.
    + rewrite lookup_insert_ne in Hz by done. rewrite Z.sub_0_r. by apply Hc.
  - intros q. rewrite Hu, lookup_insert_is_Some'. case_decide; [by left|]. rewrite Z.sub_0_r. right. by apply Hp.
  - intros q Hq. rewrite Hu, lookup_insert_is_Some'. destruct (Hli q Hq) as [? E]. rewrite decide_False by (intros ->; lia).
    split; [by right|lia].
  - intros q. rewrite lookup_insert_is_Some'. intros [<-|?]; apply Hown; [by rewrite Hx|done].
Qed.

(** A descriptor in no slot goes back to the heap. *)
Lemma fdok_free s p h : fdok s -> is_Some (fds s !! p) -> uses s p = 0 -> p ∉ limbo s -> kvalid h ->
  (forall q, owned h q <-> owned (fheap s) q /\ q <> p) -> fdok (set_fds (delete p (fds s)) (set_fheap h s)).
Proof.
  intros [Hlen Hc Hp Hli Hown Hh Hf Hw] Hx Hu Hl Hv Ho. constructor; cbn; unfold uses, theirs in *; cbn in *; try done.
  - intros q y [_ Hy]%lookup_delete_Some. by apply Hc.
  - intros q Hq. rewrite lookup_delete_is_Some. split; [intros ->; lia|by apply Hp].
  - intros q Hq. rewrite lookup_delete_is_Some. destruct (Hli q Hq). split; [|done]. split; [by intros ->|done].
  - intros q. rewrite lookup_delete_is_Some. intros [Hne Hq]. apply Ho. split; [by apply Hown|by apply not_eq_sym].
Qed.

(** A store to a descriptor that does not touch its count. *)
Lemma fdok_same s p x y : fdok s -> fds s !! p = Some x -> f_refc y = f_refc x -> fdok (set_fds (<[p := y]> (fds s)) s).
Proof.
  intros [Hlen Hc Hp Hli Hown Hh Hf Hw] Hx Hy.
  assert (Hd : forall q, is_Some (<[p := y]> (fds s) !! q) <-> is_Some (fds s !! q)).
  { intros q. rewrite lookup_insert_is_Some'. split; [intros [<-|?]; [by rewrite Hx|done]|by right]. }
  constructor; cbn; unfold uses, theirs in *; cbn in *; try done.
  - intros q z Hz. destruct (decide (p = q)) as [<-|Hne].
    + rewrite lookup_insert_eq in Hz. injection Hz as <-. rewrite Hy. by apply Hc.
    + rewrite lookup_insert_ne in Hz by done. by apply Hc.
  - intros q Hq. by apply Hd, Hp.
  - intros q Hq. rewrite Hd. by apply Hli.
  - intros q Hq. by apply Hown, Hd.
Qed.

(** ** [fdclose] *)

Lemma wp_rdf s p x Q : fds s !! p = Some x -> Q x s -> wp (rdf p) Q s.
Proof. intros E HQ. unfold wp, rdf, kbind. simpl. by rewrite E. Qed.

Lemma wp_wrf s p g x (Q : unit -> st -> Prop) : fds s !! p = Some x -> Q tt (set_fds (<[p := g x]> (fds s)) s) -> wp (wrf p g) Q s.
Proof. intros E HQ. unfold wp, wrf, rdf, kbind. simpl. by rewrite E. Qed.

Lemma wp_slot s n o Q : u_filep s !! Z.to_nat n = Some o -> Q o s -> wp (slot n) Q s.
Proof. intros E HQ. unfold wp, slot, kbind. simpl. by rewrite E. Qed.

Lemma wp_fdfree s p (Q : unit -> st -> Prop) : kvalid (fheap s) -> owned (fheap s) p ->
  (forall h, kvalid h -> (forall q, owned h q <-> owned (fheap s) q /\ q <> p) -> Q tt (set_fds (delete p (fds s)) (set_fheap h s))) ->
  wp (fdfree p) Q s.
Proof.
  intros Hv Ho HQ. unfold fdfree. apply wp_bind, wp_zoom. eapply wp_mono; [exact (kfree_law p (fheap s) Hv Ho)|].
  intros _ h [Hv' Ho']. apply wp_modify. by apply HQ.
Qed.

(** What the number of a file stands for. *)
Definition file_of s (fd : Z) : option Z := if NUFILE <=? fd then None else (u_filep s !! Z.to_nat fd) ≫= id.

Lemma file_of_slot s fd : fdok s -> 0 <= fd -> (NUFILE <=? fd) = false -> u_filep s !! Z.to_nat fd = Some (file_of s fd).
Proof.
  intros Hok Hfd Hn. unfold file_of. rewrite Hn. pose proof (ok_len _ Hok) as [Hl _]%Forall_cons.
  destruct (lookup_lt_is_Some_2 (u_filep s) (Z.to_nat fd)) as [o ->]; [|by destruct o].
  apply Z.leb_gt in Hn. unfold NUFILE in Hn. lia.
Qed.

Lemma file_of_some s fd p : file_of s fd = Some p -> u_filep s !! Z.to_nat fd = Some (Some p).
Proof. unfold file_of. destruct (NUFILE <=? fd); [done|]. by destruct (u_filep s !! Z.to_nat fd) as [[]|]; intros [= ->]. Qed.

Lemma wp_fdget s fd : fdok s -> 0 <= fd ->
  wp (fdget fd) (fun r s' => r = file_of s fd /\ s' = match r with Some _ => s | None => set_u_error EBADF s end) s.
Proof.
  intros Hok Hfd. unfold fdget. apply wp_bind. destruct (NUFILE <=? fd) eqn:E.
  - apply wp_ret, wp_bind, wp_modify, wp_ret. split; [|done]. unfold file_of. by rewrite E.
  - apply (wp_slot _ _ _ _ (file_of_slot s fd Hok Hfd E)). destruct (file_of s fd); [by apply wp_ret|].
    by apply wp_bind, wp_modify, wp_ret.
Qed.

(** The slot is empty; the descriptor is gone with its last reference, and else counted. *)
Definition closed s (fd p : Z) s' : Prop :=
  u_filep s' = <[Z.to_nat fd := None]> (u_filep s) /\ fdok s' /\ (forall q, stray s' q -> stray s q) /\ keeps (eq p) s s' /\
  if uses s p =? 1 then fds s' !! p = None
  else exists x, fds s !! p = Some x /\
    s' = set_u_filep (<[Z.to_nat fd := None]> (u_filep s)) (set_fds (<[p := set_f_refc (f_refc x - 1) x]> (fds s)) s).

Definition fdclose_post s (fd : Z) s' : Prop :=
  match file_of s fd with
  | None => s' = set_u_error EBADF s
  | Some p => closed s fd p s'
  end.

(** The state when the slot has been cleared. *)
Definition cleared s (fd p : Z) (x : FD) : st :=
  set_u_filep (<[Z.to_nat fd := None]> (u_filep s)) (set_fds (<[p := set_f_refc (f_refc x - 1) x]> (fds s)) s).

Lemma cleared_uses s fd p x q : u_filep s !! Z.to_nat fd = Some (Some p) ->
  uses (cleared s fd p x) q = uses s q - (if decide (p = q) then 1 else 0).
Proof.
  intros Hn. pose proof (uses_slot s _ (Some p) None q Hn) as E. unfold uses at 1, cleared, theirs. cbn. unfold theirs in E.
  rewrite E. rewrite (decide_False (P := None = Some q)) by done.
  destruct (decide (p = q)) as [->|Hne]; [rewrite decide_True by done|rewrite decide_False by congruence]; lia.
Qed.

Lemma cleared_keeps s fd p x : keeps (eq p) s (cleared s fd p x).
Proof. intros q y Hy Hs Hne. split; [|done]. cbn. by rewrite lookup_insert_ne. Qed.

Lemma cleared_stray s fd p x q : u_filep s !! Z.to_nat fd = Some (Some p) -> stray (cleared s fd p x) q -> q = p \/ stray s q.
Proof.
  intros Hn ((y & Hy) & Hu & Hl). destruct (decide (q = p)) as [->|Hne]; [by left|right].
  rewrite (cleared_uses s fd p x q Hn), decide_False in Hu by congruence. cbn in Hy. rewrite lookup_insert_ne in Hy by congruence.
  split; [by eexists|]. split; [lia|done].
Qed.

(** The last part of [fdclose] and of a failed [fdopen]: the descriptor goes. *)
Lemma wp_drop s p x (P : st -> Prop) : fdok s -> fds s !! p = Some x -> uses s p = 0 -> p ∉ limbo s ->
  (forall s', u_filep s' = u_filep s -> u_error s' = u_error s -> fdok s' -> keeps (eq p) s s' -> fds s' !! p = None ->
     (forall q, stray s' q -> q <> p /\ stray s q) -> P s') ->
  wp (fdfree p) (fun _ => P) s.
Proof.
  intros Hok Hx Hu Hl HP. assert (Hp : is_Some (fds s !! p)) by (by rewrite Hx).
  apply wp_fdfree; [apply Hok|by apply (ok_own _ Hok)|]. intros h Hv Ho. apply HP; try done.
  - by apply fdok_free.
  - intros q y Hy Hs Hne. split; [|done]. cbn. by rewrite lookup_delete_ne.
  - cbn. apply lookup_delete_eq.
  - intros q (Hq & Huq & Hlq). cbn in Hq. apply lookup_delete_is_Some in Hq as [Hne Hq]. split; [by apply not_eq_sym|]. by split_and!.
Qed.

Lemma s16_count s p : fdok s -> forall n, n = uses s p - 1 \/ n = uses s p \/ n = uses s p + 1 -> s16 n = n.
Proof. intros Hok n Hn. pose proof (uses_bound s p Hok). apply s16_small. lia. Qed.

Lemma safe_fdclose s fd : fdok s -> 0 <= fd -> safe others fdok (fdclose fd s) (fun _ s' => fdclose_post s fd s').
Proof.
  intros Hok Hfd. unfold fdclose. apply safe_step. eapply wp_mono; [by apply wp_fdget|]. intros r s0 [-> E0]. unfold fdclose_post.
  destruct (file_of s fd) as [p|] eqn:Ef; [|by apply safe_wp, wp_ret]. subst s0. apply file_of_some in Ef.
  destruct (fdok_slot_some s _ p Hok Ef) as (x & Hx & Hc & Hpos).
  apply safe_step, wp_modify, safe_step. apply (wp_rdf _ p x); [done|]. rewrite (proj2 (Z.eqb_neq (f_refc x) 0)) by lia.
  apply safe_step, (wp_wrf _ p _ x); [done|]. cbn [u_filep set_u_filep fds set_fds]. rewrite (s16_count s p Hok) by lia.
  change (set_fds _ (set_u_filep _ s)) with (cleared s fd p x).
  apply safe_step, (wp_rdf _ p (set_f_refc (f_refc x - 1) x)); [cbn; by rewrite lookup_insert_eq|]. cbn [f_refc f_flag f_ip set_f_refc].
  pose proof (fdok_clear s _ p x Hok Ef Hx) as Hok1. fold (cleared s fd p x) in Hok1. unfold closed. rewrite <- Hc.
  pose proof (cleared_uses s fd p x p Ef) as Hup. rewrite decide_True in Hup by done.
  assert (Hl : p ∉ limbo s) by (intros Hin; destruct (ok_limbo _ Hok p Hin); lia).
  destruct (Z.eqb_spec (f_refc x - 1) 0) as [E1|E1]; destruct (Z.eqb_spec (f_refc x) 1); try lia.
  2:{ apply safe_wp, wp_ret. split; [done|]. split; [done|]. split; [|split; [apply cleared_keeps|by exists x]].
      intros q Hq. destruct (cleared_stray s fd p x q Ef Hq) as [->|?]; [|done]. destruct Hq as (_ & Hq & _). lia. }
  assert (Hsole : sole (cleared s fd p x) p).
  { split; [|done]. unfold uses in Hup. change (theirs (cleared s fd p x) p) with (theirs s p) in *.
    pose proof (uses_slot_pos s _ p Ef). unfold theirs in *. pose proof (refs_nonneg p (concat (tables s))). unfold uses, theirs in Hc. lia. }
  assert (Hend : forall s2 (er : option Z), others (cleared s fd p x) s2 ->
    safe others fdok (fdfree p (match er with Some e0 => set_u_error e0 s2 | None => s2 end)) (fun _ s' =>
      u_filep s' = <[Z.to_nat fd := None]> (u_filep s) /\ fdok s' /\ (forall q, stray s' q -> stray s q) /\ keeps (eq p) s s' /\ fds s' !! p = None)).
  { intros s2 er (O2 & F2 & _ & K2 & S2). destruct (K2 p _ ltac:(cbn; by rewrite lookup_insert_eq) Hsole) as [Hx2 [Ht2 Hl2]]; [by intros []|].
    assert (Hu2 : uses s2 p = 0).
    { assert (H0 : uses (cleared s fd p x) p = 0) by lia. destruct Hsole as [Ht _]. unfold uses in H0 |- *. rewrite F2, Ht2. lia. }
    set (s3 := match er with Some e0 => set_u_error e0 s2 | None => s2 end).
    assert (E3 : fdok s3 /\ fds s3 = fds s2 /\ uses s3 = uses s2 /\ limbo s3 = limbo s2 /\ u_filep s3 = u_filep s2 /\ tables s3 = tables s2)
      by (destruct er; split_and!; try done; by apply fdok_error).
    destruct E3 as (O3 & D3 & U3 & L3 & F3 & T3). apply safe_wp. apply (wp_drop s3 p _ _ O3 ltac:(rewrite D3; exact Hx2)); [by rewrite U3|by rewrite L3|].
    intros s4 F4 _ O4 K4 N4 S4. split; [by rewrite F4, F3, F2|]. split; [done|]. split; [|split; [|done]].
    - intros q Hq. destruct (S4 q Hq) as [Hne Hq3]. assert (Hq2 : stray s2 q) by (unfold stray in *; by rewrite <- D3, <- U3, <- L3).
      by destruct (cleared_stray s fd p x q Ef (S2 q Hq2)) as [?|?].
    - eapply keeps_steps; [apply (cleared_keeps s fd p x)|]. eapply keeps_steps; [by eapply keeps_weak|].
      intros q y Hy Hs Hn. apply K4; [by rewrite D3| |done]. unfold sole, theirs in *. by rewrite L3, T3. }
  apply safe_kbind. destruct (negb _); apply safe_on_files; try done; try (by intros s' [? _]).
  - apply ldetach_law, Hok1.
  - apply iclose_law, Hok1.
Qed.

(** ** [fdopen] *)

Lemma free_slot_spec (l : list (option Z)) k : let n := free_slot l k in
  k <= n <= k + Z.of_nat (length l) /\ (forall i, k <= i < n -> exists p, l !! Z.to_nat (i - k) = Some (Some p)) /\
  (n < k + Z.of_nat (length l) -> l !! Z.to_nat (n - k) = Some None).
Proof.
  revert k. induction l as [|[p|] l IH]; intros k; cbn [free_slot length].
  - split; [lia|]. split; [intros i; lia|lia].
  - destruct (IH (k + 1)) as (H1 & H2 & H3). split; [lia|]. split.
    + intros i Hi. destruct (decide (i = k)) as [->|Hne]; [rewrite Z.sub_diag; by exists p|].
      replace (Z.to_nat (i - k)) with (S (Z.to_nat (i - (k + 1)))) by lia. apply H2. lia.
    + intros Hn. replace (Z.to_nat (_ - k)) with (S (Z.to_nat (free_slot l (k + 1) - (k + 1)))) by lia. apply H3. lia.
  - split; [lia|]. split; [intros i; lia|]. intros _. by rewrite Z.sub_diag.
Qed.

Definition first_free s : Z := free_slot (u_filep s) 0.

Lemma first_free_spec s : fdok s -> 0 <= first_free s <= NUFILE /\
  (first_free s < NUFILE -> u_filep s !! Z.to_nat (first_free s) = Some None).
Proof.
  intros Hok. pose proof (ok_len _ Hok) as [Hl _]%Forall_cons. destruct (free_slot_spec (u_filep s) 0) as (H1 & _ & H3).
  unfold first_free, NUFILE. rewrite Hl in *. split; [lia|]. intros Hn. rewrite <- (Z.sub_0_r (free_slot _ _)). apply H3. lia.
Qed.

(** The new descriptor hangs on the slot, with the mark that its open is not complete. *)
Definition anchored s (ip mode p : Z) s' : Prop :=
  u_filep s' = <[Z.to_nat (first_free s) := Some p]> (u_filep s) /\
  fds s' !! p = Some (Fd (Z.lor mode FFOPNP) 1 0 ip) /\ sole s' p.

Definition opening s (ip mode : Z) s' : Prop :=
  fdok s' /\ (forall q, stray s' q -> stray s q) /\ exists p, anchored s ip mode p s'.

(** No slot or no memory; an inode that cannot be opened; or a new file. *)
Definition fdopen_post s (ip mode r : Z) s' : Prop :=
  fdok s' /\ (forall q, stray s' q -> stray s q) /\ keeps (fun _ => False) s s' /\
  if r =? -1 then u_error s' <> 0 /\ u_filep s' = u_filep s /\ (first_free s = NUFILE -> u_error s' = EMFILE)
  else r = first_free s /\ r < NUFILE /\ u_error s' = 0 /\ exists p, fds s !! p = None /\
    u_filep s' = <[Z.to_nat r := Some p]> (u_filep s) /\ fds s' !! p = Some (Fd mode 1 0 ip) /\ sole s' p.

Lemma fresh_unused s p : fdok s -> fds s !! p = None -> uses s p = 0 /\ sole s p /\ p ∉ limbo s.
Proof.
  intros Hok Hp. assert (Hl : p ∉ limbo s) by (intros Hin; destruct (ok_limbo _ Hok p Hin) as [[y Hy] _]; congruence).
  assert (Hu : uses s p = 0).
  { destruct (uses_bound s p Hok). destruct (Z.eq_dec (uses s p) 0) as [|Hne]; [done|]. destruct (ok_point _ Hok p ltac:(lia)) as [y Hy]. congruence. }
  split; [done|]. split; [|done]. split; [|done]. unfold uses, theirs in *. pose proof (refs_nonneg p (u_filep s)). pose proof (refs_nonneg p (concat (tables s))). lia.
Qed.

Lemma wp_fdalloc s : fdok s -> wp fdalloc (fun r s' => exists h, kvalid h /\
  match r with
  | Some p => fds s !! p = None /\ (forall q, owned h q <-> q = p \/ owned (fheap s) q) /\ s' = set_fds (<[p := fd0]> (fds s)) (set_fheap h s)
  | None => (forall q, owned h q <-> owned (fheap s) q) /\ s' = set_u_error Alloc.EKSPACE (set_fheap h s)
  end) s.
Proof.
  intros Hok. unfold fdalloc. apply wp_bind, wp_zoom.
  eapply wp_mono; [exact (kalloc_law sizeof_FD (fheap s) (ok_heap _ Hok) ltac:(done))|].
  intros [p|] h (Hv & _ & Hk); apply wp_bind, wp_modify, wp_ret; exists h; [|done].
  destruct Hk as (_ & Hn & Ho). split; [done|]. split; [|done]. apply eq_None_not_Some. intros Hd. by apply Hn, (ok_own _ Hok).
Qed.

Lemma fdok_heap s h : fdok s -> kvalid h -> (forall q, owned (fheap s) q -> owned h q) -> fdok (set_fheap h s).
Proof. intros [] Hv Ho. constructor; cbn; auto. Qed.

(** The state in which [iopen] is called. *)
Lemma open_state s p x h n : fdok s -> u_filep s !! n = Some None -> fds s !! p = None -> kvalid h ->
  (forall q, owned h q <-> q = p \/ owned (fheap s) q) -> f_refc x = 1 ->
  let s' := set_u_filep (<[n := Some p]> (u_filep s)) (set_fds (<[p := x]> (fds s)) (set_fheap h s)) in
  fdok s' /\ sole s' p /\ (forall q, stray s' q -> stray s q) /\ keeps (fun _ => False) s s'.
Proof.
  intros Hok Hn Hp Hv Ho Hx s'. destruct (fresh_unused s p Hok Hp) as (Hu & Hs & Hl).
  assert (Hok1 : fdok (set_fheap h s)) by (apply fdok_heap; [done|done|intros q ?; apply Ho; by right]).
  split; [|split; [done|split]].
  - apply (fdok_fill (set_fheap h s)); [done|done|done|cbn; apply Ho; by left|]. unfold uses, theirs in *. cbn. lia.
  - intros q (Hq & Huq & Hlq).
    assert (Hne : p <> q).
    { intros <-. assert (Hpos : 0 < refs_in p (u_filep s')).
      { apply (uses_slot_pos s' n). cbn. apply list_lookup_insert_eq. by apply lookup_lt_Some in Hn. }
      unfold uses, theirs in Huq. pose proof (refs_nonneg p (concat (tables s'))). lia. }
    cbn in Hq. rewrite lookup_insert_ne in Hq by done. split; [done|]. split; [|done].
    pose proof (uses_slot s n None (Some p) q Hn) as E. unfold uses at 1, theirs in Huq. cbn in Huq. unfold theirs in E.
    rewrite (decide_False (P := None = Some q)), (decide_False (P := Some p = Some q)) in E by congruence. lia.
  - intros q y Hy Hsq _. split; [|done]. cbn. rewrite lookup_insert_ne; [done|]. intros <-. congruence.
Qed.

Lemma mode_flags mode : 0 <= mode < 8 -> s8 (Z.lor mode FFOPNP) = Z.lor mode FFOPNP /\ s8 mode = mode.
Proof.
  intros Hm. assert (Hc : In mode [0; 1; 2; 3; 4; 5; 6; 7]) by (cbn; lia). cbn in Hc. by repeat destruct Hc as [<-|Hc].
Qed.

Definition anchored_at s (n p ip mode : Z) s' : Prop :=
  fdok s' /\ u_filep s' = <[Z.to_nat n := Some p]> (u_filep s) /\ fds s' !! p = Some (Fd (Z.lor mode FFOPNP) 1 0 ip) /\ sole s' p /\
  (forall q, stray s' q -> stray s q) /\ keeps (fun _ => False) s s'.

(** After [iopen], whatever others did meanwhile. *)
Lemma open_done s ip mode n p s2 (er : option Z) : fdok s -> fds s !! p = None -> n = first_free s -> n < NUFILE -> 0 <= mode < 8 ->
  anchored_at s n p ip mode s2 -> u_error s2 = 0 ->
  let s3 := match er with Some e => set_u_error e s2 | None => s2 end in
  wp (e <- gets u_error ;;
      if negb (e =? 0) then set_slot n None ;;; fdfree p ;;; kret (-1)
      else wrf p (set_f_flag (s8 mode)) ;;; kret n) (fdopen_post s ip mode) s3.
Proof.
  intros Hok Hp Hn Hlt Hmode (O2 & F2 & X2 & So2 & S2 & K2) E2 s3. destruct (first_free_spec s Hok) as [Hr Hfree]. rewrite <- Hn in Hr, Hfree.
  specialize (Hfree Hlt). destruct (mode_flags mode Hmode) as [_ Hm8].
  assert (E3 : fdok s3 /\ fds s3 = fds s2 /\ uses s3 = uses s2 /\ limbo s3 = limbo s2 /\ u_filep s3 = u_filep s2 /\ tables s3 = tables s2)
    by (destruct er; split_and!; try done; by apply fdok_error).
  destruct E3 as (O3 & D3 & U3 & L3 & F3 & T3).
  assert (S3 : forall q, stray s3 q -> stray s q) by (intros q Hq; apply S2; unfold stray in *; by rewrite <- D3, <- U3, <- L3).
  assert (K3 : keeps (fun _ => False) s s3) by (intros q y H1 H2 H3; rewrite D3; unfold sole, theirs; rewrite L3, T3; by apply (K2 q y)).
  assert (Hslot : u_filep s3 !! Z.to_nat n = Some (Some p)).
  { rewrite F3, F2. apply list_lookup_insert_eq. by apply lookup_lt_Some in Hfree. }
  apply wp_bind, wp_gets. destruct (Z.eqb_spec (u_error s3) 0) as [E|E]; cbn [negb].
  - apply wp_bind. eapply (wp_wrf _ p); [by rewrite D3|]. apply wp_ret. rewrite Hm8.
    split; [by eapply fdok_same; [done|by rewrite D3|]|]. split; [|split].
    + intros q (Hq & Hrest). apply S3. split; [|exact Hrest]. cbn in Hq. apply lookup_insert_is_Some' in Hq as [<-|?]; [by rewrite D3, X2|done].
    + intros q y Hy Hs _. destruct (keeps_all _ _ K3 q y Hy Hs) as [Hq Hsq]. split; [|done]. cbn. rewrite lookup_insert_ne; [done|]. intros <-. congruence.
    + destruct (Z.eqb_spec n (-1)); [lia|]. split; [done|]. split; [done|]. split; [done|]. exists p. split; [done|]. split; [by cbn; rewrite F3|].
      split; [cbn; by rewrite lookup_insert_eq|]. unfold sole, theirs in *. cbn. by rewrite T3, L3.
  - apply wp_bind, wp_modify, wp_bind.
    pose proof (uses_slot s3 (Z.to_nat n) (Some p) None p Hslot) as Hu. rewrite decide_True, (decide_False (P := None = Some p)) in Hu by done.
    assert (H1 : uses s3 p = 1) by (rewrite U3; symmetry; rewrite <- (ok_count _ O2 p _ X2); done).
    pose proof (fdok_clear s3 _ p (Fd (Z.lor mode FFOPNP) 1 0 ip) O3 Hslot ltac:(by rewrite D3)) as O4. fold (cleared s3 n p (Fd (Z.lor mode FFOPNP) 1 0 ip)) in O4.
    set (x := Fd _ _ _ _) in *. set (s4 := set_u_filep _ _).
    assert (Hx4 : fds s4 !! p = Some x) by (cbn; by rewrite D3).
    apply wp_fdfree; [apply O3|apply (ok_own _ O3); by rewrite D3, X2|]. intros h Hv Ho. apply wp_ret.
    pose proof (fdok_free (cleared s3 n p x) p h O4) as O5. cbn in O5. rewrite lookup_insert_eq, delete_insert_eq in O5.
    unfold fdopen_post. rewrite (proj2 (Z.eqb_eq (-1) (-1))) by done. split; [|split; [|split; [|split; [done|split]]]].
    + apply O5.
      * by eexists.
      * rewrite (cleared_uses s3 n p x p Hslot). rewrite decide_True by done. by rewrite H1.
      * rewrite L3. apply So2.
      * done.
      * done.
    + intros q (Hq & Huq & Hlq). cbn in Hq. apply lookup_delete_is_Some in Hq as [Hne Hq]. apply S3. split; [done|]. split; [|done].
      pose proof (uses_slot s3 (Z.to_nat n) (Some p) None q Hslot) as Hu'. unfold uses at 1, theirs in Huq. cbn in Huq. unfold theirs in Hu'.
      rewrite (decide_False (P := None = Some q)), (decide_False (P := Some p = Some q)) in Hu' by congruence. lia.
    + intros q y Hy Hs _. destruct (keeps_all _ _ K3 q y Hy Hs) as [Hq Hsq]. split; [|done]. cbn. rewrite lookup_delete_ne; [done|]. intros <-. congruence.
    + cbn. rewrite F3, F2, list_insert_insert_eq. by apply list_insert_id.
    + intros. subst n. unfold NUFILE in *. lia.
Qed.

Lemma safe_fdopen s ip mode : fdok s -> u_error s = 0 -> 0 <= mode < 8 ->
  safe others (opening s ip mode) (fdopen ip mode s) (fdopen_post s ip mode).
Proof.
  intros Hok He Hmode. unfold fdopen. apply safe_step, wp_gets. cbn zeta. fold (first_free s).
  destruct (first_free_spec s Hok) as [Hr Hfree]. destruct (Z.eqb_spec (first_free s) NUFILE) as [En|En].
  { apply safe_wp, wp_bind, wp_modify, wp_ret. split; [by apply fdok_error|]. by split_and!. }
  specialize (Hfree ltac:(lia)). apply safe_step. eapply wp_mono; [by apply wp_fdalloc|]. intros [p|] s1 (h & Hv & Hr1).
  2:{ destruct Hr1 as (Ho & ->). apply safe_wp, wp_ret. split; [apply fdok_error, fdok_heap; [done|done|intros q; by rewrite Ho]|].
      split_and!; try done. }
  destruct Hr1 as (Hp & Ho & ->). destruct (mode_flags mode Hmode) as [Hm _]. rewrite Hm.
  set (x := Fd (Z.lor mode FFOPNP) 1 0 ip). destruct (open_state s p x h _ Hok Hfree Hp Hv Ho eq_refl) as (O2 & So2 & S2 & K2).
  apply safe_step. eapply (wp_wrf _ p); [cbn; by rewrite lookup_insert_eq|]. cbn [fds set_fds set_fheap]. rewrite insert_insert_eq.
  apply safe_step, wp_modify. cbn [u_filep set_fds set_fheap].
  set (s2 := set_u_filep _ _) in *. fold x. change (set_u_filep _ (set_fds _ _)) with s2.
  assert (Hat : forall s', others s2 s' -> anchored_at s (first_free s) p ip mode s').
  { intros s' (O3 & F3 & _ & K3 & S3). destruct (K3 p x ltac:(cbn; by rewrite lookup_insert_eq) So2) as [Hx Hsx]; [by intros []|].
    split; [done|]. split; [by rewrite F3|]. split; [done|]. split; [done|]. split; [auto|by eapply keeps_steps]. }
  apply safe_kbind, safe_on_files; [done|apply iopen_law, O2| |].
  - intros s' H'. destruct (Hat s' H') as (? & ? & ? & ? & ? & _). split; [done|]. split; [done|]. by exists p.
  - intros s' er H'. apply safe_wp, (open_done s ip mode _ p s' er); try done; [lia|by apply Hat|]. destruct H' as (_ & _ & -> & _). done.
Qed.

(** ** [fddup], [fdaclose], [fdadupl] *)

(** [n] becomes another number of the file [p]. *)
Definition shared s (n p : Z) s' : Prop :=
  fdok s' /\ (forall q, stray s' q -> stray s q) /\ u_filep s' = <[Z.to_nat n := Some p]> (u_filep s).

Lemma wp_share s n p x : fdok s -> u_filep s !! Z.to_nat n = Some None -> fds s !! p = Some x -> 0 < uses s p ->
  wp (set_slot n (Some p) ;;; wrf p (fun x => set_f_refc (s16 (f_refc x + 1)) x) ;;; kret n)
    (fun r s' => r = n /\ u_error s' = u_error s /\ shared s n p s') s.
Proof.
  intros Hok Hn Hx Hu. pose proof (ok_count _ Hok p x Hx) as Hc. apply wp_bind, wp_modify, wp_bind, (wp_wrf _ p _ x); [done|].
  apply wp_ret. split; [done|]. split; [done|]. cbn [u_filep set_u_filep fds]. rewrite (s16_count s p Hok) by lia. split; [|split; [|done]].
  - apply (fdok_fill s (Z.to_nat n) p (set_f_refc (f_refc x + 1) x)); try done.
    + intros Hin. destruct (ok_limbo _ Hok p Hin). lia.
    + apply (ok_own _ Hok). by rewrite Hx.
    + cbn. lia.
  - intros q (Hq & Huq & Hl). cbn in Hq. pose proof (uses_slot s _ None (Some p) q Hn) as E. unfold uses at 1, theirs in Huq. cbn in Huq.
    unfold theirs in E. rewrite (decide_False (P := None = Some q)) in E by done. destruct (uses_bound s q Hok).
    destruct (decide (Some p = Some q)) as [[= ->]|Hne]; [lia|]. rewrite lookup_insert_ne in Hq by congruence. split; [done|]. split; [lia|done].
Qed.

Definition fddup_post s (ofd nfd r : Z) s' : Prop :=
  fdok s' /\ (forall q, stray s' q -> stray s q) /\
  match file_of s (Z.land ofd (Z.lnot DUP2)) with
  | None => r = -1 /\ s' = set_u_error EBADF s
  | Some p =>
    let n := if negb (Z.land ofd DUP2 =? 0) then nfd else first_free s in
    if NUFILE <=? n then r = -1 /\ u_error s' <> 0 /\ u_filep s' = u_filep s
    else if negb (Z.land ofd DUP2 =? 0) && (Z.land ofd (Z.lnot DUP2) =? nfd) then r = nfd /\ s' = s
    else if r =? -1 then u_error s' <> 0 /\ u_filep s' = <[Z.to_nat n := None]> (u_filep s)
    else r = n /\ u_filep s' = <[Z.to_nat n := Some p]> (u_filep s)
  end.

Lemma file_of_free s n p : file_of s n = Some p -> 0 <= n -> n <> first_free s \/ first_free s = NUFILE.
Proof.
  intros Hf Hn. destruct (decide (first_free s = NUFILE)) as [?|Hne]; [by right|left]. intros E. pose proof (file_of_some _ _ _ Hf) as Hs.
  unfold file_of in Hf. destruct (NUFILE <=? n) eqn:El; [done|]. apply Z.leb_gt in El.
  destruct (free_slot_spec (u_filep s) 0) as (_ & _ & H3). unfold first_free in *. rewrite Z.sub_0_r in H3. rewrite <- E in H3.
  rewrite H3 in Hs; [done|]. apply lookup_lt_Some in Hs. lia.
Qed.

Lemma wp_share_at s0 s n p ofd nfd : fdok s -> u_filep s !! Z.to_nat n = Some None -> Some p ∈ u_filep s ->
  (forall q, stray s q -> stray s0 q) -> file_of s0 (Z.land ofd (Z.lnot DUP2)) = Some p ->
  n = (if negb (Z.land ofd DUP2 =? 0) then nfd else first_free s0) -> 0 <= n < NUFILE ->
  negb (Z.land ofd DUP2 =? 0) && (Z.land ofd (Z.lnot DUP2) =? nfd) = false ->
  <[Z.to_nat n := Some p]> (u_filep s) = <[Z.to_nat n := Some p]> (u_filep s0) ->
  wp (set_slot n (Some p) ;;; wrf p (fun x => set_f_refc (s16 (f_refc x + 1)) x) ;;; kret n) (fddup_post s0 ofd nfd) s.
Proof.
  intros Hok Hn Hp Hstray Hf En Hlt Hsame Hl. apply list_elem_of_lookup in Hp as [m Hm].
  destruct (fdok_slot_some s m p Hok Hm) as (x & Hx & _ & Hu). eapply wp_mono; [by apply (wp_share s n p x)|].
  intros r s' (-> & _ & O & S & F). split; [done|]. split; [auto|]. rewrite Hf. cbn zeta. rewrite <- En, Hsame.
  rewrite (proj2 (Z.leb_gt NUFILE n)) by lia. destruct (Z.eqb_spec n (-1)); [lia|]. split; [done|]. by rewrite F, Hl.
Qed.

Lemma safe_fddup s ofd nfd : fdok s -> u_error s = 0 -> 0 <= ofd -> 0 <= nfd ->
  safe others fdok (fddup ofd nfd s) (fddup_post s ofd nfd).
Proof.
  intros Hok He Ho Hnf. assert (Hof : 0 <= Z.land ofd (Z.lnot DUP2)) by (apply Z.land_nonneg; by left).
  unfold fddup. apply safe_step. eapply wp_mono; [by apply wp_fdget|]. intros r s0 [-> E0].
  destruct (file_of s _) as [p|] eqn:Ef.
  2:{ apply safe_wp, wp_ret. subst s0. split; [by apply fdok_error|]. split; [done|]. by rewrite Ef. }
  subst s0. cbn zeta. pose proof (file_of_some _ _ _ Ef) as Hslot.
  assert (Hpin : Some p ∈ u_filep s) by (by eapply list_elem_of_lookup_2).
  destruct (Z.land ofd DUP2 =? 0) eqn:Ed; cbn [negb].
  - apply safe_step, wp_gets. fold (first_free s). destruct (first_free_spec s Hok) as [Hr Hfree].
    destruct (Z.eqb_spec (first_free s) NUFILE) as [En|En].
    + apply safe_wp, wp_bind, wp_modify, wp_ret. split; [by apply fdok_error|]. split; [done|]. rewrite Ef. cbn zeta. rewrite Ed. cbn [negb].
      rewrite En. by rewrite (proj2 (Z.leb_le _ _)).
    + apply safe_wp, (wp_share_at s s _ p); try done; [by apply Hfree; lia|by rewrite Ed|lia|by rewrite Ed].
  - destruct (NUFILE <=? nfd) eqn:El.
    { apply safe_wp, wp_bind, wp_modify, wp_ret. split; [by apply fdok_error|]. split; [done|]. rewrite Ef. cbn zeta. rewrite Ed. cbn [negb]. by rewrite El. }
    destruct (Z.land ofd (Z.lnot DUP2) =? nfd) eqn:Es.
    { apply safe_wp, wp_ret. split; [done|]. split; [done|]. rewrite Ef. cbn zeta. rewrite Ed. cbn [negb andb]. by rewrite El, Es. }
    assert (Hlt : 0 <= nfd < NUFILE) by (apply Z.leb_gt in El; lia). apply Z.eqb_neq in Es as Es'.
    apply safe_step, (wp_slot _ _ _ _ (file_of_slot s nfd Hok Hnf El)). destruct (file_of s nfd) as [q|] eqn:Eq.
    2:{ apply safe_wp, (wp_share_at s s _ p); try done; [by rewrite <- Eq; apply file_of_slot|by rewrite Ed|by rewrite Es, Ed]. }
    apply safe_kbind. eapply safe_mono; [|by apply safe_fdclose]. intros u1 s1 H1. cbn beta in H1. unfold fdclose_post in H1. rewrite Eq in H1.
    destruct H1 as (F1 & O1 & S1 & _). apply safe_wp, wp_bind, wp_gets.
    pose proof (file_of_some _ _ _ Eq) as Hq. pose proof (lookup_lt_Some _ _ _ Hq) as Hlen.
    destruct (Z.eqb_spec (u_error s1) 0) as [E1|E1]; cbn [negb].
    + apply (wp_share_at s s1 _ p); try done; [by rewrite F1; apply list_lookup_insert_eq| |by rewrite Ed|by rewrite Es, Ed|by rewrite F1, list_insert_insert_eq].
      rewrite F1. apply list_elem_of_lookup. exists (Z.to_nat (Z.land ofd (Z.lnot DUP2))). rewrite list_lookup_insert_ne; [done|lia].
    + apply wp_ret. split; [done|]. split; [done|]. rewrite Ef. cbn zeta. rewrite Ed. cbn [negb andb]. by rewrite El, Es.
Qed.

(** Every slot of [l] empty, the others as they were. *)
Definition emptied (l : list Z) (t : list (option Z)) : list (option Z) := foldl (fun t fd => <[Z.to_nat fd := None]> t) t l.

Definition whole s s' : Prop := fdok s' /\ forall q, stray s' q -> stray s q.

Lemma safe_fdaclose_loop l : forall s, fdok s -> (forall fd, fd ∈ l -> 0 <= fd < NUFILE) ->
  safe others fdok (fdaclose_loop l s) (fun _ s' => whole s s' /\ u_filep s' = emptied l (u_filep s)).
Proof.
  induction l as [|fd l IH]; intros s Hok Hl; cbn [fdaclose_loop emptied foldl]; [by apply safe_wp, wp_ret|].
  assert (Hfd : 0 <= fd < NUFILE) by (apply Hl; by left). assert (Hl' : forall i, i ∈ l -> 0 <= i < NUFILE) by (intros i Hi; apply Hl; by right).
  assert (El : (NUFILE <=? fd) = false) by (apply Z.leb_gt; lia). pose proof (file_of_slot s fd Hok ltac:(lia) El) as Hs.
  apply safe_step, (wp_slot _ _ _ _ Hs). destruct (file_of s fd) as [p|] eqn:Ef.
  - apply safe_kbind. eapply safe_mono; [|apply safe_fdclose; [done|lia]]. intros u s1 H1. cbn beta in H1. unfold fdclose_post in H1. rewrite Ef in H1.
    destruct H1 as (F1 & O1 & S1 & _). eapply safe_mono; [|by apply IH]. intros u' s2 [[O2 S2] F2]. cbn beta. split; [|by rewrite F2, F1].
    split; [done|]. intros q Hq. by apply S1, S2.
  - eapply safe_mono; [|by apply IH]. intros u s2 [W F]. cbn beta. split; [done|]. rewrite F. unfold emptied. by rewrite list_insert_id.
Qed.

Lemma emptied_all t : length t = 20%nat -> emptied (seqZ 0 NUFILE) t = replicate 20 None.
Proof. intros Ht. do 21 (destruct t as [|? t]; [done || discriminate Ht|]). discriminate Ht. Qed.

Lemma safe_fdaclose s : fdok s -> safe others fdok (fdaclose s) (fun _ s' => whole s s' /\ u_filep s' = replicate 20 None).
Proof.
  intros Hok. eapply safe_mono; [|apply safe_fdaclose_loop; [done|]].
  - intros u s' [W F]. cbn beta. split; [done|]. rewrite F. apply emptied_all. by pose proof (ok_len _ Hok) as [? _]%Forall_cons.
  - intros fd Hfd%elem_of_seqZ. lia.
Qed.

(** After [fdadupl] each descriptor is counted once more for each slot of [l]. *)
Lemma wp_fdadupl_loop l : forall s, (forall p, Some p ∈ l -> is_Some (fds s !! p)) ->
  (forall p x, fds s !! p = Some x -> 0 <= f_refc x /\ f_refc x + refs_in p l < 32768) ->
  wp (fdadupl_loop l) (fun _ s' => exists m, s' = set_fds m s /\
    forall p, m !! p = (fun x => set_f_refc (f_refc x + refs_in p l) x) <$> fds s !! p) s.
Proof.
  induction l as [|[p|] l IH]; intros s Hd Hb; cbn [fdadupl_loop].
  - apply wp_ret. exists (fds s). split; [by destruct s|]. intros p. destruct (fds s !! p) as [[]|]; [|done]. cbn. unfold set_f_refc. cbn.
    by rewrite refs_nil, Z.add_0_r.
  - destruct (Hd p ltac:(by left)) as [x Hx]. pose proof (Hb p x Hx) as Hbx. rewrite refs_cons, decide_True in Hbx by done.
    pose proof (refs_nonneg p l). apply wp_bind, (wp_wrf _ p _ x); [done|]. rewrite s16_small by lia.
    eapply wp_mono; [apply IH|].
    + intros q Hq. cbn. rewrite lookup_insert_is_Some'. right. apply Hd. by right.
    + intros q y Hy. cbn in Hy. destruct (decide (p = q)) as [<-|Hne].
      * rewrite lookup_insert_eq in Hy. injection Hy as <-. cbn. lia.
      * rewrite lookup_insert_ne in Hy by done. specialize (Hb q y Hy). rewrite refs_cons, decide_False in Hb by congruence. lia.
    + intros u s' (m & -> & Hm). exists m. split; [done|]. intros q. rewrite Hm. cbn. rewrite refs_cons.
      destruct (decide (p = q)) as [<-|Hne].
      * rewrite lookup_insert_eq, Hx, decide_True by done. cbn. f_equal. unfold set_f_refc. cbn. f_equal. lia.
      * rewrite lookup_insert_ne by done. rewrite decide_False by congruence. by rewrite Z.add_0_l.
  - eapply wp_mono; [apply IH|].
    + intros q Hq. apply Hd. by right.
    + intros q y Hy. specialize (Hb q y Hy). rewrite refs_cons, decide_False in Hb by done. lia.
    + intros u s' (m & -> & Hm). exists m. split; [done|]. intros q. rewrite Hm, refs_cons, decide_False by done. by rewrite Z.add_0_l.
Qed.

(** The child's table is a copy of the parent's. *)
Definition forked s : st := set_tables (u_filep s :: tables s) s.

Lemma wp_fdadupl s : fdok s -> 20 * (Z.of_nat (length (tables s)) + 3) < 32768 ->
  wp fdadupl (fun _ s' => fdok (forked s') /\ (forall q, stray (forked s') q -> stray s q) /\ u_filep s' = u_filep s) s.
Proof.
  intros Hok Hfew. apply wp_bind, wp_gets.
  assert (Hu : forall m p, uses (forked (set_fds m s)) p = uses s p + refs_in p (u_filep s)).
  { intros m p. unfold uses, theirs, forked. cbn. rewrite refs_app. lia. }
  pose proof (ok_len _ Hok) as [Hlen Hlens]%Forall_cons.
  assert (Hin : forall p, refs_in p (u_filep s) <= uses s p) by (intros p; unfold uses, theirs; pose proof (refs_nonneg p (concat (tables s))); lia).
  eapply wp_mono; [apply wp_fdadupl_loop|].
  - intros p [n Hn]%list_elem_of_lookup. destruct (fdok_slot_some s n p Hok Hn) as (x & Hx & _). by exists x.
  - intros p x Hx. rewrite (ok_count _ Hok p x Hx). destruct (uses_bound s p Hok). pose proof (refs_nonneg p (u_filep s)). rewrite Hlen in *. lia.
  - intros u s' (m & -> & Hm).
    assert (Hd : forall p, is_Some (m !! p) <-> is_Some (fds s !! p)) by (intros p; rewrite Hm; apply fmap_is_Some).
    split; [|split; [|done]].
    + destruct Hok as [Hl Hc Hp Hli Hown Hh Hf Hw]. constructor; cbn [fds forked set_tables set_fds limbo fheap files]; try done.
      * by constructor.
      * intros p x Hx. rewrite Hu. rewrite Hm in Hx. apply fmap_Some in Hx as (y & Hy & ->). cbn. by rewrite (Hc p y Hy).
      * intros p. rewrite Hu, Hd. intros Hp0. apply Hp. specialize (Hin p). pose proof (refs_nonneg p (u_filep s)). lia.
      * intros p Hpl. rewrite Hu, Hd. destruct (Hli p Hpl). split; [done|]. specialize (Hin p). pose proof (refs_nonneg p (u_filep s)). lia.
      * intros p. rewrite Hd. apply Hown.
      * cbn. lia.
    + intros q (Hq & Huq & Hl). cbn in Hq. rewrite Hd in Hq. rewrite Hu in Huq. split; [done|]. split; [|done].
      specialize (Hin q). pose proof (refs_nonneg q (u_filep s)). lia.
Qed.

(** ** Histories *)

Inductive fdcall :=
| CallOpen (ip mode : Z)
| CallClose (fd : Z)
| CallDup (ofd nfd : Z)
| CallExit.

Definition call_ok (c : fdcall) : Prop :=
  match c with
  | CallOpen _ mode => 0 <= mode < 8
  | CallClose fd => 0 <= fd
  | CallDup ofd nfd => 0 <= ofd /\ 0 <= nfd
  | CallExit => True
  end.

(** A system call starts without an error. *)
Definition do_call (c : fdcall) : M st unit :=
  modify (set_u_error 0) ;;;
  match c with
  | CallOpen ip mode => fdopen ip mode ;;; kret tt
  | CallClose fd => fdclose fd
  | CallDup ofd nfd => fddup ofd nfd ;;; kret tt
  | CallExit => fdaclose
  end.

Fixpoint do_calls (cs : list fdcall) : M st unit :=
  match cs with
  | [] => kret tt
  | c :: cs => do_call c ;;; do_calls cs
  end.

Lemma whole_refl s : fdok s -> whole s s.
Proof. by split. Qed.

Lemma safe_do_call c s : fdok s -> call_ok c -> safe others fdok (do_call c s) (fun _ s' => whole s s').
Proof.
  intros Hok Hc. apply safe_step, wp_modify. set (s0 := set_u_error 0 s). assert (H0 : fdok s0) by by apply fdok_error.
  destruct c as [ip mode|fd|ofd nfd|].
  - apply safe_kbind. eapply safe_inv with (I := opening s0 ip mode); [by intros s1 []|]. eapply safe_mono; [|by apply safe_fdopen].
    intros r s1 (O & S & _). cbn beta. by apply safe_wp, wp_ret.
  - eapply safe_mono; [|by apply safe_fdclose]. intros u s1 H1. cbn beta in *. unfold fdclose_post in H1.
    destruct (file_of s0 fd); [by destruct H1 as (_ & O & S & _)|]. subst s1. split; [by apply fdok_error|done].
  - destruct Hc. apply safe_kbind. eapply safe_mono; [|by apply safe_fddup]. intros r s1 (O & S & _). cbn beta. by apply safe_wp, wp_ret.
  - eapply safe_mono; [|by apply safe_fdaclose]. by intros u s1 [? _].
Qed.

Lemma safe_do_calls cs : forall s, fdok s -> Forall call_ok cs -> safe others fdok (do_calls cs s) (fun _ s' => whole s s').
Proof.
  induction cs as [|c cs IH]; intros s Hok Hcs; cbn [do_calls]; [by apply safe_wp, wp_ret|]. apply Forall_cons in Hcs as [Hc Hcs].
  apply safe_kbind. eapply safe_mono; [|by apply safe_do_call]. intros u s1 [O1 S1]. cbn beta.
  eapply safe_mono; [|by apply IH]. intros u' s2 [O2 S2]. cbn beta. split; [done|]. intros q Hq. by apply S1, S2.
Qed.
End FdLaws.

(** C2: whatever files a process opens, duplicates and closes, and whatever the other
    processes do while it sleeps in a driver, the count of each descriptor is the number
    of slots of all processes that hold it at every sleep and after every call, no slot
    holds a descriptor that is gone, none is left without a slot, and nothing panics. *)
Theorem fd_histories {H} `{!Kheap H} `{!KheapLaws H} {I} `{!FileOps I} `{!FileLaws I} (cs : list fdcall) (s : fdst (H := H) (I := I)) :
  fdok s -> clean s -> Forall call_ok cs -> safe others fdok (do_calls cs s) (fun _ s' => fdok s' /\ clean s').
Proof.
  intros Hok Hc Hcs. eapply safe_mono; [|by apply safe_do_calls]. intros u s' [O S]. cbn beta. split; [done|].
  intros p Hp. by apply (Hc p), S.
Qed.

(** [fdopen] takes the lowest free slot and hangs the new descriptor on it before the
    driver is called, so that at every sleep it is where [fdclose] will find it, marked as
    incomplete; when the open fails nothing of it is left, and when it succeeds the
    descriptor is at the start of the file with one reference. *)
Theorem fdopen_correct {H} `{!Kheap H} `{!KheapLaws H} {I} `{!FileOps I} `{!FileLaws I} (s : fdst (H := H) (I := I)) ip mode :
  fdok s -> u_error s = 0 -> 0 <= mode < 8 -> safe others (opening s ip mode) (fdopen ip mode s) (fdopen_post s ip mode).
Proof. exact (safe_fdopen s ip mode). Qed.

(** [fdclose] empties the slot; with the last reference the descriptor is freed after
    its inode has been closed, and else it is only counted down. *)
Theorem fdclose_correct {H} `{!Kheap H} `{!KheapLaws H} {I} `{!FileOps I} `{!FileLaws I} (s : fdst (H := H) (I := I)) fd :
  fdok s -> 0 <= fd -> safe others fdok (fdclose fd s) (fun _ s' => fdclose_post s fd s').
Proof. exact (safe_fdclose s fd). Qed.

(** [fdadupl] counts every file of the parent once more, so that the counts are right
    for the child's copy of the table as well. *)
Theorem fdadupl_correct {H} `{!Kheap H} `{!KheapLaws H} {I} `{!FileOps I} `{!FileLaws I} (s : fdst (H := H) (I := I)) :
  fdok s -> 20 * (Z.of_nat (length (tables s)) + 3) < 32768 ->
  exists s', fdadupl s = Ret tt s' /\ fdok (forked s') /\ (clean s -> clean (forked s')) /\ u_filep s' = u_filep s.
Proof.
  intros Hok Hf. destruct (proj1 (wp_returns _ _ _) (wp_fdadupl s Hok Hf)) as ([] & s' & E & O & S & F).
  exists s'. split; [done|]. split; [done|]. split; [|done]. intros Hc p Hp. by apply (Hc p), S.
Qed.

(** Two processes that share a file, while a third closes another; inodes whose
    driver sleeps, and which cannot be opened when their number is 0. *)
#[export] Instance slow_files : FileOps unit := {|
  op_iopen ip mode := sleep (ChGate 9) ;;; kret (if ip =? 0 then Some 6 else None);
  op_iclose ip := sleep (ChGate 9) ;;; kret None;
  op_ldetach ip := kret None
|}.

#[export] Instance slow_laws : FileLaws unit.
Proof. by refine {| iok _ := True |}. Defined.

Definition files_heap : aheap := ah_after 12 (ah_after 12 small_heap).

Definition two_files : fdst (H := aheap) (I := unit) := {|
  u_filep := Some 1004 :: replicate 19 None;
  tables := [None :: Some 1004 :: replicate 18 None; replicate 20 None];
  fds := <[1004 := Fd 4 2 0 5]> (<[1020 := Fd 6 0 100 6]> ∅);
  limbo := {[1020]};
  fheap := files_heap;
  files := tt;
  u_error := 0
|}.

Lemma files_heap_ok : kvalid files_heap /\ owned files_heap 1004 /\ owned files_heap 1020.
Proof.
  destruct (ah_after_ok 12 small_heap 1004 (proj1 small_heap_valid) ltac:(lia)) as [V1 O1]; [by vm_compute|].
  destruct (ah_after_ok 12 (ah_after 12 small_heap) 1020 V1 ltac:(lia)) as [V2 O2]; [by vm_compute|].
  split; [exact V2|]. split; apply O2; [right; apply O1; by left|by left].
Qed.

Lemma two_files_uses p : uses two_files p = if decide (p = 1004) then 2 else 0.
Proof.
  unfold uses, theirs. cbn. rewrite !refs_cons. cbn [refs_in]. unfold refs_in. cbn.
  destruct (decide (p = 1004)) as [->|Hne]; [done|]. by rewrite !decide_False by congruence.
Qed.

Lemma two_files_ok : fdok two_files /\ clean two_files.
Proof.
  destruct files_heap_ok as (Hv & O1 & O2).
  assert (Hd : forall p, is_Some (fds two_files !! p) <-> p = 1004 \/ p = 1020).
  { intros p. cbn. rewrite !lookup_insert_is_Some', lookup_empty. split; [|naive_solver]. intros [<-|[<-|[? ?]]]; [by left|by right|done]. }
  split.
  - constructor; try done.
    + by repeat constructor.
    + intros p x Hx. rewrite two_files_uses. assert (Hp : is_Some (fds two_files !! p)) by (by rewrite Hx).
      apply Hd in Hp as [-> | ->]; cbn in Hx; by injection Hx as <-.
    + intros p. rewrite two_files_uses, Hd. destruct (decide (p = 1004)); [by left|lia].
    + intros p Hp. rewrite two_files_uses, Hd. cbn in Hp. apply elem_of_singleton in Hp as ->. split; [by right|done].
    + intros p. rewrite Hd. by intros [-> | ->].
  - intros p (Hp & Hu & Hl). rewrite two_files_uses in Hu. apply Hd in Hp as [-> | ->]; [done|]. apply Hl. cbn. by apply elem_of_singleton.
Qed.

Lemma fd_histories_witness :
  safe others fdok (do_calls [CallOpen 7 4; CallOpen 0 6; CallDup 64 1; CallDup 1 0; CallClose 0; CallExit] two_files)
    (fun _ s' => fdok s' /\ clean s').
Proof. destruct two_files_ok. apply fd_histories; [done|done|]. repeat (apply Forall_cons; split; [cbn; lia|]). constructor. Defined.

Lemma fdopen_correct_witness : safe others (opening two_files 7 4) (fdopen 7 4 two_files) (fdopen_post two_files 7 4).
Proof. destruct two_files_ok. by apply fdopen_correct. Defined.

Lemma fdclose_correct_witness : safe others fdok (fdclose 0 two_files) (fun _ s' => fdclose_post two_files 0 s').
Proof. destruct two_files_ok. by apply fdclose_correct. Defined.

Lemma fdadupl_correct_witness : exists s', fdadupl two_files = Ret tt s' /\ fdok (forked s') /\ u_filep s' = u_filep two_files.
Proof.
  destruct two_files_ok as [Hok Hc]. destruct (fdadupl_correct two_files Hok) as (s' & E & Ho & _ & F); [reflexivity|].
  exists s'. split; [exact E|]. by split.
Defined.
