(* ===== verification/Pipe.v ===== *)
(** Pipes (kernel/coh/pipe.c): a file of ten blocks used as a ring.

    The inode of the pipe and the process that runs are the state; the blocks
    are behind the class [PipeFile], which has what [fread] and [fwrite] do to
    a few bytes inside of them. *)
From S2P Require Import Prelude Sched Bytes Bcache Super Fs Free Fmap.
Local Open Scope Z_scope.
Local Open Scope kernel_scope.

Definition PIPSIZE : Z := ND * BSIZE.
Definition IFWFR : Z := 16.
Definition IFWFW : Z := 32.
Definition IFEOF : Z := 64.
Definition EPIPE : Z := 32.
Definition SIGPIPE : Z := 8.

Definition memory : Type := Z -> Z -> option Z.

(** [fread(ip, iop)] and [fwrite(ip, iop)]: the I/O structure afterwards, memory
    and the error that was set, or 0. *)
Class PipeFile (F : Type) := {
  pf_fread : IO -> memory -> F -> IO * memory * Z * F;
  pf_fwrite : IO -> memory -> F -> IO * Z * F
}.

Section Pipe.
(** [W]: the processes at the other end, whatever they are. *)
Context {F W : Type} `{!PipeFile F}.

Record pipest := Pst {
  i_refc : Z;
  i_nlink : Z;
  i_flag : Z;
  i_gate : bool;
  i_pnc : Z;                 (* bytes in the pipe *)
  i_prx : Z;                 (* where to read *)
  i_pwx : Z;                 (* where to write *)
  pfile : F;
  u_error : Z;
  umem : memory;
  woken : list chan;         (* calls of wakeup *)
  sent : list Z;             (* signals sent to the process itself *)
  others : W
}.
Definition set_i_flag v x := Pst (i_refc x) (i_nlink x) v (i_gate x) (i_pnc x) (i_prx x) (i_pwx x) (pfile x) (u_error x) (umem x) (woken x) (sent x) (others x).
Definition set_i_gate v x := Pst (i_refc x) (i_nlink x) (i_flag x) v (i_pnc x) (i_prx x) (i_pwx x) (pfile x) (u_error x) (umem x) (woken x) (sent x) (others x).
Definition set_i_pnc v x := Pst (i_refc x) (i_nlink x) (i_flag x) (i_gate x) v (i_prx x) (i_pwx x) (pfile x) (u_error x) (umem x) (woken x) (sent x) (others x).
Definition set_i_prx v x := Pst (i_refc x) (i_nlink x) (i_flag x) (i_gate x) (i_pnc x) v (i_pwx x) (pfile x) (u_error x) (umem x) (woken x) (sent x) (others x).
Definition set_i_pwx v x := Pst (i_refc x) (i_nlink x) (i_flag x) (i_gate x) (i_pnc x) (i_prx x) v (pfile x) (u_error x) (umem x) (woken x) (sent x) (others x).
Definition set_pfile v x := Pst (i_refc x) (i_nlink x) (i_flag x) (i_gate x) (i_pnc x) (i_prx x) (i_pwx x) v (u_error x) (umem x) (woken x) (sent x) (others x).
Definition set_u_error v x := Pst (i_refc x) (i_nlink x) (i_flag x) (i_gate x) (i_pnc x) (i_prx x) (i_pwx x) (pfile x) v (umem x) (woken x) (sent x) (others x).
Definition set_umem v x := Pst (i_refc x) (i_nlink x) (i_flag x) (i_gate x) (i_pnc x) (i_prx x) (i_pwx x) (pfile x) (u_error x) v (woken x) (sent x) (others x).
Definition set_woken v x := Pst (i_refc x) (i_nlink x) (i_flag x) (i_gate x) (i_pnc x) (i_prx x) (i_pwx x) (pfile x) (u_error x) (umem x) v (sent x) (others x).
Definition set_sent v x := Pst (i_refc x) (i_nlink x) (i_flag x) (i_gate x) (i_pnc x) (i_prx x) (i_pwx x) (pfile x) (u_error x) (umem x) (woken x) v (others x).

Definition has (f : Z) (s : pipest) : bool := negb (Z.land (i_flag s) f =? 0).
Definition setf (f : Z) : M pipest unit := modify (fun s => set_i_flag (Z.lor (i_flag s) f) s).
Definition clrf (f : Z) : M pipest unit := modify (fun s => set_i_flag (Z.land (i_flag s) (Z.lnot f)) s).
Definition wakeup (ch : chan) : M pipest unit := modify (fun s => set_woken (ch :: woken s) s).
Definition prx : chan := ChPrx 0.
Definition pwx : chan := ChPwx 0.

Variable retry : nat.

Fixpoint pipe_ilock_loop (n : nat) : M pipest unit :=
  match n with
  | O => nofuel
  | S n => g <- gets i_gate ;; if (g : bool) then sleep (ChInode 0) ;;; pipe_ilock_loop n else modify (set_i_gate true)
  end.
Definition pipe_ilock : M pipest unit := pipe_ilock_loop retry.
Definition pipe_iunlock : M pipest unit := modify (set_i_gate false).

Definition pipe_fread (io : IO) : M pipest IO := fun s =>
  match pf_fread io (umem s) (pfile s) with
  | (io', m, e, f) =>
    let s := set_umem m (set_pfile f s) in Ret io' (if e =? 0 then s else set_u_error e s)
  end.
Definition pipe_fwrite (io : IO) : M pipest IO := fun s =>
  match pf_fwrite io (umem s) (pfile s) with
  | (io', e, f) => let s := set_pfile f s in Ret io' (if e =? 0 then s else set_u_error e s)
  end.

(** [popen], of which [mode] is not used. *)
Definition popen : M pipest unit :=
  s <- get ;;
  if has IFEOF s then
    clrf IFEOF ;;;
    s <- get ;;
    (if has IFWFR s then clrf IFWFR ;;; wakeup pwx else kret tt)
  else kret tt.

Definition pevent : M pipest unit :=
  s <- get ;;
  (if has IFWFR s then clrf IFWFR ;;; wakeup pwx else kret tt) ;;;
  s <- get ;;
  (if has IFWFW s then clrf IFWFW ;;; wakeup prx else kret tt).

Definition pclose : M pipest unit :=
  s <- get ;;
  if i_refc s =? 2 then pevent ;;; setf IFEOF else kret tt.

(** The first loop of [pread]; [fuel] bounds how often it sleeps. *)
Fixpoint pread_wait (fuel : nat) : M pipest unit :=
  match fuel with
  | O => nofuel
  | S fuel =>
    s <- get ;;
    if negb (i_pnc s =? 0) then kret tt
    else if has IFEOF s then clrf IFEOF
    else if (i_nlink s =? 0) && (i_refc s <? 2) then kret tt
    else
      setf IFWFW ;;;
      pipe_iunlock ;;;
      sleep prx ;;;
      pipe_ilock ;;;
      pread_wait fuel
  end.

(** The second: [ioc] bytes are still wanted.  Result: the I/O structure and [ioc]. *)
Fixpoint pread_loop (fuel : nat) (io : IO) (ioc : Z) : M pipest (IO * Z) :=
  match fuel with
  | O => nofuel
  | S fuel =>
    s <- get ;;
    if negb ((u_error s =? 0) && (0 <? ioc) && (0 <? i_pnc s)) then kret (io, ioc)
    else
      let n := u16 (PIPSIZE - i_prx s) in
      let n := if ioc <? n then ioc else n in
      let n := if u16 (i_pnc s) <? n then i_pnc s else n in
      io <- pipe_fread (set_io_seek (i_prx s) (set_io_ioc n io)) ;;
      let n := u16 (n - io_ioc io) in
      modify (fun s => set_i_prx (s16 (i_prx s + n)) s) ;;;
      s <- get ;;
      (if i_prx s =? PIPSIZE then modify (set_i_prx 0) else kret tt) ;;;
      modify (fun s => set_i_pnc (s16 (i_pnc s - n)) s) ;;;
      pread_loop fuel io (u16 (ioc - n))
  end.

(** [pread] from the end of its first loop. *)
Definition pread_take (io : IO) : M pipest IO :=
  s <- get ;;
  (if has IFEOF s && (i_pnc s =? 0) then clrf IFEOF else kret tt) ;;;
  r <- pread_loop 3 io (io_ioc io) ;;
  let io := set_io_ioc (snd r) (fst r) in
  s <- get ;;
  (if has IFWFR s && (i_pnc s <? PIPSIZE) then clrf IFWFR ;;; wakeup pwx else kret tt) ;;;
  kret io.

Definition pread (fuel : nat) (io : IO) : M pipest IO :=
  pread_wait fuel ;;; pread_take io.

(** [pwrite]; the last component of the result is false after EPIPE, where
    [io_ioc] is left as it is. *)
Fixpoint pwrite_loop (fuel : nat) (io : IO) (ioc : Z) : M pipest (IO * Z * bool) :=
  match fuel with
  | O => nofuel
  | S fuel =>
    s <- get ;;
    if negb ((u_error s =? 0) && (0 <? ioc)) then kret (io, ioc, true)
    else if (i_refc s <? 2) && (i_nlink s =? 0) then
      modify (set_u_error EPIPE) ;;;
      modify (fun s => set_sent (SIGPIPE :: sent s) s) ;;;
      kret (io, ioc, false)
    else
      let n := u16 (PIPSIZE - i_pwx s) in
      let n := if ioc <? n then ioc else n in
      let n := if u16 (PIPSIZE - i_pnc s) <? n then u16 (PIPSIZE - i_pnc s) else n in
      if (n =? 0) || has IFEOF s then
        setf IFWFR ;;;
        pipe_iunlock ;;;
        sleep pwx ;;;
        pipe_ilock ;;;
        pwrite_loop fuel io ioc
      else
        io <- pipe_fwrite (set_io_seek (i_pwx s) (set_io_ioc n io)) ;;
        let n := u16 (n - io_ioc io) in
        modify (fun s => set_i_pwx (s16 (i_pwx s + n)) s) ;;;
        s <- get ;;
        (if i_pwx s =? PIPSIZE then modify (set_i_pwx 0) else kret tt) ;;;
        modify (fun s => set_i_pnc (s16 (i_pnc s + n)) s) ;;;
        s <- get ;;
        (if has IFWFW s && (0 <? i_pnc s) then clrf IFWFW ;;; wakeup prx else kret tt) ;;;
        pwrite_loop fuel io (u16 (ioc - n))
  end.

Definition pwrite (fuel : nat) (io : IO) : M pipest IO :=
  r <- pwrite_loop fuel io (io_ioc io) ;;
  kret (if snd r then set_io_ioc (snd (fst r)) (fst (fst r)) else fst (fst r)).
End Pipe.
