(* ===== verification/PipeLaws.v ===== *)
(** Pipes: what is read is what was written, in order, and nobody waits for
    something that is there. *)
From S2P Require Import Prelude Sched Bytes Bcache Super Fs Free Fmap Fwrite Umem Pipe.
Local Open Scope Z_scope.
Local Open Scope kernel_scope.

(** What [fread] and [fwrite] do within the ten blocks: they move the bytes asked
    for, or fewer with an error, and touch no others.  [pf_byte] is None where
    nothing has been written yet. *)
Class PipeFileLaws (F : Type) `{PipeFile F} := {
  pf_ok : F -> Prop;
  pf_byte : F -> Z -> option Z;
  pf_fread_law io m f : pf_ok f -> io_space io = true -> 0 <= io_seek io -> 0 < io_ioc io -> io_seek io + io_ioc io <= PIPSIZE ->
    (forall i, io_seek io <= i < io_seek io + io_ioc io -> is_Some (pf_byte f i)) ->
    exists k m' e f', pf_fread io m f = (io_move io k, m', e, f') /\ 0 <= k <= io_ioc io /\ (e = 0 -> k = io_ioc io) /\
      pf_ok f' /\ (forall i, pf_byte f' i = pf_byte f i) /\
      forall sp a, m' sp a = if decide (sp = io_seg io /\ io_ptr io <= a < io_ptr io + k)
                             then pf_byte f (io_seek io + (a - io_ptr io)) else m sp a;
  pf_fwrite_law io m f : pf_ok f -> io_space io = true -> 0 <= io_seek io -> 0 < io_ioc io -> io_seek io + io_ioc io <= PIPSIZE ->
    exists k e f', pf_fwrite io m f = (io_adv io k, e, f') /\ 0 <= k <= io_ioc io /\ (e = 0 -> k = io_ioc io) /\ pf_ok f' /\
      (forall i, io_seek io <= i < io_seek io + k -> is_Some (m (io_seg io) (io_ptr io + (i - io_seek io))) /\
         pf_byte f' i = m (io_seg io) (io_ptr io + (i - io_seek io))) /\
      (forall i, ~ io_seek io <= i < io_seek io + io_ioc io -> pf_byte f' i = pf_byte f i)
}.

Section PipeLaws.
Context {F W : Type} `{!PipeFile F} `{!PipeFileLaws F}.
#[local] Abbreviation st := (pipest (F := F) (W := W)).
Implicit Types (s : st) (q d : list Z).

(** The place of byte [i] of the pipe in its file. *)
Definition place s (i : Z) : Z := (i_prx s + i) mod PIPSIZE.

(** The pipe holds the bytes [q]. *)
Record pipe_has s q : Prop := {
  ph_file : pf_ok (pfile s);
  ph_count : i_pnc s = Z.of_nat (length q);
  ph_room : i_pnc s <= PIPSIZE;
  ph_read : 0 <= i_prx s < PIPSIZE;
  ph_write : i_pwx s = place s (i_pnc s);
  ph_bytes : forall i, 0 <= i < i_pnc s -> pf_byte (pfile s) (place s i) = q !! Z.to_nat i
}.

(** What stays the same while bytes are moved. *)
Definition quiet s := (i_refc s, i_nlink s, i_flag s, i_gate s, woken s, sent s, others s).

Definition pos_of (io : IO) (k : Z) (io' : IO) : Prop := io_seg io' = io_seg io /\ io_ptr io' = io_ptr io + k /\ io_space io' = io_space io.

Lemma pos_of_refl io : pos_of io 0 io.
Proof. split; [done|]. split; [lia|done]. Qed.

Lemma pos_of_trans io1 io2 io3 k1 k2 : pos_of io1 k1 io2 -> pos_of io2 k2 io3 -> pos_of io1 (k1 + k2) io3.
Proof. intros (A & B & C) (D & E & G). split; [congruence|]. split; [lia|congruence]. Qed.

Lemma place_range s i : 0 <= place s i < PIPSIZE.
Proof. apply Z.mod_pos_bound. done. Qed.

Lemma wrap_once a : 0 <= a < 2 * PIPSIZE -> a mod PIPSIZE = if a <? PIPSIZE then a else a - PIPSIZE.
Proof.
  intros Ha. assert (PIPSIZE = 5120) by done. destruct (Z.ltb_spec a PIPSIZE); [apply Z.mod_small; lia|].
  symmetry. apply Z.mod_unique_pos with 1; lia.
Qed.

(** ** Taking bytes out *)

(** The state when [k] bytes have been read at the read position. *)
Record took s k m f e s' : Prop := {
  tk_file : pfile s' = f;
  tk_mem : umem s' = m;
  tk_error : u_error s' = e;
  tk_count : i_pnc s' = i_pnc s - k;
  tk_read : i_prx s' = place s k;
  tk_write : i_pwx s' = i_pwx s;
  tk_quiet : quiet s' = quiet s
}.

Lemma place_place s s' k i : i_prx s' = place s k -> place s' i = place s (k + i).
Proof. intros E. unfold place at 1. rewrite E. unfold place. rewrite Zplus_mod_idemp_l. f_equal. lia. Qed.

Lemma took_has s q k m f e s' : pipe_has s q -> took s k m f e s' -> 0 <= k <= i_pnc s -> pf_ok f ->
  (forall i, pf_byte f i = pf_byte (pfile s) i) -> pipe_has s' (drop (Z.to_nat k) q).
Proof.
  intros [H1 H2 H3 H4 H5 H6] [T1 T2 T3 T4 T5 T6 T7] Hk Hf Hb.
  constructor; rewrite ?T1, ?T4, ?T6.
  - done.
  - rewrite length_drop. lia.
  - lia.
  - rewrite T5. apply place_range.
  - rewrite H5, (place_place s s' k) by done. f_equal. lia.
  - intros i Hi. rewrite (place_place s s' k), Hb, H6, lookup_drop by (done || lia). f_equal. lia.
Qed.

Lemma wp_pipe_fread s q io : pipe_has s q -> io_space io = true -> io_seek io = i_prx s -> 0 < io_ioc io -> i_prx s + io_ioc io <= PIPSIZE ->
  io_ioc io <= i_pnc s ->
  wp (pipe_fread io) (fun io' s1 => exists k m e f, io' = io_move io k /\ 0 <= k <= io_ioc io /\ (e = 0 -> k = io_ioc io) /\
    s1 = (if e =? 0 then set_umem m (set_pfile f s) else set_u_error e (set_umem m (set_pfile f s))) /\ pf_ok f /\
    (forall i, pf_byte f i = pf_byte (pfile s) i) /\ poured (umem s) m (io_seg io) (io_ptr io) (take (Z.to_nat k) q)) s.
Proof.
  intros Hh Hsp Hsk Hpos Hfit Hle. assert (PIPSIZE = 5120) as HP by done. pose proof Hh as [H1 H2 H3 H4 H5 H6].
  destruct (pf_fread_law io (umem s) (pfile s) H1 Hsp ltac:(lia) Hpos ltac:(lia)) as (k & m & e & f & E & Hk & He & Hf & Hb & Hm).
  { intros i Hi. replace i with (place s (i - i_prx s)); [rewrite H6 by lia; apply lookup_lt_is_Some; lia|].
    unfold place. rewrite Z.mod_small; lia. }
  unfold wp, pipe_fread. rewrite E. exists k, m, e, f. split_and!; try done; [lia|lia|].
  intros sp a. rewrite Hm. rewrite length_take, Nat2Z.inj_min, Z2Nat.id, <- H2 by lia. rewrite Z.min_l by lia.
  case_decide as Hd; [|done]. rewrite Hsk. rewrite lookup_take_lt by lia. rewrite <- H6 by lia. f_equal. unfold place. rewrite Z.mod_small; lia.
Qed.

(** ** Flags *)

Lemma has_bit (k : Z) s : 0 <= k -> has (2 ^ k) s = Z.testbit (i_flag s) k.
Proof.
  apply land_pow2.
Qed.
Lemma has_wfr s : has IFWFR s = Z.testbit (i_flag s) 4.
Proof. by apply (has_bit 4). Qed.
Lemma has_wfw s : has IFWFW s = Z.testbit (i_flag s) 5.
Proof. by apply (has_bit 5). Qed.
Lemma has_eof s : has IFEOF s = Z.testbit (i_flag s) 6.
Proof. by apply (has_bit 6). Qed.

#[local] Ltac flags := rewrite ?has_wfr, ?has_wfw, ?has_eof; cbn [i_flag set_i_flag set_i_gate set_woken set_sent set_i_pnc];
  repeat (rewrite testbit_set || rewrite testbit_clear by done);
  change (Z.testbit IFWFR 4) with true; change (Z.testbit IFWFR 5) with false; change (Z.testbit IFWFR 6) with false;
  change (Z.testbit IFWFW 4) with false; change (Z.testbit IFWFW 5) with true; change (Z.testbit IFWFW 6) with false;
  change (Z.testbit IFEOF 4) with false; change (Z.testbit IFEOF 5) with false; change (Z.testbit IFEOF 6) with true;
  cbn [negb]; rewrite ?andb_true_r, ?andb_false_r, ?orb_true_r, ?orb_false_r.

(** Nobody is marked as waiting for what is there already, once the inode is unlocked. *)
Definition awake s : Prop :=
  (has IFWFW s = true -> i_pnc s = 0) /\ (has IFWFR s = true -> i_pnc s = PIPSIZE \/ has IFEOF s = true).
Definition calm s : Prop := i_gate s = false -> awake s.

Lemma pipe_has_ext s s' q : pfile s' = pfile s -> i_pnc s' = i_pnc s -> i_prx s' = i_prx s -> i_pwx s' = i_pwx s ->
  pipe_has s q -> pipe_has s' q.
Proof.
  intros E1 E2 E3 E4 [H1 H2 H3 H4 H5 H6].
  assert (forall i, place s' i = place s i) as Hp by (intros i; unfold place; by rewrite E3).
  constructor; rewrite ?E1, ?E2, ?E3, ?E4; try done; [by rewrite Hp|]. intros i Hi. rewrite Hp. auto.
Qed.
Lemma pipe_has_nil s q : pipe_has s q -> i_pnc s = 0 <-> q = [].
Proof. intros [H1 H2 H3 H4 H5 H6]. rewrite H2. split; [destruct q; [done|cbn; lia]|by intros ->]. Qed.

(** ** Reading *)

(** The I/O structure after [k] bytes, but for the place in the file. *)
Record progress s q io k io' s' : Prop := {
  pr_has : pipe_has s' (drop (Z.to_nat k) q);
  pr_mem : poured (umem s) (umem s') (io_seg io) (io_ptr io) (take (Z.to_nat k) q);
  pr_pos : pos_of io k io';
  pr_quiet : quiet s' = quiet s
}.

Lemma poured_take m1 m2 m3 sp a k1 k2 q : 0 <= k1 -> 0 <= k2 -> k1 <= Z.of_nat (length q) -> poured m1 m2 sp a (take (Z.to_nat k1) q) ->
  poured m2 m3 sp (a + k1) (take (Z.to_nat k2) (drop (Z.to_nat k1) q)) -> poured m1 m3 sp a (take (Z.to_nat (k1 + k2)) q).
Proof.
  intros H1 H2 H3 P1 P2. replace (take (Z.to_nat (k1 + k2)) q) with (take (Z.to_nat k1) q ++ take (Z.to_nat k2) (drop (Z.to_nat k1) q)).
  - apply (poured_app _ m2); [done|]. rewrite length_take. by replace (a + _) with (a + k1) by lia.
  - rewrite Z2Nat.inj_add by done. apply take_take_drop.
Qed.

Lemma progress_refl s q io : pipe_has s q -> progress s q io 0 io s.
Proof. intros Hh. constructor; [done|apply poured_nil|apply pos_of_refl|done]. Qed.

Lemma progress_trans s q io k1 io1 s1 k2 io2 s2 : 0 <= k1 <= Z.of_nat (length q) -> 0 <= k2 ->
  progress s q io k1 io1 s1 -> progress s1 (drop (Z.to_nat k1) q) io1 k2 io2 s2 -> progress s q io (k1 + k2) io2 s2.
Proof.
  intros H1 H2 [A1 A2 A3 A4] [B1 B2 B3 B4]. constructor.
  - rewrite Z2Nat.inj_add by lia. by rewrite <- drop_drop.
  - apply (poured_take _ (umem s1)); [lia..|done|]. destruct A3 as (E1 & E2 & _). by rewrite <- E1, <- E2.
  - by apply (pos_of_trans _ io1).
  - congruence.
Qed.

(** The pointer and the count move on. *)
Lemma wp_advance_read {A} (rest : M st A) s k Q : 0 <= i_prx s < PIPSIZE -> 0 <= k -> i_prx s + k <= PIPSIZE -> k <= i_pnc s <= PIPSIZE ->
  wp rest Q (set_i_pnc (i_pnc s - k) (set_i_prx (place s k) s)) ->
  wp (modify (fun s => set_i_prx (s16 (i_prx s + k)) s) ;;; s <- get ;; (if i_prx s =? PIPSIZE then modify (set_i_prx 0) else kret tt) ;;;
      modify (fun s => set_i_pnc (s16 (i_pnc s - k)) s) ;;; rest) Q s.
Proof.
  intros Hp Hk Hf Hc HQ. assert (PIPSIZE = 5120) as HP by done. unfold place in HQ. rewrite wrap_once in HQ by lia.
  apply wp_bind, wp_modify, wp_bind. change (wp get ?K ?s) with (K s s). cbn [i_prx set_i_prx]. rewrite s16_small by lia.
  destruct (Z.eqb_spec (i_prx s + k) PIPSIZE) as [E|E], (Z.ltb_spec (i_prx s + k) PIPSIZE) in HQ; try lia;
    apply wp_bind; [apply wp_modify|apply wp_ret]; apply wp_bind, wp_modify; cbn [i_pnc set_i_prx]; rewrite s16_small by lia; [|done].
  rewrite E, Z.sub_diag in HQ. exact HQ.
Qed.

(** One turn of the loop: [n] bytes are asked for. *)
Definition ask s ioc : Z := Z.min ioc (Z.min (PIPSIZE - i_prx s) (i_pnc s)).

Lemma wp_turn fuel s q io ioc (Q : IO * Z -> st -> Prop) : pipe_has s q -> u_error s = 0 -> io_space io = true -> 0 < ioc < 65536 -> 0 < i_pnc s ->
  (forall k io1 s1, 0 <= k <= ask s ioc -> (u_error s1 = 0 -> k = ask s ioc) -> progress s q io k io1 s1 -> i_pnc s1 = i_pnc s - k ->
     i_prx s1 = place s k -> wp (pread_loop fuel io1 (ioc - k)) Q s1) ->
  wp (pread_loop (S fuel) io ioc) Q s.
Proof.
  intros Hh He Hsp Hi Hc HQ. assert (PIPSIZE = 5120) as HP by done. pose proof Hh as [H1 H2 H3 H4 H5 H6].
  cbn [pread_loop]. apply wp_bind. change (wp get ?K s) with (K s s). cbn beta.
  assert (negb ((u_error s =? 0) && (0 <? ioc) && (0 <? i_pnc s)) = false) as ->.
  { rewrite He, !(proj2 (Z.ltb_lt _ _)) by lia. done. }
  rewrite (u16_small (PIPSIZE - i_prx s)), (u16_small (i_pnc s)) by lia.
  assert ((if i_pnc s <? (if ioc <? PIPSIZE - i_prx s then ioc else PIPSIZE - i_prx s) then i_pnc s
           else if ioc <? PIPSIZE - i_prx s then ioc else PIPSIZE - i_prx s) = ask s ioc) as ->.
  { unfold ask. destruct (Z.ltb_spec ioc (PIPSIZE - i_prx s)); (match goal with |- context [i_pnc s <? ?x] => destruct (Z.ltb_spec (i_pnc s) x) end); lia. }
  assert (0 < ask s ioc <= ioc /\ i_prx s + ask s ioc <= PIPSIZE /\ ask s ioc <= i_pnc s) as (A1 & A2 & A3) by (unfold ask; lia).
  apply wp_bind. eapply wp_mono; [apply (wp_pipe_fread s q); try done; cbn; lia|].
  cbn beta. intros io1 s1 (k & m & e & f & -> & Hk & Hek & Es1 & Hf & Hb & Hm). cbn [io_ioc set_io_seek set_io_ioc io_seg] in Hk, Hek, Hm.
  rewrite io_move_ioc. cbn [io_ioc set_io_seek set_io_ioc]. rewrite (u16_small (_ - k)), u16_small by lia.
  replace (ask s ioc - (ask s ioc - k)) with k by lia. rewrite u16_small by lia.
  set (sa := if e =? 0 then _ else _) in Es1.
  assert (i_prx s1 = i_prx s /\ i_pnc s1 = i_pnc s /\ i_pwx s1 = i_pwx s /\ pfile s1 = f /\ umem s1 = m /\ quiet s1 = quiet s /\
    (u_error s1 = 0 -> e = 0)) as (E1 & E2 & E3 & E4 & E5 & E6 & E7).
  { rewrite Es1. unfold sa. destruct (Z.eqb_spec e 0); split_and!; done. }
  apply wp_advance_read; [(rewrite ?E1, ?E2; lia)..|]. rewrite E2.
  replace (place s1 k) with (place s k) by (unfold place; by rewrite E1).
  apply HQ; [lia|by intros ?%E7%Hek| |done|done].
  constructor; [|cbn; by rewrite E5|split; [by rewrite io_move_seg|split; [rewrite io_move_ptr|rewrite io_move_space]; done]|by rewrite <- E6].
  apply (took_has s q k m f (u_error s1)); [done| |lia|done|done]. split; cbn; try done; by rewrite ?E2.
Qed.

(** What [pread_loop] leaves, with at most three turns. *)
Record drained s q io ioc (r : IO * Z) s' k : Prop := {
  dr_range : 0 <= k <= Z.min ioc (Z.of_nat (length q));
  dr_all : u_error s' = 0 -> k = Z.min ioc (Z.of_nat (length q));
  dr_left : snd r = ioc - k;
  dr_progress : progress s q io k (fst r) s'
}.

Lemma wp_stop fuel s q io ioc : pipe_has s q -> 0 <= ioc -> u_error s <> 0 \/ ioc = 0 \/ i_pnc s = 0 ->
  wp (pread_loop (S fuel) io ioc) (fun r s' => exists k, drained s q io ioc r s' k) s.
Proof.
  intros Hh Hi Hs. pose proof Hh as [H1 H2 H3 H4 H5 H6]. cbn [pread_loop]. apply wp_bind. change (wp get ?K s) with (K s s). cbn beta.
  assert (negb ((u_error s =? 0) && (0 <? ioc) && (0 <? i_pnc s)) = true) as ->.
  { destruct (Z.eqb_spec (u_error s) 0), (Z.ltb_spec 0 ioc), (Z.ltb_spec 0 (i_pnc s)); try done. lia. }
  apply wp_ret. exists 0. split; cbn; [lia|lia|lia|by apply progress_refl].
Qed.

Lemma drained_turn s q io ioc k1 io1 s1 r s' : 0 <= k1 <= Z.min ioc (Z.of_nat (length q)) -> progress s q io k1 io1 s1 ->
  (exists k, drained s1 (drop (Z.to_nat k1) q) io1 (ioc - k1) r s' k) -> exists k, drained s q io ioc r s' k.
Proof.
  intros Hk Hp (k & [D1 D2 D3 D4]). rewrite length_drop in D1, D2. exists (k1 + k).
  split; [lia|intros He; specialize (D2 He); lia|lia|]. apply (progress_trans _ _ _ k1 io1 s1); (done || lia).
Qed.

Lemma wp_drain fuel s q io ioc : pipe_has s q -> u_error s = 0 -> io_space io = true -> 0 <= ioc < 65536 ->
  (3 <= fuel)%nat \/ (2 <= fuel)%nat /\ i_prx s + Z.min ioc (i_pnc s) <= PIPSIZE ->
  wp (pread_loop fuel io ioc) (fun r s' => exists k, drained s q io ioc r s' k) s.
Proof.
  revert s q io ioc. induction fuel as [|fuel IH]; intros s q io ioc Hh He Hsp Hi Hf; [lia|]. pose proof Hh as [H1 H2 H3 H4 H5 H6].
  destruct (decide (ioc = 0 \/ i_pnc s = 0)) as [Hz|Hz]; [apply wp_stop; (done || lia)|].
  eapply (wp_turn fuel s q io ioc); try done; [lia..|]. intros k io1 s1 Hk Hek Hp Hc Hr.
  assert (0 <= k <= Z.min ioc (Z.of_nat (length q))) as Hkq by (unfold ask in Hk; lia). destruct (pr_pos _ _ _ _ _ _ Hp) as (P1 & P2 & P3).
  eapply wp_mono; [|intros r s'; by apply drained_turn].
  destruct (decide (u_error s1 = 0)) as [E1|E1]; [specialize (Hek E1)|destruct fuel; [lia|]; apply wp_stop; [apply Hp|lia|by left]].
  destruct (decide (i_prx s + Z.min ioc (i_pnc s) <= PIPSIZE)) as [Hw|Hw].
  - destruct fuel; [lia|]. apply wp_stop; [apply Hp|lia|unfold ask in Hek; lia].
  - apply IH; [apply Hp|done|congruence|lia|right]. split; [lia|]. rewrite Hr, Hc. unfold ask in Hek. unfold place. replace (i_prx s + k) with PIPSIZE by lia. rewrite Z.mod_same by done. lia.
Qed.

(** What a reader has got: [k] of the bytes [q]. *)
Record got s q io io' s' k : Prop := {
  g_range : 0 <= k <= Z.min (io_ioc io) (Z.of_nat (length q));
  g_all : u_error s' = 0 -> k = Z.min (io_ioc io) (Z.of_nat (length q));
  g_has : pipe_has s' (drop (Z.to_nat k) q);
  g_mem : poured (umem s) (umem s') (io_seg io) (io_ptr io) (take (Z.to_nat k) q);
  g_left : io_ioc io' = io_ioc io - k;
  g_awake : awake s';
  g_wakes : has IFWFR s = true -> has IFWFR s' = true \/ pwx ∈ woken s';
  g_eof : has IFEOF s' = true -> has IFEOF s = true;
  g_readers : has IFWFW s' = has IFWFW s;
  g_woken : woken s ⊆ woken s';
  g_rest : i_gate s' = i_gate s /\ i_refc s' = i_refc s /\ i_nlink s' = i_nlink s /\ sent s' = sent s /\ others s' = others s
}.

Lemma wp_pread_take s q io : pipe_has s q -> (has IFWFW s = true -> i_pnc s = 0) -> u_error s = 0 -> io_space io = true -> 0 <= io_ioc io < 65536 ->
  wp (pread_take io) (fun io' s' => exists k, got s q io io' s' k) s.
Proof.
  intros Hh Ha1 He Hsp Hi. assert (PIPSIZE = 5120) as HP by done. unfold pread_take. apply wp_bind. change (wp get ?K s) with (K s s). cbn beta.
  apply wp_bind. set (s1 := if has IFEOF s && (i_pnc s =? 0) then set_i_flag (Z.land (i_flag s) (Z.lnot IFEOF)) s else s).
  enough (wp (r <- pread_loop 3 io (io_ioc io) ;; let io := set_io_ioc (snd r) (fst r) in s <- get ;;
    (if has IFWFR s && (i_pnc s <? PIPSIZE) then clrf IFWFR ;;; wakeup pwx else kret tt) ;;; kret io)
    (fun io' s' => exists k, got s q io io' s' k) s1) as Hrest.
  { unfold s1 in Hrest. destruct (has IFEOF s && (i_pnc s =? 0)); exact Hrest. }
  assert (pipe_has s1 q /\ u_error s1 = 0 /\ umem s1 = umem s /\ i_gate s1 = i_gate s /\ i_refc s1 = i_refc s /\ i_nlink s1 = i_nlink s /\
    sent s1 = sent s /\ i_pnc s1 = i_pnc s /\ woken s1 = woken s /\ others s1 = others s) as (B1 & B2 & B3 & B4 & B5 & B6 & B7 & B8 & B9 & B13).
  { unfold s1. destruct (_ && _); split_and!; try done. by apply (pipe_has_ext s). }
  assert (has IFEOF s1 = true -> has IFEOF s = true) as B12 by (unfold s1; destruct (_ && _); [by flags|done]).
  assert (has IFWFR s1 = has IFWFR s /\ has IFWFW s1 = has IFWFW s) as (B10 & B11).
  { unfold s1. destruct (_ && _); [|done]. by flags. }
  apply wp_bind. eapply wp_mono; [apply (wp_drain 3 s1 q); (done || lia)|].
  cbn beta. intros r s2 (k & [D1 D2 D3 [D4 D5 D6 D7]]). cbv zeta. unfold quiet in D7. injection D7 as E1 E2 E3 E4 E5 E6 E7.
  assert (has IFWFR s2 = has IFWFR s /\ has IFWFW s2 = has IFWFW s /\ has IFEOF s2 = has IFEOF s1) as (C1 & C2 & C4).
  { rewrite <- B10, <- B11. unfold has. by rewrite E3. }
  rewrite <- C4 in B12.
  assert (i_pnc s2 = i_pnc s - k) as C3.
  { rewrite (ph_count _ _ D4), (ph_count _ _ Hh), length_drop. lia. }
  apply wp_bind. change (wp get ?K s2) with (K s2 s2). cbn beta. apply wp_bind.
  pose proof (ph_room _ _ D4) as Hroom. pose proof (ph_count _ _ Hh) as Hcount.
  destruct (has IFWFR s2) eqn:Ew; [destruct (Z.ltb_spec (i_pnc s2) PIPSIZE)|]; cbn [andb].
  - apply wp_bind, wp_modify, wp_modify, wp_ret. exists k. split; cbn -[has]; try done; try congruence.
    + by apply (pipe_has_ext s2).
    + by rewrite <- B3.
    + split; [|by flags]. flags. rewrite <- has_wfw, C2. intros Hw%Ha1. cbn. lia.
    + intros _. right. by left.
    + flags. by rewrite <- !has_eof.
    + flags. by rewrite <- !has_wfw.
    + intros c Hc. right. by rewrite E5, B9.
    + split_and!; congruence.
  - apply wp_ret. exists k. split; cbn -[has]; try done; try congruence.
    + by rewrite <- B3.
    + split; [rewrite C2; intros ?%Ha1; lia|left; lia].
    + by left.
    + split_and!; congruence.
  - apply wp_ret. exists k. split; cbn -[has]; try done; try congruence.
    + by rewrite <- B3.
    + split; [rewrite C2; intros ?%Ha1; lia|by rewrite Ew].
    + split_and!; congruence.
Qed.

(** ** The other processes

    The inode is locked while a process is between two sleeps, so [awake] need
    not hold of a state in which another one has it. *)
Variable hist : W -> list Z.
Variable asleep : W -> chan -> Prop.
(** No wake-up is lost: when one of the others sleeps, as they remember, the
    mark for it is set or it has been woken. *)
Definition cared s : Prop :=
  (asleep (others s) pwx -> has IFWFR s = true \/ pwx ∈ woken s) /\
  (asleep (others s) prx -> has IFWFW s = true \/ prx ∈ woken s).
(** The others have moved the bytes [d], as they remember. *)
Definition moved s s' d : Prop := hist (others s') = hist (others s) ++ d.
Definition shared (G : list Z -> list Z -> list Z -> Prop) s s' : Prop :=
  u_error s' = u_error s /\ umem s' = umem s /\ (calm s -> calm s') /\ (cared s -> cared s') /\
  exists d, moved s s' d /\ forall q, pipe_has s q -> exists q', pipe_has s' q' /\ G d q q'.

(** What a reader sees of the others: they put bytes behind. *)
Definition appended d q q' : Prop := q' = q ++ d.
(** What a writer sees of them: they take bytes from the front. *)
Definition consumed d q q' : Prop := q = d ++ q'.

Lemma moved_nil s s' : others s' = others s -> moved s s' [].
Proof. intros E. unfold moved. by rewrite E, app_nil_r. Qed.
Lemma moved_app s1 s2 s3 d1 d2 : moved s1 s2 d1 -> moved s2 s3 d2 -> moved s1 s3 (d1 ++ d2).
Proof. unfold moved. intros H1 H2. by rewrite H2, H1, app_assoc. Qed.
Lemma moved_ext s1 s1' s2 s2' d : others s1' = others s1 -> others s2' = others s2 -> moved s1 s2 d -> moved s1' s2' d.
Proof. unfold moved. by intros -> ->. Qed.

(** Where a process of the pipe sleeps. *)
Definition waits ch s : Prop :=
  calm s /\ cared s /\
  (ch = ChInode 0 /\ i_gate s = true \/
   ch = prx /\ i_gate s = false /\ i_pnc s = 0 /\ has IFWFW s = true \/
   ch = pwx /\ i_gate s = false /\ (i_pnc s = PIPSIZE \/ has IFEOF s = true) /\ has IFWFR s = true).

(** [cared] looks at the marks, at what has been woken and at the others only. *)
Lemma cared_ext s s' : others s' = others s -> (has IFWFR s = true -> has IFWFR s' = true \/ pwx ∈ woken s') ->
  (has IFWFW s = true -> has IFWFW s' = true \/ prx ∈ woken s') -> woken s ⊆ woken s' -> cared s -> cared s'.
Proof. intros Eo H1 H2 Hw [C1 C2]. unfold cared. rewrite Eo. split; [intros [?| ?%Hw]%C1|intros [?| ?%Hw]%C2]; auto. Qed.

Lemma within_ilock (R : st -> st -> Prop) (J : st -> Prop) n r s Q : (forall s s', J s -> R s s' -> J s') -> (forall s, J s -> calm s /\ cared s) -> J s -> (n < r)%nat ->
  (forall m s1, (m <= n)%nat -> J s1 -> i_gate s1 = false -> Q m tt (set_i_gate true s1)) -> within R waits n (pipe_ilock_loop r s) Q.
Proof.
  intros HJ HC. revert n s. induction r as [|r IH]; intros n s Hs Hr HQ; [lia|]. cbn [pipe_ilock_loop].
  apply within_step, wp_gets. destruct (i_gate s) eqn:Eg; [|by apply HQ].
  apply within_sleep; [destruct (HC s Hs); split_and!; try done; by left|]. intros n' -> s' HR. apply IH; [by apply (HJ s)|lia|].
  intros m s1 Hm. apply HQ. lia.
Qed.

(** The end of the first loop of [pread]. *)
Inductive wait_over s : st -> Prop :=
| over_bytes : i_pnc s <> 0 -> wait_over s s
| over_eof : i_pnc s = 0 -> has IFEOF s = true -> wait_over s (set_i_flag (Z.land (i_flag s) (Z.lnot IFEOF)) s)
| over_alone : i_pnc s = 0 -> has IFEOF s = false -> i_nlink s = 0 -> i_refc s < 2 -> wait_over s s.

Lemma within_pread_wait retry (R : st -> st -> Prop) (J K : st -> Prop) n fuel s Q :
  (forall s s', J s -> R s s' -> J s') -> (forall s, J s -> calm s /\ cared s) ->
  (forall s, K s -> i_pnc s = 0 -> J (set_i_gate false (set_i_flag (Z.lor (i_flag s) IFWFW) s))) ->
  (forall s, J s -> i_gate s = false -> K (set_i_gate true s)) ->
  K s -> i_gate s = true -> (n < retry)%nat -> (n < fuel)%nat ->
  (forall m s0 s1, (m <= n)%nat -> K s0 -> i_gate s0 = true -> wait_over s0 s1 -> Q m tt s1) -> within R waits n (pread_wait retry fuel s) Q.
Proof.
  intros HJ HC Hgo Hlk. revert n s. induction fuel as [|fuel IH]; intros n s Hs Hg Hr Hf HQ; [lia|]. cbn [pread_wait].
  apply within_step. change (wp get ?K s) with (K s s). cbn beta.
  destruct (Z.eqb_spec (i_pnc s) 0) as [E0|E0]; cbn [negb]; [|by apply within_wp, wp_ret, (HQ n s); [|..|constructor]].
  destruct (has IFEOF s) eqn:Ee; [by apply within_wp, wp_modify, (HQ n s); [|..|constructor]|].
  destruct ((i_nlink s =? 0) && (i_refc s <? 2)) eqn:Ea.
  { apply andb_true_iff in Ea as [E1%Z.eqb_eq E2%Z.ltb_lt]. by apply within_wp, wp_ret, (HQ n s); [|..|constructor]. }
  apply within_step, wp_modify, within_step, wp_modify. apply within_sleep.
  { specialize (Hgo s Hs E0). destruct (HC _ Hgo). split; [done|]. split; [done|]. right. left. split_and!; try done. by flags. }
  intros n' -> s' HR. pose proof (HJ _ _ (Hgo s Hs E0) HR) as Hs'. apply within_kbind.
  apply (within_ilock R J); [exact HJ|done|done|lia|].
  intros m s1 Hm Hs1 Hg1. apply IH; [by apply Hlk|done|lia|lia|]. intros m' s2 s3 Hm'. apply HQ. lia.
Qed.

(** C3: [pread] on a pipe that holds [q], with other processes that put bytes [d]
    behind while it sleeps: it takes the first bytes of [q ++ d], as many as
    asked for or as there are, in order, to the reader's memory, and leaves the
    others in the pipe; [d] is what the others have written by their own record
    [hist], so nothing is lost or made up.  It sleeps only on an empty pipe, marked
    and unlocked, or for the lock.  At every sleep and at the end a process that
    sleeps on the pipe, by the others' record [asleep], is marked or has been
    woken ([cared]), and at the end no mark is left for a writer when there is
    room ([awake]): so a writer that sleeps while there is room has been woken.  With fuel for [n] sleeps it does not run out of fuel in [n] sleeps. *)
Theorem pread_correct retry fuel n s q io :
  pipe_has s q -> awake s -> cared s -> i_gate s = true -> u_error s = 0 -> io_space io = true -> 0 <= io_ioc io < 65536 ->
  (n < retry)%nat -> (n < fuel)%nat ->
  within (shared appended) waits n (pread retry fuel io s)
    (fun _ io' s' => exists d k, moved s s' d /\ 0 <= k <= Z.min (io_ioc io) (Z.of_nat (length (q ++ d))) /\
       (u_error s' = 0 -> k = Z.min (io_ioc io) (Z.of_nat (length (q ++ d)))) /\
       pipe_has s' (drop (Z.to_nat k) (q ++ d)) /\ poured (umem s) (umem s') (io_seg io) (io_ptr io) (take (Z.to_nat k) (q ++ d)) /\
       io_ioc io' = io_ioc io - k /\ awake s' /\ cared s' /\ i_gate s' = true).
Proof.
  intros Hh Ha Hca Hg He Hsp Hi Hr Hf. unfold pread. apply within_kbind.
  pose (K := fun s1 : st => (awake s1 /\ cared s1) /\ u_error s1 = 0 /\ umem s1 = umem s /\ exists d, moved s s1 d /\ pipe_has s1 (q ++ d)).
  pose (J := fun s1 : st => (calm s1 /\ cared s1) /\ u_error s1 = 0 /\ umem s1 = umem s /\ exists d, moved s s1 d /\ pipe_has s1 (q ++ d)).
  apply (within_pread_wait _ _ J K).
  - intros s1 s2 ((J1 & Jc) & J2 & J3 & d & Jd & J4) (R1 & R2 & R3 & Rc & d' & R4 & R5). destruct (R5 _ J4) as (q' & R6 & ->).
    split_and!; [auto|auto|congruence|congruence|]. exists (d ++ d'). rewrite app_assoc. split; [by eapply moved_app|done].
  - by intros s1 [J1 _].
  - intros s1 (((J0 & J1) & Jc) & J2 & J3 & d & Jd & J4) E0. split_and!; [| |done|done|exists d; split; [done|by apply (pipe_has_ext s1)]].
    + intros _. split; [done|]. flags. rewrite <- has_wfr, <- has_eof. exact J1.
    + apply (cared_ext s1); [done| |intros _; left; by flags|done|exact Jc]. flags. rewrite <- has_wfr. by left.
  - intros s1 ((J1 & Jc) & J2 & J3 & d & Jd & J4) E0. split_and!; [by apply J1|exact Jc|done|done|exists d; split; [done|by apply (pipe_has_ext s1)]].
  - split_and!; [done..|]. exists []. split; [by apply moved_nil|by rewrite app_nil_r].
  - done.
  - done.
  - done.
  - intros m s0 s1 Hm ((J1 & Jc) & J2 & J3 & d & Jd & J4) Hg0 Hw.
    assert (pipe_has s1 (q ++ d) /\ u_error s1 = 0 /\ umem s1 = umem s /\ i_gate s1 = true /\ others s1 = others s0) as (W1 & W2 & W3 & W4 & W6).
    { destruct Hw; split_and!; try done. by apply (pipe_has_ext s0). }
    assert (has IFWFW s1 = true -> i_pnc s1 = 0) as W5 by (destruct Hw; [apply J1|by flags|apply J1]).
    assert (cared s1) as Wc by (destruct Hw; [done|apply (cared_ext s0); [done|flags; rewrite <- has_wfr; by left|flags; rewrite <- has_wfw; by left|done|done]|done]).
    apply within_wp. eapply wp_mono; [by apply (wp_pread_take s1 (q ++ d))|].
    intros io' s' (k & [G1 G2 G3 G4 G5 G6 G7 _ G10 G11 (G8 & _ & _ & _ & G9)]). exists d, k. rewrite <- W3.
    assert (cared s') as Gc by (apply (cared_ext s1); [done|done|rewrite G10; by left|done|done]).
    split; [apply (moved_ext s _ s0); congruence|]. split_and!; (done || lia || congruence).
Qed.

(** ** Writing *)

Definition fits s ioc : Z := Z.min ioc (Z.min (PIPSIZE - i_pwx s) (PIPSIZE - i_pnc s)).

Lemma place_next s j : 0 <= i_prx s < PIPSIZE -> 0 <= i_pnc s -> 0 <= j -> place s (i_pnc s) + j < PIPSIZE -> place s (i_pnc s + j) = place s (i_pnc s) + j.
Proof.
  intros H1 H2 H3 H4. pose proof (place_range s (i_pnc s)). rewrite <- (Z.mod_small (place s (i_pnc s) + j) PIPSIZE) by lia.
  unfold place. rewrite Zplus_mod_idemp_l. f_equal. lia.
Qed.

Lemma place_wrap s k : place s (i_pnc s) + k = PIPSIZE -> place s (i_pnc s + k) = 0.
Proof.
  intros E. assert ((place s (i_pnc s) + k) mod PIPSIZE = 0) as Em by (rewrite E; by apply Z.mod_same).
  unfold place in *. rewrite Zplus_mod_idemp_l in Em. rewrite <- Em. f_equal. lia.
Qed.

Lemma place_inj s i j : 0 <= i_prx s < PIPSIZE -> 0 <= i < j -> j < PIPSIZE -> place s i <> place s j.
Proof.
  assert (PIPSIZE = 5120) as HP by done. intros H1 H2 H3. unfold place. rewrite !wrap_once by lia.
  destruct (Z.ltb_spec (i_prx s + i) PIPSIZE), (Z.ltb_spec (i_prx s + j) PIPSIZE); lia.
Qed.

(** [k] bytes [bs] have been written at the write position. *)
Lemma gave_has s q bs f s' n : pipe_has s q -> let k := Z.of_nat (length bs) in k <= n -> i_pwx s + n <= PIPSIZE -> i_pnc s + n <= PIPSIZE ->
  pfile s' = f -> i_prx s' = i_prx s -> i_pnc s' = i_pnc s + k -> i_pwx s' = place s (i_pnc s + k) -> pf_ok f ->
  (forall i, (i < length bs)%nat -> pf_byte f (i_pwx s + Z.of_nat i) = bs !! i) ->
  (forall i, ~ i_pwx s <= i < i_pwx s + n -> pf_byte f i = pf_byte (pfile s) i) -> pipe_has s' (q ++ bs).
Proof.
  intros [H1 H2 H3 H4 H5 H6] k Hk Hw Hc T1 T2 T3 T4 Hf Hb Ho. assert (PIPSIZE = 5120) as HP by done.
  assert (forall i, place s' i = place s i) as Hp by (intros i; unfold place; by rewrite T2).
  constructor; rewrite ?T1, ?T2, ?T3, ?T4; try done.
  - rewrite length_app. lia.
  - lia.
  - intros i Hi. rewrite Hp. destruct (decide (i < i_pnc s)) as [Hlt|Hge].
    + rewrite Ho; [rewrite H6 by lia; by rewrite lookup_app_l by lia|]. intros Hin. apply (place_inj s i (i_pnc s + (place s i - i_pwx s))); try lia.
      rewrite place_next by lia. lia.
    + rewrite lookup_app_r by lia. replace i with (i_pnc s + (i - i_pnc s)) by lia. rewrite place_next by lia. rewrite <- H5.
      replace (i - i_pnc s) with (Z.of_nat (Z.to_nat i - length q)) by lia. rewrite Hb by lia. f_equal. lia.
Qed.

Lemma wp_pipe_fwrite s q io : pipe_has s q -> io_space io = true -> io_seek io = i_pwx s -> 0 < io_ioc io -> i_pwx s + io_ioc io <= PIPSIZE ->
  wp (pipe_fwrite io) (fun io' s1 => exists bs e f, let k := Z.of_nat (length bs) in io' = io_adv io k /\ k <= io_ioc io /\ (e = 0 -> k = io_ioc io) /\
    s1 = (if e =? 0 then set_pfile f s else set_u_error e (set_pfile f s)) /\ pf_ok f /\ bytes_at (umem s) (io_seg io) (io_ptr io) bs /\
    (forall i, (i < length bs)%nat -> pf_byte f (i_pwx s + Z.of_nat i) = bs !! i) /\
    (forall i, ~ i_pwx s <= i < i_pwx s + io_ioc io -> pf_byte f i = pf_byte (pfile s) i)) s.
Proof.
  intros Hh Hsp Hsk Hpos Hfit. pose proof Hh as [H1 H2 H3 H4 H5 H6]. pose proof (place_range s (i_pnc s)) as Hpw.
  destruct (pf_fwrite_law io (umem s) (pfile s) H1 Hsp ltac:(lia) Hpos ltac:(lia)) as (k & e & f & E & Hk & He & Hf & Hin & Hout).
  unfold wp, pipe_fwrite. rewrite E. destruct (bytes_at_exist (umem s) (io_seg io) (io_ptr io) (Z.to_nat k)) as (bs & Hl & Hbs).
  { intros i Hi. destruct (Hin (io_seek io + i)) as [Hs _]; [lia|]. by replace (io_seek io + i - io_seek io) with i in Hs by lia. }
  exists bs, e, f. cbn zeta. rewrite Hl, Z2Nat.id by lia. split_and!; try done; [lia| |by rewrite <- Hsk].
  intros i Hi. rewrite <- Hsk. destruct (Hin (io_seek io + Z.of_nat i)) as [_ Hb]; [lia|]. rewrite Hb, <- Hbs by lia. f_equal. lia.
Qed.

Lemma advance_write {A} (rest : M st A) s k : 0 <= i_prx s < PIPSIZE -> i_pwx s = place s (i_pnc s) -> 0 <= k -> i_pwx s + k <= PIPSIZE -> 0 <= i_pnc s -> i_pnc s + k <= PIPSIZE ->
  (modify (fun s => set_i_pwx (s16 (i_pwx s + k)) s) ;;; s <- get ;; (if i_pwx s =? PIPSIZE then modify (set_i_pwx 0) else kret tt) ;;;
      modify (fun s => set_i_pnc (s16 (i_pnc s + k)) s) ;;; rest) s = rest (set_i_pnc (i_pnc s + k) (set_i_pwx (place s (i_pnc s + k)) s)).
Proof.
  intros Hp Hw Hk Hf Hc0 Hc. assert (PIPSIZE = 5120) as HP by done. pose proof (place_range s (i_pnc s)) as Hpl.
  unfold kbind at 1. cbn [obind modify]. unfold kbind at 1. cbn [obind get]. cbn [i_pwx set_i_pwx]. rewrite s16_small by lia.
  assert (place s (i_pnc s + k) = if i_pwx s + k =? PIPSIZE then 0 else i_pwx s + k) as ->.
  { destruct (Z.eqb_spec (i_pwx s + k) PIPSIZE) as [E|E].
    - apply place_wrap. lia.
    - rewrite place_next by lia. lia. }
  destruct (i_pwx s + k =? PIPSIZE); unfold kbind; cbn [obind modify kret i_pnc set_i_pwx]; by rewrite s16_small by lia.
Qed.

(** One turn that writes. *)
Record gave s q io s' io' bs : Prop := {
  gv_has : pipe_has s' (q ++ bs);
  gv_mem : bytes_at (umem s) (io_seg io) (io_ptr io) bs;
  gv_same : umem s' = umem s;
  gv_pos : pos_of io (Z.of_nat (length bs)) io';
  gv_room : Z.of_nat (length bs) <= PIPSIZE - i_pnc s;
  gv_awake : awake s';
  gv_cared : cared s -> cared s';
  gv_gate : i_gate s' = i_gate s;
  gv_others : others s' = others s
}.

Lemma within_write_turn retry (R : st -> st -> Prop) n fuel s q io ioc Q : pipe_has s q -> awake s -> u_error s = 0 -> io_space io = true ->
  0 < ioc < 65536 -> (i_refc s <? 2) && (i_nlink s =? 0) = false -> 0 < fits s ioc -> has IFEOF s = false ->
  (forall bs io1 s1, Z.of_nat (length bs) <= fits s ioc -> (u_error s1 = 0 -> Z.of_nat (length bs) = fits s ioc) -> gave s q io s1 io1 bs ->
     i_pwx s1 = place s (i_pnc s + Z.of_nat (length bs)) ->
     within R waits n (pwrite_loop retry fuel io1 (ioc - Z.of_nat (length bs)) s1) Q) ->
  within R waits n (pwrite_loop retry (S fuel) io ioc s) Q.
Proof.
  intros Hh Ha He Hsp Hi Hal Hfit Heof HQ. assert (PIPSIZE = 5120) as HP by done. pose proof Hh as [H1 H2 H3 H4 H5 H6].
  pose proof (place_range s (i_pnc s)) as Hpl.
  cbn [pwrite_loop]. apply within_step. change (wp get ?K s) with (K s s). cbn beta.
  assert (negb ((u_error s =? 0) && (0 <? ioc)) = false) as -> by (rewrite He, (proj2 (Z.ltb_lt _ _)) by lia; done).
  rewrite Hal. rewrite (u16_small (PIPSIZE - i_pwx s)), (u16_small (PIPSIZE - i_pnc s)) by lia. cbv zeta.
  assert ((if PIPSIZE - i_pnc s <? (if ioc <? PIPSIZE - i_pwx s then ioc else PIPSIZE - i_pwx s) then PIPSIZE - i_pnc s
           else if ioc <? PIPSIZE - i_pwx s then ioc else PIPSIZE - i_pwx s) = fits s ioc) as ->.
  { unfold fits. destruct (Z.ltb_spec ioc (PIPSIZE - i_pwx s)); (match goal with |- context [PIPSIZE - i_pnc s <? ?x] => destruct (Z.ltb_spec (PIPSIZE - i_pnc s) x) end); lia. }
  rewrite (proj2 (Z.eqb_neq (fits s ioc) 0)), Heof by lia. cbn [orb].
  assert (fits s ioc <= ioc /\ i_pwx s + fits s ioc <= PIPSIZE /\ i_pnc s + fits s ioc <= PIPSIZE) as (A1 & A2 & A3) by (unfold fits; lia).
  apply within_step. eapply wp_mono; [apply (wp_pipe_fwrite s q); try done; cbn; lia|].
  cbn beta zeta. intros io1 s1 (bs & e & f & -> & Hk & Hek & Es1 & Hf & Hm & Hin & Hout). cbn [io_ioc set_io_seek set_io_ioc io_seg] in Hk, Hek, Hm, Hout.
  set (k := Z.of_nat (length bs)) in *. destruct (io_adv_fields (set_io_seek (i_pwx s) (set_io_ioc (fits s ioc) io)) k) as (F1 & F2 & F3 & F4 & F5).
  rewrite F4. cbn [io_ioc set_io_seek set_io_ioc]. rewrite (u16_small (_ - k)) by lia. replace (fits s ioc - (fits s ioc - k)) with k by lia.
  rewrite (u16_small k), (u16_small (ioc - k)) by lia.
  set (sa := if e =? 0 then _ else _) in Es1.
  assert (i_prx s1 = i_prx s /\ i_pnc s1 = i_pnc s /\ i_pwx s1 = i_pwx s /\ pfile s1 = f /\ umem s1 = umem s /\ i_gate s1 = i_gate s /\
    i_flag s1 = i_flag s /\ (u_error s1 = 0 -> e = 0) /\ others s1 = others s /\ woken s1 = woken s) as (E1 & E2 & E3 & E4 & E5 & E6 & E7 & E8 & E9 & E10).
  { rewrite Es1. unfold sa. destruct (Z.eqb_spec e 0); split_and!; done. }
  rewrite advance_write; [|rewrite ?E1, ?E2, ?E3; try lia..]; [|rewrite H5; unfold place; by rewrite E1].
  set (s2 := set_i_pnc _ _). apply within_step. change (wp get ?K s2) with (K s2 s2). cbn beta.
  assert (forall s3, pfile s3 = pfile s2 -> i_prx s3 = i_prx s2 -> i_pnc s3 = i_pnc s2 -> i_pwx s3 = i_pwx s2 -> umem s3 = umem s2 ->
    i_gate s3 = i_gate s2 -> u_error s3 = u_error s2 -> others s3 = others s2 -> awake s3 -> (cared s2 -> cared s3) -> within R waits n (pwrite_loop retry fuel
      (io_adv (set_io_seek (i_pwx s) (set_io_ioc (fits s ioc) io)) k) (ioc - k) s3) Q) as Hgo.
  { intros s3 T1 T2 T3 T4 T5 T6 T7 T10 T8 T11. cbn in T1, T2, T3, T4, T5, T6, T7, T10.
    assert (place s1 (i_pnc s1 + k) = place s (i_pnc s + k)) as Ep by (unfold place; by rewrite E1, E2).
    apply HQ; [lia|intros T9; apply Hek, E8; congruence| |by rewrite T4].
    assert (cared s -> cared s3) as Hc3.
    { intros Hc. apply T11. apply (cared_ext s); [done|by left; unfold has in *; cbn; rewrite E7|by left; unfold has in *; cbn; rewrite E7|by cbn; rewrite E10|done]. }
    split; [|done|congruence| |lia|done|done|congruence|congruence].
    - apply (gave_has s q bs f s3 (fits s ioc)); try done; try lia; try congruence. by rewrite T4.
    - split; [by rewrite F1|split; [by rewrite F2|by rewrite F5]]. }
  apply within_kbind, within_wp. assert (has IFWFW s2 = has IFWFW s /\ has IFWFR s2 = has IFWFR s /\ has IFEOF s2 = has IFEOF s) as (G1 & G2 & G3).
  { unfold has. cbn. by rewrite E7. }
  assert (has IFWFR s2 = false) as G4.
  { rewrite G2. destruct (has IFWFR s) eqn:Ew; [|done]. destruct Ha as [_ Ha]. destruct (Ha Ew); [unfold fits in Hfit; lia|congruence]. }
  destruct (has IFWFW s2 && (0 <? i_pnc s2)) eqn:Ec.
  - apply wp_bind, wp_modify, wp_modify. apply Hgo; try done.
    + split; [by flags|]. flags. rewrite <- has_wfr, G4. done.
    + apply cared_ext; [done|flags; rewrite <- has_wfr; by left|intros _; right; by left|intros c Hc; by right].
  - apply wp_ret. apply Hgo; try done. split; [|by rewrite G4]. intros Ew. rewrite Ew in Ec. cbn [andb] in Ec. apply Z.ltb_ge in Ec.
    assert (0 <= i_pnc s2) by (cbn; lia). lia.
Qed.

(** What [pwrite_loop] leaves: the others have taken the bytes [d] meanwhile, and [rest] is
    in the pipe. *)
Record wrote s q io ioc (r : IO * Z * bool) s' d rest bs : Prop := {
  wr_moved : moved s s' d;
  wr_bytes : q ++ bs = d ++ rest;
  wr_has : pipe_has s' rest;
  wr_mem : bytes_at (umem s) (io_seg io) (io_ptr io) bs;
  wr_range : Z.of_nat (length bs) <= ioc;
  wr_all : u_error s' = 0 -> Z.of_nat (length bs) = ioc /\ snd r = true;
  wr_left : snd r = true -> snd (fst r) = ioc - Z.of_nat (length bs);
  wr_awake : awake s';
  wr_cared : cared s';
  wr_gate : i_gate s' = true
}.

Lemma wrote_turn s q io ioc bs1 io1 s1 r s' : gave s q io s1 io1 bs1 ->
  (exists d rest bs, wrote s1 (q ++ bs1) io1 (ioc - Z.of_nat (length bs1)) r s' d rest bs) -> exists d rest bs, wrote s q io ioc r s' d rest bs.
Proof.
  intros [V1 V2 V3 (V4 & V5 & _) _ _ _ _ V6] (d & rest & bs & [Wm Wb W1 W2 W3 W4 W5 W6 Wc W7]). exists d, rest, (bs1 ++ bs).
  split; rewrite ?length_app, ?Nat2Z.inj_add; try done.
  - by apply (moved_ext s1 _ s').
  - by rewrite <- Wb, app_assoc.
  - apply bytes_at_app; [done|]. by rewrite <- V5, <- V4, <- V3.
  - lia.
  - intros He. destruct (W4 He). split; [lia|done].
  - intros He. rewrite W5 by done. lia.
Qed.

Lemma wrote_sleep s s1 q d1 q1 io ioc r s' : umem s1 = umem s -> moved s s1 d1 -> q = d1 ++ q1 ->
  (exists d rest bs, wrote s1 q1 io ioc r s' d rest bs) -> exists d rest bs, wrote s q io ioc r s' d rest bs.
Proof.
  intros Em Hm -> (d & rest & bs & [Wm Wb W1 W2 W3 W4 W5 W6 Wc W7]). exists (d1 ++ d), rest, bs. split; try done; [by eapply moved_app| |by rewrite <- Em].
  by rewrite <- !app_assoc, Wb.
Qed.

(** The rely of a writer, with the lock free afterwards. *)
Definition left s q s' : Prop := (calm s' /\ cared s') /\ u_error s' = u_error s /\ umem s' = umem s /\ exists d q', moved s s' d /\ q = d ++ q' /\ pipe_has s' q'.

Lemma left_step s q s1 s2 : left s q s1 -> shared consumed s1 s2 -> left s q s2.
Proof.
  intros ((L1 & Lc) & L2 & L3 & d & q1 & Ld & -> & L4) (R1 & R2 & R3 & Rc & d' & R4 & R5). destruct (R5 _ L4) as (q' & R6 & ->).
  split_and!; [auto|auto|congruence|congruence|]. exists (d ++ d'), q'. split_and!; [by eapply moved_app|by rewrite <- app_assoc|done].
Qed.

Lemma wrote_nothing s s' q io ioc r : others s' = others s -> pipe_has s' q -> awake s' -> cared s' -> i_gate s' = true -> 0 <= ioc -> snd (fst r) = ioc ->
  (u_error s' = 0 -> ioc = 0 /\ snd r = true) -> exists d rest bs, wrote s q io ioc r s' d rest bs.
Proof.
  intros Ho Hh Ha Hc Hg Hi Hr He. exists [], q, []. split; cbn; rewrite ?app_nil_r; try done; try lia.
  - by apply moved_nil.
  - by intros i Hi'%Nat.nlt_0_r.
  - intros E. destruct (He E). split; [lia|done].
Qed.

Lemma within_pwrite_end retry R n fuel s q io ioc : pipe_has s q -> awake s -> cared s -> i_gate s = true -> 0 <= ioc ->
  u_error s <> 0 \/ ioc = 0 \/ (i_refc s <? 2) && (i_nlink s =? 0) = true ->
  within R waits n (pwrite_loop retry (S fuel) io ioc s) (fun _ r s' => exists d rest bs, wrote s q io ioc r s' d rest bs).
Proof.
  intros Hh Ha Hc Hg Hi Hend. cbn [pwrite_loop]. apply within_step. change (wp get ?K s) with (K s s). cbn beta.
  destruct (Z.eqb_spec (u_error s) 0) as [He|He], (Z.ltb_spec 0 ioc) as [Hp|Hp]; cbn [andb negb].
  - destruct (_ && _) eqn:Eal; [|destruct Hend as [?|[?|?]]; (done || lia)].
    apply within_wp, wp_bind, wp_modify, wp_bind, wp_modify, wp_ret. apply wrote_nothing; try done. by apply (pipe_has_ext s).
  - apply within_wp, wp_ret, wrote_nothing; try done. intros _. split; [lia|done].
  - apply within_wp, wp_ret, wrote_nothing; done.
  - apply within_wp, wp_ret, wrote_nothing; done.
Qed.

(** A turn that has to wait. *)
Lemma within_write_wait retry n fuel s q io ioc Q : pipe_has s q -> awake s -> cared s -> u_error s = 0 -> 0 < ioc < 65536 -> (n < retry)%nat ->
  (i_refc s <? 2) && (i_nlink s =? 0) = false -> fits s ioc = 0 \/ has IFEOF s = true ->
  (forall n' s1, (n' < n)%nat -> left s q s1 -> awake s1 -> cared s1 -> i_gate s1 = true -> within (shared consumed) waits n' (pwrite_loop retry fuel io ioc s1) Q) ->
  within (shared consumed) waits n (pwrite_loop retry (S fuel) io ioc s) Q.
Proof.
  intros Hh Ha Hca He Hi Hr Hal Hfull HQ. assert (PIPSIZE = 5120) as HP by done. pose proof Hh as [H1 H2 H3 H4 H5 H6].
  pose proof (place_range s (i_pnc s)) as Hpl.
  cbn [pwrite_loop]. apply within_step. change (wp get ?K s) with (K s s). cbn beta.
  assert (negb ((u_error s =? 0) && (0 <? ioc)) = false) as -> by (rewrite He, (proj2 (Z.ltb_lt _ _)) by lia; done).
  rewrite Hal. rewrite (u16_small (PIPSIZE - i_pwx s)), (u16_small (PIPSIZE - i_pnc s)) by lia. cbv zeta.
  match goal with |- context [(?x =? 0) || has IFEOF s] => assert ((x =? 0) || has IFEOF s = true) as -> end.
  { destruct Hfull as [Hz|Hz]; [|by rewrite Hz, orb_true_r]. unfold fits in Hz. apply orb_true_iff. left. apply Z.eqb_eq.
    destruct (Z.ltb_spec ioc (PIPSIZE - i_pwx s)); (match goal with |- context [PIPSIZE - i_pnc s <? ?x] => destruct (Z.ltb_spec (PIPSIZE - i_pnc s) x) end); lia. }
  set (s1 := set_i_gate false (set_i_flag (Z.lor (i_flag s) IFWFR) s)).
  assert (i_pnc s = PIPSIZE \/ has IFEOF s = true) as Hf by (destruct Hfull; [left; unfold fits in *; lia|by right]).
  assert (awake s1) as Ha1 by (destruct Ha as [Ha1 Ha2]; split; unfold s1; flags; rewrite <- ?has_wfw, <- ?has_eof; [exact Ha1|done]).
  assert (cared s1) as Hca1.
  { apply (cared_ext s); [done|intros _; left; unfold s1; by flags|unfold s1; flags; rewrite <- has_wfw; by left|done|done]. }
  apply within_step, wp_modify, within_step, wp_modify. fold s1. apply within_sleep.
  { split; [by intros _|]. split; [done|]. right. right. split; [done|]. split; [done|]. unfold s1. flags. by rewrite <- has_eof. }
  intros n' -> s' HR. assert (left s q s1) as Hl1.
  { split_and!; [by intros _|done|done|done|]. exists [], q. split_and!; [by apply moved_nil|done|by apply (pipe_has_ext s)]. }
  pose proof (left_step s q s1 s' Hl1 HR) as Hl2. apply within_kbind.
  apply (within_ilock _ (left s q)); [|by intros ? [? _]|done|lia|].
  - intros s2 s3. apply left_step.
  - intros m s2 Hm ((L1 & Lc) & L2 & L3 & d & q' & Ld & Lq & L4) Hg. apply HQ; [lia| |by apply L1|exact Lc|done].
    split_and!; [by intros ?|exact Lc|done|done|]. exists d, q'. split_and!; [done|done|by apply (pipe_has_ext s2)].
Qed.

Lemma within_pwrite_loop retry n fuel s q io ioc :
  pipe_has s q -> awake s -> cared s -> i_gate s = true -> io_space io = true -> 0 <= ioc < 65536 -> (n < retry)%nat ->
  (3 + 3 * n <= fuel)%nat \/
  (2 + 3 * n <= fuel)%nat /\ i_pwx s + Z.min ioc (PIPSIZE - i_pnc s) <= PIPSIZE \/
  (1 + 3 * n <= fuel)%nat /\ (u_error s <> 0 \/ ioc = 0 \/ i_pnc s = PIPSIZE) ->
  within (shared consumed) waits n (pwrite_loop retry fuel io ioc s) (fun _ r s' => exists d rest bs, wrote s q io ioc r s' d rest bs).
Proof.
  intros Hh Ha Hca Hg Hsp Hi Hr Hf. revert n s q io ioc Hh Ha Hca Hg Hsp Hi Hr Hf.
  induction fuel as [|fuel IH]; intros n s q io ioc Hh Ha Hca Hg Hsp Hi Hr Hf; [lia|]. pose proof Hh as [H1 H2 H3 H4 H5 H6].
  assert (PIPSIZE = 5120) as HP by done. pose proof (place_range s (i_pnc s)) as Hpl.
  destruct (decide (u_error s <> 0 \/ ioc = 0 \/ (i_refc s <? 2) && (i_nlink s =? 0) = true)) as [Hend|Hgo]; [by apply within_pwrite_end; [..|lia|]|].
  assert (u_error s = 0) as He by (destruct (decide (u_error s = 0)); [done|tauto]). assert (ioc <> 0) as Hi0 by tauto.
  assert ((i_refc s <? 2) && (i_nlink s =? 0) = false) as Hal by (apply not_true_is_false; tauto).
  destruct (decide (fits s ioc = 0 \/ has IFEOF s = true)) as [Hfull|Hroom].
  - apply (within_write_wait retry n fuel s q); try done; [lia|]. intros n' s1 Hn (L1 & L2 & L3 & d & q' & Ld & Lq & L4) Hs1 Hc1 Hg1.
    eapply within_mono; [|apply (IH n' s1 q'); try done; [lia|left; destruct Hf as [?|[[? _]|[? _]]]; lia]]. intros m r s' _. by apply (wrote_sleep s s1 q d q').
  - assert (0 < fits s ioc) as Hfit by (clear IH Hf; unfold fits in *; lia). apply (within_write_turn retry _ n fuel s q); try done; [lia|by destruct (has IFEOF s); [destruct Hroom; right|]|].
    intros bs io1 s1 Hk Hek Hgave Hw. eapply within_mono; [intros m r s' _; by apply (wrote_turn s q io ioc bs io1 s1)|].
    destruct (gv_pos _ _ _ _ _ _ Hgave) as (_ & _ & Esp). pose proof (ph_count _ _ (gv_has _ _ _ _ _ _ Hgave)) as Hc1. rewrite length_app in Hc1.
    apply (IH n s1 (q ++ bs)); [apply Hgave|apply Hgave|by apply Hgave|by rewrite (gv_gate _ _ _ _ _ _ Hgave)|congruence|unfold fits in Hk; lia|done|].
    assert (~ (u_error s <> 0 \/ ioc = 0 \/ i_pnc s = PIPSIZE)) as Hnot by (unfold fits in Hfit; lia). clear IH H1 H6 Hroom Hgo.
    destruct (decide (u_error s1 = 0)) as [E1|E1]; [|right; right; destruct Hf as [?|[[? ?]|[? ?]]]; [split; [lia|by left]..|done]].
    specialize (Hek E1). set (k := Z.of_nat (length bs)) in *. assert (i_pnc s1 = i_pnc s + k) as Ec by lia.
    assert (i_pwx s1 = if i_pwx s + k =? PIPSIZE then 0 else i_pwx s + k) as Ew.
    { rewrite Hw, H5. destruct (Z.eqb_spec (place s (i_pnc s) + k) PIPSIZE) as [E|E]; [by apply place_wrap|].
      apply place_next; try lia. unfold fits in Hek. lia. }
    rewrite Ew, Ec. unfold fits in Hek. destruct Hf as [Hf|[[Hf1 Hf2]|[_ ?]]]; [| |done].
    + right. left. split; [lia|]. destruct (Z.eqb_spec (i_pwx s + k) PIPSIZE); lia.
    + right. right. split; [lia|]. lia.
Qed.

(** C4: [pwrite] on a pipe that holds [q], with other processes that take bytes [d] from
    the front while it sleeps: the bytes of the writer's memory go behind, in
    order, all of them unless an error is set; what the others have read by their own
    record [hist], and then what is in the pipe at the end, is [q] followed by them.
    It sleeps only on a full pipe, or one at end of file, marked and unlocked, or
    for the lock.  At every sleep and at the end a process that sleeps on the
    pipe is marked or has been woken, and at the end no reader is marked on a pipe
    that has bytes, so a reader that sleeps then has been woken.  With fuel for [n] sleeps it
    does not run out of fuel in [n] sleeps. *)
Theorem pwrite_correct retry fuel n s q io :
  pipe_has s q -> awake s -> cared s -> i_gate s = true -> u_error s = 0 -> io_space io = true -> 0 <= io_ioc io < 65536 ->
  (n < retry)%nat -> (3 + 3 * n <= fuel)%nat ->
  within (shared consumed) waits n (pwrite retry fuel io s)
    (fun _ io' s' => exists d rest bs, moved s s' d /\ q ++ bs = d ++ rest /\ pipe_has s' rest /\ bytes_at (umem s) (io_seg io) (io_ptr io) bs /\
       Z.of_nat (length bs) <= io_ioc io /\ (u_error s' = 0 -> Z.of_nat (length bs) = io_ioc io /\ io_ioc io' = 0) /\
       awake s' /\ cared s' /\ i_gate s' = true).
Proof.
  intros Hh Ha Hca Hg He Hsp Hi Hr Hf. unfold pwrite. apply within_kbind. eapply within_mono; [|by apply (within_pwrite_loop retry n fuel s q); [..|left]].
  intros m r s' _ (d & rest & bs & [Wm Wb W1 W2 W3 W4 W5 W6 Wc W7]). apply within_wp, wp_ret. exists d, rest, bs. split_and!; try done.
  intros E. destruct (W4 E) as [E1 E2]. rewrite E2. cbn. rewrite (W5 E2). lia.
Qed.

(** [pread] does not sleep on a pipe that has bytes, or is at its end of
    file, or has nobody else: it returns what there is, and 0 bytes at the end. *)
Theorem pread_at_once retry fuel s q io :
  pipe_has s q -> awake s -> u_error s = 0 -> io_space io = true -> 0 <= io_ioc io < 65536 -> (1 <= fuel)%nat ->
  q <> [] \/ has IFEOF s = true \/ i_nlink s = 0 /\ i_refc s < 2 ->
  wp (pread retry fuel io) (fun io' s' =>
    exists k, 0 <= k <= Z.min (io_ioc io) (Z.of_nat (length q)) /\ (u_error s' = 0 -> k = Z.min (io_ioc io) (Z.of_nat (length q))) /\
      pipe_has s' (drop (Z.to_nat k) q) /\ poured (umem s) (umem s') (io_seg io) (io_ptr io) (take (Z.to_nat k) q) /\
      io_ioc io' = io_ioc io - k /\ awake s' /\ (q = [] -> has IFEOF s' = false) /\
      (has IFWFR s = true -> has IFWFR s' = true \/ pwx ∈ woken s')) s.
Proof.
  intros Hh Ha He Hsp Hi Hf Hend. unfold pread. apply wp_bind.
  apply (wp_mono _ (fun _ s1 => wait_over s s1)).
  - destruct fuel as [|fuel]; [lia|]. cbn [pread_wait]. apply wp_bind. change (wp get ?K s) with (K s s). cbn beta.
    destruct (Z.eqb_spec (i_pnc s) 0) as [E0|E0]; cbn [negb]; [|apply wp_ret; by constructor].
    destruct (has IFEOF s) eqn:Ee; [apply wp_modify; by constructor|].
    destruct Hend as [Hq|[?|[E1 E2]]]; [by apply (pipe_has_nil _ _ Hh) in E0|done|].
    rewrite E1, (proj2 (Z.ltb_lt _ _) E2). apply wp_ret. by constructor.
  - intros _ s1 Hw. assert (pipe_has s1 q /\ u_error s1 = 0 /\ umem s1 = umem s /\ has IFWFR s1 = has IFWFR s /\
      (has IFWFW s1 = true -> i_pnc s1 = 0) /\ (q = [] -> has IFEOF s1 = false)) as (W1 & W2 & W3 & W4 & W5 & W6).
    { destruct Ha as [Ha1 Ha2]. destruct Hw as [E0|E0 Ee|E0 Ee E1 E2]; split_and!; try done.
      - intros Hq. by apply (pipe_has_nil _ _ Hh) in Hq.
      - by apply (pipe_has_ext s).
      - by flags.
      - by flags. }
    eapply wp_mono; [by apply (wp_pread_take s1 q)|]. intros io' s' (k & [G1 G2 G3 G4 G5 G6 G7 G8 _ _ _]). exists k.
    rewrite <- W3, <- W4. split_and!; [lia|lia|done..| |done].
    intros Hq. destruct (has IFEOF s') eqn:E; [|done]. rewrite <- (W6 Hq). symmetry. by apply G8.
Qed.

(** The last but one [pclose] leaves nobody waiting: it wakes the readers and
    the writers, and sets the end of file; [popen] clears it and wakes the
    writers that waited because of it. *)
Theorem pclose_popen_correct s q :
  pipe_has s q -> awake s ->
  wp pclose (fun _ s' => pipe_has s' q /\ awake s' /\
    if i_refc s =? 2 then has IFEOF s' = true /\ has IFWFR s' = false /\ has IFWFW s' = false /\
      (has IFWFR s = true -> pwx ∈ woken s') /\ (has IFWFW s = true -> prx ∈ woken s')
    else s' = s) s /\
  wp popen (fun _ s' => pipe_has s' q /\ awake s' /\ has IFEOF s' = false /\ has IFWFW s' = has IFWFW s /\
    (has IFWFR s = true -> has IFWFR s' = true \/ pwx ∈ woken s')) s.
Proof.
  intros Hh [Ha1 Ha2]. split.
  - unfold pclose, pevent. apply wp_bind. change (wp get ?K s) with (K s s). cbn beta. destruct (i_refc s =? 2).
    2:{ by apply wp_ret. }
    apply wp_bind, wp_bind. change (wp get ?K s) with (K s s). cbn beta. apply wp_bind.
    apply (wp_mono _ (fun _ s1 => pipe_has s1 q /\ has IFWFR s1 = false /\ has IFWFW s1 = has IFWFW s /\ (has IFWFR s = true -> pwx ∈ woken s1))).
    { destruct (has IFWFR s) eqn:Ew; [apply wp_bind, wp_modify, wp_modify|by apply wp_ret].
      split_and!; [by apply (pipe_has_ext s)|by flags|by flags|intros _; by left]. }
    intros _ s1 (B1 & B2 & B3 & B4). apply wp_bind. change (wp get ?K s1) with (K s1 s1). cbn beta. rewrite B3.
    destruct (has IFWFW s) eqn:Ew; [apply wp_bind, wp_modify, wp_modify|apply wp_ret]; apply wp_modify.
    + split_and!; [by apply (pipe_has_ext s1)|split; [by flags|right; by flags]|by flags|flags; by rewrite <- has_wfr|by flags| |intros _; by left].
      intros E. right. by apply B4.
    + split_and!; [by apply (pipe_has_ext s1)|split; [flags; by rewrite <- has_wfw, B3|right; by flags]|by flags|flags; by rewrite <- has_wfr|flags; by rewrite <- has_wfw|done|done].
  - unfold popen. apply wp_bind. change (wp get ?K s) with (K s s). cbn beta. destruct (has IFEOF s) eqn:Ee.
    2:{ apply wp_ret. split_and!; [done|split; [exact Ha1|by rewrite Ee]|done|done|by left]. }
    apply wp_bind, wp_modify, wp_bind. set (s1 := set_i_flag _ s). change (wp get ?K s1) with (K s1 s1). cbn beta.
    assert (has IFWFR s1 = has IFWFR s /\ has IFWFW s1 = has IFWFW s /\ has IFEOF s1 = false) as (B1 & B2 & B3) by (unfold s1; split_and!; by flags).
    rewrite B1. destruct (has IFWFR s) eqn:Ew; [apply wp_bind, wp_modify, wp_modify|apply wp_ret].
    + split_and!; [by apply (pipe_has_ext s)|split; [flags; by rewrite <- has_wfw, B2|by flags]|flags; by rewrite <- has_eof|flags; by rewrite <- !has_wfw|intros _; right; by left].
    + split_and!; [by apply (pipe_has_ext s)|split; [by rewrite B2|by rewrite B1]|done|done|done].
Qed.
End PipeLaws.

(** ** A pipe on a file that is kept as a function *)
Module Flat.
Definition flat : Type := Z -> option Z.

#[export] Instance flat_file : PipeFile flat := {
  pf_fread io m f :=
    let m' sp a := if decide (sp = io_seg io /\ io_ptr io <= a < io_ptr io + io_ioc io)
                   then f (io_seek io + (a - io_ptr io)) else m sp a in
    (io_move io (io_ioc io), m', 0, f);
  pf_fwrite io m f :=
    let bs := take_mem (m (io_seg io)) (io_ptr io) (Z.to_nat (io_ioc io)) in
    let k := Z.of_nat (length bs) in
    (io_adv io k, if k =? io_ioc io then 0 else EFAULT, put_mem f (io_seek io) bs)
}.

Lemma take_mem_range m a n i : (i < length (take_mem m a n))%nat -> is_Some (m (a + Z.of_nat i)) /\ take_mem m a n !! i = m (a + Z.of_nat i).
Proof.
  revert a i. induction n as [|n IH]; intros a i Hi; simpl in *; [lia|]. destruct (m a) as [b|] eqn:E; simpl in *; [|lia].
  destruct i as [|i]; simpl; [by rewrite Z.add_0_r, E|].
  replace (a + Z.of_nat (S i)) with (a + 1 + Z.of_nat i) by lia. apply IH. lia.
Qed.

Lemma take_mem_length m a n : (length (take_mem m a n) <= n)%nat.
Proof. revert a. induction n as [|n IH]; intros a; simpl; [lia|]. destruct (m a); simpl; [|lia]. specialize (IH (a + 1)). lia. Qed.

#[export] Program Instance flat_laws : PipeFileLaws flat := { pf_ok _ := True; pf_byte f i := f i }.
Next Obligation.
  intros io m f _ _ Hs Hi Hf Hb. eexists (io_ioc io), _, 0, f. split_and!; [reflexivity|lia|lia|done..|]. done.
Qed.
Next Obligation.
  intros io m f _ _ Hs Hi Hf. cbn. set (bs := take_mem _ _ _). pose proof (take_mem_length (m (io_seg io)) (io_ptr io) (Z.to_nat (io_ioc io))) as Hl. fold bs in Hl.
  eexists (Z.of_nat (length bs)), _, _. split_and!; [reflexivity|lia|lia| |done| |].
  - destruct (Z.eqb_spec (Z.of_nat (length bs)) (io_ioc io)); done.
  - intros i Hi'. destruct (take_mem_range (m (io_seg io)) (io_ptr io) (Z.to_nat (io_ioc io)) (Z.to_nat (i - io_seek io))) as [T1 T2]; [fold bs; lia|].
    rewrite Z2Nat.id in T1, T2 by lia. split; [done|]. unfold put_mem.
    rewrite (proj2 (Z.leb_le _ _)), (proj2 (Z.ltb_lt _ _)) by lia. exact T2.
  - intros i Hi'. unfold put_mem. destruct (Z.leb_spec (io_seek io) i), (Z.ltb_spec i (io_seek io + Z.of_nat (length bs))); (done || lia).
Qed.

(** Two bytes at the end of the ring and one at its start; a process that
    reads or writes up to four at 1000, and the other end. *)
Definition three : flat := fun i => if i =? 5118 then Some 65 else if i =? 5119 then Some 66 else if i =? 0 then Some 67 else None.
Definition user : memory := fun sp a => if (sp =? IOUSR) && (1000 <=? a) && (a <? 1004) then Some (a - 1000) else None.
(** The others remember the bytes they have moved. *)
Definition ring (rx pnc wx : Z) : pipest := Pst 2 0 0 true pnc rx wx three 0 user [] [] ([] : list Z).
Definition four : IO := Io IOUSR 4 0 1000 0.

Lemma ring_has : pipe_has (ring 5118 3 1) [65; 66; 67].
Proof.
  constructor; cbn; try done. intros i Hi. assert (i = 0 \/ i = 1 \/ i = 2) as [->|[->| ->]] by lia; done.
Qed.
Lemma ring_awake a b c : awake (ring a b c).
Proof. by split. Qed.
(** One of the others sleeps on [c] once they have moved three bytes. *)
Definition dozing (c : chan) (w : list Z) (ch : chan) : Prop := ch = c /\ (3 <= length w)%nat.
Lemma ring_cared c rx n wx : cared (dozing c) (ring rx n wx).
Proof. split; intros [_ H%Nat.nle_succ_0]; done. Qed.
Lemma empty_has : pipe_has (ring 0 0 0) [].
Proof. constructor; cbn; try done. intros i Hi. lia. Qed.
End Flat.
Import Flat.

Example pread_flat : match pread 1 1 four (ring 5118 3 1) with
  | Ret io s => (io_ioc io, map (umem s IOUSR) [1000; 1001; 1002; 1003], i_pnc s, i_prx s, i_pwx s) = (1, [Some 65; Some 66; Some 67; Some 3], 0, 1, 1)
  | _ => False end.
Proof. vm_compute. reflexivity. Qed.

Example pwrite_flat : match pwrite 1 4 four (ring 5116 2 5118) with
  | Ret io s => (io_ioc io, map (pfile s) [5118; 5119; 0; 1; 2], i_pnc s, i_prx s, i_pwx s) = (0, [Some 0; Some 1; Some 2; Some 3; None], 6, 5116, 2)
  | _ => False end.
Proof. vm_compute. reflexivity. Qed.

Lemma pread_correct_witness : within (shared id (dozing pwx) appended) (waits (dozing pwx)) 2 (pread 3 3 four (ring 0 0 0))
  (fun _ io' s' => exists d k, others s' = d /\ 0 <= k <= Z.min 4 (Z.of_nat (length d)) /\ (u_error s' = 0 -> k = Z.min 4 (Z.of_nat (length d))) /\
     pipe_has s' (drop (Z.to_nat k) d) /\ poured user (umem s') IOUSR 1000 (take (Z.to_nat k) d) /\
     io_ioc io' = 4 - k /\ awake s' /\ cared (dozing pwx) s' /\ i_gate s' = true).
Proof. apply (pread_correct id (dozing pwx) 3 3 2 (ring 0 0 0) [] four empty_has (ring_awake _ _ _) (ring_cared _ _ _ _)); (reflexivity || cbn; lia). Defined.

Lemma pwrite_correct_witness : within (shared id (dozing prx) consumed) (waits (dozing prx)) 2 (pwrite 3 9 four (ring 5118 3 1))
  (fun _ io' s' => exists d rest bs, others s' = d /\ [65; 66; 67] ++ bs = d ++ rest /\ pipe_has s' rest /\ bytes_at user IOUSR 1000 bs /\
     Z.of_nat (length bs) <= 4 /\ (u_error s' = 0 -> Z.of_nat (length bs) = 4 /\ io_ioc io' = 0) /\ awake s' /\ cared (dozing prx) s' /\ i_gate s' = true).
Proof. apply (pwrite_correct id (dozing prx) 3 9 2 (ring 5118 3 1) [65; 66; 67] four ring_has (ring_awake _ _ _) (ring_cared _ _ _ _)); (reflexivity || cbn; lia). Defined.

Lemma pread_at_once_witness : wp (pread 0 1 four) (fun io' s' =>
    exists k, 0 <= k <= 3 /\ (u_error s' = 0 -> k = 3) /\
      pipe_has s' (drop (Z.to_nat k) [65; 66; 67]) /\ poured user (umem s') IOUSR 1000 (take (Z.to_nat k) [65; 66; 67]) /\
      io_ioc io' = 4 - k /\ awake s' /\ ([65; 66; 67] = [] -> has IFEOF s' = false) /\
      (has IFWFR (ring 5118 3 1) = true -> has IFWFR s' = true \/ pwx ∈ woken s')) (ring 5118 3 1).
Proof. apply (pread_at_once 0 1 (ring 5118 3 1) [65; 66; 67] four ring_has (ring_awake _ _ _)); [reflexivity|reflexivity|cbn; lia|lia|left; discriminate]. Defined.

Lemma pclose_popen_correct_witness :
  wp pclose (fun _ s' => pipe_has s' [65; 66; 67] /\ awake s' /\ has IFEOF s' = true /\ has IFWFR s' = false /\ has IFWFW s' = false /\
      (has IFWFR (ring 5118 3 1) = true -> pwx ∈ woken s') /\ (has IFWFW (ring 5118 3 1) = true -> prx ∈ woken s')) (ring 5118 3 1) /\
  wp popen (fun _ s' => pipe_has s' [65; 66; 67] /\ awake s' /\ has IFEOF s' = false /\ has IFWFW s' = has IFWFW (ring 5118 3 1) /\
    (has IFWFR (ring 5118 3 1) = true -> has IFWFR s' = true \/ pwx ∈ woken s')) (ring 5118 3 1).
Proof. exact (pclose_popen_correct (ring 5118 3 1) [65; 66; 67] ring_has (ring_awake _ _ _)). Defined.
