(* ===== verification/Tty.v ===== *)
(** The terminal service (kernel/drv/tty.c): line editing, echo, flow control
    and output processing between a driver and the processes.

    [ttin] and [ttout] are called by the driver with interrupts masked; [ttread]
    and [ttwrite] mask them for a character at a time, and [intr] marks where
    they are let in.  The queues are those of Clist, in one pool with the queues
    of other terminals.  The driver is behind the class [TtyDriver]. *)
From S2P Require Import Prelude Sched Clist Bytes Bcache Super Fs Fmap.
Local Open Scope Z_scope.
Local Open Scope kernel_scope.

Definition NCIB : Z := 256.
Definition OHILIM : Z := 128.
Definition OLOLIM : Z := 40.
Definition IHILIM : Z := 512.
Definition ILOLIM : Z := 40.
Definition ITSLIM : Z := IHILIM - IHILIM / 4.
Definition ESC : Z := 92.

Definition T_HILIM : Z := 1.
Definition T_DRAIN : Z := 2.
Definition T_INPUT : Z := 4.
Definition T_INL : Z := 16.
Definition T_STOP : Z := 32.
Definition T_HPCL : Z := 64.
Definition T_EXCL : Z := 128.
Definition T_TSTOP : Z := 256.
Definition T_ISTOP : Z := 512.
Definition T_MODC : Z := 1024.
Definition T_CARR : Z := 2048.
Definition T_BRD : Z := 4096.
Definition T_HOPEN : Z := 8192.
Definition T_SAVE : Z :=
  Z.lor T_HPCL (Z.lor T_EXCL (Z.lor T_MODC (Z.lor T_CARR (Z.lor T_HOPEN T_BRD)))).

Definition EVENP : Z := 1.
Definition ODDP : Z := 2.
Definition CRMOD : Z := 4.
Definition ECHO : Z := 8.
Definition CBREAK : Z := 32.
Definition RAWIN : Z := 64.
Definition RAWOUT : Z := 128.
Definition TANDEM : Z := 256.
Definition XTABS : Z := 512.
Definition CRT : Z := 1024.

Definition EINTR : Z := 4.
Definition EINVAL : Z := 22.
Definition SIGHUP : Z := 1.
Definition SIGINT : Z := 2.
Definition SIGQUIT : Z := 3.

(** [struct sgttyb] and [struct tchars]. *)
Record sgttyb := Sg { sg_ispeed : Z; sg_ospeed : Z; sg_erase : Z; sg_kill : Z; sg_flags : Z }.
Record tchars := Tc { t_intrc : Z; t_quitc : Z; t_startc : Z; t_stopc : Z; t_eofc : Z; t_brkc : Z }.

Record TTY := Tty {
  t_oq : cqueue;             (* output queue *)
  t_iq : cqueue;             (* input queue *)
  t_flags : Z;
  t_nfill : Z;               (* number of fill characters *)
  t_fillb : Z;               (* the fill character *)
  t_ibx : Z;                 (* input buffer index *)
  t_ib : list Z;             (* input buffer, of signed characters *)
  t_hpos : Z;                (* horizontal position *)
  t_opos : Z;                (* where the line being typed began *)
  t_sgttyb : sgttyb;
  t_tchars : tchars;
  t_group : Z;               (* process group *)
  t_escape : Z               (* pending escapes *)
}.
Definition set_t_oq v x := Tty v (t_iq x) (t_flags x) (t_nfill x) (t_fillb x) (t_ibx x) (t_ib x) (t_hpos x) (t_opos x) (t_sgttyb x) (t_tchars x) (t_group x) (t_escape x).
Definition set_t_iq v x := Tty (t_oq x) v (t_flags x) (t_nfill x) (t_fillb x) (t_ibx x) (t_ib x) (t_hpos x) (t_opos x) (t_sgttyb x) (t_tchars x) (t_group x) (t_escape x).
Definition set_t_flags v x := Tty (t_oq x) (t_iq x) v (t_nfill x) (t_fillb x) (t_ibx x) (t_ib x) (t_hpos x) (t_opos x) (t_sgttyb x) (t_tchars x) (t_group x) (t_escape x).
Definition set_t_nfill v x := Tty (t_oq x) (t_iq x) (t_flags x) v (t_fillb x) (t_ibx x) (t_ib x) (t_hpos x) (t_opos x) (t_sgttyb x) (t_tchars x) (t_group x) (t_escape x).
Definition set_t_fillb v x := Tty (t_oq x) (t_iq x) (t_flags x) (t_nfill x) v (t_ibx x) (t_ib x) (t_hpos x) (t_opos x) (t_sgttyb x) (t_tchars x) (t_group x) (t_escape x).
Definition set_t_ibx v x := Tty (t_oq x) (t_iq x) (t_flags x) (t_nfill x) (t_fillb x) v (t_ib x) (t_hpos x) (t_opos x) (t_sgttyb x) (t_tchars x) (t_group x) (t_escape x).
Definition set_t_ib v x := Tty (t_oq x) (t_iq x) (t_flags x) (t_nfill x) (t_fillb x) (t_ibx x) v (t_hpos x) (t_opos x) (t_sgttyb x) (t_tchars x) (t_group x) (t_escape x).
Definition set_t_hpos v x := Tty (t_oq x) (t_iq x) (t_flags x) (t_nfill x) (t_fillb x) (t_ibx x) (t_ib x) v (t_opos x) (t_sgttyb x) (t_tchars x) (t_group x) (t_escape x).
Definition set_t_opos v x := Tty (t_oq x) (t_iq x) (t_flags x) (t_nfill x) (t_fillb x) (t_ibx x) (t_ib x) (t_hpos x) v (t_sgttyb x) (t_tchars x) (t_group x) (t_escape x).
Definition set_t_sgttyb v x := Tty (t_oq x) (t_iq x) (t_flags x) (t_nfill x) (t_fillb x) (t_ibx x) (t_ib x) (t_hpos x) (t_opos x) v (t_tchars x) (t_group x) (t_escape x).
Definition set_t_tchars v x := Tty (t_oq x) (t_iq x) (t_flags x) (t_nfill x) (t_fillb x) (t_ibx x) (t_ib x) (t_hpos x) (t_opos x) (t_sgttyb x) v (t_group x) (t_escape x).
Definition set_t_group v x := Tty (t_oq x) (t_iq x) (t_flags x) (t_nfill x) (t_fillb x) (t_ibx x) (t_ib x) (t_hpos x) (t_opos x) (t_sgttyb x) (t_tchars x) v (t_escape x).
Definition set_t_escape v x := Tty (t_oq x) (t_iq x) (t_flags x) (t_nfill x) (t_fillb x) (t_ibx x) (t_ib x) (t_hpos x) (t_opos x) (t_sgttyb x) (t_tchars x) (t_group x) v.

Definition mode (f : Z) (x : TTY) : bool := negb (Z.land (sg_flags (t_sgttyb x)) f =? 0).
Definition flag (f : Z) (x : TTY) : bool := negb (Z.land (t_flags x) f =? 0).
Definition ISBBYB (x : TTY) : bool := mode (Z.lor RAWIN CBREAK) x.

Section Tty.
(** [D]: the registers and the lines of the device. *)
Context {D : Type}.

Record sys := Sys {
  tp : TTY;
  cl : clstate;                    (* the pool of character blocks, and the calls of wakeup *)
  dv : D;
  u_error : Z;
  umem : Z -> Z -> option Z;       (* memory, by segment *)
  procq : list (Z * Z);            (* the processes: number and group *)
  sent : list (Z * Z);             (* signals sent, latest first: signal and process *)
  self : Z * Z * Z;                (* p_pid, p_group and p_ttdev of the running process *)
  hassig : bool                    (* whether [SELF->p_ssig && nondsig()] *)
}.
Definition set_tp v x := Sys v (cl x) (dv x) (u_error x) (umem x) (procq x) (sent x) (self x) (hassig x).
Definition set_cl v x := Sys (tp x) v (dv x) (u_error x) (umem x) (procq x) (sent x) (self x) (hassig x).
Definition set_dv v x := Sys (tp x) (cl x) v (u_error x) (umem x) (procq x) (sent x) (self x) (hassig x).
Definition set_u_error v x := Sys (tp x) (cl x) (dv x) v (umem x) (procq x) (sent x) (self x) (hassig x).
Definition set_umem v x := Sys (tp x) (cl x) (dv x) (u_error x) v (procq x) (sent x) (self x) (hassig x).
Definition set_sent v x := Sys (tp x) (cl x) (dv x) (u_error x) (umem x) (procq x) v (self x) (hassig x).
Definition set_self v x := Sys (tp x) (cl x) (dv x) (u_error x) (umem x) (procq x) (sent x) v (hassig x).

Definition upd (f : TTY -> TTY) : M sys unit := modify (fun s => set_tp (f (tp s)) s).
Definition rd {A} (f : TTY -> A) : M sys A := gets (fun s => f (tp s)).
Definition setf (f : Z) : M sys unit := upd (fun x => set_t_flags (Z.lor (t_flags x) f) x).
Definition clrf (f : Z) : M sys unit := upd (fun x => set_t_flags (Z.land (t_flags x) (Z.lnot f)) x).
Definition wakeup (ch : chan) : M sys unit := modify (fun s => set_cl (cl_wakeup ch (cl s)) s).
Definition error (e : Z) : M sys unit := modify (set_u_error e).

(** [spl(s)] back to low priority. *)
Definition intr : M sys unit := sleep ChIntr.

(** An operation on the pool. *)
Fixpoint in_pool {A} (o : out clstate A) (s : sys) : out sys A :=
  match o with
  | Ret a c => Ret a (set_cl c s)
  | Sleep ch c k => Sleep ch (set_cl c s) (fun s' => in_pool (k (cl s')) s')
  | Stop w => Stop w
  | NoFuel => NoFuel
  end.
Definition pool_op {A} (m : M clstate A) : M sys A := fun s => in_pool (m (cl s)) s.

Definition putoq (c : Z) : M sys Z :=
  q <- rd t_oq ;; r <- pool_op (putq q c) ;; upd (set_t_oq (snd r)) ;;; kret (fst r).
Definition putiq (c : Z) : M sys Z :=
  q <- rd t_iq ;; r <- pool_op (putq q c) ;; upd (set_t_iq (snd r)) ;;; kret (fst r).
Definition getoq : M sys Z :=
  q <- rd t_oq ;; r <- pool_op (getq q) ;; upd (set_t_oq (snd r)) ;;; kret (fst r).
Definition getiq : M sys Z :=
  q <- rd t_iq ;; r <- pool_op (getq q) ;; upd (set_t_iq (snd r)) ;;; kret (fst r).
Definition clroq : M sys unit :=
  q <- rd t_oq ;; r <- pool_op (clrq (S (Z.to_nat (cq_cc q))) q) ;; upd (set_t_oq r).
Definition clriq : M sys unit :=
  q <- rd t_iq ;; r <- pool_op (clrq (S (Z.to_nat (cq_cc q))) q) ;; upd (set_t_iq r).

(** ** Output *)

(** The position on the line after [c]. *)
Definition ttout_pos (c : Z) : M sys unit :=
  x <- rd id ;;
  if mode RAWOUT x then kret tt
  else if c =? 8 then (if t_hpos x =? 0 then kret tt else upd (set_t_hpos (s16 (t_hpos x - 1))))
  else if c =? 13 then upd (set_t_hpos 0)
  else if c =? 9 then upd (set_t_hpos (s16 (Z.lor (t_hpos x) 7 + 1)))
  else if (32 <=? c) && (c <=? 126) then upd (set_t_hpos (s16 (t_hpos x + 1)))
  else kret tt.

(** What [ttout] makes of a character of the queue. *)
Definition ttout_cook (c : Z) : M sys Z :=
  x <- rd id ;;
  if mode RAWOUT x then kret c
  else if (c =? 10) && mode CRMOD x then setf T_INL ;;; kret 13
  else if (c =? 9) && mode XTABS x then
    upd (fun x => set_t_nfill (s8 (Z.lnot (Z.lor (t_hpos x) (Z.lnot 7)))) x) ;;;
    upd (set_t_fillb 32) ;;;
    kret 32
  else kret c.

(** The character [ttout] takes, or -1. *)
Definition ttout_next : M sys Z :=
  x <- rd id ;;
  if negb (t_nfill x =? 0) then upd (set_t_nfill (s8 (t_nfill x - 1))) ;;; kret (t_fillb x)
  else if flag T_INL x then clrf T_INL ;;; kret 10
  else
    c <- getoq ;;
    if c <? 0 then kret c else ttout_cook c.

Definition ttout : M sys Z :=
  c <- ttout_next ;;
  if c <? 0 then kret (-1) else ttout_pos c ;;; kret c.
End Tty.
Arguments sys D : clear implicits.

(** The start and parameter functions of a driver. *)
Class TtyDriver (D : Type) := { t_start : M (sys D) unit; t_param : M (sys D) unit }.

Section Discipline.
Context {D : Type} `{!TtyDriver D}.
Variable retry : nat.

(** ** Starting, flushing, signals *)

Definition ttstart : M (sys D) unit :=
  x <- rd id ;;
  if flag T_STOP x then kret tt
  else if flag T_DRAIN x && (cq_cc (t_oq x) =? 0) && negb (flag T_INL x) && (t_nfill x =? 0) then
    clrf T_DRAIN ;;; wakeup ChTtyOut
  else
    t_start ;;;
    y <- rd id ;;
    if flag T_HILIM x && (cq_cc (t_oq y) <=? OLOLIM) then clrf T_HILIM ;;; wakeup ChTtyOut else kret tt.

Definition ttflush : M (sys D) unit :=
  clriq ;;;
  clroq ;;;
  upd (set_t_ibx 0) ;;;
  upd (set_t_escape 0) ;;;
  upd (fun x => set_t_flags (Z.land (t_flags x) T_SAVE) x) ;;;
  wakeup ChTtyIn ;;;
  wakeup ChTtyOut.

Definition ttsignal (sig : Z) : M (sys D) unit :=
  g <- rd t_group ;;
  if g =? 0 then kret tt
  else
    ttflush ;;;
    modify (fun s => set_sent (foldl (fun l p => if snd p =? g then (sig, fst p) :: l else l) (sent s) (procq s)) s).

Definition tthup : M (sys D) unit :=
  clrf T_CARR ;;; ttflush ;;; ttsignal SIGHUP.

(** ** Input *)

(** [tp->t_ib[tp->t_ibx++] = c] *)
Definition push (c : Z) : M (sys D) unit :=
  x <- rd id ;;
  l <- deref (aset (t_ib x) (t_ibx x) (s8 c)) ;;
  upd (fun x => set_t_ibx (t_ibx x + 1) (set_t_ib l x)).

(** The loop that puts the pending escapes into the buffer. *)
Fixpoint escapes (fuel : nat) : M (sys D) unit :=
  match fuel with
  | O => nofuel
  | S fuel =>
    x <- rd id ;;
    if negb (t_escape x =? 0) && (t_ibx x <? NCIB - 1) then
      push ESC ;;;
      upd (fun x => set_t_escape (s16 (t_escape x - 1)) x) ;;;
      escapes fuel
    else kret tt
  end.
Definition escapes_fuel : nat := Z.to_nat (NCIB + 1).

(** The loop of [ttstash] over the line. *)
Fixpoint stash_line (l : list Z) : M (sys D) unit :=
  match l with
  | [] => kret tt
  | c :: l => putiq (Z.land c 127) ;;; stash_line l
  end.

Definition ttstash (c : Z) : M (sys D) unit :=
  x <- rd id ;;
  if (c =? 10) || (t_eofc (t_tchars x) =? c) || (t_brkc (t_tchars x) =? c) then
    l <- deref (aset (t_ib x) (t_ibx x) (s8 c)) ;;
    upd (set_t_ib l) ;;;
    stash_line (take (Z.to_nat (t_ibx x + 1)) l) ;;;
    upd (set_t_ibx 0) ;;;
    upd (set_t_escape 0) ;;;
    y <- rd id ;;
    (if flag T_INPUT y then clrf T_INPUT ;;; wakeup ChTtyIn else kret tt)
  else if t_ibx x <? NCIB - 1 then push c
  else kret tt.

Definition put3 (a b c : Z) : M (sys D) unit := putoq a ;;; putoq b ;;; putoq c ;;; kret tt.

(** The column at the end of the line being typed, for the erasure of a tab. *)
Fixpoint column (l : list Z) (n : Z) : Z :=
  match l with
  | [] => n
  | c :: l =>
    let n := if Z.land c 128 =? 0 then n else s16 (n + 1) in
    let c := if Z.land c 128 =? 0 then c else Z.land c 127 in
    column l (if c =? 8 then s16 (n - 1) else s16 ((if c =? 9 then Z.lor n 7 else n) + 1))
  end.

(** [while (n++ < tp->t_hpos) putq(&tp->t_oq, '\b')] *)
Fixpoint backspaces (k : nat) : M (sys D) unit :=
  match k with
  | O => kret tt
  | S k => putoq 8 ;;; backspaces k
  end.

(** What the echo of the erase character [c] is when [dc] is erased. *)
Definition erase_echo (c dc : Z) : M (sys D) unit :=
  x <- rd id ;;
  let marked :=
    (if Z.land dc 128 =? 0 then kret tt
     else
       (if Z.land dc 127 =? 8 then kret 0 else putoq 8) ;;;
       putoq 32 ;;;
       putoq 8 ;;;
       kret tt) ;;;
    ttstart in
  if negb (mode CRT x) then putoq c ;;; marked
  else
    let c := Z.land dc 127 in
    if (c =? 7) || (c =? 0) || (c =? 127) then kret tt
    else if negb (c =? 8) && negb (c =? 9) then put3 8 32 8 ;;; marked
    else if c =? 9 then
      backspaces (Z.to_nat (t_hpos x - column (take (Z.to_nat (t_ibx x)) (t_ib x)) (s16 (t_opos x + t_escape x)))) ;;;
      marked
    else marked.

Definition ttin_erase (c : Z) : M (sys D) unit :=
  escapes escapes_fuel ;;;
  x <- rd id ;;
  if t_ibx x =? 0 then kret tt
  else
    upd (set_t_ibx (t_ibx x - 1)) ;;;
    dc <- deref (aget (t_ib x) (t_ibx x - 1)) ;;
    if mode ECHO x then erase_echo c dc else kret tt.

Definition ttin_kill (c : Z) : M (sys D) unit :=
  upd (set_t_ibx 0) ;;;
  upd (set_t_escape 0) ;;;
  x <- rd id ;;
  if mode ECHO x then
    (if c <? 32 then putoq 94 ;;; putoq (c + 64) else putoq c) ;;;
    putoq 10 ;;;
    ttstart
  else kret tt.

(** While escapes are pending. *)
Definition ttin_escape (c : Z) : M (sys D) unit :=
  x <- rd id ;;
  if c =? ESC then upd (fun x => set_t_escape (s16 (t_escape x + 1)) x)
  else
    let quoted := (sg_erase (t_sgttyb x) =? c) || (sg_kill (t_sgttyb x) =? c) in
    (if quoted then upd (fun x => set_t_escape (s16 (t_escape x - 1)) x) else kret tt) ;;;
    escapes escapes_fuel ;;;
    ttstash (if quoted then Z.lor c 128 else c).

Definition ttin_escaped (c : Z) : M (sys D) unit :=
  ttin_escape c ;;;
  x <- rd id ;;
  if mode ECHO x then putoq (Z.land c 127) ;;; ttstart else kret tt.

(** The last part: a character that is not special. *)
Definition ttin_store (c : Z) : M (sys D) unit :=
  x <- rd id ;;
  (if ISBBYB x then
     putiq c ;;;
     (if flag T_INPUT x then clrf T_INPUT ;;; wakeup ChTtyIn else kret tt)
   else
     (if t_ibx x =? 0 then upd (fun x => set_t_opos (t_hpos x) x) else kret tt) ;;;
     (if c =? ESC then upd (fun x => set_t_escape (s16 (t_escape x + 1)) x) else ttstash c)) ;;;
  (if mode ECHO x && (mode RAWIN x || negb (t_eofc (t_tchars x) =? c)) then putoq c ;;; ttstart else kret tt) ;;;
  y <- rd id ;;
  let n := cq_cc (t_iq y) in
  if IHILIM <=? n then setf T_ISTOP
  else if mode TANDEM y && negb (flag T_TSTOP y) && (ITSLIM <=? n) then
    setf T_TSTOP ;;;
    putoq (t_stopc (t_tchars y)) ;;;
    ttstart
  else kret tt.

(** The characters that act at once; true when [c] was one. *)
Definition ttin_now (c : Z) : M (sys D) bool :=
  x <- rd id ;;
  let k := t_tchars x in
  if t_intrc k =? c then ttsignal SIGINT ;;; kret true
  else if t_quitc k =? c then ttsignal SIGQUIT ;;; kret true
  else if t_stopc k =? c then (if flag T_STOP x then kret tt else setf T_STOP) ;;; kret true
  else if t_startc k =? c then clrf T_STOP ;;; ttstart ;;; kret true
  else kret false.

Definition ttin (c : Z) : M (sys D) unit :=
  x <- rd id ;;
  let raw := mode RAWIN x in
  let c := if raw then c else Z.land c 127 in
  done <- (if raw then kret false else ttin_now c) ;;
  if (done : bool) then kret tt else
  x <- rd id ;;
  if flag T_ISTOP x then kret tt
  else if raw then ttin_store c
  else
    let c := if (c =? 13) && mode CRMOD x then 10 else c in
    if negb (t_escape x =? 0) then ttin_escaped c
    else if (sg_erase (t_sgttyb x) =? c) && negb (mode CBREAK x) then ttin_erase c
    else if (sg_kill (t_sgttyb x) =? c) && negb (mode CBREAK x) then ttin_kill c
    else ttin_store c.

(** ** Reading and writing *)

(** [ioputc(c, iop)] and [iogetc(iop)] (bio.c): the result, or -1. *)
Definition ioputc (c : Z) (io : IO) : M (sys D) (Z * IO) :=
  if io_ioc io =? 0 then kret (-1, io) else
  m <- gets umem ;;
  let a := io_base io in
  let io' := Io (io_seg io) (u16 (io_ioc io - 1)) (io_seek io) (a + 1) (io_phys io) in
  match m (io_seg io) a with
  | None => if io_seg io =? IOSYS then bad else error EFAULT ;;; kret (-1, io')
  | Some _ =>
    modify (set_umem (fun sp x => if (sp =? io_seg io) && (x =? a) then Some (u8 c) else m sp x)) ;;;
    e <- gets u_error ;;
    kret (if negb (io_seg io =? IOSYS) && negb (e =? 0) then -1 else c, io')
  end.
Definition iogetc (io : IO) : M (sys D) (Z * IO) :=
  if io_ioc io =? 0 then kret (-1, io) else
  m <- gets umem ;;
  let a := io_base io in
  let io' := Io (io_seg io) (u16 (io_ioc io - 1)) (io_seek io) (a + 1) (io_phys io) in
  match m (io_seg io) a with
  | None => if io_seg io =? IOSYS then bad else error EFAULT ;;; kret (-1, io')
  | Some b =>
    e <- gets u_error ;;
    kret (if negb (io_seg io =? IOSYS) && negb (e =? 0) then -1 else Z.land b 255, io')
  end.

(** [while (putq(&tp->t_oq, c) < 0) { ttstart(tp); waitq(); }] *)
Fixpoint putoq_wait (fuel : nat) (c : Z) : M (sys D) unit :=
  match fuel with
  | O => nofuel
  | S fuel =>
    r <- putoq c ;;
    if r <? 0 then ttstart ;;; pool_op (waitq retry) ;;; putoq_wait fuel c else kret tt
  end.

(** The inner loop of [ttread]: a character, or None for a return. *)
Fixpoint ttread_get (fuel : nat) (got : bool) : M (sys D) (option Z) :=
  match fuel with
  | O => nofuel
  | S fuel =>
    c <- getiq ;;
    if 0 <=? c then kret (Some c) else
    x <- rd id ;;
    if negb (flag T_CARR x) then error EIO ;;; intr ;;; kret None
    else if ISBBYB x && negb (flag T_BRD x) && got then intr ;;; kret None
    else
      setf T_INPUT ;;;
      sleep ChTtyIn ;;;
      ttread_get fuel got
  end.

(** Letting the input flow again. *)
Definition ttread_flow : M (sys D) unit :=
  x <- rd id ;;
  if cq_cc (t_iq x) <=? ILOLIM then
    (if flag T_ISTOP x then clrf T_ISTOP else kret tt) ;;;
    (if flag T_TSTOP x then
       clrf T_TSTOP ;;;
       putoq_wait retry (t_startc (t_tchars x)) ;;;
       ttstart
     else kret tt)
  else kret tt.

(** The outer loop; [n] characters are still wanted, of [sioc]. *)
Fixpoint ttread_loop (n : nat) (sioc : Z) (io : IO) : M (sys D) IO :=
  match n with
  | O => kret io
  | S n =>
    r <- ttread_get retry (io_ioc io <? sioc) ;;
    match r with
    | None => kret io
    | Some c =>
      ttread_flow ;;;
      intr ;;;
      x <- rd id ;;
      let k := t_tchars x in
      if negb (ISBBYB x) && (t_eofc k =? c) then kret io else
      r <- ioputc c io ;;
      if fst r <? 0 then kret (snd r) else
      y <- rd id ;;
      if negb (ISBBYB y) && ((c =? 10) || (t_brkc (t_tchars y) =? c)) then kret (snd r)
      else ttread_loop n sioc (snd r)
    end
  end.
Definition ttread (io : IO) : M (sys D) IO := ttread_loop (Z.to_nat (io_ioc io)) (io_ioc io) io.

(** The wait of [ttwrite] for room; false for a return. *)
Fixpoint ttwrite_room (fuel : nat) : M (sys D) bool :=
  match fuel with
  | O => nofuel
  | S fuel =>
    x <- rd id ;;
    if cq_cc (t_oq x) <? OHILIM then kret true else
    ttstart ;;;
    y <- rd id ;;
    if cq_cc (t_oq y) <? OHILIM then kret true else
    setf T_HILIM ;;;
    sleep ChTtyOut ;;;
    g <- gets hassig ;;
    if (g : bool) then error EINTR ;;; intr ;;; kret false else ttwrite_room fuel
  end.

Fixpoint ttwrite_loop (n : nat) (io : IO) : M (sys D) (IO * bool) :=
  r <- iogetc io ;;
  if fst r <? 0 then kret (snd r, true) else
  match n with
  | O => bad
  | S n =>
    x <- rd id ;;
    if negb (flag T_CARR x) then error EIO ;;; kret (snd r, false) else
    room <- ttwrite_room retry ;;
    if negb room then kret (snd r, false) else
    putoq_wait retry (fst r) ;;;
    intr ;;;
    ttwrite_loop n (snd r)
  end.
Definition ttwrite (io : IO) : M (sys D) IO :=
  r <- ttwrite_loop (Z.to_nat (io_ioc io)) io ;;
  (if snd r then ttstart ;;; intr else kret tt) ;;;
  kret (fst r).

(** ** Opening, closing, controlling *)

Definition DEF_SG : sgttyb :=
  Sg 16 16 8 64 (Z.lor EVENP (Z.lor ODDP (Z.lor CRMOD (Z.lor ECHO (Z.lor XTABS CRT))))).
Definition DEF_TC : tchars := Tc 3 28 17 19 4 (-1).

Definition ttopen : M (sys D) unit :=
  upd (fun x => set_t_escape 0 x) ;;;
  upd (set_t_sgttyb DEF_SG) ;;;
  upd (set_t_tchars DEF_TC) ;;;
  t_param.

Definition NODEV : Z := -1.
Definition ttsetgrp (ctdev : Z) : M (sys D) unit :=
  s <- get ;;
  match self s with
  | (pid, group, ttdev) =>
    group <- (if group =? 0 then
                (if t_group (tp s) =? 0 then upd (set_t_group pid) else kret tt) ;;;
                rd t_group
              else kret group) ;;
    modify (set_self (pid, group, if ttdev =? NODEV then ctdev else ttdev))
  end.

(** The wait for the output to go; [intrp] is what a signal does. *)
Fixpoint drain (fuel : nat) (after : M (sys D) unit) : M (sys D) unit :=
  match fuel with
  | O => nofuel
  | S fuel =>
    x <- rd id ;;
    if cq_cc (t_oq x) =? 0 then kret tt else
    setf T_DRAIN ;;;
    sleep ChTtyOut ;;;
    g <- gets hassig ;;
    if (g : bool) then after else drain fuel after
  end.

Definition ttclose : M (sys D) unit :=
  drain retry (kret tt) ;;;
  ttflush ;;;
  upd (fun x => set_t_flags 0 (set_t_group 0 x)).

Definition TIOCSETP : Z := 64.
Definition TIOCGETP : Z := 65.
Definition TIOCSETC : Z := 66.
Definition TIOCGETC : Z := 67.
Definition TIOCSETN : Z := 68.
Definition TIOCEXCL : Z := 69.
Definition TIOCNXCL : Z := 70.
Definition TIOCHPCL : Z := 71.
Definition TIOCFLUSH : Z := 72.
Definition TIOCCHPCL : Z := 73.
Definition TIOCGETTF : Z := 74.
Definition TIOCBREAD : Z := 75.
Definition TIOCCBREAD : Z := 76.
Definition TIOCQUERY : Z := 80.

(** The structures as bytes. *)
Definition int_out (z : Z) : list Z := [Z.shiftr (u16 z) 8; Z.land z 255].
Definition sg_out (g : sgttyb) : list Z :=
  [u8 (sg_ispeed g); u8 (sg_ospeed g); u8 (sg_erase g); u8 (sg_kill g)] ++ int_out (sg_flags g).
Definition tc_out (k : tchars) : list Z :=
  [u8 (t_intrc k); u8 (t_quitc k); u8 (t_startc k); u8 (t_stopc k); u8 (t_eofc k); u8 (t_brkc k)].
Definition byte (l : list Z) (i : nat) : Z := nth i l 0.
Definition sg_in (l : list Z) : sgttyb :=
  Sg (s8 (byte l 0)) (s8 (byte l 1)) (s8 (byte l 2)) (s8 (byte l 3)) (s16 (256 * byte l 4 + byte l 5)).
Definition tc_in (l : list Z) : tchars :=
  Tc (s8 (byte l 0)) (s8 (byte l 1)) (s8 (byte l 2)) (s8 (byte l 3)) (s8 (byte l 4)) (s8 (byte l 5)).

(** [kucopy] and [ukcopy]: as far as memory is there, then EFAULT. *)
Definition kucopy (bs : list Z) (vec : Z) : M (sys D) unit :=
  m <- gets umem ;;
  let k := length (take_mem (m IOUSR) vec (length bs)) in
  modify (set_umem (fun sp => if sp =? IOUSR then put_mem (m sp) vec (take k bs) else m sp)) ;;;
  if (k <? length bs)%nat then error EFAULT else kret tt.
Definition ukcopy (vec : Z) (old : list Z) : M (sys D) (list Z) :=
  m <- gets umem ;;
  let bs := take_mem (m IOUSR) vec (length old) in
  (if (length bs <? length old)%nat then error EFAULT else kret tt) ;;;
  kret (bs ++ drop (length bs) old).

(** The switch of [ttioctl]: whether to flush, to drain and to load the parameters. *)
Definition ttioctl_switch (com vec : Z) (super : bool) : M (sys D) (bool * bool * bool) :=
  x <- rd id ;;
  if com =? TIOCQUERY then kucopy (int_out (cq_cc (t_iq x))) vec ;;; kret (false, false, false)
  else if com =? TIOCGETP then kucopy (sg_out (t_sgttyb x)) vec ;;; kret (false, false, false)
  else if (com =? TIOCSETP) || (com =? TIOCSETN) then
    bs <- ukcopy vec (sg_out (t_sgttyb x)) ;;
    upd (set_t_sgttyb (sg_in bs)) ;;;
    kret (com =? TIOCSETP, com =? TIOCSETP, true)
  else if com =? TIOCGETC then kucopy (tc_out (t_tchars x)) vec ;;; kret (false, false, false)
  else if com =? TIOCSETC then
    bs <- ukcopy vec (tc_out (t_tchars x)) ;;
    upd (set_t_tchars (tc_in bs)) ;;;
    kret (false, true, true)
  else if com =? TIOCEXCL then setf T_EXCL ;;; kret (false, false, false)
  else if com =? TIOCNXCL then clrf T_EXCL ;;; kret (false, false, false)
  else if com =? TIOCHPCL then setf T_HPCL ;;; kret (false, false, false)
  else if com =? TIOCCHPCL then (if negb super then error EPERM else clrf T_HPCL) ;;; kret (false, false, false)
  else if com =? TIOCGETTF then kucopy (int_out (t_flags x)) vec ;;; kret (false, false, false)
  else if com =? TIOCFLUSH then kret (true, false, false)
  else if com =? TIOCBREAD then setf T_BRD ;;; kret (false, false, false)
  else if com =? TIOCCBREAD then clrf T_BRD ;;; kret (false, false, false)
  else error EINVAL ;;; kret (false, false, false).

(** [super] is what [super()] answers. *)
Definition ttioctl (com vec : Z) (super : bool) : M (sys D) unit :=
  todo <- ttioctl_switch com vec super ;;
  match todo with
  | (flush, dr, rload) =>
    (if (dr : bool) then
       x <- rd id ;;
       (if mode RAWIN x && flag T_STOP x then clrf T_STOP ;;; ttstart ;;; intr else kret tt) ;;;
       drain retry (error EINTR)
     else kret tt) ;;;
    (if (flush : bool) then ttflush else kret tt) ;;;
    (if (rload : bool) then t_param else kret tt)
  end.
End Discipline.
