(* ===== verification/Al.v ===== *)
(** The serial lines (kernel/z8001/drv/al.c): the driver of the Z8030 chips, one
    channel, under the terminal service. *)
From S2P Require Import Prelude Sched Clist Bytes Bcache Super Fs Tty.
Local Open Scope Z_scope.
Local Open Scope kernel_scope.

Definition NMINOR : Z := 6.
Definition MODEM_CTL : Z := 128.
Definition ENODEV : Z := 19.

(** Registers of the chip, as offsets from the port of the channel. *)
Definition WR0 : Z := 1.
Definition WR1 : Z := 3.
Definition WR3 : Z := 7.
Definition WR4 : Z := 9.
Definition WR5 : Z := 11.
Definition WR9 : Z := 19.
Definition WR10 : Z := 21.
Definition WR11 : Z := 23.
Definition WR12 : Z := 25.
Definition WR13 : Z := 27.
Definition WR14 : Z := 29.
Definition WR15 : Z := 31.

Definition ALMODE : Z := 76.
Definition RxPARAM : Z := 192.
Definition TxPARAM : Z := 96.
Definition NRZ : Z := 0.
Definition BRGINIT : Z := 86.
Definition DEFBAUD : Z := 16.
Definition BRGEN : Z := 3.
Definition RxEN : Z := Z.lor RxPARAM 1.
Definition TxEN : Z := Z.lor TxPARAM 8.
Definition RxENABLE : Z := 1.
Definition TxENABLE : Z := 8.
Definition RESEXTINT : Z := 16.
Definition PEVEN : Z := 3.
Definition PODD : Z := 1.
Definition PNONE : Z := 0.
Definition Rx8BPC : Z := 192.
Definition Rx7BPC : Z := 64.
Definition Tx8BPC : Z := 96.
Definition Tx7BPC : Z := 32.
Definition VIS : Z := 1.
Definition MIE : Z := 8.
Definition RESTxI : Z := 40.
Definition ERRESET : Z := 48.
Definition RESIUS : Z := 56.
Definition BREAK : Z := 128.
Definition CTS : Z := 32.
Definition DCD : Z := 8.
Definition DTR : Z := 128.
Definition RTS : Z := 2.
Definition BREAKIE : Z := 128.
Definition CTSIE : Z := 32.
Definition DCDIE : Z := 8.
Definition RxASCIE : Z := 16.
Definition TxIE : Z := 2.
Definition EXTIE : Z := 1.

(** What the chip will do and what was done to it: how many more characters the
    transmitter takes, the characters that have come in, the status registers 0
    (its modem bits) and 1, what was given to the transmitter and what was
    written to the control registers, both latest first; and [t_open] and [al_ercnt]. *)
Record AL := Al {
  al_tx : nat;
  al_rx : list Z;
  al_rr0 : Z;
  al_rr1 : Z;
  al_out : list Z;
  al_outb : list (Z * Z);
  t_open : Z;
  al_ercnt : Z
}.
Definition set_al_tx v x := Al v (al_rx x) (al_rr0 x) (al_rr1 x) (al_out x) (al_outb x) (t_open x) (al_ercnt x).
Definition set_al_rx v x := Al (al_tx x) v (al_rr0 x) (al_rr1 x) (al_out x) (al_outb x) (t_open x) (al_ercnt x).
Definition set_al_out v x := Al (al_tx x) (al_rx x) (al_rr0 x) (al_rr1 x) v (al_outb x) (t_open x) (al_ercnt x).
Definition set_al_outb v x := Al (al_tx x) (al_rx x) (al_rr0 x) (al_rr1 x) (al_out x) v (t_open x) (al_ercnt x).
Definition set_t_open v x := Al (al_tx x) (al_rx x) (al_rr0 x) (al_rr1 x) (al_out x) (al_outb x) v (al_ercnt x).
Definition set_al_ercnt v x := Al (al_tx x) (al_rx x) (al_rr0 x) (al_rr1 x) (al_out x) (al_outb x) (t_open x) v.

Definition al (f : AL -> AL) : M (sys AL) unit := modify (fun s => set_dv (f (dv s)) s).
Definition outb (r v : Z) : M (sys AL) unit := al (fun x => set_al_outb ((r, v) :: al_outb x) x).

(** [inb(b+RR8)]: the next character. *)
Definition inb_data : M (sys AL) Z :=
  d <- gets dv ;; al (set_al_rx (tl (al_rx d))) ;;; kret (hd 0 (al_rx d)).

Section Al.
(** [romconf.rom_ctype]: the kind of clock. *)
Variable rom_ctype : Z.
Variable retry : nat.

(** ** Speeds *)

Definition albaud : list Z :=
  [0; 50; 75; 110; 134; 150; 200; 300; 600; 1200; 1800; 2000; 2400; 3600; 4800; 7200; 9600; 19200; 0; 0].

(** [BAUD(x, y)]: [(int)(x / (y * 32L)) - 2L], stored in an int. *)
Definition BAUD (x y : Z) : Z := s16 (s16 (Z.quot x (y * 32)) - 2).
(** The table as [alload] leaves it. *)
Definition alload_baud (b : Z) : Z := if b =? 0 then 0 else BAUD (if rom_ctype =? 0 then 4000000 else 6000000) b.
Definition baud_of (speed : Z) : option Z := aget (map alload_baud albaud) speed.

(** [alinit], with the default speed that [alload] puts in. *)
Definition alinit : list (Z * Z) :=
  let d := alload_baud 9600 in
  [(WR4, ALMODE); (WR3, RxPARAM); (WR5, TxPARAM); (WR10, NRZ); (WR11, BRGINIT);
   (WR12, s8 (Z.land d 255)); (WR13, s8 (Z.shiftr d 8)); (WR14, BRGEN); (WR3, RxEN); (WR5, TxEN);
   (WR15, 0); (WR0, RESEXTINT); (WR0, RESEXTINT)].

(** The loop of [alload] over [alinit]. *)
Fixpoint alload_loop (l : list (Z * Z)) : M (sys AL) unit :=
  match l with
  | [] => kret tt
  | p :: l => outb (fst p) (snd p) ;;; alload_loop l
  end.
Definition alload_channel : M (sys AL) unit := alload_loop alinit.

Definition alparam : M (sys AL) unit :=
  g <- rd t_sgttyb ;;
  if negb (sg_ispeed g =? sg_ospeed g) then error ENODEV else
  baud <- deref (baud_of (sg_ispeed g)) ;;
  if baud =? 0 then error ENODEV
  else
    outb WR12 (Z.land baud 255) ;;;
    outb WR13 (Z.shiftr baud 8) ;;;
    let k := Z.land (sg_flags g) (Z.lor EVENP (Z.lor ODDP (Z.lor RAWIN RAWOUT))) in
    if k =? EVENP then
      outb WR3 (Z.lor Rx7BPC RxENABLE) ;;;
      outb WR5 (Z.lor Tx7BPC (Z.lor DTR (Z.lor RTS TxENABLE))) ;;;
      outb WR4 (Z.lor ALMODE PEVEN)
    else if k =? ODDP then
      outb WR3 (Z.lor Rx7BPC RxENABLE) ;;;
      outb WR5 (Z.lor Tx7BPC (Z.lor DTR (Z.lor RTS TxENABLE))) ;;;
      outb WR4 (Z.lor ALMODE PODD)
    else
      outb WR3 (Z.lor Rx8BPC RxENABLE) ;;;
      outb WR5 (Z.lor Tx8BPC (Z.lor DTR (Z.lor RTS TxENABLE))) ;;;
      outb WR4 (Z.lor ALMODE PNONE).

(** ** Output *)

(** [while (TxEMPTY && (c = ttout(tp)) >= 0) outb(b+WR8, c)] *)
Fixpoint alstart_loop (tx : nat) : M (sys AL) unit :=
  match tx with
  | O => kret tt
  | S tx =>
    c <- ttout ;;
    if c <? 0 then kret tt
    else al (fun x => set_al_out (c :: al_out x) (set_al_tx tx x)) ;;; alstart_loop tx
  end.
Definition alstart : M (sys AL) unit := d <- gets dv ;; alstart_loop (al_tx d).

#[export] Instance al_driver : TtyDriver AL := { t_start := alstart; t_param := alparam }.

(** ** Opening and closing *)

(** The wait for the modem. *)
Fixpoint alopen_wait (fuel : nat) : M (sys AL) unit :=
  match fuel with
  | O => nofuel
  | S fuel =>
    d <- gets dv ;;
    if Z.land (al_rr0 d) (Z.lor DCD CTS) =? 0 then sleep ChTtyOpen ;;; alopen_wait fuel else kret tt
  end.

Definition alopen_first : M (sys AL) unit :=
  outb WR3 RxEN ;;;
  outb WR5 (Z.lor TxEN (Z.lor RTS DTR)) ;;;
  outb WR9 (Z.lor MIE VIS) ;;;
  x <- rd id ;;
  (if flag T_MODC x then
     outb WR15 (Z.lor BREAKIE (Z.lor CTSIE DCDIE)) ;;;
     outb WR1 EXTIE ;;;
     alopen_wait retry
   else outb WR15 BREAKIE) ;;;
  ttopen ;;;
  setf T_CARR ;;;
  outb WR1 (Z.lor EXTIE (Z.lor TxIE RxASCIE)) ;;;
  intr.

(** [super] is what [super()] answers. *)
Definition alopen (dev : Z) (super : bool) : M (sys AL) unit :=
  let mn := Z.land dev 255 in
  if NMINOR <=? Z.land mn (Z.lnot MODEM_CTL) then error ENXIO else
  x <- rd id ;;
  if flag T_EXCL x && negb super then error ENODEV else
  (if negb (Z.land mn MODEM_CTL =? 0) then setf T_MODC else kret tt) ;;;
  d <- gets dv ;;
  (if t_open d =? 0 then alopen_first else kret tt) ;;;
  al (fun x => set_t_open (s16 (t_open x + 1)) x) ;;;
  ttsetgrp dev.

Definition alclose_last : M (sys AL) unit :=
  ttclose retry ;;;
  outb WR1 0 ;;;
  x <- rd id ;;
  outb WR5 (if flag T_HPCL x then TxEN else Z.lor TxEN (Z.lor RTS DTR)).
Definition alclose : M (sys AL) unit :=
  al (fun x => set_t_open (s16 (t_open x - 1)) x) ;;;
  d <- gets dv ;;
  (if t_open d =? 0 then alclose_last else kret tt) ;;;
  intr.

Definition alread (io : IO) : M (sys AL) IO := ttread retry io.
Definition alwrite (io : IO) : M (sys AL) IO := ttwrite retry io.
Definition alioctl (com vec : Z) (super : bool) : M (sys AL) unit := ttioctl retry com vec super ;;; intr.

(** ** Interrupts *)

Definition alSCintr : M (sys AL) unit :=
  d <- gets dv ;;
  (if negb (Z.land (al_rr1 d) 112 =? 0) then
     outb WR0 ERRESET ;;;
     inb_data ;;;
     al (fun x => set_al_ercnt (s16 (al_ercnt x + 1)) x)
   else kret tt) ;;;
  outb WR0 RESIUS.

Definition alESintr : M (sys AL) unit :=
  d <- gets dv ;;
  let what := al_rr0 d in
  outb WR0 RESEXTINT ;;;
  (if negb (Z.land what BREAK =? 0) then
     inb_data ;;;
     ttsignal SIGINT ;;;
     ttflush
   else
     x <- rd id ;;
     if flag T_MODC x then
       if negb (Z.land what (Z.lor DCD CTS) =? 0) then
         if t_open d =? 0 then wakeup ChTtyOpen else kret tt
       else if negb (t_open d =? 0) && flag T_CARR x then tthup
       else kret tt
     else kret tt) ;;;
  outb WR0 RESIUS.

Fixpoint alRxintr_loop (rx : list Z) : M (sys AL) unit :=
  match rx with
  | [] => kret tt
  | c :: rx =>
    al (set_al_rx rx) ;;;
    ttin c ;;;
    alRxintr_loop rx
  end.
Definition alRxintr : M (sys AL) unit :=
  d <- gets dv ;;
  alRxintr_loop (al_rx d) ;;;
  outb WR0 RESIUS.

Definition alTxintr : M (sys AL) unit :=
  d <- gets dv ;;
  match al_tx d with
  | O => kret tt
  | S _ => outb WR0 RESTxI ;;; ttstart
  end ;;;
  outb WR0 RESIUS.
End Al.
