(* ===== verification/TtyLaws.v ===== *)
(** The terminal service: output comes out expanded and in order, and input lines
    are what the editing characters say. *)
From S2P Require Import Prelude Sched Clist Bytes Bcache Super Fs Fmap Tty Al.
Local Open Scope Z_scope.
Local Open Scope kernel_scope.

Create HintDb outact.

Lemma s16_add a b : s16 (s16 a + b) = s16 (a + b).
Proof. destruct (wraps_decomp 16 a) as [k Hk]; [done|]. apply (wraps_eqm 16 _ _ k); [done|]. unfold s16. rewrite Hk. lia. Qed.

Lemma pool_swap st free a b qs : pool st free (a :: b :: qs) -> pool st free (b :: a :: qs).
Proof.
  intros [P1 P2 P3 P4]. assert (free ++ concat (map (fun x => snd (fst x)) (b :: a :: qs)) ≡ₚ
    free ++ concat (map (fun x => snd (fst x)) (a :: b :: qs))) as Hp.
  { simpl. apply Permutation_app_head. rewrite !app_assoc. apply Permutation_app_tail, Permutation_app_comm. }
  split; [done| |by rewrite Hp|by rewrite (Permutation_length Hp)].
  apply Forall_cons in P2 as [Ha P2]. apply Forall_cons in P2 as [Hb P2]. rewrite !Forall_cons. done.
Qed.

(** The blank fill of a tab: [~(h|~07)]. *)
Lemma fill_mod h : Z.lnot (Z.lor h (Z.lnot 7)) = 7 - h mod 8.
Proof.
  rewrite Z.lnot_lor, Z.lnot_involutive. change 7 with (Z.ones 3) at 1. rewrite Z.land_ones by done.
  change (2 ^ 3) with 8. unfold Z.lnot. pose proof (Z.mod_pos_bound h 8 ltac:(done)).
  symmetry. apply (Z.mod_unique_pos _ _ (- (h / 8) - 1)); [lia|]. rewrite (Z.div_mod h 8) at 1 by done. lia.
Qed.

(** ** What the queue still has to become on the line *)

Definition move (h c : Z) : Z :=
  if c =? 8 then (if h =? 0 then h else s16 (h - 1))
  else if c =? 13 then 0
  else if c =? 9 then s16 (Z.lor h 7 + 1)
  else if (32 <=? c) && (c <=? 126) then s16 (h + 1)
  else h.

(** The characters [l] on the line, from column [h]: new lines and tabs expanded. *)
Fixpoint expand (crmod xtabs : bool) (h : Z) (l : list Z) : list Z :=
  match l with
  | [] => []
  | c :: l =>
    let c := u8 c in
    if (c =? 10) && crmod then 13 :: 10 :: expand crmod xtabs 0 l
    else if (c =? 9) && xtabs then
      replicate (Z.to_nat (8 - h mod 8)) 32 ++ expand crmod xtabs (s16 (h + (8 - h mod 8))) l
    else c :: expand crmod xtabs (move h c) l
  end.

Section TtyLaws.
Context {D : Type}.
(** The queues of the other terminals, in the same pool. *)
Variable qs : list (cqueue * list Z * list Z).
Implicit Types (s : sys D) (free bi oq iq : list Z).

(** The state is whole; the output queue holds [oq], the input queue [iq] in the
    blocks [bi], and [free] are the free blocks of the pool. *)
Record ttyok s free bi oq iq : Prop := {
  ok_pool : exists bo, pool (cl s) free ((t_oq (tp s), bo, oq) :: (t_iq (tp s), bi, iq) :: qs);
  ok_ib : length (t_ib (tp s)) = 256%nat;
  ok_ibx : 0 <= t_ibx (tp s) < NCIB;
  ok_fill : 0 <= t_nfill (tp s) <= 7;
  ok_fillb : t_nfill (tp s) <> 0 -> t_fillb (tp s) = 32;
  ok_hpos : -32768 <= t_hpos (tp s) < 32768
}.

(** What [ttout] will give from here on. *)
Definition remaining s oq : list Z :=
  let x := tp s in
  replicate (Z.to_nat (t_nfill x)) 32 ++ (if flag T_INL x then [10] else []) ++
  if mode RAWOUT x then map u8 oq
  else expand (mode CRMOD x) (mode XTABS x) (s16 (t_hpos x + t_nfill x)) oq.

(** The flags that belong to output. *)
Definition T_OUT : Z := Z.lor T_INL (Z.lor T_DRAIN T_HILIM).

(** A step that concerns output only. *)
Record out_only s s' : Prop := {
  oo_iq : t_iq (tp s') = t_iq (tp s);
  oo_line : (t_ibx (tp s'), t_ib (tp s'), t_opos (tp s'), t_escape (tp s')) = (t_ibx (tp s), t_ib (tp s), t_opos (tp s), t_escape (tp s));
  oo_modes : (t_sgttyb (tp s'), t_tchars (tp s'), t_group (tp s')) = (t_sgttyb (tp s), t_tchars (tp s), t_group (tp s));
  oo_flags : forall k, 0 <= k -> Z.testbit T_OUT k = false -> Z.testbit (t_flags (tp s')) k = Z.testbit (t_flags (tp s)) k;
  oo_woken : forall ch, ch ∈ cl_woken (cl s) -> ch ∈ cl_woken (cl s');
  oo_rest : (umem s', procq s', sent s', self s', hassig s', u_error s') = (umem s, procq s, sent s, self s, hassig s, u_error s)
}.

Lemma out_only_refl s : out_only s s.
Proof. by constructor. Qed.
Lemma out_only_trans s1 s2 s3 : out_only s1 s2 -> out_only s2 s3 -> out_only s1 s3.
Proof.
  intros [A1 A2 A3 A4 A5 A6] [B1 B2 B3 B4 B5 B6]. constructor; try congruence.
  - intros k Hk Hb. by rewrite B4, A4.
  - auto.
Qed.

(** ** Flags *)

Lemma flag_bit k x : 0 <= k -> flag (2 ^ k) x = Z.testbit (t_flags x) k.
Proof.
  apply land_pow2.
Qed.

(** ** Queues *)

Definition oqset q st s : sys D := set_tp (set_t_oq q (tp s)) (set_cl st s).
Definition iqset q st s : sys D := set_tp (set_t_iq q (tp s)) (set_cl st s).

Lemma oqset_id s : oqset (t_oq (tp s)) (cl s) s = s.
Proof. by destruct s as [[] ]. Qed.
Lemma iqset_id s : iqset (t_iq (tp s)) (cl s) s = s.
Proof. by destruct s as [[] ]. Qed.

Lemma oqset_ok s free bi oq iq q st free' bo' oq' : ttyok s free bi oq iq ->
  pool st free' ((q, bo', oq') :: (t_iq (tp s), bi, iq) :: qs) -> ttyok (oqset q st s) free' bi oq' iq.
Proof. intros [_ H2 H3 H4 H5 H6] Hp. constructor; try done. by exists bo'. Qed.
Lemma oqset_out q st s : (forall ch, ch ∈ cl_woken (cl s) -> ch ∈ cl_woken st) -> out_only s (oqset q st s).
Proof. by constructor. Qed.

Lemma wp_putoq s free bi oq iq c Q : ttyok s free bi oq iq -> (free = [] -> Q (-1) s) ->
  (forall q st free', ttyok (oqset q st s) free' bi (oq ++ [u8 c]) iq -> cl_woken st = cl_woken (cl s) -> Q c (oqset q st s)) ->
  wp (putoq c) Q s.
Proof.
  intros Hok Hno Hyes. destruct (ok_pool _ _ _ _ _ Hok) as [bo Hp]. unfold wp, putoq, kbind, rd, gets, pool_op. simpl.
  destruct (putq_appends _ _ _ _ _ _ c Hp) as [(_ & Hf & E)|(q' & st & free' & bo' & E & Hp' & _ & _ & Hw)]; rewrite E; simpl.
  - specialize (Hno Hf). by rewrite <- (oqset_id s) in Hno.
  - apply (Hyes q' st free'); [|done]. by apply (oqset_ok s free bi oq iq) with bo'.
Qed.

Lemma wp_getoq s free bi oq iq Q : ttyok s free bi oq iq -> (oq = [] -> Q (-1) s) ->
  (forall c l q st free', oq = c :: l -> ttyok (oqset q st s) free' bi l iq -> (forall ch, ch ∈ cl_woken (cl s) -> ch ∈ cl_woken st) -> Q (u8 c) (oqset q st s)) -> wp getoq Q s.
Proof.
  intros Hok Hno Hyes. destruct (ok_pool _ _ _ _ _ Hok) as [bo Hp]. unfold wp, getoq, kbind, rd, gets, pool_op. simpl.
  destruct oq as [|c l].
  - destruct (getq_empty _ _ _ _ _ Hp) as (E & _). rewrite E. simpl. specialize (Hno eq_refl). by rewrite <- (oqset_id s) in Hno.
  - destruct (getq_pops _ _ _ _ _ _ _ Hp) as (q' & st & free' & bo' & E & Hp' & _ & Hst). rewrite E. simpl.
    apply (Hyes c l q' st free'); [done|by apply (oqset_ok s free bi (c :: l) iq) with bo'|].
    intros ch Hch. destruct Hst as [[_ ->]|(_ & _ & ->)]; [done|]. apply elem_of_app. by right.
Qed.

(** How many characters are sure to find room in the input queue. *)
Definition room s free bi iq : Z :=
  NCPCL * Z.of_nat (length free + length bi) - cq_ox (t_iq (tp s)) - Z.of_nat (length iq).

Lemma iqset_ok s free bi oq iq q st free' bo bi' iq' : ttyok s free bi oq iq ->
  pool st free' ((t_oq (tp s), bo, oq) :: (q, bi', iq') :: qs) -> ttyok (iqset q st s) free' bi' oq iq'.
Proof. intros [_ H2 H3 H4 H5 H6] Hp. constructor; try done. by exists bo. Qed.

Lemma wp_putiq s free bi oq iq c Q : ttyok s free bi oq iq -> (room s free bi iq <= 0 -> Q (-1) s) ->
  (forall q st free' bi', let s' := iqset q st s in ttyok s' free' bi' oq (iq ++ [u8 c]) -> cl_woken st = cl_woken (cl s) ->
     room s' free' bi' (iq ++ [u8 c]) = room s free bi iq - 1 -> Q c s') -> wp (putiq c) Q s.
Proof.
  intros Hok Hno Hyes. destruct (ok_pool _ _ _ _ _ Hok) as [bo Hp]. apply pool_swap in Hp.
  unfold wp, putiq, kbind, rd, gets, pool_op. simpl.
  destruct (putq_appends _ _ _ _ _ _ c Hp) as [(Hix & Hf & E)|(q' & st & free' & bi' & E & Hp' & Hperm & _ & Hw)]; rewrite E; simpl.
  - rewrite <- (iqset_id s) in Hno. apply Hno. unfold room. subst free. apply pool_head in Hp as (_ & Hq & _).
    destruct iq as [|c' iq].
    + pose proof (qrep_empty _ _ _ Hq) as ->. destruct (qrep_nil _ _ _ Hq) as (_ & ->). simpl. lia.
    + destruct (qrep_size _ _ _ _ Hq ltac:(done)) as (Hsz & Hlb & _). unfold ixe in Hsz. rewrite Hix in Hsz. change (Z.to_nat (if 0 =? 0 then NCPCL else 0)) with 252%nat in Hsz. rewrite iqset_id. unfold NCPCL in *. cbn [length] in *. lia.
  - apply (Hyes q' st free' bi'); [|done|].
    + apply pool_swap in Hp'. by apply (iqset_ok s free bi oq iq) with bo.
    + unfold room. simpl. rewrite (putq_ox _ _ _ _ _ _ E). apply Permutation_length in Hperm. rewrite !length_app in *. simpl. lia.
Qed.

Lemma wp_getiq s free bi oq iq Q : ttyok s free bi oq iq -> (iq = [] -> Q (-1) s) ->
  (forall c l q st free' bi', iq = c :: l -> ttyok (iqset q st s) free' bi' oq l -> Q (u8 c) (iqset q st s)) -> wp getiq Q s.
Proof.
  intros Hok Hno Hyes. destruct (ok_pool _ _ _ _ _ Hok) as [bo Hp]. apply pool_swap in Hp. unfold wp, getiq, kbind, rd, gets, pool_op. simpl.
  destruct iq as [|c l].
  - destruct (getq_empty _ _ _ _ _ Hp) as (E & _). rewrite E. simpl. specialize (Hno eq_refl). by rewrite <- (iqset_id s) in Hno.
  - destruct (getq_pops _ _ _ _ _ _ _ Hp) as (q' & st & free' & bi' & E & Hp' & _). rewrite E. simpl.
    apply (Hyes c l q' st free' bi'); [done|]. apply pool_swap in Hp'. by apply (iqset_ok s free bi oq (c :: l)) with bo.
Qed.

Lemma set_tp_id s : set_tp (tp s) s = s.
Proof. by destruct s. Qed.

(** ** Output *)

Lemma move_range h c : -32768 <= h < 32768 -> -32768 <= move h c < 32768.
Proof.
  intros Hh. unfold move. pose proof (s16_range (h - 1)). pose proof (s16_range (h + 1)). pose proof (s16_range (Z.lor h 7 + 1)).
  repeat case_match; lia.
Qed.

Lemma ttout_pos_eq c s :
  ttout_pos c s = Ret tt (if mode RAWOUT (tp s) then s else set_tp (set_t_hpos (move (t_hpos (tp s)) c) (tp s)) s).
Proof.
  assert (set_tp (set_t_hpos (t_hpos (tp s)) (tp s)) s = s) as E by (by destruct s as [[] ]).
  unfold ttout_pos, kbind, rd, gets, upd, modify, move, id. cbn [obind]. destruct (mode RAWOUT (tp s)); [done|].
  destruct (c =? 8); [destruct (t_hpos (tp s) =? 0); [by rewrite E|done]|].
  destruct (c =? 13); [done|]. destruct (c =? 9); [done|]. destruct (_ && _); [done|by rewrite E].
Qed.

(** A change of the terminal that leaves the queues and the line as they are. *)
Lemma ttyok_tp s free bi oq iq x : ttyok s free bi oq iq -> t_oq x = t_oq (tp s) -> t_iq x = t_iq (tp s) ->
  length (t_ib x) = 256%nat -> 0 <= t_ibx x < NCIB -> 0 <= t_nfill x <= 7 -> (t_nfill x <> 0 -> t_fillb x = 32) ->
  -32768 <= t_hpos x < 32768 -> ttyok (set_tp x s) free bi oq iq.
Proof. intros [[bo H1] _ _ _ _ _] E1 E2. constructor; try done. exists bo. simpl. by rewrite E1, E2. Qed.

Lemma flags_inl x : flag T_INL x = Z.testbit (t_flags x) 4.
Proof. by apply (flag_bit 4). Qed.

Lemma remaining_plain s oq : t_nfill (tp s) = 0 -> Z.testbit (t_flags (tp s)) 4 = false -> -32768 <= t_hpos (tp s) < 32768 ->
  remaining s oq = if mode RAWOUT (tp s) then map u8 oq else expand (mode CRMOD (tp s)) (mode XTABS (tp s)) (t_hpos (tp s)) oq.
Proof. intros E1 E2 Hh. unfold remaining. rewrite flags_inl, E1, E2, Z.add_0_r, s16_small by done. done. Qed.

Lemma mode_ext f x y : t_sgttyb x = t_sgttyb y -> mode f x = mode f y.
Proof. intros E. unfold mode. by rewrite E. Qed.

Lemma cooked_bbyb x : mode RAWIN x = false -> mode CBREAK x = false -> ISBBYB x = false.
Proof.
  unfold ISBBYB, mode. rewrite !negb_false_iff, !Z.eqb_eq, Z.land_lor_distr_r. intros -> ->. done.
Qed.

(** A flag of output, as a bit outside of [T_OUT]. *)
Lemma out_bit f k : f ∈ [T_INL; T_DRAIN; T_HILIM] -> Z.testbit T_OUT k = false -> Z.testbit f k = false.
Proof.
  unfold T_OUT. rewrite !Z.lor_spec, !orb_false_iff. intros Hf (H1 & H2 & H3).
  rewrite !elem_of_cons, elem_of_nil in Hf. by destruct Hf as [->|[->|[->|[]]]].
Qed.

Lemma out_only_flags s v : (forall k, 0 <= k -> Z.testbit T_OUT k = false -> Z.testbit v k = Z.testbit (t_flags (tp s)) k) ->
  out_only s (set_tp (set_t_flags v (tp s)) s).
Proof. by constructor. Qed.

(** [c] is the next character and [s'] the state before the position is counted. *)
Record next_char s oq iq bi c s' oq' : Prop := {
  nx_ok : exists free', ttyok s' free' bi oq' iq;
  nx_out : out_only s s';
  nx_dv : dv s' = dv s;
  nx_sg : t_sgttyb (tp s') = t_sgttyb (tp s);
  nx_hpos : t_hpos (tp s') = t_hpos (tp s);
  nx_c : 0 <= c;
  nx_rem : forall h e, -32768 <= h < 32768 -> h = (if mode RAWOUT (tp s) then t_hpos (tp s) else move (t_hpos (tp s)) c) ->
    remaining s (oq ++ e) = c :: remaining (set_tp (set_t_hpos h (tp s')) s') (oq' ++ e)
}.

Lemma wp_next_fill s free bi oq iq : ttyok s free bi oq iq -> t_nfill (tp s) <> 0 ->
  next_char s oq iq bi 32 (set_tp (set_t_nfill (s8 (t_nfill (tp s) - 1)) (tp s)) s) oq.
Proof.
  intros Hok En. pose proof Hok as [H1 H2 H3 H4 H5 H6]. rewrite s8_small by lia. split; try done.
  - exists free. apply (ttyok_tp s); try done; cbn; (lia || by intros _; apply H5).
  - intros h e Hr Hh. unfold remaining. cbn [tp set_tp t_nfill set_t_nfill set_t_hpos].
    replace (Z.to_nat (t_nfill (tp s))) with (S (Z.to_nat (t_nfill (tp s) - 1))) by lia. cbn [replicate app]. f_equal.
    change (mode RAWOUT (set_t_hpos h (set_t_nfill (t_nfill (tp s) - 1) (tp s)))) with (mode RAWOUT (tp s)). destruct (mode RAWOUT (tp s)); [done|].
    f_equal. f_equal. cbn. rewrite Hh. unfold move. cbn. rewrite s16_add.
    by replace (t_hpos (tp s) + 1 + (t_nfill (tp s) - 1)) with (t_hpos (tp s) + t_nfill (tp s)) by lia.
Qed.

Lemma wp_next_inl s free bi oq iq : ttyok s free bi oq iq -> t_nfill (tp s) = 0 -> Z.testbit (t_flags (tp s)) 4 = true ->
  next_char s oq iq bi 10 (set_tp (set_t_flags (Z.land (t_flags (tp s)) (Z.lnot T_INL)) (tp s)) s) oq.
Proof.
  intros Hok En Ei. pose proof Hok as [H1 H2 H3 H4 H5 H6]. split; try done.
  - exists free. by apply (ttyok_tp s).
  - apply out_only_flags. intros k Hk Hb. rewrite testbit_clear by done. rewrite (out_bit T_INL) by (done || set_solver). apply andb_true_r.
  - intros h e Hr Hh. assert (h = t_hpos (tp s)) as -> by (by destruct (mode RAWOUT (tp s))).
    rewrite (remaining_plain (set_tp _ _)); [|done| |done].
    + unfold remaining. rewrite flags_inl, Ei, En, Z.add_0_r, s16_small by done. done.
    + cbn [tp set_tp t_flags set_t_flags set_t_hpos]. rewrite testbit_clear by done. apply andb_false_r.
Qed.

(** A character taken from the queue: the state is [s1] then, and [s] was before. *)
Lemma wp_next_cook s s1 free bi c l iq (Q : Z -> sys D -> Prop) : ttyok s1 free bi l iq -> t_nfill (tp s) = 0 -> Z.testbit (t_flags (tp s)) 4 = false ->
  (exists q st, s1 = oqset q st s /\ forall ch, ch ∈ cl_woken (cl s) -> ch ∈ cl_woken st) ->
  (forall c' s', next_char s (c :: l) iq bi c' s' l -> Q c' s') -> wp (ttout_cook (u8 c)) Q s1.
Proof.
  intros Hok En Ei (q & st & Es & Hw) HQ. pose proof Hok as [H1 H2 H3 H4 H5 H6]. pose proof (u8_range c) as Hc.
  assert (out_only s s1) as Ho1 by (rewrite Es; by apply oqset_out).
  assert (t_nfill (tp s1) = t_nfill (tp s) /\ t_flags (tp s1) = t_flags (tp s) /\ t_hpos (tp s1) = t_hpos (tp s) /\
    t_sgttyb (tp s1) = t_sgttyb (tp s) /\ dv s1 = dv s) as (E1 & E2 & E3 & E4 & E5) by (by rewrite Es).
  assert (forall l, remaining s l = remaining s1 l) as Er by (by rewrite Es).
  unfold ttout_cook. apply wp_bind, wp_gets. unfold id.
  rewrite <- E2 in Ei. rewrite <- E1 in En. assert (forall e, remaining s ((c :: l) ++ e) = if mode RAWOUT (tp s1) then map u8 (c :: l ++ e) else expand (mode CRMOD (tp s1)) (mode XTABS (tp s1)) (t_hpos (tp s1)) (c :: l ++ e)) as Hrem.
  { intros e. rewrite Er. by apply remaining_plain. }
  cbn [map expand] in Hrem.
  destruct (mode RAWOUT (tp s1)) eqn:Eraw.
  { apply wp_ret, HQ. split; try done; [by exists free|lia|]. intros h e Hr Hh. rewrite Hrem, remaining_plain by done.
    rewrite (mode_ext RAWOUT _ (tp s1)) by done. by rewrite Eraw. }
  assert (forall x, t_sgttyb x = t_sgttyb (tp s1) -> mode RAWOUT x = false) as Hraw by (intros x E; by rewrite (mode_ext RAWOUT _ _ E)).
  rewrite E3 in Hrem.
  destruct ((u8 c =? 10) && mode CRMOD (tp s1)) eqn:Ec; [|destruct ((u8 c =? 9) && mode XTABS (tp s1)) eqn:Et].
  - apply wp_bind, wp_modify, wp_ret, HQ. split; try done.
    + exists free. by apply (ttyok_tp s1).
    + eapply out_only_trans; [done|]. apply out_only_flags. intros k Hk Hb. rewrite testbit_set, (out_bit T_INL) by (done || set_solver). apply orb_false_r.
    + intros h e Hr Hh. rewrite <- (mode_ext RAWOUT (tp s1) (tp s)), Eraw in Hh by done. rewrite Hrem. f_equal. unfold remaining. rewrite flags_inl.
      cbn [tp set_tp t_flags set_t_flags set_t_hpos t_nfill t_hpos]. rewrite testbit_set. change (Z.testbit T_INL 4) with true.
      rewrite orb_true_r, En, Z.add_0_r, s16_small by done. rewrite Hraw by done. by rewrite Hh.
  - apply wp_bind, wp_modify, wp_bind, wp_modify, wp_ret. rewrite fill_mod. cbn [tp set_tp].
    pose proof (Z.mod_pos_bound (t_hpos (tp s1)) 8 ltac:(done)) as Hm. rewrite s8_small by lia.
    apply HQ. split; try done.
    + exists free. apply (ttyok_tp s1); try done. cbn. lia.
    + by eapply out_only_trans.
    + intros h e Hr Hh. rewrite <- (mode_ext RAWOUT (tp s1) (tp s)), Eraw in Hh by done. rewrite Hrem, <- E3.
      replace (Z.to_nat (8 - t_hpos (tp s1) mod 8)) with (S (Z.to_nat (7 - t_hpos (tp s1) mod 8))) by lia. cbn [replicate app]. f_equal.
      unfold remaining. cbn [tp set_tp t_flags t_nfill set_t_nfill set_t_fillb set_t_hpos t_hpos]. rewrite flags_inl. cbn [t_flags set_t_hpos set_t_fillb set_t_nfill].
      rewrite Ei, Hraw by done. cbn [app]. f_equal. rewrite Hh. f_equal. unfold move. cbn. rewrite s16_add, E3. f_equal. lia.
  - apply wp_ret, HQ. split; try done; [by exists free|lia|]. intros h e Hr Hh. rewrite <- (mode_ext RAWOUT (tp s1) (tp s)), Eraw in Hh by done.
    rewrite Hrem, remaining_plain by done. rewrite Hraw by done. by rewrite Hh.
Qed.

Lemma wp_ttout_next s free bi oq iq Q : ttyok s free bi oq iq -> (remaining s oq = [] -> Q (-1) s) ->
  (forall c s' oq', next_char s oq iq bi c s' oq' -> Q c s') -> wp ttout_next Q s.
Proof.
  intros Hok Hno Hyes. pose proof Hok as [H1 H2 H3 H4 H5 H6]. unfold ttout_next. apply wp_bind, wp_gets. unfold id.
  destruct (Z.eqb_spec (t_nfill (tp s)) 0) as [En|En]; cbn [negb].
  2:{ apply wp_bind, wp_modify, wp_ret. rewrite (H5 En). eapply Hyes. by apply (wp_next_fill s free). }
  rewrite flags_inl. destruct (Z.testbit (t_flags (tp s)) 4) eqn:Ei.
  { apply wp_bind, wp_modify, wp_ret. eapply Hyes. by apply (wp_next_inl s free). }
  apply wp_bind, (wp_getoq s free bi oq iq); [done| |].
  - intros ->. apply wp_ret, Hno. rewrite remaining_plain by done. by destruct (mode RAWOUT (tp s)).
  - intros c l q st free' -> Hok' Hw. pose proof (u8_range c) as Hc. rewrite (proj2 (Z.ltb_ge (u8 c) 0)) by lia.
    apply (wp_next_cook s _ free' bi c l iq); [done..|by exists q, st|]. intros c' s'. apply Hyes.
Qed.

(** [ttout] gives the first of [remaining] and leaves the others. *)
Lemma wp_ttout s free bi oq iq Q : ttyok s free bi oq iq -> (remaining s oq = [] -> Q (-1) s) ->
  (forall c s' free' oq', 0 <= c -> ttyok s' free' bi oq' iq -> (forall e, remaining s (oq ++ e) = c :: remaining s' (oq' ++ e)) ->
     out_only s s' -> dv s' = dv s -> Q c s') -> wp ttout Q s.
Proof.
  intros Hok Hno Hyes. unfold ttout. apply wp_bind, (wp_ttout_next s free bi oq iq); [done|..].
  - intros E. rewrite (proj2 (Z.ltb_lt _ _)) by lia. by apply wp_ret, Hno.
  - intros c s1 oq' [[free' Hok1] Ho Hd Eg Eh Hc Hrem]. rewrite (proj2 (Z.ltb_ge c 0)) by done. unfold wp, kbind. rewrite ttout_pos_eq. cbn [obind kret].
    pose proof Hok1 as [H1 H2 H3 H4 H5 H6]. rewrite (mode_ext RAWOUT _ _ Eg), Eh. rewrite Eh in H6.
    set (h := if mode RAWOUT (tp s) then t_hpos (tp s) else move (t_hpos (tp s)) c) in *.
    assert (-32768 <= h < 32768) as Hr by (unfold h; destruct (mode RAWOUT (tp s)); [done|by apply move_range]).
    assert ((if mode RAWOUT (tp s) then s1 else set_tp (set_t_hpos (move (t_hpos (tp s)) c) (tp s1)) s1) = set_tp (set_t_hpos h (tp s1)) s1) as ->.
    { unfold h. destruct (mode RAWOUT (tp s)); [|done]. rewrite <- Eh. by destruct s1 as [[] ]. }
    eapply Hyes; [done|by apply (ttyok_tp s1)|intros e; by apply (Hrem h e)| |done].
    eapply out_only_trans; [done|]. by constructor.
Qed.
End TtyLaws.

(** ** Drivers *)

(** [dv_sent]: the characters given to the line, latest first. *)
Class TtyLine (D : Type) := { dv_sent : D -> list Z }.

Section Flow.
Context {D : Type} `{!TtyLine D}.
Variable qs : list (cqueue * list Z * list Z).
Implicit Types (s : sys D) (free bi oq iq e : list Z).

(** All that has gone and will go out on the line, if the queue holds [oq]. *)
Definition stream s oq : list Z := rev (dv_sent (dv s)) ++ remaining s oq.

(** From [s] to [s'] the characters [e] were put into the output queue, and
    some were sent. *)
Definition flows s oq s' oq' e : Prop := forall x, stream s (oq ++ e ++ x) = stream s' (oq' ++ x).

Lemma flows_refl s oq : flows s oq s oq [].
Proof. done. Qed.
Lemma flows_trans s1 oq1 e1 s2 oq2 e2 s3 oq3 : flows s1 oq1 s2 oq2 e1 -> flows s2 oq2 s3 oq3 e2 -> flows s1 oq1 s3 oq3 (e1 ++ e2).
Proof. intros H1 H2 x. by rewrite <- H2, <- app_assoc, H1. Qed.
Lemma flows_same s s' oq : (forall l, remaining s' l = remaining s l) -> dv s' = dv s -> flows s oq s' oq [].
Proof. intros H1 H2 x. unfold stream. by rewrite H1, H2. Qed.
Lemma flows_put s q st oq c : flows s oq (oqset q st s) (oq ++ [c]) [c].
Proof. intros x. by rewrite <- app_assoc. Qed.

(** A step of output: the input side stays as it is. *)
Record outputs s free bi oq iq s' free' oq' e : Prop := {
  op_ok : ttyok qs s' free' bi oq' iq;
  op_only : out_only s s';
  op_flow : flows s oq s' oq' e
}.
Definition outact {A} (m : M (sys D) A) : Prop := forall s free bi oq iq, ttyok qs s free bi oq iq ->
  wp m (fun _ s' => exists free' oq' e, outputs s free bi oq iq s' free' oq' e) s.
(** ... that puts nothing into the queue. *)
Definition silent {A} (m : M (sys D) A) : Prop := forall s free bi oq iq, ttyok qs s free bi oq iq ->
  wp m (fun _ s' => exists free' oq', outputs s free bi oq iq s' free' oq' []) s.

Lemma outputs_refl s free bi oq iq : ttyok qs s free bi oq iq -> outputs s free bi oq iq s free oq [].
Proof. intros Hok. split; [done|apply out_only_refl|apply flows_refl]. Qed.
Lemma outputs_trans s free bi oq iq s1 free1 oq1 e1 s2 free2 oq2 e2 : outputs s free bi oq iq s1 free1 oq1 e1 ->
  outputs s1 free1 bi oq1 iq s2 free2 oq2 e2 -> outputs s free bi oq iq s2 free2 oq2 (e1 ++ e2).
Proof. intros [A1 A2 A3] [B1 B2 B3]. split; [done|by eapply out_only_trans|by eapply flows_trans]. Qed.

Lemma silent_outact {A} (m : M (sys D) A) : silent m -> outact m.
Proof. intros Hm s free bi oq iq Hok. eapply wp_mono; [by apply Hm|]. intros _ s' (free' & oq' & H). by exists free', oq', []. Qed.

Lemma silent_ret {A} (a : A) : silent (kret a).
Proof. intros s free bi oq iq Hok. apply wp_ret. exists free, oq. by apply outputs_refl. Qed.
Lemma silent_bind {A B} (m : M (sys D) A) (f : A -> M (sys D) B) : silent m -> (forall a, silent (f a)) -> silent (kbind m f).
Proof.
  intros Hm Hf s free bi oq iq Hok. apply wp_bind. eapply wp_mono; [by eapply Hm|]. intros a s1 (free1 & oq1 & H1).
  eapply wp_mono; [eapply Hf, H1|]. intros b s2 (free2 & oq2 & H2). exists free2, oq2. change [] with ([] ++ [] : list Z). by eapply outputs_trans.
Qed.
Lemma silent_rd {A} (f : TTY -> A) : silent (rd f).
Proof. intros s free bi oq iq Hok. apply wp_gets. exists free, oq. by apply outputs_refl. Qed.
Lemma silent_if {A} (b : bool) (m1 m2 : M (sys D) A) : silent m1 -> silent m2 -> silent (if b then m1 else m2).
Proof. by destruct b. Qed.

(** Flags of output that no character depends on. *)
Lemma silent_flags (g : Z -> Z) : (forall v k, 0 <= k -> Z.testbit T_OUT k = false -> Z.testbit (g v) k = Z.testbit v k) ->
  (forall v, Z.testbit (g v) 4 = Z.testbit v 4) -> silent (upd (fun x => set_t_flags (g (t_flags x)) x)).
Proof.
  intros H1 H2 s free bi oq iq Hok. apply wp_modify. exists free, oq. pose proof Hok as [A1 A2 A3 A4 A5 A6]. split.
  - by apply (ttyok_tp qs s).
  - apply out_only_flags. auto.
  - apply flows_same; [|done]. intros l. unfold remaining. rewrite !flags_inl. cbn [tp set_tp t_flags set_t_flags]. by rewrite H2.
Qed.
Lemma silent_setf f : f ∈ [T_DRAIN; T_HILIM] -> silent (setf f).
Proof.
  intros Hf. apply (silent_flags (fun v => Z.lor v f)).
  - intros v k Hk Hb. rewrite testbit_set, (out_bit f) by (set_solver || done). apply orb_false_r.
  - intros v. rewrite testbit_set. rewrite !elem_of_cons, elem_of_nil in Hf. destruct Hf as [->|[->|[]]]; apply orb_false_r.
Qed.
Lemma silent_clrf f : f ∈ [T_DRAIN; T_HILIM] -> silent (clrf f).
Proof.
  intros Hf. apply (silent_flags (fun v => Z.land v (Z.lnot f))).
  - intros v k Hk Hb. rewrite testbit_clear, (out_bit f) by (set_solver || done). apply andb_true_r.
  - intros v. rewrite testbit_clear by done. rewrite !elem_of_cons, elem_of_nil in Hf. destruct Hf as [->|[->|[]]]; apply andb_true_r.
Qed.
Lemma silent_wakeup ch : silent (wakeup ch).
Proof.
  intros s free bi oq iq Hok. apply wp_modify. exists free, oq. pose proof Hok as [[bo H1] H2 H3 H4 H5 H6]. split; [|constructor; try done; by right|done].
  constructor; try done. exists bo. by destruct H1.
Qed.

Lemma outact_ret {A} (a : A) : outact (kret a).
Proof. apply silent_outact, silent_ret. Qed.
Lemma outact_rd {A} (f : TTY -> A) : outact (rd f).
Proof. apply silent_outact, silent_rd. Qed.
Lemma outact_wakeup ch : outact (wakeup ch).
Proof. apply silent_outact, silent_wakeup. Qed.
Lemma outact_bind {A B} (m : M (sys D) A) (f : A -> M (sys D) B) : outact m -> (forall a, outact (f a)) -> outact (kbind m f).
Proof.
  intros Hm Hf s free bi oq iq Hok. apply wp_bind. eapply wp_mono; [by eapply Hm|]. intros a s1 (free1 & oq1 & e1 & H1).
  eapply wp_mono; [eapply Hf, H1|]. intros b s2 (free2 & oq2 & e2 & H2). exists free2, oq2, (e1 ++ e2). by eapply outputs_trans.
Qed.
Lemma outact_if {A} (b : bool) (m1 m2 : M (sys D) A) : outact m1 -> outact m2 -> outact (if b then m1 else m2).
Proof. by destruct b. Qed.
Lemma outact_putoq c : outact (putoq c).
Proof.
  intros s free bi oq iq Hok. apply (wp_putoq qs s free bi oq iq); [done| |].
  - intros _. exists free, oq, []. by apply outputs_refl.
  - intros q st free' Hok' Hw. exists free', (oq ++ [u8 c]), [u8 c]. split; [done|apply oqset_out; by rewrite Hw|apply flows_put].
Qed.
Lemma outact_backspaces k : outact (backspaces k).
Proof. induction k as [|k IH]; [apply outact_ret|]. apply outact_bind; [apply outact_putoq|done]. Qed.
End Flow.

(** What the start function of a driver may do: give characters to the line. *)
Class TtyDriverLaws (D : Type) `{!TtyDriver D, !TtyLine D} := {
  t_start_law qs s free bi oq iq : ttyok qs s free bi oq iq ->
    wp t_start (fun _ s' => exists free' oq', outputs qs s free bi oq iq s' free' oq' []) s
}.

Section Start.
Context {D : Type} `{!TtyDriver D, !TtyLine D, !TtyDriverLaws D}.
Variable qs : list (cqueue * list Z * list Z).

Lemma silent_ttstart : silent qs (ttstart (D := D)).
Proof.
  apply silent_bind; [apply silent_rd|]. intros x. apply silent_if; [apply silent_ret|]. apply silent_if.
  - apply silent_bind; [apply silent_clrf; set_solver|]. intros _. apply silent_wakeup.
  - apply silent_bind; [intros s free bi oq iq; apply t_start_law|]. intros _. apply silent_bind; [apply silent_rd|]. intros y.
    apply silent_if; [|apply silent_ret]. apply silent_bind; [apply silent_clrf; set_solver|]. intros _. apply silent_wakeup.
Qed.
Lemma outact_ttstart : outact qs (ttstart (D := D)).
Proof. apply silent_outact, silent_ttstart. Qed.
End Start.

#[export] Hint Resolve outact_ret outact_rd outact_putoq outact_backspaces outact_wakeup outact_ttstart : outact.
#[export] Hint Resolve outact_bind outact_if : outact.

(** The serial lines keep the law. *)
#[export] Instance al_line : TtyLine AL := { dv_sent := al_out }.

Section AlLaws.
Variable rom_ctype : Z.

Lemma wp_alstart_loop qs tx s free bi oq iq : ttyok qs s free bi oq iq ->
  wp (alstart_loop tx) (fun _ s' => exists free' oq', outputs qs s free bi oq iq s' free' oq' []) s.
Proof.
  revert s free oq. induction tx as [|tx IH]; intros s free oq Hok; cbn [alstart_loop].
  { apply wp_ret. exists free, oq. by apply outputs_refl. }
  apply wp_bind, (wp_ttout qs s free bi oq iq); [done| |].
  - intros _. rewrite (proj2 (Z.ltb_lt _ _)) by lia. apply wp_ret. exists free, oq. by apply outputs_refl.
  - intros c s1 free1 oq1 Hc Hok1 Hrem Ho Hd. rewrite (proj2 (Z.ltb_ge c 0)) by done. apply wp_bind, wp_modify.
    set (s2 := set_dv _ s1). assert (outputs qs s free bi oq iq s2 free1 oq1 []) as H12.
    { split; [by destruct Hok1; constructor| |].
      - destruct Ho. by constructor.
      - intros x. unfold stream. cbn [app]. rewrite Hrem. cbn. rewrite Hd, <- app_assoc. done. }
    eapply wp_mono; [apply (IH s2 free1 oq1), H12|]. intros _ s3 (free3 & oq3 & H23). exists free3, oq3.
    change [] with ([] ++ [] : list Z). by eapply outputs_trans.
Qed.

#[export] Instance al_laws : @TtyDriverLaws AL (al_driver rom_ctype) al_line.
Proof.
  constructor. intros qs s free bi oq iq Hok. apply wp_bind, wp_gets. by apply wp_alstart_loop.
Qed.
End AlLaws.

(** ** A terminal *)
Module Terminal.
(** A pool of four blocks: one holds four characters of output, three are free. *)
Definition pool_of (l : list Z) : clstate :=
  {| cl_mem := list_to_map [(256, {| cl_fp := 0; cl_ch := l ++ repeat 0 (252 - length l) |});
       (512, {| cl_fp := 768; cl_ch := repeat 0 252 |}); (768, {| cl_fp := 1024; cl_ch := repeat 0 252 |});
       (1024, {| cl_fp := 0; cl_ch := repeat 0 252 |})];
     cltfree := 512; cltwant := 0; cl_woken := [] |}.
Definition queued : list Z := [97; 9; 98; 10].
Definition tty : TTY :=
  Tty {| cq_cc := 4; cq_ip := 256; cq_ix := 4; cq_op := 256; cq_ox := 0 |} cq_zero T_CARR 0 32 0 (repeat 0 256) 0 0 DEF_SG DEF_TC 1 0.
Definition mem (sp a : Z) : option Z := if (0 <=? a) && (a <? 4096) then Some (97 + a mod 16) else None.
Definition on {D} (d : D) : sys D := Sys tty (pool_of queued) d 0 mem [(7, 1)] [] (7, 1, -1) false.
Definition state : sys AL := on (Al 12 [] 0 0 [] [] 1 0).

Lemma terminal_ok {D} (d : D) : ttyok [] (on d) [512; 768; 1024] [] queued [].
Proof.
  constructor; try done. exists [256]. constructor.
  - do 3 (split; [done|]; split; [done|]; eexists; split; [by vm_compute|]; split; [done|]). done.
  - repeat constructor; try done. eexists. split; [by vm_compute|done].
  - apply (bool_decide_eq_true_1 _). by vm_compute.
  - by vm_compute.
Qed.

(** A line that remembers what has come in on it, latest first. *)
Definition memory_driver : TtyDriver (list Z) := {| t_start := kret tt; t_param := kret tt |}.
End Terminal.
