(* ===== verification/AlLaws.v ===== *)
(** The serial lines: changes of the line status, and the last close. *)
From S2P Require Import Prelude Sched Clist Bytes Bcache Super Fs Tty Al TtyLaws.
Local Open Scope Z_scope.
Local Open Scope kernel_scope.

Section Flush.
Context {D : Type}.
Variable qs : list (cqueue * list Z * list Z).
Implicit Types (s : sys D) (free bi oq iq : list Z).

(** The blocks of the output queue. *)
Definition blocks_of s free bi oq iq bo : Prop :=
  pool (cl s) free ((t_oq (tp s), bo, oq) :: (t_iq (tp s), bi, iq) :: qs).

(** [s'] is [s] flushed: both queues are empty and their blocks are free, there is no line, the flags
    that are not kept are off, and who waits is woken. *)
Record flushed (flags : Z) s bo free bi s' : Prop := {
  fl_ok : exists free', ttyok qs s' free' [] [] [] /\ free' ≡ₚ free ++ bi ++ bo;
  fl_line : t_ibx (tp s') = 0 /\ t_escape (tp s') = 0;
  fl_flags : t_flags (tp s') = Z.land flags T_SAVE;
  fl_woken : ChTtyIn ∈ cl_woken (cl s') /\ ChTtyOut ∈ cl_woken (cl s');
  fl_dv : dv s' = dv s;
  fl_rest : (t_sgttyb (tp s'), t_tchars (tp s'), t_group (tp s')) = (t_sgttyb (tp s), t_tchars (tp s), t_group (tp s)) /\
    (umem s', procq s', self s', hassig s', u_error s') = (umem s, procq s, self s, hassig s, u_error s)
}.

Lemma pool_fuel st free q bs l rest : pool st free ((q, bs, l) :: rest) -> (length l < S (Z.to_nat (cq_cc q)))%nat.
Proof. intros Hp. apply pool_head in Hp as (_ & (_ & Hc & _) & _). rewrite Hc. lia. Qed.

Lemma wp_clriq s free bi oq iq bo Q : ttyok qs s free bi oq iq -> blocks_of s free bi oq iq bo ->
  (forall st free', free' ≡ₚ free ++ bi -> ttyok qs (iqset cq_zero st s) free' [] oq [] -> blocks_of (iqset cq_zero st s) free' [] oq [] bo -> Q tt (iqset cq_zero st s)) ->
  wp clriq Q s.
Proof.
  intros Hok Hp HQ. unfold blocks_of in Hp. apply pool_swap in Hp. unfold wp, clriq, kbind, rd, gets, pool_op. simpl.
  destruct (clrq_frees _ _ _ _ _ _ _ Hp (pool_fuel _ _ _ _ _ _ Hp)) as (st & free' & E & Hp' & Hperm). simpl in E. rewrite E. simpl.
  apply pool_swap in Hp'. apply (HQ st free'); [done| |done]. by apply (iqset_ok qs s free bi oq iq) with bo.
Qed.
Lemma wp_clroq s free bi oq iq bo Q : ttyok qs s free bi oq iq -> blocks_of s free bi oq iq bo ->
  (forall st free', free' ≡ₚ free ++ bo -> ttyok qs (oqset cq_zero st s) free' bi [] iq -> Q tt (oqset cq_zero st s)) ->
  wp clroq Q s.
Proof.
  intros Hok Hp HQ. unfold blocks_of in Hp. unfold wp, clroq, kbind, rd, gets, pool_op. simpl.
  destruct (clrq_frees _ _ _ _ _ _ _ Hp (pool_fuel _ _ _ _ _ _ Hp)) as (st & free' & E & Hp' & Hperm). simpl in E. rewrite E. simpl.
  apply (HQ st free'); [done|]. by apply (oqset_ok qs s free bi oq iq) with [].
Qed.

Lemma wp_ttflush s free bi oq iq bo : ttyok qs s free bi oq iq -> blocks_of s free bi oq iq bo ->
  wp ttflush (fun _ s' => flushed (t_flags (tp s)) s bo free bi s' /\ sent s' = sent s) s.
Proof.
  intros Hok Hp. apply wp_bind, (wp_clriq s free bi oq iq bo); [done|done|]. intros st1 free1 P1 Hok1 Hp1.
  apply wp_bind, (wp_clroq _ free1 [] oq [] bo); [done|done|]. intros st2 free2 P2 Hok2.
  do 4 apply wp_bind, wp_modify. apply wp_modify. split; [|done]. pose proof Hok2 as [[bo2 [Q1 Q2 Q3 Q4] ] H2 H3 H4 H5 H6]. split; try done.
  - exists free2. split; [constructor; try done; by exists bo2|]. by rewrite P2, P1, <- app_assoc.
  - split; [right; by left|by left].
Qed.

(** Sending a signal to the processes of a group. *)
Definition group_of s (g : Z) : list Z := map fst (filter (fun p : Z * Z => snd p = g) (procq s)).

Lemma signals_sent (sig g : Z) (l acc : list (Z * Z)) : foldl (fun l p => if snd p =? g then (sig, fst p) :: l else l) acc l =
  rev (map (fun p => (sig, p)) (map fst (filter (fun p : Z * Z => snd p = g) l))) ++ acc.
Proof.
  revert acc. induction l as [|[p g'] l IH]; intros acc; [done|]. cbn [foldl fst snd]. rewrite IH. destruct (Z.eqb_spec g' g) as [E|E].
  - rewrite filter_cons_True by done. cbn. by rewrite <- app_assoc.
  - by rewrite filter_cons_False.
Qed.

(** The signal [sig] for the group of the terminal, if it has one. *)
Definition signals s (sig : Z) : list (Z * Z) :=
  if t_group (tp s) =? 0 then [] else rev (map (fun p => (sig, p)) (group_of s (t_group (tp s)))).

(** [ttsignal] does nothing to a terminal without a group. *)
Lemma wp_ttsignal sig s free bi oq iq bo : ttyok qs s free bi oq iq -> blocks_of s free bi oq iq bo ->
  wp (ttsignal sig) (fun _ s' => (if t_group (tp s) =? 0 then s' = s else flushed (t_flags (tp s)) s bo free bi s') /\
    sent s' = signals s sig ++ sent s) s.
Proof.
  intros Hok Hp. unfold ttsignal, signals. apply wp_bind, wp_gets. destruct (t_group (tp s) =? 0); [by apply wp_ret|].
  apply wp_bind. eapply wp_mono; [by apply (wp_ttflush s free bi oq iq bo)|]. intros u s1 [[[free' [F1 F1p] ] F2 F3 F4 F5 [F6 F7] ] Es]. apply wp_modify.
  injection F7 as G1 G2 G3 G4 G5. split; [split; try done|].
  - exists free'. split; [|done]. by destruct F1; constructor.
  - split; [done|]. cbn. congruence.
  - cbn. rewrite signals_sent, Es, G2. done.
Qed.

(** A queue that has been flushed is flushed again, and a signal sent. *)
Lemma flushed_pool s s1 flags bo free bi : flushed flags s bo free bi s1 ->
  exists free', ttyok qs s1 free' [] [] [] /\ free' ≡ₚ free ++ bi ++ bo /\ blocks_of s1 free' [] [] [] [].
Proof.
  intros [[free' [Hok Hperm] ] _ _ _ _ _]. exists free'. split; [done|]. split; [done|]. destruct (ok_pool _ _ _ _ _ _ Hok) as [bo1 Hp].
  assert (bo1 = []) as -> by (apply pool_head in Hp as (_ & Hq & _); by apply qrep_empty in Hq). exact Hp.
Qed.
Lemma flushed_trans s s1 s2 flags bo free bi free' : flushed flags s bo free bi s1 -> flushed (t_flags (tp s1)) s1 [] free' [] s2 ->
  free' ≡ₚ free ++ bi ++ bo -> flushed flags s bo free bi s2.
Proof.
  intros [_ _ A3 _ A5 [A6 A7] ] [[free2 [B1 B1p] ] B2 B3 B4 B5 [B6 B7] ] Hperm. split; try done.
  - exists free2. split; [done|]. by rewrite B1p, !app_nil_r.
  - by rewrite B3, A3, <- Z.land_assoc, Z.land_diag.
  - congruence.
  - split; congruence.
Qed.

Lemma wp_flush_flushed s s1 flags bo free bi : flushed flags s bo free bi s1 ->
  wp ttflush (fun _ s2 => flushed flags s bo free bi s2 /\ sent s2 = sent s1) s1.
Proof.
  intros Hf. destruct (flushed_pool _ _ _ _ _ _ Hf) as (free' & Hok & Hperm & Hp).
  eapply wp_mono; [by apply (wp_ttflush s1 free' [] [] [] [])|]. intros _ s2 [H1 H2]. split; [by eapply flushed_trans|done].
Qed.
Lemma wp_signal_flushed sig s s1 flags bo free bi : flushed flags s bo free bi s1 ->
  wp (ttsignal sig) (fun _ s2 => flushed flags s bo free bi s2 /\ sent s2 = signals s sig ++ sent s1) s1.
Proof.
  intros Hf. destruct (flushed_pool _ _ _ _ _ _ Hf) as (free' & Hok & Hperm & Hp). pose proof Hf as [_ _ _ _ _ [A6 A7] ].
  injection A6 as E1 E2 E3. injection A7 as G1 G2 G3 G4 G5.
  eapply wp_mono; [by apply (wp_ttsignal sig s1 free' [] [] [] [])|]. intros _ s2 [H1 H2].
  split; [|rewrite H2; unfold signals, group_of; by rewrite E3, G2].
  destruct (t_group (tp s1) =? 0); [by subst|by eapply flushed_trans].
Qed.

(** A signal, and a flush for the terminal that has no group. *)
Lemma wp_signal_flush sig s free bi oq iq bo : ttyok qs s free bi oq iq -> blocks_of s free bi oq iq bo ->
  wp (ttsignal sig ;;; ttflush) (fun _ s' => flushed (t_flags (tp s)) s bo free bi s' /\ sent s' = signals s sig ++ sent s) s.
Proof.
  intros Hok Hp. apply wp_bind. eapply wp_mono; [by apply (wp_ttsignal sig s free bi oq iq bo)|].
  intros _ s1 [Hf <-]. destruct (t_group (tp s) =? 0); [subst s1; by eapply wp_ttflush|by apply wp_flush_flushed].
Qed.

(** [tthup]: the carrier is gone, everything is flushed, and the group is told. *)
Lemma wp_tthup s free bi oq iq bo : ttyok qs s free bi oq iq -> blocks_of s free bi oq iq bo ->
  wp tthup (fun _ s' => flushed (Z.land (t_flags (tp s)) (Z.lnot T_CARR)) s bo free bi s' /\
    sent s' = signals s SIGHUP ++ sent s) s.
Proof.
  intros Hok Hp. apply wp_bind, wp_modify. set (s1 := set_tp _ s).
  assert (ttyok qs s1 free bi oq iq) as Hok1 by (pose proof Hok as [H1 H2 H3 H4 H5 H6]; by apply (ttyok_tp qs s)).
  apply wp_bind. eapply wp_mono; [by apply (wp_ttflush s1 free bi oq iq bo)|]. intros u s2 [Hf Es].
  eapply wp_mono; [by apply (wp_signal_flushed SIGHUP s1 s2 _ bo free bi Hf)|]. intros u' s3 [[F1 F2 F3 F4 F5 F6] Es3].
  split; [by split|]. rewrite Es3, Es. done.
Qed.
End Flush.

Section Lines.
Variable rom_ctype : Z.
Variable qs : list (cqueue * list Z * list Z).
Implicit Types (s : sys AL) (free bi oq iq : list Z).

Lemma ttyok_dv s d free bi oq iq : ttyok qs s free bi oq iq -> ttyok qs (set_dv d s) free bi oq iq.
Proof. by intros []. Qed.

Lemma flushed_dv f s bo free bi s' d : flushed qs f s bo free bi s' -> flushed qs f (set_dv d s) bo free bi (set_dv d s').
Proof.
  intros [[free' [A1 A1p] ] A2 A3 A4 A5 [A6 A7] ]. split; try done. exists free'. split; [by apply ttyok_dv|done].
Qed.

(** What [alESintr] finds. *)
Definition broken s : bool := negb (Z.land (al_rr0 (dv s)) BREAK =? 0).
Definition modem s : bool := negb (Z.land (al_rr0 (dv s)) (Z.lor DCD CTS) =? 0).
(** The line once the interrupt has been acknowledged; nothing else is written to it. *)
Definition acked (d : AL) : AL := set_al_outb ((WR0, RESIUS) :: (WR0, RESEXTINT) :: al_outb d) d.

(** C35: On a change of the line status [alESintr] does what its cases say, in any state.
    A break takes one character off the receiver, flushes both queues, gives their blocks
    back to the pool, wakes readers and writers, and sends SIGINT to every process of the
    terminal's group, once; a terminal without a group is flushed all the same and nobody
    is told.  With modem control, a carrier that is lost while the line is open is taken
    off, with the same flush, and SIGHUP for the group.  Otherwise the state is the one
    before, but that with modem control a carrier wakes who waits in [alopen] for a line
    that is not open.  The device keeps its received characters in the last two cases,
    its open count and transmitter in all, and is sent the two resets. *)
Theorem alESintr_correct s free bi oq iq bo : ttyok qs s free bi oq iq -> blocks_of qs s free bi oq iq bo ->
  wp alESintr (fun _ s' =>
    if broken s then
      let d' := acked (set_al_rx (tl (al_rx (dv s))) (dv s)) in
      dv s' = d' /\ flushed qs (t_flags (tp s)) (set_dv d' s) bo free bi s' /\ sent s' = signals s SIGINT ++ sent s
    else if flag T_MODC (tp s) && negb (modem s) && negb (t_open (dv s) =? 0) && flag T_CARR (tp s) then
      dv s' = acked (dv s) /\ flushed qs (Z.land (t_flags (tp s)) (Z.lnot T_CARR)) (set_dv (acked (dv s)) s) bo free bi s' /\
      flag T_CARR (tp s') = false /\ sent s' = signals s SIGHUP ++ sent s
    else ttyok qs s' free bi oq iq /\
      s' = set_dv (acked (dv s)) (if flag T_MODC (tp s) && modem s && (t_open (dv s) =? 0)
        then set_cl (cl_wakeup ChTtyOpen (cl s)) s else s)) s.
Proof.
  intros Hok Hp. unfold alESintr. apply wp_bind, wp_gets. cbv zeta. apply wp_bind, wp_modify. set (s1 := set_dv (set_al_outb ((WR0, RESEXTINT) :: al_outb (dv s)) (dv s)) s).
  assert (ttyok qs s1 free bi oq iq) as Hok1 by (by apply ttyok_dv). apply wp_bind. unfold broken. destruct (negb (Z.land (al_rr0 (dv s)) BREAK =? 0)).
  - apply wp_bind, wp_bind, wp_gets, wp_bind, wp_modify, wp_ret. set (s2 := set_dv (set_al_rx (tl (al_rx (dv s1))) (dv s1)) s1).
    eapply wp_mono; [by apply (wp_signal_flush qs SIGINT s2 free bi oq iq bo); [apply ttyok_dv|]|]. intros u s3 [Hf Es]. apply wp_modify.
    pose proof Hf as [_ _ _ _ F5 _]. assert (Hd : dv (set_dv (set_al_outb ((WR0, RESIUS) :: al_outb (dv s3)) (dv s3)) s3) =
      acked (set_al_rx (tl (al_rx (dv s))) (dv s))) by (cbn; by rewrite F5).
    split; [exact Hd|]. rewrite <- Hd. split; [exact (flushed_dv _ _ _ _ _ _ _ Hf)|exact Es].
  - unfold modem. apply wp_bind, wp_gets. unfold id. cbn [s1 tp set_dv]. destruct (flag T_MODC (tp s)) eqn:Em; cbn [andb].
    2:{ apply wp_ret, wp_modify. split; [by do 2 apply ttyok_dv|done]. }
    destruct (negb (Z.land (al_rr0 (dv s)) (Z.lor DCD CTS) =? 0)) eqn:Ed; cbn [negb andb].
    { destruct (Z.eqb_spec (t_open (dv s)) 0) as [E|E]; [apply wp_modify|apply wp_ret]; apply wp_modify; (split; [|done]).
      - destruct Hok as [[bo' [P1 P2 P3 P4] ] H2 H3 H4 H5 H6]. constructor; try done. by exists bo'.
      - by do 2 apply ttyok_dv. }
    destruct (negb (t_open (dv s) =? 0) && flag T_CARR (tp s)) eqn:Eo; [|apply wp_ret, wp_modify; split; [by do 2 apply ttyok_dv|done]].
    eapply wp_mono; [by apply (wp_tthup qs s1 free bi oq iq bo)|]. intros u s2 [Hf Es]. apply wp_modify. pose proof Hf as [_ _ F3 _ F5 _].
    assert (Hd : dv (set_dv (set_al_outb ((WR0, RESIUS) :: al_outb (dv s2)) (dv s2)) s2) = acked (dv s)) by (cbn; by rewrite F5).
    split; [exact Hd|]. rewrite <- Hd. split; [exact (flushed_dv _ _ _ _ _ _ _ Hf)|]. split; [|exact Es]. cbn [tp set_dv]. unfold flag. rewrite F3.
    change T_CARR with (2 ^ 11) at 2. rewrite land_pow2, !Z.land_spec by done. change (Z.testbit (Z.lnot T_CARR) 11) with false. by rewrite andb_false_r.
Qed.

(** C39: The last close, when no output waits, leaves the terminal empty, all
    blocks back in the pool, no flags and no group, and the interrupts of the line
    off; and it keeps the data terminal ready signal up even if the terminal was
    to hang up on its last close ([T_HPCL]): the flags it asks are the cleared ones. *)
Theorem alclose_last_correct retry s free bi iq bo : ttyok qs s free bi [] iq -> blocks_of qs s free bi [] iq bo -> (1 <= retry)%nat ->
  wp (alclose_last retry) (fun _ s' => (exists free', ttyok qs s' free' [] [] [] /\ free' ≡ₚ free ++ bi ++ bo) /\
    t_flags (tp s') = 0 /\ t_group (tp s') = 0 /\
    al_outb (dv s') = (WR5, Z.lor TxEN (Z.lor RTS DTR)) :: (WR1, 0) :: al_outb (dv s)) s.
Proof.
  intros Hok Hp Hr. destruct retry as [|retry]; [lia|]. apply wp_bind, wp_bind. cbn [drain]. apply wp_bind, wp_gets. unfold id.
  assert (cq_cc (t_oq (tp s)) = 0) as -> by (apply pool_head in Hp as (_ & (_ & Hc & _) & _); done). apply wp_ret, wp_bind.
  eapply wp_mono; [by apply (wp_ttflush qs s free bi [] iq bo)|]. intros u s1 [[[free' [F1 F1p] ] F2 F3 F4 F5 F6] _].
  apply wp_modify, wp_bind, wp_modify, wp_bind, wp_gets, wp_modify. split_and!; try done.
  - exists free'. split; [|done]. do 2 apply ttyok_dv. pose proof F1 as [H1 H2 H3 H4 H5 H6]. by apply (ttyok_tp qs s1).
  - cbn. by rewrite F5.
Qed.
End Lines.

(** A terminal with a carrier, of a process group with two processes. *)
Module Modem.
Definition state (rr0 : Z) : sys AL :=
  set_tp (set_t_flags (Z.lor T_MODC (Z.lor T_CARR T_HPCL)) (tp Terminal.state))
    (Sys (tp Terminal.state) (cl Terminal.state) (Al 12 [] rr0 0 [] [] 1 0) 0 Terminal.mem [(7, 1); (8, 2); (9, 1)] [] (7, 1, -1) false).
Lemma modem_ok rr0 : ttyok [] (state rr0) [512; 768; 1024] [] Terminal.queued [].
Proof. destruct (Terminal.terminal_ok (Al 12 [] rr0 0 [] [] 1 0)) as [H1 H2 H3 H4 H5 H6]. by constructor. Qed.
Lemma modem_blocks rr0 : exists bo, blocks_of [] (state rr0) [512; 768; 1024] [] Terminal.queued [] bo.
Proof. exact (ok_pool _ _ _ _ _ _ (modem_ok rr0)). Qed.
End Modem.

(** The modem has hung up: two processes are told. *)
Lemma alESintr_correct_witness : exists bo, blocks_of [] (Modem.state 0) [512; 768; 1024] [] Terminal.queued [] bo /\
  wp alESintr (fun _ s' => flag T_CARR (tp s') = false /\ sent s' = [(SIGHUP, 9); (SIGHUP, 7)]) (Modem.state 0).
Proof.
  destruct (Modem.modem_blocks 0) as [bo Hbo]. exists bo. split; [done|].
  eapply wp_mono; [apply (alESintr_correct [] (Modem.state 0) [512; 768; 1024] [] Terminal.queued [] bo); [apply Modem.modem_ok|done]|].
  intros u s' (_ & _ & H1 & H2). by split.
Defined.

(** The same line with nothing to send. *)
Definition idle_line : sys AL := set_tp (set_t_oq cq_zero (tp (Modem.state 40))) (Modem.state 40).
Lemma idle_pool : blocks_of [] idle_line [512; 768; 1024] [] [] [] [].
Proof.
  destruct (ok_pool _ _ _ _ _ _ (Modem.modem_ok 40)) as [bo [P1 _ _ _] ]. constructor.
  - exact P1.
  - by repeat constructor.
  - apply (bool_decide_eq_true_1 _). by vm_compute.
  - done.
Qed.

Lemma alclose_last_correct_witness : flag T_HPCL (tp idle_line) = true /\
  wp (alclose_last 1) (fun _ s' => al_outb (dv s') = [(WR5, Z.lor TxEN (Z.lor RTS DTR)); (WR1, 0)]) idle_line.
Proof.
  split; [done|]. assert (ttyok [] idle_line [512; 768; 1024] [] [] []) as Hok.
  { destruct (Modem.modem_ok 40) as [_ H2 H3 H4 H5 H6]. constructor; try done. exists []. exact idle_pool. }
  eapply wp_mono; [by apply (alclose_last_correct [] 1 idle_line [512; 768; 1024] [] [] []); [|apply idle_pool|]|].
  intros u s' (_ & _ & _ & H). exact H.
Defined.
