(* ===== verification/TtyOut.v ===== *)
(** The terminal service: output, as a stream from the writers to the line. *)
From S2P Require Import Prelude Sched Clist Bytes Bcache Super Fs Fmap Umem Tty Al TtyLaws.
Local Open Scope Z_scope.
Local Open Scope kernel_scope.

(** ** The serial line *)

(** Nothing of [ttout] is the business of the device. *)
Definition keeps_dv {D A} (m : M (sys D) A) : Prop := forall s a s', m s = Ret a s' -> dv s' = dv s.

Lemma keeps_bind {D A B} (m : M (sys D) A) (f : A -> M (sys D) B) : keeps_dv m -> (forall a, keeps_dv (f a)) -> keeps_dv (kbind m f).
Proof.
  intros Hm Hf s b s' E. unfold kbind in E. destruct (m s) as [a s1| | |] eqn:E1; try done. cbn in E.
  by rewrite (Hf _ _ _ _ E), (Hm _ _ _ E1).
Qed.
Lemma keeps_ret {D A} (a : A) : keeps_dv (D := D) (kret a).
Proof. by intros s b s' [= <- <-]. Qed.
Lemma keeps_rd {D A} (f : TTY -> A) : keeps_dv (D := D) (rd f).
Proof. by intros s b s' [= <- <-]. Qed.
Lemma keeps_upd {D} f : keeps_dv (D := D) (upd f).
Proof. by intros s b s' [= <- <-]. Qed.
Lemma keeps_if {D A} (b : bool) (m1 m2 : M (sys D) A) : keeps_dv m1 -> keeps_dv m2 -> keeps_dv (if b then m1 else m2).
Proof. by destruct b. Qed.
Lemma keeps_pool {D A} (m : M clstate A) : keeps_dv (D := D) (pool_op m).
Proof. intros s a s'. unfold pool_op. by destruct (m (cl s)); cbn; [intros [= <- <-]|..]. Qed.

Lemma keeps_ttout {D} : keeps_dv (D := D) ttout.
Proof.
  unfold ttout, ttout_next, ttout_cook, ttout_pos, getoq.
  repeat first [apply keeps_bind; [|intros ?] | apply keeps_if | apply keeps_ret | apply keeps_rd | apply keeps_upd | apply keeps_pool].
Qed.

Lemma alstart_rx s s' : alstart s = Ret tt s' -> al_rx (dv s') = al_rx (dv s).
Proof.
  unfold alstart, kbind. cbn. generalize (al_tx (dv s)). intros tx. revert s. induction tx as [|tx IH]; intros s; cbn [alstart_loop].
  { by intros [= <-]. }
  unfold kbind. destruct (ttout s) as [c s1| | |] eqn:E; cbn [obind]; try done. apply keeps_ttout in E. rewrite <- E.
  destruct (c <? 0); [by intros [= <-]|]. intros E2. by apply IH in E2.
Qed.

Section Serial.
Variable qs : list (cqueue * list Z * list Z).
Implicit Types (s : sys AL) (free bi oq iq : list Z).

Lemma wp_alstart_sends tx s free bi oq iq : ttyok qs s free bi oq iq ->
  wp (alstart_loop tx) (fun _ s' => exists free' oq', ttyok qs s' free' bi oq' iq /\ out_only s s' /\
    al_rx (dv s') = al_rx (dv s) /\ rev (al_out (dv s')) = rev (al_out (dv s)) ++ take tx (remaining s oq) /\
    remaining s' oq' = drop tx (remaining s oq)) s.
Proof.
  revert s free oq. induction tx as [|tx IH]; intros s free oq Hok; cbn [alstart_loop].
  { apply wp_ret. exists free, oq. rewrite take_0, app_nil_r. split_and!; done. }
  apply wp_bind, (wp_ttout qs s free bi oq iq); [done| |].
  - intros E. rewrite (proj2 (Z.ltb_lt _ _)) by lia. apply wp_ret. exists free, oq. rewrite E, app_nil_r. split_and!; done.
  - intros c s1 free1 oq1 Hc Hok1 Hrem Ho Hd. rewrite (proj2 (Z.ltb_ge c 0)) by done. apply wp_bind, wp_modify.
    specialize (Hrem []). rewrite !app_nil_r in Hrem. set (s2 := set_dv _ s1).
    assert (ttyok qs s2 free1 bi oq1 iq) as Hok2 by (by destruct Hok1; constructor).
    eapply wp_mono; [by apply (IH s2 free1 oq1)|]. cbn beta. intros _ s3 (free3 & oq3 & A1 & A2 & A3 & A4 & A5).
    assert (remaining s2 oq1 = remaining s1 oq1) as E2 by done. rewrite E2 in *. exists free3, oq3. split_and!; [done|..].
    + eapply out_only_trans; [|exact A2]. destruct Ho. by constructor.
    + rewrite A3. unfold s2. cbn. by rewrite Hd.
    + rewrite A4, Hrem. unfold s2. cbn. by rewrite Hd, <- app_assoc.
    + by rewrite A5, Hrem.
Qed.

(** C9: [alstart] gives the transmitter the next characters of what the output
    queue stands for - new lines with a carriage return before, tabs as blanks up
    to the next stop, a fill that was interrupted going on - as many as it takes, in order;
    what it has not taken stays to be sent, and input is not touched. *)
Theorem alstart_sends s free bi oq iq : ttyok qs s free bi oq iq ->
  wp alstart (fun _ s' => exists free' oq', ttyok qs s' free' bi oq' iq /\ out_only s s' /\
    al_rx (dv s') = al_rx (dv s) /\
    rev (al_out (dv s')) = rev (al_out (dv s)) ++ take (al_tx (dv s)) (remaining s oq) /\
    remaining s' oq' = drop (al_tx (dv s)) (remaining s oq)) s.
Proof.
  intros Hok. apply wp_bind, wp_gets. by apply (wp_alstart_sends _ s free bi oq iq).
Qed.
End Serial.

Lemma alstart_sends_witness : ttyok [] Terminal.state [512; 768; 1024] [] Terminal.queued [] /\
  wp alstart (fun _ s' => exists free' oq', ttyok [] s' free' [] oq' [] /\ out_only Terminal.state s' /\ al_rx (dv s') = [] /\
    rev (al_out (dv s')) = 97 :: replicate 7 32 ++ [98; 13; 10] /\ remaining s' oq' = []) Terminal.state.
Proof. split; [exact (Terminal.terminal_ok _)|exact (alstart_sends [] Terminal.state _ [] Terminal.queued [] (Terminal.terminal_ok _))]. Defined.

(** ** Writing *)

(** [w] is made of [l] and [e], each in its order. *)
Inductive merge : list Z -> list Z -> list Z -> Prop :=
| merge_nil : merge [] [] []
| merge_left c l e w : merge l e w -> merge (c :: l) e (c :: w)
| merge_right c l e w : merge l e w -> merge l (c :: e) (c :: w).

Lemma merge_app l1 e1 w1 l2 e2 w2 : merge l1 e1 w1 -> merge l2 e2 w2 -> merge (l1 ++ l2) (e1 ++ e2) (w1 ++ w2).
Proof. intros H1 H2. induction H1; cbn; [done|by apply merge_left|by apply merge_right]. Qed.
Lemma merge_only_right e : merge [] e e.
Proof. induction e; by constructor. Qed.

Section Writing.
Context {D : Type} `{!TtyDriver D, !TtyLine D, !TtyDriverLaws D}.
(** What [ttin] has echoed, as the device remembers it; the start function has
    nothing to do with it. *)
Variable hist : D -> list Z.
Hypothesis hist_start : forall s s', t_start s = Ret tt s' -> hist (dv s') = hist (dv s).
Variable retry : nat.
Implicit Types (s : sys D) (oq bs e w : list Z) (io : IO).

Definition holds s oq : Prop := exists qs free bi iq, ttyok qs s free bi oq iq.

(** What may happen during a sleep: characters are sent, others echoed behind,
    and signals come; a signal goes only when the process itself takes it. *)
Definition moved s s' : Prop := umem s' = umem s /\ u_error s' = u_error s /\ (hassig s = true -> hassig s' = true) /\
  exists e, hist (dv s') = hist (dv s) ++ e /\ forall oq, holds s oq -> exists oq', holds s' oq' /\ flows s oq s' oq' e.

(** The sleeps of a writer: the queue is full, or there is no block for it, and
    it is marked for the wakeup. *)
Definition out_waits (ch : chan) s : Prop :=
  match ch with
  | ChTtyOut => (exists oq, holds s oq /\ OHILIM <= Z.of_nat (length oq)) /\ flag T_HILIM (tp s) = true
  | ChCltwant => cltfree (cl s) = 0 /\ cltwant (cl s) = 1
  | ChIntr => True
  | _ => False
  end.

(** From [s0], the bytes [bs] have been put into the output. *)
Definition wrote s0 oq0 s bs : Prop := exists e w oq, hist (dv s) = hist (dv s0) ++ e /\ merge (map u8 bs) e w /\
  holds s oq /\ flows s0 oq0 s oq w /\ umem s = umem s0.

Lemma wrote_none s oq : holds s oq -> wrote s oq s [].
Proof. intros H. exists [], [], oq. split_and!; [by rewrite app_nil_r|constructor|done|apply flows_refl|done]. Qed.

Lemma wrote_step s0 oq0 s bs s' b : wrote s0 oq0 s bs -> umem s' = umem s ->
  (exists e w, hist (dv s') = hist (dv s) ++ e /\ merge (map u8 b) e w /\ forall oq, holds s oq -> exists oq', holds s' oq' /\ flows s oq s' oq' w) ->
  wrote s0 oq0 s' (bs ++ b).
Proof.
  intros (e1 & w1 & oq1 & A1 & A2 & A3 & A4 & A5) Em (e2 & w2 & B1 & B2 & B3). destruct (B3 _ A3) as (oq2 & B4 & B5).
  exists (e1 ++ e2), (w1 ++ w2), oq2. split_and!; [by rewrite B1, A1, app_assoc|rewrite map_app; by apply merge_app|done|by eapply flows_trans|congruence].
Qed.
Lemma wrote_moved s0 oq0 s bs s' : wrote s0 oq0 s bs -> moved s s' -> wrote s0 oq0 s' bs.
Proof.
  intros Hw (E1 & E2 & _ & e & E3 & E4). rewrite <- (app_nil_r bs). apply (wrote_step _ _ s); [done|done|]. exists e, e. split_and!; [done|apply merge_only_right|done].
Qed.
Lemma wrote_same s0 oq0 s bs s' : wrote s0 oq0 s bs -> umem s' = umem s -> dv s' = dv s ->
  (forall oq, holds s oq -> exists oq', holds s' oq' /\ flows s oq s' oq' []) -> wrote s0 oq0 s' bs.
Proof.
  intros Hw Em Ed Hs. rewrite <- (app_nil_r bs). apply (wrote_step _ _ s); [done|done|]. exists [], []. split_and!; [by rewrite Ed, app_nil_r|constructor|done].
Qed.

Lemma wrote_error s0 oq0 s bs v : wrote s0 oq0 s bs -> wrote s0 oq0 (set_u_error v s) bs.
Proof.
  intros Hw. apply (wrote_same _ _ s); [done..|]. intros oq (qs & free & bi & iq & [A1 A2 A3 A4 A5 A6]). exists oq. split; [|done]. by exists qs, free, bi, iq.
Qed.

(** A step of the terminal that puts nothing into the queue. *)
Lemma wrote_silent {A} (m : M (sys D) A) s0 oq0 s bs : (forall qs, silent qs m) -> (forall s a s', m s = Ret a s' -> hist (dv s') = hist (dv s)) ->
  wrote s0 oq0 s bs -> wp m (fun _ s' => wrote s0 oq0 s' bs /\ u_error s' = u_error s /\ hassig s' = hassig s) s.
Proof.
  intros Hm Hh Hw. pose proof Hw as (e & w & oq & A1 & A2 & (qs & free & bi & iq & Hok) & A4 & A5).
  pose proof (Hm qs s free bi oq iq Hok) as Hwp. unfold wp in *. destruct (m s) as [a s'| | |] eqn:E; try done.
  destruct Hwp as (free' & oq' & [B1 [_ _ _ _ _ B2] B3]). injection B2 as R1 R2 R3 R4 R5 R6. split_and!; [|done|done].
  exists e, w, oq'. split_and!; [by rewrite (Hh s a s')|done|by exists qs, free', bi, iq| |congruence].
  rewrite <- (app_nil_r w). by eapply flows_trans.
Qed.

Lemma ttstart_hist s a s' : ttstart s = Ret a s' -> hist (dv s') = hist (dv s).
Proof.
  unfold ttstart, kbind, rd, gets, clrf, upd, wakeup, modify, id. cbn [obind].
  destruct (flag T_STOP (tp s)); [by intros [= <- <-]|]. destruct (_ && _ && _ && _); [by intros [= <- <-]|].
  destruct (t_start s) as [[] s1| | |] eqn:E; cbn [obind]; try done. rewrite <- (hist_start _ _ E). destruct (_ && _); by intros [= <- <-].
Qed.

Lemma wrote_ttstart s0 oq0 s bs : wrote s0 oq0 s bs ->
  wp ttstart (fun _ s' => wrote s0 oq0 s' bs /\ u_error s' = u_error s /\ hassig s' = hassig s) s.
Proof. apply wrote_silent; [intros qs; apply silent_ttstart|apply ttstart_hist]. Qed.

(** ** Room *)

Lemma wrote_pool s0 oq0 s bs : wrote s0 oq0 s bs -> cltfree (cl s) = 0 \/ exists qs free bi oq iq, free <> [] /\ ttyok qs s free bi oq iq /\
  wrote s0 oq0 s bs.
Proof.
  intros Hw. pose proof Hw as (e & w & oq & A1 & A2 & (qs & free & bi & iq & Hok) & A4 & A5). destruct free as [|f free].
  - left. destruct (ok_pool _ _ _ _ _ _ Hok) as [bo [Hp _ _ _] ]. exact Hp.
  - right. by exists qs, (f :: free), bi, oq, iq.
Qed.

Lemma wp_put s0 oq0 s bs b Q : wrote s0 oq0 s bs ->
  (cltfree (cl s) = 0 -> Q (-1) s) ->
  (forall s', wrote s0 oq0 s' (bs ++ [b]) -> u_error s' = u_error s -> Q (u8 b) s') -> wp (putoq (u8 b)) Q s.
Proof.
  intros Hw Hno Hyes. pose proof Hw as (e & w & oq & A1 & A2 & (qs & free & bi & iq & Hok) & A4 & A5).
  apply (wp_putoq qs s free bi oq iq); [done| |].
  - intros ->. apply Hno. destruct (ok_pool _ _ _ _ _ _ Hok) as [bo [Hp _ _ _] ]. exact Hp.
  - intros q st free' Hok' Hst. apply Hyes; [|done]. exists e, (w ++ [u8 b]), (oq ++ [u8 b]). rewrite (u8_small (u8 b)) in Hok' by apply u8_range.
    split_and!; [done| |by exists qs, free', bi, iq| |done].
    + rewrite map_app, <- (app_nil_r e). apply merge_app; [done|]. apply merge_left, merge_nil.
    + eapply flows_trans; [done|apply flows_put].
Qed.

Lemma waitq_turn fuel s : pool_op (D := D) (waitq (S fuel)) s =
  if cltfree (cl s) =? 0 then Sleep ChCltwant (set_cl (set_cltwant 1 (cl s)) s) (fun s' => pool_op (waitq fuel) s') else Ret tt (set_cl (cl s) s).
Proof. unfold pool_op. cbn [waitq]. unfold kbind, gets. cbn [obind]. by destruct (cltfree (cl s) =? 0). Qed.

Lemma holds_pool s oq st : holds s oq -> cl_mem st = cl_mem (cl s) -> cltfree st = cltfree (cl s) -> holds (set_cl st s) oq.
Proof.
  intros (qs & free & bi & iq & [[bo [P1 P2 P3 P4] ] H2 H3 H4 H5 H6]) E1 E2. exists qs, free, bi, iq. constructor; try done.
  exists bo. constructor; try done; cbn [cl set_cl]; by rewrite E1, ?E2.
Qed.

Lemma within_waitq fuel n s0 oq0 s bs Q : wrote s0 oq0 s bs -> (n < fuel)%nat ->
  (forall m s', (m <= n)%nat -> wrote s0 oq0 s' bs -> u_error s' = u_error s -> cltfree (cl s') <> 0 -> Q m tt s') ->
  within (moved) out_waits n (pool_op (waitq fuel) s) Q.
Proof.
  revert n s. induction fuel as [|fuel IH]; intros n s Hw Hf HQ; [lia|]. rewrite waitq_turn.
  destruct (Z.eqb_spec (cltfree (cl s)) 0) as [E|E].
  - set (s1 := set_cl _ s). assert (wrote s0 oq0 s1 bs) as Hw1.
    { apply (wrote_same _ _ s); [done..|]. intros oq Ho. exists oq. split; [by apply holds_pool|done]. }
    split; [by split|]. destruct n as [|n]; [done|]. intros s' Hm. pose proof Hm as (_ & Em & _). apply IH; [by eapply wrote_moved|lia|].
    intros m s2 Hle Hw2 E2. apply HQ; [lia|done|]. by rewrite E2, Em.
  - assert (set_cl (cl s) s = s) as -> by (by destruct s). by apply HQ.
Qed.

Lemma within_put fuel n s0 oq0 s bs b Q : wrote s0 oq0 s bs -> (n < retry)%nat -> (2 <= fuel)%nat ->
  (forall m s', (m <= n)%nat -> wrote s0 oq0 s' (bs ++ [b]) -> u_error s' = u_error s -> Q m tt s') ->
  within moved out_waits n (putoq_wait retry fuel (u8 b) s) Q.
Proof.
  intros Hw Hr Hf HQ. pose proof (u8_range b) as Hb. destruct fuel as [|[|fuel] ]; [lia..|]. rewrite <- (Nat.add_1_l fuel). cbn [putoq_wait Nat.add].
  apply within_step, (wp_put s0 oq0 s bs b); [done| |].
  2:{ intros s' Hw' E'. rewrite (proj2 (Z.ltb_ge _ _)) by lia. by apply within_wp, wp_ret, HQ. }
  intros _. change (-1 <? 0) with true. cbv iota. apply within_step. eapply wp_mono; [by apply (wrote_ttstart s0 oq0 s bs)|].
  intros u s1 (Hw1 & E1 & _). apply within_kbind, (within_waitq retry n s0 oq0 s1 bs); [done|done|].
  intros m s2 Hm Hw2 E2 Hne. apply within_step, (wp_put s0 oq0 s2 bs b); [done|done|].
  intros s' Hw' E'. rewrite (proj2 (Z.ltb_ge _ _)) by lia. apply within_wp, wp_ret, HQ; [lia|done|congruence].
Qed.

Lemma queue_length s oq : holds s oq -> cq_cc (t_oq (tp s)) = Z.of_nat (length oq).
Proof. intros (qs & free & bi & iq & [[bo Hp] _ _ _ _ _]). apply pool_head in Hp as (_ & (_ & Hc & _) & _). done. Qed.

Lemma within_room fuel n s0 oq0 s bs Q : wrote s0 oq0 s bs -> (n < fuel)%nat -> u_error s = 0 ->
  (forall m (ok : bool) s', (m <= n)%nat -> wrote s0 oq0 s' bs -> u_error s' = (if ok then 0 else EINTR) -> (ok = false -> hassig s' = true) -> Q m ok s') ->
  within moved out_waits n (ttwrite_room fuel s) Q.
Proof.
  revert n s. induction fuel as [|fuel IH]; intros n s Hw Hf He HQ; [lia|]. cbn [ttwrite_room].
  apply within_step, wp_gets. unfold id. destruct (Z.ltb_spec (cq_cc (t_oq (tp s))) OHILIM) as [Hlt|Hge].
  { by apply within_wp, wp_ret, HQ. }
  apply within_step. eapply wp_mono; [by apply (wrote_ttstart s0 oq0 s bs)|]. intros u s1 (Hw1 & E1 & _).
  apply within_step, wp_gets. unfold id. destruct (Z.ltb_spec (cq_cc (t_oq (tp s1))) OHILIM) as [Hlt1|Hge1].
  { apply within_wp, wp_ret, HQ; [done|done|congruence|done]. }
  apply within_step, wp_modify. set (s2 := set_tp _ s1).
  assert (wp (setf T_HILIM) (fun _ s' => wrote s0 oq0 s' bs /\ u_error s' = u_error s1 /\ hassig s' = hassig s1) s1) as (Hw2 & E2 & _).
  { apply wrote_silent; [intros qs; apply silent_setf; set_solver|by intros ? ? ? [= <- <-]|done]. }
  apply within_sleep.
  { split; [|unfold flag, s2; cbn [tp set_tp t_flags set_t_flags]; change T_HILIM with (2 ^ 0); by rewrite land_pow2, testbit_set, orb_true_r].
    pose proof Hw2 as (e & w & oq & _ & _ & A3 & _). exists oq. split; [done|]. rewrite <- (queue_length _ _ A3). exact Hge1. }
  intros n' -> s3 Hm. pose proof Hm as (M1 & M2 & _). pose proof (wrote_moved _ _ _ _ _ Hw2 Hm) as Hw3.
  assert (u_error s3 = 0) as E3 by (change (u_error s2) with (u_error s1) in M2; congruence).
  apply within_step, wp_gets. destruct (hassig s3) eqn:Eg.
  - apply within_step, wp_modify. set (s4 := set_u_error EINTR s3). assert (wrote s0 oq0 s4 bs) as Hw4 by (by apply wrote_error).
    apply within_sleep; [done|]. intros n'' -> s5 Hm5. pose proof Hm5 as (N1 & N2 & N3 & _). apply within_wp, wp_ret, HQ; [lia| |done|by intros _; apply N3]. by eapply wrote_moved.
  - apply IH; [done|lia|done|]. intros m ok s' Hle. apply HQ. lia.
Qed.

(** ** The loop *)

Lemma land_255 b : Z.land b 255 = u8 b.
Proof. change 255 with (Z.ones 8). by rewrite Z.land_ones. Qed.

Lemma wp_iogetc s io Q : io_seg io = IOUSR -> u_error s = 0 ->
  (io_ioc io = 0 -> Q (-1, io) s) ->
  (io_ioc io <> 0 -> umem s (io_seg io) (io_base io) = None -> Q (-1, io_next io) (set_u_error EFAULT s)) ->
  (forall b, io_ioc io <> 0 -> umem s (io_seg io) (io_base io) = Some b -> Q (u8 b, io_next io) s) ->
  wp (iogetc io) Q s.
Proof.
  intros Hs He H0 Hno Hyes. unfold iogetc. destruct (Z.eqb_spec (io_ioc io) 0) as [E0|E0]; [by apply wp_ret, H0|].
  apply wp_bind, wp_gets. cbv zeta. assert ((io_seg io =? IOSYS) = false) as E by (by rewrite Hs).
  destruct (umem s (io_seg io) (io_base io)) as [b|] eqn:Em.
  - apply wp_bind, wp_gets, wp_ret. rewrite He, andb_false_r, land_255. by apply Hyes.
  - rewrite E. apply wp_bind, wp_modify, wp_ret. by apply Hno.
Qed.

(** Why a write stopped at the byte after [k]: the process cannot read it, the line
    has no carrier, or a signal has come. *)
Inductive stopped s0 io s' (k : Z) : Prop :=
| stop_fault : u_error s' = EFAULT -> umem s0 (io_seg io) (io_base io + k) = None -> stopped s0 io s' k
| stop_carrier : u_error s' = EIO -> is_Some (umem s0 (io_seg io) (io_base io + k)) -> flag T_CARR (tp s') = false -> stopped s0 io s' k
| stop_signal : u_error s' = EINTR -> is_Some (umem s0 (io_seg io) (io_base io + k)) -> hassig s' = true -> stopped s0 io s' k.

(** What a write has done: the bytes [bs] of the memory of the process have gone into
    the output; after an error the byte it happened at is counted and not written. *)
Record write_done s0 oq0 io s' io' bs : Prop := {
  wd_wrote : wrote s0 oq0 s' bs;
  wd_bytes : bytes_at (umem s0) (io_seg io) (io_base io) bs;
  wd_all : u_error s' = 0 -> Z.of_nat (length bs) = io_ioc io /\ io_ioc io' = 0;
  wd_error : u_error s' <> 0 -> stopped s0 io s' (Z.of_nat (length bs)) /\ io_ioc io' = io_ioc io - Z.of_nat (length bs) - 1
}.

Lemma bytes_at_one (m : Z -> Z -> option Z) sp a b : m sp a = Some b -> bytes_at m sp a [b].
Proof. intros H i Hi. destruct i; [|cbn in Hi; lia]. by rewrite Z.add_0_r. Qed.

Lemma within_ttwrite_loop n k s0 oq0 io s bs io1 : wrote s0 oq0 s bs -> bytes_at (umem s0) (io_seg io) (io_base io) bs ->
  u_error s = 0 -> io_seg io1 = IOUSR -> io_seg io = IOUSR -> io_base io1 = io_base io + Z.of_nat (length bs) ->
  io_ioc io1 = Z.of_nat k -> io_ioc io = io_ioc io1 + Z.of_nat (length bs) -> io_ioc io < 65536 -> (n < retry)%nat -> (2 <= retry)%nat ->
  within moved out_waits n (ttwrite_loop retry k io1 s) (fun _ r s' => exists bs', write_done s0 oq0 io s' (fst r) bs' /\
    (snd r = true -> u_error s' = 0 \/ u_error s' = EFAULT) /\
    (flag T_CARR (tp s) = false -> k <> O -> bs' = bs /\ u_error s' ∈ [EFAULT; EIO])).
Proof.
  revert n s bs io1. induction k as [|k IH]; intros n s bs io1 Hw Hb He Hs1 Hs Hbase Hk Hioc Hlt Hn Hr; cbn [ttwrite_loop];
    pose proof Hw as (_ & _ & _ & _ & _ & _ & _ & Em).
  { apply within_step, wp_iogetc; [done|done|..]; [|by rewrite Hk..]. intros _. apply within_wp, wp_ret. exists bs. split; [|split; [by left|done]].
    split; [done|done|intros _; cbn; lia|done]. }
  apply within_step, wp_iogetc; [done|done|by rewrite Hk|..]; rewrite Hs1, <- Hs, Hbase.
  { intros _ Hno. apply within_wp, wp_ret. exists bs. split; [|split; [by right|intros _ _; split; [done|left]]].
    split; [by apply wrote_error|done|done|]. intros _. split; [|cbn; rewrite u16_small; lia]. apply stop_fault; [done|by rewrite <- Em]. }
  intros b _ Hyes. rewrite Em in Hyes. cbn [fst snd]. rewrite (proj2 (Z.ltb_ge (u8 b) 0)) by apply u8_range.
  apply within_step, wp_gets. unfold id. destruct (flag T_CARR (tp s)) eqn:Ec; cbn [negb].
  2:{ apply within_step, wp_modify. apply within_wp, wp_ret. exists bs. split; [|split; [done|intros _ _; split; [done|right; left]]].
    split; [by apply wrote_error|done|done|]. intros _. split; [|cbn; rewrite u16_small; lia]. by apply stop_carrier. }
  apply within_kbind, (within_room retry n s0 oq0 s bs); [done|done|done|]. intros m ok s1 Hm Hw1 E1 Esig. destruct ok; cbn [negb].
  2:{ apply within_wp, wp_ret. exists bs. split; [|done]. split; [done|done|by rewrite E1|]. intros _. split; [|cbn; rewrite u16_small; lia].
    apply stop_signal; [done|done|by apply Esig]. }
  apply within_kbind, (within_put retry m s0 oq0 s1 bs b); [done|lia|done|]. intros m2 s2 Hm2 Hw2 E2.
  apply within_sleep; [done|]. intros m3 -> s3 Hmv. pose proof Hmv as (M1 & M2 & _).
  eapply within_mono; [|apply (IH m3 s3 (bs ++ [b]) (io_next io1)); cbn [io_next io_seg io_base io_ioc]; try done; rewrite ?length_app, ?u16_small; cbn [length]; try lia].
  - intros m4 r s4 _ (bs' & H1 & H2 & _). by exists bs'.
  - by eapply wrote_moved.
  - apply bytes_at_app; [done|]. by apply bytes_at_one.
Qed.

(** C8: [ttwrite], with characters sent and echoed while it sleeps: the bytes of the
    process go into the output in order, all of them or up to an error, between the
    characters that were echoed meanwhile, none twice and none lost - what the
    line has got and will get is what it would have got, and then these.  It sleeps for
    room only with [OHILIM] characters waiting and [T_HILIM] set, so that
    [ttstart] wakes it, or with no block free and [cltwant] set, and where it lets
    the interrupts in.  With fuel for [n] sleeps it does not run out of fuel in [n] sleeps.
    When it stops early the error says why: EFAULT when the process cannot read the
    byte, EIO when the line has no carrier, EINTR when a signal has come; and on a
    line that has no carrier at the start nothing is written. *)
Theorem ttwrite_streams n s oq io : holds s oq -> u_error s = 0 -> io_seg io = IOUSR -> 0 <= io_ioc io < 65536 -> (n < retry)%nat -> (2 <= retry)%nat ->
  within moved out_waits n (ttwrite retry io s) (fun _ io' s' => exists bs, write_done s oq io s' io' bs /\
    (flag T_CARR (tp s) = false -> io_ioc io <> 0 -> bs = [] /\ u_error s' ∈ [EFAULT; EIO])).
Proof.
  intros Hh He Hs Hi Hn Hr. apply within_kbind. eapply within_mono.
  2:{ apply (within_ttwrite_loop n (Z.to_nat (io_ioc io)) s oq io s [] io); cbn [length]; try (done || lia); [by apply wrote_none|by intros i Hlt; cbn in Hlt; lia]. }
  cbn beta. intros m [io' ok] s1 Hm (bs & [W1 W2 W3 W4] & W5 & W6). cbn [fst snd] in *.
  assert (flag T_CARR (tp s) = false -> io_ioc io <> 0 -> bs = [] /\ u_error s1 ∈ [EFAULT; EIO]) as W7 by (intros; apply W6; [done|lia]). destruct ok.
  2:{ apply within_wp, wp_bind, wp_ret, wp_ret. by exists bs. }
  apply within_kbind, within_step. eapply wp_mono; [by apply (wrote_ttstart s oq s1 bs)|]. intros u s2 (Hw2 & E2 & _).
  split; [done|]. destruct m as [|m]; [done|]. intros s3 Hmv. pose proof Hmv as (M1 & M2 & _). cbn.
  exists bs. split; [|by rewrite M2, E2]. split; [by eapply wrote_moved|done|by rewrite M2, E2|].
  rewrite M2, E2. intros Hne. destruct (W5 eq_refl) as [?|E3]; [done|]. destruct (W4 Hne) as [Hst Hi']. split; [|done].
  destruct Hst as [F1 F2|F1 _ _|F1 _ _]; [|by rewrite F1 in E3..]. apply stop_fault; [congruence|done].
Qed.
End Writing.

(** A line that takes everything at once. *)
Lemma ttwrite_streams_witness :
  let s := Terminal.state in let io := Io IOUSR 5 0 100 0 in
  holds s Terminal.queued /\
  within (moved (fun x => rev (al_rx x))) out_waits 7 (@ttwrite AL (al_driver 0) 8 io s)
    (fun _ io' s' => exists bs, write_done (fun x => rev (al_rx x)) s Terminal.queued io s' io' bs /\
      (flag T_CARR (tp s) = false -> io_ioc io <> 0 -> bs = [] /\ u_error s' ∈ [EFAULT; EIO])).
Proof.
  assert (holds Terminal.state Terminal.queued) as Hh by (exists [], [512; 768; 1024], [], []; apply Terminal.terminal_ok).
  split; [done|]. apply (@ttwrite_streams AL (al_driver 0) al_line (al_laws 0) (fun x => rev (al_rx x))); [|done..|lia|lia].
  intros s s' E. by apply (f_equal (@rev Z)), alstart_rx.
Defined.
