(* ===== verification/TtyEdit.v ===== *)
(** The terminal service: what [ttin] makes of the characters that come in, as an
    editor of lines. *)
From S2P Require Import Prelude Sched Clist Bytes Bcache Super Fs Fmap Tty Al TtyLaws.
Local Open Scope Z_scope.
Local Open Scope kernel_scope.

(** ** The editor

    The line is a list of characters, of which the last [e] are escapes that may
    still turn out to quote what follows.  The result is the line, the count and
    what goes to the readers. *)
Definition ends (x : TTY) (c : Z) : bool :=
  (c =? 10) || (t_eofc (t_tchars x) =? c) || (t_brkc (t_tchars x) =? c).
Definition enter (x : TTY) (l : list Z) (c : Z) : list Z * Z * list Z :=
  if ends x c then ([], 0, map (fun b => Z.land b 127) (l ++ [s8 c])) else (l ++ [s8 c], 0, []).
Definition edit (x : TTY) (l : list Z) (e c : Z) : list Z * Z * list Z :=
  if 0 <? e then
    if c =? ESC then (l ++ [ESC], e + 1, [])
    else if (sg_erase (t_sgttyb x) =? c) || (sg_kill (t_sgttyb x) =? c) then enter x (removelast l) (Z.lor c 128)
    else enter x l c
  else if sg_erase (t_sgttyb x) =? c then (removelast l, 0, [])
  else if sg_kill (t_sgttyb x) =? c then ([], 0, [])
  else if c =? ESC then (l ++ [ESC], 1, [])
  else enter x l c.

(** The line as the terminal keeps it. *)
Definition line (x : TTY) : list Z := take (Z.to_nat (t_ibx x)) (t_ib x) ++ replicate (Z.to_nat (t_escape x)) ESC.

Section Editor.
Context {D : Type} `{!TtyDriver D, !TtyLine D, !TtyDriverLaws D}.
Variable qs : list (cqueue * list Z * list Z).
Implicit Types (s : sys D) (free bi oq iq l : list Z).

(** What the editor does not change. *)
Definition settings s := (t_sgttyb (tp s), t_tchars (tp s), t_group (tp s), (umem s, procq s, sent s, self s, hassig s, u_error s)).

(** The state after a step of [ttin]: [d] has gone to the readers, [l] is the line and [n] the
    pending escapes. *)
Record edited s free bi oq iq s' d l n : Prop := {
  ed_ok : exists free' bi' oq' e, ttyok qs s' free' bi' oq' (iq ++ d) /\ flows s oq s' oq' e;
  ed_line : line (tp s') = l;
  ed_escape : t_escape (tp s') = n;
  ed_settings : settings s' = settings s;
  ed_wakes : d <> [] -> flag T_INPUT (tp s') = false /\ (flag T_INPUT (tp s) = true -> ChTtyIn ∈ cl_woken (cl s'))
}.

(** ** The buffer *)

Lemma line_length x : 0 <= t_ibx x <= Z.of_nat (length (t_ib x)) -> 0 <= t_escape x ->
  Z.of_nat (length (line x)) = t_ibx x + t_escape x.
Proof. intros H1 H2. unfold line. rewrite length_app, length_take, length_replicate. lia. Qed.

Lemma take_push (ib : list Z) (n : nat) c : (n < length ib)%nat -> take (S n) (<[n := c]> ib) = take n ib ++ [c].
Proof.
  intros Hn. rewrite (take_S_r _ n c) by (by apply list_lookup_insert_eq). by rewrite take_insert_ge by lia.
Qed.

Lemma wp_push c s free bi oq iq Q : ttyok qs s free bi oq iq -> t_ibx (tp s) < NCIB - 1 ->
  (forall ib, length ib = 256%nat -> take (Z.to_nat (t_ibx (tp s) + 1)) ib = take (Z.to_nat (t_ibx (tp s))) (t_ib (tp s)) ++ [s8 c] ->
     Q tt (set_tp (set_t_ibx (t_ibx (tp s) + 1) (set_t_ib ib (tp s))) s)) -> wp (push c) Q s.
Proof.
  intros [H1 H2 H3 H4 H5 H6] Hlt HQ. unfold push. apply wp_bind, wp_gets, wp_bind. unfold id, NCIB in *.
  eapply wp_deref; [apply aset_is_Some; lia|]. apply wp_modify. apply HQ.
  - by rewrite length_insert.
  - replace (Z.to_nat (t_ibx (tp s) + 1)) with (S (Z.to_nat (t_ibx (tp s)))) by lia. apply take_push. lia.
Qed.

Lemma ttyok_buffer s free bi oq iq n (e : Z) (ib : list Z) : ttyok qs s free bi oq iq -> length ib = 256%nat -> 0 <= n < NCIB ->
  ttyok qs (set_tp (set_t_escape e (set_t_ibx n (set_t_ib ib (tp s)))) s) free bi oq iq.
Proof. intros Hok Hl Hn. pose proof Hok as [H1 H2 H3 H4 H5 H6]. by apply (ttyok_tp qs s). Qed.

Lemma wp_escapes fuel s free bi oq iq Q : ttyok qs s free bi oq iq -> 0 <= t_escape (tp s) < 32768 ->
  t_ibx (tp s) + t_escape (tp s) < NCIB -> (Z.to_nat (t_escape (tp s)) < fuel)%nat ->
  (forall ib, length ib = 256%nat -> take (Z.to_nat (t_ibx (tp s) + t_escape (tp s))) ib = line (tp s) ->
     Q tt (set_tp (set_t_escape 0 (set_t_ibx (t_ibx (tp s) + t_escape (tp s)) (set_t_ib ib (tp s)))) s)) ->
  wp (escapes fuel) Q s.
Proof.
  revert s. induction fuel as [|fuel IH]; intros s Hok He Hi Hf HQ; [lia|]. cbn [escapes]. apply wp_bind, wp_gets. unfold id.
  pose proof Hok as [H1 H2 H3 H4 H5 H6]. destruct (Z.eqb_spec (t_escape (tp s)) 0) as [E0|E0]; cbn [negb andb].
  - apply wp_ret. specialize (HQ (t_ib (tp s)) H2). rewrite E0, Z.add_0_r in HQ. unfold line in HQ. rewrite E0 in HQ.
    replace (set_tp _ s) with s in HQ; [apply HQ; by rewrite app_nil_r|]. destruct s as [[] ]. cbn in *. by subst.
  - rewrite (proj2 (Z.ltb_lt _ _)) by lia. apply wp_bind, (wp_push ESC s free bi oq iq); [done|lia|]. intros ib Hl Ht.
    apply wp_bind, wp_modify. cbn [tp set_tp t_escape set_t_ibx set_t_ib]. rewrite s16_small by lia.
    apply IH; cbn [tp set_tp t_escape set_t_escape t_ibx set_t_ibx]; [|lia..|].
    + apply (ttyok_buffer s free bi oq iq (t_ibx (tp s) + 1) (t_escape (tp s) - 1) ib); [done|done|unfold NCIB in *; lia].
    + intros ib' Hl' Ht'. replace (t_ibx (tp s) + 1 + (t_escape (tp s) - 1)) with (t_ibx (tp s) + t_escape (tp s)) in * by lia.
      apply (HQ ib'); [done|]. rewrite Ht'. unfold line. cbn. rewrite Ht, <- app_assoc.
      replace (Z.to_nat (t_escape (tp s))) with (S (Z.to_nat (t_escape (tp s) - 1))) by lia. done.
Qed.

(** ** The end of a line *)

Lemma wp_stash_line l s free bi oq iq Q : ttyok qs s free bi oq iq -> Z.of_nat (length l) <= room s free bi iq ->
  (forall q st free' bi', ttyok qs (iqset q st s) free' bi' oq (iq ++ map (fun b => Z.land b 127) l) -> cl_woken st = cl_woken (cl s) ->
     Q tt (iqset q st s)) -> wp (stash_line l) Q s.
Proof.
  revert s free bi iq. induction l as [|c l IH]; intros s free bi iq Hok Hr HQ; cbn [stash_line map].
  - apply wp_ret. rewrite <- (iqset_id s). apply (HQ _ _ free bi); [|done]. by rewrite iqset_id, app_nil_r.
  - apply wp_bind. cbn [length] in Hr. apply (wp_putiq qs s free bi oq iq); [done|lia|]. cbv zeta. intros q st free' bi' Hok' Hw Hroom.
    assert (u8 (Z.land c 127) = Z.land c 127) as Eu.
    { apply u8_small. change 127 with (Z.ones 7). rewrite Z.land_ones by done. pose proof (Z.mod_pos_bound c (2 ^ 7) ltac:(done)). lia. }
    rewrite Eu in Hok', Hroom. apply (IH (iqset q st s) free' bi' (iq ++ [Z.land c 127])); [done|lia|].
    intros q2 st2 free2 bi2 Hok2 Hw2. apply (HQ q2 st2 free2 bi2); [|by rewrite Hw2]. by rewrite <- app_assoc in Hok2.
Qed.

Lemma ttyok_wakeup ch s free bi oq iq : ttyok qs s free bi oq iq -> ttyok qs (set_cl (cl_wakeup ch (cl s)) s) free bi oq iq.
Proof. intros [[bo H1] H2 H3 H4 H5 H6]. constructor; try done. exists bo. by destruct H1. Qed.

Lemma ttyok_flags s v free bi oq iq : ttyok qs s free bi oq iq -> ttyok qs (set_tp (set_t_flags v (tp s)) s) free bi oq iq.
Proof. intros Hok. pose proof Hok as [H1 H2 H3 H4 H5 H6]. by apply (ttyok_tp qs s). Qed.

Lemma input_bit k : 0 <= k -> Z.testbit T_INPUT k = (2 =? k).
Proof. intros Hk. by apply (Z.pow2_bits_eqb 2). Qed.

Lemma flag_input x : flag T_INPUT x = Z.testbit (t_flags x) 2.
Proof. by apply (flag_bit 2). Qed.

(** The state after [ttstash]: nothing of output, and of the flags only [T_INPUT]. *)
Record stashed s free bi oq iq s' d l n : Prop := {
  sh_ok : exists free' bi', ttyok qs s' free' bi' oq (iq ++ d);
  sh_line : line (tp s') = l;
  sh_escape : t_escape (tp s') = n;
  sh_settings : settings s' = settings s;
  sh_flags : forall k, 0 <= k -> k <> 2 -> Z.testbit (t_flags (tp s')) k = Z.testbit (t_flags (tp s)) k;
  sh_out : (t_nfill (tp s'), t_fillb (tp s'), t_hpos (tp s'), dv s') = (t_nfill (tp s), t_fillb (tp s), t_hpos (tp s), dv s);
  sh_wakes : d <> [] -> flag T_INPUT (tp s') = false /\ (flag T_INPUT (tp s) = true -> ChTtyIn ∈ cl_woken (cl s'))
}.

Lemma wp_ttstash c s free bi oq iq : ttyok qs s free bi oq iq -> t_escape (tp s) = 0 -> t_ibx (tp s) < NCIB - 1 -> NCIB <= room s free bi iq ->
  wp (ttstash c) (fun _ s' => match enter (tp s) (line (tp s)) c with (l, n, d) => stashed s free bi oq iq s' d l n end) s.
Proof.
  intros Hok He Hi Hr. pose proof Hok as [H1 H2 H3 H4 H5 H6]. unfold NCIB in *.
  assert (line (tp s) = take (Z.to_nat (t_ibx (tp s))) (t_ib (tp s))) as El by (unfold line; by rewrite He, app_nil_r).
  unfold ttstash, enter, ends. apply wp_bind, wp_gets. unfold id. destruct ((c =? 10) || _ || _).
  - apply wp_bind. eapply wp_deref; [apply aset_is_Some; lia|]. apply wp_bind, wp_modify, wp_bind.
    set (ib := <[_ := _]> _). set (s1 := set_tp _ s).
    assert (take (Z.to_nat (t_ibx (tp s) + 1)) ib = line (tp s) ++ [s8 c]) as Et.
    { rewrite El. replace (Z.to_nat (t_ibx (tp s) + 1)) with (S (Z.to_nat (t_ibx (tp s)))) by lia. apply take_push. lia. }
    rewrite Et. apply (wp_stash_line _ s1 free bi oq iq).
    + apply (ttyok_tp qs s); try done. cbn. unfold ib. by rewrite length_insert.
    + rewrite length_app, El, length_take. cbn [length]. change (room s1 free bi iq) with (room s free bi iq). lia.
    + intros q st free' bi' Hok1 Hw. apply wp_bind, wp_modify, wp_bind, wp_modify, wp_bind, wp_gets. unfold id.
      set (s2 := set_tp (set_t_escape 0 _) _). rewrite flag_input.
      destruct (Z.testbit (t_flags (tp s2)) 2) eqn:E2; [apply wp_bind, wp_modify, wp_modify|apply wp_ret]; split; try done.
      * exists free', bi'. apply ttyok_wakeup. apply (ttyok_buffer _ _ _ _ _ 0 0 ib) in Hok1; [|by unfold ib; rewrite length_insert|done].
        apply (ttyok_flags s2). exact Hok1.
      * intros k Hk Hne. cbn [tp set_tp set_cl t_flags set_t_flags]. rewrite testbit_clear, input_bit by done.
        rewrite (proj2 (Z.eqb_neq 2 k)) by done. apply andb_true_r.
      * intros _. rewrite flag_input. cbn [tp set_tp set_cl t_flags set_t_flags]. rewrite testbit_clear by done. split; [apply andb_false_r|]. intros _. by left.
      * exists free', bi'. by apply (ttyok_buffer _ _ _ _ _ 0 0 ib) in Hok1; [|by unfold ib; rewrite length_insert|].
      * intros _. rewrite flag_input. split; [done|]. rewrite flag_input. change (t_flags (tp s2)) with (t_flags (tp s)) in E2. by rewrite E2.
  - rewrite (proj2 (Z.ltb_lt _ _)) by (unfold NCIB; lia). apply (wp_push c s free bi oq iq); [done|unfold NCIB; lia|]. intros ib Hl Ht. split; try done.
    + exists free, bi. rewrite app_nil_r. apply (ttyok_tp qs s); try done. cbn. unfold NCIB. lia.
    + unfold line at 1. cbn. by rewrite Ht, He, app_nil_r, El.
Qed.

(** ** One character *)

Lemma remaining_ext s s' : t_nfill (tp s') = t_nfill (tp s) -> t_hpos (tp s') = t_hpos (tp s) -> t_sgttyb (tp s') = t_sgttyb (tp s) ->
  Z.testbit (t_flags (tp s')) 4 = Z.testbit (t_flags (tp s)) 4 -> forall oq, remaining s' oq = remaining s oq.
Proof. intros E1 E2 E3 E4 oq. unfold remaining. by rewrite !flags_inl, E1, E2, E4, !(mode_ext _ _ _ E3). Qed.

(** Steps that only touch the line, its position and the escapes. *)
Definition same_but_line s s1 : Prop :=
  t_flags (tp s1) = t_flags (tp s) /\ (t_nfill (tp s1), t_fillb (tp s1), t_hpos (tp s1), dv s1) = (t_nfill (tp s), t_fillb (tp s), t_hpos (tp s), dv s) /\
  settings s1 = settings s.

Lemma stashed_from s s1 free bi oq iq s' d l n : same_but_line s s1 ->
  stashed s1 free bi oq iq s' d l n -> stashed s free bi oq iq s' d l n.
Proof.
  intros (E1 & E2 & E3) [A1 A2 A3 A4 A5 A6 A7]. split; try done; try congruence.
  - intros k Hk Hn. rewrite A5 by done. by rewrite E1.
  - intros Hd. destruct (A7 Hd) as [B1 B2]. split; [done|]. intros Hf. apply B2. rewrite flag_input in *. by rewrite E1.
Qed.

Lemma same_line_stashed s s1 free bi oq iq : same_but_line s s1 -> ttyok qs s1 free bi oq iq ->
  stashed s free bi oq iq s1 [] (line (tp s1)) (t_escape (tp s1)).
Proof.
  intros (E1 & E2 & E3) Hok. split; try done.
  - exists free, bi. by rewrite app_nil_r.
  - intros k _ _. by rewrite E1.
Qed.

(** [edited] with what is known of the overflow flag. *)
Definition done_with s free bi oq iq s' d l n : Prop :=
  edited s free bi oq iq s' d l n /\ flag T_ISTOP (tp s') = flag T_ISTOP (tp s).

Lemma flag_istop x : flag T_ISTOP x = Z.testbit (t_flags x) 9.
Proof. by apply (flag_bit 9). Qed.

Lemma stashed_done s free bi oq iq s' d l n : stashed s free bi oq iq s' d l n -> done_with s free bi oq iq s' d l n.
Proof.
  intros [(free' & bi' & A1) A2 A3 A4 A5 A6 A7]. split; [split; try done|by rewrite !flag_istop, A5].
  exists free', bi', oq, []. split; [done|]. injection A6 as E1 E2 E3 E4. injection A4 as F1 _.
  apply flows_same; [|done]. apply remaining_ext; try done. by apply A5.
Qed.

Lemma done_outact {A} (m : M (sys D) A) s free bi oq iq s1 d l n : outact qs m -> done_with s free bi oq iq s1 d l n ->
  wp m (fun _ s2 => done_with s free bi oq iq s2 d l n) s1.
Proof.
  intros Hm [[(free1 & bi1 & oq1 & e1 & A1 & A2) A3 A4 A5 A6] A7]. eapply wp_mono; [by eapply Hm|].
  intros _ s2 (free2 & oq2 & e2 & [B1 B2 B3]). pose proof B2 as [O1 O2 O3 O4 O5 O6]. injection O2 as P1 P2 P3 P4. injection O3 as P5 P6 P7. injection O6 as R1 R2 R3 R4 R5 R6.
  split; [split|].
  - exists free2, bi1, oq2, (e1 ++ e2). split; [done|by eapply flows_trans].
  - rewrite <- A3. unfold line. by rewrite P1, P2, P4.
  - by rewrite P4.
  - rewrite <- A5. unfold settings. congruence.
  - intros Hd. destruct (A6 Hd) as [B4 B5]. split; [|intros Hf; by apply O5, B5]. by rewrite flag_input, O4, <- flag_input.
  - by rewrite flag_istop, O4, <- flag_istop.
Qed.

Lemma outact_erase_echo c dc : outact qs (erase_echo (D := D) c dc).
Proof.
  apply outact_bind; [apply outact_rd|]. intros x.
  assert (outact qs ((if Z.land dc 128 =? 0 then kret tt else (if Z.land dc 127 =? 8 then kret 0 else putoq 8) ;;; putoq 32 ;;; putoq 8 ;;; kret tt) ;;; ttstart (D := D))) as Hm.
  { apply outact_bind; [|intros _; apply outact_ttstart]. apply outact_if; [apply outact_ret|].
    apply outact_bind; [apply outact_if; auto with outact|]. auto with outact. }
  cbv zeta. apply outact_if; [by apply outact_bind; [apply outact_putoq|]|].
  apply outact_if; [apply outact_ret|]. apply outact_if; [|apply outact_if; [|done]].
  - apply outact_bind; [|done]. unfold put3. auto 10 with outact.
  - apply outact_bind; [apply outact_backspaces|done].
Qed.

(** The pool has two free blocks, so that a whole line finds room. *)
Lemma room_two s free bi oq iq : ttyok qs s free bi oq iq -> (2 <= length free)%nat -> NCIB <= room s free bi iq.
Proof.
  intros [[bo Hp%pool_swap] _ _ _ _ _] Hf. apply pool_head in Hp as (_ & Hq & _). unfold room, NCIB.
  assert (cq_ox (t_iq (tp s)) + Z.of_nat (length iq) <= NCPCL * Z.of_nat (length bi)) as Hle; [|unfold NCPCL in *; lia].
  destruct iq as [|c l].
  - pose proof (qrep_empty _ _ _ Hq) as ->. destruct (qrep_nil _ _ _ Hq) as (_ & ->). done.
  - destruct (qrep_size _ _ _ _ Hq ltac:(done)) as (H1 & H2 & H3). unfold NCPCL in *. lia.
Qed.

Lemma room_line s x free bi iq : t_iq x = t_iq (tp s) -> room (set_tp x s) free bi iq = room s free bi iq.
Proof. intros E. unfold room. cbn. by rewrite E. Qed.

Lemma enter_ext x y l c : t_tchars x = t_tchars y -> enter x l c = enter y l c.
Proof. intros E. unfold enter, ends. by rewrite E. Qed.

(** The escapes go into the buffer, and the character after them. *)
Lemma wp_escapes_stash c s free bi oq iq : ttyok qs s free bi oq iq -> 0 <= t_escape (tp s) ->
  t_ibx (tp s) + t_escape (tp s) < NCIB - 1 -> NCIB <= room s free bi iq ->
  wp (escapes escapes_fuel ;;; ttstash c)
    (fun _ s' => match enter (tp s) (line (tp s)) c with (l, n, d) => stashed s free bi oq iq s' d l n end) s.
Proof.
  intros Hok He Hi Hr. pose proof Hok as [H1 H2 H3 H4 H5 H6]. unfold NCIB in *.
  apply wp_bind, (wp_escapes _ s free bi oq iq); [done|lia|unfold NCIB; lia|unfold escapes_fuel, NCIB; lia|].
  intros ib Hl Ht. set (n := t_ibx (tp s) + t_escape (tp s)) in *. set (s1 := set_tp _ s).
  assert (ttyok qs s1 free bi oq iq) as Hok1 by (apply ttyok_buffer; [done|done|unfold NCIB; lia]).
  assert (line (tp s1) = line (tp s)) as El by (unfold line at 1; cbn; by rewrite app_nil_r, Ht).
  eapply wp_mono; [apply (wp_ttstash c s1 free bi oq iq); try done; cbn; unfold NCIB; lia|]. cbn beta.
  intros _ s2. rewrite El, (enter_ext (tp s1) (tp s)) by done. destruct (enter (tp s) (line (tp s)) c) as [[l m] d].
  by apply stashed_from.
Qed.

Lemma line_escape x : 0 <= t_escape x -> line (set_t_escape (t_escape x + 1) x) = line x ++ [ESC].
Proof.
  intros He. unfold line. cbn. rewrite <- app_assoc. f_equal. replace (Z.to_nat (t_escape x + 1)) with (S (Z.to_nat (t_escape x))) by lia.
  apply replicate_S_end.
Qed.

Lemma line_unescape x : 0 < t_escape x -> line (set_t_escape (t_escape x - 1) x) = removelast (line x).
Proof.
  intros He. unfold line. cbn. replace (Z.to_nat (t_escape x)) with (S (Z.to_nat (t_escape x - 1))) by lia.
  rewrite replicate_S_end, app_assoc. by rewrite removelast_last.
Qed.

(** While escapes are pending. *)
Lemma wp_ttin_escape c s free bi oq iq : ttyok qs s free bi oq iq -> 0 < t_escape (tp s) ->
  t_ibx (tp s) + t_escape (tp s) < NCIB - 1 -> NCIB <= room s free bi iq ->
  wp (ttin_escape c) (fun _ s' => match edit (tp s) (line (tp s)) (t_escape (tp s)) c with (l, n, d) => stashed s free bi oq iq s' d l n end) s.
Proof.
  intros Hok He Hi Hr. pose proof Hok as [H1 H2 H3 H4 H5 H6]. unfold edit. rewrite (proj2 (Z.ltb_lt _ _) He).
  unfold ttin_escape. apply wp_bind, wp_gets. unfold id. destruct (c =? ESC).
  - apply wp_modify. rewrite s16_small by (unfold NCIB in *; lia). rewrite <- line_escape by lia.
    apply (same_line_stashed s (set_tp (set_t_escape (t_escape (tp s) + 1) (tp s)) s)); [done|by apply (ttyok_tp qs s)].
  - destruct (_ || _).
    + apply wp_bind, wp_modify. rewrite s16_small by (unfold NCIB in *; lia). set (s1 := set_tp _ s).
      assert (ttyok qs s1 free bi oq iq) as Hok1 by (by apply (ttyok_tp qs s)).
      eapply wp_mono; [apply (wp_escapes_stash (Z.lor c 128) s1 free bi oq iq); [done|cbn; lia|cbn; lia|done]|]. cbn beta.
      intros _ s2. rewrite (enter_ext (tp s1) (tp s)) by done. unfold s1 at 1. cbn [tp set_tp]. rewrite line_unescape by done.
      destruct (enter (tp s) _ _) as [[l m] d]. by apply stashed_from.
    + apply wp_bind, wp_ret. apply wp_escapes_stash; (done || lia).
Qed.

Lemma wp_ttin_escaped c s free bi oq iq : ttyok qs s free bi oq iq -> 0 < t_escape (tp s) ->
  t_ibx (tp s) + t_escape (tp s) < NCIB - 1 -> NCIB <= room s free bi iq ->
  wp (ttin_escaped c) (fun _ s' => match edit (tp s) (line (tp s)) (t_escape (tp s)) c with (l, n, d) => done_with s free bi oq iq s' d l n end) s.
Proof.
  intros Hok He Hi Hr. apply wp_bind. eapply wp_mono; [by apply (wp_ttin_escape c s free bi oq iq)|]. cbn beta. intros _ s1.
  destruct (edit _ _ _ _) as [[l n] d]. intros H1%stashed_done.
  apply (done_outact (x <- rd id ;; if mode ECHO x then putoq (Z.land c 127) ;;; ttstart else kret tt) s free bi oq iq s1); [|done].
  apply outact_bind; [apply outact_rd|]. intros x. auto 10 with outact.
Qed.

Lemma wp_escapes_none s (Q : unit -> sys D -> Prop) : t_escape (tp s) = 0 -> Q tt s -> wp (escapes escapes_fuel) Q s.
Proof. intros E HQ. unfold escapes_fuel. cbn. apply wp_bind, wp_gets. unfold id. rewrite E. by apply wp_ret. Qed.

Lemma wp_ttin_erase c s free bi oq iq : ttyok qs s free bi oq iq -> t_escape (tp s) = 0 ->
  wp (ttin_erase c) (fun _ s' => done_with s free bi oq iq s' [] (removelast (line (tp s))) 0) s.
Proof.
  intros Hok He. pose proof Hok as [H1 H2 H3 H4 H5 H6]. unfold NCIB in *. unfold ttin_erase.
  assert (line (tp s) = take (Z.to_nat (t_ibx (tp s))) (t_ib (tp s))) as El by (unfold line; by rewrite He, app_nil_r).
  apply wp_bind, wp_escapes_none, wp_bind, wp_gets; [done|]. unfold id. destruct (Z.eqb_spec (t_ibx (tp s)) 0) as [E0|E0].
  - apply wp_ret, stashed_done. assert (line (tp s) = []) as En by (by rewrite El, E0).
    apply (same_line_stashed s s free bi oq iq) in Hok; [|done]. by rewrite En, He in *.
  - apply wp_bind, wp_modify, wp_bind. set (s1 := set_tp _ s).
    destruct (lookup_lt_is_Some_2 (t_ib (tp s)) (Z.to_nat (t_ibx (tp s) - 1))) as [dc Hdc]; [lia|].
    eapply wp_deref; [unfold aget; rewrite (proj2 (Z.ltb_ge _ _)) by lia; exact Hdc|].
    apply (done_outact (if mode ECHO (tp s) then erase_echo c dc else kret tt) s free bi oq iq s1).
    + apply outact_if; [apply outact_erase_echo|apply outact_ret].
    + apply stashed_done. assert (line (tp s1) = removelast (line (tp s))) as El1.
      { rewrite El. unfold line. cbn. rewrite He, app_nil_r. replace (Z.to_nat (t_ibx (tp s))) with (S (Z.to_nat (t_ibx (tp s) - 1))) by lia.
        symmetry. apply removelast_firstn. lia. }
      rewrite <- El1, <- He. apply (same_line_stashed s s1); [done|]. apply (ttyok_tp qs s); try done. cbn. unfold NCIB. lia.
Qed.

Lemma wp_ttin_kill c s free bi oq iq : ttyok qs s free bi oq iq ->
  wp (ttin_kill c) (fun _ s' => done_with s free bi oq iq s' [] [] 0) s.
Proof.
  intros Hok. pose proof Hok as [H1 H2 H3 H4 H5 H6]. apply wp_bind, wp_modify, wp_bind, wp_modify. set (s1 := set_tp _ (set_tp _ s)).
  apply (done_outact _ s free bi oq iq s1).
  - apply outact_bind; [apply outact_rd|]. intros x. apply outact_if; [|apply outact_ret].
    apply outact_bind; [|auto with outact]. apply outact_if; auto with outact.
  - apply stashed_done. apply (same_line_stashed s s1); [done|]. by apply (ttyok_tp qs s).
Qed.

Lemma pool_count s free bi oq iq : ttyok qs s free bi oq iq -> cq_cc (t_iq (tp s)) = Z.of_nat (length iq).
Proof. intros [[bo Hp%pool_swap] _ _ _ _ _]. apply pool_head in Hp as (_ & (_ & Hc & _) & _). done. Qed.

(** The flow control at the end: [T_ISTOP] is set when the queue is too long. *)
Lemma wp_flow_control s free bi oq iq s1 d l n : done_with s free bi oq iq s1 d l n ->
  wp (y <- rd id ;;
      let n := cq_cc (t_iq y) in
      if IHILIM <=? n then setf T_ISTOP
      else if mode TANDEM y && negb (flag T_TSTOP y) && (ITSLIM <=? n) then
        setf T_TSTOP ;;; putoq (t_stopc (t_tchars y)) ;;; ttstart
      else kret tt)
    (fun _ s' => edited s free bi oq iq s' d l n /\
       (flag T_ISTOP (tp s') = true -> flag T_ISTOP (tp s) = true \/ IHILIM <= Z.of_nat (length (iq ++ d)))) s1.
Proof.
  intros Hd. pose proof Hd as [[(free1 & bi1 & oq1 & e1 & A1 & A2) A3 A4 A5 A6] A7]. apply wp_bind, wp_gets. unfold id. cbv zeta.
  rewrite (pool_count s1 free1 bi1 oq1 (iq ++ d)) by done.
  assert (forall f, f ∈ [T_ISTOP; T_TSTOP] -> edited s free bi oq iq (set_tp (set_t_flags (Z.lor (t_flags (tp s1)) f) (tp s1)) s1) d l n) as Hset.
  { intros f Hf. assert (Z.testbit f 4 = false /\ Z.testbit f 2 = false) as [F4 F2] by (rewrite !elem_of_cons, elem_of_nil in Hf; by destruct Hf as [->|[->|[]]]).
    split; try done.
    - exists free1, bi1, oq1, e1. split; [by apply ttyok_flags|]. intros x. rewrite A2. unfold stream. f_equal.
      symmetry. apply remaining_ext; try done. unfold set_tp; cbn [tp t_flags set_t_flags]; by rewrite testbit_set, F4, orb_false_r.
    - intros Hne. destruct (A6 Hne) as [B1 B2]. split; [|done]. rewrite flag_input in *. unfold set_tp; cbn [tp t_flags set_t_flags]; by rewrite testbit_set, F2, orb_false_r. }
  destruct (Z.leb_spec IHILIM (Z.of_nat (length (iq ++ d)))).
  { apply wp_modify. split; [apply Hset; set_solver|]. by right. }
  destruct (_ && _); [|apply wp_ret; split; [by apply Hd|]; rewrite A7; by left].
  apply wp_bind, wp_modify. set (s2 := set_tp _ s1).
  assert (done_with s free bi oq iq s2 d l n) as H2.
  { split; [apply Hset; set_solver|]. rewrite <- A7, !flag_istop. unfold s2, set_tp; cbn [tp t_flags set_t_flags]; by rewrite testbit_set, orb_false_r. }
  eapply wp_mono; [apply (done_outact _ s free bi oq iq s2 d l n); [|done]; auto with outact|].
  intros _ s3 [B1 B2]. split; [done|]. rewrite B2. by left.
Qed.

Lemma wp_ttin_store c s free bi oq iq : ttyok qs s free bi oq iq -> t_escape (tp s) = 0 -> t_ibx (tp s) < NCIB - 1 -> NCIB <= room s free bi iq ->
  mode RAWIN (tp s) = false -> mode CBREAK (tp s) = false ->
  wp (ttin_store c)
    (fun _ s' => match (if c =? ESC then (line (tp s) ++ [ESC], 1, []) else enter (tp s) (line (tp s)) c) with (l, n, d) =>
       edited s free bi oq iq s' d l n /\ (flag T_ISTOP (tp s') = true -> flag T_ISTOP (tp s) = true \/ IHILIM <= Z.of_nat (length (iq ++ d))) end) s.
Proof.
  intros Hok He Hi Hr Hraw Hcb. pose proof Hok as [H1 H2 H3 H4 H5 H6]. unfold ttin_store. apply wp_bind, wp_gets. unfold id.
  rewrite cooked_bbyb by done. apply wp_bind, wp_bind.
  apply (wp_mono _ (fun _ s1 => same_but_line s s1 /\ ttyok qs s1 free bi oq iq /\ line (tp s1) = line (tp s) /\ t_escape (tp s1) = 0 /\
    t_ibx (tp s1) = t_ibx (tp s) /\ t_iq (tp s1) = t_iq (tp s) /\ t_tchars (tp s1) = t_tchars (tp s))).
  { destruct (t_ibx (tp s) =? 0); [apply wp_modify|by apply wp_ret]. split_and!; [done|by apply (ttyok_tp qs s)|done..]. }
  intros _ s1 (S1 & S2 & S3 & S4 & S5 & S6 & S7).
  eapply wp_mono.
  { instantiate (1 := fun _ s2 => match (if c =? ESC then (line (tp s) ++ [ESC], 1, []) else enter (tp s) (line (tp s)) c) with (l, n, d) => stashed s free bi oq iq s2 d l n end).
    destruct (c =? ESC).
    - apply wp_modify. rewrite S4. cbn [Z.add]. change (s16 1) with 1. pose proof S2 as [T1 T2 T3 T4 T5 T6].
      assert (line (set_t_escape 1 (tp s1)) = line (tp s) ++ [ESC]) as <-.
      { rewrite <- S3. rewrite <- line_escape by lia. by rewrite S4. }
      apply (same_line_stashed s (set_tp (set_t_escape 1 (tp s1)) s1)); [|by apply (ttyok_tp qs s1)]. destruct S1 as (E1 & E2 & E3). done.
    - eapply wp_mono; [apply (wp_ttstash c s1 free bi oq iq); [done|done|lia|unfold room in *; by rewrite S6]|]. cbn beta. intros _ s2.
      rewrite S3, (enter_ext _ _ _ _ S7). destruct (enter _ _ _) as [[l n] d]. by apply stashed_from. }
  cbn beta. intros _ s2. destruct (if c =? ESC then _ else _) as [[l n] d]. intros Hs%stashed_done. apply wp_bind.
  eapply wp_mono; [apply (done_outact _ s free bi oq iq s2 d l n); [|exact Hs]|].
  { apply outact_if; auto with outact. }
  cbn beta. intros u s3 H3a. by apply wp_flow_control.
Qed.

(** The characters of [ttin_now]. *)
Definition plain (x : TTY) (c : Z) : Prop :=
  t_intrc (t_tchars x) <> c /\ t_quitc (t_tchars x) <> c /\ t_stopc (t_tchars x) <> c /\ t_startc (t_tchars x) <> c.

(** What the editor sees of the character [c] from the line. *)
Definition seen (x : TTY) (c : Z) : Z :=
  let c := Z.land c 127 in if (c =? 13) && mode CRMOD x then 10 else c.

(** C6: In cooked mode [ttin] edits the line as [edit] says: what the editor
    delivers goes behind the input queue, in order, with the readers woken, and
    what is echoed goes behind the output queue; all within the buffer, as long
    as the line is not full and the pool has two blocks left.  The overflow stop
    is set only when the queue has reached its limit. *)
Theorem ttin_edits c s free bi oq iq : ttyok qs s free bi oq iq -> 0 <= t_escape (tp s) ->
  t_ibx (tp s) + t_escape (tp s) < NCIB - 1 -> (2 <= length free)%nat ->
  mode RAWIN (tp s) = false -> mode CBREAK (tp s) = false -> flag T_ISTOP (tp s) = false -> plain (tp s) (Z.land c 127) ->
  wp (ttin c) (fun _ s' =>
    match edit (tp s) (line (tp s)) (t_escape (tp s)) (seen (tp s) c) with (l, n, d) =>
      edited s free bi oq iq s' d l n /\ (flag T_ISTOP (tp s') = true -> IHILIM <= Z.of_nat (length (iq ++ d)))
    end) s.
Proof.
  intros Hok He Hi Hf Hraw Hcb Hst (P1 & P2 & P3 & P4). pose proof (room_two _ _ _ _ _ Hok Hf) as Hroom.
  unfold ttin. apply wp_bind, wp_gets. unfold id. rewrite Hraw. apply wp_bind. set (k := Z.land c 127) in *.
  apply (wp_mono _ (fun b s1 => b = false /\ s1 = s)).
  { unfold ttin_now. apply wp_bind, wp_gets. unfold id. cbv zeta. rewrite !(proj2 (Z.eqb_neq _ _)) by done. by apply wp_ret. }
  intros b s1 [-> ->]. apply wp_bind, wp_gets. unfold id. rewrite Hst. unfold seen. fold k. cbv zeta.
  set (c' := if (k =? 13) && mode CRMOD (tp s) then 10 else k). rewrite Hcb.
  assert (forall s' d l n, done_with s free bi oq iq s' d l n -> edited s free bi oq iq s' d l n /\
    (flag T_ISTOP (tp s') = true -> IHILIM <= Z.of_nat (length (iq ++ d)))) as Hdone.
  { intros s' d l n [B1 B2]. split; [done|]. by rewrite B2, Hst. }
  destruct (Z.eqb_spec (t_escape (tp s)) 0) as [E0|E0]; cbn [negb].
  2:{ eapply wp_mono; [apply (wp_ttin_escaped c' s free bi oq iq); (done || lia)|]. cbn beta. intros _ s'.
      destruct (edit _ _ _ _) as [[l n] d]. apply Hdone. }
  unfold edit. rewrite E0. cbn [Z.ltb Z.compare andb negb]. rewrite !andb_true_r.
  destruct (sg_erase (t_sgttyb (tp s)) =? c').
  { eapply wp_mono; [by apply (wp_ttin_erase c' s free bi oq iq)|]. cbn beta. intros u s'. apply Hdone. }
  destruct (sg_kill (t_sgttyb (tp s)) =? c').
  { eapply wp_mono; [by apply (wp_ttin_kill c' s free bi oq iq)|]. cbn beta. intros u s'. apply Hdone. }
  eapply wp_mono; [apply (wp_ttin_store c' s free bi oq iq); (done || lia)|]. cbn beta. intros _ s'.
  destruct (if c' =? ESC then _ else _) as [[l n] d]. intros [B1 B2]. split; [done|]. intros F. destruct (B2 F); [congruence|done].
Qed.
End Editor.

(** An erase character after [ab], on the terminal of [Terminal]. *)
Lemma ttin_edits_witness :
  let s := Terminal.state in
  (ttyok [] s [512; 768; 1024] [] Terminal.queued [] /\ 0 <= t_escape (tp s) /\ t_ibx (tp s) + t_escape (tp s) < NCIB - 1 /\
   mode RAWIN (tp s) = false /\ mode CBREAK (tp s) = false /\ flag T_ISTOP (tp s) = false /\ plain (tp s) (Z.land 120 127)) /\
  wp (@ttin AL (al_driver 0) 120) (fun _ s' =>
    edited [] s [512; 768; 1024] [] Terminal.queued [] s' [] [120] 0 /\ (flag T_ISTOP (tp s') = true -> IHILIM <= 0)) s.
Proof.
  split; [split; [apply Terminal.terminal_ok|done]|].
  apply (@ttin_edits AL (al_driver 0) al_line (al_laws 0) [] 120 Terminal.state [512; 768; 1024] [] Terminal.queued []);
    [apply Terminal.terminal_ok|done..|cbn; lia|done|done|done|done].
Defined.

(** What a list of characters leaves in the input queue. *)
Fixpoint type_in (l : list Z) : M (sys AL) unit :=
  match l with [] => kret tt | c :: l => @ttin AL (al_driver 0) c ;;; type_in l end.
Fixpoint take_out (n : nat) : M (sys AL) (list Z) :=
  match n with
  | O => kret []
  | S n => c <- getiq ;; if c <? 0 then kret [] else l <- take_out n ;; kret (c :: l)
  end.
Definition typing (l : list Z) : option (list Z) :=
  match kbind (type_in l) (fun _ => take_out 80) Terminal.state with Ret r _ => Some r | _ => None end.

(** [ab], erase, [c], return; a line killed; erase and end of file quoted. *)
Example typing_lines : typing [97; 98; 8; 99; 13] = Some [97; 99; 10] /\ typing [97; 98; 64; 99; 10] = Some [99; 10] /\
  typing [97; 92; 8; 10] = Some [97; 8; 10] /\ typing [92; 92; 97; 10] = Some [92; 92; 97; 10] /\ typing [97; 92; 4] = Some [97; 92; 4] /\ typing [97] = Some [].
Proof. by vm_compute. Qed.
