(* ===== verification/TtyRead.v ===== *)
(** The terminal service: what a process reads. *)
From S2P Require Import Prelude Sched Clist Bytes Bcache Super Fs Fmap Umem Tty TtyLaws.
Local Open Scope Z_scope.
Local Open Scope kernel_scope.

(** What a read of up to [n] characters gets of the characters [l] that have been
    typed: a line, without the end-of-file character that may end it; and the
    characters that stay.  None while the line has no end yet. *)
Fixpoint fetch (eof brk : Z) (n : nat) (l : list Z) : option (list Z * list Z) :=
  match n, l with
  | O, _ => Some ([], l)
  | S _, [] => None
  | S n, c :: l =>
    let c := u8 c in
    if eof =? c then Some ([], l)
    else if (c =? 10) || (brk =? c) then Some ([c], l)
    else match fetch eof brk n l with Some (got, rest) => Some (c :: got, rest) | None => None end
  end.

Section Reading.
Context {D : Type} `{!TtyDriver D}.
(** What has been put into the input queue, as the device remembers it. *)
Variable hist : D -> list Z.
Implicit Types (s : sys D) (iq d : list Z) (io : IO).

(** The input queue holds [iq]. *)
Definition tty s iq : Prop := exists qs free bi oq, ttyok qs s free bi oq iq.

Definition same s s' : Prop :=
  umem s' = umem s /\ u_error s' = u_error s /\ t_sgttyb (tp s') = t_sgttyb (tp s) /\ t_tchars (tp s') = t_tchars (tp s) /\
  flag T_CARR (tp s') = flag T_CARR (tp s) /\ flag T_TSTOP (tp s') = flag T_TSTOP (tp s).

(** What may happen during a sleep: characters [d] are typed. *)
Definition came s s' d : Prop := hist (dv s') = hist (dv s) ++ d.
Definition typed s s' : Prop := same s s' /\ exists d, came s s' d /\ forall iq, tty s iq -> tty s' (iq ++ d).

Lemma came_nil s s' : dv s' = dv s -> came s s' [].
Proof. intros E. unfold came. by rewrite E, app_nil_r. Qed.
Lemma came_app s1 s2 s3 d1 d2 : came s1 s2 d1 -> came s2 s3 d2 -> came s1 s3 (d1 ++ d2).
Proof. unfold came. intros H1 H2. by rewrite H2, H1, app_assoc. Qed.

(** The sleeps of a reader: only an empty queue is waited for, and [ttin] is told. *)
Definition in_waits (ch : chan) s : Prop :=
  match ch with ChTtyIn => tty s [] /\ flag T_INPUT (tp s) = true | ChIntr => True | _ => False end.

(** Lines are read: no raw or break mode; the carrier is there and no stop character is out. *)
Definition lines s : Prop :=
  mode RAWIN (tp s) = false /\ mode CBREAK (tp s) = false /\ flag T_CARR (tp s) = true /\ flag T_TSTOP (tp s) = false /\ u_error s = 0.

Lemma same_refl s : same s s.
Proof. by split_and!. Qed.
Lemma same_trans s1 s2 s3 : same s1 s2 -> same s2 s3 -> same s1 s3.
Proof. unfold same. intuition congruence. Qed.
Lemma lines_same s s' : same s s' -> lines s -> lines s'.
Proof. intros (E1 & E2 & E3 & E4 & E5 & E6) (H1 & H2 & H3 & H4 & H5). unfold lines. rewrite !(mode_ext _ _ _ E3). by rewrite E5, E6, E2. Qed.

Lemma tty_flags s v iq : tty s iq -> tty (set_tp (set_t_flags v (tp s)) s) iq.
Proof. intros (qs & free & bi & oq & Hok). exists qs, free, bi, oq. pose proof Hok as [H1 H2 H3 H4 H5 H6]. by apply (ttyok_tp qs s). Qed.

(** A flag that only the reader has to do with. *)
Lemma same_setf f s : Z.testbit f 11 = false -> Z.testbit f 8 = false -> same s (set_tp (set_t_flags (Z.lor (t_flags (tp s)) f) (tp s)) s).
Proof.
  intros H1 H2. split_and!; try done; unfold flag; cbn [tp set_tp t_flags set_t_flags].
  - change T_CARR with (2 ^ 11). rewrite !land_pow2, testbit_set, H1 by done. by rewrite orb_false_r.
  - change T_TSTOP with (2 ^ 8). rewrite !land_pow2, testbit_set, H2 by done. by rewrite orb_false_r.
Qed.
Lemma same_clrf f s : Z.testbit f 11 = false -> Z.testbit f 8 = false -> same s (set_tp (set_t_flags (Z.land (t_flags (tp s)) (Z.lnot f)) (tp s)) s).
Proof.
  intros H1 H2. split_and!; try done; unfold flag; cbn [tp set_tp t_flags set_t_flags].
  - change T_CARR with (2 ^ 11). rewrite !land_pow2, testbit_clear, H1 by done. by rewrite andb_true_r.
  - change T_TSTOP with (2 ^ 8). rewrite !land_pow2, testbit_clear, H2 by done. by rewrite andb_true_r.
Qed.

Lemma wp_getiq_tty s iq Q : tty s iq -> (iq = [] -> Q (-1) s) ->
  (forall c l s', iq = c :: l -> tty s' l -> same s s' -> dv s' = dv s -> Q (u8 c) s') -> wp getiq Q s.
Proof.
  intros (qs & free & bi & oq & Hok) Hno Hyes. apply (wp_getiq qs s free bi oq iq); [done|done|].
  intros c l q st free' bi' E Hok'. apply (Hyes c l); [done| |by split_and!|done]. by exists qs, free', bi', oq.
Qed.

Lemma within_get n fuel got s iq Q : tty s iq -> lines s -> (n < fuel)%nat ->
  (forall m c l d s', (m <= n)%nat -> iq ++ d = c :: l -> tty s' l -> same s s' -> came s s' d -> Q m (Some (u8 c)) s') ->
  within typed in_waits n (ttread_get fuel got s) Q.
Proof.
  revert n s iq. induction fuel as [|fuel IH]; intros n s iq Ht Hl Hf HQ; [lia|]. cbn [ttread_get].
  apply within_step, (wp_getiq_tty s iq); [done| |].
  - intros ->. change (0 <=? -1) with false. cbv iota. pose proof Hl as (L1 & L2 & L3 & L4 & L5). apply within_step, wp_gets. unfold id.
    rewrite L3. cbn [negb]. rewrite cooked_bbyb by done. cbn [andb]. apply within_step, wp_modify. set (s1 := set_tp _ s).
    assert (same s s1) as S1 by (by apply same_setf). assert (tty s1 []) as T1 by (by apply tty_flags). apply within_sleep.
    { split; [done|]. unfold s1, flag. cbn [tp set_tp t_flags set_t_flags]. change T_INPUT with (2 ^ 2). rewrite land_pow2, testbit_set by done. apply orb_true_r. }
    intros n' -> s2 (S2 & d & C2 & R2). pose proof (R2 [] T1) as T2. pose proof (same_trans _ _ _ S1 S2) as S3.
    apply (IH n' s2 d); [done|by apply (lines_same s)|lia|]. intros m c l d' s' Hm E T' S' C'.
    apply (HQ m c l (d ++ d')); [lia|done|done|by eapply same_trans|by apply (came_app _ s2)].
  - intros c l s' -> T' S' E'. pose proof (u8_range c). rewrite (proj2 (Z.leb_le 0 (u8 c))) by lia. apply within_wp, wp_ret.
    apply (HQ n c l []); [lia|by rewrite app_nil_r|done|done|by apply came_nil].
Qed.

Lemma wp_flow retry s iq : tty s iq -> lines s -> wp (ttread_flow retry) (fun _ s' => tty s' iq /\ same s s' /\ dv s' = dv s) s.
Proof.
  intros Ht (L1 & L2 & L3 & L4 & L5). unfold ttread_flow. apply wp_bind, wp_gets. unfold id. rewrite L4.
  destruct (_ <=? _); [|apply wp_ret; split_and!; done]. apply wp_bind. destruct (flag T_ISTOP (tp s)).
  - apply wp_modify, wp_ret. split; [by apply tty_flags|]. split; [by apply same_clrf|done].
  - apply wp_ret, wp_ret. split_and!; done.
Qed.

Lemma tty_other s s' iq : tty s iq -> tp s' = tp s -> cl s' = cl s -> tty s' iq.
Proof. intros (qs & free & bi & oq & [H1 H2 H3 H4 H5 H6]) E1 E2. exists qs, free, bi, oq. constructor; by rewrite ?E1, ?E2. Qed.

(** What a read has done when it returns: [got] is in the memory of the process
    and [rest] still in the queue; a byte that has no place is lost. *)
Record read_done n s iq io d s' io' got rest : Prop := {
  rr_came : came s s' d;
  rr_tty : tty s' rest;
  rr_mem : poured (umem s) (umem s') (io_seg io) (io_base io) got;
  rr_done : u_error s' = 0 -> fetch (t_eofc (t_tchars (tp s))) (t_brkc (t_tchars (tp s))) n (iq ++ d) = Some (got, rest) /\
    io_ioc io' = io_ioc io - Z.of_nat (length got);
  rr_fault : u_error s' <> 0 -> u_error s' = EFAULT /\ umem s (io_seg io) (io_base io + Z.of_nat (length got)) = None /\
    exists p c, iq ++ d = p ++ c :: rest /\ got = map u8 p
}.

Lemma wp_ioputc c s io Q : io_seg io = IOUSR -> 0 < io_ioc io < 65536 -> u_error s = 0 ->
  (umem s (io_seg io) (io_base io) = None -> Q (-1, io_next io) (set_u_error EFAULT s)) ->
  (forall b, umem s (io_seg io) (io_base io) = Some b ->
     Q (c, io_next io) (set_umem (fun sp x => if (sp =? io_seg io) && (x =? io_base io) then Some (u8 c) else umem s sp x) s)) ->
  wp (ioputc c io) Q s.
Proof.
  intros Hs Hi He Hno Hyes. unfold ioputc. rewrite (proj2 (Z.eqb_neq _ _)) by lia. apply wp_bind, wp_gets. cbv zeta.
  assert ((io_seg io =? IOSYS) = false) as E by (by rewrite Hs).
  destruct (umem s (io_seg io) (io_base io)) as [b|] eqn:Em.
  - apply wp_bind, wp_modify, wp_bind, wp_gets, wp_ret. cbn [u_error set_umem]. rewrite He, andb_false_r. by apply (Hyes b).
  - rewrite E. apply wp_bind, wp_modify, wp_ret. by apply Hno.
Qed.

Lemma fetch_end x k c l : (t_eofc (t_tchars x) =? u8 c) = false -> (u8 c =? 10) || (t_brkc (t_tchars x) =? u8 c) = true ->
  fetch (t_eofc (t_tchars x)) (t_brkc (t_tchars x)) (S k) (c :: l) = Some ([u8 c], l).
Proof. intros E1 E2. cbn. by rewrite E1, E2. Qed.

(** One character more in front of what the rest of the loop does. *)
Lemma read_done_cons k s s4 iq l io c d d3 d' s' io' got rest : iq ++ d = c :: l -> same s (set_umem (umem s) s4) -> io_ioc io = Z.of_nat (S k) -> Z.of_nat (S k) < 65536 ->
  umem s4 = (fun sp x => if (sp =? io_seg io) && (x =? io_base io) then Some (u8 c) else umem s sp x) ->
  (t_eofc (t_tchars (tp s)) =? u8 c) = false -> (u8 c =? 10) || (t_brkc (t_tchars (tp s)) =? u8 c) = false ->
  came s s4 (d ++ d3) -> read_done k s4 (l ++ d3) (io_next io) d' s' io' got rest -> read_done (S k) s iq io (d ++ d3 ++ d') s' io' (u8 c :: got) rest.
Proof.
  intros Ec (S1 & S2 & S3 & S4 & _) Hk Hb Em E1 E2 C4 [C5 R1 R2 R3 R4]. cbn [tp set_umem] in S4.
  assert (iq ++ d ++ d3 ++ d' = c :: (l ++ d3) ++ d') as Eq by (by rewrite !app_assoc, Ec).
  assert (poured (umem s) (umem s4) (io_seg io) (io_base io) [u8 c]) as Hp.
  { rewrite Em. pose proof (poured_snoc (umem s) (umem s) (io_seg io) (io_base io) [] (u8 c) (poured_nil _ _ _)) as Hp. cbn in Hp. by rewrite Z.add_0_r in Hp. }
  split; [rewrite app_assoc; by apply (came_app _ s4)|done|..].
  - change (u8 c :: got) with ([u8 c] ++ got). by apply (poured_app _ (umem s4)).
  - intros He. destruct (R3 He) as [F1 F2]. cbn in F2. rewrite u16_small in F2 by lia. rewrite Eq. cbn [fetch]. rewrite E1, E2, <- S4, F1.
    split; [done|]. cbn [length]. lia.
  - intros He. destruct (R4 He) as (F1 & F2 & p & c' & F3 & ->). cbn [length io_next io_seg io_base] in F2 |- *. split_and!; [done| |exists (c :: p), c'; by rewrite Eq, F3].
    rewrite <- (poured_other _ _ _ _ _ _ _ Hp); [|cbn; lia]. rewrite <- F2. f_equal. lia.
Qed.

Lemma within_ttread_loop retry n k s iq io sioc : tty s iq -> lines s -> io_seg io = IOUSR -> io_ioc io = Z.of_nat k -> Z.of_nat k < 65536 -> (n < retry)%nat ->
  within typed in_waits n (ttread_loop retry k sioc io s)
    (fun _ io' s' => exists d got rest, read_done k s iq io d s' io' got rest).
Proof.
  revert n s iq io. induction k as [|k IH]; intros n s iq io Ht Hl Hseg Hk Hb Hf; cbn [ttread_loop].
  { apply within_wp, wp_ret. exists [], [], iq. pose proof Hl as (L1 & L2 & L3 & L4 & L5). split; [by apply came_nil|done|apply poured_nil| |done].
    intros _. rewrite app_nil_r. split; [done|cbn; lia]. }
  apply within_kbind, (within_get n retry _ s iq); [done|done|lia|]. intros m c l d s1 Hm Ec T1 S1 C1. cbv beta iota.
  apply within_step. eapply wp_mono; [apply (wp_flow retry s1 l); [done|by apply (lines_same s)]|]. intros u s2 (T2 & S2 & E2d).
  apply within_sleep; [done|]. intros n' -> s3 (S3 & d3 & C3 & R3). pose proof (R3 l T2) as T3.
  assert (came s s3 (d ++ d3)) as C03 by (apply (came_app _ s1); [done|unfold came; by rewrite <- E2d]).
  assert (same s s3) as S03 by (eapply same_trans; [exact S1|by eapply same_trans]). pose proof (lines_same _ _ S03 Hl) as Hl3.
  pose proof S03 as (M1 & M2 & M3 & M4 & M5 & M6). pose proof Hl3 as (L1 & L2 & L3 & L4 & L5). pose proof (u8_range c) as Hc.
  assert (iq ++ d ++ d3 = c :: l ++ d3) as Eq by (by rewrite app_assoc, Ec).
  apply within_step, wp_gets. unfold id. cbv zeta. rewrite cooked_bbyb by done. cbn [negb andb]. rewrite M4.
  destruct (t_eofc (t_tchars (tp s)) =? u8 c) eqn:E1.
  { apply within_wp, wp_ret. exists (d ++ d3), [], (l ++ d3). split; [done..|rewrite M1; apply poured_nil| |by rewrite L5]. intros _. rewrite Eq. cbn. rewrite E1. split; [done|lia]. }
  apply within_step, wp_ioputc; [done|lia|done|..].
  { intros Hno. cbn [fst snd]. change (-1 <? 0) with true. cbv iota. apply within_wp, wp_ret. exists (d ++ d3), [], (l ++ d3).
    split; [done|by apply (tty_other s3)|rewrite <- M1; apply poured_nil|done|]. intros _. split_and!; [done|by rewrite <- M1, Z.add_0_r|]. by exists [], c. }
  intros b Hyes. cbn [fst snd]. rewrite (proj2 (Z.ltb_ge (u8 c) 0)) by lia. set (s4 := set_umem _ s3).
  assert (tty s4 (l ++ d3)) as T4 by (by apply (tty_other s3)).
  assert (umem s4 = (fun sp x => if (sp =? io_seg io) && (x =? io_base io) then Some (u8 c) else umem s sp x)) as Em.
  { unfold s4. cbn [umem set_umem]. by rewrite (u8_small (u8 c)), M1. }
  apply within_step, wp_gets. unfold id. change (tp s4) with (tp s3). rewrite cooked_bbyb by done. cbn [negb andb]. rewrite M4.
  destruct ((u8 c =? 10) || _) eqn:E2.
  { apply within_wp, wp_ret. exists (d ++ d3), [u8 c], (l ++ d3). split; [done|done| | |by intros []].
    - rewrite Em. pose proof (poured_snoc (umem s) (umem s) (io_seg io) (io_base io) [] (u8 c) (poured_nil _ _ _)) as Hp. cbn in Hp. by rewrite Z.add_0_r in Hp.
    - intros _. rewrite Eq, fetch_end by done. split; [done|]. cbn. rewrite u16_small; lia. }
  eapply within_mono; [|apply (IH n' s4 (l ++ d3) (io_next io)); [done|by split_and!|done|cbn; rewrite u16_small; lia|lia|lia]].
  intros m' io' s' _ (d' & got & rest & Hd). exists (d ++ d3 ++ d'), (u8 c :: got), rest. apply (read_done_cons k s s4 iq l io c d d3 d'); try done.
Qed.

(** C7: [ttread] of lines, with characters typed while it sleeps: it takes the next line
    - up to the new line or break character, or up to the end-of-file character, which
    is taken and not delivered, or as much as was asked for - to the memory of the process,
    in order, and leaves what comes after, nothing lost or made up: the line is the
    first of what was in the queue and of exactly what came in meanwhile.  It sleeps for
    input only on an empty queue, with [T_INPUT] set so that [ttin] wakes it, and
    where it lets the interrupts in.  With fuel for [n] sleeps it does not run out of
    fuel in [n] sleeps; a byte that has no place in memory ends it with EFAULT, and is lost. *)
Theorem ttread_reads_line retry n s iq io : tty s iq -> lines s -> io_seg io = IOUSR -> 0 <= io_ioc io < 65536 -> (n < retry)%nat ->
  within typed in_waits n (ttread retry io s)
    (fun _ io' s' => exists d got rest, read_done (Z.to_nat (io_ioc io)) s iq io d s' io' got rest).
Proof. intros Ht Hl Hs Hi Hn. apply within_ttread_loop; (done || lia). Qed.
End Reading.

Definition to_user (n a : Z) : IO := Io IOUSR n 0 a 0.

Lemma ttread_reads_line_witness :
  let s := Terminal.on ([] : list Z) in
  tty s [] /\ lines s /\
  within (typed (@rev Z)) in_waits 5 (@ttread _ Terminal.memory_driver 6 (to_user 80 100) s)
    (fun _ io' s' => exists d got rest, read_done (@rev Z) 80 s [] (to_user 80 100) d s' io' got rest).
Proof.
  assert (tty (Terminal.on ([] : list Z)) []) as Ht by (exists [], [512; 768; 1024], [], Terminal.queued; apply Terminal.terminal_ok).
  split; [done|]. split; [done|]. by apply (@ttread_reads_line _ Terminal.memory_driver (@rev Z) 6 5 _ [] (to_user 80 100)); [..|lia].
Defined.

(** A line is cut at its end, the end-of-file character taken. *)
Example fetch_line : fetch 4 (-1) 80 [108; 115; 10; 120] = Some ([108; 115; 10], [120]) /\
  fetch 4 (-1) 80 [97; 98; 4; 99] = Some ([97; 98], [99]) /\ fetch 4 (-1) 80 [97; 98] = None /\ fetch 4 (-1) 1 [97; 98] = Some ([97], [98]).
Proof. done. Qed.
